(* ===== verification/_CoqProject ===== *)
-Q . S2P
Prelude.v
Scan.v
BitArray.v
Hash.v
Qtimer.v
Switch.v
PacketQ.v
MainLoop.v
PortSend.v
Fstp.v
Port.v
Console.v
SwitchInv.v
SpanInv.v
SwitchSafe.v
PortSafe.v
PortLife.v
VlanSafe.v
VlanLife.v
Forward.v
ConsoleSafe.v
System.v
WireFilter.v
SplitPacket.v
Doubles.v
WireLine.v
WireFacts.v
WireInv.v
WireConsole.v
WireSafe.v
L3.v
L3Console.v
L3Facts.v
L3Queues.v
L3Safe.v
L3Admin.v
OverNs.v
Dns.v
NsTunnel.v
Vxlan.v
VArp.v
VRoute.v
VQueue.v
VPacket.v
Crc32.v
Cryptcab.v
VdeHist.v
VDhcp.v
IpnHash.v
Ipn.v
IpnNet.v
IpnLife.v
Utm.v
Mgmt.v
