(* ===== verification/Prelude.v ===== *)
(** * Virtual Distributed Ethernet: a verification development

    VDE is a set of user-level programs that connect virtual machines, tap devices and
    hosts with Ethernet frames carried by Unix sockets.  This library models its
    core programs function by function and proves them correct: the virtual
    switch [vde_switch] (src/vde-2/src/vde_switch), the wire emulator
    [wirefilter] (src/vde-2/src/wirefilter.c), the layer 3 switch [vde_l3]
    (src/vde-2/src/vde_l3), the tunnel over DNS [vde_over_ns]
    (src/vde-2/src/vde_over_ns), the bridge to VXLAN networks [vde_vxlan]
    (src/vde-2/src/vde_vxlan), the router [vde_router]
    (src/vde-2/src/vde_router), the encrypted cable [vde_cryptcab]
    (src/vde-2/src/vde_cryptcab), the line editor of the management
    terminals (src/vde-2/src/lib/libvdehist.c), the management library
    (src/vde-2/src/lib/libvdemgmt.c) and the networks of the kernel
    module with its switch (src/ipn).

    ** Conventions

    A C integer is a [Z] with the wrap-around of its width written out ([u8],
    [u16], [u32], [u64], [i32] below); an array is a list read and written
    through [zget] and [zset], a byte buffer a list of bytes through [slice] and
    [memcpy_at].  A function with effects is a computation of the monad [M],
    whose outcome is [Done], [Exited] (the program called [exit]) or [Fault] (a
    NULL or uninitialised pointer followed, or an access out of bounds).  [wp m Q s] is total
    correctness: [m] returns, and in a state that satisfies [Q].  A loop that is not
    structural has fuel and its exhaustion is a [Fault], so that a [wp] theorem
    also proves that the loop ends: the fuel given by the definitions is a bound
    on the iterations (the length of a list, the number of bits or cells).
    Allocation is taken to succeed except where the sources test for its
    failure and go on, where it is an oracle, and where a theorem says so
    ([calloc_ok], [Hcalloc]).  Memory that the sources use without setting it is
    a parameter or an input ([stale], [junk], [clear]).  A theorem that needs
    conditions on the inputs says which in its comment, and names the lemmas that
    show what happens without them.  Hosts are little-endian LP64.

    ** The virtual switch

    The parts call each other as in the sources: a frame that arrives on a port goes
    through [Port.handle_in_packet], which learns the source address in the hash
    table, looks the destination up, and sends to the ports that the bit arrays
    of its VLAN select; the spanning tree edits those bit arrays; timers drive
    the spanning tree and the garbage collector; console commands change
    everything; the poll loop dispatches the descriptors.

    - BitArray.v: bitarray.h, sets of ports with and without a trailing count.
    - Hash.v: hash.c, the table of learned addresses.
    - Qtimer.v: qtimer.c, the periodic timers of the alarm signal.
    - Switch.v: the state of the switch that the parts share.
    - PacketQ.v: packetq.c, queues of packets that share reference-counted
      buffers, on an explicit heap.
    - MainLoop.v: the poll array of vde_switch.c with its permutation.
    - PortSend.v, Port.v: port.c, the ports, endpoints, VLANs and forwarding.
    - Fstp.v: fstp.c, the fast spanning tree.
    - Scan.v, Console.v: consmgmt.c and the start-up of vde_switch.c, the command tables, the
      dispatcher, scripts, and the conversions of arguments.
    - SwitchInv.v, SpanInv.v: the invariant of the state and its spanning tree part.
    - SwitchSafe.v, PortSafe.v, PortLife.v, VlanSafe.v, VlanLife.v,
      ConsoleSafe.v: every operation of each part preserves it.
    - Forward.v: what a frame makes the switch send.
    - System.v: the switch as a transition system, from boot through any events.

    The theorems: each data structure refines a finite set, map or queue; the invariant holds in
    every reachable state and no admissible input is a fault while memory for the
    tables is available; a frame goes to
    exactly the endpoints a learning VLAN switch should send it to and never
    leaves its VLAN; access control; timers fire on schedule; the command
    tables reach every command; and the places where the code goes wrong.

    ** The wire emulator

    - WireFilter.v: the heap of delayed packets; the packets that are due are written in
      order of time and of the counter, and in fifo mode in order of arrival.
    - SplitPacket.v: the reassembly of a stream; equal to a parser of the whole
      stream however it is cut.
    - Doubles.v: the floating-point numbers of the parameters, as IEEE 754
      defines them, with their conversions, scanning and printing.
    - WireLine.v: the parameters of the line, the Markov chain that changes them,
      [handle_packet] (losses, copies, limits, delays) and [writepacket] (noise);
      the numbers of [drand48] are a parameter, and a bound on the draws of one
      packet is the fuel of the loops that draw until a number is large enough.
    - WireFacts.v: a line without parameters is transparent, and a bandwidth is
      respected over every stretch of packets.
    - WireInv.v: the size of a channel is never exceeded; the weights of the chain.
    - WireConsole.v: the commands, the scripts and the terminals.
    - WireSafe.v: packets, deliveries, moves and commands in any order keep the
      chain well formed and the queue exact, and never make up a packet; and the
      inputs on which the code goes wrong.

    ** The layer 3 switch

    - L3.v: packets, interfaces, queueing disciplines, ARP, routes, IP and ICMP.
    - L3Console.v: addresses, the options of [main], the commands.
    - L3Facts.v: the checksum against RFC 1071, the choice of the route, and
      what forwarding does with a packet.
    - L3Queues.v: [pfifo] refines a bounded queue; defects of [bfifo] and [tbf].
    - L3Safe.v: no sequence of frames is a fault, with gateways on the networks of
      the switch, without [bfifo], and with memory from [malloc] whose [next]
      pointers are NULL, which the code takes for granted.
    - L3Admin.v: configuration: round trip of addresses, options, routes.

    ** The tunnel over DNS

    - OverNs.v: the encoding of bytes as letters and its round trip, the cutting
      of packets into fragments and their reassembly in any order.
    - Dns.v: dns.c, the DNS packets around the fragments; round trip, and the
      decompression of names ends on every packet.
    - NsTunnel.v: queue.c and the two ends of the tunnel; what goes in at one
      end comes out at the other, and the pending queries are exactly those
      not yet answered.

    ** The bridge to VXLAN

    - Vxlan.v: vxlan_hash.c, vxlan.c and plug.c; the program refines a learning
      bridge between the switch and the network.

    ** The router

    The configuration is shared by the threads; each interface has one that
    receives, one that moves packets from the priority queues to the output
    queue and one that sends.

    - VArp.v: vder_arp.c over rbtree.c; the neighbour table is a balanced tree and
      refines a finite map.
    - VRoute.v: the routes, addresses, interfaces and filters of
      vder_datalink.c as a transition system; its invariant and the choice of
      the route.
    - VQueue.v: vder_queue.c, the timer and the threads, whose critical
      sections interleave; with the policies other than the token one a packet is
      lost only when the output queue refuses it, and no thread sleeps while
      there is work.
    - VPacket.v: vder_packet.c, vder_icmp.c, vder_udp.c and the ARP packets;
      address resolution, ping with its checksums against RFC 1071, filters and
      datagrams from end to end.
    - VDhcp.v: vder_dhcp.c; the options, the addresses the server gives (never
      one twice among hosts that use what they were given), and the exchange
      of the client with the server.

    ** The encrypted cable

    - Crc32.v: crc32.c; the table gives the checksum defined bit by bit, which
      detects every burst of 32 bits.
    - Cryptcab.v: cryptcab.c, vde_cryptcab_server.c and vde_cryptcab_client.c over
      a cipher whose three calls (encryption, and the update and the end of a
      decryption) are parameters; the handshake, who is let in (those who
      answered a challenge that was sent to them), and the frames between the
      two ends.

    ** The management terminals

    - VdeHist.v: libvdehist.c, used by vdeterm and the telnet server, and the login
      of the latter (src/vdetelweb/telnet.c); what the terminal shows against a
      small model of a terminal, the history, completion, the answers of the
      switch, and the dialogue of the login with its password.
    - Utm.v: common/cmdparse.c, the machines that scripts define; reading a
      script and running it.
    - Mgmt.v: libvdemgmt.c with its scripts (src/vde-2/doc/libvdemgmt); a command
      and its answer, and events.

    ** The kernel switch

    A network of the kernel module is shared by the processes that are connected to it,
    whose critical sections interleave; a protocol decides who receives what,
    behind an interface with laws.

    - IpnHash.v: kvde_switch/ipn_hash.c, the address table with its timer; it
      refines a finite map.
    - Ipn.v: af_ipn.c, networks, nodes, ports, messages and their references, and the
      protocols hub and switch (kvde_switch_main.c).  Whether another injection is
      under way and whether a signal interrupts the wait for the mutex are
      arguments of [ipn_proto_injectmsg].
    - IpnNet.v: the invariant, and that connecting, sending, receiving and closing keep it
      with every protocol that keeps the laws of [ProtocolLaws].
    - IpnLife.v: the transition system, the two protocols as instances, where the
      switch sends a frame, and the defects.

    ** Not modelled

    System calls and the socket side of the programs (datasock.c, tuntap.c,
    sockutils.c, libvdeplug.c): what they deliver is the input of the modelled
    functions.  In wirefilter the options of [main], the blink messages and the
    polling of the main loop.  In [vde_l3] the
    descriptors of the management connections and the list of packets waiting
    for ARP, to which nothing is ever added.  In [vde_router] the console and
    the OLSR daemon.  Of the kernel module the lookup and the
    permissions of names, network and character devices, persistence and ioctl;
    its front end kvde_switch.  Plugins, slirpvde (a TCP/IP stack of other projects), the rest of vdetelweb,
    vde_autolink and the small programs that copy between descriptors.  Signals: the alarm handler runs
    between events, not inside one. *)
From Stdlib Require Import Lia.
From stdpp Require Import base numbers list gmap strings.

#[global] Open Scope Z_scope.

(** ** Prelude

    The parts below are shared by all files: machine integers, arrays, the
    monad with its rules, and lemmas on them. *)

(** ** Machine integers

    A C integer of width [w] is a [Z]; the conversions below write out the
    wrap-around of the x86-64 / LP64 ABI the sources are compiled for. *)

Definition u8 (z : Z) : Z := z mod 2 ^ 8.
Definition u16 (z : Z) : Z := z mod 2 ^ 16.
Definition u32 (z : Z) : Z := z mod 2 ^ 32.
Definition u64 (z : Z) : Z := z mod 2 ^ 64.
Definition i32 (z : Z) : Z := (z + 2 ^ 31) mod 2 ^ 32 - 2 ^ 31.

#[global] Arguments u8 : simpl never.
#[global] Arguments u16 : simpl never.
#[global] Arguments u32 : simpl never.
#[global] Arguments u64 : simpl never.
#[global] Arguments i32 : simpl never.

Definition byteP (b : Z) : Prop := 0 ≤ b < 256.

(** ** Arrays indexed by C integers: out of range is [None] *)

Definition zget {A} (l : list A) (i : Z) : option A :=
  if i <? 0 then None else l !! Z.to_nat i.

Definition zset {A} (l : list A) (i : Z) (x : A) : option (list A) :=
  if (i <? 0) || (Z.of_nat (length l) <=? i) then None else Some (<[Z.to_nat i := x]> l).

(** [memcmp]: only the sign of the result is used by the sources. *)
Fixpoint memcmp (a b : list Z) : Z :=
  match a, b with
  | x :: a', y :: b' => if x <? y then -1 else if y <? x then 1 else memcmp a' b'
  | _, _ => 0
  end.

(** ** A state monad with exit and undefined behaviour

    [Done a s]: the C function returned [a] in state [s]; [Exited]: it called
    [exit]; [Fault]: it dereferenced NULL or accessed an array out of bounds. *)

Inductive outcome (S A : Type) : Type :=
| Done (a : A) (s : S)
| Exited (code : Z)
| Fault.
Arguments Done {S A} a s.
Arguments Exited {S A} code.
Arguments Fault {S A}.

Definition M (S A : Type) : Type := S → outcome S A.

#[export] Instance M_ret S : MRet (M S) := λ A a s, Done a s.
#[export] Instance M_bind S : MBind (M S) := λ A B k m s,
  match m s with
  | Done a s' => k a s'
  | Exited c => Exited c
  | Fault => Fault
  end.

Definition get {S} : M S S := λ s, Done s s.
Definition gets {S A} (f : S → A) : M S A := λ s, Done (f s) s.
Definition modify {S} (f : S → S) : M S () := λ s, Done () (f s).
Definition fault {S A} : M S A := λ _, Fault.
Definition exitM {S A} (c : Z) : M S A := λ _, Exited c.

(** A pointer that must not be NULL, or an array cell that must exist. *)
Definition deref {S A} (o : option A) : M S A :=
  match o with Some a => mret a | None => fault end.

Definition whenM {S} (b : bool) (m : M S ()) : M S () := if b then m else mret ().

(** The body of a [for] loop run on the successive values of its index. *)
Fixpoint forM {S A} (l : list A) (body : A → M S ()) : M S () :=
  match l with
  | [] => mret ()
  | x :: l' => body x ;; forM l' body
  end.

Definition run_state {S A} (m : M S A) (s : S) : option S :=
  match m s with Done _ s' => Some s' | _ => None end.

(** ** Total-correctness weakest preconditions *)

Definition wp {S A} (m : M S A) (Q : A → S → Prop) (s : S) : Prop :=
  match m s with
  | Done a s' => Q a s'
  | _ => False
  end.

Create HintDb vde.

(** [lia] with division and remainder. *)
Ltac dlia := Z.div_mod_to_equations; lia.

(** Case analysis on the condition of the conditional that comes next. *)
Tactic Notation "wp_if" "as" simple_intropattern(H) :=
  cbv zeta; match goal with |- wp (if ?b then _ else _) _ _ => destruct b eqn:H end.
Tactic Notation "wp_if" := let H := fresh in wp_if as H.

(** *** Structural rules *)

Lemma wp_ret {S A} (a : A) (Q : A → S → Prop) s : Q a s → wp (mret a) Q s.
Proof. done. Qed.

Lemma wp_bind {S A B} (m : M S A) (k : A → M S B) Q s :
  wp m (λ a s', wp (k a) Q s') s → wp (m ≫= k) Q s.
Proof. unfold wp, mbind, M_bind. by destruct (m s). Qed.

Lemma wp_bind_inv {S A B} (m : M S A) (k : A → M S B) Q s :
  wp (m ≫= k) Q s → wp m (λ a s', wp (k a) Q s') s.
Proof. unfold wp, mbind, M_bind. by destruct (m s). Qed.

Lemma wp_mono {S A} (m : M S A) (Q Q' : A → S → Prop) s :
  wp m Q s → (∀ a s', Q a s' → Q' a s') → wp m Q' s.
Proof. unfold wp. destruct (m s); naive_solver. Qed.

Lemma wp_Done {S A} (m : M S A) (Q : A → S → Prop) s a s' :
  wp m Q s → m s = Done a s' → Q a s'.
Proof. unfold wp. intros H E. by rewrite E in H. Qed.

Lemma wp_done_intro {S A} (m : M S A) (Q : A → S → Prop) s :
  wp m Q s → ∃ a s', m s = Done a s' ∧ Q a s'.
Proof. unfold wp. destruct (m s); naive_solver. Qed.

(** Running [m] by its specification. *)
Lemma wp_eq {S A} (m : M S A) s o : wp m (λ a s', Done a s' = o) s → m s = o.
Proof. unfold wp. by destruct (m s). Qed.

Lemma wp_conj {S A} (m : M S A) (Q Q' : A → S → Prop) s :
  wp m Q s → wp m Q' s → wp m (λ a s', Q a s' ∧ Q' a s') s.
Proof. unfold wp. by destruct (m s). Qed.

Lemma wp_get {S} (Q : S → S → Prop) s : Q s s → wp get Q s.
Proof. done. Qed.

Lemma wp_gets {S A} (f : S → A) (Q : A → S → Prop) s : Q (f s) s → wp (gets f) Q s.
Proof. done. Qed.

Lemma wp_modify {S} (f : S → S) (Q : () → S → Prop) s : Q () (f s) → wp (modify f) Q s.
Proof. done. Qed.

Lemma wp_deref {S A} (o : option A) a (Q : A → S → Prop) s :
  o = Some a → Q a s → wp (deref o) Q s.
Proof. by intros -> ?. Qed.

Lemma wp_whenM {S} (b : bool) (m : M S ()) Q s :
  (b = true → wp m Q s) → (b = false → Q () s) → wp (whenM b m) Q s.
Proof. destruct b; simpl; intros H1 H2; [by apply H1 | by apply H2]. Qed.

(** The loop rule: an invariant indexed by the elements already visited. *)
Lemma wp_forM {S A} (l : list A) (body : A → M S ()) (I : list A → S → Prop) s :
  I [] s →
  (∀ l1 x l2 s', l = l1 ++ x :: l2 → I l1 s' → wp (body x) (λ _ s'', I (l1 ++ [x]) s'') s') →
  wp (forM l body) (λ _ s', I l s') s.
Proof.
  intros H0 Hstep.
  assert (∀ l2 l1 s', l = l1 ++ l2 → I l1 s' → wp (forM l2 body) (λ _ s'', I l s'') s') as Hgen.
  { induction l2 as [|x l2 IH]; intros l1 s' -> HI; simpl.
    - rewrite app_nil_r. by apply wp_ret.
    - apply wp_bind. eapply wp_mono; [by eapply Hstep|].
      intros [] s'' HI'. apply (IH (l1 ++ [x])); [by rewrite <- app_assoc | done]. }
  by apply (Hgen l []).
Qed.

(** The same rule when the invariant does not mention what was visited. *)
Lemma wp_forM_inv {S A} (l : list A) (body : A → M S ()) (I : S → Prop) s :
  I s → (∀ x s', x ∈ l → I s' → wp (body x) (λ _ s'', I s'') s') →
  wp (forM l body) (λ _ s', I s') s.
Proof.
  intros H0 Hstep. apply (wp_forM l body (λ _, I)); [done|].
  intros l1 x l2 s' -> HI. apply Hstep; [set_solver | done].
Qed.

Lemma forM_app {S A} (l1 l2 : list A) (body : A → M S ()) s :
  forM (l1 ++ l2) body s = (forM l1 body ;; forM l2 body) s.
Proof.
  revert s. induction l1 as [|x l1 IH]; intros s; [done|]. cbn.
  unfold mbind, M_bind in *. destruct (body x s); [|done..]. apply IH.
Qed.

(** In a list without duplicates, an element is not among those before it. *)
Lemma NoDup_prefix {A} (l l1 l2 : list A) x : NoDup l → l = l1 ++ x :: l2 → x ∉ l1.
Proof. intros Hnd ->. apply NoDup_app in Hnd as (_ & Hnd & _). intros Hx. apply (Hnd x Hx). set_solver. Qed.

(** ** Facts on C-indexed arrays *)

Lemma zget_Some {A} (l : list A) i x :
  zget l i = Some x ↔ 0 ≤ i ∧ l !! Z.to_nat i = Some x.
Proof.
  unfold zget. destruct (Z.ltb_spec i 0) as [Hi|Hi]; (split; [intros H|intros [H1 H2]]); done || lia.
Qed.

Lemma zget_lt {A} (l : list A) i x : zget l i = Some x → 0 ≤ i < Z.of_nat (length l).
Proof. rewrite zget_Some. intros [? ?%lookup_lt_Some]. lia. Qed.

Lemma zget_is_Some {A} (l : list A) i :
  0 ≤ i < Z.of_nat (length l) → ∃ x, zget l i = Some x.
Proof.
  intros H. destruct (lookup_lt_is_Some_2 l (Z.to_nat i)) as [x Hx]; [lia|].
  exists x. apply zget_Some. split; [lia | done].
Qed.

Lemma zget_nat {A} (l : list A) (i : nat) : zget l (Z.of_nat i) = l !! i.
Proof. unfold zget. destruct (Z.ltb_spec (Z.of_nat i) 0); [lia|]. by rewrite Nat2Z.id. Qed.
Lemma zset_is_Some {A} (l : list A) i x :
  0 ≤ i < Z.of_nat (length l) → zset l i x = Some (<[Z.to_nat i := x]> l).
Proof.
  intros H. unfold zset. destruct (Z.ltb_spec i 0), (Z.leb_spec (Z.of_nat (length l)) i); simpl; lia || done.
Qed.

Lemma zset_Some {A} (l l' : list A) i x :
  zset l i x = Some l' → 0 ≤ i < Z.of_nat (length l) ∧ l' = <[Z.to_nat i := x]> l.
Proof.
  unfold zset. intros H. destruct (Z.ltb_spec i 0), (Z.leb_spec (Z.of_nat (length l)) i); simpl in H; try done.
  injection H as <-. split; [lia | done].
Qed.

Lemma zset_length {A} (l l' : list A) i x : zset l i x = Some l' → length l' = length l.
Proof. intros [_ ->]%zset_Some. by rewrite length_insert. Qed.

Lemma zget_zset {A} (l l' : list A) i j x :
  zset l i x = Some l' → zget l' j = if decide (i = j) then Some x else zget l j.
Proof.
  intros [Hi ->]%zset_Some. unfold zget. destruct (Z.ltb_spec j 0); case_decide; subst; try done; try lia.
  - apply list_lookup_insert_eq. lia.
  - apply list_lookup_insert_ne. lia.
Qed.

(** [for (i = 0; i < size; i++) l[i] = f(l[i])] *)
Definition zmap_loop {A} (f : A → A) (l : list A) (size : Z) : option (list A) :=
  foldl (λ acc i, l ← acc; x ← zget l i; zset l i (f x)) (Some l) (seqZ 0 size).

Lemma zmap_loop_spec {A} (f : A → A) (l : list A) :
  zmap_loop f l (Z.of_nat (length l)) = Some (f <$> l).
Proof.
  assert (∀ r : nat, (r ≤ length l)%nat →
    zmap_loop f l (Z.of_nat r) = Some ((f <$> take r l) ++ drop r l)) as H.
  { induction r as [|r IH]; intros Hr; [done|]. unfold zmap_loop in *.
    rewrite Nat2Z.inj_succ. unfold Z.succ. rewrite seqZ_app, foldl_app, IH by lia. simpl.
    destruct (lookup_lt_is_Some_2 l r) as [x Hx]; [lia|].
    assert (length (f <$> take r l) = r) as Hlen by (rewrite length_fmap, length_take; lia).
    rewrite (drop_S _ _ _ Hx), (take_S_r _ _ _ Hx), fmap_app.
    rewrite (proj2 (zget_Some _ (Z.of_nat r) x)).
    2: { split; [lia|]. rewrite Nat2Z.id. by apply list_lookup_middle. }
    simpl. rewrite zset_is_Some.
    - replace (Z.to_nat _) with r by lia.
      rewrite insert_app_r_alt, Hlen, Nat.sub_diag by lia. simpl. by rewrite <- app_assoc.
    - rewrite length_app, Hlen. simpl. lia. }
  rewrite H, drop_all, take_ge, app_nil_r by lia. done.
Qed.

(** ** Facts on machine integers *)

Lemma u64_range z : 0 ≤ u64 z < 2 ^ 64.
Proof. apply Z.mod_pos_bound. lia. Qed.
Lemma u8_range z : 0 ≤ u8 z < 256.
Proof. apply (Z.mod_pos_bound z (2 ^ 8)). lia. Qed.
Lemma u64_small z : 0 ≤ z < 2 ^ 64 → u64 z = z.
Proof. intros. by apply Z.mod_small. Qed.
Lemma u8_small z : 0 ≤ z < 256 → u8 z = z.
Proof. intros. by apply Z.mod_small. Qed.

#[export] Hint Resolve u64_range u8_range : vde.

Lemma testbit_u64 z i : 0 ≤ i → Z.testbit (u64 z) i = (i <? 64) && Z.testbit z i.
Proof.
  intros Hi. unfold u64. destruct (Z.ltb_spec i 64); simpl.
  - by apply Z.mod_pow2_bits_low.
  - apply Z.mod_pow2_bits_high. lia.
Qed.

Lemma testbit_shiftl_1 k i : 0 ≤ k → Z.testbit (Z.shiftl 1 k) i = bool_decide (i = k).
Proof.
  intros Hk. rewrite Z.shiftl_1_l. case_bool_decide as E.
  - subst. by apply Z.pow2_bits_true.
  - apply Z.pow2_bits_false. lia.
Qed.

Lemma testbit_high w n i : 0 ≤ w < 2 ^ n → 0 ≤ n ≤ i → Z.testbit w i = false.
Proof.
  intros Hw Hn. rewrite <- (Z.mod_small w (2 ^ n)) by done.
  apply Z.mod_pow2_bits_high. lia.
Qed.

Lemma sublist_elem {A} (l k : list A) x : sublist l k → x ∈ l → x ∈ k.
Proof. induction 1; set_solver. Qed.

(** ** [memcmp] decides the lexicographic order *)

Lemma memcmp_refl a : memcmp a a = 0.
Proof. induction a as [|x a IH]; simpl; [done|]. by rewrite Z.ltb_irrefl. Qed.

Lemma memcmp_eq a b : length a = length b → memcmp a b = 0 → a = b.
Proof.
  revert b. induction a as [|x a IH]; intros [|y b]; try done. simpl. intros [= Hl].
  destruct (Z.ltb_spec x y), (Z.ltb_spec y x); try done. intros H1.
  f_equal; [lia | by apply IH].
Qed.

Lemma memcmp_antisym a b : memcmp b a = - memcmp a b.
Proof.
  revert b. induction a as [|x a IH]; intros [|y b]; try done. simpl.
  destruct (Z.ltb_spec x y), (Z.ltb_spec y x); try lia. apply IH.
Qed.

Lemma memcmp_trans_lt a b c :
  length a = length b → length b = length c →
  memcmp a b < 0 → memcmp b c ≤ 0 → memcmp a c < 0.
Proof.
  revert b c. induction a as [|x a IH]; intros [|y b] [|z c]; simpl; try done; try lia.
  intros [= H1] [= H2].
  destruct (Z.ltb_spec x y), (Z.ltb_spec y x), (Z.ltb_spec y z), (Z.ltb_spec z y),
    (Z.ltb_spec x z), (Z.ltb_spec z x); try lia. by apply IH.
Qed.

(** ** Byte buffers *)

(** [memcpy] into a buffer: outside of it is a fault. *)
Definition memcpy_at (mem : list Z) (o : Z) (data : list Z) : option (list Z) :=
  if (0 <=? o) && (o + Z.of_nat (length data) <=? Z.of_nat (length mem))
  then Some (take (Z.to_nat o) mem ++ data ++ drop (Z.to_nat o + length data) mem) else None.
Definition slice (mem : list Z) (o n : Z) : list Z := take (Z.to_nat n) (drop (Z.to_nat o) mem).

Lemma memcpy_at_Some mem o data : 0 ≤ o → o + Z.of_nat (length data) ≤ Z.of_nat (length mem) →
  ∃ mem', memcpy_at mem o data = Some mem' ∧ length mem' = length mem ∧
    (∀ p, 0 ≤ p → p ≤ o → slice mem' p (o - p + Z.of_nat (length data)) = slice mem p (o - p) ++ data).
Proof.
  intros Ho Hl. unfold memcpy_at.
  destruct (Z.leb_spec 0 o); [|lia]. destruct (Z.leb_spec (o + Z.of_nat (length data)) (Z.of_nat (length mem))); [|lia].
  simpl. eexists. split; [done|]. split.
  - rewrite !length_app, length_take, length_drop. lia.
  - intros p Hp Hpo. unfold slice.
    rewrite drop_app_le by (rewrite length_take; lia).
    replace (drop (Z.to_nat p) (take (Z.to_nat o) mem)) with (take (Z.to_nat (o - p)) (drop (Z.to_nat p) mem))
      by (rewrite take_drop_commute; do 2 f_equal; lia).
    rewrite take_app_ge by (rewrite length_take, length_drop; lia). f_equal.
    rewrite length_take, length_drop, take_app_le by lia. by rewrite take_ge by lia.
Qed.
