(* ===== verification/Scan.v ===== *)
(** * Scan: the uses of [sscanf] and [atoi] by the management commands

    The conversions [%i] (base from the prefix) and [%x], the formats made of
    several of them, and [atoi], on C strings modelled as [string].  As in
    glibc, digits are converted to a saturated [long] that is then stored in an
    [int]. *)
From Stdlib Require Import Lia Ascii String.
From stdpp Require Import base numbers strings.
From S2P Require Import Prelude.

Definition ascii_z (c : ascii) : Z := Z.of_N (N_of_ascii c).

(** [isspace]: space, \t, \n, \v, \f, \r. *)
Definition isspace (c : ascii) : bool := (ascii_z c =? 32) || ((9 <=? ascii_z c) && (ascii_z c <=? 13)).

Definition isdigit (c : ascii) : bool := (48 <=? ascii_z c) && (ascii_z c <=? 57).

Definition digit_val (base : Z) (c : ascii) : option Z :=
  let z := ascii_z c in
  let d := if (48 <=? z) && (z <=? 57) then z - 48
           else if (97 <=? z) && (z <=? 102) then z - 87
           else if (65 <=? z) && (z <=? 70) then z - 55 else 99 in
  if d <? base then Some d else None.

Fixpoint skip_spaces (s : string) : string :=
  match s with
  | String c s' => if isspace c then skip_spaces s' else s
  | EmptyString => s
  end.

(** The digits in [base] at the head of [s]: value, whether there was one, rest. *)
Fixpoint scan_digits (base : Z) (s : string) (acc : Z) (seen : bool) : Z * bool * string :=
  match s with
  | String c s' =>
    match digit_val base c with
    | Some d => scan_digits base s' (acc * base + d) true
    | None => (acc, seen, s)
    end
  | EmptyString => (acc, seen, s)
  end.

Definition clamp_long (z : Z) : Z := Z.max (- 2 ^ 63) (Z.min (2 ^ 63 - 1) z).

(** An optional sign. *)
Definition scan_sign (s : string) : Z * string :=
  match s with
  | String c s' => if ascii_z c =? 45 then (-1, s') else if ascii_z c =? 43 then (1, s') else (1, s)
  | EmptyString => (1, s)
  end.

(** The base prefix of [%i]. *)
Definition scan_base (s : string) : Z * string :=
  match s with
  | String c s' =>
    if ascii_z c =? 48 then
      match s' with
      | String x s'' => if (ascii_z x =? 120) || (ascii_z x =? 88) then (16, s'') else (8, s)
      | EmptyString => (8, s)
      end
    else (10, s)
  | EmptyString => (10, s)
  end.

(** One [%i] conversion: the [int] and the rest of the input. *)
Definition scan_i (s : string) : option (Z * string) :=
  let '(sg, s) := scan_sign (skip_spaces s) in
  let '(base, s) := scan_base s in
  let '(v, seen, rest) := scan_digits base s 0 false in
  if (seen : bool) then Some (i32 (clamp_long (sg * v)), rest) else None.

(** [sscanf(arg,"%i %i",...) == 2] and [sscanf(arg,"%i %i %i",...) == 3] *)
Definition sscanf_i (s : string) : option Z := r ← scan_i s; Some r.1.
Definition sscanf_ii (s : string) : option (Z * Z) :=
  a ← scan_i s; b ← scan_i a.2; Some (a.1, b.1).
Definition sscanf_iii (s : string) : option (Z * Z * Z) :=
  a ← scan_i s; b ← scan_i a.2; c ← scan_i b.2; Some (a.1, b.1, c.1).

(** One [%x] conversion into an [int]: optional sign and prefix, the value of
    [strtoul] saturated at [ULONG_MAX]. *)
Definition scan_x (s : string) : option (Z * string) :=
  let '(sg, s) := scan_sign (skip_spaces s) in
  let s := match scan_base s with (16, s') => s' | _ => s end in
  let '(v, seen, rest) := scan_digits 16 s 0 false in
  if (seen : bool) then Some (i32 (if 2 ^ 64 <=? v then -1 else sg * v), rest) else None.

(** One [%d] conversion. *)
Definition scan_d (s : string) : option (Z * string) :=
  let '(sg, s) := scan_sign (skip_spaces s) in
  let '(v, seen, rest) := scan_digits 10 s 0 false in
  if (seen : bool) then Some (i32 (clamp_long (sg * v)), rest) else None.

(** A literal character of the format. *)
Definition scan_lit (c : ascii) (s : string) : option string :=
  match s with
  | String c' s' => if ascii_z c' =? ascii_z c then Some s' else None
  | EmptyString => None
  end.

(** [n] more conversions [%x], each preceded by the separator. *)
Fixpoint scan_xs (sep : ascii) (n : nat) (s : string) (acc : list Z) : option (list Z * string) :=
  match n with
  | O => Some (acc, s)
  | S n' => s ← scan_lit sep s; r ← scan_x s; scan_xs sep n' r.2 (acc ++ [r.1])
  end.

(** [index(s,':') != NULL] *)
Fixpoint has_char (c : ascii) (s : string) : bool :=
  match s with
  | String c' s' => (ascii_z c' =? ascii_z c) || has_char c s'
  | EmptyString => false
  end.

(** Six bytes in hexadecimal separated by colons, or by dots when there is no
    colon: the formats [%x:%x:%x:%x:%x:%x] and [%x.%x.%x.%x.%x.%x]. *)
Definition sscanf_mac (s : string) : option (list Z * string) :=
  let sep := if has_char ":" s then ":"%char else "."%char in
  match scan_x s with
  | None => None
  | Some (x, rest) =>
    match scan_xs sep 5 rest [x] with
    | None => None
    | Some (l, rest) => Some (map u8 l, rest)
    end
  end.

Definition atoi (s : string) : Z :=
  let '(sg, s) := scan_sign (skip_spaces s) in
  let '(v, _, _) := scan_digits 10 s 0 false in i32 (clamp_long (sg * v)).

(** ** Scanning what was printed *)

(** Decimal digits of a natural number, most significant first. *)
Definition digit_char (d : Z) : ascii := ascii_of_N (Z.to_N (48 + d)).
Fixpoint show_dec (fuel : nat) (z : Z) (acc : string) : string :=
  match fuel with
  | O => acc
  | S f =>
    let acc := String (digit_char (z mod 10)) acc in
    if z / 10 =? 0 then acc else show_dec f (z / 10) acc
  end.

(** ** Printing integers *)

(** [%d] of a value of at most 20 digits. *)
Definition show_int (z : Z) : string :=
  if z <? 0 then String "-" (show_dec 20 (- z) "") else show_dec 20 z "".

(** [%x] and [%o] of an unsigned value *)
Definition hex_char (d : Z) : ascii := ascii_of_N (Z.to_N (if d <? 10 then 48 + d else 87 + d)).
Fixpoint show_base (base : Z) (fuel : nat) (z : Z) (acc : string) : string :=
  match fuel with
  | O => acc
  | S f =>
    let acc := String (hex_char (z mod base)) acc in
    if z / base =? 0 then acc else show_base base f (z / base) acc
  end.
Definition show_hex (z : Z) : string := show_base 16 16 z "".
Definition show_oct (z : Z) : string := show_base 8 22 z "".

Fixpoint rep_char (n : nat) (c : Ascii.ascii) (s : string) : string :=
  match n with O => s | S n' => String c (rep_char n' c s) end.

(** [%0wd], [%wd] and [%-ws] *)
Definition fmt_0 (w : nat) (z : Z) : string :=
  if z <? 0 then let d := show_dec 20 (- z) "" in String "-" (rep_char (w - 1 - String.length d) "0" d)
  else let d := show_dec 20 z "" in rep_char (w - String.length d) "0" d.
Definition fmt_02x (z : Z) : string :=
  let d := show_hex z in rep_char (2 - String.length d) "0" d.
Definition fmt_03o (z : Z) : string :=
  let d := show_oct z in rep_char (3 - String.length d) "0" d.
(** Bytes in hexadecimal separated by colons. *)
Fixpoint fmt_mac (l : list Z) : string :=
  match l with
  | [] => ""
  | [b] => fmt_02x b
  | b :: l' => String.append (fmt_02x b) (String ":" (fmt_mac l'))
  end.
Definition fmt_w (w : nat) (z : Z) : string :=
  let d := show_int z in rep_char (w - String.length d) " " d.
Definition fmt_left (w : nat) (s : string) : string :=
  String.append s (rep_char (w - String.length s) " " "").

Lemma ascii_z_digit d : 0 ≤ d < 10 → ascii_z (digit_char d) = 48 + d.
Proof.
  intros Hd. unfold ascii_z, digit_char. rewrite N_ascii_embedding; [by rewrite Z2N.id by lia|].
  change 256%N with (Z.to_N 256). apply Z2N.inj_lt; lia.
Qed.

Lemma digit_val_digit b d : 0 ≤ d < b → b ≤ 10 → digit_val b (digit_char d) = Some d.
Proof.
  intros Hd Hb. unfold digit_val. rewrite ascii_z_digit by lia.
  rewrite (proj2 (Z.leb_le 48 (48 + d))), (proj2 (Z.leb_le (48 + d) 57)) by lia. simpl.
  replace (48 + d - 48) with d by lia. by rewrite (proj2 (Z.ltb_lt d b)) by lia.
Qed.

Lemma scan_show_dec fuel : ∀ z acc a b,
  (0 < fuel)%nat → 0 ≤ z < 10 ^ Z.of_nat fuel → 0 ≤ a →
  ∃ k, 0 < k ∧ scan_digits 10 (show_dec fuel z acc) a b = scan_digits 10 acc (a * 10 ^ k + z) (b || (0 <? k)) .
Proof.
  induction fuel as [|f IH]; intros z acc a b Hfu Hz Ha; [lia|].
  rewrite Nat2Z.inj_succ, Z.pow_succ_r in Hz by lia. cbn [show_dec].
  assert (0 ≤ z mod 10 < 10) as Hm by (apply Z.mod_pos_bound; lia).
  destruct (Z.eqb_spec (z / 10) 0) as [E|E].
  - exists 1. split; [lia|]. cbn [scan_digits]. rewrite digit_val_digit by lia.
    rewrite orb_true_r. f_equal. dlia.
  - destruct (IH (z / 10) (String (digit_char (z mod 10)) acc) a b) as (k & Hk & ->); [|dlia|lia|].
    { destruct f; [|lia]. change (10 ^ Z.of_nat 0) with 1 in Hz. dlia. }
    exists (k + 1). split; [lia|]. cbn [scan_digits]. rewrite digit_val_digit by lia.
    rewrite (proj2 (Z.ltb_lt 0 (k + 1))), orb_true_r by lia. f_equal.
    rewrite Z.pow_add_r by lia. change (10 ^ 1) with 10. dlia.
Qed.

Lemma show_dec_head fuel : ∀ z acc,
  (0 < fuel)%nat → 0 < z < 10 ^ Z.of_nat fuel →
  ∃ d s, show_dec fuel z acc = String (digit_char d) s ∧ 0 < d < 10.
Proof.
  induction fuel as [|f IH]; intros z acc Hf Hz; [lia|].
  rewrite Nat2Z.inj_succ, Z.pow_succ_r in Hz by lia. cbn [show_dec].
  destruct (Z.eqb_spec (z / 10) 0) as [E|E].
  - eexists _, _. split; [done|]. dlia.
  - apply IH; [|dlia]. destruct f; [|lia]. change (10 ^ Z.of_nat 0) with 1 in Hz. dlia.
Qed.

Lemma digit_not_special d s : 0 < d < 10 →
  skip_spaces (String (digit_char d) s) = String (digit_char d) s ∧
  scan_sign (String (digit_char d) s) = (1, String (digit_char d) s) ∧
  scan_base (String (digit_char d) s) = (10, String (digit_char d) s).
Proof.
  intros Hd. unfold skip_spaces, scan_sign, scan_base, isspace. rewrite !ascii_z_digit by lia.
  rewrite (proj2 (Z.eqb_neq (48 + d) 32)), (proj2 (Z.leb_gt (48 + d) 13)) by lia.
  rewrite (proj2 (Z.eqb_neq (48 + d) 45)), (proj2 (Z.eqb_neq (48 + d) 43)), (proj2 (Z.eqb_neq (48 + d) 48)) by lia.
  by rewrite andb_false_r.
Qed.

(** Scanning a printed number gives it back: a positive [int] printed in
    decimal and followed by a blank is read by [%i] (and by [atoi]) as itself,
    and the scan stops at the blank. *)
Theorem scan_printed_int (z : Z) (rest : string) (Hz : 0 < z < 2 ^ 31) :
  scan_i (show_dec 10 z (String " " rest)) = Some (z, String " " rest) ∧
  atoi (show_dec 10 z (String " " rest)) = z.
Proof.
  destruct (show_dec_head 10 z (String " " rest)) as (d & s & Hs & Hd); [lia..|].
  destruct (scan_show_dec 10 z (String " " rest) 0 false) as (k & Hk & Hscan); [lia..|].
  destruct (digit_not_special d s Hd) as (H1 & H2 & H3).
  assert (i32 (clamp_long (1 * (0 * 10 ^ k + z))) = z) as Hv.
  { unfold clamp_long, i32. rewrite Z.mul_0_l, Z.add_0_l, Z.mul_1_l.
    rewrite Z.min_r, Z.max_r by lia. rewrite Z.mod_small; lia. }
  unfold scan_i, atoi. rewrite Hs in *. rewrite H1, H2, H3, Hscan. cbn [scan_digits].
  change (digit_val 10 " ") with (@None Z). cbv beta iota. rewrite Hv, (proj2 (Z.ltb_lt 0 k)) by done. done.
Qed.

Lemma scan_printed_int_witness :
  scan_i (show_dec 10 4094 (String " " "7")) = Some (4094, String " " "7") ∧
  atoi (show_dec 10 4094 (String " " "7")) = 4094.
Proof. apply (scan_printed_int 4094 "7"). lia. Defined.
