(* ===== verification/BitArray.v ===== *)
(** * BitArray: [vde_switch/bitarray.h] on a 64-bit machine

    A bitarray is an array of 64-bit words; a NULL bitarray is [None] where the
    header tests for it.  The plain operations ([ba_*]) and the ones that keep
    the cardinality in a trailing word ([bac_*]) are translated word by word,
    with an out-of-range word access as [None].  The iteration macros are
    monadic: they cache one word at a time, so a body that changes the array is
    modelled exactly.  The theorems relate the words to finite sets of
    integers. *)
From Stdlib Require Import Lia Sorted.
From stdpp Require Import base numbers list gmap.
From S2P Require Import Prelude.

(** ** Definitions *)

Abbreviation bitarray := (list Z).

Definition WORDSIZEROUND (vx : Z) : Z := Z.shiftr (vx + 63) 6.

Definition ba_alloc (n : Z) : bitarray := replicate (Z.to_nat (WORDSIZEROUND n)) 0.

(** [realloc] keeps the common prefix; the words it adds are indeterminate and
    are given by [junk]. *)
Definition realloc_words (b junk : bitarray) (m : Z) : bitarray :=
  take (Z.to_nat m) (b ++ junk).

(** [for (i = from; i < to; i++) x[i] = 0] *)
Definition zero_words (x : bitarray) (from to : Z) : option bitarray :=
  foldl (λ acc i, x ← acc; zset x i 0) (Some x) (seqZ from (to - from)).

(** [x[i] = f x[i]] for the first [WORDSIZEROUND(n)] words *)
Definition map_words (x : bitarray) (n : Z) (f : Z → Z → option Z) : option bitarray :=
  foldl (λ acc i, x ← acc; w ← zget x i; w' ← f i w; zset x i w')
        (Some x) (seqZ 0 (WORDSIZEROUND n)).

Definition ba_realloc (b junk : bitarray) (n m : Z) : option bitarray :=
  let nb := realloc_words b junk (WORDSIZEROUND m) in
  nb ← zero_words nb (WORDSIZEROUND n) (WORDSIZEROUND m);
  w ← zget nb (WORDSIZEROUND n - 1);
  zset nb (WORDSIZEROUND n - 1) (Z.land w (Z.shiftr (2 ^ 64 - 1) (u32 (0 - n) mod 64))).

Definition ba_check (x : option bitarray) (i : Z) : option bool :=
  match x with
  | None => Some false
  | Some x =>
    w ← zget x (Z.shiftr i 6);
    Some (negb (Z.land w (u64 (Z.shiftl 1 (Z.land i 63))) =? 0))
  end.

Definition ba_set (x : bitarray) (i : Z) : option bitarray :=
  w ← zget x (Z.shiftr i 6);
  zset x (Z.shiftr i 6) (Z.lor w (u64 (Z.shiftl 1 (Z.land i 63)))).

Definition ba_clr (x : bitarray) (i : Z) : option bitarray :=
  w ← zget x (Z.shiftr i 6);
  zset x (Z.shiftr i 6) (Z.land w (u64 (Z.lnot (Z.shiftl 1 (Z.land i 63))))).

Definition ba_zap (x : bitarray) (n : Z) : option bitarray :=
  zero_words x 0 (WORDSIZEROUND n).

(** The inner loop [for (__v=X[i],__j=0; __j<64; __v>>=1,__j++) if (__v & 1) ...] *)
Fixpoint forbits {S} (fuel : nat) (v k : Z) (body : Z → M S ()) : M S () :=
  match fuel with
  | O => mret ()
  | Datatypes.S f =>
    whenM (Z.land v 1 =? 1) (body k) ;; forbits f (Z.shiftr v 1) (k + 1) body
  end.

(** [ba_FORALL(X,N,EXPR,K)] and [ba_FORALLFUN]: [getx] reads the array again at
    every word, the word itself is cached. *)
Definition ba_FORALL {S} (getx : S → option bitarray) (n : Z) (body : Z → M S ()) : M S () :=
  forM (seqZ 0 (WORDSIZEROUND n)) (λ i,
    ox ← gets getx;
    x ← deref ox;
    v ← deref (zget x i);
    forbits 64 v (i * 64) body).

Fixpoint wordcount (fuel : nat) (v : Z) : Z :=
  match fuel with
  | O => 0
  | S f => (if Z.land v 1 =? 1 then 1 else 0) + wordcount f (Z.shiftr v 1)
  end.

Definition ba_card (x : bitarray) (n : Z) : option Z :=
  foldl (λ acc i, c ← acc; v ← zget x i; Some (c + wordcount 64 v))
        (Some 0) (seqZ 0 (WORDSIZEROUND n)).

Definition ba_copy (dst src : bitarray) (n : Z) : option bitarray :=
  map_words dst n (λ i _, zget src i).
Definition ba_add (dst src : bitarray) (n : Z) : option bitarray :=
  map_words dst n (λ i w, s ← zget src i; Some (Z.lor w s)).
Definition ba_remove (dst src : bitarray) (n : Z) : option bitarray :=
  map_words dst n (λ i w, s ← zget src i; Some (Z.land w (u64 (Z.lnot s)))).
Definition ba_negate (x : bitarray) (n : Z) : option bitarray :=
  map_words x n (λ _ w, Some (u64 (Z.lnot w))).

(** *** Bit arrays with cardinality *)

Definition bac_alloc (n : Z) : bitarray := replicate (Z.to_nat (WORDSIZEROUND n + 1)) 0.

(** The in-place case of [realloc] ([nb == b]; otherwise the store through [b]
    is through a dangling pointer).  The zeroing loop runs from
    [WORDSIZEROUND(n)] to [WORDSIZEROUND(n)]. *)
Definition bac_realloc (b junk : bitarray) (n m : Z) : option bitarray :=
  size ← zget b (WORDSIZEROUND n);
  let nb := realloc_words b junk (WORDSIZEROUND m + 1) in
  nb ← zset nb (WORDSIZEROUND m) (u64 (i32 size));
  nb ← zero_words nb (WORDSIZEROUND n) (WORDSIZEROUND n);
  w ← zget nb (WORDSIZEROUND n - 1);
  zset nb (WORDSIZEROUND n - 1) (Z.land w (Z.shiftr (2 ^ 64 - 1) (u32 (0 - n) mod 64))).

Definition bac_check := ba_check.

Definition bac_set (x : bitarray) (n i : Z) : option bitarray :=
  w ← zget x (Z.shiftr i 6);
  let v := Z.lor w (u64 (Z.shiftl 1 (Z.land i 63))) in
  if v =? w then Some x else
    x ← zset x (Z.shiftr i 6) v;
    c ← zget x (WORDSIZEROUND n);
    zset x (WORDSIZEROUND n) (u64 (c + 1)).

Definition bac_clr (x : bitarray) (n i : Z) : option bitarray :=
  w ← zget x (Z.shiftr i 6);
  let v := Z.land w (u64 (Z.lnot (Z.shiftl 1 (Z.land i 63)))) in
  if v =? w then Some x else
    x ← zset x (Z.shiftr i 6) v;
    c ← zget x (WORDSIZEROUND n);
    zset x (WORDSIZEROUND n) (u64 (c - 1)).

Definition bac_zap (x : bitarray) (n : Z) : option bitarray :=
  x ← zero_words x 0 (WORDSIZEROUND n); zset x (WORDSIZEROUND n) 0.

Definition bac_card (x : bitarray) (n : Z) : option Z := i32 <$> zget x (WORDSIZEROUND n).
Definition bac_empty (x : bitarray) (n : Z) : option bool := (λ c, c =? 0) <$> zget x (WORDSIZEROUND n).
Definition bac_copy (dst src : bitarray) (n : Z) : option bitarray :=
  dst ← map_words dst n (λ i _, zget src i);
  c ← zget src (WORDSIZEROUND n);
  zset dst (WORDSIZEROUND n) c.

(** The bit loop of [bac_FORALL], which also counts the bits it has visited. *)
Fixpoint forbits_count {S} (fuel : nat) (v k n : Z) (body : Z → M S ()) : M S Z :=
  match fuel with
  | O => mret n
  | Datatypes.S f =>
    if Z.land v 1 =? 1
    then body k ;; forbits_count f (Z.shiftr v 1) (k + 1) (n - 1) body
    else forbits_count f (Z.shiftr v 1) (k + 1) n body
  end.

(** [for (__i=0; __n > 0; __i++)]: one unit of fuel per word; the loop leaves
    the array (a fault) before [fuel] words when [fuel] exceeds its length. *)
Fixpoint bac_FORALL_loop {S} (fuel : nat) (getx : S → option bitarray) (i n : Z)
    (body : Z → M S ()) : M S () :=
  if n <=? 0 then mret () else
  match fuel with
  | O => fault
  | Datatypes.S f =>
    ox ← gets getx;
    x ← deref ox;
    v ← deref (zget x i);
    n' ← forbits_count 64 v (i * 64) n body;
    bac_FORALL_loop f getx (i + 1) n' body
  end.

Definition bac_FORALL {S} (getx : S → option bitarray) (n : Z) (body : Z → M S ()) : M S () :=
  ox ← gets getx;
  x ← deref ox;
  c ← deref (zget x (WORDSIZEROUND n));
  bac_FORALL_loop (Datatypes.S (length x)) getx 0 (i32 c) body.

(** *** The set a bitarray stands for *)

Definition bmem (x : bitarray) (i : Z) : bool :=
  match zget x (i / 64) with Some w => Z.testbit w (i mod 64) | None => false end.

Definition words_ok (x : bitarray) : Prop := Forall (λ w, 0 ≤ w < 2 ^ 64) x.

(** The indices the bit loop visits. *)
Fixpoint bits_of (fuel : nat) (v k : Z) : list Z :=
  match fuel with
  | O => []
  | S f => (if Z.land v 1 =? 1 then [k] else []) ++ bits_of f (Z.shiftr v 1) (k + 1)
  end.

(** The indices [ba_FORALL] visits in the first [r] words. *)
Definition ba_elems (x : bitarray) (r : Z) : list Z :=
  mjoin ((λ i, bits_of 64 (default 0 (zget x i)) (i * 64)) <$> seqZ 0 r).

Definition ba_to_set (x : bitarray) (n : Z) : gset Z := list_to_set (ba_elems x (WORDSIZEROUND n)).

(** A well-formed array with cardinality for [n] bits. *)
Definition bac_wf (n : Z) (x : bitarray) : Prop :=
  words_ok x ∧ Z.of_nat (length x) = WORDSIZEROUND n + 1 ∧
  zget x (WORDSIZEROUND n) = Some (Z.of_nat (length (ba_elems x (WORDSIZEROUND n)))).

(** ** Words and bits *)

Lemma wround_spec n : WORDSIZEROUND n = (n + 63) / 64.
Proof. unfold WORDSIZEROUND. rewrite Z.shiftr_div_pow2 by lia. done. Qed.

Lemma wround_bound n : n ≤ 64 * WORDSIZEROUND n < n + 64.
Proof. rewrite wround_spec. dlia. Qed.

Lemma wround_nonneg n : 0 ≤ n → 0 ≤ WORDSIZEROUND n.
Proof. rewrite wround_spec. dlia. Qed.

Lemma shiftr6 i : Z.shiftr i 6 = i / 64.
Proof. by rewrite Z.shiftr_div_pow2. Qed.

Lemma land63 i : Z.land i 63 = i mod 64.
Proof. change 63 with (Z.ones 6). by rewrite Z.land_ones. Qed.

Lemma land1_odd v : (Z.land v 1 =? 1) = Z.testbit v 0.
Proof.
  change 1 with (Z.ones 1) at 1. rewrite Z.land_ones by lia.
  change (2 ^ 1) with 2. rewrite Z.bit0_odd, Zmod_odd. by destruct (Z.odd v).
Qed.

Lemma u64_shiftl_1 k : 0 ≤ k < 64 → u64 (Z.shiftl 1 k) = Z.shiftl 1 k.
Proof.
  intros Hk. rewrite Z.shiftl_1_l. apply u64_small.
  split; [lia | by apply Z.pow_lt_mono_r; lia].
Qed.

Lemma land_bit_zero w k : 0 ≤ k → (Z.land w (Z.shiftl 1 k) =? 0) = negb (Z.testbit w k).
Proof.
  intros Hk. destruct (Z.testbit w k) eqn:E; simpl.
  - apply Z.eqb_neq. intros H0. assert (Z.testbit (Z.land w (Z.shiftl 1 k)) k = false) as H1 by (by rewrite H0, Z.bits_0).
    rewrite Z.land_spec, testbit_shiftl_1, E in H1 by done. by rewrite bool_decide_eq_true_2 in H1.
  - apply Z.eqb_eq. apply Z.bits_inj_0. intros i. rewrite Z.land_spec, testbit_shiftl_1 by done.
    case_bool_decide; subst; [by rewrite E | by rewrite andb_false_r].
Qed.

(** The word a set or a clear writes, bit by bit. *)
Lemma setbit_word_spec w k j :
  0 ≤ k < 64 → 0 ≤ j →
  Z.testbit (Z.lor w (u64 (Z.shiftl 1 k))) j = bool_decide (j = k) || Z.testbit w j.
Proof.
  intros Hk Hj. rewrite u64_shiftl_1, Z.lor_spec, testbit_shiftl_1 by lia. by rewrite orb_comm.
Qed.

Lemma clrbit_word_spec w k j :
  0 ≤ w < 2 ^ 64 → 0 ≤ k < 64 → 0 ≤ j →
  Z.testbit (Z.land w (u64 (Z.lnot (Z.shiftl 1 k)))) j = negb (bool_decide (j = k)) && Z.testbit w j.
Proof.
  intros Hw Hk Hj. rewrite Z.land_spec, testbit_u64, Z.lnot_spec, testbit_shiftl_1 by lia.
  destruct (Z.ltb_spec j 64); [by rewrite andb_true_l, andb_comm|].
  rewrite (testbit_high w 64) by lia. by destruct (bool_decide _).
Qed.

Lemma lor_range a b : 0 ≤ a < 2 ^ 64 → 0 ≤ b < 2 ^ 64 → 0 ≤ Z.lor a b < 2 ^ 64.
Proof.
  intros Ha Hb. split; [apply Z.lor_nonneg; lia|].
  destruct (decide (Z.lor a b = 0)) as [->|Hne]; [lia|].
  assert (0 ≤ Z.lor a b) by (apply Z.lor_nonneg; lia).
  apply Z.log2_lt_pow2; [lia|]. rewrite Z.log2_lor by lia.
  destruct (decide (a = 0)) as [->|]; destruct (decide (b = 0)) as [->|]; simpl;
    apply Z.max_lub_lt; try (by simpl; lia); apply Z.log2_lt_pow2; lia.
Qed.

Lemma land_range a b : 0 ≤ a < 2 ^ 64 → 0 ≤ b → 0 ≤ Z.land a b < 2 ^ 64.
Proof.
  intros Ha Hb. split; [apply Z.land_nonneg; lia|].
  destruct (decide (Z.land a b = 0)) as [->|Hne]; [lia|].
  assert (0 ≤ Z.land a b) by (apply Z.land_nonneg; lia).
  apply Z.log2_lt_pow2; [lia|].
  eapply Z.le_lt_trans; [apply Z.log2_land; lia|].
  destruct (decide (a = 0)) as [->|]; [by rewrite Z.land_0_l in Hne|].
  eapply Z.le_lt_trans; [apply Z.le_min_l | apply Z.log2_lt_pow2; lia].
Qed.

Lemma words_ok_lookup (x : bitarray) i w : words_ok x → zget x i = Some w → 0 ≤ w < 2 ^ 64.
Proof. intros Hx [_ Hw]%zget_Some. unfold words_ok in Hx. rewrite Forall_lookup in Hx. eauto. Qed.

Lemma words_ok_zset (x : bitarray) i w x' : words_ok x → 0 ≤ w < 2 ^ 64 → zset x i w = Some x' → words_ok x'.
Proof. intros Hx Hw [_ ->]%zset_Some. by apply Forall_insert. Qed.

Lemma zget_word_total (x : bitarray) i :
  0 ≤ i < 64 * Z.of_nat (length x) → ∃ w, zget x (i / 64) = Some w.
Proof. intros Hi. apply zget_is_Some. dlia. Qed.

(** Rewriting one bit of one word rewrites one member of the set. *)
Lemma bmem_zset (x x' : bitarray) i w j :
  zset x (i / 64) w = Some x' →
  bmem x' j = if decide (j / 64 = i / 64) then Z.testbit w (j mod 64) else bmem x j.
Proof.
  intros Hs. unfold bmem. rewrite (zget_zset _ _ _ _ _ Hs).
  case_decide as E1; case_decide; try done; congruence.
Qed.

Lemma bmem_range x i : bmem x i = true → 0 ≤ i < 64 * Z.of_nat (length x).
Proof.
  unfold bmem. destruct (zget x (i / 64)) eqn:E; [|done]. apply zget_lt in E. dlia.
Qed.

(** ** The plain operations on one bit *)

Lemma ba_check_spec x i :
  0 ≤ i < 64 * Z.of_nat (length x) → ba_check (Some x) i = Some (bmem x i).
Proof.
  intros Hi. unfold ba_check, bmem. rewrite shiftr6, land63.
  destruct (zget_word_total x i Hi) as [w ->]. simpl.
  rewrite u64_shiftl_1, land_bit_zero by dlia. by rewrite negb_involutive.
Qed.

Lemma div_mod_64_eq i j : j / 64 = i / 64 → j mod 64 = i mod 64 → j = i.
Proof. dlia. Qed.

Lemma ba_set_spec x i :
  words_ok x → 0 ≤ i < 64 * Z.of_nat (length x) →
  ∃ x', ba_set x i = Some x' ∧ length x' = length x ∧ words_ok x' ∧
    ∀ j, bmem x' j = bool_decide (j = i) || bmem x j.
Proof.
  intros Hok Hi. unfold ba_set. rewrite shiftr6, land63.
  destruct (zget_word_total x i Hi) as [w Hw]. rewrite Hw. simpl.
  rewrite zset_is_Some by dlia. eexists; split; [done|].
  assert (Hs := zset_is_Some x (i / 64) (Z.lor w (u64 (Z.shiftl 1 (i mod 64)))) ltac:(dlia)).
  split; [by rewrite length_insert|]. split.
  - eapply words_ok_zset; [done| |exact Hs]. apply lor_range; eauto using words_ok_lookup with vde.
  - intros j. rewrite (bmem_zset _ _ _ _ _ Hs). case_decide as E.
    + rewrite setbit_word_spec by dlia. unfold bmem. rewrite E, Hw.
      case_bool_decide as E1; case_bool_decide as E2; try done.
      * destruct E2. by apply div_mod_64_eq.
      * subst. done.
    + case_bool_decide; [by subst | done].
Qed.

Lemma ba_clr_spec x i :
  words_ok x → 0 ≤ i < 64 * Z.of_nat (length x) →
  ∃ x', ba_clr x i = Some x' ∧ length x' = length x ∧ words_ok x' ∧
    ∀ j, bmem x' j = negb (bool_decide (j = i)) && bmem x j.
Proof.
  intros Hok Hi. unfold ba_clr. rewrite shiftr6, land63.
  destruct (zget_word_total x i Hi) as [w Hw]. rewrite Hw. simpl.
  assert (0 ≤ w < 2 ^ 64) as Hwr by eauto using words_ok_lookup.
  rewrite zset_is_Some by dlia. eexists; split; [done|].
  assert (Hs := zset_is_Some x (i / 64) (Z.land w (u64 (Z.lnot (Z.shiftl 1 (i mod 64))))) ltac:(dlia)).
  split; [by rewrite length_insert|]. split.
  - eapply words_ok_zset; [done| |exact Hs]. apply land_range; [done|]. apply u64_range.
  - intros j. rewrite (bmem_zset _ _ _ _ _ Hs). case_decide as E.
    + rewrite clrbit_word_spec by dlia. unfold bmem. rewrite E, Hw.
      case_bool_decide as E1; case_bool_decide as E2; try done.
      * destruct E2. by apply div_mod_64_eq.
      * subst. done.
    + case_bool_decide; [by subst | done].
Qed.

(** ** The elements the loops visit *)

Lemma elem_of_bits_of fuel v k j :
  j ∈ bits_of fuel v k ↔ k ≤ j < k + Z.of_nat fuel ∧ Z.testbit v (j - k) = true.
Proof.
  revert v k. induction fuel as [|f IH]; intros v k; simpl.
  - split; [by intros ?%elem_of_nil | lia].
  - rewrite elem_of_app, IH, land1_odd.
    destruct (decide (j = k)) as [->|Hne].
    + rewrite Z.sub_diag. destruct (Z.testbit v 0); set_solver by lia.
    + assert (j ∈ (if Z.testbit v 0 then [k] else []) ↔ False) as -> by (destruct (Z.testbit v 0); set_solver).
      assert (k + 1 ≤ j → Z.testbit (Z.shiftr v 1) (j - (k + 1)) = Z.testbit v (j - k)) as Hb.
      { intros. rewrite Z.shiftr_spec by lia. f_equal. lia. }
      split; [intros [[]|[? Ht]] | intros [? Ht]; right]; rewrite Hb in * by lia; split; (lia || done).
Qed.

Lemma bits_of_sorted fuel v k : StronglySorted Z.lt (bits_of fuel v k).
Proof.
  revert v k. induction fuel as [|f IH]; intros v k; simpl; [constructor|].
  destruct (Z.land v 1 =? 1); simpl; [|apply IH].
  constructor; [apply IH|]. apply Forall_forall. intros j [? _]%elem_of_bits_of. lia.
Qed.

#[global] Arguments bits_of : simpl never.

Lemma StronglySorted_app_lt (l1 l2 : list Z) :
  StronglySorted Z.lt l1 → StronglySorted Z.lt l2 →
  (∀ a b, a ∈ l1 → b ∈ l2 → a < b) → StronglySorted Z.lt (l1 ++ l2).
Proof.
  induction 1 as [|x l1 Hs IH Hf]; intros H2 Hlt; simpl; [done|].
  constructor.
  - apply IH; [done|]. intros a b Ha Hb. apply Hlt; [by right | done].
  - apply Forall_app. split; [done|]. apply Forall_forall. intros b Hb. apply Hlt; [left | done].
Qed.

Lemma StronglySorted_lt_NoDup (l : list Z) : StronglySorted Z.lt l → NoDup l.
Proof.
  induction 1 as [|x l Hs IH Hf]; constructor; [|done].
  rewrite Forall_forall in Hf. intros Hx%Hf. lia.
Qed.

Lemma ba_elems_S x r :
  0 ≤ r → ba_elems x (r + 1) = ba_elems x r ++ bits_of 64 (default 0 (zget x r)) (r * 64).
Proof.
  intros Hr. unfold ba_elems. rewrite (seqZ_app 0 r 1) by lia.
  rewrite fmap_app, join_app. simpl. rewrite app_nil_r. by rewrite Z.add_0_l.
Qed.

Lemma elem_of_ba_elems x r k :
  0 ≤ r → k ∈ ba_elems x r ↔ 0 ≤ k < 64 * r ∧ bmem x k = true.
Proof.
  intros Hr. unfold ba_elems. rewrite list_elem_of_join. split.
  - intros (l & Hk & (i & -> & Hi%elem_of_seqZ)%list_elem_of_fmap).
    apply elem_of_bits_of in Hk as [Hk Ht]. split; [lia|]. unfold bmem.
    replace (k / 64) with i by dlia. replace (k - i * 64) with (k mod 64) in Ht by dlia.
    destruct (zget x i); simpl in Ht; [done | by rewrite Z.bits_0 in Ht].
  - intros [Hk Hm]. exists (bits_of 64 (default 0 (zget x (k / 64))) (k / 64 * 64)). split.
    + apply elem_of_bits_of. split; [dlia|]. unfold bmem in Hm.
      replace (k - k / 64 * 64) with (k mod 64) by dlia. by destruct (zget x (k / 64)).
    + apply list_elem_of_fmap. eexists; split; [done|]. apply elem_of_seqZ. dlia.
Qed.

Lemma ba_elems_sorted x r : 0 ≤ r → StronglySorted Z.lt (ba_elems x r).
Proof.
  intros Hr. pattern r. apply natlike_ind; [constructor | | done].
  intros r' Hr' IH. unfold Z.succ. rewrite ba_elems_S by done.
  apply StronglySorted_app_lt; [done | apply bits_of_sorted|].
  intros a b [Ha _]%elem_of_ba_elems [Hb _]%elem_of_bits_of; lia.
Qed.

Lemma ba_elems_NoDup x r : 0 ≤ r → NoDup (ba_elems x r).
Proof. intros. by apply StronglySorted_lt_NoDup, ba_elems_sorted. Qed.

(** ** Rules for the iteration macros *)

(** The general rule: [I k] holds when the loop is about to test bit [k];
    the words the loop reads are those of [x0], even if the body changes the
    bits it has already passed. *)
Lemma wp_forbits {S} fuel v k (body : Z → M S ()) (I : Z → S → Prop) s :
  I k s →
  (∀ j s', k ≤ j < k + Z.of_nat fuel → Z.testbit v (j - k) = true → I j s' → wp (body j) (λ _ s'', I (j + 1) s'') s') →
  (∀ j s', k ≤ j < k + Z.of_nat fuel → Z.testbit v (j - k) = false → I j s' → I (j + 1) s') →
  wp (forbits fuel v k body) (λ _ s', I (k + Z.of_nat fuel) s') s.
Proof.
  revert v k s. induction fuel as [|f IH]; intros v k s H0 Hin Hout; simpl.
  - by rewrite Z.add_0_r.
  - apply wp_bind.
    assert (wp (whenM (Z.land v 1 =? 1) (body k)) (λ _ s', I (k + 1) s') s) as Hk.
    { apply wp_whenM; rewrite land1_odd; intros E.
      - apply Hin; [lia | by rewrite Z.sub_diag | done].
      - apply Hout; [lia | by rewrite Z.sub_diag | done]. }
    eapply wp_mono; [exact Hk|]. intros [] s' HI.
    replace (k + Z.of_nat (Datatypes.S f)) with (k + 1 + Z.of_nat f) by lia.
    assert (∀ j, k + 1 ≤ j → Z.testbit (Z.shiftr v 1) (j - (k + 1)) = Z.testbit v (j - k)) as Hb.
    { intros. rewrite Z.shiftr_spec by lia. f_equal. lia. }
    apply IH; [done | intros j s'' ? Ht | intros j s'' ? Ht]; rewrite Hb in Ht by lia;
      [apply Hin | apply Hout]; (lia || done).
Qed.

#[global] Arguments forbits : simpl never.

Lemma wp_ba_FORALL_gen {S} (getx : S → option bitarray) n (body : Z → M S ()) x0 (I : Z → S → Prop) s :
  0 ≤ n →
  (∀ i s', 0 ≤ i < WORDSIZEROUND n → I (i * 64) s' →
     ∃ x w, getx s' = Some x ∧ zget x i = Some w ∧ zget x0 i = Some w) →
  I 0 s →
  (∀ k s', 0 ≤ k < 64 * WORDSIZEROUND n → bmem x0 k = true → I k s' → wp (body k) (λ _ s'', I (k + 1) s'') s') →
  (∀ k s', 0 ≤ k < 64 * WORDSIZEROUND n → bmem x0 k = false → I k s' → I (k + 1) s') →
  wp (ba_FORALL getx n body) (λ _ s', I (64 * WORDSIZEROUND n) s') s.
Proof.
  intros Hn Hread H0 Hin Hout. pose proof (wround_nonneg n Hn) as Hr. unfold ba_FORALL.
  set (J := λ (l : list Z) (s' : S), I (64 * Z.of_nat (length l)) s').
  assert (length (seqZ 0 (WORDSIZEROUND n)) = Z.to_nat (WORDSIZEROUND n)) as Hlen by apply length_seqZ.
  eapply wp_mono; [apply (wp_forM _ _ J)|]; unfold J; [done| |].
  - intros l1 i l2 s' Hl HI.
    assert (i = Z.of_nat (length l1)) as ->.
    { assert (seqZ 0 (WORDSIZEROUND n) !! length l1 = Some i) as Hlk
        by (rewrite Hl; by apply list_lookup_middle).
      apply lookup_seqZ in Hlk. lia. }
    assert (Z.of_nat (length l1) < WORDSIZEROUND n) as Hlt.
    { rewrite Hl, length_app in Hlen. simpl in Hlen. lia. }
    set (i := Z.of_nat (length l1)) in *.
    destruct (Hread i s') as (x & w & Hx & Hw & Hw0); [lia | by rewrite Z.mul_comm|].
    apply wp_bind, wp_gets. rewrite Hx. apply wp_bind, (wp_deref _ x); [done|].
    apply wp_bind, (wp_deref _ w); [done|]. rewrite length_app. simpl.
    replace (64 * Z.of_nat (length l1 + 1)) with (i * 64 + Z.of_nat 64) by lia.
    assert (∀ j, i * 64 ≤ j < i * 64 + 64 → bmem x0 j = Z.testbit w (j - i * 64)) as Hbm.
    { intros j Hj. unfold bmem. replace (j / 64) with i by dlia. rewrite Hw0. f_equal. dlia. }
    apply (wp_forbits 64 w (i * 64) body I).
    + by rewrite Z.mul_comm.
    + intros j s'' Hj Ht. apply Hin; [lia | by rewrite Hbm by lia].
    + intros j s'' Hj Ht. apply Hout; [lia | by rewrite Hbm by lia].
  - intros [] s'. rewrite Hlen, Z2Nat.id by done. done.
Qed.

Lemma forbits_forM {S} fuel v k (body : Z → M S ()) s :
  forbits fuel v k body s = forM (bits_of fuel v k) body s.
Proof.
  revert v k s. induction fuel as [|f IH]; intros v k s; [done|].
  unfold forbits, bits_of; fold (@forbits S) bits_of.
  rewrite forM_app. unfold mbind, M_bind. destruct (Z.land v 1 =? 1); simpl.
  - unfold mbind, M_bind. destruct (body k s); simpl; [apply IH | done..].
  - apply IH.
Qed.

Lemma seqZ_prefix r l1 l2 : seqZ 0 r = l1 ++ l2 → l1 = seqZ 0 (Z.of_nat (length l1)).
Proof.
  intros Heq. assert (Z.of_nat (length l1 + length l2) = Z.max 0 r) as Hlen.
  { rewrite <- length_app, <- Heq, length_seqZ. lia. }
  assert (r = Z.of_nat (length l1) + Z.of_nat (length l2) ∨ l1 = [] ∧ l2 = []) as [Hr | [-> ->]].
  { destruct (decide (0 ≤ r)); [left; lia|]. right. destruct l1, l2; simpl in *; auto; lia. }
  - rewrite Hr, seqZ_app in Heq by lia. apply app_inj_1 in Heq as [H _]; [by symmetry|].
    rewrite length_seqZ. lia.
  - done.
Qed.

(** The rule for a body that leaves the array alone: the loop is a loop over
    the elements, in increasing order. *)
Lemma wp_ba_FORALL {S} (getx : S → option bitarray) n (body : Z → M S ()) x
    (I : list Z → S → Prop) s :
  0 ≤ n → WORDSIZEROUND n ≤ Z.of_nat (length x) →
  (∀ l s', I l s' → getx s' = Some x) →
  I [] s →
  (∀ l1 k l2 s', ba_elems x (WORDSIZEROUND n) = l1 ++ k :: l2 → I l1 s' →
     wp (body k) (λ _ s'', I (l1 ++ [k]) s'') s') →
  wp (ba_FORALL getx n body) (λ _ s', I (ba_elems x (WORDSIZEROUND n)) s') s.
Proof.
  intros Hn Hlen Hx H0 Hstep. pose proof (wround_nonneg n Hn) as Hr.
  assert (length (seqZ 0 (WORDSIZEROUND n)) = Z.to_nat (WORDSIZEROUND n)) as Hl by apply length_seqZ.
  eapply wp_mono; [apply (wp_forM _ _ (λ l s', I (ba_elems x (Z.of_nat (length l))) s'))|]; simpl; [done| |].
  - intros l1 i l2 s' Heq HI.
    assert (seqZ 0 (WORDSIZEROUND n) !! length l1 = Some i) as Hlk
      by (rewrite Heq; by apply list_lookup_middle).
    apply lookup_seqZ in Hlk as [Hi Hlt]. rewrite Z.add_0_l in Hi. subst i.
    destruct (zget_is_Some x (Z.of_nat (length l1))) as [w Hw]; [lia|].
    apply wp_bind, wp_gets, wp_bind, (wp_deref _ x); [by eapply Hx|].
    apply wp_bind, (wp_deref _ w); [done|].
    rewrite length_app, Nat2Z.inj_add. simpl. rewrite ba_elems_S, Hw by lia. simpl.
    unfold wp at 1. rewrite forbits_forM. fold (wp (S := S) (A := ())).
    set (e := ba_elems x (Z.of_nat (length l1))) in *.
    set (b := bits_of 64 w (Z.of_nat (length l1) * 64)).
    apply (wp_forM b body (λ l s'', I (e ++ l) s'')); [by rewrite app_nil_r|].
    intros b1 k b2 s'' Hb HI'. rewrite (app_assoc e b1 [k]).
    assert (ba_elems x (WORDSIZEROUND n) = e ++ b ++
      mjoin ((λ i, bits_of 64 (default 0 (zget x i)) (i * 64)) <$> l2)) as Hall.
    { unfold ba_elems. rewrite Heq, fmap_app, join_app. simpl. rewrite Hw. simpl.
      unfold e, ba_elems. do 3 f_equal. by eapply seqZ_prefix. }
    eapply Hstep; [|done]. rewrite Hall, Hb. by rewrite <- !app_assoc.
  - intros [] s'. rewrite Hl, Z2Nat.id by done. done.
Qed.

Lemma forbits_count_forM {S} fuel v k n (body : Z → M S ()) s :
  forbits_count fuel v k n body s =
  (forM (bits_of fuel v k) body ;; mret (n - Z.of_nat (length (bits_of fuel v k)))) s.
Proof.
  revert v k n s. induction fuel as [|f IH]; intros v k n s.
  - simpl. unfold mret, M_ret, mbind, M_bind. simpl. by rewrite Z.sub_0_r.
  - unfold forbits_count, bits_of; fold (@forbits_count S) bits_of.
    destruct (Z.land v 1 =? 1); simpl; unfold mbind, M_bind.
    + destruct (body k s) as [a s'| |]; [|done..]. rewrite IH. unfold mbind, M_bind.
      destruct (forM _ body s'); [|done..]. unfold mret, M_ret. f_equal. lia.
    + rewrite IH. done.
Qed.

#[global] Arguments forbits_count : simpl never.

Lemma ba_elems_split x i r :
  0 ≤ i ≤ r → ba_elems x r = ba_elems x i ++
    mjoin ((λ i, bits_of 64 (default 0 (zget x i)) (i * 64)) <$> seqZ i (r - i)).
Proof.
  intros Hi. unfold ba_elems. replace (seqZ 0 r) with (seqZ 0 i ++ seqZ i (r - i)).
  - by rewrite fmap_app, join_app.
  - rewrite <- (Z.add_0_l i) at 2. rewrite <- seqZ_app by lia. f_equal. lia.
Qed.

Lemma ba_elems_length_bound x r : 0 ≤ r → Z.of_nat (length (ba_elems x r)) ≤ 64 * r.
Proof.
  intros Hr. assert (ba_elems x r ⊆+ seqZ 0 (64 * r)) as Hs.
  { apply NoDup_submseteq; [by apply ba_elems_NoDup|].
    intros k [Hk _]%elem_of_ba_elems; [|done]. apply elem_of_seqZ. lia. }
  apply submseteq_length in Hs. rewrite length_seqZ in Hs. lia.
Qed.

Lemma wp_bac_loop {S} (getx : S → option bitarray) r (body : Z → M S ()) x (I : list Z → S → Prop) :
  (∀ l s', I l s' → getx s' = Some x) →
  0 ≤ r ≤ Z.of_nat (length x) →
  (∀ l1 k l2 s', ba_elems x r = l1 ++ k :: l2 → I l1 s' → wp (body k) (λ _ s'', I (l1 ++ [k]) s'') s') →
  ∀ fuel i s, 0 ≤ i ≤ r → r - i ≤ Z.of_nat fuel → I (ba_elems x i) s →
  wp (bac_FORALL_loop fuel getx i
        (Z.of_nat (length (ba_elems x r)) - Z.of_nat (length (ba_elems x i))) body)
     (λ _ s', I (ba_elems x r) s') s.
Proof.
  intros Hx Hr Hstep. induction fuel as [|f IH]; intros i s Hi Hf HI.
  { replace i with r in * by lia. simpl. rewrite Z.sub_diag. done. }
  pose proof (ba_elems_split x i r Hi) as Hsplit. simpl.
  destruct (Z.leb_spec (Z.of_nat (length (ba_elems x r)) - Z.of_nat (length (ba_elems x i))) 0) as [Hle|Hgt].
  { apply wp_ret. rewrite Hsplit, length_app in Hle.
    destruct (mjoin _) eqn:E in Hsplit; rewrite Hsplit; [by rewrite app_nil_r|].
    rewrite E in Hle. simpl in Hle. lia. }
  assert (i < r) as Hlt by (destruct (decide (i = r)) as [->|]; lia).
  destruct (zget_is_Some x i) as [w Hw]; [lia|].
  apply wp_bind, wp_gets, wp_bind, (wp_deref _ x); [by eapply Hx|].
  apply wp_bind, (wp_deref _ w); [done|]. apply wp_bind.
  unfold wp at 1. rewrite forbits_count_forM. fold (wp (S := S) (A := Z)).
  set (b := bits_of 64 w (i * 64)).
  assert (ba_elems x (i + 1) = ba_elems x i ++ b) as Hi1 by (rewrite ba_elems_S, Hw by lia; done).
  apply wp_bind. eapply wp_mono; [apply (wp_forM b body (λ l s'', I (ba_elems x i ++ l) s''))|].
  - by rewrite app_nil_r.
  - intros b1 k b2 s'' Hb HI'. rewrite (app_assoc _ b1 [k]).
    pose proof (ba_elems_split x (i + 1) r ltac:(lia)) as Hs1. rewrite Hi1, Hb in Hs1.
    eapply Hstep; [|done]. rewrite Hs1. by rewrite <- !app_assoc.
  - intros [] s' HI'. apply wp_ret. rewrite <- Hi1 in HI'.
    replace (_ - _ - Z.of_nat (length b))
      with (Z.of_nat (length (ba_elems x r)) - Z.of_nat (length (ba_elems x (i + 1)))).
    + apply IH; (lia || done).
    + rewrite Hi1, length_app. lia.
Qed.

(** [bac_FORALL] on a well-formed array terminates without leaving the array
    and visits exactly its elements, in increasing order. *)
Lemma wp_bac_FORALL {S} (getx : S → option bitarray) n (body : Z → M S ()) x (I : list Z → S → Prop) s :
  0 ≤ n < 2 ^ 30 → bac_wf n x →
  (∀ l s', I l s' → getx s' = Some x) →
  I [] s →
  (∀ l1 k l2 s', ba_elems x (WORDSIZEROUND n) = l1 ++ k :: l2 → I l1 s' →
     wp (body k) (λ _ s'', I (l1 ++ [k]) s'') s') →
  wp (bac_FORALL getx n body) (λ _ s', I (ba_elems x (WORDSIZEROUND n)) s') s.
Proof.
  intros Hn (Hok & Hlen & Hc) Hx H0 Hstep. pose proof (wround_nonneg n ltac:(lia)) as Hr.
  apply wp_bind, wp_gets, wp_bind, (wp_deref _ x); [by eapply Hx|].
  apply wp_bind, (wp_deref _ _ _ _ Hc).
  assert (i32 (Z.of_nat (length (ba_elems x (WORDSIZEROUND n)))) = Z.of_nat (length (ba_elems x (WORDSIZEROUND n)))) as ->.
  { pose proof (ba_elems_length_bound x _ Hr). pose proof (wround_bound n).
    unfold i32. rewrite Z.mod_small; lia. }
  pose proof (wp_bac_loop getx (WORDSIZEROUND n) body x I Hx ltac:(lia) Hstep
    (Datatypes.S (length x)) 0 s ltac:(lia) ltac:(lia) H0) as Hloop.
  change (ba_elems x 0) with (@nil Z) in Hloop. rewrite Z.sub_0_r in Hloop. exact Hloop.
Qed.

(** ** Word loops *)

Lemma foldl_seqZ_S {A} (step : A → Z → A) acc a r :
  0 ≤ r → foldl step acc (seqZ a (r + 1)) = step (foldl step acc (seqZ a r)) (a + r).
Proof. intros Hr. rewrite seqZ_app, foldl_app by lia. done. Qed.

Lemma map_words_spec (x : bitarray) n (f : Z → Z → option Z) :
  0 ≤ n → WORDSIZEROUND n ≤ Z.of_nat (length x) → words_ok x →
  (∀ i w, 0 ≤ i < WORDSIZEROUND n → zget x i = Some w → ∃ w', f i w = Some w' ∧ 0 ≤ w' < 2 ^ 64) →
  ∃ x', map_words x n f = Some x' ∧ length x' = length x ∧ words_ok x' ∧
    ∀ i, zget x' i = if decide (0 ≤ i < WORDSIZEROUND n) then zget x i ≫= f i else zget x i.
Proof.
  intros Hn Hlen Hok Hf. pose proof (wround_nonneg n Hn) as Hr. unfold map_words.
  generalize dependent (WORDSIZEROUND n). intros r Hlen Hf Hr. revert Hlen Hf. pattern r.
  apply natlike_ind; [| |done].
  - intros _ _. exists x. split_and!; try done. intros i. case_decide; [lia | done].
  - clear r Hr. intros r Hr IH Hlen Hf.
    destruct IH as (x1 & Hx1 & Hl1 & Hok1 & Hg1); [lia | intros; apply Hf; (lia || done) |].
    unfold Z.succ. rewrite foldl_seqZ_S, Hx1, Z.add_0_l by done. simpl.
    destruct (zget_is_Some x r) as [w Hw]; [lia|].
    assert (zget x1 r = Some w) as -> by (rewrite Hg1; case_decide; [lia | done]). simpl.
    destruct (Hf r w) as (w' & Hw' & Hr'); [lia | done |]. rewrite Hw'. simpl.
    rewrite zset_is_Some by lia. eexists; split; [done|].
    pose proof (zset_is_Some x1 r w' ltac:(lia)) as Hs.
    split_and!; [by rewrite length_insert | by eapply words_ok_zset |].
    intros i. rewrite (zget_zset _ _ _ _ _ Hs). case_decide; subst.
    + case_decide; [|lia]. rewrite Hw. simpl. by rewrite Hw'.
    + rewrite Hg1. case_decide; case_decide; (done || lia).
Qed.

Lemma zero_words_spec (x : bitarray) a b :
  0 ≤ a → b ≤ Z.of_nat (length x) → words_ok x →
  ∃ x', zero_words x a b = Some x' ∧ length x' = length x ∧ words_ok x' ∧
    ∀ i, zget x' i = if decide (a ≤ i < b) then Some 0 else zget x i.
Proof.
  intros Ha Hb Hok. unfold zero_words. destruct (decide (b ≤ a)) as [Hle|Hgt].
  { rewrite seqZ_nil by lia. exists x. split_and!; try done. intros i. case_decide; [lia | done]. }
  assert (∃ d, b = a + d ∧ 0 ≤ d) as (d & -> & Hd) by (exists (b - a); lia).
  replace (a + d - a) with d by lia. clear Hgt. revert Hb. pattern d. apply natlike_ind; [| |done].
  - intros _. exists x. split_and!; try done. intros i. case_decide; [lia | done].
  - clear d Hd. intros d Hd IH Hb. destruct IH as (x1 & Hx1 & Hl1 & Hok1 & Hg1); [lia|].
    unfold Z.succ. rewrite foldl_seqZ_S, Hx1 by done. simpl.
    rewrite zset_is_Some by lia. eexists; split; [done|].
    pose proof (zset_is_Some x1 (a + d) 0 ltac:(lia)) as Hs.
    split_and!; [by rewrite length_insert | exact (words_ok_zset x1 _ 0 _ Hok1 ltac:(lia) Hs) |].
    intros i. rewrite (zget_zset _ _ _ _ _ Hs). case_decide; subst.
    + case_decide; (done || lia).
    + rewrite Hg1. case_decide; case_decide; (done || lia).
Qed.

Lemma wordcount_bits fuel v k : wordcount fuel v = Z.of_nat (length (bits_of fuel v k)).
Proof.
  revert v k. induction fuel as [|f IH]; intros v k; [done|].
  unfold wordcount, bits_of; fold wordcount bits_of. rewrite (IH _ (k + 1)).
  destruct (Z.land v 1 =? 1); rewrite length_app; simpl; lia.
Qed.

#[global] Arguments wordcount : simpl never.

Lemma ba_card_elems (x : bitarray) n :
  0 ≤ n → WORDSIZEROUND n ≤ Z.of_nat (length x) →
  ba_card x n = Some (Z.of_nat (length (ba_elems x (WORDSIZEROUND n)))).
Proof.
  intros Hn. pose proof (wround_nonneg n Hn) as Hr. unfold ba_card.
  generalize dependent (WORDSIZEROUND n). intros r Hr. pattern r.
  apply natlike_ind; [done | | done].
  clear r Hr. intros r Hr IH Hlen. unfold Z.succ. rewrite foldl_seqZ_S, IH, Z.add_0_l by lia. simpl.
  destruct (zget_is_Some x r) as [w Hw]; [lia|]. rewrite ba_elems_S, Hw by lia. simpl.
  rewrite length_app, (wordcount_bits 64 w (r * 64)). f_equal. lia.
Qed.

(** ** The set view *)

Definition ba_shape (n : Z) (x : bitarray) : Prop :=
  words_ok x ∧ Z.of_nat (length x) = WORDSIZEROUND n.

Lemma elem_of_ba_to_set x n k :
  0 ≤ n → WORDSIZEROUND n ≤ Z.of_nat (length x) →
  k ∈ ba_to_set x n ↔ 0 ≤ k < 64 * WORDSIZEROUND n ∧ bmem x k = true.
Proof.
  intros Hn Hl. unfold ba_to_set. rewrite elem_of_list_to_set.
  apply elem_of_ba_elems. by apply wround_nonneg.
Qed.

Lemma ba_to_set_ext x n (s : gset Z) :
  0 ≤ n → Z.of_nat (length x) = WORDSIZEROUND n →
  (∀ k, bmem x k = true ↔ k ∈ s) → ba_to_set x n = s.
Proof.
  intros Hn Hl Hk. apply set_eq. intros k. rewrite elem_of_ba_to_set, Hk by lia.
  split; [by intros []|]. intros Hs. split; [|done]. apply Hk, bmem_range in Hs. lia.
Qed.

Lemma bmem_to_set x n k :
  0 ≤ n → Z.of_nat (length x) = WORDSIZEROUND n → bmem x k = true ↔ k ∈ ba_to_set x n.
Proof.
  intros Hn Hl. rewrite elem_of_ba_to_set by lia. split; [|by intros []].
  intros H. split; [|done]. apply bmem_range in H. lia.
Qed.

Lemma ba_size x n : 0 ≤ n → size (ba_to_set x n) = length (ba_elems x (WORDSIZEROUND n)).
Proof. intros. apply size_list_to_set. apply ba_elems_NoDup. by apply wround_nonneg. Qed.

Lemma bmem_words x k w :
  zget x (k / 64) = Some w → bmem x k = Z.testbit w (k mod 64).
Proof. unfold bmem. by intros ->. Qed.

(** A word loop whose word function is a pointwise boolean function [g] of the
    bits is a set operation. *)
Lemma map_words_bits (x : bitarray) n f (g : Z → bool → bool) :
  0 ≤ n → ba_shape n x →
  (∀ i w, 0 ≤ i < WORDSIZEROUND n → zget x i = Some w →
     ∃ w', f i w = Some w' ∧ 0 ≤ w' < 2 ^ 64 ∧
       ∀ j, 0 ≤ j < 64 → Z.testbit w' j = g (i * 64 + j) (Z.testbit w j)) →
  ∃ x', map_words x n f = Some x' ∧ ba_shape n x' ∧
    ∀ k, 0 ≤ k < 64 * WORDSIZEROUND n → bmem x' k = g k (bmem x k).
Proof.
  intros Hn [Hok Hl] Hf. destruct (map_words_spec x n f) as (x' & Hx' & Hl' & Hok' & Hg); [done|lia|done| |].
  { intros i w Hi Hw. destruct (Hf i w Hi Hw) as (w' & ? & ? & _). eauto. }
  exists x'. split_and!; [done | by split; [|lia] |].
  intros k Hk. destruct (zget_word_total x k) as [w Hw]; [lia|].
  destruct (Hf (k / 64) w) as (w' & Hw' & _ & Hbits); [dlia | done |].
  assert (zget x' (k / 64) = Some w') as Hx'w.
  { rewrite Hg. case_decide; [|dlia]. rewrite Hw. done. }
  rewrite (bmem_words _ _ _ Hx'w), (bmem_words _ _ _ Hw), Hbits by dlia.
  f_equal. dlia.
Qed.

(** ** Refinement: a bitarray is a finite set *)

(** C29: On an allocated bitarray, [ba_check], [ba_set] and [ba_clr] never leave
    the array and are membership, insertion and removal on the set it stands
    for; the shape of the array is kept. *)
Theorem ba_bit_ops_refine_set (x : bitarray) (n i : Z)
    (Hn : 0 ≤ n) (Hx : ba_shape n x) (Hi : 0 ≤ i < 64 * WORDSIZEROUND n) :
  ba_check (Some x) i = Some (bool_decide (i ∈ ba_to_set x n)) ∧
  (∃ x', ba_set x i = Some x' ∧ ba_shape n x' ∧ ba_to_set x' n = {[i]} ∪ ba_to_set x n) ∧
  (∃ x', ba_clr x i = Some x' ∧ ba_shape n x' ∧ ba_to_set x' n = ba_to_set x n ∖ {[i]}).
Proof.
  destruct Hx as [Hok Hl]. split_and!.
  - rewrite ba_check_spec by lia. f_equal. apply eq_true_iff_eq.
    rewrite bool_decide_eq_true. by apply bmem_to_set.
  - destruct (ba_set_spec x i) as (x' & ? & Hl' & Hok' & Hb); [done | lia |].
    exists x'. split_and!; [done | by split; [|lia] |].
    apply ba_to_set_ext; [done | lia |]. intros k. rewrite Hb, orb_true_iff, bool_decide_eq_true.
    rewrite (bmem_to_set x n) by lia. set_solver.
  - destruct (ba_clr_spec x i) as (x' & ? & Hl' & Hok' & Hb); [done | lia |].
    exists x'. split_and!; [done | by split; [|lia] |].
    apply ba_to_set_ext; [done | lia |]. intros k.
    rewrite Hb, andb_true_iff, negb_true_iff, bool_decide_eq_false.
    rewrite (bmem_to_set x n) by lia. set_solver.
Qed.

Lemma ba_bit_ops_refine_set_witness :
  ba_check (Some (ba_alloc 100)) 70 = Some (bool_decide (70 ∈ ba_to_set (ba_alloc 100) 100)).
Proof.
  apply (ba_bit_ops_refine_set (ba_alloc 100) 100 70); [lia | | vm_compute; split; congruence].
  split; [repeat constructor; lia | reflexivity].
Defined.

Lemma ba_shape_bits (x y : bitarray) n k w :
  ba_shape n x → ba_shape n y → zget x k = Some w → ∃ v, zget y k = Some v ∧ 0 ≤ v < 2 ^ 64.
Proof.
  intros [_ Hx] [Hy Hl] Hw%zget_lt. destruct (zget_is_Some y k) as [v Hv]; [lia|].
  eauto using words_ok_lookup.
Qed.

(** A word loop over two arrays whose word function acts bit by bit as [g]. *)
Lemma map_words2_bits (x y : bitarray) n f (g : bool → bool → bool) :
  0 ≤ n → ba_shape n x → ba_shape n y →
  (∀ i w v, zget y i = Some v → 0 ≤ w < 2 ^ 64 → 0 ≤ v < 2 ^ 64 →
     ∃ w', f i w = Some w' ∧ 0 ≤ w' < 2 ^ 64 ∧
       ∀ j, 0 ≤ j < 64 → Z.testbit w' j = g (Z.testbit w j) (Z.testbit v j)) →
  ∃ z, map_words x n f = Some z ∧ ba_shape n z ∧
    ∀ k, 0 ≤ k < 64 * WORDSIZEROUND n → bmem z k = g (bmem x k) (bmem y k).
Proof.
  intros Hn Hx Hy Hf. apply (map_words_bits x n f (λ k b, g b (bmem y k))); [done..|].
  intros i w Hi Hw. destruct (ba_shape_bits x y n i w) as (v & Hv & ?); [done..|].
  destruct (Hf i w v) as (w' & ? & ? & Hb); try done; [by eapply words_ok_lookup; [apply Hx|]|].
  exists w'. split_and!; try done; try lia. intros j Hj. rewrite Hb by done. f_equal.
  unfold bmem. replace ((i * 64 + j) / 64) with i by dlia. rewrite Hv. f_equal. dlia.
Qed.

Lemma ba_to_set_in_range x n k : 0 ≤ n → ba_shape n x → k ∈ ba_to_set x n → 0 ≤ k < 64 * WORDSIZEROUND n.
Proof. intros Hn [_ Hl] [? _]%elem_of_ba_to_set; (done || lia). Qed.

Lemma ba_to_set_eq z n (P : gset Z) :
  0 ≤ n → ba_shape n z →
  (∀ k, 0 ≤ k < 64 * WORDSIZEROUND n → bmem z k = true ↔ k ∈ P) →
  (∀ k, k ∈ P → 0 ≤ k < 64 * WORDSIZEROUND n) → ba_to_set z n = P.
Proof.
  intros Hn [_ Hl] Hk HP. apply ba_to_set_ext; [done..|]. intros k. split.
  - intros H. apply Hk; [apply bmem_range in H; lia | done].
  - intros H. by apply Hk; [apply HP|].
Qed.

(** The word loops are the set operations: [ba_add] is union, [ba_remove]
    difference, [ba_copy] assignment, [ba_zap] the empty set, and [ba_card]
    counts the members. *)
Theorem ba_word_ops_refine_set (x y : bitarray) (n : Z)
    (Hn : 0 ≤ n) (Hx : ba_shape n x) (Hy : ba_shape n y) :
  (∃ z, ba_add x y n = Some z ∧ ba_shape n z ∧ ba_to_set z n = ba_to_set x n ∪ ba_to_set y n) ∧
  (∃ z, ba_remove x y n = Some z ∧ ba_shape n z ∧ ba_to_set z n = ba_to_set x n ∖ ba_to_set y n) ∧
  (∃ z, ba_copy x y n = Some z ∧ ba_shape n z ∧ ba_to_set z n = ba_to_set y n) ∧
  (∃ z, ba_zap x n = Some z ∧ ba_shape n z ∧ ba_to_set z n = ∅) ∧
  ba_card x n = Some (Z.of_nat (size (ba_to_set x n))).
Proof.
  assert (∀ k, k ∈ ba_to_set x n → 0 ≤ k < 64 * WORDSIZEROUND n) as Hrx by eauto using ba_to_set_in_range.
  assert (∀ k, k ∈ ba_to_set y n → 0 ≤ k < 64 * WORDSIZEROUND n) as Hry by eauto using ba_to_set_in_range.
  assert (∀ k, bmem x k = true ↔ k ∈ ba_to_set x n) as Hmx by (intros; by apply bmem_to_set, Hx).
  assert (∀ k, bmem y k = true ↔ k ∈ ba_to_set y n) as Hmy by (intros; by apply bmem_to_set, Hy).
  split_and!.
  - destruct (map_words2_bits x y n (λ i w, s ← zget y i; Some (Z.lor w s)) orb) as (z & ? & ? & Hb); [done..| |].
    { intros i w v Hv ? ?. rewrite Hv. eexists; split; [done|].
      split; [by apply lor_range | intros; apply Z.lor_spec]. }
    exists z. split_and!; try done. apply ba_to_set_eq; [done..| |set_solver].
    intros k Hk. rewrite Hb, orb_true_iff, Hmx, Hmy by done. set_solver.
  - destruct (map_words2_bits x y n (λ i w, s ← zget y i; Some (Z.land w (u64 (Z.lnot s)))) (λ a b, a && negb b))
      as (z & ? & ? & Hb); [done..| |].
    { intros i w v Hv ? ?. rewrite Hv. eexists; split; [done|].
      split; [apply land_range; [done | apply u64_range]|]. intros j Hj.
      rewrite Z.land_spec, testbit_u64, Z.lnot_spec by lia. destruct (Z.ltb_spec j 64); [done | lia]. }
    exists z. split_and!; try done. apply ba_to_set_eq; [done..| |set_solver].
    intros k Hk. rewrite Hb, andb_true_iff, negb_true_iff by done.
    rewrite Hmx, <- not_true_iff_false, Hmy by done. set_solver.
  - destruct (map_words2_bits x y n (λ i _, zget y i) (λ _ b, b)) as (z & ? & ? & Hb); [done..|eauto|].
    exists z. split_and!; try done. apply ba_to_set_eq; [done..| |done].
    intros k Hk. by rewrite Hb, Hmy by done.
  - destruct Hx as [Hok Hl].
    destruct (zero_words_spec x 0 (WORDSIZEROUND n)) as (z & Hz & Hlz & Hokz & Hg); [lia|lia|done|].
    exists z. split_and!; [done | split; [done | lia] |]. apply ba_to_set_eq; [done|split; [done | lia]| |set_solver].
    intros k Hk. rewrite (bmem_words z k 0), Z.bits_0; [set_solver|]. rewrite Hg. case_decide; [done | dlia].
  - destruct Hx. by rewrite ba_card_elems, ba_size by lia.
Qed.

Lemma ba_word_ops_refine_set_witness :
  ba_card [5; 1] 100 = Some (Z.of_nat (size (ba_to_set [5; 1] 100))).
Proof.
  apply (ba_word_ops_refine_set [5; 1] [1; 1] 100); [lia | |]; (split; [repeat constructor; lia | reflexivity]).
Defined.

(** ** Arrays with cardinality *)

Lemma ba_elems_ext (x y : bitarray) r :
  (∀ i, 0 ≤ i < r → zget x i = zget y i) → ba_elems x r = ba_elems y r.
Proof.
  intros H. unfold ba_elems. f_equal. apply list_fmap_ext. intros ? i Hi%list_elem_of_lookup_2%elem_of_seqZ.
  rewrite H by lia. done.
Qed.

Lemma length_ba_elems_set x x' r i :
  0 ≤ r → 0 ≤ i < 64 * r → bmem x i = false →
  (∀ j, 0 ≤ j < 64 * r → bmem x' j = bool_decide (j = i) || bmem x j) →
  length (ba_elems x' r) = S (length (ba_elems x r)).
Proof.
  intros Hr Hi Hm Hb. apply (Permutation_length (l' := i :: ba_elems x r)). apply NoDup_Permutation.
  - by apply ba_elems_NoDup.
  - constructor; [|by apply ba_elems_NoDup]. rewrite elem_of_ba_elems by done. rewrite Hm. by intros [].
  - intros j. rewrite elem_of_cons, !elem_of_ba_elems by done. split.
    + intros [Hj H]. rewrite Hb in H by done. case_bool_decide; [by left | right; done].
    + intros [-> | [Hj H]]; (split; [done|]); rewrite Hb by done; [by rewrite bool_decide_eq_true_2|].
      by rewrite H, orb_true_r.
Qed.

Lemma bmem_zset_outside (x x' : bitarray) r c k :
  zset x r c = Some x' → k < 64 * r → bmem x' k = bmem x k.
Proof.
  intros Hs Hk. unfold bmem. rewrite (zget_zset _ _ _ _ _ Hs). case_decide; [dlia | done].
Qed.

(** The shared shape of [bac_set] and [bac_clr]: one word and the counter are
    written. *)
Lemma bac_write_spec n x i w (h : Z → Z) :
  bac_wf n x → 0 ≤ n → 0 ≤ i < 64 * WORDSIZEROUND n → 0 ≤ w < 2 ^ 64 → (∀ c, 0 ≤ h c < 2 ^ 64) →
  ∃ x', (x1 ← zset x (i / 64) w; c ← zget x1 (WORDSIZEROUND n); zset x1 (WORDSIZEROUND n) (h c)) = Some x' ∧
    words_ok x' ∧ length x' = length x ∧
    zget x' (WORDSIZEROUND n) = Some (h (Z.of_nat (length (ba_elems x (WORDSIZEROUND n))))) ∧
    ∀ j, j < 64 * WORDSIZEROUND n →
      bmem x' j = if decide (j / 64 = i / 64) then Z.testbit w (j mod 64) else bmem x j.
Proof.
  intros (Hok & Hl & Hc) Hn Hi Hw Hc'. pose proof (wround_nonneg n Hn).
  pose proof (zset_is_Some x (i / 64) w ltac:(dlia)) as H1. rewrite H1. simpl.
  set (x1 := <[Z.to_nat (i / 64):=w]> x) in *.
  assert (length x1 = length x) as Hl1 by apply length_insert.
  rewrite (zget_zset _ _ _ _ _ H1). destruct (decide (i / 64 = WORDSIZEROUND n)); [dlia|].
  rewrite Hc. simpl. set (c' := h _).
  pose proof (zset_is_Some x1 (WORDSIZEROUND n) c' ltac:(lia)) as H2. rewrite H2.
  eexists; split; [done|]. split_and!.
  - eapply words_ok_zset; [|apply Hc'|exact H2]. exact (words_ok_zset _ _ _ _ Hok Hw H1).
  - by rewrite length_insert.
  - rewrite (zget_zset _ _ _ _ _ H2). by rewrite decide_True.
  - intros j Hj. rewrite (bmem_zset_outside _ _ _ _ _ H2), (bmem_zset _ _ _ _ _ H1) by done. done.
Qed.

Lemma setbit_same w k : 0 ≤ k < 64 → 0 ≤ w → Z.lor w (u64 (Z.shiftl 1 k)) = w ↔ Z.testbit w k = true.
Proof.
  intros Hk Hw. split.
  - intros <-. rewrite setbit_word_spec by lia. by rewrite bool_decide_eq_true_2.
  - intros Ht. apply Z.bits_inj'. intros j Hj. rewrite setbit_word_spec by lia.
    case_bool_decide; [by subst | done].
Qed.

Lemma clrbit_same w k :
  0 ≤ k < 64 → 0 ≤ w < 2 ^ 64 → Z.land w (u64 (Z.lnot (Z.shiftl 1 k))) = w ↔ Z.testbit w k = false.
Proof.
  intros Hk Hw. split.
  - intros <-. rewrite clrbit_word_spec by lia. by rewrite bool_decide_eq_true_2.
  - intros Ht. apply Z.bits_inj'. intros j Hj. rewrite clrbit_word_spec by lia.
    case_bool_decide; [by subst | done].
Qed.

Lemma bac_set_spec n x i :
  bac_wf n x → 0 ≤ n < 2 ^ 30 → 0 ≤ i < 64 * WORDSIZEROUND n →
  ∃ x', bac_set x n i = Some x' ∧ bac_wf n x' ∧ length x' = length x ∧
    ∀ j, j < 64 * WORDSIZEROUND n → bmem x' j = bool_decide (j = i) || bmem x j.
Proof.
  intros Hwf Hn Hi. pose proof Hwf as (Hok & Hl & Hc). pose proof (wround_bound n).
  unfold bac_set. rewrite shiftr6, land63.
  destruct (zget_word_total x i) as [w Hw]; [lia|]. rewrite Hw. simpl.
  assert (0 ≤ w < 2 ^ 64) as Hwr by eauto using words_ok_lookup.
  assert (bmem x i = Z.testbit w (i mod 64)) as Hm by (by apply bmem_words).
  pose proof (setbit_same w (i mod 64) ltac:(dlia) ltac:(lia)) as Hsame.
  destruct (Z.eqb_spec (Z.lor w (u64 (Z.shiftl 1 (i mod 64)))) w) as [E|E].
  - exists x. split_and!; [done..|]. intros j Hj. case_bool_decide; [|done]. subst. rewrite Hm. by apply Hsame.
  - destruct (bac_write_spec n x i (Z.lor w (u64 (Z.shiftl 1 (i mod 64)))) (λ c, u64 (c + 1)))
      as (x' & Hx' & Hok' & Hl' & Hc' & Hb); try done; [lia|by apply lor_range, u64_range|intros; apply u64_range|].
    assert (∀ j, j < 64 * WORDSIZEROUND n → bmem x' j = bool_decide (j = i) || bmem x j) as Hbits.
    { intros j Hj. rewrite Hb by done. case_decide as Ej.
      - rewrite setbit_word_spec by dlia. rewrite (bmem_words x j w) by congruence. f_equal.
        apply bool_decide_ext. split; [by apply div_mod_64_eq | by intros ->].
      - rewrite bool_decide_eq_false_2 by congruence. done. }
    exists x'. split_and!; [done| |done|done]. split_and!; [done|lia|]. rewrite Hc'. f_equal.
    rewrite (length_ba_elems_set x x' _ i); [|lia..| |].
    + pose proof (ba_elems_length_bound x (WORDSIZEROUND n) ltac:(lia)). rewrite u64_small; lia.
    + destruct (bmem x i) eqn:Em; [|done]. destruct E. by apply Hsame.
    + intros j Hj. apply Hbits. lia.
Qed.

Lemma bac_clr_spec n x i :
  bac_wf n x → 0 ≤ n < 2 ^ 30 → 0 ≤ i < 64 * WORDSIZEROUND n →
  ∃ x', bac_clr x n i = Some x' ∧ bac_wf n x' ∧ length x' = length x ∧
    ∀ j, j < 64 * WORDSIZEROUND n → bmem x' j = negb (bool_decide (j = i)) && bmem x j.
Proof.
  intros Hwf Hn Hi. pose proof Hwf as (Hok & Hl & Hc). pose proof (wround_bound n).
  unfold bac_clr. rewrite shiftr6, land63.
  destruct (zget_word_total x i) as [w Hw]; [lia|]. rewrite Hw. simpl.
  assert (0 ≤ w < 2 ^ 64) as Hwr by eauto using words_ok_lookup.
  assert (bmem x i = Z.testbit w (i mod 64)) as Hm by (by apply bmem_words).
  pose proof (clrbit_same w (i mod 64) ltac:(dlia) ltac:(lia)) as Hsame.
  destruct (Z.eqb_spec (Z.land w (u64 (Z.lnot (Z.shiftl 1 (i mod 64))))) w) as [E|E].
  - exists x. split_and!; [done..|]. intros j Hj. case_bool_decide; [|done]. subst. rewrite Hm. by apply Hsame.
  - destruct (bac_write_spec n x i (Z.land w (u64 (Z.lnot (Z.shiftl 1 (i mod 64))))) (λ c, u64 (c - 1)))
      as (x' & Hx' & Hok' & Hl' & Hc' & Hb); try done;
      [lia|by apply land_range; [|apply u64_range]|intros; apply u64_range|].
    assert (∀ j, j < 64 * WORDSIZEROUND n → bmem x' j = negb (bool_decide (j = i)) && bmem x j) as Hbits.
    { intros j Hj. rewrite Hb by done. case_decide as Ej.
      - rewrite clrbit_word_spec by dlia. rewrite (bmem_words x j w) by congruence. do 2 f_equal.
        apply bool_decide_ext. split; [by apply div_mod_64_eq | by intros ->].
      - rewrite bool_decide_eq_false_2 by congruence. done. }
    exists x'. split_and!; [done| |done|done]. split_and!; [done|lia|]. rewrite Hc'. f_equal.
    assert (bmem x i = true) as Em.
    { destruct (bmem x i) eqn:Em; [done|]. destruct E. by apply Hsame. }
    rewrite (length_ba_elems_set x' x _ i); [|lia..| |].
    + pose proof (ba_elems_length_bound x' (WORDSIZEROUND n) ltac:(lia)). rewrite u64_small; lia.
    + rewrite Hbits by lia. by rewrite bool_decide_eq_true_2.
    + intros j Hj. rewrite Hbits by lia. case_bool_decide; [by subst | done].
Qed.

(** [bac_set] and [bac_clr] keep the trailing word equal to the cardinality
    of the set and are insertion and removal. *)
Theorem bac_ops_keep_cardinality (x : bitarray) (n i : Z)
    (Hn : 0 ≤ n < 2 ^ 30) (Hx : bac_wf n x) (Hi : 0 ≤ i < 64 * WORDSIZEROUND n) :
  (∃ x', bac_set x n i = Some x' ∧ bac_wf n x' ∧ ba_to_set x' n = {[i]} ∪ ba_to_set x n ∧
     bac_card x' n = Some (Z.of_nat (size ({[i]} ∪ ba_to_set x n)))) ∧
  (∃ x', bac_clr x n i = Some x' ∧ bac_wf n x' ∧ ba_to_set x' n = ba_to_set x n ∖ {[i]} ∧
     bac_card x' n = Some (Z.of_nat (size (ba_to_set x n ∖ {[i]})))).
Proof.
  assert (∀ y (P : gset Z), bac_wf n y → ba_to_set y n = P → bac_card y n = Some (Z.of_nat (size P))) as Hcard.
  { intros y P (_ & _ & Hc) <-. unfold bac_card. rewrite Hc, ba_size by lia. simpl. f_equal.
    pose proof (ba_elems_length_bound y _ (wround_nonneg n ltac:(lia))). pose proof (wround_bound n).
    unfold i32. rewrite Z.mod_small; lia. }
  assert (∀ y (P : gset Z), bac_wf n y →
    (∀ k, 0 ≤ k < 64 * WORDSIZEROUND n ∧ bmem y k = true ↔ k ∈ P) → ba_to_set y n = P) as Hset.
  { intros y P (_ & Hl & _) Hk. apply set_eq. intros k. rewrite elem_of_ba_to_set by lia. apply Hk. }
  pose proof Hx as (_ & Hl & _).
  split; [destruct (bac_set_spec n x i) as (x' & Hx' & Hwf & _ & Hb)
         |destruct (bac_clr_spec n x i) as (x' & Hx' & Hwf & _ & Hb)]; try done; exists x'.
  - assert (ba_to_set x' n = {[i]} ∪ ba_to_set x n) as Hs; [|eauto].
    apply Hset; [done|]. intros k. rewrite elem_of_union, elem_of_singleton, elem_of_ba_to_set by lia.
    split; [intros [Hk H]; rewrite Hb in H by lia; case_bool_decide; auto|].
    intros [->|[Hk H]]; (split; [done|]); rewrite Hb by lia; [by rewrite bool_decide_eq_true_2|].
    by rewrite H, orb_true_r.
  - assert (ba_to_set x' n = ba_to_set x n ∖ {[i]}) as Hs; [|eauto].
    apply Hset; [done|]. intros k. rewrite elem_of_difference, elem_of_singleton, elem_of_ba_to_set by lia.
    split; [intros [Hk H]; rewrite Hb in H by lia; by case_bool_decide|].
    intros [[Hk H] Hne]. split; [done|]. rewrite Hb by lia. by rewrite bool_decide_eq_false_2.
Qed.

Lemma bac_ops_keep_cardinality_witness :
  ∃ x', bac_set (bac_alloc 100) 100 7 = Some x' ∧ bac_wf 100 x' ∧
    ba_to_set x' 100 = {[7]} ∪ ba_to_set (bac_alloc 100) 100 ∧
    bac_card x' 100 = Some (Z.of_nat (size ({[7]} ∪ ba_to_set (bac_alloc 100) 100 : gset Z))).
Proof.
  apply (bac_ops_keep_cardinality (bac_alloc 100) 100 7); [lia | | vm_compute; split; congruence].
  split_and!; [repeat constructor; lia | reflexivity | reflexivity].
Defined.

(** ** Reallocation *)

Lemma zget_app_l {A} (l1 l2 : list A) i : i < Z.of_nat (length l1) → zget (l1 ++ l2) i = zget l1 i.
Proof. intros Hi. unfold zget. destruct (Z.ltb_spec i 0); [done|]. apply lookup_app_l. lia. Qed.

Lemma zget_take {A} (l : list A) n i : i < Z.of_nat n → zget (take n l) i = zget l i.
Proof. intros Hi. unfold zget. destruct (Z.ltb_spec i 0); [done|]. apply lookup_take_lt. lia. Qed.

Lemma zget_ge {A} (l : list A) i : Z.of_nat (length l) ≤ i → zget l i = None.
Proof. intros Hi. unfold zget. destruct (Z.ltb_spec i 0); [done|]. apply lookup_ge_None. lia. Qed.

(** The final mask of [ba_realloc] keeps a word whose bits are all below the
    old size. *)
Lemma realloc_mask_id n w :
  0 < n → 0 ≤ w < 2 ^ 64 →
  (∀ j, 0 ≤ j < 64 → Z.testbit w j = true → (WORDSIZEROUND n - 1) * 64 + j < n) →
  Z.land w (Z.shiftr (2 ^ 64 - 1) (u32 (0 - n) mod 64)) = w.
Proof.
  intros Hn Hw Hj. assert (u32 (0 - n) mod 64 = 64 * WORDSIZEROUND n - n) as ->.
  { rewrite wround_spec. unfold u32. dlia. }
  pose proof (wround_bound n) as HR. apply Z.bits_inj'. intros j Hj0.
  rewrite Z.land_spec. destruct (Z.testbit w j) eqn:E; [|done]. simpl.
  assert (j < 64) by (destruct (Z.lt_ge_cases j 64); [done | rewrite (testbit_high w 64) in E; (done || lia)]).
  rewrite Z.shiftr_spec by lia. change (2 ^ 64 - 1) with (Z.ones 64).
  apply Z.ones_spec_low. specialize (Hj j ltac:(lia) E). lia.
Qed.

Lemma ba_realloc_grow (b junk : bitarray) (n m : Z) :
  0 < n < 2 ^ 31 → ba_shape n b → words_ok junk → WORDSIZEROUND m ≤ Z.of_nat (length b + length junk) →
  (∀ k, bmem b k = true → k < n) → WORDSIZEROUND n ≤ WORDSIZEROUND m →
  ∃ x, ba_realloc b junk n m = Some x ∧ ba_shape m x ∧ ∀ k, bmem x k = bmem b k.
Proof.
  intros Hn [Hok Hl] Hjok Hjl Hbits Hle. pose proof (wround_bound n) as HRn.
  unfold ba_realloc, realloc_words. set (nb := take (Z.to_nat (WORDSIZEROUND m)) (b ++ junk)).
  assert (words_ok nb) as Hnb by (by apply Forall_take, Forall_app).
  assert (length nb = Z.to_nat (WORDSIZEROUND m)) as Hnl.
  { unfold nb. rewrite length_take, length_app. lia. }
  destruct (zero_words_spec nb (WORDSIZEROUND n) (WORDSIZEROUND m))
    as (x1 & Hx1 & Hl1 & Hok1 & Hg1); [lia|lia|done|]. rewrite Hx1. simpl.
  assert (∀ i, i < WORDSIZEROUND n → zget x1 i = zget b i) as Hlow.
  { intros i Hi. rewrite Hg1. case_decide; [lia|]. unfold nb.
    rewrite zget_take, zget_app_l by lia. done. }
  destruct (zget_is_Some b (WORDSIZEROUND n - 1)) as [w Hw]; [lia|].
  rewrite Hlow, Hw by lia. simpl. rewrite realloc_mask_id; [|lia|exact (words_ok_lookup _ _ _ Hok Hw)|].
  - assert (zset x1 (WORDSIZEROUND n - 1) w = Some x1) as ->.
    { rewrite zset_is_Some by lia. f_equal. apply list_insert_id.
      rewrite <- Hw, <- Hlow by lia. unfold zget. destruct (Z.ltb_spec (WORDSIZEROUND n - 1) 0); [lia | done]. }
    exists x1. split_and!; [done | split; [done|lia] |]. intros k. unfold bmem.
    destruct (Z.lt_ge_cases (k / 64) (WORDSIZEROUND n)) as [Hk|Hk]; [by rewrite Hlow|].
    rewrite (zget_ge b) by lia. rewrite Hg1. case_decide; [apply Z.bits_0|].
    rewrite zget_ge by lia. done.
  - intros j Hj Ht. apply Hbits. rewrite (bmem_words b _ w); [rewrite <- Ht; f_equal; dlia|].
    rewrite <- Hw. f_equal. dlia.
Qed.

(** [ba_realloc] to at least as many words keeps exactly the members; to
    fewer words it writes past the end of the new block. *)
Theorem ba_realloc_grow_or_fault (b junk : bitarray) (n m : Z)
    (Hn : 0 < n < 2 ^ 31) (Hb : ba_shape n b)
    (Hj : words_ok junk ∧ WORDSIZEROUND m ≤ Z.of_nat (length b + length junk))
    (Hbits : ∀ k, bmem b k = true → k < n) :
  (WORDSIZEROUND n ≤ WORDSIZEROUND m →
     ∃ x, ba_realloc b junk n m = Some x ∧ ba_shape m x ∧ ∀ k, bmem x k = bmem b k) ∧
  (0 < m → WORDSIZEROUND m < WORDSIZEROUND n → ba_realloc b junk n m = None).
Proof.
  destruct Hj as [Hjok Hjl]. split; [by apply ba_realloc_grow|]. destruct Hb as [Hok Hl].
  intros Hm Hlt. pose proof (wround_bound m). pose proof (wround_bound n).
  unfold ba_realloc, realloc_words, zero_words. rewrite seqZ_nil by lia. simpl.
  rewrite zget_ge; [done|]. rewrite length_take, length_app. lia.
Qed.

Lemma ba_realloc_grow_or_fault_witness :
  ba_realloc (ba_alloc 128) [] 128 64 = None.
Proof.
  refine (proj2 (ba_realloc_grow_or_fault (ba_alloc 128) [] 128 64 _ _ _ _) _ _); try lia.
  - split; [repeat constructor; lia | reflexivity].
  - split; [constructor | vm_compute; congruence].
  - intros k Hk. apply bmem_range in Hk. change (length (ba_alloc 128)) with 2%nat in Hk. lia.
  - reflexivity.
Defined.

(** [bac_realloc] does not clear the word that held the old cardinality, so
    growing an array with cardinality turns the old count into members: an
    array for 64 bits that holds only bit 0 grows to one that holds bits 0 and
    64, while the stored cardinality stays 1. *)
Theorem bac_realloc_grow_keeps_stale_count (j0 : Z) :
  ∃ b x, bac_set (bac_alloc 64) 64 0 = Some b ∧ ba_to_set b 64 = {[0]} ∧
    bac_realloc b [j0] 64 128 = Some x ∧ ba_to_set x 128 = {[0; 64]} ∧ bac_card x 128 = Some 1.
Proof. exists [1; 1], [1; 1; 1]. by vm_compute. Qed.
