(* ===== verification/Hash.v ===== *)
(** * Hash: the MAC address table, [vde_switch/hash.c]

    The table is an array of [1 << hash_bits] chains; a chain is the list of its
    entries, first entry first.  A key is the extended MAC address: the six
    bytes of the address and the VLAN number packed in 64 bits (little-endian
    host).  Operations return [None] when they would leave the bucket array.
    The theorems show that the chained table refines a finite map from extended
    addresses to (port, last_seen). *)
From Stdlib Require Import Lia.
From stdpp Require Import base numbers list gmap.
From S2P Require Import Prelude BitArray.

(** ** Data *)

Record hash_entry := HashEntry { last_seen : Z; eport : Z; dst : Z }.

#[export] Instance hash_entry_eq_dec : EqDecision hash_entry.
Proof. solve_decision. Defined.

Record hash_state := HashState {
  hash_bits : Z;
  hash_mask : Z;
  h : list (list hash_entry);
  min_persistence : Z;
  gc_interval : Z;
  gc_expire : Z;
  gc_timerno : Z
}.

Definition MIN_PERSISTENCE_DFL : Z := 3.
Definition GC_INTERVAL : Z := 2.
Definition GC_EXPIRE : Z := 100.
Definition EINVAL : Z := 22.
Definition ENODEV : Z := 19.

Definition HASH_SIZE (hash_bits : Z) : Z := Z.shiftl 1 hash_bits.

Definition set_h (st : hash_state) (h' : list (list hash_entry)) : hash_state :=
  HashState (hash_bits st) (hash_mask st) h' (min_persistence st) (gc_interval st) (gc_expire st) (gc_timerno st).

(** ** Keys *)

Definition mac_byte (mac : list Z) (i : nat) : Z := nth i mac 0.

(** [extmac(MAC,VLAN)] *)
Definition extmac (mac : list Z) (vlan : Z) : Z :=
  let lo32 := mac_byte mac 0 + mac_byte mac 1 * 2 ^ 8 + mac_byte mac 2 * 2 ^ 16 + mac_byte mac 3 * 2 ^ 24 in
  let hi16 := mac_byte mac 4 + mac_byte mac 5 * 2 ^ 8 in
  u64 (lo32 + u64 (Z.shiftl (u64 (hi16 + u64 (Z.shiftl (u64 vlan) 16))) 32)).

Definition EMAC2MAC6 (x : Z) : list Z :=
  [Z.land x 0xff; Z.land (Z.shiftr x 8) 0xff; Z.land (Z.shiftr x 16) 0xff;
   Z.land (Z.shiftr x 24) 0xff; Z.land (Z.shiftr x 32) 0xff; Z.land (Z.shiftr x 40) 0xff].

Definition EMAC2VLAN (x : Z) : Z := u16 (Z.shiftr x 48).

Definition calc_hash (mask src : Z) : Z :=
  let src := Z.lxor src (Z.shiftr src 33) in
  let src := u64 (src * 0xff51afd7ed558ccd) in
  let src := Z.lxor src (Z.shiftr src 33) in
  let src := u64 (src * 0xc4ceb9fe1a85ec53) in
  i32 (Z.land src (u64 mask)).

#[global] Arguments extmac : simpl never.
#[global] Arguments calc_hash : simpl never.
#[global] Arguments EMAC2VLAN : simpl never.

(** ** Lookup and learning *)

(** The chain walk [for (e = h[k]; e && e->dst != MAC; e = e->next)]. *)
Fixpoint chain_find (mac : Z) (l : list hash_entry) : option hash_entry :=
  match l with
  | [] => None
  | e :: l' => if dst e =? mac then Some e else chain_find mac l'
  end.

Definition find_entry (st : hash_state) (mac : Z) : option (option hash_entry) :=
  l ← zget (h st) (calc_hash (hash_mask st) mac);
  Some (chain_find mac l).

Definition find_in_hash (st : hash_state) (d : list Z) (vlan : Z) : option Z :=
  oe ← find_entry st (extmac d vlan);
  Some (match oe with None => -1 | Some e => eport e end).

(** Assigning to the fields of the entry the walk stopped at. *)
Fixpoint chain_update (mac : Z) (f : hash_entry → hash_entry) (l : list hash_entry) : list hash_entry :=
  match l with
  | [] => []
  | e :: l' => if dst e =? mac then f e :: l' else e :: chain_update mac f l'
  end.

(** The tail of [find_in_hash_update]: refresh the entry or move it to [port]
    once it has been silent for more than [min_persistence]. *)
Definition refresh (minper now port : Z) (e : hash_entry) : hash_entry :=
  if eport e =? port then HashEntry now (eport e) (dst e)
  else if minper <? now - last_seen e then HashEntry now port (dst e)
  else e.

(** [malloc_ok] is the outcome of the allocation of a new entry, whose
    [last_seen] is indeterminate until the refresh below writes it. *)
Definition find_in_hash_update (st : hash_state) (src : list Z) (vlan port now : Z)
    (malloc_ok : bool) : option (hash_state * Z) :=
  let esrc := extmac src vlan in
  let k := calc_hash (hash_mask st) esrc in
  l ← zget (h st) k;
  match chain_find esrc l with
  | None =>
    if malloc_ok then
      let e := HashEntry 0 port esrc in
      h' ← zset (h st) k (refresh (min_persistence st) now port e :: l);
      Some (set_h st h', port)
    else Some (st, -1)
  | Some e =>
    h' ← zset (h st) k (chain_update esrc (refresh (min_persistence st) now port) l);
    Some (set_h st h', eport e)
  end.

(** ** Deletion *)

(** Unlinking the entry the walk stopped at. *)
Fixpoint chain_delete (mac : Z) (l : list hash_entry) : list hash_entry :=
  match l with
  | [] => []
  | e :: l' => if dst e =? mac then l' else e :: chain_delete mac l'
  end.

Definition delete_hash (st : hash_state) (d : list Z) (vlan : Z) : option hash_state :=
  let mac := extmac d vlan in
  let k := calc_hash (hash_mask st) mac in
  l ← zget (h st) k;
  match chain_find mac l with
  | None => Some st
  | Some _ => h' ← zset (h st) k (chain_delete mac l); Some (set_h st h')
  end.

(** [for_all_hash] with an iterator that deletes the entries satisfying [del];
    the successor is saved before the iterator runs. *)
Fixpoint chain_iter (del : hash_entry → bool) (l : list hash_entry) : list hash_entry :=
  match l with
  | [] => []
  | e :: next => if del e then chain_iter del next else e :: chain_iter del next
  end.

Definition for_all_hash (st : hash_state) (del : hash_entry → bool) : option hash_state :=
  h' ← zmap_loop (chain_iter del) (h st) (HASH_SIZE (hash_bits st));
  Some (set_h st h').

Definition delete_port_iterator (port : Z) (e : hash_entry) : bool := eport e =? port.
Definition delete_vlan_iterator (vlan : Z) (e : hash_entry) : bool := EMAC2VLAN (dst e) =? u16 vlan.
Definition delete_vlanport_iterator (vlan port : Z) (e : hash_entry) : bool :=
  (EMAC2VLAN (dst e) =? u16 vlan) && (eport e =? port).
Definition delete_vlansetofports_iterator (vlan : Z) (setofports : bitarray) (e : hash_entry) : bool :=
  (EMAC2VLAN (dst e) =? u16 vlan) && default false (ba_check (Some setofports) (eport e)).
Definition flush_iterator (e : hash_entry) : bool := true.
Definition gc (gc_expire now : Z) (e : hash_entry) : bool := last_seen e + gc_expire <? now.

Definition hash_delete_port (st : hash_state) (port : Z) := for_all_hash st (delete_port_iterator port).
Definition hash_delete_vlan (st : hash_state) (vlan : Z) := for_all_hash st (delete_vlan_iterator vlan).
Definition hash_delete_vlanport (st : hash_state) (vlan port : Z) :=
  for_all_hash st (delete_vlanport_iterator vlan port).
(** A port of the VLAN outside the bitarray makes [ba_check] leave it. *)
Definition hash_delete_vlanports (st : hash_state) (vlan : Z) (setofports : bitarray) :=
  if forallb (λ e, negb (EMAC2VLAN (dst e) =? u16 vlan)
                   || bool_decide (is_Some (ba_check (Some setofports) (eport e)))) (mjoin (h st))
  then for_all_hash st (delete_vlansetofports_iterator vlan setofports) else None.
Definition hash_flush (st : hash_state) := for_all_hash st flush_iterator.
Definition hash_gc (st : hash_state) (now : Z) := for_all_hash st (gc (gc_expire st) now).

(** ** Sizing *)

(** [while (x) { x >>= 1; i++; }]: [None] when [fuel] iterations do not end it. *)
Fixpoint po2round_loop (fuel : nat) (x i : Z) : option Z :=
  if x =? 0 then Some i else
  match fuel with
  | O => None
  | S f => po2round_loop f (Z.shiftr x 1) (i + 1)
  end.

Definition po2round (fuel : nat) (vx : Z) : option Z :=
  if vx =? 0 then Some 0 else po2round_loop fuel (vx - 1) 0.

(** [HASH_INIT(BIT)]; a failing [calloc] exits. *)
Definition HASH_INIT (st : hash_state) (bit : Z) : hash_state :=
  HashState bit (HASH_SIZE bit - 1) (replicate (Z.to_nat (HASH_SIZE bit)) [])
    (min_persistence st) (gc_interval st) (gc_expire st) (gc_timerno st).

(** The fuel of 32 is the width of [int]: a non-negative [int] is zero after at
    most 31 right shifts. *)
Definition hash_resize (st : hash_state) (hash_size : Z) (calloc_ok : bool) : outcome hash_state Z :=
  if 0 <? hash_size then
    match hash_flush st, po2round 32 hash_size with
    | Some st', Some bits => if calloc_ok then Done 0 (HASH_INIT st' bits) else Exited 1
    | _, _ => Fault
    end
  else Done EINVAL st.

Definition hash_set_gc_expire (st : hash_state) (e : Z) : hash_state :=
  HashState (hash_bits st) (hash_mask st) (h st) (min_persistence st) (gc_interval st) e (gc_timerno st).
Definition hash_set_minper (st : hash_state) (e : Z) : hash_state :=
  HashState (hash_bits st) (hash_mask st) (h st) e (gc_interval st) (gc_expire st) (gc_timerno st).
Definition hash_get_gc_interval (st : hash_state) : Z := gc_interval st.
Definition hash_get_gc_expire (st : hash_state) : Z := gc_expire st.

(** The table part of [hash_init]. *)
Definition hash_init (hash_size : Z) : option hash_state :=
  bits ← po2round 32 hash_size;
  Some (HASH_INIT (HashState 0 0 [] MIN_PERSISTENCE_DFL GC_INTERVAL GC_EXPIRE 0) bits).

(** One line of [print_hash]: bucket, address bytes, VLAN, port and age. *)
Definition hash_row : Type := Z * list Z * Z * Z * Z.
Definition print_hash_entry (st : hash_state) (now : Z) (e : hash_entry) : hash_row :=
  (calc_hash (hash_mask st) (dst e), EMAC2MAC6 (dst e), EMAC2VLAN (dst e), eport e, now - last_seen e).
Definition print_hash (st : hash_state) (now : Z) : option (list hash_row) :=
  foldl (λ acc i, rows ← acc; l ← zget (h st) i; Some (rows ++ (print_hash_entry st now <$> l)))
        (Some []) (seqZ 0 (HASH_SIZE (hash_bits st))).

(** [find_hash] after its argument has been scanned into a MAC and a VLAN. *)
Definition find_hash (st : hash_state) (mac : list Z) (vlan now : Z) : option (Z + hash_row) :=
  oe ← find_entry st (extmac mac vlan);
  Some (match oe with
        | None => inl ENODEV
        | Some e => inr (calc_hash (hash_mask st) (dst e), EMAC2MAC6 (dst e), EMAC2VLAN (dst e),
                         eport e + 1, now - last_seen e)
        end).

(** ** Well-formedness and the abstract table *)

Record hash_wf (st : hash_state) : Prop := {
  wf_bits : 0 ≤ hash_bits st ≤ 30;
  wf_mask : hash_mask st = HASH_SIZE (hash_bits st) - 1;
  wf_size : Z.of_nat (length (h st)) = HASH_SIZE (hash_bits st);
  wf_bucket : ∀ k l e, zget (h st) k = Some l → e ∈ l → calc_hash (hash_mask st) (dst e) = k;
  wf_nodup : ∀ k l, zget (h st) k = Some l → NoDup (dst <$> l)
}.

Definition entry_kv (e : hash_entry) : Z * (Z * Z) := (dst e, (eport e, last_seen e)).

(** The map the table stands for: extended address to (port, last_seen). *)
Definition hash_map (st : hash_state) : gmap Z (Z * Z) :=
  list_to_map (entry_kv <$> mjoin (h st)).

(** ** Keys: packing and unpacking *)

Lemma lxor_range a b n : 0 ≤ n → 0 ≤ a < 2 ^ n → 0 ≤ b < 2 ^ n → 0 ≤ Z.lxor a b < 2 ^ n.
Proof.
  intros Hn Ha Hb. assert (0 ≤ Z.lxor a b) by (apply Z.lxor_nonneg; lia). split; [done|].
  destruct (decide (Z.lxor a b = 0)) as [->|]; [lia|]. apply Z.log2_lt_pow2; [lia|].
  eapply Z.le_lt_trans; [apply Z.log2_lxor; lia|].
  destruct (decide (n = 0)) as [->|]; [assert (a = 0) by lia; assert (b = 0) by lia; by subst|].
  apply Z.max_lub_lt; (destruct (decide (a = 0)); destruct (decide (b = 0)); subst; simpl; try lia;
    apply Z.log2_lt_pow2; lia).
Qed.

Lemma HASH_SIZE_pow b : 0 ≤ b → HASH_SIZE b = 2 ^ b.
Proof. intros. unfold HASH_SIZE. apply Z.shiftl_1_l. Qed.

Lemma HASH_SIZE_bound b : 0 ≤ b ≤ 30 → 1 ≤ HASH_SIZE b ≤ 2 ^ 30.
Proof.
  intros Hb. rewrite HASH_SIZE_pow by lia. split.
  - pose proof (Z.pow_pos_nonneg 2 b). lia.
  - apply Z.pow_le_mono_r; lia.
Qed.

Lemma calc_hash_range b src : 0 ≤ b ≤ 30 → 0 ≤ calc_hash (HASH_SIZE b - 1) src < HASH_SIZE b.
Proof.
  intros Hb. pose proof (HASH_SIZE_bound b Hb) as Hs. unfold calc_hash.
  set (v := u64 (_ * _)). rewrite (u64_small (HASH_SIZE b - 1)) by lia.
  replace (HASH_SIZE b - 1) with (Z.ones b) by (rewrite Z.ones_equiv, HASH_SIZE_pow; lia).
  rewrite Z.land_ones by lia. rewrite <- HASH_SIZE_pow by lia.
  assert (0 ≤ v mod HASH_SIZE b < HASH_SIZE b) by (apply Z.mod_pos_bound; lia).
  unfold i32. rewrite Z.mod_small; lia.
Qed.

(** A MAC address is six bytes. *)
Definition macP (mac : list Z) : Prop := length mac = 6%nat ∧ Forall byteP mac.

Lemma macP_inv mac :
  macP mac → ∃ a b c d e f, mac = [a; b; c; d; e; f] ∧
    byteP a ∧ byteP b ∧ byteP c ∧ byteP d ∧ byteP e ∧ byteP f.
Proof.
  intros [Hl Hf]. destruct mac as [|a [|b [|c [|d [|e [|f [|]]]]]]]; try done.
  rewrite !Forall_cons in Hf. naive_solver.
Qed.

Lemma extmac_val a b c d e f vlan :
  byteP a → byteP b → byteP c → byteP d → byteP e → byteP f → 0 ≤ vlan < 2 ^ 16 →
  extmac [a; b; c; d; e; f] vlan =
    a + b * 2 ^ 8 + c * 2 ^ 16 + d * 2 ^ 24 + e * 2 ^ 32 + f * 2 ^ 40 + vlan * 2 ^ 48.
Proof.
  unfold byteP. intros. unfold extmac, mac_byte. cbn [nth].
  rewrite !Z.shiftl_mul_pow2 by lia. rewrite (u64_small vlan) by lia.
  rewrite (u64_small (vlan * 2 ^ 16)), (u64_small (_ + vlan * 2 ^ 16)) by lia.
  rewrite (u64_small ((_ + _) * 2 ^ 32)) by lia. rewrite u64_small by lia. lia.
Qed.

Lemma land_ff x : Z.land x 0xff = x mod 2 ^ 8.
Proof. change 0xff with (Z.ones 8). by apply Z.land_ones. Qed.

Lemma extmac_unpack mac vlan :
  macP mac → 0 ≤ vlan < 2 ^ 16 →
  0 ≤ extmac mac vlan < 2 ^ 64 ∧ EMAC2MAC6 (extmac mac vlan) = mac ∧ EMAC2VLAN (extmac mac vlan) = vlan.
Proof.
  intros (a & b & c & d & e & f & -> & ?)%macP_inv Hv. destruct_and!.
  rewrite extmac_val by done. unfold byteP in *. split; [lia|].
  unfold EMAC2MAC6, EMAC2VLAN, u16. rewrite !land_ff, !Z.shiftr_div_pow2 by lia.
  split; [repeat f_equal|]; dlia.
Qed.

(** Packing a MAC address and a 16-bit VLAN into an extended address loses
    nothing: [EMAC2MAC6] and [EMAC2VLAN] recover both, so distinct (MAC, VLAN)
    pairs have distinct keys. *)
Theorem extmac_roundtrip (mac mac' : list Z) (vlan vlan' : Z)
    (Hm : macP mac) (Hm' : macP mac') (Hv : 0 ≤ vlan < 2 ^ 16) (Hv' : 0 ≤ vlan' < 2 ^ 16) :
  EMAC2MAC6 (extmac mac vlan) = mac ∧ EMAC2VLAN (extmac mac vlan) = vlan ∧
  (extmac mac vlan = extmac mac' vlan' ↔ mac = mac' ∧ vlan = vlan').
Proof.
  pose proof (extmac_unpack mac vlan Hm Hv) as (_ & H1 & H2).
  pose proof (extmac_unpack mac' vlan' Hm' Hv') as (_ & H3 & H4).
  split_and!; [done..|]. split; [intros E; rewrite E in H1, H2; split; congruence | by intros [-> ->]].
Qed.

Lemma extmac_roundtrip_witness :
  extmac [2; 0; 0; 0; 0; 9] 100 = extmac [2; 0; 0; 0; 0; 9] 101 ↔
    [2; 0; 0; 0; 0; 9] = [2; 0; 0; 0; 0; 9] ∧ 100 = 101.
Proof.
  apply (extmac_roundtrip [2; 0; 0; 0; 0; 9] [2; 0; 0; 0; 0; 9] 100 101); try lia;
    (split; [reflexivity | repeat constructor; unfold byteP; lia]).
Defined.

(** ** The chains and the map *)

Lemma chain_find_Some mac l e : chain_find mac l = Some e → e ∈ l ∧ dst e = mac.
Proof.
  induction l as [|e' l IH]; simpl; [done|]. destruct (Z.eqb_spec (dst e') mac) as [E|E].
  - intros [= ->]. split; [left | done].
  - intros [? ?]%IH. split; [by right | done].
Qed.

Lemma chain_find_None mac l : chain_find mac l = None ↔ ∀ e, e ∈ l → dst e ≠ mac.
Proof.
  induction l as [|e' l IH]; simpl; [set_solver|]. destruct (Z.eqb_spec (dst e') mac) as [E|E].
  - split; [done|]. intros H. destruct (H e'); [left | done].
  - rewrite IH. set_solver.
Qed.

Lemma chain_find_elem mac l e :
  NoDup (dst <$> l) → e ∈ l → dst e = mac → chain_find mac l = Some e.
Proof.
  intros Hnd He Hd. induction l as [|e' l IH]; [set_solver|]. simpl.
  rewrite fmap_cons, NoDup_cons in Hnd. destruct Hnd as [Hni Hnd].
  apply elem_of_cons in He as [->|He].
  - by rewrite Hd, Z.eqb_refl.
  - destruct (Z.eqb_spec (dst e') mac); [|by apply IH].
    destruct Hni. apply list_elem_of_fmap. exists e. split; [congruence | done].
Qed.

Lemma chain_iter_filter del l : chain_iter del l = filter (λ e, del e = false) l.
Proof.
  induction l as [|e l IH]; [done|]. rewrite filter_cons. simpl. rewrite IH.
  destruct (del e); case_decide; done.
Qed.

Lemma chain_update_dst mac f l : (∀ e, dst (f e) = dst e) → dst <$> chain_update mac f l = dst <$> l.
Proof.
  intros Hf. induction l as [|e l IH]; [done|]. simpl. destruct (dst e =? mac); csimpl; [by rewrite Hf | by rewrite IH].
Qed.

Lemma elem_of_chain_update mac f l e :
  NoDup (dst <$> l) → (∀ e, dst (f e) = dst e) →
  e ∈ chain_update mac f l ↔ (e ∈ l ∧ dst e ≠ mac) ∨ ∃ e0, e0 ∈ l ∧ dst e0 = mac ∧ e = f e0.
Proof.
  intros Hnd Hf. induction l as [|e1 l IH]; simpl; [set_solver|].
  rewrite fmap_cons, NoDup_cons in Hnd. destruct Hnd as [Hni Hnd].
  destruct (Z.eqb_spec (dst e1) mac) as [E|E].
  - assert (∀ e, e ∈ l → dst e ≠ mac) as Hne.
    { intros e2 He2 Hd. destruct Hni. apply list_elem_of_fmap. exists e2. split; [congruence | done]. }
    set_solver.
  - rewrite elem_of_cons, IH by done. set_solver.
Qed.

Lemma elem_of_chain_delete mac l e :
  NoDup (dst <$> l) → e ∈ chain_delete mac l ↔ e ∈ l ∧ dst e ≠ mac.
Proof.
  intros Hnd. induction l as [|e1 l IH]; simpl; [set_solver|].
  rewrite fmap_cons, NoDup_cons in Hnd. destruct Hnd as [Hni Hnd].
  destruct (Z.eqb_spec (dst e1) mac) as [E|E].
  - assert (∀ e, e ∈ l → dst e ≠ mac) as Hne.
    { intros e2 He2 Hd. destruct Hni. apply list_elem_of_fmap. exists e2. split; [congruence | done]. }
    set_solver.
  - rewrite elem_of_cons, IH by done. set_solver.
Qed.

Lemma chain_delete_sublist mac l : sublist (dst <$> chain_delete mac l) (dst <$> l).
Proof.
  induction l as [|e l IH]; [done|]. simpl. destruct (dst e =? mac); csimpl; by constructor.
Qed.

Section wf.
Context (st : hash_state) (Hwf : hash_wf st).

Lemma wf_hash_range key : 0 ≤ calc_hash (hash_mask st) key < Z.of_nat (length (h st)).
Proof. rewrite (wf_mask _ Hwf), (wf_size _ Hwf). apply calc_hash_range, Hwf. Qed.

Lemma wf_bucket_total key : ∃ l, zget (h st) (calc_hash (hash_mask st) key) = Some l.
Proof. apply zget_is_Some, wf_hash_range. Qed.

Lemma elem_of_table e :
  e ∈ mjoin (h st) ↔ ∃ l, zget (h st) (calc_hash (hash_mask st) (dst e)) = Some l ∧ e ∈ l.
Proof.
  rewrite list_elem_of_join. split.
  - intros (l & He & [i Hi]%list_elem_of_lookup_1).
    assert (zget (h st) (Z.of_nat i) = Some l) as Hz by (apply zget_Some; rewrite Nat2Z.id; split; [lia | done]).
    rewrite (wf_bucket _ Hwf _ _ _ Hz He). eauto.
  - intros (l & Hl & He). exists l. split; [done|]. apply zget_Some in Hl as [_ Hl].
    by eapply list_elem_of_lookup_2.
Qed.

Lemma table_nodup : NoDup (dst <$> mjoin (h st)).
Proof.
  assert (∀ e1 e2, e1 ∈ mjoin (h st) → e2 ∈ mjoin (h st) → dst e1 = dst e2 → e1 = e2) as Hinj.
  { intros e1 e2 (l1 & Hl1 & H1)%elem_of_table (l2 & Hl2 & H2)%elem_of_table E.
    rewrite E in Hl1. rewrite Hl2 in Hl1. injection Hl1 as ->.
    pose proof (wf_nodup _ Hwf _ _ Hl2) as Hnd.
    pose proof (chain_find_elem _ _ _ Hnd H1 eq_refl). pose proof (chain_find_elem _ _ _ Hnd H2 eq_refl).
    congruence. }
  assert (NoDup (mjoin (h st))) as Hnd; [|by apply NoDup_fmap_2_strong].
  clear Hinj. assert (∀ k l, h st !! k = Some l → NoDup l ∧ ∀ e, e ∈ l → calc_hash (hash_mask st) (dst e) = Z.of_nat k) as Hall.
  { intros k l Hl. assert (zget (h st) (Z.of_nat k) = Some l) as Hz by (apply zget_Some; rewrite Nat2Z.id; split; [lia | done]).
    split; [by eapply NoDup_fmap_1, (wf_nodup _ Hwf) | intros; by eapply (wf_bucket _ Hwf)]. }
  clear Hwf. set (hh := h st) in *. clearbody hh.
  assert (∀ off : nat, (∀ k l, hh !! k = Some l → NoDup l ∧ ∀ e, e ∈ l → calc_hash (hash_mask st) (dst e) = Z.of_nat (off + k)) → NoDup (mjoin hh)) as Hgen.
  { clear Hall. induction hh as [|l hh IH]; intros off Hall; simpl; [constructor|].
    apply NoDup_app. split_and!.
    - by apply (Hall 0%nat l).
    - intros e He (l' & He' & [k Hk]%list_elem_of_lookup_1)%list_elem_of_join.
      pose proof (proj2 (Hall 0%nat l eq_refl) e He). pose proof (proj2 (Hall (S k) l' Hk) e He'). lia.
    - apply (IH (S off)). intros k l' Hk. destruct (Hall (S k) l' Hk) as [? H2]. split; [done|].
      intros e He. rewrite H2 by done. lia. }
  by apply (Hgen 0%nat).
Qed.

Lemma hash_map_lookup key v :
  hash_map st !! key = Some v ↔ ∃ e, e ∈ mjoin (h st) ∧ dst e = key ∧ v = (eport e, last_seen e).
Proof.
  unfold hash_map. rewrite <- elem_of_list_to_map, list_elem_of_fmap.
  - unfold entry_kv. split.
    + intros (e & [= -> ->] & He). eauto.
    + intros (e & He & <- & ->). eauto.
  - rewrite <- list_fmap_compose. apply table_nodup.
Qed.

Lemma find_entry_lookup key :
  ∃ oe, find_entry st key = Some oe ∧
    hash_map st !! key = (λ e, (eport e, last_seen e)) <$> oe ∧ (∀ e, oe = Some e → dst e = key).
Proof.
  unfold find_entry. destruct (wf_bucket_total key) as [l Hl]. rewrite Hl. simpl.
  eexists; split; [done|]. destruct (chain_find key l) as [e|] eqn:E; simpl.
  - apply chain_find_Some in E as [He Hd]. split; [|by intros ? [= <-]].
    apply hash_map_lookup. exists e. split_and!; [|done..]. apply elem_of_table. rewrite Hd. eauto.
  - split; [|done]. apply eq_None_not_Some. intros [v (e & (l' & Hl' & He)%elem_of_table & Hd & ->)%hash_map_lookup].
    rewrite Hd, Hl in Hl'. injection Hl' as <-.
    rewrite chain_find_None in E. by destruct (E e He).
Qed.

(** Replacing one chain. *)
Lemma set_bucket k l l' :
  zget (h st) k = Some l →
  (∀ e, e ∈ l' → calc_hash (hash_mask st) (dst e) = k) → NoDup (dst <$> l') →
  ∃ h', zset (h st) k l' = Some h' ∧ hash_wf (set_h st h') ∧
    ∀ e, e ∈ mjoin h' ↔ e ∈ l' ∨ (e ∈ mjoin (h st) ∧ calc_hash (hash_mask st) (dst e) ≠ k).
Proof.
  intros Hl Hk Hnd. pose proof (zget_lt _ _ _ Hl) as Hlt.
  pose proof (zset_is_Some _ k l' Hlt) as Hs. eexists; split; [exact Hs|].
  assert (hash_wf (set_h st (<[Z.to_nat k:=l']> (h st)))) as Hwf'.
  { split; simpl; try apply Hwf.
    - rewrite length_insert. apply Hwf.
    - intros k' l0 e. rewrite (zget_zset _ _ _ _ _ Hs). case_decide; [intros [= <-]; subst; apply Hk | apply Hwf].
    - intros k' l0. rewrite (zget_zset _ _ _ _ _ Hs). case_decide; [by intros [= <-] | apply Hwf]. }
  split; [done|]. intros e. destruct Hwf as [_ _ _ Hb _]. 
  rewrite list_elem_of_join. split.
  - intros (l0 & He & [i Hi]%list_elem_of_lookup_1).
    assert (zget (<[Z.to_nat k:=l']> (h st)) (Z.of_nat i) = Some l0) as Hz
      by (apply zget_Some; rewrite Nat2Z.id; split; [lia | done]).
    rewrite (zget_zset _ _ _ _ _ Hs) in Hz. case_decide; [left; congruence|].
    right. rewrite (Hb _ _ _ Hz He). split; [|congruence]. apply list_elem_of_join. exists l0.
    split; [done|]. apply zget_Some in Hz as [_ Hz]. by eapply list_elem_of_lookup_2.
  - intros [He | [He Hne]].
    + exists l'. split; [done|]. apply list_elem_of_insert. lia.
    + apply list_elem_of_join in He as (l0 & He & [i Hi]%list_elem_of_lookup_1).
      exists l0. split; [done|]. assert (zget (h st) (Z.of_nat i) = Some l0) as Hz
        by (apply zget_Some; rewrite Nat2Z.id; split; [lia | done]).
      rewrite (Hb _ _ _ Hz He) in Hne. apply (list_elem_of_lookup_2 _ i).
      rewrite list_lookup_insert_ne by lia. done.
Qed.

End wf.

Lemma hash_map_eq st (m : gmap Z (Z * Z)) :
  hash_wf st →
  (∀ k v, m !! k = Some v ↔ ∃ e, e ∈ mjoin (h st) ∧ dst e = k ∧ v = (eport e, last_seen e)) →
  hash_map st = m.
Proof.
  intros Hwf Hm. apply map_eq. intros k. apply option_eq. intros v.
  by rewrite hash_map_lookup, Hm.
Qed.

Lemma refresh_dst mp now port e : dst (refresh mp now port e) = dst e.
Proof. unfold refresh. by repeat case_match. Qed.

(** What learning does to the (port, last_seen) pair of a known address. *)
Definition refresh_pair (mp now port : Z) (v : Z * Z) : Z * Z :=
  if v.1 =? port then (v.1, now) else if mp <? now - v.2 then (port, now) else v.

Lemma refresh_pair_spec mp now port e :
  (eport (refresh mp now port e), last_seen (refresh mp now port e)) =
  refresh_pair mp now port (eport e, last_seen e).
Proof. unfold refresh, refresh_pair. simpl. by repeat case_match. Qed.

(** Rewriting the chain of [key] so that only the entry of [key] changes. *)
Lemma set_chain_insert st key l l' e' :
  hash_wf st → zget (h st) (calc_hash (hash_mask st) key) = Some l → dst e' = key →
  NoDup (dst <$> l') → (∀ e, e ∈ l' ↔ (e ∈ l ∧ dst e ≠ key) ∨ e = e') →
  ∃ h', zset (h st) (calc_hash (hash_mask st) key) l' = Some h' ∧ hash_wf (set_h st h') ∧
    hash_map (set_h st h') = <[key := (eport e', last_seen e')]> (hash_map st).
Proof.
  intros Hwf Hl Hd Hnd Hl'. destruct (set_bucket st Hwf _ _ l' Hl) as (h' & Hh' & Hwf' & Hel); [|done|].
  { intros e [[He _] | ->]%Hl'; [by eapply (wf_bucket _ Hwf) | congruence]. }
  exists h'. split_and!; [done..|]. apply hash_map_eq; [done|]. intros k v. simpl. rewrite lookup_insert.
  case_decide as E.
  - subst k. split.
    + intros [= <-]. exists e'. split; [apply Hel; left; apply Hl'; by right | done].
    + intros (e & He & Hde & ->). apply Hel in He as [[[_ ?] | ->]%Hl' | [_ ?]]; congruence.
  - rewrite hash_map_lookup by done. split; intros (e & He & Hde & ->); exists e; (split_and!; [|done..]).
    + apply Hel. destruct (decide (calc_hash (hash_mask st) (dst e) = calc_hash (hash_mask st) key)) as [Ek|]; [|by right].
      left. apply Hl'. left. split; [|congruence]. apply elem_of_table in He as (l0 & Hl0 & He); [|done].
      rewrite Ek, Hl in Hl0. congruence.
    + apply Hel in He as [[[He _] | ->]%Hl' | [He _]]; [|congruence|done].
      apply elem_of_table; [done|]. rewrite (wf_bucket _ Hwf _ _ _ Hl He). eauto.
Qed.

Lemma find_in_hash_update_spec st src vlan port now malloc_ok :
  hash_wf st → let key := extmac src vlan in
  ∃ st' rv, find_in_hash_update st src vlan port now malloc_ok = Some (st', rv) ∧ hash_wf st' ∧
    min_persistence st' = min_persistence st ∧ gc_expire st' = gc_expire st ∧
    match hash_map st !! key with
    | None => if malloc_ok then rv = port ∧ hash_map st' = <[key := (port, now)]> (hash_map st)
              else rv = -1 ∧ st' = st
    | Some v => rv = v.1 ∧
        hash_map st' = <[key := refresh_pair (min_persistence st) now port v]> (hash_map st)
    end.
Proof.
  intros Hwf key. unfold find_in_hash_update. fold key. clearbody key.
  destruct (wf_bucket_total st Hwf key) as [l Hl]. rewrite Hl. simpl.
  pose proof (wf_nodup _ Hwf _ _ Hl) as Hnd.
  destruct (find_entry_lookup st Hwf key) as (oe & Hf & Hm & _). unfold find_entry in Hf. rewrite Hl in Hf.
  simpl in Hf. injection Hf as Hf. rewrite Hm, Hf. destruct oe as [e|]; simpl.
  - apply chain_find_Some in Hf as [He Hd].
    destruct (set_chain_insert st key l (chain_update key (refresh (min_persistence st) now port) l)
      (refresh (min_persistence st) now port e)) as (h' & -> & Hwf' & Hmap); [done..| | | |].
    + by rewrite refresh_dst.
    + rewrite chain_update_dst; [done | apply refresh_dst].
    + intros e1. rewrite elem_of_chain_update; [|done|apply refresh_dst].
      split; (intros [?|H]; [by left|right]); [|by exists e].
      destruct H as (e0 & He0 & Hd0 & ->). f_equal.
      pose proof (chain_find_elem _ _ _ Hnd He0 Hd0). pose proof (chain_find_elem _ _ _ Hnd He Hd). congruence.
    + eexists _, _. split_and!; [done..|]. by rewrite Hmap, refresh_pair_spec.
  - rewrite chain_find_None in Hf. destruct malloc_ok; [|eexists _, _; by split_and!].
    destruct (set_chain_insert st key l (refresh (min_persistence st) now port (HashEntry 0 port key) :: l)
      (refresh (min_persistence st) now port (HashEntry 0 port key))) as (h' & -> & Hwf' & Hmap); [done..| | | |].
    + by rewrite refresh_dst.
    + csimpl. rewrite refresh_dst, NoDup_cons. split; [|done].
      intros (e & Hk & He)%list_elem_of_fmap. by destruct (Hf e He).
    + intros e1. rewrite elem_of_cons. set_solver.
    + eexists _, _. split_and!; [done..|]. rewrite Hmap, refresh_pair_spec. unfold refresh_pair. simpl.
      by rewrite Z.eqb_refl.
Qed.

Lemma for_all_hash_spec st del :
  hash_wf st →
  ∃ st', for_all_hash st del = Some st' ∧ hash_wf st' ∧
    min_persistence st' = min_persistence st ∧ gc_expire st' = gc_expire st ∧ hash_bits st' = hash_bits st ∧
    hash_map st' = filter (λ kv, del (HashEntry kv.2.2 kv.2.1 kv.1) = false) (hash_map st).
Proof.
  intros Hwf. unfold for_all_hash. rewrite <- (wf_size _ Hwf), zmap_loop_spec. simpl.
  eexists; split; [done|].
  assert (∀ k l', zget (chain_iter del <$> h st) k = Some l' →
    ∃ l, zget (h st) k = Some l ∧ l' = filter (λ e, del e = false) l) as Hget.
  { intros k l'. rewrite !zget_Some, list_lookup_fmap. intros [Hk Hl].
    destruct (h st !! Z.to_nat k) as [l|] eqn:E; [|done]. injection Hl as <-.
    exists l. rewrite zget_Some, chain_iter_filter. done. }
  assert (hash_wf (set_h st (chain_iter del <$> h st))) as Hwf'.
  { split; simpl; try apply Hwf.
    - rewrite length_fmap. apply Hwf.
    - intros k l' e (l & Hl & ->)%Hget [_ He]%list_elem_of_filter. by eapply (wf_bucket _ Hwf).
    - intros k l' (l & Hl & ->)%Hget. eapply sublist_NoDup; [apply (wf_nodup _ Hwf _ _ Hl)|].
      apply fmap_sublist, sublist_filter. }
  split_and!; [done..|]. apply hash_map_eq; [done|]. intros k v. simpl.
  assert (∀ e, e ∈ mjoin (chain_iter del <$> h st) ↔ e ∈ mjoin (h st) ∧ del e = false) as Hel.
  { intros e. rewrite !list_elem_of_join. split.
    - intros (l' & He & (l & -> & Hl)%list_elem_of_fmap). rewrite chain_iter_filter, list_elem_of_filter in He.
      destruct He. eauto.
    - intros ((l & He & Hl) & Hd). exists (chain_iter del l). rewrite chain_iter_filter, list_elem_of_filter.
      split; [done|]. rewrite <- chain_iter_filter. by apply list_elem_of_fmap_2. }
  rewrite map_lookup_filter_Some, hash_map_lookup by done. split.
  - intros [(e & He & <- & ->) Hd]. exists e. rewrite Hel. simpl in Hd. destruct e. done.
  - intros (e & [He Hd]%Hel & <- & ->). split; [eauto|]. by destruct e.
Qed.

(** ** The table refines a finite map *)

(** C28: Lookup and learning: on a well-formed table, [find_in_hash] returns the
    port the map associates with the extended address (or -1), and
    [find_in_hash_update] inserts an unknown address with the current time,
    refreshes a known one, and moves it to another port only after it was
    silent for more than [min_persistence]; when the entry cannot be allocated
    the table is unchanged and -1 is returned. *)
Theorem hash_learning_refines_map (st : hash_state) (mac : list Z) (vlan port now : Z) (ok : bool)
    (Hwf : hash_wf st) :
  find_in_hash st mac vlan = Some (match hash_map st !! extmac mac vlan with Some v => v.1 | None => -1 end) ∧
  ∃ st' rv, find_in_hash_update st mac vlan port now ok = Some (st', rv) ∧ hash_wf st' ∧
    match hash_map st !! extmac mac vlan with
    | None => if ok then rv = port ∧ hash_map st' = <[extmac mac vlan := (port, now)]> (hash_map st)
              else rv = -1 ∧ st' = st
    | Some (p, t) => rv = p ∧ hash_map st' =
        <[extmac mac vlan := if p =? port then (p, now)
                             else if min_persistence st <? now - t then (port, now) else (p, t)]> (hash_map st)
    end.
Proof.
  split.
  - unfold find_in_hash. destruct (find_entry_lookup st Hwf (extmac mac vlan)) as (oe & -> & -> & _).
    by destruct oe.
  - destruct (find_in_hash_update_spec st mac vlan port now ok Hwf) as (st' & rv & Hu & Hwf' & _ & _ & H).
    exists st', rv. split_and!; [done..|]. by destruct (hash_map st !! extmac mac vlan) as [[p t]|].
Qed.

Lemma hash_wf_init bits st : 0 ≤ bits ≤ 30 → hash_wf (HASH_INIT st bits).
Proof.
  intros Hb. pose proof (HASH_SIZE_bound bits Hb). unfold HASH_INIT. split; simpl; [done | done | | |].
  - rewrite length_replicate. lia.
  - intros k l e [_ [-> _]%lookup_replicate]%zget_Some He. by apply elem_of_nil in He.
  - intros k l [_ [-> _]%lookup_replicate]%zget_Some. constructor.
Qed.

Lemma hash_map_HASH_INIT st bits : hash_map (HASH_INIT st bits) = ∅.
Proof.
  unfold hash_map, HASH_INIT. simpl. replace (mjoin (replicate _ _)) with (@nil hash_entry); [done|].
  induction (Z.to_nat (HASH_SIZE bits)) as [|n IH]; [done|]. simpl. done.
Qed.

Lemma hash_learning_refines_map_witness :
  find_in_hash (HASH_INIT (HashState 0 0 [] 3 2 100 0) 7) [2; 0; 0; 0; 0; 9] 5 = Some (-1).
Proof.
  refine (proj1 (hash_learning_refines_map (HASH_INIT (HashState 0 0 [] 3 2 100 0) 7) [2; 0; 0; 0; 0; 9] 5 3 10 true _)).
  apply hash_wf_init. lia.
Defined.

(** Every deletion routine removes exactly the addresses it names: of a
    port, of a VLAN, of a port in a VLAN, expired ones ([hash_gc]), or all of
    them; everything else is kept. *)
Theorem hash_deletion_refines_map (st : hash_state) (vlan port now : Z) (Hwf : hash_wf st) :
  (∃ st', hash_delete_port st port = Some st' ∧ hash_wf st' ∧
     hash_map st' = filter (λ kv, kv.2.1 ≠ port) (hash_map st)) ∧
  (∃ st', hash_delete_vlan st vlan = Some st' ∧ hash_wf st' ∧
     hash_map st' = filter (λ kv, EMAC2VLAN kv.1 ≠ u16 vlan) (hash_map st)) ∧
  (∃ st', hash_delete_vlanport st vlan port = Some st' ∧ hash_wf st' ∧
     hash_map st' = filter (λ kv, ¬ (EMAC2VLAN kv.1 = u16 vlan ∧ kv.2.1 = port)) (hash_map st)) ∧
  (∃ st', hash_gc st now = Some st' ∧ hash_wf st' ∧
     hash_map st' = filter (λ kv, now ≤ kv.2.2 + gc_expire st) (hash_map st)) ∧
  (∃ st', hash_flush st = Some st' ∧ hash_wf st' ∧ hash_map st' = ∅).
Proof.
  split_and!; [destruct (for_all_hash_spec st (delete_port_iterator port) Hwf) as (st' & ? & ? & _ & _ & _ & Hm)
    |destruct (for_all_hash_spec st (delete_vlan_iterator vlan) Hwf) as (st' & ? & ? & _ & _ & _ & Hm)
    |destruct (for_all_hash_spec st (delete_vlanport_iterator vlan port) Hwf) as (st' & ? & ? & _ & _ & _ & Hm)
    |destruct (for_all_hash_spec st (gc (gc_expire st) now) Hwf) as (st' & ? & ? & _ & _ & _ & Hm)
    |destruct (for_all_hash_spec st flush_iterator Hwf) as (st' & ? & ? & _ & _ & _ & Hm)];
    exists st'; (split_and!; [done..|]); rewrite Hm.
  1-4: apply map_filter_ext; intros k [p t] _; cbn [fst snd];
    unfold delete_port_iterator, delete_vlan_iterator, delete_vlanport_iterator, gc; cbn [dst eport last_seen].
  - by rewrite Z.eqb_neq.
  - by rewrite Z.eqb_neq.
  - by rewrite andb_false_iff, !Z.eqb_neq, not_and_l.
  - by rewrite Z.ltb_ge.
  - apply map_empty. intros k. by rewrite map_lookup_filter_None; right.
Qed.

Lemma hash_deletion_refines_map_witness :
  ∃ st', hash_flush (HASH_INIT (HashState 0 0 [] 3 2 100 0) 7) = Some st' ∧ hash_wf st' ∧ hash_map st' = ∅.
Proof.
  apply (hash_deletion_refines_map (HASH_INIT (HashState 0 0 [] 3 2 100 0) 7) 1 2 3).
  apply hash_wf_init. lia.
Defined.

(** ** Sizing *)

Lemma po2round_loop_spec fuel x i :
  0 ≤ x < 2 ^ Z.of_nat fuel →
  ∃ j, po2round_loop fuel x i = Some (i + j) ∧ 0 ≤ j ≤ Z.of_nat fuel ∧ x < 2 ^ j ∧ (0 < j → 2 ^ (j - 1) ≤ x).
Proof.
  revert x i. induction fuel as [|f IH]; intros x i Hx; simpl; destruct (Z.eqb_spec x 0) as [->|Hne].
  - exists 0. rewrite Z.add_0_r. split_and!; (done || lia).
  - simpl in Hx. lia.
  - exists 0. rewrite Z.add_0_r. split_and!; (done || lia).
  - rewrite Nat2Z.inj_succ, Z.pow_succ_r in Hx by lia.
    destruct (IH (Z.shiftr x 1) (i + 1)) as (j & Hj & Hr & Hlt & Hge);
      rewrite Z.shiftr_div_pow2 in * by lia; change (2 ^ 1) with 2 in *; [dlia|].
    exists (j + 1). rewrite Hj. split_and!; [f_equal; lia | lia | lia | |].
    + rewrite Z.pow_add_r by lia. change (2 ^ 1) with 2. dlia.
    + intros _. replace (j + 1 - 1) with j by lia. destruct (decide (j = 0)) as [->|]; [simpl; lia|].
      replace j with (j - 1 + 1) at 1 by lia. rewrite Z.pow_add_r by lia. change (2 ^ 1) with 2.
      specialize (Hge ltac:(lia)). dlia.
Qed.

Lemma po2round_spec vx :
  0 < vx ≤ 2 ^ 30 →
  ∃ b, po2round 32 vx = Some b ∧ 0 ≤ b ≤ 30 ∧ vx ≤ 2 ^ b ∧ (1 < vx → 2 ^ (b - 1) < vx).
Proof.
  intros Hv. unfold po2round. destruct (Z.eqb_spec vx 0); [lia|].
  destruct (po2round_loop_spec 32 (vx - 1) 0) as (j & Hj & Hr & Hlt & Hge); [lia|].
  exists j. rewrite Hj. split_and!; [done | lia | | lia |].
  - destruct (Z.le_gt_cases j 30); [done|]. specialize (Hge ltac:(lia)).
    assert (2 ^ 30 ≤ 2 ^ (j - 1)) by (apply Z.pow_le_mono_r; lia). lia.
  - intros. destruct (decide (j = 0)) as [->|]; [simpl in Hlt; lia|]. specialize (Hge ltac:(lia)). lia.
Qed.

(** Resizing to any size from 1 to 2^30 terminates, empties the table, and
    gives the smallest power-of-two size that is at least the request; a size
    that is not positive is refused with EINVAL and changes nothing. *)
Theorem hash_resize_rounds_up (st : hash_state) (size : Z) (Hwf : hash_wf st) (Hsize : size ≤ 2 ^ 30) :
  (size ≤ 0 → hash_resize st size true = Done EINVAL st) ∧
  (0 < size → ∃ st', hash_resize st size true = Done 0 st' ∧ hash_wf st' ∧ hash_map st' = ∅ ∧
     size ≤ Z.of_nat (length (h st')) ∧ (1 < size → Z.of_nat (length (h st')) < 2 * size) ∧
     min_persistence st' = min_persistence st ∧ gc_expire st' = gc_expire st).
Proof.
  unfold hash_resize. split; intros Hs; [by destruct (Z.ltb_spec 0 size); [lia|]|].
  destruct (Z.ltb_spec 0 size); [|lia].
  destruct (for_all_hash_spec st flush_iterator Hwf) as (st1 & Hf & _ & Hmp & Hgc & _).
  unfold hash_flush. rewrite Hf. destruct (po2round_spec size) as (b & -> & Hb & Hge & Hlt); [lia|].
  eexists; split; [done|].
  split_and!; [by apply hash_wf_init | apply hash_map_HASH_INIT | | | done | done];
    rewrite (wf_size _ (hash_wf_init b st1 Hb)); simpl; rewrite HASH_SIZE_pow by lia; [done|].
  intros H1. specialize (Hlt H1). replace b with (b - 1 + 1) by lia.
  destruct (decide (b = 0)) as [->|]; [simpl in Hge; lia|].
  rewrite Z.pow_add_r by lia. change (2 ^ 1) with 2. lia.
Qed.

Lemma hash_resize_rounds_up_witness :
  ∃ st', hash_resize (HASH_INIT (HashState 0 0 [] 3 2 100 0) 7) 100 true = Done 0 st' ∧ hash_wf st' ∧
    hash_map st' = ∅ ∧ 100 ≤ Z.of_nat (length (h st')) ∧ (1 < 100 → Z.of_nat (length (h st')) < 2 * 100) ∧
    min_persistence st' = 3 ∧ gc_expire st' = 100.
Proof.
  refine (proj2 (hash_resize_rounds_up (HASH_INIT (HashState 0 0 [] 3 2 100 0) 7) 100 _ _) _); [|lia..].
  apply hash_wf_init. lia.
Defined.

Lemma po2round_loop_neg fuel x i : x < 0 → po2round_loop fuel x i = None.
Proof.
  revert x i. induction fuel as [|f IH]; intros x i Hx; simpl; (destruct (Z.eqb_spec x 0); [lia|]); [done|].
  apply IH. rewrite Z.shiftr_div_pow2 by lia. change (2 ^ 1) with 2. dlia.
Qed.

(** [po2round] never terminates on a negative size: no amount of fuel ends
    its loop, because an arithmetic right shift of a negative number never
    reaches zero.  [hash_init] passes the command-line size to it unchecked. *)
Theorem po2round_negative_diverges (fuel : nat) (vx : Z) (Hv : vx < 0) : po2round fuel vx = None.
Proof. unfold po2round. destruct (Z.eqb_spec vx 0); [lia|]. apply po2round_loop_neg. lia. Qed.

Lemma po2round_negative_diverges_witness : po2round 1000 (-5) = None.
Proof. apply (po2round_negative_diverges 1000 (-5)). lia. Defined.

(** ** The interface the forwarding code uses

    What [port.c] and [fstp.c] rely on, stated on the map from extended
    addresses to ports. *)

Class MacTable (T : Type) := {
  mt_wf : T → Prop;
  mt_ports : T → Z → option Z;
  mt_find : T → list Z → Z → option Z;
  mt_learn : T → list Z → Z → Z → Z → bool → option (T * Z);
  mt_delete_port : T → Z → option T;
  mt_delete_vlan : T → Z → option T;
  mt_find_ok : ∀ t mac vlan, mt_wf t →
    mt_find t mac vlan = Some (default (-1) (mt_ports t (extmac mac vlan)));
  mt_learn_ok : ∀ t mac vlan port now ok, mt_wf t → ∃ t' rv, mt_learn t mac vlan port now ok = Some (t', rv) ∧
    mt_wf t' ∧ (rv = default (if ok then port else -1) (mt_ports t (extmac mac vlan))) ∧
    (∀ key, key ≠ extmac mac vlan → mt_ports t' key = mt_ports t key) ∧
    (mt_ports t' (extmac mac vlan) = mt_ports t (extmac mac vlan) ∨
     mt_ports t' (extmac mac vlan) = Some port) ∧
    (ok = true → mt_ports t (extmac mac vlan) = None → mt_ports t' (extmac mac vlan) = Some port);
  mt_delete_port_ok : ∀ t port, mt_wf t → ∃ t', mt_delete_port t port = Some t' ∧ mt_wf t' ∧
    ∀ key p, mt_ports t' key = Some p ↔ mt_ports t key = Some p ∧ p ≠ port;
  mt_delete_vlan_ok : ∀ t vlan, mt_wf t → ∃ t', mt_delete_vlan t vlan = Some t' ∧ mt_wf t' ∧
    ∀ key p, mt_ports t' key = Some p ↔ mt_ports t key = Some p ∧ EMAC2VLAN key ≠ u16 vlan
}.

Definition hash_ports (st : hash_state) (key : Z) : option Z := fst <$> hash_map st !! key.

#[export, refine] Instance hash_mac_table : MacTable hash_state := {|
  mt_wf := hash_wf;
  mt_ports := hash_ports;
  mt_find := find_in_hash;
  mt_learn := find_in_hash_update;
  mt_delete_port := hash_delete_port;
  mt_delete_vlan := hash_delete_vlan
|}.
Proof.
  - intros t mac vlan Hwf. unfold find_in_hash, hash_ports.
    destruct (find_entry_lookup t Hwf (extmac mac vlan)) as (oe & -> & -> & _). by destruct oe.
  - intros t mac vlan port now ok Hwf.
    destruct (find_in_hash_update_spec t mac vlan port now ok Hwf) as (t' & rv & -> & Hwf' & _ & _ & H).
    exists t', rv. unfold hash_ports.
    destruct (hash_map t !! extmac mac vlan) as [v|] eqn:E; [|destruct ok];
      destruct H as [-> Hm]; subst; split_and!; try done; try (rewrite Hm).
    + intros key Hk. by rewrite lookup_insert_ne.
    + rewrite lookup_insert_eq, ?E. simpl. unfold refresh_pair. repeat case_match; simpl; auto.
    + intros key Hk. by rewrite lookup_insert_ne.
    + rewrite lookup_insert_eq. by right.
    + by rewrite lookup_insert_eq.
    + left. by rewrite ?E.
  - intros t port Hwf. destruct (for_all_hash_spec t (delete_port_iterator port) Hwf)
      as (t' & Hd & Hwf' & _ & _ & _ & Hm). exists t'. split_and!; [done..|]. intros key p.
    unfold hash_ports. rewrite Hm, !fmap_Some. setoid_rewrite map_lookup_filter_Some.
    unfold delete_port_iterator. cbn [fst snd eport]. setoid_rewrite Z.eqb_neq. naive_solver.
  - intros t vlan Hwf. destruct (for_all_hash_spec t (delete_vlan_iterator vlan) Hwf)
      as (t' & Hd & Hwf' & _ & _ & _ & Hm). exists t'. split_and!; [done..|]. intros key p.
    unfold hash_ports. rewrite Hm, !fmap_Some. setoid_rewrite map_lookup_filter_Some.
    unfold delete_vlan_iterator. cbn [fst snd dst]. setoid_rewrite Z.eqb_neq. naive_solver.
Defined.
