(* ===== verification/Qtimer.v ===== *)
(** * Qtimer: the timers driven by SIGALRM, [vde_switch/qtimer.c]

    The state holds the active timers in array order, the number of nodes on
    the free list, the capacity of the array, the clock and the signal mask.
    [sig_alarm] returns the callbacks it runs, in order: the callbacks of the
    switch read the clock but never touch the timers, so running them after the
    scan is the same as running them inside it.  The theorems give the firing
    schedule of a timer and the effect of [qtimer_del]. *)
From Stdlib Require Import Lia.
From stdpp Require Import base numbers list gmap.
From S2P Require Import Prelude.

Section qtimer.
Context {C : Type}.

(** ** Data *)

Record qt_timer := QtTimer {
  qt_n : Z;
  qt_period : Z;
  qt_nextcall : Z;
  qt_times : Z;
  qt_call : C
}.

Record qt_state := QtState {
  qth : list qt_timer;
  qth_null : bool;
  qtf : nat;
  maxqt : Z;
  gqtime : Z;
  countqt : Z;
  alarm_blocked : bool;
  ss_old : bool
}.

Definition QT_ALLOC_STEP : Z := 4.

Definition qtime (q : qt_state) : Z := gqtime q.

Definition qtime_csenter (q : qt_state) : qt_state :=
  QtState (qth q) (qth_null q) (qtf q) (maxqt q) (gqtime q) (countqt q) true (alarm_blocked q).

Definition qtime_csexit (q : qt_state) : qt_state :=
  QtState (qth q) (qth_null q) (qtf q) (maxqt q) (gqtime q) (countqt q) (ss_old q) (ss_old q).

Definition activeqt (q : qt_state) : Z := Z.of_nat (length (qth q)).

(** ** Operations *)

(** [call = None] is a NULL function pointer.  A failing [realloc] leaves [qth]
    NULL and returns before [qtime_csexit]; a failing [malloc] is not detected
    (the code tests [qth], not [qtf]) and the next store faults. *)
Definition qtimer_add (period times : Z) (call : option C) (realloc_ok malloc_ok : bool)
    : M qt_state Z := λ q,
  match call with
  | Some f =>
    if (0 <? period) && (0 <=? times) then
      let q := qtime_csenter q in
      let grow := maxqt q <=? activeqt q in
      if grow && negb realloc_ok then
        Done (u32 (-1)) (QtState (qth q) true (qtf q) (maxqt q) (gqtime q) (countqt q) (alarm_blocked q) (ss_old q))
      else
        let maxqt' := if grow then maxqt q + QT_ALLOC_STEP else maxqt q in
        if bool_decide (qtf q = O) && negb malloc_ok then Fault else
        let qtf' := pred (qtf q) in
        let t := QtTimer (countqt q) period (gqtime q + period) (u32 (if times =? 0 then -1 else times)) f in
        let q := QtState (qth q ++ [t]) (qth_null q) qtf' maxqt' (gqtime q) (i32 (countqt q + 1))
                   (alarm_blocked q) (ss_old q) in
        Done (u32 (qt_n t)) (qtime_csexit q)
    else Done (u32 (-1)) q
  | None => Done (u32 (-1)) q
  end.

(** The first timer whose number is [n] gets [qt_times = 0]. *)
Fixpoint del_timer (n : Z) (l : list qt_timer) : list qt_timer :=
  match l with
  | [] => []
  | t :: l' =>
    if u32 n =? u32 (qt_n t)
    then QtTimer (qt_n t) (qt_period t) (qt_nextcall t) 0 (qt_call t) :: l'
    else t :: del_timer n l'
  end.

Definition with_qth (q : qt_state) (l : list qt_timer) : qt_state :=
  QtState l (qth_null q) (qtf q) (maxqt q) (gqtime q) (countqt q) (alarm_blocked q) (ss_old q).

Definition qtimer_del (n : Z) : M qt_state () := λ q,
  if qth_null q && (0 <? activeqt q) then Fault
  else Done () (with_qth q (del_timer n (qth q))).

(** One pass of the loop of [sig_alarm]: [kept] is [qth[0..j)], [freed] the
    nodes moved to the free list, [fired] the callbacks run so far. *)
Fixpoint alarm_scan (now : Z) (l kept : list qt_timer) (freed : nat) (fired : list C)
    : list qt_timer * nat * list C :=
  match l with
  | [] => (kept, freed, fired)
  | t :: l' =>
    if qt_times t =? 0 then alarm_scan now l' kept (S freed) fired
    else if qt_nextcall t <=? now then
      let t' := QtTimer (qt_n t) (qt_period t) (qt_nextcall t + qt_period t)
                  (if 0 <? qt_times t then u32 (qt_times t - 1) else qt_times t) (qt_call t) in
      alarm_scan now l' (kept ++ [t']) freed (fired ++ [qt_call t])
    else alarm_scan now l' (kept ++ [t]) freed fired
  end.

(** [sig_alarm] returns the callbacks to run. *)
Definition sig_alarm : M qt_state (list C) := λ q,
  if qth_null q && (0 <? activeqt q) then Fault else
  let now := gqtime q + 1 in
  let '(kept, freed, fired) := alarm_scan now (qth q) [] 0 [] in
  Done fired (QtState kept (qth_null q) (qtf q + freed) (maxqt q) now (countqt q) (alarm_blocked q) (ss_old q)).

Definition qtimer_init : qt_state := QtState [] false 0 0 0 0 false false.

(** ** Specification of one timer *)

(** What one alarm at time [now] does to one timer: whether it fires, and the
    timer afterwards ([None]: moved to the free list). *)
Definition tick (now : Z) (t : qt_timer) : option qt_timer :=
  if qt_times t =? 0 then None
  else if qt_nextcall t <=? now then
    Some (QtTimer (qt_n t) (qt_period t) (qt_nextcall t + qt_period t)
            (if 0 <? qt_times t then u32 (qt_times t - 1) else qt_times t) (qt_call t))
  else Some t.

Definition fires (now : Z) (t : qt_timer) : bool := negb (qt_times t =? 0) && (qt_nextcall t <=? now).

(** The number of times a timer fires in [n] alarms after time [now]. *)
Fixpoint firings (n : nat) (now : Z) (t : qt_timer) : Z :=
  match n with
  | O => 0
  | S n' =>
    (if fires (now + 1) t then 1 else 0) +
    match tick (now + 1) t with Some t' => firings n' (now + 1) t' | None => 0 end
  end.

(** [n] alarms in a row, and all the callbacks they ran. *)
Fixpoint run_alarms (n : nat) (q : qt_state) : option (list C) :=
  match n with
  | O => Some []
  | S n' =>
    match sig_alarm q with
    | Done fired q' => log ← run_alarms n' q'; Some (fired ++ log)
    | _ => None
    end
  end.

Definition zsum {A} (f : A → Z) (l : list A) : Z := foldr (λ x acc, f x + acc) 0 l.

(** ** The scan is the timer step, in order *)

Lemma alarm_scan_spec now l kept freed fired :
  alarm_scan now l kept freed fired =
  (kept ++ omap (tick now) l, (freed + length (filter (λ t, qt_times t = 0%Z) l))%nat,
   fired ++ (qt_call <$> filter (λ t, fires now t = true) l)).
Proof.
  revert kept freed fired. induction l as [|t l IH]; intros kept freed fired; simpl.
  { by rewrite !app_nil_r, Nat.add_0_r. }
  rewrite !filter_cons. destruct (Z.eqb_spec (qt_times t) 0) as [E|E].
  - assert (tick now t = None) as -> by (unfold tick; by rewrite E).
    assert (fires now t = false) as Hf by (unfold fires; by rewrite E).
    repeat case_decide; try congruence. rewrite IH. simpl. f_equal. f_equal. lia.
  - assert (fires now t = (qt_nextcall t <=? now)) as Hf
      by (unfold fires; by rewrite (proj2 (Z.eqb_neq _ _) E)).
    unfold tick at 1. rewrite (proj2 (Z.eqb_neq _ _) E).
    destruct (qt_nextcall t <=? now); rewrite IH, <- !app_assoc; repeat case_decide; congruence || done.
Qed.

Lemma sig_alarm_spec q :
  qth_null q = false →
  sig_alarm q = Done (qt_call <$> filter (λ t, fires (gqtime q + 1) t = true) (qth q))
    (QtState (omap (tick (gqtime q + 1)) (qth q)) false
       (qtf q + length (filter (λ t, qt_times t = 0) (qth q))) (maxqt q) (gqtime q + 1)
       (countqt q) (alarm_blocked q) (ss_old q)).
Proof. intros Hn. unfold sig_alarm. rewrite Hn. simpl. by rewrite alarm_scan_spec. Qed.

(** ** The firing schedule *)

Lemma firings_schedule n : ∀ now t,
  0 < qt_period t → now < qt_nextcall t ≤ now + qt_period t → 0 ≤ qt_times t < 2 ^ 32 →
  firings n now t =
    Z.min (qt_times t) (Z.max 0 ((now + Z.of_nat n - qt_nextcall t) / qt_period t + 1)).
Proof.
  induction n as [|n IH]; intros now t Hp Hc Ht; cbn [firings].
  { rewrite Z.add_0_r. assert ((now - qt_nextcall t) / qt_period t = -1); [|lia].
    symmetry. apply (Z.div_unique _ _ _ (now - qt_nextcall t + qt_period t)); [lia | ring]. }
  unfold fires, tick. destruct (Z.eqb_spec (qt_times t) 0) as [E|E]; simpl.
  { rewrite E. lia. }
  replace (now + Z.of_nat (S n)) with (now + 1 + Z.of_nat n) by lia.
  destruct (Z.leb_spec (qt_nextcall t) (now + 1)) as [Hf|Hf].
  - assert (qt_nextcall t = now + 1) as Hn by lia. rewrite (proj2 (Z.ltb_lt 0 (qt_times t))) by lia.
    assert (u32 (qt_times t - 1) = qt_times t - 1) as Hu by (apply Z.mod_small; lia).
    rewrite IH; simpl; rewrite ?Hu; [|lia..].
    replace (now + 1 + Z.of_nat n - (qt_nextcall t + qt_period t))
      with (now + 1 + Z.of_nat n - qt_nextcall t + (-1) * qt_period t) by ring.
    rewrite Z.div_add by lia.
    assert (0 ≤ (now + 1 + Z.of_nat n - qt_nextcall t) / qt_period t) by (apply Z.div_pos; lia). lia.
  - apply IH; lia.
Qed.

Lemma zsum_app {A} (f : A → Z) l1 l2 : zsum f (l1 ++ l2) = zsum f l1 + zsum f l2.
Proof. induction l1 as [|x l1 IH]; simpl; [done|]. unfold zsum in *. lia. Qed.

Section count.
Context `{!EqDecision C}.

Definition count (c : C) (log : list C) : Z := Z.of_nat (length (filter (λ x, x = c) log)).

(** The firings a timer contributes to the log of callback [c]. *)
Definition timer_share (c : C) (n : nat) (now : Z) (t : qt_timer) : Z :=
  if decide (qt_call t = c) then firings n now t else 0.

Lemma count_app c l1 l2 : count c (l1 ++ l2) = count c l1 + count c l2.
Proof. unfold count. rewrite filter_app, length_app. lia. Qed.

Lemma zsum_omap_cons {A B} (f : B → Z) (g : A → option B) x l :
  zsum f (omap g (x :: l)) = match g x with Some y => f y | None => 0 end + zsum f (omap g l).
Proof. simpl. destruct (g x); done. Qed.

Lemma count_fired_cons c now t l :
  count c (qt_call <$> filter (λ t, fires now t = true) (t :: l)) =
  (if decide (qt_call t = c) then if fires now t then 1 else 0 else 0)
    + count c (qt_call <$> filter (λ t, fires now t = true) l).
Proof.
  rewrite filter_cons. case_decide as Hf; [rewrite Hf|].
  - rewrite fmap_cons. unfold count. rewrite filter_cons. case_decide; simpl; lia.
  - destruct (fires now t); [done|]. case_decide; lia.
Qed.

Lemma alarm_counts c n now l :
  count c (qt_call <$> filter (λ t, fires (now + 1) t = true) l) +
    zsum (timer_share c n (now + 1)) (omap (tick (now + 1)) l) =
  zsum (timer_share c (S n) now) l.
Proof.
  induction l as [|t l IH]; [done|].
  rewrite zsum_omap_cons, count_fired_cons. cbn [zsum foldr]. fold (zsum (timer_share c (S n) now) l).
  rewrite <- IH. unfold timer_share at 3. cbn [firings].
  assert (∀ t', tick (now + 1) t = Some t' → qt_call t' = qt_call t) as Hc.
  { unfold tick. intros t'. repeat case_match; naive_solver. }
  destruct (tick (now + 1) t) as [t'|]; [|case_decide; lia].
  unfold timer_share at 1. rewrite (Hc t') by done. case_decide; lia.
Qed.

Lemma run_alarms_counts n q :
  qth_null q = false →
  ∃ log, run_alarms n q = Some log ∧ ∀ c, count c log = zsum (timer_share c n (gqtime q)) (qth q).
Proof.
  revert q. induction n as [|n IH]; intros q Hq; cbn [run_alarms].
  { exists []. split; [done|]. intros c. unfold count. simpl.
    induction (qth q) as [|t l IHl]; [done|]. simpl. unfold timer_share at 1. case_decide; simpl; done. }
  rewrite sig_alarm_spec by done.
  destruct (IH (QtState (omap (tick (gqtime q + 1)) (qth q)) false
       (qtf q + length (filter (λ t, qt_times t = 0) (qth q))) (maxqt q) (gqtime q + 1)
       (countqt q) (alarm_blocked q) (ss_old q)) eq_refl) as (log & -> & Hlog). simpl.
  eexists; split; [done|]. intros c. rewrite count_app, Hlog. apply alarm_counts.
Qed.

Lemma zsum_share_0 c n now l : c ∉ (qt_call <$> l) → zsum (timer_share c n now) l = 0.
Proof.
  induction l as [|t l IH]; [done|]. rewrite fmap_cons, not_elem_of_cons. intros [Hne Hl].
  simpl. unfold timer_share at 1. rewrite decide_False by done. by rewrite IH.
Qed.

(** The schedule for any repeat count: [times = 0] is stored as [-1], that is
    2^32 - 1, because [qt_times] is unsigned. *)
Lemma qtimer_schedule_count (q : qt_state) (period times : Z) (c : C) (n : nat) :
  qth_null q = false → c ∉ (qt_call <$> qth q) → 0 < period → 0 ≤ times < 2 ^ 31 →
  ∃ rv q' log, qtimer_add period times (Some c) true true q = Done rv q' ∧
    run_alarms n q' = Some log ∧
    count c log = Z.min (if times =? 0 then 2 ^ 32 - 1 else times) (Z.of_nat n / period).
Proof.
  intros Hq Hc Hp Ht.
  unfold qtimer_add. rewrite (proj2 (Z.ltb_lt 0 period)), (proj2 (Z.leb_le 0 times)) by lia.
  rewrite !andb_false_r. cbv zeta. cbn [andb negb].
  match goal with |- ∃ _ _ _, Done ?r ?q0 = _ ∧ _ => set (q1 := q0) end.
  destruct (run_alarms_counts n q1 Hq) as (log & Hlog & Hcount).
  eexists _, q1, log. split_and!; [done..|]. rewrite Hcount.
  unfold q1, qtime_csexit, qtime_csenter. cbn [qth gqtime].
  rewrite zsum_app, zsum_share_0 by done. cbn [zsum foldr]. unfold timer_share. rewrite decide_True by done.
  assert (0 ≤ u32 (if times =? 0 then -1 else times) < 2 ^ 32) by (apply Z.mod_pos_bound; lia).
  rewrite firings_schedule; simpl; [|lia..].
  assert (u32 (if times =? 0 then -1 else times) = if times =? 0 then 2 ^ 32 - 1 else times) as ->.
  { destruct (times =? 0); [done|]. apply Z.mod_small. lia. }
  replace (gqtime q + Z.of_nat n - (gqtime q + period)) with (Z.of_nat n + (-1) * period) by ring.
  rewrite Z.div_add by lia. assert (0 ≤ Z.of_nat n / period) by (apply Z.div_pos; lia). lia.
Qed.

(** C37: Where memory is available, a timer added with a positive period [p] and
    a repeat count of 1 or more, whose callback no other timer runs, fires once
    every [p] alarms and [times] times in all: after [n] alarms its callback has
    run [min times (n / p)] times. (A count of 0, which asks for a timer that
    never ends, is [qtimer_endless_timer_ends].) *)
Theorem qtimer_fires_on_schedule (q : qt_state) (period times : Z) (c : C) (n : nat)
    (Hq : qth_null q = false) (Hc : c ∉ (qt_call <$> qth q)) (Hp : 0 < period) (Ht : 1 ≤ times < 2 ^ 31) :
  ∃ rv q' log, qtimer_add period times (Some c) true true q = Done rv q' ∧
    run_alarms n q' = Some log ∧ count c log = Z.min times (Z.of_nat n / period).
Proof.
  destruct (qtimer_schedule_count q period times c n Hq Hc Hp) as (rv & q' & log & ? & ? & E); [lia|].
  rewrite (proj2 (Z.eqb_neq times 0)) in E by lia. by exists rv, q', log.
Qed.

(** With [times = 0], which stands for a timer that repeats for ever, the
    counter starts at 2^32 - 1 and is still decremented at every firing: the
    timer is gone after 2^32 - 1 of them. *)
Lemma qtimer_endless_timer_ends (q : qt_state) (period : Z) (c : C) (n : nat) :
  qth_null q = false → c ∉ (qt_call <$> qth q) → 0 < period → (2 ^ 32 - 1) * period ≤ Z.of_nat n →
  ∃ rv q' log, qtimer_add period 0 (Some c) true true q = Done rv q' ∧
    run_alarms n q' = Some log ∧ count c log = 2 ^ 32 - 1.
Proof.
  intros Hq Hc Hp Hn.
  destruct (qtimer_schedule_count q period 0 c n Hq Hc Hp) as (rv & q' & log & ? & ? & E); [lia|].
  exists rv, q', log. split_and!; [done..|]. rewrite E. simpl.
  apply Z.min_l. apply Z.div_le_lower_bound; lia.
Qed.

Lemma firings_0 n now t : qt_times t = 0 → firings n now t = 0.
Proof. intros E. destruct n; simpl; [done|]. unfold fires, tick. by rewrite E. Qed.

Lemma del_timer_share c n now l1 t l2 :
  (∀ t', t' ∈ l1 → u32 (qt_n t') ≠ u32 (qt_n t)) →
  zsum (timer_share c n now) (del_timer (qt_n t) (l1 ++ t :: l2)) =
  zsum (timer_share c n now) (l1 ++ l2).
Proof.
  induction l1 as [|t1 l1 IH]; intros Hne; simpl.
  - rewrite Z.eqb_refl. simpl. unfold timer_share at 1. rewrite firings_0 by done. case_decide; lia.
  - destruct (Z.eqb_spec (u32 (qt_n t)) (u32 (qt_n t1))) as [E|_]; [by destruct (Hne t1); [left|]|].
    simpl. rewrite IH; [done|]. intros t' Ht'. apply Hne. by right.
Qed.

(** Deleting a timer stops it at once: in any number of later alarms each
    callback runs exactly as often as if the deleted timer had not been there,
    and the other timers keep their schedule. *)
Theorem qtimer_del_cancels (q : qt_state) (l1 l2 : list qt_timer) (t : qt_timer) (n : nat)
    (Hq : qth_null q = false) (Hl : qth q = l1 ++ t :: l2)
    (Hid : NoDup ((λ t, u32 (qt_n t)) <$> qth q)) :
  ∃ q' log log', qtimer_del (qt_n t) q = Done () q' ∧ run_alarms n q' = Some log ∧
    run_alarms n (with_qth q (l1 ++ l2)) = Some log' ∧ ∀ c, count c log = count c log'.
Proof.
  unfold qtimer_del. rewrite Hq. simpl.
  destruct (run_alarms_counts n (with_qth q (del_timer (qt_n t) (qth q))) Hq) as (log & Hlog & Hc).
  destruct (run_alarms_counts n (with_qth q (l1 ++ l2)) Hq) as (log' & Hlog' & Hc').
  eexists _, log, log'. split_and!; [done..|]. intros c. rewrite Hc, Hc'. simpl. rewrite Hl.
  apply del_timer_share. intros t' Ht' E. rewrite Hl, fmap_app, NoDup_app in Hid.
  destruct Hid as (_ & Hd & _). apply (Hd (u32 (qt_n t'))); [by apply (list_elem_of_fmap_2 (λ t, u32 (qt_n t)))|].
  rewrite fmap_cons, E. left.
Qed.

End count.

End qtimer.
#[global] Arguments qt_timer : clear implicits.
#[global] Arguments qt_state : clear implicits.

Lemma qtimer_fires_on_schedule_witness :
  ∃ rv q' log, qtimer_add 4 2 (Some true) true true qtimer_init = Done rv q' ∧
    run_alarms 100 q' = Some log ∧ count true log = 2.
Proof.
  apply (qtimer_fires_on_schedule qtimer_init 4 2 true 100); [reflexivity | | lia | lia].
  intros H. inversion H.
Defined.

Lemma qtimer_del_cancels_witness :
  let t := QtTimer 0 4 4 2 true in
  let q := QtState [t] false 0 4 0 1 false false in
  ∃ q' log log', qtimer_del (qt_n t) q = Done () q' ∧ run_alarms 10 q' = Some log ∧
    run_alarms 10 (with_qth q ([] ++ [])) = Some log' ∧ ∀ c, count c log = count c log'.
Proof.
  intros t q. apply (qtimer_del_cancels q [] [] t 10); [reflexivity | reflexivity |].
  apply NoDup_singleton.
Defined.
