(* ===== verification/Switch.v ===== *)
(** * Switch: the state of the switch and its access functions

    The global variables of [vde_switch/port.c], [fstp.c], [hash.c] and
    [qtimer.c] that the forwarding code shares, as one record; the
    environment outside the sources (send results, allocation outcomes, the
    passwd and group databases) as a record of parameters; and the accesses to
    the static arrays, with NULL dereferences and out-of-range indices as
    [Fault].  The MAC table is any implementation of [MacTable]. *)
From Stdlib Require Import Lia.
From stdpp Require Import base numbers list gmap strings.
From S2P Require Import Prelude BitArray Hash Qtimer.

(** ** Constants of [switch.h], [port.h], [fstp.h] and the C library *)

Definition NUMOFVLAN : Z := 4095.
Definition NOVLAN : Z := 0xfff.
Definition ETH_ALEN : nat := 6.
Definition DEFAULT_COST : Z := 20000000.
Definition HUB_TAG : Z := 1.
Definition FSTP_TAG : Z := 1.
Definition NOTINPOOL : Z := 0x8000.
Definition P_GETFLAG : Z := 0.
Definition P_SETFLAG : Z := 1.
Definition P_ADDFLAG : Z := 2.
Definition P_CLRFLAG : Z := 3.
Definition DISCARDING : Z := 0.
Definition LEARNING : Z := 1.
Definition FORWARDING : Z := 3.
Definition EPERM : Z := 1.
Definition ENOENT : Z := 2.
Definition ENXIO : Z := 6.
Definition EWOULDBLOCK : Z := 11.
Definition ENOMEM : Z := 12.
Definition EEXIST : Z := 17.
Definition ENOSPC : Z := 28.
Definition EADDRINUSE : Z := 98.

(** [(uid_t) -1] *)
Definition UNONE : Z := 2 ^ 32 - 1.

(** ** The environment *)

Record passwd := Passwd { pw_uid : Z; pw_gid : Z; pw_name : string }.
Record group := Group { gr_gid : Z; gr_name : string; gr_mem : list string }.

(** [sender n ctl data packet port]: the result of the [n]-th call of a
    module's [sender].  [malloc_ok n]: the outcome of the [n]-th small
    allocation; [calloc_ok n]: of the [n]-th allocation or reallocation of a
    table.  [VDE_PQ2] and [PORTCOUNTERS] are the build options. *)
Record env := Env {
  VDE_PQ2 : bool;
  PORTCOUNTERS : bool;
  sender : nat → Z → Z → list Z → Z → Z;
  malloc_ok : nat → bool;
  calloc_ok : nat → bool;
  passwd_db : list passwd;
  group_db : list group
}.

Definition getpwuid (E : env) (uid : Z) : option passwd :=
  snd <$> list_find (λ p, pw_uid p = uid) (passwd_db E).
Definition getpwnam (E : env) (n : string) : option passwd :=
  snd <$> list_find (λ p, pw_name p = n) (passwd_db E).
Definition getgrgid (E : env) (gid : Z) : option group :=
  snd <$> list_find (λ g, gr_gid g = gid) (group_db E).
Definition getgrnam (E : env) (n : string) : option group :=
  snd <$> list_find (λ g, gr_name g = n) (group_db E).

(** ** Data *)

Record mod_support := ModSupport { modname : string; has_delep : bool }.

Record endpoint := Endpoint {
  ep_port : Z;
  fd_ctl : Z;
  fd_data : Z;
  descr : option string;
  vdepq : list (list Z);
  vdepq_count : Z;
  vdepq_max : Z
}.

Record port := Port {
  p_ep : list endpoint;
  p_flag : Z;
  p_sender : bool;
  p_ms : option mod_support;
  p_vlanuntag : Z;
  p_user : Z;
  p_group : Z;
  p_curuser : Z;
  p_cost : Z;
  p_pktsin : Z;
  p_pktsout : Z;
  p_bytesin : Z;
  p_bytesout : Z
}.

(** The four bitarrays of [vlant[v]]. *)
Inductive vfield := Table | Bctag | Bcuntag | Notlearning.
Record vlanrec := VlanRec {
  v_table : option bitarray;
  v_bctag : option bitarray;
  v_bcuntag : option bitarray;
  v_notlearning : option bitarray
}.

(** The six bitarrays of [struct vlst]; [rcvhist] is an array of two. *)
Inductive ffield := Untag | Tagged | Backup | Edge | Rcvhist0 | Rcvhist1.
Record vlst := Vlst {
  f_root : list Z;
  f_rootcost : list Z;
  f_dessw : list Z;
  f_port : list Z;
  f_rootport : Z;
  f_bonusport : Z;
  f_bonuscost : Z;
  f_tctime : Z;
  f_roottimestamp : Z;
  f_untag : option bitarray;
  f_tagged : option bitarray;
  f_backup : option bitarray;
  f_edge : option bitarray;
  f_rcvhist0 : option bitarray;
  f_rcvhist1 : option bitarray
}.

#[export] Instance vfield_eq_dec : EqDecision vfield.
Proof. solve_decision. Defined.
#[export] Instance ffield_eq_dec : EqDecision ffield.
Proof. solve_decision. Defined.

Definition vget (f : vfield) (r : vlanrec) : option bitarray :=
  match f with
  | Table => v_table r | Bctag => v_bctag r | Bcuntag => v_bcuntag r | Notlearning => v_notlearning r
  end.
Definition vset (f : vfield) (x : option bitarray) (r : vlanrec) : vlanrec :=
  match f with
  | Table => VlanRec x (v_bctag r) (v_bcuntag r) (v_notlearning r)
  | Bctag => VlanRec (v_table r) x (v_bcuntag r) (v_notlearning r)
  | Bcuntag => VlanRec (v_table r) (v_bctag r) x (v_notlearning r)
  | Notlearning => VlanRec (v_table r) (v_bctag r) (v_bcuntag r) x
  end.
Definition vlan_null : vlanrec := VlanRec None None None None.

Definition fget (f : ffield) (r : vlst) : option bitarray :=
  match f with
  | Untag => f_untag r | Tagged => f_tagged r | Backup => f_backup r
  | Edge => f_edge r | Rcvhist0 => f_rcvhist0 r | Rcvhist1 => f_rcvhist1 r
  end.
Definition fset (f : ffield) (x : option bitarray) (r : vlst) : vlst :=
  let 'Vlst ro rc de po rp bp bc tc ts a b c d e g := r in
  match f with
  | Untag => Vlst ro rc de po rp bp bc tc ts x b c d e g
  | Tagged => Vlst ro rc de po rp bp bc tc ts a x c d e g
  | Backup => Vlst ro rc de po rp bp bc tc ts a b x d e g
  | Edge => Vlst ro rc de po rp bp bc tc ts a b c x e g
  | Rcvhist0 => Vlst ro rc de po rp bp bc tc ts a b c d x g
  | Rcvhist1 => Vlst ro rc de po rp bp bc tc ts a b c d e x
  end.

(** [struct fstbpdu] and [struct fsttagbpdu]; the two tag fields are those of
    the latter. *)
Record bpdu := Bpdu {
  b_dest : list Z;
  b_src : list Z;
  b_proto : list Z;
  b_tag_vlan : list Z;
  b_tag_proto : list Z;
  b_llc : list Z;
  b_protocol : list Z;
  b_version : Z;
  b_type : Z;
  b_flags : Z;
  b_root : list Z;
  b_rootcost : list Z;
  b_bridge : list Z;
  b_port : list Z;
  b_age : list Z;
  b_maxage : list Z;
  b_hello : list Z;
  b_fwddelay : list Z;
  b_v1len : Z
}.

Inductive event :=
| EvSend (ctl data : Z) (frame : list Z) (portno : Z)
| EvDelep (ctl data : Z)
| EvPollAdd (data : Z)
| EvPollDel (data : Z)
| EvPrint (line : string)
| EvReply (fd : Z).

Inductive callback := CbHashGc | CbFstHello.

#[export] Instance callback_eq_dec : EqDecision callback.
Proof. solve_decision. Defined.

(** The static variables of [fstp.c]. *)
Record fstate := FState {
  fpflag : Z;
  fnumports : Z;
  rcvhistindex : Z;
  fsttab : gmap Z vlst;
  myid : list Z;
  switchmac : list Z;
  priority : Z;
  helloperiod : Z;
  maxage : Z;
  fst_timerno : Z;
  hellocounter : Z;
  outpacket : bpdu;
  outtagpacket : bpdu
}.

(** The switch: the static variables of [port.c], those of [fstp.c], the MAC
    table, the timers, [errno], the events seen from outside, and the number of
    allocations made so far. *)
Record switch (T : Type) := Switch {
  pflag : Z;
  numports : Z;
  stdqlen : Z;
  portv : list (option port);
  vlant : gmap Z vlanrec;
  validvlan : bitarray;
  fst_st : fstate;
  mact : T;
  qt : qt_state callback;
  errno : Z;
  trace : list event;
  nmalloc : nat;
  ncalloc : nat
}.
Arguments Switch {T}.
Arguments pflag {T}. Arguments numports {T}. Arguments stdqlen {T}. Arguments portv {T}.
Arguments vlant {T}. Arguments validvlan {T}. Arguments fst_st {T}. Arguments mact {T}.
Arguments qt {T}. Arguments errno {T}. Arguments trace {T}. Arguments nmalloc {T}. Arguments ncalloc {T}.

(** ** Assignments to the fields *)

Section setters.
Context {T : Type}.
Implicit Type s : switch T.

Definition set_pflag (x : Z) s := Switch x (numports s) (stdqlen s) (portv s) (vlant s) (validvlan s)
  (fst_st s) (mact s) (qt s) (errno s) (trace s) (nmalloc s) (ncalloc s).
Definition set_numports (x : Z) s := Switch (pflag s) x (stdqlen s) (portv s) (vlant s) (validvlan s)
  (fst_st s) (mact s) (qt s) (errno s) (trace s) (nmalloc s) (ncalloc s).
Definition set_stdqlen (x : Z) s := Switch (pflag s) (numports s) x (portv s) (vlant s) (validvlan s)
  (fst_st s) (mact s) (qt s) (errno s) (trace s) (nmalloc s) (ncalloc s).
Definition set_portv (x : list (option port)) s := Switch (pflag s) (numports s) (stdqlen s) x (vlant s)
  (validvlan s) (fst_st s) (mact s) (qt s) (errno s) (trace s) (nmalloc s) (ncalloc s).
Definition set_vlant (x : gmap Z vlanrec) s := Switch (pflag s) (numports s) (stdqlen s) (portv s) x
  (validvlan s) (fst_st s) (mact s) (qt s) (errno s) (trace s) (nmalloc s) (ncalloc s).
Definition set_validvlan (x : bitarray) s := Switch (pflag s) (numports s) (stdqlen s) (portv s) (vlant s)
  x (fst_st s) (mact s) (qt s) (errno s) (trace s) (nmalloc s) (ncalloc s).
Definition set_fst (x : fstate) s := Switch (pflag s) (numports s) (stdqlen s) (portv s) (vlant s)
  (validvlan s) x (mact s) (qt s) (errno s) (trace s) (nmalloc s) (ncalloc s).
Definition set_mact (x : T) s := Switch (pflag s) (numports s) (stdqlen s) (portv s) (vlant s)
  (validvlan s) (fst_st s) x (qt s) (errno s) (trace s) (nmalloc s) (ncalloc s).
Definition set_qt (x : qt_state callback) s := Switch (pflag s) (numports s) (stdqlen s) (portv s) (vlant s)
  (validvlan s) (fst_st s) (mact s) x (errno s) (trace s) (nmalloc s) (ncalloc s).
Definition set_errno (x : Z) s := Switch (pflag s) (numports s) (stdqlen s) (portv s) (vlant s)
  (validvlan s) (fst_st s) (mact s) (qt s) x (trace s) (nmalloc s) (ncalloc s).
Definition add_event (e : event) s := Switch (pflag s) (numports s) (stdqlen s) (portv s) (vlant s)
  (validvlan s) (fst_st s) (mact s) (qt s) (errno s) (trace s ++ [e]) (nmalloc s) (ncalloc s).
Definition set_nmalloc (x : nat) s := Switch (pflag s) (numports s) (stdqlen s) (portv s) (vlant s)
  (validvlan s) (fst_st s) (mact s) (qt s) (errno s) (trace s) x (ncalloc s).
Definition set_ncalloc (x : nat) s := Switch (pflag s) (numports s) (stdqlen s) (portv s) (vlant s)
  (validvlan s) (fst_st s) (mact s) (qt s) (errno s) (trace s) (nmalloc s) x.

Definition set_fpflag (x : Z) (f : fstate) := FState x (fnumports f) (rcvhistindex f) (fsttab f) (myid f)
  (switchmac f) (priority f) (helloperiod f) (maxage f) (fst_timerno f) (hellocounter f) (outpacket f) (outtagpacket f).
Definition set_fnumports (x : Z) (f : fstate) := FState (fpflag f) x (rcvhistindex f) (fsttab f) (myid f)
  (switchmac f) (priority f) (helloperiod f) (maxage f) (fst_timerno f) (hellocounter f) (outpacket f) (outtagpacket f).
Definition set_rcvhistindex (x : Z) (f : fstate) := FState (fpflag f) (fnumports f) x (fsttab f) (myid f)
  (switchmac f) (priority f) (helloperiod f) (maxage f) (fst_timerno f) (hellocounter f) (outpacket f) (outtagpacket f).
Definition set_fsttab (x : gmap Z vlst) (f : fstate) := FState (fpflag f) (fnumports f) (rcvhistindex f) x (myid f)
  (switchmac f) (priority f) (helloperiod f) (maxage f) (fst_timerno f) (hellocounter f) (outpacket f) (outtagpacket f).
Definition set_fst_timerno (x : Z) (f : fstate) := FState (fpflag f) (fnumports f) (rcvhistindex f) (fsttab f) (myid f)
  (switchmac f) (priority f) (helloperiod f) (maxage f) x (hellocounter f) (outpacket f) (outtagpacket f).
Definition set_hellocounter (x : Z) (f : fstate) := FState (fpflag f) (fnumports f) (rcvhistindex f) (fsttab f) (myid f)
  (switchmac f) (priority f) (helloperiod f) (maxage f) (fst_timerno f) x (outpacket f) (outtagpacket f).
Definition set_outpacket (x : bpdu) (f : fstate) := FState (fpflag f) (fnumports f) (rcvhistindex f) (fsttab f) (myid f)
  (switchmac f) (priority f) (helloperiod f) (maxage f) (fst_timerno f) (hellocounter f) x (outtagpacket f).
Definition set_outtagpacket (x : bpdu) (f : fstate) := FState (fpflag f) (fnumports f) (rcvhistindex f) (fsttab f) (myid f)
  (switchmac f) (priority f) (helloperiod f) (maxage f) (fst_timerno f) (hellocounter f) (outpacket f) x.
Definition set_myid (x : list Z) (f : fstate) := FState (fpflag f) (fnumports f) (rcvhistindex f) (fsttab f) x
  (switchmac f) (priority f) (helloperiod f) (maxage f) (fst_timerno f) (hellocounter f) (outpacket f) (outtagpacket f).

End setters.

Definition upd_ep (x : list endpoint) (p : port) : port :=
  Port x (p_flag p) (p_sender p) (p_ms p) (p_vlanuntag p) (p_user p) (p_group p) (p_curuser p) (p_cost p)
    (p_pktsin p) (p_pktsout p) (p_bytesin p) (p_bytesout p).
Definition upd_flag (x : Z) (p : port) : port :=
  Port (p_ep p) x (p_sender p) (p_ms p) (p_vlanuntag p) (p_user p) (p_group p) (p_curuser p) (p_cost p)
    (p_pktsin p) (p_pktsout p) (p_bytesin p) (p_bytesout p).
Definition upd_ms (snd : bool) (ms : option mod_support) (p : port) : port :=
  Port (p_ep p) (p_flag p) snd ms (p_vlanuntag p) (p_user p) (p_group p) (p_curuser p) (p_cost p)
    (p_pktsin p) (p_pktsout p) (p_bytesin p) (p_bytesout p).
Definition upd_vlanuntag (x : Z) (p : port) : port :=
  Port (p_ep p) (p_flag p) (p_sender p) (p_ms p) x (p_user p) (p_group p) (p_curuser p) (p_cost p)
    (p_pktsin p) (p_pktsout p) (p_bytesin p) (p_bytesout p).
Definition upd_user (x : Z) (p : port) : port :=
  Port (p_ep p) (p_flag p) (p_sender p) (p_ms p) (p_vlanuntag p) x (p_group p) (p_curuser p) (p_cost p)
    (p_pktsin p) (p_pktsout p) (p_bytesin p) (p_bytesout p).
Definition upd_group (x : Z) (p : port) : port :=
  Port (p_ep p) (p_flag p) (p_sender p) (p_ms p) (p_vlanuntag p) (p_user p) x (p_curuser p) (p_cost p)
    (p_pktsin p) (p_pktsout p) (p_bytesin p) (p_bytesout p).
Definition upd_curuser (x : Z) (p : port) : port :=
  Port (p_ep p) (p_flag p) (p_sender p) (p_ms p) (p_vlanuntag p) (p_user p) (p_group p) x (p_cost p)
    (p_pktsin p) (p_pktsout p) (p_bytesin p) (p_bytesout p).
Definition upd_counters (pi po bi bo : Z) (p : port) : port :=
  Port (p_ep p) (p_flag p) (p_sender p) (p_ms p) (p_vlanuntag p) (p_user p) (p_group p) (p_curuser p) (p_cost p)
    pi po bi bo.
Definition upd_queue (q : list (list Z)) (n : Z) (e : endpoint) : endpoint :=
  Endpoint (ep_port e) (fd_ctl e) (fd_data e) (descr e) q n (vdepq_max e).
Definition upd_qmax (n : Z) (e : endpoint) : endpoint :=
  Endpoint (ep_port e) (fd_ctl e) (fd_data e) (descr e) (vdepq e) (vdepq_count e) n.
Definition upd_descr (d : option string) (e : endpoint) : endpoint :=
  Endpoint (ep_port e) (fd_ctl e) (fd_data e) d (vdepq e) (vdepq_count e) (vdepq_max e).

(** ** Accesses *)

Section access.
Context {T : Type} `{!MacTable T} (E : env).
Abbreviation sw := (switch T).

Definition now (s : sw) : Z := gqtime (qt s).

(** [printoutc(fd,...)]: one line on the stream of the current command. *)
Definition printoutc (line : string) : M sw () := modify (add_event (EvPrint line)).

Definition malloc : M sw bool := λ s, Done (malloc_ok E (nmalloc s)) (set_nmalloc (S (nmalloc s)) s).
Definition calloc : M sw bool := λ s, Done (calloc_ok E (ncalloc s)) (set_ncalloc (S (ncalloc s)) s).

(** [portv[p]]: a possibly NULL pointer; [port_get] dereferences it. *)
Definition port_ptr (p : Z) : M sw (option port) := s ← get; deref (zget (portv s) p).
Definition port_get (p : Z) : M sw port := o ← port_ptr p; deref o.
Definition portv_store (p : Z) (o : option port) : M sw () :=
  s ← get; l ← deref (zset (portv s) p o); modify (set_portv l).
Definition port_put (p : Z) (pt : port) : M sw () := portv_store p (Some pt).
Definition port_upd (p : Z) (f : port → port) : M sw () := pt ← port_get p; port_put p (f pt).

(** [vlant[v]]: static storage of [NUMOFVLAN+1] entries, zero-initialised. *)
Definition vl (s : sw) (v : Z) : vlanrec := default vlan_null (vlant s !! v).
Definition vl_get (v : Z) : M sw vlanrec :=
  s ← get; if (0 <=? v) && (v <=? NUMOFVLAN) then mret (vl s v) else fault.
Definition vl_put (v : Z) (r : vlanrec) : M sw () := modify (λ s, set_vlant (<[v := r]> (vlant s)) s).
Definition vl_check (v : Z) (f : vfield) (p : Z) : M sw bool :=
  r ← vl_get v; deref (ba_check (vget f r) p).
Definition vl_set (v : Z) (f : vfield) (p : Z) : M sw () :=
  r ← vl_get v; x ← deref (vget f r); x' ← deref (ba_set x p); vl_put v (vset f (Some x') r).
Definition vl_clr (v : Z) (f : vfield) (p : Z) : M sw () :=
  r ← vl_get v; x ← deref (vget f r); x' ← deref (ba_clr x p); vl_put v (vset f (Some x') r).

(** [fsttab[v]]: an array of [NUMOFVLAN] pointers. *)
Definition upd_fst (g : fstate → fstate) : M sw () := modify (λ s, set_fst (g (fst_st s)) s).
Definition fs_ptr (v : Z) : M sw (option vlst) :=
  s ← get; if (0 <=? v) && (v <? NUMOFVLAN) then mret (fsttab (fst_st s) !! v) else fault.
Definition fs_get (v : Z) : M sw vlst := o ← fs_ptr v; deref o.
Definition fs_put (v : Z) (r : vlst) : M sw () := upd_fst (λ f, set_fsttab (<[v := r]> (fsttab f)) f).
Definition fs_check (v : Z) (f : ffield) (p : Z) : M sw bool :=
  r ← fs_get v; deref (ba_check (fget f r) p).
Definition fs_set (v : Z) (f : ffield) (p : Z) : M sw () :=
  r ← fs_get v; x ← deref (fget f r); x' ← deref (ba_set x p); fs_put v (fset f (Some x') r).
Definition fs_clr (v : Z) (f : ffield) (p : Z) : M sw () :=
  r ← fs_get v; x ← deref (fget f r); x' ← deref (ba_clr x p); fs_put v (fset f (Some x') r).

(** The arrays the loops run over. *)
Definition vl_array (v : Z) (f : vfield) (s : sw) : option bitarray := vget f (vl s v).
Definition fs_array (v : Z) (f : ffield) (s : sw) : option bitarray := fsttab (fst_st s) !! v ≫= fget f.
Definition vv_array (s : sw) : option bitarray := Some (validvlan s).

(** [bac_check(validvlan,v)] *)
Definition valid_vlan (v : Z) : M sw bool := s ← get; deref (bac_check (Some (validvlan s)) v).

(** Calls of the MAC table. *)
Definition find_in_hash_m (mac : list Z) (vlan : Z) : M sw Z :=
  s ← get; deref (mt_find (mact s) mac vlan).
Definition find_in_hash_update_m (mac : list Z) (vlan p : Z) : M sw Z :=
  ok ← malloc; s ← get;
  r ← deref (mt_learn (mact s) mac vlan p (now s) ok);
  modify (set_mact r.1) ;; mret r.2.
Definition hash_delete_port_m (p : Z) : M sw () :=
  s ← get; t ← deref (mt_delete_port (mact s) p); modify (set_mact t).
Definition hash_delete_vlan_m (v : Z) : M sw () :=
  s ← get; t ← deref (mt_delete_vlan (mact s) v); modify (set_mact t).

End access.
