(* ===== verification/PacketQ.v ===== *)
(** * PacketQ: the packet queues of [vde_switch/packetq.c] on a heap

    Every endpoint has a queue: a circular singly linked list of nodes reached
    by its tail; a packet queued for several endpoints is one buffer with a
    reference count.  The heap is modelled explicitly, so that a stale pointer
    is a [Fault].  The theorems: on a heap that consists of such queues the
    three operations are append, removal of a prefix and removal of everything
    on the lists of packets, leave the other queues alone, never touch freed
    memory, and free a buffer exactly when its last node goes. *)
From Stdlib Require Import Lia.
From stdpp Require Import base numbers list gmap.
From S2P Require Import Prelude Switch.

Definition i16 (z : Z) : Z := (z + 2 ^ 15) mod 2 ^ 16 - 2 ^ 15.
#[global] Arguments i16 : simpl never.

(** ** Data *)

(** [struct packetbuf] with the packet that follows it. *)
Record packetbuf := PacketBuf { pb_len : Z; pb_count : Z; pb_data : list Z }.

(** [struct vdepq] *)
Record vdepq_node := VdepqNode { vdepq_pb : Z; vdepq_next : Z }.

(** The allocated nodes and buffers by address, the next free address, and the
    calls of [sendfun] so far. *)
Record pqheap := PqHeap {
  nodes : gmap Z vdepq_node;
  bufs : gmap Z packetbuf;
  brk : Z;
  sends : list (list Z)
}.

Definition set_nodes (x : gmap Z vdepq_node) (h : pqheap) : pqheap := PqHeap x (bufs h) (brk h) (sends h).
Definition set_bufs (x : gmap Z packetbuf) (h : pqheap) : pqheap := PqHeap (nodes h) x (brk h) (sends h).

Definition node (a : Z) : M pqheap vdepq_node := h ← get; deref (nodes h !! a).
Definition buf (a : Z) : M pqheap packetbuf := h ← get; deref (bufs h !! a).
Definition node_put (a : Z) (n : vdepq_node) : M pqheap () := modify (λ h, set_nodes (<[a := n]> (nodes h)) h).
Definition buf_put (a : Z) (b : packetbuf) : M pqheap () := modify (λ h, set_bufs (<[a := b]> (bufs h)) h).
Definition set_next (a x : Z) : M pqheap () := n ← node a; node_put a (VdepqNode (vdepq_pb n) x).
(** [free]: the block must be allocated. *)
Definition free_node (a : Z) : M pqheap () :=
  _ ← node a; modify (λ h, set_nodes (delete a (nodes h)) h).
Definition free_buf (a : Z) : M pqheap () :=
  _ ← buf a; modify (λ h, set_bufs (delete a (bufs h)) h).

(** Addresses handed out by [malloc] are new; the contents are written by the
    code before they are read. *)
Definition malloc_node : M pqheap Z := λ h,
  Done (brk h) (PqHeap (<[brk h := VdepqNode 0 0]> (nodes h)) (bufs h) (brk h + 1) (sends h)).
Definition malloc_buf : M pqheap Z := λ h,
  Done (brk h) (PqHeap (nodes h) (<[brk h := PacketBuf 0 0 []]> (bufs h)) (brk h + 1) (sends h)).

(** ** Operations *)

(** Linking the new element after the tail. *)
Definition link_new (tail : option Z) (newelem : Z) : M pqheap (option Z) :=
  match tail with
  | None => set_next newelem newelem ;; mret (Some newelem)
  | Some t =>
    n ← node t;
    set_next newelem (vdepq_next n) ;;
    set_next t newelem ;;
    mret (Some newelem)
  end.

(** [vdepq_add(tail,packet,len,tmp)]: the result, [*tail] and [*tmp];
    [node_ok] and [buf_ok] are the outcomes of the two allocations. *)
Definition vdepq_add (tail : option Z) (packet : list Z) (len : Z) (tmp : option Z) (node_ok buf_ok : bool)
    : M pqheap (Z * option Z * option Z) :=
  if negb node_ok then mret (0, tail, tmp) else
  newelem ← malloc_node;
  r ← match tmp with
      | Some b => mret (Some b)
      | None =>
        if negb buf_ok then mret None else
        b ← malloc_buf;
        buf_put b (PacketBuf (i16 len) 0 (take (Z.to_nat len) packet)) ;;
        mret (Some b)
      end;
  match r with
  | None => free_node newelem ;; mret (0, tail, None)
  | Some b =>
    n ← node newelem;
    node_put newelem (VdepqNode b (vdepq_next n)) ;;
    pb ← buf b;
    buf_put b (PacketBuf (pb_len pb) (i16 (pb_count pb + 1)) (pb_data pb)) ;;
    tail' ← link_new tail newelem;
    mret (1, tail', Some b)
  end.

Definition PACKETBUFDEL (b : Z) : M pqheap () :=
  pb ← buf b;
  let pb' := PacketBuf (pb_len pb) (i16 (pb_count pb - 1)) (pb_data pb) in
  buf_put b pb' ;;
  whenM (pb_count pb' =? 0) (free_buf b).

(** Unlinking and freeing the first element; the new [*tail]. *)
Definition drop_first (t : Z) : M pqheap (option Z) :=
  tn ← node t;
  let first := vdepq_next tn in
  fn ← node first;
  PACKETBUFDEL (vdepq_pb fn) ;;
  tail' ← (if first =? t then mret None
           else fn ← node first; set_next t (vdepq_next fn) ;; mret (Some t));
  free_node first ;;
  mret tail'.

(** The fuel bounds the number of elements. *)
Fixpoint vdepq_del (fuel : nat) (tail : option Z) : M pqheap (option Z) :=
  match tail with
  | None => mret None
  | Some t =>
    match fuel with
    | O => fault
    | S f => tail' ← drop_first t; vdepq_del f tail'
    end
  end.

(** [sendfun] is any function; its [k]-th call on a packet gives
    [sendfun k packet]. *)
Fixpoint vdepq_try (sendfun : nat → list Z → Z) (fuel : nat) (tail : option Z) (sent : Z)
    : M pqheap (option Z * Z) :=
  match tail with
  | None => mret (None, sent)
  | Some t =>
    match fuel with
    | O => fault
    | S f =>
      tn ← node t;
      fn ← node (vdepq_next tn);
      pb ← buf (vdepq_pb fn);
      h ← get;
      let data := take (Z.to_nat (pb_len pb)) (pb_data pb) in
      modify (λ h, PqHeap (nodes h) (bufs h) (brk h) (sends h ++ [data])) ;;
      if sendfun (length (sends h)) data =? - EWOULDBLOCK then mret (tail, sent)
      else tail' ← drop_first t; vdepq_try sendfun f tail' (sent + 1)
    end
  end.

(** ** Well-formed heaps *)

(** The nodes [l] are linked in order and the last one points to [z]. *)
Fixpoint links (m : gmap Z vdepq_node) (l : list Z) (z : Z) : Prop :=
  match l with
  | [] => True
  | a :: l' => ∃ b, m !! a = Some (VdepqNode b (default z (head l'))) ∧ links m l' z
  end.

(** The queue with tail pointer [q.1] consists of the nodes [q.2], oldest first. *)
Definition is_queue (m : gmap Z vdepq_node) (q : option Z * list Z) : Prop :=
  q.1 = last q.2 ∧ links m q.2 (default 0 (head q.2)).

Definition refs (m : gmap Z vdepq_node) (b : Z) : gmap Z vdepq_node := filter (λ kv, vdepq_pb kv.2 = b) m.

(** The heap consists of the queues [qs]: every node is in one of them, every
    buffer is referenced as often as its counter says and at least once. *)
Record pq_inv (h : pqheap) (qs : list (option Z * list Z)) : Prop := {
  pq_queues : Forall (is_queue (nodes h)) qs;
  pq_nodup : NoDup (mjoin (snd <$> qs));
  pq_dom : ∀ a, is_Some (nodes h !! a) ↔ a ∈ mjoin (snd <$> qs);
  pq_pb : ∀ a n, nodes h !! a = Some n → is_Some (bufs h !! vdepq_pb n);
  pq_count : ∀ b pb, bufs h !! b = Some pb →
    pb_count pb = Z.of_nat (size (refs (nodes h) b)) ∧ 0 < pb_count pb ∧
    pb_len pb = Z.of_nat (length (pb_data pb));
  pq_brk : (∀ a, is_Some (nodes h !! a) → a < brk h) ∧ (∀ b, is_Some (bufs h !! b) → b < brk h);
  pq_small : Z.of_nat (size (nodes h)) < 2 ^ 15
}.

(** The packet a node holds. *)
Definition packet_at (h : pqheap) (a : Z) : list Z :=
  default [] (n ← nodes h !! a; pb_data <$> bufs h !! vdepq_pb n).
(** The packets of a queue. *)
Definition contents (h : pqheap) (l : list Z) : list (list Z) := packet_at h <$> l.

(** *** Linked lists *)

Lemma links_agree m m' l z : (∀ a, a ∈ l → m' !! a = m !! a) → links m l z → links m' l z.
Proof.
  induction l as [|a l IH]; intros H; simpl; [done|]. intros (b & Hb & Hl). exists b.
  rewrite H by set_solver. split; [done|]. apply IH; [set_solver|done].
Qed.

Lemma links_app m l1 l2 z : links m (l1 ++ l2) z ↔ links m l1 (default z (head l2)) ∧ links m l2 z.
Proof.
  induction l1 as [|a l1 IH]; simpl; [tauto|].
  assert (default z (head (l1 ++ l2)) = default (default z (head l2)) (head l1)) as -> by (by destruct l1).
  setoid_rewrite IH. naive_solver.
Qed.

Lemma links_lookup m l a z : links m l z → a ∈ l → is_Some (m !! a).
Proof. induction l as [|x l IH]; simpl; [set_solver|]. intros (b & Hb & Hl) [->|Ha]%elem_of_cons; eauto. Qed.

(** Redirecting the last node. *)
Lemma links_set_last m l t b z z' :
  NoDup (l ++ [t]) → m !! t = Some (VdepqNode b z) → links m (l ++ [t]) z →
  links (<[t := VdepqNode b z']> m) (l ++ [t]) z'.
Proof.
  intros Hnd Ht. rewrite !links_app. simpl. intros [Hl _]. split.
  - eapply links_agree, Hl. intros a Ha. apply lookup_insert_ne. intros ->.
    apply NoDup_app in Hnd as (_ & Hnd & _). apply (Hnd a Ha). set_solver.
  - exists b. by rewrite lookup_insert_eq.
Qed.

(** Changing the buffer of a node that is not in the list changes nothing. *)
Lemma links_insert_ne m l a n z : a ∉ l → links m l z → links (<[a := n]> m) l z.
Proof. intros Ha. apply links_agree. intros x Hx. apply lookup_insert_ne. set_solver. Qed.
Lemma links_delete_ne m l a z : a ∉ l → links m l z → links (delete a m) l z.
Proof. intros Ha. apply links_agree. intros x Hx. apply lookup_delete_ne. set_solver. Qed.

(** *** Reference counts *)

Lemma refs_insert m a n b : m !! a = None →
  size (refs (<[a := n]> m) b) = ((if decide (vdepq_pb n = b) then 1 else 0) + size (refs m b))%nat.
Proof.
  intros Ha. unfold refs. case_decide as Hb.
  - rewrite map_filter_insert_True by done. rewrite map_size_insert_None; [done|].
    rewrite map_lookup_filter_None. by left.
  - rewrite map_filter_insert_False by done. by rewrite delete_id.
Qed.

Lemma refs_delete m a n b : m !! a = Some n →
  size (refs m b) = ((if decide (vdepq_pb n = b) then 1 else 0) + size (refs (delete a m) b))%nat.
Proof. intros Ha. rewrite <- (insert_delete_id m a n Ha) at 1. apply refs_insert, lookup_delete_eq. Qed.

Lemma refs_update m a n n' b : m !! a = Some n → vdepq_pb n' = vdepq_pb n →
  size (refs (<[a := n']> m) b) = size (refs m b).
Proof.
  intros Ha Hn. rewrite (refs_delete m a n b Ha), <- insert_delete_eq, refs_insert by apply lookup_delete_eq.
  by rewrite Hn.
Qed.

Lemma refs_pos m a n : m !! a = Some n → (0 < size (refs m (vdepq_pb n)))%nat.
Proof. intros Ha. rewrite (refs_delete m a n _ Ha), decide_True by done. lia. Qed.

Lemma i16_small z : - 2 ^ 15 ≤ z < 2 ^ 15 → i16 z = z.
Proof. intros. unfold i16. rewrite Z.mod_small; lia. Qed.

(** *** Accesses *)

Lemma wp_node a n h (Q : vdepq_node → pqheap → Prop) : nodes h !! a = Some n → Q n h → wp (node a) Q h.
Proof. intros Ha HQ. apply wp_bind. by eapply wp_deref. Qed.
Lemma wp_buf a b h (Q : packetbuf → pqheap → Prop) : bufs h !! a = Some b → Q b h → wp (buf a) Q h.
Proof. intros Ha HQ. apply wp_bind. by eapply wp_deref. Qed.
Lemma wp_set_next a x n h (Q : () → pqheap → Prop) :
  nodes h !! a = Some n → Q () (set_nodes (<[a := VdepqNode (vdepq_pb n) x]> (nodes h)) h) → wp (set_next a x) Q h.
Proof. intros Ha HQ. apply wp_bind. by eapply wp_node. Qed.
Lemma wp_free_node a h (Q : () → pqheap → Prop) :
  is_Some (nodes h !! a) → Q () (set_nodes (delete a (nodes h)) h) → wp (free_node a) Q h.
Proof. intros [n Ha] HQ. apply wp_bind. by eapply wp_node. Qed.

(** Dropping one reference. *)
Definition unref (b : Z) (pb : packetbuf) (m : gmap Z packetbuf) : gmap Z packetbuf :=
  if pb_count pb =? 1 then delete b m else <[b := PacketBuf (pb_len pb) (pb_count pb - 1) (pb_data pb)]> m.

Lemma wp_PACKETBUFDEL b pb h (Q : () → pqheap → Prop) :
  bufs h !! b = Some pb → 0 < pb_count pb < 2 ^ 15 → Q () (set_bufs (unref b pb (bufs h)) h) → wp (PACKETBUFDEL b) Q h.
Proof.
  intros Hb Hc HQ. apply wp_bind, (wp_buf b pb); [done|]. cbv zeta. rewrite i16_small by lia. simpl.
  apply wp_bind, wp_modify. unfold unref in HQ. destruct (Z.eqb_spec (pb_count pb) 1) as [E|E].
  - rewrite E. simpl. apply wp_bind. eapply wp_buf; [apply lookup_insert_eq|]. apply wp_modify.
    unfold set_bufs in *. simpl. by rewrite delete_insert_eq.
  - rewrite (proj2 (Z.eqb_neq _ _)) by lia. exact HQ.
Qed.

(** *** Removing the first element *)

Lemma contents_ext h h' l : (∀ a, a ∈ l → packet_at h' a = packet_at h a) → contents h' l = contents h l.
Proof. intros H. apply list_fmap_ext. intros i a Ha. apply H. by eapply list_elem_of_lookup_2. Qed.

Lemma elem_of_queues (q1 q2 : list (option Z * list Z)) q a :
  a ∈ mjoin (snd <$> (q1 ++ q :: q2)) ↔ a ∈ q.2 ∨ a ∈ mjoin (snd <$> (q1 ++ q2)).
Proof. rewrite !fmap_app, fmap_cons, !join_app. simpl. set_solver. Qed.

Lemma nodup_queues (q1 q2 : list (option Z * list Z)) q :
  NoDup (mjoin (snd <$> (q1 ++ q :: q2))) ↔
  NoDup q.2 ∧ NoDup (mjoin (snd <$> (q1 ++ q2))) ∧ ∀ a, a ∈ q.2 → a ∉ mjoin (snd <$> (q1 ++ q2)).
Proof.
  rewrite !fmap_app, fmap_cons, !join_app. simpl. rewrite !NoDup_app. set_solver.
Qed.

Lemma refs_le m b : (size (refs m b) ≤ size m)%nat.
Proof. apply map_size_filter. Qed.

Lemma pq_ref h qs a n : pq_inv h qs → nodes h !! a = Some n →
  ∃ pb, bufs h !! vdepq_pb n = Some pb ∧ 0 < pb_count pb < 2 ^ 15.
Proof.
  intros I Ha. destruct (pq_pb _ _ I a n Ha) as [pb Hpb]. exists pb. split; [done|].
  destruct (pq_count _ _ I _ _ Hpb) as (Hc & Hp & _). pose proof (refs_le (nodes h) (vdepq_pb n)).
  pose proof (pq_small _ _ I). lia.
Qed.

(** [m'] is [m] but for the successors of some nodes. *)
Definition relinked (m m' : gmap Z vdepq_node) : Prop := ∀ a, vdepq_pb <$> m' !! a = vdepq_pb <$> m !! a.

Lemma relinked_insert m a n n' : m !! a = Some n → vdepq_pb n' = vdepq_pb n → relinked m (<[a := n']> m).
Proof.
  intros Ha Hn x. destruct (decide (a = x)) as [->|]; [by rewrite lookup_insert_eq, Ha; simpl; rewrite Hn|by rewrite lookup_insert_ne].
Qed.

Lemma relinked_dom m m' a : relinked m m' → is_Some (m' !! a) ↔ is_Some (m !! a).
Proof. intros H. rewrite <- !(fmap_is_Some vdepq_pb). by rewrite (H a). Qed.

Lemma relinked_refs m m' b : relinked m m' → size (refs m' b) = size (refs m b).
Proof.
  intros H. rewrite <- !size_dom. f_equal. apply set_eq. intros a. unfold refs. rewrite !elem_of_dom. unfold is_Some.
  setoid_rewrite map_lookup_filter_Some. specialize (H a). simpl.
  destruct (m' !! a) as [x|], (m !! a) as [y|]; simpl in H; simplify_eq; naive_solver congruence.
Qed.

Lemma relinked_size m m' : relinked m m' → size m' = size m.
Proof.
  intros H. rewrite <- !size_dom. f_equal. apply set_eq. intros a. rewrite !elem_of_dom. by apply relinked_dom.
Qed.

Lemma relinked_pb m m' a n : relinked m m' → m' !! a = Some n → ∃ n0, m !! a = Some n0 ∧ vdepq_pb n0 = vdepq_pb n.
Proof. intros H Ha. specialize (H a). rewrite Ha in H. simpl in H. symmetry in H. by apply fmap_Some in H as (n0 & ? & ?); eauto. Qed.

Lemma unref_lookup b pb m x : m !! b = Some pb → 0 < pb_count pb →
  unref b pb m !! x = if decide (x = b) then
    if pb_count pb =? 1 then None else Some (PacketBuf (pb_len pb) (pb_count pb - 1) (pb_data pb)) else m !! x.
Proof.
  intros Hb Hc. unfold unref. case_decide as E; [subst x|]; destruct (pb_count pb =? 1).
  - apply lookup_delete_eq.
  - apply lookup_insert_eq.
  - by apply lookup_delete_ne.
  - by apply lookup_insert_ne.
Qed.

(** The heap after the first node [f] of a queue is gone. *)
Definition dropped (h : pqheap) (f b : Z) (pb : packetbuf) (m : gmap Z vdepq_node) : pqheap :=
  PqHeap (delete f m) (unref b pb (bufs h)) (brk h) (sends h).

Lemma dropped_packet h qs f b nx pb m a :
  pq_inv h qs → relinked (nodes h) m → nodes h !! f = Some (VdepqNode b nx) → bufs h !! b = Some pb → a ≠ f →
  packet_at (dropped h f b pb m) a = packet_at h a.
Proof.
  intros I Hm Hf Hb Hne. unfold packet_at. cbn [nodes bufs dropped]. rewrite lookup_delete_ne by done. specialize (Hm a).
  destruct (pq_ref h qs f _ I Hf) as (pb' & Hb' & Hc). cbn [vdepq_pb] in Hb'. rewrite Hb in Hb'. injection Hb' as <-.
  destruct (m !! a) as [n|], (nodes h !! a) as [n0|] eqn:E0; simpl in Hm; try done. injection Hm as Hm. simpl. rewrite Hm.
  rewrite unref_lookup by (done || lia). case_decide as Eb; [|done]. rewrite Eb, Hb.
  destruct (Z.eqb_spec (pb_count pb) 1) as [E1|]; [|done]. exfalso.
  destruct (pq_count _ _ I _ _ Hb) as (Hcnt & _). rewrite (refs_delete _ f _ b Hf), decide_True in Hcnt by done.
  assert (delete f (nodes h) !! a = Some n0) as Ha by (by rewrite lookup_delete_ne).
  pose proof (refs_pos _ _ _ Ha). rewrite Eb in H. lia.
Qed.

Lemma forall_queues (P : option Z * list Z → Prop) q1 q q2 : Forall P (q1 ++ q :: q2) ↔ P q ∧ Forall P (q1 ++ q2).
Proof. rewrite !Forall_app, Forall_cons. tauto. Qed.

(** Queues only depend on their own nodes. *)
Lemma queues_agree m m' qs :
  (∀ a, a ∈ mjoin (snd <$> qs) → m' !! a = m !! a) → Forall (is_queue m) qs → Forall (is_queue m') qs.
Proof.
  rewrite !Forall_forall. intros Hag Hq q Hin. destruct (Hq q Hin) as [Ht Hl]. split; [done|].
  eapply links_agree, Hl. intros a Ha. apply Hag, list_elem_of_join. exists q.2. split; [done|].
  by apply list_elem_of_fmap_2.
Qed.

Lemma dropped_inv h q1 q2 t f rest b nx pb m :
  pq_inv h (q1 ++ (t, f :: rest) :: q2) → relinked (nodes h) m → nodes h !! f = Some (VdepqNode b nx) →
  bufs h !! b = Some pb → links m rest (default 0 (head rest)) →
  (∀ a, a ∈ mjoin (snd <$> (q1 ++ q2)) → m !! a = nodes h !! a) →
  pq_inv (dropped h f b pb m) (q1 ++ (last rest, rest) :: q2).
Proof.
  intros I Hm Hf Hb Hl Hag. destruct (pq_ref h _ f _ I Hf) as (pb' & Hb' & Hc). cbn [vdepq_pb] in Hb'.
  rewrite Hb in Hb'. injection Hb' as <-.
  destruct I as [Iq Ind Idom Ipb Icnt [Ib1 Ib2] Ism].
  apply nodup_queues in Ind as (Hnd1 & Hnd2 & Hdis). simpl in Hnd1, Hdis. apply NoDup_cons in Hnd1 as [Hfr Hnr].
  assert (is_Some (m !! f)) as Hmf by (apply (relinked_dom _ _ _ Hm); by eexists).
  assert (f ∉ mjoin (snd <$> (q1 ++ q2))) as Hfo by (apply Hdis; set_solver).
  split; cbn [nodes bufs brk dropped].
  - apply forall_queues in Iq as [_ Hq]. apply forall_queues. split; [split; [done|by apply links_delete_ne]|].
    eapply queues_agree, Hq. intros a Ha. rewrite lookup_delete_ne by (intros ->; done). by apply Hag.
  - apply nodup_queues. simpl. split_and!; [done..|]. intros a Ha. apply Hdis. set_solver.
  - intros a. rewrite elem_of_queues. simpl. rewrite lookup_delete_is_Some, (relinked_dom _ _ _ Hm), Idom, elem_of_queues.
    simpl. rewrite elem_of_cons. split; [naive_solver|]. intros [Ha|Ha]; (split; [intros ->; done|tauto]).
  - intros a n [Hne Ha]%lookup_delete_Some. destruct (relinked_pb _ _ _ _ Hm Ha) as (n0 & Ha0 & Hn0).
    rewrite unref_lookup by (done || lia). rewrite <- Hn0. case_decide as Eb; [|by eapply Ipb].
    destruct (Z.eqb_spec (pb_count pb) 1) as [E1|]; [|done]. exfalso.
    destruct (Icnt _ _ Hb) as (Hcnt & _). rewrite (refs_delete _ f _ b Hf), decide_True in Hcnt by done.
    assert (delete f (nodes h) !! a = Some n0) as Hd by (by rewrite lookup_delete_ne).
    pose proof (refs_pos _ _ _ Hd) as Hp. rewrite Eb in Hp. lia.
  - intros x px. rewrite unref_lookup by (done || lia).
    assert (relinked (delete f (nodes h)) (delete f m)) as Hmd.
    { intros a. destruct (decide (a = f)) as [->|]; [by rewrite !lookup_delete_eq|by rewrite !lookup_delete_ne]. }
    rewrite (relinked_refs _ _ _ Hmd). case_decide as Ex.
    + subst x. destruct (Z.eqb_spec (pb_count pb) 1) as [|Hn1]; [done|]. intros [= <-]. simpl.
      destruct (Icnt _ _ Hb) as (Hcnt & Hpos & Hlen). rewrite (refs_delete _ f _ b Hf), decide_True in Hcnt by done. lia.
    + intros Hx. destruct (Icnt _ _ Hx) as (Hcnt & Hpos & Hlen).
      rewrite (refs_delete _ f _ x Hf), decide_False in Hcnt by (simpl; congruence). done.
  - split.
    + intros a [_ Ha]%lookup_delete_is_Some. apply Ib1. by apply (relinked_dom _ _ _ Hm).
    + intros x. rewrite unref_lookup by (done || lia). case_decide; [subst; intros _; apply Ib2; by eexists|apply Ib2].
  - rewrite map_size_delete_Some by done. rewrite (relinked_size _ _ Hm). lia.
Qed.

Lemma wp_drop_first h q1 q2 t f rest :
  pq_inv h (q1 ++ (Some t, f :: rest) :: q2) →
  wp (drop_first t) (λ t' h', t' = last rest ∧ pq_inv h' (q1 ++ (t', rest) :: q2) ∧ sends h' = sends h ∧
    (∀ a, a ∈ mjoin (snd <$> (q1 ++ (t', rest) :: q2)) → packet_at h' a = packet_at h a)) h.
Proof.
  intros I. pose proof (pq_queues _ _ I) as Iq. apply forall_queues in Iq as [[Ht Hl] _]. cbn [fst snd head default] in Ht, Hl.
  pose proof (pq_nodup _ _ I) as Hnd. apply nodup_queues in Hnd as (Hnd & _ & Hdis). cbn [snd] in Hnd, Hdis.
  pose proof Hl as (b & Hf & Hlr). destruct (pq_ref h _ f _ I Hf) as (pb & Hb & Hc). cbn [vdepq_pb] in Hb.
  pose proof Hnd as [Hfr Hnr]%NoDup_cons.
  assert (∀ m, relinked (nodes h) m → links m rest (default 0 (head rest)) →
    (∀ a, a ∈ mjoin (snd <$> (q1 ++ q2)) → m !! a = nodes h !! a) →
    let h' := dropped h f b pb m in pq_inv h' (q1 ++ (last rest, rest) :: q2) ∧ sends h' = sends h ∧
      (∀ a, a ∈ mjoin (snd <$> (q1 ++ (last rest, rest) :: q2)) → packet_at h' a = packet_at h a)) as Hfin.
  { intros m Hm Hlm Hag. split_and!; [by eapply dropped_inv|done|]. intros a Ha. eapply dropped_packet; [done..|].
    intros ->. apply elem_of_queues in Ha as [Ha|Ha]; [done|]. apply (Hdis f); [set_solver|done]. }
  destruct rest as [|r rest'] eqn:Er.
  - simpl in Ht. injection Ht as ->. apply wp_bind, (wp_node f (VdepqNode b f)); [done|]. cbv zeta. cbn [vdepq_next].
    apply wp_bind, (wp_node f (VdepqNode b f)); [done|]. apply wp_bind, (wp_PACKETBUFDEL b pb); [done..|].
    rewrite Z.eqb_refl. apply wp_bind, wp_ret, wp_bind, wp_free_node; [by eexists|]. apply wp_ret. split; [done|].
    apply Hfin; [done..|]. by intros.
  - rewrite last_cons_cons in Ht. assert (∃ l0, r :: rest' = l0 ++ [t]) as [l0 Hlast] by (by apply last_Some).
    rewrite Hlast in *. rewrite links_app in Hlr. destruct Hlr as [Hl0 (bt & Htn & _)]. simpl in Htn.
    assert (t ≠ f) as Htf by (intros ->; apply Hfr; set_solver).
    apply wp_bind, (wp_node t (VdepqNode bt f)); [done|]. cbv zeta. cbn [vdepq_next].
    apply wp_bind, (wp_node f (VdepqNode b r)); [by rewrite <- Hlast in Hf|]. apply wp_bind, (wp_PACKETBUFDEL b pb); [done..|].
    rewrite (proj2 (Z.eqb_neq _ _)) by done. apply wp_bind, wp_bind, (wp_node f (VdepqNode b r)); [by rewrite <- Hlast in Hf|].
    apply wp_bind, (wp_set_next t r (VdepqNode bt f)); [done|]. apply wp_ret. cbn [vdepq_pb vdepq_next].
    apply wp_bind, wp_free_node; [simpl; rewrite lookup_insert_ne by done; by eexists|]. apply wp_ret.
    split; [by rewrite last_snoc|]. replace (Some t) with (last (l0 ++ [t])) by (by rewrite last_snoc).
    apply (Hfin (<[t := VdepqNode bt r]> (nodes h))).
    + by eapply relinked_insert.
    + rewrite <- Hlast at 2. simpl. eapply links_set_last; [done|exact Htn|]. rewrite links_app. split; [done|]. by exists bt.
    + intros a Ha. apply lookup_insert_ne. intros ->. apply (Hdis a); [set_solver|done].
Qed.

(** ** Adding an element *)

(** The heap with a new node [a] for the buffer [b], whose counter was that of
    [pb]. *)
Definition added (h : pqheap) (a b : Z) (pb : packetbuf) (z : Z) (m : gmap Z vdepq_node) (brk' : Z) : pqheap :=
  PqHeap (<[a := VdepqNode b z]> m) (<[b := PacketBuf (pb_len pb) (pb_count pb + 1) (pb_data pb)]> (bufs h)) brk' (sends h).

(** [pb] is the buffer [b] of the heap, or a new one. *)
Definition known_buf (h : pqheap) (b : Z) (pb : packetbuf) : Prop :=
  bufs h !! b = Some pb ∨ bufs h !! b = None ∧ pb_count pb = 0.

Lemma known_buf_count h qs b pb : pq_inv h qs → known_buf h b pb → pb_count pb = Z.of_nat (size (refs (nodes h) b)).
Proof.
  intros I [Hb|[Hb ->]]; [by apply (pq_count _ _ I)|].
  assert (refs (nodes h) b = ∅) as ->; [|by rewrite map_size_empty].
  apply map_empty. intros a. unfold refs. apply map_lookup_filter_None. right. intros n Hn Hpb. simpl in Hpb.
  destruct (pq_pb _ _ I a n Hn) as [x Hx]. rewrite Hpb in Hx. congruence.
Qed.

Lemma added_packet h qs a b pb z m brk' x :
  pq_inv h qs → relinked (nodes h) m → known_buf h b pb → nodes h !! a = None →
  packet_at (added h a b pb z m brk') x = if decide (x = a) then pb_data pb else packet_at h x.
Proof.
  intros I Hm Hb Ha. unfold packet_at. cbn [nodes bufs added]. case_decide as Ex.
  { subst. rewrite lookup_insert_eq. simpl. by rewrite lookup_insert_eq. }
  rewrite lookup_insert_ne by done. specialize (Hm x).
  destruct (m !! x) as [n|], (nodes h !! x) as [n0|] eqn:E0; simpl in Hm; try done. injection Hm as Hm. simpl. rewrite Hm.
  destruct (decide (b = vdepq_pb n0)) as [Eb|]; [|by rewrite lookup_insert_ne].
  rewrite Eb, lookup_insert_eq. destruct (pq_pb _ _ I x n0 E0) as [px Hpx].
  destruct Hb as [Hb|[Hb _]]; rewrite Eb, Hpx in Hb; [|done]. injection Hb as <-. by rewrite Hpx.
Qed.

Lemma added_inv h q1 q2 t ns a b pb z m brk' :
  pq_inv h (q1 ++ (t, ns) :: q2) → relinked (nodes h) m → known_buf h b pb → pb_len pb = Z.of_nat (length (pb_data pb)) →
  nodes h !! a = None → a < brk' → b < brk' → brk h ≤ brk' → Z.of_nat (size (nodes h)) + 1 < 2 ^ 15 →
  links (<[a := VdepqNode b z]> m) (ns ++ [a]) (default 0 (head (ns ++ [a]))) →
  (∀ x, x ∈ mjoin (snd <$> (q1 ++ q2)) → m !! x = nodes h !! x) →
  pq_inv (added h a b pb z m brk') (q1 ++ (Some a, ns ++ [a]) :: q2).
Proof.
  intros I Hm Hb Hlen Ha Hab Hbb Hbrk Hsm Hl Hag. pose proof (known_buf_count _ _ _ _ I Hb) as Hcb.
  destruct I as [Iq Ind Idom Ipb Icnt [Ib1 Ib2] Ism].
  apply nodup_queues in Ind as (Hnd1 & Hnd2 & Hdis). simpl in Hnd1, Hdis.
  assert (m !! a = None) as Hma by (apply eq_None_not_Some; rewrite (relinked_dom _ _ _ Hm); rewrite Ha; by intros []).
  assert ((a ∉ ns) ∧ (a ∉ mjoin (snd <$> (q1 ++ q2)))) as [Han Hao].
  { apply not_elem_of_app. intros Hx. assert (is_Some (nodes h !! a)) as []; [|congruence]. apply Idom, elem_of_queues. set_solver. }
  split; cbn [nodes bufs brk added].
  - apply forall_queues in Iq as [_ Hq]. apply forall_queues. split; [split; [simpl; by rewrite last_snoc|done]|].
    eapply queues_agree, Hq. intros x Hx. rewrite lookup_insert_ne by (intros ->; done). by apply Hag.
  - apply nodup_queues. simpl. split_and!; [|done|].
    + apply NoDup_app. split_and!; [done|set_solver|apply NoDup_singleton].
    + intros x [Hx|Hx%list_elem_of_singleton]%elem_of_app; [by apply Hdis|by subst].
  - intros x. rewrite elem_of_queues. simpl. rewrite lookup_insert_is_Some, (relinked_dom _ _ _ Hm), Idom, elem_of_queues.
    simpl. rewrite elem_of_app, list_elem_of_singleton. destruct (decide (a = x)); naive_solver.
  - intros x n. destruct (decide (a = x)) as [->|Hne].
    + rewrite lookup_insert_eq. intros [= <-]. simpl. by rewrite lookup_insert_eq.
    + rewrite lookup_insert_ne by done. intros Hx. destruct (relinked_pb _ _ _ _ Hm Hx) as (n0 & Hx0 & <-).
      apply lookup_insert_is_Some. destruct (decide (b = vdepq_pb n0)); [by left|right; split; [done|by eapply Ipb]].
  - intros x px. rewrite refs_insert by done. simpl. rewrite (relinked_refs _ _ _ Hm). case_decide as Ex.
    + subst x. rewrite lookup_insert_eq. intros [= <-]. simpl. lia.
    + rewrite lookup_insert_ne by done. intros Hx. by apply Icnt.
  - split.
    + intros x [->|[_ Hx]]%lookup_insert_is_Some; [done|]. apply (relinked_dom _ _ _ Hm), Ib1 in Hx. lia.
    + intros x [->|[_ Hx]]%lookup_insert_is_Some; [done|]. apply Ib2 in Hx. lia.
  - rewrite map_size_insert_None by done. rewrite (relinked_size _ _ Hm). lia.
Qed.

(** Linking the new node, whose buffer is already set. *)
Lemma wp_link_new h q1 q2 t ns a b h0 :
  pq_inv h (q1 ++ (t, ns) :: q2) → nodes h !! a = None → nodes h0 = <[a := VdepqNode b 0]> (nodes h) →
  wp (link_new t a) (λ t' h', t' = Some a ∧ ∃ z m, relinked (nodes h) m ∧ h' = set_nodes (<[a := VdepqNode b z]> m) h0 ∧
    links (<[a := VdepqNode b z]> m) (ns ++ [a]) (default 0 (head (ns ++ [a]))) ∧
    (∀ x, x ∈ mjoin (snd <$> (q1 ++ q2)) → m !! x = nodes h !! x)) h0.
Proof.
  intros I Ha Hn0. pose proof (pq_queues _ _ I) as Iq. apply forall_queues in Iq as [[Ht Hl] _]. cbn [fst snd] in Ht, Hl.
  pose proof (pq_nodup _ _ I) as Hnd. apply nodup_queues in Hnd as (Hnd & _ & Hdis). cbn [snd] in Hnd, Hdis.
  assert (a ∉ ns) as Han by (intros Hx; destruct (links_lookup _ _ _ _ Hl Hx); congruence).
  destruct t as [t|]; simpl.
  - symmetry in Ht. apply last_Some in Ht as [l0 Hns]. assert (t ≠ a) as Hta by (intros ->; apply Han; rewrite Hns; set_solver).
    set (f := default 0 (head ns)) in *. assert (links (nodes h) (l0 ++ [t]) f) as Hl' by (by rewrite <- Hns).
    pose proof Hl' as Hl2. rewrite links_app in Hl2. destruct Hl2 as [_ (bt & Htn & _)]. simpl in Htn.
    apply wp_bind, (wp_node t (VdepqNode bt f)); [by rewrite Hn0, lookup_insert_ne|]. cbn [vdepq_next].
    apply wp_bind, (wp_set_next a f (VdepqNode b 0)); [by rewrite Hn0, lookup_insert_eq|].
    apply wp_bind, (wp_set_next t a (VdepqNode bt f)); [simpl; by rewrite Hn0, !lookup_insert_ne|]. apply wp_ret.
    split; [done|]. exists f, (<[t := VdepqNode bt a]> (nodes h)). cbn [vdepq_pb].
    assert (links (<[a := VdepqNode b f]> (<[t := VdepqNode bt a]> (nodes h))) (ns ++ [a]) f) as Hlk.
    { rewrite links_app. split; [|by exists b; rewrite lookup_insert_eq]. simpl. apply links_insert_ne; [done|]. rewrite Hns.
      eapply links_set_last; [by rewrite <- Hns|exact Htn|exact Hl']. }
    split_and!.
    + by eapply relinked_insert.
    + unfold set_nodes. simpl. f_equal. rewrite Hn0, insert_insert_eq. by apply insert_insert_ne.
    + assert (default 0 (head (ns ++ [a])) = f) as ->; [|exact Hlk]. unfold f. rewrite Hns. by destruct l0.
    + intros x Hx. apply lookup_insert_ne. intros ->. apply (Hdis x); [rewrite Hns; set_solver|done].
  - destruct ns; [|by rewrite last_cons in Ht; destruct (last ns)]. apply wp_bind, (wp_set_next a a (VdepqNode b 0)); [by rewrite Hn0, lookup_insert_eq|].
    apply wp_ret. split; [done|]. exists a, (nodes h). cbn [vdepq_pb]. split_and!; [done| | |done].
    + unfold set_nodes. simpl. by rewrite Hn0, insert_insert_eq.
    + simpl. exists b. by rewrite lookup_insert_eq.
Qed.

(** ** The queues as lists of packets *)

(** The other queues hold the same packets. *)
Definition others_kept (h h' : pqheap) (qs : list (option Z * list Z)) : Prop :=
  ∀ q, q ∈ qs → contents h' q.2 = contents h q.2.

Lemma in_queues (q : option Z * list Z) (qs : list (option Z * list Z)) a : q ∈ qs → a ∈ q.2 → a ∈ mjoin (snd <$> qs).
Proof. intros Hq Ha. apply list_elem_of_join. exists q.2. split; [done|]. by apply list_elem_of_fmap_2. Qed.

Lemma others_kept_intro h h' q1 q q2 :
  (∀ a, a ∈ mjoin (snd <$> (q1 ++ q :: q2)) → packet_at h' a = packet_at h a) →
  contents h' q.2 = contents h q.2 ∧ others_kept h h' (q1 ++ q2).
Proof.
  intros H. split; [apply contents_ext; intros a Ha; apply H, elem_of_queues; by left|].
  intros q' Hq'. apply contents_ext. intros a Ha. apply H, elem_of_queues. right. by eapply in_queues.
Qed.

Lemma pq_inv_brk h qs : pq_inv h qs → pq_inv (PqHeap (nodes h) (bufs h) (brk h + 1) (sends h)) qs.
Proof.
  intros [? ? ? ? ? [Hn Hb] ?]. split; try done. split; intros x Hx; [apply Hn in Hx|apply Hb in Hx]; simpl; lia.
Qed.

(** What [vdepq_add] of the packet [data] to the queue [ns] does: [ok] tells
    whether the allocations succeeded; [r] is its result, [*tail] and [*tmp]. *)
Definition add_post (h : pqheap) (q1 q2 : list (option Z * list Z)) (ns : list Z) (data : list Z) (ok : bool)
    (r : Z * option Z * option Z) (h' : pqheap) : Prop :=
  r.1.1 = (if ok then 1 else 0) ∧ sends h' = sends h ∧ others_kept h h' (q1 ++ q2) ∧
  ∃ ns', pq_inv h' (q1 ++ (r.1.2, ns') :: q2) ∧ contents h' ns' = contents h ns ++ (if ok then [data] else []) ∧
    (ok = true → ∃ b pb, r.2 = Some b ∧ bufs h' !! b = Some pb ∧ pb_data pb = data).

(** The last part, once there is a buffer: [h0] is the heap with the new node
    and the buffer. *)
Lemma wp_add_known h q1 q2 tail ns b pb h0 :
  pq_inv h (q1 ++ (tail, ns) :: q2) → Z.of_nat (size (nodes h)) + 1 < 2 ^ 15 →
  known_buf h b pb → pb_len pb = Z.of_nat (length (pb_data pb)) → b < brk h0 → brk h < brk h0 → sends h0 = sends h →
  nodes h0 = <[brk h := VdepqNode 0 0]> (nodes h) → bufs h0 = <[b := pb]> (bufs h) →
  wp (n ← node (brk h); node_put (brk h) (VdepqNode b (vdepq_next n)) ;; pb ← buf b;
      buf_put b (PacketBuf (pb_len pb) (i16 (pb_count pb + 1)) (pb_data pb)) ;;
      tail' ← link_new tail (brk h); mret (1, tail', Some b))
    (λ r h', add_post h q1 q2 ns (pb_data pb) true r h') h0.
Proof.
  intros I Hsm Hkb Hpl Hbb Hbrk Hsd Hn0 Hb0. set (a := brk h) in *.
  assert (nodes h !! a = None) as Ha by (apply eq_None_not_Some; intros Hx%(pq_brk _ _ I); unfold a in Hx; lia).
  pose proof (known_buf_count _ _ _ _ I Hkb) as Hcnt. pose proof (refs_le (nodes h) b) as Hle.
  apply wp_bind, (wp_node a (VdepqNode 0 0)); [rewrite Hn0; apply lookup_insert_eq|]. apply wp_bind, wp_modify.
  apply wp_bind, (wp_buf b pb); [simpl; rewrite Hb0; apply lookup_insert_eq|]. rewrite i16_small by lia. apply wp_bind, wp_modify, wp_bind.
  eapply wp_mono; [apply (wp_link_new h q1 q2 tail ns a b); [done|done|]|].
  { simpl. rewrite Hn0. simpl. by rewrite insert_insert_eq. }
  intros t' h' (-> & z & m & Hm & -> & Hl & Hag). apply wp_ret.
  match goal with |- add_post _ _ _ _ _ _ _ ?st => assert (st = added h a b pb z m (brk h0)) as -> end.
  { unfold set_nodes, set_bufs, added. simpl. by rewrite Hb0, Hsd, insert_insert_eq. }
  assert (∀ x, x ∈ mjoin (snd <$> (q1 ++ (tail, ns) :: q2)) → packet_at (added h a b pb z m (brk h0)) x = packet_at h x) as Hpk.
  { intros x Hx. rewrite (added_packet h _ a b pb z m (brk h0) x I Hm Hkb Ha). rewrite decide_False; [done|].
    intros ->. apply (pq_dom _ _ I) in Hx. rewrite Ha in Hx. by destruct Hx. }
  destruct (others_kept_intro _ _ _ _ _ Hpk) as [Hc Ho]. split_and!; [done|done|done|]. exists (ns ++ [a]).
  split_and!; [apply (added_inv h q1 q2 tail ns); try done; unfold a in *; lia| |].
  - unfold contents in *. cbn [snd] in Hc. rewrite fmap_app, Hc. simpl. f_equal.
    by rewrite (added_packet h _ a b pb z m (brk h0) a I Hm Hkb Ha), decide_True by done.
  - intros _. exists b. eexists. split_and!; [done|apply lookup_insert_eq|done].
Qed.

(** Adding to a queue: on a heap that consists of well-formed queues,
    [vdepq_add] appends the packet to this queue and leaves the packets of all
    the others as they are, and the heap stays well-formed; the packet copied
    by an earlier call is shared, not copied again.  When an allocation fails it
    returns 0 and the queues hold what they held. *)
Theorem vdepq_add_appends (h : pqheap) (q1 q2 : list (option Z * list Z)) (tail : option Z) (ns : list Z)
    (packet : list Z) (len : Z) (tmp : option Z) (node_ok buf_ok : bool)
    (I : pq_inv h (q1 ++ (tail, ns) :: q2)) (Hlen : 0 ≤ len < 2 ^ 15) (Hp : len ≤ Z.of_nat (length packet))
    (Hsm : Z.of_nat (size (nodes h)) + 1 < 2 ^ 15)
    (Htmp : ∀ b, tmp = Some b → ∃ pb, bufs h !! b = Some pb ∧ pb_data pb = take (Z.to_nat len) packet) :
  ∃ r h', vdepq_add tail packet len tmp node_ok buf_ok h = Done r h' ∧
    add_post h q1 q2 ns (take (Z.to_nat len) packet) (node_ok && (bool_decide (is_Some tmp) || buf_ok)) r h'.
Proof.
  apply wp_done_intro. unfold vdepq_add. destruct node_ok; cbn [negb andb].
  2: { apply wp_ret. split_and!; [done..|]. exists ns. by rewrite app_nil_r. }
  assert (∀ b, is_Some (bufs h !! b) → b < brk h) as Hbb by apply (pq_brk _ _ I).
  apply wp_bind. unfold wp at 1, malloc_node. apply wp_bind. destruct tmp as [b|].
  - apply wp_ret. destruct (Htmp b eq_refl) as (pb & Hb & <-). rewrite bool_decide_eq_true_2 by done. cbn [orb].
    pose proof (Hbb b ltac:(by eexists)). apply wp_add_known; try done; simpl; try lia.
    + by left.
    + apply (pq_count _ _ I b pb Hb).
    + by rewrite insert_id.
  - destruct buf_ok; cbn [negb orb bool_decide].
    + apply wp_bind. unfold wp at 1, malloc_buf. apply wp_bind, wp_modify, wp_ret. cbn [brk bufs set_bufs].
      rewrite orb_true_r. apply (wp_add_known h q1 q2 tail ns (brk h + 1) (PacketBuf (i16 len) 0 (take (Z.to_nat len) packet)));
        try done; simpl; try lia.
      * right. split; [|done]. apply eq_None_not_Some. intros Hx%Hbb. lia.
      * rewrite i16_small, length_take by lia. lia.
      * by rewrite insert_insert_eq.
    + apply wp_ret, wp_bind, wp_free_node; [simpl; rewrite lookup_insert_eq; by eexists|]. apply wp_ret.
      assert (nodes h !! brk h = None) as Ha by (apply eq_None_not_Some; intros Hx%(pq_brk _ _ I); lia).
      unfold set_nodes. cbn [nodes bufs brk sends]. rewrite delete_insert_id by done.
      split_and!; [done..|]. exists ns. rewrite app_nil_r. split_and!; [by apply pq_inv_brk|done|done].
Qed.

(** The number of packets at the head of a queue that [sendfun] takes. *)
Fixpoint fifo_sent (sendfun : nat → list Z → Z) (k : nat) (l : list (list Z)) : nat :=
  match l with
  | [] => O
  | p :: l' => if sendfun k p =? - EWOULDBLOCK then O else S (fifo_sent sendfun (S k) l')
  end.

Lemma pq_inv_sends h qs x : pq_inv h qs → pq_inv (PqHeap (nodes h) (bufs h) (brk h) x) qs.
Proof. by intros []. Qed.

Lemma wp_vdepq_try_heap sendfun fuel : ∀ h q1 q2 tail ns sent,
  pq_inv h (q1 ++ (tail, ns) :: q2) → (length ns ≤ fuel)%nat →
  wp (vdepq_try sendfun fuel tail sent) (λ r h', let n := fifo_sent sendfun (length (sends h)) (contents h ns) in
    r.2 = sent + Z.of_nat n ∧ sends h' = sends h ++ take (S n) (contents h ns) ∧ others_kept h h' (q1 ++ q2) ∧
    pq_inv h' (q1 ++ (r.1, drop n ns) :: q2) ∧ contents h' (drop n ns) = drop n (contents h ns)) h.
Proof.
  induction fuel as [|fuel IH]; intros h q1 q2 tail ns sent I Hf; pose proof (pq_queues _ _ I) as Iq;
    apply forall_queues in Iq as [[Ht Hl] _]; cbn [fst snd] in Ht, Hl; destruct ns as [|f rest]; simpl in Hf.
  1, 3: subst tail; apply wp_ret; simpl; rewrite app_nil_r, Z.add_0_r; by split_and!.
  { lia. }
  destruct tail as [t|]; [|symmetry in Ht; by apply last_None in Ht].
  (* the first node and its buffer *)
  simpl in Hl. pose proof Hl as (b & Hfn & Hlr). destruct (pq_ref h _ f _ I Hfn) as (pb & Hb & _). cbn [vdepq_pb] in Hb.
  assert (∃ bt, nodes h !! t = Some (VdepqNode bt f)) as [bt Htn].
  { assert (∃ l0, f :: rest = l0 ++ [t]) as [l0 Hl0] by (by apply last_Some).
    assert (links (nodes h) (f :: rest) f) as Hlk by done. rewrite Hl0, links_app in Hlk. destruct Hlk as [_ (bt & Hbt & _)]. by exists bt. }
  assert (packet_at h f = pb_data pb) as Hpf by (unfold packet_at; rewrite Hfn; simpl; by rewrite Hb).
  assert (pb_len pb = Z.of_nat (length (pb_data pb))) as Hlen by apply (pq_count _ _ I b pb Hb).
  cbn [vdepq_try]. apply wp_bind, (wp_node t (VdepqNode bt f)); [done|]. cbn [vdepq_next].
  apply wp_bind, (wp_node f (VdepqNode b (default f (head rest)))); [done|]. apply wp_bind, (wp_buf b pb); [done|].
  apply wp_bind. unfold wp at 1. cbv zeta. rewrite Hlen, Nat2Z.id, firstn_all, <- Hpf.
  change (contents h (f :: rest)) with (packet_at h f :: contents h rest). cbn [fifo_sent].
  apply wp_bind, wp_modify. destruct (sendfun _ _ =? _).
  { apply wp_ret. cbn [fst snd drop take sends]. rewrite Z.add_0_r, take_0.
    split_and!; [done|done|done|by apply pq_inv_sends|done]. }
  set (h1 := PqHeap _ _ _ _). assert (pq_inv h1 (q1 ++ (Some t, f :: rest) :: q2)) as I1 by (by apply pq_inv_sends).
  apply wp_bind. eapply wp_mono; [by apply (wp_drop_first h1 q1 q2 t f rest)|]. intros t' h2 (-> & I2 & S2 & P2).
  destruct (others_kept_intro _ _ _ _ _ P2) as [C2 O2]. cbn [snd] in C2.
  eapply wp_mono; [apply (IH h2 q1 q2 _ rest (sent + 1) I2); lia|]. intros r h3 (R3 & S3 & O3 & I3 & C3).
  assert (length (sends h2) = S (length (sends h))) as Hls by (rewrite S2; simpl; rewrite length_app; simpl; lia).
  change (contents h1 rest) with (contents h rest) in C2. rewrite Hls, C2 in *. cbv zeta. cbn [drop take].
  split_and!; [lia| |intros q Hq; rewrite (O3 q Hq); apply (O2 q Hq)|done|done].
  rewrite S3, S2. simpl. by rewrite <- app_assoc.
Qed.

(** C38: Draining a queue is FIFO: [vdepq_try] sends the packets from the oldest on
    until the sender would block, each once and in order; the refused one and
    those after it stay, the number of packets sent is returned, and the other
    queues are untouched. *)
Theorem vdepq_try_sends_fifo (sendfun : nat → list Z → Z) (h : pqheap) (q1 q2 : list (option Z * list Z))
    (tail : option Z) (ns : list Z) (I : pq_inv h (q1 ++ (tail, ns) :: q2)) :
  let n := fifo_sent sendfun (length (sends h)) (contents h ns) in
  ∃ tail' h', vdepq_try sendfun (length ns) tail 0 h = Done (tail', Z.of_nat n) h' ∧
    sends h' = sends h ++ take (S n) (contents h ns) ∧ others_kept h h' (q1 ++ q2) ∧
    ∃ ns', pq_inv h' (q1 ++ (tail', ns') :: q2) ∧ contents h' ns' = drop n (contents h ns).
Proof.
  intros n. destruct (wp_done_intro _ _ _ (wp_vdepq_try_heap sendfun (length ns) h q1 q2 tail ns 0 I (le_n _)))
    as ([t' k] & h' & Hr & Hk & Hs & Ho & I' & Hc). cbn [fst snd] in *. exists t', h'. rewrite Hr, Hk.
  split_and!; [done|done|done|]. by exists (drop n ns).
Qed.

Lemma wp_vdepq_del fuel : ∀ h q1 q2 tail ns,
  pq_inv h (q1 ++ (tail, ns) :: q2) → (length ns ≤ fuel)%nat →
  wp (vdepq_del fuel tail) (λ t' h', t' = None ∧ pq_inv h' (q1 ++ (None, []) :: q2) ∧ sends h' = sends h ∧
    others_kept h h' (q1 ++ q2)) h.
Proof.
  induction fuel as [|fuel IH]; intros h q1 q2 tail ns I Hf; pose proof (pq_queues _ _ I) as Iq;
    apply forall_queues in Iq as [[Ht _] _]; cbn [fst snd] in Ht; destruct ns as [|f rest]; simpl in Hf.
  1, 3: subst tail; by apply wp_ret.
  { lia. }
  destruct tail as [t|]; [|symmetry in Ht; by apply last_None in Ht].
  apply wp_bind. eapply wp_mono; [by apply (wp_drop_first h q1 q2 t f rest)|]. intros t' h2 (-> & I2 & S2 & P2).
  destruct (others_kept_intro _ _ _ _ _ P2) as [_ O2].
  eapply wp_mono; [apply (IH h2 q1 q2 _ rest I2); lia|]. intros t3 h3 (R3 & I3 & S3 & O3).
  split_and!; [done|done|congruence|]. intros q Hq. rewrite (O3 q Hq). apply (O2 q Hq).
Qed.

(** Closing an endpoint: [vdepq_del] empties its queue without sending, leaves
    the packets of the other queues alone, and nothing leaks: when the other
    queues are empty, no node and no buffer is left allocated. *)
Theorem vdepq_del_frees (h : pqheap) (q1 q2 : list (option Z * list Z)) (tail : option Z) (ns : list Z)
    (I : pq_inv h (q1 ++ (tail, ns) :: q2)) :
  ∃ h', vdepq_del (length ns) tail h = Done None h' ∧ pq_inv h' (q1 ++ (None, []) :: q2) ∧
    others_kept h h' (q1 ++ q2) ∧ sends h' = sends h ∧
    ((∀ q, q ∈ q1 ++ q2 → q.2 = []) → nodes h' = ∅ ∧ bufs h' = ∅).
Proof.
  destruct (wp_done_intro _ _ _ (wp_vdepq_del (length ns) h q1 q2 tail ns I (le_n _))) as (t' & h' & Hr & -> & I' & Hs & Ho).
  exists h'. split_and!; [done..|]. intros Hempty.
  assert (nodes h' = ∅) as Hn.
  { apply map_empty. intros a. apply eq_None_not_Some. intros Ha%(pq_dom _ _ I'). apply elem_of_queues in Ha as [Ha|Ha].
    - by apply elem_of_nil in Ha.
    - apply list_elem_of_join in Ha as (l & Ha & (q & -> & Hq)%list_elem_of_fmap). rewrite (Hempty q Hq) in Ha. by apply elem_of_nil in Ha. }
  split; [done|]. apply map_empty. intros b. apply eq_None_not_Some. intros [pb Hb].
  destruct (pq_count _ _ I' b pb Hb) as (Hc & Hp & _). rewrite Hn in Hc. unfold refs in Hc.
  rewrite map_filter_empty, map_size_empty in Hc. lia.
Qed.

(** ** A concrete heap *)

(** One queue with one packet and one empty queue. *)
Definition pq_demo : pqheap := PqHeap {[1 := VdepqNode 2 1]} {[2 := PacketBuf 2 1 [7; 8]]} 3 [].

Lemma pq_demo_inv : pq_inv pq_demo [(Some 1, [1]); (None, [])].
Proof.
  split; cbn [nodes bufs brk pq_demo].
  - repeat constructor. simpl. exists 2. by rewrite lookup_singleton_eq.
  - apply (NoDup_singleton 1).
  - intros a. rewrite lookup_singleton_is_Some. simpl. set_solver.
  - intros a n [<- <-]%lookup_singleton_Some. simpl. by rewrite lookup_singleton_eq.
  - intros b pb [<- <-]%lookup_singleton_Some. by vm_compute.
  - split; intros a; rewrite lookup_singleton_is_Some; lia.
  - by vm_compute.
Qed.

Lemma vdepq_add_appends_witness :
  ∃ r h', vdepq_add None [5; 6; 7] 3 None true true pq_demo = Done r h' ∧
    add_post pq_demo [(Some 1, [1])] [] [] [5; 6; 7] true r h'.
Proof.
  apply (vdepq_add_appends pq_demo [(Some 1, [1])] [] None [] [5; 6; 7] 3 None true true);
    [exact pq_demo_inv|lia|simpl; lia|vm_compute; congruence|done].
Defined.

Lemma vdepq_try_sends_fifo_witness :
  ∃ tail' h', vdepq_try (λ _ _, 0) 1 (Some 1) 0 pq_demo = Done (tail', 1) h' ∧
    sends h' = [[7; 8]] ∧ others_kept pq_demo h' [(None, [])] ∧
    ∃ ns', pq_inv h' [(tail', ns'); (None, [])] ∧ contents h' ns' = [].
Proof. exact (vdepq_try_sends_fifo (λ _ _, 0) pq_demo [] [(None, [])] (Some 1) [1] pq_demo_inv). Defined.

Lemma vdepq_del_frees_witness :
  ∃ h', vdepq_del 1 (Some 1) pq_demo = Done None h' ∧ pq_inv h' [(None, []); (None, [])] ∧
    others_kept pq_demo h' [(None, [])] ∧ sends h' = [] ∧
    ((∀ q, q ∈ [(None, []) : option Z * list Z] → q.2 = []) → nodes h' = ∅ ∧ bufs h' = ∅).
Proof. exact (vdepq_del_frees pq_demo [] [(None, [])] (Some 1) [1] pq_demo_inv). Defined.
