(* ===== verification/MainLoop.v ===== *)
(** * MainLoop: modules, descriptor types and the poll loop of [vde_switch.c]

    The list of modules, the table of descriptor types, the poll array with the
    priority descriptors first and the permutation that finds a descriptor in
    it, and one pass of [main_loop] with the migration of busy descriptors
    ([OPTPOLL]).  The [pollplus] records live in a heap, because [remove_fd]
    leaves two cells of [fdpp] pointing to the same record. *)
From Stdlib Require Import Lia.
From stdpp Require Import base numbers list gmap.
From S2P Require Import Prelude.

(** ** Modules *)

(** A module by its address; [swmtag] as assigned by [add_swm], a [char]. *)
Record swmodule := SwModule { swm_addr : Z; swmtag : Z }.

Definition i8 (z : Z) : Z := (z + 2 ^ 7) mod 2 ^ 8 - 2 ^ 7.
#[global] Arguments i8 : simpl never.

Fixpoint recaddswm (p : list swmodule) (new : swmodule) : list swmodule :=
  match p with
  | [] => [new]
  | this :: next => this :: recaddswm next new
  end.

(** The list and the static counter [lastlwmtag]. *)
Definition add_swm (swmh : list swmodule) (lastlwmtag addr : Z) : list swmodule * Z :=
  let lastlwmtag := lastlwmtag + 1 in
  let new := SwModule addr (i8 lastlwmtag) in
  (if negb (swmtag new =? 0) then recaddswm swmh new else swmh, lastlwmtag).

Fixpoint recdelswm (p : list swmodule) (old : Z) : list swmodule :=
  match p with
  | [] => []
  | this :: next => if swm_addr this =? old then next else this :: recdelswm next old
  end.
Definition del_swm (swmh : list swmodule) (old : Z) : list swmodule := recdelswm swmh old.

(** ** Descriptor types *)

Definition PRIOFLAG : Z := 0x80.
Definition TYPEMASK : Z := 0x7f.
Definition ISPRIO (type : Z) : bool := negb (Z.land type PRIOFLAG =? 0).

(** [fdtypes] has [maxtypes] cells, NULL or the address of a module. *)
Record typetab := TypeTab { fdtypes : list (option Z); ntypes : Z; maxtypes : Z }.

(** [for(i=0; fdtypes[i] != NULL; i++)]: [None] when it runs off the array. *)
Fixpoint first_null (l : list (option Z)) (i : Z) : option Z :=
  match l with
  | [] => None
  | None :: _ => Some i
  | Some _ :: l' => first_null l' (i + 1)
  end.

(** The cells of 8 bytes that [memset(fdtypes+ntypes,0,8*maxtypes-ntypes)]
    writes, in bytes from the start of the array. *)
Definition memset_end (ntypes maxtypes : Z) : Z := 8 * ntypes + (8 * maxtypes - ntypes).

Definition add_type (mgr : Z) (prio : Z) : M typetab Z := λ t,
  let finish (fdtypes : list (option Z)) (maxtypes i : Z) : outcome typetab Z :=
    match zset fdtypes i (Some mgr) with
    | Some l => Done (u8 (Z.lor i (if negb (prio =? 0) then PRIOFLAG else 0))) (TypeTab l (ntypes t + 1) maxtypes)
    | None => Fault
    end in
  if ntypes t =? maxtypes t then
    let maxtypes' := if negb (maxtypes t =? 0) then 2 * maxtypes t else 8 in
    if PRIOFLAG <? maxtypes' then Exited 1
    else if 8 * maxtypes' <? memset_end (ntypes t) maxtypes' then Fault
    else finish (fdtypes t ++ replicate (Z.to_nat (maxtypes' - maxtypes t)) None) maxtypes' (ntypes t)
  else
    match first_null (fdtypes t) 0 with
    | Some i => finish (fdtypes t) (maxtypes t) i
    | None => Fault
    end.

Definition del_type (type : Z) : M typetab () := λ t,
  let type := Z.land type TYPEMASK in
  match (if type <? maxtypes t then zset (fdtypes t) type None else Some (fdtypes t)) with
  | Some l => Done () (TypeTab l (ntypes t - 1) (maxtypes t))
  | None => Fault
  end.

(** The manager of a type: [None] for a NULL cell or an access past the table,
    where [TYPE2MGR(type)->cleanup] faults. *)
Definition TYPE2MGR (t : typetab) (type : Z) : option Z := mjoin (zget (fdtypes t) (Z.land type TYPEMASK)).

(** ** The poll array *)

Record pollfd := PollFd { pfd : Z; events : Z; revents : Z }.
Record pollplus := PollPlus { ptype : Z; private_data : Z; timestamp : Z }.

(** [fds] and [fdpp] have [maxfds] cells, [None] until they are written; the
    cells of [fdpp] are addresses of [plus]; [fdperm] has [fdpermsize] cells. *)
Record loopst := LoopSt {
  nfds : Z;
  nprio : Z;
  fds : list (option pollfd);
  fdpp : list (option Z);
  fdperm : list (option Z);
  maxfds : Z;
  fdpermsize : Z;
  plus : gmap Z pollplus;
  brk : Z;
  cleaned : list (Z * Z * Z)
}.

Definition MAXFDS_INITIAL : Z := 8.
Definition MAXFDS_STEP : Z := 16.
Definition FDPERMSIZE_LOGSTEP : Z := 4.
Definition POLLIN : Z := 1.
Definition POLLHUP : Z := 16.

Definition upd_fds (x : list (option pollfd)) (s : loopst) : loopst :=
  LoopSt (nfds s) (nprio s) x (fdpp s) (fdperm s) (maxfds s) (fdpermsize s) (plus s) (brk s) (cleaned s).
Definition upd_fdpp (x : list (option Z)) (s : loopst) : loopst :=
  LoopSt (nfds s) (nprio s) (fds s) x (fdperm s) (maxfds s) (fdpermsize s) (plus s) (brk s) (cleaned s).
Definition upd_fdperm (x : list (option Z)) (s : loopst) : loopst :=
  LoopSt (nfds s) (nprio s) (fds s) (fdpp s) x (maxfds s) (fdpermsize s) (plus s) (brk s) (cleaned s).
Definition upd_plus (x : gmap Z pollplus) (s : loopst) : loopst :=
  LoopSt (nfds s) (nprio s) (fds s) (fdpp s) (fdperm s) (maxfds s) (fdpermsize s) x (brk s) (cleaned s).
Definition upd_nprio (x : Z) (s : loopst) : loopst :=
  LoopSt (nfds s) x (fds s) (fdpp s) (fdperm s) (maxfds s) (fdpermsize s) (plus s) (brk s) (cleaned s).
Definition upd_nfds (x : Z) (s : loopst) : loopst :=
  LoopSt x (nprio s) (fds s) (fdpp s) (fdperm s) (maxfds s) (fdpermsize s) (plus s) (brk s) (cleaned s).

(** Array cells: out of range is a fault; [cell] also faults on a cell that was
    never written. *)
Definition fds_set (i : Z) (x : option pollfd) : M loopst () := s ← get; l ← deref (zset (fds s) i x); modify (upd_fds l).
Definition fdpp_set (i : Z) (x : option Z) : M loopst () := s ← get; l ← deref (zset (fdpp s) i x); modify (upd_fdpp l).
Definition fdperm_set (i : Z) (x : Z) : M loopst () := s ← get; l ← deref (zset (fdperm s) i (Some x)); modify (upd_fdperm l).
Definition fds_cell (i : Z) : M loopst (option pollfd) := s ← get; deref (zget (fds s) i).
Definition fdpp_cell (i : Z) : M loopst (option Z) := s ← get; deref (zget (fdpp s) i).
Definition fds_get (i : Z) : M loopst pollfd := o ← fds_cell i; deref o.
Definition fdpp_get (i : Z) : M loopst Z := o ← fdpp_cell i; deref o.
Definition fdperm_get (i : Z) : M loopst Z := s ← get; o ← deref (zget (fdperm s) i); deref o.
Definition plus_get (a : Z) : M loopst pollplus := s ← get; deref (plus s !! a).
Definition plus_put (a : Z) (p : pollplus) : M loopst () := modify (λ s, upd_plus (<[a := p]> (plus s)) s).

Definition i16s (z : Z) : Z := (z + 2 ^ 15) mod 2 ^ 16 - 2 ^ 15.

(** Growing the arrays of [add_fd] ([revents] is not assigned there: it is what
    the cell held, 0 in a fresh one, and [poll] rewrites it before it is read); a failing [realloc] exits the program. *)
Definition grow_fds : M loopst () :=
  s ← get;
  whenM (nfds s =? maxfds s) (
    let m := if negb (maxfds s =? 0) then maxfds s + MAXFDS_STEP else MAXFDS_INITIAL in
    let pad := Z.to_nat (m - maxfds s) in
    modify (λ s, LoopSt (nfds s) (nprio s) (fds s ++ replicate pad None) (fdpp s ++ replicate pad None) (fdperm s) m
                   (fdpermsize s) (plus s) (brk s) (cleaned s))).
Definition grow_fdperm (fd : Z) : M loopst () :=
  s ← get;
  whenM (fdpermsize s <=? fd) (
    let m := Z.shiftl (Z.shiftr fd FDPERMSIZE_LOGSTEP + 1) FDPERMSIZE_LOGSTEP in
    modify (λ s, LoopSt (nfds s) (nprio s) (fds s) (fdpp s) (fdperm s ++ replicate (Z.to_nat (m - fdpermsize s)) None)
                   (maxfds s) m (plus s) (brk s) (cleaned s))).

(** The rest of [add_fd]: the place of the descriptor and its record. *)
Definition store_fd (fd type data : Z) : M loopst () :=
  s ← get;
  index ← (if ISPRIO type then
             f ← fds_cell (nprio s); fds_set (nfds s) f ;;
             p ← fdpp_cell (nprio s); fdpp_set (nfds s) p ;;
             modify (upd_nprio (nprio s + 1)) ;;
             mret (nprio s)
           else mret (nfds s));
  s ← get;
  modify (λ s, LoopSt (nfds s) (nprio s) (fds s) (fdpp s) (fdperm s) (maxfds s) (fdpermsize s) (plus s) (brk s + 1) (cleaned s)) ;;
  fdpp_set index (Some (brk s)) ;;
  fdperm_set fd (i16s index) ;;
  o ← fds_cell index;
  fds_set index (Some (PollFd fd (Z.lor POLLIN POLLHUP) (default 0 (revents <$> o)))) ;;
  plus_put (brk s) (PollPlus type data 0) ;;
  modify (λ s, upd_nfds (nfds s + 1) s).

Definition add_fd (fd type data : Z) : M loopst () :=
  grow_fds ;;
  grow_fdperm fd ;;
  store_fd fd type data.

(** [memmove(&a[i],&a[i+1],n)] on [n] cells. *)
Definition move_down {A} (l : list (option A)) (i n : Z) : list (option A) :=
  take (Z.to_nat i) l ++ take (Z.to_nat n) (drop (Z.to_nat (i + 1)) l) ++ drop (Z.to_nat (i + n)) l.

Fixpoint find_fd (l : list Z) (fd : Z) : M loopst (option Z) :=
  match l with
  | [] => mret None
  | i :: l' => f ← fds_get i; if pfd f =? fd then mret (Some i) else find_fd l' fd
  end.

(** The removal of the descriptor found at [i] among [n].  [cleaned] records the
    calls of the managers' [cleanup] by their arguments; the table of the types
    is another part of the state ([typetab]), and [cleanup_calls] looks up the
    manager each recorded call goes to ([TYPE2MGR]). *)
Definition remove_at (i n : Z) : M loopst () :=
  old ← fdpp_get i;
  p ← plus_get old;
  f ← fds_get i;
  modify (λ s, LoopSt (nfds s) (nprio s) (fds s) (fdpp s) (fdperm s) (maxfds s) (fdpermsize s) (plus s) (brk s)
                 (cleaned s ++ [(ptype p, pfd f, private_data p)])) ;;
  whenM (ISPRIO (ptype p)) (modify (λ s, upd_nprio (nprio s - 1) s)) ;;
  modify (λ s, upd_fds (move_down (fds s) i (n - i - 1)) s) ;;
  modify (λ s, upd_fdpp (move_down (fdpp s) i (n - i - 1)) s) ;;
  forM (seqZ i (n - i)) (λ j, f ← fds_get j; fdperm_set (pfd f) (i16s j)) ;;
  modify (λ s, upd_plus (delete old (plus s)) s) ;;
  modify (λ s, upd_nfds (nfds s - 1) s).

Definition remove_fd (fd : Z) : M loopst () :=
  s ← get;
  o ← find_fd (seqZ 0 (nfds s)) fd;
  match o with
  | None => mret ()
  | Some i => remove_at i (nfds s)
  end.

(** The managers the recorded calls of [cleanup] go to: [None] when one of the
    types has none, which the source dereferences. *)
Definition cleanup_calls (t : typetab) (calls : list (Z * Z * Z)) : option (list (Z * (Z * Z * Z))) :=
  mapM (λ call, mgr ← TYPE2MGR t call.1.1; Some (mgr, call)) calls.

Definition mainloop_get_private_data (fd : Z) : M loopst (option Z) :=
  s ← get;
  if (0 <=? fd) && (fd <? fdpermsize s) then
    i ← fdperm_get fd; a ← fdpp_get i; p ← plus_get a; mret (Some (private_data p))
  else mret None.

Definition mainloop_set_private_data (fd data : Z) : M loopst () :=
  s ← get;
  if (0 <=? fd) && (fd <? fdpermsize s) then
    i ← fdperm_get fd; a ← fdpp_get i; p ← plus_get a; plus_put a (PollPlus (ptype p) data (timestamp p))
  else mret ().

(** The poll masks; [f] is the new mask from the old one. *)
Definition upd_mask (fd : Z) (f : Z → Z) : M loopst () :=
  i ← fdperm_get fd; p ← fds_get i; fds_set i (Some (PollFd (pfd p) (f (events p)) (revents p))).
Definition mainloop_pollmask_get (fd : Z) : M loopst Z := i ← fdperm_get fd; p ← fds_get i; mret (events p).
Definition mainloop_pollmask_add (fd ev : Z) : M loopst () := upd_mask fd (λ e, Z.lor e ev).
Definition mainloop_pollmask_del (fd ev : Z) : M loopst () := upd_mask fd (λ e, Z.land e (Z.lnot ev)).
Definition mainloop_pollmask_set (fd ev : Z) : M loopst () := upd_mask fd (λ _, ev).

(** ** One pass of the loop *)

(** The exchange of cells [i] and [i-1]. *)
Definition swap_down (i : Z) : M loopst () :=
  f ← fds_cell i; f1 ← fds_cell (i - 1); fds_set i f1 ;; fds_set (i - 1) f ;;
  p ← fdpp_cell i; p1 ← fdpp_cell (i - 1); fdpp_set i p1 ;; fdpp_set (i - 1) p ;;
  f ← fds_get i; fdperm_set (pfd f) (i16s i) ;;
  f ← fds_get (i - 1); fdperm_set (pfd f) (i16s (i - 1)).

(** The migration of a descriptor that was not ready. *)
Definition migrate (i : Z) : M loopst () :=
  s ← get;
  whenM ((i <? nfds s) && (0 <? i) && negb (i =? nprio s)) (
    a ← fdpp_get i; b ← fdpp_get (i - 1);
    p ← plus_get a; q ← plus_get b;
    whenM (timestamp q <? timestamp p) (swap_down i)).

(** The [for] loop over the array after [poll] reported [n] ready descriptors.
    [handle type fd revents data] is the manager's [handle_io]; the loop stops
    when it changed the number of descriptors.  The result is the list of the
    calls made. *)
Definition call : Type := Z * Z * Z * Z.
Fixpoint scan_fds (handle : Z → Z → Z → Z → M loopst ()) (now : Z) (fuel : nat) (i n : Z) : M loopst (list call) :=
  if n <=? 0 then mret [] else
  match fuel with
  | O => fault
  | S fuel =>
    f ← fds_get i;
    if negb (revents f =? 0) then
      s ← get;
      a ← fdpp_get i;
      p ← plus_get a;
      plus_put a (PollPlus (ptype p) (private_data p) now) ;;
      handle (ptype p) (pfd f) (revents f) (private_data p) ;;
      s' ← get;
      let c : call := (ptype p, pfd f, revents f, private_data p) in
      if negb (nfds s' =? nfds s) then mret [c]
      else tr ← scan_fds handle now fuel (i + 1) (n - 1); mret (c :: tr)
    else migrate i ;; scan_fds handle now fuel (i + 1) n
  end.

(** ** The poll array as two lists of descriptors

    [rep s l1 l2]: the array holds the priority descriptors [l1] and then the
    others [l2]; every one has its own record. *)

Record ent := Ent { ent_fd : pollfd; ent_at : Z; ent_plus : pollplus }.
#[global] Instance ent_inhabited : Inhabited ent := populate (Ent (PollFd 0 0 0) 0 (PollPlus 0 0 0)).
Definition efd (e : ent) : Z := pfd (ent_fd e).
Definition eprio (e : ent) : bool := ISPRIO (ptype (ent_plus e)).

Definition placed (s : loopst) (e : ent) : Prop :=
  plus s !! ent_at e = Some (ent_plus e) ∧ 0 ≤ efd e < fdpermsize s ∧ ent_at e < brk s.

Record rep (s : loopst) (l1 l2 : list ent) : Prop := Rep {
  rep_fds : ∃ jf, fds s = (Some ∘ ent_fd <$> l1 ++ l2) ++ jf;
  rep_fdpp : ∃ jp, fdpp s = (Some ∘ ent_at <$> l1 ++ l2) ++ jp;
  rep_len : Z.of_nat (length (fds s)) = maxfds s ∧ Z.of_nat (length (fdpp s)) = maxfds s
    ∧ Z.of_nat (length (fdperm s)) = fdpermsize s;
  rep_nfds : nfds s = Z.of_nat (length (l1 ++ l2));
  rep_nprio : nprio s = Z.of_nat (length l1);
  rep_placed : Forall (placed s) (l1 ++ l2);
  rep_nodup : NoDup (efd <$> l1 ++ l2);
  rep_sep : NoDup (ent_at <$> l1 ++ l2);
  rep_prio : Forall (λ e, eprio e = true) l1;
  rep_noprio : Forall (λ e, eprio e = false) l2
}.

(** [fdperm] finds every descriptor of the list. *)
Definition perm_ok (s : loopst) (l : list ent) : Prop :=
  ∀ i e, l !! i = Some e → zget (fdperm s) (efd e) = Some (Some (Z.of_nat i)).

Lemma i16s_small i : 0 ≤ i < 2 ^ 15 → i16s i = i.
Proof. intros H. unfold i16s. rewrite Z.mod_small; lia. Qed.

(** *** Cells *)

Lemma wp_fds_set i x (Q : () → loopst → Prop) s :
  0 ≤ i < Z.of_nat (length (fds s)) → Q () (upd_fds (<[Z.to_nat i := x]> (fds s)) s) → wp (fds_set i x) Q s.
Proof. intros Hi HQ. apply wp_bind, wp_get, wp_bind. by eapply wp_deref; [apply zset_is_Some|]. Qed.
Lemma wp_fdpp_set i x (Q : () → loopst → Prop) s :
  0 ≤ i < Z.of_nat (length (fdpp s)) → Q () (upd_fdpp (<[Z.to_nat i := x]> (fdpp s)) s) → wp (fdpp_set i x) Q s.
Proof. intros Hi HQ. apply wp_bind, wp_get, wp_bind. by eapply wp_deref; [apply zset_is_Some|]. Qed.
Lemma wp_fdperm_set i x (Q : () → loopst → Prop) s :
  0 ≤ i < Z.of_nat (length (fdperm s)) → Q () (upd_fdperm (<[Z.to_nat i := Some x]> (fdperm s)) s) → wp (fdperm_set i x) Q s.
Proof. intros Hi HQ. apply wp_bind, wp_get, wp_bind. by eapply wp_deref; [apply zset_is_Some|]. Qed.
Lemma wp_fds_cell i o (Q : option pollfd → loopst → Prop) s : zget (fds s) i = Some o → Q o s → wp (fds_cell i) Q s.
Proof. intros Hi HQ. apply wp_bind, wp_get. by eapply wp_deref. Qed.
Lemma wp_fdpp_cell i o (Q : option Z → loopst → Prop) s : zget (fdpp s) i = Some o → Q o s → wp (fdpp_cell i) Q s.
Proof. intros Hi HQ. apply wp_bind, wp_get. by eapply wp_deref. Qed.
Lemma wp_fds_get i f (Q : pollfd → loopst → Prop) s : zget (fds s) i = Some (Some f) → Q f s → wp (fds_get i) Q s.
Proof. intros Hi HQ. by eapply wp_bind, wp_fds_cell. Qed.
Lemma wp_fdpp_get i a (Q : Z → loopst → Prop) s : zget (fdpp s) i = Some (Some a) → Q a s → wp (fdpp_get i) Q s.
Proof. intros Hi HQ. by eapply wp_bind, wp_fdpp_cell. Qed.
Lemma wp_fdperm_get i x (Q : Z → loopst → Prop) s : zget (fdperm s) i = Some (Some x) → Q x s → wp (fdperm_get i) Q s.
Proof. intros Hi HQ. apply wp_bind, wp_get, wp_bind. by eapply wp_deref. Qed.
Lemma wp_plus_get a p (Q : pollplus → loopst → Prop) s : plus s !! a = Some p → Q p s → wp (plus_get a) Q s.
Proof. intros Hi HQ. apply wp_bind, wp_get. by eapply wp_deref. Qed.

Lemma rep_cell s l1 l2 i e : rep s l1 l2 → (l1 ++ l2) !! i = Some e →
  zget (fds s) (Z.of_nat i) = Some (Some (ent_fd e)) ∧ zget (fdpp s) (Z.of_nat i) = Some (Some (ent_at e))
  ∧ placed s e.
Proof.
  intros H Hi. destruct (rep_fds _ _ _ H) as [jf ->], (rep_fdpp _ _ _ H) as [jp ->]. rewrite !zget_nat.
  split_and!.
  - apply lookup_app_l_Some. by rewrite list_lookup_fmap, Hi.
  - apply lookup_app_l_Some. by rewrite list_lookup_fmap, Hi.
  - eapply Forall_lookup_1; [apply (rep_placed _ _ _ H) | done].
Qed.

(** *** [add_fd] *)

Definition grown (s s' : loopst) : Prop := cleaned s' = cleaned s ∧ fdperm s `prefix_of` fdperm s'.
#[export] Instance grown_preorder : PreOrder grown.
Proof. split; [done|]. intros s1 s2 s3 [E1 ?] [E2 ?]. split; [by rewrite E2 | by etrans]. Qed.

Lemma perm_ok_grown s s' l : grown s s' → perm_ok s l → perm_ok s' l.
Proof.
  intros [_ [k Hk]] H i e Hi. specialize (H i e Hi). rewrite Hk. apply zget_Some in H as [? H].
  apply zget_Some. split; [done|]. by apply lookup_app_l_Some.
Qed.

Lemma rep_bound s l1 l2 : rep s l1 l2 → 0 ≤ nprio s ≤ nfds s ∧ nfds s ≤ maxfds s ∧ 0 ≤ fdpermsize s.
Proof.
  intros H. destruct (rep_fds _ _ _ H) as [jf E], (rep_len _ _ _ H) as (E1 & E2 & E3).
  rewrite (rep_nprio _ _ _ H), (rep_nfds _ _ _ H). rewrite E, !length_app, length_fmap, length_app in E1.
  rewrite length_app. lia.
Qed.

Lemma wp_grow_fds s l1 l2 : rep s l1 l2 →
  wp grow_fds (λ _ s', rep s' l1 l2 ∧ nfds s' < maxfds s' ∧ grown s s') s.
Proof.
  intros H. pose proof (rep_bound _ _ _ H) as Hb.
  apply wp_bind, wp_get, wp_whenM; intros Hc.
  - apply Z.eqb_eq in Hc. apply wp_modify. cbv zeta.
    set (m := if negb (maxfds s =? 0) then _ else _).
    assert (maxfds s < m) as Hm.
    { unfold m, MAXFDS_STEP, MAXFDS_INITIAL. destruct (Z.eqb_spec (maxfds s) 0); simpl; lia. }
    split_and!; [| simpl; lia | by split].
    destruct (rep_fds _ _ _ H) as [jf E], (rep_fdpp _ _ _ H) as [jp E'], (rep_len _ _ _ H) as (E1 & E2 & E3).
    destruct H. split; simpl; try done.
    + eexists. by rewrite E, <- app_assoc.
    + eexists. by rewrite E', <- app_assoc.
    + rewrite !length_app, !length_replicate. lia.
  - apply Z.eqb_neq in Hc. split_and!; [done | lia | done].
Qed.

Lemma wp_grow_fdperm s l1 l2 fd : rep s l1 l2 → 0 ≤ fd →
  wp (grow_fdperm fd) (λ _ s', rep s' l1 l2 ∧ fd < fdpermsize s' ∧ grown s s' ∧ nfds s' = nfds s ∧ maxfds s' = maxfds s) s.
Proof.
  intros H Hfd. pose proof (rep_bound _ _ _ H) as Hb.
  apply wp_bind, wp_get, wp_whenM; intros Hc.
  - apply Z.leb_le in Hc. apply wp_modify. cbv zeta. set (m := Z.shiftl _ _).
    assert (fd < m) as Hm.
    { unfold m, FDPERMSIZE_LOGSTEP. rewrite Z.shiftr_div_pow2, Z.shiftl_mul_pow2 by lia.
      change (2 ^ 4) with 16. pose proof (Z.mod_pos_bound fd 16). pose proof (Z.div_mod fd 16). lia. }
    split_and!; try done; [|split; [done | by eexists]].
    destruct (rep_len _ _ _ H) as (E1 & E2 & E3). destruct H. split; simpl; try done.
    + split_and!; try done. rewrite !length_app, !length_replicate. lia.
    + eapply Forall_impl; [done|]. intros e (? & ? & ?). split_and!; simpl; (done || lia).
  - apply Z.leb_gt in Hc. split_and!; done.
Qed.

Definition new_ent (s : loopst) (fd type data rev : Z) : ent :=
  Ent (PollFd fd (Z.lor POLLIN POLLHUP) rev) (brk s) (PollPlus type data 0).

(** The array after a priority descriptor takes the first place of the others:
    the one that was there goes to the end. *)
Definition rotate (l : list ent) : list ent := match l with [] => [] | e :: l' => l' ++ [e] end.

Lemma rotate_perm l : rotate l ≡ₚ l.
Proof. destruct l as [|e l]; simpl; [done|]. by rewrite Permutation_app_comm. Qed.

Lemma insert_prio {B} (g : ent → B) (l1 l2 : list ent) (L jf : list B) c x :
  L = (g <$> l1 ++ l2) ++ jf → jf ≠ [] → L !! length l1 = Some c →
  ∃ jf', <[length l1 := x]> (<[length (l1 ++ l2) := c]> L) = (g <$> l1) ++ x :: (g <$> rotate l2) ++ jf'.
Proof.
  intros -> Hj Hc. destruct jf as [|y jf]; [done|].
  assert (length (g <$> l1) = length l1) as Hl by apply length_fmap.
  rewrite insert_app_r_alt by (rewrite length_fmap; lia). rewrite length_fmap, Nat.sub_diag. simpl.
  rewrite fmap_app, <- app_assoc in *. rewrite insert_app_r_alt by lia. rewrite Hl, Nat.sub_diag.
  destruct l2 as [|e l2]; simpl in *.
  - exists jf. done.
  - rewrite lookup_app_r, Hl, Nat.sub_diag in Hc by lia. injection Hc as <-.
    exists jf. by rewrite fmap_app, <- app_assoc.
Qed.

Lemma insert_end {B} (g : ent → B) (l : list ent) (L jf : list B) x :
  L = (g <$> l) ++ jf → jf ≠ [] → ∃ jf', <[length l := x]> L = (g <$> l) ++ x :: jf'.
Proof.
  intros -> Hj. destruct jf as [|y jf]; [done|]. exists jf.
  rewrite insert_app_r_alt by (rewrite length_fmap; lia). by rewrite length_fmap, Nat.sub_diag.
Qed.

(** The descriptors of the state after [add_fd], given the cells it wrote. *)
Lemma rep_added s s' l1 l2 l1' l2' e :
  rep s l1 l2 → l1' ++ l2' ≡ₚ e :: l1 ++ l2 →
  (∃ jf, fds s' = (Some ∘ ent_fd <$> l1' ++ l2') ++ jf) → (∃ jp, fdpp s' = (Some ∘ ent_at <$> l1' ++ l2') ++ jp) →
  length (fds s') = length (fds s) → length (fdpp s') = length (fdpp s) → length (fdperm s') = length (fdperm s) →
  maxfds s' = maxfds s → fdpermsize s' = fdpermsize s → nfds s' = nfds s + 1 → nprio s' = Z.of_nat (length l1') →
  plus s' = <[brk s := ent_plus e]> (plus s) → brk s' = brk s + 1 → ent_at e = brk s →
  0 ≤ efd e < fdpermsize s → efd e ∉ efd <$> l1 ++ l2 →
  Forall (λ e, eprio e = true) l1' → Forall (λ e, eprio e = false) l2' → rep s' l1' l2'.
Proof.
  intros H Hp Hf Hpp Hl1 Hl2 Hl3 Hm Hfs Hn Hpr Hplus Hbrk Hat Hfd Hnew Hy Hno.
  assert (Forall (placed s) (l1 ++ l2)) as Hpl by apply H.
  assert (∀ x, x ∈ l1 ++ l2 → ent_at x < brk s) as Hlt.
  { intros x Hx. rewrite Forall_forall in Hpl. apply (Hpl x Hx). }
  split; try done.
  - rewrite Hl1, Hl2, Hl3, Hm, Hfs. apply H.
  - rewrite Hn, (rep_nfds _ _ _ H), (Permutation_length Hp). simpl. lia.
  - rewrite Hp. constructor.
    + split; [by rewrite Hplus, Hat, lookup_insert_eq|]. rewrite Hfs. lia.
    + rewrite Forall_forall in *. intros x Hx. destruct (Hpl x Hx) as (? & ? & ?). unfold placed.
      rewrite Hplus, Hfs, lookup_insert_ne by lia. split; [done | lia].
  - rewrite Hp. simpl. constructor; [done | apply H].
  - rewrite Hp. simpl. constructor; [|apply H].
    rewrite Hat. intros (x & Hx & Hin)%list_elem_of_fmap. specialize (Hlt x Hin). lia.
Qed.

(** What [add_fd] does to the arrays once they are large enough. *)
Lemma wp_store_fd s l1 l2 fd type data :
  rep s l1 l2 → nfds s < maxfds s → 0 ≤ fd < fdpermsize s →
  ∀ Q : () → loopst → Prop,
  (∀ jf jp rev s',
    fds s' = (Some ∘ ent_fd <$> (if ISPRIO type then l1 ++ new_ent s fd type data rev :: rotate l2
                                else l1 ++ l2 ++ [new_ent s fd type data rev])) ++ jf →
    fdpp s' = (Some ∘ ent_at <$> (if ISPRIO type then l1 ++ new_ent s fd type data rev :: rotate l2
                                else l1 ++ l2 ++ [new_ent s fd type data rev])) ++ jp →
    length (fds s') = length (fds s) → length (fdpp s') = length (fdpp s) →
    fdperm s' = <[Z.to_nat fd := Some (i16s (if ISPRIO type then nprio s else nfds s))]> (fdperm s) →
    maxfds s' = maxfds s → fdpermsize s' = fdpermsize s → nfds s' = nfds s + 1 →
    nprio s' = nprio s + (if ISPRIO type then 1 else 0) →
    plus s' = <[brk s := PollPlus type data 0]> (plus s) → brk s' = brk s + 1 → cleaned s' = cleaned s →
    Q () s') →
  wp (store_fd fd type data) Q s.
Proof.
  intros H Hn Hfd Q HQ. pose proof (rep_bound _ _ _ H) as Hb. pose proof (rep_len _ _ _ H) as (E1 & E2 & E3).
  destruct (rep_fds _ _ _ H) as [jf Ef], (rep_fdpp _ _ _ H) as [jp Ep].
  assert (jf ≠ []) as Hjf.
  { intros ->. rewrite Ef, app_nil_r, length_fmap, <- (rep_nfds _ _ _ H) in E1. lia. }
  assert (jp ≠ []) as Hjp.
  { intros ->. rewrite Ep, app_nil_r, length_fmap, <- (rep_nfds _ _ _ H) in E2. lia. }
  apply wp_bind, wp_get. destruct (ISPRIO type) eqn:Hp.
  - destruct (zget_is_Some (fds s) (nprio s)) as [c Hc]; [lia|].
    destruct (zget_is_Some (fdpp s) (nprio s)) as [d Hd]; [lia|].
    do 2 eapply wp_bind. eapply wp_fds_cell; [done|].
    apply wp_bind, wp_fds_set; [lia|]. eapply wp_bind, wp_fdpp_cell; [done|].
    apply wp_bind, wp_fdpp_set; [simpl; lia|]. apply wp_bind, wp_modify, wp_ret.
    apply wp_bind, wp_get, wp_bind, wp_modify. simpl.
    apply wp_bind, wp_fdpp_set; simpl; [rewrite length_insert; lia|].
    apply wp_bind, wp_fdperm_set; simpl; [lia|].
    eapply wp_bind.
    assert (∃ o, zget (<[Z.to_nat (nfds s) := c]> (fds s)) (nprio s) = Some o) as [o Ho].
    { apply zget_is_Some. rewrite length_insert. lia. }
    eapply wp_fds_cell; [exact Ho|].
    apply wp_bind, wp_fds_set; simpl; [rewrite length_insert; lia|].
    apply wp_bind, wp_modify, wp_modify.
    rewrite (rep_nprio _ _ _ H), zget_nat in Hc. rewrite (rep_nprio _ _ _ H), zget_nat in Hd.
    destruct (insert_prio (Some ∘ ent_fd) l1 l2 (fds s) jf c
      (Some (PollFd fd (Z.lor POLLIN POLLHUP) (default 0 (revents <$> o)))) Ef Hjf Hc) as [jf' Hjf'].
    destruct (insert_prio (Some ∘ ent_at) l1 l2 (fdpp s) jp d (Some (brk s)) Ep Hjp Hd) as [jp' Hjp'].
    eapply (HQ jf' jp' (default 0 (revents <$> o))); simpl; try done.
    + rewrite (rep_nfds _ _ _ H), (rep_nprio _ _ _ H), !Nat2Z.id, Hjf', fmap_app, <- app_assoc. done.
    + rewrite (rep_nfds _ _ _ H), (rep_nprio _ _ _ H), !Nat2Z.id, Hjp', fmap_app, <- app_assoc. done.
    + by rewrite !length_insert.
    + by rewrite !length_insert.
  - destruct (zget_is_Some (fds s) (nfds s)) as [o Ho]; [lia|].
    apply wp_bind, wp_ret, wp_bind, wp_get, wp_bind, wp_modify. simpl.
    apply wp_bind, wp_fdpp_set; simpl; [lia|]. apply wp_bind, wp_fdperm_set; simpl; [lia|].
    eapply wp_bind, wp_fds_cell; [exact Ho|].
    apply wp_bind, wp_fds_set; simpl; [lia|]. apply wp_bind, wp_modify, wp_modify.
    destruct (insert_end (Some ∘ ent_fd) (l1 ++ l2) (fds s) jf
      (Some (PollFd fd (Z.lor POLLIN POLLHUP) (default 0 (revents <$> o)))) Ef Hjf) as [jf' Hjf'].
    destruct (insert_end (Some ∘ ent_at) (l1 ++ l2) (fdpp s) jp (Some (brk s)) Ep Hjp) as [jp' Hjp'].
    eapply (HQ jf' jp' (default 0 (revents <$> o))); simpl; try done.
    + rewrite (rep_nfds _ _ _ H), Nat2Z.id, Hjf', app_assoc, (fmap_app _ (l1 ++ l2)), <- app_assoc. done.
    + rewrite (rep_nfds _ _ _ H), Nat2Z.id, Hjp', app_assoc, (fmap_app _ (l1 ++ l2)), <- app_assoc. done.
    + by rewrite !length_insert.
    + by rewrite !length_insert.
    + lia.
Qed.

(** *** [remove_fd] *)

Definition is_fd (fd : Z) (e : ent) : Prop := efd e = fd.
#[global] Instance is_fd_dec fd e : Decision (is_fd fd e) := decide (efd e = fd).
Definition without (fd : Z) (l : list ent) : list ent := filter (λ e, ¬ is_fd fd e) l.
Definition cleanup_of (e : ent) : Z * Z * Z := (ptype (ent_plus e), efd e, private_data (ent_plus e)).

Lemma without_fresh fd l : fd ∉ efd <$> l → without fd l = l.
Proof.
  unfold without. induction l as [|e l IH]; [done|]. rewrite fmap_cons. intros H.
  rewrite filter_cons_True by (intros E; apply H; rewrite <- E; set_solver). f_equal. apply IH. set_solver.
Qed.

Lemma without_split fd la e lb : NoDup (efd <$> la ++ e :: lb) → efd e = fd →
  without fd (la ++ e :: lb) = la ++ lb ∧ fd ∉ efd <$> la ++ lb.
Proof.
  rewrite fmap_app, fmap_cons, NoDup_app, NoDup_cons. intros (_ & Ha & Hb & _) <-.
  assert (efd e ∉ efd <$> la) as Ha' by (intros He; apply (Ha _ He); set_solver).
  split; [|set_solver]. unfold without. rewrite filter_app, filter_cons_False by (intros Hne; by apply Hne).
  f_equal; by apply without_fresh.
Qed.

Lemma without_app fd l1 l2 : without fd (l1 ++ l2) = without fd l1 ++ without fd l2.
Proof. apply filter_app. Qed.

Lemma fd_split fd (l : list ent) : fd ∈ efd <$> l → ∃ la e lb, l = la ++ e :: lb ∧ efd e = fd.
Proof. intros (e & -> & (la & lb & ->)%list_elem_of_split)%list_elem_of_fmap. by exists la, e, lb. Qed.

Lemma wp_find_fd s l1 l2 fd :
  rep s l1 l2 → ∀ l la, l1 ++ l2 = la ++ l →
  wp (find_fd (seqZ (Z.of_nat (length la)) (Z.of_nat (length l))) fd)
    (λ o s', s' = s ∧ match o with
             | None => fd ∉ efd <$> l
             | Some i => ∃ lx e lb, l = lx ++ e :: lb ∧ efd e = fd ∧ i = Z.of_nat (length (la ++ lx))
             end) s.
Proof.
  intros H. induction l as [|e l IH]; intros la Hl; simpl length.
  - apply wp_ret. split; [done|]. set_solver.
  - rewrite seqZ_cons by lia. simpl.
    destruct (rep_cell s l1 l2 (length la) e H) as (Hf & _ & _).
    { rewrite Hl, lookup_app_r, Nat.sub_diag by lia. done. }
    eapply wp_bind, wp_fds_get; [done|]. fold (efd e).
    destruct (Z.eqb_spec (efd e) fd) as [He|He].
    + apply wp_ret. split; [done|]. exists [], e, l. by rewrite app_nil_r.
    + specialize (IH (la ++ [e])). rewrite length_app in IH. simpl in IH.
      replace (Z.succ (Z.of_nat (length la))) with (Z.of_nat (length la + 1)) by lia.
      replace (Z.pred (Z.of_nat (S (length l)))) with (Z.of_nat (length l)) by lia.
      eapply wp_mono; [apply IH; by rewrite <- app_assoc|].
      intros [i|] s' [-> Hi]; (split; [done|]).
      * destruct Hi as (lx & e' & lb & -> & ? & ->). exists (e :: lx), e', lb. by rewrite <- app_assoc.
      * set_solver.
Qed.

Lemma move_down_remove {A} (la lb jf : list (option A)) x :
  move_down ((la ++ x :: lb) ++ jf) (Z.of_nat (length la)) (Z.of_nat (length lb))
  = (la ++ lb) ++ drop (length lb) (x :: lb ++ jf).
Proof.
  unfold move_down. rewrite Nat2Z.id. replace (Z.to_nat (Z.of_nat (length la) + 1)) with (length la + 1)%nat by lia.
  replace (Z.to_nat (Z.of_nat (length la) + Z.of_nat (length lb))) with (length la + length lb)%nat by lia.
  rewrite Nat2Z.id, <- app_assoc, take_app_length. simpl. rewrite !drop_app_add. simpl. rewrite drop_0.
  by rewrite take_app_length, <- app_assoc.
Qed.

(** The reindexing loop only writes [fdperm]; its last assignment stays. *)
Lemma wp_reindex s (js : list Z) :
  (∀ j, j ∈ js → ∃ f, zget (fds s) j = Some (Some f) ∧ 0 ≤ pfd f < Z.of_nat (length (fdperm s))) →
  wp (forM js (λ j, f ← fds_get j; fdperm_set (pfd f) (i16s j)))
    (λ _ s', ∃ x, s' = upd_fdperm x s ∧ length x = length (fdperm s) ∧
      ∀ j0 js0 f, js = js0 ++ [j0] → zget (fds s) j0 = Some (Some f) → zget x (pfd f) = Some (Some (i16s j0))) s.
Proof.
  intros H. apply (wp_forM js _ (λ js s', ∃ x, s' = upd_fdperm x s ∧ length x = length (fdperm s) ∧
      ∀ j0 js0 f, js = js0 ++ [j0] → zget (fds s) j0 = Some (Some f) → zget x (pfd f) = Some (Some (i16s j0)))).
  - exists (fdperm s). split_and!; [by destruct s | done|]. intros ? [] ?; done.
  - intros l1 j l2 s' Hj (x & -> & Hx & _). destruct (H j) as (f & Hf & Hr); [set_solver|].
    eapply wp_bind, wp_fds_get; [done|]. apply wp_fdperm_set; simpl; [by rewrite Hx|].
    eexists. split; [done|]. split; [by rewrite length_insert|].
    intros j0 js0 f0 [-> ->]%app_inj_tail_iff Hf0. rewrite Hf in Hf0. injection Hf0 as <-.
    apply zget_Some. split; [lia|]. apply list_lookup_insert_eq. lia.
Qed.

Lemma without_prio s l1 l2 la e lb fd : rep s l1 l2 → l1 ++ l2 = la ++ e :: lb → efd e = fd →
  Z.of_nat (length (without fd l1)) = nprio s - (if eprio e then 1 else 0).
Proof.
  intros H Hl He. assert (e ∈ l1 ++ l2) as Hin by (rewrite Hl; set_solver).
  rewrite (rep_nprio _ _ _ H). pose proof (rep_nodup _ _ _ H) as Hnd. rewrite fmap_app in Hnd.
  apply NoDup_app in Hnd as (Hnd1 & Hnd & _). pose proof (rep_prio _ _ _ H) as Hy. pose proof (rep_noprio _ _ _ H) as Hno.
  rewrite Forall_forall in Hy. rewrite Forall_forall in Hno. apply elem_of_app in Hin as [Hin|Hin].
  - rewrite (Hy e Hin). apply list_elem_of_split in Hin as (lx & ly & ->).
    destruct (without_split fd lx e ly Hnd1 He) as [-> _]. rewrite !length_app. simpl. lia.
  - rewrite (Hno e Hin), without_fresh; [lia|]. intros Hc. apply (Hnd fd Hc). rewrite <- He.
    by apply list_elem_of_fmap_2.
Qed.

Lemma Forall_without P fd l : Forall P l → Forall P (without fd l).
Proof. rewrite !Forall_forall. intros H e [_ He]%list_elem_of_filter. by apply H. Qed.

(** The descriptors of the state after [remove_fd], given the cells it wrote. *)
Lemma rep_removed s s' l1 l2 la e lb fd :
  rep s l1 l2 → l1 ++ l2 = la ++ e :: lb → efd e = fd →
  (∃ jf, fds s' = (Some ∘ ent_fd <$> la ++ lb) ++ jf) → (∃ jp, fdpp s' = (Some ∘ ent_at <$> la ++ lb) ++ jp) →
  length (fds s') = length (fds s) → length (fdpp s') = length (fdpp s) → length (fdperm s') = length (fdperm s) →
  maxfds s' = maxfds s → fdpermsize s' = fdpermsize s → nfds s' = nfds s - 1 →
  nprio s' = nprio s - (if eprio e then 1 else 0) → plus s' = delete (ent_at e) (plus s) → brk s' = brk s →
  rep s' (without fd l1) (without fd l2).
Proof.
  intros H Hl He Hf Hp Hl1 Hl2 Hl3 Hm Hfs Hn Hpr Hplus Hbrk.
  assert (without fd l1 ++ without fd l2 = la ++ lb) as Hw.
  { rewrite <- without_app, Hl. apply without_split; [|done]. rewrite <- Hl. apply H. }
  pose proof (rep_placed _ _ _ H) as Hpl. pose proof (rep_nodup _ _ _ H) as Hnd. pose proof (rep_sep _ _ _ H) as Hsep.
  rewrite Hl in Hpl, Hnd, Hsep. rewrite fmap_app, fmap_cons in Hnd, Hsep.
  split; rewrite ?Hw; try done.
  - rewrite Hl1, Hl2, Hl3, Hm, Hfs. apply H.
  - rewrite Hn, (rep_nfds _ _ _ H), Hl, !length_app. simpl. lia.
  - rewrite Hpr. symmetry. by apply (without_prio s l1 l2 la e lb).
  - rewrite Forall_forall in *. intros x Hx. destruct (Hpl x) as (? & ? & ?); [set_solver|].
    assert (ent_at x ≠ ent_at e) as Hne.
    { apply NoDup_app in Hsep as (_ & Hs1 & [Hs2 _]%NoDup_cons). intros E.
      apply elem_of_app in Hx as [Hx|Hx]; apply (list_elem_of_fmap_2 ent_at) in Hx; rewrite E in Hx.
      - apply (Hs1 _ Hx). set_solver.
      - by apply Hs2. }
    unfold placed. rewrite Hplus, Hfs, Hbrk, lookup_delete_ne by done. split; [done|]. lia.
  - rewrite fmap_app. apply NoDup_app in Hnd as (? & ? & [? ?]%NoDup_cons). apply NoDup_app. set_solver.
  - rewrite fmap_app. apply NoDup_app in Hsep as (? & ? & [? ?]%NoDup_cons). apply NoDup_app. set_solver.
  - apply Forall_without, H.
  - apply Forall_without, H.
Qed.

(** One past the end: where [fdperm] sends the last descriptor after the
    removal of an earlier one. *)
Definition last_misplaced (s' : loopst) (l : list ent) (fd : Z) : Prop :=
  ∀ e, last l = Some e → efd e ≠ fd → fd ∈ efd <$> l → nfds s' < 2 ^ 15 →
    zget (fdperm s') (efd e) = Some (Some (nfds s')).

Lemma wp_dec_prio (b : bool) (Q : () → loopst → Prop) s :
  Q () (upd_nprio (nprio s - (if b then 1 else 0)) s) → wp (whenM b (modify (λ s, upd_nprio (nprio s - 1) s))) Q s.
Proof. destruct b; [done|]. rewrite Z.sub_0_r. by destruct s. Qed.

(** The cells from the removed one to the old end still hold descriptors. *)
Lemma shifted_cell la e lb jf (j : nat) :
  (length la ≤ j < length la + S (length lb))%nat →
  ∃ e', e' ∈ la ++ e :: lb ∧
    (((Some ∘ ent_fd <$> la) ++ (Some ∘ ent_fd <$> lb))
      ++ drop (length (Some ∘ ent_fd <$> lb)) (Some (ent_fd e) :: (Some ∘ ent_fd <$> lb) ++ jf)) !! j
    = Some (Some (ent_fd e')) ∧ (j = (length la + length lb)%nat → last (e :: lb) = Some e').
Proof.
  intros Hj. destruct (decide (j < length la + length lb)%nat) as [Hlt|Hge].
  - destruct (lookup_lt_is_Some_2 lb (j - length la)) as [e' He']; [lia|]. exists e'. split_and!.
    + apply elem_of_app. right. apply list_elem_of_further. by eapply list_elem_of_lookup_2.
    + rewrite <- fmap_app. apply lookup_app_l_Some. rewrite list_lookup_fmap, lookup_app_r, He' by lia. done.
    + lia.
  - assert (j = (length la + length lb)%nat) as -> by lia.
    destruct (lookup_lt_is_Some_2 (e :: lb) (length lb)) as [e' He']; [simpl; lia|]. exists e'. split_and!.
    + apply elem_of_app. right. by eapply list_elem_of_lookup_2.
    + rewrite lookup_app_r by (rewrite length_app, !length_fmap; lia).
      rewrite length_app, !length_fmap, lookup_drop. replace (_ + _)%nat with (length lb) by lia.
      change (Some (ent_fd e) :: (Some ∘ ent_fd <$> lb) ++ jf) with ((Some ∘ ent_fd <$> e :: lb) ++ jf).
      apply lookup_app_l_Some. by rewrite list_lookup_fmap, He'.
    + intros _. by rewrite last_lookup.
Qed.

Lemma wp_remove_at s l1 l2 la e lb fd (Q : () → loopst → Prop) :
  rep s l1 l2 → l1 ++ l2 = la ++ e :: lb → efd e = fd →
  (∀ s', rep s' (without fd l1) (without fd l2) → cleaned s' = cleaned s ++ [cleanup_of e] →
    (∀ e', last lb = Some e' → nfds s' < 2 ^ 15 → zget (fdperm s') (efd e') = Some (Some (nfds s'))) → Q () s') →
  wp (remove_at (Z.of_nat (length la)) (nfds s)) Q s.
Proof.
  intros H Hl He HQ.
  destruct (rep_cell s l1 l2 (length la) e H) as (Hf & Hp & Hplus & Hr & Hb).
  { rewrite Hl, lookup_app_r, Nat.sub_diag by lia. done. }
  destruct (rep_len _ _ _ H) as (E1 & E2 & E3).
  destruct (rep_fds _ _ _ H) as [jf Ef], (rep_fdpp _ _ _ H) as [jp Ep].
  rewrite Hl, fmap_app, fmap_cons in Ef. rewrite Hl, fmap_app, fmap_cons in Ep.
  assert (nfds s = Z.of_nat (length la + S (length lb))) as Hn.
  { rewrite (rep_nfds _ _ _ H), Hl, length_app. simpl. lia. }
  assert (∀ {A} (g : ent → option A) (L j : list (option A)), L = ((g <$> la) ++ g e :: (g <$> lb)) ++ j →
    move_down L (Z.of_nat (length la)) (nfds s - Z.of_nat (length la) - 1)
    = ((g <$> la) ++ (g <$> lb)) ++ drop (length (g <$> lb)) (g e :: (g <$> lb) ++ j)) as Hmv.
  { intros A g L j ->. rewrite <- move_down_remove, !length_fmap. f_equal. lia. }
  eapply wp_bind, wp_fdpp_get; [done|]. eapply wp_bind, wp_plus_get; [done|]. eapply wp_bind, wp_fds_get; [done|].
  apply wp_bind, wp_modify, wp_bind, wp_dec_prio, wp_bind, wp_modify, wp_bind, wp_modify, wp_bind.
  cbn [fds fdpp fdperm nfds nprio maxfds fdpermsize plus brk cleaned upd_nprio upd_fds upd_fdpp].
  eapply wp_mono; [apply wp_reindex|].
  { simpl. intros j Hj%elem_of_seqZ. rewrite (Hmv _ _ _ _ Ef), <- (Z2Nat.id j), zget_nat by lia.
    destruct (shifted_cell la e lb jf (Z.to_nat j)) as (e' & Hin & Hc & _); [lia|].
    exists (ent_fd e'). split; [exact Hc|]. rewrite E3.
    pose proof (rep_placed _ _ _ H) as Hpl. rewrite Hl, Forall_forall in Hpl. apply (Hpl e' Hin). }
  simpl. intros [] s' (x & -> & Hx & Hlast). apply wp_bind, wp_modify, wp_modify. simpl in Hx.
  assert (∀ A (l : list (option A)), Z.of_nat (length l) = maxfds s →
    length (move_down l (Z.of_nat (length la)) (nfds s - Z.of_nat (length la) - 1)) = length l) as Hml.
  { intros A l El. pose proof (rep_bound _ _ _ H). unfold move_down.
    rewrite !length_app, !length_take, !length_drop. lia. }
  apply HQ; simpl.
  - apply (rep_removed s _ l1 l2 la e lb fd H Hl He); simpl; try done.
    + rewrite (Hmv _ _ _ _ Ef), <- fmap_app. by eexists.
    + rewrite (Hmv _ _ _ _ Ep), <- fmap_app. by eexists.
    + by apply Hml.
    + by apply Hml.
  - done.
  - intros e' He' Hlt.
    destruct (shifted_cell la e lb jf (length la + length lb)) as (e'' & _ & Hc & Hl''); [lia|].
    specialize (Hl'' eq_refl). destruct lb as [|b lb]; [done|].
    change (last (b :: lb) = Some e'') in Hl''. rewrite He' in Hl''. injection Hl'' as <-.
    rewrite <- (i16s_small (nfds s - 1)) by lia.
    apply (Hlast (nfds s - 1) (seqZ (Z.of_nat (length la)) (nfds s - Z.of_nat (length la) - 1)) (ent_fd e')).
    + replace (nfds s - Z.of_nat (length la)) with ((nfds s - Z.of_nat (length la) - 1) + 1) at 1 by lia.
      rewrite seqZ_app by lia. f_equal. rewrite seqZ_cons by lia. f_equal. lia.
    + rewrite (Hmv _ _ _ _ Ef), <- (Z2Nat.id (nfds s - 1)), zget_nat by lia.
      replace (Z.to_nat (nfds s - 1)) with (length la + length (b :: lb))%nat by (simpl in *; lia). exact Hc.
Qed.

Lemma filter_is_fd_nil fd l : fd ∉ efd <$> l → filter (is_fd fd) l = [].
Proof.
  induction l as [|x l IH]; [done|]. rewrite fmap_cons. intros Hx.
  rewrite filter_cons_False by (intros E; apply Hx; rewrite <- E; set_solver). apply IH. set_solver.
Qed.

Lemma filter_is_fd fd la e lb : NoDup (efd <$> la ++ e :: lb) → efd e = fd →
  filter (is_fd fd) (la ++ e :: lb) = [e].
Proof.
  intros Hnd He. destruct (without_split fd la e lb Hnd He) as [_ Hn]. rewrite fmap_app in Hn.
  rewrite filter_app, filter_cons_True, !filter_is_fd_nil by (done || set_solver). done.
Qed.

Lemma wp_remove_fd s l1 l2 fd : rep s l1 l2 →
  wp (remove_fd fd) (λ _ s', rep s' (without fd l1) (without fd l2)
    ∧ cleaned s' = cleaned s ++ (cleanup_of <$> filter (is_fd fd) (l1 ++ l2))
    ∧ last_misplaced s' (l1 ++ l2) fd) s.
Proof.
  intros H. apply wp_bind, wp_get. eapply wp_bind. rewrite (rep_nfds _ _ _ H).
  eapply wp_mono; [apply (wp_find_fd s l1 l2 fd H (l1 ++ l2) []); done|].
  intros [i|] s' [-> Hi].
  - destruct Hi as (la & e & lb & Hl & He & ->). simpl app. rewrite <- (rep_nfds _ _ _ H).
    apply (wp_remove_at s l1 l2 la e lb fd); [done..|]. intros s' H' Hc Hlast. split_and!; [done | |].
    + rewrite Hc, Hl, (filter_is_fd fd la e lb); [done | | done]. rewrite <- Hl. apply H.
    + intros e' He' Hne _ Hlt. apply Hlast; [|done]. rewrite Hl, last_app_cons in He'.
      destruct lb as [|b lb]; simpl in He'; [by simplify_eq | done].
  - apply wp_ret. rewrite filter_is_fd_nil, app_nil_r by done.
    rewrite !without_fresh by (rewrite fmap_app in Hi; set_solver). split_and!; [done..|].
    intros e _ _ Hc. done.
Qed.

(** The lists after [add_fd]. *)
Definition added (s' : loopst) (l1 l2 : list ent) (e : ent) : Prop :=
  if eprio e then rep s' (l1 ++ [e]) (rotate l2) else rep s' l1 (l2 ++ [e]).

(** A descriptor as [add_fd] registers it. *)
Definition registered (e : ent) (fd type data : Z) : Prop :=
  efd e = fd ∧ events (ent_fd e) = Z.lor POLLIN POLLHUP ∧ ent_plus e = PollPlus type data 0.

Lemma wp_add_fd s l1 l2 fd type data : rep s l1 l2 → 0 ≤ fd → fd ∉ efd <$> l1 ++ l2 →
  wp (add_fd fd type data) (λ _ s', ∃ e, registered e fd type data ∧
    added s' l1 l2 e ∧ cleaned s' = cleaned s ∧
    (ISPRIO type = false → nfds s < 2 ^ 15 → perm_ok s (l1 ++ l2) → perm_ok s' (l1 ++ l2 ++ [e]))) s.
Proof.
  intros H Hfd Hnew. apply wp_bind. eapply wp_mono; [exact (wp_grow_fds s l1 l2 H)|]. intros [] s1 (H1 & Hn1 & Hg1).
  apply wp_bind. eapply wp_mono; [exact (wp_grow_fdperm s1 l1 l2 fd H1 Hfd)|].
  intros [] s2 (H2 & Hp2 & Hg2 & Hn2 & Hm2).
  assert (grown s s2) as Hg by (exact (transitivity Hg1 Hg2)).
  assert (nfds s2 = nfds s) as Hns by (by rewrite (rep_nfds _ _ _ H), (rep_nfds _ _ _ H2)).
  apply (wp_store_fd s2 l1 l2); [done | lia | done|].
  intros jf jp rev s' Hf Hp Hlf Hlp Hperm Hm Hps Hn Hpr Hplus Hbrk Hc. set (e := new_ent s2 fd type data rev) in *.
  pose proof (rep_prio _ _ _ H) as Hy. pose proof (rep_noprio _ _ _ H) as Hno.
  exists e. split_and!; [done | | by rewrite Hc; apply Hg |].
  - unfold added, eprio. simpl. destruct (ISPRIO type) eqn:Ht.
    + apply (rep_added s2 s' l1 l2 _ _ e H2); simpl; try done.
      * rewrite <- app_assoc, rotate_perm. simpl. by rewrite <- Permutation_middle.
      * rewrite <- app_assoc. by exists jf.
      * rewrite <- app_assoc. by exists jp.
      * by rewrite Hperm, length_insert.
      * rewrite Hpr, (rep_nprio _ _ _ H2), length_app. simpl. lia.
      * apply Forall_app. split; [done|]. by repeat constructor.
      * by rewrite rotate_perm.
    + apply (rep_added s2 s' l1 l2 _ _ e H2); simpl; try done.
      * by rewrite app_assoc, <- Permutation_cons_append.
      * by exists jf.
      * by exists jp.
      * by rewrite Hperm, length_insert.
      * rewrite Hpr, (rep_nprio _ _ _ H2). lia.
      * apply Forall_app. split; [done|]. by repeat constructor.
  - intros Ht Hlt Hok i e' Hi. rewrite Hperm, Ht. rewrite app_assoc in Hi.
    apply lookup_app_Some in Hi as [Hi|[Hge Hi]].
    + assert (efd e' ≠ fd) as Hne.
      { intros <-. apply Hnew. apply list_elem_of_fmap_2. by eapply list_elem_of_lookup_2. }
      pose proof (perm_ok_grown _ _ _ Hg Hok i e' Hi) as [? Hz]%zget_Some.
      apply zget_Some. split; [done|]. rewrite list_lookup_insert_ne by lia. done.
    + assert (i = length (l1 ++ l2) ∧ e' = e) as [-> ->].
      { apply lookup_lt_Some in Hi as Hl. simpl in Hl. replace (i - length (l1 ++ l2))%nat with 0%nat in Hi by lia.
        injection Hi as <-. split; [lia | done]. }
      change (efd e) with fd. apply zget_Some. split; [done|].
      destruct (rep_len _ _ _ H2) as (_ & _ & E3). rewrite list_lookup_insert_eq by lia.
      rewrite i16s_small, (rep_nfds _ _ _ H2); [done|]. rewrite Hns, (rep_nfds _ _ _ H) in *. lia.
Qed.

(** *** The migration of busy descriptors *)

Lemma swap_regions (l1 l2 la lb : list ent) e1 e2 :
  l1 ++ l2 = la ++ e1 :: e2 :: lb → length l1 ≠ (length la + 1)%nat →
  ∃ l1' l2', l1' ++ l2' = la ++ e2 :: e1 :: lb ∧ l1' ≡ₚ l1 ∧ l2' ≡ₚ l2.
Proof.
  intros Hl Hne. apply app_eq_inv in Hl as [(k & -> & Hk)|(k & -> & ->)].
  - rewrite length_app in Hne. destruct k as [|x [|y k]]; simpl in *.
    + exists la, (e2 :: e1 :: lb). subst. split_and!; [done | by rewrite app_nil_r | constructor].
    + lia.
    + injection Hk as <- <- ->. exists (la ++ e2 :: e1 :: k), l2. rewrite <- app_assoc.
      split_and!; [done | | done]. apply Permutation_app_head. constructor.
  - exists l1, (k ++ e2 :: e1 :: lb). rewrite <- app_assoc.
    split_and!; [done | done |]. apply Permutation_app_head. constructor.
Qed.

Lemma insert_swap {B} (g : ent → B) la e1 e2 lb j x y :
  let i := length la in
  <[i := y]> (<[S i := x]> ((g <$> la ++ e1 :: e2 :: lb) ++ j)) = ((g <$> la) ++ y :: x :: (g <$> lb)) ++ j.
Proof.
  intros i. rewrite fmap_app, <- !app_assoc. rewrite !insert_app_r_alt by (rewrite length_fmap; lia).
  rewrite length_fmap. replace (S i - length la)%nat with 1%nat by lia. by rewrite Nat.sub_diag.
Qed.

(** The state after the exchange. *)
Definition swapped (s : loopst) (l1 : list ent) (la : list ent) (e1 e2 : ent) (lb : list ent) (s' : loopst) : Prop :=
  ∃ l1' l2', rep s' l1' l2' ∧ l1' ++ l2' = la ++ e2 :: e1 :: lb ∧ length l1' = length l1 ∧ cleaned s' = cleaned s ∧
    (perm_ok s (la ++ e1 :: e2 :: lb) → perm_ok s' (la ++ e2 :: e1 :: lb)).

(** Elsewhere than at the two cells the lists before and after agree. *)
Lemma swap_lookup (la lb : list ent) e1 e2 i e :
  (la ++ e2 :: e1 :: lb) !! i = Some e →
  (i = length la ∧ e = e2) ∨ (i = S (length la) ∧ e = e1) ∨
  (la ++ e1 :: e2 :: lb) !! i = Some e ∧ e ∈ la ++ lb.
Proof.
  intros [Hi|[Hge Hi]]%lookup_app_Some.
  - right. right. split; [by apply lookup_app_l_Some|]. apply elem_of_app. left. by eapply list_elem_of_lookup_2.
  - destruct (i - length la)%nat as [|[|k]] eqn:E; simpl in Hi.
    + left. simplify_eq. split; [lia | done].
    + right. left. simplify_eq. split; [lia | done].
    + right. right. rewrite lookup_app_r, E by lia. split; [done|].
      apply elem_of_app. right. by eapply list_elem_of_lookup_2.
Qed.

Lemma swap_perm_ok la e1 e2 lb s s' :
  NoDup (efd <$> la ++ e1 :: e2 :: lb) → 0 ≤ efd e1 < Z.of_nat (length (fdperm s)) →
  0 ≤ efd e2 < Z.of_nat (length (fdperm s)) →
  fdperm s' = <[Z.to_nat (efd e2) := Some (Z.of_nat (length la))]>
    (<[Z.to_nat (efd e1) := Some (Z.of_nat (length la) + 1)]> (fdperm s)) →
  perm_ok s (la ++ e1 :: e2 :: lb) → perm_ok s' (la ++ e2 :: e1 :: lb).
Proof.
  intros Hnd H1 H2 Hp Hok i e Hi.
  assert ((efd e1 ∉ efd <$> la ++ lb) ∧ (efd e2 ∉ efd <$> la ++ lb) ∧ efd e1 ≠ efd e2) as (Hn1 & Hn2 & Hne).
  { rewrite <- (Permutation_middle la), <- (Permutation_middle la), !fmap_cons, !NoDup_cons in Hnd. set_solver. }
  rewrite Hp. apply zget_Some. apply swap_lookup in Hi as [[-> ->]|[[-> ->]|[Hi Hin]]].
  - split; [lia|]. apply list_lookup_insert_eq. rewrite length_insert. lia.
  - split; [lia|]. rewrite list_lookup_insert_ne, list_lookup_insert_eq by lia. do 2 f_equal. lia.
  - specialize (Hok i e Hi) as [? Hz]%zget_Some. split; [done|].
    apply (list_elem_of_fmap_2 efd) in Hin.
    assert (efd e ≠ efd e1) by congruence. assert (efd e ≠ efd e2) by congruence.
    by rewrite !list_lookup_insert_ne by lia.
Qed.

Lemma rep_permuted s s' l1 l2 l1' l2' :
  rep s l1 l2 → l1' ≡ₚ l1 → l2' ≡ₚ l2 →
  (∃ jf, fds s' = (Some ∘ ent_fd <$> l1' ++ l2') ++ jf) → (∃ jp, fdpp s' = (Some ∘ ent_at <$> l1' ++ l2') ++ jp) →
  length (fds s') = length (fds s) → length (fdpp s') = length (fdpp s) → length (fdperm s') = length (fdperm s) →
  maxfds s' = maxfds s → fdpermsize s' = fdpermsize s → nfds s' = nfds s → nprio s' = nprio s →
  plus s' = plus s → brk s' = brk s → rep s' l1' l2'.
Proof.
  intros H P1 P2 Hf Hp Hlf Hlp Hlq Hm Hfs Hn Hpr Hplus Hbrk. destruct H. split; try done.
  - by rewrite Hlf, Hlp, Hlq, Hm, Hfs.
  - by rewrite Hn, P1, P2.
  - by rewrite Hpr, P1.
  - rewrite P1, P2. eapply Forall_impl; [done|]. intros e. unfold placed. by rewrite Hplus, Hfs, Hbrk.
  - by rewrite P1, P2.
  - by rewrite P1, P2.
  - by rewrite P1.
  - by rewrite P2.
Qed.

Lemma middle_cells {B} (l r j : list B) x y :
  zget ((l ++ x :: y :: r) ++ j) (Z.of_nat (S (length l))) = Some y ∧
  zget ((l ++ x :: y :: r) ++ j) (Z.of_nat (length l)) = Some x.
Proof.
  rewrite !zget_nat, <- !app_assoc. split; [|by rewrite lookup_app_r, Nat.sub_diag by lia].
  rewrite lookup_app_r by lia. by replace (S (length l) - length l)%nat with 1%nat by lia.
Qed.

Lemma wp_swap_down s l1 l2 la e1 e2 lb : rep s l1 l2 → l1 ++ l2 = la ++ e1 :: e2 :: lb →
  nfds s < 2 ^ 15 → nprio s ≠ Z.of_nat (length la) + 1 →
  wp (swap_down (Z.of_nat (length la) + 1)) (λ _ s', swapped s l1 la e1 e2 lb s') s.
Proof.
  intros H Hl Hlt Hpr. pose proof (rep_len _ _ _ H) as (E1 & E2 & E3).
  destruct (rep_cell s l1 l2 (length la) e1 H) as (Hf1 & Hp1 & Hpl1).
  { rewrite Hl, lookup_app_r, Nat.sub_diag by lia. done. }
  destruct (rep_cell s l1 l2 (S (length la)) e2 H) as (Hf2 & Hp2 & Hpl2).
  { rewrite Hl, lookup_app_r by lia. by replace (S (length la) - length la)%nat with 1%nat by lia. }
  destruct (rep_fds _ _ _ H) as [jf Ef], (rep_fdpp _ _ _ H) as [jp Ep]. rewrite Hl in Ef, Ep.
  assert (Z.of_nat (length la) + 1 < nfds s) as Hla.
  { rewrite (rep_nfds _ _ _ H), Hl, length_app. simpl. lia. }
  pose proof (rep_bound _ _ _ H) as Hb.
  replace (Z.of_nat (length la) + 1) with (Z.of_nat (S (length la))) by lia.
  unfold swap_down. replace (Z.of_nat (S (length la)) - 1) with (Z.of_nat (length la)) by lia.
  eapply wp_bind, wp_fds_cell; [exact Hf2|]. eapply wp_bind, wp_fds_cell; [exact Hf1|].
  apply wp_bind, wp_fds_set; [lia|]. apply wp_bind, wp_fds_set; simpl; [rewrite length_insert; lia|].
  eapply wp_bind, wp_fdpp_cell; [exact Hp2|]. eapply wp_bind, wp_fdpp_cell; [exact Hp1|].
  apply wp_bind, wp_fdpp_set; simpl; [lia|]. apply wp_bind, wp_fdpp_set; simpl; [rewrite length_insert; lia|].
  rewrite !Nat2Z.id, Ef, Ep, !insert_swap.
  destruct (middle_cells (Some ∘ ent_fd <$> la) (Some ∘ ent_fd <$> lb) jf (Some (ent_fd e2)) (Some (ent_fd e1)))
    as [Hc1 Hc2]. rewrite length_fmap in Hc1, Hc2.
  destruct Hpl1 as (_ & Hr1 & _), Hpl2 as (_ & Hr2 & _).
  eapply wp_bind, wp_fds_get; [exact Hc1|]. apply wp_bind, wp_fdperm_set; simpl; [unfold efd in *; lia|].
  eapply wp_bind, wp_fds_get; [exact Hc2|]. apply wp_fdperm_set; simpl; [rewrite length_insert; unfold efd in *; lia|].
  destruct (swap_regions l1 l2 la lb e1 e2 Hl) as (l1' & l2' & Hl' & P1 & P2).
  { rewrite (rep_nprio _ _ _ H) in Hpr. lia. }
  exists l1', l2'. split_and!; [| done | by rewrite P1 | done |].
  - apply (rep_permuted s _ l1 l2 _ _ H P1 P2); simpl; try done.
    + rewrite Hl', fmap_app. by exists jf.
    + rewrite Hl', fmap_app. by exists jp.
    + by rewrite Ef, fmap_app, !length_app.
    + by rewrite Ep, fmap_app, !length_app.
    + by rewrite !length_insert.
  - apply (swap_perm_ok la e1 e2 lb s); simpl.
    + rewrite <- Hl. apply H.
    + by rewrite E3.
    + by rewrite E3.
    + rewrite !i16s_small by lia. by replace (Z.of_nat (S (length la))) with (Z.of_nat (length la) + 1) by lia.
Qed.

(** *** A pass of the loop *)

Definition ready (e : ent) : Prop := revents (ent_fd e) ≠ 0.
#[global] Instance ready_dec e : Decision (ready e) := decide (revents (ent_fd e) ≠ 0).
Definition touch (now : Z) (e : ent) : ent :=
  Ent (ent_fd e) (ent_at e) (PollPlus (ptype (ent_plus e)) (private_data (ent_plus e)) now).
Definition refreshed (now : Z) (e : ent) : ent := if decide (ready e) then touch now e else e.
Definition call_of (e : ent) : call :=
  (ptype (ent_plus e), efd e, revents (ent_fd e), private_data (ent_plus e)).

(** A handler that leaves the set of descriptors and their data alone. *)
Definition quiet (handle : Z → Z → Z → Z → M loopst ()) : Prop :=
  ∀ t f r d s l1 l2, rep s l1 l2 →
    wp (handle t f r d) (λ _ s', rep s' l1 l2 ∧ ∀ l, perm_ok s l → perm_ok s' l) s.

Definition touch_at (now a : Z) (e : ent) : ent := if decide (ent_at e = a) then touch now e else e.

Lemma touch_at_other now a (l : list ent) : a ∉ ent_at <$> l → touch_at now a <$> l = l.
Proof.
  induction l as [|x l IH]; [done|]. rewrite fmap_cons. intros Hx. rewrite fmap_cons, IH by set_solver.
  unfold touch_at. rewrite decide_False by set_solver. done.
Qed.

Lemma touch_at_same {B} (g : ent → B) now a (l : list ent) : (∀ e, g (touch now e) = g e) → g <$> (touch_at now a <$> l) = g <$> l.
Proof.
  intros Hg. rewrite <- list_fmap_compose. apply list_fmap_ext. intros i x _. unfold touch_at; simpl.
  destruct (decide (ent_at x = a)); simpl; [apply Hg | done].
Qed.

Lemma rep_touch s l1 l2 la e lb now : rep s l1 l2 → l1 ++ l2 = la ++ e :: lb →
  rep (upd_plus (<[ent_at e := ent_plus (touch now e)]> (plus s)) s)
    (touch_at now (ent_at e) <$> l1) (touch_at now (ent_at e) <$> l2)
  ∧ (touch_at now (ent_at e) <$> l1) ++ (touch_at now (ent_at e) <$> l2) = la ++ touch now e :: lb.
Proof.
  intros H Hl. set (f := touch_at now (ent_at e)).
  assert (f <$> l1 ++ l2 = la ++ touch now e :: lb) as Hf.
  { pose proof (rep_sep _ _ _ H) as Hs. rewrite Hl in Hs. rewrite fmap_app, fmap_cons in Hs.
    rewrite Hl, fmap_app, fmap_cons. apply NoDup_app in Hs as (_ & Hs1 & [Hs2 _]%NoDup_cons). unfold f.
    rewrite !touch_at_other; [| done | intros Hc; apply (Hs1 _ Hc); set_solver].
    unfold touch_at. by rewrite decide_True. }
  rewrite <- fmap_app. split; [|done]. destruct H. split; rewrite <- ?fmap_app; simpl; try done.
  - unfold f. by rewrite touch_at_same.
  - unfold f. by rewrite touch_at_same.
  - by rewrite length_fmap.
  - by rewrite length_fmap.
  - apply Forall_fmap. eapply Forall_impl; [done|]. intros x (Hx & Hr & Hb). unfold f, touch_at, placed. simpl.
    destruct (decide (ent_at x = ent_at e)) as [E|E]; simpl.
    + rewrite E, lookup_insert_eq. split; [|split; [done | congruence]].
      assert (plus s !! ent_at e = Some (ent_plus e)) as He.
      { rewrite Hl, Forall_app, Forall_cons in rep_placed0. apply rep_placed0. }
      rewrite E, He in Hx. by injection Hx as <-.
    + by rewrite lookup_insert_ne.
  - unfold f. by rewrite touch_at_same.
  - unfold f. by rewrite touch_at_same.
  - apply Forall_fmap. eapply Forall_impl; [done|]. intros x. unfold f, touch_at, eprio. simpl. by case_decide.
  - apply Forall_fmap. eapply Forall_impl; [done|]. intros x. unfold f, touch_at, eprio. simpl. by case_decide.
Qed.

Lemma wp_migrate s l1 l2 la e lb : rep s l1 l2 → l1 ++ l2 = la ++ e :: lb → nfds s < 2 ^ 15 →
  wp (migrate (Z.of_nat (length la))) (λ _ s', ∃ l1' l2' la', rep s' l1' l2' ∧ l1' ++ l2' = la' ++ lb ∧
    la' ≡ₚ la ++ [e] ∧ length l1' = length l1 ∧ (perm_ok s (l1 ++ l2) → perm_ok s' (l1' ++ l2'))) s.
Proof.
  intros H Hl Hlt.
  assert (∃ l1' l2' la', rep s l1' l2' ∧ l1' ++ l2' = la' ++ lb ∧ la' ≡ₚ la ++ [e] ∧ length l1' = length l1 ∧
    (perm_ok s (l1 ++ l2) → perm_ok s (l1' ++ l2'))) as Hsame.
  { exists l1, l2, (la ++ [e]). rewrite <- app_assoc. split_and!; done. }
  apply wp_bind, wp_get, wp_whenM; [|by intros _].
  intros [[Hi Hpos]%andb_prop Hpr]%andb_prop. apply Z.ltb_lt in Hpos. apply negb_true_iff, Z.eqb_neq in Hpr.
  destruct la as [|x la' _] using rev_ind; [simpl in Hpos; lia|].
  rewrite length_app in *. simpl length in *. rewrite <- app_assoc in Hl. simpl in Hl.
  destruct (rep_cell s l1 l2 (length la' + 1) e H) as (_ & Hp & Hpl & _).
  { rewrite Hl, lookup_app_r by lia. by replace (length la' + 1 - length la')%nat with 1%nat by lia. }
  destruct (rep_cell s l1 l2 (length la') x H) as (_ & Hp1 & Hpl1 & _).
  { rewrite Hl, lookup_app_r, Nat.sub_diag by lia. done. }
  eapply wp_bind, wp_fdpp_get; [done|]. eapply wp_bind.
  replace (Z.of_nat (length la' + 1) - 1) with (Z.of_nat (length la')) by lia.
  eapply wp_fdpp_get; [done|]. eapply wp_bind, wp_plus_get; [done|]. eapply wp_bind, wp_plus_get; [done|].
  apply wp_whenM; [|by intros _]. intros _.
  replace (Z.of_nat (length la' + 1)) with (Z.of_nat (length la') + 1) in * by lia.
  eapply wp_mono; [apply (wp_swap_down s l1 l2 la' x e lb H Hl Hlt); lia|].
  intros [] s' (l1' & l2' & H' & Hl' & Hlen & _ & Hok). exists l1', l2', (la' ++ [e; x]).
  split_and!; [done | by rewrite <- app_assoc | | done | by rewrite Hl, Hl'].
  rewrite <- app_assoc. apply Permutation_app_head. constructor.
Qed.

Lemma refreshed_idle now l : length (filter ready l) = 0%nat → refreshed now <$> l = l ∧ filter ready l = [].
Proof.
  intros E. split; [|by apply nil_length_inv]. apply nil_length_inv in E.
  rewrite <- (list_fmap_id l) at 2. apply list_fmap_ext. intros i x Hx. unfold refreshed. simpl.
  rewrite decide_False; [done|]. intros Hr. apply (filter_nil_not_elem_of ready l x E Hr).
  by eapply list_elem_of_lookup_2.
Qed.

(** The scan of [rest] with [la] already behind; the fuel is the number of
    descriptors. *)
Lemma wp_scan_fds handle now : quiet handle → ∀ rest fuel la s l1 l2,
  (length rest ≤ fuel)%nat → rep s l1 l2 → l1 ++ l2 = la ++ rest → nfds s < 2 ^ 15 →
  wp (scan_fds handle now fuel (Z.of_nat (length la)) (Z.of_nat (length (filter ready rest))))
    (λ tr s', tr = call_of <$> filter ready rest ∧ ∃ l1' l2', rep s' l1' l2' ∧
      l1' ++ l2' ≡ₚ la ++ (refreshed now <$> rest) ∧ length l1' = length l1 ∧
      (perm_ok s (l1 ++ l2) → perm_ok s' (l1' ++ l2'))) s.
Proof.
  intros Hq. induction rest as [|e rest IH]; intros fuel la s l1 l2 Hfuel H Hl Hlt.
  { assert (∀ i, scan_fds handle now fuel i 0 = mret []) as -> by (by destruct fuel).
    apply wp_ret. split; [done|]. exists l1, l2. rewrite Hl. split_and!; done. }
  destruct (decide (length (filter ready (e :: rest)) = 0%nat)) as [E|E].
  { destruct (refreshed_idle now _ E) as [-> ->].
    assert (∀ i, scan_fds handle now fuel i 0 = mret []) as -> by (by destruct fuel).
    apply wp_ret. split; [done|]. exists l1, l2. rewrite Hl. split_and!; done. }
  destruct fuel as [|fuel]; [simpl in Hfuel; lia|]. cbn [scan_fds].
  destruct (Z.leb_spec (Z.of_nat (length (filter ready (e :: rest)))) 0) as [Hc|_]; [lia|].
  destruct (rep_cell s l1 l2 (length la) e H) as (Hf & Hp & Hpl & Hr & _).
  { rewrite Hl, lookup_app_r, Nat.sub_diag by lia. done. }
  eapply wp_bind, wp_fds_get; [done|].
  destruct (Z.eqb_spec (revents (ent_fd e)) 0) as [Hz|Hz]; cbn [negb].
  - rewrite filter_cons_False by (intros Hx; by apply Hx). rewrite fmap_cons.
    assert (refreshed now e = e) as ->. { unfold refreshed. rewrite decide_False; [done|]. intros Hx. by apply Hx. }
    apply wp_bind. eapply wp_mono; [apply (wp_migrate s l1 l2 la e rest H Hl Hlt)|].
    intros [] s' (l1' & l2' & la' & H' & Hl' & Hla & Hlen & Hok).
    assert (nfds s' = nfds s) as Hn.
    { rewrite (rep_nfds _ _ _ H'), (rep_nfds _ _ _ H), Hl', Hl, Hla, <- app_assoc. done. }
    replace (Z.of_nat (length la) + 1) with (Z.of_nat (length la')) by (rewrite Hla, length_app; simpl; lia).
    eapply wp_mono; [apply (IH fuel la' s' l1' l2'); [simpl in Hfuel; lia | done | done | lia]|].
    intros tr s'' (-> & k1 & k2 & H'' & P & Hk & Hok'). split; [done|]. exists k1, k2.
    split_and!; [done | | lia | tauto]. by rewrite P, Hla, <- app_assoc.
  - rewrite filter_cons_True by done. rewrite !fmap_cons.
    assert (refreshed now e = touch now e) as ->. { unfold refreshed. by rewrite decide_True. }
    apply wp_bind, wp_get. eapply wp_bind, wp_fdpp_get; [done|]. eapply wp_bind, wp_plus_get; [done|].
    apply wp_bind, wp_modify, wp_bind. change (PollPlus _ _ now) with (ent_plus (touch now e)).
    destruct (rep_touch s l1 l2 la e rest now H Hl) as [Ht Hl1].
    set (m1 := touch_at now (ent_at e) <$> l1) in *. set (m2 := touch_at now (ent_at e) <$> l2) in *.
    eapply wp_mono; [apply (Hq _ _ _ _ _ _ _ Ht)|]. intros [] s' [H' Hok'].
    assert (nfds s' = nfds s) as Hn.
    { rewrite (rep_nfds _ _ _ H'), (rep_nfds _ _ _ H), Hl1, Hl, !length_app. done. }
    apply wp_bind, wp_get. rewrite Hn, Z.eqb_refl. cbn [negb length].
    replace (Z.of_nat (length la) + 1) with (Z.of_nat (length (la ++ [touch now e]))) by (rewrite length_app; simpl; lia).
    replace (Z.of_nat (S (length (filter ready rest))) - 1) with (Z.of_nat (length (filter ready rest))) by lia.
    apply wp_bind. eapply wp_mono; [apply (IH fuel _ s' m1 m2); [simpl in Hfuel; lia | done | | lia]|].
    { by rewrite Hl1, <- app_assoc. }
    intros tr s'' (-> & k1 & k2 & H'' & P & Hk & Hok''). apply wp_ret. split; [done|]. exists k1, k2.
    split_and!; [done | by rewrite P, <- app_assoc | by rewrite Hk; apply length_fmap |].
    intros Hok. apply Hok'', Hok'. intros i x Hx. simpl.
    assert ((efd <$> m1 ++ m2) = (efd <$> l1 ++ l2)) as Hfds.
    { unfold m1, m2. rewrite <- fmap_app. by apply touch_at_same. }
    assert ((efd <$> l1 ++ l2) !! i = Some (efd x)) as Hi by (rewrite <- Hfds, list_lookup_fmap, Hx; done).
    rewrite list_lookup_fmap in Hi. destruct ((l1 ++ l2) !! i) as [y|] eqn:Hy; [|done].
    injection Hi as <-. by apply Hok.
Qed.

(** ** Histories of the poll array *)

Inductive fdop := AddFd (fd type data : Z) | DelFd (fd : Z).
Definition run_fdop (o : fdop) : M loopst () :=
  match o with AddFd fd type data => add_fd fd type data | DelFd fd => remove_fd fd end.

(** The descriptors of the program: each with its type and its private data. *)
Definition fdmap : Type := gmap Z (Z * Z).
Definition spec_fdop (o : fdop) (m : fdmap) : fdmap :=
  match o with AddFd fd type data => <[fd := (type, data)]> m | DelFd fd => delete fd m end.
(** A descriptor is registered once, and is not negative. *)
Definition fdop_ok (o : fdop) (m : fdmap) : Prop :=
  match o with AddFd fd _ _ => 0 ≤ fd ∧ m !! fd = None | DelFd _ => True end.
Fixpoint history_ok (l : list fdop) (m : fdmap) : Prop :=
  match l with [] => True | o :: l' => fdop_ok o m ∧ history_ok l' (spec_fdop o m) end.

Definition loop0 : loopst := LoopSt 0 0 [] [] [] 0 0 ∅ 1 [].
Definition describe (e : ent) : Z * (Z * Z) := (efd e, (ptype (ent_plus e), private_data (ent_plus e))).
Definition shows (l : list ent) (m : fdmap) : Prop := list_to_map (describe <$> l) = m.

Lemma rep_loop0 : rep loop0 [] [].
Proof. split; simpl; try done; try (by exists []); constructor. Qed.

Lemma describe_fst (l : list ent) : (describe <$> l).*1 = efd <$> l.
Proof. rewrite <- list_fmap_compose. by apply list_fmap_ext. Qed.

Lemma shows_perm l l' m : NoDup (efd <$> l) → l ≡ₚ l' → shows l m → shows l' m.
Proof.
  unfold shows. intros Hnd P <-. apply list_to_map_proper; [|by rewrite P].
  by rewrite describe_fst, <- P.
Qed.

Lemma shows_fresh l m fd : shows l m → m !! fd = None ↔ fd ∉ efd <$> l.
Proof. intros <-. rewrite <- describe_fst. symmetry. apply not_elem_of_list_to_map. Qed.

Lemma shows_without l m fd : shows l m → shows (without fd l) (delete fd m).
Proof.
  unfold shows, without. intros <-. induction l as [|e l IH]; simpl; [symmetry; apply delete_empty|].
  destruct (decide (is_fd fd e)) as [E|E].
  - rewrite filter_cons_False by tauto. rewrite IH. unfold is_fd in E. subst. symmetry. apply delete_insert_eq.
  - rewrite filter_cons_True by done. rewrite !fmap_cons. simpl. rewrite IH. symmetry. by apply delete_insert_ne.
Qed.

Lemma wp_run_fdop o s l1 l2 m : rep s l1 l2 → shows (l1 ++ l2) m → fdop_ok o m →
  wp (run_fdop o) (λ _ s', ∃ l1' l2', rep s' l1' l2' ∧ shows (l1' ++ l2') (spec_fdop o m)) s.
Proof.
  intros H Hm Hok. destruct o as [fd type data|fd]; simpl in *.
  - destruct Hok as [Hfd Hf]. apply (shows_fresh _ _ _ Hm) in Hf as Hnew.
    eapply wp_mono; [apply (wp_add_fd s l1 l2 fd type data H Hfd Hnew)|].
    intros [] s' (e & (<- & _ & Hp) & Ha & _).
    assert (shows (e :: l1 ++ l2) (<[efd e := (type, data)]> m)) as Hs.
    { unfold shows in *. change (<[efd e := (ptype (ent_plus e), private_data (ent_plus e))]>
        (list_to_map (describe <$> l1 ++ l2)) = <[efd e := (type, data)]> m). by rewrite Hm, Hp. }
    assert (NoDup (efd <$> e :: l1 ++ l2)) as Hnd by (constructor; [done | apply H]).
    unfold added in Ha. destruct (eprio e); (do 2 eexists; split; [exact Ha|]); (eapply shows_perm; [exact Hnd | | exact Hs]).
    + rewrite <- app_assoc, rotate_perm. simpl. by rewrite <- Permutation_middle.
    + by rewrite app_assoc, <- Permutation_cons_append.
  - eapply wp_mono; [apply (wp_remove_fd s l1 l2 fd H)|]. intros [] s' (H' & _).
    do 2 eexists; split; [exact H'|]. rewrite <- without_app. by apply shows_without.
Qed.

Lemma wp_history l : ∀ s l1 l2 m, rep s l1 l2 → shows (l1 ++ l2) m → history_ok l m →
  wp (forM l run_fdop) (λ _ s', ∃ l1' l2', rep s' l1' l2' ∧ shows (l1' ++ l2') (foldl (flip spec_fdop) m l)) s.
Proof.
  induction l as [|o l IH]; intros s l1 l2 m H Hm Hok; simpl; [apply wp_ret; eauto|].
  destruct Hok as [Ho Hok]. apply wp_bind. eapply wp_mono; [apply (wp_run_fdop o s l1 l2 m H Hm Ho)|].
  intros [] s' (l1' & l2' & H' & Hm'). by apply (IH s' l1' l2').
Qed.

(** C33: Whatever descriptors are registered and removed, in any order, [add_fd]
    and [remove_fd] never access the arrays out of bounds, and the poll array
    then holds exactly the registered descriptors with their types and data,
    the priority ones in its first [nprio] cells. *)
Theorem poll_array_refines_map ops :
  history_ok ops ∅ →
  wp (forM ops run_fdop) (λ _ s, ∃ l1 l2, rep s l1 l2 ∧ shows (l1 ++ l2) (foldl (flip spec_fdop) ∅ ops)) loop0.
Proof. intros Hok. apply (wp_history ops loop0 [] []); [apply rep_loop0 | done | done]. Qed.

(** A pass of [main_loop] over a poll array where [n] descriptors are ready
    calls the manager of each of them exactly once, in the order of the array,
    and of no other, as long as the managers do not change the set of
    descriptors; the migration of busy descriptors only permutes the array, does
    not move a descriptor across the priority boundary, and keeps [fdperm]
    correct. *)
Theorem pass_serves_ready_descriptors handle now s l1 l2 :
  quiet handle → rep s l1 l2 → nfds s < 2 ^ 15 →
  wp (scan_fds handle now (length (l1 ++ l2)) 0 (Z.of_nat (length (filter ready (l1 ++ l2)))))
    (λ tr s', tr = call_of <$> filter ready (l1 ++ l2) ∧ ∃ l1' l2', rep s' l1' l2' ∧
      l1' ++ l2' ≡ₚ refreshed now <$> l1 ++ l2 ∧ length l1' = length l1 ∧
      (perm_ok s (l1 ++ l2) → perm_ok s' (l1' ++ l2'))) s.
Proof. intros Hq H Hlt. by apply (wp_scan_fds handle now Hq (l1 ++ l2) _ [] s l1 l2). Qed.

(** [remove_fd] calls the cleanup of the removed descriptor once, and keeps
    the others; but, because its last loop runs up to the old number of
    descriptors, [fdperm] then sends the last descriptor of the array one place
    past the end, unless it is the one removed. *)
Theorem remove_fd_misplaces_last s l1 l2 fd :
  rep s l1 l2 →
  wp (remove_fd fd) (λ _ s', rep s' (without fd l1) (without fd l2)
    ∧ cleaned s' = cleaned s ++ (cleanup_of <$> filter (is_fd fd) (l1 ++ l2))
    ∧ last_misplaced s' (l1 ++ l2) fd) s.
Proof. apply wp_remove_fd. Qed.

(** Three descriptors; the mask of the last one after the first is removed. *)
Definition lost_mask : M loopst (option pollfd) :=
  add_fd 3 0 30 ;; add_fd 4 0 40 ;; add_fd 5 0 50 ;; remove_fd 3 ;; mainloop_pollmask_set 5 4 ;;
  s ← get; mret (mjoin (zget (fds s) 1)).

(** After a priority descriptor is registered, the descriptor it displaced is
    no longer found: [mainloop_get_private_data] answers with the data of the
    new one.  After the removal of an earlier descriptor,
    [mainloop_pollmask_set] on the last one does not change the mask it is
    polled with. *)
Theorem descriptor_lookups_go_wrong :
  (∃ s, (add_fd 3 0 30 ;; add_fd 4 PRIOFLAG 40 ;; mainloop_get_private_data 3) loop0 = Done (Some 40) s)
  ∧ (∃ s, lost_mask loop0 = Done (Some (PollFd 5 (Z.lor POLLIN POLLHUP) 0)) s).
Proof. split; eexists; vm_compute; reflexivity. Qed.

(** The ninth type: the [memset] of the doubled table runs past its end. *)
Lemma ninth_type_overflows :
  (forM (seqZ 1 8) (λ mgr, _ ← add_type mgr 0; mret ()) ;; _ ← add_type 9 0; mret ()) (TypeTab [] 0 0) = Fault.
Proof. vm_compute. reflexivity. Qed.

(** The removal of a descriptor whose type has a manager calls that manager,
    once, and no other; without one the call goes through NULL. *)
Lemma removal_calls_its_manager t s l1 l2 fd e :
  rep s l1 l2 → e ∈ l1 ++ l2 → efd e = fd → cleaned s = [] →
  wp (remove_fd fd) (λ _ s', cleanup_calls t (cleaned s') =
    match TYPE2MGR t (ptype (ent_plus e)) with Some mgr => Some [(mgr, cleanup_of e)] | None => None end) s.
Proof.
  intros H (la & lb & Hl)%list_elem_of_split He Hc. eapply wp_mono; [exact (wp_remove_fd s l1 l2 fd H)|].
  intros [] s' (_ & -> & _). rewrite Hc, Hl, (filter_is_fd fd la e lb); [|rewrite <- Hl; apply H | done].
  unfold cleanup_calls. simpl. by destruct (TYPE2MGR t _).
Qed.

(** A type is found again by its index, and is one of the first eight. *)
Lemma first_types_work :
  (t1 ← add_type 100 0; t2 ← add_type 200 1; s ← get; mret (t1, t2, zget (fdtypes s) (Z.land t2 TYPEMASK)))
    (TypeTab [] 0 0)
  = Done (0, 0x81, Some (Some 200)) (TypeTab [Some 100; Some 200; None; None; None; None; None; None] 2 8).
Proof. vm_compute. reflexivity. Qed.

Definition ops_demo : list fdop := [AddFd 3 0 30; AddFd 4 PRIOFLAG 40; AddFd 5 0 50; DelFd 3].

Lemma poll_array_refines_map_witness :
  history_ok ops_demo ∅ ∧
  wp (forM ops_demo run_fdop) (λ _ s, ∃ l1 l2, rep s l1 l2 ∧ shows (l1 ++ l2) (foldl (flip spec_fdop) ∅ ops_demo)) loop0.
Proof.
  assert (history_ok ops_demo ∅) as Hok by (vm_compute; repeat split; discriminate).
  split; [exact Hok | exact (poll_array_refines_map ops_demo Hok)].
Defined.

(** A state with two descriptors, the second ready and the busier one. *)
Definition ent3 : ent := Ent (PollFd 3 17 0) 1 (PollPlus 0 30 0).
Definition ent4 : ent := Ent (PollFd 4 17 1) 2 (PollPlus 0 40 0).
Definition loop2 : loopst :=
  LoopSt 2 0 [Some (ent_fd ent3); Some (ent_fd ent4)] [Some 1; Some 2] (replicate 3 None ++ [Some 0; Some 1])
    2 5 (<[1 := ent_plus ent3]> (<[2 := ent_plus ent4]> ∅)) 3 [].

Lemma rep_loop2 : rep loop2 [] [ent3; ent4].
Proof.
  split; try (by exists []); try done.
  - repeat constructor; vm_compute; done.
  - apply (bool_decide_unpack (NoDup [3; 4])). vm_compute. done.
  - apply (bool_decide_unpack (NoDup [1; 2])). vm_compute. done.
  - repeat constructor.
Qed.

Lemma pass_serves_ready_descriptors_witness :
  wp (scan_fds (λ _ _ _ _, mret ()) 7 2 0 1) (λ tr _, tr = [(0, 4, 1, 40)]) loop2.
Proof.
  eapply wp_mono; [apply (pass_serves_ready_descriptors (λ _ _ _ _, mret ()) 7 loop2 [] [ent3; ent4])|].
  - intros t f r d s l1 l2 H. by apply wp_ret.
  - exact rep_loop2.
  - vm_compute. reflexivity.
  - intros tr s' [-> _]. vm_compute. reflexivity.
Defined.

Lemma remove_fd_misplaces_last_witness :
  wp (remove_fd 3) (λ _ s', cleaned s' = [(0, 3, 30)] ∧ zget (fdperm s') 4 = Some (Some (nfds s'))) loop2.
Proof.
  eapply wp_mono; [exact (remove_fd_misplaces_last loop2 [] [ent3; ent4] 3 rep_loop2)|].
  intros [] s' (H & Hc & Hl). split; [exact Hc|].
  apply (Hl ent4); [done | done | set_solver |]. rewrite (rep_nfds _ _ _ H). vm_compute. reflexivity.
Defined.
