(* ===== verification/PortSend.v ===== *)
(** * PortSend: sending, tagging and port status, the lower half of [port.c]

    The functions of [vde_switch/port.c] that [fstp.c] and the packet path call:
    [SEND_PACKET_PORT] with and without the packet queues of [VDE_PQ2], the
    802.1Q header rewriting, the spanning-tree port status, the flags.  A packet
    is the whole receive buffer from the destination address on, with its
    length beside it, as in the code. *)
From Stdlib Require Import Lia.
From stdpp Require Import base numbers list gmap strings.
From S2P Require Import Prelude BitArray Hash Qtimer Switch.

(** ** 802.1Q header rewriting *)

Definition take_z (n : Z) (l : list Z) : list Z := take (Z.to_nat n) l.

(** [TAG2UNTAG]: the two addresses move right over the tag. *)
Definition TAG2UNTAG (packet : list Z) (len : Z) : list Z * Z :=
  (take 12 packet ++ drop 16 packet, len - 4).

(** [UNTAG2TAG]: the two addresses move left into the spare bytes of the
    bipacket and the tag is written after them. *)
Definition UNTAG2TAG (packet : list Z) (vlan len : Z) : list Z * Z :=
  (take 12 packet ++ [0x81; 0x00; u8 (Z.shiftr vlan 8); u8 vlan] ++ drop 12 packet, len + 4).

(** Fields of [struct packet]. *)
Definition pk_dest (packet : list Z) : list Z := take 6 packet.
Definition pk_src (packet : list Z) : list Z := take 6 (drop 6 packet).
Definition pk_byte (packet : list Z) (i : nat) : Z := nth i packet 0.

Definition IS_BROADCAST (addr : list Z) : bool := Z.land (nth 0 addr 0) 1 =? 1.

Definition bpduaddrp : list Z := [0x01; 0x80; 0xc2; 0x00; 0x00; 0x00].
Definition ISBPDU (packet : list Z) : bool := memcmp (pk_dest packet) bpduaddrp =? 0.

(** [packet->header.proto] is 81:00. *)
Definition is_tagged (packet : list Z) : bool :=
  (pk_byte packet 12 =? 0x81) && (pk_byte packet 13 =? 0x00).
(** [((packet->data[0] << 8) + packet->data[1]) & 0xfff] *)
Definition tag_vlan (packet : list Z) : Z :=
  Z.land (Z.shiftl (pk_byte packet 14) 8 + pk_byte packet 15) 0xfff.

Section send.
Context {T : Type} `{!MacTable T} (E : env).
Abbreviation sw := (switch T).

(** ** Sending *)

(** [Port->ms->sender(ep->fd_ctl, ep->fd_data, packet, len, ep->port)] *)
Definition call_sender (ms : option mod_support) (e : endpoint) (packet : list Z) (len : Z) : M sw Z :=
  _ ← deref ms;
  s ← get;
  modify (add_event (EvSend (fd_ctl e) (fd_data e) (take_z len packet) (ep_port e))) ;;
  mret (sender E (length (trace s)) (fd_ctl e) (fd_data e) (take_z len packet) (ep_port e)).

(** [vdepq_add] on the queue as a list of packets, oldest first ([PacketQ]
    relates it to the circular list of the code).  [tmp] is the packet copied
    by an earlier call, shared by all the queues it was added to. *)
Definition vdepq_add_q (q : list (list Z)) (packet : list Z) (len : Z) (tmp : option (list Z))
    : M sw (Z * list (list Z) * option (list Z)) :=
  ok ← malloc E;
  if negb ok then mret (0, q, tmp) else
  match tmp with
  | Some b => mret (1, q ++ [b], tmp)
  | None =>
    ok ← malloc E;
    if negb ok then mret (0, q, None)
    else let b := take_z len packet in mret (1, q ++ [b], Some b)
  end.

(** The body of the endpoint loop of [SEND_PACKET_PORT]. *)
Definition send_ep (ms : option mod_support) (e : endpoint) (packet : list Z) (len : Z)
    (tmp : option (list Z)) : M sw (endpoint * option (list Z)) :=
  if negb (VDE_PQ2 E) then
    _ ← call_sender ms e packet len; mret (e, tmp)
  else
    blocked ← (if negb (vdepq_count e =? 0) then mret true
               else rv ← call_sender ms e packet len; mret (rv =? - EWOULDBLOCK));
    if negb blocked then mret (e, tmp) else
      r ← (if vdepq_count e <? vdepq_max e then
             x ← vdepq_add_q (vdepq e) packet len tmp;
             let '(n, q, tmp') := x in mret (upd_queue q (vdepq_count e + n) e, tmp')
           else mret (e, tmp));
      whenM (vdepq_count r.1 =? 1) (modify (add_event (EvPollAdd (fd_data r.1)))) ;;
      mret r.

Fixpoint send_eps (ms : option mod_support) (l : list endpoint) (packet : list Z) (len : Z)
    (tmp : option (list Z)) : M sw (list endpoint * option (list Z)) :=
  match l with
  | [] => mret ([], tmp)
  | e :: l' =>
    r ← send_ep ms e packet len tmp;
    rs ← send_eps ms l' packet len r.2;
    mret (r.1 :: rs.1, rs.2)
  end.

(** [SEND_PACKET_PORT]; without [DEBUGOPT] the packet filter is [(LEN)].  The
    endpoints are written back once the loop is over: a sender does not look at
    them. *)
Definition SEND_PACKET_PORT (portno : Z) (packet : list Z) (len : Z) (tmp : option (list Z))
    : M sw (option (list Z)) :=
  o ← port_ptr portno;
  if len =? 0 then mret tmp else
  pt ← deref o;
  let pt := if PORTCOUNTERS E
            then upd_counters (p_pktsin pt) (p_pktsout pt + 1) (p_bytesin pt) (p_bytesout pt + len) pt
            else pt in
  rs ← send_eps (p_ms pt) (p_ep pt) packet len tmp;
  port_put portno (upd_ep rs.1 pt) ;;
  mret rs.2.

Definition port_send_packet (portno : Z) (packet : list Z) (len : Z) : M sw () :=
  _ ← SEND_PACKET_PORT portno packet len None; mret ().

(** Sending one packet to the ports of a list; the copy made for the first
    queue that needs it ([tmpbuf]) is carried along. *)
Fixpoint send_ports (l : list Z) (packet : list Z) (len : Z) (tmp : option (list Z))
    : M sw (option (list Z)) :=
  match l with
  | [] => mret tmp
  | p :: l' => tmp' ← SEND_PACKET_PORT p packet len tmp; send_ports l' packet len tmp'
  end.

(** The expansion of [ba_FORALL(set,numports,({if (i != port) SEND_PACKET_PORT(...)}),i)]:
    the words are read in order, one at a time. *)
Definition FORALL_SEND (getx : sw → option bitarray) (except : Z) (packet : list Z) (len : Z)
    (tmp : option (list Z)) : M sw (option (list Z)) :=
  s ← get;
  foldl (λ acc i,
    tmp ← acc;
    s ← get;
    x ← deref (getx s);
    v ← deref (zget x i);
    send_ports (filter (λ k, k ≠ except) (bits_of 64 v (i * 64))) packet len tmp)
    (mret tmp) (seqZ 0 (WORDSIZEROUND (numports s))).

Definition portset_send_packet (getx : sw → option bitarray) (packet : list Z) (len : Z) : M sw () :=
  _ ← FORALL_SEND getx (-1) packet len None; mret ().

(** ** Port status for the spanning tree *)

Definition port_set_status (portno vlan status : Z) : M sw () :=
  c ← vl_check vlan Table portno;
  if negb c then mret () else
  if status =? DISCARDING then
    vl_set vlan Notlearning portno ;; vl_clr vlan Bctag portno ;; vl_clr vlan Bcuntag portno
  else if status =? LEARNING then
    vl_clr vlan Notlearning portno ;; vl_clr vlan Bctag portno ;; vl_clr vlan Bcuntag portno
  else
    vl_clr vlan Notlearning portno ;;
    pt ← port_get portno;
    if p_vlanuntag pt =? vlan then vl_set vlan Bcuntag portno else vl_set vlan Bctag portno.

Definition port_get_status (portno vlan : Z) : M sw Z :=
  nl ← vl_check vlan Notlearning portno;
  if (nl : bool) then mret DISCARDING else
  a ← vl_check vlan Bctag portno;
  if (a : bool) then mret FORWARDING else
  b ← vl_check vlan Bcuntag portno;
  mret (if (b : bool) then FORWARDING else LEARNING).

Definition port_getcost (p : Z) : M sw Z := pt ← port_get p; mret (p_cost pt).

(** ** Flags *)

Definition flag_op (op f old : Z) : Z * Z :=
  if op =? P_GETFLAG then (Z.land old f, old)
  else if op =? P_SETFLAG then (old, f)
  else if op =? P_ADDFLAG then (old, Z.lor old f)
  else if op =? P_CLRFLAG then (old, Z.land old (Z.lnot f))
  else (old, old).

Definition portflag (op f : Z) : M sw Z :=
  s ← get; let '(rv, n) := flag_op op f (pflag s) in modify (set_pflag n) ;; mret rv.

(** ** The output queue *)

(** [vdepq_try] on the list of queued packets: send the oldest ones until the
    sender would block; the result is the rest and the number sent. *)
Fixpoint vdepq_try_q (ms : option mod_support) (e : endpoint) (q : list (list Z)) (sent : Z)
    : M sw (list (list Z) * Z) :=
  match q with
  | [] => mret ([], sent)
  | b :: q' =>
    rv ← call_sender ms e b (Z.of_nat (length b));
    if rv =? - EWOULDBLOCK then mret (q, sent) else vdepq_try_q ms e q' (sent + 1)
  end.

(** [handle_out_packet(ep)], [ep] being the [k]-th endpoint of its port. *)
Definition handle_out_packet (portno : Z) (k : nat) : M sw () :=
  pt ← port_get portno;
  e ← deref (p_ep pt !! k);
  r ← vdepq_try_q (p_ms pt) e (vdepq e) 0;
  let e' := upd_queue r.1 (vdepq_count e - r.2) e in
  port_put portno (upd_ep (<[k := e']> (p_ep pt)) pt) ;;
  whenM (vdepq_count e' =? 0) (modify (add_event (EvPollDel (fd_data e')))).

End send.

(** ** Tagging round trips *)

Lemma u8_shiftr8 v : 0 ≤ v < 4096 → u8 (Z.shiftr v 8) = v / 256.
Proof. intros. rewrite Z.shiftr_div_pow2 by lia. change (2 ^ 8) with 256. apply u8_small. dlia. Qed.

(** Tagging a frame and untagging it gives the frame back; a frame tagged
    for a VLAN is recognised as tagged, carries that VLAN number, and keeps
    both addresses and the payload; untagging then re-tagging a frame whose
    tag has no priority bits gives it back. *)
Theorem tagging_roundtrip (packet : list Z) (vlan len : Z)
    (Hlen : (14 ≤ length packet)%nat) (Hv : 0 ≤ vlan < 4096) :
  let '(tagged, len') := UNTAG2TAG packet vlan len in
  TAG2UNTAG tagged len' = (packet, len) ∧ is_tagged tagged = true ∧ tag_vlan tagged = vlan ∧
  pk_dest tagged = pk_dest packet ∧ pk_src tagged = pk_src packet ∧ drop 16 tagged = drop 12 packet ∧
  (is_tagged packet = true → (16 ≤ length packet)%nat → Forall byteP packet →
     pk_byte packet 14 < 16 → tag_vlan packet = vlan →
     let '(u, ulen) := TAG2UNTAG packet len in UNTAG2TAG u vlan ulen = (packet, len)).
Proof.
  unfold UNTAG2TAG.
  destruct packet as [|a0 [|a1 [|a2 [|a3 [|a4 [|a5 [|a6 [|a7 [|a8 [|a9 [|a10 [|a11 [|a12 [|a13 rest]]]]]]]]]]]]]];
    simpl in Hlen; try lia.
  assert (u8 vlan = vlan mod 256) as Hlo by done.
  split_and!; try done.
  - unfold TAG2UNTAG. simpl. f_equal. lia.
  - unfold tag_vlan, pk_byte. cbn [app take drop nth]. rewrite u8_shiftr8, Hlo by lia.
    change 0xfff with (Z.ones 12). rewrite Z.land_ones, Z.shiftl_mul_pow2 by lia. dlia.
  - intros Htag Hl Hb Hprio Hvl. destruct rest as [|a14 [|a15 rest]]; simpl in Hl; try lia.
    unfold TAG2UNTAG. cbn [take drop app]. f_equal; [|lia].
    unfold is_tagged, pk_byte in Htag. cbn [nth] in Htag.
    apply andb_true_iff in Htag as [?%Z.eqb_eq ?%Z.eqb_eq]. subst a12 a13.
    unfold pk_byte in Hprio. cbn [nth] in Hprio. rewrite !Forall_cons in Hb. unfold byteP in Hb. destruct_and!.
    unfold tag_vlan, pk_byte in Hvl. cbn [nth] in Hvl.
    change 0xfff with (Z.ones 12) in Hvl. rewrite Z.land_ones, Z.shiftl_mul_pow2 in Hvl by lia.
    change (2 ^ 12) with 4096 in Hvl. change (2 ^ 8) with 256 in Hvl.
    rewrite Z.mod_small in Hvl by lia.
    rewrite u8_shiftr8, Hlo by lia. clear Hlen Hl.
    assert (vlan / 256 = a14) as -> by dlia. by assert (vlan mod 256 = a15) as -> by dlia.
Qed.

Lemma tagging_roundtrip_witness :
  TAG2UNTAG (UNTAG2TAG (repeat 1 60) 100 60).1 (UNTAG2TAG (repeat 1 60) 100 60).2 = (repeat 1 60, 60).
Proof.
  refine (proj1 (tagging_roundtrip (repeat 1 60) 100 60 _ _)); [vm_compute; lia | lia].
Defined.
