(* ===== verification/Fstp.v ===== *)
(** * Fstp: the fast spanning tree protocol, [vde_switch/fstp.c]

    BPDU construction and parsing, the per-VLAN spanning-tree record and its
    bit sets, the hello timer, and the reaction to a received BPDU, translated
    function by function on the shared switch state. *)
From Stdlib Require Import Lia.
From stdpp Require Import base numbers list gmap strings.
From S2P Require Import Prelude Scan BitArray Hash Qtimer Switch PortSend.

(** ** Wire formats *)

(** [ltonstring] and [nstringtol]: 32 bits in network order. *)
Definition ltonstring (l : Z) : list Z :=
  [u8 (Z.shiftr l 24); u8 (Z.shiftr l 16); u8 (Z.shiftr l 8); u8 l].
Definition nstringtol (s : list Z) : Z :=
  u64 (i32 (Z.shiftl (nth 0 s 0) 24 + Z.shiftl (nth 1 s 0) 16 + Z.shiftl (nth 2 s 0) 8 + nth 3 s 0)).

Definition STP_TC : Z := 0x01.
Definition STP_PORTROLEMASK : Z := 0x0c.
Definition STP_ROOT : Z := 0x04.
Definition SWITCHID_LEN : nat := 8.
Definition STDHELLOPERIOD : Z := 4.

(** [SETFSTID(ID,MAC,PRIO)] *)
Definition SETFSTID (mac : list Z) (prio : Z) : list Z := [u8 (Z.shiftr prio 8); u8 prio] ++ take 6 mac.

Definition bpdu_tail (b : bpdu) : list Z :=
  b_llc b ++ b_protocol b ++ [b_version b; b_type b; b_flags b] ++ b_root b ++ b_rootcost b ++
  b_bridge b ++ b_port b ++ b_age b ++ b_maxage b ++ b_hello b ++ b_fwddelay b ++ [b_v1len b].
(** The bytes of the packed structures [fstbpdu] and [fsttagbpdu]. *)
Definition fstbpdu_bytes (b : bpdu) : list Z := b_dest b ++ b_src b ++ b_proto b ++ bpdu_tail b.
Definition fsttagbpdu_bytes (b : bpdu) : list Z :=
  b_dest b ++ b_src b ++ b_proto b ++ b_tag_vlan b ++ b_tag_proto b ++ bpdu_tail b.

Definition zeros (n : nat) : list Z := replicate n 0.

(** The initial values of [outpacket] and [outtagpacket]. *)
Definition outpacket_init : bpdu :=
  Bpdu bpduaddrp (zeros 6) [0x00; 0x27] (zeros 2) (zeros 2) [0x42; 0x42; 0x3] [0; 0] 2 2 0
    (zeros 8) (zeros 4) (zeros 8) (zeros 2) (zeros 2) (zeros 2) (zeros 2) (zeros 2) 0.
Definition outtagpacket_init : bpdu :=
  Bpdu bpduaddrp (zeros 6) [0x81; 0x00] (zeros 2) [0x00; 0x27] [0x42; 0x42; 0x3] [0; 0] 2 2 0
    (zeros 8) (zeros 4) (zeros 8) (zeros 2) (zeros 2) (zeros 2) (zeros 2) (zeros 2) 0.

(** Assignments to the fields the protocol writes. *)
Definition bpdu_set_root (root cost : list Z) (b : bpdu) : bpdu :=
  let 'Bpdu d s p tv tp l pr v t f _ _ br po a m h fd v1 := b in
  Bpdu d s p tv tp l pr v t f root cost br po a m h fd v1.
Definition bpdu_set_age (age : list Z) (b : bpdu) : bpdu :=
  let 'Bpdu d s p tv tp l pr v t f r c br po _ m h _ v1 := b in
  Bpdu d s p tv tp l pr v t f r c br po age m h [0; 0] v1.
Definition bpdu_set_port (po : list Z) (b : bpdu) : bpdu :=
  let 'Bpdu d s p tv tp l pr v t f r c br _ a m h fd v1 := b in
  Bpdu d s p tv tp l pr v t f r c br po a m h fd v1.
Definition bpdu_set_vlan (tv : list Z) (b : bpdu) : bpdu :=
  let 'Bpdu d s p _ tp l pr v t f r c br po a m h fd v1 := b in
  Bpdu d s p tv tp l pr v t f r c br po a m h fd v1.
Definition bpdu_set_flags (f : Z) (b : bpdu) : bpdu :=
  let 'Bpdu d s p tv tp l pr v t _ r c br po a m h fd v1 := b in
  Bpdu d s p tv tp l pr v t f r c br po a m h fd v1.
Definition bpdu_set_ids (bridge src hello maxage : list Z) (b : bpdu) : bpdu :=
  let 'Bpdu d _ p tv tp l pr v t f r c _ po a _ _ fd v1 := b in
  Bpdu d src p tv tp l pr v t f r c bridge po a maxage hello fd v1.

(** The fields of a received BPDU, at their offsets in [struct fstbpdu]. *)
Definition p_version (p : list Z) : Z := pk_byte p 19.
Definition p_type (p : list Z) : Z := pk_byte p 20.
Definition p_flags (p : list Z) : Z := pk_byte p 21.
Definition p_root (p : list Z) : list Z := take 8 (drop 22 p).
Definition p_rootcost (p : list Z) : list Z := take 4 (drop 30 p).
Definition p_bridge (p : list Z) : list Z := take 8 (drop 34 p).
Definition p_stpport (p : list Z) : list Z := take 2 (drop 42 p).

(** Assignments to the fields of [struct vlst]. *)
Definition vlst_set_root (root cost dessw po : list Z) (rootport ts : Z) (v : vlst) : vlst :=
  let 'Vlst _ _ _ _ _ bp bc tc _ a b c d e g := v in
  Vlst root cost dessw po rootport bp bc tc ts a b c d e g.
Definition vlst_set_timestamp (ts : Z) (v : vlst) : vlst :=
  let 'Vlst ro rc de po rp bp bc tc _ a b c d e g := v in Vlst ro rc de po rp bp bc tc ts a b c d e g.
Definition vlst_set_tctime (tc : Z) (v : vlst) : vlst :=
  let 'Vlst ro rc de po rp bp bc _ ts a b c d e g := v in Vlst ro rc de po rp bp bc tc ts a b c d e g.
Definition vlst_set_bonus (bp bc : Z) (v : vlst) : vlst :=
  let 'Vlst ro rc de po rp _ _ tc ts a b c d e g := v in Vlst ro rc de po rp bp bc tc ts a b c d e g.
(** A freshly allocated record: arrays not yet assigned. *)
Definition vlst_new : vlst :=
  Vlst (zeros 8) (zeros 4) (zeros 8) (zeros 2) 0 0 0 0 0 None None None None None None.

Section fstp.
Context {T : Type} `{!MacTable T} (E : env).
Abbreviation sw := (switch T).

Definition qtime_m : M sw Z := gets now.
Definition fnp : M sw Z := gets (λ s, fnumports (fst_st s)).

(** [fstflag]: the flags of [fstp.c]. *)
Definition fstflag (op f : Z) : M sw Z :=
  s ← get; let '(rv, n) := flag_op op f (fpflag (fst_st s)) in upd_fst (set_fpflag n) ;; mret rv.

Definition FSTP_ACTIVE (v p : Z) : M sw bool :=
  a ← fs_check v Rcvhist0 p; if (a : bool) then mret true else fs_check v Rcvhist1 p.

(** [STP_FLAGS(VLAN,PORT,AGR,TC,TCACK)], stored in an unsigned char. *)
Definition STP_FLAGS (v p agr tc tcack : Z) : M sw Z :=
  bk ← fs_check v Backup p;
  r ← fs_get v;
  st ← port_get_status p v;
  mret (u8 (Z.lor tc (Z.lor (Z.shiftl (if (bk : bool) then 1 else 0) 1)
    (Z.lor (Z.shiftl (if (bk : bool) then 0 else 1) 2)
    (Z.lor (Z.shiftl (if f_rootport r =? p then 0 else 1) 3)
    (Z.lor (Z.shiftl st 4) (Z.lor (Z.shiftl agr 6) (Z.shiftl tcack 7)))))))).

Definition ba_alloc_m : M sw (option bitarray) :=
  ok ← calloc E; n ← fnp; mret (if (ok : bool) then Some (ba_alloc n) else None).

(** The allocations of a new VLAN record, in the order of the [||] chain;
    [true]: all succeeded. *)
Fixpoint alloc_fields (v : Z) (l : list ffield) : M sw bool :=
  match l with
  | [] => mret true
  | f :: l' =>
    x ← ba_alloc_m;
    r ← fs_get v;
    fs_put v (fset f x r) ;;
    match x with None => mret false | Some _ => alloc_fields v l' end
  end.

(** The [memset] of four bytes at the two bytes of [port] also clears the two
    bytes of padding in front of the next member, which nothing reads. *)
Definition fstnewvlan (v : Z) : M sw Z :=
  o ← fs_ptr v;
  let newvlan := bool_decide (o = None) in
  ok ← (if newvlan then
          a ← calloc E;
          if negb a then mret false else
            fs_put v vlst_new ;;
            alloc_fields v [Untag; Tagged; Edge; Rcvhist0; Rcvhist1; Backup]
        else mret true);
  if negb ok then mret ENOMEM else
  s ← get;
  r ← fs_get v;
  fs_put v (vlst_set_root (myid (fst_st s)) (zeros 4) (replicate 8 0xff) (zeros 2) 0 0 r) ;;
  whenM newvlan (r ← fs_get v; fs_put v (vlst_set_tctime 0 (vlst_set_bonus 0 0 r))) ;;
  n ← fnp;
  ba_FORALL (fs_array v Backup) n (λ p,
    fs_clr v Backup p ;; port_set_status p v FORWARDING) ;;
  mret 0.

Definition fstremovevlan (v : Z) : M sw Z :=
  o ← fs_ptr v;
  match o with
  | None => mret ENOENT
  | Some _ => upd_fst (λ f, set_fsttab (delete v (fsttab f)) f) ;; mret 0
  end.

(** Reallocation of one array of [fsttab[i]]; [exit(1)] on failure. *)
Definition fs_realloc (v : Z) (n m : Z) (f : ffield) : M sw () :=
  ok ← calloc E;
  if negb ok then exitM 1 else
  r ← fs_get v;
  x ← deref (fget f r);
  x' ← deref (ba_realloc x (replicate (Z.to_nat (WORDSIZEROUND m)) 0) n m);
  fs_put v (fset f (Some x') r).

Definition fstsetnumports (val : Z) : M sw () :=
  forM (seqZ 0 NUMOFVLAN) (λ i,
    o ← fs_ptr i;
    match o with
    | None => mret ()
    | Some _ =>
      n ← fnp;
      forM [Untag; Tagged; Backup; Edge; Rcvhist0; Rcvhist1] (fs_realloc i n val)
    end) ;;
  upd_fst (set_fnumports val).

(** The two global packet buffers. *)
Definition upd_out (g : bpdu → bpdu) : M sw () := upd_fst (λ f, set_outpacket (g (outpacket f)) f).
Definition upd_outtag (g : bpdu → bpdu) : M sw () := upd_fst (λ f, set_outtagpacket (g (outtagpacket f)) f).

Definition port_bytes (p : Z) : list Z := [u8 (Z.lor 0x80 (Z.shiftr p 4)); u8 p].
Definition vlan_bytes (v : Z) : list Z := [u8 (Z.land (Z.shiftr v 8) 0xf); u8 v].

(** Fill in port and flags and send the untagged (tagged) packet. *)
Definition send_out (v p agr tc tcack : Z) : M sw () :=
  upd_out (bpdu_set_port (port_bytes p)) ;;
  fl ← STP_FLAGS v p agr tc tcack;
  upd_out (bpdu_set_flags fl) ;;
  s ← get;
  let b := fstbpdu_bytes (outpacket (fst_st s)) in
  port_send_packet E p b (Z.of_nat (length b)).
Definition send_outtag (v p agr tc tcack : Z) : M sw () :=
  upd_outtag (bpdu_set_port (port_bytes p)) ;;
  upd_outtag (bpdu_set_vlan (vlan_bytes v)) ;;
  fl ← STP_FLAGS v p agr tc tcack;
  upd_outtag (bpdu_set_flags fl) ;;
  s ← get;
  let b := fsttagbpdu_bytes (outtagpacket (fst_st s)) in
  port_send_packet E p b (Z.of_nat (length b)).

(** The two age bytes: [int] minus [unsigned int], capped at 0xffff. *)
Definition age_bytes (nowvlan ts : Z) : list Z :=
  let age := i32 (nowvlan - ts) in
  let age := if 0xffff <? age then 0xffff else age in
  [u8 age; u8 (Z.shiftr age 8)].

Definition fst_hello_vlan (v now : Z) : M sw () :=
  r ← fs_get v;
  s ← get;
  whenM (negb (f_rootport r =? 0) && (u32 (3 * helloperiod (fst_st s)) <? u32 (now - f_roottimestamp r)))
    (_ ← fstnewvlan v; mret ()) ;;
  r ← fs_get v;
  let nowvlan := if f_rootport r =? 0 then 0 else now in
  upd_out (bpdu_set_root (f_root r) (f_rootcost r)) ;;
  upd_outtag (bpdu_set_root (f_root r) (f_rootcost r)) ;;
  upd_out (bpdu_set_age (age_bytes nowvlan (f_roottimestamp r))) ;;
  upd_outtag (bpdu_set_age (age_bytes nowvlan (f_roottimestamp r))) ;;
  n ← fnp;
  ba_FORALL (fs_array v Untag) n (λ p,
    e ← fs_check v Edge p; whenM (negb e) (send_out v p 1 0 0)) ;;
  ba_FORALL (fs_array v Tagged) n (λ p,
    e ← fs_check v Edge p; whenM (negb e) (send_outtag v p 1 0 0)).

Definition rcvhist (index : Z) : ffield := if index =? 0 then Rcvhist0 else Rcvhist1.

Definition fst_updatebackup (v index : Z) : M sw () :=
  n ← fnp;
  ba_FORALL (fs_array v Backup) n (λ p,
    a ← FSTP_ACTIVE v p;
    whenM (negb a) (fs_clr v Backup p ;; port_set_status p v FORWARDING)) ;;
  r ← fs_get v;
  x ← deref (fget (rcvhist index) r);
  x' ← deref (ba_zap x n);
  fs_put v (fset (rcvhist index) (Some x') r).

Definition fst_hello : M sw () :=
  now ← qtime_m;
  upd_fst (λ f, set_hellocounter (i32 (hellocounter f + 1)) f) ;;
  bac_FORALL vv_array NUMOFVLAN (λ v, fst_hello_vlan v now) ;;
  s ← get;
  whenM (Z.land (hellocounter (fst_st s)) 3 =? 0) (
    upd_fst (λ f, set_rcvhistindex (1 - rcvhistindex f) f) ;;
    s ← get;
    bac_FORALL vv_array NUMOFVLAN (λ v, fst_updatebackup v (rcvhistindex (fst_st s)))).

Definition fst_sendbpdu (v p agr tc tcack : Z) : M sw () :=
  now ← qtime_m;
  s ← get;
  if Z.land (fpflag (fst_st s)) FSTP_TAG =? 0 then mret () else
  r ← fs_get v;
  let nowvlan := if f_rootport r =? 0 then 0 else now in
  u ← fs_check v Untag p;
  whenM u (
    upd_out (bpdu_set_root (f_root r) (f_rootcost r)) ;;
    upd_out (bpdu_set_age (age_bytes nowvlan (f_roottimestamp r))) ;;
    send_out v p agr tc tcack) ;;
  t ← fs_check v Tagged p;
  whenM t (
    upd_outtag (bpdu_set_root (f_root r) (f_rootcost r)) ;;
    upd_outtag (bpdu_set_age (age_bytes nowvlan (f_roottimestamp r))) ;;
    send_outtag v p agr tc tcack).

(** The condition of the loops of [topology_change] and [fastprotocol]. *)
Definition designated (v p gen : Z) : M sw bool :=
  if p =? gen then mret false else
  b ← fs_check v Backup p;
  if (b : bool) then mret false else
  e ← fs_check v Edge p;
  if (e : bool) then mret false else FSTP_ACTIVE v p.

Definition topology_change (v genport : Z) : M sw () :=
  now ← qtime_m;
  r ← fs_get v;
  fs_put v (vlst_set_tctime now r) ;;
  hash_delete_vlan_m v ;;
  n ← fnp;
  ba_FORALL (fs_array v Untag) n (λ p,
    c ← designated v p genport; whenM c (fst_sendbpdu v p 0 1 0)) ;;
  ba_FORALL (fs_array v Tagged) n (λ p,
    c ← designated v p genport; whenM c (fst_sendbpdu v p 0 1 0)).

Definition fastprotocol_body (v newrootport p : Z) : M sw () :=
  c ← designated v p newrootport;
  whenM c (
    port_set_status p v DISCARDING ;;
    fs_set v Backup p ;;
    fst_sendbpdu v p 0 0 0).

Definition fastprotocol (v newrootport : Z) : M sw () :=
  n ← fnp;
  ba_FORALL (fs_array v Untag) n (fastprotocol_body v newrootport) ;;
  ba_FORALL (fs_array v Tagged) n (fastprotocol_body v newrootport) ;;
  fs_clr v Backup newrootport ;;
  port_set_status newrootport v FORWARDING ;;
  fst_sendbpdu v newrootport 1 0 0.

(** The comparison of the stored priority vector with the received one:
    positive when the received one is better. *)
Definition compare_bpdu (r : vlst) (root cost bridge po : list Z) : Z :=
  let c1 := memcmp (f_root r) root in
  if negb (c1 =? 0) then c1 else
  let c2 := memcmp (f_rootcost r) cost in
  if negb (c2 =? 0) then c2 else
  let c3 := memcmp (f_dessw r) bridge in
  if negb (c3 =? 0) then c3 else memcmp (f_port r) po.

Definition fst_in_bpdu (p : Z) (inpacket : list Z) (len v : Z) (tagged : bool) : M sw () :=
  _ ← fs_ptr v;
  e ← fs_check v Edge p;
  if (e : bool) then mret () else
  s ← get;
  fs_set v (rcvhist (rcvhistindex (fst_st s))) p ;;
  let pk := if tagged then drop 4 inpacket else inpacket in
  let len := if tagged then len - 4 else len in
  if (len <? 51) || negb (p_version pk =? 2) || negb (p_type pk =? 2) then mret () else
  whenM (negb (Z.land (p_flags pk) STP_TC =? 0)) (topology_change v p) ;;
  pcost ← port_getcost p;
  r ← fs_get v;
  let cost := ltonstring (u64 (nstringtol (p_rootcost pk)
                + (pcost - (if p =? f_bonusport r then f_bonuscost r else 0)))) in
  let val := compare_bpdu r (p_root pk) cost (p_bridge pk) (p_stpport pk) in
  now ← qtime_m;
  if val =? 0 then fs_put v (vlst_set_timestamp now r) else
  if (0 <? val) || ((p =? f_rootport r) && (val <? 0)) then
    (* eight bytes are compared: the six of [src] and the two of [proto] behind it *)
    s ← get;
    whenM (memcmp (f_root r) (b_src (outpacket (fst_st s)) ++ b_proto (outpacket (fst_st s))) <=? 0)
      (_ ← fstnewvlan v; mret ()) ;;
    r ← fs_get v;
    fs_put v (vlst_set_root (p_root pk) cost (p_bridge pk) (p_stpport pk) p now r) ;;
    fastprotocol v p ;;
    topology_change v p
  else
  if memcmp (f_root r) (p_root pk) =? 0 then
    bk ← fs_check v Backup p;
    if Z.land (p_flags pk) STP_PORTROLEMASK =? STP_ROOT then
      whenM bk (fs_clr v Backup p ;; port_set_status p v FORWARDING ;; topology_change v p)
    else
      whenM (negb bk) (fs_set v Backup p ;; port_set_status p v DISCARDING ;; topology_change v p)
  else fst_sendbpdu v p 0 0 0.

Definition fstaddport (v p : Z) (tagged : bool) : M sw () :=
  (if tagged then fs_set v Tagged p ;; fs_clr v Untag p
   else fs_set v Untag p ;; fs_clr v Tagged p) ;;
  fs_clr v Backup p ;;
  fs_clr v Edge p ;;
  fs_clr v Rcvhist0 p ;;
  fs_clr v Rcvhist1 p ;;
  fst_sendbpdu v p 0 0 0 ;;
  topology_change v p.

Definition fstdelport (v p : Z) : M sw () :=
  _ ← FSTP_ACTIVE v p;
  fs_clr v Untag p ;;
  fs_clr v Tagged p ;;
  fs_clr v Backup p ;;
  fs_clr v Edge p ;;
  r ← fs_get v;
  whenM (p =? f_rootport r) (_ ← fstnewvlan v; mret ()) ;;
  topology_change v p.

(** [qtimer_add] and [qtimer_del] on the timers of the switch. *)
Definition qtimer_add_m (period times : Z) (cb : callback) : M sw Z :=
  a ← calloc E; b ← calloc E; s ← get;
  match qtimer_add period times (Some cb) a b (qt s) with
  | Done rv q => modify (set_qt q) ;; mret rv
  | Exited c => exitM c
  | Fault => fault
  end.
Definition qtimer_del_m (n : Z) : M sw () :=
  s ← get;
  match qtimer_del n (qt s) with
  | Done _ q => modify (set_qt q)
  | Exited c => exitM c
  | Fault => fault
  end.

Definition fstinitpkt : M sw () :=
  s ← get;
  let f := fst_st s in
  let ids := bpdu_set_ids (myid f) (switchmac f) [u8 (helloperiod f); u8 (Z.shiftr (helloperiod f) 8)]
               [u8 (maxage f); u8 (Z.shiftr (maxage f) 8)] in
  upd_out ids ;; upd_outtag ids ;;
  n ← qtimer_add_m (helloperiod f) 0 CbFstHello;
  upd_fst (set_fst_timerno (i32 n)).

Definition fst_stop : M sw () :=
  s ← get;
  qtimer_del_m (fst_timerno (fst_st s)) ;;
  _ ← fstflag P_CLRFLAG FSTP_TAG;
  bac_FORALL vv_array NUMOFVLAN (λ v, _ ← fstnewvlan v; mret ()).

Definition fstpshutdown : M sw () :=
  s ← get; whenM (negb (Z.land (fpflag (fst_st s)) FSTP_TAG =? 0)) fst_stop.

Definition fstpsetonoff (val : Z) : M sw Z :=
  s ← get;
  let oldval := negb (Z.land (fpflag (fst_st s)) FSTP_TAG =? 0) in
  hub ← portflag P_GETFLAG HUB_TAG;
  if negb (hub =? 0) then printoutc "Can't use fstp in hub mode" ;; mret 0 else
  let val := negb (val =? 0) in
  whenM (negb (eqb oldval val))
    (if val then fstinitpkt ;; _ ← fstflag P_SETFLAG FSTP_TAG; mret () else fst_stop) ;;
  mret 0.

Inductive role := RoleUnknown | RoleEdge | RoleRoot | RoleAlternate | RoleDesignated.

(** [decoderole] tests [untag] twice. *)
Definition decoderole (v p : Z) : M sw role :=
  u ← fs_check v Untag p;
  u' ← (if (u : bool) then mret true else fs_check v Untag p);
  if negb u' then mret RoleUnknown else
  e ← fs_check v Edge p;
  if (e : bool) then mret RoleEdge else
  r ← fs_get v;
  if f_rootport r =? p then mret RoleRoot else
  b ← fs_check v Backup p;
  mret (if (b : bool) then RoleAlternate else RoleDesignated).

Definition role_name (r : role) : string :=
  match r with
  | RoleUnknown => "Unknown" | RoleEdge => "Edge" | RoleRoot => "Root"
  | RoleAlternate => "Alternate/Backup" | RoleDesignated => "Designated"
  end.

Definition fstpshowinfo : M sw Z :=
  s ← get;
  let f := fst_st s in
  printoutc ("MAC " +:+ fmt_mac (switchmac f) +:+ " Priority " +:+ show_int (i32 (priority f)) +:+
    " (0x" +:+ show_hex (priority f) +:+ ")") ;;
  printoutc ("FSTP=" +:+ (if Z.land (fpflag f) FSTP_TAG =? 0 then "false" else "true")) ;;
  mret 0.

(** One port of the listing of [fstprintactive]. *)
Definition fstprintport (vlan : Z) (tagged : bool) (i : Z) : M sw () :=
  c ← port_getcost i;
  r ← decoderole vlan i;
  printoutc (" -- Port " +:+ fmt_0 4 i +:+ " tagged=" +:+ (if tagged then "1" else "0") +:+ " portcost=" +:+
    show_int c +:+ " role=" +:+ role_name r).

Definition fstprintactive (vlan : Z) : M sw () :=
  r ← fs_get vlan;
  s ← get;
  let f := fst_st s in
  printoutc ("FST DATA VLAN " +:+ fmt_0 4 vlan +:+ " " +:+
    (if memcmp (myid f) (f_root r) =? 0 then "ROOTSWITCH" else "") +:+ " " +:+
    (if Z.land (fpflag f) FSTP_TAG =? 0 then "FSTP IS DISABLED" else "")) ;;
  printoutc (" ++ root " +:+ fmt_mac (f_root r)) ;;
  printoutc (" ++ designated " +:+ fmt_mac (f_dessw r)) ;;
  printoutc (" ++ rootport " +:+ fmt_0 4 (f_rootport r) +:+ " cost " +:+ show_int (i32 (nstringtol (f_rootcost r))) +:+
    " age " +:+ show_int (i32 (now s - f_roottimestamp r)) +:+ " bonusport " +:+ fmt_0 4 (f_bonusport r) +:+
    " bonuscost " +:+ show_int (f_bonuscost r)) ;;
  n ← fnp;
  ba_FORALL (fs_array vlan Untag) n (fstprintport vlan false) ;;
  ba_FORALL (fs_array vlan Tagged) n (fstprintport vlan true).

Definition fstprint (arg : string) : M sw Z :=
  if negb (String.eqb arg "") then
    let vlan := atoi arg in
    if (0 <=? vlan) && (vlan <? NUMOFVLAN - 1) then
      ok ← valid_vlan vlan;
      if (ok : bool) then fstprintactive vlan ;; mret 0 else mret ENXIO
    else mret EINVAL
  else bac_FORALL vv_array NUMOFVLAN fstprintactive ;; mret 0.

Definition bad_vlan_port (v p n : Z) : bool := (v <? 0) || (NUMOFVLAN <=? v) || (p <? 0) || (n <=? p).

Definition fstsetbonus (arg : string) : M sw Z :=
  match sscanf_iii arg with
  | None => mret EINVAL
  | Some (v, p, cost) =>
    n ← fnp;
    if bad_vlan_port v p n then mret EINVAL else
    ok ← valid_vlan v;
    if negb ok then mret ENXIO else
    r ← fs_get v;
    fs_put v (vlst_set_bonus p cost r) ;; mret 0
  end.

Definition fstsetedge (arg : string) : M sw Z :=
  match sscanf_iii arg with
  | None => mret EINVAL
  | Some (v, p, val) =>
    n ← fnp;
    if bad_vlan_port v p n then mret EINVAL else
    ok ← valid_vlan v;
    if negb ok then mret ENXIO else
    (if negb (val =? 0) then
       fs_set v Edge p ;;
       u ← fs_check v Untag p;
       u' ← (if (u : bool) then mret true else fs_check v Untag p);
       whenM u' (port_set_status p v FORWARDING)
     else
       fs_clr v Edge p ;; fs_clr v Backup p) ;;
    mret 0
  end.

Definition fst_init (initnumports : Z) : M sw () :=
  upd_fst (set_fnumports initnumports) ;;
  upd_fst (λ f, set_myid (SETFSTID (switchmac f) (priority f)) f) ;;
  s ← get;
  whenM (negb (Z.land (fpflag (fst_st s)) FSTP_TAG =? 0)) fstinitpkt.

End fstp.
