(* ===== verification/Port.v ===== *)
(** * Port: ports, endpoints, VLANs and the packet path of [vde_switch/port.c]

    Allocation and access control of ports, endpoints joining and leaving a
    port, the forwarding of a received packet, and the management commands of
    the [port/] and [vlan/] menus, translated function by function. *)
From Stdlib Require Import Lia.
From stdpp Require Import base numbers list gmap strings.
From S2P Require Import Prelude Scan BitArray Hash Qtimer Switch PortSend Fstp.

Section port.
Context {T : Type} `{!MacTable T} (E : env).
Abbreviation sw := (switch T).

Definition np : M sw Z := gets numports.

(** [bac_FORALL(validvlan,NUMOFVLAN,body,i)] *)
Definition FORALL_VLANS (body : Z → M sw ()) : M sw () := bac_FORALL vv_array NUMOFVLAN body.

(** ** Ports *)

(** The port [alloc_port] creates; [ms] is left uninitialised by the code. *)
Definition new_port : port :=
  Port [] 0 false None 0 UNONE UNONE UNONE DEFAULT_COST 0 0 0 0.

(** The search for a free port of the pool. *)
Fixpoint pool_scan (l : list Z) (i : Z) : M sw Z :=
  match l with
  | [] => mret i
  | j :: l' =>
    o ← port_ptr j;
    match o with
    | None => mret j
    | Some pt =>
      if negb (bool_decide (p_ep pt = [])) || negb (Z.land (p_flag pt) NOTINPOOL =? 0)
      then pool_scan l' i else mret j
    end
  end.

Definition alloc_port (portno : Z) : M sw Z :=
  n ← np;
  i ← (if portno =? 0 then pool_scan (seqZ 1 (n - 1)) (Z.max 1 n)
       else mret (if portno <? 0 then 0 else portno));
  if n <=? i then mret (-1) else
  o ← port_ptr i;
  match o with
  | Some _ => mret i
  | None =>
    ok ← malloc E;
    if negb ok then mret (-1) else
    port_put i new_port ;; vl_set 0 Table i ;; mret i
  end.

(** [free_port]; a negative argument is a large unsigned. *)
Definition free_port (portno : Z) : M sw () :=
  n ← np;
  if n <=? u32 portno then mret () else
  o ← port_ptr portno;
  match o with
  | Some pt =>
    if bool_decide (p_ep pt = []) then
      portv_store portno None ;;
      FORALL_VLANS (λ i, vl_clr i Table portno)
    else mret ()
  | None => mret ()
  end.

(** ** Access control *)

Definition user_belongs_to_group (uid gid : Z) : bool :=
  match getpwuid E uid with
  | None => false
  | Some pw =>
    if gid =? pw_gid pw then true else
    existsb (λ g, (gr_gid g =? gid) && existsb (String.eqb (pw_name pw)) (gr_mem g)) (group_db E)
  end.

Definition checkport_ac (pt : port) (user : Z) : M sw Z :=
  if (p_user pt =? UNONE) && (p_group pt =? UNONE) then mret 0
  else if (user =? 0) || (negb (p_user pt =? UNONE) && (p_user pt =? user)) then mret 0
  else if negb (p_group pt =? UNONE) && user_belongs_to_group user (p_group pt) then mret 0
  else modify (set_errno EPERM) ;; mret (-1).

(** ** Endpoints *)

Definition new_endpoint (portno ctl data qmax : Z) : endpoint :=
  Endpoint portno ctl data None [] 0 qmax.

(** The activation of a port: the VLAN definitions become active. *)
Definition activate (portno : Z) : M sw () :=
  FORALL_VLANS (λ i,
    c ← vl_check i Table portno;
    whenM c (
      vl_set i Bctag portno ;;
      pt ← port_get portno;
      fstaddport E i portno (negb (i =? p_vlanuntag pt)))) ;;
  pt ← port_get portno;
  whenM (negb (p_vlanuntag pt =? NOVLAN)) (
    vl_set (p_vlanuntag pt) Bcuntag portno ;;
    vl_clr (p_vlanuntag pt) Bctag portno ;;
    vl_clr (p_vlanuntag pt) Notlearning portno).

Definition setup_ep (portno fd_ctl fd_data user : Z) (modfun : mod_support) : M sw (option endpoint) :=
  portno ← alloc_port portno;
  if portno <? 0 then modify (set_errno ENOMEM) ;; mret None else
  pt ← port_get portno;
  (if bool_decide (p_ep pt = []) then
     ac ← checkport_ac pt user;
     whenM (ac =? 0) (port_upd portno (upd_curuser user))
   else mret ()) ;;
  pt ← port_get portno;
  if negb (p_curuser pt =? user) then modify (set_errno EADDRINUSE) ;; mret None else
  ok ← malloc E;
  if negb ok then modify (set_errno ENOMEM) ;; mret None else
  s ← get;
  let ep := new_endpoint portno fd_ctl fd_data (stdqlen s) in
  port_upd portno (λ pt, upd_ep (ep :: p_ep pt) (upd_ms true (Some modfun) pt)) ;;
  whenM (bool_decide (p_ep pt = [])) (activate portno) ;;
  mret (Some ep).

Definition ep_get_port (e : endpoint) : Z := ep_port e.

(** [setup_description(ep,descr)], [ep] being the [k]-th endpoint of [portno]. *)
Definition setup_description (portno : Z) (k : nat) (d : string) : M sw () :=
  pt ← port_get portno;
  e ← deref (p_ep pt !! k);
  port_put portno (upd_ep (<[k := upd_descr (Some d) e]> (p_ep pt)) pt).

(** [rec_close_ep]: the first endpoint with this control descriptor leaves the
    list; its module is told. *)
Fixpoint rec_close_ep (l : list endpoint) (ctl : Z) : M sw (list endpoint * Z) :=
  match l with
  | [] => mret ([], ENXIO)
  | this :: l' =>
    if fd_ctl this =? ctl then
      pt ← port_get (ep_port this);
      ms ← deref (p_ms pt);
      whenM (has_delep ms) (modify (add_event (EvDelep (fd_ctl this) (fd_data this)))) ;;
      mret (l', 0)
    else
      r ← rec_close_ep l' ctl; mret (this :: r.1, r.2)
  end.

(** The inactivation of a port: the active VLAN definitions are cleared. *)
Definition inactivate (portno : Z) : M sw () :=
  hash_delete_port_m portno ;;
  port_upd portno (λ pt, upd_curuser UNONE (upd_ms false None pt)) ;;
  FORALL_VLANS (λ i, vl_clr i Bctag portno ;; fstdelport E i portno) ;;
  pt ← port_get portno;
  whenM (p_vlanuntag pt <? NOVLAN) (vl_clr (p_vlanuntag pt) Bcuntag portno).

Definition close_ep_port_fd (portno ctl : Z) : M sw Z :=
  n ← np;
  if (portno <? 0) || (n <=? portno) then mret EINVAL else
  o ← port_ptr portno;
  match o with
  | None => mret ENXIO
  | Some pt =>
    r ← rec_close_ep (p_ep pt) ctl;
    port_put portno (upd_ep r.1 pt) ;;
    whenM (bool_decide (r.1 = [])) (inactivate portno) ;;
    mret r.2
  end.

Definition close_ep (e : endpoint) : M sw Z := close_ep_port_fd (ep_port e) (fd_ctl e).

Fixpoint rec_setqlen_ep (l : list endpoint) (ctl len : Z) : list endpoint * Z :=
  match l with
  | [] => ([], ENXIO)
  | this :: l' =>
    if fd_ctl this =? ctl then (upd_qmax len this :: l', 0)
    else let r := rec_setqlen_ep l' ctl len in (this :: r.1, r.2)
  end.

Definition setqlen_ep_port_fd (portno ctl len : Z) : M sw Z :=
  n ← np;
  if (portno <? 0) || (n <=? portno) then mret EINVAL else
  o ← port_ptr portno;
  match o with
  | None => mret ENXIO
  | Some pt =>
    let r := rec_setqlen_ep (p_ep pt) ctl len in
    port_put portno (upd_ep r.1 pt) ;; mret r.2
  end.

(** ** The packet path *)

(** [portv[port]->pktsin++; portv[port]->bytesin+=len;] *)
Definition count_in (port len : Z) : M sw () :=
  whenM (PORTCOUNTERS E) (port_upd port (λ pt,
    upd_counters (p_pktsin pt + 1) (p_pktsout pt) (p_bytesin pt + len) (p_bytesout pt) pt)).

(** The hub: every other existing port but port 0. *)
Fixpoint hub_send (l : list Z) (port : Z) (packet : list Z) (len : Z) (tmp : option (list Z)) : M sw () :=
  match l with
  | [] => mret ()
  | i :: l' =>
    if i =? port then hub_send l' port packet len tmp else
    o ← port_ptr i;
    match o with
    | None => hub_send l' port packet len tmp
    | Some _ => tmp' ← SEND_PACKET_PORT E i packet len tmp; hub_send l' port packet len tmp'
    end
  end.

(** No known destination: all the ports of the VLAN but the input one, those of
    the same tagness first. *)
Definition flood (port vlan : Z) (tagged : bool) (packet : list Z) (len : Z) : M sw () :=
  if tagged then
    _ ← FORALL_SEND E (vl_array vlan Bctag) port packet len None;
    let '(packet, len) := TAG2UNTAG packet len in
    _ ← FORALL_SEND E (vl_array vlan Bcuntag) port packet len None; mret ()
  else
    _ ← FORALL_SEND E (vl_array vlan Bcuntag) port packet len None;
    let '(packet, len) := UNTAG2TAG packet vlan len in
    _ ← FORALL_SEND E (vl_array vlan Bctag) port packet len None; mret ().

(** A known destination port. *)
Definition unicast (tarport vlan : Z) (tagged : bool) (packet : list Z) (len : Z) : M sw () :=
  pt ← port_get tarport;
  let '(packet, len) :=
    if tagged then if p_vlanuntag pt =? vlan then TAG2UNTAG packet len else (packet, len)
    else if p_vlanuntag pt =? vlan then (packet, len) else UNTAG2TAG packet vlan len in
  _ ← SEND_PACKET_PORT E tarport packet len None; mret ().

(** What follows the choice of the VLAN. *)
Definition forward (port vlan : Z) (tagged : bool) (packet : list Z) (len : Z) : M sw () :=
  f ← fstflag P_GETFLAG FSTP_TAG;
  if ISBPDU packet && negb (f =? 0) then fst_in_bpdu E port packet len vlan tagged else
  nl ← vl_check vlan Notlearning port;
  if (nl : bool) then mret () else
  whenM (negb (IS_BROADCAST (pk_src packet)))
    (_ ← find_in_hash_update_m E (pk_src packet) vlan port; mret ()) ;;
  tarport ← (if IS_BROADCAST (pk_dest packet) then mret (-1) else find_in_hash_m (pk_dest packet) vlan);
  if tarport <? 0 then flood port vlan tagged packet len
  else if tarport =? port then mret ()
  else unicast tarport vlan tagged packet len.

(** [handle_in_packet(ep,packet,len)] for an endpoint of [port]. *)
Definition handle_in_packet (port : Z) (packet : list Z) (len : Z) : M sw () :=
  if len =? 0 then mret () else
  count_in port len ;;
  s ← get;
  if negb (Z.land (pflag s) HUB_TAG =? 0) then
    hub_send (seqZ 1 (numports s - 1)) port packet len None
  else if is_tagged packet then
    let vlan := tag_vlan packet in
    c ← vl_check vlan Table port;
    if negb c then mret () else forward port vlan true packet len
  else
    pt ← port_get port;
    if p_vlanuntag pt =? NOVLAN then mret () else forward port (p_vlanuntag pt) false packet len.

(** ** Commands on ports *)

Definition showinfo : M sw Z :=
  s ← get;
  printoutc (String.append "Numports=" (show_int (numports s))) ;;
  printoutc (String.append "HUB=" (if Z.land (pflag s) HUB_TAG =? 0 then "false" else "true")) ;;
  printoutc (if PORTCOUNTERS E then "counters=true" else "counters=false") ;;
  whenM (VDE_PQ2 E)
    (printoutc (String.append "default length of port packet queues: " (show_int (stdqlen s)))) ;;
  mret 0.

(** The check that the ports to remove are not in use. *)
Fixpoint any_port (l : list Z) : M sw bool :=
  match l with
  | [] => mret false
  | i :: l' => o ← port_ptr i; match o with Some _ => mret true | None => any_port l' end
  end.

Definition vl_realloc (i n m : Z) (f : vfield) : M sw () :=
  r ← vl_get i;
  match vget f r with
  | None => mret ()
  | Some x =>
    ok ← calloc E;
    if negb ok then exitM 1 else
    x' ← deref (ba_realloc x (replicate (Z.to_nat (WORDSIZEROUND m)) 0) n m);
    vl_put i (vset f (Some x') r)
  end.

Definition portsetnumports (val : Z) : M sw Z :=
  if val <=? 0 then mret EINVAL else
  n ← np;
  used ← any_port (seqZ val (n - val));
  if (used : bool) then mret EADDRINUSE else
  ok ← calloc E;
  if negb ok then exitM 1 else
  modify (λ s, set_portv (take (Z.to_nat val) (portv s) ++ replicate (Z.to_nat (val - n)) None) s) ;;
  forM (seqZ 0 NUMOFVLAN) (λ i,
    forM [Table; Bctag; Bcuntag; Notlearning] (vl_realloc i n val)) ;;
  forM (seqZ n (val - n)) (λ i, portv_store i None) ;;
  fstsetnumports E val ;;
  modify (set_numports val) ;;
  mret 0.

Definition portallocatable (arg : string) : M sw Z :=
  match sscanf_ii arg with
  | None => mret EINVAL
  | Some (p, value) =>
    n ← np;
    if (p <? 0) || (n <=? p) then mret EINVAL else
    o ← port_ptr p;
    match o with
    | None => mret ENXIO
    | Some pt =>
      port_put p (upd_flag (if negb (value =? 0) then Z.land (p_flag pt) (Z.lnot NOTINPOOL)
                            else Z.lor (p_flag pt) NOTINPOOL) pt) ;;
      mret 0
    end
  end.

Fixpoint skip_char (keep : Ascii.ascii → bool) (s : string) : string :=
  match s with
  | String c s' => if keep c then skip_char keep s' else s
  | EmptyString => EmptyString
  end.
Definition is_blank (c : Ascii.ascii) : bool := ascii_z c =? 32.
(** The second word of a command's argument. *)
Definition second_word (arg : string) : string :=
  skip_char is_blank (skip_char (λ c, negb (is_blank c)) (skip_char is_blank arg)).
Definition starts_with_digit (s : string) : bool :=
  match s with String c _ => isdigit c | EmptyString => false end.

(** The owner named by the second word: a name of the database, a number, or
    NONE/ANY. *)
Definition owner_id (known : option Z) (w : string) : option Z :=
  match known with
  | Some id => Some id
  | None =>
    if starts_with_digit w then Some (u32 (atoi w))
    else if String.eqb w "NONE" || String.eqb w "ANY" then Some UNONE
    else None
  end.

Definition portsetuser (arg : string) : M sw Z :=
  let portuid := second_word arg in
  match sscanf_i arg with
  | None => mret EINVAL
  | Some p =>
    if String.eqb portuid "" then mret EINVAL else
    n ← np;
    if (p <? 0) || (n <=? p) then mret EINVAL else
    o ← port_ptr p;
    match o with
    | None => mret ENXIO
    | Some pt =>
      match owner_id (pw_uid <$> getpwnam E portuid) portuid with
      | Some id => port_put p (upd_user id pt) ;; mret 0
      | None => mret EINVAL
      end
    end
  end.

Definition portsetgroup (arg : string) : M sw Z :=
  let portgid := second_word arg in
  match sscanf_i arg with
  | None => mret EINVAL
  | Some p =>
    if String.eqb portgid "" then mret EINVAL else
    n ← np;
    if (p <? 0) || (n <=? p) then mret EINVAL else
    o ← port_ptr p;
    match o with
    | None => mret ENXIO
    | Some pt =>
      match owner_id (gr_gid <$> getgrnam E portgid) portgid with
      | Some id => port_put p (upd_group id pt) ;; mret 0
      | None => mret EINVAL
      end
    end
  end.

Definition portremove (val : Z) : M sw Z :=
  n ← np;
  if (val <? 0) || (n <=? val) then mret EINVAL else
  o ← port_ptr val;
  match o with
  | None => mret ENXIO
  | Some pt =>
    if negb (bool_decide (p_ep pt = [])) then mret EADDRINUSE else free_port val ;; mret 0
  end.

Definition notinpool (p : Z) : M sw () := port_upd p (λ pt, upd_flag (Z.lor (p_flag pt) NOTINPOOL) pt).

Definition portcreate (val : Z) : M sw Z :=
  n ← np;
  if (val <? 0) || (n <=? val) then mret EINVAL else
  o ← port_ptr val;
  match o with
  | Some _ => mret EEXIST
  | None =>
    p ← alloc_port val;
    if p <? 0 then mret ENOSPC else notinpool p ;; mret 0
  end.

Definition portcreateauto : M sw Z :=
  p ← alloc_port 0;
  if p <? 0 then mret ENOSPC else
  notinpool p ;; printoutc (String.append "Port " (fmt_0 4 p)) ;; mret 0.

Definition epclose (arg : string) : M sw Z :=
  match sscanf_ii arg with
  | None => mret EINVAL
  | Some (p, id) => close_ep_port_fd p id
  end.

Definition defqlen (len : Z) : M sw Z :=
  if len <? 0 then mret EINVAL else modify (set_stdqlen len) ;; mret 0.

Definition epqlen (arg : string) : M sw Z :=
  match sscanf_iii arg with
  | None => mret EINVAL
  | Some (p, id, len) => if len <? 0 then mret EINVAL else setqlen_ep_port_fd p id len
  end.

Definition portzerocounter (i : Z) : M sw () :=
  o ← port_ptr i;
  match o with
  | None => mret ()
  | Some pt => port_put i (upd_counters 0 0 0 0 pt)
  end.

Definition portresetcounters (arg : string) : M sw Z :=
  n ← np;
  if negb (String.eqb arg "") then
    let i := atoi arg in
    if (i <? 0) || (n <=? i) then mret EINVAL else portzerocounter i ;; mret 0
  else forM (seqZ 0 n) portzerocounter ;; mret 0.

Definition portsethub (val : Z) : M sw Z :=
  (if negb (val =? 0) then fstpshutdown E ;; _ ← portflag P_SETFLAG HUB_TAG; mret ()
   else _ ← portflag P_CLRFLAG HUB_TAG; mret ()) ;;
  mret 0.

(** ** Commands on VLANs *)

Definition portsetvlan (arg : string) : M sw Z :=
  match sscanf_ii arg with
  | None => mret EINVAL
  | Some (p, vlan) =>
    n ← np;
    if (vlan <? 0) || (NUMOFVLAN <? vlan) || (p <? 0) || (n <=? p) then mret EINVAL else
    bad ← (if negb (vlan =? NOVLAN) then ok ← valid_vlan vlan; mret (negb ok) else mret false);
    if (bad : bool) then mret ENXIO else
    o ← port_ptr p;
    match o with
    | None => mret ENXIO
    | Some pt =>
      let oldvlan := p_vlanuntag pt in
      port_put p (upd_vlanuntag NOVLAN pt) ;;
      hash_delete_port_m p ;;
      whenM (negb (bool_decide (p_ep pt = []))) (
        whenM (negb (oldvlan =? NOVLAN)) (vl_clr oldvlan Bcuntag p) ;;
        whenM (negb (vlan =? NOVLAN)) (vl_set vlan Bcuntag p ;; vl_clr vlan Bctag p) ;;
        whenM (negb (oldvlan =? NOVLAN)) (fstdelport E oldvlan p) ;;
        whenM (negb (vlan =? NOVLAN)) (fstaddport E vlan p false)) ;;
      whenM (negb (oldvlan =? NOVLAN)) (vl_clr oldvlan Table p) ;;
      whenM (negb (vlan =? NOVLAN)) (vl_set vlan Table p) ;;
      port_upd p (upd_vlanuntag vlan) ;;
      mret 0
    end
  end.

Definition vl_alloc (vlan : Z) (f : vfield) : M sw () :=
  ok ← calloc E; n ← np; r ← vl_get vlan;
  vl_put vlan (vset f (if (ok : bool) then Some (ba_alloc n) else None) r).

Definition vlancreate_nocheck (vlan : Z) : M sw Z :=
  forM [Table; Bctag; Bcuntag; Notlearning] (vl_alloc vlan) ;;
  r ← vl_get vlan;
  match v_table r, v_bctag r, v_bcuntag r with
  | Some _, Some _, Some _ =>
    rv ← fstnewvlan E vlan;
    whenM (rv =? 0) (
      s ← get;
      x ← deref (bac_set (validvlan s) NUMOFVLAN vlan);
      modify (set_validvlan x)) ;;
    mret rv
  | _, _, _ => mret ENOMEM
  end.

Definition vlancreate (vlan : Z) : M sw Z :=
  if (0 <? vlan) && (vlan <? NUMOFVLAN - 1) then
    ok ← valid_vlan vlan;
    if (ok : bool) then mret EEXIST else vlancreate_nocheck vlan
  else mret EINVAL.

Definition vlanremove (vlan : Z) : M sw Z :=
  if (0 <=? vlan) && (vlan <? NUMOFVLAN) then
    ok ← valid_vlan vlan;
    if (ok : bool) then
      r ← vl_get vlan; n ← np;
      x ← deref (v_table r);
      used ← deref (ba_card x n);
      if negb (used =? 0) then mret EADDRINUSE else
      s ← get;
      vv ← deref (bac_clr (validvlan s) NUMOFVLAN vlan);
      modify (set_validvlan vv) ;;
      vl_put vlan vlan_null ;;
      _ ← fstremovevlan vlan;
      mret 0
    else mret ENXIO
  else mret EINVAL.

Definition vlanaddport (arg : string) : M sw Z :=
  match sscanf_ii arg with
  | None => mret EINVAL
  | Some (vlan, p) =>
    n ← np;
    if (vlan <? 0) || (NUMOFVLAN - 1 <=? vlan) || (p <? 0) || (n <=? p) then mret EINVAL else
    ok ← valid_vlan vlan;
    if negb ok then mret ENXIO else
    o ← port_ptr p;
    match o with
    | None => mret ENXIO
    | Some pt =>
      whenM (negb (bool_decide (p_ep pt = [])) && negb (p_vlanuntag pt =? vlan))
        (vl_set vlan Bctag p ;; fstaddport E vlan p true) ;;
      vl_set vlan Table p ;; mret 0
    end
  end.

Definition vlandelport (arg : string) : M sw Z :=
  match sscanf_ii arg with
  | None => mret EINVAL
  | Some (vlan, p) =>
    n ← np;
    if (vlan <? 0) || (NUMOFVLAN - 1 <=? vlan) || (p <? 0) || (n <=? p) then mret EINVAL else
    ok ← valid_vlan vlan;
    if negb ok then mret ENXIO else
    o ← port_ptr p;
    match o with
    | None => mret ENXIO
    | Some pt =>
      if p_vlanuntag pt =? vlan then mret EADDRINUSE else
      whenM (negb (bool_decide (p_ep pt = []))) (vl_clr vlan Bctag p ;; fstdelport E vlan p) ;;
      vl_clr vlan Table p ;; hash_delete_port_m p ;; mret 0
    end
  end.

(** ** Printing *)

Definition port_getuser (uid : Z) : string :=
  if uid =? UNONE then "NONE" else
  match getpwuid E uid with Some pw => pw_name pw | None => show_int (i32 uid) end.

Definition port_getgroup (gid : Z) : string :=
  if gid =? UNONE then "NONE" else
  match getgrgid E gid with Some g => gr_name g | None => show_int (i32 gid) end.

Definition print_port (i : Z) (inclinactive : bool) : M sw Z :=
  o ← port_ptr i;
  match o with
  | None => mret ENXIO
  | Some pt =>
    let active := negb (bool_decide (p_ep pt = [])) in
    if negb (inclinactive || active) then mret ENXIO else
    printoutc ("Port " +:+ fmt_0 4 i +:+ " untagged_vlan=" +:+ fmt_0 4 (p_vlanuntag pt) +:+ " " +:+
      (if active then "" else "IN") +:+ "ACTIVE - " +:+
      (if Z.land (p_flag pt) NOTINPOOL =? 0 then "" else "NOT ") +:+ "Unnamed Allocatable") ;;
    printoutc (" Current User: " +:+ port_getuser (p_curuser pt) +:+ " Access Control: (User: " +:+
      port_getuser (p_user pt) +:+ " - Group: " +:+ port_getgroup (p_group pt) +:+ ")") ;;
    whenM (PORTCOUNTERS E) (
      printoutc (" IN:  pkts " +:+ fmt_w 10 (p_pktsin pt) +:+ "          bytes " +:+ fmt_w 20 (p_bytesin pt)) ;;
      printoutc (" OUT: pkts " +:+ fmt_w 10 (p_pktsout pt) +:+ "          bytes " +:+ fmt_w 20 (p_bytesout pt))) ;;
    forM (p_ep pt) (λ e,
      ms ← deref (p_ms pt);
      printoutc ("  -- endpoint ID " +:+ fmt_0 4 (fd_ctl e) +:+ " module " +:+ fmt_left 12 (modname ms) +:+
        ": " +:+ default "no endpoint description"%string (descr e)) ;;
      whenM (VDE_PQ2 E) (printoutc ("              unsent packets: " +:+ show_int (vdepq_count e) +:+
        " max " +:+ show_int (vdepq_max e)))) ;;
    mret 0
  end.

Definition print_ports (inclinactive : bool) (arg : string) : M sw Z :=
  n ← np;
  if negb (String.eqb arg "") then
    let i := atoi arg in
    if (i <? 0) || (n <=? i) then mret EINVAL else print_port i inclinactive
  else forM (seqZ 0 n) (λ i, _ ← print_port i inclinactive; mret ()) ;; mret 0.
Definition print_ptable : string → M sw Z := print_ports false.
Definition print_ptableall : string → M sw Z := print_ports true.

Definition STRSTATUS (p v : Z) : M sw string :=
  nl ← vl_check v Notlearning p;
  if (nl : bool) then mret "Discarding"%string else
  a ← vl_check v Bctag p;
  b ← (if (a : bool) then mret true else vl_check v Bcuntag p);
  mret (if (b : bool) then "Forwarding"%string else "Learning"%string).

Definition b2s (b : bool) : string := if b then "1" else "0".

Definition vlanprintactive (vlan : Z) : M sw () :=
  printoutc ("VLAN " +:+ fmt_0 4 vlan) ;;
  s ← get;
  if negb (Z.land (pflag s) FSTP_TAG =? 0) then mret () else
  ba_FORALL (vl_array vlan Table) (numports s) (λ i,
    pt ← port_get i;
    whenM (negb (bool_decide (p_ep pt = []))) (
      st ← STRSTATUS i vlan;
      printoutc (" -- Port " +:+ fmt_0 4 i +:+ " tagged=" +:+ b2s (negb (p_vlanuntag pt =? vlan)) +:+
        " active=1 status=" +:+ st))).

Definition vlanprintelem (vlan : Z) : M sw () :=
  printoutc ("VLAN " +:+ fmt_0 4 vlan) ;;
  s ← get;
  ba_FORALL (vl_array vlan Table) (numports s) (λ i,
    pt ← port_get i;
    st ← STRSTATUS i vlan;
    printoutc (" -- Port " +:+ fmt_0 4 i +:+ " tagged=" +:+ b2s (negb (p_vlanuntag pt =? vlan)) +:+
      " active=" +:+ b2s (negb (bool_decide (p_ep pt = []))) +:+ " status=" +:+ st)).

Definition vlanprint (arg : string) : M sw Z :=
  if negb (String.eqb arg "") then
    let vlan := atoi arg in
    if (0 <=? vlan) && (vlan <? NUMOFVLAN - 1) then
      ok ← valid_vlan vlan;
      if (ok : bool) then vlanprintactive vlan ;; mret 0 else mret ENXIO
    else mret EINVAL
  else FORALL_VLANS vlanprintactive ;; mret 0.

(** Unlike [vlanprint], VLAN 0 is refused as an argument. *)
Definition vlanprintall (arg : string) : M sw Z :=
  if negb (String.eqb arg "") then
    let vlan := atoi arg in
    if (0 <? vlan) && (vlan <? NUMOFVLAN - 1) then
      ok ← valid_vlan vlan;
      if (ok : bool) then vlanprintelem vlan ;; mret 0 else mret ENXIO
    else mret EINVAL
  else FORALL_VLANS vlanprintelem ;; mret 0.

(** ** Queries and initialisation *)

Definition port_user (p : Z) : M sw Z :=
  n ← np;
  if (p <? 0) || (n <=? p) then mret UNONE else
  o ← port_ptr p;
  mret (match o with None => UNONE | Some pt => p_curuser pt end).

Definition port_descr (portno epn : Z) : M sw (option string) :=
  n ← np;
  if (portno <? 0) || (n <=? portno) then mret None else
  o ← port_ptr portno;
  mret (pt ← o; e ← p_ep pt !! Z.to_nat epn; descr e).

Definition port_init (initnumports : Z) : M sw () :=
  modify (set_numports initnumports) ;;
  if initnumports <=? 0 then exitM 1 else
  a ← calloc E;
  b ← calloc E;
  if negb (a && b) then exitM 1 else
  modify (set_portv (replicate (Z.to_nat initnumports) None)) ;;
  modify (set_validvlan (bac_alloc NUMOFVLAN)) ;;
  rv ← vlancreate_nocheck 0;
  if negb (rv =? 0) then exitM 1 else mret ().

End port.
