(* ===== verification/Console.v ===== *)
(** * Console: commands, scripts and start-up, [consmgmt.c] and [vde_switch.c]

    The [hash/] menu on the state of the switch, the command tables of
    [consmgmt.c], [datasock.c], [hash.c], [fstp.c] and [port.c] in the order in
    which [main] registers them, the dispatcher [handle_cmd], scripts, the
    alarm handler with the callbacks it runs, the command-line options and the
    initialisation sequence of [main].  The debug and plugin menus are those of
    optional builds and are left out. *)
From Stdlib Require Import Lia.
From stdpp Require Import base numbers list gmap strings.
From S2P Require Import Prelude Scan BitArray Hash Qtimer Switch PortSend Fstp Port.

(** What the console reads outside the switch: error messages, the process, the
    options of the console and of the data sockets, and the script files (the
    contents, or the [errno] of [fopen]). *)
Record console_env := ConsoleEnv {
  strerror : Z → string;
  getpid : Z;
  PACKAGE_VERSION : string;
  mgmt_socket : option string;
  mgmt_mode : Z;
  ctl_socket : string;
  ds_mode : Z;
  fopen : string → string + Z
}.

Definition ENOSYS : Z := 38.
Definition EBADF : Z := 9.
Definition MAXCMD : nat := 128.

Section console.
Context (E : env) (C : console_env).
Abbreviation sw := (switch hash_state).

(** ** The hash menu *)

Definition hash_gc_m : M sw () :=
  s ← get; t ← deref (hash_gc (mact s) (now s)); modify (set_mact t).

Definition hash_resize_m (hash_size : Z) : M sw Z :=
  ok ← (if 0 <? hash_size then calloc E else mret true);
  s ← get;
  match hash_resize (mact s) hash_size ok with
  | Done rv t => modify (set_mact t) ;; mret rv
  | Exited c => exitM c
  | Fault => fault
  end.

Definition hash_put_gc (p n : Z) (t : hash_state) : hash_state :=
  HashState (hash_bits t) (hash_mask t) (h t) (min_persistence t) p (gc_expire t) n.

Definition hash_set_gc_interval (p : Z) : M sw Z :=
  s ← get;
  qtimer_del_m (gc_timerno (mact s)) ;;
  n ← qtimer_add_m E p 0 CbHashGc;
  modify (λ s, set_mact (hash_put_gc p n (mact s)) s) ;;
  mret 0.

Definition hash_set_gc_expire_m (e : Z) : M sw Z :=
  modify (λ s, set_mact (hash_set_gc_expire (mact s) e) s) ;; mret 0.
Definition hash_set_minper_m (e : Z) : M sw Z :=
  modify (λ s, set_mact (hash_set_minper (mact s) e) s) ;; mret 0.

(** The line printed for an entry. *)
Definition hash_line (r : hash_row) : string :=
  let '(k, mac, vlan, port, age) := r in
  "Hash: " +:+ fmt_0 4 k +:+ " Addr: " +:+ fmt_mac mac +:+ " VLAN " +:+ fmt_0 4 vlan +:+
  " to port: " +:+ fmt_0 3 port +:+ "  age " +:+ show_int age +:+ " secs".

Definition find_hash_cmd (strmac : string) : M sw Z :=
  match sscanf_mac strmac with
  | None => mret EINVAL
  | Some (mac, rest) =>
    let vlan := match scan_d rest with Some (v, _) => v | None => 0 end in
    s ← get;
    r ← deref (find_hash (mact s) mac vlan (now s));
    match r with
    | inl e => mret e
    | inr row => printoutc (hash_line row) ;; mret 0
    end
  end.

Definition print_hash_cmd : M sw Z :=
  s ← get;
  rows ← deref (print_hash (mact s) (now s));
  forM rows (λ r, printoutc (hash_line r)) ;;
  mret 0.

Definition hash_showinfo : M sw Z :=
  s ← get;
  let t := mact s in
  printoutc ("Hash size " +:+ show_int (HASH_SIZE (hash_bits t))) ;;
  printoutc ("GC interval " +:+ show_int (gc_interval t) +:+ " secs") ;;
  printoutc ("GC expire " +:+ show_int (gc_expire t) +:+ " secs") ;;
  printoutc ("Min persistence " +:+ show_int (min_persistence t) +:+ " secs") ;;
  mret 0.

(** ** The console's own commands *)

Definition vde_logout : M sw Z := mret (-1).
Definition vde_shutdown : M sw Z := mret (-2).

Definition console_showinfo : M sw Z :=
  s ← get;
  printoutc ("VDE switch V." +:+ PACKAGE_VERSION C) ;;
  printoutc "(C) Virtual Square Team (coord. R. Davoli) 2005,2006,2007 - GPLv2" ;;
  printoutc "" ;;
  printoutc ("pid " +:+ show_int (getpid C) +:+ " MAC " +:+ fmt_mac (switchmac (fst_st s)) +:+
    " uptime " +:+ show_int (i32 (now s))) ;;
  match mgmt_socket C with
  | Some p => printoutc ("mgmt " +:+ p +:+ " perm 0" +:+ fmt_03o (mgmt_mode C))
  | None => mret ()
  end ;;
  mret 0.

Definition ds_showinfo : M sw Z :=
  printoutc ("ctl dir " +:+ ctl_socket C) ;;
  printoutc ("std mode 0" +:+ fmt_03o (ds_mode C)) ;;
  mret 0.

(** ** Command tables *)

(** [doit] with the argument type that [type] declares; [STRARG_FD] is
    [STRARG|WITHFD]. *)
Inductive doit :=
| NOARG (f : M sw Z)
| INTARG (f : Z → M sw Z)
| STRARG (f : string → M sw Z)
| STRARG_FD (f : Z → string → M sw Z).

(** [withfile] is the flag [WITHFILE] of [type]. *)
Record comlist := Comlist {
  path : string;
  syntax : string;
  help_of : string;
  doit_of : option doit;
  withfile : bool
}.

Definition MENU : string := "============".

Definition cl_ds : list comlist :=
  [Comlist "ds" MENU "DATA SOCKET MENU" None false;
   Comlist "ds/showinfo" "" "show ds info" (Some (NOARG ds_showinfo)) true].

Definition cl_consmgmt (help : string → M sw Z) (load : Z → string → M sw Z) : list comlist :=
  [Comlist "help" "[arg]" "Help (limited to arg when specified)" (Some (STRARG help)) true;
   Comlist "logout" "" "logout from this mgmt terminal" (Some (NOARG vde_logout)) false;
   Comlist "shutdown" "" "shutdown of the switch" (Some (NOARG vde_shutdown)) false;
   Comlist "showinfo" "" "show switch version and info" (Some (NOARG console_showinfo)) true;
   Comlist "load" "path" "load a configuration script" (Some (STRARG_FD load)) false].

Definition cl_hash : list comlist :=
  [Comlist "hash" MENU "HASH TABLE MENU" None false;
   Comlist "hash/showinfo" "" "show hash info" (Some (NOARG hash_showinfo)) true;
   Comlist "hash/setsize" "N" "change hash size" (Some (INTARG hash_resize_m)) false;
   Comlist "hash/setgcint" "N" "change garbage collector interval" (Some (INTARG hash_set_gc_interval)) false;
   Comlist "hash/setexpire" "N" "change hash entries expire time" (Some (INTARG hash_set_gc_expire_m)) false;
   Comlist "hash/setminper" "N" "minimum persistence time" (Some (INTARG hash_set_minper_m)) false;
   Comlist "hash/print" "" "print the hash table" (Some (NOARG print_hash_cmd)) true;
   Comlist "hash/find" "MAC [VLAN]" "MAC lookup" (Some (STRARG find_hash_cmd)) true].

Definition cl_fstp : list comlist :=
  [Comlist "fstp" MENU "FAST SPANNING TREE MENU" None false;
   Comlist "fstp/showinfo" "" "show fstp info" (Some (NOARG fstpshowinfo)) true;
   Comlist "fstp/setfstp" "0/1" "Fast spanning tree protocol 1=ON 0=OFF" (Some (INTARG (fstpsetonoff E))) true;
   Comlist "fstp/setedge" "VLAN PORT 1/0" "Define an edge port for a vlan 1=Y 0=N" (Some (STRARG fstsetedge)) false;
   Comlist "fstp/bonus" "VLAN PORT COST" "set the port bonus for a vlan" (Some (STRARG fstsetbonus)) false;
   Comlist "fstp/print" "[N]" "print fst data for the defined vlan" (Some (STRARG fstprint)) true].

(** An entry compiled only with a build option. *)
Definition ifdef (b : bool) (l : list comlist) : list comlist := if b then l else [].

Definition cl_port : list comlist :=
  [Comlist "port" MENU "PORT STATUS MENU" None false;
   Comlist "port/showinfo" "" "show port info" (Some (NOARG (showinfo E))) true;
   Comlist "port/setnumports" "N" "set the number of ports" (Some (INTARG (portsetnumports E))) false;
   Comlist "port/sethub" "0/1" "1=HUB 0=switch" (Some (INTARG (portsethub E))) false;
   Comlist "port/setvlan" "N VLAN" "set port VLAN (untagged)" (Some (STRARG (portsetvlan E))) false;
   Comlist "port/createauto" "" "create a port with an automatically allocated id (inactive|notallocatable)"
     (Some (NOARG (portcreateauto E))) true;
   Comlist "port/create" "N" "create the port N (inactive|notallocatable)" (Some (INTARG (portcreate E))) false;
   Comlist "port/remove" "N" "remove the port N" (Some (INTARG portremove)) false;
   Comlist "port/allocatable" "N 0/1" "Is the port allocatable as unnamed? 1=Y 0=N"
     (Some (STRARG portallocatable)) false;
   Comlist "port/setuser" "N user" "access control: set user" (Some (STRARG (portsetuser E))) false;
   Comlist "port/setgroup" "N user" "access control: set group" (Some (STRARG (portsetgroup E))) false;
   Comlist "port/epclose" "N ID" "remove the endpoint port N/id ID" (Some (STRARG (epclose E))) false] ++
  ifdef (VDE_PQ2 E)
  [Comlist "port/defqlen" "LEN" "set the default queue length for new ports" (Some (INTARG defqlen)) false;
   Comlist "port/epqlen" "N ID LEN" "set the lenth of the queue for port N/id IP" (Some (STRARG epqlen)) false] ++
  ifdef (PORTCOUNTERS E)
  [Comlist "port/resetcounter" "[N]" "reset the port (N) counters" (Some (STRARG portresetcounters)) false] ++
  [Comlist "port/print" "[N]" "print the port/endpoint table" (Some (STRARG (print_ptable E))) true;
   Comlist "port/allprint" "[N]" "print the port/endpoint table (including inactive port)"
     (Some (STRARG (print_ptableall E))) true;
   Comlist "vlan" MENU "VLAN MANAGEMENT MENU" None false;
   Comlist "vlan/create" "N" "create the VLAN with tag N" (Some (INTARG (vlancreate E))) false;
   Comlist "vlan/remove" "N" "remove the VLAN with tag N" (Some (INTARG vlanremove)) false;
   Comlist "vlan/addport" "N PORT" "add port to the vlan N (tagged)" (Some (STRARG (vlanaddport E))) false;
   Comlist "vlan/delport" "N PORT" "add port to the vlan N (tagged)" (Some (STRARG (vlandelport E))) false;
   Comlist "vlan/print" "[N]" "print the list of defined vlan" (Some (STRARG vlanprint)) true;
   Comlist "vlan/allprint" "[N]" "print the list of defined vlan (including inactive port)"
     (Some (STRARG vlanprintall)) true].

(** The list [clh] after [main] has registered every table. *)
Definition clh_of (help : string → M sw Z) (load : Z → string → M sw Z) : list comlist :=
  cl_ds ++ cl_consmgmt help load ++ cl_hash ++ cl_fstp ++ cl_port.

(** Its texts do not depend on the functions. *)
Definition help_lines : list (string * string * string) :=
  (λ c, (path c, syntax c, help_of c)) <$> clh_of (λ _, mret 0) (λ _ _, mret 0).

Definition help_row (r : string * string * string) : string :=
  fmt_left 18 r.1.1 +:+ " " +:+ fmt_left 15 r.1.2 +:+ " " +:+ r.2.

Definition help (arg : string) : M sw Z :=
  printoutc (help_row ("COMMAND PATH", "SYNTAX", "HELP")%string) ;;
  printoutc (help_row ("------------", "--------------", "------------")%string) ;;
  forM help_lines (λ r, whenM (String.prefix arg r.1.1) (printoutc (help_row r))) ;;
  mret 0.

Definition clh (load : Z → string → M sw Z) : list comlist := clh_of help load.

(** ** The dispatcher *)

Definition is_blank_tab (c : Ascii.ascii) : bool := (ascii_z c =? 32) || (ascii_z c =? 9).

Fixpoint str_drop (n : nat) (s : string) : string :=
  match n, s with
  | S n', String _ s' => str_drop n' s'
  | _, _ => s
  end.

(** The first entry with a function whose path is a prefix of the line. *)
Definition find_cmd (l : list comlist) (inbuf : string) : option comlist :=
  List.find (λ p, bool_decide (is_Some (doit_of p)) && String.prefix (path p) inbuf) l.

Definition call_doit (d : doit) (fd : Z) (arg : string) : M sw Z :=
  match d with
  | NOARG f => f
  | INTARG f => f (atoi arg)
  | STRARG f => f arg
  | STRARG_FD f => if 0 <=? fd then f fd arg else mret EBADF
  end.

Definition run_cmd (p : comlist) (fd : Z) (arg : string) : M sw Z :=
  match doit_of p with
  | None => mret ENOSYS
  | Some d =>
    whenM (withfile p) (printoutc "0000 DATA END WITH '.'") ;;
    rv ← call_doit d fd arg;
    whenM (withfile p) (printoutc ".") ;;
    mret rv
  end.

Definition ignored (inbuf : string) : bool :=
  match inbuf with
  | EmptyString => true
  | String c _ => ascii_z c =? 35
  end.

(** The line that ends the answer, and the write to the console. *)
Definition reply (fd rv : Z) : M sw Z :=
  (if rv =? 0 then printoutc "1000 Success"
   else whenM (0 <? rv) (printoutc ("1" +:+ fmt_0 3 rv +:+ " " +:+ strerror C rv))) ;;
  whenM (0 <=? fd) (modify (add_event (EvReply fd))) ;;
  mret rv.

Definition handle_cmd (load : Z → string → M sw Z) (fd : Z) (inbuf : string) : M sw Z :=
  let inbuf := skip_char is_blank_tab inbuf in
  if ignored inbuf then mret ENOSYS else
  rv ← match find_cmd (clh load) inbuf with
       | None => mret ENOSYS
       | Some p => run_cmd p fd (skip_char is_blank_tab (str_drop (String.length (path p)) inbuf))
       end;
  reply fd rv.

(** ** Scripts *)

Definition is_newline (c : Ascii.ascii) : bool := ascii_z c =? 10.

(** [fgets]: at most [n] characters, up to and including a newline. *)
Fixpoint fgets (n : nat) (s : string) : string * string :=
  match n, s with
  | O, _ => (EmptyString, s)
  | S _, EmptyString => (EmptyString, EmptyString)
  | S n', String c s' =>
    if is_newline c then (String c EmptyString, s')
    else let r := fgets n' s' in (String c r.1, r.2)
  end.

(** Every [fgets] consumes a character, so the length of the file is enough
    fuel. *)
Fixpoint script_loop (fuel : nat) (s : string) : list string :=
  match fuel with
  | O => []
  | S f =>
    if String.eqb s "" then [] else let r := fgets (MAXCMD - 1) s in r.1 :: script_loop f r.2
  end.
Definition script_lines (s : string) : list string := script_loop (String.length s) s.

(** [if (strlen(buf) > 1 && buf[strlen(buf)-1]=='\n') buf[strlen(buf)-1]='\0'] *)
Fixpoint drop_newline (s : string) : string :=
  match s with
  | String c EmptyString => if is_newline c then EmptyString else s
  | String c s' => String c (drop_newline s')
  | EmptyString => EmptyString
  end.
Definition chomp (s : string) : string := if (1 <? String.length s)%nat then drop_newline s else s.

(** Scripts that load scripts recurse: [depth] bounds the nesting, and deeper is
    a stack overflow. *)
Fixpoint runscript (depth : nat) (fd : Z) (name : string) : M sw Z :=
  match depth with
  | O => fault
  | S d =>
    match fopen C name with
    | inr err => mret err
    | inl contents =>
      forM (script_lines contents) (λ line,
        let buf := chomp line in
        whenM (0 <=? fd) (printoutc ("vde[" +:+ name +:+ "]: " +:+ buf) ;; modify (add_event (EvReply fd))) ;;
        _ ← handle_cmd (runscript d) fd buf; mret ()) ;;
      mret 0
    end
  end.

(** ** The alarm handler *)

Definition run_callback (c : callback) : M sw () :=
  match c with CbHashGc => hash_gc_m | CbFstHello => fst_hello E end.

Definition alarm : M sw () :=
  s ← get;
  match sig_alarm (qt s) with
  | Done fired q => modify (set_qt q) ;; forM fired run_callback
  | Exited c => exitM c
  | Fault => fault
  end.

(** ** Start-up *)

Definition INIT_HASH_SIZE : Z := 128.
Definition DEFAULT_PRIORITY : Z := 0x8000.
Definition INIT_NUMPORTS : Z := 32.

(** The static data before [main]; [set_switchmac] has chosen the address. *)
Definition static_fst (mac : list Z) : fstate :=
  FState 0 0 0 ∅ (zeros 8) mac DEFAULT_PRIORITY STDHELLOPERIOD (STDHELLOPERIOD * 10) 0 0
    outpacket_init outtagpacket_init.
Definition static_switch (mac : list Z) : sw :=
  Switch 0 0 128 [] ∅ [] (static_fst mac) (HashState 0 0 [] MIN_PERSISTENCE_DFL 0 0 0) qtimer_init 0 [] 0 0.

(** The static variables of [vde_switch.c] the options set. *)
Record globals := Globals { g_hash_size : Z; g_numports : Z }.

Definition HASH_TABLE_SIZE_ARG : Z := 0x100.
Definition MACADDR_ARG : Z := 0x101.
Definition PRIORITY_ARG : Z := 0x102.

Definition set_macaddr (mac : list Z) (f : fstate) : fstate :=
  FState (fpflag f) (fnumports f) (rcvhistindex f) (fsttab f) (myid f) mac (priority f) (helloperiod f)
    (maxage f) (fst_timerno f) (hellocounter f) (outpacket f) (outtagpacket f).
Definition set_priority (p : Z) (f : fstate) : fstate :=
  FState (fpflag f) (fnumports f) (rcvhistindex f) (fsttab f) (myid f) (switchmac f) p (helloperiod f)
    (maxage f) (fst_timerno f) (hellocounter f) (outpacket f) (outtagpacket f).

(** [parse_globopt(c,optarg)]: the options of the switch itself; the result is
    [c] when the option is not one of them. *)
Definition parse_globopt (g : globals) (c : Z) (optarg : string) : M sw (globals * Z) :=
  if c =? 120 (* x *) then
    _ ← fstflag P_CLRFLAG FSTP_TAG; _ ← portflag P_SETFLAG HUB_TAG; mret (g, 0)
  else if c =? HASH_TABLE_SIZE_ARG then
    mret (Globals (default (g_hash_size g) (sscanf_i optarg)) (g_numports g), 0)
  else if c =? 70 (* F *) then
    hub ← portflag P_GETFLAG HUB_TAG;
    (if hub =? 0 then _ ← fstflag P_SETFLAG FSTP_TAG; mret () else mret ()) ;; mret (g, 0)
  else if c =? PRIORITY_ARG then
    upd_fst (λ f, set_priority (Z.land (u32 (default (priority f) (sscanf_i optarg))) 0xffff) f) ;; mret (g, 0)
  else if c =? MACADDR_ARG then
    match sscanf_mac optarg with
    | None => exitM 1
    | Some (mac, _) => upd_fst (set_macaddr mac) ;; mret (g, 0)
    end
  else if c =? 110 (* n *) then
    mret (Globals (g_hash_size g) (default (g_numports g) (sscanf_i optarg)), 0)
  else if c =? 118 (* v *) then exitM 0
  else if c =? 104 (* h *) then exitM 1
  else mret (g, c).

Fixpoint parse_args (g : globals) (opts : list (Z * string)) : M sw globals :=
  match opts with
  | [] => mret g
  | (c, optarg) :: opts' => r ← parse_globopt g c optarg; parse_args r.1 opts'
  end.

(** [hash_init]: a size on which [po2round] does not return never gets here. *)
Definition hash_init_m (hash_size : Z) : M sw () :=
  t ← deref (hash_init hash_size);
  ok ← calloc E;
  if negb ok then exitM 1 else
  modify (set_mact t) ;;
  n ← qtimer_add_m E GC_INTERVAL 0 CbHashGc;
  modify (λ s, set_mact (hash_put_gc GC_INTERVAL n (mact s)) s).

(** The initialisation sequence of [main]. *)
Definition boot (opts : list (Z * string)) : M sw () :=
  g ← parse_args (Globals INIT_HASH_SIZE INIT_NUMPORTS) opts;
  hash_init_m (g_hash_size g) ;;
  fst_init E (g_numports g) ;;
  port_init E (g_numports g).

End console.
