(* ===== verification/SwitchInv.v ===== *)
(** * SwitchInv: the invariant of the switch state

    The set view of the VLAN and spanning-tree bit tables, the frame relation
    of the operations that only send packets or touch bits, the rules for the
    accesses and loops in terms of these views, and the invariant that every
    handler and command keeps. *)
From Stdlib Require Import Lia.
From stdpp Require Import base numbers list gmap strings.
From S2P Require Import Prelude Scan BitArray Hash Qtimer Switch PortSend Fstp Port.

(** ** Arrays of a given number of ports *)

Definition arr (n : Z) (x : bitarray) : Prop := ba_shape n x ∧ ∀ k, bmem x k = true → k < n.
Definition obit (o : option bitarray) (p : Z) : bool := match o with Some x => bmem x p | None => false end.

Lemma obit_range n o p : (∀ x, o = Some x → arr n x) → obit o p = true → 0 ≤ p < n.
Proof.
  unfold obit. destruct o as [x|]; [|done]. intros H Hb. destruct (H x eq_refl) as [_ Hn].
  split; [by apply bmem_range in Hb as [? _] | auto].
Qed.

Lemma arr_alloc n : 0 ≤ n → arr n (ba_alloc n) ∧ ∀ k, bmem (ba_alloc n) k = false.
Proof.
  intros Hn. assert (∀ k, bmem (ba_alloc n) k = false) as Hb.
  { intros k. unfold bmem, ba_alloc, zget. destruct (k / 64 <? 0); [done|].
    destruct (replicate _ 0 !! _) eqn:E; [|done]. apply lookup_replicate in E as [-> _]. apply Z.bits_0. }
  split; [|done]. split; [split|].
  - apply Forall_replicate. lia.
  - unfold ba_alloc. rewrite length_replicate. pose proof (wround_nonneg n Hn). lia.
  - intros k. by rewrite Hb.
Qed.

(** Words with the same bits are the same words. *)
Lemma word_ext n (x y : bitarray) i :
  ba_shape n x → ba_shape n y → (∀ k, i * 64 ≤ k < i * 64 + 64 → bmem x k = bmem y k) → zget x i = zget y i.
Proof.
  intros [Hx Hlx] [Hy Hly] Hb. destruct (zget x i) as [w|] eqn:Ew.
  - destruct (zget_is_Some y i) as [w' Hw']; [apply zget_lt in Ew; lia|]. rewrite Hw'. f_equal.
    apply Z.bits_inj'. intros j Hj.
    pose proof (words_ok_lookup _ _ _ Hx Ew). pose proof (words_ok_lookup _ _ _ Hy Hw').
    destruct (Z.lt_ge_cases j 64); [|by rewrite !(testbit_high _ 64) by lia].
    specialize (Hb (i * 64 + j) ltac:(lia)). unfold bmem in Hb.
    replace ((i * 64 + j) / 64) with i in Hb by dlia. rewrite Ew, Hw' in Hb.
    by replace ((i * 64 + j) mod 64) with j in Hb by dlia.
  - destruct (zget y i) eqn:Ey; [|done].
    destruct (zget_is_Some x i) as [w' Hw']; [apply zget_lt in Ey; lia | congruence].
Qed.

Section inv.
Context {T : Type} `{!MacTable T} (E : env).
Abbreviation sw := (switch T).
Implicit Type s : sw.

(** ** Views *)

Definition vb s (v : Z) (f : vfield) (p : Z) : bool := obit (vl_array v f s) p.
Definition fb s (v : Z) (f : ffield) (p : Z) : bool := obit (fs_array v f s) p.
Definition valid s (v : Z) : Prop := v < 4096 ∧ bmem (validvlan s) v = true.

(** A port without its counters and the contents of its queues. *)
Definition esig (e : endpoint) : endpoint := upd_queue [] 0 e.
Definition psig_of (pt : port) : port := upd_counters 0 0 0 0 (upd_ep (esig <$> p_ep pt) pt).
Definition pat s (q : Z) : option port := mjoin (zget (portv s) q).
Definition psig s (q : Z) : option port := psig_of <$> pat s q.
(** The port exists and has an endpoint. *)
Definition act s (q : Z) : Prop := ∃ pt, psig s q = Some pt ∧ p_ep pt ≠ [].
Definition utag s (q : Z) : Z := match psig s q with Some pt => p_vlanuntag pt | None => NOVLAN end.

(** ** Dimensions *)

Record dims s : Prop := {
  d_np : 0 < numports s < 2 ^ 31;
  d_len : Z.of_nat (length (portv s)) = numports s;
  d_fnp : fnumports (fst_st s) = numports s;
  d_vv : bac_wf NUMOFVLAN (validvlan s);
  d_vr : ∀ v, valid s v → 0 ≤ v < NUMOFVLAN - 1;
  d_v : ∀ v f, valid s v → ∃ x, vl_array v f s = Some x ∧ arr (numports s) x;
  d_f : ∀ v f, valid s v → ∃ x, fs_array v f s = Some x ∧ arr (numports s) x;
  d_vn : ∀ v f, ¬ valid s v → vl_array v f s = None;
  d_fn : ∀ v, ¬ valid s v → fsttab (fst_st s) !! v = None;
  d_mac : mt_wf (mact s);
  d_qt : qth_null (qt s) = false
}.

(** ** The frame of sending and of bit operations *)

Record frame s s' : Prop := {
  fr_np : numports s' = numports s;
  fr_vv : validvlan s' = validvlan s;
  fr_sig : ∀ q, psig s' q = psig s q;
  fr_mac : ∀ k p, mt_ports (mact s') k = Some p → mt_ports (mact s) k = Some p
}.

#[global] Instance frame_preorder : PreOrder frame.
Proof.
  split; [by split|]. intros s1 s2 s3 [] []. split; try congruence; eauto.
Qed.

(** All the bits are the same. *)
Record calm s s' : Prop := {
  c_dims : dims s';
  c_frame : frame s s';
  c_vb : ∀ v f q, vb s' v f q = vb s v f q;
  c_fb : ∀ v f q, fb s' v f q = fb s v f q
}.

Lemma calm_refl s : dims s → calm s s.
Proof. by split. Qed.
#[global] Instance calm_trans : Transitive calm.
Proof. intros s1 s2 s3 [] []. split; [done | by etrans | congruence..]. Qed.

Lemma frame_valid s s' v : frame s s' → valid s' v ↔ valid s v.
Proof. intros []. unfold valid. by rewrite fr_vv0. Qed.
Lemma frame_act s s' q : frame s s' → act s' q ↔ act s q.
Proof. intros []. unfold act. by setoid_rewrite fr_sig0. Qed.
Lemma frame_utag s s' q : frame s s' → utag s' q = utag s q.
Proof. intros []. unfold utag. by rewrite fr_sig0. Qed.

Lemma valid_range s v : dims s → valid s v → 0 ≤ v ≤ NUMOFVLAN ∧ 0 ≤ v < NUMOFVLAN.
Proof. intros Hd Hv. pose proof (d_vr s Hd v Hv). unfold NUMOFVLAN in *. lia. Qed.

Lemma vb_range s v f p : dims s → vb s v f p = true → valid s v ∧ 0 ≤ p < numports s.
Proof.
  intros Hd Hb. assert (valid s v) as Hv.
  { destruct (decide (v < 4096 ∧ bmem (validvlan s) v = true)) as [|H]; [done|].
    unfold vb in Hb. by rewrite (d_vn s Hd v f H) in Hb. }
  split; [done|]. destruct (d_v s Hd v f Hv) as (x & Hx & Ha).
  eapply (obit_range _ (vl_array v f s)); [|exact Hb]. intros y. rewrite Hx. by intros [= <-].
Qed.

Lemma fb_range s v f p : dims s → fb s v f p = true → valid s v ∧ 0 ≤ p < numports s.
Proof.
  intros Hd Hb. assert (valid s v) as Hv.
  { destruct (decide (v < 4096 ∧ bmem (validvlan s) v = true)) as [|H]; [done|].
    unfold fb, fs_array in Hb. by rewrite (d_fn s Hd v H) in Hb. }
  split; [done|]. destruct (d_f s Hd v f Hv) as (x & Hx & Ha).
  eapply (obit_range _ (fs_array v f s)); [|exact Hb]. intros y. rewrite Hx. by intros [= <-].
Qed.

Lemma novlan_bit s v f q : dims s → vb s v f q = true → v ≠ NOVLAN.
Proof. intros Hd [Hv _]%vb_range; [|done]. apply (d_vr s Hd) in Hv. unfold NUMOFVLAN, NOVLAN in *. lia. Qed.
Lemma novlan_fbit s v f q : dims s → fb s v f q = true → v ≠ NOVLAN.
Proof. intros Hd [Hv _]%fb_range; [|done]. apply (d_vr s Hd) in Hv. unfold NUMOFVLAN, NOVLAN in *. lia. Qed.

(** ** Rules for the accesses *)


Lemma arr_index n x p : 0 ≤ n → arr n x → 0 ≤ p < n → 0 ≤ p < 64 * Z.of_nat (length x).
Proof. intros Hn [[_ Hl] _] Hp. rewrite Hl. pose proof (wround_bound n). lia. Qed.

Lemma wp_vl_get s v (Q : vlanrec → sw → Prop) :
  0 ≤ v ≤ NUMOFVLAN → Q (vl s v) s → wp (vl_get v) Q s.
Proof.
  intros Hv HQ. apply wp_bind, wp_get.
  by rewrite (proj2 (Z.leb_le 0 v)), (proj2 (Z.leb_le v NUMOFVLAN)) by lia.
Qed.

Lemma wp_vl_check s v f p (Q : bool → sw → Prop) :
  dims s → 0 ≤ v ≤ NUMOFVLAN → 0 ≤ p < numports s → Q (vb s v f p) s → wp (vl_check v f p) Q s.
Proof.
  intros Hd Hv Hp HQ. apply wp_bind, wp_vl_get; [done|]. unfold vb, vl_array in HQ.
  destruct (decide (v < 4096 ∧ bmem (validvlan s) v = true)) as [Hva|Hva].
  - destruct (d_v s Hd v f Hva) as (x & Hx & Ha). unfold vl_array in Hx. rewrite Hx in HQ |- *.
    eapply wp_deref; [|exact HQ]. apply ba_check_spec. eapply arr_index; [|done|done].
    pose proof (d_np s Hd). lia.
  - pose proof (d_vn s Hd v f Hva) as Hn. unfold vl_array in Hn. rewrite Hn in HQ |- *. exact HQ.
Qed.

Lemma wp_fs_get s v (Q : vlst → sw → Prop) :
  dims s → valid s v → (∀ r, fsttab (fst_st s) !! v = Some r → Q r s) → wp (fs_get v) Q s.
Proof.
  intros Hd Hv HQ. destruct (valid_range s v Hd Hv) as [_ Hr]. destruct (d_f s Hd v Untag Hv) as (x & Hx & _).
  unfold fs_array in Hx. destruct (fsttab (fst_st s) !! v) as [r|] eqn:Er; [|done].
  apply wp_bind, wp_bind, wp_get.
  rewrite (proj2 (Z.leb_le 0 v)), (proj2 (Z.ltb_lt v NUMOFVLAN)) by lia. cbn.
  apply wp_ret, (wp_deref _ r); [done | by apply HQ].
Qed.

Lemma wp_fs_ptr s v (Q : option vlst → sw → Prop) :
  0 ≤ v < NUMOFVLAN → Q (fsttab (fst_st s) !! v) s → wp (fs_ptr v) Q s.
Proof.
  intros Hv HQ. apply wp_bind, wp_get.
  by rewrite (proj2 (Z.leb_le 0 v)), (proj2 (Z.ltb_lt v NUMOFVLAN)) by lia.
Qed.

Lemma fs_array_Some s v f r : fsttab (fst_st s) !! v = Some r → fs_array v f s = fget f r.
Proof. unfold fs_array. by intros ->. Qed.

Lemma wp_fs_check s v f p (Q : bool → sw → Prop) :
  dims s → valid s v → 0 ≤ p < numports s → Q (fb s v f p) s → wp (fs_check v f p) Q s.
Proof.
  intros Hd Hv Hp HQ. apply wp_bind, wp_fs_get; [done..|]. intros r Hr.
  destruct (d_f s Hd v f Hv) as (x & Hx & Ha). unfold fb in HQ. rewrite Hx in HQ.
  rewrite (fs_array_Some _ _ _ _ Hr) in Hx. rewrite Hx.
  eapply wp_deref; [|exact HQ]. apply ba_check_spec. eapply arr_index; [|done|done]. pose proof (d_np s Hd). lia.
Qed.

(** *** Writing one bit *)

Lemma vget_vset f g x r : vget f (vset g x r) = if decide (f = g) then x else vget f r.
Proof. by destruct f, g. Qed.
Lemma fget_fset f g x r : fget f (fset g x r) = if decide (f = g) then x else fget f r.
Proof. by destruct f, g, r. Qed.

Definition put_vl s v r : sw := set_vlant (<[v := r]> (vlant s)) s.
Definition put_fs s v r : sw := set_fst (set_fsttab (<[v := r]> (fsttab (fst_st s))) (fst_st s)) s.

Lemma vl_array_put s v r v' f :
  vl_array v' f (put_vl s v r) = if decide (v' = v) then vget f r else vl_array v' f s.
Proof.
  unfold vl_array, vl, put_vl. simpl. case_decide; subst.
  - by rewrite lookup_insert_eq.
  - by rewrite lookup_insert_ne.
Qed.
Lemma fs_array_put s v r v' f :
  fs_array v' f (put_fs s v r) = if decide (v' = v) then fget f r else fs_array v' f s.
Proof.
  unfold fs_array, put_fs. simpl. case_decide; subst.
  - by rewrite lookup_insert_eq.
  - by rewrite lookup_insert_ne.
Qed.

Lemma frame_put_vl s v r : frame s (put_vl s v r).
Proof. by split. Qed.
Lemma frame_put_fs s v r : frame s (put_fs s v r).
Proof. by split. Qed.

Lemma dims_put_vl s v r :
  dims s → valid s v → (∀ f, ∃ x, vget f r = Some x ∧ arr (numports s) x) → dims (put_vl s v r).
Proof.
  intros Hd Hv Hr. destruct Hd. split; try done.
  - intros v' f Hv'. rewrite vl_array_put. case_decide; subst; [apply Hr | by apply d_v0].
  - intros v' f Hv'. rewrite vl_array_put. case_decide; subst; [done | by apply d_vn0].
Qed.
Lemma dims_put_fs s v r :
  dims s → valid s v → (∀ f, ∃ x, fget f r = Some x ∧ arr (numports s) x) → dims (put_fs s v r).
Proof.
  intros Hd Hv Hr. destruct Hd. split; try done.
  - intros v' f Hv'. rewrite fs_array_put. case_decide; subst; [apply Hr | by apply d_f0].
  - intros v' Hv'. unfold put_fs. simpl. rewrite lookup_insert_ne; [by apply d_fn0 | by intros ->].
Qed.

Lemma arr_set n x p : 0 ≤ n → arr n x → 0 ≤ p < n →
  ∃ x', ba_set x p = Some x' ∧ arr n x' ∧ ∀ q, bmem x' q = if decide (q = p) then true else bmem x q.
Proof.
  intros Hn Ha Hp. pose proof Ha as [[Hok Hl] Hb].
  destruct (ba_set_spec x p Hok) as (x' & -> & Hl' & Hok' & Hm); [by eapply arr_index|].
  exists x'. split_and!; [done| |].
  - split; [split; [done|by rewrite Hl']|]. intros k. rewrite Hm. case_bool_decide; [lia | by apply Hb].
  - intros q. rewrite Hm. by repeat case_decide || case_bool_decide.
Qed.
Lemma arr_clr n x p : 0 ≤ n → arr n x → 0 ≤ p < n →
  ∃ x', ba_clr x p = Some x' ∧ arr n x' ∧ ∀ q, bmem x' q = if decide (q = p) then false else bmem x q.
Proof.
  intros Hn Ha Hp. pose proof Ha as [[Hok Hl] Hb].
  destruct (ba_clr_spec x p Hok) as (x' & -> & Hl' & Hok' & Hm); [by eapply arr_index|].
  exists x'. split_and!; [done| |].
  - split; [split; [done|by rewrite Hl']|]. intros k. rewrite Hm. case_bool_decide; [done | by apply Hb].
  - intros q. rewrite Hm. by repeat case_decide || case_bool_decide.
Qed.

(** One bit of a VLAN (spanning-tree) table becomes [b], nothing else changes. *)
Record vupd s (v : Z) (f : vfield) (p : Z) (b : bool) s' : Prop := {
  vu_dims : dims s';
  vu_frame : frame s s';
  vu_vb : ∀ v' f' q, vb s' v' f' q = if decide (v' = v ∧ f' = f ∧ q = p) then b else vb s v' f' q;
  vu_fb : ∀ v' f' q, fb s' v' f' q = fb s v' f' q
}.
Record fupd s (v : Z) (f : ffield) (p : Z) (b : bool) s' : Prop := {
  fu_dims : dims s';
  fu_frame : frame s s';
  fu_vb : ∀ v' f' q, vb s' v' f' q = vb s v' f' q;
  fu_fb : ∀ v' f' q, fb s' v' f' q = if decide (v' = v ∧ f' = f ∧ q = p) then b else fb s v' f' q
}.

Lemma vupd_put s v f p b x x' :
  dims s → valid s v → vl_array v f s = Some x → arr (numports s) x' →
  (∀ q, bmem x' q = if decide (q = p) then b else bmem x q) →
  vupd s v f p b (put_vl s v (vset f (Some x') (vl s v))).
Proof.
  intros Hd Hv Hx Ha Hb. split.
  - apply dims_put_vl; [done..|]. intros g. rewrite vget_vset. case_decide; [by eexists|]. by apply d_v.
  - apply frame_put_vl.
  - intros v' g q. unfold vb. rewrite vl_array_put.
    destruct (decide (v' = v)) as [->|]; [|by rewrite decide_False by tauto].
    rewrite vget_vset. destruct (decide (g = f)) as [->|]; [|by rewrite decide_False by tauto].
    rewrite Hx. simpl. rewrite Hb. destruct (decide (q = p)) as [->|];
      [by rewrite decide_True | by rewrite decide_False by tauto].
  - done.
Qed.

Lemma fupd_put s v f p b r x x' :
  dims s → valid s v → fsttab (fst_st s) !! v = Some r → fget f r = Some x → arr (numports s) x' →
  (∀ q, bmem x' q = if decide (q = p) then b else bmem x q) →
  fupd s v f p b (put_fs s v (fset f (Some x') r)).
Proof.
  intros Hd Hv Hr Hx Ha Hb. split.
  - apply dims_put_fs; [done..|]. intros g. rewrite fget_fset. case_decide; [by eexists|].
    destruct (d_f s Hd v g Hv) as (y & Hy & ?). rewrite (fs_array_Some _ _ _ _ Hr) in Hy. eauto.
  - apply frame_put_fs.
  - done.
  - intros v' g q. unfold fb. rewrite fs_array_put.
    destruct (decide (v' = v)) as [->|]; [|by rewrite decide_False by tauto].
    rewrite fget_fset, (fs_array_Some _ _ _ _ Hr).
    destruct (decide (g = f)) as [->|]; [|by rewrite decide_False by tauto].
    rewrite Hx. simpl. rewrite Hb. destruct (decide (q = p)) as [->|];
      [by rewrite decide_True | by rewrite decide_False by tauto].
Qed.

Lemma wp_vl_set s v f p (Q : () → sw → Prop) :
  dims s → valid s v → 0 ≤ p < numports s → (∀ s', vupd s v f p true s' → Q () s') → wp (vl_set v f p) Q s.
Proof.
  intros Hd Hv Hp HQ. destruct (d_v s Hd v f Hv) as (x & Hx & Ha). pose proof (d_np s Hd).
  destruct (arr_set (numports s) x p) as (x' & Hs & Ha' & Hb); [lia|done|done|].
  apply wp_bind, wp_vl_get; [by apply (valid_range s)|]. apply wp_bind, (wp_deref _ x); [done|].
  apply wp_bind, (wp_deref _ x'); [done|]. apply wp_modify, HQ. by eapply vupd_put.
Qed.
Lemma wp_vl_clr s v f p (Q : () → sw → Prop) :
  dims s → valid s v → 0 ≤ p < numports s → (∀ s', vupd s v f p false s' → Q () s') → wp (vl_clr v f p) Q s.
Proof.
  intros Hd Hv Hp HQ. destruct (d_v s Hd v f Hv) as (x & Hx & Ha). pose proof (d_np s Hd).
  destruct (arr_clr (numports s) x p) as (x' & Hs & Ha' & Hb); [lia|done|done|].
  apply wp_bind, wp_vl_get; [by apply (valid_range s)|]. apply wp_bind, (wp_deref _ x); [done|].
  apply wp_bind, (wp_deref _ x'); [done|]. apply wp_modify, HQ. by eapply vupd_put.
Qed.
Lemma wp_fs_set s v f p (Q : () → sw → Prop) :
  dims s → valid s v → 0 ≤ p < numports s → (∀ s', fupd s v f p true s' → Q () s') → wp (fs_set v f p) Q s.
Proof.
  intros Hd Hv Hp HQ. destruct (d_f s Hd v f Hv) as (x & Hx & Ha). pose proof (d_np s Hd).
  destruct (arr_set (numports s) x p) as (x' & Hs & Ha' & Hb); [lia|done|done|].
  apply wp_bind, wp_fs_get; [done..|]. intros r Hr. rewrite (fs_array_Some _ _ _ _ Hr) in Hx.
  apply wp_bind, (wp_deref _ x); [done|]. apply wp_bind, (wp_deref _ x'); [done|].
  apply wp_modify, HQ. by eapply fupd_put.
Qed.
Lemma wp_fs_clr s v f p (Q : () → sw → Prop) :
  dims s → valid s v → 0 ≤ p < numports s → (∀ s', fupd s v f p false s' → Q () s') → wp (fs_clr v f p) Q s.
Proof.
  intros Hd Hv Hp HQ. destruct (d_f s Hd v f Hv) as (x & Hx & Ha). pose proof (d_np s Hd).
  destruct (arr_clr (numports s) x p) as (x' & Hs & Ha' & Hb); [lia|done|done|].
  apply wp_bind, wp_fs_get; [done..|]. intros r Hr. rewrite (fs_array_Some _ _ _ _ Hr) in Hx.
  apply wp_bind, (wp_deref _ x); [done|]. apply wp_bind, (wp_deref _ x'); [done|].
  apply wp_modify, HQ. by eapply fupd_put.
Qed.

(** *** Loops over a table *)

(** The body may change the bits it has passed. *)
Lemma wp_FORALL_fs s v f n (body : Z → M sw ()) (I : Z → sw → Prop) :
  dims s → valid s v → n = numports s →
  (∀ k s', I k s' → dims s' ∧ frame s s' ∧ ∀ q, k ≤ q → fb s' v f q = fb s v f q) →
  I 0 s →
  (∀ k s', 0 ≤ k < numports s → fb s v f k = true → I k s' → wp (body k) (λ _ s'', I (k + 1) s'') s') →
  (∀ k s', fb s v f k = false → I k s' → I (k + 1) s') →
  wp (ba_FORALL (fs_array v f) n body) (λ _ s', I (64 * WORDSIZEROUND (numports s)) s') s.
Proof.
  intros Hd Hv -> HI H0 Hin Hout. pose proof (d_np s Hd) as Hnp.
  destruct (d_f s Hd v f Hv) as (x0 & Hx0 & Ha0).
  assert (∀ q, bmem x0 q = fb s v f q) as Hb0 by (intros; unfold fb; by rewrite Hx0).
  apply (wp_ba_FORALL_gen _ _ _ x0); [lia| |done| |].
  - intros i s' Hi HIs. destruct (HI _ _ HIs) as (Hd' & Hf & Hbits).
    destruct (d_f s' Hd' v f) as (x & Hx & Ha); [by apply (frame_valid s s')|].
    rewrite (fr_np s s' Hf) in Ha. destruct Ha0 as [Hs0 _], Ha as [Hs _].
    destruct (zget_is_Some x0 i) as [w Hw]; [destruct Hs0; lia|].
    exists x, w. split_and!; [done| |done]. rewrite <- Hw. apply (word_ext (numports s)); [done..|].
    intros k Hk. rewrite Hb0, <- Hbits by lia. unfold fb. by rewrite Hx.
  - intros k s' Hk Hm HIs. rewrite Hb0 in Hm. apply Hin; [|done..]. by eapply fb_range.
  - intros k s' Hk Hm HIs. rewrite Hb0 in Hm. by apply Hout.
Qed.

(** The body leaves the table alone and keeps [J]. *)
Lemma wp_FORALL_fs_inv s v f n (body : Z → M sw ()) (J : sw → Prop) :
  dims s → valid s v → n = numports s →
  (∀ s', J s' → dims s' ∧ frame s s' ∧ ∀ q, fb s' v f q = fb s v f q) → J s →
  (∀ k s', 0 ≤ k < numports s → fb s v f k = true → J s' → wp (body k) (λ _ s'', J s'') s') →
  wp (ba_FORALL (fs_array v f) n body) (λ _ s', J s') s.
Proof.
  intros Hd Hv Hn HJ H0 Hin. apply (wp_FORALL_fs s v f n body (λ _, J)); [done..| |done|done|done].
  intros k0 s' HJs. destruct (HJ s' HJs) as (? & ? & ?). auto.
Qed.

(** A loop over the valid VLANs that does not change which VLANs are valid. *)
Lemma wp_FORALL_VLANS s (body : Z → M sw ()) (I : list Z → sw → Prop) :
  dims s → (∀ l s', I l s' → validvlan s' = validvlan s) → I [] s →
  (∀ l1 v l2 s', ba_elems (validvlan s) (WORDSIZEROUND NUMOFVLAN) = l1 ++ v :: l2 → valid s v → v ∉ l1 →
     I l1 s' → wp (body v) (λ _ s'', I (l1 ++ [v]) s'') s') →
  wp (FORALL_VLANS body) (λ _ s', I (ba_elems (validvlan s) (WORDSIZEROUND NUMOFVLAN)) s') s.
Proof.
  intros Hd HI H0 Hstep. apply wp_bac_FORALL; [by vm_compute | by apply d_vv | |done|].
  - intros l s' HIs. unfold vv_array. by rewrite (HI _ _ HIs).
  - intros l1 v l2 s' Hl HIs. apply (Hstep l1 v l2 s'); [done| | |done].
    + assert (v ∈ ba_elems (validvlan s) (WORDSIZEROUND NUMOFVLAN)) as Hin by (rewrite Hl; set_solver).
      apply elem_of_ba_elems in Hin; [|by vm_compute]. change (64 * WORDSIZEROUND NUMOFVLAN) with 4096 in Hin.
      split; [lia | tauto].
    + eapply NoDup_prefix; [|exact Hl]. by apply ba_elems_NoDup.
Qed.

Lemma elem_of_vlans s v :
  dims s → v ∈ ba_elems (validvlan s) (WORDSIZEROUND NUMOFVLAN) ↔ valid s v.
Proof.
  intros Hd. rewrite elem_of_ba_elems by (by vm_compute). change (64 * WORDSIZEROUND NUMOFVLAN) with 4096.
  unfold valid. split; [intros []; split; [lia|done] | intros [? Hb]].
  split; [|done]. apply bmem_range in Hb. lia.
Qed.

(** ** Ports and sending *)

(** A port with endpoints has a module; its endpoints know its number. *)
Definition sigs_ok s : Prop := ∀ q pt, psig s q = Some pt →
  (p_ep pt ≠ [] → is_Some (p_ms pt)) ∧ Forall (λ e, ep_port e = q) (p_ep pt).

Lemma frame_sigs_ok s s' : frame s s' → sigs_ok s → sigs_ok s'.
Proof. intros Hf Hs q pt. rewrite (fr_sig s s' Hf). apply Hs. Qed.

Lemma pat_range s q pt : pat s q = Some pt → 0 ≤ q < Z.of_nat (length (portv s)).
Proof. unfold pat. destruct (zget (portv s) q) eqn:Eq; [|done]. intros _. by eapply zget_lt. Qed.

Lemma psig_Some s q pt : psig s q = Some pt ↔ ∃ pt0, pat s q = Some pt0 ∧ pt = psig_of pt0.
Proof. unfold psig. rewrite fmap_Some. done. Qed.

Lemma wp_port_ptr s p (Q : option port → sw → Prop) :
  dims s → 0 ≤ p < numports s → Q (pat s p) s → wp (port_ptr p) Q s.
Proof.
  intros Hd Hp HQ. pose proof (d_len s Hd) as Hl.
  destruct (zget_is_Some (portv s) p) as [o Ho]; [lia|].
  apply wp_bind, wp_get, (wp_deref _ o); [done|]. unfold pat in HQ. rewrite Ho in HQ. by destruct o.
Qed.

Lemma wp_port_ptr_Some s p pt (Q : option port → sw → Prop) :
  pat s p = Some pt → Q (Some pt) s → wp (port_ptr p) Q s.
Proof.
  intros Hp HQ. unfold pat in Hp. destruct (zget (portv s) p) as [o|] eqn:Eo; [|done].
  apply wp_bind, wp_get, (wp_deref _ o); [done|]. by destruct o; simplify_eq/=.
Qed.

Lemma wp_port_get s p pt (Q : port → sw → Prop) : pat s p = Some pt → Q pt s → wp (port_get p) Q s.
Proof. intros Hp HQ. apply wp_bind, (wp_port_ptr_Some s p pt); [done|]. by apply (wp_deref _ pt). Qed.

Definition put_port s p (o : option port) : sw := set_portv (<[Z.to_nat p := o]> (portv s)) s.

Lemma pat_put s p o q : 0 ≤ p < Z.of_nat (length (portv s)) →
  pat (put_port s p o) q = if decide (q = p) then o else pat s q.
Proof.
  intros Hp. unfold pat, put_port. simpl. pose proof (zset_is_Some (portv s) p o Hp) as Hs.
  rewrite (zget_zset _ _ _ _ _ Hs). repeat case_decide; subst; try done; by destruct o.
Qed.

Lemma wp_portv_store s p o (Q : () → sw → Prop) :
  dims s → 0 ≤ p < numports s → Q () (put_port s p o) → wp (portv_store p o) Q s.
Proof.
  intros Hd Hp HQ. pose proof (d_len s Hd). apply wp_bind, wp_get, wp_bind.
  eapply wp_deref; [apply zset_is_Some; lia|]. by apply wp_modify.
Qed.

Lemma wp_port_upd s p pt g (Q : () → sw → Prop) :
  dims s → pat s p = Some pt → Q () (put_port s p (Some (g pt))) → wp (port_upd p g) Q s.
Proof.
  intros Hd Hp HQ. apply wp_bind, (wp_port_get s p pt); [done|].
  apply wp_portv_store; [done| |done]. apply pat_range in Hp. pose proof (d_len s Hd). lia.
Qed.

Lemma dims_put_port s p o : dims s → dims (put_port s p o).
Proof. intros Hd. destruct Hd. split; try done. simpl. by rewrite length_insert. Qed.

(** Only queues, counters, the trace and the count of small allocations
    change. *)
Record quiet s s' : Prop := {
  q_np : numports s' = numports s;
  q_pflag : pflag s' = pflag s;
  q_vlant : vlant s' = vlant s;
  q_vv : validvlan s' = validvlan s;
  q_fst : fst_st s' = fst_st s;
  q_mact : mact s' = mact s;
  q_qt : qt s' = qt s;
  q_stdqlen : stdqlen s' = stdqlen s;
  q_len : length (portv s') = length (portv s);
  q_sig : ∀ q, psig s' q = psig s q;
  q_trace : ∃ l, trace s' = trace s ++ l
}.

#[global] Instance quiet_preorder : PreOrder quiet.
Proof.
  split.
  - split; try done. exists []. by rewrite app_nil_r.
  - intros s1 s2 s3 [] []. split; try congruence. destruct q_trace0 as [l Hl], q_trace1 as [l' Hl'].
    exists (l ++ l'). by rewrite Hl', Hl, <- app_assoc.
Qed.

Lemma quiet_array s s' v f : quiet s s' → vl_array v f s' = vl_array v f s.
Proof. intros []. unfold vl_array, vl. by rewrite q_vlant0. Qed.
Lemma quiet_farray s s' v f : quiet s s' → fs_array v f s' = fs_array v f s.
Proof. intros []. unfold fs_array. by rewrite q_fst0. Qed.
Lemma quiet_valid s s' v : quiet s s' → valid s' v ↔ valid s v.
Proof. intros []. unfold valid. by rewrite q_vv0. Qed.

Lemma quiet_calm s s' : quiet s s' → dims s → calm s s'.
Proof.
  intros Hq Hd. pose proof (quiet_array s s') as Ha. pose proof (quiet_farray s s') as Hfa. split.
  - pose proof (quiet_valid s s') as Hva. destruct Hd, Hq. split; rewrite ?q_np0, ?q_fst0, ?q_vv0, ?q_mact0, ?q_len0, ?q_qt0; try done.
    + intros v. rewrite Hva by done. apply d_vr0.
    + intros v f. rewrite Hva, Ha by done. apply d_v0.
    + intros v f. rewrite Hva, Hfa by done. apply d_f0.
    + intros v f. rewrite Hva, Ha by done. apply d_vn0.
    + intros v. rewrite Hva by done. apply d_fn0.
  - destruct Hq. split; try done; congruence.
  - intros v f q. unfold vb. by rewrite Ha.
  - intros v f q. unfold fb. by rewrite Hfa.
Qed.

Lemma quiet_add_event s e : quiet s (add_event e s).
Proof. split; try done. by eexists. Qed.
Lemma quiet_nmalloc s n : quiet s (set_nmalloc n s).
Proof. split; try done. exists []. by rewrite app_nil_r. Qed.

Lemma wp_call_sender s ms e packet len (Q : Z → sw → Prop) :
  is_Some ms →
  (∀ rv s', quiet s s' → portv s' = portv s →
     s' = add_event (EvSend (fd_ctl e) (fd_data e) (take_z len packet) (ep_port e)) s → Q rv s') →
  wp (call_sender E ms e packet len) Q s.
Proof.
  intros [m ->] HQ. apply wp_bind, wp_ret, wp_bind, wp_get, wp_bind, wp_modify, wp_ret, HQ; [|done..].
  apply quiet_add_event.
Qed.

Lemma wp_malloc s (Q : bool → sw → Prop) :
  (∀ b s', quiet s s' → portv s' = portv s → mact s' = mact s → Q b s') → wp (malloc E) Q s.
Proof. intros HQ. apply HQ; [apply quiet_nmalloc | done..]. Qed.

Lemma wp_malloc_val s (Q : bool → sw → Prop) :
  (∀ b s', quiet s s' → portv s' = portv s → b = malloc_ok E (nmalloc s) → Q b s') → wp (malloc E) Q s.
Proof. intros HQ. apply HQ; [apply quiet_nmalloc | done..]. Qed.

Lemma wp_vdepq_add_q s q packet len tmp :
  wp (vdepq_add_q E q packet len tmp) (λ _ s', quiet s s' ∧ portv s' = portv s) s.
Proof.
  apply wp_bind, wp_malloc. intros [] s1 H1 P1 _; simpl; [|done].
  destruct tmp; [done|]. apply wp_bind, wp_malloc. intros [] s2 H2 P2 _; simpl;
    (split; [by etrans | congruence]).
Qed.

Lemma wp_send_ep s ms e packet len tmp :
  is_Some ms →
  wp (send_ep E ms e packet len tmp) (λ r s', quiet s s' ∧ portv s' = portv s ∧ esig r.1 = esig e) s.
Proof.
  intros Hms. unfold send_ep. destruct (VDE_PQ2 E); simpl.
  - apply wp_bind. eapply (wp_mono _ (λ _ s', quiet s s' ∧ portv s' = portv s)).
    { destruct (vdepq_count e =? 0); simpl; [|done].
      apply wp_bind, wp_call_sender; [done|]. intros rv s' Hq Hp _. by apply wp_ret. }
    intros [] s1 [H1 P1]; simpl; [|done]. apply wp_bind.
    eapply (wp_mono _ (λ r s', quiet s s' ∧ portv s' = portv s ∧ esig r.1 = esig e)).
    { destruct (vdepq_count e <? vdepq_max e); [|done]. apply wp_bind.
      eapply wp_mono; [apply wp_vdepq_add_q|]. intros [[n q] t] s2 [H2 P2]. apply wp_ret.
      split_and!; [by etrans | congruence | done]. }
    intros r s2 (H2 & P2 & S2). apply wp_bind, wp_whenM; intros _; [|done].
    apply wp_modify, wp_ret. split_and!; [|done|done]. etrans; [done|apply quiet_add_event].
  - apply wp_bind, wp_call_sender; [done|]. intros rv s' Hq Hp _. by apply wp_ret.
Qed.

Lemma wp_send_eps l : ∀ s ms packet len tmp,
  (l ≠ [] → is_Some ms) →
  wp (send_eps E ms l packet len tmp)
    (λ r s', quiet s s' ∧ portv s' = portv s ∧ esig <$> r.1 = esig <$> l) s.
Proof.
  induction l as [|e l IH]; intros s ms packet len tmp Hms; [by apply wp_ret|].
  apply wp_bind. eapply wp_mono; [apply wp_send_ep; by apply Hms|]. intros r s1 (H1 & P1 & S1).
  apply wp_bind. eapply wp_mono; [apply IH; intros _; by apply Hms|]. intros rs s2 (H2 & P2 & S2).
  apply wp_ret. split_and!; [by etrans | congruence |]. csimpl. congruence.
Qed.

(** Sending to an existing port. *)
Lemma wp_SEND s p packet len tmp :
  dims s → sigs_ok s → is_Some (psig s p) →
  wp (SEND_PACKET_PORT E p packet len tmp) (λ _ s', quiet s s') s.
Proof.
  intros Hd Hok [ps Hps]. pose proof Hps as (pt & Hpt & ->)%psig_Some.
  destruct (Hok p _ Hps) as [Hms _]. apply wp_bind, (wp_port_ptr_Some s p pt); [done|].
  destruct (len =? 0); [by apply wp_ret|]. apply wp_bind, (wp_deref _ pt); [done|].
  set (pt' := if PORTCOUNTERS E then _ else pt).
  assert (psig_of pt' = psig_of pt ∧ p_ep pt' = p_ep pt ∧ p_ms pt' = p_ms pt) as (Hsig & Hep & Hm)
    by (unfold pt'; by destruct (PORTCOUNTERS E), pt).
  apply wp_bind. eapply wp_mono.
  { apply wp_send_eps. rewrite Hep, Hm. intros Hne. apply Hms. simpl. by destruct (p_ep pt). }
  intros rs s1 (H1 & P1 & S1). apply wp_bind.
  pose proof (c_dims _ _ (quiet_calm _ _ H1 Hd)) as Hd1.
  assert (0 ≤ p < numports s) as Hp by (rewrite <- (d_len s Hd); by eapply pat_range).
  apply wp_portv_store; [done|by rewrite (q_np _ _ H1)|]. apply wp_ret.
  etrans; [done|]. split; try done.
  - simpl. by rewrite length_insert.
  - intros q. unfold psig. rewrite pat_put by (rewrite (d_len _ Hd1), (q_np _ _ H1); lia).
    case_decide; [|done]. subst q. unfold pat. rewrite P1. fold (pat s p). rewrite Hpt. simpl. f_equal.
    rewrite <- Hsig. unfold psig_of. rewrite Hep in S1. cbn [upd_ep p_ep]. rewrite S1, <- Hep. done.
  - exists []. by rewrite app_nil_r.
Qed.

Lemma wp_send_ports l : ∀ s packet len tmp,
  dims s → sigs_ok s → (∀ p, p ∈ l → is_Some (psig s p)) →
  wp (send_ports E l packet len tmp) (λ _ s', quiet s s') s.
Proof.
  induction l as [|p l IH]; intros s packet len tmp Hd Hok Hl; [by apply wp_ret|].
  apply wp_bind. eapply wp_mono; [apply wp_SEND; [done..|apply Hl; set_solver]|].
  intros t s1 H1. pose proof (quiet_calm _ _ H1 Hd) as Hc.
  eapply wp_mono; [apply IH|].
  - apply Hc.
  - eapply frame_sigs_ok; [apply Hc | done].
  - intros q Hq. rewrite (q_sig _ _ H1). apply Hl. set_solver.
  - intros t' s2 H2. exact (transitivity H1 H2).
Qed.

End inv.
