(* ===== verification/SpanInv.v ===== *)
(** * SpanInv: what the spanning-tree functions do to the switch state

    Rules for the functions of [fstp.c] in terms of the set views: which only
    send BPDUs, which move ports between discarding and forwarding, and that
    each keeps the per-port consistency of the tables. *)
From Stdlib Require Import Lia.
From stdpp Require Import base numbers list gmap strings.
From S2P Require Import Prelude Scan BitArray Hash Qtimer Switch PortSend Fstp Port SwitchInv.

Section span.
Context {T : Type} `{!MacTable T} (E : env).
Abbreviation sw := (switch T).
Implicit Type s : sw.

(** ** Consistency of the tables at one VLAN and port *)

(** A port in one of the tables exists. *)
Definition alloc_at s (v q : Z) : Prop :=
  (∀ f, f ≠ Notlearning → vb s v f q = true → is_Some (psig s q)) ∧
  (∀ f, f = Untag ∨ f = Tagged ∨ f = Backup → fb s v f q = true → is_Some (psig s q)).

(** A port that forwards or takes part in the spanning tree of a VLAN is an
    active member of it; it forwards untagged exactly for its own VLAN. *)
Definition disc_at s (v q : Z) : Prop :=
  (vb s v Bctag q = true → vb s v Table q = true ∧ act s q ∧ utag s q ≠ v) ∧
  (vb s v Bcuntag q = true → vb s v Table q = true ∧ act s q ∧ utag s q = v) ∧
  (∀ f, f = Untag ∨ f = Tagged ∨ f = Backup → fb s v f q = true → vb s v Table q = true ∧ act s q).

Lemma act_psig s q : act s q → is_Some (psig s q).
Proof. intros (pt & -> & _). by eexists. Qed.

Lemma psig_range s q : dims s → is_Some (psig s q) → 0 ≤ q < numports s.
Proof.
  intros Hd [pt (pt0 & Hp & _)%psig_Some]. rewrite <- (d_len s Hd). by eapply pat_range.
Qed.

(** ** Steps that keep the other VLANs, the membership and the consistency *)

Record evolve (v : Z) s s' : Prop := {
  e_dims : dims s';
  e_frame : frame s s';
  e_vb : ∀ v' f q, v' ≠ v ∨ f = Table → vb s' v' f q = vb s v' f q;
  e_fb : ∀ v' f q, v' ≠ v ∨ f = Untag ∨ f = Tagged → fb s' v' f q = fb s v' f q;
  e_alloc : ∀ q, alloc_at s v q → alloc_at s' v q;
  e_disc : ∀ q, disc_at s v q → disc_at s' v q
}.

Lemma evolve_refl v s : dims s → evolve v s s.
Proof. by split. Qed.

#[global] Instance evolve_trans v : Transitive (evolve v).
Proof.
  intros s1 s2 s3 [] []. split; [done | by etrans | | |eauto..].
  - intros v' f q H. by rewrite e_vb1, e_vb0.
  - intros v' f q H. by rewrite e_fb1, e_fb0.
Qed.

Lemma calm_alloc s s' v q : calm s s' → alloc_at s v q → alloc_at s' v q.
Proof.
  intros [_ Hf Hv Hg] [H1 H2]. split; intros f Hne; rewrite ?Hv, ?Hg, (fr_sig _ _ Hf); intros Hb;
    [by eapply H1 | by eapply H2].
Qed.
Lemma calm_disc s s' v q : calm s s' → disc_at s v q → disc_at s' v q.
Proof.
  intros [_ Hf Hv Hg] (H1 & H2 & H3). unfold disc_at.
  setoid_rewrite (frame_act s s' q Hf). rewrite !Hv, (frame_utag _ _ _ Hf). setoid_rewrite Hg. auto.
Qed.

Lemma calm_evolve v s s' : calm s s' → evolve v s s'.
Proof.
  intros Hc. pose proof Hc as [Hd Hf Hv Hg].
  split; eauto using calm_alloc, calm_disc.
Qed.

(** Learned addresses of the VLAN that remain are not on newly discarding
    ports. *)
Definition mac_keep (v : Z) s s' : Prop := ∀ k q,
  mt_ports (mact s') k = Some q → EMAC2VLAN k = v →
  vb s' v Notlearning q = true → vb s v Notlearning q = true.

Lemma calm_mac_keep v s s' : calm s s' → mac_keep v s s'.
Proof. intros [_ _ Hv _] k q _ _. by rewrite Hv. Qed.
Lemma mac_keep_trans v s1 s2 s3 :
  frame s2 s3 → mac_keep v s1 s2 → mac_keep v s2 s3 → mac_keep v s1 s3.
Proof. intros Hf H1 H2 k q Hk Hv Hn. eapply H1; [by eapply fr_mac|done|]. by eapply H2. Qed.

(** ** Functions that only send *)

Lemma calm_upd_fst s (g : fstate → fstate) :
  dims s → (∀ f, fnumports (g f) = fnumports f ∧ fsttab (g f) = fsttab f) →
  calm s (set_fst (g (fst_st s)) s).
Proof.
  intros Hd Hg. destruct (Hg (fst_st s)) as (H1 & H2). split.
  - destruct Hd. unfold fs_array in *.
    split; cbn [set_fst numports portv fst_st validvlan mact qt]; unfold fs_array;
      cbn [set_fst fst_st]; rewrite ?H1, ?H2; done.
  - by split.
  - done.
  - intros. unfold fb, fs_array. cbn [set_fst fst_st]. by rewrite H2.
Qed.

Lemma wp_upd_fst_calm s g (Q : () → sw → Prop) :
  dims s → (∀ f, fnumports (g f) = fnumports f ∧ fsttab (g f) = fsttab f) →
  (∀ s', calm s s' → Q () s') → wp (upd_fst g) Q s.
Proof. intros Hd Hg HQ. apply wp_modify, HQ. by apply calm_upd_fst. Qed.

Lemma wp_fs_put_calm s v r r' (Q : () → sw → Prop) :
  dims s → valid s v → fsttab (fst_st s) !! v = Some r → (∀ f, fget f r' = fget f r) →
  (∀ s', calm s s' → mact s' = mact s → Q () s') → wp (fs_put v r') Q s.
Proof.
  intros Hd Hv Hr Hg HQ. apply wp_modify, HQ; [|done]. fold (put_fs s v r'). split.
  - apply dims_put_fs; [done..|]. intros f. rewrite Hg, <- (fs_array_Some s v f r Hr). by apply d_f.
  - apply frame_put_fs.
  - done.
  - intros v' f q. unfold fb. rewrite fs_array_put. case_decide; [|done]. subst.
    by rewrite Hg, (fs_array_Some s v f r Hr).
Qed.

Lemma wp_port_get_status s p v (Q : Z → sw → Prop) :
  dims s → valid s v → 0 ≤ p < numports s → (∀ st, Q st s) → wp (port_get_status p v) Q s.
Proof.
  intros Hd Hv Hp HQ. pose proof (valid_range s v Hd Hv) as [Hr _].
  apply wp_bind, wp_vl_check; [done..|]. destruct (vb _ _ _ _); [by apply wp_ret|].
  apply wp_bind, wp_vl_check; [done..|]. destruct (vb _ _ _ _); [by apply wp_ret|].
  apply wp_bind, wp_vl_check; [done..|]. by apply wp_ret.
Qed.

Lemma wp_STP_FLAGS s v p agr tc tcack (Q : Z → sw → Prop) :
  dims s → valid s v → 0 ≤ p < numports s → (∀ fl, Q fl s) → wp (STP_FLAGS v p agr tc tcack) Q s.
Proof.
  intros Hd Hv Hp HQ. apply wp_bind, wp_fs_check; [done..|]. apply wp_bind, wp_fs_get; [done..|].
  intros r Hr. apply wp_bind, wp_port_get_status; [done..|]. intros st. by apply wp_ret.
Qed.

Lemma calm_ok s s' v : calm s s' → valid s v → sigs_ok s → valid s' v ∧ sigs_ok s'.
Proof. intros [_ Hf _ _] Hv Hs. split; [by apply (frame_valid s s') | by eapply frame_sigs_ok]. Qed.
Lemma calm_range s s' p : calm s s' → is_Some (psig s p) → is_Some (psig s' p).
Proof. intros [_ Hf _ _]. by rewrite (fr_sig _ _ Hf). Qed.

Lemma wp_port_send s p packet len :
  dims s → sigs_ok s → is_Some (psig s p) → wp (port_send_packet E p packet len) (λ _ s', calm s s') s.
Proof.
  intros Hd Hs Hp. apply wp_bind. eapply wp_mono; [by apply wp_SEND|].
  intros t s' Hq. apply wp_ret. by apply quiet_calm.
Qed.

Lemma wp_send_out s v p agr tc tcack :
  dims s → sigs_ok s → valid s v → is_Some (psig s p) →
  wp (send_out E v p agr tc tcack) (λ _ s', calm s s') s.
Proof.
  intros Hd Hs Hv Hp. apply wp_bind, wp_upd_fst_calm; [done|done|]. intros s1 C1.
  destruct (calm_ok _ _ _ C1 Hv Hs) as [V1 S1]. pose proof (calm_range _ _ _ C1 Hp) as P1.
  apply wp_bind, wp_STP_FLAGS; [apply C1|done|apply psig_range; [apply C1|done]|]. intros fl.
  apply wp_bind, wp_upd_fst_calm; [apply C1|done|]. intros s2 C2.
  destruct (calm_ok _ _ _ C2 V1 S1) as [V2 S2]. pose proof (calm_range _ _ _ C2 P1) as P2.
  apply wp_bind, wp_get. eapply wp_mono; [apply wp_port_send; [apply C2|done|done]|].
  intros [] s3 C3. by do 2 (etrans; [done|]).
Qed.

Lemma wp_send_outtag s v p agr tc tcack :
  dims s → sigs_ok s → valid s v → is_Some (psig s p) →
  wp (send_outtag E v p agr tc tcack) (λ _ s', calm s s') s.
Proof.
  intros Hd Hs Hv Hp. apply wp_bind, wp_upd_fst_calm; [done|done|]. intros s0 C0.
  apply wp_bind, wp_upd_fst_calm; [apply C0|done|]. intros s1 C1'. pose proof (transitivity C0 C1') as C1.
  destruct (calm_ok _ _ _ C1 Hv Hs) as [V1 S1]. pose proof (calm_range _ _ _ C1 Hp) as P1.
  apply wp_bind, wp_STP_FLAGS; [apply C1|done|apply psig_range; [apply C1|done]|]. intros fl.
  apply wp_bind, wp_upd_fst_calm; [apply C1|done|]. intros s2 C2.
  destruct (calm_ok _ _ _ C2 V1 S1) as [V2 S2]. pose proof (calm_range _ _ _ C2 P1) as P2.
  apply wp_bind, wp_get. eapply wp_mono; [apply wp_port_send; [apply C2|done|done]|].
  intros [] s3 C3. by do 2 (etrans; [done|]).
Qed.

Lemma wp_fst_sendbpdu s v p agr tc tcack :
  dims s → sigs_ok s → valid s v → is_Some (psig s p) →
  wp (fst_sendbpdu E v p agr tc tcack) (λ _ s', calm s s') s.
Proof.
  intros Hd Hs Hv Hp. apply wp_bind, wp_gets, wp_bind, wp_get.
  destruct (Z.land _ _ =? 0); [by apply wp_ret, calm_refl|].
  apply wp_bind, wp_fs_get; [done..|]. intros r Hr.
  apply wp_bind, wp_fs_check; [done|done|by apply psig_range|].
  apply wp_bind. eapply (wp_mono _ (λ _ s', calm s s')).
  { apply wp_whenM; intros _; [|by apply calm_refl].
    apply wp_bind, wp_upd_fst_calm; [done|done|]. intros s1 C1.
    apply wp_bind, wp_upd_fst_calm; [apply C1|done|]. intros s2 C2'. pose proof (transitivity C1 C2') as C2.
    destruct (calm_ok _ _ _ C2 Hv Hs) as [V2 S2]. pose proof (calm_range _ _ _ C2 Hp) as P2.
    eapply wp_mono; [apply wp_send_out; [apply C2|done..]|]. intros [] s3 C3. by etrans. }
  intros [] s1 C1. destruct (calm_ok _ _ _ C1 Hv Hs) as [V1 S1]. pose proof (calm_range _ _ _ C1 Hp) as P1.
  apply wp_bind, wp_fs_check; [apply C1|done|apply psig_range; [apply C1|done]|].
  apply wp_whenM; intros _; [|done].
  apply wp_bind, wp_upd_fst_calm; [apply C1|done|]. intros s2 C2.
  apply wp_bind, wp_upd_fst_calm; [apply C2|done|]. intros s3 C3.
  pose proof (transitivity C1 (transitivity C2 C3)) as C13.
  destruct (calm_ok _ _ _ C13 Hv Hs) as [V3 S3]. pose proof (calm_range _ _ _ C13 Hp) as P3.
  eapply wp_mono; [apply wp_send_outtag; [apply C3|done..]|]. intros [] s4 C4. by etrans.
Qed.

Lemma wp_FSTP_ACTIVE s v p (Q : bool → sw → Prop) :
  dims s → valid s v → 0 ≤ p < numports s → (∀ b, Q b s) → wp (FSTP_ACTIVE v p) Q s.
Proof.
  intros Hd Hv Hp HQ. apply wp_bind, wp_fs_check; [done..|]. destruct (fb _ _ _ _); [by apply wp_ret|].
  by apply wp_fs_check.
Qed.

Lemma wp_designated s v p gen (Q : bool → sw → Prop) :
  dims s → valid s v → 0 ≤ p < numports s →
  (∀ b, (b = true → p ≠ gen ∧ fb s v Backup p = false) → Q b s) → wp (designated v p gen) Q s.
Proof.
  intros Hd Hv Hp HQ. unfold designated. destruct (Z.eqb_spec p gen); [apply wp_ret; by apply HQ|].
  apply wp_bind, wp_fs_check; [done..|]. destruct (fb s v Backup p) eqn:Eb; [apply wp_ret; by apply HQ|].
  apply wp_bind, wp_fs_check; [done..|]. destruct (fb s v Edge p); [apply wp_ret; by apply HQ|].
  apply wp_FSTP_ACTIVE; [done..|]. intros b. by apply HQ.
Qed.

(** The members of the untagged and tagged tables exist. *)
Definition members_ok s v : Prop := ∀ f q, f = Untag ∨ f = Tagged → fb s v f q = true → is_Some (psig s q).

Lemma calm_members s s' v : calm s s' → members_ok s v → members_ok s' v.
Proof. intros [_ Hf _ Hg] H f q Hff. rewrite Hg, (fr_sig _ _ Hf). by apply H. Qed.

Lemma wp_FORALL_calm s v f n (body : Z → M sw ()) :
  dims s → valid s v → n = numports s → sigs_ok s → members_ok s v → f = Untag ∨ f = Tagged →
  (∀ k s', calm s s' → valid s' v → sigs_ok s' → is_Some (psig s' k) → wp (body k) (λ _ s'', calm s' s'') s') →
  wp (ba_FORALL (fs_array v f) n body) (λ _ s', calm s s') s.
Proof.
  intros Hd Hv Hn Hs Hm Hf Hbody. apply (wp_FORALL_fs_inv s); [done..| |by apply calm_refl|].
  - intros s' []. auto.
  - intros k s' Hk Hb C. destruct (calm_ok _ _ _ C Hv Hs) as [V' S'].
    eapply wp_mono; [apply Hbody; [done..|]|].
    + eapply calm_range; [done|]. by eapply Hm.
    + intros [] s'' C'. by etrans.
Qed.

Lemma wp_hash_delete_vlan s v :
  dims s → 0 ≤ v < 2 ^ 16 →
  wp (hash_delete_vlan_m v) (λ _ s', calm s s' ∧ ∀ k q, mt_ports (mact s') k = Some q → EMAC2VLAN k ≠ v) s.
Proof.
  intros Hd Hv. destruct (mt_delete_vlan_ok (mact s) v (d_mac s Hd)) as (t & Ht & Hwf & Hm).
  apply wp_bind, wp_get, wp_bind. eapply wp_deref; [exact Ht|]. apply wp_modify.
  assert (u16 v = v) as Hu by (apply Z.mod_small; done). rewrite Hu in Hm. split.
  - split; [by destruct Hd | | done..]. split; try done. intros k p. simpl. rewrite Hm. tauto.
  - simpl. intros k q. rewrite Hm. tauto.
Qed.

Lemma wp_topology_change s v gen :
  dims s → sigs_ok s → valid s v → members_ok s v →
  wp (topology_change E v gen) (λ _ s', calm s s' ∧ ∀ k q, mt_ports (mact s') k = Some q → EMAC2VLAN k ≠ v) s.
Proof.
  intros Hd Hs Hv Hm. apply wp_bind, wp_gets. apply wp_bind, wp_fs_get; [done..|]. intros r Hr.
  apply wp_bind, (wp_fs_put_calm _ _ r); [done..|by intros f; destruct r, f|]. intros s1 C1 _.
  pose proof (d_vr s Hd v Hv) as Hvr. unfold NUMOFVLAN in Hvr.
  apply wp_bind. eapply wp_mono; [apply wp_hash_delete_vlan; [apply C1|lia]|].
  intros [] s2 [C2' M2]. pose proof (transitivity C1 C2') as C2.
  destruct (calm_ok _ _ _ C2 Hv Hs) as [V2 S2]. apply wp_bind, wp_gets.
  assert (∀ s', calm s2 s' → ∀ f, f = Untag ∨ f = Tagged →
    wp (ba_FORALL (fs_array v f) (fnumports (fst_st s2)) (λ p,
      c ← designated v p gen; whenM c (fst_sendbpdu E v p 0 1 0))) (λ _ s'', calm s2 s'') s') as Hloop.
  { intros s' C' f Hf. destruct (calm_ok _ _ _ C' V2 S2) as [V' S'].
    eapply wp_mono; [apply (wp_FORALL_calm s' v f); [apply C'|done| |done| |done|]|].
    - rewrite (d_fnp s2) by apply C2. symmetry. apply (c_frame _ _ C').
    - eapply calm_members; [exact (transitivity C2 C')|done].
    - intros k s3 C3 V3 S3 P3. apply wp_bind, wp_designated; [apply C3|done|apply psig_range; [apply C3|done]|].
      intros b _. apply wp_whenM; intros _; [|apply calm_refl, C3]. apply wp_fst_sendbpdu; [apply C3|done..].
    - intros [] s'' C''. exact (transitivity C' C''). }
  apply wp_bind. eapply wp_mono; [apply Hloop; [apply calm_refl, C2 | by left]|]. intros [] s3 C3.
  eapply wp_mono; [apply Hloop; [done | by right]|]. intros [] s4 C4. split.
  - exact (transitivity C2 C4).
  - intros k q Hk. eapply M2. by eapply (fr_mac _ _ (c_frame _ _ C4)).
Qed.

(** ** Port status *)

(** The tables of a member after [port_set_status]; [own]: the VLAN is the
    port's untagged one. *)
Definition st_bit (st : Z) (own : bool) (f : vfield) (old : bool) : bool :=
  match f with
  | Table => old
  | Notlearning => st =? DISCARDING
  | Bctag => if (st =? DISCARDING) || (st =? LEARNING) then false else if own then old else true
  | Bcuntag => if (st =? DISCARDING) || (st =? LEARNING) then false else if own then true else old
  end.

Record set_status_post s (p v st : Z) s' : Prop := {
  ss_dims : dims s';
  ss_frame : frame s s';
  ss_vb : ∀ v' f q, vb s' v' f q =
    if decide (v' = v ∧ q = p ∧ vb s v Table p = true)
    then st_bit st (utag s p =? v) f (vb s v f q) else vb s v' f q;
  ss_fb : ∀ v' f q, fb s' v' f q = fb s v' f q
}.

Ltac bits := repeat match goal with
  | H : ∀ v f q, vb ?s' v f q = _ |- context [vb ?s' _ _ _] => rewrite !H
  | H : ∀ v f q, fb ?s' v f q = _ |- context [fb ?s' _ _ _] => rewrite !H
  end.

Lemma utag_pat s p pt : pat s p = Some pt → utag s p = p_vlanuntag pt.
Proof. unfold utag, psig. by intros ->. Qed.

Ltac bit_cases := repeat case_decide; destruct_and?; subst; simpl; try done; try tauto; try congruence.

Lemma wp_port_set_status s p v st (Q : () → sw → Prop) :
  dims s → valid s v → is_Some (psig s p) →
  (∀ s', set_status_post s p v st s' → Q () s') → wp (port_set_status p v st) Q s.
Proof.
  intros Hd Hv Hps HQ. pose proof (psig_range s p Hd Hps) as Hp.
  pose proof (valid_range s v Hd Hv) as [Hr _].
  apply wp_bind, wp_vl_check; [done..|]. destruct (vb s v Table p) eqn:Et; simpl.
  2: { apply wp_ret, HQ. split; try done. intros v' f q. rewrite decide_False; [done|]. intros (_ & _ & ?). congruence. }
  assert (∀ f1 s1, vupd s v f1 p (st =? DISCARDING) s1 → valid s1 v ∧ 0 ≤ p < numports s1) as Hok.
  { intros f1 s1 []. split; [by apply (frame_valid s s1) | by rewrite (fr_np s s1)]. }
  assert (∀ f1 b1 s1 f2 b2 s2, vupd s v f1 p b1 s1 → vupd s1 v f2 p b2 s2 → valid s2 v ∧ 0 ≤ p < numports s2) as Hok2.
  { intros f1 b1 s1 f2 b2 s2 [] []. assert (frame s s2) as F by (by etrans).
    split; [by apply (frame_valid s s2) | by rewrite (fr_np s s2)]. }
  destruct (Z.eqb_spec st DISCARDING) as [->|Hn0]; [|destruct (Z.eqb_spec st LEARNING) as [->|Hn1]].
  - apply wp_bind, wp_vl_set; [done..|]. intros s1 U1. destruct (Hok _ _ U1) as [V1 P1].
    apply wp_bind, wp_vl_clr; [apply U1|done..|]. intros s2 U2. destruct (Hok2 _ _ _ _ _ _ U1 U2) as [V2 P2].
    apply wp_vl_clr; [apply U2|done..|]. intros s3 U3. apply HQ. destruct U1, U2, U3.
    split; [done|by do 2 (etrans; [done|])|intros v' f q; bits; destruct f; bit_cases|intros; by bits].
  - apply wp_bind, wp_vl_clr; [done..|]. intros s1 U1. destruct (Hok _ _ U1) as [V1 P1].
    apply wp_bind, wp_vl_clr; [apply U1|done..|]. intros s2 U2. destruct (Hok2 _ _ _ _ _ _ U1 U2) as [V2 P2].
    apply wp_vl_clr; [apply U2|done..|]. intros s3 U3. apply HQ. destruct U1, U2, U3.
    split; [done|by do 2 (etrans; [done|])|intros v' f q; bits; destruct f; bit_cases|intros; by bits].
  - apply wp_bind, wp_vl_clr; [done..|]. intros s1 U1. destruct (Hok _ _ U1) as [V1 P1].
    destruct U1 as [D1 F1 VB1 FB1]. rewrite <- (fr_sig _ _ F1) in Hps. destruct Hps as [ps (pt & Hpt & ->)%psig_Some].
    apply wp_bind, (wp_port_get _ _ pt); [done|]. rewrite <- (utag_pat s1 p pt Hpt), (frame_utag _ _ _ F1).
    apply Z.eqb_neq in Hn0, Hn1.
    destruct (utag s p =? v) eqn:Eu; (apply wp_vl_set; [done..|]); intros s2 []; apply HQ;
      (split; [done|by etrans|intros v' f q; bits; rewrite ?Eu; destruct f; bit_cases; by rewrite ?Hn0, ?Hn1 |intros; by bits]).
Qed.

Lemma set_status_alloc s p v st s' q :
  set_status_post s p v st s' → is_Some (psig s p) → alloc_at s v q → alloc_at s' v q.
Proof.
  intros [Hd Hf Hv Hg] Hp [H1 H2]. pose proof (fr_sig _ _ Hf) as Hsig. destruct (decide (q = p)) as [->|Hne].
  - split; intros; by rewrite Hsig.
  - split; intros f Hff; rewrite Hsig, ?Hv, ?Hg; rewrite ?decide_False by tauto; intros; [by eapply H1 | by eapply H2].
Qed.

Lemma set_status_disc s p v st s' q :
  set_status_post s p v st s' → (q = p → st ≠ DISCARDING → st ≠ LEARNING → act s p) →
  disc_at s v q → disc_at s' v q.
Proof.
  intros [Hd Hf Hv Hg] Ha (H1 & H2 & H3). unfold disc_at. setoid_rewrite (frame_act s s' q Hf).
  rewrite (frame_utag _ _ _ Hf). setoid_rewrite Hg. rewrite !Hv.
  destruct (decide (v = v ∧ q = p ∧ vb s v Table p = true)) as [(_ & -> & Ht)|Hn]; [|done].
  simpl. destruct (Z.eqb_spec st DISCARDING), (Z.eqb_spec st LEARNING); simpl; try (split_and!; [done..|auto]).
  destruct (Z.eqb_spec (utag s p) v); (split_and!; [intros Hb|intros Hb|auto]); auto.
Qed.

Lemma set_status_evolve s p v st s' :
  set_status_post s p v st s' → is_Some (psig s p) →
  (st ≠ DISCARDING → st ≠ LEARNING → disc_at s v p → act s p) → evolve v s s'.
Proof.
  intros Hpost Hp Ha. pose proof Hpost as [Hd Hf Hv Hg]. split; try done.
  - intros v' f q Hc. rewrite Hv. destruct (decide _) as [(-> & -> & _)|]; [|done]. by destruct Hc as [?| ->].
  - intros q. by eapply set_status_alloc.
  - intros q Hq. eapply set_status_disc; [done| |done]. intros ->. auto.
Qed.

Lemma fupd_valid s v f p b s' : fupd s v f p b s' → valid s v → 0 ≤ p < numports s → valid s' v ∧ 0 ≤ p < numports s'.
Proof. intros []. rewrite (fr_np s s'), (frame_valid s s') by done. done. Qed.

(** Writing a bit of the backup, edge or history tables. *)
Lemma fupd_evolve s v f p b s' :
  fupd s v f p b s' → f ≠ Untag → f ≠ Tagged →
  (f = Backup → b = true → is_Some (psig s p) ∧ (disc_at s v p → vb s v Table p = true ∧ act s p)) →
  evolve v s s'.
Proof.
  intros [Hd Hf Hv Hg] Hu Ht Hb. pose proof (fr_sig _ _ Hf) as Hsig. split; try done.
  - intros v' g q Hc. rewrite Hg. rewrite decide_False; [done|]. naive_solver.
  - intros q [H1 H2]. split; intros g Hgg; rewrite Hsig, ?Hv, ?Hg; [by apply H1|].
    case_decide as Hc; [|by apply H2]. destruct Hc as (_ & -> & ->). intros ->. apply Hb; [naive_solver | done].
  - intros q Hdq. pose proof Hdq as (H1 & H2 & H3). unfold disc_at. setoid_rewrite (frame_act s s' q Hf).
    rewrite (frame_utag _ _ _ Hf), !Hv. split_and!; [done..|].
    intros g Hgg. rewrite Hg. case_decide as Hc; [|by apply H3]. destruct Hc as (_ & -> & ->).
    intros ->. apply Hb; [naive_solver | done | done].
Qed.

(** ** Leaving the backup role *)

(** Some ports below [k] leave the backup table of the VLAN and forward again;
    the other ports are as before. *)
Record unblock (k : Z) (v : Z) s s' : Prop := {
  ub_evolve : evolve v s s';
  ub_vb : ∀ f q, k ≤ q ∨ fb s v Backup q = false → vb s' v f q = vb s v f q;
  ub_nl : ∀ q, vb s' v Notlearning q = true → vb s v Notlearning q = true;
  ub_fb : ∀ f q, f ≠ Backup ∨ k ≤ q ∨ fb s v Backup q = false → fb s' v f q = fb s v f q
}.

Lemma unblock_refl k v s : dims s → unblock k v s s.
Proof. split; [by apply evolve_refl | done..]. Qed.

Lemma unblock_mono k k' v s s' : k ≤ k' → unblock k v s s' → unblock k' v s s'.
Proof. intros Hk []. split; [done|..|done|]; intros f q Hc; [apply ub_vb0 | apply ub_fb0]; naive_solver lia. Qed.

Lemma unblock_one k v s s1 s2 s3 :
  unblock k v s s1 → fupd s1 v Backup k false s2 → set_status_post s2 k v FORWARDING s3 →
  fb s v Backup k = true → alloc_at s v k → unblock (k + 1) v s s3.
Proof.
  intros [He Hvb Hnl Hfb] U2 U3 Hk Ha.
  assert (is_Some (psig s2 k)) as P2.
  { rewrite (fr_sig s1 s2), (fr_sig s s1) by (apply U2 || apply He). eapply Ha; [|exact Hk]. auto. }
  assert (fb s1 v Backup k = true) as Hk1 by (rewrite Hfb; [done | right; left; lia]).
  assert (evolve v s1 s2) as E2 by (eapply fupd_evolve; done).
  assert (evolve v s1 s3) as E3.
  { split; [apply U3|exact (transitivity (e_frame _ _ _ E2) (ss_frame _ _ _ _ _ U3))|..].
    - intros v' f q Hc. rewrite (ss_vb _ _ _ _ _ U3), !(fu_vb _ _ _ _ _ _ U2).
      destruct (decide _) as [(-> & -> & _)|]; [|done]. by destruct Hc as [?| ->].
    - intros v' f q Hc. rewrite (ss_fb _ _ _ _ _ U3). by apply E2.
    - intros q Hq. by eapply set_status_alloc, E2.
    - intros q Hq. eapply set_status_disc; [exact U3| |by apply E2]. intros -> _ _.
      apply (frame_act s1 s2); [apply E2|]. apply (Hq : disc_at s1 v k) in Hk1; naive_solver. }
  destruct U2 as [_ _ V2 F2], U3 as [_ _ V3 F3]. split.
  - exact (transitivity He E3).
  - intros f q Hc. assert (q ≠ k) by (intros ->; destruct Hc; [lia|congruence]).
    rewrite V3, decide_False, V2 by tauto. apply Hvb. destruct Hc; [left; lia | by right].
  - intros q. rewrite V3. destruct (decide _) as [(_ & -> & _)|]; [done|]. rewrite V2. apply Hnl.
  - intros f q Hc. rewrite F3, F2, decide_False.
    + apply Hfb. destruct Hc as [|[|]]; [by left|right; left; lia|by right; right].
    + intros (_ & -> & ->). destruct Hc as [|[|]]; [done|lia|congruence].
Qed.

Lemma unblock_calm k v s s1 s2 : unblock k v s s1 → calm s1 s2 → unblock k v s s2.
Proof.
  intros [He Hvb Hnl Hfb] C. pose proof C as [_ _ V F].
  split; [exact (transitivity He (calm_evolve v _ _ C))|..]; intros *; rewrite ?V, ?F; auto.
Qed.

Lemma calm_unblock k v s s1 s2 : calm s s1 → unblock k v s1 s2 → unblock k v s s2.
Proof.
  intros C [He Hvb Hnl Hfb]. pose proof C as [_ _ V F].
  split; [exact (transitivity (calm_evolve v _ _ C) He)|..]; intros *; rewrite <- ?V, <- ?F; auto.
Qed.

Lemma evolve_valid v s s' : evolve v s s' → valid s v → valid s' v.
Proof. intros [_ Hf _ _ _ _]. by rewrite (frame_valid s s'). Qed.
Lemma evolve_sigs v s s' : evolve v s s' → sigs_ok s → sigs_ok s'.
Proof. intros [_ Hf _ _ _ _]. by apply frame_sigs_ok. Qed.
Lemma evolve_psig v s s' q : evolve v s s' → is_Some (psig s q) → is_Some (psig s' q).
Proof. intros [_ Hf _ _ _ _]. by rewrite (fr_sig s s'). Qed.

(** The loop over the backup table: the body leaves the port alone or makes it
    leave the table. *)
Lemma wp_unblock_loop s v n (body : Z → M sw ()) :
  dims s → valid s v → n = numports s → (∀ q, alloc_at s v q) →
  (∀ k s' Q, dims s' → valid s' v → 0 ≤ k < numports s' → Q () s' →
     wp (fs_clr v Backup k ;; port_set_status k v FORWARDING) Q s' → wp (body k) Q s') →
  wp (ba_FORALL (fs_array v Backup) n body) (λ _ s', unblock (numports s) v s s') s.
Proof.
  intros Hd Hv Hn Ha Hbody. eapply wp_mono; [apply (wp_FORALL_fs s v Backup n body (λ k s', unblock k v s s')); try done|].
  - intros k s' []. split_and!; [apply ub_evolve0..|]. intros q Hq. apply ub_fb0. auto.
  - intros k s1 Hk Hb U1. pose proof (ub_evolve _ _ _ _ U1) as E1.
    pose proof (evolve_valid _ _ _ E1 Hv) as V1.
    assert (0 ≤ k < numports s1) as K1 by (by rewrite (fr_np s s1) by apply E1).
    apply Hbody; [apply E1|done|done| |].
    + eapply unblock_mono; [|done]. lia.
    + apply wp_bind, wp_fs_clr; [apply E1|done|done|]. intros s2 U2.
      destruct (fupd_valid _ _ _ _ _ _ U2 V1 K1) as [V2 K2].
      apply wp_port_set_status; [apply U2|done| |].
      * rewrite (fr_sig s1 s2) by apply U2. eapply evolve_psig; [exact E1|]. eapply Ha; [|exact Hb]. auto.
      * intros s3 U3. by eapply unblock_one.
  - intros k s1 Hb U1. eapply unblock_mono; [|done]. lia.
  - intros [] s' [He Hvb Hnl Hfb]. split; try done; intros f q Hc; [apply Hvb | apply Hfb];
      destruct (fb s v Backup q) eqn:Eb; auto.
    + destruct Hc as [Hc|]; [|done]. apply fb_range in Eb; [lia|done].
    + destruct Hc as [|[Hc|]]; auto. apply fb_range in Eb; [lia|done].
Qed.

(** [fstnewvlan] on an existing VLAN: the spanning tree restarts. *)
Lemma wp_fstnewvlan_reset s v :
  dims s → valid s v → (∀ q, alloc_at s v q) →
  wp (fstnewvlan E v) (λ rv s', rv = 0 ∧ unblock (numports s) v s s') s.
Proof.
  intros Hd Hv Ha. destruct (valid_range s v Hd Hv) as [_ Hr]. apply wp_bind, wp_fs_ptr; [done|].
  destruct (d_f s Hd v Untag Hv) as (x & Hx & _). unfold fs_array in Hx.
  destruct (fsttab (fst_st s) !! v) as [r|] eqn:Er; [|done]. rewrite bool_decide_eq_false_2 by done.
  apply wp_bind, wp_ret, wp_bind, wp_get, wp_bind, wp_fs_get; [done..|]. intros r' Hr'.
  apply wp_bind, (wp_fs_put_calm _ _ r'); [done..|by intros f; destruct r', f|]. intros s1 C1 _.
  apply wp_bind, wp_ret, wp_bind, wp_gets, wp_bind.
  destruct (valid_range s v Hd Hv). assert (valid s1 v) as V1 by (apply (frame_valid s s1); [apply C1|done]).
  eapply wp_mono; [apply wp_unblock_loop; [apply C1|done|apply d_fnp, C1|by eauto using calm_alloc|]|].
  - by intros k s' Q _ _ _ _ Hw.
  - intros [] s2 U2. apply wp_ret. split; [done|]. rewrite (fr_np s s1) in U2 by apply C1.
    by eapply calm_unblock.
Qed.

(** ** Becoming a backup port, receiving a BPDU *)

Lemma alloc_members s v : (∀ q, alloc_at s v q) → members_ok s v.
Proof. intros Ha f q Hf Hb. eapply (Ha q); [|exact Hb]. naive_solver. Qed.

Lemma evolve_alloc v s s' : evolve v s s' → (∀ q, alloc_at s v q) → ∀ q, alloc_at s' v q.
Proof. intros [] Ha q. auto. Qed.

Lemma wp_fastprotocol_loop s v f n newroot :
  dims s → sigs_ok s → valid s v → n = numports s → f = Untag ∨ f = Tagged → (∀ q, alloc_at s v q) →
  wp (ba_FORALL (fs_array v f) n (fastprotocol_body E v newroot)) (λ _ s', evolve v s s') s.
Proof.
  intros Hd Hs Hv Hn Hf Ha. apply (wp_FORALL_fs_inv s); [done..| |by apply evolve_refl|].
  - intros s' []. split_and!; [done..|]. intros q. apply e_fb0. auto.
  - intros k s1 Hk Hb E1. pose proof (evolve_valid _ _ _ E1 Hv) as V1.
    assert (is_Some (psig s1 k)) as P1 by (eapply evolve_psig; [exact E1|]; by eapply alloc_members).
    apply wp_bind, wp_designated; [apply E1|done|by apply psig_range; [apply E1|]|].
    intros b _. apply wp_whenM; intros _; [|done].
    apply wp_bind, wp_port_set_status; [apply E1|done..|]. intros s2 U2.
    assert (evolve v s1 s2) as E12 by (by eapply set_status_evolve).
    pose proof (transitivity E1 E12) as E2. pose proof (evolve_valid _ _ _ E2 Hv) as V2.
    pose proof (evolve_psig _ _ _ _ E12 P1) as P2.
    apply wp_bind, wp_fs_set; [apply E2|done|by apply psig_range; [apply E2|]|]. intros s3 U3.
    assert (evolve v s2 s3) as E23.
    { eapply fupd_evolve; [done..|]. intros _ _. split; [done|]. intros (_ & _ & H3).
      apply (H3 f); [naive_solver|]. rewrite (e_fb v s s2 E2) by naive_solver. done. }
    pose proof (transitivity E2 E23) as E3. pose proof (evolve_valid _ _ _ E3 Hv) as V3.
    eapply wp_mono; [apply wp_fst_sendbpdu; [apply E3|exact (evolve_sigs _ _ _ E3 Hs)|done|exact (evolve_psig _ _ _ _ E23 P2)]|].
    intros [] s4 C4. exact (transitivity E3 (calm_evolve v _ _ C4)).
Qed.

Lemma wp_fastprotocol s v p :
  dims s → sigs_ok s → valid s v → (∀ q, alloc_at s v q) → act s p →
  wp (fastprotocol E v p) (λ _ s', evolve v s s') s.
Proof.
  intros Hd Hs Hv Ha Hact. apply wp_bind, wp_gets, wp_bind.
  eapply wp_mono; [apply wp_fastprotocol_loop; [done..|by apply d_fnp|by left|done]|]. intros [] s1 E1.
  apply wp_bind. eapply wp_mono.
  { apply wp_fastprotocol_loop; [apply E1|exact (evolve_sigs _ _ _ E1 Hs)|exact (evolve_valid _ _ _ E1 Hv)| |by right|exact (evolve_alloc _ _ _ E1 Ha)].
    rewrite d_fnp by done. symmetry. apply (e_frame _ _ _ E1). }
  intros [] s2 E2'. pose proof (transitivity E1 E2') as E2. pose proof (evolve_valid _ _ _ E2 Hv) as V2.
  pose proof (evolve_psig _ _ _ _ E2 (act_psig _ _ Hact)) as P2.
  apply wp_bind, wp_fs_clr; [apply E2|done|by apply psig_range; [apply E2|]|]. intros s3 U3.
  assert (evolve v s2 s3) as E23 by (by eapply fupd_evolve).
  pose proof (transitivity E2 E23) as E3. pose proof (evolve_valid _ _ _ E3 Hv) as V3.
  pose proof (evolve_psig _ _ _ _ E23 P2) as P3.
  apply wp_bind, wp_port_set_status; [apply E3|done..|]. intros s4 U4.
  assert (evolve v s3 s4) as E34.
  { eapply set_status_evolve; [done..|]. intros _ _ _. by apply (frame_act s s3); [apply E3|]. }
  pose proof (transitivity E3 E34) as E4.
  eapply wp_mono; [apply wp_fst_sendbpdu; [apply E4|exact (evolve_sigs _ _ _ E4 Hs)|exact (evolve_valid _ _ _ E4 Hv)|exact (evolve_psig _ _ _ _ E34 P3)]|].
  intros [] s5 C5. exact (transitivity E4 (calm_evolve v _ _ C5)).
Qed.

(** What a function working on one VLAN promises to the rest of the switch. *)
Definition vstep (v : Z) s s' : Prop := evolve v s s' ∧ mac_keep v s s'.

Lemma vstep_calm v s s' : calm s s' → vstep v s s'.
Proof. split; [by apply calm_evolve | by apply calm_mac_keep]. Qed.
#[global] Instance vstep_trans v : Transitive (vstep v).
Proof.
  intros s1 s2 s3 [E1 M1] [E2 M2]. split; [by etrans|]. eapply mac_keep_trans; [apply E2|done..].
Qed.
Lemma vstep_unblock k v s s' : unblock k v s s' → vstep v s s'.
Proof. intros [He _ Hn _]. split; [done|]. intros k' q _ _. apply Hn. Qed.
Lemma vstep_fupd s v f p b s' :
  fupd s v f p b s' → f ≠ Untag → f ≠ Tagged →
  (f = Backup → b = true → is_Some (psig s p) ∧ (disc_at s v p → vb s v Table p = true ∧ act s p)) →
  vstep v s s'.
Proof.
  intros U H1 H2 H3. split; [by eapply fupd_evolve|]. intros k q _ _. by rewrite (fu_vb _ _ _ _ _ _ U).
Qed.

(** A change of the tree followed by a topology change. *)
Lemma wp_then_topology_change s s1 v gen :
  evolve v s s1 → sigs_ok s → valid s v → (∀ q, alloc_at s v q) →
  wp (topology_change E v gen) (λ _ s', vstep v s s') s1.
Proof.
  intros E1 Hs Hv Ha. eapply wp_mono.
  { apply wp_topology_change; [apply E1|exact (evolve_sigs _ _ _ E1 Hs)|exact (evolve_valid _ _ _ E1 Hv)|].
    apply alloc_members. exact (evolve_alloc _ _ _ E1 Ha). }
  intros [] s2 [C2 M2]. split; [exact (transitivity E1 (calm_evolve v _ _ C2))|].
  intros k q Hk Hv'. by destruct (M2 k q Hk).
Qed.

Lemma rcvhist_not i : rcvhist i ≠ Untag ∧ rcvhist i ≠ Tagged ∧ rcvhist i ≠ Backup.
Proof. unfold rcvhist. by destruct (i =? 0). Qed.

Lemma wp_port_getcost s p (Q : Z → sw → Prop) : is_Some (psig s p) → (∀ c, Q c s) → wp (port_getcost p) Q s.
Proof.
  intros [ps (pt & Hpt & _)%psig_Some] HQ. apply wp_bind, (wp_port_get _ _ pt); [done|]. by apply wp_ret.
Qed.

(** What the functions on one VLAN need. *)
Definition good s v : Prop := dims s ∧ sigs_ok s ∧ valid s v ∧ ∀ q, alloc_at s v q.

Lemma evolve_good v s s' : evolve v s s' → good s v → good s' v.
Proof.
  intros He (_ & Hs & Hv & Ha). split_and!; [apply He | | |].
  - exact (evolve_sigs _ _ _ He Hs).
  - exact (evolve_valid _ _ _ He Hv).
  - exact (evolve_alloc _ _ _ He Ha).
Qed.
Lemma vstep_good v s s' : vstep v s s' → good s v → good s' v.
Proof. intros [He _]. by apply evolve_good. Qed.
Lemma vstep_act v s s' q : vstep v s s' → act s q → act s' q.
Proof. intros [He _]. apply (frame_act s s'). apply He. Qed.

Lemma wp_restart s v (b : bool) :
  good s v → wp (whenM b (_ ← fstnewvlan E v; mret ())) (λ _ s', vstep v s s') s.
Proof.
  intros (Hd & Hs & Hv & Ha). apply wp_whenM; intros _; [|by apply vstep_calm, calm_refl].
  apply wp_bind. eapply wp_mono; [by apply wp_fstnewvlan_reset|]. intros rv s1 [_ U]. apply wp_ret.
  by eapply vstep_unblock.
Qed.

(** The reaction to a better priority vector. *)
Lemma wp_new_root s v p (b : bool) root cost bridge po now :
  good s v → act s p →
  wp (whenM b (_ ← fstnewvlan E v; mret ()) ;;
      r ← fs_get v; fs_put v (vlst_set_root root cost bridge po p now r) ;;
      fastprotocol E v p ;; topology_change E v p) (λ _ s', vstep v s s') s.
Proof.
  intros G0 Hact. apply wp_bind. eapply wp_mono; [by apply wp_restart|]. intros [] s1 X1.
  pose proof (vstep_good _ _ _ X1 G0) as (D1 & S1 & V1 & A1).
  apply wp_bind, wp_fs_get; [done..|]. intros r Hr.
  apply wp_bind, (wp_fs_put_calm _ _ r); [done..|by intros f; destruct r, f|]. intros s2 C2 _.
  pose proof (transitivity X1 (vstep_calm v _ _ C2)) as X2.
  pose proof (vstep_good _ _ _ X2 G0) as (D2 & S2 & V2 & A2).
  apply wp_bind. eapply wp_mono; [apply wp_fastprotocol; [done..|exact (vstep_act _ _ _ _ X2 Hact)]|].
  intros [] s3 E3. eapply wp_mono; [exact (wp_then_topology_change s2 s3 v p E3 S2 V2 A2)|].
  intros [] s4 X4. exact (transitivity X2 X4).
Qed.

(** The reaction to a worse vector with the same root: the port leaves or takes
    the backup role. *)
Lemma wp_leave_backup s v p :
  good s v → act s p →
  wp (fs_clr v Backup p ;; port_set_status p v FORWARDING ;; topology_change E v p) (λ _ s', vstep v s s') s.
Proof.
  intros (D & S & V & A) Hact. pose proof (act_psig _ _ Hact) as P.
  apply wp_bind, wp_fs_clr; [done|done|by apply psig_range|]. intros s1 U1.
  assert (evolve v s s1) as E1 by (by eapply fupd_evolve).
  apply wp_bind, wp_port_set_status; [apply E1|exact (evolve_valid _ _ _ E1 V)|exact (evolve_psig _ _ _ _ E1 P)|].
  intros s2 U2. apply wp_then_topology_change; [|done..]. refine (transitivity E1 _).
  eapply set_status_evolve; [done|exact (evolve_psig _ _ _ _ E1 P)|].
  intros _ _ _. by apply (frame_act s s1); [apply E1|].
Qed.

Lemma wp_enter_backup s v p :
  good s v → act s p → vb s v Table p = true →
  wp (fs_set v Backup p ;; port_set_status p v DISCARDING ;; topology_change E v p) (λ _ s', vstep v s s') s.
Proof.
  intros (D & S & V & A) Hact Ht. pose proof (act_psig _ _ Hact) as P.
  apply wp_bind, wp_fs_set; [done|done|by apply psig_range|]. intros s1 U1.
  assert (evolve v s s1) as E1 by (by eapply fupd_evolve).
  apply wp_bind, wp_port_set_status; [apply E1|exact (evolve_valid _ _ _ E1 V)|exact (evolve_psig _ _ _ _ E1 P)|].
  intros s2 U2. apply wp_then_topology_change; [|done..]. refine (transitivity E1 _).
  eapply set_status_evolve; [done|exact (evolve_psig _ _ _ _ E1 P)|]. done.
Qed.

Lemma wp_fst_in_bpdu s p pk len v tagged :
  good s v → act s p → vb s v Table p = true →
  wp (fst_in_bpdu E p pk len v tagged) (λ _ s', vstep v s s') s.
Proof.
  intros G Hact Ht. pose proof G as (Hd & Hs & Hv & Ha). pose proof (act_psig _ _ Hact) as Hp.
  pose proof (psig_range _ _ Hd Hp) as Hpr. destruct (valid_range s v Hd Hv) as [_ Hr].
  apply wp_bind, wp_fs_ptr; [done|]. apply wp_bind, wp_fs_check; [done..|].
  destruct (fb s v Edge p); [by apply wp_ret, vstep_calm, calm_refl|].
  apply wp_bind, wp_get, wp_bind, wp_fs_set; [done..|]. intros s1 U1.
  destruct (rcvhist_not (rcvhistindex (fst_st s))) as (Hn1 & Hn2 & Hn3).
  assert (vstep v s s1) as X1 by (eapply vstep_fupd; done).
  set (ipk := if tagged then drop 4 pk else pk). wp_if; [by apply wp_ret|].
  apply wp_bind. eapply (wp_mono _ (λ _ s', vstep v s s')).
  { apply wp_whenM; intros _; [|done]. pose proof (vstep_good _ _ _ X1 G) as (D1 & S1 & V1 & A1).
    eapply wp_mono; [exact (wp_then_topology_change s1 s1 v p (evolve_refl v s1 D1) S1 V1 A1)|].
    intros [] s2 X2. exact (transitivity X1 X2). }
  intros [] s2 X2. pose proof (vstep_good _ _ _ X2 G) as G2. pose proof G2 as (D2 & S2 & V2 & A2).
  pose proof (vstep_act _ _ _ _ X2 Hact) as Hact2. pose proof (act_psig _ _ Hact2) as P2.
  assert (vb s2 v Table p = true) as T2 by (by rewrite (e_vb v s s2) by (apply X2 || auto)).
  assert (∀ m, wp m (λ _ s', vstep v s2 s') s2 → wp m (λ (_ : ()) s', vstep v s s') s2) as Hfin.
  { intros m Hm. eapply wp_mono; [exact Hm|]. intros [] s3 X3. exact (transitivity X2 X3). }
  apply wp_bind, wp_port_getcost; [done|]. intros c. apply wp_bind, wp_fs_get; [done..|]. intros r Hrr.
  apply wp_bind, wp_gets. wp_if.
  { apply Hfin, (wp_fs_put_calm _ _ r); [done..|by intros f; destruct r, f|]. intros. by apply vstep_calm. }
  wp_if. { apply Hfin, wp_bind, wp_get. by apply wp_new_root. }
  wp_if.
  - apply Hfin, wp_bind, wp_fs_check; [done|done|by apply psig_range|]. wp_if.
    + apply wp_whenM; intros _; [by apply wp_leave_backup | by apply vstep_calm, calm_refl].
    + apply wp_whenM; intros _; [by apply wp_enter_backup | by apply vstep_calm, calm_refl].
  - apply Hfin. eapply wp_mono; [by apply wp_fst_sendbpdu|]. intros [] s3 C3. by apply vstep_calm.
Qed.

(** ** Ports joining and leaving a VLAN's tree *)

(** After [fstaddport] and [fstdelport] no address is learned on the VLAN. *)
Definition mac_clear (v : Z) s : Prop := ∀ k q, mt_ports (mact s) k = Some q → EMAC2VLAN k ≠ v.

Record addport_post (v p : Z) (tagged : bool) s s' : Prop := {
  ap_dims : dims s';
  ap_frame : frame s s';
  ap_vb : ∀ v' f q, vb s' v' f q = vb s v' f q;
  ap_fb : ∀ v' f q, f = Untag ∨ f = Tagged ∨ f = Backup → fb s' v' f q =
    if decide (v' = v ∧ q = p)
    then match f with Untag => negb tagged | Tagged => tagged | _ => false end else fb s v' f q;
  ap_mac : mac_clear v s'
}.

Lemma fupd_alloc s v f p b s' q :
  fupd s v f p b s' → is_Some (psig s p) → alloc_at s v q → alloc_at s' v q.
Proof.
  intros [Hd Hf Hv Hg] Hp [H1 H2]. split; intros g Hgg; rewrite (fr_sig s s' Hf), ?Hv, ?Hg; [by apply H1|].
  case_decide as Hc; [by destruct Hc as (_ & _ & ->) | by apply H2].
Qed.

Lemma fupd_good s v f p b s' : fupd s v f p b s' → is_Some (psig s p) → good s v → good s' v ∧ is_Some (psig s' p).
Proof.
  intros U Hp (Hd & Hs & Hv & Ha). pose proof (fu_frame _ _ _ _ _ _ U) as Hf. split; [split_and!|].
  - apply U.
  - by eapply frame_sigs_ok.
  - by apply (frame_valid s s').
  - intros q. by eapply fupd_alloc.
  - by rewrite (fr_sig s s' Hf).
Qed.

Lemma wp_fs_bit (b : bool) s v f p (Q : () → sw → Prop) :
  good s v → is_Some (psig s p) →
  (∀ s', fupd s v f p b s' → good s' v → is_Some (psig s' p) → Q () s') →
  wp (if b then fs_set v f p else fs_clr v f p) Q s.
Proof.
  intros G Hp HQ. pose proof G as (Hd & _ & Hv & _). pose proof (psig_range _ _ Hd Hp).
  destruct b; [apply wp_fs_set | apply wp_fs_clr]; try done; intros s' U;
    destruct (fupd_good _ _ _ _ _ _ U Hp G); by apply HQ.
Qed.

(** The tables of a port joining the tree of a VLAN. *)
Lemma wp_fstaddport s v p tagged :
  good s v → is_Some (psig s p) → wp (fstaddport E v p tagged) (λ _ s', addport_post v p tagged s s') s.
Proof.
  intros G0 P0. unfold fstaddport.
  apply wp_bind. eapply (wp_mono _ (λ _ s2, ∃ s1 f, f = (if tagged then Untag else Tagged) ∧
    fupd s v (if tagged then Tagged else Untag) p true s1 ∧ fupd s1 v f p false s2 ∧ good s2 v ∧ is_Some (psig s2 p))).
  { destruct tagged; apply wp_bind, (wp_fs_bit true); try done; intros s1 U1 G1 P1;
      apply (wp_fs_bit false); try done; intros s2 U2 G2 P2; eauto 10. }
  intros [] s2 (s1 & f & -> & U1 & U2 & G2 & P2).
  apply wp_bind, (wp_fs_bit false); [done..|]. intros s3 U3 G3 P3.
  apply wp_bind, (wp_fs_bit false); [done..|]. intros s4 U4 G4 P4.
  apply wp_bind, (wp_fs_bit false); [done..|]. intros s5 U5 G5 P5.
  apply wp_bind, (wp_fs_bit false); [done..|]. intros s6 U6 G6 P6.
  pose proof G6 as (D6 & S6 & V6 & A6).
  apply wp_bind. eapply wp_mono; [by apply wp_fst_sendbpdu|]. intros [] s7 C7.
  pose proof (evolve_good _ _ _ (calm_evolve v _ _ C7) G6) as (D7 & S7 & V7 & A7).
  eapply wp_mono; [apply wp_topology_change; [done..|by apply alloc_members]|]. intros [] s8 [C8 M8].
  destruct U1, U2, U3, U4, U5, U6, C7, C8. split; [done| | |intros v' f q Hf|done].
  - repeat (etrans; [eassumption|]). done.
  - intros v' f q. bits. done.
  - bits. destruct Hf as [-> | [-> | ->]], tagged; bit_cases.
Qed.

Record delport_post (v p : Z) s s' : Prop := {
  dp_alloc : ∀ q, alloc_at s v q → alloc_at s' v q;
  dp_dims : dims s';
  dp_frame : frame s s';
  dp_disc : ∀ q, q ≠ p → disc_at s v q → disc_at s' v q;
  dp_vb : ∀ v' f q, v' ≠ v ∨ q = p ∨ f = Table → vb s' v' f q = vb s v' f q;
  dp_fb : ∀ v' f q, v' ≠ v → fb s' v' f q = fb s v' f q;
  dp_p : ∀ f, f = Untag ∨ f = Tagged ∨ f = Backup → fb s' v f p = false;
  dp_mac : mac_clear v s'
}.

Lemma wp_fstdelport s v p :
  good s v → is_Some (psig s p) → wp (fstdelport E v p) (λ _ s', delport_post v p s s') s.
Proof.
  intros G0 P0. pose proof G0 as (D0 & S0 & V0 & A0).
  apply wp_bind, wp_FSTP_ACTIVE; [done|done|by apply psig_range|]. intros _.
  apply wp_bind, (wp_fs_bit false); [done..|]. intros s1 U1 G1 P1.
  apply wp_bind, (wp_fs_bit false); [done..|]. intros s2 U2 G2 P2.
  apply wp_bind, (wp_fs_bit false); [done..|]. intros s3 U3 G3 P3.
  apply wp_bind, (wp_fs_bit false); [done..|]. intros s4 U4 G4 P4.
  pose proof G4 as (D4 & S4 & V4 & A4). apply wp_bind, wp_fs_get; [done..|]. intros r Hr.
  apply wp_bind. eapply (wp_mono _ (λ _ s5, unblock (numports s4) v s4 s5)).
  { apply wp_whenM; intros _; [|by apply unblock_refl]. apply wp_bind.
    eapply wp_mono; [by apply wp_fstnewvlan_reset|]. intros rv s5 [_ U5]. by apply wp_ret. }
  intros [] s5 U5. pose proof (ub_evolve _ _ _ _ U5) as E5. pose proof (evolve_good _ _ _ E5 G4) as (D5 & S5 & V5 & A5).
  eapply wp_mono; [apply wp_topology_change; [done..|by apply alloc_members]|]. intros [] s6 [C6 M6].
  assert (frame s s4) as F4 by (destruct U1, U2, U3, U4; repeat (etrans; [eassumption|]); done).
  assert (fb s4 v Backup p = false) as Hb4.
  { destruct U1, U2, U3, U4. bits. bit_cases. }
  assert (∀ v' f q, vb s4 v' f q = vb s v' f q) as Hv4 by (destruct U1, U2, U3, U4; intros; by bits).
  assert (∀ v' f q, fb s4 v' f q = true → fb s v' f q = true) as Hm4.
  { destruct U1, U2, U3, U4. intros v' f q. bits. bit_cases. }
  pose proof (calm_evolve v _ _ C6) as E6. pose proof (transitivity E5 E6) as E46.
  split; [|apply C6|exact (transitivity F4 (e_frame _ _ _ E46))|..|done].
  - intros q _. exact (evolve_alloc _ _ _ E46 A4 q).
  - intros q Hne Hq. apply E46. destruct Hq as (H1 & H2 & H3). unfold disc_at.
    setoid_rewrite (frame_act s s4 q F4). rewrite (frame_utag _ _ _ F4), !Hv4. split_and!; [done..|].
    intros f Hf Hb. apply (H3 f Hf), Hm4, Hb.
  - intros v' f q Hc. rewrite (c_vb _ _ C6), <- Hv4.
    destruct (decide (v' = v)) as [->|]; [|apply E5; by left].
    destruct Hc as [|[->| ->]]; [done| |apply E5; by right]. apply (ub_vb _ _ _ _ U5). by right.
  - intros v' f q Hne. rewrite (c_fb _ _ C6), (e_fb _ _ _ E5) by (by left).
    destruct U1, U2, U3, U4. bits. bit_cases.
  - intros f Hf. rewrite (c_fb _ _ C6), (ub_fb _ _ _ _ U5) by auto.
    destruct U1, U2, U3, U4. bits. destruct Hf as [-> | [-> | ->]]; bit_cases.
Qed.

End span.
