(* ===== verification/SwitchSafe.v ===== *)
(** * SwitchSafe: every handler and command keeps the invariant of the switch

    The invariant [inv] of the forwarding state; the periodic functions and
    commands of the spanning tree keep it and never fault. *)
From Stdlib Require Import Lia.
From stdpp Require Import base numbers list gmap strings.
From S2P Require Import Prelude Scan BitArray Hash Qtimer Switch PortSend Fstp Port SwitchInv SpanInv.

Section safe.
Context {T : Type} `{!MacTable T} (E : env).
Abbreviation sw := (switch T).
Implicit Type s : sw.

(** ** The invariant *)

(** The untagged VLAN of a port is one it belongs to. *)
Definition untag_ok s : Prop := ∀ q, is_Some (psig s q) → utag s q = NOVLAN ∨ vb s (utag s q) Table q = true.

(** An address is learned only on an active, learning member of its VLAN. *)
Definition mac_ok s : Prop := ∀ k q, mt_ports (mact s) k = Some q →
  vb s (EMAC2VLAN k) Table q = true ∧ act s q ∧ vb s (EMAC2VLAN k) Notlearning q = false.

Record inv s : Prop := {
  i_dims : dims s;
  i_sigs : sigs_ok s;
  i_alloc : ∀ v q, alloc_at s v q;
  i_disc : ∀ v q, disc_at s v q;
  i_untag : untag_ok s;
  i_mac : mac_ok s;
  i_v0 : valid s 0
}.

Lemma inv_good s v : inv s → valid s v → good s v.
Proof. intros [] Hv. by split_and!. Qed.

(** ** Steps that keep the membership tables and the consistency *)

Record mstep s s' : Prop := {
  m_dims : dims s';
  m_frame : frame s s';
  m_table : ∀ v q, vb s' v Table q = vb s v Table q;
  m_member : ∀ v f q, f = Untag ∨ f = Tagged → fb s' v f q = fb s v f q;
  m_alloc : ∀ v q, alloc_at s v q → alloc_at s' v q;
  m_disc : ∀ v q, disc_at s v q → disc_at s' v q;
  m_mac : ∀ v, mac_keep v s s'
}.

Lemma mstep_refl s : dims s → mstep s s.
Proof. split; try done. by intros v k q. Qed.
#[global] Instance mstep_trans : Transitive mstep.
Proof.
  intros s1 s2 s3 [] []. split; [done|by etrans|..|eauto|eauto|].
  - intros. by rewrite m_table1, m_table0.
  - intros. by rewrite m_member1, m_member0.
  - intros v. by eapply mac_keep_trans.
Qed.

Lemma mstep_inv s s' : mstep s s' → inv s → inv s'.
Proof.
  intros [Hd Hf Ht Hm Ha Hdi Hk] []. split; [done| |eauto|eauto| | |by apply (frame_valid s s')].
  - by eapply frame_sigs_ok.
  - intros q. rewrite (fr_sig _ _ Hf), (frame_utag _ _ _ Hf), Ht. apply i_untag0.
  - intros k q Hq. destruct (i_mac0 k q) as (H1 & H2 & H3); [by eapply fr_mac|].
    rewrite Ht, (frame_act s s') by done. split_and!; [done..|].
    destruct (vb s' _ Notlearning q) eqn:En; [|done]. apply (Hk _ k q Hq eq_refl) in En. congruence.
Qed.

(** A step on one VLAN keeps the consistency of the others. *)
Lemma vstep_mstep v s s' : vstep v s s' → mstep s s'.
Proof.
  intros [He Hk]. pose proof He as [Hd Hf Hvb Hfb Ha Hdi]. pose proof (fr_sig _ _ Hf) as Hsig.
  split; [done|done|..].
  - intros v' q. apply Hvb. by right.
  - intros v' f q H. apply Hfb. tauto.
  - intros v' q. destruct (decide (v' = v)) as [->|Hne]; [apply Ha|].
    intros [H1 H2]. split; intros f Hff; rewrite Hsig, ?Hvb, ?Hfb by (by left); [by apply H1 | by apply H2].
  - intros v' q. destruct (decide (v' = v)) as [->|Hne]; [apply Hdi|].
    intros (H1 & H2 & H3). unfold disc_at. setoid_rewrite (frame_act s s' q Hf).
    rewrite (frame_utag _ _ _ Hf), !Hvb by (by left). split_and!; [done..|].
    intros f Hff. rewrite Hfb by (by left). by apply H3.
  - intros v' k q Hq Hv' Hn. destruct (decide (v' = v)) as [->|Hne]; [by eapply Hk|].
    by rewrite <- Hvb by (by left).
Qed.

Lemma calm_mstep s s' : calm s s' → mstep s s'.
Proof. intros C. by eapply (vstep_mstep 0), vstep_calm. Qed.

Lemma calm_inv s s' : calm s s' → inv s → inv s'.
Proof. intros C. by apply mstep_inv, calm_mstep. Qed.

Lemma mstep_valid s s' v : mstep s s' → valid s v → valid s' v.
Proof. intros [_ Hf _ _ _ _ _]. by apply (frame_valid s s'). Qed.

(** A loop over the valid VLANs of a body that is a step on each VLAN. *)
Lemma wp_FORALL_VLANS_mstep s (body : Z → M sw ()) :
  inv s → (∀ v s', inv s' → valid s' v → wp (body v) (λ _ s'', mstep s' s'') s') →
  wp (bac_FORALL vv_array NUMOFVLAN body) (λ _ s', mstep s s') s.
Proof.
  change (bac_FORALL vv_array NUMOFVLAN body) with (FORALL_VLANS body).
  intros Hi Hbody. pose proof (i_dims s Hi) as Hd.
  apply (wp_FORALL_VLANS s body (λ _ s', mstep s s')); [done| |by apply mstep_refl|].
  - intros _ s' []. apply m_frame0.
  - intros l1 v l2 s1 _ Hv _ X1. eapply wp_mono; [apply Hbody|].
    + by eapply mstep_inv.
    + by eapply mstep_valid.
    + intros [] s2 X2. exact (transitivity X1 X2).
Qed.

(** ** The periodic functions of the spanning tree *)

Lemma wp_fst_hello_vlan s v now :
  inv s → valid s v → wp (fst_hello_vlan E v now) (λ _ s', mstep s s') s.
Proof.
  intros Hi Hv. pose proof (inv_good s v Hi Hv) as G0. pose proof (i_dims s Hi) as D0.
  apply wp_bind, wp_fs_get; [done..|]. intros r0 _. apply wp_bind, wp_get, wp_bind.
  eapply wp_mono; [by apply wp_restart|]. intros [] s1 X1. pose proof (vstep_good _ _ _ X1 G0) as (D1 & _ & V1 & _).
  apply wp_bind, wp_fs_get; [done..|]. intros r _.
  apply wp_bind, wp_upd_fst_calm; [done..|]. intros s2 C2.
  apply wp_bind, wp_upd_fst_calm; [apply C2|done|]. intros s3 C3.
  apply wp_bind, wp_upd_fst_calm; [apply C3|done|]. intros s4 C4.
  apply wp_bind, wp_upd_fst_calm; [apply C4|done|]. intros s5 C5.
  pose proof (vstep_calm v _ _ (transitivity C2 (transitivity C3 (transitivity C4 C5)))) as X15.
  pose proof (transitivity X1 X15) as X5. pose proof (vstep_good _ _ _ X5 G0) as G5. pose proof G5 as (D5 & S5 & V5 & A5).
  apply wp_bind, wp_gets, wp_bind. eapply wp_mono.
  { apply (wp_FORALL_calm s5 v Untag); [done|done|by apply d_fnp|done|by apply alloc_members|by left|].
    intros k s' C V S P. apply wp_bind, wp_fs_check; [apply C|done|by apply psig_range; [apply C|]|].
    apply wp_whenM; intros _; [|apply calm_refl, C]. apply wp_send_out; [apply C|done..]. }
  intros [] s6 C6. pose proof (vstep_good _ _ _ (vstep_calm v _ _ C6) G5) as (D6 & S6 & V6 & A6).
  eapply wp_mono.
  { apply (wp_FORALL_calm s6 v Tagged); [done|done| |done|by apply alloc_members|by right|].
    { rewrite (d_fnp s5) by done. symmetry. apply (c_frame _ _ C6). }
    intros k s' C V S P. apply wp_bind, wp_fs_check; [apply C|done|by apply psig_range; [apply C|]|].
    apply wp_whenM; intros _; [|apply calm_refl, C]. apply wp_send_outtag; [apply C|done..]. }
  intros [] s7 C7. apply (vstep_mstep v). exact (transitivity X5 (vstep_calm v _ _ (transitivity C6 C7))).
Qed.

Lemma arr_zap n x : 0 ≤ n → arr n x → ∃ x', ba_zap x n = Some x' ∧ arr n x'.
Proof.
  intros Hn [[Hok Hl] _]. destruct (zero_words_spec x 0 (WORDSIZEROUND n)) as (x' & Hx' & Hl' & Hok' & Hz); [lia|lia|done|].
  exists x'. split; [done|]. split; [split; [done|lia]|]. intros k Hk. pose proof (bmem_range _ _ Hk) as Hr.
  unfold bmem in Hk. rewrite Hz, decide_True in Hk by dlia. by rewrite Z.bits_0 in Hk.
Qed.

(** Replacing the table of received BPDUs. *)
Lemma put_hist_vstep s v r f x :
  dims s → valid s v → fsttab (fst_st s) !! v = Some r → arr (numports s) x →
  f ≠ Untag → f ≠ Tagged → f ≠ Backup → vstep v s (put_fs s v (fset f (Some x) r)).
Proof.
  intros Hd Hv Hr Hx H1 H2 H3. set (s' := put_fs _ _ _).
  assert (∀ v' g q, v' ≠ v ∨ g ≠ f → fb s' v' g q = fb s v' g q) as Hfb.
  { intros v' g q Hc. unfold fb, s'. rewrite fs_array_put. case_decide; [|done]. subst.
    rewrite fget_fset, decide_False by tauto. by rewrite (fs_array_Some _ _ _ _ Hr). }
  assert (dims s') as Hd'.
  { apply dims_put_fs; [done..|]. intros g. rewrite fget_fset. case_decide; [by eexists|].
    rewrite <- (fs_array_Some _ _ _ _ Hr). by apply d_f. }
  split; [split; [done|apply frame_put_fs|done|..]|by intros k q].
  - intros v' g q Hc. apply Hfb. naive_solver.
  - intros q [Ha1 Ha2]. split; [done|]. intros g Hg. rewrite Hfb by naive_solver. by apply Ha2.
  - intros q (Hd1 & Hd2 & Hd3). split_and!; [done..|]. intros g Hg. rewrite Hfb by naive_solver. by apply Hd3.
Qed.

Lemma wp_fst_updatebackup s v index :
  inv s → valid s v → wp (fst_updatebackup v index) (λ _ s', mstep s s') s.
Proof.
  intros Hi Hv. pose proof (inv_good s v Hi Hv) as G0. pose proof G0 as (D0 & S0 & _ & A0).
  apply wp_bind, wp_gets, wp_bind. eapply wp_mono.
  { apply wp_unblock_loop; [done|done|by apply d_fnp|done|]. intros k s' Q D V K HQ Hdo.
    apply wp_bind, wp_FSTP_ACTIVE; [done..|]. intros b. apply wp_whenM; by intros _. }
  intros [] s1 U1. pose proof (vstep_unblock _ _ _ _ U1) as X1. pose proof (vstep_good _ _ _ X1 G0) as (D1 & S1 & V1 & A1).
  apply wp_bind, wp_fs_get; [done..|]. intros r Hr. destruct (d_f s1 D1 v (rcvhist index) V1) as (x & Hx & Hax).
  rewrite (fs_array_Some _ _ _ _ Hr) in Hx. apply wp_bind, (wp_deref _ x); [done|].
  pose proof (d_np s1 D1). destruct (arr_zap (numports s1) x) as (x' & Hz & Hax'); [lia|done|].
  rewrite (d_fnp s), <- (fr_np s s1) by (done || apply X1).
  apply wp_bind, (wp_deref _ x'); [done|]. apply wp_modify. fold (put_fs s1 v (fset (rcvhist index) (Some x') r)).
  destruct (rcvhist_not index) as (? & ? & ?).
  apply (vstep_mstep v). refine (transitivity X1 _). by apply put_hist_vstep.
Qed.

Lemma wp_fst_hello s : inv s → wp (fst_hello E) (λ _ s', mstep s s') s.
Proof.
  intros Hi. apply wp_bind, wp_gets, wp_bind, wp_upd_fst_calm; [apply Hi|done|]. intros s1 C1.
  pose proof (calm_inv _ _ C1 Hi) as I1. apply wp_bind. eapply wp_mono.
  { apply (wp_FORALL_VLANS_mstep s1 _ I1). intros v s' I' V'. by apply wp_fst_hello_vlan. }
  intros [] s2 X2. pose proof (mstep_inv _ _ X2 I1) as I2. pose proof (transitivity (calm_mstep _ _ C1) X2) as X02.
  apply wp_bind, wp_get, wp_whenM; intros _; [|done].
  apply wp_bind, wp_upd_fst_calm; [apply I2|done|]. intros s3 C3. pose proof (calm_inv _ _ C3 I2) as I3.
  apply wp_bind, wp_get. eapply wp_mono.
  { apply (wp_FORALL_VLANS_mstep s3 _ I3). intros v s' I' V'. by apply wp_fst_updatebackup. }
  intros [] s4 X4. exact (transitivity X02 (transitivity (calm_mstep _ _ C3) X4)).
Qed.

(** ** Fields the invariant does not read *)

Lemma inv_ext s s' :
  numports s' = numports s → portv s' = portv s → vlant s' = vlant s → validvlan s' = validvlan s →
  fnumports (fst_st s') = fnumports (fst_st s) → fsttab (fst_st s') = fsttab (fst_st s) →
  mact s' = mact s → qth_null (qt s') = qth_null (qt s) → inv s → inv s'.
Proof.
  intros Hnp Hp Hvl Hvv Hfn Hft Hm Hq.
  assert (∀ v f, vl_array v f s' = vl_array v f s) as Ha by (intros; unfold vl_array, vl; by rewrite Hvl).
  assert (∀ v f, fs_array v f s' = fs_array v f s) as Hf by (intros; unfold fs_array; by rewrite Hft).
  assert (∀ v, valid s' v ↔ valid s v) as Hv by (intros; unfold valid; by rewrite Hvv).
  assert (∀ q, psig s' q = psig s q) as Hs by (intros; unfold psig, pat; by rewrite Hp).
  intros Hi. apply (calm_inv s s'); [|done]. destruct Hi as [[] _ _ _ _ _ _]. split.
  - split; rewrite ?Hnp, ?Hp, ?Hvv, ?Hfn, ?Hft, ?Hm, ?Hq; try done; intros *; rewrite ?Hv, ?Ha, ?Hf; eauto.
  - split; try done. by rewrite Hm.
  - intros. unfold vb. by rewrite Ha.
  - intros. unfold fb. by rewrite Hf.
Qed.

(** ** Functions that keep the invariant and return *)

Definition keeps {A} (m : M sw A) : Prop := ∀ s, inv s → wp m (λ _ s', inv s') s.

Lemma keeps_ret {A} (a : A) : keeps (mret a).
Proof. by intros s. Qed.
Lemma keeps_bind {A B} (m : M sw A) (k : A → M sw B) : keeps m → (∀ a, keeps (k a)) → keeps (m ≫= k).
Proof. intros Hm Hk s Hi. apply wp_bind. eapply wp_mono; [by apply Hm|]. intros a s'. apply Hk. Qed.
Lemma keeps_get {B} (k : sw → M sw B) : (∀ s, inv s → wp (k s) (λ _ s', inv s') s) → keeps (get ≫= k).
Proof. intros Hk s Hi. apply wp_bind, wp_get. by apply Hk. Qed.
Lemma keeps_gets {A B} (f : sw → A) (k : A → M sw B) : (∀ a, keeps (k a)) → keeps (gets f ≫= k).
Proof. intros Hk s Hi. apply wp_bind, wp_gets. by apply Hk. Qed.
Lemma keeps_whenM (b : bool) (m : M sw ()) : keeps m → keeps (whenM b m).
Proof. intros Hm s Hi. apply wp_whenM; intros _; [by apply Hm | done]. Qed.
Lemma keeps_modify (g : sw → sw) : (∀ s, inv s → inv (g s)) → keeps (modify g).
Proof. intros Hg s Hi. apply wp_modify. by apply Hg. Qed.
Lemma keeps_mstep {A} (m : M sw A) : (∀ s, inv s → wp m (λ _ s', mstep s s') s) → keeps m.
Proof. intros Hm s Hi. eapply wp_mono; [by apply Hm|]. intros a s' X. exact (mstep_inv _ _ X Hi). Qed.

Lemma keeps_upd_fst (g : fstate → fstate) :
  (∀ f, fnumports (g f) = fnumports f ∧ fsttab (g f) = fsttab f) → keeps (upd_fst g).
Proof.
  intros Hg. apply keeps_modify. intros s. destruct (Hg (fst_st s)). by apply inv_ext.
Qed.

Hint Resolve keeps_ret keeps_bind keeps_gets keeps_whenM keeps_upd_fst : vde.

Lemma keeps_fstflag op f : keeps (fstflag op f).
Proof.
  intros s Hi. apply wp_bind, wp_get. destruct (flag_op _ _ _) as [rv n].
  by apply (keeps_bind (upd_fst (set_fpflag n)) (λ _, mret rv)); auto with vde.
Qed.
Lemma keeps_portflag op f : keeps (portflag op f).
Proof.
  intros s Hi. apply wp_bind, wp_get. destruct (flag_op _ _ _) as [rv n].
  apply wp_bind, wp_modify, wp_ret. by apply (inv_ext s).
Qed.
Lemma keeps_printoutc l : keeps (printoutc l).
Proof. apply keeps_modify. intros s. by apply inv_ext. Qed.
Lemma keeps_set_errno e : keeps (modify (set_errno e)).
Proof. apply keeps_modify. intros s. by apply inv_ext. Qed.
Lemma keeps_malloc : keeps (malloc E).
Proof. intros s Hi. apply (inv_ext s); done. Qed.
Lemma keeps_calloc : keeps (calloc E).
Proof. intros s Hi. apply (inv_ext s); done. Qed.
Hint Resolve keeps_fstflag keeps_portflag keeps_printoutc keeps_set_errno keeps_malloc keeps_calloc : vde.

(** ** The commands of the spanning tree *)

Context (Hcalloc : ∀ n, calloc_ok E n = true).

Lemma keeps_qtimer_add period times cb : keeps (qtimer_add_m E period times cb).
Proof.
  intros s Hi. apply wp_bind. unfold wp at 1, calloc. rewrite Hcalloc.
  apply wp_bind. unfold wp at 1. rewrite Hcalloc. apply wp_bind, wp_get.
  unfold qtimer_add. rewrite !andb_false_r. cbn [qt set_ncalloc].
  destruct (_ && _); simpl; apply wp_bind, wp_modify, wp_ret; by apply (inv_ext s).
Qed.

Lemma keeps_qtimer_del n : keeps (qtimer_del_m n).
Proof.
  intros s Hi. apply wp_bind, wp_get. unfold qtimer_del. rewrite (d_qt s) by apply Hi. simpl.
  apply wp_modify. by apply (inv_ext s).
Qed.

Lemma keeps_fstinitpkt : keeps (fstinitpkt E).
Proof.
  apply keeps_get. intros s Hi.
  apply (keeps_bind (A := ())); [by apply keeps_upd_fst|intros _|done].
  apply keeps_bind; [by apply keeps_upd_fst|intros _].
  apply keeps_bind; [apply keeps_qtimer_add|intros n]. by apply keeps_upd_fst.
Qed.

Lemma keeps_fst_stop : keeps (fst_stop E).
Proof.
  apply keeps_get. intros s0 Hi. apply (keeps_bind (A := ())); [apply keeps_qtimer_del|intros _|done].
  apply keeps_bind; [apply keeps_fstflag|intros _]. apply keeps_mstep. intros s I.
  apply wp_FORALL_VLANS_mstep; [done|]. intros v s' I' V'. apply wp_bind.
  destruct (inv_good s' v I' V') as (D & _ & _ & A).
  eapply wp_mono; [by apply wp_fstnewvlan_reset|]. intros rv s'' [_ U]. apply wp_ret.
  by eapply vstep_mstep, vstep_unblock.
Qed.

Lemma keeps_fstpshutdown : keeps (fstpshutdown E).
Proof. apply keeps_get. intros s Hi. by apply (keeps_whenM _ _ keeps_fst_stop). Qed.

Lemma keeps_fstpsetonoff val : keeps (fstpsetonoff E val).
Proof.
  apply keeps_get. intros s Hi. apply (keeps_bind (A := Z)); [apply keeps_portflag|intros hub|done].
  destruct (negb _); [apply (keeps_bind (A := ())); [apply keeps_printoutc|intros; apply keeps_ret]|].
  apply keeps_bind; [|intros; apply keeps_ret].
  apply keeps_whenM. destruct (negb _); [|apply keeps_fst_stop].
  apply keeps_bind; [apply keeps_fstinitpkt|intros _]. auto with vde.
Qed.

(** The argument check shared by the commands on a VLAN and a port. *)
Lemma wp_valid_vlan s v (Q : bool → sw → Prop) :
  dims s → 0 ≤ v < 4096 → Q (bmem (validvlan s) v) s → wp (valid_vlan v) Q s.
Proof.
  intros Hd Hv HQ. apply wp_bind, wp_get. eapply wp_deref; [|exact HQ]. apply ba_check_spec.
  pose proof (d_vv s Hd) as (_ & Hl & _). change (WORDSIZEROUND NUMOFVLAN) with 64 in Hl. lia.
Qed.

Lemma bad_vlan_port_false v p n : bad_vlan_port v p n = false → 0 ≤ v < 4096 ∧ 0 ≤ p < n.
Proof. unfold bad_vlan_port, NUMOFVLAN. lia. Qed.

(** A command on a checked VLAN and port. *)
Lemma wp_checked s v p (k : M sw Z) :
  inv s → bad_vlan_port v p (fnumports (fst_st s)) = false →
  (good s v → 0 ≤ p < numports s → wp k (λ _ s', inv s') s) →
  wp (ok ← valid_vlan v; if negb ok then mret ENXIO else k) (λ _ s', inv s') s.
Proof.
  intros Hi Hbad Hk. apply bad_vlan_port_false in Hbad as [Hv Hp]. rewrite (d_fnp s) in Hp by apply Hi.
  apply wp_bind, wp_valid_vlan; [apply Hi|done|]. destruct (bmem _ _) eqn:Eb; simpl; [|done].
  apply Hk; [|done]. apply inv_good; [done|]. split; [lia|done].
Qed.

Lemma keeps_fstsetbonus arg : keeps (fstsetbonus arg).
Proof.
  intros s Hi. unfold fstsetbonus. destruct (sscanf_iii arg) as [[[v p] cost]|]; [|done].
  apply wp_bind, wp_gets. wp_if as Hbad; [done|]. apply (wp_checked s v p); [done..|]. intros (D & _ & V & _) Hp.
  apply wp_bind, wp_fs_get; [done..|]. intros r Hr.
  apply wp_bind, (wp_fs_put_calm _ _ r); [done..|by intros f; destruct r, f|]. intros s' C _. apply wp_ret.
  by apply (calm_inv s).
Qed.

Lemma keeps_fstsetedge arg : keeps (fstsetedge arg).
Proof.
  intros s Hi. unfold fstsetedge. destruct (sscanf_iii arg) as [[[v p] val]|]; [|done].
  apply wp_bind, wp_gets. wp_if as Hbad; [done|]. apply (wp_checked s v p); [done..|]. intros G Hp.
  pose proof G as (D & S & V & A). apply wp_bind.
  eapply (wp_mono _ (λ _ s', vstep v s s')); [|intros [] s' X; apply wp_ret; by eapply mstep_inv, Hi; eapply vstep_mstep].
  wp_if as Hv.
  - apply wp_bind, wp_fs_set; [done..|]. intros s1 U1. assert (vstep v s s1) as X1 by (by eapply vstep_fupd).
    pose proof (vstep_good _ _ _ X1 G) as (D1 & S1 & V1 & A1). destruct (fupd_valid _ _ _ _ _ _ U1 V Hp) as [_ Hp1].
    apply wp_bind, wp_fs_check; [done..|]. apply wp_bind.
    eapply (wp_mono _ (λ b s', s' = s1 ∧ (b = true → fb s1 v Untag p = true))).
    { destruct (fb s1 v Untag p) eqn:Eu; [by apply wp_ret|]. apply wp_fs_check; [done..|]. by rewrite Eu. }
    intros b s' [-> Hb]. apply wp_whenM; intros ->; [|done]. specialize (Hb eq_refl).
    assert (is_Some (psig s1 p)) as P1 by (eapply alloc_members; [done| |exact Hb]; auto).
    apply wp_port_set_status; [done..|]. intros s2 U2. refine (transitivity X1 _). split.
    + eapply set_status_evolve; [done..|]. intros _ _ (_ & _ & H3). apply (H3 Untag); auto.
    + intros k q _ _. rewrite (ss_vb _ _ _ _ _ U2). destruct (decide _); [done|auto].
  - apply wp_bind, wp_fs_clr; [done..|]. intros s1 U1. assert (vstep v s s1) as X1 by (by eapply vstep_fupd).
    pose proof (vstep_good _ _ _ X1 G) as (D1 & S1 & V1 & A1). destruct (fupd_valid _ _ _ _ _ _ U1 V Hp) as [_ Hp1].
    apply wp_fs_clr; [done..|]. intros s2 U2. refine (transitivity X1 _). by eapply vstep_fupd.
Qed.

End safe.
