(* ===== verification/PortSafe.v ===== *)
(** * PortSafe: ports, endpoints and VLAN commands keep the invariant

    The functions of [port.c] on ports, endpoints and VLANs: each returns
    without a fault and leaves the switch in a state of the invariant. *)
From Stdlib Require Import Lia.
From stdpp Require Import base numbers list gmap strings.
From S2P Require Import Prelude Scan BitArray Hash Qtimer Switch PortSend Fstp Port SwitchInv SpanInv SwitchSafe.

Section portsafe.
Context {T : Type} `{!MacTable T} (E : env).
Abbreviation sw := (switch T).
Implicit Type s : sw.

(** ** Changing one port *)

Lemma vb_put_port s p o v f q : vb (put_port s p o) v f q = vb s v f q.
Proof. done. Qed.
Lemma fb_put_port s p o v f q : fb (put_port s p o) v f q = fb s v f q.
Proof. done. Qed.

Lemma psig_put s p o q : dims s → 0 ≤ p < numports s →
  psig (put_port s p o) q = if decide (q = p) then psig_of <$> o else psig s q.
Proof.
  intros Hd Hp. unfold psig. rewrite pat_put by (by rewrite (d_len s Hd)). by case_decide.
Qed.

Lemma pat_in_range s p pt : dims s → pat s p = Some pt → 0 ≤ p < numports s.
Proof. intros Hd Hp. rewrite <- (d_len s Hd). by eapply pat_range. Qed.

(** The sender and endpoints of a port are consistent. *)
Definition port_ok (p : Z) (pt : port) : Prop :=
  (p_ep pt ≠ [] → is_Some (p_ms pt)) ∧ Forall (λ e, ep_port e = p) (p_ep pt).

Lemma fmap_nil_iff {A B} (f : A → B) (l : list A) : f <$> l = [] ↔ l = [].
Proof. by destruct l. Qed.

Lemma port_ok_sig p pt : port_ok p pt ↔
  (p_ep (psig_of pt) ≠ [] → is_Some (p_ms (psig_of pt))) ∧ Forall (λ e, ep_port e = p) (p_ep (psig_of pt)).
Proof.
  unfold port_ok. simpl. rewrite Forall_fmap. unfold compose. simpl.
  split; intros [H1 H2]; (split; [|done]); intros Hne; apply H1; by intros ?%fmap_nil_iff || (intros ?; apply Hne; by apply fmap_nil_iff).
Qed.

Lemma inv_port_ok s p pt : inv s → pat s p = Some pt → port_ok p pt.
Proof. intros Hi Hp. apply port_ok_sig. apply (i_sigs s Hi p). unfold psig. by rewrite Hp. Qed.

Lemma act_put s p pt q : dims s → 0 ≤ p < numports s →
  act (put_port s p (Some pt)) q ↔ if decide (q = p) then p_ep pt ≠ [] else act s q.
Proof.
  intros Hd Hp. unfold act. rewrite psig_put by done. case_decide; [|done]. subst. simpl. split.
  - intros (? & [= <-] & H). simpl in H. by intros ?%(fmap_nil_iff esig).
  - intros H. eexists; split; [done|]. simpl. by intros ?%fmap_nil_iff.
Qed.

Lemma utag_put s p pt q : dims s → 0 ≤ p < numports s →
  utag (put_port s p (Some pt)) q = if decide (q = p) then p_vlanuntag pt else utag s q.
Proof. intros Hd Hp. unfold utag. rewrite psig_put by done. by case_decide. Qed.

(** A port changes but keeps its VLAN, and does not lose its last endpoint. *)
Lemma inv_put_port s p pt pt' :
  inv s → pat s p = Some pt → port_ok p pt' → p_vlanuntag pt' = p_vlanuntag pt →
  (p_ep pt ≠ [] → p_ep pt' ≠ []) → inv (put_port s p (Some pt')).
Proof.
  intros Hi Hp Hok Hun Hep. pose proof (i_dims s Hi) as Hd. pose proof (pat_in_range _ _ _ Hd Hp) as Hr.
  assert (∀ q, is_Some (psig s q) → is_Some (psig (put_port s p (Some pt')) q)) as Hs.
  { intros q Hq. rewrite psig_put by done. by case_decide. }
  assert (∀ q, act s q → act (put_port s p (Some pt')) q) as Ha.
  { intros q Hq. rewrite act_put by done. case_decide; [|done]. subst. apply Hep.
    destruct Hq as (ps & (pt0 & Hp0 & ->)%psig_Some & Hne). rewrite Hp in Hp0. injection Hp0 as <-.
    intros Hnil. apply Hne. simpl. by rewrite Hnil. }
  assert (∀ q, utag (put_port s p (Some pt')) q = utag s q) as Hu.
  { intros q. rewrite utag_put by done. case_decide; [|done]. subst. by rewrite (utag_pat s p pt Hp). }
  destruct Hi as [_ i_sigs0 i_alloc0 i_disc0 i_untag0 i_mac0 i_v00].
  split; [by apply dims_put_port|..|done].
  - intros q ps. rewrite psig_put by done. case_decide; [|apply i_sigs0]. subst. intros [= <-]. exact (proj1 (port_ok_sig p pt') Hok).
  - intros v q. destruct (i_alloc0 v q) as [H1 H2]. split; intros f Hf Hb; apply Hs; [by eapply H1 | by eapply H2].
  - intros v q. destruct (i_disc0 v q) as (H1 & H2 & H3). unfold disc_at. rewrite Hu.
    split_and!; [intros Hb|intros Hb|intros f Hf Hb].
    + destruct (H1 Hb) as (? & ? & ?). auto.
    + destruct (H2 Hb) as (? & ? & ?). auto.
    + destruct (H3 f Hf Hb) as (? & ?). auto.
  - intros q. rewrite Hu, psig_put by done. intros Hq. apply i_untag0. case_decide; [|done]. subst. unfold psig. by rewrite Hp.
  - intros k q Hq. destruct (i_mac0 k q Hq) as (? & ? & ?). auto.
Qed.

(** Updates of a port that keep its endpoints and VLAN. *)
Lemma wp_port_put_inv s p pt pt' (Q : () → sw → Prop) :
  inv s → pat s p = Some pt → port_ok p pt' → p_vlanuntag pt' = p_vlanuntag pt → (p_ep pt ≠ [] → p_ep pt' ≠ []) →
  (inv (put_port s p (Some pt')) → Q () (put_port s p (Some pt'))) → wp (port_put p pt') Q s.
Proof.
  intros Hi Hp Hok Hu He HQ. pose proof (i_dims s Hi) as Hd.
  apply wp_portv_store; [done|by eapply pat_in_range|]. apply HQ. by eapply inv_put_port.
Qed.

Lemma port_ptr_keeps s p (k : option port → M sw Z) :
  inv s → 0 ≤ p < numports s → (pat s p = None → wp (k None) (λ _ s', inv s') s) →
  (∀ pt, pat s p = Some pt → port_ok p pt → wp (k (Some pt)) (λ _ s', inv s') s) →
  wp (port_ptr p ≫= k) (λ _ s', inv s') s.
Proof.
  intros Hi Hp H1 H2. apply wp_bind, wp_port_ptr; [apply Hi|done|]. destruct (pat s p) as [pt|] eqn:Ep; [|by apply H1].
  apply H2; [done|]. by eapply inv_port_ok.
Qed.

Lemma out_of_range p n : (p <? 0) || (n <=? p) = false → 0 ≤ p < n.
Proof. lia. Qed.

(** ** Commands that change attributes of a port *)

Lemma port_ok_upd p pt pt' : port_ok p pt → p_ep pt' = p_ep pt → p_ms pt' = p_ms pt → port_ok p pt'.
Proof. unfold port_ok. by intros H -> ->. Qed.

(** [port_put] of a port with the same endpoints, module and VLAN. *)
Lemma wp_port_attr s p pt pt' (rv : Z) :
  inv s → pat s p = Some pt → port_ok p pt → p_ep pt' = p_ep pt → p_ms pt' = p_ms pt →
  p_vlanuntag pt' = p_vlanuntag pt → wp (port_put p pt' ;; mret rv) (λ _ s', inv s') s.
Proof.
  intros Hi Hp Hok He Hm Hu. apply wp_bind. apply (wp_port_put_inv s p pt); [done|done| |done|by rewrite He|done].
  by eapply port_ok_upd.
Qed.

Lemma keeps_portallocatable arg : keeps (portallocatable arg).
Proof.
  intros s Hi. unfold portallocatable. destruct (sscanf_ii arg) as [[p value]|]; [|done].
  apply wp_bind, wp_gets. wp_if as Hr; [done|]. apply out_of_range in Hr.
  apply port_ptr_keeps; [done..|]. intros pt Hp Hok. by apply (wp_port_attr s p pt).
Qed.

Lemma keeps_portsetuser arg : keeps (portsetuser E arg).
Proof.
  intros s Hi. unfold portsetuser. destruct (sscanf_i arg) as [p|]; [|done]. wp_if; [done|].
  apply wp_bind, wp_gets. wp_if as Hr; [done|]. apply out_of_range in Hr.
  apply port_ptr_keeps; [done..|]. intros pt Hp Hok. destruct (owner_id _ _); [|done]. by apply (wp_port_attr s p pt).
Qed.

Lemma keeps_portsetgroup arg : keeps (portsetgroup E arg).
Proof.
  intros s Hi. unfold portsetgroup. destruct (sscanf_i arg) as [p|]; [|done]. wp_if; [done|].
  apply wp_bind, wp_gets. wp_if as Hr; [done|]. apply out_of_range in Hr.
  apply port_ptr_keeps; [done..|]. intros pt Hp Hok. destruct (owner_id _ _); [|done]. by apply (wp_port_attr s p pt).
Qed.

Lemma keeps_defqlen len : keeps (defqlen len).
Proof.
  intros s Hi. unfold defqlen. wp_if; [done|]. apply wp_bind, wp_modify, wp_ret. by apply (inv_ext s).
Qed.

Lemma rec_setqlen_keeps l ctl len p :
  Forall (λ e, ep_port e = p) l →
  Forall (λ e, ep_port e = p) (rec_setqlen_ep l ctl len).1 ∧ (l ≠ [] → (rec_setqlen_ep l ctl len).1 ≠ []).
Proof.
  induction 1 as [|e l He Hl IH]; [done|]. simpl. destruct (fd_ctl e =? ctl); simpl; [by split; [constructor|]|].
  split; [|done]. constructor; [done|apply IH].
Qed.

Lemma keeps_epqlen arg : keeps (epqlen arg).
Proof.
  intros s Hi. unfold epqlen. destruct (sscanf_iii arg) as [[[p id] len]|]; [|done]. wp_if; [done|].
  apply wp_bind, wp_gets. wp_if as Hr; [done|]. apply out_of_range in Hr.
  apply port_ptr_keeps; [done..|]. intros pt Hp [Hms Hall]. cbv zeta.
  destruct (rec_setqlen_keeps (p_ep pt) id len p Hall) as [Hall' Hne].
  apply wp_bind, (wp_port_put_inv s p pt); [done|done| |done|done|done].
  split; [|done]. intros Hnn. apply Hms. intros Hnil. simpl in Hnn. by rewrite Hnil in Hnn.
Qed.

Lemma keeps_portzerocounter i s :
  inv s → 0 ≤ i < numports s → wp (portzerocounter i) (λ _ s', inv s' ∧ numports s' = numports s) s.
Proof.
  intros Hi Hr. apply wp_bind, wp_port_ptr; [apply Hi|done|]. destruct (pat s i) as [pt|] eqn:Ep; [|done].
  apply (wp_port_put_inv s i pt); [done|done| |done|done|done].
  exact (inv_port_ok s i pt Hi Ep).
Qed.

Lemma keeps_portresetcounters arg : keeps (portresetcounters arg).
Proof.
  intros s Hi. apply wp_bind, wp_gets. wp_if.
  - wp_if as Hr; [done|]. apply out_of_range in Hr. apply wp_bind.
    eapply wp_mono; [by apply keeps_portzerocounter|]. intros [] s' [I' _]. by apply wp_ret.
  - apply wp_bind. eapply wp_mono; [apply (wp_forM_inv _ _ (λ s', inv s' ∧ numports s' = numports s)); [done|]|].
    + intros i s' Hin%elem_of_seqZ [I' N']. eapply wp_mono; [apply keeps_portzerocounter; [done|lia]|].
      intros [] s'' [I'' N'']. split; [done|]. by rewrite N''.
    + intros [] s' [I' _]. by apply wp_ret.
Qed.

Lemma keeps_setup_description p k d s :
  inv s → (∃ pt, pat s p = Some pt ∧ is_Some (p_ep pt !! k)) → wp (setup_description p k d) (λ _ s', inv s') s.
Proof.
  intros Hi (pt & Hp & [e He]). apply wp_bind, (wp_port_get _ _ pt); [done|]. apply wp_bind, (wp_deref _ e); [done|].
  destruct (inv_port_ok s p pt Hi Hp) as [Hms Hall].
  assert (∀ e', <[k:=e']> (p_ep pt) ≠ [] ↔ p_ep pt ≠ []) as Hne by (intros e'; by destruct (p_ep pt), k).
  apply (wp_port_put_inv s p pt); [done|done| |done|by simpl; rewrite Hne|done]. split; simpl.
  - by rewrite Hne.
  - apply Forall_insert; [done|]. simpl. by eapply Forall_lookup_1 in Hall.
Qed.

Lemma wp_vdepq_try q : ∀ s ms e sent, is_Some ms →
  wp (vdepq_try_q E ms e q sent) (λ _ s', quiet s s' ∧ portv s' = portv s) s.
Proof.
  induction q as [|b q IH]; intros s ms e sent Hms; [by apply wp_ret|].
  apply wp_bind, wp_call_sender; [done|]. intros rv s1 Q1 P1 _. wp_if; [by apply wp_ret|].
  eapply wp_mono; [by apply IH|]. intros r s2 [Q2 P2]. split; [by etrans | congruence].
Qed.

Lemma keeps_handle_out_packet p k s :
  inv s → (∃ pt, pat s p = Some pt ∧ is_Some (p_ep pt !! k)) → wp (handle_out_packet E p k) (λ _ s', inv s') s.
Proof.
  intros Hi (pt & Hp & [e He]). apply wp_bind, (wp_port_get _ _ pt); [done|]. apply wp_bind, (wp_deref _ e); [done|].
  destruct (inv_port_ok s p pt Hi Hp) as [Hms Hall].
  assert (p_ep pt ≠ []) as Hne by (intros Hn; by rewrite Hn in He).
  apply wp_bind. eapply wp_mono; [apply wp_vdepq_try; by apply Hms|]. intros r s1 [Q1 P1].
  pose proof (calm_inv _ _ (quiet_calm _ _ Q1 (i_dims s Hi)) Hi) as I1.
  assert (pat s1 p = Some pt) as Hp1 by (unfold pat; by rewrite P1).
  assert (∀ e', <[k:=e']> (p_ep pt) ≠ []) as Hne' by (intros e'; by destruct (p_ep pt), k).
  apply wp_bind, (wp_port_put_inv s1 p pt); [done|done| |done|by intros _; apply Hne'|].
  - split; [intros _; by apply Hms|]. apply Forall_insert; [done|]. simpl. by eapply Forall_lookup_1 in Hall.
  - intros I2. apply wp_whenM; intros _; [|done]. apply wp_modify. by eapply inv_ext, I2.
Qed.

Lemma keeps_portsethub (Hcalloc : ∀ n, calloc_ok E n = true) val : keeps (portsethub E val).
Proof.
  apply keeps_bind; [|intros; apply keeps_ret]. destruct (negb _).
  - apply keeps_bind; [by apply keeps_fstpshutdown|intros _]. apply keeps_bind; [apply keeps_portflag|intros; apply keeps_ret].
  - apply keeps_bind; [apply keeps_portflag|intros; apply keeps_ret].
Qed.

Lemma keeps_showinfo : keeps (showinfo E).
Proof.
  apply keeps_get. intros s Hi.
  apply (keeps_bind (A := ())); [apply keeps_printoutc|intros _|done].
  apply keeps_bind; [apply keeps_printoutc|intros _]. apply keeps_bind; [apply keeps_printoutc|intros _].
  apply keeps_bind; [apply keeps_whenM, keeps_printoutc|intros _]. apply keeps_ret.
Qed.

(** ** Printing *)

(** [m] only prints. *)
Definition prints {A} (m : M sw A) s : Prop := wp m (λ _ s', quiet s s' ∧ portv s' = portv s) s.

Lemma prints_line l s : prints (printoutc l) s.
Proof. split; [apply quiet_add_event|done]. Qed.
Lemma prints_ret {A} (a : A) s : prints (mret a) s.
Proof. done. Qed.
Lemma prints_bind {A B} (m : M sw A) (k : A → M sw B) s :
  prints m s → (∀ a s', quiet s s' → portv s' = portv s → prints (k a) s') → prints (m ≫= k) s.
Proof.
  intros Hm Hk. apply wp_bind. eapply wp_mono; [exact Hm|]. intros a s' [Q P].
  eapply wp_mono; [by apply Hk|]. intros b s'' [Q' P']. split; [exact (transitivity Q Q')|congruence].
Qed.
Lemma prints_whenM (b : bool) (m : M sw ()) s : prints m s → prints (whenM b m) s.
Proof. intros Hm. by destruct b. Qed.

Lemma quiet_inv s s' : quiet s s' → inv s → inv s'.
Proof. intros Q Hi. exact (calm_inv _ _ (quiet_calm _ _ Q (i_dims s Hi)) Hi). Qed.

Lemma keeps_prints {A} (m : M sw A) : (∀ s, inv s → prints m s) → keeps m.
Proof. intros Hm s Hi. eapply wp_mono; [by apply Hm|]. intros a s' [Q _]. by eapply quiet_inv. Qed.

Lemma prints_forM {A} (l : list A) (body : A → M sw ()) s :
  (∀ x s', x ∈ l → quiet s s' → portv s' = portv s → prints (body x) s') → prints (forM l body) s.
Proof.
  intros Hb. apply (wp_forM_inv l body (λ s', quiet s s' ∧ portv s' = portv s)); [done|].
  intros x s' Hx [Q P]. eapply wp_mono; [by apply Hb|]. intros [] s'' [Q' P'].
  split; [exact (transitivity Q Q')|congruence].
Qed.

Lemma prints_port i inclinactive s : inv s → 0 ≤ i < numports s → prints (print_port E i inclinactive) s.
Proof.
  intros Hi Hr. apply wp_bind, wp_port_ptr; [apply Hi|done|]. destruct (pat s i) as [pt|] eqn:Ep; [|done].
  destruct (inv_port_ok s i pt Hi Ep) as [Hms _]. cbv zeta. destruct (negb _); [done|].
  apply prints_bind; [apply prints_line|]. intros _ s1 _ _. apply prints_bind; [apply prints_line|]. intros _ s2 _ _.
  apply prints_bind.
  { apply prints_whenM, prints_bind; [apply prints_line|]. intros. apply prints_line. }
  intros _ s3 _ _. apply prints_bind; [|intros; apply prints_ret].
  apply prints_forM. intros e s4 He _ _. destruct Hms as [ms Hm]; [by intros Hn; rewrite Hn in He; set_solver|].
  apply wp_bind, (wp_deref _ ms); [done|]. apply prints_bind; [apply prints_line|]. intros. apply prints_whenM, prints_line.
Qed.

Lemma keeps_print_ports inclinactive arg : keeps (print_ports E inclinactive arg).
Proof.
  apply keeps_prints. intros s Hi. apply wp_bind, wp_gets.
  destruct (negb _).
  - cbv zeta. destruct (_ || _) eqn:Hr; [done|]. apply prints_port; [done|lia].
  - apply prints_bind; [|intros; apply prints_ret]. apply prints_forM. intros i s' Hin%elem_of_seqZ Q _.
    apply prints_bind; [|intros; apply prints_ret]. apply prints_port; [by eapply quiet_inv|rewrite (q_np _ _ Q); lia].
Qed.

Lemma prints_FORALL v (body : Z → M sw ()) s :
  inv s → valid s v →
  (∀ k s', 0 ≤ k < numports s → vb s v Table k = true → quiet s s' → prints (body k) s') →
  prints (ba_FORALL (vl_array v Table) (numports s) body) s.
Proof.
  intros Hi Hv Hb. pose proof (i_dims s Hi) as Hd. pose proof (d_np s Hd). destruct (d_v s Hd v Table Hv) as (x & Hx & [[_ Hl] _]).
  apply (wp_ba_FORALL _ _ _ x (λ _ s', quiet s s' ∧ portv s' = portv s)); [lia|lia| |done|].
  - intros _ s' [Q _]. by rewrite (quiet_array s s').
  - intros l1 k l2 s' Hel [Q P]. assert (k ∈ ba_elems x (WORDSIZEROUND (numports s))) as Hin by (rewrite Hel; set_solver).
    apply elem_of_ba_elems in Hin as [_ Hm]; [|by apply wround_nonneg; lia].
    assert (vb s v Table k = true) as Hbit by (unfold vb; by rewrite Hx).
    eapply wp_mono; [apply Hb; [by eapply vb_range|done|done]|]. intros [] s'' [Q' P'].
    split; [exact (transitivity Q Q')|congruence].
Qed.

Lemma prints_STRSTATUS p v s : inv s → valid s v → 0 ≤ p < numports s → prints (STRSTATUS p v) s.
Proof.
  intros Hi Hv Hp. pose proof (i_dims s Hi) as Hd. pose proof (valid_range s v Hd Hv) as [Hr _].
  apply wp_bind, wp_vl_check; [done..|]. destruct (vb _ _ _ _); [apply prints_ret|].
  apply wp_bind, wp_vl_check; [done..|]. destruct (vb _ _ _ _); [apply prints_ret|].
  apply wp_bind, wp_vl_check; [done..|]. apply prints_ret.
Qed.

Lemma prints_vlanprintelem v s : inv s → valid s v → prints (vlanprintelem v) s.
Proof.
  intros Hi Hv. apply prints_bind; [apply prints_line|]. intros _ s1 Q1 _. pose proof (quiet_inv _ _ Q1 Hi) as I1.
  apply wp_bind, wp_get. apply prints_FORALL; [done|by apply (quiet_valid _ _ _ Q1)|]. intros k s2 Hk Hb Q2.
  pose proof (quiet_inv _ _ Q2 I1) as I2. assert (valid s2 v) as V2 by (by apply (quiet_valid _ _ _ Q2), (quiet_valid _ _ _ Q1)).
  destruct (i_alloc s1 I1 v k) as [Ha _]. destruct (Ha Table ltac:(done) Hb) as [ps Hps]. rewrite <- (q_sig _ _ Q2) in Hps.
  apply psig_Some in Hps as (pt & Hpt & _). apply wp_bind, (wp_port_get _ _ pt); [done|].
  apply prints_bind; [apply prints_STRSTATUS; [done|done|by rewrite (q_np _ _ Q2)]|]. intros. apply prints_line.
Qed.

Lemma prints_vlanprintactive v s : inv s → valid s v → prints (vlanprintactive v) s.
Proof.
  intros Hi Hv. apply prints_bind; [apply prints_line|]. intros _ s1 Q1 _. pose proof (quiet_inv _ _ Q1 Hi) as I1.
  apply wp_bind, wp_get. destruct (negb _); [apply prints_ret|].
  apply prints_FORALL; [done|by apply (quiet_valid _ _ _ Q1)|]. intros k s2 Hk Hb Q2.
  pose proof (quiet_inv _ _ Q2 I1) as I2. assert (valid s2 v) as V2 by (by apply (quiet_valid _ _ _ Q2), (quiet_valid _ _ _ Q1)).
  destruct (i_alloc s1 I1 v k) as [Ha _]. destruct (Ha Table ltac:(done) Hb) as [ps Hps]. rewrite <- (q_sig _ _ Q2) in Hps.
  apply psig_Some in Hps as (pt & Hpt & _). apply wp_bind, (wp_port_get _ _ pt); [done|]. apply prints_whenM.
  apply prints_bind; [apply prints_STRSTATUS; [done|done|by rewrite (q_np _ _ Q2)]|]. intros. apply prints_line.
Qed.

Lemma keeps_FORALL_prints (body : Z → M sw ()) :
  (∀ v s, inv s → valid s v → prints (body v) s) → keeps (FORALL_VLANS body).
Proof.
  intros Hb. apply keeps_mstep. intros s Hi. unfold FORALL_VLANS. apply wp_FORALL_VLANS_mstep; [done|].
  intros v s' I' V'. eapply wp_mono; [by apply Hb|]. intros [] s'' [Q _]. apply calm_mstep, quiet_calm; [done|apply I'].
Qed.

(** A listing of one VLAN, or of all of them. *)
Lemma keeps_vlanlist (c : bool) (v : Z) (b : bool) (body : Z → M sw ()) :
  (∀ v s, inv s → valid s v → prints (body v) s) → (c = true → 0 ≤ v < NUMOFVLAN - 1) →
  keeps (if b then (if c then ok ← valid_vlan v; if (ok : bool) then body v ;; mret 0 else mret ENXIO
                    else mret EINVAL)
         else FORALL_VLANS body ;; mret 0).
Proof.
  intros Hb Hc s Hi. wp_if.
  - wp_if as Hr; [|done]. specialize (Hc eq_refl). apply wp_bind, wp_valid_vlan; [apply Hi|unfold NUMOFVLAN in *; lia|].
    destruct (bmem _ _) eqn:Ev; [|done]. apply wp_bind. eapply wp_mono; [apply Hb; [done|by split; [unfold NUMOFVLAN in Hc; lia|]]|].
    intros [] s' [Q _]. by apply (quiet_inv s).
  - by apply (keeps_bind (A := ())); [apply keeps_FORALL_prints|intros; apply keeps_ret|].
Qed.

Lemma keeps_vlanprint arg : keeps (vlanprint arg).
Proof. unfold vlanprint. apply keeps_vlanlist; [apply prints_vlanprintactive|unfold NUMOFVLAN; lia]. Qed.
Lemma keeps_vlanprintall arg : keeps (vlanprintall arg).
Proof. unfold vlanprintall. apply keeps_vlanlist; [apply prints_vlanprintelem|unfold NUMOFVLAN; lia]. Qed.

(** The listing of the spanning tree. *)
Lemma prints_decoderole v p s : inv s → valid s v → 0 ≤ p < numports s → prints (decoderole v p) s.
Proof.
  intros Hi Hv Hp. pose proof (i_dims s Hi) as Hd.
  assert (∀ (k : bool → M sw role), (∀ b, prints (k b) s) → prints (b ← fs_check v Untag p; k b) s) as Hu.
  { intros k Hk. apply wp_bind, wp_fs_check; [done..|]. apply Hk. }
  apply Hu. intros u. apply wp_bind. apply (wp_mono _ (λ _ s', s' = s)).
  { destruct u; [done|]. by apply wp_fs_check. }
  intros u' s' ->. destruct (negb _); [apply prints_ret|].
  apply wp_bind, wp_fs_check; [done..|]. destruct (fb _ _ _ _); [apply prints_ret|].
  apply wp_bind, wp_fs_get; [done..|]. intros r Hr.
  destruct (_ =? _); [apply prints_ret|]. apply wp_bind, wp_fs_check; [done..|]. apply prints_ret.
Qed.

Lemma prints_FORALL_fs v f (body : Z → M sw ()) s :
  inv s → valid s v →
  (∀ k s', 0 ≤ k < numports s → fb s v f k = true → quiet s s' → prints (body k) s') →
  prints (ba_FORALL (fs_array v f) (numports s) body) s.
Proof.
  intros Hi Hv Hb. pose proof (i_dims s Hi) as Hd. pose proof (d_np s Hd). destruct (d_f s Hd v f Hv) as (x & Hx & [[_ Hl] _]).
  apply (wp_ba_FORALL _ _ _ x (λ _ s', quiet s s' ∧ portv s' = portv s)); [lia|lia| |done|].
  - intros _ s' [Q _]. by rewrite (quiet_farray s s').
  - intros l1 k l2 s' Hel [Q P]. assert (k ∈ ba_elems x (WORDSIZEROUND (numports s))) as Hin by (rewrite Hel; set_solver).
    apply elem_of_ba_elems in Hin as [_ Hm]; [|by apply wround_nonneg; lia].
    assert (fb s v f k = true) as Hbit by (unfold fb; by rewrite Hx).
    eapply wp_mono; [apply Hb; [by eapply fb_range|done|done]|]. intros [] s'' [Q' P'].
    split; [exact (transitivity Q Q')|congruence].
Qed.

Lemma prints_fstprintport v tg f k s0 s :
  inv s0 → quiet s0 s → valid s0 v → f = Untag ∨ f = Tagged → 0 ≤ k < numports s0 → fb s0 v f k = true →
  prints (fstprintport v tg k) s.
Proof.
  intros I0 Q Hv Hf Hk Hb. pose proof (quiet_inv _ _ Q I0) as Hi.
  destruct (i_alloc s0 I0 v k) as [_ Ha]. destruct (Ha f ltac:(naive_solver) Hb) as [ps Hps].
  rewrite <- (q_sig _ _ Q) in Hps. apply psig_Some in Hps as (pt & Hpt & _).
  apply wp_bind, wp_bind, (wp_port_get _ _ pt); [done|]. apply wp_ret.
  apply prints_bind; [|intros; apply prints_line].
  apply prints_decoderole; [done|by apply (quiet_valid _ _ _ Q)|by rewrite (q_np _ _ Q)].
Qed.

Lemma prints_fstprintactive v s : inv s → valid s v → prints (fstprintactive v) s.
Proof.
  intros Hi Hv. pose proof (i_dims s Hi) as Hd. apply wp_bind, wp_fs_get; [done..|]. intros r Hr.
  apply wp_bind, wp_get. cbv zeta.
  assert (∀ s', quiet s s' → inv s' ∧ valid s' v ∧ numports s' = fnumports (fst_st s')) as Hq.
  { intros s' Q. pose proof (quiet_inv _ _ Q Hi) as I'. split_and!; [done|by apply (quiet_valid _ _ _ Q)|].
    symmetry. apply (d_fnp s'), I'. }
  do 4 (apply prints_bind; [apply prints_line|]; intros [] ? ? ?).
  apply wp_bind, wp_gets.
  match goal with Q1 : quiet s ?a, Q2 : quiet ?a ?b, Q3 : quiet ?b ?c, Q4 : quiet ?c ?s1 |- _ =>
    assert (quiet s s1) as Q by exact (transitivity Q1 (transitivity Q2 (transitivity Q3 Q4))) end.
  destruct (Hq _ Q) as (I1 & V1 & N1). rewrite <- N1. apply prints_bind.
  - apply prints_FORALL_fs; [done..|]. intros k s9 Hk Hb Q'.
    by eapply (prints_fstprintport v false Untag); [exact I1|exact Q'|..]; eauto.
  - intros [] s2 Q2 _. pose proof (transitivity Q Q2) as Q3. destruct (Hq _ Q3) as (I2 & V2 & N2).
    rewrite <- (q_np _ _ Q2). apply prints_FORALL_fs; [done..|]. intros k s9 Hk Hb Q'.
    by eapply (prints_fstprintport v true Tagged); [exact I2|exact Q'|..]; eauto.
Qed.

Lemma keeps_fstprint arg : keeps (fstprint arg).
Proof. unfold fstprint. apply (keeps_vlanlist _ _ _ fstprintactive); [apply prints_fstprintactive|unfold NUMOFVLAN; lia]. Qed.

Lemma keeps_fstpshowinfo : keeps fstpshowinfo.
Proof.
  apply keeps_prints. intros s Hi. apply wp_bind, wp_get.
  do 2 (apply prints_bind; [apply prints_line|]; intros [] ? ? ?). apply prints_ret.
Qed.

End portsafe.
