(* ===== verification/PortLife.v ===== *)
(** * PortLife: creation, activation and removal of ports

    [alloc_port], [free_port], [setup_ep] and [close_ep] keep the invariant; a
    port activates and inactivates on all its VLANs at once. *)
From Stdlib Require Import Lia.
From stdpp Require Import base numbers list gmap strings.
From S2P Require Import Prelude Scan BitArray Hash Qtimer Switch PortSend Fstp Port SwitchInv SpanInv SwitchSafe PortSafe.

Section portlife.
Context {T : Type} `{!MacTable T} (E : env).
Abbreviation sw := (switch T).
Implicit Type s : sw.

(** ** Allocation *)

(** A port the pool does not offer: it has endpoints or is reserved. *)
Definition busy s (j : Z) : bool :=
  match pat s j with
  | None => false
  | Some pt => negb (bool_decide (p_ep pt = [])) || negb (Z.land (p_flag pt) NOTINPOOL =? 0)
  end.

Definition first_free s (l : list Z) (d i : Z) : Prop :=
  (i = d ∧ ∀ j, j ∈ l → busy s j = true) ∨
  (∃ l1 l2, l = l1 ++ i :: l2 ∧ (∀ j, j ∈ l1 → busy s j = true) ∧ busy s i = false).

Lemma wp_pool_scan l d s (Q : Z → sw → Prop) :
  dims s → (∀ j, j ∈ l → 0 ≤ j < numports s) → (∀ i, first_free s l d i → Q i s) → wp (pool_scan l d) Q s.
Proof.
  intros Hd. revert Q. induction l as [|j l IH]; intros Q Hl HQ; simpl.
  - apply wp_ret, HQ. left. split; [done|]. set_solver.
  - assert (busy s j = false → Q j s) as Hfree.
    { intros Hb. apply HQ. right. exists [], l. split_and!; [done|set_solver|done]. }
    apply wp_bind, wp_port_ptr; [done|apply Hl; set_solver|]. unfold busy in Hfree at 1.
    destruct (pat s j) as [pt|] eqn:Ep; [|by apply wp_ret, Hfree].
    destruct (_ || _) eqn:Eb; [|by apply wp_ret, Hfree]. assert (busy s j = true) as Hb by (unfold busy; by rewrite Ep).
    apply IH; [intros; apply Hl; set_solver|]. intros i Hi. apply HQ. destruct Hi as [[-> H]|(l1 & l2 & -> & H1 & H2)].
    + left. split; [done|]. intros k Hk. apply elem_of_cons in Hk as [->|]; auto.
    + right. exists (j :: l1), l2. split_and!; [done| |done]. intros k Hk. apply elem_of_cons in Hk as [->|]; auto.
Qed.

(** A new port in VLAN 0. *)
Lemma inv_new_port s i s' :
  inv s → 0 ≤ i < numports s → pat s i = None →
  vupd (put_port s i (Some new_port)) 0 Table i true s' → inv s' ∧ psig s' i = Some new_port.
Proof.
  intros Hi Hr Hn [D' F' V0 B0]. pose proof (i_dims s Hi) as Hd. set (s1 := put_port s i (Some new_port)) in *.
  assert (∀ v f q, vb s' v f q = if decide (v = 0 ∧ f = Table ∧ q = i) then true else vb s v f q) as V' by exact V0.
  assert (∀ v f q, fb s' v f q = fb s v f q) as B' by exact B0.
  assert (∀ q, psig s' q = if decide (q = i) then Some (psig_of new_port) else psig s q) as Hsig.
  { intros q. rewrite (fr_sig _ _ F'). unfold s1. by rewrite psig_put. }
  assert (psig s i = None) as Hsn by (unfold psig; by rewrite Hn).
  assert (∀ q, act s' q ↔ act s q) as Hact.
  { intros q. unfold act. rewrite Hsig. case_decide; [|done]. subst. rewrite Hsn. naive_solver. }
  assert (∀ q, is_Some (psig s q) → utag s' q = utag s q) as Hut.
  { intros q Hq. unfold utag. rewrite Hsig. case_decide; [|done]. subst. rewrite Hsn in Hq. by destruct Hq. }
  assert (∀ v f q, f ≠ Table → vb s' v f q = vb s v f q) as Hne.
  { intros v f q Hf. rewrite V', decide_False; [done|]. by intros (_ & ? & _). }
  assert (∀ v q, vb s v Table q = true → vb s' v Table q = true) as Htab.
  { intros v q Ht. rewrite V', Ht. by destruct (decide _). }
  destruct Hi as [_ i_sigs0 i_alloc0 i_disc0 i_untag0 i_mac0 i_v00]. split.
  2: { by rewrite Hsig, decide_True. }
  split; [done|..|by apply (frame_valid _ _ _ F')].
  - intros q pt. rewrite Hsig. case_decide; [|apply i_sigs0]. intros [= <-]. split; [done|]. by constructor.
  - intros v q. destruct (i_alloc0 v q) as [H1 H2]. split; intros f Hf.
    + rewrite V', Hsig. case_decide as Hc; [destruct Hc as (_ & _ & ->); by rewrite decide_True|].
      case_decide; [done|]. by apply H1.
    + rewrite B', Hsig. case_decide; [done|]. by apply H2.
  - intros v q. destruct (i_disc0 v q) as (H1 & H2 & H3). unfold disc_at. rewrite (Hne v Bctag q), (Hne v Bcuntag q) by done.
    split_and!; [intros Hb|intros Hb|intros f Hf Hb].
    + destruct (H1 Hb) as (Ht & Ha & Hu). rewrite Hact, Hut by (by apply act_psig). auto.
    + destruct (H2 Hb) as (Ht & Ha & Hu). rewrite Hact, Hut by (by apply act_psig). auto.
    + rewrite B' in Hb. destruct (H3 f Hf Hb) as (Ht & Ha). rewrite Hact. auto.
  - intros q Hs. destruct (decide (q = i)) as [->|Hq].
    + right. assert (utag s' i = 0) as -> by (unfold utag; by rewrite Hsig, decide_True).
      by rewrite V', decide_True.
    + rewrite Hsig, decide_False in Hs by done. rewrite Hut by done.
      destruct (i_untag0 q Hs) as [|Ht]; [by left|]. right. auto.
  - intros k q Hq. destruct (i_mac0 k q) as (H1 & H2 & H3).
    { by apply (fr_mac _ _ F') in Hq. }
    rewrite Hact, (Hne _ Notlearning) by done. auto.
Qed.

Lemma wp_alloc_port portno s :
  inv s →
  wp (alloc_port E portno) (λ i s', inv s' ∧ numports s' = numports s ∧ (0 < portno → is_Some (psig s portno) → i ≠ -1) ∧
    (i = -1 ∨ (0 ≤ i < numports s ∧ psig s' i = Some (default new_port (psig s i)) ∧
               (portno = 0 → 1 ≤ i ∧ busy s i = false) ∧ (0 < portno → i = portno)))) s.
Proof.
  intros Hi. pose proof (i_dims s Hi) as Hd. pose proof (d_np s Hd) as Hn. apply wp_bind, wp_gets, wp_bind.
  eapply (wp_mono _ (λ i s', s' = s ∧ 0 ≤ i ∧ (0 < portno → i = portno) ∧ (i < numports s → (portno = 0 → 1 ≤ i ∧ busy s i = false) ∧
    (0 < portno → i = portno)))).
  { destruct (Z.eqb_spec portno 0) as [->|Hne].
    - apply wp_pool_scan; [done|intros j Hj%elem_of_seqZ; lia|].
      intros i [[-> _]|(l1 & l2 & Hl & _ & Hb)]; split_and!; try done; try lia.
      + assert (i ∈ seqZ 1 (numports s - 1)) as ?%elem_of_seqZ by (rewrite Hl; set_solver). lia.
      + intros _. split; [|lia]. intros _. split; [|done].
        assert (i ∈ seqZ 1 (numports s - 1)) as ?%elem_of_seqZ by (rewrite Hl; set_solver). lia.
    - apply wp_ret. destruct (Z.ltb_spec portno 0); split_and!; try done; try lia. }
  intros i s' (-> & Hi0 & Hpos & Hspec). destruct (Z.leb_spec (numports s) i) as [Hle|Hlt].
  { apply wp_ret. split_and!; [done|done| |auto]. intros Hp Hs. apply psig_range in Hs; [|done].
    specialize (Hpos Hp). lia. }
  destruct (Hspec Hlt) as [Hz Hp]. apply wp_bind, wp_port_ptr; [done|lia|].
  destruct (pat s i) as [pt|] eqn:Ep.
  { apply wp_ret. split_and!; [done|done|lia|]. right.
    split_and!; [lia|lia| |done|done]. unfold psig. by rewrite Ep. }
  assert (0 < portno → is_Some (psig s portno) → False) as Hno.
  { intros Hpp Hs. rewrite <- (Hp Hpp) in Hs. unfold psig in Hs. rewrite Ep in Hs. by destruct Hs. }
  apply wp_bind, wp_malloc. intros ok s1 Q1 P1 _.
  pose proof (calm_inv _ _ (quiet_calm _ _ Q1 Hd) Hi) as I1. pose proof (q_np _ _ Q1) as N1.
  destruct ok; simpl; [|apply wp_ret; split_and!; [done|done|intros; exfalso; auto|auto]].
  apply wp_bind, wp_portv_store; [apply I1|lia|].
  apply wp_bind, wp_vl_set; [by apply dims_put_port, I1|apply I1|simpl; lia|]. intros s2 U2. apply wp_ret.
  assert (pat s1 i = None) as Ep1 by (unfold pat; by rewrite P1).
  destruct (inv_new_port s1 i s2) as [I2 S2]; [done|lia|done|done|].
  split_and!; [done| |intros; exfalso; auto|right; split_and!; [lia|lia| |done|done]].
  2: { rewrite S2. unfold psig. by rewrite Ep. }
  rewrite (fr_np _ _ (vu_frame _ _ _ _ _ _ U2)). done.
Qed.

(** In [seqZ 1 n] what is below an element comes before it. *)
Lemma seqZ_before n l1 k l2 j : seqZ 1 n = l1 ++ k :: l2 → 1 ≤ j < k → j ∈ l1.
Proof.
  intros Hl Hj.
  assert (seqZ 1 n !! length l1 = Some k) as Hk by (rewrite Hl; by apply list_lookup_middle).
  apply lookup_seqZ in Hk as [Hk Hkn]. apply list_elem_of_lookup. exists (Z.to_nat (j - 1)).
  assert (seqZ 1 n !! Z.to_nat (j - 1) = Some j) as Hlk by (apply lookup_seqZ; lia).
  rewrite Hl, lookup_app_l in Hlk by lia. done.
Qed.

(** The port taken from the pool is the first free one. *)
Lemma wp_alloc_pool s :
  inv s →
  wp (alloc_port E 0) (λ i s', inv s' ∧
    ((i = -1 ∧ ∀ j, 1 ≤ j < numports s → busy s j = true) ∨
     (1 ≤ i < numports s ∧ busy s i = false ∧ (∀ j, 1 ≤ j < i → busy s j = true) ∧ is_Some (psig s' i)) ∨
     (i = -1 ∧ ∃ n, malloc_ok E n = false))) s.
Proof.
  intros Hi. pose proof (i_dims s Hi) as Hd. pose proof (d_np s Hd) as Hn.
  destruct (wp_done_intro _ _ _ (wp_alloc_port 0 s Hi)) as (i & s' & Ha & I' & _ & _ & Hc).
  unfold wp. rewrite Ha. split; [done|]. assert (wp (alloc_port E 0) (λ i _, ∃ k, first_free s (seqZ 1 (numports s - 1)) (Z.max 1 (numports s)) k ∧
    (i = -1 → k < numports s → ∃ n, malloc_ok E n = false) ∧ (i ≠ -1 → i = k)) s) as Hf.
  { apply wp_bind, wp_gets, wp_bind, wp_pool_scan; [done|intros j Hj%elem_of_seqZ; lia|]. intros k Hk.
    destruct (Z.leb_spec (numports s) k) as [Hle|Hlt]; [apply wp_ret; exists k; split_and!; [done|lia|done]|].
    assert (0 ≤ k) as Hk0.
    { destruct Hk as [[-> _]|(l1 & l2 & Hl & _)]; [lia|].
      assert (k ∈ seqZ 1 (numports s - 1)) as ?%elem_of_seqZ by (rewrite Hl; set_solver). lia. }
    apply wp_bind, wp_port_ptr; [done|lia|]. destruct (pat s k); [apply wp_ret; exists k; split_and!; [done|lia|done]|].
    apply wp_bind, wp_malloc_val. intros ok s1 Q1 P1 Hok. destruct ok; simpl.
    2: { apply wp_ret. exists k. split_and!; [done| |done]. intros _ _. by exists (nmalloc s). }
    apply wp_bind. apply wp_portv_store; [by apply (quiet_calm _ _ Q1 Hd)|rewrite (q_np _ _ Q1); lia|].
    pose proof (calm_inv _ _ (quiet_calm _ _ Q1 Hd) Hi) as I1.
    apply wp_bind, wp_vl_set; [by apply dims_put_port, I1|apply I1|simpl; rewrite (q_np _ _ Q1); lia|]. intros s2 _.
    apply wp_ret. exists k. split_and!; [done|lia|done]. }
  unfold wp in Hf. rewrite Ha in Hf. destruct Hf as (k & Hk & Hm1 & Hk1).
  assert (∀ j, 1 ≤ j < numports s ↔ j ∈ seqZ 1 (numports s - 1)) as Hseq by (intros; rewrite elem_of_seqZ; lia).
  destruct Hc as [->|(Hr & Hps & Hz & _)].
  - destruct Hk as [[-> Hall]|(l1 & l2 & Hl & _ & Hb)].
    + left. split; [done|]. intros j Hj. by apply Hall, Hseq.
    + right; right. split; [done|]. apply Hm1; [done|]. assert (k ∈ seqZ 1 (numports s - 1)) as ?%elem_of_seqZ by (rewrite Hl; set_solver). lia.
  - right; left. destruct (Hz eq_refl) as [H1 Hb]. split_and!; [lia|lia|done| |by rewrite Hps].
    assert (i = k) as -> by (apply Hk1; lia). intros j Hj. destruct Hk as [[-> _]|(l1 & l2 & Hl & Hbusy & _)]; [lia|].
    apply Hbusy. by eapply (seqZ_before (numports s - 1)).
Qed.

(** ** Removal *)

(** An inactive port is in none of the active tables. *)
Lemma inactive_bits s p : inv s → ¬ act s p →
  (∀ v, vb s v Bctag p = false ∧ vb s v Bcuntag p = false) ∧
  (∀ v f, f = Untag ∨ f = Tagged ∨ f = Backup → fb s v f p = false) ∧
  (∀ k, mt_ports (mact s) k ≠ Some p).
Proof.
  intros Hi Hna. split_and!.
  - intros v. destruct (i_disc s Hi v p) as (H1 & H2 & _).
    split; apply not_true_is_false; [intros (_ & ? & _)%H1 | intros (_ & ? & _)%H2]; done.
  - intros v f Hf. destruct (i_disc s Hi v p) as (_ & _ & H3). apply not_true_is_false. by intros (_ & ?)%(H3 f Hf).
  - intros k Hk. by destruct (i_mac s Hi k p Hk) as (_ & ? & _).
Qed.

Lemma not_act_ep s p pt : pat s p = Some pt → act s p ↔ p_ep pt ≠ [].
Proof.
  intros Hp. unfold act, psig. rewrite Hp. simpl. split.
  - intros (? & [= <-] & H) Hn. apply H. simpl. by rewrite Hn.
  - intros H. eexists; split; [done|]. simpl. by intros ?%fmap_nil_iff.
Qed.

(** The state after the port and all its VLAN definitions are gone. *)
Lemma inv_removed s p s' :
  inv s → 0 ≤ p < numports s → ¬ act s p → dims s' → frame (put_port s p None) s' →
  (∀ v f q, f ≠ Table ∨ q ≠ p → vb s' v f q = vb s v f q) → (∀ v, vb s' v Table p = false) →
  (∀ v f q, fb s' v f q = fb s v f q) → inv s'.
Proof.
  intros Hi Hr Hna D' F' V' Vp B'. pose proof (i_dims s Hi) as Hd.
  destruct (inactive_bits s p Hi Hna) as (Hb1 & Hb2 & Hb3).
  assert (∀ q, q ≠ p → psig s' q = psig s q) as Hsig.
  { intros q Hq. rewrite (fr_sig _ _ F'), psig_put by done. by rewrite decide_False. }
  assert (psig s' p = None) as Hsp by (rewrite (fr_sig _ _ F'), psig_put by done; by rewrite decide_True).
  assert (∀ q, q ≠ p → act s' q ↔ act s q) as Hact by (intros q Hq; unfold act; by rewrite Hsig).
  assert (∀ q, q ≠ p → utag s' q = utag s q) as Hut by (intros q Hq; unfold utag; by rewrite Hsig).
  destruct Hi as [_ i_sigs0 i_alloc0 i_disc0 i_untag0 i_mac0 i_v00].
  split; [done|..|by apply (frame_valid _ _ _ F')].
  - intros q pt. destruct (decide (q = p)) as [->|]; [by rewrite Hsp|]. rewrite Hsig by done. apply i_sigs0.
  - intros v q. destruct (decide (q = p)) as [->|Hne].
    + split; intros f Hf Hb.
      * destruct f; [by rewrite Vp in Hb|..|done]; rewrite V' in Hb by auto; destruct (Hb1 v); congruence.
      * rewrite B', Hb2 in Hb by done. done.
    + destruct (i_alloc0 v q) as [H1 H2]. split; intros f Hf; rewrite Hsig by done.
      * rewrite V' by auto. by apply H1.
      * rewrite B'. by apply H2.
  - intros v q. destruct (decide (q = p)) as [->|Hne].
    + split_and!; [intros Hb|intros Hb|intros f Hf Hb].
      * rewrite V' in Hb by auto. destruct (Hb1 v). congruence.
      * rewrite V' in Hb by auto. destruct (Hb1 v). congruence.
      * rewrite B', Hb2 in Hb by done. done.
    + destruct (i_disc0 v q) as (H1 & H2 & H3). unfold disc_at.
      setoid_rewrite (Hact q Hne). rewrite !V', Hut by auto. split_and!; [done..|].
      intros f Hf. rewrite B'. by apply H3.
  - intros q. destruct (decide (q = p)) as [->|Hne]; [rewrite Hsp; by intros []|].
    rewrite Hsig, Hut, V' by auto. apply i_untag0.
  - intros k q Hq. apply (fr_mac _ _ F') in Hq. change (mt_ports (mact s) k = Some q) in Hq.
    assert (q ≠ p) by (intros ->; by destruct (Hb3 k)). rewrite !V', Hact by auto. by apply i_mac0.
Qed.

Lemma wp_free_port s p pt :
  inv s → pat s p = Some pt → p_ep pt = [] → numports s ≤ 2 ^ 32 → wp (free_port p) (λ _ s', inv s') s.
Proof.
  intros Hi Hp Hep H32. pose proof (i_dims s Hi) as Hd. pose proof (pat_in_range _ _ _ Hd Hp) as Hr.
  assert (¬ act s p) as Hna by (rewrite (not_act_ep _ _ _ Hp); naive_solver).
  apply wp_bind, wp_gets. unfold u32. rewrite Z.mod_small by lia. rewrite (proj2 (Z.leb_gt _ _)) by lia.
  apply wp_bind, (wp_port_ptr_Some _ _ pt); [done|]. rewrite bool_decide_eq_true_2 by done.
  apply wp_bind, wp_portv_store; [done..|]. set (s1 := put_port s p None).
  assert (dims s1) as D1 by (by apply dims_put_port).
  set (J := λ (l : list Z) s', dims s' ∧ frame s1 s' ∧ (∀ v f q, fb s' v f q = fb s v f q) ∧
    (∀ v f q, f ≠ Table ∨ q ≠ p → vb s' v f q = vb s v f q) ∧
    ∀ v, vb s' v Table p = true → v ∉ l).
  eapply wp_mono; [apply (wp_FORALL_VLANS s1 _ J)|]; [done|by intros l s' (_ & [] & _)| | |].
  - split_and!; try done. intros v _. set_solver.
  - intros l1 v l2 s2 _ Hv _ (D2 & F2 & B2 & V2 & P2).
    apply wp_vl_clr; [done|by apply (frame_valid s1 s2)|by rewrite (fr_np s1 s2)|].
    intros s3 [D3 F3 V3 B3]. split_and!; [done|by etrans|intros; by rewrite B3|..].
    + intros v' f q Hc. rewrite V3, decide_False by naive_solver. by apply V2.
    + intros v'. rewrite V3. destruct (decide _) as [|Hn]; [done|]. intros Hb%P2. set_solver.
  - intros [] s2 (D2 & F2 & B2 & V2 & P2). apply (inv_removed s p s2); try done. intros v.
    apply not_true_is_false. intros Hb. apply (P2 v Hb). apply (elem_of_vlans s1); [done|].
    apply (frame_valid s1 s2); [done|]. by apply (vb_range s2 v Table p).
Qed.

Lemma keeps_portremove val : keeps (portremove val).
Proof.
  intros s Hi. apply wp_bind, wp_gets. wp_if as Hr; [done|]. apply out_of_range in Hr.
  apply port_ptr_keeps; [done..|]. intros pt Hp Hok. case_bool_decide as He; simpl; [|done].
  pose proof (d_np s (i_dims s Hi)). apply wp_bind. eapply wp_mono; [apply (wp_free_port s val pt); [done..|lia]|].
  intros [] s' I'. by apply wp_ret.
Qed.

Lemma wp_notinpool s p ps : inv s → psig s p = Some ps → wp (notinpool p) (λ _ s', inv s') s.
Proof.
  intros Hi (pt & Hp & _)%psig_Some. apply (wp_port_upd _ _ pt); [apply Hi|done|]. apply (inv_put_port s p pt); try done.
  exact (inv_port_ok s p pt Hi Hp).
Qed.

Lemma keeps_portcreate val : keeps (portcreate E val).
Proof.
  intros s Hi. apply wp_bind, wp_gets. wp_if as Hr; [done|]. apply out_of_range in Hr.
  apply port_ptr_keeps; [done|done| |done]. intros _.
  apply wp_bind. eapply wp_mono; [by apply wp_alloc_port|]. intros i s' (I' & _ & _ & Hc). wp_if as Hneg; [done|].
  destruct Hc as [->|(_ & Hs & _)]; [done|]. apply wp_bind. eapply wp_mono; [by eapply wp_notinpool|].
  intros [] s'' I''. by apply wp_ret.
Qed.

Lemma keeps_portcreateauto : keeps (portcreateauto E).
Proof.
  intros s Hi. apply wp_bind. eapply wp_mono; [by apply wp_alloc_port|]. intros i s' (I' & _ & _ & Hc). wp_if as Hneg; [done|].
  destruct Hc as [->|(_ & Hs & _)]; [done|]. apply wp_bind. eapply wp_mono; [by eapply wp_notinpool|].
  intros [] s'' I''. by apply (keeps_bind (printoutc _)); [apply keeps_printoutc|intros; apply keeps_ret|].
Qed.

(** ** Activation *)

(** Port [p] may have joined, on VLANs it belongs to, the tagged forwarding
    table and the spanning tree. *)
Record joining (p : Z) s s' : Prop := {
  j_dims : dims s';
  j_frame : frame s s';
  j_vb : ∀ v f q, f ≠ Bctag ∨ q ≠ p → vb s' v f q = vb s v f q;
  j_bctag : ∀ v, vb s' v Bctag p = true → vb s v Table p = true;
  j_fb : ∀ v f q, f = Untag ∨ f = Tagged ∨ f = Backup → q ≠ p → fb s' v f q = fb s v f q;
  j_fbp : ∀ v f, f = Untag ∨ f = Tagged ∨ f = Backup → fb s' v f p = true → vb s v Table p = true
}.

Lemma joining_refl p s : inv s → joining p s s.
Proof.
  intros Hi. split; try done; [apply Hi|..].
  - intros v. by apply (i_disc s Hi v p).
  - intros v f Hf Hb. destruct (i_disc s Hi v p) as (_ & _ & H3). by apply (H3 f Hf).
Qed.

Lemma joining_good p s s' v : inv s → act s p → joining p s s' → valid s v → good s' v ∧ is_Some (psig s' p).
Proof.
  intros Hi Ha [D F V B1 FB FBp] Hv. pose proof (act_psig _ _ Ha) as Hp. split; [split_and!|].
  - done.
  - by eapply frame_sigs_ok, i_sigs.
  - by apply (frame_valid s s').
  - intros q. destruct (i_alloc s Hi v q) as [H1 H2]. rewrite <- (fr_sig _ _ F) in Hp.
    destruct (decide (q = p)) as [->|Hne]; [by split|]. split; intros f Hf; rewrite (fr_sig _ _ F).
    + rewrite V by auto. by apply H1.
    + rewrite FB by auto. by apply H2.
  - by rewrite (fr_sig _ _ F).
Qed.

Lemma wp_activate_loop s p :
  inv s → act s p →
  wp (FORALL_VLANS (λ i,
    c ← vl_check i Table p;
    whenM c (vl_set i Bctag p ;; pt ← port_get p; fstaddport E i p (negb (i =? p_vlanuntag pt)))))
    (λ _ s', joining p s s') s.
Proof.
  intros Hi Ha. pose proof (i_dims s Hi) as Hd.
  apply (wp_FORALL_VLANS s _ (λ _ s', joining p s s')); [done|by intros _ s' []; apply j_frame0|by apply joining_refl|].
  intros _ v _ s1 _ Hv _ J1. destruct (joining_good p s s1 v Hi Ha J1 Hv) as [(D1 & S1 & V1 & A1) P1].
  apply wp_bind, wp_vl_check; [done|by apply (valid_range s1)|by apply psig_range|].
  apply wp_whenM; [intros Ht|done]. rewrite (j_vb p s s1 J1) in Ht by auto.
  apply wp_bind, wp_vl_set; [done|done|by apply psig_range|]. intros s2 U2.
  assert (joining p s s2) as J2.
  { destruct J1, U2. split; [done|by etrans|..].
    - intros v' f q Hc. rewrite vu_vb, decide_False by naive_solver. by apply j_vb0.
    - intros v'. rewrite vu_vb. destruct (decide _) as [(-> & _ & _)|]; [done|apply j_bctag0].
    - intros v' f q Hf Hq. rewrite vu_fb. by apply j_fb0.
    - intros v' f Hf. rewrite vu_fb. by apply j_fbp0. }
  destruct (joining_good p s s2 v Hi Ha J2 Hv) as [G2 P2]. pose proof P2 as [ps (pt & Hpt & _)%psig_Some].
  apply wp_bind, (wp_port_get _ _ pt); [done|]. eapply wp_mono; [by apply wp_fstaddport|]. intros [] s3 [D3 F3 V3 B3 _].
  destruct J2. split; [done|by etrans|..].
  - intros v' f q Hc. rewrite V3. by apply j_vb0.
  - intros v'. rewrite V3. apply j_bctag0.
  - intros v' f q Hf Hq. rewrite B3, decide_False by naive_solver. by apply j_fb0.
  - intros v' f Hf. rewrite B3 by done. destruct (decide _) as [(-> & _)|]; [done|]. by apply j_fbp0.
Qed.

(** The port forwards untagged for its own VLAN and tagged for the others. *)
Record joined (p : Z) s s' : Prop := {
  jd_dims : dims s';
  jd_frame : frame s s';
  jd_vb : ∀ v f q, f = Table ∨ q ≠ p → vb s' v f q = vb s v f q;
  jd_bctag : ∀ v, vb s' v Bctag p = true → vb s v Table p = true ∧ utag s p ≠ v;
  jd_bcuntag : ∀ v, vb s' v Bcuntag p = true → vb s v Table p = true ∧ utag s p = v;
  jd_nl : ∀ v, vb s' v Notlearning p = true → vb s v Notlearning p = true;
  jd_fb : ∀ v f q, f = Untag ∨ f = Tagged ∨ f = Backup → q ≠ p → fb s' v f q = fb s v f q;
  jd_fbp : ∀ v f, f = Untag ∨ f = Tagged ∨ f = Backup → fb s' v f p = true → vb s v Table p = true
}.

Lemma joined_inv p s s' : inv s → act s p → joined p s s' → inv s'.
Proof.
  intros Hi Ha [D F V Bt Bu Nl FB FBp]. pose proof (fr_sig _ _ F) as Hsig.
  assert (∀ q, act s' q ↔ act s q) as Hact by (intros; by apply frame_act).
  split; [done|by eapply frame_sigs_ok, i_sigs|..|by apply (frame_valid s s'), i_v0].
  - intros v q. destruct (i_alloc s Hi v q) as [H1 H2]. pose proof (act_psig _ _ Ha) as Hp. rewrite <- Hsig in Hp.
    destruct (decide (q = p)) as [->|Hne]; [by split|]. split; intros f Hf; rewrite Hsig.
    + rewrite V by auto. by apply H1.
    + rewrite FB by auto. by apply H2.
  - intros v q. unfold disc_at. setoid_rewrite (Hact q). rewrite (frame_utag _ _ _ F), (V v Table q) by auto.
    destruct (decide (q = p)) as [->|Hne].
    + split_and!; [intros [? ?]%Bt; auto|intros [? ?]%Bu; auto|]. intros f Hf Hb. split; [by eapply FBp|done].
    + destruct (i_disc s Hi v q) as (H1 & H2 & H3). rewrite !V by auto. split_and!; [done..|].
      intros f Hf. rewrite FB by auto. by apply H3.
  - intros q. rewrite Hsig, (frame_utag _ _ _ F), V by auto. apply (i_untag s Hi).
  - intros k q Hq. apply (fr_mac _ _ F) in Hq. destruct (i_mac s Hi k q Hq) as (H1 & H2 & H3).
    rewrite Hact, V by auto. split_and!; [done..|].
    destruct (decide (q = p)) as [->|Hne]; [|by rewrite V by auto].
    apply not_true_is_false. intros Hn%Nl. congruence.
Qed.

Lemma wp_activate s p : inv s → act s p → wp (activate E p) (λ _ s', inv s' ∧ frame s s') s.
Proof.
  intros Hi Ha. pose proof (i_dims s Hi) as Hd. unfold activate. apply wp_bind.
  eapply wp_mono; [by apply wp_activate_loop|]. intros [] s1 J1. pose proof J1 as [D1 F1 V1 Bt1 FB1 FBp1].
  pose proof (act_psig _ _ Ha) as Hps. pose proof Hps as Hps1. rewrite <- (fr_sig _ _ F1) in Hps1.
  destruct Hps1 as [ps (pt & Hpt & _)%psig_Some]. apply wp_bind, (wp_port_get _ _ pt); [done|].
  assert (p_vlanuntag pt = utag s p) as -> by (by rewrite <- (utag_pat _ _ _ Hpt), (frame_utag _ _ _ F1)).
  assert (0 ≤ p < numports s1) as Hr by (eapply pat_in_range; done).
  apply wp_whenM; intros Hnv.
  - apply negb_true_iff, Z.eqb_neq in Hnv. destruct (i_untag s Hi p Hps) as [|Ht]; [done|].
    assert (∀ s', frame s s' → valid s' (utag s p) ∧ 0 ≤ p < numports s') as Hok.
    { intros s' F'. rewrite (frame_valid s s'), (fr_np s s') by done. split; [by eapply vb_range|by apply psig_range]. }
    apply wp_bind, wp_vl_set; [done|by apply Hok..|]. intros s2 [D2 F2' V2 B2]. pose proof (transitivity F1 F2') as F2.
    apply wp_bind, wp_vl_clr; [done|by apply Hok..|]. intros s3 [D3 F3' V3 B3]. pose proof (transitivity F2 F3') as F3.
    apply wp_vl_clr; [done|by apply Hok..|]. intros s4 [D4 F4' V4 B4]. pose proof (transitivity F3 F4') as F4.
    assert (∀ v f q, fb s4 v f q = fb s1 v f q) as B14 by (intros; by rewrite B4, B3, B2).
    split; [|done]. apply (joined_inv p s s4 Hi Ha). split; [done|done|..].
    + intros v f q Hc. rewrite V4, V3, V2. rewrite !decide_False by naive_solver. apply V1. naive_solver.
    + intros v. rewrite V4, V3, V2. destruct (decide (v = utag s p ∧ Bctag = Bctag ∧ p = p)) as [|Hne].
      * rewrite decide_False by naive_solver. done.
      * rewrite !decide_False by naive_solver. intros Hb. split; [by apply Bt1|]. naive_solver.
    + intros v. rewrite V4, V3, V2. rewrite (decide_False (P := _ ∧ Bcuntag = Notlearning ∧ _)) by naive_solver.
      rewrite (decide_False (P := _ ∧ Bcuntag = Bctag ∧ _)) by naive_solver.
      destruct (decide (v = utag s p ∧ _)) as [(-> & _)|]; [done|]. rewrite V1 by auto.
      destruct (i_disc s Hi v p) as (_ & H2 & _). by intros (? & _ & ?)%H2.
    + intros v. rewrite V4, V3, V2. destruct (decide _); [done|]. rewrite !decide_False by naive_solver. by rewrite V1 by auto.
    + intros v f q Hf Hq. rewrite B14. by apply FB1.
    + intros v f Hf. rewrite B14. by apply FBp1.
  - apply negb_false_iff, Z.eqb_eq in Hnv. split; [|done]. apply (joined_inv p s s1 Hi Ha). split; try done.
    + intros v f q Hc. apply V1. naive_solver.
    + intros v Hb%Bt1. split; [done|]. rewrite Hnv. intros <-. apply vb_range in Hb as [Hv _]; [|done].
      apply (d_vr s Hd) in Hv. unfold NUMOFVLAN, NOVLAN in Hv. lia.
    + intros v. rewrite V1 by auto.
      destruct (i_disc s Hi v p) as (_ & H2 & _). by intros (? & _ & ?)%H2.
    + intros v. by rewrite V1 by auto.
Qed.

(** ** Endpoints *)

(** Access control as a predicate. *)
Definition ac_allows (pt : port) (user : Z) : bool :=
  (p_user pt =? UNONE) && (p_group pt =? UNONE) || (user =? 0) ||
  negb (p_user pt =? UNONE) && (p_user pt =? user) ||
  negb (p_group pt =? UNONE) && user_belongs_to_group E user (p_group pt).

Lemma wp_checkport_ac s pt user (Q : Z → sw → Prop) :
  (ac_allows pt user = true → Q 0 s) → (ac_allows pt user = false → Q (-1) (set_errno EPERM s)) →
  wp (checkport_ac E pt user) Q s.
Proof.
  unfold ac_allows, checkport_ac. intros H1 H2.
  destruct (_ && (p_group pt =? UNONE)); simpl in *; [apply wp_ret; auto|].
  destruct (user =? 0); simpl in *; [apply wp_ret; auto|].
  destruct (_ && (p_user pt =? user)); simpl in *; [apply wp_ret; auto|].
  destruct (_ && user_belongs_to_group _ _ _); simpl in *; [apply wp_ret; auto|].
  apply wp_bind, wp_modify, wp_ret. auto.
Qed.

(** The port before the endpoint is added: an allowed user takes an inactive
    port. *)
Definition take_port (pt : port) (user : Z) : port :=
  if bool_decide (p_ep pt = []) && ac_allows pt user then upd_curuser user pt else pt.

Lemma wp_take_port s i pt user (Q : () → sw → Prop) :
  inv s → pat s i = Some pt →
  (∀ s', inv s' → numports s' = numports s → pat s' i = Some (take_port pt user) → Q () s') →
  wp (if bool_decide (p_ep pt = []) then
        ac ← checkport_ac E pt user; whenM (ac =? 0) (port_upd i (upd_curuser user))
      else mret ()) Q s.
Proof.
  intros Hi Hp HQ. pose proof (i_dims s Hi) as Hd. pose proof (pat_in_range _ _ _ Hd Hp) as Hr.
  unfold take_port in HQ. destruct (bool_decide (p_ep pt = [])); simpl in HQ; [|apply wp_ret; by apply HQ].
  apply wp_bind, wp_checkport_ac; intros Ha; rewrite Ha in HQ; simpl.
  - apply (wp_port_upd _ _ pt); [done..|]. apply HQ; [|done|].
    + apply (inv_put_port s i pt); try done. exact (inv_port_ok s i pt Hi Hp).
    + rewrite pat_put by (by rewrite (d_len s Hd)). by rewrite decide_True.
  - apply wp_ret, HQ; [|done..]. by apply (inv_ext s).
Qed.

Lemma take_port_sig pt user : take_port (psig_of pt) user = psig_of (take_port pt user).
Proof.
  unfold take_port. replace (ac_allows (psig_of pt) user) with (ac_allows pt user) by (by destruct pt).
  rewrite (bool_decide_ext (p_ep (psig_of pt) = []) (p_ep pt = [])) by (apply fmap_nil_iff).
  by destruct (_ && _), pt.
Qed.

(** [setup_ep] returns, keeps the invariant, and gives an endpoint only on a
    port that the user could take or already uses. *)
Lemma wp_setup_ep s portno ctl data user ms :
  inv s →
  wp (setup_ep E portno ctl data user ms) (λ r s', inv s' ∧ numports s' = numports s ∧
    (∀ e, r = Some e → let i := ep_port e in let ps := default new_port (psig s i) in
      0 ≤ i < numports s ∧ (0 < portno → i = portno) ∧ (portno = 0 → 1 ≤ i ∧ busy s i = false) ∧
      act s' i ∧ p_curuser (take_port ps user) = user) ∧
    ((∀ n, malloc_ok E n = true) → ∀ ps, 0 < portno → psig s portno = Some ps →
       p_curuser (take_port ps user) = user → is_Some r)) s.
Proof.
  intros Hi. apply wp_bind. eapply wp_mono; [by apply wp_alloc_port|]. intros i s1 (I1 & N1 & Hex & Hc).
  wp_if as Hneg.
  { apply wp_bind, wp_modify, wp_ret. split_and!; [by apply (inv_ext s1)|done|done|].
    intros _ ps Hp Hs _. destruct Hc as [->|?]; [|lia]. by destruct (Hex Hp ltac:(by eexists)). }
  destruct Hc as [->|(Hr & Hps & Hz & Hpos)]; [done|]. pose proof Hps as (pt & Hpt & Hsig)%psig_Some.
  apply wp_bind, (wp_port_get _ _ pt); [done|]. apply wp_bind, (wp_take_port s1 i pt user); [done..|].
  intros s2 I2 N2 P2. apply wp_bind, (wp_port_get _ _ _ _ P2). wp_if as Hcu.
  { apply wp_bind, wp_modify, wp_ret. split_and!; [by apply (inv_ext s2)|simpl; lia|done|].
    intros _ ps Hp Hs Hu. rewrite (Hpos Hp), Hs in Hsig. simpl in Hsig. subst ps.
    rewrite take_port_sig in Hu. by apply negb_true_iff, Z.eqb_neq in Hcu. }
  apply negb_false_iff, Z.eqb_eq in Hcu. apply wp_bind, wp_malloc_val. intros ok s3 Q3 P3 Hm.
  pose proof (calm_inv _ _ (quiet_calm _ _ Q3 (i_dims s2 I2)) I2) as I3. pose proof (q_np _ _ Q3) as N3.
  destruct ok; simpl.
  2: { apply wp_bind, wp_modify, wp_ret. split_and!; [by apply (inv_ext s3)|simpl; lia|done|].
       intros Hok. by rewrite Hok in Hm. }
  assert (pat s3 i = Some (take_port pt user)) as Hp3 by (unfold pat; by rewrite P3).
  apply wp_bind, wp_get, wp_bind, (wp_port_upd _ _ (take_port pt user)); [apply I3|done|].
  set (ep := new_endpoint i ctl data (stdqlen s3)). set (s4 := put_port s3 i _).
  assert (inv s4) as I4.
  { apply (inv_put_port s3 i (take_port pt user)); try done. split; [by eexists|].
    constructor; [done|]. by apply (inv_port_ok s3 i _ I3 Hp3). }
  assert (act s4 i) as A4.
  { apply act_put; [apply I3|lia|]. by rewrite decide_True. }
  assert (∀ s5, inv s5 → frame s4 s5 → inv s5 ∧ numports s5 = numports s ∧ (∀ e, Some ep = Some e →
    let i := ep_port e in let ps := default new_port (psig s i) in
    0 ≤ i < numports s ∧ (0 < portno → i = portno) ∧ (portno = 0 → 1 ≤ i ∧ busy s i = false) ∧
    act s5 i ∧ p_curuser (take_port ps user) = user) ∧
    ((∀ n, malloc_ok E n = true) → ∀ ps, 0 < portno → psig s portno = Some ps →
       p_curuser (take_port ps user) = user → is_Some (Some ep))) as Hfin.
  { intros s5 I5 F5. split_and!; [done|rewrite (fr_np _ _ F5); simpl; lia| |done]. intros e [= <-]. simpl.
    split_and!; [lia|lia|done|done|by apply (frame_act s4 s5)|]. rewrite Hsig, take_port_sig. done. }
  apply wp_bind. apply wp_whenM; intros _.
  - eapply wp_mono; [by apply wp_activate|]. intros [] s5 [I5 F5]. apply wp_ret. by apply Hfin.
  - apply wp_ret. by apply Hfin.
Qed.

(** ** Inactivation *)

(** Port [p] has no endpoint left; it has left the tables of the VLANs of
    [l]. *)
Record leaving (p : Z) (l : list Z) s s' : Prop := {
  l_dims : dims s';
  l_frame : frame s s';
  l_alloc : ∀ v q, alloc_at s' v q;
  l_disc : ∀ v q, q ≠ p → disc_at s' v q;
  l_table : ∀ v q, vb s' v Table q = vb s v Table q;
  l_bcuntag : ∀ v, vb s' v Bcuntag p = true → vb s v Bcuntag p = true;
  l_bctag : ∀ v, v ∈ l → vb s' v Bctag p = false;
  l_fb : ∀ v f, v ∈ l → f = Untag ∨ f = Tagged ∨ f = Backup → fb s' v f p = false;
  l_mac : mac_ok s'
}.

Lemma leaving_step p l s s1 s2 s3 v :
  leaving p l s s1 → vupd s1 v Bctag p false s2 → delport_post v p s2 s3 → leaving p (l ++ [v]) s s3.
Proof.
  intros [D1 F1 A1 Di1 T1 U1 B1 FB1 M1] [D2 F2 V2 B2] [A3 D3 F3 Di3 V3 FB3 P3 M3].
  assert (∀ q, act s3 q ↔ act s1 q) as Hact.
  { intros q. rewrite (frame_act s2 s3), (frame_act s1 s2); done. }
  assert (∀ v' q, vb s3 v' Table q = vb s1 v' Table q) as HT.
  { intros v' q. rewrite V3, V2, decide_False by naive_solver. done. }
  assert (∀ v' q, alloc_at s2 v' q) as A2.
  { intros v' q. destruct (A1 v' q) as [H1 H2]. split; intros f Hf; rewrite (fr_sig _ _ F2), ?V2, ?B2.
    - destruct (decide _); [done|]. by apply H1.
    - by apply H2. }
  assert (∀ v' q, q ≠ p → disc_at s2 v' q) as Di2.
  { intros v' q Hq. destruct (Di1 v' q Hq) as (H1 & H2 & H3). unfold disc_at.
    setoid_rewrite (frame_act s1 s2 q F2). rewrite (frame_utag _ _ _ F2), !V2, !decide_False by naive_solver.
    split_and!; [done..|]. intros f Hf. rewrite B2. by apply H3. }
  split; [done|exact (transitivity F1 (transitivity F2 F3))|..].
  - intros v' q. destruct (decide (v' = v)) as [->|Hne]; [by apply A3|].
    destruct (A2 v' q) as [H1 H2]. split; intros f Hf; rewrite (fr_sig _ _ F3), ?V3, ?FB3 by auto; [by apply H1|by apply H2].
  - intros v' q Hq. destruct (decide (v' = v)) as [->|Hne]; [by apply Di3, Di2|].
    destruct (Di2 v' q Hq) as (H1 & H2 & H3). unfold disc_at. setoid_rewrite (frame_act s2 s3 q F3).
    rewrite (frame_utag _ _ _ F3), !V3 by auto. split_and!; [done..|]. intros f Hf. rewrite FB3 by auto. by apply H3.
  - intros v' q. by rewrite HT, T1.
  - intros v'. rewrite V3, V2, decide_False by naive_solver. apply U1.
  - intros v' Hin. rewrite V3, V2 by auto. destruct (decide _) as [|Hn]; [done|]. apply B1. set_solver.
  - intros v' f Hin Hf. destruct (decide (v' = v)) as [->|Hne]; [by apply P3|].
    rewrite FB3, B2 by done. apply FB1; [set_solver|done].
  - intros k q Hq. destruct (M1 k q) as (H1 & H2 & H3); [by apply (fr_mac _ _ F2), (fr_mac _ _ F3)|].
    pose proof (M3 k q Hq) as Hkv. rewrite HT, Hact. split_and!; [done..|].
    by rewrite V3, V2, decide_False by naive_solver.
Qed.

Lemma leaving_good p l s s' v : leaving p l s s' → sigs_ok s → valid s v → good s' v.
Proof.
  intros [] Hs Hv. split_and!; [done|by eapply frame_sigs_ok|by apply (frame_valid s s')|done].
Qed.

Lemma wp_leave_loop s p :
  leaving p [] s s → sigs_ok s → is_Some (psig s p) →
  wp (FORALL_VLANS (λ i, vl_clr i Bctag p ;; fstdelport E i p))
    (λ _ s', leaving p (ba_elems (validvlan s) (WORDSIZEROUND NUMOFVLAN)) s s') s.
Proof.
  intros L0 Hs Hp. apply (wp_FORALL_VLANS s _ (λ l s', leaving p l s s')).
  - apply L0.
  - intros l s' []. apply l_frame0.
  - done.
  - intros l1 v l2 s1 _ Hv _ L1. pose proof (leaving_good _ _ _ _ _ L1 Hs Hv) as G1. pose proof G1 as (D1 & S1 & V1 & A1).
    assert (is_Some (psig s1 p)) as P1 by (by rewrite (fr_sig s s1) by apply L1).
    apply wp_bind, wp_vl_clr; [done|done|by apply psig_range|]. intros s2 U2. pose proof (vu_frame _ _ _ _ _ _ U2) as F2.
    assert (is_Some (psig s2 p)) as P2 by (by rewrite (fr_sig s1 s2)).
    assert (good s2 v) as G2.
    { split_and!; [apply U2|by eapply frame_sigs_ok|by apply (frame_valid s1 s2)|].
      intros q. destruct (A1 q) as [H1 H2]. split; intros f Hf; rewrite (fr_sig _ _ F2), ?(vu_vb _ _ _ _ _ _ U2), ?(vu_fb _ _ _ _ _ _ U2).
      - destruct (decide _); [done|]. by apply H1.
      - by apply H2. }
    eapply wp_mono; [by apply wp_fstdelport|]. intros [] s3 P3. by eapply leaving_step.
Qed.

(** A port out of all the active tables. *)
Lemma left_inv p s s' :
  dims s → sigs_ok s → untag_ok s → valid s 0 →
  leaving p (ba_elems (validvlan s) (WORDSIZEROUND NUMOFVLAN)) s s' →
  (∀ v, vb s' v Bcuntag p = false) → inv s'.
Proof.
  intros Hd Hs Hu H0 [D F A Di Tb U B FB M] Hbu.
  assert (∀ v f q, vb s' v f q = true → v ∈ ba_elems (validvlan s) (WORDSIZEROUND NUMOFVLAN)) as Hin.
  { intros v f q Hb. apply elem_of_vlans; [done|]. apply (frame_valid s s' v F). by eapply vb_range. }
  assert (∀ v f q, fb s' v f q = true → v ∈ ba_elems (validvlan s) (WORDSIZEROUND NUMOFVLAN)) as Hinf.
  { intros v f q Hb. apply elem_of_vlans; [done|]. apply (frame_valid s s' v F). by eapply fb_range. }
  split; [done|by eapply frame_sigs_ok|done|..|done|by apply (frame_valid s s')].
  - intros v q. destruct (decide (q = p)) as [->|]; [|by apply Di]. split_and!.
    + intros Hb. by rewrite B in Hb by (by eapply Hin).
    + by rewrite Hbu.
    + intros f Hf Hb. by rewrite FB in Hb by (done || by eapply Hinf).
  - intros q. rewrite (fr_sig _ _ F), (frame_utag _ _ _ F), Tb. apply Hu.
Qed.

Lemma leaving_clr p l s s1 s2 v :
  leaving p l s s1 → vupd s1 v Bcuntag p false s2 → leaving p l s s2.
Proof.
  intros [D1 F1 A1 Di1 T1 U1 B1 FB1 M1] [D2 F2 V2 B2].
  assert (∀ v' f q, f ≠ Bcuntag ∨ q ≠ p → vb s2 v' f q = vb s1 v' f q) as Hne.
  { intros v' f q Hc. rewrite V2, decide_False by naive_solver. done. }
  split; [done|by etrans|..].
  - intros v' q. destruct (A1 v' q) as [H1 H2]. split; intros f Hf; rewrite (fr_sig _ _ F2), ?V2, ?B2.
    + destruct (decide _); [done|]. by apply H1.
    + by apply H2.
  - intros v' q Hq. destruct (Di1 v' q Hq) as (H1 & H2 & H3). unfold disc_at.
    setoid_rewrite (frame_act s1 s2 q F2). rewrite (frame_utag _ _ _ F2), !Hne by auto.
    split_and!; [done..|]. intros f Hf. rewrite B2. by apply H3.
  - intros v' q. rewrite Hne by auto. apply T1.
  - intros v'. rewrite V2. destruct (decide _); [done|]. apply U1.
  - intros v' Hin. rewrite Hne by auto. by apply B1.
  - intros v' f Hin Hf. rewrite B2. by apply FB1.
  - intros k q Hq. destruct (M1 k q) as (H1 & H2 & H3); [by apply (fr_mac _ _ F2)|].
    rewrite !Hne, (frame_act s1 s2) by auto. auto.
Qed.

Lemma wp_hash_delete_port s p (Q : () → sw → Prop) :
  mt_wf (mact s) →
  (∀ t, mt_wf t → (∀ k q, mt_ports t k = Some q ↔ mt_ports (mact s) k = Some q ∧ q ≠ p) → Q () (set_mact t s)) →
  wp (hash_delete_port_m p) Q s.
Proof.
  intros Hwf HQ. destruct (mt_delete_port_ok (mact s) p Hwf) as (t & Ht & Hwf' & Hm).
  apply wp_bind, wp_get, wp_bind. eapply wp_deref; [exact Ht|]. by apply wp_modify, HQ.
Qed.

(** The state between the removal of the last endpoint and the loop over the
    VLANs. *)
Lemma leaving_start s p pt t :
  inv s → 0 ≤ p < numports s → p_ep pt = [] → is_Some (psig s p) → p_vlanuntag pt = utag s p →
  mt_wf t → (∀ k q, mt_ports t k = Some q ↔ mt_ports (mact s) k = Some q ∧ q ≠ p) →
  let s1 := put_port (set_mact t s) p (Some pt) in
  leaving p [] s1 s1 ∧ sigs_ok s1 ∧ untag_ok s1 ∧ valid s1 0 ∧ (∀ v, vb s1 v Bcuntag p = true → utag s1 p = v).
Proof.
  intros Hi Hr Hep Hps Hu Ht Hm s1. pose proof (i_dims s Hi) as Hd.
  assert (dims (set_mact t s)) as Hd' by (by destruct Hd).
  assert (dims s1) as D1 by (by apply dims_put_port).
  assert (∀ q, psig s1 q = if decide (q = p) then Some (psig_of pt) else psig s q) as Hsig.
  { intros q. unfold s1. by rewrite psig_put. }
  assert (∀ q, utag s1 q = utag s q) as Hut.
  { intros q. unfold s1. rewrite utag_put by done. by case_decide; subst. }
  assert (∀ q, q ≠ p → act s1 q ↔ act s q) as Hact by (intros q Hq; unfold act; by rewrite Hsig, decide_False).
  assert (∀ q, is_Some (psig s1 q) ↔ is_Some (psig s q)) as Hsome.
  { intros q. rewrite Hsig. case_decide; [subst; naive_solver|done]. }
  split_and!.
  - split; [done|done|..|done|done|set_solver|set_solver|].
    + intros v q. destruct (i_alloc s Hi v q) as [H1 H2]. split; intros f Hf; rewrite Hsome; [by apply H1|by apply H2].
    + intros v q Hq. destruct (i_disc s Hi v q) as (H1 & H2 & H3). unfold disc_at.
      setoid_rewrite (Hact q Hq). by rewrite Hut.
    + intros k q Hq. apply Hm in Hq as [Hq Hne]. rewrite Hact by done. by apply (i_mac s Hi).
  - intros q ps. rewrite Hsig. case_decide; [|apply (i_sigs s Hi)]. intros [= <-]. simpl. rewrite Hep. by split; [|constructor].
  - intros q. rewrite Hsome, Hut. apply (i_untag s Hi).
  - apply Hi.
  - intros v Hb. rewrite Hut. by destruct (i_disc s Hi v p) as (_ & H2 & _); destruct (H2 Hb) as (_ & _ & ?).
Qed.

Lemma wp_inactivate s p pt :
  inv s → is_Some (psig s p) → p_ep pt = [] → p_vlanuntag pt = utag s p →
  wp (inactivate E p) (λ _ s', inv s') (put_port s p (Some pt)).
Proof.
  intros Hi Hps Hep Hu. pose proof (i_dims s Hi) as Hd. pose proof (psig_range _ _ Hd Hps) as Hr.
  pose proof (d_len s Hd) as Hl.
  apply wp_bind, wp_hash_delete_port; [by apply Hd|]. intros t Ht Hm.
  change (set_mact t (put_port s p (Some pt))) with (put_port (set_mact t s) p (Some pt)).
  assert (dims (set_mact t s)) as Hd' by (by destruct Hd).
  apply wp_bind, (wp_port_upd _ _ pt); [by apply dims_put_port| |].
  { rewrite pat_put by (simpl; lia). by rewrite decide_True. }
  assert (∀ o o', put_port (put_port (set_mact t s) p o) p o' = put_port (set_mact t s) p o') as ->.
  { intros o o'. unfold put_port, set_portv. simpl. by rewrite list_insert_insert_eq. }
  set (pt' := upd_curuser UNONE (upd_ms false None pt)).
  destruct (leaving_start s p pt' t) as (L1 & S1 & U1 & V1 & B1); try done. cbv zeta in *.
  set (s1 := put_port (set_mact t s) p (Some pt')) in *.
  assert (psig s1 p = Some (psig_of pt')) as P1 by (unfold s1; rewrite psig_put by done; by rewrite decide_True).
  apply wp_bind. eapply wp_mono; [apply wp_leave_loop; [done..|by rewrite P1]|]. intros [] s2 L2.
  pose proof (l_frame _ _ _ _ L2) as F2. pose proof (l_dims _ _ _ _ L2) as D2. pose proof (l_dims _ _ _ _ L1) as D1.
  assert (psig s2 p = Some (psig_of pt')) as P2 by (by rewrite (fr_sig _ _ F2)).
  pose proof P2 as (pt2 & Hp2 & Hs2)%psig_Some. apply wp_bind, (wp_port_get _ _ pt2); [done|].
  assert (p_vlanuntag pt2 = utag s1 p) as -> by (by rewrite <- (utag_pat _ _ _ Hp2), (frame_utag _ _ _ F2)).
  apply wp_whenM; intros Hc.
  - apply Z.ltb_lt in Hc. destruct (U1 p) as [Hn|Ht1]; [by rewrite P1|rewrite Hn in Hc; by apply Z.lt_irrefl in Hc|].
    apply wp_vl_clr; [done| |by eapply pat_in_range|].
    { apply (frame_valid s1 s2); [done|]. by eapply vb_range. }
    intros s3 U3. apply (left_inv p s1 s3); [done..|by eapply leaving_clr|].
    intros v. rewrite (vu_vb _ _ _ _ _ _ U3). destruct (decide _) as [|Hn]; [done|].
    apply not_true_is_false. intros Hb%(l_bcuntag _ _ _ _ L2). apply B1 in Hb. naive_solver.
  - apply (left_inv p s1 s2); [done..|]. intros v. apply not_true_is_false.
    intros Hb%(l_bcuntag _ _ _ _ L2). apply B1 in Hb as Hv. apply vb_range in Hb as [Hb _]; [|done].
    apply (d_vr _ D1) in Hb. unfold NOVLAN, NUMOFVLAN in *. lia.
Qed.

(** The endpoint list after [rec_close_ep]. *)
Lemma wp_rec_close_ep l : ∀ s p pt ctl,
  pat s p = Some pt → is_Some (p_ms pt) → Forall (λ e, ep_port e = p) l →
  wp (rec_close_ep l ctl) (λ r s', quiet s s' ∧ portv s' = portv s ∧ Forall (λ e, ep_port e = p) r.1) s.
Proof.
  induction l as [|e l IH]; intros s p pt ctl Hp [ms Hms] Hl; [by apply wp_ret|].
  apply Forall_cons in Hl as [He Hl]. cbn [rec_close_ep]. wp_if as Hc.
  - rewrite He. apply wp_bind, (wp_port_get _ _ pt); [done|]. apply wp_bind, (wp_deref _ ms); [done|].
    apply wp_bind, wp_whenM; intros _; apply wp_ret; (split_and!; [|done|done]).
    + apply quiet_add_event.
    + done.
  - apply wp_bind. eapply wp_mono; [by eapply IH|]. intros r s' (Q & P & F). apply wp_ret.
    split_and!; [done..|]. by constructor.
Qed.

Lemma keeps_close_ep_port_fd p ctl : keeps (close_ep_port_fd E p ctl).
Proof.
  intros s Hi. pose proof (i_dims s Hi) as Hd. apply wp_bind, wp_gets. wp_if as Hr; [done|]. apply out_of_range in Hr.
  apply port_ptr_keeps; [done..|]. intros pt Hp [Hms Hall].
  apply wp_bind. eapply (wp_mono _ (λ r s', quiet s s' ∧ portv s' = portv s ∧ Forall (λ e, ep_port e = p) r.1 ∧
    (r.1 ≠ [] → p_ep pt ≠ []))).
  { destruct (p_ep pt) as [|e l] eqn:Ep; [by apply wp_ret|].
    eapply wp_mono; [eapply wp_rec_close_ep; [done|by apply Hms|done]|]. intros r s' (? & ? & ?). done. }
  intros r s1 (Q1 & P1 & F1 & N1). pose proof (calm_inv _ _ (quiet_calm _ _ Q1 Hd) Hi) as I1.
  assert (pat s1 p = Some pt) as Hp1 by (unfold pat; by rewrite P1).
  apply wp_bind. destruct (decide (r.1 = [])) as [Hn|Hn].
  - apply wp_portv_store; [apply I1|by rewrite (q_np _ _ Q1)|]. rewrite bool_decide_eq_true_2 by done. simpl.
    apply wp_bind. eapply wp_mono; [apply (wp_inactivate s1 p); [done|unfold psig; by rewrite Hp1|done|]|].
    + simpl. symmetry. by apply utag_pat.
    + intros [] s2 I2. by apply wp_ret.
  - apply (wp_port_put_inv s1 p pt); [done|done| |done|done|].
    + split; [|done]. intros _. by apply Hms, N1.
    + intros I2. rewrite bool_decide_eq_false_2 by done. by apply wp_bind, wp_ret, wp_ret.
Qed.

Lemma keeps_epclose arg : keeps (epclose E arg).
Proof. unfold epclose. destruct (sscanf_ii arg) as [[p id]|]; [apply keeps_close_ep_port_fd|apply keeps_ret]. Qed.

End portlife.
