(* ===== verification/VlanSafe.v ===== *)
(** * VlanSafe: the VLAN commands keep the invariant

    Moving a port between VLANs ([port/setvlan], [vlan/addport],
    [vlan/delport]), creating and removing VLANs, printing them, growing the
    number of ports, and the initial state. *)
From Stdlib Require Import Lia.
From stdpp Require Import base numbers list gmap strings.
From S2P Require Import Prelude Scan BitArray Hash Qtimer Switch PortSend Fstp Port SwitchInv SpanInv SwitchSafe PortSafe PortLife.

Section vlansafe.
Context {T : Type} `{!MacTable T} (E : env).
Abbreviation sw := (switch T).
Implicit Type s : sw.

(** ** The invariant except for one port *)

Record base (p : Z) s : Prop := {
  b_dims : dims s;
  b_sigs : sigs_ok s;
  b_alloc : ∀ v q, alloc_at s v q;
  b_disc : ∀ v q, q ≠ p → disc_at s v q;
  b_untag : ∀ q, q ≠ p → is_Some (psig s q) → utag s q = NOVLAN ∨ vb s (utag s q) Table q = true;
  b_mac : ∀ k q, q ≠ p → mt_ports (mact s) k = Some q →
    vb s (EMAC2VLAN k) Table q = true ∧ act s q ∧ vb s (EMAC2VLAN k) Notlearning q = false;
  b_v0 : valid s 0
}.

Lemma inv_base p s : inv s → base p s.
Proof. intros []. split; try done; auto. Qed.

(** The remaining obligations are those of the port. *)
Lemma base_inv p s :
  base p s → (∀ v, disc_at s v p) → (is_Some (psig s p) → utag s p = NOVLAN ∨ vb s (utag s p) Table p = true) →
  (∀ k, mt_ports (mact s) k = Some p →
    vb s (EMAC2VLAN k) Table p = true ∧ act s p ∧ vb s (EMAC2VLAN k) Notlearning p = false) → inv s.
Proof.
  intros [] Hd Hu Hm. split; try done.
  - intros v q. destruct (decide (q = p)) as [->|]; auto.
  - intros q Hq. destruct (decide (q = p)) as [->|]; auto.
  - intros k q Hq. destruct (decide (q = p)) as [->|]; auto.
Qed.

(** Steps that only concern the tables of port [p] keep [base]. *)
Record pmove (p : Z) s s' : Prop := {
  pm_dims : dims s';
  pm_frame : frame s s';
  pm_alloc : (∀ v q, alloc_at s v q) → ∀ v q, alloc_at s' v q;
  pm_disc : ∀ v q, q ≠ p → disc_at s v q → disc_at s' v q;
  pm_table : ∀ v q, q ≠ p → vb s' v Table q = vb s v Table q;
  pm_mac : ∀ k q, q ≠ p → mt_ports (mact s') k = Some q →
    vb s' (EMAC2VLAN k) Notlearning q = true → vb s (EMAC2VLAN k) Notlearning q = true
}.

Lemma pmove_refl p s : dims s → pmove p s s.
Proof. by split. Qed.
#[global] Instance pmove_trans p : Transitive (pmove p).
Proof.
  intros s1 s2 s3 [] []. split; [done|by etrans|eauto|eauto| |].
  - intros v q Hq. by rewrite pm_table1, pm_table0.
  - intros k q Hq Hk Hn. apply (pm_mac0 k q); [done|by eapply fr_mac|]. by apply pm_mac1.
Qed.

Lemma pmove_base p s s' : pmove p s s' → base p s → base p s'.
Proof.
  intros [D F A Di Tb M] []. split; [done|by eapply frame_sigs_ok|by apply A|auto|..|by apply (frame_valid s s')].
  - intros q Hq. rewrite (fr_sig _ _ F), (frame_utag _ _ _ F), Tb by done. auto.
  - intros k q Hq Hk. destruct (b_mac0 k q Hq) as (H1 & H2 & H3); [by eapply fr_mac|].
    rewrite Tb, (frame_act s s') by done. split_and!; [done..|]. apply not_true_is_false. intros Hn%M; [congruence|done..].
Qed.

Lemma pmove_vupd p s v f b s' : is_Some (psig s p) → vupd s v f p b s' → pmove p s s'.
Proof.
  intros Hp [D F V B]. split; [done|done|..].
  - intros Ha v' q. destruct (Ha v' q) as [H1 H2]. split; intros g Hg; rewrite (fr_sig _ _ F), ?V, ?B.
    + destruct (decide _) as [(_ & _ & ->)|]; [done|]. by apply H1.
    + by apply H2.
  - intros v' q Hq (H1 & H2 & H3). unfold disc_at. setoid_rewrite (frame_act s s' q F).
    rewrite (frame_utag _ _ _ F), !V, !decide_False by naive_solver. split_and!; [done..|].
    intros g Hg. rewrite B. by apply H3.
  - intros v' q Hq. rewrite V, decide_False by naive_solver. done.
  - intros k q Hq _. rewrite V, decide_False by naive_solver. done.
Qed.

Lemma pmove_addport p s v tagged s' : is_Some (psig s p) → addport_post v p tagged s s' → pmove p s s'.
Proof.
  intros Hp [D F V B M]. split; [done|done|..].
  - intros Ha v' q. destruct (Ha v' q) as [H1 H2]. split; intros g Hg; rewrite (fr_sig _ _ F), ?V.
    + by apply H1.
    + rewrite B by done. destruct (decide _) as [(_ & ->)|]; [done|]. by apply H2.
  - intros v' q Hq (H1 & H2 & H3). unfold disc_at. setoid_rewrite (frame_act s s' q F).
    rewrite (frame_utag _ _ _ F), !V. split_and!; [done..|].
    intros g Hg. rewrite B, decide_False by naive_solver. by apply H3.
  - intros v' q Hq. by rewrite V.
  - intros k q Hq _. by rewrite V.
Qed.

Lemma pmove_delport p s v s' : delport_post v p s s' → pmove p s s'.
Proof.
  intros [A D F Di V FB P M]. split; [done|done|..].
  - intros Ha v' q. destruct (decide (v' = v)) as [->|Hne]; [by apply A|].
    destruct (Ha v' q) as [H1 H2]. split; intros g Hg; rewrite (fr_sig _ _ F), ?V, ?FB by auto; [by apply H1|by apply H2].
  - intros v' q Hq. destruct (decide (v' = v)) as [->|Hne]; [by apply Di|].
    intros (H1 & H2 & H3). unfold disc_at. setoid_rewrite (frame_act s s' q F).
    rewrite (frame_utag _ _ _ F), !V by auto. split_and!; [done..|]. intros g Hg. rewrite FB by auto. by apply H3.
  - intros v' q Hq. apply V. auto.
  - intros k q Hq Hk. pose proof (M k q Hk). by rewrite V by auto.
Qed.

Lemma base_good p s v : base p s → valid s v → good s v.
Proof. intros [] Hv. by split_and!. Qed.

(** Rules for the four operations on the tables of [p] that record the move and
    the bits of [p]. *)
Section rules.
Context (p : Z).

Lemma wp_bit_p (b : bool) s v f (Q : () → sw → Prop) :
  base p s → is_Some (psig s p) → valid s v →
  (∀ s', base p s' → pmove p s s' → (∀ v' f', vb s' v' f' p = if decide (v' = v ∧ f' = f) then b else vb s v' f' p) →
     (∀ v' f', fb s' v' f' p = fb s v' f' p) → Q () s') →
  wp (if b then vl_set v f p else vl_clr v f p) Q s.
Proof.
  intros Hb Hp Hv HQ. pose proof (b_dims _ _ Hb) as Hd. pose proof (psig_range _ _ Hd Hp) as Hr.
  destruct b; [apply wp_vl_set | apply wp_vl_clr]; try done; intros s' U; pose proof (pmove_vupd p s v f _ s' Hp U) as X;
    (apply HQ; [by eapply pmove_base|done| |by intros; apply U]); intros v' f'; rewrite (vu_vb _ _ _ _ _ _ U);
    apply decide_ext; tauto.
Qed.

Lemma wp_addport_p s v tagged (Q : () → sw → Prop) :
  base p s → is_Some (psig s p) → valid s v →
  (∀ s', base p s' → pmove p s s' → (∀ v' f', vb s' v' f' p = vb s v' f' p) →
     (∀ v' f', f' = Untag ∨ f' = Tagged ∨ f' = Backup → v' ≠ v → fb s' v' f' p = fb s v' f' p) →
     mac_clear v s' → Q () s') →
  wp (fstaddport E v p tagged) Q s.
Proof.
  intros Hb Hp Hv HQ. eapply wp_mono; [apply wp_fstaddport; [by eapply base_good|done]|]. intros [] s' P.
  pose proof (pmove_addport p s v tagged s' Hp P) as X. destruct P as [D F V B M].
  apply HQ; [by eapply pmove_base|done|by intros|intros v' f' Hf Hne; rewrite B, decide_False by naive_solver; done|done].
Qed.

Lemma wp_delport_p s v (Q : () → sw → Prop) :
  base p s → is_Some (psig s p) → valid s v →
  (∀ s', base p s' → pmove p s s' → (∀ v' f', vb s' v' f' p = vb s v' f' p) →
     (∀ v' f', f' = Untag ∨ f' = Tagged ∨ f' = Backup → fb s' v' f' p = if decide (v' = v) then false else fb s v' f' p) →
     mac_clear v s' → Q () s') →
  wp (fstdelport E v p) Q s.
Proof.
  intros Hb Hp Hv HQ. eapply wp_mono; [apply wp_fstdelport; [by eapply base_good|done]|]. intros [] s' P.
  pose proof (pmove_delport p s v s' P) as X. destruct P as [A D F Di V FB P M].
  apply HQ; [by eapply pmove_base|done|by intros; apply V; auto| |done].
  intros v' f' Hf. case_decide; [subst; by apply P | by apply FB].
Qed.

Lemma pmove_psig s s' : pmove p s s' → is_Some (psig s p) → is_Some (psig s' p).
Proof. intros [_ F _ _ _ _]. by rewrite (fr_sig _ _ F). Qed.
Lemma pmove_valid s s' v : pmove p s s' → valid s v → valid s' v.
Proof. intros [_ F _ _ _ _]. by apply (frame_valid s s'). Qed.

End rules.

(** ** Adding and removing a tagged port *)

Lemma cmd_range v p n : (v <? 0) || (NUMOFVLAN - 1 <=? v) || (p <? 0) || (n <=? p) = false → 0 ≤ v < 4094 ∧ 0 ≤ p < n.
Proof. unfold NUMOFVLAN. lia. Qed.

Lemma valid_intro s v : 0 ≤ v < 4096 → bmem (validvlan s) v = true → valid s v.
Proof. intros Hv Hb. split; [lia|done]. Qed.

(** The state after [vlan/addport]: the port is a member; if it is active and
    untagged elsewhere it also forwards tagged frames. *)
Lemma addport_inv s s' p v :
  inv s → is_Some (psig s p) → base p s' → pmove p s s' →
  (∀ v' f', f' ≠ Bctag → vb s' v' f' p = if decide (v' = v ∧ f' = Table) then true else vb s v' f' p) →
  (∀ v', v' ≠ v → vb s' v' Bctag p = vb s v' Bctag p) →
  (vb s' v Bctag p = true → vb s v Bctag p = true ∨ act s p ∧ utag s p ≠ v) →
  (∀ v' f', f' = Untag ∨ f' = Tagged ∨ f' = Backup → fb s' v' f' p = true → fb s v' f' p = true ∨ v' = v ∧ act s p) →
  inv s'.
Proof.
  intros Hi Hp Hb X Hv Hbo Hbt Hf. pose proof (pm_frame _ _ _ X) as F.
  assert (∀ v', vb s v' Table p = true → vb s' v' Table p = true) as Ht.
  { intros v' H. rewrite Hv, H by done. by destruct (decide _). }
  apply (base_inv p); [done|..].
  - intros v'. destruct (i_disc s Hi v' p) as (H1 & H2 & H3). unfold disc_at.
    setoid_rewrite (frame_act s s' p F). rewrite (frame_utag _ _ _ F). split_and!.
    + destruct (decide (v' = v)) as [->|Hne].
      * intros Hb'. rewrite Hv, decide_True by done. destruct (Hbt Hb') as [Hb0|[? ?]]; [|done]. destruct (H1 Hb0) as (_ & ? & ?). done.
      * rewrite Hbo by done. intros (? & ? & ?)%H1. auto.
    + rewrite Hv, decide_False by naive_solver. intros (? & ? & ?)%H2. auto.
    + intros f' Hf' Hb'. destruct (Hf v' f' Hf' Hb') as [Hb0|[-> ?]].
      * destruct (H3 f' Hf' Hb0). auto.
      * rewrite Hv, decide_True by done. done.
  - intros _. rewrite (frame_utag _ _ _ F). destruct (i_untag s Hi p Hp); auto.
  - intros k Hk. destruct (i_mac s Hi k p) as (H1 & H2 & H3); [by apply (fr_mac _ _ F)|].
    rewrite (frame_act s s' p F), (Hv _ Notlearning), decide_False by naive_solver. auto.
Qed.

Lemma keeps_vlanaddport arg : keeps (vlanaddport E arg).
Proof.
  intros s Hi. unfold vlanaddport. destruct (sscanf_ii arg) as [[v p]|]; [|done].
  apply wp_bind, wp_gets. wp_if as Hbad; [done|]. apply cmd_range in Hbad as [Hv Hr].
  apply wp_bind, wp_valid_vlan; [apply Hi|lia|]. destruct (bmem _ v) eqn:Ev; simpl; [|done].
  pose proof (valid_intro s v ltac:(lia) Ev) as Hval.
  apply port_ptr_keeps; [done..|]. intros pt Hpt Hok. pose proof (inv_base p s Hi) as B0.
  assert (is_Some (psig s p)) as P0 by (unfold psig; by rewrite Hpt).
  apply wp_bind, wp_whenM; intros Hc.
  - apply andb_true_iff in Hc as [Hact Hun]. apply negb_true_iff in Hact. apply bool_decide_eq_false in Hact.
    apply negb_true_iff, Z.eqb_neq in Hun. rewrite <- (utag_pat s p pt Hpt) in Hun.
    apply (not_act_ep s p pt Hpt) in Hact.
    apply wp_bind, (wp_bit_p p true); [done..|]. intros s1 B1 X1 V1 F1.
    apply (wp_addport_p p); [done|by eapply pmove_psig|by eapply pmove_valid|]. intros s2 B2 X2 V2 F2 _.
    pose proof (transitivity X1 X2) as X02.
    apply wp_bind, (wp_bit_p p true); [done|by eapply pmove_psig|by eapply pmove_valid|]. intros s3 B3 X3 V3 F3. apply wp_ret.
    apply (addport_inv s s3 p v); [done|done|done|exact (transitivity X02 X3)|..].
    + intros v' f' Hf. rewrite V3, V2, V1, (decide_False (P := v' = v ∧ f' = Bctag)) by tauto. done.
    + intros v' Hne. rewrite V3, V2, V1, !decide_False by tauto. done.
    + auto.
    + intros v' f' Hf. rewrite F3. destruct (decide (v' = v)); [auto|]. rewrite F2, F1 by done. auto.
  - apply wp_bind, (wp_bit_p p true); [done..|]. intros s1 B1 X1 V1 F1. apply wp_ret.
    apply (addport_inv s s1 p v); [done|done|done|done|..].
    + intros v' f' Hf. by rewrite V1.
    + intros v' Hne. rewrite V1, decide_False by naive_solver. done.
    + rewrite V1, decide_False by naive_solver. auto.
    + intros v' f' Hf. rewrite F1. auto.
Qed.

Lemma base_port_gone p s s' :
  inv s → is_Some (psig s p) → base p s' → frame s s' → (∀ k, mt_ports (mact s') k ≠ Some p) →
  (∀ v, disc_at s' v p) → (∀ v, vb s v Table p = true → v = utag s p → vb s' v Table p = true) → inv s'.
Proof.
  intros Hi Hp Hb F Hm Hd Ht. apply (base_inv p); [done|done| |].
  - intros _. rewrite (frame_utag _ _ _ F). destruct (i_untag s Hi p Hp); auto.
  - intros k Hk. by destruct (Hm k).
Qed.

Lemma calm_pmove p s s' : calm s s' → pmove p s s'.
Proof.
  intros C. pose proof C as [D F V B]. split; [done|done|..].
  - intros Ha v q. by eapply calm_alloc.
  - intros v q _. by apply calm_disc.
  - intros v q _. apply V.
  - intros k q _ _. by rewrite V.
Qed.

(** Forgetting the addresses learned on [p]. *)
Lemma wp_hash_delete_p p s (Q : () → sw → Prop) :
  base p s →
  (∀ s', base p s' → calm s s' → (∀ k, mt_ports (mact s') k ≠ Some p) → Q () s') → wp (hash_delete_port_m p) Q s.
Proof.
  intros Hb HQ. pose proof (b_dims _ _ Hb) as Hd. apply wp_hash_delete_port; [apply Hd|]. intros t Ht Hm.
  assert (calm s (set_mact t s)) as C.
  { split; [by destruct Hd| |done|done]. split; try done. intros k q Hk. by apply Hm in Hk as [? _]. }
  apply HQ; [by eapply pmove_base, Hb; apply calm_pmove|done|].
  intros k Hk. by apply Hm in Hk as [_ ?].
Qed.

Lemma keeps_vlandelport arg : keeps (vlandelport E arg).
Proof.
  intros s Hi. unfold vlandelport. destruct (sscanf_ii arg) as [[v p]|]; [|done].
  apply wp_bind, wp_gets. wp_if as Hbad; [done|]. apply cmd_range in Hbad as [Hv Hr].
  apply wp_bind, wp_valid_vlan; [apply Hi|lia|]. destruct (bmem _ v) eqn:Ev; simpl; [|done].
  pose proof (valid_intro s v ltac:(lia) Ev) as Hval.
  apply port_ptr_keeps; [done..|]. intros pt Hpt Hok. wp_if as Hun; [done|].
  apply Z.eqb_neq in Hun. rewrite <- (utag_pat s p pt Hpt) in Hun. pose proof (inv_base p s Hi) as B0.
  assert (is_Some (psig s p)) as P0 by (unfold psig; by rewrite Hpt).
  apply wp_bind. eapply (wp_mono _ (λ _ s2, base p s2 ∧ pmove p s s2 ∧
    (∀ v' f', vb s2 v' f' p = if decide (v' = v ∧ f' = Bctag) then false else vb s v' f' p) ∧
    (∀ v' f', f' = Untag ∨ f' = Tagged ∨ f' = Backup → fb s2 v' f' p = if decide (v' = v) then false else fb s v' f' p))).
  { apply wp_whenM; intros Hc.
    - apply wp_bind, (wp_bit_p p false); [done..|]. intros s1 B1 X1 V1 F1.
      apply (wp_delport_p p); [done|by eapply pmove_psig|by eapply pmove_valid|]. intros s2 B2 X2 V2 F2 _.
      split_and!; [done|exact (transitivity X1 X2)|intros; by rewrite V2, V1|intros; by rewrite F2, F1].
    - apply negb_false_iff, bool_decide_eq_true in Hc.
      assert (¬ act s p) as Hna by (rewrite (not_act_ep s p pt Hpt); naive_solver).
      destruct (inactive_bits s p Hi Hna) as (Hb1 & Hb2 & _). split_and!; [done|by apply pmove_refl, Hi|..].
      + intros v' f'. destruct (decide _) as [(-> & ->)|]; [apply Hb1|done].
      + intros v' f' Hf. destruct (decide _); [by apply Hb2|done]. }
  intros [] s2 (B2 & X2 & V2 & F2).
  apply wp_bind, (wp_bit_p p false); [done|by eapply pmove_psig|by eapply pmove_valid|]. intros s3 B3 X3 V3 F3.
  apply wp_bind, (wp_hash_delete_p p); [done|]. intros s4 B4 C4 M4. apply wp_ret.
  assert (frame s s4) as F04.
  { exact (transitivity (pm_frame _ _ _ X2) (transitivity (pm_frame _ _ _ X3) (c_frame _ _ C4))). }
  apply (base_port_gone p s s4); [done..| |].
  - intros v'. destruct (i_disc s Hi v' p) as (H1 & H2 & H3). unfold disc_at.
    setoid_rewrite (frame_act s s4 p F04). rewrite (frame_utag _ _ _ F04), !(c_vb _ _ C4), !V3, !V2.
    destruct (decide (v' = v)) as [->|Hne].
    + rewrite (decide_False (P := v = v ∧ Bctag = Table)), (decide_True (P := v = v ∧ Bctag = Bctag)),
        (decide_False (P := v = v ∧ Bcuntag = Table)), (decide_False (P := v = v ∧ Bcuntag = Bctag)) by naive_solver.
      split_and!; [done|by intros (_ & _ & ?)%H2|]. intros f Hf.
      rewrite (c_fb _ _ C4), F3, F2, decide_True by done. done.
    + rewrite !decide_False by naive_solver. split_and!; [done..|]. intros f Hf.
      rewrite (c_fb _ _ C4), F3, F2, decide_False by done. by apply H3.
  - intros v' Ht ->. rewrite (c_vb _ _ C4), V3, V2, !decide_False by naive_solver. done.
Qed.

(** ** Changing the untagged VLAN of a port *)

Lemma base_put_port p s pt pt' :
  base p s → pat s p = Some pt → port_ok p pt' → base p (put_port s p (Some pt')).
Proof.
  intros [] Hp Hok. pose proof (pat_in_range _ _ _ b_dims0 Hp) as Hr.
  assert (∀ q, q ≠ p → psig (put_port s p (Some pt')) q = psig s q) as Hsig.
  { intros q Hq. rewrite psig_put by done. by rewrite decide_False. }
  assert (∀ q, is_Some (psig s q) → is_Some (psig (put_port s p (Some pt')) q)) as Hs.
  { intros q Hq. rewrite psig_put by done. by case_decide. }
  split; [by apply dims_put_port|..|done].
  - intros q ps. rewrite psig_put by done. case_decide; [|apply b_sigs0]. subst. intros [= <-]. exact (proj1 (port_ok_sig p pt') Hok).
  - intros v q. destruct (b_alloc0 v q) as [H1 H2]. split; intros f Hf Hb; apply Hs; [by eapply H1 | by eapply H2].
  - intros v q Hq. pose proof (b_disc0 v q Hq) as (H1 & H2 & H3). unfold disc_at, act, utag. rewrite Hsig by done. done.
  - intros q Hq. unfold utag. rewrite Hsig by done. by apply b_untag0.
  - intros k q Hq. unfold act. rewrite Hsig by done. by apply b_mac0.
Qed.

(** Leaving a VLAN table, when there is a VLAN. *)
Lemma wp_clr_opt p s v f (Q : () → sw → Prop) :
  base p s → is_Some (psig s p) → (v ≠ NOVLAN → valid s v) →
  (∀ s', base p s' → pmove p s s' →
     (∀ v' f', vb s' v' f' p = if decide (v' = v ∧ f' = f) then false else vb s v' f' p) →
     (∀ v' f', fb s' v' f' p = fb s v' f' p) → Q () s') →
  wp (whenM (negb (v =? NOVLAN)) (vl_clr v f p)) Q s.
Proof.
  intros Hb Hp Hv HQ. apply wp_whenM; intros Hc.
  - apply negb_true_iff, Z.eqb_neq in Hc. by apply (wp_bit_p p false); [done|done|apply Hv|].
  - apply negb_false_iff, Z.eqb_eq in Hc. subst. apply HQ; [done|by apply pmove_refl, Hb| |done].
    intros v' f'. destruct (decide _) as [(-> & ->)|]; [|done]. apply not_true_is_false.
    intros Hbit%novlan_bit; [done|apply Hb].
Qed.

(** What [port/setvlan] leaves of the tables of the port, before the membership
    changes. *)
Record setvlan_bits (p old vlan : Z) s s' : Prop := {
  sv_base : base p s';
  sv_pmove : pmove p s s';
  sv_bctag : ∀ v, vb s' v Bctag p = true → vb s v Bctag p = true ∧ v ≠ vlan;
  sv_bcuntag : ∀ v, vb s' v Bcuntag p = true → v = vlan ∧ act s p ∨ vb s v Bcuntag p = true ∧ v ≠ old;
  sv_same : ∀ v f, f = Table ∨ f = Notlearning → vb s' v f p = vb s v f p;
  sv_fb : ∀ v f, f = Untag ∨ f = Tagged ∨ f = Backup → fb s' v f p = true →
    v = vlan ∧ act s p ∨ fb s v f p = true ∧ v ≠ old
}.

Lemma wp_setvlan_active p s old vlan :
  base p s → act s p → (old ≠ NOVLAN → valid s old) → (vlan ≠ NOVLAN → valid s vlan) →
  wp (whenM (negb (old =? NOVLAN)) (vl_clr old Bcuntag p) ;;
      whenM (negb (vlan =? NOVLAN)) (vl_set vlan Bcuntag p ;; vl_clr vlan Bctag p) ;;
      whenM (negb (old =? NOVLAN)) (fstdelport E old p) ;;
      whenM (negb (vlan =? NOVLAN)) (fstaddport E vlan p false)) (λ _ s', setvlan_bits p old vlan s s') s.
Proof.
  intros B0 Hact Ho Hn. pose proof (act_psig _ _ Hact) as P0.
  apply wp_bind, (wp_clr_opt p); [done..|]. intros s1 B1 X1 V1 F1.
  apply wp_bind. eapply (wp_mono _ (λ _ s2, base p s2 ∧ pmove p s s2 ∧
    (∀ v, vb s2 v Bctag p = true → vb s v Bctag p = true ∧ v ≠ vlan) ∧
    (∀ v, vb s2 v Bcuntag p = true → v = vlan ∧ act s p ∨ vb s v Bcuntag p = true ∧ v ≠ old) ∧
    (∀ v f, f = Table ∨ f = Notlearning → vb s2 v f p = vb s v f p) ∧ (∀ v f, fb s2 v f p = fb s v f p))).
  { apply wp_whenM; intros Hc.
    - apply negb_true_iff, Z.eqb_neq in Hc.
      apply wp_bind, (wp_bit_p p true); [done|by eapply pmove_psig|by eapply pmove_valid; [|apply Hn]|]. intros s2 B2 X2 V2 F2.
      pose proof (transitivity X1 X2) as X02.
      apply (wp_bit_p p false); [done|by eapply pmove_psig|by eapply pmove_valid; [|apply Hn]|]. intros s3 B3 X3 V3 F3.
      split_and!; [done|exact (transitivity X02 X3)|..].
      + intros v. rewrite V3, V2, V1. destruct (decide (v = vlan ∧ Bctag = Bctag)); [done|].
        rewrite !decide_False by naive_solver. naive_solver.
      + intros v. rewrite V3, V2, V1. rewrite decide_False by naive_solver.
        destruct (decide (v = vlan ∧ _)); [naive_solver|]. destruct (decide _); [done|]. naive_solver.
      + intros v f Hf. rewrite V3, V2, V1, !decide_False by naive_solver. done.
      + intros v f. by rewrite F3, F2, F1.
    - apply negb_false_iff, Z.eqb_eq in Hc. split_and!; [done|done|..].
      + intros v Hb. rewrite V1, decide_False in Hb by naive_solver. split; [done|]. rewrite Hc. by eapply novlan_bit; [apply B0|].
      + intros v. rewrite V1. destruct (decide _); [done|]. naive_solver.
      + intros v f Hf. rewrite V1, decide_False by naive_solver. done.
      + intros v f. by rewrite F1. }
  intros [] s2 (B2 & X2 & T2 & U2 & S2 & F2). apply wp_bind. eapply (wp_mono _ (λ _ s3, base p s3 ∧ pmove p s s3 ∧
    (∀ v f, vb s3 v f p = vb s2 v f p) ∧
    (∀ v f, f = Untag ∨ f = Tagged ∨ f = Backup → fb s3 v f p = true → fb s v f p = true ∧ v ≠ old))).
  { apply wp_whenM; intros Hc.
    - apply negb_true_iff, Z.eqb_neq in Hc.
      apply (wp_delport_p p); [done|by eapply pmove_psig|by eapply pmove_valid; [|apply Ho]|]. intros s3 B3 X3 V3 F3 _.
      split_and!; [done|exact (transitivity X2 X3)|done|]. intros v f Hf. rewrite F3, F2 by done. by destruct (decide _).
    - apply negb_false_iff, Z.eqb_eq in Hc. split_and!; [done..|]. intros v f Hf. rewrite F2. intros Hb. split; [done|].
      rewrite Hc. by eapply novlan_fbit; [apply B0|]. }
  intros [] s3 (B3 & X3 & V3 & F3). apply wp_whenM; intros Hc.
  - apply negb_true_iff, Z.eqb_neq in Hc.
    apply (wp_addport_p p); [done|by eapply pmove_psig|by eapply pmove_valid; [|apply Hn]|]. intros s4 B4 X4 V4 F4 _.
    split; [done|exact (transitivity X3 X4)|intros v; rewrite V4, V3; auto|intros v; rewrite V4, V3; auto|
      intros v f; rewrite V4, V3; auto|].
    intros v f Hf. destruct (decide (v = vlan)); [auto|]. rewrite F4 by done. auto.
  - split; [done|done|intros v; rewrite V3; auto|intros v; rewrite V3; auto|intros v f; rewrite V3; auto|auto].
Qed.

(** The bits left when the port is inactive: there were none. *)
Lemma setvlan_inactive p s s0 old vlan :
  inv s0 → ¬ act s0 p → base p s → (∀ v f q, vb s v f q = vb s0 v f q) → (∀ v f q, fb s v f q = fb s0 v f q) →
  setvlan_bits p old vlan s s.
Proof.
  intros Hi Hna Hb HV HF. destruct (inactive_bits s0 p Hi Hna) as (Hb1 & Hb2 & _).
  split; [done|by apply pmove_refl, Hb|..|done|].
  - intros v. rewrite HV. by destruct (Hb1 v) as [-> _].
  - intros v. rewrite HV. by destruct (Hb1 v) as [_ ->].
  - intros v f Hf. by rewrite HF, Hb2.
Qed.

(** The state after the membership and the untagged VLAN have changed. *)
Lemma setvlan_inv p s s2 s3 s5 pt5 vlan :
  inv s → (act s2 p ↔ act s p) → (∀ v f, vb s2 v f p = vb s v f p) → (∀ v f, fb s2 v f p = fb s v f p) →
  setvlan_bits p (utag s p) vlan s2 s3 → base p s5 → pmove p s3 s5 → (∀ k, mt_ports (mact s2) k ≠ Some p) →
  (∀ v f, vb s5 v f p = if decide (v = vlan ∧ f = Table ∧ vlan ≠ NOVLAN) then true
                        else if decide (v = utag s p ∧ f = Table) then false else vb s3 v f p) →
  (∀ v f, fb s5 v f p = fb s3 v f p) →
  pat s5 p = Some pt5 → port_ok p pt5 → inv (put_port s5 p (Some (upd_vlanuntag vlan pt5))).
Proof.
  intros Hi Ha HV HF [B3 X3 Bt Bu Sm Fb] B5 X5 Hm V5 F5 Hp5 Hok5.
  pose proof (b_dims _ _ B5) as D5. pose proof (pat_in_range _ _ _ D5 Hp5) as Hr. set (s6 := put_port _ _ _).
  assert (base p s6) as B6 by (eapply base_put_port; done).
  assert (utag s6 p = vlan) as Hut by (unfold s6; rewrite utag_put by done; by rewrite decide_True).
  assert (frame s2 s5) as F25 by exact (transitivity (pm_frame _ _ _ X3) (pm_frame _ _ _ X5)).
  assert (act s6 p ↔ act s p) as Hact.
  { unfold s6. rewrite act_put, decide_True by done. rewrite <- Ha, <- (frame_act s2 s5) by done.
    by rewrite (not_act_ep s5 p pt5). }
  apply (base_inv p); [done|..].
  - intros v. destruct (i_disc s Hi v p) as (H1 & H2 & H3). unfold disc_at. rewrite Hut.
    assert (vb s v Table p = true → v ≠ utag s p → vb s6 v Table p = true) as Ht.
    { intros Ht Hne. change (vb s5 v Table p = true). rewrite V5. destruct (decide _); [done|].
      rewrite decide_False by naive_solver. rewrite Sm, HV by auto. done. }
    assert (v = vlan → v ≠ NOVLAN → vb s6 v Table p = true) as Ht2.
    { intros -> Hne. change (vb s5 vlan Table p = true). by rewrite V5, decide_True. }
    setoid_rewrite Hact.
    split_and!; [intros Hb|intros Hb|intros f Hf Hb].
    + change (vb s5 v Bctag p = true) in Hb. rewrite V5, !decide_False in Hb by naive_solver.
      apply Bt in Hb as [Hb Hne]. rewrite HV in Hb. destruct (H1 Hb) as (? & ? & ?). auto.
    + assert (v ≠ NOVLAN) as Hnn by (eapply novlan_bit; [|exact Hb]; apply B6).
      change (vb s5 v Bcuntag p = true) in Hb. rewrite V5, !decide_False in Hb by naive_solver.
      apply Bu in Hb as [[-> Hb]|[Hb Hne]]; [apply Ha in Hb; auto|].
      rewrite HV in Hb. by destruct (H2 Hb) as (_ & _ & ?).
    + assert (v ≠ NOVLAN) as Hnn by (eapply novlan_fbit; [|exact Hb]; apply B6).
      change (fb s5 v f p = true) in Hb. rewrite F5 in Hb.
      apply Fb in Hb as [[-> Hb]|[Hb Hne]]; [apply Ha in Hb; auto| |done].
      rewrite HF in Hb. destruct (H3 f Hf Hb). auto.
  - intros _. rewrite Hut. destruct (decide (vlan = NOVLAN)); [auto|]. right.
    change (vb s5 vlan Table p = true). by rewrite V5, decide_True.
  - intros k Hk. destruct (Hm k). by apply (fr_mac _ _ F25).
Qed.

Lemma setvlan_range v p n :
  (v <? 0) || (NUMOFVLAN <? v) || (p <? 0) || (n <=? p) = false → 0 ≤ v < 4096 ∧ 0 ≤ p < n.
Proof. unfold NUMOFVLAN. lia. Qed.

Lemma keeps_portsetvlan arg : keeps (portsetvlan E arg).
Proof.
  intros s Hi. unfold portsetvlan. destruct (sscanf_ii arg) as [[p vlan]|]; [|done].
  apply wp_bind, wp_gets. wp_if as Hbad; [done|]. apply setvlan_range in Hbad as [Hv Hr].
  apply wp_bind. eapply (wp_mono _ (λ bad s', s' = s ∧ (bad = false → vlan ≠ NOVLAN → valid s vlan))).
  { wp_if as Hc; [|apply negb_false_iff, Z.eqb_eq in Hc; by apply wp_ret].
    apply wp_bind, wp_valid_vlan; [apply Hi|done|]. apply wp_ret. split; [done|].
    intros Hb%negb_false_iff _. by apply valid_intro. }
  intros bad s' [-> Hvv]. destruct bad; [done|]. specialize (Hvv eq_refl).
  apply port_ptr_keeps; [done..|]. intros pt Hpt Hok. pose proof (i_dims s Hi) as Hd.
  assert (psig s p = Some (psig_of pt)) as P0 by (unfold psig; by rewrite Hpt).
  rewrite <- (utag_pat s p pt Hpt).
  apply wp_bind, wp_portv_store; [done..|]. set (s1 := put_port s p _).
  assert (base p s1) as B1 by (apply (base_put_port p s pt); [by apply inv_base|done|done]).
  apply wp_bind, (wp_hash_delete_p p); [done|]. intros s2 B2 C2 M2. pose proof (c_frame _ _ C2) as F12.
  assert (act s2 p ↔ act s p) as Ha2.
  { rewrite (frame_act s1 s2) by done. unfold s1. rewrite act_put, decide_True by done. by rewrite (not_act_ep s p pt). }
  assert (is_Some (psig s2 p)) as P2.
  { rewrite (fr_sig _ _ F12). unfold s1. rewrite psig_put by done. by rewrite decide_True. }
  assert (∀ v, valid s v → valid s2 v) as HV2 by (intros v Hvv'; by apply (frame_valid s1 s2 v F12)).
  assert (utag s p ≠ NOVLAN → valid s2 (utag s p)) as Hold.
  { intros Hne. destruct (i_untag s Hi p) as [|Ht]; [by rewrite P0|done|]. apply HV2. by eapply vb_range. }
  apply wp_bind. eapply (wp_mono _ (λ _ s3, setvlan_bits p (utag s p) vlan s2 s3)).
  { apply wp_whenM; intros Hc.
    - apply wp_setvlan_active; [done| |done|auto]. apply Ha2, (not_act_ep s p pt Hpt).
      by apply negb_true_iff, bool_decide_eq_false in Hc.
    - apply negb_false_iff, bool_decide_eq_true in Hc. apply (setvlan_inactive p s2 s); [done| |done|..].
      + rewrite (not_act_ep s p pt Hpt). naive_solver.
      + intros. by rewrite (c_vb _ _ C2).
      + intros. by rewrite (c_fb _ _ C2). }
  intros [] s3 SV. pose proof (sv_pmove _ _ _ _ _ SV) as X3. pose proof (sv_base _ _ _ _ _ SV) as B3.
  apply wp_bind, (wp_clr_opt p); [done|by eapply pmove_psig|intros; eapply pmove_valid; [done|auto]|]. intros s4 B4 X4 V4 F4.
  pose proof (transitivity X3 X4) as X24.
  apply wp_bind. eapply (wp_mono _ (λ _ s5, base p s5 ∧ pmove p s4 s5 ∧
    (∀ v f, vb s5 v f p = if decide (v = vlan ∧ f = Table ∧ vlan ≠ NOVLAN) then true else vb s4 v f p) ∧
    ∀ v f, fb s5 v f p = fb s4 v f p)).
  { apply wp_whenM; intros Hc.
    - apply negb_true_iff, Z.eqb_neq in Hc.
      apply (wp_bit_p p true); [done|by eapply pmove_psig|eapply pmove_valid; [done|auto]|]. intros s5 B5 X5 V5 F5.
      split_and!; [done|done| |done]. intros v f. rewrite V5. apply decide_ext. tauto.
    - apply negb_false_iff, Z.eqb_eq in Hc. split_and!; [done|by apply pmove_refl, B4| |done].
      intros v f. rewrite decide_False by naive_solver. done. }
  intros [] s5 (B5 & X5 & V5 & F5). pose proof (transitivity X24 X5) as X25.
  assert (is_Some (psig s5 p)) as [ps5 Hps5] by (exact (pmove_psig p _ _ X25 P2)).
  pose proof Hps5 as (pt5 & Hpt5 & ->)%psig_Some.
  apply wp_bind, (wp_port_upd _ _ pt5); [apply B5|done|]. apply wp_ret.
  apply (setvlan_inv p s s2 s3 s5 pt5 vlan); try done.
  - intros v f. by rewrite (c_vb _ _ C2).
  - intros v f. by rewrite (c_fb _ _ C2).
  - exact (transitivity X4 X5).
  - intros v f. by rewrite V5, V4.
  - intros v f. by rewrite F5, F4.
  - apply port_ok_sig. by apply (b_sigs _ _ B5).
Qed.

End vlansafe.
