(* ===== verification/VlanLife.v ===== *)
(** * VlanLife: creating and removing VLANs, growing the switch, initialisation

    [vlancreate], [vlanremove], [portsetnumports] to more ports, and
    [fst_init]/[port_init], which establish the invariant. *)
From Stdlib Require Import Lia.
From stdpp Require Import base numbers list gmap strings.
From S2P Require Import Prelude Scan BitArray Hash Qtimer Switch PortSend Fstp Port SwitchInv SpanInv SwitchSafe PortSafe PortLife VlanSafe.

Section vlanlife.
Context {T : Type} `{!MacTable T} (E : env) (Hcalloc : ∀ n, calloc_ok E n = true).
Abbreviation sw := (switch T).
Implicit Type s : sw.

(** ** States with the same tables *)

(** The bits of the tables and the ports are the same; the sets of VLANs and
    the sizes may differ. *)
Record same_views s s' : Prop := {
  sv_vb : ∀ v f q, f ≠ Notlearning → vb s' v f q = vb s v f q;
  sv_nl : ∀ v q, vb s' v Notlearning q = true → vb s v Notlearning q = true;
  sv_fb3 : ∀ v f q, f = Untag ∨ f = Tagged ∨ f = Backup → fb s' v f q = fb s v f q;
  sv_sig : ∀ q, psig s' q = psig s q;
  sv_mact : mact s' = mact s
}.

Lemma inv_views s s' : inv s → dims s' → same_views s s' → valid s' 0 → inv s'.
Proof.
  intros [] D' [V N F S M] H0.
  assert (∀ q, act s' q ↔ act s q) as Hact by (intros; unfold act; by rewrite S).
  assert (∀ q, utag s' q = utag s q) as Hut by (intros; unfold utag; by rewrite S).
  split; [done|..|done].
  - intros q pt. rewrite S. apply i_sigs.
  - intros v q. destruct (i_alloc v q) as [H1 H2]. split; intros f Hf; rewrite S, ?V, ?F by done; [by apply H1|by apply H2].
  - intros v q. destruct (i_disc v q) as (H1 & H2 & H3). unfold disc_at. setoid_rewrite (Hact q).
    rewrite Hut, !V by done. split_and!; [done..|]. intros f Hf. rewrite F by done. by apply H3.
  - intros q. rewrite S, Hut, V by done. apply i_untag.
  - intros k q. rewrite M. intros Hk. destruct (i_mac k q Hk) as (H1 & H2 & H3). rewrite Hact, V by done.
    split_and!; [done..|]. apply not_true_is_false. intros Hn%N. congruence.
Qed.

(** ** Creating a VLAN *)

Lemma wp_calloc s (Q : bool → sw → Prop) : Q true (set_ncalloc (S (ncalloc s)) s) → wp (calloc E) Q s.
Proof. intros HQ. unfold wp, calloc. by rewrite Hcalloc. Qed.

(** [s'] is [s] with [vlant[v] = r] and some more allocations. *)
Definition vl_is s v r s' : Prop := ∃ n, s' = set_ncalloc n (put_vl s v r).
Definition fs_is s v r s' : Prop := ∃ n, s' = set_ncalloc n (put_fs s v r).

Lemma wp_vl_alloc s v f r s0 (Q : () → sw → Prop) :
  0 ≤ v ≤ NUMOFVLAN → vl_is s v r s0 →
  (∀ s', vl_is s v (vset f (Some (ba_alloc (numports s))) r) s' → Q () s') → wp (vl_alloc E v f) Q s0.
Proof.
  intros Hv [n ->] HQ. apply wp_bind, wp_calloc, wp_bind, wp_gets, wp_bind, wp_vl_get; [done|].
  apply wp_modify, HQ. eexists. unfold put_vl, set_vlant, set_ncalloc, vl. simpl.
  rewrite lookup_insert_eq, insert_insert_eq. done.
Qed.

Lemma wp_vl_allocs s v (Q : () → sw → Prop) :
  0 ≤ v ≤ NUMOFVLAN →
  (∀ s', vl_is s v (let a := Some (ba_alloc (numports s)) in VlanRec a a a a) s' → Q () s') →
  wp (forM [Table; Bctag; Bcuntag; Notlearning] (vl_alloc E v)) Q s.
Proof.
  intros Hv HQ. cbn [forM]. apply wp_bind.
  assert (∀ Q', (∀ s', vl_is s v (vset Table (Some (ba_alloc (numports s))) (vl s v)) s' → Q' () s') →
    wp (vl_alloc E v Table) Q' s) as H0.
  { intros Q' HQ'. apply wp_bind, wp_calloc, wp_bind, wp_gets, wp_bind, wp_vl_get; [done|].
    apply wp_modify, HQ'. by eexists. }
  apply H0. intros s1 V1. apply wp_bind, (wp_vl_alloc s v _ _ _ _ Hv V1). intros s2 V2.
  apply wp_bind, (wp_vl_alloc s v _ _ _ _ Hv V2). intros s3 V3.
  apply wp_bind, (wp_vl_alloc s v _ _ _ _ Hv V3). intros s4 V4. apply wp_ret, HQ. exact V4.
Qed.

Lemma wp_fs_get_is s v r s0 (Q : vlst → sw → Prop) :
  0 ≤ v < NUMOFVLAN → fs_is s v r s0 → Q r s0 → wp (fs_get v) Q s0.
Proof.
  intros Hv [n ->] HQ. apply wp_bind, wp_fs_ptr; [done|]. simpl. rewrite lookup_insert_eq. by apply (wp_deref _ r).
Qed.
Lemma wp_fs_put_is s v r r' s0 (Q : () → sw → Prop) :
  fs_is s v r s0 → (∀ s', fs_is s v r' s' → Q () s') → wp (fs_put v r') Q s0.
Proof.
  intros [n ->] HQ. apply wp_modify, HQ. exists n. unfold put_fs, set_ncalloc, set_fst, set_fsttab. simpl.
  by rewrite insert_insert_eq.
Qed.

Lemma wp_alloc_field s v f r s0 (l : list ffield) (Q : bool → sw → Prop) :
  0 ≤ v < NUMOFVLAN → fs_is s v r s0 →
  (∀ s', fs_is s v (fset f (Some (ba_alloc (fnumports (fst_st s)))) r) s' → wp (alloc_fields E v l) Q s') →
  wp (alloc_fields E v (f :: l)) Q s0.
Proof.
  intros Hv S0 HQ. cbn [alloc_fields]. apply wp_bind, wp_bind, wp_calloc, wp_bind, wp_gets, wp_ret.
  assert (fs_is s v r (set_ncalloc (S (ncalloc s0)) s0)) as S1 by (destruct S0 as [n ->]; by eexists).
  assert (fnumports (fst_st (set_ncalloc (S (ncalloc s0)) s0)) = fnumports (fst_st s)) as -> by (by destruct S0 as [n ->]).
  apply wp_bind, (wp_fs_get_is s v r); [done..|]. apply wp_bind, (wp_fs_put_is s v r _ _ _ S1). exact HQ.
Qed.

Lemma ba_elems_zero n r : 0 ≤ r → ba_elems (ba_alloc n) r = [].
Proof.
  intros Hr. destruct (ba_elems (ba_alloc n) r) as [|k l] eqn:Ek; [done|].
  assert (k ∈ ba_elems (ba_alloc n) r) as Hin by (rewrite Ek; set_solver).
  apply elem_of_ba_elems in Hin as [_ Hb]; [|done]. unfold bmem, ba_alloc, zget in Hb.
  destruct (k / 64 <? 0); [done|]. destruct (replicate _ 0 !! _) eqn:El; [|done].
  apply lookup_replicate in El as [-> _]. by rewrite Z.bits_0 in Hb.
Qed.

(** [fstnewvlan] on a new VLAN: all the tables are empty. *)
Lemma wp_fstnewvlan_new s v (Q : Z → sw → Prop) :
  0 ≤ v < NUMOFVLAN → fsttab (fst_st s) !! v = None → 0 ≤ fnumports (fst_st s) →
  (∀ r s', fs_is s v r s' → (∀ f, fget f r = Some (ba_alloc (fnumports (fst_st s)))) → Q 0 s') →
  wp (fstnewvlan E v) Q s.
Proof.
  intros Hv Hn Hnp HQ. unfold fstnewvlan. apply wp_bind, wp_fs_ptr; [done|]. rewrite Hn, bool_decide_eq_true_2 by done.
  set (n := fnumports (fst_st s)) in *.
  apply wp_bind, wp_bind, wp_calloc. cbv iota beta. apply wp_bind, wp_modify.
  assert (fs_is s v vlst_new (put_fs (set_ncalloc (S (ncalloc s)) s) v vlst_new)) as S0 by (by eexists).
  match goal with |- wp _ _ ?st => change st with (put_fs (set_ncalloc (S (ncalloc s)) s) v vlst_new) end.
  apply (wp_alloc_field s v _ _ _ _ _ Hv S0). intros s1 S1. apply (wp_alloc_field s v _ _ _ _ _ Hv S1). intros s2 S2.
  apply (wp_alloc_field s v _ _ _ _ _ Hv S2). intros s3 S3. apply (wp_alloc_field s v _ _ _ _ _ Hv S3). intros s4 S4.
  apply (wp_alloc_field s v _ _ _ _ _ Hv S4). intros s5 S5. apply (wp_alloc_field s v _ _ _ _ _ Hv S5). intros s6 S6.
  fold n in S6. apply wp_ret. apply wp_bind, wp_get.
  apply wp_bind, (wp_fs_get_is _ _ _ _ _ Hv S6). apply wp_bind, (wp_fs_put_is _ _ _ _ _ _ S6). intros s7 S7.
  apply wp_bind. apply wp_bind, (wp_fs_get_is _ _ _ _ _ Hv S7), (wp_fs_put_is _ _ _ _ _ _ S7). intros s8 S8.
  match type of S8 with fs_is _ _ ?rr _ => set (r := rr) in * end.
  apply wp_bind, wp_gets, wp_bind. assert (fnumports (fst_st s8) = n) as -> by (by destruct S8 as [? ->]).
  eapply wp_mono; [apply (wp_ba_FORALL _ _ _ (ba_alloc n) (λ l s', l = [] ∧ fs_is s v r s'))|].
  - done.
  - unfold ba_alloc. rewrite length_replicate. pose proof (wround_nonneg n Hnp). lia.
  - intros l s' [_ [c' ->]]. unfold fs_array. cbn. by rewrite lookup_insert_eq.
  - done.
  - intros l1 k l2 s' Hl. rewrite ba_elems_zero in Hl by (by apply wround_nonneg). by destruct l1.
  - intros [] s' [_ S']. apply wp_ret. apply (HQ r); [done|]. intros f. by destruct f.
Qed.

(** The state after the creation of a VLAN. *)
Lemma created_dims s v r r' vv n :
  dims s → ¬ valid s v → 0 ≤ v < NUMOFVLAN - 1 → bac_wf NUMOFVLAN vv →
  (∀ w, w < 4096 → bmem vv w = bool_decide (w = v) || bmem (validvlan s) w) →
  (∀ f, vget f r = Some (ba_alloc (numports s))) → (∀ f, fget f r' = Some (ba_alloc (numports s))) →
  let s' := set_validvlan vv (set_ncalloc n (put_fs (put_vl s v r) v r')) in
  dims s' ∧ (∀ w, valid s' w ↔ w = v ∨ valid s w) ∧
  (∀ w f q, vb s' w f q = vb s w f q) ∧ (∀ w f q, fb s' w f q = fb s w f q).
Proof.
  intros Hd Hnv Hv Hwf Hbits Hr Hr' s'. pose proof (d_np s Hd) as Hnp.
  destruct (arr_alloc (numports s) ltac:(lia)) as [Harr Hzero].
  assert (∀ w, valid s' w ↔ w = v ∨ valid s w) as Hval.
  { intros w. unfold valid. cbn. split.
    - intros [Hw Hb]. rewrite Hbits in Hb by done. apply orb_true_iff in Hb as [?%bool_decide_eq_true|]; auto.
    - intros [->|[Hw Hb]]; (split; [unfold NUMOFVLAN in Hv; lia|]).
      + rewrite Hbits, bool_decide_eq_true_2 by (done || unfold NUMOFVLAN in Hv; lia). done.
      + rewrite Hbits, Hb by done. by rewrite orb_true_r. }
  assert (∀ w f, vl_array w f s' = if decide (w = v) then Some (ba_alloc (numports s)) else vl_array w f s) as Ha.
  { intros w f. transitivity (vl_array w f (put_vl s v r)); [done|]. rewrite vl_array_put. case_decide; [apply Hr|done]. }
  assert (∀ w f, fs_array w f s' = if decide (w = v) then Some (ba_alloc (numports s)) else fs_array w f s) as Hf.
  { intros w f. transitivity (fs_array w f (put_fs s v r')); [done|]. rewrite fs_array_put. case_decide; [apply Hr'|done]. }
  split_and!; [|done|..].
  - destruct Hd. split; try done.
    + intros w [->|Hw]%Hval; [done|auto].
    + intros w f [->|Hw]%Hval; rewrite Ha; [rewrite decide_True by done; by eexists|].
      rewrite decide_False by (by intros ->). by apply d_v.
    + intros w f [->|Hw]%Hval; rewrite Hf; [rewrite decide_True by done; by eexists|].
      rewrite decide_False by (by intros ->). by apply d_f.
    + intros w f Hw. rewrite Hval in Hw. rewrite Ha, decide_False by tauto. apply d_vn. tauto.
    + intros w Hw. rewrite Hval in Hw. cbn. rewrite lookup_insert_ne by naive_solver. apply d_fn. tauto.
  - intros w f q. unfold vb. rewrite Ha. case_decide; [|done]. subst. simpl. by rewrite Hzero, (d_vn s Hd v f Hnv).
  - intros w f q. unfold fb. rewrite Hf. case_decide; [|done]. subst. simpl. rewrite Hzero. unfold fs_array.
    by rewrite (d_fn s Hd v Hnv).
Qed.

Lemma wp_vlancreate_nocheck s v :
  dims s → ¬ valid s v → 0 ≤ v < NUMOFVLAN - 1 →
  wp (vlancreate_nocheck E v) (λ rv s', rv = 0 ∧ dims s' ∧ (∀ w, valid s' w ↔ w = v ∨ valid s w) ∧ same_views s s' ∧
    numports s' = numports s ∧ trace s' = trace s ∧ (∀ w f q, vb s' w f q = vb s w f q)) s.
Proof.
  intros Hd Hnv Hv. pose proof (d_np s Hd) as Hnp. apply wp_bind, wp_vl_allocs; [unfold NUMOFVLAN in *; lia|].
  cbv zeta. intros s1 [n1 ->]. apply wp_bind, wp_vl_get; [unfold NUMOFVLAN in *; lia|].
  set (r := VlanRec _ _ _ _). set (s1 := set_ncalloc n1 (put_vl s v r)).
  assert (vl s1 v = r) as -> by (unfold s1, vl; simpl; by rewrite lookup_insert_eq). unfold r at 1. cbn [v_table v_bctag v_bcuntag].
  apply wp_bind, (wp_fstnewvlan_new s1 v); [unfold NUMOFVLAN in *; lia|by apply (d_fn s Hd)|simpl; rewrite (d_fnp s Hd); lia|].
  intros r' s2 [n2 ->] Hr'. simpl in Hr'. rewrite (d_fnp s Hd) in Hr'.
  apply wp_bind, wp_whenM; [intros _|done]. apply wp_bind, wp_get.
  destruct (bac_set_spec NUMOFVLAN (validvlan s) v (d_vv s Hd)) as (vv & Hset & Hwf & _ & Hbits).
  { done. } { change (64 * WORDSIZEROUND NUMOFVLAN) with 4096. unfold NUMOFVLAN in *. lia. }
  apply wp_bind. eapply wp_deref; [exact Hset|]. apply wp_modify, wp_ret.
  destruct (created_dims s v r r' vv n2) as (D & Hval & Hvb & Hfb); [done|done|done|done|intros; by apply Hbits|by intros []|done|].
  split_and!; [done|exact D|exact Hval|split; [|..|done|done]|done|done|exact Hvb].
  - intros w f q _. apply Hvb.
  - intros w q. by rewrite <- Hvb.
  - intros w f q _. apply Hfb.
Qed.

Lemma keeps_vlancreate v : keeps (vlancreate E v).
Proof.
  intros s Hi. unfold vlancreate. wp_if as Hr; [|done].
  assert (0 < v < NUMOFVLAN - 1) as Hv by lia.
  apply wp_bind, wp_valid_vlan; [apply Hi|unfold NUMOFVLAN in *; lia|]. destruct (bmem _ v) eqn:Ev; [done|].
  eapply wp_mono; [apply wp_vlancreate_nocheck; [apply Hi| |lia]|].
  - intros [_ Hb]. congruence.
  - intros rv s' (_ & D & Hval & SV & _). apply (inv_views s s' Hi D SV). apply Hval. right. apply Hi.
Qed.

(** ** Removing a VLAN *)

Lemma removed_dims s v vv :
  dims s → valid s v → bac_wf NUMOFVLAN vv →
  (∀ w, w < 4096 → bmem vv w = negb (bool_decide (w = v)) && bmem (validvlan s) w) →
  let s' := set_fst (set_fsttab (delete v (fsttab (fst_st s))) (fst_st s)) (put_vl (set_validvlan vv s) v vlan_null) in
  dims s' ∧ (∀ w, valid s' w ↔ w ≠ v ∧ valid s w) ∧
  (∀ w f q, vb s' w f q = if decide (w = v) then false else vb s w f q) ∧
  (∀ w f q, fb s' w f q = if decide (w = v) then false else fb s w f q).
Proof.
  intros Hd Hv Hwf Hbits s'.
  assert (∀ w, valid s' w ↔ w ≠ v ∧ valid s w) as Hval.
  { intros w. unfold valid. cbn. split.
    - intros [Hw Hb]. rewrite Hbits in Hb by done. apply andb_true_iff in Hb as [?%negb_true_iff ?].
      by rewrite bool_decide_eq_false in H.
    - intros [Hne [Hw Hb]]. split; [done|]. rewrite Hbits, Hb, bool_decide_eq_false_2 by done. done. }
  assert (∀ w f, vl_array w f s' = if decide (w = v) then None else vl_array w f s) as Ha.
  { intros w f. transitivity (vl_array w f (put_vl s v vlan_null)); [done|]. rewrite vl_array_put.
    case_decide; [by destruct f|done]. }
  assert (∀ w f, fs_array w f s' = if decide (w = v) then None else fs_array w f s) as Hf.
  { intros w f. unfold fs_array. cbn. case_decide; [subst; by rewrite lookup_delete_eq|by rewrite lookup_delete_ne]. }
  split_and!; [|done|..].
  - destruct Hd. split; try done.
    + intros w [_ Hw]%Hval. auto.
    + intros w f [Hne Hw]%Hval. rewrite Ha, decide_False by done. by apply d_v.
    + intros w f [Hne Hw]%Hval. rewrite Hf, decide_False by done. by apply d_f.
    + intros w f Hw. rewrite Hval in Hw. rewrite Ha. case_decide; [done|]. apply d_vn. tauto.
    + intros w Hw. rewrite Hval in Hw. cbn. destruct (decide (w = v)) as [->|]; [apply lookup_delete_eq|].
      rewrite lookup_delete_ne by done. apply d_fn. tauto.
  - intros w f q. unfold vb. rewrite Ha. by case_decide.
  - intros w f q. unfold fb. rewrite Hf. by case_decide.
Qed.

(** [vlan/remove] of any VLAN but 0. *)
Lemma keeps_vlanremove v s : inv s → v ≠ 0 → wp (vlanremove v) (λ _ s', inv s') s.
Proof.
  intros Hi Hv0. pose proof (i_dims s Hi) as Hd. pose proof (d_np s Hd) as Hnp. unfold vlanremove. wp_if as Hr; [|done].
  assert (0 ≤ v < NUMOFVLAN) as Hv by lia.
  apply wp_bind, wp_valid_vlan; [done|unfold NUMOFVLAN in *; lia|]. destruct (bmem _ v) eqn:Ev; [|done].
  pose proof (valid_intro s v ltac:(unfold NUMOFVLAN in *; lia) Ev) as Hval.
  apply wp_bind, wp_vl_get; [lia|]. apply wp_bind, wp_gets.
  destruct (d_v s Hd v Table Hval) as (x & Hx & Harr). unfold vl_array in Hx. cbn [vget] in Hx.
  apply wp_bind, (wp_deref _ x); [done|]. pose proof Harr as [[Hok Hl] _].
  apply wp_bind. eapply wp_deref; [apply ba_card_elems; lia|]. wp_if as Hc; [done|].
  apply negb_false_iff, Z.eqb_eq in Hc. assert (ba_elems x (WORDSIZEROUND (numports s)) = []) as Hnil.
  { apply length_zero_iff_nil. lia. }
  assert (∀ q, vb s v Table q = false) as Hempty.
  { intros q. apply not_true_is_false. intros Hb. pose proof (vb_range _ _ _ _ Hd Hb) as [_ Hq].
    unfold vb, vl_array in Hb. cbn [vget] in Hb. rewrite Hx in Hb. pose proof (wround_bound (numports s)).
    assert (q ∈ ba_elems x (WORDSIZEROUND (numports s))) as Hin.
    { apply elem_of_ba_elems; [by apply wround_nonneg; lia|]. split; [lia|done]. }
    rewrite Hnil in Hin. set_solver. }
  apply wp_bind, wp_get.
  destruct (bac_clr_spec NUMOFVLAN (validvlan s) v (d_vv s Hd)) as (vv & Hclr & Hwf & _ & Hbits).
  { done. } { change (64 * WORDSIZEROUND NUMOFVLAN) with 4096. unfold NUMOFVLAN in *. lia. }
  apply wp_bind. eapply wp_deref; [exact Hclr|]. apply wp_bind, wp_modify, wp_bind, wp_modify.
  apply wp_bind, wp_bind, wp_fs_ptr; [done|]. destruct (d_f s Hd v Untag Hval) as (y & Hy & _).
  unfold fs_array in Hy. cbn [set_vlant set_validvlan fst_st]. destruct (fsttab (fst_st s) !! v) as [r|] eqn:Er; [|done].
  apply wp_bind, wp_modify, wp_ret, wp_ret.
  destruct (removed_dims s v vv) as (D & Hval' & Hvb & Hfb); [done|done|done|intros; by apply Hbits|].
  apply (inv_views s _ Hi D); [split; [| | |done|done]|apply Hval'; split; [done|apply Hi]].
  - intros w f q Hf. rewrite Hvb. case_decide as Hw; [|done]. subst. symmetry. apply not_true_is_false. intros Hb.
    destruct (i_disc s Hi v q) as (H1 & H2 & _). pose proof (Hempty q).
    destruct f; [congruence|destruct (H1 Hb); congruence|destruct (H2 Hb); congruence|done].
  - intros w q. rewrite Hvb. by case_decide.
  - intros w f q Hf. rewrite Hfb. case_decide as Hw; [|done]. subst. symmetry. apply not_true_is_false. intros Hb.
    destruct (i_disc s Hi v q) as (_ & _ & H3). destruct (H3 f Hf Hb). pose proof (Hempty q). congruence.
Qed.

(** ** Growing the number of ports *)

Section grow.
Context (n val : Z) (Hn : 0 < n) (Hval : n ≤ val < 2 ^ 31).

(** A table reallocated from [n] to [val] ports. *)
Definition grown (o o' : option bitarray) : Prop :=
  match o with
  | None => o' = None
  | Some x => ∃ x', o' = Some x' ∧ arr val x' ∧ ∀ k, bmem x' k = bmem x k
  end.

Lemma grown_bit o o' q : grown o o' → obit o' q = obit o q.
Proof. destruct o as [x|]; simpl; [intros (x' & -> & _ & Hb); apply Hb|by intros ->]. Qed.

Lemma arr_grow x : arr n x →
  ∃ x', ba_realloc x (replicate (Z.to_nat (WORDSIZEROUND val)) 0) n val = Some x' ∧ arr val x' ∧ ∀ k, bmem x' k = bmem x k.
Proof.
  intros [Hs Hb]. pose proof (wround_nonneg val ltac:(lia)).
  assert (WORDSIZEROUND n ≤ WORDSIZEROUND val) as Hle by (rewrite !wround_spec; apply Z.div_le_mono; lia).
  destruct (ba_realloc_grow x (replicate (Z.to_nat (WORDSIZEROUND val)) 0) n val) as (x' & Hx' & Hs' & Hb'); try done.
  - lia.
  - apply Forall_replicate. lia.
  - rewrite length_replicate. lia.
  - exists x'. split_and!; [done| |done]. split; [done|]. intros k. rewrite Hb'. intros ?%Hb. lia.
Qed.

(** The VLAN tables: the fields of [done] are grown, the others unchanged. *)
Definition vl_grown (done : Z → vfield → Prop) s s' : Prop :=
  (∃ c m, s' = set_ncalloc c (set_vlant m s)) ∧
  ∀ v f, (done v f → grown (vl_array v f s) (vl_array v f s')) ∧ (¬ done v f → vl_array v f s' = vl_array v f s).

Lemma wp_vl_realloc s s1 (done : Z → vfield → Prop) i f :
  (∀ v f x, vl_array v f s = Some x → arr n x) → 0 ≤ i ≤ NUMOFVLAN → ¬ done i f → vl_grown done s s1 →
  wp (vl_realloc E i n val f) (λ _ s', vl_grown (λ v g, done v g ∨ v = i ∧ g = f) s s') s1.
Proof.
  intros Harr Hi Hnd [(c & m & Hs1) Hd]. apply wp_bind, wp_vl_get; [done|].
  destruct (Hd i f) as [_ Hsame]. specialize (Hsame Hnd). change (vget f (vl s1 i)) with (vl_array i f s1).
  rewrite Hsame. destruct (vl_array i f s) as [x|] eqn:Ex.
  - apply wp_bind, wp_calloc. cbv iota beta. destruct (arr_grow x) as (x' & Hx' & Ha & Hb); [by eapply Harr|].
    apply wp_bind. eapply wp_deref; [exact Hx'|]. apply wp_modify. split.
    + subst s1. by eexists _, _.
    + intros v g.
      assert (vl_array v g (put_vl (set_ncalloc (S (ncalloc s1)) s1) i (vset f (Some x') (vl s1 i))) =
        if decide (v = i ∧ g = f) then Some x' else vl_array v g s1) as Hput.
      { rewrite vl_array_put. destruct (decide (v = i)) as [->|]; [|by rewrite decide_False by tauto].
        rewrite vget_vset. destruct (decide (g = f)) as [->|]; [by rewrite decide_True|by rewrite decide_False by tauto]. }
      unfold put_vl in Hput. cbn [vlant set_ncalloc] in Hput |- *. rewrite Hput. destruct (Hd v g) as [H1 H2]. split.
      * intros Hdn. destruct (decide (v = i ∧ g = f)) as [(-> & ->)|Hne]; [rewrite Ex; by exists x'|]. apply H1. tauto.
      * intros Hdn. rewrite decide_False by tauto. apply H2. tauto.
  - apply wp_ret. split; [by eexists _, _|]. intros v g. destruct (Hd v g) as [H1 H2]. split.
    + intros [Hdn|[-> ->]]; [by apply H1|]. by rewrite Hsame, Ex.
    + intros Hdn. apply H2. tauto.
Qed.

Lemma vl_grown_ext (d d' : Z → vfield → Prop) s s' :
  (∀ v f, d v f ↔ d' v f) → vl_grown d s s' → vl_grown d' s s'.
Proof. intros Hd [H1 H2]. split; [done|]. intros v f. rewrite <- Hd. apply H2. Qed.

Lemma wp_vl_reallocs s :
  (∀ v f x, vl_array v f s = Some x → arr n x) →
  wp (forM (seqZ 0 NUMOFVLAN) (λ i, forM [Table; Bctag; Bcuntag; Notlearning] (vl_realloc E i n val)))
    (λ _ s', vl_grown (λ v _, v ∈ seqZ 0 NUMOFVLAN) s s') s.
Proof.
  intros Harr. apply (wp_forM _ _ (λ l s', vl_grown (λ v _, v ∈ l) s s')).
  - split; [by eexists (ncalloc s), (vlant s); destruct s|]. intros v f. split; [set_solver|done].
  - intros l1 i l2 s1 Hl G1.
    assert (i ∈ seqZ 0 NUMOFVLAN) as Hin by (rewrite Hl; set_solver). apply elem_of_seqZ in Hin.
    assert (i ∉ l1) as Hni.
    { eapply NoDup_prefix; [|exact Hl]. apply NoDup_seqZ. }
    eapply wp_mono; [apply (wp_forM _ _ (λ l s', vl_grown (λ v f, v ∈ l1 ∨ v = i ∧ f ∈ l) s s'))|].
    + eapply vl_grown_ext, G1. intros v f. set_solver.
    + intros k1 f k2 s2 Hk G2. eapply wp_mono; [apply wp_vl_realloc; [done|lia| |exact G2]|].
      * intros [?|[_ Hf]]; [done|]. revert Hf. eapply NoDup_prefix; [|exact Hk]. by apply (bool_decide_unpack _).
      * intros [] s3 G3. eapply vl_grown_ext, G3. intros v g. set_solver.
    + intros [] s2 G2. eapply vl_grown_ext, G2. intros v f.
      assert (f ∈ [Table; Bctag; Bcuntag; Notlearning]) by (destruct f; set_solver). set_solver.
Qed.

(** The spanning-tree tables. *)
Definition fs_grown (done : Z → ffield → Prop) s s' : Prop :=
  (∃ c m, s' = set_ncalloc c (set_fst (set_fsttab m (fst_st s)) s)) ∧
  ∀ v, (is_Some (fsttab (fst_st s') !! v) ↔ is_Some (fsttab (fst_st s) !! v)) ∧
  ∀ f, (done v f → grown (fs_array v f s) (fs_array v f s')) ∧ (¬ done v f → fs_array v f s' = fs_array v f s).

Lemma fs_grown_ext (d d' : Z → ffield → Prop) s s' :
  (∀ v f, d v f ↔ d' v f) → fs_grown d s s' → fs_grown d' s s'.
Proof. intros Hd [H1 H2]. split; [done|]. intros v. split; [apply H2|]. intros f. rewrite <- Hd. apply H2. Qed.

Lemma wp_fs_realloc s s1 (done : Z → ffield → Prop) i f :
  (∀ v f, is_Some (fsttab (fst_st s) !! v) → ∃ x, fs_array v f s = Some x ∧ arr n x) →
  0 ≤ i < NUMOFVLAN → is_Some (fsttab (fst_st s) !! i) → ¬ done i f → fs_grown done s s1 →
  wp (fs_realloc E i n val f) (λ _ s', fs_grown (λ v g, done v g ∨ v = i ∧ g = f) s s') s1.
Proof.
  intros Harr Hi Hs Hnd [(c & m & Hs1) Hd]. destruct (Harr i f Hs) as (x & Hx & Hax).
  destruct (Hd i) as [Hi1 Hf1]. destruct (Hf1 f) as [_ Hsame]. specialize (Hsame Hnd). rewrite Hx in Hsame.
  apply Hi1 in Hs as [r Hr]. rewrite (fs_array_Some _ _ _ _ Hr) in Hsame.
  apply wp_bind, wp_calloc. cbv iota beta. apply wp_bind, wp_bind, wp_fs_ptr; [done|]. cbn [set_ncalloc fst_st]. rewrite Hr.
  apply (wp_deref _ r); [done|]. apply wp_bind, (wp_deref _ x); [done|].
  destruct (arr_grow x Hax) as (x' & Hx' & Ha & Hb). apply wp_bind. eapply wp_deref; [exact Hx'|]. apply wp_modify. split.
  - subst s1. by eexists _, _.
  - set (s2 := set_fst _ _). assert (s2 = put_fs (set_ncalloc (S (ncalloc s1)) s1) i (fset f (Some x') r)) as -> by done.
    intros v. destruct (Hd v) as [Hi2 Hf2]. split.
    + rewrite <- Hi2. unfold put_fs. cbn. destruct (decide (v = i)) as [->|];
        [by rewrite lookup_insert_eq, Hr|by rewrite lookup_insert_ne].
    + intros g. assert (fs_array v g (put_fs (set_ncalloc (S (ncalloc s1)) s1) i (fset f (Some x') r)) =
        if decide (v = i ∧ g = f) then Some x' else fs_array v g s1) as ->.
      { rewrite fs_array_put. destruct (decide (v = i)) as [->|]; [|by rewrite decide_False by tauto].
        rewrite fget_fset. destruct (decide (g = f)) as [->|]; [by rewrite decide_True|].
        rewrite decide_False by tauto. by rewrite (fs_array_Some _ _ _ _ Hr). }
      destruct (Hf2 g) as [H1 H2]. split.
      * intros Hdn. destruct (decide (v = i ∧ g = f)) as [(-> & ->)|Hne]; [rewrite Hx; by exists x'|]. apply H1. tauto.
      * intros Hdn. rewrite decide_False by tauto. apply H2. tauto.
Qed.

Lemma wp_fstsetnumports s :
  (∀ v f, is_Some (fsttab (fst_st s) !! v) → ∃ x, fs_array v f s = Some x ∧ arr n x) →
  fnumports (fst_st s) = n →
  wp (fstsetnumports E val) (λ _ s', ∃ s1, fs_grown (λ v _, v ∈ seqZ 0 NUMOFVLAN) s s1 ∧
    s' = set_fst (set_fnumports val (fst_st s1)) s1) s.
Proof.
  intros Harr Hfn. apply wp_bind.
  eapply wp_mono; [apply (wp_forM _ _ (λ l s', fs_grown (λ v _, v ∈ l) s s'))|].
  - split; [by eexists (ncalloc s), (fsttab (fst_st s)); destruct s as [? ? ? ? ? ? [] ? ? ? ? ? ?]|].
    intros v. split; [done|]. intros f. split; [set_solver|done].
  - intros l1 i l2 s1 Hl G1.
    assert (i ∈ seqZ 0 NUMOFVLAN) as Hin by (rewrite Hl; set_solver). apply elem_of_seqZ in Hin.
    assert (i ∉ l1) as Hni.
    { eapply NoDup_prefix; [|exact Hl]. apply NoDup_seqZ. }
    apply wp_bind, wp_fs_ptr; [lia|]. pose proof G1 as [(c & m & Hs1) Hd1]. destruct (Hd1 i) as [Hi1 Hf1].
    destruct (fsttab (fst_st s1) !! i) as [r|] eqn:Er.
    + apply wp_bind, wp_gets. assert (fnumports (fst_st s1) = n) as -> by (by subst s1).
      assert (is_Some (fsttab (fst_st s) !! i)) as Hsi by (by apply Hi1).
      eapply wp_mono; [apply (wp_forM _ _ (λ l s', fs_grown (λ v f, v ∈ l1 ∨ v = i ∧ f ∈ l) s s'))|].
      * eapply fs_grown_ext, G1. intros v f. set_solver.
      * intros k1 f k2 s2 Hk G2. eapply wp_mono; [apply wp_fs_realloc; [done|lia|done| |exact G2]|].
        -- intros [?|[_ Hf]]; [done|]. revert Hf. eapply NoDup_prefix; [|exact Hk]. by apply (bool_decide_unpack _).
        -- intros [] s3 G3. eapply fs_grown_ext, G3. intros v g. set_solver.
      * intros [] s2 G2. eapply fs_grown_ext, G2. intros v f.
        assert (f ∈ [Untag; Tagged; Backup; Edge; Rcvhist0; Rcvhist1]) by (destruct f; set_solver). set_solver.
    + apply wp_ret. split; [by eexists _, _|]. intros v. destruct (Hd1 v) as [H1 H2]. split; [done|].
      intros f. destruct (H2 f) as [H3 H4]. split.
      * intros Hv. destruct (decide (v = i)) as [->|]; [|apply H3; set_solver].
        unfold fs_array. rewrite Er. destruct (fsttab (fst_st s) !! i) eqn:Es; [|done].
        destruct Hi1 as [_ Hi1]. by destruct Hi1.
      * intros Hv. apply H4. set_solver.
  - intros [] s1 G1. apply wp_modify. by exists s1.
Qed.

End grow.

Lemma wp_any_port l s :
  dims s → (∀ i, i ∈ l → 0 ≤ i < numports s) →
  wp (any_port l) (λ b s', s' = s ∧ (b = false → ∀ i, i ∈ l → pat s i = None)) s.
Proof.
  intros Hd. induction l as [|i l IH]; intros Hl; [apply wp_ret; split; [done|set_solver]|].
  apply wp_bind, wp_port_ptr; [done|apply Hl; set_solver|]. destruct (pat s i) eqn:Ep; [done|].
  eapply wp_mono; [apply IH; set_solver|]. intros b s' [-> Hb]. split; [done|]. intros Hf j Hj.
  apply elem_of_cons in Hj as [->|]; auto.
Qed.

Lemma wp_clear_ports s n val :
  n = numports s → Z.of_nat (length (portv s)) = val → (∀ i, n ≤ i < val → zget (portv s) i = Some None) → 0 ≤ n →
  wp (forM (seqZ n (val - n)) (λ i, portv_store i None)) (λ _ s', s' = s) s.
Proof.
  intros Hn Hl Hnone Hn0. apply (wp_forM_inv _ _ (λ s', s' = s)); [done|]. intros i s' Hi%elem_of_seqZ ->.
  apply wp_bind, wp_get, wp_bind. eapply wp_deref; [apply zset_is_Some; lia|]. apply wp_modify.
  assert (zget (portv s) i = Some None) as [_ Hz]%zget_Some by (apply Hnone; lia).
  rewrite list_insert_id by done. by destruct s.
Qed.

(** The state after the growth. *)
Lemma grown_inv s val c m c' m' (n := numports s) :
  inv s → n ≤ val < 2 ^ 31 →
  let s1 := set_portv (portv s ++ replicate (Z.to_nat (val - n)) None) s in
  let s2 := set_ncalloc c (set_vlant m s1) in
  let s3 := set_ncalloc c' (set_fst (set_fsttab m' (fst_st s2)) s2) in
  vl_grown val (λ v _, v ∈ seqZ 0 NUMOFVLAN) s1 s2 → fs_grown val (λ v _, v ∈ seqZ 0 NUMOFVLAN) s2 s3 →
  inv (set_numports val (set_fst (set_fnumports val (fst_st s3)) s3)).
Proof.
  intros Hi Hval s1 s2 s3 [_ GV] [_ GF]. pose proof (i_dims s Hi) as Hd. pose proof (d_np s Hd) as Hnp.
  pose proof (d_len s Hd) as Hl. set (s5 := set_numports _ _).
  assert (∀ v f, vl_array v f s5 = vl_array v f s2) as Hva by done.
  assert (∀ v f, fs_array v f s5 = fs_array v f s3) as Hfa by done.
  assert (∀ v, valid s5 v ↔ valid s v) as Hv by done.
  assert (∀ v, valid s v → v ∈ seqZ 0 NUMOFVLAN) as Hin.
  { intros v Hvv. apply elem_of_seqZ. apply (d_vr s Hd) in Hvv. unfold NUMOFVLAN in *. lia. }
  assert (∀ v f, ∃ o, vl_array v f s = o ∧ grown val o (vl_array v f s5) ∨ ¬ valid s v ∧ vl_array v f s5 = None) as HG.
  { intros v f. destruct (GV v f) as [G1 G2]. destruct (decide (v ∈ seqZ 0 NUMOFVLAN)) as [Hi'|Hi'].
    - exists (vl_array v f s). left. split; [done|]. by apply G1.
    - exists None. right. split; [by intros ?%Hin|]. rewrite Hva, G2 by done. apply (d_vn s Hd). by intros ?%Hin. }
  assert (∀ v f, ∃ o, fs_array v f s = o ∧ grown val o (fs_array v f s5) ∨ ¬ valid s v ∧ fs_array v f s5 = None) as HF.
  { intros v f. destruct (GF v) as [_ G]. destruct (G f) as [G1 G2]. destruct (decide (v ∈ seqZ 0 NUMOFVLAN)) as [Hi'|Hi'].
    - exists (fs_array v f s). left. split; [done|]. by apply G1.
    - exists None. right. split; [by intros ?%Hin|]. rewrite Hfa, G2 by done. unfold fs_array.
      assert (fsttab (fst_st s2) !! v = None) as -> by (apply (d_fn s Hd); by intros ?%Hin). done. }
  assert (∀ q, zget (portv s5) q = if decide (numports s ≤ q < val) then Some None else zget (portv s) q) as Hpv.
  { intros q. change (portv s5) with (portv s ++ replicate (Z.to_nat (val - n)) None).
    destruct (decide (q < numports s)) as [Hq|Hq].
    - rewrite decide_False by lia. apply zget_app_l. lia.
    - case_decide as Hq2.
      + apply zget_Some. split; [lia|]. rewrite lookup_app_r by lia. apply lookup_replicate. split; [done|]. unfold n. lia.
      + rewrite !zget_ge; [done|lia|]. rewrite length_app, length_replicate. unfold n. lia. }
  assert (∀ q, psig s5 q = psig s q) as Hsig.
  { intros q. unfold psig, pat. rewrite Hpv. case_decide; [|done]. rewrite (zget_ge (portv s)) by lia. done. }
  assert (dims s5) as D5.
  { split; rewrite ?Hv; try (by apply Hd).
    - unfold s5. cbn [numports set_numports]. lia.
    - change (portv s5) with (portv s ++ replicate (Z.to_nat (val - n)) None). rewrite length_app, length_replicate. unfold n. simpl. lia.
    - done.
    - intros v f Hvv. destruct (HG v f) as [o [[Ho G]|[? _]]]; [|done]. destruct (d_v s Hd v f Hvv) as (x & Hx & _).
      rewrite Hx in Ho. subst o. destruct G as (x' & -> & ? & _). by exists x'.
    - intros v f Hvv. destruct (HF v f) as [o [[Ho G]|[? _]]]; [|done]. destruct (d_f s Hd v f Hvv) as (x & Hx & _).
      rewrite Hx in Ho. subst o. destruct G as (x' & -> & ? & _). by exists x'.
    - intros v f Hvv. destruct (HG v f) as [o [[Ho G]|[_ ?]]]; [|done]. rewrite (d_vn s Hd v f Hvv) in Ho. by subst o.
    - intros v Hvv. destruct (GF v) as [[G _] _]. pose proof (d_fn s Hd v Hvv) as Hnone.
      apply eq_None_not_Some. intros [x G']%G. change (fsttab (fst_st s) !! v = Some x) in G'. congruence. }
  apply (inv_views s s5 Hi D5); [split|apply Hv, Hi]; try done.
  - intros v f q _. unfold vb. destruct (HG v f) as [o [[<- G]|[Hnv Hnone]]].
    + by eapply grown_bit.
    + by rewrite Hnone, (d_vn s Hd v f Hnv).
  - intros v q. unfold vb. destruct (HG v Notlearning) as [o [[<- G]|[Hnv Hnone]]].
    + by rewrite (grown_bit _ _ _ q G).
    + by rewrite Hnone.
  - intros v f q _. unfold fb. destruct (HF v f) as [o [[<- G]|[Hnv Hnone]]].
    + by eapply grown_bit.
    + rewrite Hnone. unfold fs_array. by rewrite (d_fn s Hd v Hnv).
Qed.

(** [port/setnumports] to at least as many ports, or refused. *)
Lemma keeps_portsetnumports val s :
  inv s → val < 2 ^ 31 → numports s ≤ val ∨ val ≤ 0 ∨ (∃ i, val ≤ i ∧ is_Some (pat s i)) →
  wp (portsetnumports E val) (λ _ s', inv s') s.
Proof.
  intros Hi Hv31 Hok. pose proof (i_dims s Hi) as Hd. pose proof (d_np s Hd) as Hnp. pose proof (d_len s Hd) as Hl.
  unfold portsetnumports. wp_if as Hv0; [done|]. apply Z.leb_gt in Hv0. apply wp_bind, wp_gets, wp_bind.
  eapply wp_mono; [apply wp_any_port; [done|intros i Hi'%elem_of_seqZ; lia]|]. intros b s' [-> Hb].
  destruct b; [done|]. specialize (Hb eq_refl).
  assert (numports s ≤ val) as Hge.
  { destruct Hok as [|[|(i & Hvi & Hs)]]; [done|lia|]. destruct (decide (i < numports s)).
    - rewrite Hb in Hs by (apply elem_of_seqZ; lia). by destruct Hs.
    - destruct Hs as [pt Hp%pat_range]. lia. }
  apply wp_bind, wp_calloc. cbv iota beta. apply wp_bind, wp_modify.
  set (n := numports s) in *. rewrite take_ge by (simpl; lia). cbn [portv set_ncalloc].
  set (s0 := set_ncalloc (S (ncalloc s)) s).
  assert (inv s0) as I0 by (by apply (inv_ext s)).
  change (set_portv (portv s ++ replicate (Z.to_nat (val - n)) None) s0) with
    (set_portv (portv s0 ++ replicate (Z.to_nat (val - n)) None) s0). set (s1 := set_portv _ s0).
  apply wp_bind. eapply wp_mono; [apply (wp_vl_reallocs n val ltac:(lia) ltac:(lia) s1)|].
  { intros v f x Hx. destruct (decide (v < 4096 ∧ bmem (validvlan s0) v = true)) as [Hvv|Hvv].
    - destruct (d_v s Hd v f Hvv) as (y & Hy & Ha). change (vl_array v f s = Some x) in Hx.
      rewrite Hy in Hx. by injection Hx as <-.
    - pose proof (d_vn s Hd v f Hvv) as Hy. change (vl_array v f s = Some x) in Hx. congruence. }
  intros [] s2 G2. pose proof G2 as [(c & m & ->) _]. apply wp_bind.
  eapply wp_mono; [apply (wp_clear_ports _ n val)|].
  { done. } { simpl. rewrite length_app, length_replicate. unfold n. lia. }
  { intros i Hi'. apply zget_Some. split; [lia|]. cbn [portv s1 set_portv set_ncalloc set_vlant].
    rewrite lookup_app_r by (simpl; lia). apply lookup_replicate. split; [done|]. simpl. lia. }
  { lia. }
  intros [] s2' ->. apply wp_bind. eapply wp_mono; [apply (wp_fstsetnumports n val ltac:(lia) ltac:(lia))|].
  { intros v f [r Hr]. destruct (decide (v < 4096 ∧ bmem (validvlan s0) v = true)) as [Hvv|Hvv].
    - exact (d_f s Hd v f Hvv).
    - pose proof (d_fn s Hd v Hvv) as Hy. change (fsttab (fst_st s) !! v = Some r) in Hr. congruence. }
  { exact (d_fnp s Hd). }
  intros [] s4 (s3 & G3 & ->). pose proof G3 as [(c' & m' & ->) _]. apply wp_bind, wp_modify, wp_ret.
  apply (grown_inv s0 val c m c' m'); [done|done|done|done].
Qed.

End vlanlife.
