(* ===== verification/Forward.v ===== *)
(** * Forward: what the switch does with a received frame

    [handle_in_packet] never faults on a reachable state, keeps the invariant,
    learns the source address and sends the frame to exactly the ports that a
    switch should: the forwarding specification, VLAN isolation. *)
From Stdlib Require Import Lia Sorted.
From stdpp Require Import base numbers list gmap strings.
From S2P Require Import Prelude Scan BitArray Hash Qtimer Switch PortSend Fstp Port SwitchInv SpanInv SwitchSafe PortSafe PortLife.

Section forward.
Context {T : Type} `{!MacTable T} (E : env).
Abbreviation sw := (switch T).
Implicit Type s : sw.

(** ** Sending, precisely *)

Definition send_event (frame : list Z) (e : endpoint) : event := EvSend (fd_ctl e) (fd_data e) frame (ep_port e).

(** The sends of one frame to all the endpoints of port [q]. *)
Definition delivs s (q : Z) (frame : list Z) : list event :=
  match psig s q with Some pt => send_event frame <$> p_ep pt | None => [] end.

(** Port [q] was sent [frame]: endpoint by endpoint, at once or, with the packet
    queues, perhaps later; [exact]: at once. *)
Definition sent_to (exact : bool) s (q : Z) (frame : list Z) (l : list event) : Prop :=
  if exact then l = delivs s q frame
  else ∀ ev, ev ∈ l → ev ∈ delivs s q frame ∨ ∃ d, ev = EvPollAdd d.

Definition exact : bool := negb (VDE_PQ2 E).

Lemma wp_send_ep_exact s ms e packet len tmp :
  is_Some ms →
  wp (send_ep E ms e packet len tmp) (λ r s', portv s' = portv s ∧
    ∃ l, trace s' = trace s ++ l ∧
      if exact then l = [send_event (take_z len packet) e]
      else ∀ ev, ev ∈ l → ev = send_event (take_z len packet) e ∨ ∃ d, ev = EvPollAdd d) s.
Proof.
  intros Hms. unfold send_ep, exact. destruct (VDE_PQ2 E); simpl.
  - apply wp_bind. eapply (wp_mono _ (λ _ s', portv s' = portv s ∧ ∃ l, trace s' = trace s ++ l ∧
      ∀ ev, ev ∈ l → ev = send_event (take_z len packet) e)).
    { destruct (vdepq_count e =? 0); simpl.
      - apply wp_bind, wp_call_sender; [done|]. intros rv s' _ Hp ->. apply wp_ret. split; [done|].
        eexists; split; [done|]. set_solver.
      - apply wp_ret. split; [done|]. exists []. rewrite app_nil_r. set_solver. }
    intros [] s1 (P1 & l1 & T1 & H1); simpl.
    2: { apply wp_ret. split; [done|]. exists l1. split; [done|]. intros ev Hev. left. auto. }
    apply wp_bind. eapply (wp_mono _ (λ _ s', portv s' = portv s1 ∧ trace s' = trace s1)).
    { destruct (vdepq_count e <? vdepq_max e); [|done]. apply wp_bind. unfold vdepq_add_q.
      apply wp_bind. unfold wp at 1, malloc. destruct (malloc_ok E _); simpl; [|done].
      destruct tmp; simpl; [done|]. apply wp_bind. unfold wp at 1. by destruct (malloc_ok E _). }
    intros r s2 [P2 T2]. apply wp_bind, wp_whenM; intros _.
    + apply wp_modify, wp_ret. split; [simpl; congruence|]. exists (l1 ++ [EvPollAdd (fd_data r.1)]).
      split; [simpl; rewrite T2, T1; by rewrite <- app_assoc|]. intros ev [Hev|Hev]%elem_of_app; [left; auto|].
      right. exists (fd_data r.1). set_solver.
    + apply wp_ret. split; [congruence|]. exists l1. split; [congruence|]. intros ev Hev. left. auto.
  - apply wp_bind, wp_call_sender; [done|]. intros rv s' _ Hp ->. apply wp_ret. split; [done|]. by eexists.
Qed.

Lemma wp_send_eps_exact l : ∀ s ms packet len tmp,
  (l ≠ [] → is_Some ms) →
  wp (send_eps E ms l packet len tmp) (λ r s', portv s' = portv s ∧
    ∃ evs, trace s' = trace s ++ evs ∧
      if exact then evs = send_event (take_z len packet) <$> l
      else ∀ ev, ev ∈ evs → ev ∈ send_event (take_z len packet) <$> l ∨ ∃ d, ev = EvPollAdd d) s.
Proof.
  induction l as [|e l IH]; intros s ms packet len tmp Hms.
  { apply wp_ret. split; [done|]. exists []. rewrite app_nil_r. split; [done|]. destruct exact; [done|set_solver]. }
  apply wp_bind. eapply wp_mono; [apply wp_send_ep_exact; by apply Hms|]. intros r s1 (P1 & l1 & T1 & H1).
  apply wp_bind. eapply wp_mono; [apply IH; intros _; by apply Hms|]. intros rs s2 (P2 & l2 & T2 & H2).
  apply wp_ret. split; [congruence|]. exists (l1 ++ l2). split; [rewrite T2, T1; by rewrite app_assoc|].
  destruct exact; [by subst|]. intros ev [Hev|Hev]%elem_of_app; csimpl.
  - destruct (H1 ev Hev) as [->|]; [left; set_solver|by right].
  - destruct (H2 ev Hev) as [|]; [left; set_solver|by right].
Qed.

(** The ports not in [l] are untouched. *)
Definition only_ports (l : list Z) s s' : Prop := ∀ q, q ∉ l → pat s' q = pat s q.

Lemma wp_SEND_exact s p packet len tmp :
  dims s → sigs_ok s → is_Some (psig s p) → len ≠ 0 →
  wp (SEND_PACKET_PORT E p packet len tmp) (λ _ s', quiet s s' ∧ only_ports [p] s s' ∧
    ∃ l, trace s' = trace s ++ l ∧ sent_to exact s p (take_z len packet) l) s.
Proof.
  intros Hd Hok Hps Hlen. apply wp_conj; [by apply wp_SEND|].
  pose proof Hps as [ps Hp]. pose proof Hp as (pt & Hpt & ->)%psig_Some. destruct (Hok p _ Hp) as [Hms _].
  assert (delivs s p (take_z len packet) = send_event (take_z len packet) <$> p_ep pt) as Hdel.
  { unfold delivs. rewrite Hp. simpl. by rewrite <- list_fmap_compose. }
  unfold sent_to. rewrite Hdel.
  apply wp_bind, (wp_port_ptr_Some s p pt); [done|]. rewrite (proj2 (Z.eqb_neq _ _)) by done.
  apply wp_bind, (wp_deref _ pt); [done|]. set (pt' := if PORTCOUNTERS E then _ else pt).
  assert (p_ep pt' = p_ep pt ∧ p_ms pt' = p_ms pt) as (Hep & Hm) by (unfold pt'; by destruct (PORTCOUNTERS E)).
  apply wp_bind. rewrite Hep, Hm. eapply wp_mono.
  { apply wp_send_eps_exact. intros Hne. apply Hms. simpl. by destruct (p_ep pt). }
  intros rs s1 (P1 & l & T1 & H1). apply wp_bind.
  assert (0 ≤ p < Z.of_nat (length (portv s1))) as Hr by (rewrite P1; by eapply pat_range).
  apply wp_bind, wp_get, wp_bind. eapply wp_deref; [by apply zset_is_Some|]. apply wp_modify, wp_ret. split.
  - intros q Hq. fold (put_port s1 p (Some (upd_ep rs.1 pt'))). rewrite pat_put, decide_False by (done || set_solver).
    unfold pat. by rewrite P1.
  - by exists l.
Qed.

(** Sending to a list of ports; [fwd_log] is the concatenation of their sends. *)
Inductive fwd_log s (frame : Z → list Z) : list Z → list event → Prop :=
| fwd_nil : fwd_log s frame [] []
| fwd_cons q l evs evs' : sent_to exact s q (frame q) evs → fwd_log s frame l evs' → fwd_log s frame (q :: l) (evs ++ evs').

Lemma fwd_log_app s frame l1 l2 e1 e2 :
  fwd_log s frame l1 e1 → fwd_log s frame l2 e2 → fwd_log s frame (l1 ++ l2) (e1 ++ e2).
Proof. induction 1; [done|]. intros. simpl. rewrite <- app_assoc. constructor; auto. Qed.

Lemma fwd_log_sig s s' frame l evs :
  (∀ q, psig s' q = psig s q) → fwd_log s' frame l evs → fwd_log s frame l evs.
Proof.
  intros Hs. induction 1; constructor; [|done]. unfold sent_to, delivs in *. by rewrite Hs in H.
Qed.

Lemma fwd_log_ext s (f g : Z → list Z) l evs :
  (∀ q, q ∈ l → f q = g q) → fwd_log s f l evs → fwd_log s g l evs.
Proof.
  intros Hfg H. revert Hfg. induction H; intros Hfg; constructor.
  - rewrite <- Hfg; [done|set_solver].
  - apply IHfwd_log. set_solver.
Qed.

(** Without packet queues the log is determined. *)
Lemma fwd_log_exact s frame l evs :
  VDE_PQ2 E = false → fwd_log s frame l evs → evs = mjoin ((λ q, delivs s q (frame q)) <$> l).
Proof.
  intros Hpq. induction 1 as [|q l e1 e2 Hq Hl IH]; [done|]. csimpl. rewrite <- IH.
  unfold sent_to, exact in Hq. rewrite Hpq in Hq. simpl in Hq. by subst e1.
Qed.

(** In every build, every send of the log is a send of the frame to an endpoint
    of one of the ports. *)
Lemma fwd_log_elem s frame l evs ev :
  fwd_log s frame l evs → ev ∈ evs → (∃ q, q ∈ l ∧ ev ∈ delivs s q (frame q)) ∨ ∃ d, ev = EvPollAdd d.
Proof.
  induction 1 as [|q l e1 e2 Hq Hl IH]; [set_solver|]. intros [He|He]%elem_of_app.
  - unfold sent_to in Hq. destruct exact; [subst; left; exists q; set_solver|].
    destruct (Hq ev He) as [|]; [left; exists q; set_solver|by right].
  - destruct (IH He) as [(q' & ? & ?)|]; [left; exists q'; set_solver|by right].
Qed.

Lemma wp_send_ports_exact l : ∀ s packet len tmp,
  dims s → sigs_ok s → (∀ p, p ∈ l → is_Some (psig s p)) → len ≠ 0 →
  wp (send_ports E l packet len tmp) (λ _ s', quiet s s' ∧ only_ports l s s' ∧
    ∃ evs, trace s' = trace s ++ evs ∧ fwd_log s (λ _, take_z len packet) l evs) s.
Proof.
  induction l as [|p l IH]; intros s packet len tmp Hd Hok Hl Hlen.
  { apply wp_ret. split_and!; [done|done|]. exists []. rewrite app_nil_r. split; [done|constructor]. }
  apply wp_bind. eapply wp_mono; [apply wp_SEND_exact; [done..|apply Hl; set_solver|done]|].
  intros t s1 (Q1 & O1 & e1 & T1 & S1). pose proof (quiet_calm _ _ Q1 Hd) as C1.
  eapply wp_mono; [apply IH|].
  - apply C1.
  - eapply frame_sigs_ok; [apply C1|done].
  - intros q Hq. rewrite (q_sig _ _ Q1). apply Hl. set_solver.
  - done.
  - intros t' s2 (Q2 & O2 & e2 & T2 & L2). split_and!; [exact (transitivity Q1 Q2)| |].
    + intros q Hq. rewrite O2, O1 by set_solver. done.
    + exists (e1 ++ e2). split; [rewrite T2, T1; by rewrite app_assoc|]. constructor; [done|].
      eapply fwd_log_sig; [|done]. apply Q1.
Qed.

(** ** Sending to the members of a table *)

Lemma send_ports_app l1 l2 packet len tmp s :
  send_ports E (l1 ++ l2) packet len tmp s = (t ← send_ports E l1 packet len tmp; send_ports E l2 packet len t) s.
Proof.
  revert tmp s. induction l1 as [|p l1 IH]; intros tmp s; [done|]. cbn [send_ports app]. unfold mbind, M_bind in *.
  destruct (SEND_PACKET_PORT E p packet len tmp s); [|done..]. apply IH.
Qed.

Definition send_step (getx : sw → option bitarray) (except : Z) (packet : list Z) (len : Z)
    (acc : M sw (option (list Z))) (i : Z) : M sw (option (list Z)) :=
  tmp ← acc; s ← get; x ← deref (getx s); v ← deref (zget x i);
  send_ports E (filter (λ k, k ≠ except) (bits_of 64 v (i * 64))) packet len tmp.

Lemma foldl_send getx except packet len tmp s x r :
  0 ≤ r ≤ Z.of_nat (length x) →
  (∀ r' t s', 0 ≤ r' ≤ r →
     send_ports E (filter (λ k, k ≠ except) (ba_elems x r')) packet len tmp s = Done t s' → getx s' = Some x) →
  foldl (send_step getx except packet len) (mret tmp) (seqZ 0 r) s =
  send_ports E (filter (λ k, k ≠ except) (ba_elems x r)) packet len tmp s.
Proof.
  intros [Hr Hlen]. revert Hlen. pattern r. apply natlike_ind; [done| |done]. clear r Hr.
  intros r Hr IH Hlen Hg. unfold Z.succ in *. rewrite foldl_seqZ_S, Z.add_0_l by lia.
  destruct (zget_is_Some x r) as [w Hw]; [lia|]. rewrite ba_elems_S, Hw, filter_app, send_ports_app by lia. simpl.
  unfold send_step at 1. unfold mbind at 1, M_bind at 1. rewrite IH; [|lia|intros r' t s' Hr'; apply (Hg r'); lia].
  unfold mbind, M_bind. destruct (send_ports E _ packet len tmp s) as [t s'| |] eqn:Es; [|done..]. unfold get.
  rewrite (Hg r t s'); [|lia|done]. simpl. unfold mret, M_ret. rewrite Hw. done.
Qed.

Lemma StronglySorted_filter_ne (l : list Z) (c : Z) :
  StronglySorted Z.lt l → StronglySorted Z.lt (filter (λ k, k ≠ c) l).
Proof.
  induction 1 as [|x l Hs IH Hf]; [constructor|]. rewrite filter_cons. case_decide; [|done]. constructor; [done|].
  apply Forall_forall. intros y [_ Hy]%list_elem_of_filter. by eapply Forall_forall in Hf.
Qed.

Lemma wp_FORALL_SEND s v f except packet len tmp :
  dims s → sigs_ok s → valid s v → (∀ q, vb s v f q = true → is_Some (psig s q)) → len ≠ 0 →
  ∃ l, (∀ q, q ∈ l ↔ q ≠ except ∧ vb s v f q = true) ∧ StronglySorted Z.lt l ∧
  wp (FORALL_SEND E (vl_array v f) except packet len tmp) (λ _ s', quiet s s' ∧ only_ports l s s' ∧
    ∃ evs, trace s' = trace s ++ evs ∧ fwd_log s (λ _, take_z len packet) l evs) s.
Proof.
  intros Hd Hok Hv Hall Hlen. destruct (d_v s Hd v f Hv) as (x & Hx & Ha). pose proof Ha as [[Hw Hl] Hb].
  pose proof (d_np s Hd) as Hnp. pose proof (wround_nonneg (numports s) ltac:(lia)) as Hr.
  pose proof (wround_bound (numports s)) as HR.
  assert (∀ r q, q ∈ filter (λ k, k ≠ except) (ba_elems x r) → 0 ≤ r → q ≠ except ∧ vb s v f q = true) as Hel.
  { intros r q [Hne Hin]%list_elem_of_filter Hr0. apply elem_of_ba_elems in Hin as [_ Hm]; [|done].
    split; [done|]. unfold vb. by rewrite Hx. }
  exists (filter (λ k, k ≠ except) (ba_elems x (WORDSIZEROUND (numports s)))). split_and!.
  - intros q. split; [intros Hq; by apply (Hel _ _ Hq)|]. intros [Hne Hbit]. apply list_elem_of_filter. split; [done|].
    pose proof (vb_range _ _ _ _ Hd Hbit) as [_ Hq]. apply elem_of_ba_elems; [done|]. split; [lia|].
    unfold vb in Hbit. by rewrite Hx in Hbit.
  - by apply StronglySorted_filter_ne, ba_elems_sorted.
  - unfold FORALL_SEND. apply wp_bind, wp_get. unfold wp.
    rewrite (foldl_send (vl_array v f) except packet len tmp s x); [|lia|].
    + fold (wp (send_ports E (filter (λ k, k ≠ except) (ba_elems x (WORDSIZEROUND (numports s)))) packet len tmp)
        (λ _ s', quiet s s' ∧ only_ports (filter (λ k, k ≠ except) (ba_elems x (WORDSIZEROUND (numports s)))) s s' ∧
          ∃ evs, trace s' = trace s ++ evs ∧ fwd_log s (λ _, take_z len packet)
            (filter (λ k, k ≠ except) (ba_elems x (WORDSIZEROUND (numports s)))) evs) s).
      apply wp_send_ports_exact; [done..| |done]. intros q Hq. apply Hall. by apply (Hel _ _ Hq).
    + intros r' t s' Hr' Hs'. assert (quiet s s') as Q.
      { refine (wp_Done _ (λ _ s', quiet s s') s t s' _ Hs'). apply wp_send_ports; [done..|].
        intros q Hq. apply Hall. apply (Hel _ _ Hq). lia. }
      by rewrite (quiet_array _ _ _ _ Q).
Qed.

(** ** The forwarding specification *)

(** The VLAN of a frame received on [p]. *)
Definition in_vlan s (p : Z) (packet : list Z) : Z := if is_tagged packet then tag_vlan packet else utag s p.

(** The frame as port [q] gets it: untagged on its own VLAN, tagged on the
    others. *)
Definition frame_for s (vlan : Z) (tagged : bool) (packet : list Z) (len : Z) (q : Z) : list Z :=
  let '(pk, n) :=
    if tagged then if utag s q =? vlan then TAG2UNTAG packet len else (packet, len)
    else if utag s q =? vlan then (packet, len) else UNTAG2TAG packet vlan len in
  take_z n pk.

(** Port [q] forwards on the VLAN. *)
Definition forwards s (v q : Z) : Prop := vb s v Bctag q = true ∨ vb s v Bcuntag q = true.

(** The ports a frame for [dest] goes to, given the learned port. *)
Definition targets_ok s (p v : Z) (known : option Z) (l : list Z) : Prop :=
  match known with
  | None => NoDup l ∧ ∀ q, q ∈ l ↔ q ≠ p ∧ forwards s v q
  | Some q => l = if q =? p then [] else [q]
  end.

(** A frame went out: to the ports of [l], in the form each expects. *)
Definition went_out s (p v : Z) (tagged : bool) packet len (l : list Z) s' : Prop :=
  quiet s s' ∧ only_ports l s s' ∧
  ∃ evs, trace s' = trace s ++ evs ∧ fwd_log s (frame_for s v tagged packet len) l evs.

Lemma inv_bc_psig s v f q : inv s → f = Bctag ∨ f = Bcuntag → vb s v f q = true → is_Some (psig s q).
Proof. intros Hi Hf Hb. destruct (i_alloc s Hi v q) as [H _]. apply (H f); [naive_solver|done]. Qed.

Lemma sorted_nodup (l : list Z) : StronglySorted Z.lt l → NoDup l.
Proof.
  induction 1 as [|x l Hl IH Hx]; constructor; [|done]. rewrite Forall_forall in Hx. intros Hin%Hx. lia.
Qed.

Lemma two_sends s v f g except pk1 len1 pk2 len2 (fr : Z → list Z) :
  inv s → valid s v → f = Bctag ∨ f = Bcuntag → g = Bctag ∨ g = Bcuntag → len1 ≠ 0 → len2 ≠ 0 →
  (∀ q, vb s v f q = true → vb s v g q = true → False) →
  (∀ q, vb s v f q = true → fr q = take_z len1 pk1) → (∀ q, vb s v g q = true → fr q = take_z len2 pk2) →
  wp (_ ← FORALL_SEND E (vl_array v f) except pk1 len1 None;
      _ ← FORALL_SEND E (vl_array v g) except pk2 len2 None; mret ())
    (λ _ s', ∃ l, NoDup l ∧ (∀ q, q ∈ l ↔ q ≠ except ∧ (vb s v f q = true ∨ vb s v g q = true)) ∧
       quiet s s' ∧ only_ports l s s' ∧ ∃ evs, trace s' = trace s ++ evs ∧ fwd_log s fr l evs) s.
Proof.
  intros Hi Hv Hf Hg Hl1 Hl2 Hdis Hfr1 Hfr2. pose proof (i_dims s Hi) as Hd.
  destruct (wp_FORALL_SEND s v f except pk1 len1 None) as (l1 & Hm1 & Ho1 & W1);
    [done|apply Hi|done|intros q Hq; exact (inv_bc_psig s v f q Hi Hf Hq)|done|].
  apply wp_bind. eapply wp_mono; [exact W1|]. intros t1 s1 (Q1 & O1 & e1 & T1 & L1).
  pose proof (quiet_calm _ _ Q1 Hd) as C1. pose proof (calm_inv _ _ C1 Hi) as I1.
  destruct (wp_FORALL_SEND s1 v g except pk2 len2 None) as (l2 & Hm2 & Ho2 & W2);
    [apply I1|apply I1|by apply (quiet_valid _ _ _ Q1)|intros q Hq; exact (inv_bc_psig s1 v g q I1 Hg Hq)|done|].
  apply wp_bind. eapply wp_mono; [exact W2|]. intros t2 s2 (Q2 & O2 & e2 & T2 & L2). apply wp_ret.
  assert (∀ q, q ∈ l2 ↔ q ≠ except ∧ vb s v g q = true) as Hm2'.
  { intros q. by rewrite Hm2, (c_vb _ _ C1). }
  exists (l1 ++ l2). split_and!.
  - apply NoDup_app. split_and!; [by apply sorted_nodup|intros q [_ H1]%Hm1 [_ H2]%Hm2'; eauto|by apply sorted_nodup].
  - intros q. rewrite elem_of_app, Hm1, Hm2'. tauto.
  - exact (transitivity Q1 Q2).
  - intros q Hq. rewrite O2, O1 by set_solver. done.
  - exists (e1 ++ e2). split; [rewrite T2, T1; by rewrite app_assoc|]. apply fwd_log_app.
    + eapply fwd_log_ext, L1. intros q [_ Hq]%Hm1. symmetry. by apply Hfr1.
    + eapply fwd_log_sig; [apply Q1|]. eapply fwd_log_ext, L2. intros q [_ Hq]%Hm2'. symmetry. by apply Hfr2.
Qed.

Lemma wp_flood s p v tagged packet len :
  inv s → valid s v → 14 ≤ len →
  wp (flood E p v tagged packet len) (λ _ s', ∃ l, targets_ok s p v None l ∧ went_out s p v tagged packet len l s') s.
Proof.
  intros Hi Hv Hlen.
  assert (∀ q, vb s v Bctag q = true → utag s q ≠ v) as Ht by (intros q Hb; by apply (i_disc s Hi v q)).
  assert (∀ q, vb s v Bcuntag q = true → utag s q = v) as Hu by (intros q Hb; by apply (i_disc s Hi v q)).
  unfold flood. destruct tagged.
  - eapply wp_mono; [apply (two_sends s v Bctag Bcuntag p _ _ _ _ (frame_for s v true packet len));
      [done|done|auto|auto|lia|simpl; lia|by intros q ?%Ht ?%Hu || by intros q ?%Hu ?%Ht|..]|].
    + intros q Hb. unfold frame_for. by rewrite (proj2 (Z.eqb_neq _ _)) by auto.
    + intros q Hb. unfold frame_for. by rewrite (proj2 (Z.eqb_eq _ _)) by auto.
    + intros [] s' (l & Hnd & Hl & Q & O & L). exists l. split; [by split|]. by split_and!.
  - eapply wp_mono; [apply (two_sends s v Bcuntag Bctag p _ _ _ _ (frame_for s v false packet len));
      [done|done|auto|auto|lia|simpl; lia|by intros q ?%Ht ?%Hu || by intros q ?%Hu ?%Ht|..]|].
    + intros q Hb. unfold frame_for. by rewrite (proj2 (Z.eqb_eq _ _)) by auto.
    + intros q Hb. unfold frame_for. by rewrite (proj2 (Z.eqb_neq _ _)) by auto.
    + intros [] s' (l & Hnd & Hl & Q & O & L). exists l. split; [|by split_and!].
      split; [done|]. intros q. rewrite Hl. unfold forwards. tauto.
Qed.

Lemma wp_unicast s p tar v tagged packet len :
  inv s → is_Some (psig s tar) → 14 ≤ len →
  wp (unicast E tar v tagged packet len) (λ _ s', went_out s p v tagged packet len [tar] s') s.
Proof.
  intros Hi Hp Hlen. pose proof Hp as [ps (pt & Hpt & _)%psig_Some]. apply wp_bind, (wp_port_get _ _ pt); [done|].
  rewrite <- (utag_pat _ _ _ Hpt). cbv zeta.
  assert (∀ pk n, n ≠ 0 → frame_for s v tagged packet len tar = take_z n pk →
    wp (_ ← SEND_PACKET_PORT E tar pk n None; mret ()) (λ _ s', went_out s p v tagged packet len [tar] s') s) as Hsend.
  { intros pk n Hn Hfr. apply wp_bind. eapply wp_mono; [apply wp_SEND_exact; [apply Hi|apply Hi|done|done]|].
    intros t s' (Q & O & l & T' & S'). apply wp_ret. split_and!; [done..|]. exists (l ++ []). rewrite app_nil_r. split; [done|].
    rewrite <- (app_nil_r l). constructor; [by rewrite Hfr|constructor]. }
  unfold frame_for in Hsend. destruct tagged, (utag s tar =? v); simpl in *; apply Hsend; (done || lia).
Qed.

(** ** Learning *)

Lemma wp_learn s p v src :
  inv s → vb s v Table p = true → act s p → vb s v Notlearning p = false → macP src →
  wp (find_in_hash_update_m E src v p) (λ _ s', inv s' ∧ ∃ t n, s' = set_mact t (set_nmalloc n s) ∧
    (∀ k, k ≠ extmac src v → mt_ports t k = mt_ports (mact s) k) ∧
    ((∀ n, malloc_ok E n = true) → mt_ports (mact s) (extmac src v) = None → mt_ports t (extmac src v) = Some p)) s.
Proof.
  intros Hi Ht Ha Hn Hm. pose proof (i_dims s Hi) as Hd. pose proof (vb_range _ _ _ _ Hd Ht) as [Hv _].
  assert (0 ≤ v < 2 ^ 16) as Hv16 by (apply (d_vr s Hd) in Hv; unfold NUMOFVLAN in Hv; lia).
  destruct (extmac_unpack src v Hm Hv16) as (_ & _ & Hvlan).
  apply wp_bind. unfold wp at 1, malloc. apply wp_bind, wp_get.
  set (s1 := set_nmalloc _ s). set (ok := malloc_ok E _).
  destruct (mt_learn_ok (mact s) src v p (now s1) ok (d_mac s Hd)) as (t & rv & Hl & Hwf & _ & Hother & Hself & Hnew).
  apply wp_bind. eapply wp_deref; [exact Hl|]. apply wp_bind, wp_modify, wp_ret.
  split; [|eexists _, _; split_and!; [done..|]; intros Hok; apply Hnew, Hok].
  destruct Hi. split; try done.
  - by destruct Hd.
  - intros k q Hk. simpl in Hk. destruct (decide (k = extmac src v)) as [->|Hne].
    + rewrite Hvlan. destruct Hself as [He|He]; rewrite He in Hk; [|by simplify_eq].
      destruct (i_mac _ _ Hk) as (H1 & H2 & H3). by rewrite Hvlan in H1, H3.
    + rewrite Hother in Hk by done. by apply i_mac.
Qed.

Lemma pk_src_mac packet : (14 ≤ length packet)%nat → Forall byteP packet → macP (pk_src packet) ∧ macP (pk_dest packet).
Proof.
  intros Hl Hb. unfold pk_src, pk_dest, macP. rewrite !length_take, length_drop. split_and!; [lia| |lia|].
  - by apply Forall_take, Forall_drop.
  - by apply Forall_take.
Qed.

(** ** The switch *)

Definition is_bpdu s (packet : list Z) : bool :=
  ISBPDU packet && negb (Z.land (fpflag (fst_st s)) FSTP_TAG =? 0).

(** The port on which the destination is known. *)
Definition known (t : T) (packet : list Z) (v : Z) : option Z :=
  if IS_BROADCAST (pk_dest packet) then None else mt_ports t (extmac (pk_dest packet) v).

(** The source of a frame of VLAN [v] received on [p] has been learned: no other
    address changes, and an unknown one is now on [p]. *)
Definition learned (t t' : T) (p v : Z) (packet : list Z) : Prop :=
  (∀ k, k ≠ extmac (pk_src packet) v ∨ IS_BROADCAST (pk_src packet) = true → mt_ports t' k = mt_ports t k) ∧
  (IS_BROADCAST (pk_src packet) = false → (∀ n, malloc_ok E n = true) →
     mt_ports t (extmac (pk_src packet) v) = None → mt_ports t' (extmac (pk_src packet) v) = Some p).

(** The outcome of the forwarding of a frame of VLAN [v] received on [p]. *)
Definition forwarded s (p v : Z) (tagged : bool) (packet : list Z) (len : Z) s' : Prop :=
  (∀ q, psig s' q = psig s q) ∧ (vlant s' = vlant s ∧ pflag s' = pflag s ∧ fst_st s' = fst_st s) ∧
  learned (mact s) (mact s') p v packet ∧
  ∃ l evs, targets_ok s p v (known (mact s') packet v) l ∧ only_ports (p :: l) s s' ∧
    trace s' = trace s ++ evs ∧ fwd_log s (frame_for s v tagged packet len) l evs.

Lemma wp_fstflag_get s f (Q : Z → sw → Prop) : Q (Z.land (fpflag (fst_st s)) f) s → wp (fstflag P_GETFLAG f) Q s.
Proof.
  intros HQ. apply wp_bind, wp_get. simpl. apply wp_bind, wp_modify, wp_ret.
  replace (set_fst _ s) with s; [done|]. by destruct s as [? ? ? ? ? ? [] ? ? ? ? ? ?].
Qed.

Lemma wp_find_in_hash s mac v (Q : Z → sw → Prop) :
  dims s → Q (default (-1) (mt_ports (mact s) (extmac mac v))) s → wp (find_in_hash_m mac v) Q s.
Proof.
  intros Hd HQ. apply wp_bind, wp_get. eapply wp_deref; [|exact HQ]. apply mt_find_ok, Hd.
Qed.

(** The choice between flooding, unicast and nothing. *)
Lemma wp_send_dst s p v tagged packet len :
  inv s → valid s v → 14 ≤ len →
  wp (tarport ← (if IS_BROADCAST (pk_dest packet) then mret (-1) else find_in_hash_m (pk_dest packet) v);
      if tarport <? 0 then flood E p v tagged packet len
      else if tarport =? p then mret () else unicast E tarport v tagged packet len)
    (λ _ s', ∃ l, targets_ok s p v (known (mact s) packet v) l ∧ went_out s p v tagged packet len l s') s.
Proof.
  intros Hi Hv Hlen. apply wp_bind.
  eapply (wp_mono _ (λ tar s', s' = s ∧ tar = default (-1) (known (mact s) packet v))).
  { unfold known. destruct (IS_BROADCAST _); [by apply wp_ret|]. by apply wp_find_in_hash; [apply Hi|]. }
  intros tar s' [-> ->]. destruct (known (mact s) packet v) as [q|] eqn:Ek; simpl.
  - assert (act s q) as Ha.
    { unfold known in Ek. destruct (IS_BROADCAST _); [done|]. by apply (i_mac s Hi _ _ Ek). }
    pose proof (psig_range _ _ (i_dims s Hi) (act_psig _ _ Ha)) as Hq.
    rewrite (proj2 (Z.ltb_ge _ _)) by lia. destruct (Z.eqb_spec q p) as [->|Hne].
    + apply wp_ret. exists []. split; [done|]. split_and!; [done|done|]. exists []. rewrite app_nil_r. split; [done|constructor].
    + eapply wp_mono; [apply (wp_unicast s p q v tagged packet len); [done|by apply act_psig|done]|].
      intros [] s' W. by exists [q].
  - eapply wp_mono; [by apply wp_flood|]. intros [] s' W. exact W.
Qed.

Lemma went_out_forwarded s s1 p v tagged packet len l s' :
  (∀ q, psig s1 q = psig s q) → vlant s1 = vlant s ∧ pflag s1 = pflag s ∧ fst_st s1 = fst_st s → trace s1 = trace s → portv s1 = portv s →
  learned (mact s) (mact s1) p v packet →
  targets_ok s1 p v (known (mact s1) packet v) l → went_out s1 p v tagged packet len l s' →
  forwarded s p v tagged packet len s'.
Proof.
  intros Hs (Hvl & Hpf & Hfs) Ht Hp Hm Hl (Q & O & evs & T' & L).
  assert (∀ f q, vb s1 v f q = vb s v f q) as Hvb by (intros; unfold vb, vl_array, vl; by rewrite Hvl).
  split_and!.
  - intros q. by rewrite (q_sig _ _ Q), Hs.
  - by rewrite (q_vlant _ _ Q).
  - by rewrite (q_pflag _ _ Q).
  - by rewrite (q_fst _ _ Q).
  - by rewrite (q_mact _ _ Q).
  - exists l, evs. rewrite (q_mact _ _ Q). split_and!.
    + unfold targets_ok in *. destruct (known _ _ _); [done|]. split; [apply Hl|]. intros q. rewrite (proj2 Hl). unfold forwards. by rewrite !Hvb.
    + intros q Hq. rewrite O by set_solver. unfold pat. by rewrite Hp.
    + by rewrite T', Ht.
    + eapply fwd_log_sig; [exact Hs|]. eapply fwd_log_ext, L. intros q _. unfold frame_for, utag. by rewrite Hs.
Qed.

Lemma wp_forward s p v tagged packet len :
  inv s → act s p → vb s v Table p = true → 14 ≤ len → (14 ≤ length packet)%nat → Forall byteP packet →
  wp (forward E p v tagged packet len) (λ _ s', inv s' ∧ (is_bpdu s packet = false →
    if vb s v Notlearning p then s' = s else forwarded s p v tagged packet len s')) s.
Proof.
  intros Hi Ha Ht Hlen Hpl Hpb. pose proof (i_dims s Hi) as Hd.
  pose proof (vb_range _ _ _ _ Hd Ht) as [Hv Hr]. pose proof (inv_good s v Hi Hv) as G.
  apply wp_bind, wp_fstflag_get. fold (is_bpdu s packet). wp_if as Hb.
  { eapply wp_mono; [by apply wp_fst_in_bpdu|]. intros [] s' X. split; [|done].
    exact (mstep_inv _ _ (vstep_mstep _ _ _ X) Hi). }
  apply wp_bind, wp_vl_check; [done|by apply (valid_range s)|done|].
  destruct (vb s v Notlearning p) eqn:En; [by apply wp_ret|].
  destruct (pk_src_mac packet Hpl Hpb) as [Hsrc _].
  apply wp_bind. eapply (wp_mono _ (λ _ s1, inv s1 ∧ (∀ q, psig s1 q = psig s q) ∧
    (vlant s1 = vlant s ∧ pflag s1 = pflag s ∧ fst_st s1 = fst_st s) ∧ trace s1 = trace s ∧
    portv s1 = portv s ∧ validvlan s1 = validvlan s ∧
    learned (mact s) (mact s1) p v packet)).
  { unfold learned. destruct (IS_BROADCAST (pk_src packet)); simpl.
    { apply wp_ret. by split_and!. }
    apply wp_bind. eapply wp_mono; [by apply wp_learn|]. intros rv s1 (I1 & t & n & -> & Hk & Hnew). apply wp_ret.
    split_and!; try done. intros k [Hne|]; [by apply Hk|done]. }
  intros [] s1 (I1 & S1 & V1 & T1 & P1 & VV1 & M1).
  assert (valid s1 v) as Hv1 by (unfold valid; by rewrite VV1).
  eapply wp_mono; [by apply wp_send_dst|]. intros [] s' (l & Hl & W). split.
  - destruct W as (Q & _ & _). exact (calm_inv _ _ (quiet_calm _ _ Q (i_dims s1 I1)) I1).
  - intros _. by eapply went_out_forwarded.
Qed.

(** ** The hub *)

Lemma wp_hub_send l : ∀ s p packet len tmp,
  inv s → (∀ i, i ∈ l → 0 ≤ i < numports s) → len ≠ 0 →
  wp (hub_send E l p packet len tmp) (λ _ s', quiet s s' ∧ ∃ evs, trace s' = trace s ++ evs ∧
    fwd_log s (λ _, take_z len packet) (filter (λ q, q ≠ p ∧ is_Some (psig s q)) l) evs) s.
Proof.
  induction l as [|i l IH]; intros s p packet len tmp Hi Hl Hlen.
  { apply wp_ret. split; [done|]. exists []. rewrite app_nil_r. split; [done|constructor]. }
  cbn [hub_send]. rewrite filter_cons. destruct (Z.eqb_spec i p) as [->|Hne].
  { rewrite decide_False by tauto. apply IH; [done|set_solver|done]. }
  pose proof (i_dims s Hi) as Hd. apply wp_bind, wp_port_ptr; [done|apply Hl; set_solver|].
  destruct (pat s i) as [pt|] eqn:Ep.
  - assert (is_Some (psig s i)) as Hp by (unfold psig; by rewrite Ep). rewrite decide_True by done.
    apply wp_bind. eapply wp_mono; [apply wp_SEND_exact; [done|apply Hi|done|done]|].
    intros t s1 (Q1 & _ & e1 & T1 & S1). pose proof (calm_inv _ _ (quiet_calm _ _ Q1 Hd) Hi) as I1.
    eapply wp_mono; [apply IH; [done|intros; rewrite (q_np _ _ Q1); apply Hl; set_solver|done]|].
    intros [] s2 (Q2 & e2 & T2 & L2). split; [exact (transitivity Q1 Q2)|]. exists (e1 ++ e2).
    split; [rewrite T2, T1; by rewrite app_assoc|]. constructor; [done|].
    apply (fwd_log_sig s s1); [apply Q1|].
    rewrite (list_filter_iff _ (λ q, q ≠ p ∧ is_Some (psig s1 q))); [done|]. intros q. by rewrite (q_sig _ _ Q1).
  - rewrite decide_False by (unfold psig; rewrite Ep; intros [_ []]; done). apply IH; [done|set_solver|done].
Qed.

(** ** [handle_in_packet] *)

(** The receive buffer: at least the headers, and bytes. *)
Definition packet_ok (packet : list Z) : Prop := (16 ≤ length packet)%nat ∧ Forall byteP packet.

Definition hub s : bool := negb (Z.land (pflag s) HUB_TAG =? 0).

Lemma wp_count_in s p len :
  inv s → is_Some (psig s p) →
  wp (count_in E p len) (λ _ s', quiet s s' ∧ only_ports [p] s s' ∧ trace s' = trace s) s.
Proof.
  intros Hi Hp. pose proof (i_dims s Hi) as Hd. pose proof (psig_range _ _ Hd Hp) as Hr. pose proof (d_len s Hd) as Hl.
  apply wp_whenM; intros _; [|done]. destruct Hp as [ps (pt & Hpt & _)%psig_Some].
  apply (wp_port_upd _ _ pt); [done|done|]. split_and!; [split; try done| |done].
  - simpl. by rewrite length_insert.
  - intros q. rewrite psig_put by done. case_decide; [|done]. subst. unfold psig. by rewrite Hpt.
  - exists []. by rewrite app_nil_r.
  - intros q Hq. rewrite pat_put, decide_False by (set_solver || lia). done.
Qed.

Lemma forwarded_counted s s0 p v tagged packet len s' :
  quiet s s0 → only_ports [p] s s0 → trace s0 = trace s →
  forwarded s0 p v tagged packet len s' → forwarded s p v tagged packet len s'.
Proof.
  intros Q O T0 (S' & V' & M' & l & evs & Hl & O' & T' & L).
  assert (∀ f q, vb s0 v f q = vb s v f q) as Hvb by (intros; unfold vb; by rewrite (quiet_array s s0)).
  split_and!.
  - intros q. by rewrite S', (q_sig _ _ Q).
  - by rewrite (proj1 V'), (q_vlant _ _ Q).
  - by rewrite (proj1 (proj2 V')), (q_pflag _ _ Q).
  - by rewrite (proj2 (proj2 V')), (q_fst _ _ Q).
  - by rewrite <- (q_mact _ _ Q).
  - exists l, evs. split_and!.
    + unfold targets_ok in *. destruct (known _ _ _); [done|]. split; [apply Hl|]. intros q. rewrite (proj2 Hl). unfold forwards. by rewrite !Hvb.
    + intros q Hq. rewrite O', O by set_solver. done.
    + by rewrite T', T0.
    + eapply fwd_log_sig; [apply Q|]. eapply fwd_log_ext, L. intros q _. unfold frame_for, utag. by rewrite (q_sig _ _ Q).
Qed.

Lemma tag_vlan_range packet : 0 ≤ tag_vlan packet ≤ NUMOFVLAN.
Proof.
  unfold tag_vlan. change 0xfff with (Z.ones 12). rewrite Z.land_ones by lia.
  pose proof (Z.mod_pos_bound (Z.shiftl (pk_byte packet 14) 8 + pk_byte packet 15) (2 ^ 12)). unfold NUMOFVLAN. lia.
Qed.

(** What becomes of a frame received on an active port. *)
Definition handled s (p : Z) (packet : list Z) (len : Z) s' : Prop :=
  if hub s then
    ∃ evs, trace s' = trace s ++ evs ∧
      fwd_log s (λ _, take_z len packet) (filter (λ q, q ≠ p ∧ is_Some (psig s q)) (seqZ 1 (numports s - 1))) evs
  else if is_bpdu s packet then True
  else let v := in_vlan s p packet in
    if vb s v Table p && negb (vb s v Notlearning p) then forwarded s p v (is_tagged packet) packet len s'
    else trace s' = trace s ∧ only_ports [p] s s' ∧ quiet s s'.

Lemma wp_handle_in_packet s p packet len :
  inv s → act s p → 14 ≤ len → packet_ok packet →
  wp (handle_in_packet E p packet len) (λ _ s', inv s' ∧ handled s p packet len s') s.
Proof.
  intros Hi Ha Hlen [Hpl Hpb]. pose proof (i_dims s Hi) as Hd. pose proof (act_psig _ _ Ha) as Hp.
  unfold handle_in_packet. rewrite (proj2 (Z.eqb_neq len 0)) by lia.
  apply wp_bind. eapply wp_mono; [by apply wp_count_in|]. intros [] s0 (Q0 & O0 & T0).
  pose proof (calm_inv _ _ (quiet_calm _ _ Q0 Hd) Hi) as I0. pose proof (i_dims s0 I0) as D0.
  assert (act s0 p) as A0 by (unfold act; by rewrite (q_sig _ _ Q0)).
  assert (∀ v f q, vb s0 v f q = vb s v f q) as Hvb by (intros; unfold vb; by rewrite (quiet_array s s0)).
  assert (utag s0 p = utag s p) as Hu by (unfold utag; by rewrite (q_sig _ _ Q0)).
  assert (is_bpdu s0 packet = is_bpdu s packet) as Hbp by (unfold is_bpdu; by rewrite (q_fst _ _ Q0)).
  assert (0 ≤ p < numports s0) as Hr0 by (apply psig_range; [done|by apply act_psig]).
  apply wp_bind, wp_get. unfold handled. rewrite (q_pflag _ _ Q0). fold (hub s). destruct (hub s) eqn:Eh.
  { rewrite (q_np _ _ Q0). eapply wp_mono; [apply wp_hub_send; [done|intros i Hin%elem_of_seqZ; rewrite (q_np _ _ Q0); lia|lia]|].
    intros [] s' (Q & evs & T' & L). split; [exact (calm_inv _ _ (quiet_calm _ _ Q D0) I0)|].
    exists evs. split; [by rewrite T', T0|]. eapply fwd_log_sig; [apply Q0|].
    rewrite (list_filter_iff _ (λ q, q ≠ p ∧ is_Some (psig s0 q))); [done|]. intros q. by rewrite (q_sig _ _ Q0). }
  assert (∀ v tagged, vb s v Table p = true →
    wp (forward E p v tagged packet len) (λ _ s', inv s' ∧
      if is_bpdu s packet then True else
      if vb s v Table p && negb (vb s v Notlearning p) then forwarded s p v tagged packet len s'
      else trace s' = trace s ∧ only_ports [p] s s' ∧ quiet s s') s0) as Hfw.
  { intros v tagged Ht. eapply wp_mono; [apply wp_forward; [done|done|by rewrite Hvb|done|lia|done]|].
    intros [] s' [I' Hc]. split; [done|]. rewrite Hbp in Hc. destruct (is_bpdu s packet); [done|].
    specialize (Hc eq_refl). rewrite Hvb in Hc. rewrite Ht. destruct (vb s v Notlearning p); simpl; [by subst|].
    by eapply forwarded_counted. }
  unfold in_vlan. destruct (is_tagged packet) eqn:Et.
  - apply wp_bind, wp_vl_check; [done|apply tag_vlan_range|done|]. rewrite Hvb.
    destruct (vb s (tag_vlan packet) Table p) eqn:Etab; simpl.
    + pose proof (Hfw (tag_vlan packet) true Etab) as Hw. rewrite Etab in Hw. exact Hw.
    + apply wp_ret. split; [done|]. by destruct (is_bpdu s packet).
  - destruct A0 as (ps & (pt & Hpt & ->)%psig_Some & _). apply wp_bind, (wp_port_get _ _ pt); [done|].
    rewrite <- (utag_pat _ _ _ Hpt), Hu. destruct (Z.eqb_spec (utag s p) NOVLAN) as [En|En].
    + apply wp_ret. split; [done|]. destruct (is_bpdu s packet); [done|].
      destruct (vb s (utag s p) Table p) eqn:Etab; [|done]. by apply novlan_bit in Etab.
    + destruct (i_untag s Hi p Hp) as [|Etab]; [done|].
      pose proof (Hfw (utag s p) false Etab) as Hw. rewrite Etab in Hw |- *. exact Hw.
Qed.

End forward.
