(* ===== verification/ConsoleSafe.v ===== *)
(** * ConsoleSafe: start-up, the console and the alarm keep the invariant

    The initialisation of [main] establishes the invariant of the switch; every
    command of the console, every script and every alarm returns without a
    fault and keeps it, with the three documented exceptions of [harmless]. *)
From Stdlib Require Import Lia Ascii.
From stdpp Require Import base numbers list gmap strings.
From S2P Require Import Prelude Scan BitArray Hash Qtimer Switch PortSend Fstp Port Console SwitchInv SpanInv SwitchSafe PortSafe PortLife VlanSafe VlanLife Forward.

Section consolesafe.
Context (E : env) (C : console_env) (Hcalloc : ∀ n, calloc_ok E n = true).
Abbreviation sw := (switch hash_state).
Implicit Type s : sw.

(** ** The MAC table loses addresses *)

Lemma inv_mact s (t : hash_state) :
  inv s → hash_wf t → (∀ k p, hash_ports t k = Some p → hash_ports (mact s) k = Some p) → inv (set_mact t s).
Proof.
  intros Hi Hwf Hsub. apply (calm_inv s); [|done]. pose proof (i_dims s Hi) as Hd.
  split; [by destruct Hd|by split|done|done].
Qed.

Lemma hash_ports_subset (t t' : hash_state) (P : Z * (Z * Z) → Prop) `{!∀ x, Decision (P x)} :
  hash_map t' = filter P (hash_map t) → ∀ k p, hash_ports t' k = Some p → hash_ports t k = Some p.
Proof.
  intros Hm k p. unfold hash_ports. rewrite Hm, !fmap_Some. setoid_rewrite map_lookup_filter_Some. naive_solver.
Qed.

Lemma keeps_hash_gc : keeps hash_gc_m.
Proof.
  apply keeps_get. intros s Hi. destruct (for_all_hash_spec (mact s) (gc (gc_expire (mact s)) (now s)))
    as (t & Ht & Hwf & _ & _ & _ & Hm); [exact (d_mac s (i_dims s Hi))|].
  apply wp_bind, (wp_deref _ t); [done|]. apply wp_modify, inv_mact; [done..|]. by eapply hash_ports_subset.
Qed.

Lemma keeps_hash_fields (g : hash_state → hash_state) :
  (∀ t, hash_bits (g t) = hash_bits t ∧ hash_mask (g t) = hash_mask t ∧ h (g t) = h t) →
  keeps (modify (λ s, set_mact (g (mact s)) s)).
Proof.
  intros Hg. apply keeps_modify. intros s Hi. destruct (Hg (mact s)) as (Hb & Hk & Hh). apply inv_mact; [done|..].
  - destruct (d_mac s (i_dims s Hi)). split; by rewrite ?Hb, ?Hk, ?Hh.
  - unfold hash_ports, hash_map. by rewrite Hh.
Qed.

Lemma keeps_hash_resize n : n ≤ 2 ^ 30 → keeps (hash_resize_m E n).
Proof.
  intros Hn s Hi. unfold hash_resize_m. apply wp_bind.
  assert (∀ s', inv s' → wp (s ← get; match hash_resize (mact s) n true with
    | Done rv t => modify (set_mact t) ;; mret rv | Exited c => exitM c | Fault => fault end) (λ _ s', inv s') s') as Hk.
  { intros s' I'. apply wp_bind, wp_get. pose proof (d_mac s' (i_dims s' I')) as Hwf. unfold hash_resize.
    destruct (Z.ltb_spec 0 n); [|apply wp_bind, wp_modify, wp_ret; by apply inv_mact].
    destruct (for_all_hash_spec (mact s') flush_iterator Hwf) as (t & Hf & _). unfold hash_flush. rewrite Hf.
    destruct (po2round_spec n) as (b & -> & Hb & _); [lia|]. apply wp_bind, wp_modify, wp_ret.
    apply inv_mact; [done|by apply hash_wf_init|]. unfold hash_ports. by rewrite hash_map_HASH_INIT. }
  destruct (0 <? n); [apply wp_calloc; [done|]|apply wp_ret]; apply Hk; [by apply (inv_ext s)|done].
Qed.

Lemma keeps_hash_set_gc_interval p : keeps (hash_set_gc_interval E p).
Proof.
  apply keeps_get. intros s Hi. apply (keeps_bind (A := ())); [apply keeps_qtimer_del|intros _|done].
  apply keeps_bind; [by apply keeps_qtimer_add|intros n].
  apply keeps_bind; [by apply keeps_hash_fields|intros; apply keeps_ret].
Qed.

Lemma keeps_find_hash arg : keeps (find_hash_cmd arg).
Proof.
  unfold find_hash_cmd. destruct (sscanf_mac arg) as [[mac rest]|]; [|apply keeps_ret].
  apply keeps_get. intros s Hi. unfold find_hash.
  destruct (find_entry_lookup (mact s) (d_mac s (i_dims s Hi)) (extmac mac
    (match scan_d rest with Some (v, _) => v | None => 0 end))) as (oe & Ho & _).
  rewrite Ho. apply wp_bind. simpl. destruct oe; [|by apply wp_ret].
  by apply (keeps_bind (printoutc _)); [apply keeps_printoutc|intros; apply keeps_ret|].
Qed.

Lemma print_hash_rows (t : hash_state) now : hash_wf t → is_Some (print_hash t now).
Proof.
  intros Hwf. unfold print_hash. rewrite <- (wf_size t Hwf).
  assert (∀ l acc, (∀ i, i ∈ l → 0 ≤ i < Z.of_nat (length (h t))) → is_Some (foldl (λ acc i, rows ← acc; l ← zget (h t) i;
    Some (rows ++ (print_hash_entry t now <$> l))) (Some acc) l)) as Hl.
  { induction l as [|i l IH]; intros acc Hr; [done|]. simpl.
    destruct (zget_is_Some (h t) i) as [x Hx]; [apply Hr; set_solver|]. rewrite Hx. simpl. apply IH. set_solver. }
  apply Hl. intros i [? ?]%elem_of_seqZ. lia.
Qed.

Lemma keeps_print_hash : keeps print_hash_cmd.
Proof.
  apply keeps_get. intros s Hi. destruct (print_hash_rows (mact s) (now s)) as [rows Hr]; [exact (d_mac s (i_dims s Hi))|].
  apply wp_bind, (wp_deref _ rows); [done|]. apply wp_bind. apply wp_forM_inv; [done|].
  intros x s' _ I'. by apply keeps_printoutc.
Qed.

Ltac keeps_lines := repeat first
  [apply keeps_ret | apply (keeps_bind (printoutc _)); [apply keeps_printoutc|intros _]].

Lemma keeps_get_any {B} (k : sw → M sw B) : (∀ s0, keeps (k s0)) → keeps (get ≫= k).
Proof. intros Hk. apply keeps_get. intros s. apply Hk. Qed.

Lemma keeps_hash_showinfo : keeps hash_showinfo.
Proof. apply keeps_get_any. intros s0. cbv zeta. keeps_lines. Qed.
Lemma keeps_ds_showinfo : keeps (ds_showinfo C).
Proof. unfold ds_showinfo. keeps_lines. Qed.
Lemma keeps_console_showinfo : keeps (console_showinfo C).
Proof.
  apply keeps_get_any. intros s0. do 4 (apply (keeps_bind (printoutc _)); [apply keeps_printoutc|intros _]).
  apply (keeps_bind (A := ())); [|intros; apply keeps_ret].
  destruct (mgmt_socket C); [apply keeps_printoutc|apply keeps_ret].
Qed.
Lemma keeps_help arg : keeps (help E C arg).
Proof.
  do 2 (apply (keeps_bind (printoutc _)); [apply keeps_printoutc|intros _]).
  apply (keeps_bind (A := ())); [|intros; apply keeps_ret]. intros s Hi. apply wp_forM_inv; [done|].
  intros x s' _ I'. by apply keeps_whenM; [apply keeps_printoutc|].
Qed.

(** ** The commands *)

(** The arguments with which three commands are not covered: [vlan/remove] of
    VLAN 0, [port/setnumports] to fewer ports, [hash/setsize] above 2^30; scripts
    ([load]) are treated apart. *)
Definition arg_ok (s : sw) (cmd arg : string) : Prop :=
  if String.eqb cmd "vlan/remove" then atoi arg ≠ 0
  else if String.eqb cmd "port/setnumports" then
    numports s ≤ atoi arg ∨ atoi arg ≤ 0 ∨ ∃ i, atoi arg ≤ i ∧ is_Some (pat s i)
  else if String.eqb cmd "hash/setsize" then atoi arg ≤ 2 ^ 30
  else negb (String.eqb cmd "load").

(** An entry of the tables whose function keeps the invariant. *)
Definition entry_ok (p : comlist) : Prop :=
  ∀ s fd arg, inv s → arg_ok s (path p) arg → wp (run_cmd p fd arg) (λ _ s', inv s') s.

Lemma entry_menu a b c : entry_ok (Comlist a b c None false).
Proof. by intros s fd arg Hi _. Qed.

Lemma entry_doit a b c d w :
  (∀ s fd arg, inv s → arg_ok s a arg → wp (call_doit d fd arg) (λ _ s', inv s') s) →
  entry_ok (Comlist a b c (Some d) w).
Proof.
  intros Hd s fd arg Hi Ha. unfold run_cmd. cbn [doit_of withfile].
  assert (∀ rv : Z, keeps (whenM w (printoutc ".") ;; mret rv : M sw Z)) as Hend.
  { intros rv. apply keeps_bind; [apply keeps_whenM, keeps_printoutc|intros; apply keeps_ret]. }
  apply wp_bind, wp_whenM; intros _; [apply wp_modify|];
    (apply wp_bind; eapply wp_mono; [apply Hd; [|exact Ha]|intros rv s' I'; by apply Hend]); [|done].
  by apply (inv_ext s).
Qed.

Lemma entry_noarg a b c f w : keeps f → entry_ok (Comlist a b c (Some (NOARG f)) w).
Proof. intros Hf. apply entry_doit. intros s fd arg Hi _. by apply Hf. Qed.
Lemma entry_intarg a b c f w : (∀ n, keeps (f n)) → entry_ok (Comlist a b c (Some (INTARG f)) w).
Proof. intros Hf. apply entry_doit. intros s fd arg Hi _. by apply Hf. Qed.
Lemma entry_strarg a b c f w : (∀ x, keeps (f x)) → entry_ok (Comlist a b c (Some (STRARG f)) w).
Proof. intros Hf. apply entry_doit. intros s fd arg Hi _. by apply Hf. Qed.

Lemma atoi_lt x : atoi x < 2 ^ 31.
Proof.
  unfold atoi. destruct (scan_sign _) as [sg y]. destruct (scan_digits _ _ _ _) as [[v ?] ?]. unfold i32.
  match goal with |- ?z mod _ - _ < _ => pose proof (Z.mod_pos_bound z (2 ^ 32)) end. lia.
Qed.

Lemma keeps_hash_set_field (m : M sw ()) : keeps m → keeps (m ;; mret 0).
Proof. intros Hm. apply keeps_bind; [done|intros; apply keeps_ret]. Qed.

Lemma cl_ds_ok : Forall entry_ok (cl_ds C).
Proof.
  apply Forall_cons; split; [apply entry_menu|].
  apply Forall_cons; split; [apply entry_noarg, keeps_ds_showinfo|].
  apply Forall_nil_2.
Qed.

Lemma cl_consmgmt_ok load : Forall entry_ok (cl_consmgmt C (help E C) load).
Proof.
  apply Forall_cons; split; [apply entry_strarg; intros x; by apply keeps_help|].
  apply Forall_cons; split; [apply entry_noarg, keeps_ret|].
  apply Forall_cons; split; [apply entry_noarg, keeps_ret|].
  apply Forall_cons; split; [apply entry_noarg, keeps_console_showinfo|].
  apply Forall_cons; split; [|apply Forall_nil_2].
  apply entry_doit. by intros s fd arg Hi [].
Qed.

Lemma cl_hash_ok : Forall entry_ok (cl_hash E).
Proof.
  apply Forall_cons; split; [apply entry_menu|].
  apply Forall_cons; split; [apply entry_noarg, keeps_hash_showinfo|].
  apply Forall_cons; split; [apply entry_doit; intros s fd arg Hi Ha; by apply keeps_hash_resize|].
  apply Forall_cons; split; [apply entry_intarg; intros n; by apply keeps_hash_set_gc_interval|].
  apply Forall_cons; split; [apply entry_intarg; intros n; by apply keeps_hash_set_field, (keeps_hash_fields (λ t, hash_set_gc_expire t n))|].
  apply Forall_cons; split; [apply entry_intarg; intros n; by apply keeps_hash_set_field, (keeps_hash_fields (λ t, hash_set_minper t n))|].
  apply Forall_cons; split; [apply entry_noarg, keeps_print_hash|].
  apply Forall_cons; split; [apply entry_strarg; intros x; by apply keeps_find_hash|].
  apply Forall_nil_2.
Qed.

Lemma cl_fstp_ok : Forall entry_ok (cl_fstp E).
Proof.
  apply Forall_cons; split; [apply entry_menu|].
  apply Forall_cons; split; [apply entry_noarg, keeps_fstpshowinfo|].
  apply Forall_cons; split; [apply entry_intarg; intros n; by apply keeps_fstpsetonoff|].
  apply Forall_cons; split; [apply entry_strarg; intros x; by apply keeps_fstsetedge|].
  apply Forall_cons; split; [apply entry_strarg; intros x; by apply keeps_fstsetbonus|].
  apply Forall_cons; split; [apply entry_strarg; intros x; by apply keeps_fstprint|].
  apply Forall_nil_2.
Qed.

Lemma cl_port_ok : Forall entry_ok (cl_port E).
Proof.
  unfold cl_port. rewrite !Forall_app. split_and!; try (unfold ifdef; case_match; [|apply Forall_nil_2]).
  - apply Forall_cons; split; [apply entry_menu|].
    apply Forall_cons; split; [apply entry_noarg, keeps_showinfo|].
    apply Forall_cons; split; [apply entry_doit; intros s fd arg Hi Ha; apply keeps_portsetnumports; [done..|apply atoi_lt|done]|].
    apply Forall_cons; split; [apply entry_intarg; intros n; by apply keeps_portsethub|].
    apply Forall_cons; split; [apply entry_strarg; intros x; by apply keeps_portsetvlan|].
    apply Forall_cons; split; [apply entry_noarg, keeps_portcreateauto|].
    apply Forall_cons; split; [apply entry_intarg; intros n; by apply keeps_portcreate|].
    apply Forall_cons; split; [apply entry_intarg; intros n; by apply keeps_portremove|].
    apply Forall_cons; split; [apply entry_strarg; intros x; by apply keeps_portallocatable|].
    apply Forall_cons; split; [apply entry_strarg; intros x; by apply keeps_portsetuser|].
    apply Forall_cons; split; [apply entry_strarg; intros x; by apply keeps_portsetgroup|].
    apply Forall_cons; split; [apply entry_strarg; intros x; by apply keeps_epclose|].
    apply Forall_nil_2.
  - apply Forall_cons; split; [apply entry_intarg; intros n; by apply keeps_defqlen|].
    apply Forall_cons; split; [apply entry_strarg; intros x; by apply keeps_epqlen|].
    apply Forall_nil_2.
  - apply Forall_cons; split; [apply entry_strarg; intros x; by apply keeps_portresetcounters|].
    apply Forall_nil_2.
  - apply Forall_cons; split; [apply entry_strarg; intros x; by apply keeps_print_ports|].
    apply Forall_cons; split; [apply entry_strarg; intros x; by apply keeps_print_ports|].
    apply Forall_cons; split; [apply entry_menu|].
    apply Forall_cons; split; [apply entry_intarg; intros n; by apply keeps_vlancreate|].
    apply Forall_cons; split; [apply entry_doit; intros s fd arg Hi Ha; by apply (keeps_vlanremove E)|].
    apply Forall_cons; split; [apply entry_strarg; intros x; by apply keeps_vlanaddport|].
    apply Forall_cons; split; [apply entry_strarg; intros x; by apply keeps_vlandelport|].
    apply Forall_cons; split; [apply entry_strarg; intros x; by apply keeps_vlanprint|].
    apply Forall_cons; split; [apply entry_strarg; intros x; by apply keeps_vlanprintall|].
    apply Forall_nil_2.
Qed.

Lemma clh_ok load : Forall entry_ok (clh E C load).
Proof.
  unfold clh, clh_of. rewrite !Forall_app.
  split_and!; [apply cl_ds_ok|by apply cl_consmgmt_ok|apply cl_hash_ok|apply cl_fstp_ok|apply cl_port_ok].
Qed.

(** The line is not one of the commands that [arg_ok] excludes. *)
Definition line_ok (s : sw) (line : string) : Prop :=
  let inbuf := skip_char is_blank_tab line in
  match find_cmd (clh E C (λ _ _, mret 0)) inbuf with
  | Some p => arg_ok s (path p) (skip_char is_blank_tab (str_drop (String.length (path p)) inbuf))
  | None => True
  end.

(** Looking up a command does not depend on what [load] does. *)
Lemma find_cmd_load load load' inbuf :
  path <$> find_cmd (clh E C load) inbuf = path <$> find_cmd (clh E C load') inbuf.
Proof.
  unfold find_cmd, clh, clh_of. generalize (cl_hash E ++ cl_fstp E ++ cl_port E) as l. intros l.
  unfold cl_ds, cl_consmgmt. simpl. repeat (case_match; try done).
Qed.

Lemma keeps_reply (b : bool) fd : keeps (whenM b (modify (add_event (EvReply fd))) : M sw ()).
Proof. apply keeps_whenM, keeps_modify. intros s Hi. by apply (inv_ext s). Qed.

Lemma wp_handle_cmd load fd line s :
  inv s → line_ok s line → wp (handle_cmd E C load fd line) (λ _ s', inv s') s.
Proof.
  intros Hi Hl. unfold handle_cmd, line_ok in *. cbv zeta in *. set (inbuf := skip_char is_blank_tab line) in *.
  destruct (ignored inbuf); [by apply wp_ret|]. apply wp_bind.
  apply (wp_mono _ (λ _ s', inv s')).
  - pose proof (find_cmd_load load (λ _ _, mret 0) inbuf) as He.
    destruct (find_cmd (clh E C load) inbuf) as [p|] eqn:Ep; [|by apply wp_ret].
    destruct (find_cmd (clh E C (λ _ _, mret 0)) inbuf) as [p'|]; [|done]. injection He as He.
    apply List.find_some in Ep as [Hin _]. pose proof (clh_ok load) as Hok. rewrite Forall_forall in Hok.
    apply Hok; [by apply list_elem_of_In|done|]. by rewrite He.
  - intros rv s' I'. revert s' I'. apply (keeps_bind (A := ())).
    + destruct (rv =? 0); [|apply keeps_whenM]; apply keeps_printoutc.
    + intros _. apply keeps_bind; [apply keeps_reply|intros; apply keeps_ret].
Qed.

(** ** Dispatch *)

(** A command line: a path, a blank and an argument. *)
Definition cmd_line (cmd arg : string) : string := cmd +:+ String " "%char arg.

(** A path of the tables is found at its own entry. *)
Definition own_entry (l : list comlist) (p : comlist) : Prop :=
  is_Some (doit_of p) → ∀ arg, let line := cmd_line (path p) arg in
    ignored line = false ∧ skip_char is_blank_tab line = line ∧ find_cmd l line = Some p.

Lemma own_menu l a b c w : own_entry l (Comlist a b c None w).
Proof. by intros [? ?]. Qed.

Lemma own_entries load : Forall (own_entry (clh E C load)) (clh E C load).
Proof.
  unfold clh, clh_of, cl_port, ifdef. destruct (VDE_PQ2 E), (PORTCOUNTERS E).
  all: repeat (apply Forall_cons_2; [first [apply own_menu | intros _ arg; split_and!; reflexivity]|]); apply Forall_nil_2.
Qed.

Lemma drop_path (cmd arg : string) : skip_char is_blank_tab (str_drop (String.length cmd) (cmd_line cmd arg)) = skip_char is_blank_tab arg.
Proof. unfold cmd_line. by induction cmd as [|c cmd IH]. Qed.

(** Dispatch of the console: every command of the registered tables is
    reached by its own path, although the lookup is by prefix and in table
    order: the line of a path and an argument runs that entry's function, with
    the leading blanks of the argument removed, and nothing else, then reports
    its result. *)
Theorem console_reaches_every_command (load : Z → string → M sw Z) (p : comlist) (fd : Z) (arg : string) s
    (Hp : p ∈ clh E C load) (Hd : is_Some (doit_of p)) :
  handle_cmd E C load fd (cmd_line (path p) arg) s =
    (rv ← run_cmd p fd (skip_char is_blank_tab arg); reply C fd rv) s.
Proof.
  pose proof (own_entries load) as Hall. rewrite Forall_forall in Hall. destruct (Hall p Hp Hd arg) as (Hi & Hs & Hf).
  unfold handle_cmd. cbv zeta. by rewrite Hs, Hi, Hf, drop_path.
Qed.

(** ** Scripts *)

Definition script_ok (name : string) : Prop :=
  ∀ contents, fopen C name = inl contents → Forall (λ line, ∀ s, line_ok s (chomp line)) (script_lines contents).

Lemma wp_runscript d fd name s :
  inv s → script_ok name → wp (runscript E C (S d) fd name) (λ _ s', inv s') s.
Proof.
  intros Hi Hs. simpl. destruct (fopen C name) as [contents|err] eqn:Ef; [|by apply wp_ret].
  specialize (Hs contents Ef). rewrite Forall_forall in Hs.
  apply wp_bind, wp_forM_inv; [done|]. intros line s' Hin I'. apply wp_bind.
  apply (wp_mono _ (λ _ s', inv s')).
  - apply keeps_whenM; [|done]. apply (keeps_bind (A := ())); [apply keeps_printoutc|intros _].
    apply (keeps_reply true).
  - intros [] s1 I1. apply wp_bind. eapply wp_mono; [apply wp_handle_cmd; [done|by apply Hs]|]. intros rv s2 I2. by apply wp_ret.
Qed.

(** ** Alarms *)

Lemma keeps_alarm : keeps (alarm E).
Proof.
  apply keeps_get. intros s Hi. rewrite sig_alarm_spec by (apply (d_qt s), Hi).
  apply wp_bind, wp_modify. apply wp_forM_inv; [by apply (inv_ext s); rewrite ?(d_qt s (i_dims s Hi))|].
  intros c s' _ I'. destruct c; [by apply keeps_hash_gc|].
  eapply wp_mono; [by apply wp_fst_hello|]. intros [] s'' X. exact (mstep_inv _ _ X I').
Qed.

(** ** Start-up *)

(** Nothing has been allocated yet but the MAC table and the timers. *)
Record pristine s : Prop := {
  pr_vlant : vlant s = ∅;
  pr_fsttab : fsttab (fst_st s) = ∅;
  pr_qt : qth_null (qt s) = false
}.

(** A computation that, if it returns, leaves it so. *)
Definition stays {A} (m : M sw A) : Prop := ∀ s a s', m s = Done a s' → pristine s → pristine s'.

Lemma stays_ret {A} (a : A) : stays (mret a).
Proof. intros s x s' H. by injection H as _ <-. Qed.
Lemma stays_exit {A} c : stays (exitM c : M sw A).
Proof. by intros s x s' H. Qed.
Lemma stays_bind {A B} (m : M sw A) (k : A → M sw B) : stays m → (∀ a, stays (k a)) → stays (m ≫= k).
Proof.
  intros Hm Hk s b s' H P. unfold mbind, M_bind in H. destruct (m s) as [a s1| |] eqn:E1; [|done..].
  by eapply Hk, Hm.
Qed.
Lemma stays_fst (g : fstate → fstate) : (∀ f, fsttab (g f) = fsttab f) → stays (upd_fst g : M sw ()).
Proof. intros Hg s a s' H []. injection H as _ <-. split; simpl; [done|by rewrite Hg|done]. Qed.
Lemma stays_fstflag op f : stays (fstflag op f : M sw Z).
Proof.
  intros s a s' H P. unfold fstflag, mbind, M_bind, get in H. destruct (flag_op _ _ _) as [rv n].
  injection H as _ <-. by destruct P.
Qed.
Lemma stays_portflag op f : stays (portflag op f : M sw Z).
Proof.
  intros s a s' H P. unfold portflag, mbind, M_bind, get in H. destruct (flag_op _ _ _) as [rv n].
  injection H as _ <-. by destruct P.
Qed.

Lemma stays_parse_globopt g c arg : stays (parse_globopt g c arg).
Proof.
  unfold parse_globopt. repeat case_match;
    repeat first [apply stays_ret | apply stays_exit | apply stays_fstflag | apply stays_portflag
                 | by apply stays_fst | apply stays_bind; [|intros] | case_match].
Qed.

Lemma stays_parse_args opts : ∀ g, stays (parse_args g opts).
Proof.
  induction opts as [|[c arg] opts IH]; intros g; [apply stays_ret|].
  apply stays_bind; [apply stays_parse_globopt|intros; apply IH].
Qed.

Lemma wp_qtimer_add_pristine period times cb s (Q : Z → sw → Prop) :
  (∀ n s', qth_null (qt s') = qth_null (qt s) → vlant s' = vlant s → fst_st s' = fst_st s → mact s' = mact s → Q n s') →
  wp (qtimer_add_m E period times cb) Q s.
Proof.
  intros HQ. apply wp_bind, wp_calloc; [done|]. apply wp_bind, wp_calloc; [done|]. apply wp_bind, wp_get.
  unfold qtimer_add. rewrite !andb_false_r. cbn [qt set_ncalloc].
  destruct (_ && _); simpl; apply wp_bind, wp_modify, wp_ret; by apply HQ.
Qed.

Lemma wp_hash_init n s :
  pristine s → 0 ≤ n ≤ 2 ^ 30 →
  wp (hash_init_m E n) (λ _ s', pristine s' ∧ hash_wf (mact s') ∧ hash_map (mact s') = ∅) s.
Proof.
  intros [] Hn. apply wp_bind. unfold hash_init.
  assert (∃ b, po2round 32 n = Some b ∧ 0 ≤ b ≤ 30) as (b & -> & Hb).
  { destruct (decide (n = 0)) as [->|]; [by exists 0|]. destruct (po2round_spec n) as (b & ? & ? & _); [lia|]. by exists b. }
  simpl. apply wp_bind, wp_calloc; [done|]. cbv iota beta. apply wp_bind, wp_modify, wp_bind, wp_qtimer_add_pristine.
  intros k s1 Hq Hv Hf Hm. apply wp_modify. cbn [mact set_mact vlant fst_st qt set_ncalloc] in *.
  split; [split; simpl; congruence|]. rewrite Hm. split; [by apply (hash_wf_init b (HashState 0 0 [] 3 2 100 k))|].
  apply (hash_map_HASH_INIT (HashState 0 0 [] 3 2 100 k)).
Qed.

Lemma wp_fst_init n s :
  pristine s →
  wp (fst_init E n) (λ _ s', pristine s' ∧ fnumports (fst_st s') = n ∧ mact s' = mact s) s.
Proof.
  intros []. apply wp_bind, wp_modify, wp_bind, wp_modify, wp_bind, wp_get, wp_whenM; intros _; [|by split; [split|]].
  apply wp_bind, wp_get. cbv zeta. apply wp_bind, wp_modify, wp_bind, wp_modify, wp_bind, wp_qtimer_add_pristine.
  intros k s1 Hq Hv Hf Hm. cbn in Hq, Hv, Hf, Hm. apply wp_modify. simpl. rewrite Hf, Hm. simpl.
  split; [split; simpl|done]; rewrite ?Hf; simpl; congruence.
Qed.

Lemma bmem_replicate_0 n i : bmem (replicate n 0) i = false.
Proof.
  unfold bmem, zget. destruct (_ <? _); [done|]. destruct (replicate _ _ !! _) as [w|] eqn:Ew; [|done].
  apply lookup_replicate in Ew as [-> _]. apply Z.testbit_0_l.
Qed.

Lemma bac_wf_alloc : bac_wf NUMOFVLAN (bac_alloc NUMOFVLAN).
Proof.
  split_and!; [|by vm_compute|by vm_compute]. apply Forall_replicate. lia.
Qed.

(** A switch with no VLAN and no port. *)
Definition bare (n : Z) s : Prop :=
  (∀ v, ¬ valid s v) ∧ (∀ q, psig s q = None) ∧ (∀ v f, vl_array v f s = None) ∧ dims s ∧ hash_map (mact s) = ∅.

Lemma bare_pristine n s c :
  pristine s → fnumports (fst_st s) = n → 0 < n < 2 ^ 31 → hash_wf (mact s) → hash_map (mact s) = ∅ →
  bare n (set_validvlan (bac_alloc NUMOFVLAN) (set_portv (replicate (Z.to_nat n) None) (set_ncalloc c (set_numports n s)))).
Proof.
  intros [Hv Hf Hq] Hfn Hn Hwf Hmap.
  match goal with |- bare _ ?st => set (s0 := st) end.
  assert (∀ v, ¬ valid s0 v) as Hnv.
  { intros v [_ Hb]. change (bmem (bac_alloc NUMOFVLAN) v = true) in Hb. unfold bac_alloc in Hb. by rewrite bmem_replicate_0 in Hb. }
  assert (∀ v f, vl_array v f s0 = None) as Hva.
  { intros v f. unfold vl_array, vl. cbn [vlant s0 set_validvlan set_portv set_ncalloc set_numports]. rewrite Hv. by destruct f. }
  split_and!; [done| |done| |done].
  - intros q. unfold psig, pat. cbn [portv s0 set_validvlan set_portv]. unfold zget. destruct (q <? 0); [done|].
    destruct (replicate _ _ !! _) as [o|] eqn:Eo; [|done]. by apply lookup_replicate in Eo as [-> _].
  - split; try done; try (by intros v ? ?%Hnv); try (by intros v ?%Hnv).
    + cbn [portv s0 set_validvlan set_portv numports set_ncalloc set_numports]. rewrite length_replicate. lia.
    + apply bac_wf_alloc.
    + intros v _. cbn [fst_st s0 set_validvlan set_portv set_ncalloc set_numports]. by rewrite Hf.
Qed.

(** From there, creating VLAN 0 gives the invariant. *)
Lemma bare_inv n s s' :
  bare n s → dims s' → same_views s s' → (∀ w f q, vb s' w f q = vb s w f q) → valid s' 0 → inv s'.
Proof.
  intros (Hnv & Hsig & Hva & Hd & Hm) Hd' [V N F S M] Hvb H0.
  assert (∀ v f q, vb s' v f q = false) as Hno by (intros; rewrite Hvb; unfold vb; by rewrite Hva).
  assert (∀ v f q, f = Untag ∨ f = Tagged ∨ f = Backup → fb s' v f q = false) as Hnf.
  { intros v f q Hf. rewrite F by done. unfold fb, fs_array. by rewrite (d_fn s Hd v). }
  split; [done|..|done].
  - intros q pt. by rewrite S, Hsig.
  - intros v q. split; intros f Hf; [by rewrite Hno|by rewrite Hnf].
  - intros v q. unfold disc_at. rewrite !Hno. split_and!; [done..|]. intros f Hf. by rewrite Hnf.
  - intros q. rewrite S, Hsig. by intros [].
  - intros k q. rewrite M. cbn. unfold hash_ports. by rewrite Hm.
Qed.

Lemma wp_port_init n s :
  pristine s → fnumports (fst_st s) = n → 0 < n < 2 ^ 31 → hash_wf (mact s) → hash_map (mact s) = ∅ →
  wp (port_init E n) (λ _ s', inv s') s.
Proof.
  intros P Hfn Hn Hwf Hmap. apply wp_bind, wp_modify. wp_if as Hle; [lia|].
  apply wp_bind, wp_calloc; [done|]. apply wp_bind, wp_calloc; [done|]. cbn [andb negb]. cbv iota.
  apply wp_bind, wp_modify, wp_bind, wp_modify.
  pose proof (bare_pristine n s (S (S (ncalloc s))) P Hfn Hn Hwf Hmap) as B.
  apply wp_bind. eapply wp_mono; [apply wp_vlancreate_nocheck; [done|apply B|apply B|done]|].
  intros rv s' (-> & Hd' & Hvv & SV & _ & _ & Hvb). cbn. apply wp_ret.
  eapply bare_inv; [exact B|done..|]. apply Hvv. by left.
Qed.

Lemma wp_boot opts s g s1 :
  pristine s → parse_args (Globals INIT_HASH_SIZE INIT_NUMPORTS) opts s = Done g s1 →
  0 ≤ g_hash_size g ≤ 2 ^ 30 → 0 < g_numports g < 2 ^ 31 → wp (boot E opts) (λ _ s', inv s') s.
Proof.
  intros P Ho Hh Hn. apply wp_bind. unfold wp at 1. rewrite Ho. pose proof (stays_parse_args _ _ _ _ _ Ho P) as P1.
  apply wp_bind. eapply wp_mono; [by apply wp_hash_init|]. intros [] s2 (P2 & Hwf & Hm).
  apply wp_bind. eapply wp_mono; [by apply (wp_fst_init (g_numports g))|]. intros [] s3 (P3 & Hf & Hmact).
  by apply wp_port_init; rewrite ?Hmact.
Qed.

End consolesafe.

Lemma console_reaches_every_command_witness :
  let E := Env true true (λ _ _ _ _ _, 0) (λ _, true) (λ _, true) [] [] in
  let C := ConsoleEnv (λ _, EmptyString) 1 "2" None 0 "" 0 (λ _, inr 2) in
  handle_cmd E C (λ _ _, mret 0) 0 (cmd_line "port/create" "7") (static_switch []) =
    (rv ← portcreate E 7; reply C 0 rv) (static_switch []).
Proof.
  intros E C.
  rewrite (console_reaches_every_command E C (λ _ _, mret 0)
    (Comlist "port/create" "N" "create the port N (inactive|notallocatable)" (Some (INTARG (portcreate E))) false) 0 "7").
  - by vm_compute.
  - apply list_elem_of_In. do 27 right. by left.
  - by eexists.
Defined.
