(* ===== verification/System.v ===== *)
(** * System: the running switch and its guarantees

    The inputs of the switch as one step function on the whole state, the states
    reachable from [main], and the theorems on them: no reachable input makes
    the switch fault, frames go to exactly the ports of their VLAN that they
    should, addresses that were learned are used, ports are given only to the
    users they admit; and the commands for which this is not so. *)
From Stdlib Require Import Lia.
From stdpp Require Import base numbers list gmap strings.
From S2P Require Import Prelude Scan BitArray Hash Qtimer Switch PortSend Fstp Port Console SwitchInv SpanInv SwitchSafe PortSafe PortLife VlanSafe VlanLife Forward ConsoleSafe.

Section system.
Context (E : env) (C : console_env) (depth : nat).
Abbreviation sw := (switch hash_state).
Implicit Type s : sw.

(** ** Inputs *)

(** What the main loop and the signal handler hand to the switch: a frame read
    from an endpoint of a port, an endpoint that can be written again, an
    endpoint that joins, is described or leaves, a line of a console, a script,
    an alarm. *)
Inductive input :=
| Packet (portno : Z) (packet : list Z) (len : Z)
| Writable (portno : Z) (k : nat)
| Join (portno ctl data user : Z) (ms : mod_support)
| Describe (portno : Z) (k : nat) (d : string)
| Leave (e : endpoint)
| Line (fd : Z) (line : string)
| Script (fd : Z) (name : string)
| Alarm.

Definition react (i : input) : M sw () :=
  match i with
  | Packet p packet len => handle_in_packet E p packet len
  | Writable p k => handle_out_packet E p k
  | Join p ctl data user ms => _ ← setup_ep E p ctl data user ms; mret ()
  | Describe p k d => setup_description p k d
  | Leave e => _ ← close_ep E e; mret ()
  | Line fd line => _ ← handle_cmd E C (runscript E C depth) fd line; mret ()
  | Script fd name => _ ← runscript E C (S depth) fd name; mret ()
  | Alarm => alarm E
  end.

(** Frames come from endpoints of active ports, with an Ethernet header;
    endpoints that are written or described exist; consoles do not send the
    commands [line_ok] excludes. *)
Definition has_ep s (p : Z) (k : nat) : Prop := ∃ pt, pat s p = Some pt ∧ is_Some (p_ep pt !! k).

Definition admissible s (i : input) : Prop :=
  match i with
  | Packet p packet len => act s p ∧ 14 ≤ len ∧ packet_ok packet
  | Writable p k => has_ep s p k
  | Describe p k _ => has_ep s p k
  | Line _ line => line_ok E C s line
  | Script _ name => script_ok E C name
  | _ => True
  end.

(** ** Reachable states *)

Definition options_ok (opts : list (Z * string)) (mac : list Z) : Prop :=
  ∃ g s1, parse_args (Globals INIT_HASH_SIZE INIT_NUMPORTS) opts (static_switch mac) = Done g s1 ∧
    0 ≤ g_hash_size g ≤ 2 ^ 30 ∧ 0 < g_numports g < 2 ^ 31.

Inductive reachable : sw → Prop :=
| reach_boot opts mac s : options_ok opts mac → boot E opts (static_switch mac) = Done () s → reachable s
| reach_step s i s' : reachable s → admissible s i → react i s = Done () s' → reachable s'.

Section safe.
Context (Hcalloc : ∀ n, calloc_ok E n = true).

Lemma static_pristine mac : pristine (static_switch mac).
Proof. by split. Qed.

Lemma wp_drop {A} (m : M sw A) s : wp m (λ _ s', inv s') s → wp (_ ← m; mret ()) (λ _ s', inv s') s.
Proof. intros H. by apply wp_bind. Qed.

Lemma wp_react s i : inv s → admissible s i → wp (react i) (λ _ s', inv s') s.
Proof.
  intros Hi Ha. destruct i as [p packet len|p k|p ctl data user ms|p k d|e|fd line|fd name|]; simpl in *.
  - destruct Ha as (Hact & Hlen & Hok). eapply wp_mono; [by apply wp_handle_in_packet|]. intros [] s' [I' _]. done.
  - by apply keeps_handle_out_packet.
  - apply wp_drop. eapply wp_mono; [by apply wp_setup_ep|]. intros r s' [I' _]. done.
  - by apply keeps_setup_description.
  - apply wp_drop. by apply keeps_close_ep_port_fd.
  - apply wp_drop. by apply wp_handle_cmd.
  - apply wp_drop. by apply (wp_runscript E C Hcalloc depth).
  - by apply keeps_alarm.
Qed.

Lemma reachable_inv s : reachable s → inv s.
Proof.
  induction 1 as [opts mac s (g & s1 & Hp & Hh & Hn) Hb|s i s' _ IH Ha Hr].
  - exact (wp_Done _ _ _ _ _ (wp_boot E Hcalloc _ _ _ _ (static_pristine mac) Hp Hh Hn) Hb).
  - exact (wp_Done _ _ _ _ _ (wp_react s i IH Ha) Hr).
Qed.

(** Start-up succeeds: with options that give a positive number of ports
    below 2^31 and a hash size of at most 2^30, [main] initialises the switch
    without a fault and establishes the invariant. *)
Theorem boot_establishes_invariant (opts : list (Z * string)) (mac : list Z) (Ho : options_ok opts mac) :
  ∃ s, boot E opts (static_switch mac) = Done () s ∧ inv s.
Proof.
  destruct Ho as (g & s1 & Hp & Hh & Hn).
  destruct (wp_done_intro _ _ _ (wp_boot E Hcalloc _ _ _ _ (static_pristine mac) Hp Hh Hn)) as ([] & s & Hb & Hi). by exists s.
Qed.

(** ** Forwarding *)

Lemma handled_run s p packet len :
  reachable s → admissible s (Packet p packet len) →
  ∃ s', handle_in_packet E p packet len s = Done () s' ∧ inv s' ∧ handled E s p packet len s'.
Proof.
  intros R (Ha & Hl & Hok). pose proof (reachable_inv s R) as Hi.
  destruct (wp_done_intro _ _ _ (wp_handle_in_packet E s p packet len Hi Ha Hl Hok)) as ([] & s' & H & I' & Hh). eauto.
Qed.

(** C2: Exact forwarding (build without packet queues, switch mode, frame that
    is not a BPDU): a frame received on a port that is a learning member of its
    VLAN is sent, once each, to all the endpoints of exactly these ports: the
    port its destination was learned on (none if that is the input port), or,
    for an unknown or group destination, every other port that forwards in the
    VLAN; every port gets it in the form it expects, tagged or untagged.  From
    any other port the frame goes nowhere. *)
Theorem frame_forwarded_exactly s (p : Z) (packet : list Z) (len : Z)
    (R : reachable s) (Ha : admissible s (Packet p packet len)) (Hpq : VDE_PQ2 E = false)
    (Hhub : hub s = false) (Hb : is_bpdu s packet = false) :
  let v := in_vlan s p packet in
  ∃ s', handle_in_packet E p packet len s = Done () s' ∧
    if vb s v Table p && negb (vb s v Notlearning p) then
      ∃ l, targets_ok s p v (known (mact s') packet v) l ∧
        trace s' = trace s ++ mjoin ((λ q, delivs s q (frame_for s v (is_tagged packet) packet len q)) <$> l)
    else trace s' = trace s.
Proof.
  intros v. destruct (handled_run s p packet len R Ha) as (s' & Hr & _ & Hh). exists s'. split; [done|].
  unfold handled in Hh. rewrite Hhub, Hb in Hh. cbv zeta in Hh. fold v in Hh.
  destruct (vb s v Table p && negb (vb s v Notlearning p)); [|apply Hh].
  destruct Hh as (_ & _ & _ & l & evs & Ht & _ & Htr & Hlog). exists l. split; [done|].
  by rewrite Htr, (fwd_log_exact E _ _ _ _ Hpq Hlog).
Qed.

Lemma event_target s q frame ctl data fr port :
  inv s → EvSend ctl data fr port ∈ delivs s q frame → port = q ∧ fr = frame ∧ act s q.
Proof.
  intros Hi. unfold delivs. destruct (psig s q) as [ps|] eqn:Eq; [|by intros ?%elem_of_nil].
  intros (e & He & Hin)%list_elem_of_fmap. injection He as _ _ -> ->.
  destruct (i_sigs s Hi q ps Eq) as [_ Hall]. rewrite Forall_forall in Hall. split_and!; [by apply Hall|done|].
  exists ps. split; [done|]. intros Hnil. rewrite Hnil in Hin. by apply elem_of_nil in Hin.
Qed.

(** C3: VLAN isolation: in switch mode, whatever a frame that is not a BPDU makes
    the switch send is addressed to an active port other than the input one that
    is a member of the VLAN of the frame, and so is the input port; what is sent
    is the frame in the form of that port. *)
Theorem vlan_isolation s (p : Z) (packet : list Z) (len : Z)
    (R : reachable s) (Ha : admissible s (Packet p packet len)) (Hhub : hub s = false) (Hb : is_bpdu s packet = false) :
  let v := in_vlan s p packet in
  ∃ s' evs, handle_in_packet E p packet len s = Done () s' ∧ trace s' = trace s ++ evs ∧
    ∀ ctl data frame q, EvSend ctl data frame q ∈ evs →
      q ≠ p ∧ act s q ∧ vb s v Table q = true ∧ vb s v Table p = true ∧
      frame = frame_for s v (is_tagged packet) packet len q.
Proof.
  intros v. pose proof (reachable_inv s R) as Hi. pose proof Ha as (_ & _ & Hpl & Hpb).
  destruct (handled_run s p packet len R Ha) as (s' & Hr & I' & Hh). exists s'.
  unfold handled in Hh. rewrite Hhub, Hb in Hh. cbv zeta in Hh. fold v in Hh.
  destruct (vb s v Table p) eqn:Etab, (vb s v Notlearning p) eqn:Enl; simpl in Hh;
    try (exists []; rewrite app_nil_r; split_and!; [done|apply Hh|by intros ???? ?%elem_of_nil]).
  destruct Hh as (Hsig & (Hvl & _) & _ & l & evs & Ht & _ & Htr & Hlog). exists evs. split_and!; [done..|].
  intros ctl data frame q Hev. destruct (fwd_log_elem E _ _ _ _ _ Hlog Hev) as [(q' & Hq' & Hd)|[? ?]]; [|done].
  apply event_target in Hd as (-> & -> & Hact); [|done].
  assert (q' ≠ p ∧ vb s v Table q' = true); [|tauto]. unfold targets_ok in Ht.
  destruct (known (mact s') packet v) as [k|] eqn:Ek.
  - unfold known in Ek. destruct (IS_BROADCAST (pk_dest packet)); [done|].
    destruct (i_mac s' I' _ _ Ek) as (Htb & _ & _). destruct (Z.eqb_spec k p); subst l; [by apply elem_of_nil in Hq'|].
    apply list_elem_of_singleton in Hq' as ->. split; [done|].
    pose proof (vb_range s v Table p (i_dims s Hi) Etab) as [Hv _]. apply (d_vr s (i_dims s Hi)) in Hv.
    destruct (extmac_unpack (pk_dest packet) v) as (_ & _ & Hvlan); [by apply pk_src_mac; [lia|]|unfold NUMOFVLAN in Hv; lia|].
    rewrite Hvlan in Htb. unfold vb, vl_array, vl in Htb |- *. by rewrite Hvl in Htb.
  - apply (proj2 Ht) in Hq' as [Hne Hf]. split; [done|]. destruct (i_disc s Hi v q') as (A & B & _).
    destruct Hf as [Hf|Hf]; [by destruct (A Hf) as [? _]|by destruct (B Hf) as [? _]].
Qed.

(** C4: Addresses that were learned are used: when a frame [a] with an unknown
    source address arrives on port [p], the next frame [b] of the same VLAN for
    that address, from another port [q], is sent to the endpoints of [p] and to
    nothing else. *)
Theorem learned_address_is_used s (p q : Z) (a b : list Z) (la lb : Z)
    (R : reachable s) (Ha : admissible s (Packet p a la)) (Hb : admissible s (Packet q b lb))
    (Hpq : VDE_PQ2 E = false) (Hm : ∀ n, malloc_ok E n = true) (Hhub : hub s = false)
    (Hba : is_bpdu s a = false) (Hbb : is_bpdu s b = false) (Hv : in_vlan s q b = in_vlan s p a) (Hne : q ≠ p)
    (Hp : vb s (in_vlan s p a) Table p && negb (vb s (in_vlan s p a) Notlearning p) = true)
    (Hq : vb s (in_vlan s p a) Table q && negb (vb s (in_vlan s p a) Notlearning q) = true)
    (Hsrc : IS_BROADCAST (pk_src a) = false) (Hnew : hash_ports (mact s) (extmac (pk_src a) (in_vlan s p a)) = None)
    (Hdst : pk_dest b = pk_src a) (Hother : pk_src b ≠ pk_src a) :
  let v := in_vlan s p a in
  ∃ s1 s2, handle_in_packet E p a la s = Done () s1 ∧ handle_in_packet E q b lb s1 = Done () s2 ∧
    trace s2 = trace s1 ++ delivs s p (frame_for s v (is_tagged b) b lb p).
Proof.
  intros v. fold v in Hv, Hp, Hq, Hnew.
  destruct (handled_run s p a la R Ha) as (s1 & Hr1 & I1 & Hh1). unfold handled in Hh1.
  rewrite Hhub, Hba in Hh1. cbv zeta in Hh1. fold v in Hh1. rewrite Hp in Hh1.
  destruct Hh1 as (Hsig & (Hvl & Hpf & Hfs) & [_ Hlearn] & _). specialize (Hlearn Hsrc Hm Hnew).
  assert (∀ w f x, vb s1 w f x = vb s w f x) as Hvb by (intros; unfold vb, vl_array, vl; by rewrite Hvl).
  assert (∀ x, utag s1 x = utag s x) as Hut by (intros; unfold utag; by rewrite Hsig).
  assert (admissible s1 (Packet q b lb)) as Hb1.
  { destruct Hb as (H1 & H2 & H3). split_and!; [|done..]. unfold act. by rewrite Hsig. }
  destruct (handled_run s1 q b lb) as (s2 & Hr2 & _ & Hh2); [exact (reach_step s (Packet p a la) s1 R Ha Hr1)|done|].
  exists s1, s2. split_and!; [done..|]. unfold handled, hub, is_bpdu, in_vlan in Hh2. rewrite Hpf, Hfs, Hut in Hh2.
  fold (hub s) (is_bpdu s b) (in_vlan s q b) in Hh2. rewrite Hhub, Hbb, Hv, !Hvb, Hq in Hh2.
  destruct Hh2 as (_ & _ & [Hkeep _] & l & evs & Ht & _ & Htr & Hlog).
  assert (known (mact s2) b v = Some p) as Hk.
  { unfold known. rewrite Hdst, Hsrc. change (mt_ports (mact s2)) with (hash_ports (mact s2)) in *. rewrite Hkeep; [done|].
    left. intros Heq. apply Hother. symmetry. destruct Ha as (_ & _ & Hla & Hfa), Hb as (_ & _ & Hlb & Hfb).
    pose proof (vb_range s v Table p (i_dims s (reachable_inv s R))) as Hvv. apply andb_prop in Hp as [Hp _].
    destruct (Hvv Hp) as [Hval _]. apply (d_vr s (i_dims s (reachable_inv s R))) in Hval. unfold NUMOFVLAN in Hval.
    destruct (extmac_unpack (pk_src a) v) as (_ & Hma & _); [apply (pk_src_mac a); [lia|done]|lia|].
    destruct (extmac_unpack (pk_src b) v) as (_ & Hmb & _); [apply (pk_src_mac b); [lia|done]|lia|]. congruence. }
  unfold targets_ok in Ht. rewrite Hk, (proj2 (Z.eqb_neq _ _)) in Ht by done. subst l.
  rewrite Htr, (fwd_log_exact E _ _ _ _ Hpq Hlog). simpl. rewrite app_nil_r. unfold delivs, frame_for, utag. by rewrite Hsig.
Qed.

(** Hub mode (build without packet queues): a frame is repeated unchanged,
    once, to every existing port from 1 on but the one it came from, whatever
    its VLAN. *)
Theorem hub_repeats_to_all s (p : Z) (packet : list Z) (len : Z)
    (R : reachable s) (Ha : admissible s (Packet p packet len)) (Hpq : VDE_PQ2 E = false) (Hhub : hub s = true) :
  ∃ s', handle_in_packet E p packet len s = Done () s' ∧
    trace s' = trace s ++ mjoin ((λ q, delivs s q (take_z len packet)) <$>
      filter (λ q, q ≠ p ∧ is_Some (psig s q)) (seqZ 1 (numports s - 1))).
Proof.
  destruct (handled_run s p packet len R Ha) as (s' & Hr & _ & Hh). exists s'. split; [done|].
  unfold handled in Hh. rewrite Hhub in Hh. destruct Hh as (evs & -> & Hlog). by rewrite (fwd_log_exact E _ _ _ _ Hpq Hlog).
Qed.

(** ** Ports and users *)

Lemma setup_run s portno ctl data user ms : reachable s → ∃ r s', setup_ep E portno ctl data user ms s = Done r s' ∧ inv s' ∧
  (∀ e, r = Some e → let i := ep_port e in let ps := default new_port (psig s i) in
      0 ≤ i < numports s ∧ (0 < portno → i = portno) ∧ (portno = 0 → 1 ≤ i ∧ busy s i = false) ∧
      act s' i ∧ p_curuser (take_port E ps user) = user) ∧
  ((∀ n, malloc_ok E n = true) → ∀ ps, 0 < portno → psig s portno = Some ps →
     p_curuser (take_port E ps user) = user → is_Some r).
Proof.
  intros R. destruct (wp_done_intro _ _ _ (wp_setup_ep E s portno ctl data user ms (reachable_inv s R)))
    as (r & s' & H & I' & _ & H1 & H2). exists r, s'. done.
Qed.

(** C32: Access control: when an endpoint is given to a user, the port number is in
    range and is the one requested (or, for a request of port 0, a port of the
    pool that was free); the port is active afterwards; and either the port was
    in use by that same user, or it was inactive and its owner, its group, root
    or the absence of restrictions admit the user, or its current user was
    already that one. *)
Theorem endpoint_respects_access_control s (portno ctl data user : Z) (ms : mod_support) (R : reachable s) :
  ∃ r s', setup_ep E portno ctl data user ms s = Done r s' ∧
    ∀ e, r = Some e → let i := ep_port e in let ps := default new_port (psig s i) in
      0 ≤ i < numports s ∧ (0 < portno → i = portno) ∧ (portno = 0 → 1 ≤ i ∧ busy s i = false) ∧ act s' i ∧
      (p_curuser ps = user ∨ (p_ep ps = [] ∧ ac_allows E ps user = true)).
Proof.
  destruct (setup_run s portno ctl data user ms R) as (r & s' & Hs & _ & H1 & _). exists r, s'. split; [done|].
  intros e He. destruct (H1 e He) as (Hr & Hp & Hz & Ha & Hu). cbv zeta in *. split_and!; [apply Hr|apply Hr|exact Hp|exact Hz|done|].
  unfold take_port in Hu.
  destruct (bool_decide _) eqn:Eb; simpl in Hu; [|by left]. apply bool_decide_eq_true in Eb.
  destruct (ac_allows _ _ _) eqn:Ea; [by right|by left].
Qed.

(** C36: The user that does not exist passes every access control: a request with
    user id -1, which is what a client on an unnamed socket has, is granted any
    inactive port whose current user is unset, whatever owner or group the port
    is restricted to. *)
Theorem unnamed_client_bypasses_access_control s (p ctl data : Z) (ms : mod_support) (ps : port)
    (R : reachable s) (Hm : ∀ n, malloc_ok E n = true) (Hp : 0 < p) (Hps : psig s p = Some ps)
    (Hinact : p_ep ps = []) (Hcur : p_curuser ps = UNONE) :
  ∃ e s', setup_ep E p ctl data UNONE ms s = Done (Some e) s' ∧ ep_port e = p ∧ act s' p.
Proof.
  destruct (setup_run s p ctl data UNONE ms R) as (r & s' & Hs & _ & H1 & H2).
  destruct (H2 Hm ps Hp Hps) as [e ->].
  { unfold take_port. by destruct (_ && _). }
  destruct (H1 e eq_refl) as (_ & Hi & _ & Ha & _). cbv zeta in *. specialize (Hi Hp). exists e, s'. split_and!; [done..|].
  by rewrite <- Hi.
Qed.

(** The pool: without a port number, a new port is the lowest one from 1 on
    that is neither in use nor withdrawn from the pool; there is none exactly
    when all of them are (and memory suffices). *)
Theorem pool_gives_lowest_free_port s (R : reachable s) (Hm : ∀ n, malloc_ok E n = true) :
  ∃ i s', alloc_port E 0 s = Done i s' ∧ inv s' ∧
    ((i = -1 ∧ ∀ j, 1 ≤ j < numports s → busy s j = true) ∨
     (1 ≤ i < numports s ∧ busy s i = false ∧ (∀ j, 1 ≤ j < i → busy s j = true) ∧ is_Some (psig s' i))).
Proof.
  pose proof (reachable_inv s R) as Hi. pose proof (i_dims s Hi) as Hd.
  destruct (wp_done_intro _ _ _ (wp_alloc_pool E s Hi)) as (i & s' & Ha & I' & Hc). exists i, s'. split_and!; [done..|].
  destruct Hc as [(-> & Hall)|[(Hr & Hb & Hlow & Hex)|[_ [n Hn]]]]; [by left|right; exact (conj Hr (conj Hb (conj Hlow Hex)))|by rewrite Hm in Hn].
Qed.

End safe.


End system.

(** ** A concrete switch *)

(** A build without options, senders that always succeed and enough memory; a
    switch of four ports with an endpoint on ports 1 and 2. *)
Definition demo_env : env := Env false false (λ _ _ _ _ _, 0) (λ _, true) (λ _, true) [] [].
Definition demo_console : console_env :=
  ConsoleEnv (λ _, "error"%string) 1 "2.3" None 0x180 "/tmp/vde.ctl" 0x180 (λ _, inr ENOENT).
Definition demo_mac : list Z := [0; 0xff; 1; 2; 3; 4].
Definition demo_opts : list (Z * string) := [(110, "4"%string)].
Definition demo_ms : mod_support := ModSupport "unix prog" true.
Definition state_of {A} (o : outcome (switch hash_state) A) : switch hash_state :=
  match o with Done _ s => s | _ => static_switch [] end.

Definition demo0 : switch hash_state := state_of (boot demo_env demo_opts (static_switch demo_mac)).
Definition demo1 : switch hash_state := state_of (react demo_env demo_console 1 (Join 1 10 11 0 demo_ms) demo0).
Definition demo2 : switch hash_state := state_of (react demo_env demo_console 1 (Join 2 12 13 0 demo_ms) demo1).

Lemma demo_calloc n : calloc_ok demo_env n = true.
Proof. done. Qed.

Lemma demo_options : options_ok demo_opts demo_mac.
Proof.
  eexists _, _. split; [vm_compute; reflexivity|]. simpl. lia.
Qed.

Lemma demo_reachable : reachable demo_env demo_console 1 demo2.
Proof.
  apply (reach_step _ _ _ demo1 (Join 2 12 13 0 demo_ms)); [|done|by vm_compute].
  apply (reach_step _ _ _ demo0 (Join 1 10 11 0 demo_ms)); [|done|by vm_compute].
  apply (reach_boot _ _ _ demo_opts demo_mac); [apply demo_options|by vm_compute].
Qed.

(** Frames from port 1 to port 2 and back. *)
Definition mac_a : list Z := [2; 0; 0; 0; 0; 1].
Definition mac_b : list Z := [2; 0; 0; 0; 0; 2].
Definition frame_ab : list Z := mac_b ++ mac_a ++ [8; 0; 0; 0; 0; 0].
Definition frame_ba : list Z := mac_a ++ mac_b ++ [8; 0; 0; 0; 0; 0].

Lemma demo_act p : p = 1 ∨ p = 2 → act demo2 p.
Proof. by intros [->| ->]; (eexists; split; [vm_compute; reflexivity|]). Qed.

Lemma demo_packet p f : p = 1 ∨ p = 2 → f = frame_ab ∨ f = frame_ba →
  admissible demo_env demo_console demo2 (Packet p f 18).
Proof.
  intros Hp Hf. split; [by apply demo_act|]. split; [lia|]. split; [destruct Hf; subst; simpl; lia|].
  destruct Hf; subst; repeat constructor; unfold byteP; lia.
Qed.


Lemma boot_establishes_invariant_witness :
  ∃ s, boot demo_env demo_opts (static_switch demo_mac) = Done () s ∧ inv s.
Proof. apply (boot_establishes_invariant demo_env demo_calloc demo_opts demo_mac), demo_options. Defined.

Lemma frame_forwarded_exactly_witness :
  ∃ s', handle_in_packet demo_env 1 frame_ab 18 demo2 = Done () s' ∧
    ∃ l, targets_ok demo2 1 0 (known (mact s') frame_ab 0) l ∧
      trace s' = trace demo2 ++ mjoin ((λ q, delivs demo2 q (frame_for demo2 0 false frame_ab 18 q)) <$> l).
Proof.
  refine (frame_forwarded_exactly demo_env demo_console 1 demo_calloc demo2 1 frame_ab 18 _ _ _ _ _);
    [apply demo_reachable|apply demo_packet; auto|by vm_compute..].
Defined.

Lemma vlan_isolation_witness :
  ∃ s' evs, handle_in_packet demo_env 1 frame_ab 18 demo2 = Done () s' ∧ trace s' = trace demo2 ++ evs ∧
    ∀ ctl data frame q, EvSend ctl data frame q ∈ evs →
      q ≠ 1 ∧ act demo2 q ∧ vb demo2 0 Table q = true ∧ vb demo2 0 Table 1 = true ∧
      frame = frame_for demo2 0 false frame_ab 18 q.
Proof.
  refine (vlan_isolation demo_env demo_console 1 demo_calloc demo2 1 frame_ab 18 _ _ _ _);
    [apply demo_reachable|apply demo_packet; auto|by vm_compute..].
Defined.

Lemma learned_address_is_used_witness :
  ∃ s1 s2, handle_in_packet demo_env 1 frame_ab 18 demo2 = Done () s1 ∧
    handle_in_packet demo_env 2 frame_ba 18 s1 = Done () s2 ∧
    trace s2 = trace s1 ++ delivs demo2 1 (frame_for demo2 0 false frame_ba 18 1).
Proof.
  refine (learned_address_is_used demo_env demo_console 1 demo_calloc demo2 1 2 frame_ab frame_ba 18 18
    _ _ _ _ _ _ _ _ _ _ _ _ _ _ _ _);
    [apply demo_reachable|apply demo_packet; auto|apply demo_packet; auto|..].
  all: first [done | by vm_compute | by intros [=]].
Defined.

(** The same switch as a hub. *)
Definition demo_hub : switch hash_state := state_of (react demo_env demo_console 1 (Line 0 "port/sethub 1") demo2).

Lemma demo_hub_reachable : reachable demo_env demo_console 1 demo_hub.
Proof.
  apply (reach_step _ _ _ demo2 (Line 0 "port/sethub 1")); [apply demo_reachable|by vm_compute|by vm_compute].
Qed.

Lemma hub_repeats_to_all_witness :
  ∃ s', handle_in_packet demo_env 1 frame_ab 18 demo_hub = Done () s' ∧
    trace s' = trace demo_hub ++ mjoin ((λ q, delivs demo_hub q (take_z 18 frame_ab)) <$>
      filter (λ q, q ≠ 1 ∧ is_Some (psig demo_hub q)) (seqZ 1 (numports demo_hub - 1))).
Proof.
  refine (hub_repeats_to_all demo_env demo_console 1 demo_calloc demo_hub 1 frame_ab 18 _ _ _ _);
    [apply demo_hub_reachable| |done|by vm_compute].
  destruct (demo_packet 1 frame_ab) as (_ & ? & ?); [auto..|]. split_and!; [|done..].
  eexists; split; [vm_compute; reflexivity|done].
Defined.

Lemma endpoint_respects_access_control_witness :
  ∃ r s', setup_ep demo_env 0 20 21 1000 demo_ms demo2 = Done r s' ∧
    ∀ e, r = Some e → let i := ep_port e in let ps := default new_port (psig demo2 i) in
      0 ≤ i < numports demo2 ∧ (0 < 0 → i = 0) ∧ (0 = 0 → 1 ≤ i ∧ busy demo2 i = false) ∧ act s' i ∧
      (p_curuser ps = 1000 ∨ (p_ep ps = [] ∧ ac_allows demo_env ps 1000 = true)).
Proof.
  apply (endpoint_respects_access_control demo_env demo_console 1 demo_calloc demo2 0 20 21 1000 demo_ms), demo_reachable.
Defined.

(** Port 3 created and restricted to user 1000. *)
Definition demo_owned : switch hash_state :=
  state_of ((react demo_env demo_console 1 (Line 0 "port/create 3") ;;
             react demo_env demo_console 1 (Line 0 "port/setuser 3 1000")) demo2).

Lemma demo_owned_reachable : reachable demo_env demo_console 1 demo_owned.
Proof.
  apply (reach_step _ _ _ (state_of (react demo_env demo_console 1 (Line 0 "port/create 3") demo2))
    (Line 0 "port/setuser 3 1000")); [|by vm_compute|by vm_compute].
  apply (reach_step _ _ _ demo2 (Line 0 "port/create 3")); [apply demo_reachable|by vm_compute|by vm_compute].
Qed.

Lemma unnamed_client_bypasses_access_control_witness :
  p_user (default new_port (psig demo_owned 3)) = 1000 ∧
  ∃ e s', setup_ep demo_env 3 20 21 UNONE demo_ms demo_owned = Done (Some e) s' ∧ ep_port e = 3 ∧ act s' 3.
Proof.
  split; [by vm_compute|].
  apply (unnamed_client_bypasses_access_control demo_env demo_console 1 demo_calloc demo_owned 3 20 21 demo_ms
    (default new_port (psig demo_owned 3))); [apply demo_owned_reachable|done|lia|by vm_compute..].
Defined.

Lemma pool_gives_lowest_free_port_witness :
  ∃ i s', alloc_port demo_env 0 demo2 = Done i s' ∧ inv s' ∧
    ((i = -1 ∧ ∀ j, 1 ≤ j < numports demo2 → busy demo2 j = true) ∨
     (1 ≤ i < numports demo2 ∧ busy demo2 i = false ∧ (∀ j, 1 ≤ j < i → busy demo2 j = true) ∧ is_Some (psig s' i))).
Proof.
  apply (pool_gives_lowest_free_port demo_env demo_console 1 demo_calloc demo2); [apply demo_reachable|done].
Defined.

(** ** The excluded commands *)

(** Removing VLAN 0 breaks the switch: on a switch without ports the command
    is accepted, and the next port that is created writes through the NULL
    table of VLAN 0. *)
Theorem vlan_remove_0_then_port_create_faults :
  ∃ s s', boot demo_env demo_opts (static_switch demo_mac) = Done () s ∧ vlanremove 0 s = Done 0 s' ∧
    portcreate demo_env 1 s' = Fault.
Proof. exists demo0. eexists. split; [by vm_compute|]. split; by vm_compute. Qed.

(** Shrinking the switch reads out of bounds: with 200 ports and none of them
    in use, [port/setnumports 100] passes the checks and then faults in the
    reallocation of the VLAN tables. *)
Theorem setnumports_shrink_faults :
  ∃ s, boot demo_env [(110, "200"%string)] (static_switch demo_mac) = Done () s ∧ portsetnumports demo_env 100 s = Fault.
Proof. eexists. split; [vm_compute; reflexivity|by vm_compute]. Qed.
