(* ===== verification/WireFilter.v ===== *)
(** * WireFilter: the delay queue and the stream of [wirefilter.c]

    The delayed packets wait in a binary heap ordered by delivery time and then
    by a counter ([packet_enqueue], [packet_dequeue]); packets that arrive on a
    pipe are cut out of the byte stream by [splitpacket].  The theorems: the heap
    delivers exactly the packets that are due, in order, and keeps the rest; in
    fifo mode packets are delivered in the order of arrival, whatever delays
    they drew; the array of the heap overflows at its hundredth packet; and the
    reassembly of a stream does not depend on how it was cut, as long as no
    length field is cut and one direction only is used. *)
From Stdlib Require Import Lia Sorted.
From stdpp Require Import base numbers list gmap.
From S2P Require Import Prelude.

(** ** The delay queue *)

Record packpq := PackPq { when : Z; pcounter : Z; pdir : Z; pbuf : list Z; psize : Z }.

(** [pqh] is the array, [None] before its allocation; its cells are [None]
    before they are written.  [written] are the calls of [writepacket]. *)
Record wfstate := WfState {
  pqh : option (list (option packpq));
  npq : Z;
  maxpq : Z;
  maxwhen : Z;
  counter : Z;
  nofifo : Z;
  delay_bufsize : list Z;
  written : list packpq
}.

Definition PQCHUNK : Z := 100.
Definition sentinel : packpq := PackPq 0 0 0 [] 0.

Definition set_heap (a : list (option packpq)) (s : wfstate) : wfstate :=
  WfState (Some a) (npq s) (maxpq s) (maxwhen s) (counter s) (nofifo s) (delay_bufsize s) (written s).
Definition set_npq (n : Z) (s : wfstate) : wfstate :=
  WfState (pqh s) n (maxpq s) (maxwhen s) (counter s) (nofifo s) (delay_bufsize s) (written s).
Definition set_clock (w c : Z) (s : wfstate) : wfstate :=
  WfState (pqh s) (npq s) (maxpq s) w c (nofifo s) (delay_bufsize s) (written s).
Definition set_bufsize (b : list Z) (s : wfstate) : wfstate :=
  WfState (pqh s) (npq s) (maxpq s) (maxwhen s) (counter s) (nofifo s) b (written s).
Definition set_array (a : list (option packpq)) (m : Z) (s : wfstate) : wfstate :=
  WfState (Some a) (npq s) m (maxwhen s) (counter s) (nofifo s) (delay_bufsize s) (written s).

Definition pq_cell (k : Z) : M wfstate packpq :=
  s ← get; a ← deref (pqh s); o ← deref (zget a k); deref o.
Definition pq_store (k : Z) (p : packpq) : M wfstate () :=
  s ← get; a ← deref (pqh s); a' ← deref (zset a k (Some p)); modify (set_heap a').
Definition bufsize_add (dir d : Z) : M wfstate () :=
  s ← get; x ← deref (zget (delay_bufsize s) dir); l ← deref (zset (delay_bufsize s) dir (i32 (x + d)));
  modify (set_bufsize l).
Definition writepacket_call (p : packpq) : M wfstate () := modify (λ s,
  WfState (pqh s) (npq s) (maxpq s) (maxwhen s) (counter s) (nofifo s) (delay_bufsize s) (written s ++ [p])).

(** The order of the two [while] conditions and of the choice of the child. *)
Definition pq_lt (a b : packpq) : bool :=
  (when a <? when b) || ((when a =? when b) && (pcounter a <? pcounter b)).

(** The climb of [packet_enqueue] from the new last cell [k]. *)
Fixpoint sift_up (fuel : nat) (new : packpq) (k : Z) : M wfstate () :=
  match fuel with
  | O => fault
  | S fuel =>
    p ← pq_cell (Z.shiftr k 1);
    if pq_lt new p then pq_store k p ;; sift_up fuel new (Z.shiftr k 1)
    else pq_store k new
  end.

(** The fields of the new element; [counter] is unsigned. *)
Definition schedule (now delms : Z) (s : wfstate) : Z * wfstate :=
  let w := u64 (now + delms) in
  let s := if maxwhen s <? w then set_clock w 0 s else s in
  if (nofifo s =? 0) && (w <=? maxwhen s) then (maxwhen s, set_clock (maxwhen s) (u32 (counter s + 1)) s) else (w, s).

(** The array of the heap: allocated on the first use, enlarged when
    [npq >= maxpq]. *)
Definition grow_heap (ok : bool) : M wfstate () :=
  s ← get;
  match pqh s with
  | None =>
    if negb ok then exitM 1
    else modify (set_array (Some sentinel :: replicate (Z.to_nat (PQCHUNK - 1)) None) PQCHUNK)
  | Some _ => mret ()
  end ;;
  s ← get;
  if maxpq s <=? npq s then
    if negb ok then exitM 1
    else a ← deref (pqh s); modify (set_array (a ++ replicate (Z.to_nat PQCHUNK) None) (maxpq s + PQCHUNK))
  else mret ().

(** [packet_enqueue(dir,buf,size,delms)] at the time [now] in milliseconds;
    [ok] tells whether memory was available. *)
Definition packet_enqueue (ok : bool) (now dir : Z) (buf : list Z) (size delms : Z) : M wfstate () :=
  if negb ok then exitM 1 else
  s ← get;
  let '(w, s') := schedule now delms s in
  modify (λ _, s') ;;
  let new := PackPq w (counter s') dir (take (Z.to_nat size) buf) size in
  bufsize_add dir size ;;
  grow_heap ok ;;
  s ← get;
  let k := npq s + 1 in
  modify (set_npq k) ;;
  sift_up (S (Z.to_nat k)) new k.

(** The minimum between cells [j] and [j+1]. *)
Definition smaller_child (n j : Z) : M wfstate Z :=
  if j <? n then c ← pq_cell j; d ← pq_cell (j + 1); mret (if pq_lt d c then j + 1 else j) else mret j.

(** The descent of [packet_dequeue]: [old] was the last element, [k] is free. *)
Fixpoint sift_down (fuel : nat) (old : packpq) (n k : Z) : M wfstate () :=
  match fuel with
  | O => fault
  | S fuel =>
    if k <=? Z.shiftr n 1 then
      j ← smaller_child n (Z.shiftl k 1);
      c ← pq_cell j;
      if pq_lt old c then pq_store k old
      else pq_store k c ;; sift_down fuel old n j
    else pq_store k old
  end.

(** The body of the loop of [packet_dequeue], with [n] packets waiting. *)
Definition deliver_root (n : Z) (top : packpq) : M wfstate () :=
  old ← pq_cell n;
  modify (set_npq (n - 1)) ;;
  bufsize_add (pdir top) (- psize top) ;;
  writepacket_call top ;;
  sift_down (S (Z.to_nat n)) old (n - 1) 1.

(** The loop of [packet_dequeue]; a negative [when] does not exist. *)
Fixpoint dequeue_loop (fuel : nat) (now : Z) : M wfstate () :=
  s ← get;
  if 0 <? npq s then
    top ← pq_cell 1;
    if when top <=? now then
      match fuel with
      | O => fault
      | S fuel =>
        deliver_root (npq s) top ;;
        dequeue_loop fuel now
      end
    else mret ()
  else mret ().

(** [packet_dequeue()] at the time [now]. *)
Definition packet_dequeue (now : Z) : M wfstate () :=
  s ← get; dequeue_loop (Z.to_nat (npq s)) now.

(** [nextms()]: the time to the first delivery, or the largest value. *)
Definition nextms (now : Z) : M wfstate Z :=
  s ← get;
  if 0 <? npq s then p ← pq_cell 1; mret (if now <? when p then when p - now else 0)
  else mret (u64 (-1)).

(** ** The order of delivery *)

Definition key (p : packpq) : Z := when p * 2 ^ 32 + pcounter p.
Definition keyed (p : packpq) : Prop := 0 ≤ when p ∧ 0 ≤ pcounter p < 2 ^ 32.

Lemma pq_lt_key a b : keyed a → keyed b → pq_lt a b = (key a <? key b).
Proof.
  intros [Ha Ha'] [Hb Hb']. apply Bool.eq_iff_eq_true. unfold pq_lt, key.
  rewrite orb_true_iff, andb_true_iff, !Z.ltb_lt, Z.eqb_eq. nia.
Qed.

Lemma key_nonneg p : keyed p → 0 ≤ key p.
Proof. intros [? ?]. unfold key. lia. Qed.

(** ** Exchanging two elements of a list *)

Lemma swap_Permutation {A} (l : list A) i j a b :
  (i < j)%nat → l !! i = Some a → l !! j = Some b → <[i := b]> (<[j := a]> l) ≡ₚ l.
Proof.
  intros Hij Hi Hj.
  rewrite <- (take_drop_middle l i a Hi) at 2. rewrite <- (take_drop_middle l i a Hi) at 1.
  assert (length (take i l) = i) as Hl by (apply lookup_lt_Some in Hi; rewrite length_take; lia).
  rewrite insert_app_r_alt by lia. rewrite Hl.
  destruct (j - i)%nat as [|d] eqn:Ed; [lia|]. simpl.
  rewrite insert_app_r_alt by lia. rewrite Hl, Nat.sub_diag. simpl.
  assert (drop (S i) l !! d = Some b) as Hd.
  { rewrite lookup_drop. by replace (S i + d)%nat with j by lia. }
  apply Permutation_app_head.
  rewrite <- (take_drop_middle _ d b Hd) at 2.
  rewrite (insert_take_drop _ _ _ (lookup_lt_Some _ _ _ Hd)).
  rewrite <- !Permutation_middle. constructor.
Qed.

Lemma swap_any_Permutation {A} (l : list A) i j a b :
  i ≠ j → l !! i = Some a → l !! j = Some b → <[i := b]> (<[j := a]> l) ≡ₚ l.
Proof.
  intros Hij Hi Hj. destruct (decide (i < j)%nat).
  - by apply swap_Permutation.
  - rewrite list_insert_insert_ne by done. apply swap_Permutation; [lia | done | done].
Qed.

(** ** Heaps *)

(** [L] is the part of the array in use, with the sentinel in front; the parent
    of cell [i] is cell [i/2]. *)
Definition edge (L : list packpq) (i : nat) : Prop :=
  ∀ p q, L !! (i / 2)%nat = Some p → L !! i = Some q → key p ≤ key q.
Definition heap (L : list packpq) : Prop := ∀ i, (1 ≤ i)%nat → edge L i.

(** A heap but for the cell [k]: its own edge, or those of its children. *)
Definition grand_edges (L : list packpq) (k : nat) : Prop :=
  ∀ i p q, (i / 2)%nat = k → (1 ≤ i)%nat → i ≠ k → L !! (k / 2)%nat = Some p → L !! i = Some q → key p ≤ key q.
Definition heap_up (L : list packpq) (k : nat) : Prop :=
  (∀ i, (1 ≤ i)%nat → i ≠ k → edge L i) ∧ grand_edges L k.
Definition heap_down (L : list packpq) (k : nat) : Prop :=
  (∀ i, (1 ≤ i)%nat → (i / 2)%nat ≠ k → edge L i) ∧ grand_edges L k.

Lemma half_lt k : (1 ≤ k → k / 2 < k)%nat.
Proof. intros. apply Nat.div_lt; lia. Qed.

(** Moving the parent [p] of cell [k] down keeps the invariant of the climb. *)
Lemma heap_up_step L k x p :
  (1 ≤ k / 2)%nat → heap_up L k → L !! k = Some x → L !! (k / 2)%nat = Some p → key x < key p →
  heap_up (<[(k / 2)%nat := x]> (<[k := p]> L)) (k / 2)%nat.
Proof.
  intros Hk [He Hg] Hx Hp Hlt. assert (1 ≤ k)%nat as Hk1 by (destruct k; [simpl in Hk; lia | lia]).
  pose proof (half_lt k Hk1) as Hh. pose proof (half_lt (k / 2) Hk) as Hh2.
  assert (k < length L)%nat as Hlen by (by eapply lookup_lt_Some).
  set (L' := <[(k / 2)%nat := x]> (<[k := p]> L)).
  assert (L' !! k = Some p) as Hk'.
  { unfold L'. rewrite list_lookup_insert_ne, list_lookup_insert_eq by lia. done. }
  assert (L' !! (k / 2)%nat = Some x) as Hp'.
  { unfold L'. apply list_lookup_insert_eq. rewrite length_insert. lia. }
  assert (∀ i, i ≠ k → i ≠ (k / 2)%nat → L' !! i = L !! i) as Ho.
  { intros i H1 H2. unfold L'. by rewrite !list_lookup_insert_ne by done. }
  split.
  - intros i Hi Hne a b Ha Hb. destruct (decide (i = k)) as [->|Hik].
    { rewrite Hp' in Ha. rewrite Hk' in Hb. simplify_eq. lia. }
    rewrite (Ho i) in Hb by done. destruct (decide (i / 2 = k / 2)%nat) as [E|E].
    { rewrite E, Hp' in Ha. simplify_eq. rewrite <- E in Hp. specialize (He i Hi Hik p b Hp Hb). lia. }
    destruct (decide (i / 2 = k)%nat) as [E2|E2].
    { rewrite E2, Hk' in Ha. simplify_eq. eapply (Hg i); eauto. }
    rewrite (Ho (i / 2)%nat) in Ha by done. eapply He; eauto.
  - intros i a b Hi2 Hi Hne Ha Hb.
    rewrite (Ho (k / 2 / 2)%nat) in Ha by lia.
    assert (key a ≤ key p) as Hap. { eapply (He (k / 2)%nat); [lia | lia | exact Ha | exact Hp]. }
    destruct (decide (i = k)) as [->|Hik].
    + rewrite Hk' in Hb. by simplify_eq.
    + rewrite (Ho i) in Hb by done. rewrite <- Hi2 in Hp. specialize (He i Hi Hik p b Hp Hb). lia.
Qed.

Lemma heap_up_end L k x p :
  heap_up L k → L !! k = Some x → L !! (k / 2)%nat = Some p → key p ≤ key x → heap L.
Proof.
  intros [He _] Hx Hp Hle i Hi. destruct (decide (i = k)) as [->|Hik]; [|by apply He].
  intros a b Ha Hb. by simplify_eq.
Qed.

(** Moving the smaller child [c] of cell [k] up keeps the invariant of the
    descent. *)
Lemma heap_down_step L k j x c :
  (1 ≤ k)%nat → (j / 2)%nat = k → heap_down L k → L !! k = Some x → L !! j = Some c → key c ≤ key x →
  (∀ i d, (i / 2)%nat = k → (1 ≤ i)%nat → L !! i = Some d → key c ≤ key d) →
  heap_down (<[j := x]> (<[k := c]> L)) j.
Proof.
  intros Hk Hj [He Hg] Hx Hc Hle Hmin.
  assert (1 ≤ j)%nat as Hj1 by (destruct j; [simpl in Hj; lia | lia]).
  pose proof (half_lt k Hk) as Hh. pose proof (half_lt j Hj1) as Hh2. rewrite Hj in Hh2.
  assert (j < length L)%nat as Hlen by (by eapply lookup_lt_Some).
  set (L' := <[j := x]> (<[k := c]> L)).
  assert (L' !! j = Some x) as Hj'. { unfold L'. apply list_lookup_insert_eq. rewrite length_insert. lia. }
  assert (L' !! k = Some c) as Hk'.
  { unfold L'. rewrite list_lookup_insert_ne, list_lookup_insert_eq by lia. done. }
  assert (∀ i, i ≠ k → i ≠ j → L' !! i = L !! i) as Ho.
  { intros i H1 H2. unfold L'. by rewrite !list_lookup_insert_ne by done. }
  split.
  - intros i Hi Hne a b Ha Hb. pose proof (half_lt i Hi). destruct (decide (i / 2 = k)%nat) as [E|E].
    + rewrite E, Hk' in Ha. simplify_eq. destruct (decide (i = j)) as [->|Hij]; [by simplify_eq|].
      rewrite (Ho i) in Hb by lia. by eapply Hmin.
    + rewrite (Ho (i / 2)%nat) in Ha by done. destruct (decide (i = k)) as [->|Hik].
      * rewrite Hk' in Hb. simplify_eq. eapply (Hg j); [done | done | lia | exact Ha | exact Hc].
      * assert (i ≠ j) by congruence. rewrite (Ho i) in Hb by done. by eapply (He i).
  - intros i a b Hi2 Hi Hne Ha Hb. rewrite Hj, Hk' in Ha. simplify_eq. pose proof (half_lt i Hi).
    rewrite (Ho i) in Hb by lia. eapply (He i); [done | lia | exact Hc | exact Hb].
Qed.

Lemma heap_down_end L k x :
  heap_down L k → L !! k = Some x → (∀ i d, (i / 2)%nat = k → (1 ≤ i)%nat → L !! i = Some d → key x ≤ key d) → heap L.
Proof.
  intros [He _] Hx Hmin i Hi. destruct (decide (i / 2 = k)%nat) as [E|E]; [|by apply He].
  intros a b Ha Hb. rewrite E, Hx in Ha. simplify_eq. by eapply (Hmin i).
Qed.

(** The root is a minimum. *)
Lemma heap_min L top : heap L → L !! 1%nat = Some top → ∀ i q, (1 ≤ i)%nat → L !! i = Some q → key top ≤ key q.
Proof.
  intros H Htop i. induction (lt_wf i) as [i _ IH]. intros q Hi Hq.
  destruct (decide (i = 1%nat)) as [->|Hne]; [by simplify_eq|].
  pose proof (half_lt i Hi) as Hh.
  assert (1 ≤ i / 2)%nat as Hp by (apply Nat.div_le_lower_bound; lia).
  destruct (lookup_lt_is_Some_2 L (i / 2)) as [p Hp']; [apply lookup_lt_Some in Hq; lia|].
  specialize (IH (i / 2)%nat Hh p Hp Hp'). specialize (H i Hi p q Hp' Hq). lia.
Qed.

(** ** The array and the list *)

(** The array holds the list [L], the sentinel first; [k] is the free cell of a
    climb or a descent, where [x] will be stored. *)
Definition holds (s : wfstate) (L : list packpq) : Prop :=
  ∃ junk, pqh s = Some ((Some <$> L) ++ junk).
Definition holed (s : wfstate) (L : list packpq) (k : nat) (x : packpq) : Prop :=
  ∃ a junk, pqh s = Some a ∧ (k < length a)%nat ∧ L !! k = Some x ∧ <[k := Some x]> a = (Some <$> L) ++ junk.

Lemma wp_pq_cell s a k p (Q : packpq → wfstate → Prop) :
  pqh s = Some a → a !! k = Some (Some p) → Q p s → wp (pq_cell (Z.of_nat k)) Q s.
Proof.
  intros Ha Hk HQ. apply wp_bind, wp_get, wp_bind. eapply wp_deref; [done|]. apply wp_bind.
  eapply wp_deref; [|by eapply wp_deref]. apply zget_Some. by rewrite Nat2Z.id; split; [lia|].
Qed.

Lemma wp_pq_store s a k p (Q : () → wfstate → Prop) :
  pqh s = Some a → (k < length a)%nat → Q () (set_heap (<[k := Some p]> a) s) → wp (pq_store (Z.of_nat k) p) Q s.
Proof.
  intros Ha Hk HQ. apply wp_bind, wp_get, wp_bind. eapply wp_deref; [done|]. apply wp_bind.
  eapply wp_deref; [apply zset_is_Some; lia|]. by rewrite Nat2Z.id.
Qed.

Lemma holed_read s L k x i q : holed s L k x → i ≠ k → L !! i = Some q →
  ∃ a, pqh s = Some a ∧ a !! i = Some (Some q).
Proof.
  intros (a & junk & Ha & Hk & Hx & E) Hik Hi. exists a. split; [done|].
  rewrite <- (list_lookup_insert_ne a k i (Some x)) by done. rewrite E.
  apply lookup_app_l_Some. by rewrite list_lookup_fmap, Hi.
Qed.

(** Filling the free cell with the element of cell [j], which becomes free. *)
Lemma holed_move s L k j x c : holed s L k x → j ≠ k → L !! j = Some c →
  ∃ a, pqh s = Some a ∧ (k < length a)%nat ∧
    holed (set_heap (<[k := Some c]> a) s) (<[j := x]> (<[k := c]> L)) j x.
Proof.
  intros (a & junk & Ha & Hk & Hx & E) Hjk Hc. exists a. split_and!; [done | done|].
  assert (k < length L ∧ j < length L)%nat as [HkL HjL] by (split; by eapply lookup_lt_Some).
  assert (length a = length ((Some <$> L) ++ junk)) as El by (by rewrite <- E, length_insert).
  rewrite length_app, length_fmap in El.
  exists (<[k := Some c]> a), junk. split_and!; [done | | |].
  - rewrite length_insert. lia.
  - apply list_lookup_insert_eq. rewrite length_insert. lia.
  - rewrite !list_fmap_insert, <- !insert_app_l by (rewrite ?length_insert, ?length_fmap; lia).
    rewrite <- E, list_insert_insert_eq. done.
Qed.

Lemma holed_fill s L k x : holed s L k x →
  ∃ a, pqh s = Some a ∧ (k < length a)%nat ∧ holds (set_heap (<[k := Some x]> a) s) L.
Proof.
  intros (a & junk & Ha & Hk & Hx & E). exists a. split_and!; [done | done|]. exists junk. simpl. by rewrite E.
Qed.

(** The result of a climb or a descent that started with the list [L]. *)
Definition sifted (s : wfstate) (L : list packpq) (s' : wfstate) : Prop :=
  ∃ L' a a', pqh s = Some a ∧ s' = set_heap a' s ∧ length a' = length a ∧ holds s' L' ∧ heap L' ∧ L' ≡ₚ L ∧
    L' !! 0%nat = Some sentinel.

Lemma sifted_step s a b L1 L2 s' : pqh s = Some a → length b = length a → L1 ≡ₚ L2 →
  sifted (set_heap b s) L1 s' → sifted s L2 s'.
Proof.
  intros Ha Hl P (L' & a1 & a2 & H1 & -> & H2 & Hh & Hp & P' & H0). simpl in H1. injection H1 as <-.
  exists L', a, a2. split_and!; try done; [congruence | by rewrite P'].
Qed.

Lemma shiftr_half (k : nat) : Z.shiftr (Z.of_nat k) 1 = Z.of_nat (k / 2).
Proof. by rewrite Z.shiftr_div_pow2, Nat2Z.inj_div by lia. Qed.

Lemma wp_sift_up x : ∀ fuel k L s, (k < fuel)%nat → (1 ≤ k)%nat → holed s L k x → heap_up L k →
  L !! 0%nat = Some sentinel → Forall keyed L →
  wp (sift_up fuel x (Z.of_nat k)) (λ _ s', sifted s L s') s.
Proof.
  induction fuel as [|fuel IH]; intros k L s Hf Hk Hh Hu H0 HL; [lia|]. simpl. rewrite shiftr_half.
  pose proof (half_lt k Hk) as Hhalf. pose proof Hh as (a & junk & Ha & Hka & Hx & E).
  destruct (lookup_lt_is_Some_2 L (k / 2)) as [p Hp]; [apply lookup_lt_Some in Hx; lia|].
  destruct (holed_read s L k x (k / 2) p Hh) as (a1 & Ha1 & Hr); [lia | done |].
  rewrite Forall_lookup in HL.
  apply wp_bind, (wp_pq_cell s a1 (k / 2) p); [done | done |].
  rewrite pq_lt_key by eauto. destruct (Z.ltb_spec (key x) (key p)) as [Hlt|Hge].
  - assert (1 ≤ k / 2)%nat as Hk2.
    { destruct (k / 2)%nat as [|m] eqn:Em; [|lia]. rewrite H0 in Hp. simplify_eq.
      pose proof (key_nonneg x (HL _ _ Hx)). unfold key in Hlt at 2. simpl in Hlt. lia. }
    destruct (holed_move s L k (k / 2) x p Hh) as (a2 & Ha2 & Hka2 & Hm); [lia | done |].
    apply wp_bind, (wp_pq_store s a2); [done | done |].
    assert (<[(k / 2)%nat := x]> (<[k := p]> L) ≡ₚ L) as P by (apply swap_any_Permutation; [lia | done | done]).
    eapply wp_mono; [apply (IH (k / 2)%nat (<[(k / 2)%nat := x]> (<[k := p]> L))); [lia | done | done | | |]|].
    + by apply heap_up_step.
    + by rewrite !list_lookup_insert_ne by lia.
    + rewrite P. by apply Forall_lookup.
    + intros [] s' Hs'. eapply (sifted_step s a2); [done | by rewrite length_insert | exact P | exact Hs'].
  - destruct (holed_fill s L k x Hh) as (a2 & Ha2 & Hka2 & Hfill).
    apply (wp_pq_store s a2); [done | done |]. exists L, a2, (<[k := Some x]> a2).
    split_and!; try done; [by rewrite length_insert|]. by eapply heap_up_end.
Qed.

Lemma shiftl_twice (k : nat) : Z.shiftl (Z.of_nat k) 1 = Z.of_nat (2 * k).
Proof. rewrite Z.shiftl_mul_pow2 by lia. lia. Qed.

Lemma double_half k : (2 * k / 2 = k ∧ (2 * k + 1) / 2 = k)%nat.
Proof.
  split; [by rewrite Nat.mul_comm, Nat.div_mul by lia|].
  rewrite Nat.add_comm, Nat.mul_comm, Nat.div_add by lia. done.
Qed.

Lemma half_inv i k : (i / 2 = k → i = 2 * k ∨ i = 2 * k + 1)%nat.
Proof. intros <-. pose proof (Nat.div_mod_eq i 2). pose proof (Nat.mod_upper_bound i 2). lia. Qed.

(** The choice of the smaller child of cell [k]. *)
Lemma wp_smaller_child s L k x (Q : Z → wfstate → Prop) :
  holed s L k x → (1 ≤ k)%nat → (2 * k < length L)%nat → Forall keyed L →
  (∀ j c, (j / 2)%nat = k → L !! j = Some c →
     (∀ i d, (i / 2)%nat = k → (1 ≤ i)%nat → L !! i = Some d → key c ≤ key d) → Q (Z.of_nat j) s) →
  wp (smaller_child (Z.of_nat (length L - 1)) (Z.of_nat (2 * k))) Q s.
Proof.
  intros Hh Hk Hlen HL HQ. destruct (double_half k) as [D1 D2]. rewrite Forall_lookup in HL.
  destruct (lookup_lt_is_Some_2 L (2 * k)) as [c Hc]; [done|].
  destruct (holed_read s L k x (2 * k) c Hh) as (a & Ha & Hr); [lia | done |].
  unfold smaller_child. destruct (Z.ltb_spec (Z.of_nat (2 * k)) (Z.of_nat (length L - 1))) as [Hlt|Hge].
  - apply wp_bind, (wp_pq_cell s a (2 * k) c); [done | done |].
    replace (Z.of_nat (2 * k) + 1) with (Z.of_nat (2 * k + 1)) by lia.
    destruct (lookup_lt_is_Some_2 L (2 * k + 1)) as [d Hd]; [lia|].
    destruct (holed_read s L k x (2 * k + 1) d Hh) as (a' & Ha' & Hr'); [lia | done |].
    apply wp_bind, (wp_pq_cell s a' (2 * k + 1) d); [done | done |]. apply wp_ret.
    rewrite pq_lt_key by eauto. destruct (Z.ltb_spec (key d) (key c)).
    + apply (HQ (2 * k + 1)%nat d D2 Hd). intros i e Hi _ He.
      apply half_inv in Hi as [->| ->]; simplify_eq; lia.
    + apply (HQ (2 * k)%nat c D1 Hc). intros i e Hi _ He.
      apply half_inv in Hi as [->| ->]; simplify_eq; lia.
  - apply wp_ret, (HQ (2 * k)%nat c D1 Hc). intros i e Hi _ He.
    apply lookup_lt_Some in He as Hl. apply half_inv in Hi as [->| ->]; simplify_eq; lia.
Qed.

Lemma wp_sift_down x n : ∀ fuel k L s, (n < k + fuel)%nat → (1 ≤ k)%nat → length L = S n → holed s L k x → heap_down L k →
  L !! 0%nat = Some sentinel → Forall keyed L →
  wp (sift_down fuel x (Z.of_nat n) (Z.of_nat k)) (λ _ s', sifted s L s') s.
Proof.
  induction fuel as [|fuel IH]; intros k L s Hf Hk Hlen Hh Hd H0 HL.
  { pose proof Hh as (? & ? & _ & _ & Hx & _). apply lookup_lt_Some in Hx. lia. }
  pose proof Hh as (a & junk & Ha & Hka & Hx & E). cbn [sift_down]. rewrite shiftr_half, shiftl_twice.
  destruct (holed_fill s L k x Hh) as (a2 & Ha2 & Hka2 & Hfill).
  assert (heap L → sifted s L (set_heap (<[k := Some x]> a2) s)) as Hend.
  { intros Hheap. exists L, a2, (<[k := Some x]> a2). split_and!; try done. by rewrite length_insert. }
  destruct (Z.leb_spec (Z.of_nat k) (Z.of_nat (n / 2))) as [Hle|Hgt].
  - assert (2 * k ≤ n)%nat as H2k by (pose proof (Nat.div_mod_eq n 2); lia).
    apply wp_bind. replace n with (length L - 1)%nat at 1 by lia.
    apply (wp_smaller_child s L k x); [done | done | lia | done |].
    intros j c Hj Hc Hmin. assert (1 ≤ j)%nat as Hj1 by (destruct j; [simpl in Hj; lia | lia]).
    pose proof (half_lt j Hj1) as Hhj. rewrite Hj in Hhj.
    destruct (holed_read s L k x j c Hh) as (a1 & Ha1 & Hr); [lia | done |].
    apply wp_bind, (wp_pq_cell s a1 j c); [done | done |].
    rewrite Forall_lookup in HL. rewrite pq_lt_key by eauto.
    destruct (Z.ltb_spec (key x) (key c)) as [Hlt|Hge].
    + apply (wp_pq_store s a2); [done | done |]. apply Hend. eapply heap_down_end; [done | done |].
      intros i d Hi Hi1 Hdd. specialize (Hmin i d Hi Hi1 Hdd). lia.
    + destruct (holed_move s L k j x c Hh) as (a3 & Ha3 & Hka3 & Hm); [lia | done |].
      apply wp_bind, (wp_pq_store s a3); [done | done |].
      assert (<[j := x]> (<[k := c]> L) ≡ₚ L) as P by (apply swap_any_Permutation; [lia | done | done]).
      eapply wp_mono; [apply (IH j (<[j := x]> (<[k := c]> L))); [lia | done | by rewrite !length_insert | done | | |]|].
      * by apply (heap_down_step L k j x c).
      * by rewrite !list_lookup_insert_ne by lia.
      * rewrite P. by apply Forall_lookup.
      * intros [] s' Hs'. eapply (sifted_step s a3); [done | by rewrite length_insert | exact P | exact Hs'].
  - apply (wp_pq_store s a2); [done | done |]. apply Hend. eapply heap_down_end; [done | done |].
    intros i d Hi _ Hdd%lookup_lt_Some. apply half_inv in Hi. pose proof (Nat.div_mod_eq n 2).
    pose proof (Nat.mod_upper_bound n 2). lia.
Qed.

(** ** The queue as a collection of packets *)

(** The bytes waiting in a direction. *)
Definition total (d : Z) (l : list packpq) : Z := foldr (λ p acc, (if pdir p =? d then psize p else 0) + acc) 0 l.
Definition queued (p : packpq) : Prop := keyed p ∧ (pdir p = 0 ∨ pdir p = 1).

(** The array holds the packets [l], in no particular order. *)
Definition arr_rep (s : wfstate) (l : list packpq) : Prop :=
  npq s = Z.of_nat (length l) ∧
  match pqh s with
  | None => l = [] ∧ maxpq s = 0
  | Some a => maxpq s = Z.of_nat (length a) ∧ ∃ L, holds s (sentinel :: L) ∧ heap (sentinel :: L) ∧ L ≡ₚ l
  end.

(** The whole state of the queue. *)
Record pq_rep (s : wfstate) (l : list packpq) : Prop := PqRep {
  pr_array : arr_rep s l;
  pr_queued : Forall queued l;
  pr_clock : 0 ≤ maxwhen s ∧ 0 ≤ counter s < 2 ^ 32;
  pr_bufsize : delay_bufsize s = [i32 (total 0 l); i32 (total 1 l)]
}.

Lemma total_perm d l l' : l ≡ₚ l' → total d l = total d l'.
Proof. induction 1; simpl; lia. Qed.

Lemma pq_rep_perm s l l' : l ≡ₚ l' → pq_rep s l → pq_rep s l'.
Proof.
  intros P [[Hn Ha] Hq Hc Hb]. split; try done.
  - split; [by rewrite <- P|]. destruct (pqh s) as [a|].
    + destruct Ha as (? & L & ? & ? & ?). split; [done|]. exists L. split_and!; [done | done | by rewrite <- P].
    + destruct Ha as [-> ?]. split; [by apply Permutation_nil | done].
  - by rewrite <- P.
  - by rewrite Hb, !(total_perm _ _ _ P).
Qed.
#[export] Instance pq_rep_proper s : Proper ((≡ₚ) ==> iff) (pq_rep s).
Proof. intros l l' P. split; by apply pq_rep_perm. Qed.

Lemma i32_add a b : i32 (i32 a + b) = i32 (a + b).
Proof.
  unfold i32. replace ((a + 2 ^ 31) mod 2 ^ 32 - 2 ^ 31 + b + 2 ^ 31) with ((a + 2 ^ 31) mod 2 ^ 32 + b) by lia.
  rewrite Zplus_mod_idemp_l. do 2 f_equal. lia.
Qed.

Lemma wp_bufsize_add s dir d x0 x1 (Q : () → wfstate → Prop) :
  delay_bufsize s = [x0; x1] → dir = 0 ∨ dir = 1 →
  Q () (set_bufsize [if dir =? 0 then i32 (x0 + d) else x0; if dir =? 1 then i32 (x1 + d) else x1] s) →
  wp (bufsize_add dir d) Q s.
Proof.
  intros E Hd HQ. apply wp_bind, wp_get. rewrite E. destruct Hd as [-> | ->].
  - by apply wp_bind, (wp_deref _ x0), wp_bind, (wp_deref _ [i32 (x0 + d); x1]), wp_modify.
  - by apply wp_bind, (wp_deref _ x1), wp_bind, (wp_deref _ [x0; i32 (x1 + d)]), wp_modify.
Qed.

Lemma total_bufsize dir d l (x : packpq) : dir = 0 ∨ dir = 1 → pdir x = dir → psize x = d →
  [if dir =? 0 then i32 (i32 (total 0 l) + d) else i32 (total 0 l);
   if dir =? 1 then i32 (i32 (total 1 l) + d) else i32 (total 1 l)]
  = [i32 (total 0 (x :: l)); i32 (total 1 (x :: l))].
Proof.
  intros Hd Hx Hs. simpl. rewrite Hx, Hs.
  destruct Hd as [-> | ->]; simpl; rewrite i32_add, ?Z.add_0_l, (Z.add_comm _ d); done.
Qed.

(** *** [packet_enqueue] *)

(** Room for one more packet: the array has a cell past the last one. *)
Definition room (s : wfstate) : Prop := pqh s = None ∨ npq s + 1 < maxpq s.

Lemma schedule_clock now delms s : 0 ≤ maxwhen s → 0 ≤ counter s < 2 ^ 32 →
  let r := schedule now delms s in
  0 ≤ r.1 ∧ 0 ≤ maxwhen r.2 ∧ 0 ≤ counter r.2 < 2 ^ 32 ∧
  pqh r.2 = pqh s ∧ npq r.2 = npq s ∧ maxpq r.2 = maxpq s ∧ nofifo r.2 = nofifo s ∧
  delay_bufsize r.2 = delay_bufsize s ∧ written r.2 = written s.
Proof.
  intros Hm Hc. unfold schedule. pose proof (u64_range (now + delms)).
  assert (∀ x, 0 ≤ u32 x < 2 ^ 32) as Hu by (intros x; apply Z.mod_pos_bound; lia).
  destruct (maxwhen s <? _); simpl; (destruct (nofifo s =? 0); simpl; [destruct (_ <=? _); simpl|]);
    (split; [lia|]); (split; [lia|]); (split; [try apply Hu; lia|]); done.
Qed.

(** The new packet in the last cell of the array: only its own edge can fail. *)
Lemma heap_up_app L x : heap L → heap_up (L ++ [x]) (length L).
Proof.
  intros H. split.
  - intros i Hi Hne p q Hp Hq. apply lookup_lt_Some in Hq as Hl. rewrite length_app in Hl. simpl in Hl.
    pose proof (half_lt i Hi). rewrite lookup_app_l in Hp, Hq by lia. by apply (H i Hi).
  - intros i p q Hi Hi1 Hne Hp Hq. apply lookup_lt_Some in Hq. rewrite length_app in Hq. simpl in Hq.
    pose proof (half_lt i Hi1). lia.
Qed.

(** Storing [x] above a heap of [n] elements in an array with room. *)
Lemma wp_insert s L l x a : pqh s = Some a → holds s (sentinel :: L) → heap (sentinel :: L) → L ≡ₚ l →
  Forall keyed (x :: l) → (S (length l) < length a)%nat →
  wp (sift_up (S (S (length l))) x (Z.of_nat (S (length l))))
    (λ _ s', ∃ a', s' = set_heap a' s ∧ length a' = length a ∧
      ∃ L', holds s' (sentinel :: L') ∧ heap (sentinel :: L') ∧ L' ≡ₚ x :: l) s.
Proof.
  intros Ha [junk Hj] Hh P HL Hlen. assert (a = (Some <$> sentinel :: L) ++ junk) as Ea by congruence.
  assert (length L = length l) as El by (by rewrite P).
  assert (length (Some <$> sentinel :: L) = S (length l)) as El' by (rewrite length_fmap; simpl; lia).
  destruct junk as [|y junk]; [rewrite Ea, app_nil_r, El' in Hlen; lia|].
  eapply wp_mono; [apply (wp_sift_up x _ (S (length l)) ((sentinel :: L) ++ [x])); [lia | lia | | | done |]|].
  - exists a, junk. split_and!; [done | lia | |].
    + rewrite lookup_app_r by (simpl; lia). by replace (S (length l) - length (sentinel :: L))%nat with 0%nat by (simpl; lia).
    + rewrite Ea, fmap_app, <- app_assoc. rewrite insert_app_r_alt by lia. by rewrite El', Nat.sub_diag.
  - rewrite <- El. by apply (heap_up_app (sentinel :: L)).
  - apply Forall_cons in HL as [Hx HL]. apply Forall_app. split; [|by apply Forall_singleton].
    constructor; [by split; simpl; lia | by rewrite P].
  - intros [] s' (L' & a1 & a' & Ha1 & -> & Hla & Hho & Hhe & P' & H0). rewrite Ha in Ha1. injection Ha1 as <-.
    exists a'. split_and!; [done | done|]. destruct L' as [|z L']; [done|]. simpl in H0. injection H0 as ->.
    exists L'. split_and!; [done | done|]. simpl in P'. apply Permutation_cons_inv in P'.
    by rewrite P', <- Permutation_cons_append, P.
Qed.

(** The packet that [packet_enqueue] queues. *)
Definition delayed (now dir : Z) (buf : list Z) (size delms : Z) (s : wfstate) : packpq :=
  let r := schedule now delms s in PackPq r.1 (counter r.2) dir (take (Z.to_nat size) buf) size.

(** The array after [grow_heap] has the cell the new packet needs. *)
Lemma wp_grow_heap s l (Q : () → wfstate → Prop) : arr_rep s l → room s →
  (∀ a L m, let s' := set_array a m s in m = Z.of_nat (length a) → holds s' (sentinel :: L) → heap (sentinel :: L) →
    L ≡ₚ l → (S (length l) < length a)%nat → Q () s') →
  wp (grow_heap true) Q s.
Proof.
  intros [Hn Ha] Hroom HQ. apply wp_bind, wp_get, wp_bind. destruct (pqh s) as [a|] eqn:Ea; cbn [negb].
  - destruct Ha as (Hm & L & Hh & Hhe & P). destruct Hroom as [Hr|Hr]; [congruence|].
    apply wp_ret, wp_bind, wp_get. destruct (Z.leb_spec (maxpq s) (npq s)); [lia|]. apply wp_ret.
    specialize (HQ a L (maxpq s)). replace (set_array a (maxpq s) s) with s in HQ
      by (unfold set_array; rewrite <- Ea; by destruct s).
    apply HQ; try done. lia.
  - destruct Ha as [-> Hm]. apply wp_modify, wp_bind, wp_get. cbn [npq maxpq set_array]. rewrite Hn.
    apply wp_ret. apply (HQ _ []); [done | by eexists (replicate (Z.to_nat (PQCHUNK - 1)) None) | | done | vm_compute; lia].
    intros i Hi p q _ Hq'. apply lookup_lt_Some in Hq'. simpl in Hq'. lia.
Qed.

Lemma wp_packet_enqueue s l now dir buf size delms :
  pq_rep s l → room s → dir = 0 ∨ dir = 1 →
  wp (packet_enqueue true now dir buf size delms) (λ _ s',
    pq_rep s' (delayed now dir buf size delms s :: l) ∧
    maxwhen s' = maxwhen (schedule now delms s).2 ∧ counter s' = counter (schedule now delms s).2 ∧
    nofifo s' = nofifo s ∧ written s' = written s) s.
Proof.
  intros [[Hn Ha] Hq Hc Hb] Hroom Hdir.
  destruct (schedule_clock now delms s) as (C1 & C2 & C3 & F1 & F2 & F3 & F4 & F5 & F6); [apply Hc..|].
  apply wp_bind, wp_get. unfold delayed. destruct (schedule now delms s) as [w s1]. cbn [fst snd] in *.
  set (x := PackPq w (counter s1) dir (take (Z.to_nat size) buf) size).
  rewrite <- F1, <- F3 in Ha. rewrite <- F2 in Hn. rewrite <- F5 in Hb.
  apply wp_bind, wp_modify, wp_bind. eapply wp_bufsize_add; [exact Hb | done|].
  rewrite (total_bufsize dir size l x Hdir eq_refl eq_refl). set (s2 := set_bufsize _ s1).
  apply wp_bind. apply (wp_grow_heap s2 l); [split; [done|] | by unfold room in *; rewrite <- F1, <- F2, <- F3 in Hroom |].
  { unfold holds in *. simpl. by rewrite <- F1 in Ha. }
  intros a L m s3 Hm Hh Hhe P Hlen. apply wp_bind, wp_get, wp_bind, wp_modify. fold x.
  assert (Forall keyed (x :: l)) as Hk.
  { constructor; [by split|]. eapply Forall_impl; [done|]. by intros p []. }
  replace (npq s3 + 1) with (Z.of_nat (S (length l))) by (change (npq s3) with (npq s1); lia).
  rewrite Nat2Z.id. eapply wp_mono; [by apply (wp_insert (set_npq (Z.of_nat (S (length l))) s3) L l x a)|].
  intros [] s4 (a' & -> & Hla & L' & Hh' & Hhe' & P'). split; [|done].
  split; try done; simpl.
  - split; [done|]. simpl. split; [by rewrite Hla|]. by exists L'.
  - constructor; [by split; [split|]|]. done.
Qed.

(** *** [packet_dequeue] *)

(** Taking the root away: the last element goes to the root and sinks. *)
Lemma heap_down_root top mid old :
  heap (sentinel :: top :: mid ++ [old]) → Forall keyed (top :: mid ++ [old]) →
  heap_down (sentinel :: old :: mid) 1.
Proof.
  intros H HL.
  assert (∀ i, i ≠ 1%nat → (sentinel :: old :: mid) !! i = (take (S (S (length mid))) (sentinel :: top :: mid ++ [old])) !! i) as Ho.
  { intros [|[|i]] Hi; [done | done |]. simpl. by rewrite take_app_length. }
  assert (∀ q i, (sentinel :: old :: mid) !! i = Some q → 0 ≤ key q) as Hnn.
  { rewrite Forall_cons, Forall_app, Forall_singleton in HL. destruct HL as (_ & Hm & Hold).
    rewrite Forall_lookup in Hm.
    intros q [|[|i]] Hq; simpl in Hq; simplify_eq; [done | by apply key_nonneg | eauto using key_nonneg]. }
  split.
  - intros i Hi Hne p q Hp Hq. destruct (decide (i = 1%nat)) as [->|Hi1].
    { simpl in Hp. simplify_eq. eauto. }
    rewrite Ho in Hp, Hq by done. apply lookup_take_Some in Hp as [Hp _]. apply lookup_take_Some in Hq as [Hq _].
    by apply (H i Hi).
  - intros i p q _ _ _ Hp Hq. simpl in Hp. simplify_eq. eauto.
Qed.

Lemma holed_root s top mid old junk :
  pqh s = Some ((Some <$> sentinel :: top :: mid ++ [old]) ++ junk) → holed s (sentinel :: old :: mid) 1 old.
Proof.
  intros Hs. eexists _, (Some old :: junk). split_and!; [exact Hs | | done |].
  - rewrite length_app, length_fmap. simpl. lia.
  - simpl. by rewrite fmap_app, <- app_assoc.
Qed.

(** One delivery: the root leaves, the rest stays a heap. *)
Lemma wp_remove_root s top mid old junk :
  pqh s = Some ((Some <$> sentinel :: top :: mid ++ [old]) ++ junk) →
  heap (sentinel :: top :: mid ++ [old]) → Forall keyed (top :: mid ++ [old]) →
  wp (sift_down (S (S (S (length mid)))) old (Z.of_nat (S (length mid))) 1)
    (λ _ s', ∃ a a' L', pqh s = Some a ∧ s' = set_heap a' s ∧ length a' = length a ∧
      holds s' (sentinel :: L') ∧ heap (sentinel :: L') ∧ L' ≡ₚ mid ++ [old]) s.
Proof.
  intros Hs Hh HL. change 1 with (Z.of_nat 1).
  eapply wp_mono; [apply (wp_sift_down old (S (length mid)) _ 1 (sentinel :: old :: mid)); [lia | lia | done | | | done |]|].
  - by eapply holed_root.
  - by eapply heap_down_root.
  - rewrite Forall_cons, Forall_app, Forall_singleton in HL. destruct HL as (_ & Hm & Hold).
    constructor; [by split; simpl; lia|]. by constructor.
  - intros [] s' (L' & a & a' & Ha & -> & Hla & Hho & Hhe & P & H0). exists a, a'.
    destruct L' as [|z L']; [done|]. simpl in H0. injection H0 as ->. exists L'.
    split_and!; try done. apply Permutation_cons_inv in P. by rewrite P, <- Permutation_cons_append.
Qed.

Definition earlier (a b : packpq) : Prop := key a ≤ key b.

(** What is due at [now] is delivered in order; the rest waits. *)
Definition delivered (now : Z) (s : wfstate) (l : list packpq) (s' : wfstate) : Prop :=
  ∃ due rest, l ≡ₚ due ++ rest ∧ StronglySorted earlier due ∧ Forall (λ p, when p ≤ now) due ∧
    Forall (λ p, now < when p) rest ∧ (∀ p q, p ∈ due → q ∈ rest → earlier p q) ∧
    written s' = written s ++ due ∧ pq_rep s' rest ∧
    maxwhen s' = maxwhen s ∧ counter s' = counter s ∧ nofifo s' = nofifo s.

Lemma keyed_when p q : keyed p → keyed q → key p ≤ key q → when p ≤ when q.
Proof. unfold keyed, key. nia. Qed.

Lemma total_bufsize_del (x : packpq) l : pdir x = 0 ∨ pdir x = 1 →
  [if pdir x =? 0 then i32 (i32 (total 0 (x :: l)) + - psize x) else i32 (total 0 (x :: l));
   if pdir x =? 1 then i32 (i32 (total 1 (x :: l)) + - psize x) else i32 (total 1 (x :: l))]
  = [i32 (total 0 l); i32 (total 1 l)].
Proof.
  intros [E|E]; simpl; rewrite E; simpl; rewrite i32_add; do 2 f_equal; try done; do 2 f_equal; lia.
Qed.

Lemma wp_deliver_root s L top a : pqh s = Some a → maxpq s = Z.of_nat (length a) →
  holds s (sentinel :: top :: L) → heap (sentinel :: top :: L) → pq_rep s (top :: L) →
  wp (deliver_root (npq s) top) (λ _ s', pq_rep s' L ∧ written s' = written s ++ [top] ∧
    maxwhen s' = maxwhen s ∧ counter s' = counter s ∧ nofifo s' = nofifo s) s.
Proof.
  intros Ha Hm [junk Hj] Hhe [[Hn _] Hq Hc Hb].
  assert (Forall keyed (top :: L)) as Hk by (eapply Forall_impl; [exact Hq|]; by intros p []).
  apply Forall_cons in Hq as [[Hkt Hd] Hq].
  destruct L as [|old L _] using rev_ind.
  - simpl in Hn. rewrite Hn. apply wp_bind, (wp_pq_cell s ((Some <$> [sentinel; top]) ++ junk) 1 top); [exact Hj | done |].
    apply wp_bind, wp_modify, wp_bind. eapply wp_bufsize_add; [exact Hb | done |].
    rewrite (total_bufsize_del top [] Hd). apply wp_bind, wp_modify. cbn.
    change 1 with (Z.of_nat 1). eapply wp_pq_store; [exact Hj | simpl; lia |]. split; [|done]. split; try done. split; [done|]. simpl.
    rewrite Ha in Hj. injection Hj as ->. split; [by rewrite Hm|]. exists []. split_and!; [by eexists | | done].
    intros i Hi p q _ Hq'. apply lookup_lt_Some in Hq'. simpl in Hq'. lia.
  - rewrite length_cons, length_app in Hn. simpl in Hn.
    replace (npq s) with (Z.of_nat (S (S (length L)))) by lia.
    eapply wp_bind, (wp_pq_cell s); [exact Hj | |].
    { apply lookup_app_l_Some. rewrite list_lookup_fmap. simpl. by rewrite lookup_app_r, Nat.sub_diag by lia. }
    apply wp_bind, wp_modify, wp_bind. eapply wp_bufsize_add; [exact Hb | done |].
    rewrite (total_bufsize_del top (L ++ [old]) Hd). apply wp_bind, wp_modify.
    rewrite Nat2Z.id. replace (Z.of_nat (S (S (length L))) - 1) with (Z.of_nat (S (length L))) by lia.
    eapply wp_mono; [apply (wp_remove_root _ top L old junk); [exact Hj | done | done]|].
    intros [] s' (a1 & a' & L' & Ha1 & -> & Hla & Hho & Hhe' & P). split; [|done].
    apply (pq_rep_perm _ L'); [done|]. split; try done; simpl.
    + split; [rewrite P, length_app; simpl; lia|]. simpl. simpl in Ha1. rewrite Ha in Ha1. injection Ha1 as <-.
      split; [by rewrite Hla|]. by exists L'.
    + by rewrite P.
    + by rewrite !(total_perm _ _ _ P).
Qed.

Lemma wp_dequeue_loop now : ∀ fuel s l, (length l ≤ fuel)%nat → pq_rep s l →
  wp (dequeue_loop fuel now) (λ _ s', delivered now s l s') s.
Proof.
  assert (∀ s l, pq_rep s l → Forall (λ p, now < when p) l → delivered now s l s) as Hstop.
  { intros s l H Hl. exists [], l. rewrite app_nil_r. split_and!; try done; [apply SSorted_nil | by intros p q Hp%not_elem_of_nil]. }
  induction fuel as [|fuel IH]; intros s l Hf H; pose proof H as [[Hn Ha] Hq Hc Hb].
  - destruct l; [|simpl in Hf; lia]. apply wp_bind, wp_get. rewrite Hn. simpl. apply wp_ret, Hstop; [done | constructor].
  - cbn [dequeue_loop]. apply wp_bind, wp_get. destruct (Z.ltb_spec 0 (npq s)) as [Hpos|Hz].
    2: { destruct l; [|simpl in Hn; lia]. apply wp_ret, Hstop; [done | constructor]. }
    destruct (pqh s) as [a|] eqn:Ea; [|destruct Ha as [-> _]; simpl in Hn; lia].
    destruct Ha as (Hm & L & Hho & Hhe & P).
    destruct L as [|top L]; [apply Permutation_nil in P as ->; simpl in Hn; lia|].
    pose proof Hho as [junk Hj]. change 1 with (Z.of_nat 1). eapply wp_bind, (wp_pq_cell s); [exact Hj | done |].
    assert (∀ q, q ∈ l → earlier top q) as Hmin.
    { intros q Hin. rewrite <- P in Hin. apply list_elem_of_lookup in Hin as [i Hi].
      apply (heap_min (sentinel :: top :: L) top Hhe eq_refl (S i) q); [lia | done]. }
    assert (∀ q, q ∈ l → keyed q) as Hkeyed by (intros q Hin; rewrite Forall_forall in Hq; apply (Hq q Hin)).
    destruct (Z.leb_spec (when top) now) as [Hdue|Hnot].
    + apply wp_bind. eapply wp_mono; [apply (wp_deliver_root s L top a); [done | done | done | done | by rewrite P]|].
      intros [] s1 (H1 & Hw1 & Hc1 & Hc2 & Hc3).
      eapply wp_mono; [apply (IH s1 L); [|done]|].
      { apply Permutation_length in P. simpl in P. lia. }
      intros [] s2 (due & rest & P2 & Hs & Hd & Hr & Hle & Hw & H2 & G1 & G2 & G3). exists (top :: due), rest.
      assert (∀ q, q ∈ due ++ rest → earlier top q) as Hmin2.
      { intros q Hin. apply Hmin. rewrite <- P, P2. set_solver. }
      split_and!; try done; try congruence.
      * by rewrite <- P, P2.
      * constructor; [done|]. apply Forall_forall. intros q Hin. apply Hmin2. set_solver.
      * by constructor.
      * intros p q Hp Hq'. apply elem_of_cons in Hp as [->|Hp]; [apply Hmin2; set_solver | by apply Hle].
      * by rewrite Hw, Hw1, <- app_assoc.
    + apply wp_ret, Hstop; [done|]. apply Forall_forall. intros q Hin.
      assert (when top ≤ when q); [|lia]. apply keyed_when; [apply Hkeyed | by apply Hkeyed | by apply Hmin].
      rewrite <- P. set_solver.
Qed.

Lemma wp_packet_dequeue now s l : pq_rep s l → wp (packet_dequeue now) (λ _ s', delivered now s l s') s.
Proof.
  intros H. apply wp_bind, wp_get. apply wp_dequeue_loop; [|done].
  destruct H as [[-> _] _ _ _]. by rewrite Nat2Z.id.
Qed.

(** ** Fifo mode *)

Definition strictly_earlier (a b : packpq) : Prop := key a < key b.
Definition clock_key (s : wfstate) : Z := maxwhen s * 2 ^ 32 + counter s.

(** The waiting packets [q] in the order of their arrival. *)
Definition fifo (s : wfstate) (q : list packpq) : Prop :=
  pq_rep s q ∧ nofifo s = 0 ∧ StronglySorted strictly_earlier q ∧ Forall (λ p, key p ≤ clock_key s) q.

(** What is delivered first is a prefix of the packets in their order. *)
Lemma due_prefix : ∀ due q rest, StronglySorted strictly_earlier q → q ≡ₚ due ++ rest →
  StronglySorted earlier due → (∀ a b, a ∈ due → b ∈ rest → earlier a b) → ∃ r, q = due ++ r ∧ r ≡ₚ rest.
Proof.
  induction due as [|y due IH]; intros q rest Hq P Hd Hle; [by exists q|].
  destruct q as [|x q]; [by apply Permutation_nil in P|].
  apply StronglySorted_inv in Hq as [Hq Hx]. apply StronglySorted_inv in Hd as [Hd Hy].
  rewrite Forall_forall in Hx. rewrite Forall_forall in Hy.
  assert (x = y) as ->.
  { assert (earlier y x) as Hyx.
    { assert (x ∈ y :: due ++ rest) as Hin by (rewrite <- P; set_solver).
      apply elem_of_cons in Hin as [->|Hin]; [unfold earlier; lia|].
      apply elem_of_app in Hin as [Hin|Hin]; [by apply Hy | apply Hle; [set_solver | done]]. }
    assert (y ∈ x :: q) as Hin by (rewrite P; set_solver).
    apply elem_of_cons in Hin as [->|Hin]; [done|]. specialize (Hx y Hin). unfold earlier, strictly_earlier in *. lia. }
  apply Permutation_cons_inv in P. destruct (IH q rest Hq P Hd) as (r & -> & Hr).
  { intros a b Ha Hb. apply Hle; [set_solver | done]. }
  by exists r.
Qed.

Lemma fifo_deliver now s q s' : fifo s q → delivered now s q s' →
  ∃ due r, q = due ++ r ∧ written s' = written s ++ due ∧ fifo s' r.
Proof.
  intros (H & Hf & Hs & Hk) (due & rest & P & Hsd & _ & _ & Hle & Hw & H' & G1 & G2 & G3).
  destruct (due_prefix due q rest Hs P Hsd Hle) as (r & -> & Hr). exists due, r. split_and!; [done | done|].
  split_and!; [by rewrite Hr | congruence | |].
  - clear -Hs. induction due as [|x due IH]; [done|]. apply IH. by apply StronglySorted_inv in Hs as [? _].
  - apply Forall_app in Hk as [_ Hk]. unfold clock_key in *. by rewrite G1, G2.
Qed.

Lemma StronglySorted_snoc {A} (R : A → A → Prop) l x :
  StronglySorted R l → Forall (λ y, R y x) l → StronglySorted R (l ++ [x]).
Proof.
  induction l as [|y l IH]; intros Hs Hx; [repeat constructor|].
  apply StronglySorted_inv in Hs as [Hs Hy]. apply Forall_cons in Hx as [Hyx Hx]. simpl.
  constructor; [by apply IH|]. apply Forall_app. split; [done | by apply Forall_singleton].
Qed.

(** In fifo mode a new packet comes after all the others. *)
Lemma schedule_fifo now dir buf size delms s : nofifo s = 0 → 0 ≤ maxwhen s → 0 ≤ counter s < 2 ^ 32 - 1 →
  let x := delayed now dir buf size delms s in let s1 := (schedule now delms s).2 in
  key x = maxwhen s1 * 2 ^ 32 + counter s1 ∧ clock_key s < key x.
Proof.
  intros Hf Hm Hc. unfold delayed, schedule, clock_key, key. pose proof (u64_range (now + delms)) as Hu.
  assert (u32 (counter s + 1) = counter s + 1) as E1 by (apply Z.mod_small; lia).
  destruct (Z.ltb_spec (maxwhen s) (u64 (now + delms))); simpl; rewrite Hf; simpl.
  - rewrite Z.leb_refl. simpl. change (u32 (0 + 1)) with 1. lia.
  - destruct (Z.leb_spec (u64 (now + delms)) (maxwhen s)); [|lia]. simpl. rewrite E1. lia.
Qed.

Lemma wp_fifo_enqueue s q now dir buf size delms :
  fifo s q → room s → counter s < 2 ^ 32 - 1 → dir = 0 ∨ dir = 1 →
  wp (packet_enqueue true now dir buf size delms) (λ _ s', ∃ x, pdir x = dir ∧ pbuf x = take (Z.to_nat size) buf ∧
    fifo s' (q ++ [x]) ∧ written s' = written s) s.
Proof.
  intros (H & Hf & Hs & Hk) Hr Hc Hd. pose proof (pr_clock _ _ H) as [Hm Hc0].
  destruct (schedule_fifo now dir buf size delms s Hf Hm) as [K1 K2]; [lia|].
  set (x := delayed now dir buf size delms s) in *.
  eapply wp_mono; [apply (wp_packet_enqueue s q now dir buf size delms H Hr Hd)|]. fold x.
  intros [] s' (H' & W & C & F & Wr). exists x. split_and!; [done | done | | done].
  assert (clock_key s' = key x) as Ek by (unfold clock_key; rewrite W, C; lia).
  assert (Forall (λ p, strictly_earlier p x) q) as Hlt.
  { eapply Forall_impl; [exact Hk|]. intros p Hp. unfold strictly_earlier. simpl in Hp. lia. }
  split_and!; [by rewrite <- Permutation_cons_append | congruence | by apply StronglySorted_snoc |].
  apply Forall_app. rewrite Ek. split; [|apply Forall_singleton; lia].
  eapply Forall_impl; [exact Hlt|]. unfold strictly_earlier. intros; lia.
Qed.

(** The filter at the start, and after arrivals and deliveries in fifo mode.  An
    arrival needs a free cell in the heap; [counter] counts the arrivals
    scheduled for the same millisecond. *)
Definition wf0 (fifoness : Z) : wfstate := WfState None 0 0 0 0 fifoness [0; 0] [].

Inductive fifo_run : wfstate → list (Z * list Z) → Prop :=
| run_start : fifo_run (wf0 0) []
| run_arrival s s' arrived now dir buf size delms :
    fifo_run s arrived → room s → counter s < 2 ^ 32 - 1 → dir = 0 ∨ dir = 1 →
    packet_enqueue true now dir buf size delms s = Done () s' →
    fifo_run s' (arrived ++ [(dir, take (Z.to_nat size) buf)])
| run_delivery s s' arrived now :
    fifo_run s arrived → packet_dequeue now s = Done () s' → fifo_run s' arrived.

Definition payload (p : packpq) : Z * list Z := (pdir p, pbuf p).

Lemma pq_rep_wf0 f : pq_rep (wf0 f) [].
Proof. split; try done; simpl; lia. Qed.

Lemma fifo_run_inv s arrived : fifo_run s arrived →
  ∃ q, fifo s q ∧ (payload <$> written s) ++ (payload <$> q) = arrived.
Proof.
  induction 1 as [|s s' arrived now dir buf size delms _ (q & Hq & Ha) Hr Hc Hd E|s s' arrived now _ (q & Hq & Ha) E].
  - exists []. split; [|done]. split_and!; [apply pq_rep_wf0 | done | constructor | constructor].
  - destruct (wp_Done _ _ _ _ _ (wp_fifo_enqueue s q now dir buf size delms Hq Hr Hc Hd) E) as (x & Hx1 & Hx2 & Hq' & Hw).
    exists (q ++ [x]). split; [done|]. rewrite Hw, fmap_app, app_assoc, Ha. simpl. unfold payload. by rewrite Hx1, Hx2.
  - destruct (fifo_deliver now s q s' Hq) as (due & r & -> & Hw & Hq').
    { exact (wp_Done _ _ _ _ _ (wp_packet_dequeue now s q (proj1 Hq)) E). }
    exists r. split; [done|]. by rewrite Hw, fmap_app, <- app_assoc, <- fmap_app.
Qed.

(** In fifo mode the filter never reorders: at any time, what it has written
    followed by what is still waiting is what arrived, in the order of arrival,
    whatever delays the packets drew; delivery never fails, nor does an arrival
    while the heap has a free cell. *)
Theorem fifo_delivers_in_order s arrived :
  fifo_run s arrived →
  ∃ q, pq_rep s q ∧ (payload <$> written s) ++ (payload <$> q) = arrived ∧
    (∀ now, ∃ s', packet_dequeue now s = Done () s') ∧
    (room s → counter s < 2 ^ 32 - 1 → ∀ now dir buf size delms, dir = 0 ∨ dir = 1 →
      ∃ s', packet_enqueue true now dir buf size delms s = Done () s').
Proof.
  intros (q & Hq & Ha)%fifo_run_inv. exists q. split_and!; [apply Hq | done| |].
  - intros now. destruct (wp_done_intro _ _ _ (wp_packet_dequeue now s q (proj1 Hq))) as ([] & s' & E & _). by exists s'.
  - intros Hr Hc now dir buf size delms Hd.
    destruct (wp_done_intro _ _ _ (wp_fifo_enqueue s q now dir buf size delms Hq Hr Hc Hd)) as ([] & s' & E & _).
    by exists s'.
Qed.

(** C34: [packet_dequeue] writes exactly the packets whose time has come, ordered
    by their time and, among those of the same time, by the queue's counter
    (which in fifo mode, but not in nofifo mode, numbers the arrivals). It keeps
    all the others, and the bytes accounted to each direction are those of the
    packets that stay. *)
Theorem dequeue_delivers_what_is_due now s l :
  pq_rep s l →
  wp (packet_dequeue now) (λ _ s', ∃ due rest, l ≡ₚ due ++ rest ∧ StronglySorted earlier due ∧
    Forall (λ p, when p ≤ now) due ∧ Forall (λ p, now < when p) rest ∧
    written s' = written s ++ due ∧ pq_rep s' rest ∧
    delay_bufsize s' = [i32 (total 0 rest); i32 (total 1 rest)]) s.
Proof.
  intros H. eapply wp_mono; [exact (wp_packet_dequeue now s l H)|].
  intros [] s' (due & rest & P & Hs & Hd & Hr & _ & Hw & H' & _). exists due, rest.
  split_and!; try done. apply (pr_bufsize _ _ H').
Qed.

Definition arrivals (n : nat) : M wfstate () := forM (seqZ 0 (Z.of_nat n)) (λ i, packet_enqueue true i 0 [i] 1 5).

(** The heap has 100 cells and cell 0 is the sentinel, but it is enlarged only
    when 100 packets are already waiting: the hundredth packet that waits is
    stored one cell past the end of the array. *)
Theorem hundredth_packet_overflows_heap :
  (∃ s, arrivals 99 (wf0 0) = Done () s ∧ npq s = 99 ∧ maxpq s = 100) ∧ arrivals 100 (wf0 0) = Fault.
Proof. split; [eexists; split_and!; vm_compute; reflexivity | vm_compute; reflexivity]. Qed.

Definition wf_demo (n : nat) : wfstate := default (wf0 0) (run_state (arrivals n) (wf0 0)).
Definition wf_served : wfstate := default (wf0 0) (run_state (packet_dequeue 6) (wf_demo 2)).

Lemma fifo_delivers_in_order_witness :
  ∃ q, pq_rep wf_served q ∧ (payload <$> written wf_served) ++ (payload <$> q) = [(0, [0]); (0, [1])] ∧
    ∃ s', packet_dequeue 7 wf_served = Done () s'.
Proof.
  assert (fifo_run wf_served [(0, [0]); (0, [1])]) as R.
  { apply (run_delivery (wf_demo 2) _ _ 6); [|vm_compute; reflexivity].
    apply (run_arrival (wf_demo 1) (wf_demo 2) [(0, [0])] 1 0 [1] 1 5);
      [|right; vm_compute; reflexivity | vm_compute; reflexivity | left; reflexivity | vm_compute; reflexivity].
    apply (run_arrival (wf0 0) (wf_demo 1) [] 0 0 [0] 1 5);
      [exact run_start | left; reflexivity | vm_compute; reflexivity | left; reflexivity | vm_compute; reflexivity]. }
  destruct (fifo_delivers_in_order wf_served [(0, [0]); (0, [1])] R) as (q & Hq & Ha & Hs & _).
  exists q. split; [exact Hq|]. split; [exact Ha | exact (Hs 7)].
Defined.

(** A queue in nofifo mode with the packets that came with delays 30, 5 and
    10: at time 12 the last two are due and the first is not. *)
Definition wf_first : wfstate := default (wf0 1) (run_state (packet_enqueue true 0 0 [1] 1 30) (wf0 1)).
Definition wf_second : wfstate := default (wf0 1) (run_state (packet_enqueue true 0 1 [2; 2] 2 5) wf_first).
Definition wf_third : wfstate := default (wf0 1) (run_state (packet_enqueue true 0 0 [3] 1 10) wf_second).
Definition wf_waiting : list packpq := [PackPq 10 0 0 [3] 1; PackPq 5 0 1 [2; 2] 2; PackPq 30 0 0 [1] 1].

Lemma wf_third_rep : pq_rep wf_third wf_waiting.
Proof.
  assert (pq_rep wf_first [PackPq 30 0 0 [1] 1]) as H1.
  { refine (proj1 (wp_Done _ _ _ () _ (wp_packet_enqueue (wf0 1) [] 0 0 [1] 1 30 (pq_rep_wf0 1) _ _) _));
      [left; reflexivity | left; reflexivity | vm_compute; reflexivity]. }
  assert (pq_rep wf_second [PackPq 5 0 1 [2; 2] 2; PackPq 30 0 0 [1] 1]) as H2.
  { refine (proj1 (wp_Done _ _ _ () _ (wp_packet_enqueue wf_first _ 0 1 [2; 2] 2 5 H1 _ _) _));
      [right; vm_compute; reflexivity | right; reflexivity | vm_compute; reflexivity]. }
  refine (proj1 (wp_Done _ _ _ () _ (wp_packet_enqueue wf_second _ 0 0 [3] 1 10 H2 _ _) _));
    [right; vm_compute; reflexivity | left; reflexivity | vm_compute; reflexivity].
Qed.

Lemma dequeue_delivers_what_is_due_witness :
  wp (packet_dequeue 12) (λ _ s',
    written s' = [PackPq 5 0 1 [2; 2] 2; PackPq 10 0 0 [3] 1] ∧ pq_rep s' [PackPq 30 0 0 [1] 1] ∧
    delay_bufsize s' = [1; 0]) wf_third.
Proof.
  assert (∃ s', packet_dequeue 12 wf_third = Done () s' ∧
    written s' = [PackPq 5 0 1 [2; 2] 2; PackPq 10 0 0 [3] 1]) as (s' & E & W).
  { eexists. split; [vm_compute; reflexivity | reflexivity]. }
  pose proof (wp_Done _ _ _ _ _ (dequeue_delivers_what_is_due 12 wf_third wf_waiting wf_third_rep) E)
    as (due & rest & P & _ & _ & _ & Hw & Hr & Hb).
  change (written wf_third) with ([] : list packpq) in Hw. rewrite W in Hw. simpl in Hw. subst due.
  assert (rest = [PackPq 30 0 0 [1] 1]) as ->.
  { apply Permutation_singleton_r.
    apply (Permutation_app_inv_l [PackPq 5 0 1 [2; 2] 2; PackPq 10 0 0 [3] 1]).
    rewrite <- P. unfold wf_waiting. apply perm_swap. }
  unfold wp. rewrite E. split; [exact W|]. split; [exact Hr | exact Hb].
Defined.
