(* ===== verification/SplitPacket.v ===== *)
(** * SplitPacket: packets out of a byte stream ([splitpacket] of [wirefilter.c])

    A packet on a pipe is preceded by its length in two bytes; a [read] returns
    any piece of the stream.  [splitpacket] keeps the beginning of a packet that
    was cut in a static buffer.  The reference is a parser of the whole stream;
    the theorem is that the packets handed to [handle_packet] are those of the
    reference, however the stream was cut, unless a cut separates the two bytes
    of a length.  The buffer is declared with its dimensions exchanged, so that
    the two directions overlap: a packet cut in one direction corrupts one that
    is waiting in the other. *)
From Stdlib Require Import Lia.
From stdpp Require Import base numbers list.
From S2P Require Import Prelude.

Definition BUFSIZE : Z := 2048.

(** [fragment] is [unsigned char fragment[BUFSIZE][2]]: the row of direction
    [dir] begins at byte [2*dir]; [fragp] are offsets in it.  [handled] are the
    calls of [handle_packet]. *)
Record spstate := SpState {
  fragment : list Z;
  fragp : list Z;
  rnx : list Z;
  remaining : list Z;
  handled : list (Z * list Z)
}.

Definition frag_row (dir : Z) : Z := 2 * dir.

Definition sp0 : spstate := SpState (replicate (Z.to_nat (2 * BUFSIZE)) 0) [0; 0] [0; 0] [0; 0] [].

Definition set_frag (dir : Z) (mem : list Z) (p r m : Z) (s : spstate) : option spstate :=
  fp ← zset (fragp s) dir p; rx ← zset (rnx s) dir r; rm ← zset (remaining s) dir m;
  Some (SpState mem fp rx rm (handled s)).
Definition set_rnx (dir r : Z) (s : spstate) : option spstate :=
  rx ← zset (rnx s) dir r; Some (SpState (fragment s) (fragp s) rx (remaining s) (handled s)).
Definition putS {S} (o : option S) : M S () := s ← deref o; modify (λ _, s).
Definition handle_call (dir : Z) (pkt : list Z) : M spstate () := modify (λ s,
  SpState (fragment s) (fragp s) (rnx s) (remaining s) (handled s ++ [(dir, pkt)])).

(** [(buf[0]<<8)+buf[1]] *)
Definition frame_len (b0 b1 : Z) : Z := Z.shiftl b0 8 + b1.

(** The [while (size > 0)] loop on the bytes [buf] still to be read. *)
Fixpoint split_loop (fuel : nat) (buf : list Z) (dir : Z) : M spstate () :=
  if bool_decide (buf = []) then mret () else
  match fuel with
  | O => fault
  | S fuel =>
    b0 ← deref (buf !! 0%nat); b1 ← deref (buf !! 1%nat);
    let n := frame_len b0 b1 in
    let size := Z.of_nat (length buf) in
    s ← get;
    putS (set_rnx dir n s) ;;
    if 1521 <? n then s ← get; putS (set_rnx dir 0 s)
    else if size <? n + 2 then
      s ← get;
      mem ← deref (memcpy_at (fragment s) (frag_row dir) buf);
      putS (set_frag dir mem (frag_row dir + size) n (n + 2 - size) s)
    else
      handle_call dir (take (Z.to_nat (n + 2)) buf) ;;
      s ← get;
      putS (set_rnx dir 0 s) ;;
      split_loop fuel (drop (Z.to_nat (n + 2)) buf) dir
  end.

(** The rest of a packet whose beginning is waiting; the result is what is left
    of [buf]. *)
Definition split_rest (buf : list Z) (dir : Z) : M spstate (list Z) :=
  s ← get;
  r ← deref (zget (rnx s) dir);
  if 0 <? r then
    m ← deref (zget (remaining s) dir);
    p ← deref (zget (fragp s) dir);
    let amount := Z.min m (Z.of_nat (length buf)) in
    mem ← deref (memcpy_at (fragment s) p (take (Z.to_nat amount) buf));
    putS (set_frag dir mem (p + amount) r (m - amount) s) ;;
    (if m - amount =? 0 then
       handle_call dir (slice mem (frag_row dir) (r + 2)) ;;
       s ← get; putS (set_rnx dir 0 s)
     else mret ()) ;;
    mret (drop (Z.to_nat amount) buf)
  else mret buf.

(** [splitpacket(buf,size,dir)] *)
Definition splitpacket (buf : list Z) (dir : Z) : M spstate () :=
  if bool_decide (buf = []) then mret () else
  buf ← split_rest buf dir;
  split_loop (length buf) buf dir.

(** ** The reference parser *)

(** The complete packets of a stream and the bytes after them; [None] when a
    length is too large. *)
Fixpoint cut (fuel : nat) (s : list Z) : option (list (list Z) * list Z) :=
  match fuel with
  | O => Some ([], s)
  | S fuel =>
    match s with
    | b0 :: b1 :: _ =>
      let n := frame_len b0 b1 in
      if 1521 <? n then None
      else if Z.of_nat (length s) <? n + 2 then Some ([], s)
      else '(fs, rest) ← cut fuel (drop (Z.to_nat (n + 2)) s);
           Some (take (Z.to_nat (n + 2)) s :: fs, rest)
    | _ => Some ([], s)
    end
  end.
Definition frames (s : list Z) : option (list (list Z) * list Z) := cut (length s) s.

(** No piece ends between the two bytes of a length. *)
Definition cuts_ok (pieces : list (list Z)) : Prop :=
  ∀ k fs rest, frames (concat (take k pieces)) = Some (fs, rest) → length rest ≠ 1%nat.

(** ** Facts on the reference *)

Lemma frame_len_range b0 b1 : byteP b0 → byteP b1 → 0 ≤ frame_len b0 b1 < 2 ^ 16.
Proof. unfold byteP, frame_len. intros. rewrite Z.shiftl_mul_pow2 by lia. lia. Qed.

Lemma cut_fuel : ∀ fuel s, (length s ≤ fuel)%nat → Forall byteP s → cut fuel s = frames s.
Proof.
  assert (∀ m f1 f2 s, (length s ≤ m)%nat → (length s ≤ f1)%nat → (length s ≤ f2)%nat → Forall byteP s →
    cut f1 s = cut f2 s) as H.
  { induction m as [|m IH]; intros f1 f2 s Hm H1 H2 Hb.
    - destruct s; [|simpl in Hm; lia]. by destruct f1, f2.
    - destruct s as [|b0 [|b1 s]]; [by destruct f1, f2 | by destruct f1, f2 |].
      destruct f1 as [|f1]; [simpl in H1; lia|]. destruct f2 as [|f2]; [simpl in H2; lia|]. cbn [cut].
      pose proof Hb as Hb'. rewrite !Forall_cons in Hb. destruct Hb as (Hb0 & Hb1 & _).
      pose proof (frame_len_range _ _ Hb0 Hb1).
      destruct (1521 <? _); [done|]. destruct (_ <? _); [done|].
      rewrite (IH f1 f2); [done | rewrite length_drop; simpl in *; lia.. | by apply Forall_drop]. }
  intros fuel s Hf Hb. by apply (H (length s)).
Qed.

(** The bytes that do not make a whole packet. *)
Definition incomplete (s : list Z) : Prop :=
  match s with
  | b0 :: b1 :: _ => frame_len b0 b1 ≤ 1521 ∧ Z.of_nat (length s) < frame_len b0 b1 + 2
  | _ => True
  end.

Lemma frames_incomplete s : incomplete s → frames s = Some ([], s).
Proof.
  unfold frames. destruct s as [|b0 [|b1 s]]; [done.. |]. intros [H1 H2]. cbn [length cut].
  destruct (Z.ltb_spec 1521 (frame_len b0 b1)); [lia|].
  cbn [length] in H2. destruct (Z.ltb_spec (Z.of_nat (S (S (length s)))) (frame_len b0 b1 + 2)); [done | lia].
Qed.

(** A stream that begins with a whole packet. *)
Lemma frames_packet b0 b1 s : let l := b0 :: b1 :: s in let n := frame_len b0 b1 in
  Forall byteP l → n ≤ 1521 → n + 2 ≤ Z.of_nat (length l) →
  frames l = '(fs, rest) ← frames (drop (Z.to_nat (n + 2)) l); Some (take (Z.to_nat (n + 2)) l :: fs, rest).
Proof.
  intros l n Hb Hn Hl. unfold frames at 1. change (length l) with (S (length (b1 :: s))). cbn [cut]. unfold l at 1.
  pose proof Hb as Hb'. unfold l in Hb. rewrite !Forall_cons in Hb. destruct Hb as (Hb0 & Hb1 & _).
  pose proof (frame_len_range _ _ Hb0 Hb1). fold n.
  destruct (Z.ltb_spec 1521 n); [lia|]. fold l. destruct (Z.ltb_spec (Z.of_nat (length l)) (n + 2)); [lia|].
  rewrite (cut_fuel (length (b1 :: s))); [done | | by apply Forall_drop].
  rewrite length_drop. unfold l. simpl. lia.
Qed.

(** Every stream is incomplete, begins with a packet, or with a bad length. *)
Lemma frames_cases s : Forall byteP s →
  incomplete s ∨ (∃ b0 b1 t, s = b0 :: b1 :: t ∧ 1521 < frame_len b0 b1 ∧ frames s = None) ∨
  (∃ b0 b1 t, s = b0 :: b1 :: t ∧ 0 ≤ frame_len b0 b1 ≤ 1521 ∧ frame_len b0 b1 + 2 ≤ Z.of_nat (length s)).
Proof.
  intros Hb. destruct s as [|b0 [|b1 s]]; [by left.. |].
  rewrite !Forall_cons in Hb. destruct Hb as (Hb0 & Hb1 & _). pose proof (frame_len_range _ _ Hb0 Hb1).
  destruct (Z.ltb_spec 1521 (frame_len b0 b1)) as [H1|H1].
  { right. left. exists b0, b1, s. split_and!; [done | done|]. unfold frames. cbn [length cut].
    destruct (Z.ltb_spec 1521 (frame_len b0 b1)); [done | lia]. }
  destruct (Z.ltb_spec (Z.of_nat (length (b0 :: b1 :: s))) (frame_len b0 b1 + 2)).
  - left. by split.
  - right. right. exists b0, b1, s. split; [done|]. lia.
Qed.

Lemma frames_rest : ∀ m s, (length s ≤ m)%nat → Forall byteP s → ∀ fs rest, frames s = Some (fs, rest) →
  incomplete rest ∧ Forall byteP rest.
Proof.
  induction m as [|m IH]; intros s Hm Hb fs rest E;
    destruct (frames_cases s Hb) as [Hi|[(b0 & b1 & t & -> & _ & E')|(b0 & b1 & t & -> & Hn & Hl)]];
    try congruence; try (rewrite (frames_incomplete s Hi) in E; by simplify_eq).
  - simpl in Hm. lia.
  - rewrite (frames_packet b0 b1 t Hb) in E by lia.
    destruct (frames (drop _ _)) as [[fs' rest']|] eqn:E'; [|done]. simpl in E. simplify_eq.
    eapply (IH (drop (Z.to_nat (frame_len b0 b1 + 2)) (b0 :: b1 :: t))); [| by apply Forall_drop | exact E'].
    rewrite length_drop. simpl in *. lia.
Qed.

Lemma frames_app : ∀ m s c, (length s ≤ m)%nat → Forall byteP s → Forall byteP c → ∀ fs rest, frames s = Some (fs, rest) →
  frames (s ++ c) = '(fs', rest') ← frames (rest ++ c); Some (fs ++ fs', rest').
Proof.
  induction m as [|m IH]; intros s c Hm Hb Hc fs rest E;
    destruct (frames_cases s Hb) as [Hi|[(b0 & b1 & t & -> & _ & E')|(b0 & b1 & t & -> & Hn & Hl)]];
    try congruence;
    try (rewrite (frames_incomplete s Hi) in E; simplify_eq; simpl; by destruct (frames (rest ++ c)) as [[]|]).
  - simpl in Hm. lia.
  - rewrite (frames_packet b0 b1 t Hb) in E by lia. set (s := b0 :: b1 :: t) in *. set (n := frame_len b0 b1) in *.
    assert (frames (s ++ c) = '(fs, rest) ← frames (drop (Z.to_nat (n + 2)) (s ++ c));
      Some (take (Z.to_nat (n + 2)) (s ++ c) :: fs, rest)) as ->.
    { apply (frames_packet b0 b1 (t ++ c)); [change (Forall byteP (s ++ c)); by apply Forall_app | lia|]. change (b0 :: b1 :: t ++ c) with (s ++ c).
      rewrite length_app. lia. }
    rewrite drop_app_le, take_app_le by lia.
    destruct (frames (drop _ s)) as [[fs' rest']|] eqn:E'; [|done]. simpl in E. simplify_eq.
    rewrite (IH (drop (Z.to_nat (n + 2)) s) c) with (fs := fs') (rest := rest); [| | by apply Forall_drop | done | done].
    + destruct (frames (rest ++ c)) as [[]|]; done.
    + rewrite length_drop. simpl in Hm. unfold s. simpl. lia.
Qed.

(** ** The invariant between two pieces *)

Record sp_wf (s : spstate) : Prop := SpWf {
  sw_frag : Z.of_nat (length (fragment s)) = 2 * BUFSIZE;
  sw_fragp : length (fragp s) = 2%nat;
  sw_rnx : length (rnx s) = 2%nat;
  sw_remaining : length (remaining s) = 2%nat
}.

(** The bytes [rest] of a packet are waiting in direction [dir]. *)
Definition waits (dir : Z) (rest : list Z) (s : spstate) : Prop :=
  match rest with
  | [] => zget (rnx s) dir = Some 0
  | b0 :: b1 :: _ =>
    let n := frame_len b0 b1 in
    zget (rnx s) dir = Some n ∧ zget (remaining s) dir = Some (n + 2 - Z.of_nat (length rest)) ∧
    zget (fragp s) dir = Some (frag_row dir + Z.of_nat (length rest)) ∧
    slice (fragment s) (frag_row dir) (Z.of_nat (length rest)) = rest
  | _ => False
  end.

Definition step_ok (dir : Z) (s s' : spstate) (fs : list (list Z)) (rest : list Z) : Prop :=
  sp_wf s' ∧ waits dir rest s' ∧ handled s' = handled s ++ ((λ f, (dir, f)) <$> fs).

Lemma step_ok_nil dir s rest : sp_wf s → waits dir rest s → step_ok dir s s [] rest.
Proof. intros W H. split_and!; [done | done|]. simpl. by rewrite app_nil_r. Qed.

Lemma wp_putS {S} (o : option S) (x : S) (Q : () → S → Prop) s : o = Some x → Q () x → wp (putS o) Q s.
Proof. intros -> HQ. done. Qed.

Lemma set_rnx_Some dir r s : dir = 0 ∨ dir = 1 → sp_wf s →
  ∃ rx, set_rnx dir r s = Some (SpState (fragment s) (fragp s) rx (remaining s) (handled s)) ∧ length rx = 2%nat ∧
    zget rx dir = Some r.
Proof.
  intros Hd W. unfold set_rnx. rewrite zset_is_Some by (rewrite (sw_rnx _ W); lia). simpl. eexists. split; [done|].
  split; [rewrite length_insert; apply W|]. apply zget_Some. split; [lia|]. apply list_lookup_insert_eq.
  rewrite (sw_rnx _ W). lia.
Qed.

Lemma set_frag_Some dir mem p r m s : dir = 0 ∨ dir = 1 → sp_wf s → Z.of_nat (length mem) = 2 * BUFSIZE →
  ∃ s', set_frag dir mem p r m s = Some s' ∧ sp_wf s' ∧ fragment s' = mem ∧ handled s' = handled s ∧
    zget (fragp s') dir = Some p ∧ zget (rnx s') dir = Some r ∧ zget (remaining s') dir = Some m.
Proof.
  intros Hd W Hm. unfold set_frag.
  assert (∀ (l : list Z) x, length l = 2%nat → zset l dir x = Some (<[Z.to_nat dir := x]> l) ∧
    length (<[Z.to_nat dir := x]> l) = 2%nat ∧ zget (<[Z.to_nat dir := x]> l) dir = Some x) as Hz.
  { intros l x Hl. rewrite zset_is_Some by (rewrite Hl; lia). split; [done|]. split; [by rewrite length_insert|].
    apply zget_Some. split; [lia|]. apply list_lookup_insert_eq. rewrite Hl. lia. }
  destruct (Hz (fragp s) p (sw_fragp _ W)) as (-> & ? & ?), (Hz (rnx s) r (sw_rnx _ W)) as (-> & ? & ?),
    (Hz (remaining s) m (sw_remaining _ W)) as (-> & ? & ?). simpl.
  eexists. split; [done|]. split; [by split|]. done.
Qed.

Lemma wp_split_loop dir : dir = 0 ∨ dir = 1 → ∀ fuel c s fs rest,
  (length c ≤ fuel)%nat → Forall byteP c → sp_wf s → zget (rnx s) dir = Some 0 →
  frames c = Some (fs, rest) → length rest ≠ 1%nat →
  wp (split_loop fuel c dir) (λ _ s', step_ok dir s s' fs rest) s.
Proof.
  intros Hd. induction fuel as [|fuel IH]; intros c s fs rest Hf Hb W Hr E Hne.
  { destruct c; [|simpl in Hf; lia]. injection E as <- <-. apply wp_ret. by apply step_ok_nil. }
  destruct c as [|b0 c]; [injection E as <- <-; apply wp_ret; by apply step_ok_nil|].
  cbn [split_loop]. rewrite bool_decide_false by done.
  destruct (frames_cases _ Hb) as [Hi|[(? & ? & t & [= <- ->] & _ & E')|(? & b1 & t & [= <- ->] & Hn & Hl)]]; [|congruence|].
  - rewrite (frames_incomplete _ Hi) in E. simplify_eq. destruct c as [|b1 c]; [done|]. destruct Hi as [Hn Hlen].
    apply wp_bind, (wp_deref _ b0); [done|]. apply wp_bind, (wp_deref _ b1); [done|].
    apply wp_bind, wp_get, wp_bind. destruct (set_rnx_Some dir (frame_len b0 b1) s Hd W) as (rx & E1 & Hrl & Hrx).
    eapply wp_putS; [exact E1|]. destruct (Z.ltb_spec 1521 (frame_len b0 b1)); [lia|].
    set (n := frame_len b0 b1) in *. set (c' := b0 :: b1 :: c) in *.
    destruct (Z.ltb_spec (Z.of_nat (length c')) (n + 2)); [|lia].
    apply wp_bind, wp_get, wp_bind. cbn [fragment].
    assert (Z.of_nat (length c') ≤ 1522) by lia.
    destruct (memcpy_at_Some (fragment s) (frag_row dir) c') as (mem & Em & Hml & Hsl).
    { unfold frag_row. lia. }
    { rewrite (sw_frag _ W). unfold frag_row, BUFSIZE. lia. }
    eapply wp_deref; [exact Em|].
    destruct (set_frag_Some dir mem (frag_row dir + Z.of_nat (length c')) n (n + 2 - Z.of_nat (length c'))
      (SpState (fragment s) (fragp s) rx (remaining s) (handled s)) Hd) as (s' & Es & W' & Hm & Hh & P1 & P2 & P3).
    { destruct W. by split. }
    { rewrite Hml. apply W. }
    eapply wp_putS; [exact Es|]. split; [done|]. simpl fmap. rewrite app_nil_r. split; [|done].
    split_and!; [done | done | done|]. fold n c'. rewrite Hm.
    specialize (Hsl (frag_row dir)). rewrite Z.sub_diag in Hsl. simpl in Hsl. by apply Hsl; unfold frag_row; lia.
  - pose proof (frames_packet b0 b1 t Hb (proj2 Hn) Hl) as Ep. cbv zeta in Ep. rewrite Ep in E. clear Ep.
    apply wp_bind, (wp_deref _ b0); [done|]. apply wp_bind, (wp_deref _ b1); [done|].
    apply wp_bind, wp_get, wp_bind. destruct (set_rnx_Some dir (frame_len b0 b1) s Hd W) as (rx & E1 & Hrl & Hrx).
    eapply wp_putS; [exact E1|]. destruct (Z.ltb_spec 1521 (frame_len b0 b1)); [lia|].
    set (n := frame_len b0 b1) in *. set (c' := b0 :: b1 :: t) in *.
    destruct (Z.ltb_spec (Z.of_nat (length c')) (n + 2)); [lia|].
    apply wp_bind, wp_modify, wp_bind, wp_get, wp_bind. cbn [fragment fragp rnx remaining handled].
    destruct (set_rnx_Some dir 0 (SpState (fragment s) (fragp s) rx (remaining s) (handled s ++ [(dir, take (Z.to_nat (n + 2)) c')])) Hd)
      as (rx' & E2 & Hrl' & Hrx'). { destruct W. by split. }
    eapply wp_putS; [exact E2|]. cbn [fragment fragp rnx remaining handled].
    destruct (frames (drop _ c')) as [[fs' rest']|] eqn:E'; [|done]. simpl in E. simplify_eq.
    eapply wp_mono; [apply (IH (drop (Z.to_nat (n + 2)) c') _ fs' rest)|].
    + rewrite length_drop. unfold c' in *. simpl in Hf |- *. lia.
    + by apply Forall_drop.
    + destruct W. by split.
    + done.
    + done.
    + done.
    + intros [] s' (W' & Hw & Hh). split; [done|]. split; [done|]. rewrite Hh. simpl. by rewrite <- app_assoc.
Qed.

(** The end of a waiting packet: all of [c] belongs to it, or its last [m] bytes
    are in [c]. *)
Lemma wp_split_rest dir b0 b1 t c s : dir = 0 ∨ dir = 1 → let rest := b0 :: b1 :: t in let n := frame_len b0 b1 in
  let m := n + 2 - Z.of_nat (length rest) in
  sp_wf s → waits dir rest s → incomplete rest →
  wp (split_rest c dir) (λ c' s', sp_wf s' ∧
    if Z.of_nat (length c) <? m then c' = [] ∧ waits dir (rest ++ c) s' ∧ handled s' = handled s
    else c' = drop (Z.to_nat m) c ∧ zget (rnx s') dir = Some 0 ∧
      handled s' = handled s ++ [(dir, rest ++ take (Z.to_nat m) c)]) s.
Proof.
  intros Hd rest n m W (Hr & Hm & Hp & Hs) [Hn Hlen]. fold rest n in Hr, Hm, Hp, Hs, Hlen. fold m in Hm.
  assert (2 ≤ Z.of_nat (length rest)) as Hl2 by (unfold rest; simpl; lia). pose proof (sw_frag _ W) as Hfl.
  apply wp_bind, wp_get, wp_bind. eapply wp_deref; [exact Hr|]. fold n in Hn. destruct (Z.ltb_spec 0 n); [|lia].
  apply wp_bind. eapply wp_deref; [exact Hm|]. apply wp_bind. eapply wp_deref; [exact Hp|].
  set (amount := Z.min m (Z.of_nat (length c))).
  set (data := take (Z.to_nat amount) c).
  assert (Z.of_nat (length data) = amount) as Hdl by (unfold data; rewrite length_take; lia).
  destruct (memcpy_at_Some (fragment s) (frag_row dir + Z.of_nat (length rest)) data) as (mem & Em & Hml & Hsl).
  { unfold frag_row. lia. }
  { rewrite Hfl, Hdl. unfold frag_row, BUFSIZE. lia. }
  apply wp_bind. eapply wp_deref; [exact Em|]. apply wp_bind.
  specialize (Hsl (frag_row dir) ltac:(unfold frag_row; lia) ltac:(lia)).
  replace (frag_row dir + Z.of_nat (length rest) - frag_row dir) with (Z.of_nat (length rest)) in Hsl by lia.
  rewrite Hs, Hdl in Hsl.
  destruct (set_frag_Some dir mem (frag_row dir + Z.of_nat (length rest) + amount) n (m - amount) s Hd W)
    as (s1 & E1 & W1 & Hm1 & Hh1 & P1 & P2 & P3); [by rewrite Hml|].
  eapply wp_putS; [exact E1|]. apply wp_bind.
  destruct (Z.ltb_spec (Z.of_nat (length c)) m) as [Hlt|Hge].
  - destruct (Z.eqb_spec (m - amount) 0); [lia|]. apply wp_ret, wp_ret. split; [done|].
    assert (data = c) as Ed by (apply take_ge; lia). split; [apply drop_ge; lia|]. split; [|done].
    split_and!; [done | | |].
    + rewrite P3. f_equal. fold rest n. change (b0 :: b1 :: t ++ c) with (rest ++ c). rewrite length_app. lia.
    + rewrite P1. f_equal. change (b0 :: b1 :: t ++ c) with (rest ++ c). rewrite length_app. lia.
    + rewrite Hm1. change (b0 :: b1 :: t ++ c) with (rest ++ c). rewrite <- Ed at 2. rewrite <- Hsl. f_equal.
      rewrite length_app. lia.
  - assert (amount = m) as Ea by lia. rewrite Ea, Z.sub_diag. cbn [Z.eqb].
    apply wp_bind, wp_modify, wp_bind, wp_get.
    destruct (set_rnx_Some dir 0 (SpState (fragment s1) (fragp s1) (rnx s1) (remaining s1)
      (handled s1 ++ [(dir, slice mem (frag_row dir) (n + 2))])) Hd) as (rx & E2 & Hrl & Hrx).
    { destruct W1. by split. }
    eapply wp_putS; [exact E2|]. apply wp_ret. split; [destruct W1; by split|]. split_and!; [done | done|].
    simpl. rewrite Hh1. do 3 f_equal. replace (n + 2) with (Z.of_nat (length rest) + amount) by lia.
    rewrite Hsl. unfold data. by rewrite Ea.
Qed.

Lemma wp_splitpacket dir rest c s fs rest' : dir = 0 ∨ dir = 1 → Forall byteP (rest ++ c) → incomplete rest →
  sp_wf s → waits dir rest s → frames (rest ++ c) = Some (fs, rest') → length rest' ≠ 1%nat →
  wp (splitpacket c dir) (λ _ s', step_ok dir s s' fs rest') s.
Proof.
  intros Hd Hb Hi W Hw E Hne. unfold splitpacket. destruct (bool_decide_reflect (c = [])) as [->|Hc].
  { rewrite app_nil_r, (frames_incomplete _ Hi) in E. injection E as <- <-. apply wp_ret. by apply step_ok_nil. }
  apply wp_bind. pose proof Hb as [_ Hbc]%Forall_app. destruct rest as [|b0 [|b1 t]]; [|done|].
  { apply wp_bind, wp_get, wp_bind. eapply wp_deref; [exact Hw|]. apply wp_ret. by apply wp_split_loop. }
  eapply wp_mono; [by apply (wp_split_rest dir b0 b1 t c s Hd)|]. cbv zeta.
  set (rest := b0 :: b1 :: t) in *. set (n := frame_len b0 b1). destruct Hi as [Hn Hlen]. fold n rest in Hn, Hlen.
  assert (2 ≤ Z.of_nat (length rest)) as Hl2 by (unfold rest; simpl; lia).
  intros c' s1 [W1 H1]. destruct (Z.ltb_spec (Z.of_nat (length c)) (n + 2 - Z.of_nat (length rest))) as [Hlt|Hge].
  - destruct H1 as (-> & Hw1 & Hh1).
    assert (incomplete (rest ++ c)) as Hi' by (split; [done|]; change (b0 :: b1 :: t ++ c) with (rest ++ c);
      rewrite length_app; fold n; lia).
    rewrite (frames_incomplete _ Hi') in E. injection E as <- <-. apply wp_ret.
    split_and!; [done | done|]. simpl. by rewrite app_nil_r.
  - destruct H1 as (-> & Hr1 & Hh1). set (m := n + 2 - Z.of_nat (length rest)) in *.
    pose proof (frames_packet b0 b1 (t ++ c) Hb Hn) as Ep. cbv zeta in Ep. fold n in Ep.
    change (b0 :: b1 :: t ++ c) with (rest ++ c) in Ep. rewrite Ep in E by (rewrite length_app; lia).
    replace (Z.to_nat (n + 2)) with (length rest + Z.to_nat m)%nat in E by lia.
    rewrite drop_app_add, take_app_add in E.
    destruct (frames (drop (Z.to_nat m) c)) as [[fs' r']|] eqn:E'; [|done]. simpl in E. injection E as <- ->.
    eapply wp_mono; [apply (wp_split_loop dir Hd _ (drop (Z.to_nat m) c) s1 fs' rest');
      [done | by apply Forall_drop | done | done | done | done]|].
    intros [] s' (W' & Hw' & Hh'). split_and!; [done | done|]. rewrite Hh', Hh1. simpl. by rewrite <- app_assoc.
Qed.

Lemma frames_app_None : ∀ m s c, (length s ≤ m)%nat → Forall byteP s → Forall byteP c → frames s = None →
  frames (s ++ c) = None.
Proof.
  induction m as [|m IH]; intros s c Hm Hb Hc E;
    destruct (frames_cases s Hb) as [Hi|[(b0 & b1 & t & -> & Hn & _)|(b0 & b1 & t & -> & Hn & Hl)]];
    try (by rewrite (frames_incomplete s Hi) in E).
  - simpl in Hm. lia.
  - simpl in Hm. lia.
  - assert (Forall byteP ((b0 :: b1 :: t) ++ c)) as Hbc by (by apply Forall_app).
    destruct (frames_cases _ Hbc) as [Hi|[(? & ? & ? & _ & _ & E')|(b2 & b3 & t' & Et & Hn' & _)]].
    + destruct Hi as [Hi _]. simpl in *. lia.
    + done.
    + simpl in Et. simplify_eq. lia.
  - rewrite (frames_packet b0 b1 t Hb) in E by lia.
    assert (Forall byteP ((b0 :: b1 :: t) ++ c)) as Hbc by (by apply Forall_app).
    pose proof (frames_packet b0 b1 (t ++ c) Hbc (proj2 Hn)) as Ep. cbv zeta in Ep. simpl app.
    change (b0 :: b1 :: t ++ c) with ((b0 :: b1 :: t) ++ c) in *. rewrite Ep by (rewrite length_app; lia).
    rewrite drop_app_le by lia. set (n := frame_len b0 b1) in *. set (s := b0 :: b1 :: t) in *.
    destruct (frames (drop (Z.to_nat (n + 2)) s)) as [[]|] eqn:E'; [done|].
    rewrite (IH (drop (Z.to_nat (n + 2)) s) c); [done | | by apply Forall_drop | done | done].
    rewrite length_drop. simpl in Hm. unfold s. simpl. lia.
Qed.

Lemma concat_prefix_frames s c fs rest : Forall byteP (s ++ c) → frames (s ++ c) = Some (fs, rest) →
  ∃ fs1 rest1 fs2, frames s = Some (fs1, rest1) ∧ frames (rest1 ++ c) = Some (fs2, rest) ∧ fs = fs1 ++ fs2.
Proof.
  intros [Hb Hc]%Forall_app E. destruct (frames s) as [[fs1 rest1]|] eqn:E1.
  - rewrite (frames_app (length s) s c (le_n _) Hb Hc fs1 rest1 E1) in E.
    destruct (frames (rest1 ++ c)) as [[fs2 rest2]|] eqn:E2; [|done]. simpl in E. injection E as <- <-.
    by exists fs1, rest1, fs2.
  - by rewrite (frames_app_None (length s) s c (le_n _) Hb Hc E1) in E.
Qed.

Lemma sp_wf_sp0 : sp_wf sp0.
Proof. by split. Qed.

(** The pieces of the stream after the prefix [done]. *)
Lemma wp_pieces dir : dir = 0 ∨ dir = 1 → ∀ pieces before s fs rest fs1 rest1,
  Forall byteP (before ++ concat pieces) → frames (before ++ concat pieces) = Some (fs, rest) →
  (∀ k fs rest, frames (before ++ concat (take k pieces)) = Some (fs, rest) → length rest ≠ 1%nat) →
  frames before = Some (fs1, rest1) → sp_wf s → waits dir rest1 s → handled s = (λ f, (dir, f)) <$> fs1 →
  wp (forM pieces (λ c, splitpacket c dir)) (λ _ s', handled s' = ((λ f, (dir, f)) <$> fs) ∧ waits dir rest s') s.
Proof.
  intros Hd. induction pieces as [|c pieces IH]; intros before s fs rest fs1 rest1 Hb E Hcut E1 W Hw Hh; simpl concat in *.
  - rewrite app_nil_r, E1 in E. injection E as <- <-. by apply wp_ret.
  - pose proof Hb as [Hb1 [Hbc _]%Forall_app]%Forall_app. rewrite app_assoc in Hb, E.
    destruct (concat_prefix_frames _ _ _ _ Hb E) as (fs2 & rest2 & _ & E2 & _).
    assert (Forall byteP (before ++ c)) as Hbbc by (by apply Forall_app).
    destruct (concat_prefix_frames before c fs2 rest2 Hbbc E2) as (fs1' & rest1' & fs3 & E1' & E3 & ->).
    rewrite E1 in E1'. injection E1' as <- <-.
    destruct (frames_rest _ before (le_n _) Hb1 _ _ E1) as [Hi Hbr].
    simpl. apply wp_bind. eapply wp_mono; [apply (wp_splitpacket dir rest1 c s fs3 rest2 Hd)|].
    + by apply Forall_app.
    + done.
    + done.
    + done.
    + done.
    + apply (Hcut 1%nat (fs1 ++ fs3)). simpl. by rewrite app_nil_r.
    + intros [] s' (W' & Hw' & Hh'). apply (IH (before ++ c) s' fs rest (fs1 ++ fs3) rest2); try done.
      * intros k f r Ek. apply (Hcut (S k) f r). simpl. by rewrite app_assoc.
      * by rewrite Hh', Hh, fmap_app.
Qed.


(** The two directions share the bytes where they keep a packet that was cut:
    a packet of the other direction, cut in its turn, replaces bytes of the
    first one.  And a piece of one byte makes the length be read from beyond it. *)
Theorem directions_share_fragment_buffer :
  (∃ s, forM [([0; 4; 1; 2], 0); ([0; 4; 9; 9], 1); ([3; 4], 0)] (λ c, splitpacket c.1 c.2) sp0 = Done () s ∧
     handled s = [(0, [0; 4; 0; 4; 3; 4])])
  ∧ splitpacket [0] 0 sp0 = Fault.
Proof. split; [eexists; split; vm_compute; reflexivity | vm_compute; reflexivity]. Qed.

