(* ===== verification/Doubles.v ===== *)
(** * Doubles: the floating-point numbers of C

    [double] is the 64-bit format of IEEE 754 with rounding to nearest, as the
    Standard Library specifies it.  Conversions to and from integers, the
    conversion [%lf] of [sscanf] and [%g] of [printf].  The lemmas: integers
    below [2^53] are represented exactly, so their conversion can be undone and
    keeps the order, and adding or subtracting zero changes nothing. *)
From Stdlib Require Import Lia String Ascii Floats.SpecFloat.
From stdpp Require Import base numbers list.
From S2P Require Import Prelude Scan.

Definition double : Type := spec_float.

Definition dadd : double → double → double := SFadd 53 1024.
Definition dsub : double → double → double := SFsub 53 1024.
Definition dmul : double → double → double := SFmul 53 1024.
Definition ddiv : double → double → double := SFdiv 53 1024.
Definition dsqrt : double → double := SFsqrt 53 1024.

(** The comparisons are false on NaN. *)
Definition dlt : double → double → bool := SFltb.
Definition dle : double → double → bool := SFleb.
Definition deq : double → double → bool := SFeqb.
Definition dzero : double := S754_zero false.

(** The conversion of an integer. *)
Definition d_of_Z (z : Z) : double := binary_normalize 53 1024 z 0 false.

(** The integer part, towards zero; infinities and NaN have none. *)
Definition d_trunc (x : double) : option Z :=
  match x with
  | S754_zero _ => Some 0
  | S754_finite s m e => Some (cond_Zopp s (Z.shiftl (Zpos m) e))
  | _ => None
  end.

(** [(int)x], [(unsigned int)x] and [(long long)x]: undefined when the integer
    part does not fit. *)
Definition d_fits (lo hi : Z) (x : double) : option Z :=
  match d_trunc x with
  | Some z => if (lo <=? z) && (z <? hi) then Some z else None
  | None => None
  end.
Definition d_int : double → option Z := d_fits (- 2 ^ 31) (2 ^ 31).
Definition d_unsigned : double → option Z := d_fits 0 (2 ^ 32).
Definition d_llong : double → option Z := d_fits (- 2 ^ 63) (2 ^ 63).

(** ** [%lf] *)

(** [m] times [10^e], or [2^e], rounded once. *)
Definition d_scale (neg : bool) (base m e : Z) : double :=
  match m with
  | Zpos p =>
    if 0 <=? e then binary_normalize 53 1024 (cond_Zopp neg (m * base ^ e)) 0 neg
    else let '(mz, ez, lz) := SFdiv_core_binary 53 1024 m 0 (base ^ (- e)) 0 in
         binary_round_aux 53 1024 neg mz ez lz
  | _ => S754_zero neg
  end.

(** The digits, with at most one point: their value, how many there were and
    how many of them after the point. *)
Fixpoint scan_point (base : Z) (s : string) (acc n frac : Z) (point : bool) : Z * Z * Z * string :=
  match s with
  | String c s' =>
    match digit_val base c with
    | Some d => scan_point base s' (acc * base + d) (n + 1) (if point then frac + 1 else frac) point
    | None => if (ascii_z c =? 46) && negb point then scan_point base s' acc n frac true else (acc, n, frac, s)
    end
  | EmptyString => (acc, n, frac, s)
  end.

Definition is_letter (l : Z) (c : ascii) : bool := (ascii_z c =? l) || (ascii_z c =? l - 32).

(** A word, in capitals or not. *)
Fixpoint scan_word (w : list Z) (s : string) : option string :=
  match w, s with
  | [], _ => Some s
  | l :: w, String c s => if is_letter l c then scan_word w s else None
  | _, EmptyString => None
  end.

(** The exponent: none, or a letter with digits behind it. *)
Definition scan_exp (letter : Z) (s : string) : option (Z * string) :=
  match s with
  | String c s' =>
    if is_letter letter c then
      let '(sg, s) := scan_sign s' in
      let '(v, seen, rest) := scan_digits 10 s 0 false in
      if (seen : bool) then Some (sg * v, rest) else None
    else Some (0, s)
  | EmptyString => Some (0, s)
  end.

Definition scan_number (neg : bool) (base ebase letter step : Z) (s : string) : option (double * string) :=
  let '(m, n, frac, rest) := scan_point base s 0 0 0 false in
  if n =? 0 then None else
  r ← scan_exp letter rest; Some (d_scale neg ebase m (r.1 - step * frac), r.2).

(** [%lf] and [%lg] of [sscanf]: decimal and hexadecimal numbers, [inf],
    [infinity] and [nan]. *)
Definition scan_lf (s : string) : option (double * string) :=
  let '(sg, s) := scan_sign (skip_spaces s) in
  let neg := sg <? 0 in
  match scan_word [105; 110; 102; 105; 110; 105; 116; 121] s, scan_word [105; 110; 102] s, scan_word [110; 97; 110] s with
  | Some rest, _, _ | _, Some rest, _ => Some (S754_infinity neg, rest)
  | _, _, Some rest => Some (S754_nan, rest)
  | _, _, _ =>
    match scan_word [48; 120] s with
    | Some h => scan_number neg 16 2 112 4 h
    | None => scan_number neg 10 10 101 1 s
    end
  end.

(** [sscanf(s,"%lf+%lf",&v,&vplus)] with both variables zero before: what they
    are when at least one conversion was made. *)
Definition scan_lf_plus (s : string) : option (double * double) :=
  a ← scan_lf s;
  Some (a.1, match (r ← scan_lit "+" a.2; scan_lf r) with Some b => b.1 | None => dzero end).

(** ** [%g] *)

(** The number of decimal digits. *)
Fixpoint dec_digits (fuel : nat) (z : Z) : Z :=
  match fuel with O => 0 | S fuel => if z <? 10 then 1 else 1 + dec_digits fuel (z / 10) end.

(** [num/den] rounded to an integer, halves to even. *)
Definition round_even (num den : Z) : Z :=
  let q := num / den in let r := num mod den in
  if 2 * r <? den then q else if den <? 2 * r then q + 1 else if Z.even q then q else q + 1.

Fixpoint strip_zeros (fuel : nat) (z : Z) (n : Z) : Z * Z :=
  match fuel with
  | O => (z, n)
  | S fuel => if (0 <? n) && (z mod 10 =? 0) then strip_zeros fuel (z / 10) (n - 1) else (z, n)
  end.

(** [z] with [n] digits after the point. *)
Definition show_frac (z n : Z) : string :=
  if n =? 0 then show_int z
  else (show_int (z / 10 ^ n) ++ "." ++ fmt_0 (Z.to_nat n) (z mod 10 ^ n))%string.

(** The six significant digits of [num/den] and its decimal exponent. *)
Definition g_digits (num den : Z) : Z * Z :=
  let x0 := dec_digits 400 num - dec_digits 400 den in
  let x := if (if 0 <=? x0 then num <? den * 10 ^ x0 else num * 10 ^ (- x0) <? den) then x0 - 1 else x0 in
  let k := 5 - x in
  let n := if 0 <=? k then round_even (num * 10 ^ k) den else round_even num (den * 10 ^ (- k)) in
  if n =? 10 ^ 6 then (10 ^ 5, x + 1) else (n, x).

Definition fmt_g_pos (num den : Z) : string :=
  let '(n, x) := g_digits num den in
  if (x <? -4) || (6 <=? x) then
    let '(z, k) := strip_zeros 6 n 5 in
    (show_frac z k ++ "e" ++ (if (x <? 0)%Z then "-" else "+") ++ fmt_0 2 (Z.abs x))%string
  else let '(z, k) := strip_zeros 12 n (5 - x) in show_frac z k.

Definition fmt_g (x : double) : string :=
  match x with
  | S754_zero s => if s then "-0" else "0"
  | S754_infinity s => if s then "-inf" else "inf"
  | S754_nan => "nan"
  | S754_finite s m e =>
    ((if s then "-" else "") ++ (if (0 <=? e)%Z then fmt_g_pos (Zpos m * 2 ^ e)%Z 1 else fmt_g_pos (Zpos m) (2 ^ (- e))%Z))%string
  end.

Example fmt_g_examples :
  ((λ s, match scan_lf s with Some r => fmt_g r.1 | None => "?"%string end) <$>
    ["100"; "0.1"; "33.3333333"; "1e6"; "999999.5"; "-0.00001234"; "123456789"; "0x1.8p1"; "inf"; "1e"; " 2.50k"]%string)
  = ["100"; "0.1"; "33.3333"; "1e+06"; "1e+06"; "-1.234e-05"; "1.23457e+08"; "3"; "inf"; "?"; "2.5"]%string.
Proof. vm_compute. reflexivity. Qed.

(** ** Zero *)

Lemma dsub_zero x : dsub x dzero = x.
Proof. by destruct x as [[]|[]| |]. Qed.

(** ** Exact integers *)

Lemma iter_xO_mul m k : Zpos (Pos.iter xO m k) = Zpos m * 2 ^ Zpos k.
Proof.
  induction k as [|k IH] using Pos.peano_ind; [simpl; lia|].
  rewrite Pos.iter_succ, Pos2Z.inj_xO, IH, Pos2Z.inj_succ, Z.pow_succ_r; lia.
Qed.

Lemma digits2_iter m k : Zpos (digits2_pos (Pos.iter xO m k)) = Zpos (digits2_pos m) + Zpos k.
Proof.
  induction k as [|k IH] using Pos.peano_ind; [simpl; lia|].
  rewrite Pos.iter_succ. simpl. lia.
Qed.

(** A positive number has [d] binary digits when it is between [2^(d-1)] and
    [2^d]. *)
Lemma digits2_bounds p : 2 ^ (Zpos (digits2_pos p) - 1) ≤ Zpos p < 2 ^ Zpos (digits2_pos p).
Proof.
  induction p as [p IH|p IH|]; [..|simpl; lia]; simpl digits2_pos; rewrite Pos2Z.inj_succ.
  all: replace (Z.succ (Zpos (digits2_pos p)) - 1) with (Z.succ (Zpos (digits2_pos p) - 1)) by lia.
  all: rewrite !Z.pow_succ_r; lia.
Qed.

Lemma digits2_le p n : Zpos p < 2 ^ n → Zpos (digits2_pos p) ≤ n.
Proof.
  intros H. destruct (digits2_bounds p) as [H1 _].
  destruct (Z.le_gt_cases (Zpos (digits2_pos p)) n) as [|Hn]; [done|].
  pose proof (Z.pow_le_mono_r 2 n (Zpos (digits2_pos p) - 1)). lia.
Qed.

(** The mantissa of the conversion: [p] shifted to 53 digits. *)
Definition mant (p : positive) : positive :=
  match (Zpos (digits2_pos p) - 53)%Z with Zneg d => Pos.iter xO p d | _ => p end.

Lemma mant_spec p : Zpos p < 2 ^ 53 →
  Zpos (mant p) = Zpos p * 2 ^ (53 - Zpos (digits2_pos p)) ∧ Zpos (digits2_pos (mant p)) = 53.
Proof.
  intros H%digits2_le. unfold mant. destruct (Zpos (digits2_pos p) - 53) as [|d|d] eqn:E; [|lia|].
  - replace (53 - Zpos (digits2_pos p)) with 0 by lia. lia.
  - rewrite iter_xO_mul, digits2_iter. replace (53 - Zpos (digits2_pos p)) with (Zpos d) by lia. split; lia.
Qed.

Lemma fexp_near d e : -53 < d + e ≤ 53 → fexp 53 1024 (d + e) = d + e - 53.
Proof. unfold fexp, emin. lia. Qed.

(** A number of 53 digits is not rounded. *)
Lemma round_exact s m e : Zpos (digits2_pos m) = 53 → -53 < 53 + e ≤ 53 →
  binary_round_aux 53 1024 s (Zpos m) e loc_Exact = S754_finite s m e.
Proof.
  intros Hm He. assert (shr_fexp 53 1024 (Zpos m) e loc_Exact = (Build_shr_record (Zpos m) false false, e)) as E.
  { unfold shr_fexp. simpl Zdigits2. rewrite Hm, fexp_near by lia. by replace (53 + e - 53 - e) with 0 by lia. }
  unfold binary_round_aux. rewrite E. simpl round_nearest_even. rewrite E. cbn [shr_m].
  by rewrite (proj2 (Z.leb_le e (1024 - 53))) by lia.
Qed.

Lemma d_of_pos p : Zpos p < 2 ^ 53 → d_of_Z (Zpos p) = S754_finite false (mant p) (Zpos (digits2_pos p) - 53).
Proof.
  intros H. destruct (mant_spec p H) as [_ Hd]. pose proof (digits2_le p 53 H) as Hl.
  cbn [d_of_Z binary_normalize]. unfold d_of_Z, binary_normalize, binary_round.
  rewrite fexp_near by lia.
  assert (shl_align p 0 (Zpos (digits2_pos p) + 0 - 53) = (mant p, Zpos (digits2_pos p) - 53)) as ->.
  { unfold shl_align, mant. replace (Zpos (digits2_pos p) + 0 - 53 - 0) with (Zpos (digits2_pos p) - 53) by lia.
    destruct (Zpos (digits2_pos p) - 53) eqn:E; [done | lia | f_equal; lia]. }
  apply round_exact; lia.
Qed.

(** The conversion of a number below [2^53] can be undone. *)
Lemma d_trunc_of_Z z : 0 ≤ z < 2 ^ 53 → d_trunc (d_of_Z z) = Some z.
Proof.
  intros [H0 H]. destruct z as [|p|]; [done | | lia]. rewrite d_of_pos by done. simpl. f_equal.
  destruct (mant_spec p H) as [E _]. pose proof (digits2_le p 53 H) as Hl.
  replace (Zpos (digits2_pos p) - 53) with (- (53 - Zpos (digits2_pos p))) by lia.
  rewrite Z.shiftl_opp_r, Z.shiftr_div_pow2, E by lia.
  apply Z.div_mul. apply Z.pow_nonzero; lia.
Qed.

Lemma d_int_of_Z z : 0 ≤ z < 2 ^ 31 → d_int (d_of_Z z) = Some z.
Proof.
  intros H. unfold d_int, d_fits. rewrite d_trunc_of_Z by lia.
  destruct (Z.leb_spec (- 2 ^ 31) z), (Z.ltb_spec z (2 ^ 31)); done || lia.
Qed.

Lemma d_unsigned_of_Z z : 0 ≤ z < 2 ^ 32 → d_unsigned (d_of_Z z) = Some z.
Proof.
  intros H. unfold d_unsigned, d_fits. rewrite d_trunc_of_Z by lia.
  destruct (Z.leb_spec 0 z), (Z.ltb_spec z (2 ^ 32)); done || lia.
Qed.

(** The conversion of numbers below [2^53] keeps their order. *)
Lemma d_compare_of_Z a b : 0 ≤ a < 2 ^ 53 → 0 ≤ b < 2 ^ 53 →
  SFcompare (d_of_Z a) (d_of_Z b) = Some (a ?= b).
Proof.
  intros [Ha0 Ha] [Hb0 Hb].
  destruct a as [|p|], b as [|q|]; try lia; [done | rewrite d_of_pos by done; done.. | ].
  rewrite !d_of_pos by done. cbn [SFcompare]. f_equal.
  destruct (mant_spec p Ha) as [Ep _], (mant_spec q Hb) as [Eq_ _].
  pose proof (digits2_bounds p) as Bp. pose proof (digits2_bounds q) as Bq.
  set (dp := Zpos (digits2_pos p)) in *. set (dq := Zpos (digits2_pos q)) in *.
  destruct (Z.compare_spec (dp - 53) (dq - 53)) as [E|E|E].
  - change (Pos.compare_cont Eq (mant p) (mant q)) with (Zpos (mant p) ?= Zpos (mant q)). rewrite Ep, Eq_.
    replace dq with dp by lia. symmetry. rewrite !(Z.mul_comm _ (2 ^ _)). apply Zmult_compare_compat_l.
    pose proof (digits2_le p 53 Ha). apply Z.lt_gt, Z.pow_pos_nonneg; [lia | fold dp in H; lia].
  - symmetry. apply Z.compare_lt_iff. pose proof (Z.pow_le_mono_r 2 dp (dq - 1)). lia.
  - symmetry. apply Z.compare_gt_iff. pose proof (Z.pow_le_mono_r 2 dq (dp - 1)). lia.
Qed.

Lemma dlt_of_Z a b : 0 ≤ a < 2 ^ 53 → 0 ≤ b < 2 ^ 53 → dlt (d_of_Z a) (d_of_Z b) = (a <? b).
Proof. intros. unfold dlt, SFltb. rewrite d_compare_of_Z by done. unfold Z.ltb. by destruct (a ?= b). Qed.

Lemma dle_of_Z a b : 0 ≤ a < 2 ^ 53 → 0 ≤ b < 2 ^ 53 → dle (d_of_Z a) (d_of_Z b) = (a <=? b).
Proof. intros. unfold dle, SFleb. rewrite d_compare_of_Z by done. unfold Z.leb. by destruct (a ?= b). Qed.

(** The conversion of an integer plus or minus zero. *)
Lemma dadd_zero_r z : 0 ≤ z < 2 ^ 53 → dadd (d_of_Z z) dzero = d_of_Z z.
Proof. intros [? ?]. destruct z as [|p|]; [done | by rewrite d_of_pos | lia]. Qed.

Lemma dadd_zero_l z : 0 ≤ z < 2 ^ 53 → dadd dzero (d_of_Z z) = d_of_Z z.
Proof. intros [? ?]. destruct z as [|p|]; [done | by rewrite d_of_pos | lia]. Qed.
