(* ===== verification/WireLine.v ===== *)
(** * WireLine: the simulated line of [wirefilter.c]

    A packet that enters the filter meets the parameters of the current node of
    a Markov chain: it can be dropped (MTU, loss, bursts of losses), duplicated,
    refused by a full channel, held back by the speed of the interface or the
    bandwidth of the channel, delayed, and damaged by noise.  This file has the
    parameters, the chain, [handle_packet] and [writepacket] on top of the delay
    queue of [WireFilter], and the time the main loop waits.

    A handler reads one time for all its calls of [gettimeofday].  [drand n] is
    the [n]-th number of [drand48], [dlog] is [log] of the mathematical library;
    [fuel] bounds the loops that draw numbers until one is large enough, and
    running out of it is a fault.  Undefined behaviour (a conversion of a double
    that does not fit, a division by zero, an access outside an array) is a
    fault too. *)
From Stdlib Require Import Lia Sorted String Ascii Floats.SpecFloat.
From stdpp Require Import base numbers list gmap.
From S2P Require Import Prelude Scan Doubles WireFilter.

(** ** Times *)

Record timeval := Timeval { tv_sec : Z; tv_usec : Z }.

(** [timercmp(&a,&b,>)] *)
Definition tv_gt (a b : timeval) : bool :=
  if tv_sec a =? tv_sec b then tv_usec b <? tv_usec a else tv_sec b <? tv_sec a.
Definition timersub (a b : timeval) : timeval :=
  let s := tv_sec a - tv_sec b in let u := tv_usec a - tv_usec b in
  if u <? 0 then Timeval (s - 1) (u + 1000000) else Timeval s u.

(** [t.tv_usec += c; t.tv_sec += t.tv_usec / 1000000; t.tv_usec %= 1000000] *)
Definition tv_advance (t : timeval) (c : Z) : timeval :=
  let u := tv_usec t + c in Timeval (tv_sec t + Z.quot u 1000000) (Z.rem u 1000000).

(** The time in milliseconds. *)
Definition tv_ms (t : timeval) : Z := tv_sec t * 1000 + Z.quot (tv_usec t) 1000.

(** ** The parameters *)

Record wirevalue := Wirevalue { value : double; plus : double; alg : Z }.

Definition ALGO_UNIFORM : Z := 0.
Definition ALGO_GAUSS_NORMAL : Z := 1.
Definition LOSS : Z := 0.
Definition LOSTBURST : Z := 1.
Definition DELAY : Z := 2.
Definition DDUP : Z := 3.
Definition BAND : Z := 4.
Definition SPEED : Z := 5.
Definition CHANBUFSIZE : Z := 6.
Definition NOISE : Z := 7.
Definition MTU : Z := 8.
Definition NUMVALUES : Z := 9.
Definition OK_BURST : Z := 0.
Definition FAULTY_BURST : Z := 1.
Definition NPFD : Z := 8.
Definition BUFSIZE : Z := 2048.
Definition MAXCMD : Z := 128.
Definition MEGA : Z := 2 ^ 20.
Definition LR : Z := 0.
Definition RL : Z := 1.

Record markov_node := MarkovNode { wfname : option string; wfvals : list (list wirevalue) }.

(** [markov_node_new()]: the memory comes cleared. *)
Definition markov_node_new : markov_node :=
  MarkovNode None (replicate (Z.to_nat NUMVALUES) (replicate 2 (Wirevalue dzero dzero ALGO_UNIFORM))).

Record markov := Markov {
  markov_numnodes : Z;
  markov_nodes : list markov_node;
  adjmap : list double;
  markov_current : Z;
  markov_time : double;
  markov_next : Z
}.

(** The descriptors of the poll and what was written to the terminals. *)
Record console := Console { pfd : list Z; debuglevel : list Z; shown : list (Z * string) }.

(** [outs] are the packets given to [outpacket]. *)
Record wire := Wire {
  chain : markov;
  loss_status : list Z;
  nextband : list timeval;
  nextspeed : list timeval;
  queue : wfstate;
  outs : list (Z * list Z);
  rpos : nat;
  terms : console
}.

Definition set_chain (c : markov) (s : wire) : wire :=
  Wire c (loss_status s) (nextband s) (nextspeed s) (queue s) (outs s) (rpos s) (terms s).
Definition set_loss (l : list Z) (s : wire) : wire :=
  Wire (chain s) l (nextband s) (nextspeed s) (queue s) (outs s) (rpos s) (terms s).
Definition set_band (b : list timeval) (s : wire) : wire :=
  Wire (chain s) (loss_status s) b (nextspeed s) (queue s) (outs s) (rpos s) (terms s).
Definition set_speed (b : list timeval) (s : wire) : wire :=
  Wire (chain s) (loss_status s) (nextband s) b (queue s) (outs s) (rpos s) (terms s).
Definition set_queue (q : wfstate) (s : wire) : wire :=
  Wire (chain s) (loss_status s) (nextband s) (nextspeed s) q (outs s) (rpos s) (terms s).
Definition add_out (o : Z * list Z) (s : wire) : wire :=
  Wire (chain s) (loss_status s) (nextband s) (nextspeed s) (queue s) (outs s ++ [o]) (rpos s) (terms s).
Definition set_rpos (n : nat) (s : wire) : wire :=
  Wire (chain s) (loss_status s) (nextband s) (nextspeed s) (queue s) (outs s) n (terms s).
Definition set_terms (t : console) (s : wire) : wire :=
  Wire (chain s) (loss_status s) (nextband s) (nextspeed s) (queue s) (outs s) (rpos s) t.

(** An operation of the delay queue. *)
Definition on_queue {A} (m : M wfstate A) : M wire A := λ s,
  match m (queue s) with
  | Done a q => Done a (set_queue q s)
  | Fault => Fault
  | Exited c => Exited c
  end.

Definition d100 : double := d_of_Z 100.

(** [WFVAL(n,tag,dir)] *)
Definition wfval (n tag dir : Z) : M wire wirevalue :=
  s ← get; nd ← deref (zget (markov_nodes (chain s)) n); row ← deref (zget (wfvals nd) tag); deref (zget row dir).
Definition current : M wire Z := gets (λ s, markov_current (chain s)).

Definition max_wirevalue (n tag dir : Z) : M wire double := v ← wfval n tag dir; mret (dadd (value v) (plus v)).
Definition min_wirevalue (n tag dir : Z) : M wire double := v ← wfval n tag dir; mret (dsub (value v) (plus v)).

(** [max_wirevalue(markov_current,tag,dir) > 0] *)
Definition limited (tag dir : Z) : M wire bool :=
  n ← current; x ← max_wirevalue n tag dir; mret (dlt dzero x).

(** [printoutc(fd,...)]: a buffer cut at [MAXCMD], with a newline; the
    descriptor -1 shows nothing. *)
Definition show (fd : Z) (text : string) : M wire () := modify (λ s,
  set_terms (Console (pfd (terms s)) (debuglevel (terms s)) (shown (terms s) ++ [(fd, text)])) s).
Definition newline : string := String (ascii_of_nat 10) "".
Definition printoutc (fd : Z) (line : string) : M wire () :=
  whenM (0 <=? fd) (show fd (substring 0 (Z.to_nat (MAXCMD - 1)) line ++ newline)%string).

(** ** The Markov chain *)

(** A loop over the elements of a list that can fail. *)
Fixpoint fold_opt {A B} (f : A → B → option A) (l : list B) (a : A) : option A :=
  match l with
  | [] => Some a
  | x :: l => match f a x with Some a' => fold_opt f l a' | None => None end
  end.

(** [ADJMAPN(M,I,J,N)] *)
Definition adj_get (m : list double) (n i j : Z) : option double := zget m (i * n + j).
Definition adj_set (m : list double) (n i j : Z) (w : double) : option (list double) := zset m (i * n + j) w.
Definition ROT (n i j : Z) : Z := Z.rem (i + j) n.

(** [ADJMAP(i,i) -= w] *)
Definition adj_take (m : list double) (n i : Z) (w : double) : option (list double) :=
  d ← adj_get m n i i; adj_set m n i i (dsub d w).

(** [markov_compute(i)] *)
Definition markov_compute (n i : Z) (m : list double) : option (list double) :=
  m ← adj_set m n i i d100;
  fold_opt (λ m j, w ← adj_get m n i (ROT n i j); adj_take m n i w) (seqZ 1 (n - 1)) m.

(** The body of the inner loop of [copyadjmap], from a map [old] of [n] nodes to
    one of [newsize] nodes. *)
Definition copy_edge (old : list double) (n newsize i : Z) (m : list double) (j : Z) : option (list double) :=
  let newj := Z.rem (i + j) newsize in
  if (i <? n) && (newj <? n) then
    w ← adj_get old n i newj;
    m ← adj_set m newsize i newj w;
    adj_take m newsize i w
  else Some m.

(** [copyadjmap(newsize,newmap)] *)
Definition copyadjmap (old : list double) (n newsize : Z) (newmap : list double) : option (list double) :=
  fold_opt (λ m i,
    m ← adj_set m newsize i i d100;
    fold_opt (copy_edge old n newsize i) (seqZ 1 (newsize - 1)) m) (seqZ 0 newsize) newmap.

(** [markov_resize(numnodes)], for a positive number whose square is an [int]
    and with memory available. *)
Definition markov_resize (numnodes : Z) : M wire () :=
  s ← get;
  let c := chain s in let n := markov_numnodes c in
  if numnodes =? n then mret ()
  else if (numnodes <? 0) || (2 ^ 31 <=? numnodes * numnodes) then fault
  else
    let nodes := if n <? numnodes then markov_nodes c ++ replicate (Z.to_nat (numnodes - n)) markov_node_new
                 else take (Z.to_nat numnodes) (markov_nodes c) in
    let cur := if n <? numnodes then markov_current c
               else if numnodes <=? markov_current c then 0 else markov_current c in
    m ← deref (copyadjmap (adjmap c) n numnodes (replicate (Z.to_nat (numnodes * numnodes)) dzero));
    modify (set_chain (Markov numnodes nodes m cur (markov_time c) (markov_next c))).

(** The search of [markov_step]: the nodes in rotation from [i]. *)
Fixpoint step_scan (m : list double) (n i : Z) (num : double) (js : list Z) (k : Z) : option Z :=
  match js with
  | [] => Some k
  | j :: js =>
    let k := ROT n i j in
    w ← adj_get m n i k;
    if dle num w then Some k else step_scan m n i (dsub num w) js k
  end.

Definition set_next (t : Z) (c : markov) : markov :=
  Markov (markov_numnodes c) (markov_nodes c) (adjmap c) (markov_current c) (markov_time c) t.
Definition set_current (k : Z) (c : markov) : markov :=
  Markov (markov_numnodes c) (markov_nodes c) (adjmap c) k (markov_time c) (markov_next c).

(** [WFNAME(n)?WFNAME(n):""] *)
Definition node_name (n : Z) : M wire string :=
  s ← get; nd ← deref (zget (markov_nodes (chain s)) n); mret (default ""%string (wfname nd)).

Definition quote (s : string) : string := String (ascii_of_nat 34) (s ++ String (ascii_of_nat 34) "").

(** The message of a move from [i] to [k], on the terminals that asked for it. *)
Definition notify (i k : Z) : M wire () :=
  s ← get;
  a ← node_name i; b ← node_name k;
  forM (seqZ 0 NPFD) (λ j,
    l ← deref (zget (debuglevel (terms s)) j);
    whenM (0 <? l) (
      fd ← deref (zget (pfd (terms s)) j);
      printoutc (if fd =? 0 then 1 else fd)
        (fmt_0 4 (3800 + k) ++ " Node " ++ show_int i ++ " " ++ quote a ++ " -> " ++ show_int k ++ " " ++ quote b)%string)).

Section line.
Context (drand : nat → double) (dlog : double → double) (fuel : nat).

Definition drand48 : M wire double :=
  s ← get; modify (set_rpos (S (rpos s))) ;; mret (drand (rpos s)).

(** [markov_step(i)] *)
Definition markov_step (i : Z) : M wire Z :=
  r ← drand48;
  s ← get;
  let c := chain s in
  t ← deref (d_llong (dadd (d_of_Z (markov_next c)) (markov_time c)));
  modify (set_chain (set_next t c)) ;;
  k ← deref (step_scan (adjmap c) (markov_numnodes c) i (dmul r d100) (seqZ 0 (markov_numnodes c)) 0);
  whenM (negb (i =? k)) (notify i k) ;;
  mret k.

(** [markov_current=markov_step(markov_current)] *)
Definition markov_move : M wire () :=
  n ← current; k ← markov_step n; modify (λ s, set_chain (set_current k (chain s)) s).

Definition markov_try (now : timeval) : M wire () :=
  s ← get;
  whenM ((1 <? markov_numnodes (chain s)) && (markov_next (chain s) - tv_ms now <=? 0)) markov_move.

Definition markov_start (now : timeval) : M wire () :=
  s ← get;
  whenM (1 <? markov_numnodes (chain s)) (modify (set_chain (set_next (tv_ms now) (chain s))) ;; markov_move).

(** [markovms()]: the difference is unsigned, and returned as an [int]. *)
Definition markovms (now : timeval) : M wire Z :=
  s ← get;
  mret (if 1 <? markov_numnodes (chain s) then i32 (u64 (markov_next (chain s) - tv_ms now)) else -1).

(** ** Drawing a value *)

Definition dtwo : double := d_of_Z 2.
Definition done_ : double := d_of_Z 1.
Definition SIGMA : double := ddiv done_ (d_of_Z 3).

(** The polar method: pairs are drawn until one is inside the circle. *)
Fixpoint gauss_loop (f : nat) : M wire (double * double) :=
  match f with
  | O => fault
  | S f =>
    a ← drand48; b ← drand48;
    let x := dsub (dmul dtwo a) done_ in let y := dsub (dmul dtwo b) done_ in
    let r2 := dadd (dmul x x) (dmul y y) in
    if dle done_ r2 then gauss_loop f else mret (x, r2)
  end.

Definition compute_wirevalue (tag dir : Z) : M wire double :=
  n ← current; wv ← wfval n tag dir;
  if deq (plus wv) dzero then mret (value wv)
  else if alg wv =? ALGO_UNIFORM then
    r ← drand48; mret (dadd (value wv) (dmul (plus wv) (dsub (dmul r dtwo) done_)))
  else if alg wv =? ALGO_GAUSS_NORMAL then
    p ← gauss_loop fuel;
    mret (dadd (value wv) (dmul (dmul (dmul (plus wv) SIGMA) p.1) (dsqrt (ddiv (dmul (d_of_Z (-2)) (dlog p.2)) p.2))))
  else mret dzero.

(** ** Noise *)

(** How many numbers are drawn before one that is not small: the loops
    [while (drand48() < x) n++], with [below] the test. *)
Fixpoint count_draws (below : double → bool) (f : nat) (n : Z) : M wire Z :=
  match f with
  | O => fault
  | S f => r ← drand48; if below r then count_draws below f (n + 1) else mret n
  end.

Definition outpacket (dir : Z) (buf : list Z) (size : Z) : M wire () :=
  modify (add_out (dir, take (Z.to_nat size) buf)).

(** One flipped bit in [noisedpacket]. *)
Definition flip_bit (size : Z) (noised : list Z) : M wire (list Z) :=
  r ← drand48;
  f ← deref (d_int (dmul (dmul r (d_of_Z size)) (d_of_Z 8)));
  b ← deref (zget noised (Z.shiftr f 3 + 2));
  deref (zset noised (Z.shiftr f 3 + 2) (Z.lxor b (Z.shiftl 1 (Z.land f 7)))).

Fixpoint flip_bits (nobit : nat) (size : Z) (noised : list Z) : M wire (list Z) :=
  match nobit with
  | O => mret noised
  | S nobit => noised ← flip_bit size noised; flip_bits nobit size noised
  end.

Definition writepacket (dir : Z) (buf : list Z) (size : Z) : M wire () :=
  noisy ← limited NOISE dir;
  if (noisy : bool) then
    noiseval ← compute_wirevalue NOISE dir;
    nobit ← count_draws (λ r, dlt (dmul (dmul r (d_of_Z 8)) (d_of_Z MEGA)) (dmul (d_of_Z ((size - 2) * 8)) noiseval)) fuel 0;
    if 0 <? nobit then
      noised ← deref (memcpy_at (replicate (Z.to_nat BUFSIZE) 0) 0 (take (Z.to_nat size) buf));
      noised ← flip_bits (Z.to_nat nobit) size noised;
      outpacket dir noised size
    else outpacket dir buf size
  else outpacket dir buf size.

(** [packet_dequeue()]: what leaves the delay queue is written. *)
Definition dequeue (now : timeval) : M wire () :=
  s ← get;
  on_queue (packet_dequeue (tv_ms now)) ;;
  s' ← get;
  forM (drop (length (written (queue s))) (written (queue s'))) (λ p, writepacket (pdir p) (pbuf p) (psize p)).

(** ** [handle_packet] *)

Definition percent (tag dir : Z) : M wire double := v ← compute_wirevalue tag dir; mret (ddiv v d100).

Definition put_loss (dir st : Z) : M wire () :=
  s ← get; l ← deref (zset (loss_status s) dir st); modify (set_loss l).

(** The packet is lost? *)
Definition lost (dir : Z) : M wire bool :=
  n ← current;
  m ← min_wirevalue n LOSS dir;
  if dle d100 m then mret true else
  bursts ← limited LOSTBURST dir;
  if (bursts : bool) then
    losval ← percent LOSS dir;
    burstlen ← compute_wirevalue LOSTBURST dir;
    let alpha := ddiv losval (dmul burstlen (dsub done_ losval)) in
    let beta := ddiv done_ burstlen in
    s ← get; st ← deref (zget (loss_status s) dir);
    (if st =? OK_BURST then r ← drand48; whenM (dlt r alpha) (put_loss dir FAULTY_BURST)
     else whenM (st =? FAULTY_BURST) (r ← drand48; whenM (dlt r beta) (put_loss dir OK_BURST))) ;;
    s ← get; st ← deref (zget (loss_status s) dir);
    mret (negb (st =? OK_BURST))
  else
    put_loss dir OK_BURST ;;
    lossy ← limited LOSS dir;
    if (lossy : bool) then losval ← percent LOSS dir; r ← drand48; mret (dlt r losval) else mret false.

(** The number of copies. *)
Definition copies (dir : Z) : M wire Z :=
  dup ← limited DDUP dir;
  if (dup : bool) then dupval ← percent DDUP dir; count_draws (λ r, dlt r dupval) fuel 1 else mret 1.

(** [((unsigned)size)*1000000/((unsigned int)rate)] *)
Definition commtime (size : Z) (rate : double) : M wire Z :=
  r ← deref (d_unsigned rate);
  if r =? 0 then fault else mret (u32 (u32 size * 1000000) / r).

(** The channel has no room for the packet. *)
Definition channel_full (dir size : Z) : M wire bool :=
  lim ← limited CHANBUFSIZE dir;
  if (lim : bool) then
    capval ← compute_wirevalue CHANBUFSIZE dir;
    s ← get; used ← deref (zget (delay_bufsize (queue s)) dir);
    mret (dlt capval (d_of_Z (i32 (used + size))))
  else mret false.

(** [None] when the packet is dropped, otherwise [banddelay]. *)
Definition speed_limit (now : timeval) (dir size : Z) : M wire (option Z) :=
  lim ← limited SPEED dir;
  if (lim : bool) then
    speedval ← compute_wirevalue SPEED dir;
    if dle speedval dzero then mret None
    else if dlt dzero speedval then
      c ← commtime size speedval;
      s ← get; t ← deref (zget (nextspeed s) dir);
      let t := if tv_gt now t then now else t in
      l ← deref (zset (nextspeed s) dir (tv_advance t c));
      modify (set_speed l) ;;
      mret (Some (i32 (c / 1000)))
    else mret (Some 0)
  else mret (Some 0).

Definition band_limit (now : timeval) (dir size banddelay : Z) : M wire (option Z) :=
  lim ← limited BAND dir;
  if (lim : bool) then
    bandval ← compute_wirevalue BAND dir;
    if dle bandval dzero then mret None
    else if dlt dzero bandval then
      c ← commtime size bandval;
      s ← get; t ← deref (zget (nextband s) dir);
      let '(t, banddelay) :=
        if tv_gt now t then (now, i32 (c / 1000))
        else let d := timersub t now in (t, i32 (tv_sec d * 1000 + Z.quot (tv_usec d + c) 1000)) in
      l ← deref (zset (nextband s) dir (tv_advance t c));
      modify (set_band l) ;;
      mret (Some banddelay)
    else mret (Some (-1))
  else mret (Some banddelay).

Definition line_delay (now : timeval) (dir : Z) (buf : list Z) (size banddelay : Z) : M wire () :=
  whenM (0 <=? banddelay) (
    lim ← limited DELAY dir;
    if (0 <? banddelay) || lim then
      delval ← compute_wirevalue DELAY dir;
      let delval := if dle dzero delval then dadd delval (d_of_Z banddelay) else d_of_Z banddelay in
      if dlt dzero delval then
        d ← deref (d_int delval); on_queue (packet_enqueue true (tv_ms now) dir buf size d)
      else writepacket dir buf size
    else writepacket dir buf size).

(** One turn of the loop over the copies; [false] when it returns. *)
Definition send_copy (now : timeval) (dir : Z) (buf : list Z) (size : Z) : M wire bool :=
  full ← channel_full dir size;
  if (full : bool) then mret false else
  o ← speed_limit now dir size;
  match o with
  | None => mret false
  | Some banddelay =>
    o ← band_limit now dir size banddelay;
    match o with
    | None => mret false
    | Some banddelay => line_delay now dir buf size banddelay ;; mret true
    end
  end.

Fixpoint send_copies (times : nat) (now : timeval) (dir : Z) (buf : list Z) (size : Z) : M wire () :=
  match times with
  | O => mret ()
  | S times => go ← send_copy now dir buf size; whenM go (send_copies times now dir buf size)
  end.

(** [size > min_wirevalue(markov_current,MTU,dir)], where there is an MTU. *)
Definition too_large (dir size : Z) : M wire bool :=
  n ← current; m ← min_wirevalue n MTU dir; mret (dlt dzero m && dlt m (d_of_Z size)).

Definition handle_packet (now : timeval) (dir : Z) (buf : list Z) (size : Z) : M wire () :=
  big ← too_large dir size;
  if (big : bool) then mret () else
  gone ← lost dir;
  if (gone : bool) then mret () else
  times ← copies dir;
  send_copies (Z.to_nat times) now dir buf size.

(** [packet_in(dir)] on a plug: [n] is what [vde_recv] returned, [data] what it
    stored. *)
Definition packet_in (now : timeval) (dir n : Z) (data : list Z) : M wire () :=
  handle_packet now dir (u8 (Z.shiftr n 8) :: Z.land n 255 :: data) (n + 2).

(** ** The wait of the main loop *)

(** The rest of the time an interface needs for what it sent, and whether it is
    not read meanwhile; [tv] is compared, [now] subtracted. *)
Definition speed_wait (tv now : timeval) (dir : Z) (delay : Z) : M wire (Z * bool) :=
  n ← current; v ← wfval n SPEED dir;
  s ← get; t ← deref (zget (nextspeed s) dir);
  if dlt dzero (value v) && tv_gt t tv then
    let d := timersub t now in
    let speeddelay := i32 (tv_sec d * 1000 + Z.quot (tv_usec d) 1000) in
    if 0 <? speeddelay then mret (Z.min speeddelay delay, false) else mret (delay, true)
  else mret (delay, true).

(** The timeout of [poll] and which directions it reads; [junk] is what the
    stack held in the [tv] of the second direction. *)
Definition main_wait (now junk : timeval) (ndirs : Z) : M wire (Z * bool * bool) :=
  delay ← on_queue (nextms (tv_ms now));
  markovdelay ← markovms now;
  let delay := if (0 <=? markovdelay) && (markovdelay <? delay) then markovdelay else delay in
  r0 ← speed_wait now now LR delay;
  r1 ← (if 1 <? ndirs then speed_wait junk now RL r0.1 else mret (r0.1, false));
  mret (i32 r1.1, r0.2, r1.2).

End line.
