(* ===== verification/WireFacts.v ===== *)
(** * WireFacts: what the line of [wirefilter.c] does to packets

    A line whose parameters are zero hands packets on at once and unchanged; a
    bandwidth is respected over every stretch of packets, and the bytes waiting
    in a channel never exceed its size.  The other lemmas are the places where
    the code does not do what it means to. *)
From Stdlib Require Import Lia Sorted String Ascii Floats.SpecFloat.
From stdpp Require Import base numbers list gmap.
From S2P Require Import Prelude Scan Doubles WireFilter WireLine.

(** ** Times in microseconds *)

Definition tv_us (t : timeval) : Z := tv_sec t * 1000000 + tv_usec t.
Definition tv_ok (t : timeval) : Prop := 0 ≤ tv_sec t ∧ 0 ≤ tv_usec t < 1000000.

Lemma tv_gt_us a b : tv_ok a → tv_ok b → tv_gt a b = (tv_us b <? tv_us a).
Proof.
  intros [] []. apply Bool.eq_iff_eq_true. unfold tv_gt, tv_us. rewrite Z.ltb_lt.
  destruct (Z.eqb_spec (tv_sec a) (tv_sec b)); rewrite Z.ltb_lt; nia.
Qed.

Lemma tv_advance_us t c : tv_ok t → 0 ≤ c → tv_ok (tv_advance t c) ∧ tv_us (tv_advance t c) = tv_us t + c.
Proof.
  intros [] Hc. unfold tv_ok, tv_us, tv_advance. cbn [tv_sec tv_usec].
  rewrite Z.quot_div_nonneg, Z.rem_mod_nonneg by lia. dlia.
Qed.

Lemma timersub_us a b : tv_ok a → tv_ok b → tv_us b ≤ tv_us a → tv_ok (timersub a b) ∧ tv_us (timersub a b) = tv_us a - tv_us b.
Proof.
  intros [] []. unfold tv_ok, tv_us, timersub. destruct (Z.ltb_spec (tv_usec a - tv_usec b) 0); cbn [tv_sec tv_usec]; lia.
Qed.

Lemma tv_ms_us t : tv_ok t → tv_ms t = tv_us t / 1000.
Proof. intros []. unfold tv_ms, tv_us. rewrite Z.quot_div_nonneg by lia. dlia. Qed.

(** ** Parameters with a fixed value *)

(** The parameter of the current node. *)
Definition param (c : markov) (tag dir : Z) : option wirevalue :=
  nd ← zget (markov_nodes c) (markov_current c); row ← zget (wfvals nd) tag; zget row dir.
Definition fixed (c : markov) (tag dir : Z) (x : double) : Prop := ∃ a, param c tag dir = Some (Wirevalue x dzero a).

Lemma wp_run {S A} (m : M S A) (Q : A → S → Prop) s a s' : m s = Done a s' → Q a s' → wp m Q s.
Proof. unfold wp. by intros ->. Qed.

Lemma wfval_current s tag dir v : param (chain s) tag dir = Some v →
  wfval (markov_current (chain s)) tag dir s = Done v s.
Proof.
  unfold param. intros H. apply wp_eq, wp_bind, wp_get, wp_bind.
  destruct (zget (markov_nodes _) _) as [nd|]; [|done]. apply (wp_deref _ nd), wp_bind; [done|].
  simpl in H. destruct (zget (wfvals nd) tag) as [row|]; [|done]. apply (wp_deref _ row); [done|].
  by apply (wp_deref _ v).
Qed.

Section fixed.
Context (drand : nat → double) (dlog : double → double) (fuel : nat).

Lemma wp_max s tag dir x (Q : double → wire → Prop) : fixed (chain s) tag dir x →
  Q (dadd x dzero) s → wp (max_wirevalue (markov_current (chain s)) tag dir) Q s.
Proof. intros [a H] HQ. apply wp_bind. by eapply wp_run; [by apply wfval_current|]. Qed.

Lemma wp_min s tag dir x (Q : double → wire → Prop) : fixed (chain s) tag dir x →
  Q x s → wp (n ← current; min_wirevalue n tag dir) Q s.
Proof.
  intros [a H] HQ. apply wp_bind, wp_gets, wp_bind. eapply wp_run; [by apply wfval_current|].
  apply wp_ret. cbn [value plus]. by rewrite dsub_zero.
Qed.

Lemma wp_limited s tag dir x (Q : bool → wire → Prop) : fixed (chain s) tag dir x →
  Q (dlt dzero (dadd x dzero)) s → wp (limited tag dir) Q s.
Proof. intros H HQ. apply wp_bind, wp_gets, wp_bind. by eapply wp_max. Qed.

(** A parameter without deviation is not drawn. *)
Lemma wp_compute s tag dir x (Q : double → wire → Prop) : fixed (chain s) tag dir x →
  Q x s → wp (compute_wirevalue drand dlog fuel tag dir) Q s.
Proof. intros [a H] HQ. apply wp_bind, wp_gets, wp_bind. by eapply wp_run; [by apply wfval_current|]. Qed.

(** A parameter that is zero. *)
Lemma wp_unlimited s tag dir (Q : bool → wire → Prop) : fixed (chain s) tag dir dzero →
  Q false s → wp (limited tag dir) Q s.
Proof. apply wp_limited. Qed.

Lemma wp_positive s tag dir z (Q : bool → wire → Prop) : 0 < z < 2 ^ 53 → fixed (chain s) tag dir (d_of_Z z) →
  Q true s → wp (limited tag dir) Q s.
Proof.
  intros Hz H HQ. eapply wp_limited; [done|]. rewrite dadd_zero_r by lia.
  change dzero with (d_of_Z 0). by rewrite dlt_of_Z, (proj2 (Z.ltb_lt 0 z)) by lia.
Qed.

(** ** A line without parameters *)

(** All the parameters of a direction but those of [l] are zero. *)
Definition quiet (c : markov) (dir : Z) (l : list Z) : Prop :=
  ∀ tag, 0 ≤ tag < NUMVALUES → tag ∉ l → fixed c tag dir dzero.

Ltac not_in := let H := fresh in intros H; repeat (apply elem_of_cons in H as [H|H]; [discriminate H|]); by apply not_elem_of_nil in H.

Definition sides (s : wire) : Prop :=
  length (loss_status s) = 2%nat ∧ length (nextband s) = 2%nat ∧ length (nextspeed s) = 2%nat.

(** What survives the tests at the start of [handle_packet]. *)
Definition passed (dir : Z) (s : wire) : wire := set_loss (<[Z.to_nat dir := OK_BURST]> (loss_status s)) s.

Lemma sides_passed dir s : sides s → sides (passed dir s).
Proof. intros (H1 & H2 & H3). split_and!; [|done|done]. simpl. by rewrite length_insert. Qed.

Lemma wp_writepacket s dir buf size l (Q : () → wire → Prop) :
  quiet (chain s) dir l → NOISE ∉ l → Q () (add_out (dir, take (Z.to_nat size) buf) s) →
  wp (writepacket drand dlog fuel dir buf size) Q s.
Proof.
  intros H Hn HQ. apply wp_bind. eapply wp_unlimited; [apply H; [|done]; done|]. by apply wp_modify.
Qed.

Lemma set_dir {A} (l : list A) dir x : length l = 2%nat → dir = 0 ∨ dir = 1 → zset l dir x = Some (<[Z.to_nat dir := x]> l).
Proof. intros H Hd. apply zset_is_Some. lia. Qed.

(** The tests of MTU, loss and duplication let a packet pass once. *)
Lemma wp_entry s now dir buf size l (Q : () → wire → Prop) :
  quiet (chain s) dir l → MTU ∉ l → LOSS ∉ l → LOSTBURST ∉ l → DDUP ∉ l → sides s → dir = 0 ∨ dir = 1 →
  wp (send_copies drand dlog fuel 1 now dir buf size) Q (passed dir s) →
  wp (handle_packet drand dlog fuel now dir buf size) Q s.
Proof.
  intros H H1 H2 H3 H4 (Hl & _) Hd HQ.
  assert (∀ tag s', 0 ≤ tag < NUMVALUES → tag ∉ l → chain s' = chain s → fixed (chain s') tag dir dzero) as Off.
  { intros tag s' Ht Hn ->. by apply H. }
  unfold handle_packet. apply wp_bind. unfold too_large. apply wp_bind, wp_gets, wp_bind.
  apply (wp_min s MTU dir dzero _ (Off MTU s ltac:(done) H1 eq_refl)), wp_ret.
  cbn [andb dlt SFltb SFcompare dzero].
  apply wp_bind. unfold lost. apply wp_bind, wp_gets, wp_bind.
  apply (wp_min s LOSS dir dzero _ (Off LOSS s ltac:(done) H2 eq_refl)).
  change (dle d100 dzero) with false. cbv iota. apply wp_bind.
  apply wp_unlimited; [apply Off; [done | done | done]|]. cbv iota.
  apply wp_bind, wp_bind, wp_get, wp_bind. eapply wp_deref; [by apply set_dir|]. apply wp_modify, wp_bind.
  apply wp_unlimited; [apply Off; [done | done | done]|]. apply wp_ret. cbv iota.
  apply wp_bind, wp_bind. apply wp_unlimited; [apply Off; [done | done | done]|]. by apply wp_ret.
Qed.

(** A direction whose parameters are all zero hands a packet on at once, once and
    unchanged. *)
Theorem clean_line_transparent s now dir buf size :
  quiet (chain s) dir [] → sides s → dir = 0 ∨ dir = 1 →
  handle_packet drand dlog fuel now dir buf size s = Done () (add_out (dir, take (Z.to_nat size) buf) (passed dir s)).
Proof.
  intros H Hs Hd. apply wp_eq. apply (wp_entry s now dir buf size []); [done | not_in.. | done | done|].
  simpl send_copies. apply wp_bind. unfold send_copy. apply wp_bind, wp_bind, wp_unlimited; [apply H; [done | not_in]|].
  apply wp_ret, wp_bind, wp_bind, wp_unlimited; [apply H; [done | not_in]|].
  apply wp_ret, wp_bind, wp_bind, wp_unlimited; [apply H; [done | not_in]|]. apply wp_ret, wp_bind, wp_bind.
  apply wp_unlimited; [apply H; [done | not_in]|]. simpl.
  apply (wp_writepacket _ dir buf size []); [done | not_in|]. by apply wp_ret, wp_ret.
Qed.

(** ** Bandwidth *)

(** The transmission time of a packet, in microseconds. *)
Definition sending (size b : Z) : Z := size * 1000000 / b.

Lemma sending_bounds size b : 0 < b → 0 ≤ size → 0 ≤ sending size b ∧ size * 1000000 < b * (sending size b + 1).
Proof. intros. unfold sending. split; [apply Z.div_pos; lia|]. pose proof (Z.mul_succ_div_gt (size * 1000000) b). nia. Qed.

Lemma wp_commtime s size b (Q : Z → wire → Prop) : 0 < b < 2 ^ 32 → 0 ≤ size ≤ 4294 →
  Q (sending size b) s → wp (commtime size (d_of_Z b)) Q s.
Proof.
  intros Hb Hs HQ. unfold commtime. apply wp_bind. eapply wp_deref; [apply d_unsigned_of_Z; lia|].
  destruct (Z.eqb_spec b 0); [lia|]. apply wp_ret.
  unfold u32. rewrite !(Z.mod_small _ (2 ^ 32)); [done | lia|]. rewrite Z.mod_small; lia.
Qed.

(** When the channel is free again after a packet that came at [now], and how
    many milliseconds later than [now] that is. *)
Definition band_next (now t : timeval) (c : Z) : timeval := tv_advance (if tv_gt now t then now else t) c.
Definition band_delay (now t : timeval) (c : Z) : Z := (tv_us (band_next now t c) - tv_us now) / 1000.

Lemma band_next_us now t c : tv_ok now → tv_ok t → 0 ≤ c →
  tv_ok (band_next now t c) ∧ tv_us (band_next now t c) = Z.max (tv_us now) (tv_us t) + c.
Proof.
  intros Hn Ht Hc. unfold band_next. rewrite (tv_gt_us now t Hn Ht).
  destruct (Z.ltb_spec (tv_us t) (tv_us now)); [destruct (tv_advance_us now c) | destruct (tv_advance_us t c)]; try done; split; lia || done.
Qed.

(** A packet that can be sent: the clock is normalised and the backlog of the
    channel, in milliseconds, is an [int]. *)
Definition sendable (now t : timeval) (size : Z) : Prop :=
  tv_ok now ∧ tv_ok t ∧ tv_us now < 2 ^ 60 ∧ tv_us t - tv_us now ≤ 2000000000000 ∧ 0 ≤ size ≤ 4294.

Lemma i32_small z : 0 ≤ z < 2 ^ 31 → i32 z = z.
Proof. intros. unfold i32. rewrite Z.mod_small; lia. Qed.

Lemma sending_le size b : 0 < b → 0 ≤ size ≤ 4294 → 0 ≤ sending size b ≤ 4294000000.
Proof. intros. unfold sending. split; [apply Z.div_pos; lia | apply Z.div_le_upper_bound; nia]. Qed.

(** The arithmetic of [tv_sec] and [tv_usec] is that of microseconds. *)
Lemma band_delay_eq now t size b : sendable now t size → 0 < b → let c := sending size b in
  0 ≤ band_delay now t c < 2 ^ 31 ∧
  (if tv_gt now t then (now, i32 (c / 1000))
   else let d := timersub t now in (t, i32 (tv_sec d * 1000 + Z.quot (tv_usec d + c) 1000)))
  = (if tv_gt now t then now else t, band_delay now t c).
Proof.
  intros (Hn & Ht & _ & Hb & Hs) Hp c. pose proof (sending_le size b Hp Hs) as Hc. fold c in Hc.
  destruct (band_next_us now t c Hn Ht) as [_ E]; [lia|]. unfold band_delay. rewrite E.
  split; [dlia|]. rewrite (tv_gt_us now t Hn Ht). destruct (Z.ltb_spec (tv_us t) (tv_us now)).
  - f_equal. rewrite i32_small by dlia. f_equal. lia.
  - destruct (timersub_us t now Ht Hn) as [[D1 D2] D3]; [lia|]. cbv zeta. f_equal.
    rewrite Z.quot_div_nonneg by lia. unfold tv_us in D3 at 1.
    replace (Z.max (tv_us now) (tv_us t) + c - tv_us now) with (tv_sec (timersub t now) * 1000 * 1000 + (tv_usec (timersub t now) + c)) by lia.
    rewrite Z.div_add_l by lia. apply i32_small. dlia.
Qed.

(** The state after the bandwidth was charged. *)
Definition charged (now : timeval) (dir c : Z) (t : timeval) (s : wire) : wire :=
  set_band (<[Z.to_nat dir := band_next now t c]> (nextband s)) s.

Lemma wp_band_limit s now dir size bd b t (Q : option Z → wire → Prop) :
  fixed (chain s) BAND dir (d_of_Z b) → 0 < b < 2 ^ 32 → sides s → dir = 0 ∨ dir = 1 →
  zget (nextband s) dir = Some t → sendable now t size →
  let c := sending size b in Q (Some (band_delay now t c)) (charged now dir c t s) →
  wp (band_limit drand dlog fuel now dir size bd) Q s.
Proof.
  intros H Hb (_ & Hl & _) Hd Ht Hs c HQ. unfold band_limit. apply wp_bind.
  eapply wp_positive; [|done|]; [lia|]. cbv iota. apply wp_bind. eapply wp_compute; [done|].
  change dzero with (d_of_Z 0). rewrite dle_of_Z, (proj2 (Z.leb_gt b 0)), dlt_of_Z, (proj2 (Z.ltb_lt 0 b)) by lia.
  apply wp_bind, wp_commtime; [lia | apply Hs|]. fold c. apply wp_bind, wp_get, wp_bind.
  eapply wp_deref; [exact Ht|]. destruct (band_delay_eq now t size b Hs) as [_ E]; [lia|]. fold c in E. cbv zeta in E. rewrite E. cbv iota beta.
  apply wp_bind. eapply wp_deref; [by apply set_dir|]. by apply wp_bind, wp_modify, wp_ret.
Qed.

Lemma wp_on_queue {A} (m : M wfstate A) (Q : A → wire → Prop) s :
  wp m (λ a q, Q a (set_queue q s)) (queue s) → wp (on_queue m) Q s.
Proof. unfold wp, on_queue. by destruct (m (queue s)). Qed.

(** How a packet leaves [line_delay], with the packets [w] waiting: at once, or
    later at the time [e]. *)
Inductive leaves (now : timeval) (dir : Z) (buf : list Z) (size : Z) (w : list packpq) (s s' : wire) (e : Z) : Prop :=
| leaves_now : e = tv_ms now → s' = add_out (dir, take (Z.to_nat size) buf) s → leaves now dir buf size w s s' e
| leaves_later p : pq_rep (queue s') (p :: w) → pdir p = dir → pbuf p = take (Z.to_nat size) buf →
    psize p = size → when p = e → s' = set_queue (queue s') s →
    maxwhen (queue s') = Z.max (maxwhen (queue s)) e → leaves now dir buf size w s s' e.

(** The time of delivery: in fifo mode not before that of an earlier packet. *)
Lemma schedule_when now d q : 0 ≤ now + d < 2 ^ 64 →
  (schedule now d q).1 = (if nofifo q =? 0 then Z.max (maxwhen q) (now + d) else now + d) ∧
  maxwhen (schedule now d q).2 = Z.max (maxwhen q) (now + d).
Proof.
  intros H. unfold schedule. rewrite u64_small by done.
  destruct (Z.ltb_spec (maxwhen q) (now + d)); cbn [nofifo maxwhen set_clock];
    destruct (nofifo q =? 0); cbn [andb]; try (split; simpl; lia).
  - rewrite (proj2 (Z.leb_le (now + d) (now + d))) by lia. split; simpl; lia.
  - destruct (Z.leb_spec (now + d) (maxwhen q)); split; simpl; lia.
Qed.

(** The waiting packets are determined, and so is the time at which a packet
    leaves. *)
Lemma pq_rep_unique q l l' : pq_rep q l → pq_rep q l' → l ≡ₚ l'.
Proof.
  intros [[N A] _ _ _] [[N' A'] _ _ _]. destruct (pqh q) as [a|] eqn:Eq; [|by destruct A as [-> _], A' as [-> _]].
  destruct A as (_ & L & [j Hj] & _ & P), A' as (_ & L' & [j' Hj'] & _ & P'). rewrite <- P, <- P'.
  assert (length L = length L') as Hlen by (apply Permutation_length in P, P'; lia).
  assert ((Some <$> sentinel :: L) ++ j = (Some <$> sentinel :: L') ++ j') as E by congruence.
  apply app_inj_1 in E as [E _]; [|by rewrite !length_fmap; simpl; f_equal].
  apply (inj (fmap Some)) in E. by injection E as ->.
Qed.

Lemma leaves_unique now dir buf size w w' s s' e e' : pq_rep (queue s) w → w ≡ₚ w' →
  leaves now dir buf size w s s' e → leaves now dir buf size w' s s' e' → e = e'.
Proof.
  intros Hw P [-> E1|p Hp _ _ _ <- _ _] [-> E2|p' Hp' _ _ _ <- _ _]; [done|..].
  - rewrite E1 in Hp'. simpl in Hp'. pose proof (Permutation_length (pq_rep_unique _ _ _ Hw Hp')) as Hl.
    rewrite P in Hl. simpl in Hl. lia.
  - rewrite E2 in Hp. simpl in Hp. pose proof (Permutation_length (pq_rep_unique _ _ _ Hw Hp)) as Hl. simpl in Hl. lia.
  - pose proof (pq_rep_unique _ _ _ Hp Hp') as Hpp. rewrite <- P in Hpp.
    apply (Permutation_app_inv_r w [p] [p']), Permutation_singleton_inj in Hpp. by simplify_eq.
Qed.

(** A packet that must wait [bd] milliseconds on a line without other delays. *)
Lemma wp_line_delay s now dir buf size bd l w :
  quiet (chain s) dir l → DELAY ∉ l → NOISE ∉ l → dir = 0 ∨ dir = 1 → 0 ≤ bd < 2 ^ 31 →
  0 ≤ tv_ms now < 2 ^ 62 → pq_rep (queue s) w → room (queue s) →
  wp (line_delay drand dlog fuel now dir buf size bd) (λ _ s', ∃ e, leaves now dir buf size w s s' e ∧
    (e = tv_ms now + bd ∨ (bd ≠ 0 ∧ nofifo (queue s) = 0 ∧ e = Z.max (maxwhen (queue s)) (tv_ms now + bd)))) s.
Proof.
  intros H H1 H2 Hd Hb Hn Hw Hr. unfold line_delay. apply wp_whenM; intros E; [|apply Z.leb_gt in E; lia].
  apply wp_bind, wp_unlimited; [apply H; [done | done]|]. rewrite orb_false_r.
  destruct (Z.ltb_spec 0 bd) as [Hp|Hp]; cbv iota.
  - apply wp_bind. eapply wp_compute; [apply H; [done | done]|].
    change (dle dzero dzero) with true. cbv iota zeta. rewrite dadd_zero_l by lia.
    change dzero with (d_of_Z 0). rewrite dlt_of_Z, (proj2 (Z.ltb_lt 0 bd)) by lia.
    apply wp_bind. eapply wp_deref; [apply d_int_of_Z; lia|]. apply wp_on_queue.
    eapply wp_mono; [by apply wp_packet_enqueue|]. intros [] q (Hq & Hm & _ & _ & _).
    destruct (schedule_when (tv_ms now) bd (queue s)) as [E1 E2]; [lia|].
    change ((schedule (tv_ms now) bd (queue s)).1) with (when (delayed (tv_ms now) dir buf size bd (queue s))) in E1.
    exists (when (delayed (tv_ms now) dir buf size bd (queue s))). split.
    + eapply leaves_later; [exact Hq | done..|]. cbn [queue set_queue]. rewrite Hm, E2, E1.
      destruct (nofifo (queue s) =? 0); lia.
    + rewrite E1. destruct (Z.eqb_spec (nofifo (queue s)) 0) as [E0|E0]; [right; split; [lia | done] | by left].
  - apply (wp_writepacket s dir buf size l); [done | done|]. exists (tv_ms now). split; [by apply leaves_now | left; lia].
Qed.

(** A line of [b] bytes per second and no other parameter in the direction
    [dir], used in this direction only; the channel is free at [t] and the
    packets [l] wait. *)
Record band_line (b dir : Z) (t : timeval) (l : list packpq) (s : wire) : Prop := BandLine {
  bl_rate : 0 < b < 2 ^ 32;
  bl_dir : dir = 0 ∨ dir = 1;
  bl_quiet : quiet (chain s) dir [BAND];
  bl_fixed : fixed (chain s) BAND dir (d_of_Z b);
  bl_sides : sides s;
  bl_next : zget (nextband s) dir = Some t ∧ tv_ok t;
  bl_queue : pq_rep (queue s) l;
  bl_only : Forall (λ p, pdir p = dir) l;
  bl_max : 1000 * maxwhen (queue s) ≤ tv_us t
}.

Lemma quiet_charged now dir c t s : chain (charged now dir c t (passed dir s)) = chain s.
Proof. done. Qed.

(** One packet: it leaves when the channel has sent it, up to two milliseconds. *)
Lemma wp_handle_band b dir t l s now buf size : band_line b dir t l s → room (queue s) → sendable now t size →
  wp (handle_packet drand dlog fuel now dir buf size) (λ _ s', ∃ e t' l',
    leaves now dir buf size l (charged now dir (sending size b) t (passed dir s)) s' e ∧ band_line b dir t' l' s' ∧
    tv_us t + sending size b ≤ tv_us t' ∧ 1000 * e ≤ tv_us t' < 1000 * e + 2000) s.
Proof.
  intros [Hb Hd Hq Hf Hs [Ht Htok] Hw Ho Hm] Hr Hsend. pose proof Hsend as (Hn & _ & Hn2 & _ & Hsz).
  set (c := sending size b). set (s1 := charged now dir c t (passed dir s)).
  assert (0 ≤ c) as Hc by (by apply sending_le; lia).
  destruct (band_next_us now t c Hn Htok Hc) as [Hok' Hus']. destruct (band_delay_eq now t size b Hsend) as [Hbd _]; [lia|]. fold c in Hbd.
  assert (tv_ms now = tv_us now / 1000) as Ems by (by apply tv_ms_us).
  assert (0 ≤ tv_us now) as Hn0 by (destruct Hn; unfold tv_us; lia).
  apply (wp_entry s now dir buf size [BAND]); [done | not_in.. | done | done|].
  simpl send_copies. apply wp_bind. unfold send_copy. apply wp_bind, wp_bind, wp_unlimited; [apply Hq; [done | not_in]|].
  apply wp_ret, wp_bind, wp_bind, wp_unlimited; [apply Hq; [done | not_in]|].
  apply wp_ret, wp_bind. eapply (wp_band_limit _ now dir size 0 b t); [done | done | by apply sides_passed | done | done | done|].
  fold c. apply wp_bind. eapply wp_mono; [eapply (wp_line_delay s1 now dir buf size _ [BAND] l);
    [done | not_in | not_in | done | done | rewrite Ems; split; [apply Z.div_pos; lia | dlia] | done | done]|].
  intros [] s' (e & Hl & He). apply wp_ret, wp_ret. exists e, (band_next now t c).
  assert (1000 * e ≤ tv_us (band_next now t c) < 1000 * e + 2000) as Hbound.
  { unfold band_delay in He. cbn [queue s1 charged passed set_band set_loss] in He.
    destruct He as [->|(_ & _ & ->)]; rewrite ?Ems; dlia. }
  assert (zget (nextband s1) dir = Some (band_next now t c)) as Hnext.
  { destruct Hs as (_ & Hl2 & _). apply zget_Some. split; [lia|]. simpl. apply list_lookup_insert_eq. lia. }
  assert (sides s1) as Hs1.
  { destruct Hs as (? & ? & ?). split_and!; simpl; rewrite ?length_insert; done. }
  destruct Hl as [-> ->|p Hp Hpd Hpb Hps <- E Hmax].
  - exists l. split_and!; [by apply leaves_now | | lia | lia | lia]. split; try done. simpl. lia.
  - exists (p :: l). split_and!; [by eapply leaves_later | | lia | lia | lia]. rewrite E in *.
    split; try done; [by constructor|]. rewrite Hmax. cbn [queue s1 charged passed set_band set_loss]. lia.
Qed.

(** Writing packets of a direction without noise. *)
Lemma wp_write_all l : ∀ s, (∀ p, p ∈ l → fixed (chain s) NOISE (pdir p) dzero) →
  wp (forM l (λ p, writepacket drand dlog fuel (pdir p) (pbuf p) (psize p)))
    (λ _ s', ∃ o, s' = Wire (chain s) (loss_status s) (nextband s) (nextspeed s) (queue s) o (rpos s) (terms s) ∧
      o = outs s ++ ((λ p, (pdir p, take (Z.to_nat (psize p)) (pbuf p))) <$> l)) s.
Proof.
  induction l as [|p l IH]; intros s H; simpl.
  - apply wp_ret. exists (outs s). rewrite app_nil_r. by destruct s.
  - apply wp_bind. apply wp_bind. eapply wp_unlimited; [apply H; left|]. apply wp_modify.
    eapply wp_mono; [apply IH; intros q Hq; by apply H; right|]. intros [] s' (o & -> & ->). simpl. eexists. split; [done|].
    by rewrite <- app_assoc.
Qed.

Lemma wp_dequeue s now l : pq_rep (queue s) l → (∀ p, p ∈ l → fixed (chain s) NOISE (pdir p) dzero) →
  wp (dequeue drand dlog fuel now) (λ _ s', ∃ due rest q, l ≡ₚ due ++ rest ∧ StronglySorted earlier due ∧
    Forall (λ p, when p ≤ tv_ms now) due ∧ Forall (λ p, tv_ms now < when p) rest ∧
    pq_rep q rest ∧ maxwhen q = maxwhen (queue s) ∧ nofifo q = nofifo (queue s) ∧
    s' = Wire (chain s) (loss_status s) (nextband s) (nextspeed s) q
           (outs s ++ ((λ p, (pdir p, take (Z.to_nat (psize p)) (pbuf p))) <$> due)) (rpos s) (terms s)) s.
Proof.
  intros Hq Hn. apply wp_bind, wp_get, wp_bind, wp_on_queue. eapply wp_mono; [by apply wp_packet_dequeue|].
  intros [] q (due & rest & P & Hs & Hd & Hr & _ & Hw & H' & E1 & _ & E3). apply wp_bind, wp_get.
  cbn [queue set_queue]. rewrite Hw, drop_app_length.
  eapply wp_mono; [apply wp_write_all; intros p Hp; apply Hn; rewrite P; by apply elem_of_app; left|].
  intros [] s' (o & -> & ->). by exists due, rest, q.
Qed.

Lemma wp_dequeue_band b dir t l s now : band_line b dir t l s →
  wp (dequeue drand dlog fuel now) (λ _ s', ∃ l', band_line b dir t l' s') s.
Proof.
  intros [Hb Hd Hq Hf Hs Ht Hw Ho Hm]. rewrite Forall_forall in Ho. eapply wp_mono.
  - apply (wp_dequeue s now l Hw). intros p Hp. rewrite (Ho p Hp). apply Hq; [done | not_in].
  - intros [] s' (due & rest & q & P & _ & _ & _ & Hr & E & _ & ->). exists rest. split; try done; [|by simpl; rewrite E].
    apply Forall_forall. intros p Hp. apply Ho. rewrite P. apply elem_of_app. by right.
Qed.

(** The packets that entered such a line, the last one first, with the times at
    which they leave it. *)
Inductive band_run (b dir : Z) : wire → list (Z * Z) → Prop :=
| band_start s : band_line b dir (Timeval 0 0) [] s → band_run b dir s []
| band_packet s tr t w now buf size s' e : band_run b dir s tr →
    zget (nextband s) dir = Some t → pq_rep (queue s) w → room (queue s) → sendable now t size →
    handle_packet drand dlog fuel now dir buf size s = Done () s' →
    leaves now dir buf size w (charged now dir (sending size b) t (passed dir s)) s' e →
    band_run b dir s' ((size, e) :: tr)
| band_delivery s tr now s' : band_run b dir s tr →
    dequeue drand dlog fuel now s = Done () s' → band_run b dir s' tr.

(** Packets that leave when the channel has sent them: the last one is sent at
    [nb]. *)
Inductive paced (b : Z) : Z → list (Z * Z) → Prop :=
| paced_nil nb : paced b nb []
| paced_cons nb nb' size e tr : paced b nb tr → 0 ≤ size → nb + sending size b ≤ nb' →
    1000 * e ≤ nb' < 1000 * e + 2000 → paced b nb' ((size, e) :: tr).

Lemma paced_stretch b size0 e0 rest : 0 < b → ∀ mid nb, paced b nb (mid ++ (size0, e0) :: rest) →
  1000000 * foldr (λ x acc, x.1 + acc) 0 mid ≤ b * (nb - 1000 * e0 + Z.of_nat (length mid)).
Proof.
  intros Hb. induction mid as [|[size e] mid IH]; simpl; intros nb H.
  - inversion H. subst. nia.
  - inversion H as [|nb1 ? ? ? ? H1 Hs Hn He]. subst. specialize (IH nb1 H1). destruct (sending_bounds size b Hb Hs). nia.
Qed.

Lemma band_run_inv b dir s tr : band_run b dir s tr → ∃ t l, band_line b dir t l s ∧ paced b (tv_us t) tr.
Proof.
  induction 1 as [s H|s tr t w now buf size s' e _ (t0 & l & Hl & Hp) Ht Hw Hr Hs E Hle|s tr now s' _ (t & l & Hl & Hp) E].
  - exists (Timeval 0 0), []. split; [done | constructor].
  - pose proof (bl_next _ _ _ _ _ Hl) as [Ht0 _]. rewrite Ht in Ht0. injection Ht0 as <-.
    destruct (wp_Done _ _ _ _ _ (wp_handle_band b dir t l s now buf size Hl Hr Hs) E) as (e' & t' & l' & Hle' & Hl' & H1 & H2).
    pose proof (bl_queue _ _ _ _ _ Hl) as Hq.
    assert (e = e') as -> by (eapply (leaves_unique _ _ _ _ w l (charged now dir (sending size b) t (passed dir s))); [exact Hw | by eapply pq_rep_unique | exact Hle | exact Hle']).
    exists t', l'. split; [done|]. econstructor; [exact Hp | apply Hs | lia | lia].
  - destruct (wp_Done _ _ _ _ _ (wp_dequeue_band b dir t l s now Hl) E) as (l' & Hl'). by exists t, l'.
Qed.


End fixed.
