(* ===== verification/WireInv.v ===== *)
(** * WireInv: what never changes on the line of [wirefilter.c]

    Whatever parameters are set, the Markov chain stays well formed: its current
    node exists, and the weights that leave a node add up to 100 in the order in
    which the code adds them.  The bytes that wait in a channel never exceed its
    size. *)
From Stdlib Require Import Lia Sorted String Ascii Floats.SpecFloat.
From stdpp Require Import base numbers list gmap.
From S2P Require Import Prelude Scan Doubles WireFilter WireLine WireFacts.

(** ** Relations kept by a computation *)

(** [m] relates every state to the state in which it ends. *)
Definition stays {S A} (R : S → S → Prop) (m : M S A) : Prop := ∀ s a s', m s = Done a s' → R s s'.

Section stays.
Context {S : Type} (R : S → S → Prop) `{!PreOrder R}.

Lemma stay_bind {A B} (m : M S A) (k : A → M S B) : stays R m → (∀ a, stays R (k a)) → stays R (m ≫= k).
Proof.
  intros Hm Hk s b s'. unfold mbind, M_bind. destruct (m s) as [a s1| |] eqn:E; [|done..].
  intros E'. etrans; [by eapply Hm | by eapply Hk].
Qed.

Lemma stay_ret {A} (a : A) : stays R (mret a : M S A).
Proof. intros s b s' [= _ <-]. reflexivity. Qed.
Lemma stay_get : stays R (get : M S S).
Proof. intros s b s' [= _ <-]. reflexivity. Qed.
Lemma stay_gets {A} (f : S → A) : stays R (gets f).
Proof. intros s b s' [= _ <-]. reflexivity. Qed.
Lemma stay_fault {A} : stays R (fault : M S A).
Proof. by intros s b s'. Qed.
Lemma stay_deref {A} (o : option A) : stays R (deref o : M S A).
Proof. destruct o; [apply stay_ret | apply stay_fault]. Qed.
Lemma stay_modify (f : S → S) : (∀ s, R s (f s)) → stays R (modify f).
Proof. by intros H s [] s' [= <-]. Qed.
Lemma stay_if {A} (b : bool) (m1 m2 : M S A) : stays R m1 → stays R m2 → stays R (if b then m1 else m2).
Proof. by destruct b. Qed.
Lemma stay_whenM (b : bool) (m : M S ()) : stays R m → stays R (whenM b m).
Proof. intros H. destruct b; [done | apply stay_ret]. Qed.
Lemma stay_forM {A} (l : list A) (body : A → M S ()) : (∀ x, stays R (body x)) → stays R (forM l body).
Proof. intros H. induction l as [|x l IH]; [apply stay_ret | by apply stay_bind]. Qed.
End stays.

Create HintDb stays.

(** A relation that the numbers drawn, the state of the losses and the times of
    the limits have no part in. *)
Class LineRel (R : wire → wire → Prop) : Prop := {
  lr_preorder :: PreOrder R;
  lr_rpos s n : R s (set_rpos n s);
  lr_loss s l : R s (set_loss l s);
  lr_band s l : R s (set_band l s);
  lr_speed s l : R s (set_speed l s)
}.

(** Taking a computation apart; a [get] may be used in a later [modify]. *)
Ltac stay_step :=
  first [ progress intros | done | apply _ | solve [eauto 2 with stays] | solve [apply stay_modify; intros; first [done | apply lr_rpos | apply lr_loss | apply lr_band | apply lr_speed]] | apply stay_bind | apply stay_ret | apply stay_get | apply stay_gets
        | apply stay_fault | apply stay_deref | apply stay_if | apply stay_whenM | apply stay_forM
        | progress (cbv zeta; match goal with |- context [match ?x with _ => _ end] => destruct x end) ].
Ltac stay_auto := repeat stay_step.

(** ** The packet path changes neither the chain nor, but for one call, the queue *)

Definition same_line (s s' : wire) : Prop := chain s' = chain s ∧ queue s' = queue s.
#[export] Instance same_line_rel : LineRel same_line.
Proof. split; try done. split; [done|]. intros s1 s2 s3 [] []. split; congruence. Qed.

(** The same, and nothing was written. *)
Definition same_out (s s' : wire) : Prop := same_line s s' ∧ outs s' = outs s.
#[export] Instance same_out_rel : LineRel same_out.
Proof.
  split; try done. split; [done|]. intros s1 s2 s3 [[] ?] [[] ?]. split; [split|]; congruence.
Qed.

Section inv.
Context (drand : nat → double) (dlog : double → double) (fuel : nat).

Section rel.
Context (R : wire → wire → Prop) `{!LineRel R}.

Lemma draw_stays : stays R (drand48 drand).
Proof. stay_auto. Qed.
Hint Resolve draw_stays : stays.

Lemma wfval_stays n tag dir : stays R (wfval n tag dir).
Proof. stay_auto. Qed.
Hint Resolve wfval_stays : stays.

Lemma limited_stays tag dir : stays R (limited tag dir).
Proof. stay_auto. Qed.
Lemma min_stays n tag dir : stays R (min_wirevalue n tag dir).
Proof. stay_auto. Qed.
Hint Resolve limited_stays min_stays : stays.

Lemma gauss_stays f : stays R (gauss_loop drand f).
Proof. induction f as [|f IH]; simpl; stay_auto. Qed.
Lemma count_stays below f n : stays R (count_draws drand below f n).
Proof. revert n. induction f as [|f IH]; simpl; stay_auto. Qed.
Hint Resolve gauss_stays count_stays : stays.

Lemma compute_stays tag dir : stays R (compute_wirevalue drand dlog fuel tag dir).
Proof. stay_auto. Qed.
Hint Resolve compute_stays : stays.

Lemma flip_stays n size buf : stays R (flip_bits drand n size buf).
Proof. revert buf. induction n as [|n IH]; simpl; stay_auto. Qed.
Hint Resolve flip_stays : stays.

Lemma lost_stays dir : stays R (lost drand dlog fuel dir).
Proof. unfold lost, percent, put_loss. stay_auto. Qed.
Lemma copies_stays dir : stays R (copies drand dlog fuel dir).
Proof. unfold copies, percent. stay_auto. Qed.
Lemma speed_stays now dir size : stays R (speed_limit drand dlog fuel now dir size).
Proof. unfold speed_limit, commtime. stay_auto. Qed.
Lemma band_stays now dir size bd : stays R (band_limit drand dlog fuel now dir size bd).
Proof. unfold band_limit, commtime. stay_auto. Qed.
Lemma full_stays dir size : stays R (channel_full drand dlog fuel dir size).
Proof. unfold channel_full. stay_auto. Qed.
Lemma large_stays dir size : stays R (too_large dir size).
Proof. unfold too_large. stay_auto. Qed.
Lemma write_rel dir buf size : (∀ s o, R s (add_out o s)) → stays R (writepacket drand dlog fuel dir buf size).
Proof. intros Ho. unfold writepacket, outpacket. stay_auto; by apply stay_modify. Qed.

End rel.

Lemma write_stays dir buf size : stays same_line (writepacket drand dlog fuel dir buf size).
Proof. apply (write_rel same_line). by split. Qed.

(** ** The size of a channel *)

Lemma bind_Done {S A B} (m : M S A) (k : A → M S B) s b s' :
  (m ≫= k) s = Done b s' → ∃ a s1, m s = Done a s1 ∧ k a s1 = Done b s'.
Proof. unfold mbind, M_bind. destruct (m s) as [a s1| |]; [|done..]. eauto. Qed.

Lemma pq_store_out s a k p : pqh s = Some a → Z.of_nat (length a) ≤ k → pq_store k p s = Fault.
Proof.
  intros Ha Hk. unfold pq_store, mbind, M_bind. simpl. rewrite Ha. simpl. unfold zset.
  destruct (Z.leb_spec (Z.of_nat (length a)) k); [by rewrite orb_true_r | lia].
Qed.

(** The climb cannot start at a cell outside the array. *)
Lemma sift_up_out fuel' s a k x u s' : pqh s = Some a → Z.of_nat (length a) ≤ k → sift_up fuel' x k s ≠ Done u s'.
Proof.
  intros Ha Hk E. destruct fuel' as [|f]; [done|]. simpl in E. apply bind_Done in E as (p & s1 & E1 & E).
  assert (s1 = s) as ->.
  { unfold pq_cell in E1. apply bind_Done in E1 as (? & ? & [= <- <-] & E1). rewrite Ha in E1.
    apply bind_Done in E1 as (? & ? & [= <- <-] & E1). apply bind_Done in E1 as (o & ? & E1 & E2).
    destruct (zget a (Z.shiftr k 1)); [|done]. injection E1 as <- <-. destruct o0; [|done]. by injection E2. }
  destruct (pq_lt x p); [apply bind_Done in E as (? & ? & E & _)|]; by rewrite (pq_store_out s a) in E.
Qed.

(** So a packet is queued only when there is a free cell. *)
Lemma enqueue_room q l now dir buf size d u q' :
  pq_rep q l → packet_enqueue true now dir buf size d q = Done u q' → room q.
Proof.
  intros Hq E. pose proof Hq as [[Hn Ha] _ Hc _]. unfold room. destruct (pqh q) as [a|] eqn:Ea; [right | by left].
  destruct Ha as (Hm & L & [j Hj] & _ & P). apply Permutation_length in P.
  assert (Z.of_nat (length l) + 1 ≤ maxpq q) as Hle.
  { rewrite Hm. rewrite Ea in Hj. injection Hj as ->. simpl. rewrite length_app, length_fmap. lia. }
  destruct (Z.lt_ge_cases (npq q + 1) (maxpq q)) as [|Hge]; [done|]. exfalso.
  destruct (schedule_clock now d q) as (_ & _ & _ & S1 & S2 & S3 & _); [lia | lia|].
  simpl in E. unfold packet_enqueue in E. apply bind_Done in E as (? & ? & [= <- <-] & E).
  destruct (schedule now d q) as [w q1] eqn:Es. cbn [fst snd] in *.
  apply bind_Done in E as (? & ? & [= <- <-] & E). apply bind_Done in E as ([] & q2 & E2 & E).
  assert (pqh q2 = Some a ∧ npq q2 = npq q ∧ maxpq q2 = maxpq q) as (F1 & F2 & F3).
  { unfold bufsize_add in E2. apply bind_Done in E2 as (? & ? & [= <- <-] & E2).
    apply bind_Done in E2 as (? & ? & E3 & E2). apply bind_Done in E2 as (? & ? & E4 & [= <-]).
    destruct (zget _ _); [injection E3 as <- <-|done]. destruct (zset _ _ _); [injection E4 as <- <-|done].
    simpl. split_and!; congruence. }
  apply bind_Done in E as ([] & q3 & E3 & E). assert (q3 = q2) as ->.
  { unfold grow_heap in E3. apply bind_Done in E3 as (? & ? & [= <- <-] & E3). rewrite F1 in E3.
    apply bind_Done in E3 as ([] & ? & [= <-] & E3). apply bind_Done in E3 as (? & ? & [= <- <-] & E3).
    rewrite F2, F3, (proj2 (Z.leb_gt _ _)) in E3 by lia. by injection E3. }
  apply bind_Done in E as (? & ? & [= <- <-] & E). apply bind_Done in E as ([] & ? & [= <-] & E).
  eapply (sift_up_out _ _ a) in E; [done | exact F1 | lia].
Qed.

(** The direction [dir] has a channel of [c] bytes, and the packets [l] wait. *)
Record capped (c dir : Z) (l : list packpq) (s : wire) : Prop := Capped {
  cp_size : 0 < c < 2 ^ 30;
  cp_fixed : fixed (chain s) CHANBUFSIZE dir (d_of_Z c);
  cp_queue : pq_rep (queue s) l;
  cp_sizes : Forall (λ p, 0 ≤ psize p) l;
  cp_bound : total dir l ≤ c
}.

Lemma capped_same c dir l s s' : same_line s s' → capped c dir l s → capped c dir l s'.
Proof. intros [E1 E2] [? ? ? ? ?]. split; by rewrite ?E1, ?E2. Qed.

Lemma total_nonneg d l : Forall (λ p, 0 ≤ psize p) l → 0 ≤ total d l.
Proof. induction 1 as [|p l Hp _ IH]; simpl; [lia|]. destruct (pdir p =? d); lia. Qed.

Lemma pq_rep_bufsize q l dir : pq_rep q l → dir = 0 ∨ dir = 1 → zget (delay_bufsize q) dir = Some (i32 (total dir l)).
Proof. intros [_ _ _ ->] [-> | ->]; done. Qed.

(** The test refuses a packet exactly when it does not fit. *)
Lemma wp_channel_full c dir l s size (Q : bool → wire → Prop) : capped c dir l s → dir = 0 ∨ dir = 1 → 0 ≤ size < 2 ^ 30 →
  Q (c <? total dir l + size) s → wp (channel_full drand dlog fuel dir size) Q s.
Proof.
  intros [Hc Hf Hq Hs Hb] Hd Hz HQ. pose proof (total_nonneg dir l Hs). apply wp_bind.
  eapply wp_positive; [|done|]; [lia|]. cbv iota. apply wp_bind. eapply wp_compute; [done|].
  apply wp_bind, wp_get, wp_bind. eapply wp_deref; [by apply pq_rep_bufsize|]. apply wp_ret.
  rewrite (i32_small (total dir l)), i32_small, dlt_of_Z by lia. done.
Qed.

(** [line_delay] queues at most this packet. *)
Lemma line_delay_queue now d buf size bd s u s' l : d = 0 ∨ d = 1 → pq_rep (queue s) l →
  line_delay drand dlog fuel now d buf size bd s = Done u s' →
  chain s' = chain s ∧ (queue s' = queue s ∨
    ∃ p, pq_rep (queue s') (p :: l) ∧ pdir p = d ∧ pbuf p = take (Z.to_nat size) buf ∧ psize p = size).
Proof.
  intros Hd Hq. unfold line_delay. destruct (0 <=? bd); simpl; [|by intros [= <- <-]; eauto].
  intros E. apply bind_Done in E as (lim & s1 & E1 & E). apply (limited_stays same_line) in E1 as [F1 F2].
  destruct ((0 <? bd) || lim); [|apply write_stays in E as [G1 G2]; split; [congruence | left; congruence]].
  apply bind_Done in E as (dv & s2 & E2 & E). apply (compute_stays same_line) in E2 as [G1 G2]. cbv zeta in E.
  destruct (dlt dzero _); [|apply write_stays in E as [H1 H2]; split; [congruence | left; congruence]].
  apply bind_Done in E as (z & s3 & E3 & E). destruct (d_int _) as [z'|]; [injection E3 as <- <-|done].
  unfold on_queue in E. destruct (packet_enqueue _ _ _ _ _ _ _) as [[] q'| |] eqn:Eq; [|done..]. injection E as <- <-.
  assert (queue s2 = queue s) as Eqs by congruence. rewrite Eqs in Eq.
  pose proof (enqueue_room _ _ _ _ _ _ _ _ _ Hq Eq) as Hr.
  destruct (wp_Done _ _ _ _ _ (wp_packet_enqueue _ l (tv_ms now) d buf size z' Hq Hr Hd) Eq) as (Hq' & _).
  split; [simpl; congruence|]. right. by exists (delayed (tv_ms now) d buf size z' (queue s)).
Qed.

Lemma send_copy_capped c dir l now d buf size s b s' : capped c dir l s → dir = 0 ∨ dir = 1 → d = 0 ∨ d = 1 → 0 ≤ size < 2 ^ 30 →
  send_copy drand dlog fuel now d buf size s = Done b s' → ∃ l', capped c dir l' s'.
Proof.
  intros H Hdir Hd Hz E. unfold send_copy in E. apply bind_Done in E as (full & s1 & E1 & E).
  pose proof (full_stays same_line _ _ _ _ _ E1) as F1. assert (d = dir → full = (c <? total dir l + size)) as Hfull.
  { intros ->. eapply (wp_Done _ (λ r _, r = _)); [|exact E1]. by eapply wp_channel_full. }
  destruct full; [injection E as <- <-; exists l; by eapply capped_same|].
  apply bind_Done in E as (o & s2 & E2 & E). apply (speed_stays same_line) in E2 as F2. assert (capped c dir l s2) as H2.
  { eapply capped_same; [exact F2|]. by eapply capped_same. }
  destruct o as [bd|]; [|injection E as <- <-; by exists l].
  apply bind_Done in E as (o & s3 & E3 & E). apply (band_stays same_line) in E3 as F3. assert (capped c dir l s3) as H3.
  { by eapply capped_same. }
  destruct o as [bd'|]; [|injection E as <- <-; by exists l].
  apply bind_Done in E as ([] & s4 & E4 & [= <- <-]).
  pose proof H3 as [Hc Hf Hq Hs Hb]. destruct (line_delay_queue _ _ _ _ _ _ _ _ l Hd Hq E4) as [G1 [G2|(p & Hp & P1 & _ & P3)]].
  - exists l. by eapply capped_same; [split|].
  - exists (p :: l). split; [done | by rewrite G1 | done | constructor; [lia | done]|]. simpl. rewrite P1, P3.
    destruct (Z.eqb_spec d dir) as [->|]; [|lia]. symmetry in Hfull. specialize (Hfull eq_refl). apply Z.ltb_ge in Hfull. lia.
Qed.

Lemma handle_capped c dir l now d buf size s u s' : capped c dir l s → dir = 0 ∨ dir = 1 → d = 0 ∨ d = 1 → 0 ≤ size < 2 ^ 30 →
  handle_packet drand dlog fuel now d buf size s = Done u s' → ∃ l', capped c dir l' s'.
Proof.
  intros H Hdir Hd Hz E. unfold handle_packet in E. apply bind_Done in E as (big & s1 & E1 & E).
  apply (large_stays same_line) in E1. apply (capped_same _ _ _ _ _ E1) in H. destruct big; [injection E as <- <-; by exists l|].
  apply bind_Done in E as (gone & s2 & E2 & E). apply (lost_stays same_line) in E2. apply (capped_same _ _ _ _ _ E2) in H.
  destruct gone; [injection E as <- <-; by exists l|].
  apply bind_Done in E as (times & s3 & E3 & E). apply (copies_stays same_line) in E3. apply (capped_same _ _ _ _ _ E3) in H.
  clear -H Hdir Hd Hz E. revert s3 l H E. induction (Z.to_nat times) as [|n IH]; simpl; intros s l H E.
  - injection E as <- <-. by exists l.
  - apply bind_Done in E as (go & s1 & E1 & E). destruct (send_copy_capped _ _ _ _ _ _ _ _ _ _ H Hdir Hd Hz E1) as [l1 H1].
    destruct go; simpl in E; [by eapply IH|]. injection E as <- <-. by exists l1.
Qed.

Lemma total_app d l l' : total d (l ++ l') = total d l + total d l'.
Proof. induction l; simpl; lia. Qed.

(** [dequeue] only takes packets out of the queue. *)
Lemma dequeue_queue now s u s' l : pq_rep (queue s) l → dequeue drand dlog fuel now s = Done u s' →
  chain s' = chain s ∧ ∃ due rest, l ≡ₚ due ++ rest ∧ pq_rep (queue s') rest.
Proof.
  intros Hq E. unfold dequeue in E. apply bind_Done in E as (? & ? & [= <- <-] & E). apply bind_Done in E as ([] & s1 & E1 & E).
  unfold on_queue in E1. destruct (packet_dequeue _ _) as [[] q| |] eqn:Eq; [|done..]. injection E1 as <-.
  destruct (wp_Done _ _ _ _ _ (wp_packet_dequeue _ _ l Hq) Eq) as (due & rest & P & _ & _ & _ & _ & _ & Hr & _).
  apply bind_Done in E as (? & ? & [= <- <-] & E).
  assert (stays same_line (forM (drop (length (written (queue s))) (written q)) (λ p, writepacket drand dlog fuel (pdir p) (pbuf p) (psize p))))
    as St by (apply stay_forM; [apply _ | intros; apply write_stays]).
  apply St in E as [F1 F2]. split; [done|]. exists due, rest. by rewrite F2.
Qed.

Lemma dequeue_capped c dir l now s u s' : capped c dir l s → dequeue drand dlog fuel now s = Done u s' → ∃ l', capped c dir l' s'.
Proof.
  intros [Hc Hf Hq Hs Hb] E. destruct (dequeue_queue now s u s' l Hq E) as (E1 & due & rest & P & Hr). exists rest.
  rewrite P in Hs. apply Forall_app in Hs as [Hs1 Hs2]. split; try done; [by rewrite E1|].
  pose proof (total_perm dir _ _ P) as Et. rewrite total_app in Et. pose proof (total_nonneg dir due Hs1). lia.
Qed.

(** A line whose direction [dir] has a channel of [c] bytes, used in both
    directions; its other parameters are arbitrary. *)
Inductive chan_run (c dir : Z) : wire → Prop :=
| chan_start s : capped c dir [] s → chan_run c dir s
| chan_packet s s' now d buf size : chan_run c dir s → d = 0 ∨ d = 1 → 0 ≤ size < 2 ^ 30 →
    handle_packet drand dlog fuel now d buf size s = Done () s' → chan_run c dir s'
| chan_delivery s s' now : chan_run c dir s → dequeue drand dlog fuel now s = Done () s' → chan_run c dir s'.

(** C21: Whatever the losses, copies, delays and noise, the bytes of the packets that
    wait in a direction are exactly the counter [delay_bufsize], and never more
    than the size of the channel. *)
Theorem channel_buffer_bounded c dir s :
  chan_run c dir s → dir = 0 ∨ dir = 1 →
  ∃ l, pq_rep (queue s) l ∧ zget (delay_bufsize (queue s)) dir = Some (total dir l) ∧ 0 ≤ total dir l ≤ c.
Proof.
  intros R Hdir. assert (∃ l, capped c dir l s) as [l [Hc Hf Hq Hs Hb]].
  { induction R as [s H|s s' now d buf size _ [l IH] Hd Hz E|s s' now _ [l IH] E].
    - by exists [].
    - exact (handle_capped _ _ _ _ _ _ _ _ _ _ IH Hdir Hd Hz E).
    - exact (dequeue_capped _ _ _ _ _ _ _ IH E). }
  pose proof (total_nonneg dir l Hs). exists l. split_and!; [done | | done | done].
  rewrite (pq_rep_bufsize _ l) by done. by rewrite i32_small by lia.
Qed.

End inv.

(** ** The weights of the Markov chain *)

(** A square map of weights, as a function. *)
Definition wt (m : list double) (n i j : Z) : double := default dzero (adj_get m n i j).
Definition square (m : list double) (n : Z) : Prop := Z.of_nat (length m) = n * n.

(** 100 minus the other weights of the row [i], in the order of the code. *)
Definition rest_of (f : Z → double) (n i : Z) (js : list Z) : double := foldl (λ acc j, dsub acc (f (ROT n i j))) d100 js.
Definition row_ok (m : list double) (n i : Z) : Prop := wt m n i i = rest_of (wt m n i) n i (seqZ 1 (n - 1)).

Lemma cell_range n i j : 0 ≤ i < n → 0 ≤ j < n → 0 ≤ i * n + j < n * n.
Proof. nia. Qed.

Lemma cell_inj n i j i' j' : 0 ≤ j < n → 0 ≤ j' < n → i * n + j = i' * n + j' → i = i' ∧ j = j'.
Proof. intros. assert (i = i') by nia. subst. lia. Qed.

Lemma ROT_spec n i j : 0 ≤ i < n → 1 ≤ j < n → 0 ≤ ROT n i j < n ∧ ROT n i j ≠ i.
Proof.
  intros. unfold ROT. rewrite Z.rem_mod_nonneg by lia. destruct (Z.lt_ge_cases (i + j) n).
  - rewrite Z.mod_small; lia.
  - rewrite <- (Z.mod_unique (i + j) n 1 (i + j - n)); lia.
Qed.

Lemma ROT_range n i j : 0 ≤ i → 0 ≤ j → 0 < n → 0 ≤ ROT n i j < n.
Proof. intros. unfold ROT. apply Z.rem_bound_pos; lia. Qed.

Lemma adj_get_wt m n i j : square m n → 0 ≤ i < n → 0 ≤ j < n → adj_get m n i j = Some (wt m n i j).
Proof.
  intros Hm Hi Hj. unfold wt, adj_get. destruct (zget_is_Some m (i * n + j)) as [w ->]; [|done].
  rewrite Hm. by apply cell_range.
Qed.

Lemma adj_set_wt m n i j w : square m n → 0 ≤ i < n → 0 ≤ j < n →
  ∃ m', adj_set m n i j w = Some m' ∧ square m' n ∧ wt m' n i j = w ∧
    ∀ i' j', 0 ≤ j' < n → (i', j') ≠ (i, j) → wt m' n i' j' = wt m n i' j'.
Proof.
  intros Hm Hi Hj. pose proof (cell_range n i j Hi Hj) as Hc. unfold adj_set.
  assert (zset m (i * n + j) w = Some (<[Z.to_nat (i * n + j) := w]> m)) as E by (apply zset_is_Some; by rewrite Hm).
  eexists. split; [exact E|]. split_and!.
  - unfold square. by rewrite length_insert.
  - unfold wt, adj_get. rewrite (zget_zset _ _ _ _ _ E). by case_decide.
  - intros i' j' Hj' Hne. unfold wt, adj_get. rewrite (zget_zset _ _ _ _ _ E). case_decide as Hd; [|done].
    destruct (cell_inj n i j i' j') as [-> ->]; done.
Qed.

Lemma adj_take_wt m n i w : square m n → 0 ≤ i < n →
  ∃ m', adj_take m n i w = Some m' ∧ square m' n ∧ wt m' n i i = dsub (wt m n i i) w ∧
    ∀ i' j', 0 ≤ j' < n → (i', j') ≠ (i, i) → wt m' n i' j' = wt m n i' j'.
Proof. intros Hm Hi. unfold adj_take. rewrite adj_get_wt by done. simpl. by apply adj_set_wt. Qed.

Lemma rest_ext (f g : Z → double) n i js acc : (∀ j, j ∈ js → f (ROT n i j) = g (ROT n i j)) →
  foldl (λ acc j, dsub acc (f (ROT n i j))) acc js = foldl (λ acc j, dsub acc (g (ROT n i j))) acc js.
Proof.
  revert acc. induction js as [|j js IH]; intros acc H; [done|]. simpl. rewrite H by left.
  apply IH. intros j' Hj'. apply H. by right.
Qed.

(** The loop of [markov_compute] from an arbitrary start. *)
Lemma take_loop n i m : square m n → 0 ≤ i < n → ∀ js, (∀ j, j ∈ js → 1 ≤ j < n) →
  ∃ m', fold_opt (λ m j, w ← adj_get m n i (ROT n i j); adj_take m n i w) js m = Some m' ∧ square m' n ∧
    wt m' n i i = foldl (λ acc j, dsub acc (wt m n i (ROT n i j))) (wt m n i i) js ∧
    ∀ i' j', 0 ≤ j' < n → (i', j') ≠ (i, i) → wt m' n i' j' = wt m n i' j'.
Proof.
  intros Hm Hi js. revert m Hm. induction js as [|j js IH]; intros m Hm Hjs; [by exists m|].
  destruct (ROT_spec n i j Hi) as [Hr1 Hr2]; [apply Hjs; left|]. cbn [fold_opt foldl].
  rewrite adj_get_wt by done. simpl. destruct (adj_take_wt m n i (wt m n i (ROT n i j)) Hm Hi) as (m1 & -> & Hm1 & E1 & O1).
  destruct (IH m1 Hm1) as (m2 & -> & Hm2 & E2 & O2); [intros j' Hj'; apply Hjs; by right|].
  exists m2. split_and!; [done | done | | intros i' j' H H'; by rewrite O2, O1].
  rewrite E2, E1. apply rest_ext. intros j' Hj'.
  destruct (ROT_spec n i j' Hi) as [? ?]; [apply Hjs; by right|]. apply O1; [done | congruence].
Qed.

(** [markov_compute] makes the weights of the row [i] add up, and changes only
    the weight of staying. *)
Lemma markov_compute_row m n i : square m n → 0 ≤ i < n →
  ∃ m', markov_compute n i m = Some m' ∧ square m' n ∧ row_ok m' n i ∧
    ∀ i' j', 0 ≤ j' < n → (i', j') ≠ (i, i) → wt m' n i' j' = wt m n i' j'.
Proof.
  intros Hm Hi. unfold markov_compute. destruct (adj_set_wt m n i i d100 Hm Hi Hi) as (m1 & -> & Hm1 & E1 & O1). simpl.
  destruct (take_loop n i m1 Hm1 Hi (seqZ 1 (n - 1))) as (m2 & -> & Hm2 & E2 & O2); [intros j; rewrite elem_of_seqZ; lia|].
  exists m2. split_and!; [done | done | | intros i' j' H H'; by rewrite O2, O1].
  unfold row_ok. rewrite E2, E1. unfold rest_of. apply rest_ext. intros j Hj. apply elem_of_seqZ in Hj.
  destruct (ROT_spec n i j Hi) as [? ?]; [lia|]. symmetry. apply O2; [done | congruence].
Qed.

(** *** Changing the number of nodes *)

(** The weight that an edge has after the copy of a map of [n] nodes. *)
Definition kept (old : list double) (n i k : Z) : double := if (i <? n) && (k <? n) then wt old n i k else dzero.

Section copy.
Context (old : list double) (n N : Z).
Hypothesis Hold : square old n.

Lemma copy_edge_wt i m j : square m N → 0 ≤ i < N → 1 ≤ j < N →
  (kept old n i (ROT N i j) = dzero → wt m N i (ROT N i j) = dzero) →
  ∃ m', copy_edge old n N i m j = Some m' ∧ square m' N ∧ wt m' N i (ROT N i j) = kept old n i (ROT N i j) ∧
    wt m' N i i = dsub (wt m N i i) (kept old n i (ROT N i j)) ∧
    ∀ i' j', 0 ≤ j' < N → (i', j') ≠ (i, i) → (i', j') ≠ (i, ROT N i j) → wt m' N i' j' = wt m N i' j'.
Proof.
  intros Hm Hi Hj Hz. destruct (ROT_spec N i j Hi Hj) as [Hr1 Hr2].
  unfold copy_edge, kept in *. cbv zeta. fold (ROT N i j).
  destruct (Z.ltb_spec i n) as [Hin|], (Z.ltb_spec (ROT N i j) n) as [Hrn|]; cbn [andb] in *;
    try (exists m; rewrite dsub_zero; split_and!; by auto).
  rewrite adj_get_wt by (done || lia). simpl.
  destruct (adj_set_wt m N i (ROT N i j) (wt old n i (ROT N i j)) Hm Hi Hr1) as (m1 & -> & Hm1 & E1 & O1). simpl.
  destruct (adj_take_wt m1 N i (wt old n i (ROT N i j)) Hm1 Hi) as (m2 & -> & Hm2 & E2 & O2).
  exists m2. split_and!; [done | done | | |].
  - rewrite O2; [done | done | congruence].
  - rewrite E2, O1; [done | done | congruence].
  - intros i' j' Hj' N1 N2. by rewrite O2, O1.
Qed.

(** The other weights of a row are those of the old map, or zero. *)
Definition copied (m : list double) (i : Z) (js : list Z) : Prop :=
  ∀ j, j ∈ js → wt m N i (ROT N i j) = kept old n i (ROT N i j).

Lemma copy_row i : 0 ≤ i < N → ∀ js m, square m N → (∀ j, j ∈ js → 1 ≤ j < N) →
  (∀ k, 0 ≤ k < N → k ≠ i → kept old n i k = dzero → wt m N i k = dzero) →
  ∃ m', fold_opt (copy_edge old n N i) js m = Some m' ∧ square m' N ∧ copied m' i js ∧
    wt m' N i i = foldl (λ acc j, dsub acc (kept old n i (ROT N i j))) (wt m N i i) js ∧
    (∀ k, 0 ≤ k < N → k ≠ i → wt m N i k = kept old n i k → wt m' N i k = kept old n i k) ∧
    (∀ i' j', 0 ≤ j' < N → i' ≠ i → wt m' N i' j' = wt m N i' j').
Proof.
  intros Hi. induction js as [|j js IH]; intros m Hm Hjs Hz; [exists m; split_and!; try done; by intros j Hj%not_elem_of_nil|].
  assert (1 ≤ j < N) as Hj by (apply Hjs; left). destruct (ROT_spec N i j Hi Hj) as [Hr1 Hr2].
  destruct (copy_edge_wt i m j Hm Hi Hj) as (m1 & E & Hm1 & E1 & E2 & O1); [by apply Hz|].
  assert (∀ k, 0 ≤ k < N → k ≠ i → wt m N i k = kept old n i k ∨ k = ROT N i j → wt m1 N i k = kept old n i k) as Hk.
  { intros k H1 H2 H3. destruct (decide (k = ROT N i j)) as [->|]; [done|]. destruct H3; [|done]. rewrite O1; [done | done | congruence..]. }
  destruct (IH m1 Hm1) as (m2 & E' & Hm2 & C2 & D2 & K2 & O2).
  { intros j' Hj'. apply Hjs. by right. }
  { intros k H1 H2 H3. destruct (decide (k = ROT N i j)) as [->|]; [congruence|]. rewrite O1; [by apply Hz | done | congruence..]. }
  exists m2. cbn [fold_opt foldl]. rewrite E. split_and!; [done | done | | by rewrite D2, E2 | |].
  - intros j' [->|Hj']%elem_of_cons; [|by apply C2]. apply K2; [done | done | done].
  - intros k H1 H2 H3. apply K2; [done | done|]. apply Hk; [done | done | by left].
  - intros i' j' H1 H2. rewrite O2, O1; [done | done | congruence | congruence | done | done].
Qed.

Lemma ROT_onto i k : 0 ≤ i < N → 0 ≤ k < N → k ≠ i → ∃ j, 1 ≤ j < N ∧ ROT N i j = k.
Proof.
  intros Hi Hk Hne. exists (if k <? i then k - i + N else k - i). unfold ROT. destruct (Z.ltb_spec k i).
  - split; [lia|]. rewrite Z.rem_mod_nonneg by lia. symmetry. apply (Z.mod_unique _ _ 1); lia.
  - split; [lia|]. rewrite Z.rem_mod_nonneg, Z.mod_small; lia.
Qed.

(** A row of the new map: the edges between nodes that stay keep their weights,
    and the row adds up again. *)
Definition row_copied (m : list double) (i : Z) : Prop :=
  row_ok m N i ∧ ∀ k, 0 ≤ k < N → k ≠ i → wt m N i k = kept old n i k.

Lemma copy_rows : ∀ rows m, square m N → NoDup rows → (∀ i, i ∈ rows → 0 ≤ i < N) →
  (∀ i k, i ∈ rows → 0 ≤ k < N → wt m N i k = dzero) →
  ∃ m', fold_opt (λ m i, m ← adj_set m N i i d100; fold_opt (copy_edge old n N i) (seqZ 1 (N - 1)) m) rows m = Some m' ∧
    square m' N ∧ (∀ i, i ∈ rows → row_copied m' i) ∧ ∀ i k, i ∉ rows → 0 ≤ k < N → wt m' N i k = wt m N i k.
Proof.
  induction rows as [|i rows IH]; intros m Hm Hnd Hr Hz; [exists m; split_and!; try done; by intros i Hi%not_elem_of_nil|].
  apply NoDup_cons in Hnd as [Hni Hnd]. assert (0 ≤ i < N) as Hi by (apply Hr; left). cbn [fold_opt].
  destruct (adj_set_wt m N i i d100 Hm Hi Hi) as (m1 & -> & Hm1 & E1 & O1). simpl.
  destruct (copy_row i Hi (seqZ 1 (N - 1)) m1 Hm1) as (m2 & -> & Hm2 & C2 & D2 & _ & O2).
  { intros j. rewrite elem_of_seqZ. lia. }
  { intros k H1 H2 _. rewrite O1; [apply Hz; [left | done] | done | congruence]. }
  destruct (IH m2 Hm2 Hnd) as (m3 & -> & Hm3 & R3 & O3).
  { intros i' Hi'. apply Hr. by right. }
  { intros i' k Hi' Hk. assert (i' ≠ i) by congruence. rewrite O2, O1; [apply Hz; [by right | done] | done | congruence | done | done]. }
  exists m3. split_and!; [done | done | | ].
  - intros i' [->|Hi']%elem_of_cons; [|by apply R3].
    assert (∀ k, 0 ≤ k < N → k ≠ i → wt m3 N i k = kept old n i k) as Hrow.
    { intros k H1 H2. rewrite O3 by done. destruct (ROT_onto i k Hi H1 H2) as (j & Hj & <-). apply C2, elem_of_seqZ. lia. }
    split; [|done]. unfold row_ok. rewrite O3, D2, E1 by done. apply rest_ext. intros j Hj%elem_of_seqZ.
    destruct (ROT_spec N i j Hi) as [? ?]; [lia|]. symmetry. by apply Hrow.
  - intros i' k [Hi' Hi'']%not_elem_of_cons Hk. rewrite O3, O2, O1; [done | done | congruence | done..].
Qed.

Lemma copyadjmap_rows : 0 ≤ N →
  ∃ m, copyadjmap old n N (replicate (Z.to_nat (N * N)) dzero) = Some m ∧ square m N ∧ ∀ i, 0 ≤ i < N → row_copied m i.
Proof.
  intros HN. destruct (copy_rows (seqZ 0 N) (replicate (Z.to_nat (N * N)) dzero)) as (m & E & Hm & R & _).
  - unfold square. rewrite length_replicate. nia.
  - apply NoDup_seqZ.
  - intros i. rewrite elem_of_seqZ. lia.
  - intros i k Hi Hk. unfold wt, adj_get. destruct (zget _ _) as [w|] eqn:Ew; [|done].
    apply zget_Some in Ew as [_ Ew]. by apply lookup_replicate in Ew as [-> _].
  - exists m. split_and!; [exact E | done|]. intros i Hi. apply R, elem_of_seqZ. lia.
Qed.

End copy.
