(* ===== verification/WireConsole.v ===== *)
(** * WireConsole: the commands of [wirefilter.c]

    The parameters of the line and the Markov chain are set by commands, from
    the options, from a script or from the terminals connected to the management
    socket.  This file has every command, the dispatcher, the scripts and the
    table of the terminals.

    [files] are the contents of the files a script can be loaded from, [strerror]
    the messages of the C library; [depth] bounds the scripts that load scripts. *)
From Stdlib Require Import Lia String Ascii Floats.SpecFloat.
From stdpp Require Import base numbers list gmap.
From S2P Require Import Prelude Scan Doubles WireFilter WireLine.

Definition EINVAL : Z := 22.
Definition ENOSYS : Z := 38.
Definition ENOENT : Z := 2.
Definition KILO : Z := 2 ^ 10.
Definition GIGA : Z := 2 ^ 30.

(** ** Strings *)

Definition str_len (s : string) : Z := Z.of_nat (String.length s).

(** [s[n]]; what is in front of a string is none of the characters looked for. *)
Definition char_at (s : string) (n : Z) : Z :=
  if n <? 0 then 0 else match String.get (Z.to_nat n) s with Some c => ascii_z c | None => 0 end.

(** [s[n]=0] *)
Definition cut (s : string) (n : Z) : string := substring 0 (Z.to_nat n) s.

Definition is_blank (c : Z) : bool := (c =? 10) || (c =? 32) || (c =? 9).

(** [delnl(s)]: the blanks at the end, but not the first character. *)
Fixpoint delnl_loop (fuel : nat) (s : string) (len : Z) : string :=
  match fuel with
  | O => s
  | S fuel => if (0 <? len) && is_blank (char_at s len) then delnl_loop fuel (cut s len) (len - 1) else s
  end.
Definition delnl (s : string) : string := delnl_loop (String.length s) s (str_len s - 1).

Fixpoint skip_chars (p : Z → bool) (s : string) : string :=
  match s with
  | String c s' => if p (ascii_z c) then skip_chars p s' else s
  | EmptyString => s
  end.

Definition is_space (c : Z) : bool := (c =? 32) || (c =? 9).
Definition is_digit (c : Z) : bool := (48 <=? c) && (c <=? 57).

(** [while (strchr(set,*s)) s++]: the set of [strchr] has the end of the string
    in it, so a string of such characters only is left behind. *)
Fixpoint strchr_skip (p : Z → bool) (s : string) : option string :=
  match s with
  | String c s' => if p (ascii_z c) then strchr_skip p s' else Some s
  | EmptyString => None
  end.

(** ** Setting a parameter *)

Definition set_nodes (l : list markov_node) (c : markov) : markov :=
  Markov (markov_numnodes c) l (adjmap c) (markov_current c) (markov_time c) (markov_next c).

(** [WFADDR(node,tag)[dir] = v] *)
Definition put_value (node tag dir : Z) (v : wirevalue) : M wire () :=
  s ← get;
  nd ← deref (zget (markov_nodes (chain s)) node);
  row ← deref (zget (wfvals nd) tag);
  row ← deref (zset row dir v);
  vals ← deref (zset (wfvals nd) tag row);
  nodes ← deref (zset (markov_nodes (chain s)) node (MarkovNode (wfname nd) vals));
  modify (set_chain (set_nodes nodes (chain s))).

(** [while(s[n]!='[' && n>1) n--] *)
Fixpoint back_to_bracket (fuel : nat) (s : string) (n : Z) : Z :=
  match fuel with
  | O => n
  | S fuel => if negb (char_at s n =? 91) && (1 <? n) then back_to_bracket fuel s (n - 1) else n
  end.

(** The node in brackets at the end: the string without it, the place of its
    last character, and the node. *)
Definition node_suffix (s : string) (n : Z) : string * Z * Z :=
  if char_at s n =? 93 then
    let k := back_to_bracket (Z.to_nat n) s (n - 1) in
    let idstr := substring (Z.to_nat (k + 1)) (Z.to_nat (n - k - 1)) s in
    (cut s k, k - 1, match scan_d idstr with Some r => r.1 | None => 0 end)
  else (s, n, 0).

(** The letter of the distribution. *)
Definition algo_suffix (s : string) (n : Z) : Z * Z :=
  let c := char_at s n in
  if (c =? 117) || (c =? 85) then (ALGO_UNIFORM, n - 1)
  else if (c =? 110) || (c =? 78) then (ALGO_GAUSS_NORMAL, n - 1)
  else (ALGO_UNIFORM, n).

Definition multiplier (c : Z) : Z :=
  if (c =? 107) || (c =? 75) then KILO
  else if (c =? 109) || (c =? 77) then MEGA
  else if (c =? 103) || (c =? 71) then GIGA
  else 1.

(** The three formats: both directions, one or the other. *)
Definition parse_value (s : string) : option (list Z * double * double) :=
  match scan_lf_plus s with
  | Some (v, p) => Some ([LR; RL], v, p)
  | None =>
    match (r ← scan_lit "L" s; r ← scan_lit "R" r; scan_lf_plus r) with
    | Some (v, p) => Some ([LR], v, p)
    | None =>
      match (r ← scan_lit "R" s; r ← scan_lit "L" r; scan_lf_plus r) with
      | Some (v, p) => Some ([RL], v, p)
      | None => None
      end
    end
  end.

Definition read_wirevalue (s : string) (tag : Z) : M wire Z :=
  let s := delnl s in
  let '(s, n, node) := node_suffix s (str_len s - 1) in
  st ← get;
  if (node <? 0) || (markov_numnodes (chain st) <=? node) then mret EINVAL else
  let '(algo, n) := algo_suffix s n in
  let mult := d_of_Z (multiplier (char_at s n)) in
  match parse_value s with
  | Some (dirs, v, p) => forM dirs (λ d, put_value node tag d (Wirevalue (dmul v mult) (dmul p mult) algo)) ;; mret 0
  | None => mret 0
  end.

(** ** The commands *)

Definition i8 (z : Z) : Z := (z + 2 ^ 7) mod 2 ^ 8 - 2 ^ 7.

Definition setfifo (s : string) : M wire Z :=
  modify (λ st, let q := queue st in
    set_queue (WfState (pqh q) (npq q) (maxpq q) (maxwhen q) (counter q) (if atoi s =? 0 then 1 else 0) (delay_bufsize q) (written q)) st) ;;
  mret 0.

Definition setmarkov_node (s : string) : M wire Z :=
  st ← get;
  let n := atoi s in
  if (0 <=? n) && (n <? markov_numnodes (chain st)) then modify (set_chain (set_current n (chain st))) ;; mret 0
  else mret EINVAL.

Definition set_debuglevel (l : list Z) (s : wire) : wire := set_terms (Console (pfd (terms s)) l (shown (terms s))) s.

(** The place of a descriptor in the array of the poll. *)
Fixpoint pfd_find (fd : Z) (l : list Z) (i : Z) : Z :=
  match l with
  | [] => i
  | x :: l => if x =? fd then i else pfd_find fd l (i + 1)
  end.

Definition setmarkov_debug (fd : Z) (s : string) : M wire Z :=
  let n := atoi s in
  if (0 <=? fd) && (0 <=? n) then
    st ← get;
    let i := pfd_find (if fd =? 1 then 0 else fd) (pfd (terms st)) 0 in
    if i <? NPFD then l ← deref (zset (debuglevel (terms st)) i (i8 n)); modify (set_debuglevel l) ;; mret 0
    else mret EINVAL
  else mret EINVAL.

Definition showcurrent (fd : Z) : M wire Z :=
  st ← get;
  let c := chain st in
  name ← node_name (markov_current c);
  printoutc fd ("Current Markov Node " ++ show_int (markov_current c) ++ " " ++ quote name
    ++ " (0,..," ++ show_int (markov_numnodes c - 1) ++ ")")%string ;;
  mret 0.

(** The name of a node; an argument that is only blanks, or only blanks and
    digits, makes the loops leave the buffer. *)
Definition setmarkov_name (s : string) : M wire Z :=
  s ← deref (strchr_skip is_space s);
  st ← get;
  let n := atoi s in
  if (0 <=? n) && (n <? markov_numnodes (chain st)) then
    s ← deref (strchr_skip is_digit s);
    s ← deref (strchr_skip is_space s);
    let s := match scan_lit "," s with Some r => r | None => s end in
    let s := if char_at s (str_len s - 1) =? 10 then cut s (str_len s - 1) else s in
    nd ← deref (zget (markov_nodes (chain st)) n);
    nodes ← deref (zset (markov_nodes (chain st)) n
                     (MarkovNode (if str_len s =? 0 then None else Some s) (wfvals nd)));
    modify (set_chain (set_nodes nodes (chain st))) ;; mret 0
  else mret EINVAL.

(** [sscanf(s,"%d,%d,%lg",&x,&y,&weight)]: the variables are not set before, so
    a missing number is a fault. *)
Definition setedge (s : string) : M wire Z :=
  a ← deref (scan_d s);
  st ← get;
  let c := chain st in let n := markov_numnodes c in
  if negb ((0 <=? a.1) && (a.1 <? n)) then mret EINVAL else
  b ← deref (r ← scan_lit "," a.2; scan_d r);
  if (0 <=? b.1) && (b.1 <? n) then
    w ← deref (r ← scan_lit "," b.2; scan_lf r);
    m ← deref (adj_set (adjmap c) n a.1 b.1 w.1);
    m ← deref (markov_compute n a.1 m);
    modify (set_chain (Markov n (markov_nodes c) m (markov_current c) (markov_time c) (markov_next c))) ;; mret 0
  else mret EINVAL.

(** The table of [help]. *)
Definition help_text : list string := [
  "COMMAND      HELP";
  "------------ ------------";
  "help         print a summary of mgmt commands";
  "load         load a configuration file";
  "showinfo     show status and parameter values";
  "loss         set loss percentage";
  "lostburst    mean length of lost packet bursts";
  "delay        set delay ms";
  "dup          set dup packet percentage";
  "bandwidth    set channel bandwidth bytes/sec";
  "speed        set interface speed bytes/sec";
  "noise        set noise factor bits/Mbyte";
  "mtu          set channel MTU (bytes)";
  "chanbufsize  set channel buffer size (bytes)";
  "fifo         set channel fifoness";
  "shutdown     shut the channel down";
  "logout       log out from this mgmt session";
  "markov-numnodes n  markov mode: set number of states";
  "markov-setnode n   markov mode: set current state";
  "markov-name n,name markov mode: set state's name";
  "markov-time ms     markov mode: transition period";
  "setedge n1,n2,w    markov mode: set edge weight";
  "showinfo n         markov mode: show parameter values";
  "showedges n        markov mode: show edge weights";
  "showcurrent        markov mode: show current state";
  "markov-debug n     markov mode: set debug level"]%string.

Definition help (fd : Z) : M wire Z := forM help_text (printoutc fd) ;; mret 0.

(** The node of [showinfo] and [showedges]. *)
Definition shown_node (s : string) : M wire (option Z) :=
  st ← get;
  let node := if str_len s =? 0 then markov_current (chain st) else atoi s in
  mret (if (markov_numnodes (chain st) <=? node) || (node <? 0) then None else Some node).

(** [WIREVALUE_FIELDS]: ["%g+%g%c"] *)
Definition fields (node tag dir : Z) : M wire string :=
  v ← wfval node tag dir;
  mret (fmt_g (value v) ++ "+" ++ fmt_g (plus v) ++ (if (alg v =? ALGO_UNIFORM)%Z then "U" else "N"))%string.

Definition info_names : list (Z * string) :=
  [(LOSS, "Loss   "); (LOSTBURST, "Lburst "); (DELAY, "Delay  "); (DDUP, "Dup    "); (BAND, "Bandw  ");
   (SPEED, "Speed  "); (NOISE, "Noise  ")]%string.

Definition info_line (fd ndirs node : Z) (x : Z * string) : M wire () :=
  if ndirs =? 2 then
    a ← fields node x.1 LR; b ← fields node x.1 RL;
    printoutc fd (x.2 ++ "L->R " ++ a ++ "   R->L " ++ b)%string
  else a ← fields node x.1 0; printoutc fd (x.2 ++ a)%string.

(** [showinfo(fd,s)], without a blink socket. *)
Definition showinfo (fd ndirs : Z) (s : string) : M wire Z :=
  o ← shown_node s;
  match o with
  | None => mret EINVAL
  | Some node =>
    st ← get;
    let c := chain st in
    printoutc fd ("WireFilter: " ++ (if (ndirs =? 2)%Z then "bi" else "mono") ++ "directional")%string ;;
    whenM (1 <? markov_numnodes c) (
      name ← node_name node;
      printoutc fd ("Node " ++ show_int node ++ " " ++ quote name ++ " (0,..," ++ show_int (markov_numnodes c - 1)
        ++ ") Markov-time " ++ fmt_g (markov_time c))%string) ;;
    forM info_names (info_line fd ndirs node) ;;
    b0 ← deref (zget (delay_bufsize (queue st)) 0);
    (if ndirs =? 2 then
       a ← min_wirevalue node MTU LR; b ← min_wirevalue node MTU RL;
       printoutc fd ("MTU    L->R " ++ fmt_g a ++ "     R->L " ++ fmt_g b ++ "   ")%string ;;
       info_line fd ndirs node (CHANBUFSIZE, "Cap.   "%string) ;;
       b1 ← deref (zget (delay_bufsize (queue st)) 1);
       printoutc fd ("Current Delay Queue size:   L->R " ++ show_int b0 ++ "      R->L " ++ show_int b1 ++ "   ")%string
     else
       a ← min_wirevalue node MTU 0;
       printoutc fd ("MTU    " ++ fmt_g a)%string ;;
       info_line fd ndirs node (CHANBUFSIZE, "Cap.   "%string) ;;
       printoutc fd ("Current Delay Queue size:   " ++ show_int b0)%string) ;;
    printoutc fd ("Fifoness " ++ (if (nofifo (queue st) =? 0)%Z then "TRUE" else "FALSE"))%string ;;
    printoutc fd ("Waiting packets in delay queues " ++ show_int (npq (queue st)))%string ;;
    mret 0
  end.

Definition showedges (fd : Z) (s : string) : M wire Z :=
  o ← shown_node s;
  match o with
  | None => mret EINVAL
  | Some node =>
    st ← get;
    let c := chain st in
    forM (seqZ 0 (markov_numnodes c)) (λ j,
      w ← deref (adj_get (adjmap c) (markov_numnodes c) node j);
      whenM (negb (deq w dzero)) (
        a ← node_name node; b ← node_name j;
        printoutc fd ("Edge " ++ fmt_left 2 (show_int node) ++ "->" ++ fmt_left 2 (show_int j) ++ " " ++ quote a ++ "->"
          ++ quote b ++ " weigth " ++ fmt_g w)%string)) ;;
    mret 0
  end.

(** ** The dispatcher *)

Inductive command :=
| C_help | C_showinfo | C_load | C_value (tag : Z) | C_fifo | C_numnodes | C_setnode | C_name | C_time | C_edge | C_edges | C_current | C_debug
| C_logout | C_shutdown.

(** [commandlist]: name, function, and whether [WITHFILE] is set. *)
Definition commandlist : list (string * command * bool) := [
  ("help", C_help, true); ("showinfo", C_showinfo, true); ("load", C_load, true);
  ("delay", C_value DELAY, false); ("loss", C_value LOSS, false); ("lostburst", C_value LOSTBURST, false);
  ("dup", C_value DDUP, false); ("bandwidth", C_value BAND, false); ("band", C_value BAND, false);
  ("speed", C_value SPEED, false); ("chanbufsize", C_value CHANBUFSIZE, false); ("capacity", C_value CHANBUFSIZE, false);
  ("noise", C_value NOISE, false); ("mtu", C_value MTU, false); ("fifo", C_fifo, false);
  ("markov-numnodes", C_numnodes, false); ("markov-setnode", C_setnode, false); ("markov-name", C_name, false);
  ("markov-time", C_time, false); ("setedge", C_edge, false); ("showedges", C_edges, true); ("showcurrent", C_current, true);
  ("markov-debug", C_debug, false); ("logout", C_logout, false); ("shutdown", C_shutdown, false)]%string.

(** The first name that is a prefix of the line. *)
Fixpoint find_command (l : list (string * command * bool)) (s : string) : option (string * command * bool) :=
  match l with
  | [] => None
  | (tag, c, f) :: l => if String.prefix tag s then Some (tag, c, f) else find_command l s
  end.

(** [fgets(buf,MAXCMD,f)] until the end of the file. *)
Fixpoint fgets_lines (s : string) (room : nat) (acc : string) : list string :=
  match s with
  | EmptyString => if String.eqb acc "" then [] else [acc]
  | String c s =>
    let acc := (acc ++ String c "")%string in
    match room with
    | S (S room) => if ascii_z c =? 10 then acc :: fgets_lines s (Z.to_nat (MAXCMD - 1)) "" else fgets_lines s (S room) acc
    | _ => acc :: fgets_lines s (Z.to_nat (MAXCMD - 1)) ""
    end
  end.

Definition prompt : string := (newline ++ "VDEwf$ ")%string.

(** ["%03d"] *)
Definition fmt_03d (z : Z) : string := if z <? 0 then ("-" ++ fmt_0 2 (- z))%string else fmt_0 3 z.

Section console.
Context (drand : nat → double) (strerror : Z → string) (files : string → option string) (ndirs : Z).

Definition setmarkov_resize (now : timeval) (s : string) : M wire Z :=
  let n := atoi s in
  if 0 <? n then markov_resize n ;; markov_start drand now ;; mret 0 else mret EINVAL.

Definition set_time (t : double) (c : markov) : markov :=
  Markov (markov_numnodes c) (markov_nodes c) (adjmap c) (markov_current c) t (markov_next c).

Definition setmarkov_time (now : timeval) (s : string) : M wire Z :=
  w ← deref (scan_lf s);
  if dlt dzero w.1 then modify (λ st, set_chain (set_time w.1 (chain st)) st) ;; markov_start drand now ;; mret 0
  else mret EINVAL.

(** A command other than [load]. *)
Definition run_command (now : timeval) (fd : Z) (c : command) (arg : string) : M wire Z :=
  match c with
  | C_help => help fd
  | C_showinfo => showinfo fd ndirs arg
  | C_load => mret 0
  | C_value tag => read_wirevalue arg tag
  | C_fifo => setfifo arg
  | C_numnodes => setmarkov_resize now arg
  | C_setnode => setmarkov_node arg
  | C_name => setmarkov_name arg
  | C_time => setmarkov_time now arg
  | C_edge => setedge arg
  | C_edges => showedges fd arg
  | C_current => showcurrent fd
  | C_debug => setmarkov_debug fd arg
  | C_logout => mret (-1)
  | C_shutdown => exitM 0
  end.

Fixpoint handle_cmd (depth : nat) (now : timeval) (fd : Z) (inbuf : string) : M wire Z :=
  let s := delnl (skip_chars is_blank inbuf) in
  if (char_at s 0 =? 0) || (char_at s 0 =? 35) then mret ENOSYS else
  rv ← match find_command commandlist s with
       | None => mret ENOSYS
       | Some (tag, c, withfile) =>
         let arg := skip_chars is_space (substring (String.length tag) (String.length s) s) in
         whenM withfile (printoutc fd "0000 DATA END WITH '.'") ;;
         rv ← match c with
              | C_load =>
                match files arg with
                | None => mret ENOENT
                | Some text =>
                  match depth with
                  | O => fault
                  | S depth =>
                    forM (fgets_lines text (Z.to_nat (MAXCMD - 1)) "") (λ line,
                      printoutc fd (prompt ++ " (" ++ arg ++ ") " ++ delnl line)%string ;;
                      (_ ← handle_cmd depth now fd (delnl line); mret ())) ;;
                    mret 0
                  end
                end
              | c => run_command now fd c arg
              end;
         whenM withfile (printoutc fd ".") ;;
         mret rv
       end;
  printoutc fd (if (rv =? 0)%Z then "1000 Success" else "1" ++ fmt_03d rv ++ " " ++ strerror rv)%string ;;
  mret rv.

(** [mgmtcommand(fd)] after a read that returned [n] with the bytes [text]. *)
Definition mgmtcommand (depth : nat) (now : timeval) (fd n : Z) (text : string) : M wire Z :=
  if n <? 0 then mret 0
  else if n =? 0 then mret (-1)
  else
    let outfd := if fd =? 0 then 1 else fd in
    rv ← handle_cmd depth now outfd text;
    whenM (0 <=? rv) (show outfd prompt) ;;
    mret rv.

End console.

(** ** The terminals *)

Definition set_table (p d : list Z) (s : wire) : wire := set_terms (Console p d (shown (terms s))) s.

Definition header (version : string) : string :=
  (newline ++ "VDE wirefilter V." ++ version ++ newline ++ "(C) R.Davoli 2005,2006 - GPLv2" ++ newline)%string.

(** [newmgmtconn(fd,pfd,nfds)], where [accept] returned [new]. *)
Definition newmgmtconn (version : string) (new nfds : Z) : M wire Z :=
  if new <? 0 then mret nfds
  else if nfds <? NPFD then
    show new (substring 0 (Z.to_nat (MAXCMD - 1)) (header version)) ;;
    show new prompt ;;
    s ← get;
    p ← deref (zset (pfd (terms s)) nfds new);
    d ← deref (zset (debuglevel (terms s)) nfds 0);
    modify (set_table p d) ;;
    mret (nfds + 1)
  else mret nfds.

(** [memmove(a+i,a+i+1,k)] *)
Definition move_down (a : list Z) (i k : Z) : option (list Z) :=
  if (0 <=? i) && (0 <=? k) && (i + 1 + k <=? Z.of_nat (length a)) then
    Some (take (Z.to_nat i) a ++ take (Z.to_nat k) (drop (Z.to_nat (i + 1)) a) ++ drop (Z.to_nat (i + k)) a)
  else None.

(** [delmgmtconn(i,pfd,nfds)] *)
Definition delmgmtconn (i nfds : Z) : M wire Z :=
  if i <? nfds then
    s ← get;
    fd ← deref (zget (pfd (terms s)) i);
    if fd =? 0 then exitM 0 else
    p ← deref (move_down (pfd (terms s)) i (nfds - i - 1));
    d ← deref (move_down (debuglevel (terms s)) i (nfds - i - 1));
    p ← deref (zset p nfds (-1));
    d ← deref (zset d nfds 0);
    modify (set_table p d) ;;
    mret (nfds - 1)
  else mret nfds.

(** ** The filter at the start *)

Definition tv0 : timeval := Timeval 0 0.
Definition wire_start : wire :=
  Wire (Markov 0 [] [] 0 d100 0) [OK_BURST; OK_BURST] [tv0; tv0] [tv0; tv0] (wf0 0) [] 0
    (Console (replicate (Z.to_nat NPFD) (-1)) (replicate (Z.to_nat NPFD) 0) []).

(** [markov_resize(1)] at the beginning of [main]. *)
Definition wire0 : wire := default wire_start (run_state (markov_resize 1) wire_start).

(** A session: two nodes, parameters of both, and what [showinfo] shows. *)
Definition demo_rand (n : nat) : double := nth (n mod 4) [ddiv (d_of_Z 1) (d_of_Z 2); dzero; ddiv (d_of_Z 9) (d_of_Z 10); ddiv (d_of_Z 1) (d_of_Z 4)] dzero.
Definition demo_error (e : Z) : string :=
  if e =? EINVAL then "Invalid argument" else if e =? ENOSYS then "Function not implemented" else "No such file or directory".
Definition demo_file (name : string) : option string :=
  if String.eqb name "rc" then Some ("markov-numnodes 2" ++ newline ++ "loss LR20+1.5n[1]" ++ newline ++ "bandwidth 125K" ++ newline)%string else None.

Definition demo_cmd (line : string) : M wire Z := handle_cmd demo_rand demo_error demo_file 2 3 tv0 5 line.

Example console_session :
  let s := default wire0 (run_state (demo_cmd "load rc" ;; demo_cmd "setedge 0,1,12.5" ;; demo_cmd "showedges 0" ;; demo_cmd "frobnicate") wire0) in
  snd <$> shown (terms s) = ((λ l, l ++ newline) <$>
    ["0000 DATA END WITH '.'";
     prompt ++ " (rc) markov-numnodes 2"; "1000 Success";
     prompt ++ " (rc) loss LR20+1.5n[1]"; "1000 Success";
     prompt ++ " (rc) bandwidth 125K"; "1000 Success";
     "."; "1000 Success";
     "1000 Success";
     "0000 DATA END WITH '.'";
     "Edge 0 ->0  " ++ quote "" ++ "->" ++ quote "" ++ " weigth 87.5";
     "Edge 0 ->1  " ++ quote "" ++ "->" ++ quote "" ++ " weigth 12.5";
     "."; "1000 Success";
     "1038 Function not implemented"])%string.
Proof. vm_compute. reflexivity. Qed.
