(* ===== verification/WireSafe.v ===== *)
(** * WireSafe: the wire filter as a system

    The filter receives packets in both directions, delivers delayed packets,
    moves along its Markov chain and executes commands, in any order.  In every
    state it can reach, the chain is well formed, the delay queue is a heap of
    the packets that wait, and, while no noise was set, every packet that waits or
    was written is one that arrived.  The last section has the inputs on which
    the code does not do what it means to. *)
From Stdlib Require Import Lia Sorted String Ascii Floats.SpecFloat.
From stdpp Require Import base numbers list gmap.
From S2P Require Import Prelude Scan Doubles WireFilter WireLine WireFacts WireInv WireConsole.

(** ** The invariant of the chain *)

Definition row_shape (row : list wirevalue) : Prop := length row = 2%nat ∧ Forall (λ v, alg v = 0 ∨ alg v = 1) row.
Definition node_shape (nd : markov_node) : Prop := Z.of_nat (length (wfvals nd)) = NUMVALUES ∧ Forall row_shape (wfvals nd).

Record chain_ok (c : markov) : Prop := ChainOk {
  ck_nodes : Z.of_nat (length (markov_nodes c)) = markov_numnodes c;
  ck_shape : Forall node_shape (markov_nodes c);
  ck_map : square (adjmap c) (markov_numnodes c);
  ck_rows : ∀ i, 0 ≤ i < markov_numnodes c → row_ok (adjmap c) (markov_numnodes c) i;
  ck_current : 0 ≤ markov_current c < markov_numnodes c
}.

(** The parameters of every node are there. *)
Lemma chain_param c n tag dir : chain_ok c → 0 ≤ n < markov_numnodes c → 0 ≤ tag < NUMVALUES → dir = 0 ∨ dir = 1 →
  ∃ nd row v, zget (markov_nodes c) n = Some nd ∧ zget (wfvals nd) tag = Some row ∧ zget row dir = Some v ∧
    node_shape nd ∧ row_shape row ∧ (alg v = 0 ∨ alg v = 1).
Proof.
  intros H Hn Ht Hd. destruct (zget_is_Some (markov_nodes c) n) as [nd End]; [by rewrite (ck_nodes c H)|].
  pose proof (Forall_lookup_1 _ _ _ _ (ck_shape c H) (proj2 (proj1 (zget_Some _ _ _) End))) as Hnd.
  destruct Hnd as [Hl Hr]. destruct (zget_is_Some (wfvals nd) tag) as [row Er]; [by rewrite Hl|].
  pose proof (Forall_lookup_1 _ _ _ _ Hr (proj2 (proj1 (zget_Some _ _ _) Er))) as [Hrl Hra].
  destruct (zget_is_Some row dir) as [v Ev]; [lia|].
  pose proof (Forall_lookup_1 _ _ _ _ Hra (proj2 (proj1 (zget_Some _ _ _) Ev))) as Hv.
  exists nd, row, v. split_and!; done.
Qed.

Lemma node_new_shape : node_shape markov_node_new.
Proof. split; [done|]. apply Forall_replicate. split; [done|]. apply Forall_replicate. by left. Qed.

Lemma zset_Forall {A} (P : A → Prop) l i x l' : zset l i x = Some l' → Forall P l → P x → Forall P l'.
Proof. intros [_ ->]%zset_Some Hl Hx. by apply Forall_insert. Qed.

(** Changing one node. *)
Lemma chain_set_node c nodes i nd : chain_ok c → zset (markov_nodes c) i nd = Some nodes → node_shape nd →
  chain_ok (set_nodes nodes c).
Proof.
  intros [H1 H2 H3 H4 H5] E Hnd. split; simpl; try done.
  - by rewrite (zset_length _ _ _ _ E).
  - by eapply zset_Forall.
Qed.

Lemma chain_set_current c k : chain_ok c → 0 ≤ k < markov_numnodes c → chain_ok (set_current k c).
Proof. intros [H1 H2 H3 H4 H5] Hk. by split. Qed.
Lemma chain_set_next c t : chain_ok c → chain_ok (set_next t c).
Proof. intros [H1 H2 H3 H4 H5]. by split. Qed.
Lemma chain_set_time c t : chain_ok c → chain_ok (set_time t c).
Proof. intros [H1 H2 H3 H4 H5]. by split. Qed.

(** The search of [markov_step] finds a node of the chain. *)
Lemma step_scan_range m n i : square m n → 0 ≤ i < n → ∀ js num k, (∀ j, j ∈ js → 0 ≤ j) → (js = [] → 0 ≤ k < n) →
  ∃ r, step_scan m n i num js k = Some r ∧ 0 ≤ r < n.
Proof.
  intros Hm Hi. induction js as [|j js IH]; intros num k Hj Hk; [exists k; split; [done | by apply Hk]|].
  assert (0 ≤ ROT n i j < n) as Hr by (apply ROT_range; [lia | apply Hj; left | lia]).
  cbn [step_scan]. cbv zeta. rewrite adj_get_wt by done. simpl. destruct (dle num _); [by eexists|].
  apply IH; [intros j' Hj'; apply Hj; by right | done].
Qed.

(** ** What the chain does *)

(** Output, the numbers drawn and the terminals are outside of the chain. *)
Definition same_chain (s s' : wire) : Prop := chain s' = chain s ∧ queue s' = queue s ∧ outs s' = outs s.
#[export] Instance same_chain_preorder : PreOrder same_chain.
Proof. split; [done|]. intros s1 s2 s3 (? & ? & ?) (? & ? & ?). split_and!; congruence. Qed.

(** A command keeps the chain well formed, writes no packet and leaves the
    packets that wait. *)
Definition commanded (s s' : wire) : Prop := chain_ok (chain s) →
  chain_ok (chain s') ∧ outs s' = outs s ∧ ∀ l, pq_rep (queue s) l → pq_rep (queue s') l.
#[export] Instance commanded_preorder : PreOrder commanded.
Proof.
  split; [by intros s H|]. intros s1 s2 s3 H1 H2 H. destruct (H1 H) as (C2 & O2 & Q2). destruct (H2 C2) as (C3 & O3 & Q3).
  split_and!; [done | congruence | auto].
Qed.

Lemma same_commanded s s' : same_chain s s' → commanded s s'.
Proof. intros (E1 & E2 & E3) H. by rewrite E1, E2, E3. Qed.
Lemma stay_same {A} (m : M wire A) : stays same_chain m → stays commanded m.
Proof. intros H s a s' E. by eapply same_commanded, H. Qed.

Lemma printoutc_stays fd l : stays same_chain (printoutc fd l).
Proof. unfold printoutc, show. stay_auto. Qed.
#[export] Hint Resolve printoutc_stays : stays.
Lemma node_name_stays n : stays same_chain (node_name n).
Proof. unfold node_name. stay_auto. Qed.
#[export] Hint Resolve node_name_stays : stays.
Lemma notify_stays i k : stays same_chain (notify i k).
Proof. unfold notify. stay_auto. Qed.

Lemma queued_dir q l p : pq_rep q l → p ∈ l → pdir p = 0 ∨ pdir p = 1.
Proof. intros [_ Hq _ _] Hp. rewrite Forall_forall in Hq. by destruct (Hq p Hp). Qed.

Section safe.
Context (drand : nat → double) (dlog : double → double) (fuel : nat).
Context (strerror : Z → string) (files : string → option string) (ndirs : Z).

Lemma draw_chain : stays same_chain (drand48 drand).
Proof. unfold drand48. stay_auto. Qed.

Lemma markov_step_keeps i s k s' : chain_ok (chain s) → 0 ≤ i < markov_numnodes (chain s) →
  markov_step drand i s = Done k s' →
  chain_ok (chain s') ∧ 0 ≤ k < markov_numnodes (chain s') ∧ queue s' = queue s ∧ outs s' = outs s.
Proof.
  intros H Hi E. unfold markov_step in E. apply bind_Done in E as (r & s1 & E1 & E).
  apply draw_chain in E1 as (F1 & F2 & F3). apply bind_Done in E as (? & ? & [= <- <-] & E). cbv zeta in E.
  apply bind_Done in E as (t & s2 & E2 & E). destruct (d_llong _) as [t'|]; [injection E2 as <- <-|done].
  apply bind_Done in E as ([] & s3 & [= <-] & E). apply bind_Done in E as (k' & s4 & E4 & E).
  rewrite F1 in E4. destruct (step_scan_range _ _ i (ck_map _ H) Hi (seqZ 0 (markov_numnodes (chain s))) (dmul r d100) 0)
    as (k0 & Ek & Hk0); [intros j; rewrite elem_of_seqZ; lia | intros _; lia|].
  rewrite Ek in E4. injection E4 as <- <-. apply bind_Done in E as ([] & s5 & E5 & [= <- <-]).
  assert (stays same_chain (whenM (negb (i =? k0)) (notify i k0))) as St by (apply stay_whenM; [apply _ | apply notify_stays]).
  apply St in E5 as (G1 & G2 & G3). simpl in G1, G2, G3. rewrite G1. simpl.
  split_and!; [by apply chain_set_next | lia | lia | congruence | congruence].
Qed.

Lemma markov_move_keeps s s' : chain_ok (chain s) → markov_move drand s = Done () s' →
  chain_ok (chain s') ∧ queue s' = queue s ∧ outs s' = outs s.
Proof.
  intros H E. unfold markov_move in E. apply bind_Done in E as (i & ? & [= <- <-] & E).
  apply bind_Done in E as (k & s1 & E1 & [= <-]).
  destruct (markov_step_keeps _ _ _ _ H (ck_current _ H) E1) as (C & Hk & Eq & Eo). by split; [apply chain_set_current|].
Qed.

Lemma markov_try_keeps now s s' : chain_ok (chain s) → markov_try drand now s = Done () s' →
  chain_ok (chain s') ∧ queue s' = queue s ∧ outs s' = outs s.
Proof.
  intros H E. unfold markov_try in E. apply bind_Done in E as (? & ? & [= <- <-] & E). unfold whenM in E.
  case_match; [by apply markov_move_keeps | by injection E as <-].
Qed.

Lemma markov_start_cmd now : stays commanded (markov_start drand now).
Proof.
  intros s [] s' E H. unfold markov_start in E. apply bind_Done in E as (? & ? & [= <- <-] & E). unfold whenM in E.
  case_match; [|by injection E as <-]. apply bind_Done in E as ([] & s1 & [= <-] & E).
  apply markov_move_keeps in E as (C & Eq & Eo); [|by apply chain_set_next]. rewrite Eq, Eo. done.
Qed.

(** [markov_resize]: the old nodes keep their parameters and their edges. *)
Lemma markov_resize_spec N s s' : chain_ok (chain s) → 0 < N → markov_resize N s = Done () s' →
  chain_ok (chain s') ∧ markov_numnodes (chain s') = N ∧ queue s' = queue s ∧ outs s' = outs s ∧
  (∀ i nd, 0 ≤ i < N → zget (markov_nodes (chain s)) i = Some nd → zget (markov_nodes (chain s')) i = Some nd) ∧
  ∀ i k, 0 ≤ i < N → 0 ≤ k < N → i ≠ k → wt (adjmap (chain s')) N i k = kept (adjmap (chain s)) (markov_numnodes (chain s)) i k.
Proof.
  intros H HN E. unfold markov_resize in E. apply bind_Done in E as (? & ? & [= <- <-] & E). cbv zeta in E.
  destruct (Z.eqb_spec N (markov_numnodes (chain s))) as [->|Hne].
  { injection E as <-. split_and!; try done. intros i k Hi Hk _. unfold kept.
    by rewrite (proj2 (Z.ltb_lt i _)), (proj2 (Z.ltb_lt k _)) by lia. }
  destruct ((N <? 0) || _); [done|]. destruct (copyadjmap_rows (adjmap (chain s)) (markov_numnodes (chain s)) N (ck_map _ H)) as (m & Em & Hm & Hr); [lia|].
  rewrite Em in E. apply bind_Done in E as (? & ? & [= <- <-] & [= <-]). simpl.
  pose proof H as [H1 H2 H3 H4 H5]. split_and!; try done.
  - destruct (Z.ltb_spec (markov_numnodes (chain s)) N); split; simpl; try done; try lia.
    + rewrite length_app, length_replicate. lia.
    + apply Forall_app. split; [done|]. apply Forall_replicate, node_new_shape.
    + intros i Hi. apply Hr, Hi.
    + rewrite length_take. lia.
    + by apply Forall_take.
    + intros i Hi. apply Hr, Hi.
    + destruct (Z.leb_spec N (markov_current (chain s))); lia.
  - intros i nd Hi [Hi0 Hl]%zget_Some. apply zget_Some. split; [done|]. destruct (Z.ltb_spec (markov_numnodes (chain s)) N).
    + by apply lookup_app_l_Some.
    + rewrite lookup_take_lt; [done | lia].
  - intros i k Hi Hk Hik. by apply (Hr i Hi).
Qed.

(** ** The commands *)

Lemma put_value_cmd node tag dir v : alg v = 0 ∨ alg v = 1 → stays commanded (put_value node tag dir v).
Proof.
  intros Hv s [] s' E H. unfold put_value in E. apply bind_Done in E as (? & ? & [= <- <-] & E).
  apply bind_Done in E as (nd & s1 & E1 & E). destruct (zget (markov_nodes _) node) as [nd'|] eqn:En; [injection E1 as <- <-|done].
  apply bind_Done in E as (row & s1 & E1 & E). destruct (zget (wfvals _) tag) as [row'|] eqn:Er; [injection E1 as <- <-|done].
  apply bind_Done in E as (row1 & s1 & E1 & E). destruct (zset row' dir v) as [row1'|] eqn:Er1; [injection E1 as <- <-|done].
  apply bind_Done in E as (vals & s1 & E1 & E). destruct (zset (wfvals _) tag _) as [vals'|] eqn:Ev; [injection E1 as <- <-|done].
  apply bind_Done in E as (nodes & s1 & E1 & [= <-]). destruct (zset (markov_nodes _) node _) as [nodes'|] eqn:Ed; [injection E1 as <- <-|done].
  split_and!; [|done|done]. simpl. eapply chain_set_node; [done | exact Ed|].
  apply zget_Some in En as [_ En]. destruct (Forall_lookup_1 _ _ _ _ (ck_shape _ H) En) as [Hl Hs].
  apply zget_Some in Er as [_ Er]. destruct (Forall_lookup_1 _ _ _ _ Hs Er) as [Hrl Hra].
  split; simpl; [by rewrite (zset_length _ _ _ _ Ev)|]. eapply zset_Forall; [exact Ev | done|].
  split; [by rewrite (zset_length _ _ _ _ Er1) | by eapply zset_Forall].
Qed.

Lemma algo_suffix_alg s n : (algo_suffix s n).1 = 0 ∨ (algo_suffix s n).1 = 1.
Proof. unfold algo_suffix. repeat case_match; simpl; auto. Qed.

Lemma read_wirevalue_cmd arg tag : stays commanded (read_wirevalue arg tag).
Proof.
  unfold read_wirevalue. cbv zeta. destruct (node_suffix _ _) as [[str n] node].
  apply (stay_bind commanded); [apply stay_get; apply _|]. intros st. apply stay_if; [apply stay_ret; apply _|].
  pose proof (algo_suffix_alg str n) as Ha. destruct (algo_suffix str n) as [algo n']. simpl in Ha.
  destruct (parse_value str) as [[[dirs v] p]|]; [|apply stay_ret; apply _].
  apply (stay_bind commanded); [|intros; apply stay_ret; apply _]. apply (stay_forM commanded). intros d. by apply put_value_cmd.
Qed.

Lemma pq_rep_nofifo q l f : pq_rep q l →
  pq_rep (WfState (pqh q) (npq q) (maxpq q) (maxwhen q) (counter q) f (delay_bufsize q) (written q)) l.
Proof. by intros [[Hn Ha] Hq Hc Hb]. Qed.

Lemma setfifo_cmd arg : stays commanded (setfifo arg).
Proof. intros s rv s' [= _ <-] H. split_and!; [done | done|]. intros l Hl. by apply pq_rep_nofifo. Qed.

Lemma setmarkov_node_cmd arg : stays commanded (setmarkov_node arg).
Proof.
  intros s rv s' E H. unfold setmarkov_node in E. apply bind_Done in E as (? & ? & [= <- <-] & E). cbv zeta in E.
  destruct (Z.leb_spec 0 (atoi arg)), (Z.ltb_spec (atoi arg) (markov_numnodes (chain s))); simpl in E;
    try (by injection E as _ <-). apply bind_Done in E as ([] & ? & [= <-] & [= _ <-]).
  split_and!; [|done|done]. by apply chain_set_current.
Qed.

Lemma setmarkov_name_cmd arg : stays commanded (setmarkov_name arg).
Proof.
  intros s rv s' E H. unfold setmarkov_name in E. apply bind_Done in E as (a & s1 & E1 & E).
  destruct (strchr_skip _ _) as [a'|]; [injection E1 as <- <-|done]. apply bind_Done in E as (? & ? & [= <- <-] & E). cbv zeta in E.
  destruct ((0 <=? _) && _); [|by injection E as _ <-].
  apply bind_Done in E as (b & s1 & E1 & E). destruct (strchr_skip is_digit _) as [b'|]; [injection E1 as <- <-|done].
  apply bind_Done in E as (c & s1 & E1 & E). destruct (strchr_skip is_space b') as [c'|]; [injection E1 as <- <-|done].
  apply bind_Done in E as (nd & s1 & E1 & E). destruct (zget _ _) as [nd'|] eqn:En; [injection E1 as <- <-|done].
  apply bind_Done in E as (nodes & s1 & E1 & E). destruct (zset _ _ _) as [nodes'|] eqn:Ed; [injection E1 as <- <-|done].
  apply bind_Done in E as ([] & ? & [= <-] & [= _ <-]). split_and!; [|done|done]. simpl.
  eapply chain_set_node; [done | exact Ed|]. apply zget_Some in En as [_ En]. exact (Forall_lookup_1 _ _ _ _ (ck_shape _ H) En).
Qed.

(** [setedge]: the edge has the weight, the others keep theirs, and the row adds
    up again. *)
Lemma edge_rows c x y w m1 m2 : chain_ok c → let n := markov_numnodes c in 0 ≤ x < n → 0 ≤ y < n →
  adj_set (adjmap c) n x y w = Some m1 → markov_compute n x m1 = Some m2 →
  square m2 n ∧ (∀ i, 0 ≤ i < n → row_ok m2 n i) ∧ (x ≠ y → wt m2 n x y = w) ∧
  ∀ i k, 0 ≤ k < n → i ≠ k → (i, k) ≠ (x, y) → wt m2 n i k = wt (adjmap c) n i k.
Proof.
  intros H n Hx Hy E1 E2. destruct (adj_set_wt (adjmap c) n x y w (ck_map c H) Hx Hy) as (? & E1' & Hm1 & W1 & O1).
  rewrite E1 in E1'. injection E1' as <-. destruct (markov_compute_row m1 n x Hm1 Hx) as (? & E2' & Hm2 & R2 & O2).
  rewrite E2 in E2'. injection E2' as <-. split_and!; [done| | |].
  - intros i Hi. destruct (decide (i = x)) as [->|Hne]; [done|].
    assert (∀ k, 0 ≤ k < n → wt m2 n i k = wt (adjmap c) n i k) as Hsame.
    { intros k Hk. rewrite O2, O1; [done | done | congruence | done | congruence]. }
    pose proof (ck_rows c H i Hi) as Hr. unfold row_ok in *. fold n in Hr. rewrite Hsame, Hr by done. apply rest_ext. intros j Hj%elem_of_seqZ. symmetry.
    apply Hsame. apply ROT_range; lia.
  - intros Hxy. rewrite O2; [done | done | congruence].
  - intros i k Hk Hik Hne. rewrite O2, O1; [done | done | done | done | congruence].
Qed.

Lemma setedge_cmd arg : stays commanded (setedge arg).
Proof.
  intros s rv s' E H. unfold setedge in E. apply bind_Done in E as (a & s1 & E1 & E).
  destruct (scan_d arg) as [[x r]|]; [injection E1 as <- <-|done]. apply bind_Done in E as (? & ? & [= <- <-] & E). cbv zeta in E. simpl in E.
  destruct (Z.leb_spec 0 x), (Z.ltb_spec x (markov_numnodes (chain s))); simpl in E; try (by injection E as _ <-).
  apply bind_Done in E as (b & s1 & E1 & E). destruct (scan_lit _ r ≫= _) as [[y r']|]; [injection E1 as <- <-|done]. simpl in E.
  destruct (Z.leb_spec 0 y), (Z.ltb_spec y (markov_numnodes (chain s))); simpl in E; try (by injection E as _ <-).
  apply bind_Done in E as (w & s1 & E1 & E). destruct (scan_lit _ r' ≫= _) as [[w' r'']|]; [injection E1 as <- <-|done]. simpl in E.
  apply bind_Done in E as (m1 & s1 & E1 & E). destruct (adj_set _ _ _ _ _) as [m1'|] eqn:Em1; [injection E1 as <- <-|done].
  apply bind_Done in E as (m2 & s1 & E1 & E). destruct (markov_compute _ _ _) as [m2'|] eqn:Em2; [injection E1 as <- <-|done].
  apply bind_Done in E as ([] & ? & [= <-] & [= _ <-]).
  destruct (edge_rows (chain s) x y w' m1' m2' H) as (Hm2 & Hr2 & _); [lia | lia | done | done|].
  split_and!; [|done|done]. destruct H. by split.
Qed.

Lemma setmarkov_resize_cmd now arg : stays commanded (setmarkov_resize drand now arg).
Proof.
  unfold setmarkov_resize. cbv zeta. destruct (Z.ltb_spec 0 (atoi arg)) as [Hn|]; [|apply stay_ret; apply _].
  apply (stay_bind commanded).
  - intros s [] s' E H. destruct (markov_resize_spec _ _ _ H Hn E) as (C & _ & -> & -> & _). done.
  - intros _. apply (stay_bind commanded); [apply markov_start_cmd | intros; apply stay_ret; apply _].
Qed.

Lemma setmarkov_time_cmd now arg : stays commanded (setmarkov_time drand now arg).
Proof.
  unfold setmarkov_time. apply (stay_bind commanded); [apply stay_deref; apply _|]. intros w.
  apply stay_if; [|apply stay_ret; apply _]. apply (stay_bind commanded).
  - intros s [] s' [= <-] H. split_and!; [by apply chain_set_time | done..].
  - intros _. apply (stay_bind commanded); [apply markov_start_cmd | intros; apply stay_ret; apply _].
Qed.

Lemma show_commands_cmd fd arg : stays same_chain (help fd) ∧ stays same_chain (showinfo fd ndirs arg) ∧
  stays same_chain (showedges fd arg) ∧ stays same_chain (showcurrent fd) ∧ stays same_chain (setmarkov_debug fd arg).
Proof.
  split_and!; unfold help, showinfo, showedges, showcurrent, setmarkov_debug, info_line, fields, shown_node, min_wirevalue, wfval;
    stay_auto.
Qed.

Lemma run_command_cmd now fd c arg : stays commanded (run_command drand ndirs now fd c arg).
Proof.
  destruct (show_commands_cmd fd arg) as (S1 & S2 & S3 & S4 & S5). destruct c; simpl;
    try (by apply stay_same); try (apply stay_ret; apply _).
  - apply read_wirevalue_cmd.
  - apply setfifo_cmd.
  - apply setmarkov_resize_cmd.
  - apply setmarkov_node_cmd.
  - apply setmarkov_name_cmd.
  - apply setmarkov_time_cmd.
  - apply setedge_cmd.
Qed.

Lemma print_cmd fd l : stays commanded (printoutc fd l).
Proof. apply stay_same, printoutc_stays. Qed.

Hint Resolve print_cmd run_command_cmd : stays.

Lemma handle_cmd_cmd now depth : ∀ fd line, stays commanded (handle_cmd drand strerror files ndirs depth now fd line).
Proof.
  induction depth as [|depth IH]; intros fd line; cbn [handle_cmd]; stay_auto.
Qed.

(** ** The packets *)

(** No noise on the current node. *)
Definition noiseless (c : markov) : Prop := ∀ dir, dir = 0 ∨ dir = 1 → fixed c NOISE dir dzero.

(** What the filter does with a packet [o] of [size] bytes: some copies are
    written, unchanged if there is no noise, others wait. *)
Definition forwards (o : Z * list Z) (size : Z) (s s' : wire) : Prop :=
  chain s' = chain s ∧ (noiseless (chain s) → ∃ k, outs s' = outs s ++ replicate k o) ∧
  ∀ l, pq_rep (queue s) l → ∃ l', pq_rep (queue s') (l' ++ l) ∧ Forall (λ p, payload p = o ∧ psize p = size) l'.

Lemma same_forwards o size s s' : same_out s s' → forwards o size s s'.
Proof.
  intros [[E1 E2] E3]. unfold forwards. rewrite E1, E2, E3.
  split_and!; [done | intros _; exists 0%nat; by rewrite app_nil_r|]. intros l Hl. by exists [].
Qed.

#[local] Instance forwards_preorder o size : PreOrder (forwards o size).
Proof.
  split; [intros s; by apply same_forwards|]. intros s1 s2 s3 (C & Ho & Hq) (C' & Ho' & Hq'). split_and!; [congruence | |].
  - intros Hn. destruct (Ho Hn) as [k Ek]. rewrite <- C in Hn. destruct (Ho' Hn) as [k' Ek'].
    exists (k + k')%nat. by rewrite Ek', Ek, replicate_add, <- app_assoc.
  - intros l Hl. destruct (Hq l Hl) as (l1 & Hl1 & F1). destruct (Hq' _ Hl1) as (l2 & Hl2 & F2).
    exists (l2 ++ l1). rewrite <- app_assoc. split; [done|]. by apply Forall_app.
Qed.

Lemma same_out_forwards o size {A} (m : M wire A) : stays same_out m → stays (forwards o size) m.
Proof. intros H s a s' E. by eapply same_forwards, H. Qed.

Lemma write_forwards dir buf size : dir = 0 ∨ dir = 1 →
  stays (forwards (dir, take (Z.to_nat size) buf) size) (writepacket drand dlog fuel dir buf size).
Proof.
  intros Hd s [] s' E. destruct (write_stays _ _ _ _ _ _ _ _ _ E) as [E1 E2]. split_and!; [done | |].
  - intros Hn. exists 1%nat. eapply (wp_Done _ (λ _ s', outs s' = _)); [|exact E].
    apply wp_bind. apply wp_unlimited; [by apply Hn|]. by apply wp_modify.
  - rewrite E2. intros l Hl. by exists [].
Qed.

Lemma line_delay_forwards now dir buf size bd : dir = 0 ∨ dir = 1 →
  stays (forwards (dir, take (Z.to_nat size) buf) size) (line_delay drand dlog fuel now dir buf size bd).
Proof.
  intros Hd. unfold line_delay. apply stay_whenM; [apply _|]. eapply stay_bind; [apply _ | apply same_out_forwards, limited_stays; apply _|].
  intros lim. apply stay_if; [|by apply write_forwards].
  eapply stay_bind; [apply _ | apply same_out_forwards, compute_stays; apply _|]. intros dv. cbv zeta.
  apply stay_if; [|by apply write_forwards]. eapply stay_bind; [apply _ | apply stay_deref; apply _|]. intros z.
  intros s [] s' E. unfold on_queue in E. destruct (packet_enqueue _ _ _ _ _ _ _) as [[] q'| |] eqn:Eq; [|done..]. injection E as <-.
  split_and!; [done | intros _; exists 0%nat; by rewrite app_nil_r|]. intros l Hl. pose proof (enqueue_room _ _ _ _ _ _ _ _ _ Hl Eq) as Hr.
  destruct (wp_Done _ _ _ _ _ (wp_packet_enqueue _ l (tv_ms now) dir buf size z Hl Hr Hd) Eq) as (Hq' & _).
  exists [delayed (tv_ms now) dir buf size z (queue s)]. split; [done|]. by apply Forall_singleton.
Qed.

Lemma handle_forwards now dir buf size : dir = 0 ∨ dir = 1 →
  stays (forwards (dir, take (Z.to_nat size) buf) size) (handle_packet drand dlog fuel now dir buf size).
Proof.
  intros Hd. unfold handle_packet.
  eapply stay_bind; [apply _ | apply same_out_forwards, large_stays; apply _|]. intros big. apply stay_if; [apply stay_ret; apply _|].
  eapply stay_bind; [apply _ | apply same_out_forwards, lost_stays; apply _|]. intros gone. apply stay_if; [apply stay_ret; apply _|].
  eapply stay_bind; [apply _ | apply same_out_forwards, copies_stays; apply _|]. intros times.
  induction (Z.to_nat times) as [|n IH]; simpl; [apply stay_ret; apply _|].
  eapply stay_bind; [apply _ | | intros go; by apply stay_whenM; [apply _|]]. unfold send_copy.
  eapply stay_bind; [apply _ | apply same_out_forwards, full_stays; apply _|]. intros full. apply stay_if; [apply stay_ret; apply _|].
  eapply stay_bind; [apply _ | apply same_out_forwards, speed_stays; apply _|]. intros [bd|]; [|apply stay_ret; apply _].
  eapply stay_bind; [apply _ | apply same_out_forwards, band_stays; apply _|]. intros [bd'|]; [|apply stay_ret; apply _].
  eapply stay_bind; [apply _ | by apply line_delay_forwards | intros; apply stay_ret; apply _].
Qed.

(** ** The system *)

(** The filter from its start, with the packets that arrived; [P] holds whenever
    packets arrive or are delivered. *)
Inductive wire_run (P : wire → Prop) : wire → list (Z * list Z) → Prop :=
| wire_begin : wire_run P wire0 []
| wire_arrival s s' arrived now dir buf size : wire_run P s arrived → P s → dir = 0 ∨ dir = 1 →
    handle_packet drand dlog fuel now dir buf size s = Done () s' →
    wire_run P s' (arrived ++ [(dir, take (Z.to_nat size) buf)])
| wire_delivery s s' arrived now : wire_run P s arrived → P s →
    dequeue drand dlog fuel now s = Done () s' → wire_run P s' arrived
| wire_move s s' arrived now : wire_run P s arrived → markov_try drand now s = Done () s' → wire_run P s' arrived
| wire_command s s' arrived depth now fd line rv : wire_run P s arrived →
    handle_cmd drand strerror files ndirs depth now fd line s = Done rv s' → wire_run P s' arrived.

(** The packets that wait are whole and arrived, and so are those that were
    written. *)
Definition waiting_ok (arrived : list (Z * list Z)) (l : list packpq) : Prop :=
  ∀ p, p ∈ l → payload p ∈ arrived ∧ take (Z.to_nat (psize p)) (pbuf p) = pbuf p.
Record genuine (arrived : list (Z * list Z)) (l : list packpq) (s : wire) : Prop := Genuine {
  gn_outs : ∀ o, o ∈ outs s → o ∈ arrived;
  gn_wait : waiting_ok arrived l
}.

Lemma genuine_mono arrived arrived' l s s' : arrived ⊆ arrived' → outs s' = outs s → genuine arrived l s → genuine arrived' l s'.
Proof.
  intros Ha Ho [H1 H2]. split.
  - rewrite Ho. intros o Hin. apply Ha. by apply H1.
  - intros p Hp. destruct (H2 p Hp) as [H3 H4]. split; [by apply Ha | done].
Qed.

Lemma wire0_ok : chain_ok (chain wire0) ∧ pq_rep (queue wire0) [] ∧ outs wire0 = [].
Proof.
  split_and!; [| apply pq_rep_wf0 | done]. split; try done.
  - vm_compute. repeat constructor.
  - intros i Hi. assert (i = 0) as -> by (change (markov_numnodes (chain wire0)) with 1 in Hi; lia). done.
Qed.

Lemma arrival_genuine arrived l now dir buf size s s' : dir = 0 ∨ dir = 1 → pq_rep (queue s) l →
  handle_packet drand dlog fuel now dir buf size s = Done () s' →
  ∃ l', pq_rep (queue s') l' ∧ (noiseless (chain s) → genuine arrived l s → genuine (arrived ++ [(dir, take (Z.to_nat size) buf)]) l' s').
Proof.
  intros Hd Hl E. destruct (handle_forwards _ _ _ _ Hd _ _ _ E) as (_ & Ho & Hq). destruct (Hq l Hl) as (l' & Hl' & F).
  exists (l' ++ l). split; [done|]. intros Hn [G1 G2]. destruct (Ho Hn) as [k Ek]. rewrite Forall_forall in F. split.
  - rewrite Ek. intros o [Hin|Hin]%elem_of_app; apply elem_of_app; [left; by apply G1|].
    right. apply elem_of_replicate in Hin as [-> _]. by left.
  - intros p [Hin|Hin]%elem_of_app.
    + destruct (F p Hin) as [Hp Hs]. split; [rewrite Hp; apply elem_of_app; right; by left|].
      unfold payload in Hp. injection Hp as _ ->. rewrite Hs, take_take. f_equal. lia.
    + destruct (G2 p Hin) as [H1 H2]. split; [apply elem_of_app; by left | done].
Qed.

Lemma delivery_genuine arrived l now s s' : pq_rep (queue s) l → dequeue drand dlog fuel now s = Done () s' →
  ∃ l', pq_rep (queue s') l' ∧ (noiseless (chain s) → genuine arrived l s → genuine arrived l' s').
Proof.
  intros Hl E. destruct (dequeue_queue _ _ _ now s () s' l Hl E) as (_ & due & rest & P & Hr). exists rest. split; [done|].
  intros Hn [G1 G2].
  destruct (wp_Done _ _ _ _ _ (wp_dequeue drand dlog fuel s now l Hl (λ p Hp, Hn (pdir p) (queued_dir _ _ _ Hl Hp))) E)
    as (due' & rest' & q & P' & _ & _ & _ & Hr' & _ & _ & ->). simpl in Hr.
  pose proof (pq_rep_unique _ _ _ Hr Hr') as Prr. split; simpl.
  - intros o [Hin|Hin]%elem_of_app; [by apply G1|]. apply list_elem_of_fmap in Hin as (p & -> & Hp).
    destruct (G2 p) as [H1 H2]; [rewrite P'; apply elem_of_app; by left|]. rewrite H2. exact H1.
  - intros p Hp. apply G2. rewrite P'. apply elem_of_app. right. by rewrite <- Prr.
Qed.

(** C19: In every state the filter can reach, whatever the commands, the losses and the
    delays, the chain is well formed: every node has all its parameters, the
    current node exists and the weights that leave a node add up to 100; the
    queue is a heap of the packets that wait with the right byte counts; and if
    there is no noise while packets pass, every packet that was written or waits
    is one that arrived, unchanged and in its direction. *)
Theorem wire_filter_invariant P s arrived :
  wire_run P s arrived →
  chain_ok (chain s) ∧ ∃ l, pq_rep (queue s) l ∧ ((∀ s, P s → noiseless (chain s)) → genuine arrived l s).
Proof.
  induction 1 as [|s s' arrived now dir buf size _ (C & l & Hl & G) HP Hd E|s s' arrived now _ (C & l & Hl & G) HP E
                 |s s' arrived now _ (C & l & Hl & G) E|s s' arrived depth now fd line rv _ (C & l & Hl & G) E].
  - destruct wire0_ok as (C & Hq & Ho). split; [done|]. exists []. split; [done|]. intros _. split; [by rewrite Ho|].
    by intros p Hp%not_elem_of_nil.
  - destruct (handle_forwards _ _ _ _ Hd _ _ _ E) as (-> & _ & _). split; [done|].
    destruct (arrival_genuine arrived l now dir buf size s s' Hd Hl E) as (l' & Hl' & G'). exists l'. split; [done|]. auto.
  - destruct (dequeue_queue _ _ _ now s () s' l Hl E) as (-> & _). split; [done|].
    destruct (delivery_genuine arrived l now s s' Hl E) as (l' & Hl' & G'). exists l'. split; [done|]. auto.
  - destruct (markov_try_keeps now s s' C E) as (C' & Eq & Eo). split; [done|]. exists l. rewrite Eq. split; [done|].
    intros HP. by eapply genuine_mono; [| |apply G].
  - destruct (handle_cmd_cmd _ _ _ _ _ _ _ E C) as (C' & Eo & Hq). split; [done|]. exists l. split; [by apply Hq|].
    intros HP. by eapply genuine_mono; [| |apply G].
Qed.

End safe.

(** ** A line set up by commands *)

Definition set_up (l : list string) : wire := default wire0 (run_state (forM l (λ c, _ ← demo_cmd c; mret ())) wire0).
Definition at_ms (ms : Z) : timeval := Timeval (ms / 1000) (ms mod 1000 * 1000).
Definition demo_handle := handle_packet demo_rand (λ x, x) 10.
Definition demo_dequeue := dequeue demo_rand (λ x, x) 10.
Definition after (m : M wire ()) (s : wire) : wire := default s (run_state m s).

(** The tags of the parameters, one by one. *)
Lemma all_tags (Q : Z → Prop) : Q 0 → Q 1 → Q 2 → Q 3 → Q 4 → Q 5 → Q 6 → Q 7 → Q 8 → ∀ tag, 0 ≤ tag < NUMVALUES → Q tag.
Proof.
  intros. assert (tag = 0 ∨ tag = 1 ∨ tag = 2 ∨ tag = 3 ∨ tag = 4 ∨ tag = 5 ∨ tag = 6 ∨ tag = 7 ∨ tag = 8) as Ht.
  { unfold NUMVALUES in *. lia. }
  repeat (destruct Ht as [-> |Ht]; [done|]). by subst.
Qed.

Ltac fixed_tag := eexists; vm_compute; reflexivity.

Lemma band_line_demo : band_line 1000 0 tv0 [] (set_up ["bandwidth 1000"%string]).
Proof.
  split; [lia | by left | | fixed_tag | by vm_compute | by split; [vm_compute | unfold tv_ok; simpl; lia] | | constructor | vm_compute; discriminate].
  - unfold quiet. apply (all_tags (λ tag, tag ∉ [BAND] → fixed (chain (set_up ["bandwidth 1000"%string])) tag 0 dzero));
      intros Hn; try fixed_tag. destruct Hn. by left.
  - apply (pq_rep_wf0 0).
Qed.


(** A channel of 1000 bytes with a delay: the third packet of 400 bytes is refused. *)
Definition chan0 : wire := set_up ["chanbufsize 1000"; "delay 20"]%string.
Definition chan_send (s : wire) : wire := after (demo_handle (at_ms 1000) 0 [7] 400) s.

Lemma chan0_capped : capped 1000 0 [] chan0.
Proof. split; [lia | fixed_tag | apply (pq_rep_wf0 0) | constructor | done]. Qed.

Lemma channel_buffer_bounded_witness :
  let s := chan_send (chan_send (chan_send chan0)) in
  (∃ l, pq_rep (queue s) l ∧ zget (delay_bufsize (queue s)) 0 = Some (total 0 l) ∧ 0 ≤ total 0 l ≤ 1000) ∧ npq (queue s) = 2.
Proof.
  assert (chan_run demo_rand (λ x, x) 10 1000 0 (chan_send (chan_send (chan_send chan0)))) as R.
  { assert (∀ s, chan_run demo_rand (λ x, x) 10 1000 0 s → demo_handle (at_ms 1000) 0 [7] 400 s = Done () (chan_send s) →
      chan_run demo_rand (λ x, x) 10 1000 0 (chan_send s)) as Step.
    { intros s Hs E. exact (chan_packet _ _ _ _ _ s (chan_send s) (at_ms 1000) 0 [7] 400 Hs (or_introl eq_refl) ltac:(lia) E). }
    apply Step; [|vm_compute; reflexivity]. apply Step; [|vm_compute; reflexivity]. apply Step; [|vm_compute; reflexivity].
    apply chan_start, chan0_capped. }
  split; [|by vm_compute].
  exact (channel_buffer_bounded demo_rand (λ x, x) 10 1000 0 _ R (or_introl eq_refl)).
Defined.

(** Two nodes, a packet that is delayed and one that is delivered. *)
Definition sys1 : wire := after (_ ← demo_cmd "load rc"; mret ()) wire0.
Definition sys2 : wire := after (demo_handle (at_ms 1000) 0 [1; 2; 3] 3) sys1.
Definition sys3 : wire := after (demo_dequeue (at_ms 9000)) sys2.

Lemma wire_filter_invariant_witness :
  chain_ok (chain sys3) ∧ markov_numnodes (chain sys3) = 2 ∧ outs sys3 = [(0, [1; 2; 3])] ∧
  ∃ l, pq_rep (queue sys3) l ∧ genuine [(0, [1; 2; 3])] l sys3.
Proof.
  assert (wire_run demo_rand (λ x, x) 10 demo_error demo_file 2 (λ s, noiseless (chain s)) sys3 [(0, [1; 2; 3])]) as R.
  { assert (noiseless (chain sys1) ∧ noiseless (chain sys2)) as [N1 N2]
      by (split; intros dir [-> | ->]; fixed_tag).
    eapply (wire_delivery _ _ _ _ _ _ _ sys2 _ _ (at_ms 9000)); [|exact N2 | vm_compute; reflexivity].
    eapply (wire_arrival _ _ _ _ _ _ _ sys1 _ [] (at_ms 1000) 0 [1; 2; 3] 3); [|exact N1 | by left | vm_compute; reflexivity].
    eapply (wire_command _ _ _ _ _ _ _ wire0 sys1 [] 3 tv0 5 "load rc"%string 0); [apply wire_begin | vm_compute; reflexivity]. }
  destruct (wire_filter_invariant demo_rand (λ x, x) 10 demo_error demo_file 2 _ sys3 _ R) as (C & l & Hl & G).
  split_and!; [exact C | by vm_compute | by vm_compute|]. exists l. split; [exact Hl | apply G; auto].
Defined.

(** ** Where the code does not do what it means to *)

(** A bandwidth below one byte per second, a legal value, becomes a division by
    zero. *)
Lemma bandwidth_below_one_crashes : demo_handle (at_ms 1000) 0 [1; 2] 2 (set_up ["bandwidth 0.5"%string]) = Fault.
Proof. vm_compute. reflexivity. Qed.

(** With 100 percent of duplicates the loop that counts the copies never ends,
    whatever numbers below one are drawn. *)
Lemma count_never_ends drand below : (∀ n, below (drand n) = true) → ∀ f k s, count_draws drand below f k s = Fault.
Proof.
  intros H. induction f as [|f IH]; intros k s; [done|]. cbn [count_draws].
  unfold mbind, M_bind, drand48. simpl. rewrite H. apply IH.
Qed.

Lemma dup_hundred_never_ends drand dlog fuel now buf size : (∀ n, dlt (drand n) (d_of_Z 1) = true) → 0 ≤ size →
  handle_packet drand dlog fuel now 0 buf size (set_up ["dup 100"%string]) = Fault.
Proof.
  intros H Hs. assert (∀ f k s, count_draws drand (λ r, dlt r (d_of_Z 1)) f k s = Fault) as Hc by (by apply count_never_ends).
  unfold handle_packet. set (s := set_up _).
  assert (too_large 0 size s = Done false s) as E1.
  { apply wp_eq, wp_bind, wp_gets, wp_bind. apply (wp_min s MTU 0 dzero); [fixed_tag | done]. }
  assert (lost drand dlog fuel 0 s = Done false s) as E2 by (vm_compute; reflexivity).
  assert (limited DDUP 0 s = Done true s) as E3 by (vm_compute; reflexivity).
  assert (percent drand dlog fuel DDUP 0 s = Done (d_of_Z 1) s) as E4 by (vm_compute; reflexivity).
  unfold copies, mbind, M_bind. rewrite E1. cbv iota beta. rewrite E2. cbv iota beta. rewrite E3. cbv iota beta.
  rewrite E4. cbv iota beta. by rewrite Hc.
Qed.

(** Noise in a frame of full length is written behind the end of the array. *)
Definition high_rand (n : nat) : double := if (n =? 0)%nat then ddiv (d_of_Z 1) (d_of_Z 2) else ddiv (d_of_Z 9999) (d_of_Z 10000).
Lemma noise_overflows : writepacket high_rand (λ x, x) 10 0 [] 2048 (set_up ["noise 500"%string]) = Fault.
Proof. vm_compute. reflexivity. Qed.

(** The name of a node without a name behind the number, and no argument at all:
    [strchr] finds the end of the string in every set. *)
Lemma name_without_name_overruns : demo_cmd "markov-name 0" wire0 = Fault ∧ demo_cmd "markov-name" wire0 = Fault.
Proof. split; vm_compute; reflexivity. Qed.

(** An edge without its weight, and a period that is not a number, use variables
    that were never set. *)
Lemma missing_numbers_read_junk : demo_cmd "setedge 0,0" wire0 = Fault ∧ demo_cmd "markov-time" wire0 = Fault.
Proof. split; vm_compute; reflexivity. Qed.

(** Closing a terminal when all the places are taken writes behind the table. *)
Definition full_table (s : wire) : wire := set_table [10; 11; 12; 13; 14; 15; 16; 17] (replicate 8 0) s.
Lemma closing_overflows_table : delmgmtconn 5 8 (full_table wire0) = Fault.
Proof. vm_compute. reflexivity. Qed.

(** The place that becomes free is not cleared, but the one behind it: a closed
    terminal that asked for the moves of the chain is still written to. *)
Definition one_terminal : wire := set_table [10; 11; 12; -1; -1; -1; -1; -1] [0; 0; 1; 0; 0; 0; 0; 0] sys1.
Lemma closed_terminal_still_written :
  match (_ ← delmgmtconn 2 3; notify 0 1) one_terminal with
  | Done _ s => drop (length (shown (terms one_terminal))) (shown (terms s)) =
      [(12, "3801 Node 0 " ++ quote "" ++ " -> 1 " ++ quote "" ++ newline)%string]
  | _ => False
  end.
Proof. vm_compute. reflexivity. Qed.

(** When the chain is late, the difference is a large unsigned number and a
    negative [int]: with nothing in the queue, [poll] waits for ever. *)
Definition late : wire := set_chain (set_next 1000 (chain sys1)) sys1.
Lemma late_chain_is_not_served :
  markov_next (chain late) < tv_ms (at_ms 1500) ∧ markovms (at_ms 1500) late = Done (-500) late ∧
  main_wait (at_ms 1500) tv0 2 late = Done (-1, true, true) late.
Proof. split_and!; vm_compute; done. Qed.

(** The wait for the second direction is decided by what the stack held. *)
Definition slow : wire := set_speed [tv0; at_ms 2000] (set_up ["speed 1000"%string]).
Lemma second_direction_uses_junk :
  main_wait (at_ms 1500) tv0 2 slow = Done (500, true, false) slow ∧
  main_wait (at_ms 1500) (at_ms 3000) 2 slow = Done (-1, true, true) slow.
Proof. split; vm_compute; reflexivity. Qed.

(** A failed [vde_recv] is handled as a packet, shorter than its own header. *)
Lemma failed_receive_is_sent :
  ∃ s, packet_in demo_rand (λ x, x) 10 tv0 0 (-1) [] wire0 = Done () s ∧ outs s = [(0, [255])].
Proof. eexists. split; vm_compute; reflexivity. Qed.
