(* ===== verification/L3.v ===== *)
(** * L3: the layer 3 switch [vde_l3]

    [vde_l3.c] with its queueing disciplines [pfifo.c], [bfifo.c] and [tbf.c]: the
    interfaces with their output queues, the ARP table, the routes, and the path
    of a packet from its arrival to an output queue or to a reply.  A packet is a
    byte buffer; an address inside a packet is its four bytes, an address in the
    tables a number.  Sent frames are recorded with the interface they leave by.
    Allocation is taken to succeed, as the sources do outside of
    [vdebuff_alloc].  The routes and the ARP entries come from [malloc] and their
    [next] is never set: what it holds, NULL or not, is part of the model, and a
    walk that goes through a [next] that is not NULL faults.  [dequeue_pending] and [arp_pending] are not modelled: nothing
    is ever added to that list. *)
From Stdlib Require Import Lia.
From stdpp Require Import base numbers list strings.
From S2P Require Import Prelude.

(** ** Data *)

Record vde_buff := VdeBuff { data : list Z; len : Z }.
(** The last field of a route and of an ARP entry: whether [next] is NULL in the
    memory that [malloc] gave for it.  No code sets it before another entry is
    linked behind, so only the one of the last entry matters. *)
Record vde_route := VdeRoute { network : Z; rnm : Z; gw : Z; rclear : bool }.
Record arp_entry := ArpEntry { amac : list Z; aip : list Z; aclear : bool }.

Record tc_fifo := TcFifo { qlen : Z; limit : Z; dropped : Z }.
Record timeval := Timeval { tv_sec : Z; tv_usec : Z }.
Record tc_tbf := TcTbf {
  t_qlen : Z; t_limit : Z; latency : Z; rate : Z; t_dropped : Z; mtu : Z; bytes_out : Z;
  delta : timeval; last_out : timeval
}.

(** The policy of an interface with its private area. *)
Inductive policy := Ufifo | Pfifo (p : tc_fifo) | Bfifo (p : tc_fifo) | Tbf (p : tc_tbf).

Record vde_iface := VdeIface {
  ifid : Z; mac : list Z; ipaddr : Z; nm : Z; q_out : list vde_buff; pol : policy; policy_name : string
}.

Record l3 := L3St {
  interfaces : list vde_iface;
  route_table : list vde_route;
  arp_table : list arp_entry;
  default_gw : Z;
  ident : Z;
  sent : list (Z * list Z)
}.

Definition set_ifaces (x : list vde_iface) (s : l3) : l3 :=
  L3St x (route_table s) (arp_table s) (default_gw s) (ident s) (sent s).
Definition set_routes (x : list vde_route) (s : l3) : l3 :=
  L3St (interfaces s) x (arp_table s) (default_gw s) (ident s) (sent s).
Definition set_arp (x : list arp_entry) (s : l3) : l3 :=
  L3St (interfaces s) (route_table s) x (default_gw s) (ident s) (sent s).
Definition set_ident (x : Z) (s : l3) : l3 :=
  L3St (interfaces s) (route_table s) (arp_table s) (default_gw s) x (sent s).
Definition set_sent (x : list (Z * list Z)) (s : l3) : l3 :=
  L3St (interfaces s) (route_table s) (arp_table s) (default_gw s) (ident s) x.

(** ** Bytes *)

Definition PTYPE_IP : Z := 0x0800.
Definition PTYPE_ARP : Z := 0x0806.
Definition PROTO_ICMP : Z := 1.
Definition ETH_BCAST : list Z := replicate 6 255.

(** Big-endian conversions: [htons], [htonl] and [ntohl] with the bytes in memory. *)
Definition be16 (z : Z) : list Z := [u8 (Z.shiftr z 8); u8 z].
Definition be32 (z : Z) : list Z := [u8 (Z.shiftr z 24); u8 (Z.shiftr z 16); u8 (Z.shiftr z 8); u8 z].
Definition of_be (l : list Z) : Z := foldl (λ acc b, acc * 256 + b) 0 l.
(** A 16-bit host integer in memory (little-endian hosts). *)
Definition le16 (z : Z) : list Z := [u8 z; u8 (Z.shiftr z 8)].
Definition of_le16 (l : list Z) : Z := nth 0 l 0 + 256 * nth 1 l 0.

(** Reading and writing the bytes of a packet; outside the buffer is a fault. *)
Definition rd (p : vde_buff) (o n : Z) : M l3 (list Z) :=
  if o + n <=? Z.of_nat (length (data p)) then mret (slice (data p) o n) else fault.
Definition wr (p : vde_buff) (o : Z) (d : list Z) : M l3 vde_buff :=
  d' ← deref (memcpy_at (data p) o d); mret (VdeBuff d' (len p)).
Definition rd8 (p : vde_buff) (o : Z) : M l3 Z := deref (zget (data p) o).

(** Offsets of the fields: Ethernet, then ARP or IP, then ICMP. *)
Definition E_DST : Z := 0.
Definition E_SRC : Z := 6.
Definition E_TYPE : Z := 12.
Definition IPH : Z := 14.
Definition IP_TTL : Z := 22.
Definition IP_PROTO : Z := 23.
Definition IP_CHECK : Z := 24.
Definition IP_SADDR : Z := 26.
Definition IP_DADDR : Z := 30.
Definition PAYLOAD : Z := 34.

Definition vdebuff_alloc (size : Z) : vde_buff :=
  VdeBuff (replicate 12 0 ++ be16 PTYPE_IP ++ replicate (Z.to_nat (size + 1) - 14) 0) size.

(** [raw_send] *)
Definition raw_send (id : Z) (p : vde_buff) : M l3 () :=
  d ← rd p 0 (len p); modify (λ s, set_sent (sent s ++ [(id, d)]) s).

(** Interfaces are found by their place in the list. *)
Definition iface (i : nat) : M l3 vde_iface := s ← get; deref (interfaces s !! i).
Definition iface_put (i : nat) (v : vde_iface) : M l3 () :=
  modify (λ s, set_ifaces (<[i := v]> (interfaces s)) s).
Definition with_q (q : list vde_buff) (p : policy) (v : vde_iface) : vde_iface :=
  VdeIface (ifid v) (mac v) (ipaddr v) (nm v) q p (policy_name v).

(** ** Queueing disciplines *)

Definition ufifo_enqueue (vdb : vde_buff) (v : vde_iface) : vde_iface := with_q (q_out v ++ [vdb]) (pol v) v.

(** [ufifo_dequeue] sends the first packet; without one it dereferences NULL. *)
Definition ufifo_dequeue (i : nat) : M l3 bool :=
  v ← iface i;
  match q_out v with
  | [] => fault
  | vdb :: q => raw_send (ifid v) vdb ;; iface_put i (with_q q (pol v) v) ;; mret (negb (bool_decide (q = [])))
  end.

Definition pfifo_enqueue (p : tc_fifo) (vdb : vde_buff) (v : vde_iface) : vde_iface * Z :=
  if qlen p <? limit p then (with_q (q_out v ++ [vdb]) (Pfifo (TcFifo (u32 (qlen p + 1)) (limit p) (dropped p))) v, 1)
  else (with_q (q_out v) (Pfifo (TcFifo (qlen p) (limit p) (u32 (dropped p + 1)))) v, 0).

(** In [qlen + vdb->len] the length is an [unsigned long]. *)
Definition bfifo_enqueue (p : tc_fifo) (vdb : vde_buff) (v : vde_iface) : vde_iface * Z :=
  if u64 (qlen p + len vdb) <? limit p
  then (with_q (q_out v ++ [vdb]) (Bfifo (TcFifo (u32 (qlen p + len vdb)) (limit p) (dropped p))) v, 1)
  else (with_q (q_out v) (Bfifo (TcFifo (qlen p) (limit p) (u32 (dropped p + 1)))) v, 0).

(** All 32-bit; a zero [rate] cannot pass [tbf_init]. *)
Definition tbf_enqueue (p : tc_tbf) (vdb : vde_buff) (v : vde_iface) : vde_iface * Z :=
  if t_qlen p <? t_limit p then
    let q := u32 (t_qlen p + len vdb) in
    let p' :=
      if mtu p <? len vdb then
        let mtu' := u32 (len vdb) in
        TcTbf q (if negb (latency p =? 0) then u32 (rate p / mtu' * latency p) else t_limit p) (latency p) (rate p)
          (t_dropped p) mtu' (bytes_out p) (Timeval (tv_sec (delta p)) (u32 (1000000 * mtu') / rate p)) (last_out p)
      else TcTbf q (t_limit p) (latency p) (rate p) (t_dropped p) (mtu p) (bytes_out p) (delta p) (last_out p) in
    (with_q (q_out v ++ [vdb]) (Tbf p') v, 1)
  else (with_q (q_out v) (Tbf (TcTbf (t_qlen p) (t_limit p) (latency p) (rate p) (u32 (t_dropped p + 1)) (mtu p)
          (bytes_out p) (delta p) (last_out p))) v, 0).

(** [vif->enqueue(vdb,vif)]: the interface with the packet queued or dropped. *)
Definition push (vdb : vde_buff) (v : vde_iface) : vde_iface * Z :=
  match pol v with
  | Ufifo => (ufifo_enqueue vdb v, 1)
  | Pfifo p => pfifo_enqueue p vdb v
  | Bfifo p => bfifo_enqueue p vdb v
  | Tbf p => tbf_enqueue p vdb v
  end.
Definition enqueue (i : nat) (vdb : vde_buff) : M l3 Z :=
  v ← iface i;
  iface_put i (push vdb v).1 ;; mret (push vdb v).2.

Definition pfifo_dequeue (i : nat) (p : tc_fifo) : M l3 bool :=
  _ ← ufifo_dequeue i;
  let q := if 0 <? qlen p then qlen p - 1 else qlen p in
  v ← iface i;
  iface_put i (with_q (q_out v) (Pfifo (TcFifo q (limit p) (dropped p))) v) ;;
  mret (0 <? q).

(** The length that is subtracted is read from the new head of the queue. *)
Definition bfifo_dequeue (i : nat) (p : tc_fifo) : M l3 bool :=
  _ ← ufifo_dequeue i;
  v ← iface i;
  q ← (if 0 <? qlen p then h ← deref (head (q_out v)); mret (u32 (qlen p - len h)) else mret (qlen p));
  iface_put i (with_q (q_out v) (Bfifo (TcFifo q (limit p) (dropped p))) v) ;;
  mret (0 <? q).

Definition add_t (x y : timeval) : timeval :=
  Timeval (tv_sec x + tv_sec y + Z.quot (tv_usec x + tv_usec y) 1000000) (Z.rem (tv_usec x + tv_usec y) 1000000).
Definition before (x y : timeval) : bool :=
  (tv_sec x <? tv_sec y) || ((tv_sec x =? tv_sec y) && (tv_usec x <? tv_usec y)).

(** [while (bytes_out >= mtu)]: the bytes left and the last time. *)
Fixpoint tbf_spend (fuel : nat) (now : timeval) (m out : Z) (last : timeval) : option (Z * timeval) :=
  if m <=? out then match fuel with O => None | S fuel => tbf_spend fuel now m (out - m) now end
  else Some (out, last).

Definition tbf_dequeue (now : timeval) (i : nat) (p : tc_tbf) : M l3 bool :=
  if before now (add_t (last_out p) (delta p)) then mret false else
  v ← iface i;
  h ← deref (head (q_out v));
  let out := u32 (len h) in
  _ ← ufifo_dequeue i;
  v ← iface i;
  '(rest, last) ← deref (tbf_spend (Z.to_nat out) now (mtu p) out (last_out p));
  iface_put i (with_q (q_out v) (Tbf (TcTbf (u32 (t_qlen p - out)) (t_limit p) (latency p) (rate p) (t_dropped p) (mtu p)
    rest (delta p) last)) v) ;;
  mret true.

(** [vif->dequeue(vif)] *)
Definition dequeue (now : timeval) (i : nat) : M l3 bool :=
  v ← iface i;
  match pol v with
  | Ufifo => ufifo_dequeue i
  | Pfifo p => pfifo_dequeue i p
  | Bfifo p => bfifo_dequeue i p
  | Tbf p => tbf_dequeue now i p
  end.

(** The private areas after a successful [pfifo_init], [bfifo_init] and [tbf_init]. *)
Definition fifo_init (lim : Z) : tc_fifo := TcFifo 0 (u32 lim) 0.
(** The parsed rate in bits per second, with the latency or the limit given. *)
Definition tbf_init (bits lat lim : Z) (now : timeval) : option tc_tbf :=
  if bits <? 5000 then None else
  let r := Z.shiftr bits 3 in
  Some (TcTbf 0 (if negb (lat =? 0) then u32 (r / 1000 * lat) else lim) lat r 0 1000 0 (Timeval 0 (u32 (1000000 * 1000) / r)) now).

(** ** Tables *)

Definition add_iface (new : vde_iface) (l : list vde_iface) : list vde_iface := l ++ [new].

(** A list whose last entry has a NULL [next]; the others have got theirs when
    the following entry was linked. *)
Definition ended {A} (clear : A → bool) (l : list A) : bool := match last l with Some a => clear a | None => true end.
(** A walk beyond the last entry. *)
Definition walk_end {A} (clear : A → bool) (l : list A) : M l3 () := if ended clear l then mret () else fault.

(** The recursion follows [next] to NULL, then links the new entry. *)
Definition add_route (new : vde_route) : M l3 () :=
  s ← get; walk_end rclear (route_table s) ;; modify (set_routes (route_table s ++ [new])).
Definition add_arp_entry (new : arp_entry) : M l3 () :=
  s ← get; walk_end aclear (arp_table s) ;; modify (set_arp (arp_table s ++ [new])).

Fixpoint find_arp (l : list arp_entry) (ip : list Z) : option arp_entry :=
  match l with
  | [] => None
  | a :: l' => if bool_decide (aip a = ip) then Some a else find_arp l' ip
  end.
(** The search ends at the first match, or goes beyond the last entry. *)
Definition get_arp_entry (ip : list Z) : M l3 (option arp_entry) :=
  s ← get;
  match find_arp (arp_table s) ip with
  | Some ae => mret (Some ae)
  | None => walk_end aclear (arp_table s) ;; mret None
  end.

(** The place of the first interface that satisfies a test. *)
Fixpoint find_iface (f : vde_iface → bool) (l : list vde_iface) (i : nat) : option nat :=
  match l with
  | [] => None
  | v :: l' => if f v then Some i else find_iface f l' (S i)
  end.
Definition get_interface (l : list vde_iface) (id : Z) : option nat := find_iface (λ v, ifid v =? id) l 0.
Definition get_iface_by_ipaddr (l : list vde_iface) (addr : Z) : option nat := find_iface (λ v, ipaddr v =? addr) l 0.
Definition is_neightbor (l : list vde_iface) (addr : Z) : option nat :=
  find_iface (λ v, Z.land (ipaddr v) (nm v) =? Z.land addr (nm v)) l 0.

(** The loop of [get_gateway]: the gateway so far and the largest netmask. *)
Fixpoint gateway_loop (l : list vde_route) (addr res max_netmask : Z) : Z :=
  match l with
  | [] => res
  | r :: l' =>
    if (Z.land (network r) (rnm r) =? Z.land addr (rnm r)) && (max_netmask <? rnm r)
    then gateway_loop l' addr (gw r) (rnm r)
    else gateway_loop l' addr res max_netmask
  end.
Definition find_gateway (s : l3) (addr : Z) : Z :=
  let res := gateway_loop (route_table s) addr 0 0 in
  if res =? 0 then default_gw s else res.
(** The loop always goes through the whole table. *)
Definition get_gateway (addr : Z) : M l3 Z :=
  s ← get; walk_end rclear (route_table s) ;; mret (find_gateway s addr).

(** ** ARP *)

Definition ARP_REQUEST : Z := 1.
Definition ARP_REPLY : Z := 2.
(** Offsets in a packet of the fields of [struct arp_header]. *)
Definition A_OPCODE : Z := 20.
Definition A_SMAC : Z := 22.
Definition A_SADDR : Z := 28.
Definition A_DMAC : Z := 32.
Definition A_DADDR : Z := 38.

Definition arp_query (i : nat) (tgt : Z) : M l3 () :=
  v ← iface i;
  let p := vdebuff_alloc 60 in
  p ← wr p E_DST ETH_BCAST;
  p ← wr p E_SRC (mac v);
  p ← wr p E_TYPE (be16 PTYPE_ARP);
  p ← wr p IPH (be16 1 ++ be16 PTYPE_IP ++ [6; 4] ++ be16 ARP_REQUEST);
  p ← wr p A_SMAC (mac v);
  p ← wr p A_SADDR (be32 (ipaddr v));
  p ← wr p A_DMAC (replicate 6 0);
  p ← wr p A_DADDR (be32 tgt);
  raw_send (ifid v) p.

Definition swap_fields (p : vde_buff) (o1 o2 n : Z) : M l3 vde_buff :=
  a ← rd p o1 n; b ← rd p o2 n; p ← wr p o1 b; wr p o2 a.

Definition arp_reply (i : nat) (p : vde_buff) : M l3 () :=
  v ← iface i;
  p ← swap_fields p E_SRC E_DST 6;
  p ← wr p E_SRC (mac v);
  p ← wr p A_OPCODE (be16 ARP_REPLY);
  p ← swap_fields p A_SMAC A_DMAC 6;
  p ← wr p A_SMAC (mac v);
  p ← swap_fields p A_SADDR A_DADDR 4;
  raw_send (ifid v) p.

(** [is_arp_pending] always answers 0.  [clear] tells whether the memory of the
    new entry starts with a NULL [next]. *)
Definition parse_arp (clear : bool) (p : vde_buff) : M l3 Z :=
  s ← get;
  d ← rd p A_DADDR 4;
  match get_iface_by_ipaddr (interfaces s) (of_be d) with
  | None => mret (-1)
  | Some i =>
    m ← rd p A_SMAC 6;
    a ← rd p A_SADDR 4;
    add_arp_entry (ArpEntry m a clear) ;;
    op ← rd p A_OPCODE 2;
    if of_be op =? ARP_REQUEST then arp_reply i p ;; mret 0 else mret (-1)
  end.

(** ** IP *)

(** [sum] is 32 bits wide. *)
Fixpoint sum_bytes (l : list Z) (i : Z) (sum : Z) : Z :=
  match l with
  | [] => sum
  | b :: l' => sum_bytes l' (i + 1) (u32 (sum + (if negb (Z.rem i 2 =? 0) then b else Z.shiftl b 8)))
  end.
Definition checksum (l : list Z) : Z :=
  let sum := sum_bytes l 0 0 in
  let carry := Z.shiftr (Z.land sum 0xFFFF0000) 16 in
  let sum := Z.land sum 0x0000FFFF in
  u16 (Z.lnot (sum + carry)).

(** [ip_checksum]: the field is cleared first; the packet comes back with it. *)
Definition ip_checksum (p : vde_buff) : M l3 (vde_buff * Z) :=
  p ← wr p IP_CHECK [0; 0];
  h ← rd p IPH 20;
  mret (p, checksum h).
Definition set_checksum (p : vde_buff) : M l3 vde_buff :=
  '(p, c) ← ip_checksum p; wr p IP_CHECK (be16 c).

Definition neightbor_send (i : nat) (p : vde_buff) : M l3 Z :=
  d ← rd p IP_DADDR 4;
  v ← iface i;
  o ← get_arp_entry d;
  match o with
  | Some ae => p ← wr p E_SRC (mac v); p ← wr p E_DST (amac ae); enqueue i p
  | None => _ ← wr p E_SRC (replicate 6 0); arp_query i (of_be d) ;; mret 0
  end.

(** A gateway that is on no network of the router makes [to] NULL. *)
Definition gateway_send (p : vde_buff) (gwy : Z) : M l3 Z :=
  s ← get;
  i ← deref (is_neightbor (interfaces s) gwy);
  v ← iface i;
  o ← get_arp_entry (be32 gwy);
  match o with
  | Some ae => p ← wr p E_SRC (mac v); p ← wr p E_DST (amac ae); enqueue i p
  | None => _ ← wr p E_DST (replicate 6 0); arp_query i gwy ;; mret 0
  end.

Definition ip_send (p : vde_buff) : M l3 Z :=
  s ← get;
  d ← rd p IP_DADDR 4;
  match is_neightbor (interfaces s) (of_be d) with
  | Some i => neightbor_send i p
  | None =>
    gateway ← get_gateway (of_be d);
    if negb (gateway =? 0) then gateway_send p gateway else mret (-1)
  end.

(** [iph->ttl--; iph->check++]: the checksum field is a host integer. *)
Definition decrease_ttl (p : vde_buff) : M l3 (vde_buff * Z) :=
  ttl ← rd8 p IP_TTL;
  p ← wr p IP_TTL [u8 (ttl - 1)];
  c ← rd p IP_CHECK 2;
  p ← wr p IP_CHECK (le16 (of_le16 c + 1));
  mret (p, u8 (ttl - 1)).

Definition ip_forward (p : vde_buff) : M l3 Z :=
  '(p, ttl) ← decrease_ttl p;
  if ttl <? 1 then mret (-1) else ip_send p.

Definition DEFAULT_TTL : Z := 64.

Definition ip_output (p : vde_buff) (dst protocol : Z) : M l3 Z :=
  p ← wr p IPH [0x45];
  p ← wr p (IPH + 1) [0];
  p ← wr p (IPH + 6) (be16 0x4000);
  p ← wr p (IPH + 2) (be16 (u16 (len p - 14)));
  p ← wr p (IPH + 4) [0; 0];
  p ← wr p IP_PROTO [protocol];
  p ← wr p IP_TTL [DEFAULT_TTL];
  p ← set_checksum p;
  s ← get;
  oif ← match is_neightbor (interfaces s) dst with
        | Some i => mret (Some i)
        | None => g ← get_gateway dst; mret (is_neightbor (interfaces s) g)
        end;
  match oif with
  | None => mret (-1)
  | Some i =>
    v ← iface i;
    p ← wr p IP_SADDR (be32 (ipaddr v));
    p ← wr p IP_DADDR (be32 dst);
    p ← set_checksum p;
    ip_send p
  end.

Definition ip_output_ready (p : vde_buff) : M l3 Z :=
  d ← rd p IP_DADDR 4;
  proto ← rd8 p IP_PROTO;
  ip_output p (of_be d) proto.

(** ICMP in the first bytes of the payload. *)
Definition ICMP_ECHOREPLY : Z := 0.
Definition ICMP_DEST_UNREACH : Z := 3.
Definition ICMP_PROT_UNREACH : Z := 2.
Definition ICMP_ECHO : Z := 8.

Definition icmp_checksum (p : vde_buff) : M l3 vde_buff :=
  p ← wr p (PAYLOAD + 2) [0; 0];
  d ← rd p PAYLOAD (Z.max 0 (len p - 34));
  wr p (PAYLOAD + 2) (be16 (checksum d)).

Definition service_unreachable (p_in : vde_buff) : M l3 Z :=
  let p := vdebuff_alloc (14 + 20 + 8) in
  p ← wr p PAYLOAD [ICMP_DEST_UNREACH; ICMP_PROT_UNREACH];
  s ← get;
  p ← wr p (PAYLOAD + 4) (le16 (ident s));
  p ← wr p (PAYLOAD + 6) [0; 0];
  let id := u16 (ident s + 1) in
  modify (set_ident (if id =? 0xFFFF then 0 else id)) ;;
  p ← icmp_checksum p;
  src ← rd p_in IP_SADDR 4;
  ip_output p (of_be src) PROTO_ICMP.

Definition parse_icmp (p : vde_buff) : M l3 Z :=
  ty ← rd8 p PAYLOAD;
  p ← (if ty =? ICMP_ECHO then
         p ← swap_fields p IP_SADDR IP_DADDR 4;
         p ← wr p PAYLOAD [ICMP_ECHOREPLY];
         p ← icmp_checksum p;
         set_checksum p
       else mret p);
  _ ← ip_output_ready p;
  mret 1.

Definition ip_input (p : vde_buff) : M l3 Z :=
  v ← rd8 p IPH;
  if negb (v =? 0x45) then mret (-1) else
  proto ← rd8 p IP_PROTO;
  if proto =? PROTO_ICMP then parse_icmp p else service_unreachable p.

Definition parse_ip (clear : bool) (p : vde_buff) : M l3 Z :=
  s ← get;
  src ← rd p IP_SADDR 4;
  o ← get_arp_entry src;
  match o with
  | Some _ => mret ()
  | None => m ← rd p E_SRC 6; add_arp_entry (ArpEntry m src clear)
  end ;;
  d ← rd p IP_DADDR 4;
  match get_iface_by_ipaddr (interfaces s) (of_be d) with
  | Some _ => ip_input p
  | None => ip_forward p
  end.

(** ** The main loop *)

Definition is_multicast_mac (m : list Z) : bool :=
  negb (Z.land (nth 0 m 0) 0x01 =? 0) && negb (Z.land (nth 2 m 0) 0x5E =? 0).

(** A frame of at most 1548 bytes received on interface [i]; [clear] is the memory
    of the ARP entry that it may add. *)
Definition receive (i : nat) (frame : list Z) (clear : bool) : M l3 () :=
  v ← iface i;
  let p := VdeBuff (take 1551 (frame ++ drop (length frame) (data (vdebuff_alloc 1550)))) (Z.of_nat (length frame)) in
  dst ← rd p E_DST 6;
  src ← rd p E_SRC 6;
  if bool_decide (dst = mac v) || (is_multicast_mac dst && negb (bool_decide (src = mac v))) then
    ty ← rd p E_TYPE 2;
    whenM (of_be ty =? PTYPE_ARP) (_ ← parse_arp clear p; mret ()) ;;
    whenM (of_be ty =? PTYPE_IP) (_ ← parse_ip clear p; mret ())
  else mret ().

(** The interfaces whose descriptor is writable send one packet each. *)
Definition serve (now : timeval) (writable : nat → bool) : M l3 () :=
  s ← get;
  forM (seq 0 (length (interfaces s))) (λ i,
    v ← iface i;
    whenM (writable i && negb (bool_decide (q_out v = []))) (_ ← dequeue now i; mret ())).

(** ** Addresses *)

Definition unicast_ip (ip : Z) : Z := if Z.land ip 0xE0000000 =? 0xE0000000 then 0 else ip.

(** [valid_nm]: the prefixes of ones from the longest to the shortest loop. *)
Fixpoint valid_nm_loop (l : list Z) (nm valid : Z) : Z :=
  match l with
  | [] => 0
  | i :: l' => let valid := u32 (valid + Z.shiftl 1 i) in if nm =? valid then nm else valid_nm_loop l' nm valid
  end.
Definition valid_nm (nm : Z) : Z := valid_nm_loop (rev (seqZ 0 32)) nm 0.
