(* ===== verification/L3Console.v ===== *)
(** * L3Console: addresses, options and commands of the layer 3 switch

    The conversions of addresses and netmasks, the options of [main], and the
    management commands [ifconfig], [route] and [tc] of [vde_l3.c] with the
    [policy_init] functions of the disciplines.  A command answers a code and
    the lines it prints.  [inet_addr] and [sscanf] are those of glibc.  The
    values the sources never initialise are parameters: [stale], the private
    area of an interface read as another discipline's, and [junk], the [limit]
    of a [tbf] with a zero latency; [clear] tells whether the memory of a new
    route starts with a NULL [next], which is never set either. *)
From Stdlib Require Import Lia Ascii String.
From stdpp Require Import base numbers list strings.
From S2P Require Import Prelude Scan L3.

Local Notation "a +:+ b" := (String.append a b) (at level 60, right associativity).

(** ** Addresses *)

(** The string before and after the first [c]: [index], then the [c] overwritten
    with a NUL. *)
Fixpoint split_at (c : ascii) (s : string) : option (string * string) :=
  match s with
  | EmptyString => None
  | String c' s' =>
    if ascii_z c' =? ascii_z c then Some (EmptyString, s') else
    match split_at c s' with Some (a, b) => Some (String c' a, b) | None => None end
  end.

(** One number of an address: decimal, octal or hexadecimal. *)
Definition inet_num (s : string) : option (Z * string) :=
  match s with
  | String c _ =>
    if isdigit c then
      let '(base, s') := scan_base s in
      let '(v, seen, rest) := scan_digits base s' 0 false in
      if (seen : bool) && (v <? 2 ^ 32) then Some (v, rest) else None
    else None
  | EmptyString => None
  end.

(** [n] more numbers at most; the last one fills the bytes that remain. *)
Fixpoint inet_aton (n : nat) (s : string) (acc : Z) : option Z :=
  match n with
  | O => None
  | S n' =>
    match inet_num s with
    | None => None
    | Some (v, rest) =>
      let whole := if v <? 256 ^ Z.of_nat n then Some (acc * 256 ^ Z.of_nat n + v) else None in
      match rest with
      | EmptyString => whole
      | String c rest' =>
        if ascii_z c =? 46 then if (1 <? n)%nat && (v <? 256) then inet_aton n' rest' (acc * 256 + v) else None
        else if isspace c then whole else None
      end
    end
  end.

(** [ntohl(inet_addr(c))], -1 for what is not an address. *)
Definition ascii2ip (c : string) : Z := default 0xFFFFFFFF (inet_aton 4 c 0).

(** [while(nmval>0 && nmval<32 && (i >= (32 - nmval))) res+=(1<<i--)] *)
Fixpoint cidr_loop (fuel : nat) (nmval i res : Z) : Z :=
  match fuel with
  | O => res
  | S fuel =>
    if (0 <? nmval) && (nmval <? 32) && (32 - nmval <=? i) then cidr_loop fuel nmval (i - 1) (u32 (res + Z.shiftl 1 i))
    else res
  end.
Definition ascii2nm (c : string) : Z :=
  let res := ascii2ip c in
  valid_nm (if res =? 0 then
              match scan_d c with Some (nmval, _) => cidr_loop 33 nmval 31 res | None => res end
            else res).

Definition ip2ascii (ip : Z) : string :=
  show_int (u8 (Z.shiftr ip 24)) +:+ String "." (show_int (u8 (Z.shiftr ip 16)) +:+ String "."
    (show_int (u8 (Z.shiftr ip 8)) +:+ String "." (show_int (u8 ip)))).
Definition ip2mac (ip : Z) : list Z := [0; 0xAA] ++ be32 ip.

(** ** Commands *)

(** The code and the lines of an answer. *)
Definition answer : Type := Z * list string.

Definition TAB : string := String (ascii_of_nat 9) EmptyString.
Definition strlen (s : string) : Z := Z.of_nat (String.length s).
(** [strncmp(s,p,strlen(p)) == 0] *)
Definition starts (p s : string) : bool := String.prefix p s.
Definition skip (n : nat) (s : string) : string := String.substring n (String.length s - n) s.
(** [s[strlen(s)-1] = 0] *)
Definition drop_last (s : string) : string := String.substring 0 (String.length s - 1) s.

Definition route_usage : list string :=
  ["'route' command usage:";
   "route list" +:+ TAB +:+ TAB +:+ TAB +:+ TAB +:+ TAB +:+ "Print out the routing table";
   "route net ADDRESS/NETMASK:GATEWAY     " +:+ TAB +:+ "Add/change static route";
   "route default gw GATEWAY     " +:+ TAB +:+ TAB +:+ TAB +:+ "Change default route"].

Definition route_line (dst gwy mask : Z) (sep : string) (id : Z) : string :=
  ip2ascii dst +:+ sep +:+ ip2ascii gwy +:+ TAB +:+ TAB +:+ ip2ascii mask +:+ TAB +:+ TAB +:+ "vd" +:+ show_int id.

(** [route list]: the default route is printed through the interface of its
    gateway, which is NULL when the gateway is on no network. *)
Definition route_list : M l3 (list string) :=
  s ← get;
  let ifs := (λ v, route_line (Z.land (ipaddr v) (nm v)) 0 (nm v) TAB (ifid v)) <$> interfaces s in
  let routes := omap (λ r,
    match is_neightbor (interfaces s) (gw r) with
    | Some i => (λ v, route_line (Z.land (network r) (rnm r)) (gw r) (rnm r) TAB (ifid v)) <$> (interfaces s !! i)
    | None => None
    end) (route_table s) in
  walk_end rclear (route_table s) ;;
  dflt ← (if negb (default_gw s =? 0)
          then i ← deref (is_neightbor (interfaces s) (default_gw s)); v ← iface i;
               mret [route_line 0 (default_gw s) 0 (TAB +:+ TAB) (ifid v)]
          else mret []);
  mret (("Destination" +:+ TAB +:+ "Gateway" +:+ TAB +:+ TAB +:+ "Genmask" +:+ TAB +:+ TAB +:+ "Iface") :: ifs ++ routes ++ dflt).

Definition set_default (g : Z) (s : l3) : l3 := L3St (interfaces s) (route_table s) (arp_table s) g (ident s) (sent s).

(** The route with the same network and netmask gets the new gateway. *)
Fixpoint route_update (new : vde_route) (l : list vde_route) : option (list vde_route) :=
  match l with
  | [] => None
  | r :: l' =>
    if (network new =? network r) && (rnm new =? rnm r) then Some (VdeRoute (network r) (rnm r) (gw new) (rclear r) :: l')
    else (r ::.) <$> route_update new l'
  end.

(** [clear]: what [malloc] gave for a new route. *)
Definition route (clear : bool) (s : string) : M l3 answer :=
  if strlen s =? 1 then mret (1, route_usage) else
  out ← (if (strlen s =? 5) && starts "list" s then route_list else mret []);
  if starts "default gw " s then
    let g := unicast_ip (ascii2ip (skip 11 s)) in
    modify (set_default g) ;;
    if g =? 0 then mret (1, "Invalid gateway." :: route_usage)
    else mret (0, ["Default route changed to " +:+ ip2ascii g])
  else if starts "net " s then
    match split_at "/" (skip 4 s) with
    | None => mret (1, route_usage)
    | Some (addr, nm) =>
      match split_at ":" nm with
      | None => mret (1, route_usage)
      | Some (nm, gw) =>
        let new := VdeRoute (unicast_ip (ascii2ip addr)) (ascii2nm nm) (unicast_ip (ascii2ip gw)) clear in
        st ← get;
        match route_update new (route_table st) with
        | Some l => modify (set_routes l) ;; mret (0, ["Route successfully updated."])
        | None => walk_end rclear (route_table st) ;; add_route new ;; mret (0, ["Route successfully added."])
        end
      end
    end
  else mret (0, out).

Definition mac2ascii (mac : list Z) : string := fmt_mac mac.

Definition if_lines (v : vde_iface) : list string :=
  ["vd" +:+ show_int (ifid v) +:+ TAB +:+ "Link encap: vde HWaddr " +:+ mac2ascii (mac v);
   TAB +:+ "inet addr:" +:+ ip2ascii (ipaddr v) +:+ " Netmask:" +:+ ip2ascii (nm v); ""].

Definition if_display (name : string) : M l3 answer :=
  s ← get;
  if starts "all" name then mret (0, concat (if_lines <$> interfaces s)) else
  if negb (starts "vd" name) then mret (-1, []) else
  match get_interface (interfaces s) (atoi (skip 2 name)) with
  | None => mret (-1, ["Interface " +:+ name +:+ " not found."])
  | Some i => v ← iface i; mret (0, if_lines v)
  end.

Definition ifconfig_usage : list string := ["'ifconfig' command usage:"; "ifconfig [vdN [ADDRESS [netmask NETMASK]]]"].

Definition show_or_usage (name : string) : M l3 answer :=
  '(rv, out) ← if_display name; if rv <? 0 then mret (0, out ++ ifconfig_usage) else mret (0, out).

Definition with_addr (ip mask : Z) (v : vde_iface) : vde_iface := VdeIface (ifid v) (mac v) ip mask (q_out v) (pol v) (policy_name v).

(** The change of interface [name] to [addr], and to netmask [mask] if given. *)
Definition if_change (name addr : string) (mask : option string) : M l3 answer :=
  if negb (starts "vd" name) then mret (0, ifconfig_usage) else
  s ← get;
  match get_interface (interfaces s) (atoi (skip 2 name)) with
  | None => mret (0, ("Interface " +:+ name +:+ " not found.") :: ifconfig_usage)
  | Some i =>
    v ← iface i;
    let ip := unicast_ip (ascii2ip addr) in
    if ip =? 0 then mret (0, ifconfig_usage) else
    iface_put i (with_addr ip (nm v) v) ;;
    let out := ["IP address for " +:+ name +:+ " successfully changed."] in
    match mask with
    | None => mret (0, out)
    | Some m =>
      let mask := ascii2nm m in
      if mask =? 0 then mret (0, out ++ ifconfig_usage) else
      iface_put i (with_addr ip mask v) ;;
      mret (0, out ++ ["Netmask for " +:+ name +:+ " successfully changed."])
    end
  end.

Definition ifconfig (s : string) : M l3 answer :=
  let arglen := strlen s - 1 in
  let s := drop_last s in
  if arglen =? 0 then show_or_usage "all" else
  match split_at " " s with
  | None => show_or_usage s
  | Some (name, addr) =>
    match split_at " " addr with
    | None => if_change name addr None
    | Some (addr, nmtag) =>
      match split_at " " nmtag with
      | None => mret (0, ifconfig_usage)
      | Some (_, m) => if_change name addr (Some m)
      end
    end
  end.

(** ** Disciplines *)

Inductive kind := KUfifo | KPfifo | KBfifo | KTbf.

(** [%u]: an optional sign and a value saturated at [ULONG_MAX]. *)
Definition scan_u (s : string) : option Z :=
  let '(sg, s) := scan_sign (skip_spaces s) in
  let '(v, seen, _) := scan_digits 10 s 0 false in
  if (seen : bool) then Some (u32 (if 2 ^ 64 <=? v then -1 else sg * v)) else None.

Definition pfifo_init (args : string) : option tc_fifo :=
  if (strlen args - 1 <? 6) || negb (starts "limit " args) then None else fifo_init <$> scan_u (skip 6 args).

Section disciplines.
Context (stale : kind → vde_iface → policy) (junk : Z).

(** The [latency] or [limit] clause, after the rate in bits per second. *)
Definition tbf_clause (now : timeval) (rate : Z) (args : string) : option tc_tbf :=
  if starts "latency" args then
    '(_, a) ← split_at " " args; lat ← scan_u a; tbf_init rate lat junk now
  else if starts "limit" args then
    '(_, a) ← split_at " " args; lim ← scan_u a; tbf_init rate 0 lim now
  else None.

(** Without a clause after the rate, [args] is NULL in [strncmp]. *)
Definition tbf_init_args (now : timeval) (args : string) : M l3 (option tc_tbf) :=
  if (strlen args - 1 <? 5) || negb (starts "rate" args) then mret None else
  match split_at " " args with
  | None => mret None
  | Some (_, a) =>
    match scan_u a with
    | None => mret None
    | Some r =>
      let '(word, rest) := match split_at " " a with Some (w, r) => (w, Some r) | None => (a, None) end in
      let r := if has_char "K" word then u32 (r * 1000) else if has_char "M" word then u32 (r * 1000000) else r in
      if r <? 5000 then mret None else
      clause ← deref rest;
      mret (tbf_clause now r clause)
    end
  end.

(** The modules that are shipped are found, no other one is. *)
Definition getpolicy (name : string) : option kind :=
  if String.eqb name "ufifo" then Some KUfifo else
  if String.eqb name "pfifo" then Some KPfifo else
  if String.eqb name "bfifo" then Some KBfifo else
  if String.eqb name "tbf" then Some KTbf else None.

Definition policy_init (now : timeval) (k : kind) (args : string) : M l3 (option policy) :=
  match k with
  | KUfifo => mret (if strlen args =? 0 then Some Ufifo else None)
  | KPfifo => mret (Pfifo <$> pfifo_init args)
  | KBfifo => mret (Bfifo <$> pfifo_init args)
  | KTbf => o ← tbf_init_args now args; mret (Tbf <$> o)
  end.

Definition kind_name (k : kind) : string :=
  match k with KUfifo => "ufifo" | KPfifo => "pfifo" | KBfifo => "bfifo" | KTbf => "tbf" end.

Definition kind_help (k : kind) : string :=
  let nl := String (ascii_of_nat 10) EmptyString in
  match k with
  | KUfifo => "Unlimited FIFO (Default)" +:+ nl +:+ "Usage: tc set <dev> ufifo" +:+ nl
  | KPfifo => "Packet Fifo queue" +:+ nl +:+ "Usage: tc set <dev> pfifo limit <packets>" +:+ nl
  | KBfifo => "Packet Fifo queue" +:+ nl +:+ "Usage: tc set <dev> bfifo limit <limit in bytes>" +:+ nl
  | KTbf => "Packet Fifo queue" +:+ nl +:+ "Usage: tc set <dev> tbf rate <speed>[K|M] ( limit <bytes> | latency <ms> )" +:+ nl
  end.

Definition tc_stats (p : policy) : string :=
  match p with
  | Ufifo => "No Statistics Available."
  | Pfifo f => "Limit: " +:+ show_int (limit f) +:+ " packets. Dropped: " +:+ show_int (dropped f) +:+ " packets."
  | Bfifo f => "Limit: " +:+ show_int (limit f) +:+ " bytes. Dropped: " +:+ show_int (dropped f) +:+ " packets."
  | Tbf t => "Shaping at Rate = " +:+ show_int (rate t) +:+ " Bytes/s, bucket limit: " +:+ show_int (t_limit t) +:+
      " bytes. Overlimits: " +:+ show_int (t_dropped t) +:+ " packets. MTU=" +:+ show_int (mtu t)
  end.

Definition tc_usage : list string :=
  ["'tc' command usage:";
   "tc ls" +:+ TAB +:+ TAB +:+ TAB +:+ TAB +:+ TAB +:+ "Print out the routing policy for each interface";
   "tc set <DEV> <policy> <arguments>     " +:+ TAB +:+ "Change routing policy"].

(** [tc set]: the discipline is installed before its arguments are read, and
    stays installed, on a stale private area, when they are wrong. *)
Definition tc_set (now : timeval) (i : nat) (ifnum : Z) (k : kind) (args : string) : M l3 answer :=
  v ← iface i;
  r ← policy_init now k args;
  match r with
  | Some p =>
    iface_put i (VdeIface (ifid v) (mac v) (ipaddr v) (nm v) (q_out v) p (kind_name k)) ;;
    mret (0, ["vd" +:+ show_int ifnum +:+ ": queuing discipline set to " +:+ kind_name k +:+ "."])
  | None =>
    iface_put i (with_q (q_out v) (stale k v) v) ;;
    mret (0, (kind_name k +:+ ": syntax error." +:+ String (ascii_of_nat 10) (kind_help k)) :: tc_usage)
  end.

Definition traffic_control (now : timeval) (s : string) : M l3 answer :=
  let arglen := strlen s - 1 in
  let s := drop_last s in
  if arglen =? 1 then mret (0, tc_usage) else
  st ← get;
  if (arglen =? 2) && starts "ls" s then
    mret (0, (λ v, "vd" +:+ show_int (ifid v) +:+ ": " +:+ policy_name v +:+ ". " +:+ tc_stats (pol v)) <$> interfaces st)
  else if (4 <? arglen) && starts "set" s then
    let '(name, rest) := match split_at " " (skip 4 s) with Some (a, b) => (a, Some b) | None => (skip 4 s, None) end in
    match (if starts "vd" name then scan_d (skip 2 name) else None) with
    | None => mret (0, tc_usage)
    | Some (ifnum, _) =>
      policy ← deref rest;
      let '(policy, args) := match split_at " " policy with Some (a, b) => (a, b) | None => (policy, EmptyString) end in
      if strlen policy <? 1 then mret (0, tc_usage) else
      match get_interface (interfaces st) ifnum with
      | None => mret (0, ("tc: Device vd" +:+ show_int ifnum +:+ " not found.") :: tc_usage)
      | Some i =>
        match getpolicy policy with
        | None => mret (0, ("Cannot load rp module " +:+ policy +:+ ".so") :: tc_usage)
        | Some k => tc_set now i ifnum k args
        end
      end
    end
  else mret (0, tc_usage).
End disciplines.

(** ** The dispatcher *)

Definition ENOSYS : Z := 38.

Definition l3_help : answer :=
  (0, ["help      " +:+ TAB +:+ TAB +:+ TAB +:+ TAB +:+ TAB +:+ "Display this inline help";
       "ifconfig [vdN [ADDRESS [netmask NETMASK]]]   " +:+ TAB +:+ "Display virtual ethernet options/configure virtual ethernet N";
       "route list" +:+ TAB +:+ TAB +:+ TAB +:+ TAB +:+ TAB +:+ "Print out the routing table";
       "route net ADDRESS/NETMASK gw GATEWAY     " +:+ TAB +:+ "Add static route";
       "route default gw GATEWAY     " +:+ TAB +:+ TAB +:+ TAB +:+ "Add default route";
       "tc ls     " +:+ TAB +:+ TAB +:+ TAB +:+ TAB +:+ TAB +:+ "Show each interface routing policy";
       "tc set DEV POLICY ARGS     " +:+ TAB +:+ TAB +:+ TAB +:+ "Change interface routing policy";
       "shutdown:  " +:+ TAB +:+ TAB +:+ TAB +:+ TAB +:+ TAB +:+ "shut the channel down";
       "logout:    " +:+ TAB +:+ TAB +:+ TAB +:+ TAB +:+ TAB +:+ "log out from this mgmt session"]).

(** The entries of [commandlist]: tag, function, and whether it is [WITHFD]. *)
Record command := Command { tag : string; fun_ : string → M l3 answer; withfd : bool }.

Fixpoint skip_while (f : ascii → bool) (s : string) : string :=
  match s with String c s' => if f c then skip_while f s' else s | EmptyString => s end.
Definition blank (c : ascii) : bool := (ascii_z c =? 32) || (ascii_z c =? 9).

Section dispatch.
Context (stale : kind → vde_iface → policy) (junk : Z).

Definition commandlist (clear : bool) (now : timeval) : list command :=
  [Command "help" (λ _, mret l3_help) true; Command "showinfo" (λ _, mret (-1, [])) true;
   Command "ifconfig" ifconfig false; Command "route" (route clear) false; Command "logout" (λ _, mret (-1, [])) false;
   Command "shutdown" (λ _, exitM 0) false; Command "tc" (traffic_control stale junk now) false].

Definition l3_handle_cmd (clear : bool) (now : timeval) (inbuf : string) : M l3 answer :=
  let inbuf := skip_while (λ c, blank c || (ascii_z c =? 10)) inbuf in
  match inbuf with
  | EmptyString => mret (ENOSYS, [])
  | String c _ =>
    if ascii_z c =? 35 then mret (ENOSYS, []) else
    match List.find (λ p, starts (tag p) inbuf) (commandlist clear now) with
    | None => mret (ENOSYS, [])
    | Some p =>
      '(rv, out) ← fun_ p (skip_while blank (skip (String.length (tag p)) inbuf));
      mret (rv, if withfd p then ["0000 DATA END WITH '.'"] ++ out ++ ["."] else out)
    end
  end.
End dispatch.

(** ** The options of [main] *)

(** The options, [-r] with the memory of the route it adds. *)
Inductive l3_option := OptM | OptR (arg : string) (clear : bool) | OptG (arg : string) | OptV (arg : string) | OptHelp.

Definition usage {A} : M l3 A := exitM 1.
Definition initial : l3 := L3St [] [] [] 0 0 [].

(** [-v SOCK:ADDRESS/NETMASK] *)
Definition opt_v (arg : string) : M l3 string :=
  match split_at ":" arg with
  | None => usage
  | Some (_, a) =>
    match split_at "/" a with
    | None => usage
    | Some (addr, mask) =>
      let ip := unicast_ip (ascii2ip addr) in
      let m := ascii2nm mask in
      if ip =? 0 then usage else if m =? 0 then usage else
      s ← get;
      modify (set_ifaces (add_iface
        (VdeIface (u8 (Z.of_nat (length (interfaces s)))) (ip2mac ip) ip m [] Ufifo "ufifo") (interfaces s))) ;;
      mret mask
    end
  end.

(** [-r NETWORK/NETMASK:GATEWAY]: the netmask that is used is the one of the
    last [-v], [nm], which is NULL before the first one. *)
Definition opt_r (nm : option string) (arg : string) (clear : bool) : M l3 () :=
  match split_at "/" arg with
  | None => usage
  | Some (addr, rest) =>
    match split_at ":" rest with
    | None => usage
    | Some (_, gw) =>
      mask ← deref nm;
      let r := VdeRoute (unicast_ip (ascii2ip addr)) (ascii2nm mask) (unicast_ip (ascii2ip gw)) clear in
      if (network r =? 0) || (rnm r =? 0) || (L3.gw r =? 0) then usage else
      add_route r
    end
  end.

Definition opt_g (arg : string) : M l3 () :=
  let g := unicast_ip (ascii2ip arg) in
  modify (set_default g) ;; if g =? 0 then usage else mret ().

Fixpoint l3_options (nm : option string) (l : list l3_option) : M l3 () :=
  match l with
  | [] => mret ()
  | OptM :: l' => l3_options nm l'
  | OptHelp :: _ => usage
  | OptR a clear :: l' => opt_r nm a clear ;; l3_options nm l'
  | OptG a :: l' => opt_g a ;; l3_options nm l'
  | OptV a :: l' => m ← opt_v a; l3_options (Some m) l'
  end.
Definition l3_main (l : list l3_option) : M l3 () :=
  l3_options None l ;; s ← get; if bool_decide (interfaces s = []) then usage else mret ().
