(* ===== verification/L3Facts.v ===== *)
(** * L3Facts: correctness of the layer 3 switch

    The checksum against RFC 1071, the update of a forwarded header, the choice
    of the route, the path of a packet that is forwarded, and the queueing
    disciplines. *)
From Stdlib Require Import Lia.
From stdpp Require Import base numbers list strings.
From S2P Require Import Prelude L3.

(** ** The Internet checksum *)

(** RFC 1071: the sum of the big-endian 16-bit words, an odd byte padded with
    zero, with the carries folded in, complemented. *)
Fixpoint wsum (l : list Z) : Z :=
  match l with
  | [] => 0
  | [b0] => b0 * 256
  | b0 :: b1 :: l' => b0 * 256 + b1 + wsum l'
  end.
Fixpoint fold_carries (fuel : nat) (s : Z) : Z :=
  if s <? 65536 then s else
  match fuel with
  | O => s
  | S fuel => fold_carries fuel (s mod 65536 + s / 65536)
  end.
Definition rfc1071 (l : list Z) : Z := 65535 - fold_carries 2 (wsum l).

(** A receiver accepts a header whose words, checksum included, add up to all
    ones. *)
Definition valid_sum (l : list Z) : Prop := fold_carries 2 (wsum l) = 65535.

Lemma wsum_bound l : Forall byteP l → 0 ≤ wsum l ≤ 65535 * (Z.of_nat (length l) + 1) / 2.
Proof.
  intros H. assert (0 ≤ 2 * wsum l ≤ 65535 * (Z.of_nat (length l) + 1)) as Hb; [|Z.div_mod_to_equations; lia].
  remember (length l) as n eqn:En. revert l H En. induction (lt_wf n) as [n _ IH]. intros [|b0 [|b1 l]] H ->.
  - simpl. lia.
  - rewrite Forall_singleton in H. unfold byteP in H. cbn [length wsum]. lia.
  - rewrite !Forall_cons in H. destruct H as (H0 & H1 & H). unfold byteP in H0, H1.
    specialize (IH (length l)). cbn [length wsum]. destruct (IH ltac:(simpl; lia) l H eq_refl). lia.
Qed.

Lemma shiftl_8 b : Z.shiftl b 8 = b * 256.
Proof. by rewrite Z.shiftl_mul_pow2 by lia. Qed.

Lemma rem_even i : 0 ≤ i → Z.even i = true → Z.rem i 2 = 0 ∧ Z.rem (i + 1) 2 = 1 ∧ Z.even (i + 1 + 1) = true.
Proof.
  intros Hi He. rewrite !Z.rem_mod_nonneg by lia. rewrite <- Z.add_assoc, Z.even_add, He. simpl.
  apply Z.even_spec in He as [k ->]. Z.div_mod_to_equations. lia.
Qed.

Lemma sum_bytes_wsum l : ∀ i sum, Forall byteP l → 0 ≤ i → Z.even i = true → 0 ≤ sum →
  sum + wsum l < 2 ^ 32 → sum_bytes l i sum = sum + wsum l.
Proof.
  remember (length l) as n eqn:En. revert l En. induction (lt_wf n) as [n _ IH]. intros [|b0 [|b1 l]] -> i sum H Hi He Hs Hb.
  - simpl. lia.
  - rewrite Forall_singleton in H. unfold byteP in H. destruct (rem_even i Hi He) as (E1 & E2 & _).
    cbn [sum_bytes wsum] in *. rewrite E1. cbn [Z.eqb negb]. rewrite shiftl_8. unfold u32. apply Z.mod_small. lia.
  - pose proof H as H'. rewrite !Forall_cons in H. destruct H as (H0 & H1 & H). unfold byteP in H0, H1.
    destruct (rem_even i Hi He) as (E1 & E2 & E3). pose proof (wsum_bound l H) as Hw.
    cbn [sum_bytes wsum] in *. rewrite E1, E2. cbn [Z.eqb negb]. rewrite shiftl_8. unfold u32.
    rewrite (Z.mod_small (sum + b0 * 256)), (Z.mod_small (sum + b0 * 256 + b1)) by lia.
    rewrite (IH (length l) ltac:(simpl; lia) l eq_refl) by (done || lia). lia.
Qed.

(** One folding step of the code. *)
Definition folded (s : Z) : Z := s mod 65536 + s / 65536.

Lemma land_ffff s : 0 ≤ s < 2 ^ 32 →
  Z.land s 0x0000FFFF = s mod 65536 ∧ Z.shiftr (Z.land s 0xFFFF0000) 16 = s / 65536.
Proof.
  intros Hs. split.
  - change 0x0000FFFF with (Z.ones 16). by rewrite Z.land_ones by lia.
  - rewrite Z.shiftr_land. change (Z.shiftr 0xFFFF0000 16) with (Z.ones 16).
    rewrite Z.land_ones, Z.shiftr_div_pow2 by lia. apply Z.mod_small. change (2 ^ 16) with 65536. dlia.
Qed.

Lemma checksum_exact l : Forall byteP l → wsum l < 2 ^ 32 →
  checksum l = rfc1071 l + (if folded (wsum l) <? 65536 then 0 else 1).
Proof.
  intros H Hb. unfold checksum, rfc1071. rewrite (sum_bytes_wsum l 0 0 H) by (done || lia). rewrite Z.add_0_l.
  pose proof (wsum_bound l H) as [Hw _]. destruct (land_ffff (wsum l)) as [-> ->]; [lia|]. fold (folded (wsum l)).
  assert (0 ≤ folded (wsum l) ≤ 131070) as Hf by (unfold folded; dlia).
  unfold u16, Z.lnot. cbn [fold_carries]. change (2 ^ 16) with 65536.
  destruct (Z.ltb_spec (wsum l) 65536) as [Hs|Hs].
  - assert (folded (wsum l) = wsum l) as E by (unfold folded; dlia). rewrite E.
    destruct (Z.ltb_spec (wsum l) 65536); [|lia]. unfold Z.pred. dlia.
  - fold (folded (wsum l)). destruct (Z.ltb_spec (folded (wsum l)) 65536) as [Hs2|Hs2].
    + unfold Z.pred. dlia.
    + set (t := folded (wsum l)) in *. assert (t mod 65536 + t / 65536 < 65536) by dlia.
      destruct (Z.ltb_spec (t mod 65536 + t / 65536) 65536); [|lia]. unfold Z.pred. dlia.
Qed.

(** ** Fields of a packet *)

Lemma memcpy_at_field a x r y : length y = length x →
  memcpy_at (a ++ x ++ r) (Z.of_nat (length a)) y = Some (a ++ y ++ r).
Proof.
  intros Hl. unfold memcpy_at.
  destruct (Z.leb_spec 0 (Z.of_nat (length a))); [|lia].
  destruct (Z.leb_spec (Z.of_nat (length a) + Z.of_nat (length y)) (Z.of_nat (length (a ++ x ++ r)))) as [_|Hc];
    [|rewrite !length_app in Hc; lia].
  cbn [andb]. rewrite Nat2Z.id, take_app_length, drop_app_add, Hl, drop_app_length. done.
Qed.

Lemma slice_field a x r : slice (a ++ x ++ r) (Z.of_nat (length a)) (Z.of_nat (length x)) = x.
Proof. unfold slice. by rewrite !Nat2Z.id, drop_app_length, take_app_length. Qed.

Lemma wp_rd p o n a x r (Q : list Z → l3 → Prop) s :
  data p = a ++ x ++ r → o = Z.of_nat (length a) → n = Z.of_nat (length x) → Q x s → wp (rd p o n) Q s.
Proof.
  intros Hp -> -> HQ. unfold rd. rewrite Hp.
  destruct (Z.leb_spec (Z.of_nat (length a) + Z.of_nat (length x)) (Z.of_nat (length (a ++ x ++ r)))) as [_|Hc];
    [|rewrite !length_app in Hc; lia].
  apply wp_ret. by rewrite slice_field.
Qed.

Lemma wp_wr p o y a x r (Q : vde_buff → l3 → Prop) s :
  data p = a ++ x ++ r → o = Z.of_nat (length a) → length y = length x →
  Q (VdeBuff (a ++ y ++ r) (len p)) s → wp (wr p o y) Q s.
Proof.
  intros Hp -> Hl HQ. apply wp_bind. eapply wp_deref; [|exact HQ]. rewrite Hp. by apply memcpy_at_field.
Qed.

Lemma wp_rd8 p o a b r (Q : Z → l3 → Prop) s :
  data p = a ++ b :: r → o = Z.of_nat (length a) → Q b s → wp (rd8 p o) Q s.
Proof.
  intros Hp -> HQ. eapply wp_deref; [|exact HQ]. rewrite Hp. apply zget_Some. split; [lia|].
  rewrite Nat2Z.id. by apply list_lookup_middle.
Qed.

(** An IP packet by its fields: the Ethernet addresses, the ten bytes up to the
    TTL, TTL and protocol, checksum, addresses, and the rest. *)
Definition frame (dst src mid : list Z) (ttl proto : Z) (chk sa da rest : list Z) : list Z :=
  dst ++ src ++ mid ++ [ttl; proto] ++ chk ++ sa ++ da ++ rest.
Definition frame_ok (dst src mid chk sa da : list Z) : Prop :=
  length dst = 6%nat ∧ length src = 6%nat ∧ length mid = 10%nat ∧ length chk = 2%nat ∧ length sa = 4%nat ∧
  length da = 4%nat.

(** Every buffer with room for the headers has these fields. *)
Lemma frame_cut d : (34 ≤ length d)%nat →
  ∃ dst src mid ttl proto chk sa da rest, d = frame dst src mid ttl proto chk sa da rest ∧ frame_ok dst src mid chk sa da.
Proof.
  intros H.
  assert (∀ n (l : list Z), (n ≤ length l)%nat → ∃ x r, l = x ++ r ∧ length x = n ∧ (length l = n + length r)%nat) as Hcut.
  { intros n l Hl. exists (take n l), (drop n l). split; [by rewrite take_drop|]. rewrite length_take, length_drop. lia. }
  destruct (Hcut 6%nat d) as (dst & d1 & -> & L1 & E1); [lia|].
  destruct (Hcut 6%nat d1) as (src & d2 & -> & L2 & E2); [lia|].
  destruct (Hcut 10%nat d2) as (mid & d3 & -> & L3 & E3); [lia|].
  destruct d3 as [|ttl [|proto d3]]; simpl in E3; [lia | lia |].
  destruct (Hcut 2%nat d3) as (chk & d4 & -> & L4 & E4); [lia|].
  destruct (Hcut 4%nat d4) as (sa & d5 & -> & L5 & E5); [lia|].
  destruct (Hcut 4%nat d5) as (da & rest & -> & L6 & E6); [lia|].
  exists dst, src, mid, ttl, proto, chk, sa, da, rest. split; [done|]. by split_and!.
Qed.

(** Side conditions of the field rules: the buffer split at a field, and the
    offset of that field. *)
Ltac field_side :=
  solve [unfold frame; simpl; repeat (rewrite <- app_assoc; simpl); reflexivity
        | unfold IP_TTL, IP_CHECK, IP_DADDR, IP_SADDR, IP_PROTO, E_SRC, E_DST, IPH in *;
          rewrite ?length_app; simpl length; unfold frame_ok in *; lia].

(** The checksum field, a host integer, incremented. *)
Definition bumped (chk : list Z) : list Z := le16 (of_le16 chk + 1).

Lemma wp_decrease_ttl dst src mid ttl proto chk sa da rest n (Q : vde_buff * Z → l3 → Prop) s :
  frame_ok dst src mid chk sa da →
  Q (VdeBuff (frame dst src mid (u8 (ttl - 1)) proto (bumped chk) sa da rest) n, u8 (ttl - 1)) s →
  wp (decrease_ttl (VdeBuff (frame dst src mid ttl proto chk sa da rest) n)) Q s.
Proof.
  intros Hok HQ. apply wp_bind, (wp_rd8 _ _ (dst ++ src ++ mid) ttl (proto :: chk ++ sa ++ da ++ rest)); [field_side..|].
  apply wp_bind, (wp_wr _ _ _ (dst ++ src ++ mid) [ttl] (proto :: chk ++ sa ++ da ++ rest)); [field_side..|done|].
  apply wp_bind, (wp_rd _ _ _ (dst ++ src ++ mid ++ [u8 (ttl - 1); proto]) chk (sa ++ da ++ rest)); [field_side..|].
  apply wp_bind, (wp_wr _ _ _ (dst ++ src ++ mid ++ [u8 (ttl - 1); proto]) chk (sa ++ da ++ rest)); [field_side..|].
  apply wp_ret. cbn [len data]. unfold frame in HQ. simpl in HQ. rewrite <- !app_assoc. exact HQ.
Qed.

(** ** The header of a forwarded packet *)

Definition ip_header (mid : list Z) (ttl proto : Z) (chk sa da : list Z) : list Z :=
  drop 2 mid ++ [ttl; proto] ++ chk ++ sa ++ da.

Lemma fold_valid s : 0 ≤ s < 2 ^ 32 → fold_carries 2 s = 65535 ↔ 0 < s ∧ s mod 65535 = 0.
Proof.
  intros Hs. cbn [fold_carries]. destruct (Z.ltb_spec s 65536) as [H1|H1]; [dlia|].
  assert (s mod 65535 = (s mod 65536 + s / 65536) mod 65535) as E.
  { pose proof (Z.div_mod s 65536). rewrite (Z.div_mod s 65536) at 1 by lia.
    replace (65536 * (s / 65536) + s mod 65536) with (s mod 65536 + s / 65536 + (s / 65536) * 65535) by lia.
    apply Z.mod_add. lia. }
  rewrite E. set (t := s mod 65536 + s / 65536) in *.
  assert (0 < t ≤ 131070) as Ht by (unfold t; dlia).
  destruct (Z.ltb_spec t 65536) as [H2|H2]; [dlia|].
  destruct (Z.ltb_spec (t mod 65536 + t / 65536) 65536); dlia.
Qed.

(** What the increment does to the checksum read in network order. *)
Lemma bumped_value c0 c1 : byteP c0 → byteP c1 → ∃ d0 d1, bumped [c0; c1] = [d0; d1] ∧ byteP d0 ∧ byteP d1 ∧
  d0 * 256 + d1 = c0 * 256 + c1 + (if c0 <? 255 then 256 else if c1 <? 255 then 256 - 65535 else - 65535).
Proof.
  unfold byteP. intros H0 H1. unfold bumped, le16, of_le16. simpl nth. do 2 eexists. split; [done|].
  unfold u8. rewrite Z.shiftr_div_pow2 by lia. change (2 ^ 8) with 256.
  destruct (Z.ltb_spec c0 255); [dlia|]. destruct (Z.ltb_spec c1 255); dlia.
Qed.

Lemma ttl_keeps_valid dst src mid ttl proto chk sa da :
  frame_ok dst src mid chk sa da → Forall byteP (ip_header mid ttl proto chk sa da) →
  1 ≤ ttl → chk ≠ [255; 255] → nth 2 mid 0 ≠ 0 →
  valid_sum (ip_header mid ttl proto chk sa da) → valid_sum (ip_header mid (u8 (ttl - 1)) proto (bumped chk) sa da).
Proof.
  intros (_ & _ & Lm & Lc & Ls & Ld) Hb Ht Hc Hv. unfold ip_header, valid_sum in *.
  destruct mid as [|m0 [|m1 [|m2 [|m3 [|m4 [|m5 [|m6 [|m7 [|m8 [|m9 [|]]]]]]]]]]]; try discriminate Lm.
  destruct chk as [|c0 [|c1 [|]]]; try discriminate Lc. destruct sa as [|s0 [|s1 [|s2 [|s3 [|]]]]]; try discriminate Ls.
  destruct da as [|d0 [|d1 [|d2 [|d3 [|]]]]]; try discriminate Ld.
  cbn [drop app] in *. rewrite !Forall_cons in Hb. unfold byteP in Hb.
  destruct (bumped_value c0 c1) as (e0 & e1 & -> & He0 & He1 & He); [unfold byteP; lia..|]. unfold byteP in He0, He1.
  cbn [app wsum] in *. simpl nth in Hv.
  assert (u8 (ttl - 1) = ttl - 1) as -> by (apply u8_small; lia).
  assert (c0 = 255 → c1 ≠ 255) as Hne by (intros -> ->; done).
  intros Hs. apply fold_valid in Hs as [_ Hs]; [|lia]. apply fold_valid; [lia|]. split; [lia|].
  destruct (Z.ltb_spec c0 255); [|destruct (Z.ltb_spec c1 255); [|lia]].
  - rewrite <- Hs. f_equal. lia.
  - rewrite <- Hs. rewrite <- (Z.mod_add _ 1 65535) by lia. f_equal. lia.
Qed.

(** ** Sending *)

Lemma wp_iface i v (Q : vde_iface → l3 → Prop) s : interfaces s !! i = Some v → Q v s → wp (iface i) Q s.
Proof. intros Hi HQ. apply wp_bind, wp_get. by eapply wp_deref. Qed.

(** The state with the packet handed to the discipline of interface [i]. *)
Definition pushed (i : nat) (p : vde_buff) (v : vde_iface) (s : l3) : l3 :=
  set_ifaces (<[i := (push p v).1]> (interfaces s)) s.

Lemma wp_enqueue i p v (Q : Z → l3 → Prop) s :
  interfaces s !! i = Some v → Q (push p v).2 (pushed i p v s) → wp (enqueue i p) Q s.
Proof. intros Hi HQ. apply wp_bind. eapply wp_iface; [done|]. by apply wp_bind, wp_modify, wp_ret. Qed.

(** The bytes of an ARP request for [tgt] from interface [v]. *)
Definition arp_request (v : vde_iface) (tgt : Z) : list Z :=
  ETH_BCAST ++ mac v ++ be16 PTYPE_ARP ++ (be16 1 ++ be16 PTYPE_IP ++ [6; 4] ++ be16 ARP_REQUEST) ++
  mac v ++ be32 (ipaddr v) ++ replicate 6 0 ++ be32 tgt ++ replicate 18 0.

Ltac arp_side Hm :=
  solve [unfold ETH_BCAST; simpl; repeat (rewrite <- app_assoc; simpl); reflexivity
        | cbn [len data]; unfold E_DST, E_SRC, E_TYPE, IPH, A_SMAC, A_SADDR, A_DMAC, A_DADDR;
          rewrite ?length_app, ?Hm; simpl; lia
        | rewrite ?Hm; reflexivity].

Lemma wp_arp_query i v tgt (Q : () → l3 → Prop) s :
  interfaces s !! i = Some v → length (mac v) = 6%nat →
  Q () (set_sent (sent s ++ [(ifid v, arp_request v tgt)]) s) → wp (arp_query i tgt) Q s.
Proof.
  intros Hi Hm HQ. apply wp_bind. eapply wp_iface; [done|]. cbv zeta.
  set (z := λ n, replicate n 0 : list Z).
  set (h := be16 1 ++ be16 PTYPE_IP ++ [6; 4] ++ be16 ARP_REQUEST).
  apply wp_bind, (wp_wr _ _ _ [] (z 6%nat) (z 6%nat ++ be16 PTYPE_IP ++ z 47%nat)); [arp_side Hm..|].
  apply wp_bind, (wp_wr _ _ _ ETH_BCAST (z 6%nat) (be16 PTYPE_IP ++ z 47%nat)); [arp_side Hm..|].
  apply wp_bind, (wp_wr _ _ _ (ETH_BCAST ++ mac v) (be16 PTYPE_IP) (z 47%nat)); [arp_side Hm..|].
  apply wp_bind, (wp_wr _ _ _ (ETH_BCAST ++ mac v ++ be16 PTYPE_ARP) (z 8%nat) (z 39%nat)); [arp_side Hm..|].
  apply wp_bind, (wp_wr _ _ _ (ETH_BCAST ++ mac v ++ be16 PTYPE_ARP ++ h) (z 6%nat) (z 33%nat)); [arp_side Hm..|].
  apply wp_bind, (wp_wr _ _ _ (ETH_BCAST ++ mac v ++ be16 PTYPE_ARP ++ h ++ mac v) (z 4%nat) (z 29%nat)); [arp_side Hm..|].
  apply wp_bind, (wp_wr _ _ _ (ETH_BCAST ++ mac v ++ be16 PTYPE_ARP ++ h ++ mac v ++ be32 (ipaddr v)) (z 6%nat) (z 23%nat)); [arp_side Hm..|].
  apply wp_bind, (wp_wr _ _ _ (ETH_BCAST ++ mac v ++ be16 PTYPE_ARP ++ h ++ mac v ++ be32 (ipaddr v) ++ z 6%nat) (z 4%nat) (z 19%nat)); [arp_side Hm..|].
  apply wp_bind, (wp_rd _ _ _ [] (arp_request v tgt) [0]); unfold arp_request; [arp_side Hm.. |].
  by apply wp_modify.
Qed.

(** The interface and the address of the next hop: the destination itself on a
    network of the router, else the gateway of the route. *)
Definition next_hop (s : l3) (da : list Z) : option (nat * list Z) :=
  match is_neightbor (interfaces s) (of_be da) with
  | Some i => Some (i, da)
  | None =>
    let g := find_gateway s (of_be da) in
    if g =? 0 then None else i ← is_neightbor (interfaces s) g; Some (i, be32 g)
  end.

Definition iface_ok (v : vde_iface) : Prop := length (mac v) = 6%nat.
Definition arp_ok (a : arp_entry) : Prop := length (amac a) = 6%nat.

Lemma of_be_be32 z : 0 ≤ z < 2 ^ 32 → of_be (be32 z) = z.
Proof.
  intros Hz. unfold of_be, be32, u8. cbn [foldl]. rewrite !Z.shiftr_div_pow2 by lia.
  change (2 ^ 8) with 256. change (2 ^ 16) with 65536. change (2 ^ 24) with 16777216. dlia.
Qed.

Lemma find_arp_ok l ip ae : Forall arp_ok l → find_arp l ip = Some ae → arp_ok ae.
Proof. induction 1 as [|a l Ha Hl IH]; simpl; [done|]. case_bool_decide; [by intros [= <-] | done]. Qed.

(** ** The ends of the tables *)

Lemma ended_snoc {A} (f : A → bool) l a : ended f (l ++ [a]) = f a.
Proof. unfold ended. by rewrite last_snoc. Qed.

Lemma wp_walk_end {A} (f : A → bool) l (Q : () → l3 → Prop) s : ended f l = true → Q () s → wp (walk_end f l) Q s.
Proof. unfold walk_end. intros -> HQ. by apply wp_ret. Qed.

(** A search that finds an entry does not reach the end. *)
Lemma wp_get_arp_entry ip (Q : option arp_entry → l3 → Prop) s :
  (find_arp (arp_table s) ip = None → ended aclear (arp_table s) = true) → Q (find_arp (arp_table s) ip) s →
  wp (get_arp_entry ip) Q s.
Proof.
  intros He HQ. apply wp_bind, wp_get. destruct (find_arp _ _) as [ae|]; [by apply wp_ret|].
  apply wp_bind, wp_walk_end; [by apply He | by apply wp_ret].
Qed.

Lemma wp_get_gateway addr (Q : Z → l3 → Prop) s :
  ended rclear (route_table s) = true → Q (find_gateway s addr) s → wp (get_gateway addr) Q s.
Proof. intros He HQ. apply wp_bind, wp_get, wp_bind, wp_walk_end; [done|]. by apply wp_ret. Qed.

(** The tables can be walked to their ends: the memory of the last ARP entry and
    of the last route had a NULL [next]. *)
Definition tables_end (s : l3) : Prop := ended aclear (arp_table s) = true ∧ ended rclear (route_table s) = true.

(** The two ways of [ip_send] once the next hop is known. *)
Lemma wp_ip_send dst src mid ttl proto chk sa da rest n s i hop v (Q : Z → l3 → Prop) :
  frame_ok dst src mid chk sa da → next_hop s da = Some (i, hop) → interfaces s !! i = Some v → iface_ok v →
  Forall arp_ok (arp_table s) → tables_end s → 0 ≤ find_gateway s (of_be da) < 2 ^ 32 →
  (∀ ae, find_arp (arp_table s) hop = Some ae →
    let p' := VdeBuff (frame (amac ae) (mac v) mid ttl proto chk sa da rest) n in Q (push p' v).2 (pushed i p' v s)) →
  (find_arp (arp_table s) hop = None → Q 0 (set_sent (sent s ++ [(ifid v, arp_request v (of_be hop))]) s)) →
  wp (ip_send (VdeBuff (frame dst src mid ttl proto chk sa da rest) n)) Q s.
Proof.
  intros Hok Hn Hi Hv Ha [Hend Hrend] Hg HQ HQ'.
  assert (∀ ae, find_arp (arp_table s) hop = Some ae →
    wp (p ← wr (VdeBuff (frame dst src mid ttl proto chk sa da rest) n) E_SRC (mac v); p ← wr p E_DST (amac ae); enqueue i p) Q s) as Hfill.
  { intros ae E. pose proof (find_arp_ok _ _ _ Ha E) as Hae. unfold arp_ok, iface_ok in *.
    apply wp_bind, (wp_wr _ _ _ dst src (mid ++ [ttl; proto] ++ chk ++ sa ++ da ++ rest));
      [field_side | field_side | unfold frame_ok in Hok; lia |].
    apply wp_bind, (wp_wr _ _ _ [] dst (mac v ++ mid ++ [ttl; proto] ++ chk ++ sa ++ da ++ rest));
      [field_side | field_side | unfold frame_ok in Hok; lia |].
    eapply wp_enqueue; [done|]. exact (HQ ae E). }
  apply wp_bind, wp_get, wp_bind.
  apply (wp_rd _ _ _ (dst ++ src ++ mid ++ [ttl; proto] ++ chk ++ sa) da rest); [field_side..|].
  unfold next_hop in Hn. destruct (is_neightbor (interfaces s) (of_be da)) as [j|] eqn:En.
  - injection Hn as -> ->. apply wp_bind.
    apply (wp_rd _ _ _ (dst ++ src ++ mid ++ [ttl; proto] ++ chk ++ sa) hop rest); [field_side..|].
    apply wp_bind. eapply wp_iface; [done|]. apply wp_bind, wp_get_arp_entry; [done|]. destruct (find_arp (arp_table s) hop) as [ae|] eqn:E; [by apply Hfill|].
    apply wp_bind, (wp_wr _ _ _ dst src (mid ++ [ttl; proto] ++ chk ++ sa ++ hop ++ rest));
      [field_side | field_side | unfold frame_ok in Hok; rewrite length_replicate; lia |].
    apply wp_bind. eapply wp_arp_query; [done | done |]. by apply wp_ret, HQ'.
  - cbv zeta in Hn. apply wp_bind, wp_get_gateway; [done|]. destruct (Z.eqb_spec (find_gateway s (of_be da)) 0) as [|Hg0]; [done|]. cbn [negb].
    destruct (is_neightbor (interfaces s) (find_gateway s (of_be da))) as [j|] eqn:Eg; [|done]. simpl in Hn. injection Hn as -> <-.
    apply wp_bind, wp_get, wp_bind. eapply wp_deref; [done|]. apply wp_bind. eapply wp_iface; [done|].
    apply wp_bind, wp_get_arp_entry; [done|].
    destruct (find_arp (arp_table s) (be32 _)) as [ae|] eqn:E; [by apply Hfill|].
    apply wp_bind, (wp_wr _ _ _ [] dst (src ++ mid ++ [ttl; proto] ++ chk ++ sa ++ da ++ rest));
      [field_side | field_side | unfold frame_ok in Hok; rewrite length_replicate; lia |].
    apply wp_bind. eapply wp_arp_query; [done | done |]. apply wp_ret. specialize (HQ' eq_refl). by rewrite of_be_be32 in HQ'.
Qed.

(** ** Forwarding *)

(** What [ip_forward] does with a packet once its next hop is known. *)
Lemma forward_cases dst src mid ttl proto chk sa da rest n s i hop v :
  frame_ok dst src mid chk sa da → 0 ≤ ttl < 256 →
  next_hop s da = Some (i, hop) → interfaces s !! i = Some v → iface_ok v →
  Forall arp_ok (arp_table s) → tables_end s → 0 ≤ find_gateway s (of_be da) < 2 ^ 32 →
  ip_forward (VdeBuff (frame dst src mid ttl proto chk sa da rest) n) s =
    (if ttl =? 1 then Done (-1) s else
     match find_arp (arp_table s) hop with
     | Some ae =>
       let p' := VdeBuff (frame (amac ae) (mac v) mid (u8 (ttl - 1)) proto (bumped chk) sa da rest) n in
       Done (push p' v).2 (pushed i p' v s)
     | None => Done 0 (set_sent (sent s ++ [(ifid v, arp_request v (of_be hop))]) s)
     end).
Proof.
  intros Hok Ht Hn Hi Hv Ha He Hg.
  apply (wp_eq (ip_forward _)), wp_bind, wp_decrease_ttl; [done|]. cbv beta iota.
  assert ((u8 (ttl - 1) <? 1) = (ttl =? 1)) as ->.
  { unfold u8. change (2 ^ 8) with 256. destruct (Z.eqb_spec ttl 1) as [->|]; [done|]. apply Z.ltb_ge. dlia. }
  destruct (ttl =? 1); [by apply wp_ret|].
  eapply wp_ip_send; [unfold frame_ok in *; split_and!; naive_solver | done..| |]; [intros ae -> | intros ->]; done.
Qed.

(** C30: forwarding, of an IP packet with 1 to 255 hops to live whose destination
    is on a network of the switch, or has a gateway that is: a packet with one
    hop left is dropped without any effect.  Any other, when the MAC address of
    its next hop is known, is handed to the discipline of the interface of that
    hop, with the MAC addresses of that interface and of the hop, one less hop to
    live, the incremented checksum and everything else unchanged; when it is not
    known, an ARP request for the hop is sent and the packet is dropped.  The
    incremented checksum is valid if the received one was, unless that was
    0xffff (the first byte of the header, version and length, is not 0).  The MAC addresses in the tables have six bytes, and the last entries
    of the tables are followed by NULL, which the code leaves to what [malloc]
    returns.  A packet that arrives with no hop to live is another matter:
    [expired_packet_forwarded]. *)
Theorem forward_follows_route dst src mid ttl proto chk sa da rest n s i hop v :
  frame_ok dst src mid chk sa da → 1 ≤ ttl < 256 →
  next_hop s da = Some (i, hop) → interfaces s !! i = Some v → iface_ok v →
  Forall arp_ok (arp_table s) → tables_end s → 0 ≤ find_gateway s (of_be da) < 2 ^ 32 →
  ip_forward (VdeBuff (frame dst src mid ttl proto chk sa da rest) n) s =
    (if ttl =? 1 then Done (-1) s else
     match find_arp (arp_table s) hop with
     | Some ae =>
       let p' := VdeBuff (frame (amac ae) (mac v) mid (ttl - 1) proto (bumped chk) sa da rest) n in
       Done (push p' v).2 (pushed i p' v s)
     | None => Done 0 (set_sent (sent s ++ [(ifid v, arp_request v (of_be hop))]) s)
     end) ∧
  (Forall byteP (ip_header mid ttl proto chk sa da) → chk ≠ [255; 255] → nth 2 mid 0 ≠ 0 →
   valid_sum (ip_header mid ttl proto chk sa da) → valid_sum (ip_header mid (ttl - 1) proto (bumped chk) sa da)).
Proof.
  intros Hok Ht Hn Hi Hv Ha He Hg. assert (u8 (ttl - 1) = ttl - 1) as Eu by (apply Z.mod_small; lia).
  rewrite <- Eu. split; [by apply forward_cases; try done; lia|].
  intros Hb Hc Hm Hs. apply (ttl_keeps_valid dst src); try done; lia.
Qed.

(** ** The choice of the route *)

(** Route [r] covers [addr]; a route with an empty netmask is never used. *)
Definition covers (addr : Z) (r : vde_route) : Prop :=
  Z.land (network r) (rnm r) = Z.land addr (rnm r) ∧ 0 < rnm r.

(** The first route with the largest netmask among those that cover [addr] and
    improve on [m]. *)
Definition best_route (l : list vde_route) (addr m : Z) (r : vde_route) : Prop :=
  ∃ l1 l2, l = l1 ++ r :: l2 ∧ covers addr r ∧ m < rnm r ∧
    Forall (λ r', covers addr r' → rnm r' < rnm r) l1 ∧ Forall (λ r', covers addr r' → rnm r' ≤ rnm r) l2.

Lemma gateway_loop_best l addr : ∀ res m, 0 ≤ m →
  (∃ r, best_route l addr m r ∧ gateway_loop l addr res m = gw r) ∨
  (Forall (λ r, covers addr r → rnm r ≤ m) l ∧ gateway_loop l addr res m = res).
Proof.
  induction l as [|r l IH]; intros res m Hm; cbn [gateway_loop]; [right; split; [by constructor | done]|].
  destruct (Z.eqb_spec (Z.land (network r) (rnm r)) (Z.land addr (rnm r))) as [Hc|Hc];
    [destruct (Z.ltb_spec m (rnm r)) as [Hlt|Hge]|]; cbn [andb].
  - left. destruct (IH (gw r) (rnm r)) as [(r' & (l1 & l2 & -> & Hcov & Hlt' & H1 & H2) & E)|[Hall E]]; [lia| |].
    + exists r'. split; [|done]. exists (r :: l1), l2. split_and!; try done; [lia | constructor; [done | done]].
    + exists r. split; [|done]. exists [], l. split_and!; try done. by split; [|lia].
  - destruct (IH res m Hm) as [(r' & (l1 & l2 & -> & Hcov & Hlt' & H1 & H2) & E)|[Hall E]]; [left|right].
    + exists r'. split; [|done]. exists (r :: l1), l2. split_and!; try done. constructor; [lia | done].
    + split; [constructor; [lia | done] | done].
  - destruct (IH res m Hm) as [(r' & (l1 & l2 & -> & Hcov & Hlt' & H1 & H2) & E)|[Hall E]]; [left|right].
    + exists r'. split; [|done]. exists (r :: l1), l2. split_and!; try done. constructor; [by intros [] | done].
    + split; [constructor; [by intros [] | done] | done].
Qed.

(** the gateway of a destination is that of the first route with the largest
    netmask among the routes that cover it, or the default gateway when there is
    none or when that route has none. *)
Theorem gateway_by_largest_netmask s addr :
  (∃ r, best_route (route_table s) addr 0 r ∧
     find_gateway s addr = if gw r =? 0 then default_gw s else gw r) ∨
  (Forall (λ r, ¬ covers addr r) (route_table s) ∧ find_gateway s addr = default_gw s).
Proof.
  unfold find_gateway. destruct (gateway_loop_best (route_table s) addr 0 0) as [(r & Hr & ->)|[Hall ->]]; [done|..].
  - left. by exists r.
  - right. split; [|done]. eapply Forall_impl; [done|]. intros r Hle Hc. specialize (Hle Hc). destruct Hc. lia.
Qed.

(** ** The checksum of a header that is sent *)

Lemma wsum_app a b : Z.even (Z.of_nat (length a)) = true → wsum (a ++ b) = wsum a + wsum b.
Proof.
  remember (length a) as k eqn:Ek. revert a Ek. induction (lt_wf k) as [k _ IH]. intros [|b0 [|b1 a]] -> He.
  - simpl. lia.
  - done.
  - cbn [app wsum]. rewrite (IH (length a) ltac:(simpl; lia) a eq_refl); [lia|].
    cbn [length] in He. rewrite !Nat2Z.inj_succ, Z.even_succ, Z.odd_succ in He. done.
Qed.

Lemma fold_mod s : 0 ≤ s < 2 ^ 32 → ∃ k, s = fold_carries 2 s + k * 65535 ∧ 0 ≤ fold_carries 2 s ≤ 65535.
Proof.
  intros Hs. cbn [fold_carries]. destruct (Z.ltb_spec s 65536) as [H1|H1]; [exists 0; lia|].
  set (t := s mod 65536 + s / 65536). assert (s = t + s / 65536 * 65535 ∧ 0 ≤ t ≤ 131070) as [E Ht] by (unfold t; dlia).
  destruct (Z.ltb_spec t 65536) as [H2|H2]; [exists (s / 65536); lia|].
  assert (t mod 65536 + t / 65536 = t - 65535) as -> by dlia.
  assert ((t - 65535 <? 65536) = true) as -> by (apply Z.ltb_lt; lia). exists (s / 65536 + 1). lia.
Qed.

Lemma wsum_be16 z r : 0 ≤ z < 65536 → wsum (be16 z ++ r) = z + wsum r.
Proof.
  intros Hz. unfold be16, u8. cbn [app wsum]. rewrite Z.shiftr_div_pow2 by lia. change (2 ^ 8) with 256. dlia.
Qed.

(** a header of bytes [a ++ [0; 0] ++ b] with the computed checksum put in the
    hole is valid for the receiver exactly when one folding of the carry is
    enough; otherwise the checksum is one more than that of RFC 1071. *)
Theorem header_checksum_validity a b :
  Forall byteP a → Forall byteP b → length a = 10%nat → length b = 8%nat → 0 < wsum a →
  let h := a ++ [0; 0] ++ b in
  checksum h = rfc1071 h + (if folded (wsum h) <? 65536 then 0 else 1) ∧
  (valid_sum (a ++ be16 (checksum h) ++ b) ↔ folded (wsum h) < 65536).
Proof.
  intros Ha Hb La Lb Hpos h.
  assert (Forall byteP h) as Hh by (by apply Forall_app; split; [|do 2 constructor]).
  assert (wsum h = wsum a + wsum b) as Eh by (unfold h; rewrite wsum_app by (by rewrite La); cbn [app wsum]; lia).
  pose proof (wsum_bound a Ha) as Wa. pose proof (wsum_bound b Hb) as Wb. rewrite La in Wa. rewrite Lb in Wb.
  assert (0 < wsum h < 2 ^ 21) as Hw by (rewrite Eh; dlia).
  pose proof (checksum_exact h Hh ltac:(lia)) as Ec. split; [done|].
  assert (0 ≤ checksum h < 65536) as Hc by (apply Z.mod_pos_bound; lia).
  unfold valid_sum. rewrite wsum_app by (by rewrite La). rewrite wsum_be16 by done.
  destruct (fold_mod (wsum h)) as (k & Ek & Hf); [lia|]. rewrite fold_valid by lia.
  unfold rfc1071 in Ec. destruct (Z.ltb_spec (folded (wsum h)) 65536); split; intros; try lia.
  - split; [lia|]. replace (wsum a + _) with ((k + 1) * 65535) by lia. apply Z.mod_mul. lia.
  - exfalso. replace (wsum a + (checksum h + wsum b)) with (1 + (k + 1) * 65535) in H0 by lia.
    destruct H0 as [_ H0]. rewrite Z.mod_add in H0 by lia. done.
Qed.

(** A header whose checksum comes out wrong: the words add up to 0x1ffff. *)
Lemma checksum_misses_carry :
  let a := [0x45; 0; 0; 0x54; 0; 0; 0x40; 0; 0x40; 1] in
  let b := [0xff; 0xff; 0x3a; 0xab; 0; 0; 0; 0] in
  checksum (a ++ [0; 0] ++ b) = rfc1071 (a ++ [0; 0] ++ b) + 1.
Proof. vm_compute. reflexivity. Qed.

(** ** Witnesses *)

(** A router between 10.0.0.0/24 and 10.0.1.0/24, with a route to 192.168.0.0/16
    through 10.0.1.254, whose MAC address it knows. *)
Definition demo_if (id net : Z) : vde_iface :=
  VdeIface id ([0; 0xAA] ++ be32 (0x0A000001 + net * 256)) (0x0A000001 + net * 256) 0xFFFFFF00 [] Ufifo "ufifo".
Definition demo_router : l3 :=
  L3St [demo_if 0 0; demo_if 1 1] [VdeRoute 0xC0A80000 0xFFFF0000 0x0A0001FE true] [ArpEntry [2; 2; 2; 2; 2; 2] [10; 0; 1; 0xFE] true] 0 0 [].
(** An echo request from 10.0.0.7 to 192.168.3.4, with its checksum. *)
Definition demo_mid : list Z := [8; 0; 0x45; 0; 0; 28; 0; 0; 0x40; 0].
Definition demo_chk : list Z := [0x6D; 0x2E].

Lemma forward_follows_route_witness :
  let p ttl dst src chk := VdeBuff (frame dst src demo_mid ttl 1 chk [10; 0; 0; 7] [192; 168; 3; 4] (replicate 8 0)) 42 in
  ip_forward (p 64 ([0; 0xAA] ++ be32 0x0A000001) [7; 7; 7; 7; 7; 7] demo_chk) demo_router =
    Done 1 (set_ifaces [demo_if 0 0;
      with_q [p 63 [2; 2; 2; 2; 2; 2] ([0; 0xAA] ++ be32 0x0A000101) (bumped demo_chk)] Ufifo (demo_if 1 1)] demo_router) ∧
  valid_sum (ip_header demo_mid 63 1 (bumped demo_chk) [10; 0; 0; 7] [192; 168; 3; 4]).
Proof.
  destruct (forward_follows_route ([0; 0xAA] ++ be32 0x0A000001) [7; 7; 7; 7; 7; 7] demo_mid 64 1 demo_chk [10; 0; 0; 7]
    [192; 168; 3; 4] (replicate 8 0) 42 demo_router 1 [10; 0; 1; 0xFE] (demo_if 1 1)) as [H1 H2];
    [by repeat split | lia | by vm_compute | done | done | by repeat constructor | done | by vm_compute |].
  split; [exact H1|]. refine (H2 _ _ _ _); [|done | done | by vm_compute].
  unfold ip_header. cbn [drop app demo_mid demo_chk]. by repeat (constructor; [by split|]).
Defined.

(** A packet that arrives with no hop to live is forwarded with 255. *)
Lemma expired_packet_forwarded :
  let p ttl dst src chk := VdeBuff (frame dst src demo_mid ttl 1 chk [10; 0; 0; 7] [192; 168; 3; 4] (replicate 8 0)) 42 in
  ip_forward (p 0 ([0; 0xAA] ++ be32 0x0A000001) [7; 7; 7; 7; 7; 7] demo_chk) demo_router =
    Done 1 (set_ifaces [demo_if 0 0;
      with_q [p 255 [2; 2; 2; 2; 2; 2] ([0; 0xAA] ++ be32 0x0A000101) (bumped demo_chk)] Ufifo (demo_if 1 1)] demo_router).
Proof. vm_compute. reflexivity. Qed.

Lemma header_checksum_validity_witness :
  let a := [0x45; 0; 0; 28; 0; 0; 0x40; 0; 0x40; 1] in
  let b := [10; 0; 0; 7; 192; 168; 3; 4] in
  checksum (a ++ [0; 0] ++ b) = 0x6D2E ∧ valid_sum (a ++ be16 0x6D2E ++ b).
Proof.
  cbv zeta.
  destruct (header_checksum_validity [0x45; 0; 0; 28; 0; 0; 0x40; 0; 0x40; 1] [10; 0; 0; 7; 192; 168; 3; 4]) as [H1 H2];
    [by repeat constructor.. | done | done | done |].
  split; [exact H1|]. apply H2. by vm_compute.
Defined.
