(* ===== verification/L3Queues.v ===== *)
(** * L3Queues: the queueing disciplines of the layer 3 switch

    [pfifo] implements a bounded FIFO queue: a specification of such a queue and
    the refinement of any sequence of arrivals and departures.  [bfifo] and
    [tbf] do not do what they promise: the byte counter of [bfifo] is read from
    a freed head, and [tbf] does not shape packets smaller than its MTU. *)
From Stdlib Require Import Lia.
From stdpp Require Import base numbers list strings.
From S2P Require Import Prelude L3 L3Facts.

(** ** A bounded FIFO queue *)

(** What waits, what has left, and how many were refused. *)
Record bounded := Bounded { items : list vde_buff; gone : list vde_buff; refused : Z }.

Inductive qop := Arrive (p : vde_buff) | Leave.

(** A packet enters when there is room; the answer tells. *)
Definition bounded_step (lim : Z) (o : qop) (b : bounded) : Z * bounded :=
  match o with
  | Arrive p =>
    if Z.of_nat (length (items b)) <? lim then (1, Bounded (items b ++ [p]) (gone b) (refused b))
    else (0, Bounded (items b) (gone b) (u32 (refused b + 1)))
  | Leave =>
    match items b with
    | [] => (0, b)
    | p :: q => (Z.b2z (negb (bool_decide (q = []))), Bounded q (gone b ++ [p]) (refused b))
    end
  end.
Fixpoint bounded_run (lim : Z) (l : list qop) (b : bounded) : list Z * bounded :=
  match l with
  | [] => ([], b)
  | o :: l' => let '(r, b) := bounded_step lim o b in let '(rs, b) := bounded_run lim l' b in (r :: rs, b)
  end.

(** The same operations on interface [i]; the main loop calls [dequeue] only
    when the output queue is not empty. *)
Definition queue_step (now : timeval) (i : nat) (o : qop) : M l3 Z :=
  match o with
  | Arrive p => enqueue i p
  | Leave =>
    v ← iface i;
    if bool_decide (q_out v = []) then mret 0 else b ← dequeue now i; mret (Z.b2z b)
  end.
Fixpoint queue_run (now : timeval) (i : nat) (l : list qop) : M l3 (list Z) :=
  match l with
  | [] => mret []
  | o :: l' => r ← queue_step now i o; rs ← queue_run now i l'; mret (r :: rs)
  end.

(** The bytes a packet leaves with. *)
Definition wire (p : vde_buff) : list Z := slice (data p) 0 (len p).
Definition sendable (p : vde_buff) : Prop := 0 ≤ len p ≤ Z.of_nat (length (data p)).
Definition op_ok (o : qop) : Prop := match o with Arrive p => sendable p | Leave => True end.

(** Interface [i], number [id], holds the queue [b]; [pre] was sent before. *)
Definition holds (i : nat) (id lim : Z) (pre : list (Z * list Z)) (b : bounded) (s : l3) : Prop :=
  ∃ v, interfaces s !! i = Some v ∧ ifid v = id ∧ q_out v = items b ∧
    pol v = Pfifo (TcFifo (Z.of_nat (length (items b))) lim (refused b)) ∧
    sent s = pre ++ ((λ p, (id, wire p)) <$> gone b) ∧ Z.of_nat (length (items b)) ≤ lim < 2 ^ 32 ∧
    Forall sendable (items b).

Lemma holds_put i s v w : interfaces s !! i = Some v → <[i := w]> (interfaces s) !! i = Some w.
Proof. intros Hv. apply list_lookup_insert_eq. by eapply lookup_lt_Some. Qed.

Lemma wp_ufifo_sends i s v p q (Q : bool → l3 → Prop) :
  interfaces s !! i = Some v → q_out v = p :: q → sendable p →
  Q (negb (bool_decide (q = [])))
    (set_ifaces (<[i := with_q q (pol v) v]> (interfaces s)) (set_sent (sent s ++ [(ifid v, wire p)]) s)) →
  wp (ufifo_dequeue i) Q s.
Proof.
  intros Hv Eq Hp HQ. apply wp_bind. eapply wp_iface; [done|]. rewrite Eq. apply wp_bind, wp_bind.
  unfold rd. destruct (Z.leb_spec (0 + len p) (Z.of_nat (length (data p)))); [|unfold sendable in Hp; lia].
  by apply wp_ret, wp_modify, wp_bind, wp_modify, wp_ret.
Qed.

Lemma pfifo_step now i id lim pre o b s : op_ok o → holds i id lim pre b s →
  wp (queue_step now i o) (λ r s', r = (bounded_step lim o b).1 ∧ holds i id lim pre (bounded_step lim o b).2 s') s.
Proof.
  intros Ho (v & Hv & Hid & Hq & Hpol & Hs & Hlen & Hall). destruct o as [p|]; simpl in Ho |- *.
  - eapply wp_enqueue; [done|]. unfold pushed, push. rewrite Hpol. unfold pfifo_enqueue. cbn [qlen limit dropped].
    destruct (Z.ltb_spec (Z.of_nat (length (items b))) lim) as [Hlt|Hge]; (split; [done|]); eexists;
      (split; [by eapply holds_put|]); cbn [ifid q_out pol with_q sent set_ifaces fst snd items gone refused];
      rewrite ?Hq; split_and!; try done; try lia.
    + do 2 f_equal. rewrite length_app. cbn [length]. unfold u32. rewrite Z.mod_small; lia.
    + rewrite length_app. cbn [length]. lia.
    + by apply Forall_app; split; [|apply Forall_singleton].
  - apply wp_bind. eapply wp_iface; [done|]. rewrite Hq. destruct (items b) as [|p q] eqn:Eb; cbn [bool_decide].
    + case_bool_decide; [|done]. apply wp_ret. split; [done|]. exists v. cbn [snd]. rewrite Eb. split_and!; done || lia.
    + case_bool_decide; [done|]. apply Forall_cons in Hall as [Hp Hall].
      apply wp_bind, wp_bind. eapply wp_iface; [done|]. rewrite Hpol. apply wp_bind.
      eapply wp_ufifo_sends; [done | done | done |].
      apply wp_bind. eapply wp_iface; [by eapply holds_put|]. apply wp_bind, wp_modify, wp_ret, wp_ret.
      cbn [qlen limit dropped]. cbn [length] in Hlen |- *.
      destruct (Z.ltb_spec 0 (Z.of_nat (S (length q)))) as [_|]; [|lia].
      replace (Z.of_nat (S (length q)) - 1) with (Z.of_nat (length q)) by lia.
      split.
      { cbn [fst]. f_equal. destruct q; [done|]. cbn [length]. by destruct (Z.ltb_spec 0 (Z.of_nat (S (length q)))); [|lia]. }
      eexists. split; [cbn [interfaces set_ifaces]; eapply list_lookup_insert_eq; rewrite length_insert; by eapply lookup_lt_Some|].
      simpl. split_and!; try done; try lia. by rewrite Hs, fmap_app, Hid, app_assoc.
Qed.

(** an interface with the [pfifo] discipline is a bounded FIFO queue: for any
    sequence of arrivals and departures it answers as the specification does, it
    sends the packets that leave the specification, in order, and holds the
    packets that wait there. *)
Theorem pfifo_refines_bounded_queue now i id lim pre ops b s :
  Forall op_ok ops → holds i id lim pre b s →
  wp (queue_run now i ops)
    (λ rs s', rs = (bounded_run lim ops b).1 ∧ holds i id lim pre (bounded_run lim ops b).2 s') s.
Proof.
  intros Ho. revert b s. induction Ho as [|o l Ho Hl IH]; intros b s Hb; simpl; [by apply wp_ret|].
  apply wp_bind. eapply wp_mono; [by apply pfifo_step|]. intros r s1 [-> H1].
  destruct (bounded_step lim o b) as [r b1]. cbn [fst snd] in *.
  apply wp_bind. eapply wp_mono; [by apply IH|]. intros rs s2 [-> H2]. apply wp_ret.
  by destruct (bounded_run lim l b1).
Qed.

Lemma bind_run {A B} (m : M l3 A) (k : A → M l3 B) s a s' : m s = Done a s' → (m ≫= k) s = k a s'.
Proof. intros E. unfold mbind, M_bind. by rewrite E. Qed.

(** ** Defects of the other disciplines *)

(** A packet that enters an empty [bfifo] queue crashes the switch when it
    leaves: its length is read through the then NULL head of the queue. *)
Theorem bfifo_last_packet_faults now i s v f p :
  interfaces s !! i = Some v → pol v = Bfifo f → q_out v = [] → qlen f = 0 → sendable p →
  0 < len p < limit f → limit f < 2 ^ 32 →
  (enqueue i p ≫= λ _, dequeue now i) s = Fault.
Proof.
  intros Hv Hf Hq Hq0 Hp Hl Hlim.
  set (f1 := TcFifo (len p) (limit f) (dropped f)).
  set (s1 := set_ifaces (<[i := with_q [p] (Bfifo f1) v]> (interfaces s)) s).
  assert (interfaces s1 !! i = Some (with_q [p] (Bfifo f1) v)) as H1 by (by eapply holds_put).
  rewrite (bind_run (enqueue i p) _ s 1 s1).
  2: { apply wp_eq. eapply wp_enqueue; [done|]. unfold pushed, push. rewrite Hf. unfold bfifo_enqueue. rewrite Hq0, Hq.
       unfold u64, u32. rewrite !Z.mod_small by lia. by destruct (Z.ltb_spec (0 + len p) (limit f)); [|lia]. }
  unfold dequeue. rewrite (bind_run (iface i) _ s1 _ s1) by (apply wp_eq; by eapply wp_iface). cbn [pol with_q].
  set (s2 := set_ifaces (<[i := with_q [] (Bfifo f1) (with_q [p] (Bfifo f1) v)]> (interfaces s1))
    (set_sent (sent s1 ++ [(ifid v, wire p)]) s1)).
  unfold bfifo_dequeue. rewrite (bind_run (ufifo_dequeue i) _ s1 false s2) by (apply wp_eq; by eapply wp_ufifo_sends).
  rewrite (bind_run (iface i) _ s2 (with_q [] (Bfifo f1) (with_q [p] (Bfifo f1) v)) s2)
    by (apply wp_eq; eapply wp_iface; [by eapply holds_put | done]).
  cbn [qlen f1]. by destruct (Z.ltb_spec 0 (len p)); [|lia].
Qed.

(** [tbf] lets any number of packets shorter than its MTU leave at once. *)
Lemma tbf_drains_short_packets now i : ∀ q s v t,
  interfaces s !! i = Some v → pol v = Tbf t → q_out v = q → Forall (λ p, sendable p ∧ len p < mtu t < 2 ^ 32) q →
  before now (add_t (last_out t) (delta t)) = false →
  wp (queue_run now i (replicate (length q) Leave)) (λ _ s', sent s' = sent s ++ ((λ p, (ifid v, wire p)) <$> q)) s.
Proof.
  induction q as [|p q IH]; intros s v t Hv Ht Hq Hall Hb; simpl; [apply wp_ret; by rewrite app_nil_r|].
  apply Forall_cons in Hall as [(Hp & Hlt & Hmtu) Hall].
  apply wp_bind, wp_bind. eapply wp_iface; [done|]. rewrite Hq. case_bool_decide; [done|].
  apply wp_bind, wp_bind. eapply wp_iface; [done|]. rewrite Ht. unfold tbf_dequeue. rewrite Hb.
  apply wp_bind. eapply wp_iface; [done|]. rewrite Hq. apply wp_bind, (wp_deref _ p); [done|]. cbv zeta.
  apply wp_bind. eapply wp_ufifo_sends; [done | done | done |].
  apply wp_bind. eapply wp_iface; [by eapply holds_put|]. apply wp_bind.
  assert (u32 (len p) = len p) as -> by (unfold u32, sendable in *; rewrite Z.mod_small; lia).
  apply (wp_deref _ (len p, last_out t)).
  { destruct (Z.to_nat (len p)); simpl; by destruct (Z.leb_spec (mtu t) (len p)); [lia|]. }
  apply wp_bind, wp_modify, wp_ret, wp_ret, wp_bind.
  eapply wp_mono; [eapply (IH _ _ (TcTbf _ _ _ _ _ (mtu t) _ (delta t) (last_out t)))|]; simpl; try done.
  - eapply list_lookup_insert_eq. rewrite length_insert. by eapply lookup_lt_Some.
  - done.
  - done.
  - intros rs s' E. apply wp_ret. by rewrite E, <- app_assoc.
Qed.

(** ** Witnesses *)

Definition demo_queue : l3 :=
  L3St [VdeIface 0 [0; 0xAA; 10; 0; 0; 1] 0x0A000001 0xFFFFFF00 [] (Pfifo (fifo_init 2)) "pfifo"] [] [] 0 0 [].
Definition demo_pkt (b : Z) : vde_buff := VdeBuff (replicate 61 b) 60.

(** Three packets arrive at a queue for two, then two leave. *)
Lemma pfifo_refines_bounded_queue_witness :
  let ops := [Arrive (demo_pkt 1); Arrive (demo_pkt 2); Arrive (demo_pkt 3); Leave; Leave; Leave] in
  wp (queue_run (Timeval 0 0) 0 ops)
    (λ rs s', rs = [1; 1; 0; 1; 0; 0] ∧
       holds 0 0 2 [] (Bounded [] [demo_pkt 1; demo_pkt 2] 1) s') demo_queue.
Proof.
  refine (pfifo_refines_bounded_queue (Timeval 0 0) 0 0 2 [] _ (Bounded [] [] 0) demo_queue _ _).
  - by repeat constructor.
  - eexists. by split_and!.
Defined.

Lemma bfifo_last_packet_faults_witness :
  (enqueue 0 (demo_pkt 1) ≫= λ _, dequeue (Timeval 0 0) 0)
    (set_ifaces [VdeIface 0 [0; 0xAA; 10; 0; 0; 1] 0x0A000001 0xFFFFFF00 [] (Bfifo (fifo_init 5000)) "bfifo"] demo_queue) = Fault.
Proof. by refine (bfifo_last_packet_faults _ _ _ _ (fifo_init 5000) _ _ _ _ _ _ _ _). Defined.
