(* ===== verification/L3Safe.v ===== *)
(** * L3Safe: the layer 3 switch never leaves its buffers

    An invariant of the layer 3 switch and its preservation by the reception of
    any frame and by the service of the output queues: no packet, however
    malformed, makes it read or write outside a buffer or dereference NULL, as
    long as the gateways are on its networks, no interface uses [bfifo], and the
    memory of the routes and of the ARP entries has a NULL [next] when [malloc]
    returns it: the code never sets it, and [unset_next_faults] is what happens
    otherwise. *)
From Stdlib Require Import Lia.
From stdpp Require Import base numbers list.
From S2P Require Import Prelude L3 L3Facts.

(** ** The invariant *)

(** A buffer has room for the headers and for its length. *)
Definition pkt_ok (p : vde_buff) : Prop :=
  42 ≤ Z.of_nat (length (data p)) ∧ 0 ≤ len p ≤ Z.of_nat (length (data p)) ∧ len p < 2 ^ 32.
Definition pol_ok (p : policy) : Prop :=
  match p with Bfifo _ => False | Tbf t => 0 < mtu t | _ => True end.
Record if_ok (v : vde_iface) : Prop := IfOk {
  io_mac : length (mac v) = 6%nat;
  io_q : Forall pkt_ok (q_out v);
  io_pol : pol_ok (pol v)
}.
Definition on_net (l : list vde_iface) (g : Z) : Prop := g = 0 ∨ is_Some (is_neightbor l g).

(** The state of a router with [N] interfaces. *)
Record l3_wf (N : nat) (s : l3) : Prop := L3Wf {
  lw_n : length (interfaces s) = N;
  lw_if : Forall if_ok (interfaces s);
  lw_arp : Forall arp_ok (arp_table s);
  lw_routes : Forall (λ r, on_net (interfaces s) (gw r)) (route_table s);
  lw_default : on_net (interfaces s) (default_gw s);
  lw_ends : tables_end s
}.

Section keeps.
Context {N : nat}.

(** [l3_keeps m]: [m] ends normally in a well-formed state. *)
Definition l3_keeps {A} (m : M l3 A) : Prop := ∀ s, l3_wf N s → wp m (λ _ s', l3_wf N s') s.

Lemma lk_ret {A} (a : A) : l3_keeps (mret a).
Proof. intros s W. by apply wp_ret. Qed.
Lemma lk_bind {A B} (m : M l3 A) (k : A → M l3 B) : l3_keeps m → (∀ a, l3_keeps (k a)) → l3_keeps (m ≫= k).
Proof. intros Hm Hk s W. apply wp_bind. eapply wp_mono; [by apply Hm|]. intros a s' W'. by apply Hk. Qed.
Lemma lk_whenM b (m : M l3 ()) : (b = true → l3_keeps m) → l3_keeps (whenM b m).
Proof. intros Hm s W. apply wp_whenM; [intros E; by apply Hm | done]. Qed.
Lemma lk_get {B} (k : l3 → M l3 B) : (∀ s, l3_wf N s → wp (k s) (λ _ s', l3_wf N s') s) → l3_keeps (get ≫= k).
Proof. intros Hk s W. by apply wp_bind, wp_get, Hk. Qed.

(** ** Buffers *)

Section buffers.
Context (p : vde_buff) (Hp : pkt_ok p).

Lemma wp_rd_ok {B} o n (k : list Z → M l3 B) s : 0 ≤ o → 0 ≤ n → o + n ≤ 42 →
  (∀ x, Z.of_nat (length x) = n → wp (k x) (λ _ s', l3_wf N s') s) → wp (rd p o n ≫= k) (λ _ s', l3_wf N s') s.
Proof.
  intros Ho Hn Hl Hk. apply wp_bind. unfold rd. destruct Hp as (H42 & _).
  destruct (Z.leb_spec (o + n) (Z.of_nat (length (data p)))); [|lia]. apply wp_ret, Hk.
  unfold slice. rewrite length_take, length_drop. lia.
Qed.

Lemma lk_rd {B} o n (k : list Z → M l3 B) : 0 ≤ o → 0 ≤ n → o + n ≤ 42 →
  (∀ x, Z.of_nat (length x) = n → l3_keeps (k x)) → l3_keeps (rd p o n ≫= k).
Proof. intros Ho Hn Hl Hk s W. apply wp_rd_ok; [done..|]. intros x Hx. by apply Hk. Qed.

Lemma lk_rd8 {B} o (k : Z → M l3 B) : 0 ≤ o < 42 → (∀ b, l3_keeps (k b)) → l3_keeps (rd8 p o ≫= k).
Proof.
  intros Ho Hk s W. apply wp_bind. destruct Hp as (H42 & _). destruct (zget_is_Some (data p) o) as [b Hb]; [lia|].
  eapply wp_deref; [done|]. by apply Hk.
Qed.

Lemma lk_wr {B} o y (k : vde_buff → M l3 B) : 0 ≤ o → o + Z.of_nat (length y) ≤ 42 →
  (∀ p', pkt_ok p' → len p' = len p → l3_keeps (k p')) → l3_keeps (wr p o y ≫= k).
Proof.
  intros Ho Hl Hk s W. apply wp_bind, wp_bind. destruct Hp as (H42 & Hlen & Hmax).
  destruct (memcpy_at_Some (data p) o y) as (d & E & Hd & _); [done | lia |].
  eapply wp_deref; [done|]. apply wp_ret, Hk; [|done | done]. unfold pkt_ok. simpl. rewrite Hd. lia.
Qed.

Lemma lk_raw_send id : l3_keeps (raw_send id p).
Proof.
  intros s W. apply wp_bind. unfold rd. destruct Hp as (_ & Hlen & _).
  destruct (Z.leb_spec (0 + len p) (Z.of_nat (length (data p)))); [|lia]. apply wp_ret, wp_modify. destruct W. by split.
Qed.
End buffers.

Lemma lk_swap {B} p o1 o2 n (k : vde_buff → M l3 B) : pkt_ok p → 0 ≤ o1 → 0 ≤ o2 → 0 ≤ n → o1 + n ≤ 42 → o2 + n ≤ 42 →
  (∀ p', pkt_ok p' → len p' = len p → l3_keeps (k p')) → l3_keeps (swap_fields p o1 o2 n ≫= k).
Proof.
  intros Hp H1 H2 Hn L1 L2 Hk. intros s W. apply wp_bind. revert s W.
  enough (∀ s, l3_wf N s → wp (swap_fields p o1 o2 n) (λ p' s', s' = s ∧ pkt_ok p' ∧ len p' = len p) s) as H.
  { intros s W. eapply wp_mono; [by apply H|]. intros p' s' (-> & Hp' & El). by apply Hk. }
  intros s W. unfold swap_fields, rd. destruct Hp as (H42 & Hlen & Hmax).
  destruct (Z.leb_spec (o1 + n) (Z.of_nat (length (data p)))); [|lia].
  destruct (Z.leb_spec (o2 + n) (Z.of_nat (length (data p)))); [|lia].
  assert (∀ o, 0 ≤ o → o + n ≤ 42 → Z.of_nat (length (slice (data p) o n)) = n) as Hs.
  { intros o Ho Hl. unfold slice. rewrite length_take, length_drop. lia. }
  apply wp_bind, wp_ret, wp_bind, wp_ret, wp_bind, wp_bind.
  destruct (memcpy_at_Some (data p) o1 (slice (data p) o2 n)) as (d & E & Hd & _); [done | rewrite Hs by lia; lia |].
  eapply wp_deref; [done|]. apply wp_ret, wp_bind.
  destruct (memcpy_at_Some d o2 (slice (data p) o1 n)) as (d' & E' & Hd' & _); [done | rewrite Hs by lia; lia |].
  eapply wp_deref; [done|]. apply wp_ret. split; [done|]. split; [|done]. unfold pkt_ok. simpl. rewrite Hd', Hd. lia.
Qed.

(** ** Interfaces *)

Lemma find_iface_lookup f l : ∀ k i, find_iface f l k = Some i → ∃ v, l !! (i - k)%nat = Some v ∧ (k ≤ i)%nat.
Proof.
  induction l as [|v l IH]; intros k i; simpl; [done|]. destruct (f v).
  - intros [= <-]. exists v. by rewrite Nat.sub_diag.
  - intros (w & Hw & Hle)%IH. exists w. split; [|lia]. by replace (i - k)%nat with (S (i - S k)) by lia.
Qed.

Lemma find_iface_some f l i : find_iface f l 0 = Some i → ∃ v, l !! i = Some v.
Proof. intros (v & Hv & _)%find_iface_lookup. exists v. by rewrite Nat.sub_0_r in Hv. Qed.

(** Two lists of interfaces with the same addresses find the same neighbours. *)
Lemma find_iface_addr f l l' : Forall2 (λ v w, f v = f w) l l' → ∀ k, find_iface f l k = find_iface f l' k.
Proof. induction 1 as [|v w l l' E Hl IH]; intros k; simpl; [done|]. by rewrite E, IH. Qed.

Lemma iface_at i s : l3_wf N s → (i < N)%nat → ∃ v, interfaces s !! i = Some v ∧ if_ok v.
Proof.
  intros W Hi. destruct (lookup_lt_is_Some_2 (interfaces s) i) as [v Hv]; [by rewrite (lw_n _ _ W)|].
  exists v. split; [done|]. eapply Forall_lookup_1; [apply (lw_if _ _ W) | done].
Qed.

Lemma lk_iface {B} i (k : vde_iface → M l3 B) : (i < N)%nat → (∀ v, if_ok v → l3_keeps (k v)) → l3_keeps (iface i ≫= k).
Proof. intros Hi Hk s W. destruct (iface_at i s W Hi) as (v & Hv & Hok). apply wp_bind. eapply wp_iface; [done|]. by apply Hk. Qed.

Lemma find_iface_lt f s i : l3_wf N s → find_iface f (interfaces s) 0 = Some i → (i < N)%nat.
Proof. intros W (v & Hv)%find_iface_some. apply lookup_lt_Some in Hv. by rewrite <- (lw_n _ _ W). Qed.

(** Replacing an interface by one with the same addresses. *)
Lemma l3_wf_put s i v w : l3_wf N s → interfaces s !! i = Some v → if_ok w → ipaddr w = ipaddr v → nm w = nm v →
  l3_wf N (set_ifaces (<[i := w]> (interfaces s)) s).
Proof.
  intros [Hn Hif Harp Hr Hd He] Hv Hw Ei En.
  assert (∀ g, on_net (interfaces s) g → on_net (<[i := w]> (interfaces s)) g) as Hon.
  { intros g [->|Hg]; [by left|]. right. unfold is_neightbor in *.
    rewrite <- (find_iface_addr _ (interfaces s)); [done|]. apply Forall2_same_length_lookup_2.
    - by rewrite length_insert.
    - intros j x y Hx Hy. destruct (decide (i = j)) as [->|Hne].
      + rewrite list_lookup_insert_eq in Hy by (by eapply lookup_lt_Some). simplify_eq. by rewrite Ei, En.
      + rewrite list_lookup_insert_ne in Hy by done. by simplify_eq. }
  split; simpl; try done.
  - by rewrite length_insert.
  - by apply Forall_insert.
  - eapply Forall_impl; [done|]. intros r. apply Hon.
  - by apply Hon.
Qed.

(** ** The queueing disciplines *)

Lemma push_ok p v : pkt_ok p → if_ok v → if_ok (push p v).1 ∧ ipaddr (push p v).1 = ipaddr v ∧ nm (push p v).1 = nm v.
Proof.
  intros Hp [Hm Hq Hpol]. assert (Forall pkt_ok (q_out v ++ [p])) as Hq' by (by apply Forall_app; split; [|apply Forall_singleton]).
  unfold push. destruct (pol v) as [|f|f|t] eqn:Ep; simpl in Hpol; [|unfold pfifo_enqueue|done|unfold tbf_enqueue].
  - split; [|done]. split; simpl; [done | done | by rewrite Ep].
  - case_match; (split; [|done]); by split.
  - case_match; (split; [|done]); split; try done; simpl. case_match; simpl; [|done].
    destruct Hp as (_ & Hl & Hmax). apply Z.ltb_lt in H0. unfold u32. rewrite Z.mod_small; lia.
Qed.

Lemma lk_enqueue i p : pkt_ok p → (i < N)%nat → l3_keeps (enqueue i p).
Proof.
  intros Hp Hi s W. destruct (iface_at i s W Hi) as (v & Hv & Hok). eapply wp_enqueue; [done|].
  destruct (push_ok p v Hp Hok) as (H1 & H2 & H3). by apply (l3_wf_put s i v).
Qed.

(** [ufifo_dequeue] on an interface with a packet. *)
Lemma wp_ufifo_dequeue i s v p q (Q : bool → l3 → Prop) :
  l3_wf N s → interfaces s !! i = Some v → q_out v = p :: q → pkt_ok p →
  (∀ s', l3_wf N s' → interfaces s' !! i = Some (with_q q (pol v) v) →
     sent s' = sent s ++ [(ifid v, slice (data p) 0 (len p))] → Q (negb (bool_decide (q = []))) s') →
  wp (ufifo_dequeue i) Q s.
Proof.
  intros W Hv Eq Hp HQ. apply wp_bind. eapply wp_iface; [done|]. rewrite Eq. apply wp_bind, wp_bind.
  unfold rd. destruct Hp as (_ & Hlen & _). destruct (Z.leb_spec (0 + len p) (Z.of_nat (length (data p)))); [|lia].
  apply wp_ret, wp_modify, wp_bind, wp_modify, wp_ret.
  assert (if_ok v) as [Hm Hq Hpol] by (eapply Forall_lookup_1; [apply (lw_if _ _ W) | done]).
  rewrite Eq in Hq. apply Forall_cons in Hq as [_ Hq].
  apply HQ; simpl; [|by rewrite list_lookup_insert_eq by (by eapply lookup_lt_Some) | done].
  apply (l3_wf_put (set_sent _ s) i v); simpl; [destruct W; by split | done | by split | done | done].
Qed.

Lemma tbf_spend_some now m last : 0 < m → ∀ fuel out, out ≤ Z.of_nat fuel → is_Some (tbf_spend fuel now m out last).
Proof.
  intros Hm. assert (∀ fuel out l, out ≤ Z.of_nat fuel → is_Some (tbf_spend fuel now m out l)) as H; [|intros; by apply H].
  induction fuel as [|fuel IH]; intros out l Ho; simpl.
  - destruct (Z.leb_spec m out); [lia | by eexists].
  - destruct (Z.leb_spec m out); [apply IH; lia | by eexists].
Qed.

Lemma lk_dequeue now i : ∀ s v, l3_wf N s → interfaces s !! i = Some v → q_out v ≠ [] →
  wp (dequeue now i) (λ _ s', l3_wf N s') s.
Proof.
  intros s v W Hv Hne. assert (if_ok v) as [Hm Hq Hpol] by (eapply Forall_lookup_1; [apply (lw_if _ _ W) | done]).
  destruct (q_out v) as [|p q] eqn:Eq; [done|]. pose proof Hq as [Hp Hq']%Forall_cons.
  apply wp_bind. eapply wp_iface; [done|].
  assert (∀ s1 pl, l3_wf N s1 → interfaces s1 !! i = Some (with_q q (pol v) v) → pol_ok pl →
    l3_wf N (set_ifaces (<[i := with_q q pl (with_q q (pol v) v)]> (interfaces s1)) s1)) as Hput.
  { intros s1 pl W1 H1 Hpl. by apply (l3_wf_put s1 i (with_q q (pol v) v)). }
  destruct (pol v) as [|f|f|t] eqn:Ep; simpl in Hpol; [| |done|].
  - by eapply wp_ufifo_dequeue.
  - apply wp_bind. eapply wp_ufifo_dequeue; try done. intros s1 W1 H1 _. apply wp_bind. eapply wp_iface; [done|].
    apply wp_bind, wp_modify, wp_ret. rewrite Ep in H1 |- *. by apply Hput.
  - unfold tbf_dequeue. destruct (before _ _); [by apply wp_ret|].
    apply wp_bind. eapply wp_iface; [done|]. apply wp_bind, (wp_deref _ p); [by rewrite Eq|].
    apply wp_bind. eapply wp_ufifo_dequeue; try done. intros s1 W1 H1 _. apply wp_bind. eapply wp_iface; [done|].
    assert (is_Some (tbf_spend (Z.to_nat (u32 (len p))) now (mtu t) (u32 (len p)) (last_out t))) as [[r l] Hr].
    { apply tbf_spend_some; [done|]. pose proof (Z.mod_pos_bound (len p) (2 ^ 32)). unfold u32. lia. }
    apply wp_bind. eapply wp_deref; [done|]. apply wp_bind, wp_modify, wp_ret. rewrite Ep in H1 |- *. by apply Hput.
Qed.

Lemma lk_serve now writable : l3_keeps (serve now writable).
Proof.
  apply lk_get. intros s W. apply (wp_forM_inv _ _ (l3_wf N)); [done|].
  intros i s' Hi W'. apply elem_of_seq in Hi. rewrite (lw_n _ _ W) in Hi. destruct (iface_at i s' W') as (v & Hv & _); [lia|].
  apply wp_bind. eapply wp_iface; [done|]. apply wp_whenM; [|done]. intros [_ Hne]%andb_prop.
  apply negb_true_iff, bool_decide_eq_false_1 in Hne.
  apply wp_bind. eapply wp_mono; [by eapply lk_dequeue|]. intros b s'' W''. by apply wp_ret.
Qed.

(** ** The packet handlers *)

Lemma wf_set_sent x s : l3_wf N s → l3_wf N (set_sent x s).
Proof. intros []. by split. Qed.
Lemma wf_set_ident x s : l3_wf N s → l3_wf N (set_ident x s).
Proof. intros []. by split. Qed.
Lemma lk_add_arp_entry a : arp_ok a → aclear a = true → l3_keeps (add_arp_entry a).
Proof.
  intros Ha Hc s [Hn Hif Harp Hr Hd [He He']]. apply wp_bind, wp_get, wp_bind, wp_walk_end; [done|]. apply wp_modify.
  split; simpl; try done.
  - apply Forall_app. by split; [|apply Forall_singleton].
  - split; simpl; [by rewrite ended_snoc | done].
Qed.
Lemma lk_get_arp_entry {B} ip (k : option arp_entry → M l3 B) :
  (∀ o, (∀ ae, o = Some ae → arp_ok ae) → l3_keeps (k o)) → l3_keeps (get_arp_entry ip ≫= k).
Proof.
  intros Hk s W. apply wp_bind, wp_get_arp_entry; [intros _; apply (lw_ends _ _ W)|].
  apply Hk; [|done]. intros ae E. apply (find_arp_ok _ _ _ (lw_arp _ _ W) E).
Qed.
Lemma lk_modify f : (∀ s, l3_wf N s → l3_wf N (f s)) → l3_keeps (modify f).
Proof. intros Hf s W. by apply wp_modify, Hf. Qed.

(** The part of a buffer that its length announces. *)
Lemma lk_rd_tail {B} p (k : list Z → M l3 B) : pkt_ok p → (∀ x, l3_keeps (k x)) →
  l3_keeps (rd p PAYLOAD (Z.max 0 (len p - 34)) ≫= k).
Proof.
  intros (H42 & Hlen & _) Hk s W. apply wp_bind. unfold rd, PAYLOAD.
  destruct (Z.leb_spec (34 + Z.max 0 (len p - 34)) (Z.of_nat (length (data p)))); [|lia]. by apply wp_ret, Hk.
Qed.

Lemma find_gateway_on_net s a : l3_wf N s → on_net (interfaces s) (find_gateway s a).
Proof.
  intros [_ _ _ Hr Hd _]. unfold find_gateway.
  assert (∀ l res m, Forall (λ r, on_net (interfaces s) (gw r)) l → on_net (interfaces s) res →
    on_net (interfaces s) (gateway_loop l a res m)) as Hloop.
  { induction l as [|r l IH]; intros res m Hl Hres; simpl; [done|]. apply Forall_cons in Hl as [Hg Hl].
    case_match; by apply IH. }
  case_match; [done|]. apply Hloop; [done | by left].
Qed.

Ltac offs :=
  unfold E_DST, E_SRC, E_TYPE, IPH, IP_TTL, IP_PROTO, IP_CHECK, IP_SADDR, IP_DADDR, PAYLOAD, A_OPCODE, A_SMAC, A_SADDR,
    A_DMAC, A_DADDR, arp_ok in *;
  simpl; lia.
(** One step through a handler that only reads and writes its packet. *)
Ltac lk_step := first
  [ apply lk_ret
  | apply lk_rd; [done | offs | offs | offs | intros ? ?]
  | apply lk_rd8; [done | offs | intros ?]
  | apply lk_wr; [done | offs | offs | intros ? ? ?]
  | apply lk_swap; [done | offs | offs | offs | offs | offs | intros ? ? ?]
  | apply lk_rd_tail; [done | intros ?] ].

Lemma lk_arp_query i tgt : (i < N)%nat → l3_keeps (arp_query i tgt).
Proof.
  intros Hi s W. destruct (iface_at i s W Hi) as (v & Hv & Hok). eapply wp_arp_query; [done | apply (io_mac _ Hok) |].
  by apply wf_set_sent.
Qed.

Lemma lk_arp_reply i p : pkt_ok p → (i < N)%nat → l3_keeps (arp_reply i p).
Proof. intros Hp Hi. apply lk_iface; [done|]. intros v [Hm _ _]. do 6 lk_step. by apply lk_raw_send. Qed.

Lemma lk_read {B} (k : l3 → M l3 B) : (∀ s, l3_wf N s → l3_keeps (k s)) → l3_keeps (get ≫= k).
Proof. intros Hk. apply lk_get. intros s W. by apply Hk. Qed.

Lemma lk_parse_arp p : pkt_ok p → l3_keeps (parse_arp true p).
Proof.
  intros Hp. apply lk_read. intros s W. lk_step. destruct (get_iface_by_ipaddr _ _) as [i|] eqn:Ei; [|lk_step].
  do 2 lk_step. apply lk_bind; [apply lk_add_arp_entry; [unfold arp_ok; simpl; lia | done] | intros []].
  lk_step. case_match; [|lk_step]. apply lk_bind; [|intros []; lk_step]. apply lk_arp_reply; [done|]. by eapply find_iface_lt.
Qed.

(** ** IP *)

Lemma lk_assoc {A B C} (m : M l3 A) (f : A → M l3 B) (k : B → M l3 C) :
  l3_keeps (m ≫= λ a, f a ≫= k) → l3_keeps ((m ≫= f) ≫= k).
Proof. intros H s W. specialize (H s W). unfold wp, mbind, M_bind in *. by destruct (m s). Qed.

Lemma lk_pure {A B} (a : A) (k : A → M l3 B) : l3_keeps (k a) → l3_keeps (mret a ≫= k).
Proof. done. Qed.

Lemma lk_set_checksum {B} p (k : vde_buff → M l3 B) : pkt_ok p →
  (∀ p', pkt_ok p' → len p' = len p → l3_keeps (k p')) → l3_keeps (set_checksum p ≫= k).
Proof.
  intros Hp Hk. do 2 apply lk_assoc. lk_step. apply lk_assoc. lk_step. apply lk_pure. lk_step. apply Hk; [done | congruence].
Qed.

Lemma lk_icmp_checksum {B} p (k : vde_buff → M l3 B) : pkt_ok p →
  (∀ p', pkt_ok p' → len p' = len p → l3_keeps (k p')) → l3_keeps (icmp_checksum p ≫= k).
Proof.
  intros Hp Hk. apply lk_assoc. lk_step. apply lk_assoc. lk_step. lk_step. apply Hk; [done | congruence].
Qed.

Ltac ip_step := first
  [ lk_step
  | apply lk_set_checksum; [done | intros ? ? ?]
  | apply lk_icmp_checksum; [done | intros ? ? ?]
  | apply lk_read; intros ? ? ].

Lemma lk_fill i p v ae : pkt_ok p → (i < N)%nat → if_ok v → arp_ok ae →
  l3_keeps (p ← wr p E_SRC (mac v); p ← wr p E_DST (amac ae); enqueue i p).
Proof. intros Hp Hi [Hm _ _] Ha. do 2 ip_step. by apply lk_enqueue. Qed.

Lemma lk_neightbor_send i p : pkt_ok p → (i < N)%nat → l3_keeps (neightbor_send i p).
Proof.
  intros Hp Hi. ip_step. apply lk_iface; [done|]. intros v Hv.
  apply lk_get_arp_entry. intros [ae|] Ho; [by apply lk_fill, Ho|].
  ip_step. apply lk_bind; [by apply lk_arp_query | intros []; ip_step].
Qed.

Lemma lk_gateway_send p s g : pkt_ok p → l3_wf N s → is_Some (is_neightbor (interfaces s) g) →
  wp (gateway_send p g) (λ _ s', l3_wf N s') s.
Proof.
  intros Hp W [i Hi]. assert (i < N)%nat as Hlt by (by eapply find_iface_lt).
  apply wp_bind, wp_get, wp_bind. eapply wp_deref; [done|].
  refine (lk_iface i _ Hlt _ s W). intros v Hv.
  apply lk_get_arp_entry. intros [ae|] Ho; [by apply lk_fill, Ho|].
  ip_step. apply lk_bind; [by apply lk_arp_query | intros []; ip_step].
Qed.

Lemma lk_ip_send p : pkt_ok p → l3_keeps (ip_send p).
Proof.
  intros Hp s W. apply wp_bind, wp_get, wp_rd_ok; [done | offs..|]. intros d Hd.
  destruct (is_neightbor _ _) as [i|] eqn:Ei; [apply lk_neightbor_send; [done | by eapply find_iface_lt | done]|].
  apply wp_bind, wp_get_gateway; [apply (lw_ends _ _ W)|].
  destruct (Z.eqb_spec (find_gateway s (of_be d)) 0) as [|Hg]; [by apply wp_ret|].
  apply lk_gateway_send; [done | done |]. by destruct (find_gateway_on_net s (of_be d) W).
Qed.

Lemma lk_ip_forward p : pkt_ok p → l3_keeps (ip_forward p).
Proof.
  intros Hp. apply lk_assoc. ip_step. apply lk_assoc. ip_step. do 2 (apply lk_assoc; ip_step). apply lk_pure.
  cbv beta iota. case_match; [ip_step | by apply lk_ip_send].
Qed.

Lemma lk_ip_output p dst proto : pkt_ok p → l3_keeps (ip_output p dst proto).
Proof.
  intros Hp. do 8 ip_step. apply lk_get. intros s W. apply wp_bind.
  apply (wp_mono _ (λ o s', s' = s ∧ (∀ i, o = Some i → (i < N)%nat))).
  { destruct (is_neightbor _ dst) as [j|] eqn:Ej;
      [|apply wp_bind, wp_get_gateway; [apply (lw_ends _ _ W)|]]; apply wp_ret; (split; [done|]); intros i E.
    - simplify_eq. by eapply find_iface_lt.
    - by eapply find_iface_lt. }
  intros [i|] s' [-> Hi]; [specialize (Hi i eq_refl) | by apply wp_ret]. revert s W.
  apply lk_iface; [done|]. intros v Hv. do 3 ip_step. by apply lk_ip_send.
Qed.

Lemma lk_ip_output_ready p : pkt_ok p → l3_keeps (ip_output_ready p).
Proof. intros Hp. do 2 ip_step. by apply lk_ip_output. Qed.

Lemma lk_parse_icmp p : pkt_ok p → l3_keeps (parse_icmp p).
Proof.
  intros Hp. ip_step. assert (∀ p', pkt_ok p' → l3_keeps (_ ← ip_output_ready p'; mret 1)) as Hout.
  { intros p' Hp'. apply lk_bind; [by apply lk_ip_output_ready | intros ?; ip_step]. }
  case_match; [|by apply lk_pure, Hout]. do 3 (apply lk_assoc; ip_step). ip_step. by apply Hout.
Qed.

Lemma lk_service_unreachable p : pkt_ok p → l3_keeps (service_unreachable p).
Proof.
  intros Hp. assert (pkt_ok (vdebuff_alloc (14 + 20 + 8))) as Ha by (by unfold pkt_ok; cbn).
  unfold service_unreachable. cbv zeta. do 4 ip_step. apply lk_bind; [apply lk_modify; intros; by apply wf_set_ident | intros []].
  do 2 ip_step. by apply lk_ip_output.
Qed.

Lemma lk_ip_input p : pkt_ok p → l3_keeps (ip_input p).
Proof.
  intros Hp. ip_step. case_match; [ip_step|]. ip_step. case_match; [by apply lk_parse_icmp | by apply lk_service_unreachable].
Qed.

Lemma lk_parse_ip p : pkt_ok p → l3_keeps (parse_ip true p).
Proof.
  intros Hp. do 2 ip_step. apply lk_get_arp_entry. intros o _.
  apply lk_bind; [|intros []; ip_step; case_match; [by apply lk_ip_input | by apply lk_ip_forward]].
  destruct o as [ae|]; [ip_step|]. ip_step. apply lk_add_arp_entry; [unfold arp_ok; simpl; lia | done].
Qed.

Lemma lk_receive i frame : (i < N)%nat → Z.of_nat (length frame) ≤ 1548 → l3_keeps (receive i frame true).
Proof.
  intros Hi Hf. apply lk_iface; [done|]. intros v Hv. cbv zeta.
  match goal with |- context [rd ?x E_DST 6] => assert (pkt_ok x) as Hp; [|generalize dependent x] end.
  { unfold pkt_ok. cbn [data len]. rewrite length_take, length_app, length_drop. change (length (data (vdebuff_alloc 1550))) with 1551%nat. lia. }
  intros p Hp. do 2 ip_step. case_match; [|ip_step]. ip_step.
  apply lk_bind; [|intros []]; apply lk_whenM; intros _.
  - apply lk_bind; [by apply lk_parse_arp | intros ?; ip_step].
  - apply lk_bind; [by apply lk_parse_ip | intros ?; ip_step].
Qed.
End keeps.

(** ** The switch runs for ever *)

(** What makes the main loop work: a frame on an interface, with the memory that
    [malloc] gives for an ARP entry meanwhile, or interfaces that can take
    packets. *)
Inductive l3_event := Frame (i : nat) (f : list Z) (clear : bool) | Writable (now : timeval) (w : nat → bool).
Definition l3_react (e : l3_event) : M l3 () :=
  match e with Frame i f clear => receive i f clear | Writable now w => serve now w end.
Definition event_ok (N : nat) (e : l3_event) : Prop :=
  match e with Frame i f clear => (i < N)%nat ∧ Z.of_nat (length f) ≤ 1548 ∧ clear = true | Writable _ _ => True end.

(** C31: as long as every gateway is on a network of the switch, no interface uses
    [bfifo], and the memory that [malloc] returns for the ARP entries and the
    routes has a NULL [next], no sequence of frames of at most 1548 bytes of any
    content and of departures makes the switch read or write outside a packet or
    dereference NULL or an invalid pointer; the state stays well formed.  The
    three conditions are needed: [stray_gateway_faults],
    [bfifo_last_packet_faults], and, as the code never sets [next],
    [unset_next_faults]. *)
Theorem l3_never_faults N s evs :
  l3_wf N s → Forall (event_ok N) evs → ∃ s', forM evs l3_react s = Done () s' ∧ l3_wf N s'.
Proof.
  intros W Hev. assert (wp (forM evs l3_react) (λ _ s', l3_wf N s') s) as (r & s' & E & W')%wp_done_intro.
  { apply wp_forM_inv; [done|]. intros e s1 He W1. rewrite Forall_forall in Hev. specialize (Hev e He).
    destruct e as [i f clear|now w]; simpl in *; [destruct Hev as (? & ? & ->); by apply (lk_receive i f) | by apply (lk_serve now w)]. }
  exists s'. by destruct r.
Qed.

(** A gateway on no network of the switch crashes it at the first packet. *)
Lemma stray_gateway_faults :
  let s := L3St [demo_if 0 0] [] [] 0x08080808 0 [] in
  let p := frame ([0; 0xAA] ++ be32 0x0A000001) [7; 7; 7; 7; 7; 7] demo_mid 64 1 demo_chk [10; 0; 0; 7] [192; 168; 3; 4]
             (replicate 8 0) in
  l3_react (Frame 0 p true) s = Fault.
Proof. vm_compute. reflexivity. Qed.

Definition demo_echo : list Z :=
  frame ([0; 0xAA] ++ be32 0x0A000001) [7; 7; 7; 7; 7; 7] demo_mid 64 1 demo_chk [10; 0; 0; 7] [10; 0; 0; 1] (8 :: replicate 7 0).

(** An echo request from a new address, for whose ARP entry [malloc] returns memory
    with a [next] that is not NULL: it is answered, but the first packet from
    another new address follows that [next]. *)
Lemma unset_next_faults :
  let other := frame ([0; 0xAA] ++ be32 0x0A000001) [8; 8; 8; 8; 8; 8] demo_mid 64 1 demo_chk [10; 0; 0; 8] [10; 0; 0; 1] (8 :: replicate 7 0) in
  (∃ s, l3_react (Frame 0 demo_echo false) demo_router = Done () s) ∧
  forM [Frame 0 demo_echo false; Frame 0 other true] l3_react demo_router = Fault ∧
  ∃ s, forM [Frame 0 demo_echo true; Frame 0 other true] l3_react demo_router = Done () s.
Proof. split_and!; [eexists; by vm_compute | by vm_compute | eexists; by vm_compute]. Qed.

(** A truncated frame, an echo request to the switch, then all queues are served. *)
Lemma l3_never_faults_witness :
  ∃ s', forM [Frame 0 [0; 0xAA; 10; 0; 0; 1] true; Frame 0 demo_echo true; Writable (Timeval 0 0) (λ _, true)] l3_react demo_router = Done () s' ∧
    l3_wf 2 s'.
Proof.
  refine (l3_never_faults 2 demo_router _ _ _).
  - split; try done; repeat constructor; try done; by right; vm_compute; eexists.
  - by repeat constructor.
Defined.
