(* ===== verification/L3Admin.v ===== *)
(** * L3Admin: correctness of the configuration of the layer 3 switch

    Printed addresses are read back, netmasks are accepted exactly when they are
    prefixes of ones in dotted form, the options of [main] establish the
    invariant of the running switch, and the [route] command takes effect. *)
From Stdlib Require Import Lia Ascii String.
From stdpp Require Import base numbers list strings.
From S2P Require Import Prelude Scan L3 L3Console L3Facts L3Safe.

Local Notation "a +:+ b" := (String.append a b) (at level 60, right associativity).

(** ** Addresses *)

Lemma append_assoc a b c : (a +:+ b) +:+ c = a +:+ (b +:+ c).
Proof. induction a as [|x a IH]; [done|]. exact (f_equal (String x) IH). Qed.

Lemma append_char c a b : String c a +:+ b = String c (a +:+ b).
Proof. done. Qed.

Lemma show_dec_append f : ∀ z acc r, show_dec f z acc +:+ r = show_dec f z (acc +:+ r).
Proof. induction f as [|f IH]; intros z acc r; cbn [show_dec]; [done|]. case_match; [done | by rewrite IH]. Qed.

(** What may follow a number in an address, a route or a line. *)
Definition NL : ascii := ascii_of_nat 10.
Definition stop_char (c : ascii) : Prop := c ∈ ["."%char; "/"%char; ":"%char; NL].
Definition stops (r : string) : Prop := match r with EmptyString => True | String c _ => stop_char c end.

Ltac stop_cases H := unfold stop_char in H; repeat (apply elem_of_cons in H as [->|H]); [..|by apply elem_of_nil in H].

Lemma scan_digits_stops b r v seen : (b = 10 ∨ b = 8) → stops r → scan_digits b r v seen = (v, seen, r).
Proof. intros [->| ->]; destruct r as [|c r]; try done; intros H; simpl in H; stop_cases H; done. Qed.

Lemma scan_base_zero r : stops r → scan_base (String "0" r) = (8, String "0" r).
Proof. destruct r as [|c r]; [done|]. intros H. simpl in H. stop_cases H; done. Qed.

Lemma isdigit_digit d : 0 ≤ d < 10 → isdigit (digit_char d) = true.
Proof. intros Hd. unfold isdigit. rewrite ascii_z_digit by done. apply andb_true_iff. split; apply Z.leb_le; lia. Qed.

(** A printed number is read back, up to what follows it. *)
Lemma inet_num_show z r : 0 ≤ z < 2 ^ 32 → stops r → inet_num (show_int z +:+ r) = Some (z, r).
Proof.
  intros Hz Hr. unfold show_int. destruct (Z.ltb_spec z 0); [lia|]. rewrite show_dec_append. change ("" +:+ r) with r.
  destruct (decide (z = 0)) as [->|Hne].
  - change (show_dec 20 0 r) with (String "0" r). unfold inet_num. rewrite scan_base_zero by done.
    change (isdigit "0") with true. cbv iota beta. change (scan_digits 8 (String "0" r) 0 false) with (scan_digits 8 r 0 true).
    rewrite scan_digits_stops by (done || by right). done.
  - destruct (show_dec_head 20 z r) as (d & s & Es & Hd); [lia..|].
    destruct (scan_show_dec 20 z r 0 false) as (k & Hk & Hscan); [lia..|].
    unfold inet_num. rewrite Es in *. rewrite isdigit_digit by lia.
    destruct (digit_not_special d s Hd) as (_ & _ & ->). rewrite Hscan, scan_digits_stops by (done || by left).
    rewrite (proj2 (Z.ltb_lt 0 k)) by done. cbn [orb andb]. rewrite Z.mul_0_l, Z.add_0_l. by rewrite (proj2 (Z.ltb_lt z _)) by lia.
Qed.

Lemma inet_aton_dot n v r acc : 0 ≤ v < 256 → (1 < n)%nat →
  inet_aton n (show_int v +:+ String "." r) acc = inet_aton (n - 1) r (acc * 256 + v).
Proof.
  intros Hv Hn. destruct n as [|n]; [lia|]. cbn [inet_aton]. rewrite inet_num_show by (lia || by constructor).
  change (ascii_z "." =? 46) with true. cbv iota zeta beta.
  rewrite (proj2 (Nat.ltb_lt 1 (S n))), (proj2 (Z.ltb_lt v 256)) by lia. by replace (S n - 1)%nat with n by lia.
Qed.

(** The end of an address: the end of the string or white space. *)
Definition ends (r : string) : Prop := match r with EmptyString => True | String c _ => c = NL end.

Lemma inet_aton_last v r acc : 0 ≤ v < 256 → ends r → inet_aton 1 (show_int v +:+ r) acc = Some (acc * 256 + v).
Proof.
  intros Hv Hr. cbn [inet_aton]. rewrite inet_num_show; [|lia|].
  - change (256 ^ Z.of_nat 1) with 256. rewrite (proj2 (Z.ltb_lt v 256)) by lia. destruct r as [|c r]; [done|]. by simpl in Hr; subst.
  - destruct r as [|c r]; [done|]. simpl in *. subst. unfold stop_char. by repeat constructor.
Qed.

Lemma bytes_of_ip ip : 0 ≤ ip < 2 ^ 32 →
  ((u8 (Z.shiftr ip 24) * 256 + u8 (Z.shiftr ip 16)) * 256 + u8 (Z.shiftr ip 8)) * 256 + u8 ip = ip.
Proof.
  intros Hz. unfold u8. rewrite !Z.shiftr_div_pow2 by lia.
  change (2 ^ 8) with 256. change (2 ^ 16) with 65536. change (2 ^ 24) with 16777216. dlia.
Qed.

(** A printed address, alone or at the end of a line, is read back. *)
Lemma ascii2ip_ip2ascii ip r : 0 ≤ ip < 2 ^ 32 → ends r → ascii2ip (ip2ascii ip +:+ r) = ip.
Proof.
  intros Hip Hr. unfold ascii2ip, ip2ascii. repeat (rewrite append_assoc || rewrite append_char).
  do 3 (rewrite inet_aton_dot by (apply u8_range || lia); cbn [Nat.sub]).
  rewrite inet_aton_last by (apply u8_range || done). cbn [default]. rewrite Z.mul_0_l, Z.add_0_l. by apply bytes_of_ip.
Qed.

(** ** Netmasks *)

(** The netmask of the [k] first bits. *)
Definition prefix_mask (k : Z) : Z := 2 ^ 32 - 2 ^ (32 - k).
Definition is_mask (m : Z) : Prop := ∃ k, 1 ≤ k ≤ 32 ∧ m = prefix_mask k.

Lemma valid_nm_cases m : valid_nm m = 0 ∧ Forall (λ k, m ≠ prefix_mask k) (seqZ 1 32) ∨
  valid_nm m = m ∧ Exists (λ k, m = prefix_mask k) (seqZ 1 32).
Proof.
  unfold valid_nm. change (rev (seqZ 0 32)) with (Z.sub 32 <$> seqZ 1 32).
  assert (∀ n : nat, (n ≤ 32)%nat → let l := seqZ (33 - Z.of_nat n) (Z.of_nat n) in
    let v := prefix_mask (32 - Z.of_nat n) in
    valid_nm_loop (Z.sub 32 <$> l) m v = 0 ∧ Forall (λ k, m ≠ prefix_mask k) l ∨
    valid_nm_loop (Z.sub 32 <$> l) m v = m ∧ Exists (λ k, m = prefix_mask k) l) as H.
  2: { exact (H 32%nat (le_n _)). }
  induction n as [|n IH]; intros Hn; cbv zeta; [by left|].
  rewrite seqZ_cons by lia. rewrite fmap_cons. cbn [valid_nm_loop].
  replace (33 - Z.of_nat (S n)) with (32 - Z.of_nat n) by lia.
  replace (u32 _) with (prefix_mask (32 - Z.of_nat n)).
  2: { unfold prefix_mask, u32. rewrite Z.shiftl_1_l.
       replace (32 - (32 - Z.of_nat (S n))) with (Z.of_nat n + 1) by lia. replace (32 - (32 - Z.of_nat n)) with (Z.of_nat n) by lia.
       rewrite Z.pow_add_r by lia. assert (2 ^ Z.of_nat n < 2 ^ 32) by (apply Z.pow_lt_mono_r; lia).
       assert (0 < 2 ^ Z.of_nat n) by (apply Z.pow_pos_nonneg; lia). rewrite Z.mod_small; lia. }
  destruct (Z.eqb_spec m (prefix_mask (32 - Z.of_nat n))) as [E|E].
  - right. split; [done|]. by constructor.
  - specialize (IH ltac:(lia)). cbv zeta in IH.
    replace (Z.succ (32 - Z.of_nat n)) with (33 - Z.of_nat n) by lia. replace (Z.pred (Z.of_nat (S n))) with (Z.of_nat n) by lia.
    destruct IH as [[-> Hf]|[-> Hx]]; [left; split; [done | by constructor] | right; split; [done | by apply Exists_cons_tl]].
Qed.

Lemma valid_nm_mask m : is_mask m → valid_nm m = m.
Proof.
  intros (k & Hk & E). destruct (valid_nm_cases m) as [[_ Hf]|[-> _]]; [|done].
  rewrite Forall_forall in Hf. destruct (Hf k); [apply elem_of_seqZ; lia | done].
Qed.

Lemma mask_pos m : is_mask m → 0 < m < 2 ^ 32.
Proof.
  intros (k & Hk & ->). unfold prefix_mask. assert (2 ^ (32 - k) < 2 ^ 32) by (apply Z.pow_lt_mono_r; lia).
  assert (0 < 2 ^ (32 - k)) by (apply Z.pow_pos_nonneg; lia). lia.
Qed.

Lemma ascii2nm_ip2ascii m r : 0 < m < 2 ^ 32 → ends r → ascii2nm (ip2ascii m +:+ r) = valid_nm m.
Proof. intros Hm Hr. unfold ascii2nm. rewrite ascii2ip_ip2ascii by (lia || done). by destruct (Z.eqb_spec m 0); [lia|]. Qed.

Lemma append_nil a : a +:+ "" = a.
Proof. induction a as [|c a IH]; [done|]. exact (f_equal (String c) IH). Qed.

(** an address printed by [ip2ascii] is read back by [ascii2ip]; a netmask
    printed that way is read back by [ascii2nm] exactly when it is a nonempty
    prefix of ones, and is refused otherwise. *)
Theorem address_roundtrip ip :
  0 ≤ ip < 2 ^ 32 →
  ascii2ip (ip2ascii ip) = ip ∧
  ((is_mask ip ∧ ascii2nm (ip2ascii ip) = ip) ∨ (¬ is_mask ip ∧ ascii2nm (ip2ascii ip) = 0)).
Proof.
  intros Hip. rewrite <- (append_nil (ip2ascii ip)). split; [by apply ascii2ip_ip2ascii|].
  destruct (decide (ip = 0)) as [->|Hne]; [right; split; [intros ?%mask_pos; lia | done]|].
  rewrite ascii2nm_ip2ascii by (lia || done). destruct (valid_nm_cases ip) as [[-> Hf]|[-> Hx]].
  - right. split; [|done]. intros (k & Hk & E). rewrite Forall_forall in Hf. destruct (Hf k); [apply elem_of_seqZ; lia | done].
  - left. split; [|done]. apply Exists_exists in Hx as (k & Hk & E). apply elem_of_seqZ in Hk. exists k. split; [lia | done].
Qed.

(** A prefix length is read as an address, and refused: the code for it in
    [ascii2nm] is never reached with a number other than zero. *)
Lemma prefix_length_refused : Forall (λ k, ascii2nm (show_int k) = 0) (seqZ 1 32).
Proof. by repeat constructor. Qed.

(** What is not an address is accepted as the netmask 255.255.255.255. *)
Lemma garbage_netmask_accepted : ascii2nm "none" = 0xFFFFFFFF.
Proof. done. Qed.

(** ** The [route] command *)

Lemma has_char_append c a b : has_char c (a +:+ b) = has_char c a || has_char c b.
Proof. induction a as [|x a IH]; [done|]. rewrite append_char. cbn [has_char]. by rewrite IH, orb_assoc. Qed.

Lemma has_char_show c f : ∀ z acc, ascii_z c < 48 ∨ 57 < ascii_z c → has_char c (show_dec f z acc) = has_char c acc.
Proof.
  induction f as [|f IH]; intros z acc Hc; [done|]. cbn [show_dec].
  assert (0 ≤ z mod 10 < 10) by (apply Z.mod_pos_bound; lia).
  assert (has_char c (String (digit_char (z mod 10)) acc) = has_char c acc) as E.
  { cbn [has_char]. rewrite ascii_z_digit by done. by destruct (Z.eqb_spec (48 + z mod 10) (ascii_z c)); [lia|]. }
  case_match; [done|]. by rewrite IH.
Qed.

Lemma split_at_append c a r : has_char c a = false → split_at c (a +:+ String c r) = Some (a, r).
Proof.
  induction a as [|x a IH]; intros Ha.
  - change ("" +:+ String c r) with (String c r). cbn [split_at]. by rewrite Z.eqb_refl.
  - rewrite append_char. cbn [has_char split_at] in *. apply orb_false_iff in Ha as [-> Ha]. by rewrite IH.
Qed.

Lemma no_sep_in_ip c ip : c = "/"%char ∨ c = ":"%char → has_char c (ip2ascii ip) = false.
Proof.
  intros Hc. assert (∀ z, has_char c (show_int (u8 z)) = false) as H.
  { intros z. unfold show_int. pose proof (u8_range z). destruct (Z.ltb_spec (u8 z) 0); [lia|]. rewrite has_char_show; [done|].
    destruct Hc as [->| ->]; vm_compute; tauto. }
  assert (∀ s, has_char c (String "." s) = has_char c s) as Hd by (by destruct Hc as [->| ->]).
  unfold ip2ascii. by rewrite !has_char_append, !Hd, !has_char_append, !Hd, !has_char_append, !Hd, !H.
Qed.

(** The line [route net NETWORK/NETMASK:GATEWAY]. *)
Definition route_net_line (n m g : Z) : string :=
  "net " +:+ (ip2ascii n +:+ String "/" (ip2ascii m +:+ String ":" (ip2ascii g +:+ String NL ""))).

Lemma substring_all s : String.substring 0 (String.length s) s = s.
Proof. induction s as [|c s IH]; [done|]. cbn [String.length String.substring]. by rewrite IH. Qed.

Lemma skip_prefix s : skip 4 ("net " +:+ s) = s.
Proof.
  change ("net " +:+ s) with (String "n" (String "e" (String "t" (String " " s)))). unfold skip. cbn [String.length Nat.sub String.substring].
  by rewrite ?Nat.sub_0_r, substring_all.
Qed.

(** The table after a route was changed or added: the route stands before any
    other with the same network and netmask. *)
Definition route_put (new : vde_route) (l : list vde_route) : list vde_route :=
  match route_update new l with Some l' => l' | None => l ++ [new] end.

Definition placed (new : vde_route) (l res : list vde_route) : Prop :=
  ∃ l1 r l2, res = l1 ++ r :: l2 ∧ (network r = network new ∧ rnm r = rnm new ∧ gw r = gw new) ∧
    Forall (λ r, r ∈ l ∧ ¬ (network r = network new ∧ rnm r = rnm new)) l1 ∧ Forall (λ r, r ∈ l) l2.

Lemma route_put_behind new r l : placed new l (route_put new l) → ¬ (network r = network new ∧ rnm r = rnm new) →
  placed new (r :: l) match (r ::.) <$> route_update new l with Some l' => l' | None => (r :: l) ++ [new] end.
Proof.
  intros (l1 & x & l2 & E & Hx & H1 & H2) Hr. exists (r :: l1), x, l2. unfold route_put in E. split_and!; try naive_solver.
  - destruct (route_update new l); simpl in *; by rewrite E.
  - constructor; [split; [by left | done]|]. eapply Forall_impl; [done|]. intros r' [? ?]. split; [by right | done].
  - eapply Forall_impl; [done|]. intros r' ?. by right.
Qed.

Lemma route_put_split new l : placed new l (route_put new l).
Proof.
  unfold route_put. induction l as [|r l IH]; cbn [route_update]; [by exists [], new, []|].
  destruct (Z.eqb_spec (network new) (network r)) as [En|En]; [destruct (Z.eqb_spec (rnm new) (rnm r)) as [Em|Em]|]; cbn [andb].
  - exists [], (VdeRoute (network r) (rnm r) (gw new) (rclear r)), l. split_and!; try done. apply Forall_forall. intros r' Hr. by right.
  - by apply route_put_behind; [|naive_solver].
  - by apply route_put_behind; [|naive_solver].
Qed.

Lemma best_route_unique l addr m r r' : best_route l addr m r → best_route l addr m r' → r = r'.
Proof.
  intros (l1 & l2 & -> & Hc & Hm & H1 & H2) (k1 & k2 & E & Hc' & Hm' & K1 & K2).
  assert (∀ (l : list vde_route) j r x, Forall (λ r', covers addr r' → rnm r' < rnm r) l → l !! j = Some x → covers addr x → rnm x < rnm r) as Hlt.
  { intros l j y x Hl Hj Hx. exact (Forall_lookup_1 _ _ _ _ Hl Hj Hx). }
  destruct (lt_eq_lt_dec (length l1) (length k1)) as [[Hl|Hl]|Hl].
  - assert (k1 !! length l1 = Some r) as Hk.
    { rewrite <- (lookup_app_l k1 (r' :: k2)) by done. rewrite <- E. by apply list_lookup_middle. }
    assert (rnm r < rnm r') by (by eapply Hlt).
    assert ((r :: l2) !! (length k1 - length l1)%nat = Some r') as Hr.
    { rewrite <- (lookup_app_r l1) by lia. rewrite E. by apply list_lookup_middle. }
    destruct (length k1 - length l1)%nat as [|d] eqn:Ed; [lia|]. simpl in Hr.
    pose proof (Forall_lookup_1 _ _ _ _ H2 Hr Hc'). lia.
  - destruct (app_inj_1 _ _ _ _ Hl E) as [_ Heq]. by injection Heq.
  - assert (l1 !! length k1 = Some r') as Hk.
    { rewrite <- (lookup_app_l l1 (r :: l2)) by done. rewrite E. by apply list_lookup_middle. }
    assert (rnm r' < rnm r) by (by eapply Hlt).
    assert ((r' :: k2) !! (length l1 - length k1)%nat = Some r) as Hr.
    { rewrite <- (lookup_app_r k1) by lia. rewrite <- E. by apply list_lookup_middle. }
    destruct (length l1 - length k1)%nat as [|d] eqn:Ed; [lia|]. simpl in Hr.
    pose proof (Forall_lookup_1 _ _ _ _ K2 Hr Hc). lia.
Qed.

Lemma gateway_of_best l addr r res : best_route l addr 0 r → gateway_loop l addr res 0 = gw r.
Proof.
  intros Hr. destruct (gateway_loop_best l addr res 0) as [(r' & Hr' & ->)|[Hall _]]; [done|..].
  - f_equal. by eapply best_route_unique.
  - exfalso. destruct Hr as (l1 & l2 & -> & Hc & Hm & _). apply Forall_app in Hall as [_ [Hle _]%Forall_cons].
    specialize (Hle Hc). lia.
Qed.

Lemma unicast_zero ip : unicast_ip ip = ip ∨ unicast_ip ip = 0.
Proof. unfold unicast_ip. case_match; [by right | by left]. Qed.

(** after [route net N/M:G] with unicast addresses and a valid netmask, on a
    table that ends and whatever memory the new route gets, the gateway of an address of that network is G, unless a route with a netmask
    at least as large and another network covers it. *)
Theorem route_command_takes_effect clear s n m g addr :
  0 ≤ n < 2 ^ 32 → 0 < g < 2 ^ 32 → unicast_ip n = n → unicast_ip g = g → is_mask m →
  Z.land n m = Z.land addr m → ended rclear (route_table s) = true →
  Forall (λ r, covers addr r → rnm r < m ∨ (network r = n ∧ rnm r = m)) (route_table s) →
  wp (route clear (route_net_line n m g)) (λ a s', a.1 = 0 ∧ find_gateway s' addr = g ∧ interfaces s' = interfaces s) s.
Proof.
  intros Hn Hg Un Ug Hm Hcov Hend Hall. pose proof (mask_pos m Hm) as Hmp. set (new := VdeRoute n m g clear).
  assert (find_gateway (set_routes (route_put new (route_table s)) s) addr = g) as Hgw.
  { unfold find_gateway. cbn [route_table set_routes default_gw].
    destruct (route_put_split new (route_table s)) as (l1 & x & l2 & -> & (X1 & X2 & X3) & H1 & H2).
    rewrite Forall_forall in Hall. cbn [network rnm gw new] in *.
    rewrite (gateway_of_best _ addr x); [by rewrite X3; destruct (Z.eqb_spec g 0); [lia|]|].
    exists l1, l2. unfold covers. rewrite X1, X2. split_and!; [done | done | lia | lia | |].
    - eapply Forall_impl; [exact H1|]. intros r [Hr Hd] Hc. destruct (Hall r Hr Hc); [done | by destruct Hd].
    - eapply Forall_impl; [exact H2|]. intros r Hr Hc. destruct (Hall r Hr Hc); lia. }
  unfold route, route_net_line.
  match goal with |- context [strlen ("net " +:+ ?x)] => set (line := x) end.
  change (starts "list" ("net " +:+ line)) with false. change (starts "default gw " ("net " +:+ line)) with false.
  assert (starts "net " ("net " +:+ line) = true) as -> by (by destruct line). rewrite andb_false_r, skip_prefix.
  destruct (Z.eqb_spec (strlen ("net " +:+ line)) 1) as [E|_];
    [change ("net " +:+ line) with (String "n" (String "e" (String "t" (String " " line)))) in E;
     unfold strlen in E; cbn [String.length] in E; lia|].
  apply wp_bind, wp_ret. cbv iota. unfold line.
  rewrite split_at_append by (apply no_sep_in_ip; by left). rewrite split_at_append by (apply no_sep_in_ip; by right). cbv zeta.
  rewrite (ascii2ip_ip2ascii g) by (lia || done). rewrite Ug.
  rewrite <- (append_nil (ip2ascii n)), <- (append_nil (ip2ascii m)), ascii2ip_ip2ascii, ascii2nm_ip2ascii by (lia || done).
  rewrite Un, valid_nm_mask by done. fold new. apply wp_bind, wp_get.
  unfold route_put in Hgw. destruct (route_update new (route_table s)); [by apply wp_bind, wp_modify, wp_ret|].
  apply wp_bind, wp_walk_end; [done|]. apply wp_bind, wp_bind, wp_get, wp_bind, wp_walk_end; [done|]. by apply wp_modify, wp_ret.
Qed.

(** ** Start-up *)

Definition booting (s : l3) : Prop := Forall if_ok (interfaces s) ∧ arp_table s = [].

Lemma bind_inv {A B} (m : M l3 A) (k : A → M l3 B) s b s' : (m ≫= k) s = Done b s' → ∃ a s1, m s = Done a s1 ∧ k a s1 = Done b s'.
Proof. unfold mbind, M_bind. destruct (m s) as [a s1| |] eqn:E; [|done..]. eauto. Qed.

Lemma opt_v_booting a s m s' : opt_v a s = Done m s' → booting s → booting s'.
Proof.
  unfold opt_v. intros E [Hif Harp]. destruct (split_at ":" a) as [[? b]|]; [|done]. destruct (split_at "/" b) as [[addr mask]|]; [|done].
  cbv zeta in E. case_match; [done|]. case_match; [done|]. injection E as <- <-. split; [|done]. simpl. unfold add_iface.
  apply Forall_app. split; [done|]. by repeat constructor.
Qed.

Lemma opt_r_booting nm a clear s s' : opt_r nm a clear s = Done () s' → booting s → booting s'.
Proof.
  unfold opt_r. intros E Hb. destruct (split_at "/" a) as [[addr b]|]; [|done]. destruct (split_at ":" b) as [[? g]|]; [|done].
  apply bind_inv in E as (mask & s1 & E1 & E). destruct nm as [mask'|]; [|done]. injection E1 as <- <-. cbv zeta in E. case_match; [done|].
  apply bind_inv in E as (s2 & s3 & [= <- <-] & E). apply bind_inv in E as ([] & s2 & E2 & [= <-]).
  unfold walk_end in E2. case_match; [|done]. by injection E2 as <-.
Qed.

Lemma l3_options_booting l : ∀ nm s s', l3_options nm l s = Done () s' → booting s → booting s'.
Proof.
  induction l as [|o l IH]; intros nm s s' E Hb; [by injection E as <-|]. destruct o as [|a clear|a|a|]; cbn [l3_options] in E.
  - by eapply IH.
  - apply bind_inv in E as ([] & s1 & E1 & E). eapply IH; [done|]. by eapply opt_r_booting.
  - apply bind_inv in E as ([] & s1 & E1 & E). eapply IH; [done|]. unfold opt_g in E1. cbv zeta in E1.
    apply bind_inv in E1 as ([] & s2 & [= <-] & E2). case_match; [done|]. by injection E2 as <-.
  - apply bind_inv in E as (m & s1 & E1 & E). eapply IH; [done|]. by eapply opt_v_booting.
  - done.
Qed.

(** The options that [main] accepts establish the invariant of the running
    switch, if they name gateways on its networks and the memory of the last
    route has a NULL [next]. *)
Theorem l3_main_establishes_wf opts s :
  l3_main opts initial = Done () s →
  Forall (λ r, on_net (interfaces s) (gw r)) (route_table s) → on_net (interfaces s) (default_gw s) →
  ended rclear (route_table s) = true →
  l3_wf (length (interfaces s)) s ∧ (0 < length (interfaces s))%nat.
Proof.
  intros E Hr Hd He. unfold l3_main in E. apply bind_inv in E as ([] & s1 & E1 & E). apply bind_inv in E as (s2 & s3 & [= <- <-] & E).
  case_bool_decide as Hne; [done|]. injection E as <-.
  destruct (l3_options_booting opts None initial s1 E1) as [Hif Harp]; [by split|].
  split; [|destruct (interfaces s1); [done | simpl; lia]]. split; try done; [by rewrite Harp|]. split; [by rewrite Harp | done].
Qed.

(** [-r] before any [-v] reads a NULL netmask; after one, it uses the netmask of
    that interface instead of its own. *)
Lemma route_option_wrong_netmask :
  l3_main [OptR "192.168.0.0/255.255.0.0:10.0.0.254" true; OptV "/tmp/sw:10.0.0.1/255.255.255.0"] initial = Fault ∧
  (route_table <$> run_state (l3_main [OptV "/tmp/sw:10.0.0.1/255.255.255.0"; OptR "192.168.0.0/255.255.0.0:10.0.0.254" true]) initial)
    = Some [VdeRoute 0xC0A80000 0xFFFFFF00 0x0A0000FE true].
Proof. split; vm_compute; reflexivity. Qed.

(** Commands that crash the switch: a discipline without a name, a [tbf] without
    its second clause, the list of routes with a gateway on no network. *)
Definition demo_line (l : string) : string := l +:+ String NL "".

Lemma console_commands_fault stale junk clear :
  l3_handle_cmd stale junk clear (Timeval 0 0) (demo_line "tc set vd0") demo_router = Fault ∧
  l3_handle_cmd stale junk clear (Timeval 0 0) (demo_line "tc set vd0 tbf rate 8000") demo_router = Fault ∧
  (l3_handle_cmd stale junk clear (Timeval 0 0) (demo_line "route default gw 8.8.8.8") ≫= λ _,
   l3_handle_cmd stale junk clear (Timeval 0 0) (demo_line "route list")) demo_router = Fault.
Proof. split_and!; vm_compute; reflexivity. Qed.

(** A route added by [-r] in memory whose [next] is not NULL: the search for the
    gateway of the first packet to forward follows it, and so does the next [-r]. *)
Lemma unset_route_next_faults :
  let opts := [OptV "/tmp/sw:10.0.0.1/255.255.255.0"; OptR "192.168.0.0/255.255.255.0:10.0.0.254" false] in
  let p := frame ([0; 0xAA] ++ be32 0x0A000001) [7; 7; 7; 7; 7; 7] demo_mid 64 1 demo_chk [10; 0; 0; 7] [192; 168; 0; 4] (replicate 8 0) in
  (l3_main opts ≫= λ _, l3_react (Frame 0 p true)) initial = Fault ∧
  l3_main (opts ++ [OptR "192.168.1.0/255.255.255.0:10.0.0.254" true]) initial = Fault.
Proof. split; vm_compute; reflexivity. Qed.

(** ** Witnesses *)

Lemma address_roundtrip_witness :
  ascii2ip (ip2ascii 0xFFFFF000) = 0xFFFFF000 ∧
  ((is_mask 0xFFFFF000 ∧ ascii2nm (ip2ascii 0xFFFFF000) = 0xFFFFF000) ∨ (¬ is_mask 0xFFFFF000 ∧ ascii2nm (ip2ascii 0xFFFFF000) = 0)).
Proof. apply (address_roundtrip 0xFFFFF000). lia. Defined.

(** The route of the demonstration router moved to another gateway. *)
Lemma route_command_takes_effect_witness :
  wp (route false (route_net_line 0xC0A80000 0xFFFF0000 0x0A000063))
    (λ a s', a.1 = 0 ∧ find_gateway s' 0xC0A80304 = 0x0A000063 ∧ interfaces s' = interfaces demo_router) demo_router.
Proof.
  apply (route_command_takes_effect false demo_router 0xC0A80000 0xFFFF0000 0x0A000063 0xC0A80304); try done.
  - by exists 16.
  - constructor; [|constructor]. intros _. by right.
Defined.

Definition l3_demo_options : list l3_option := [OptV "/tmp/sw:10.0.0.1/255.255.255.0"; OptG "10.0.0.254"].
Definition demo_started : l3 :=
  L3St [VdeIface 0 [0; 0xAA; 10; 0; 0; 1] 0x0A000001 0xFFFFFF00 [] Ufifo "ufifo"] [] [] 0x0A0000FE 0 [].

Lemma l3_main_establishes_wf_witness : l3_wf 1 demo_started ∧ (0 < 1)%nat.
Proof.
  refine (l3_main_establishes_wf l3_demo_options demo_started _ _ _ _).
  - vm_compute. reflexivity.
  - constructor.
  - right. by exists 0%nat.
  - done.
Defined.
