(* ===== verification/OverNs.v ===== *)
(** * OverNs: the tunnel over DNS

    The parts of [vde_over_ns] that carry a packet: the encoding of bytes as
    letters of a domain name ([encode.c]), the cutting of a packet into fragments
    ([queue_senditem], [dequeue_senditem] and [nstxc_send_packet] of
    [vde_over_ns.c]) and their reassembly ([pstack.c]).  The DNS packets
    around them are in [Dns] and the two ends in [NsTunnel]; here the free space
    of a DNS packet is an argument. *)
From Stdlib Require Import Lia Ascii String.
From stdpp Require Import base numbers sets list strings.
From S2P Require Import Prelude Scan.

(** ** The encoding *)

Definition nstx_map : list Z :=
  ascii_z <$> list_ascii_of_string "abcdefghijklmnopqrstuvwxyzABCDEFGHIJKLMNOPQRSTUVWXYZ-_1234567890".

(** [map[i]] *)
Definition letter (i : Z) : option Z := zget nstx_map i.

(** The four letters of three bytes. *)
Definition sextets (a b c : Z) : list Z :=
  [Z.shiftr (Z.land a 252) 2;
   Z.lor (Z.shiftl (Z.land a 3) 4) (Z.shiftr (Z.land b 240) 4);
   Z.lor (Z.shiftl (Z.land b 15) 2) (Z.shiftr (Z.land c 192) 6);
   Z.land c 63].

(** The loop of [nstx_encode]: [mem] from [data + i] on, [n = len - i].  The last
    group reads up to two bytes beyond the data. *)
Fixpoint encode_loop (mem : list Z) (n : Z) : option (list Z) :=
  if n <=? 0 then Some [] else
  match mem with
  | a :: b :: c :: mem' => w ← mapM letter (sextets a b c); r ← encode_loop mem' (n - 3); Some (w ++ r)
  | _ => None
  end.
Definition nstx_encode (mem : list Z) (len : Z) : option (list Z) :=
  let cut := if negb (Z.rem len 3 =? 0) then 3 - Z.rem len 3 else 0 in
  h ← letter cut; r ← encode_loop mem len; Some (h :: r).

Fixpoint index_of (c : Z) (l : list Z) (i : Z) : option Z :=
  match l with
  | [] => None
  | x :: l' => if x =? c then Some i else index_of c l' (i + 1)
  end.

Section decode.
(** The cells of [revmap] that [init_revmap] leaves as [malloc] returned them. *)
Context (junk : Z → Z).

Definition revmap (c : Z) : Z := default (junk c) (index_of c nstx_map 0).

(** The bytes of four letters. *)
Definition octets (c0 c1 c2 c3 : Z) : list Z :=
  [u8 (Z.lor (Z.shiftl (revmap c0) 2) (Z.shiftr (Z.land (revmap c1) 48) 4));
   u8 (Z.lor (Z.shiftl (Z.land (revmap c1) 15) 4) (Z.shiftr (Z.land (revmap c2) 60) 2));
   u8 (Z.lor (Z.shiftl (Z.land (revmap c2) 3) 6) (revmap c3))].
Fixpoint decode_loop (l : list Z) : list Z :=
  match l with
  | c0 :: c1 :: c2 :: c3 :: l' => octets c0 c1 c2 c3 ++ decode_loop l'
  | _ => []
  end.
(** The buffer and [*rlen]; the first letter of an empty string is its NUL. *)
Definition nstx_decode (l : list Z) : list Z * Z :=
  let buf := decode_loop (tail l) in
  (buf, Z.of_nat (length buf) - revmap (default 0 (head l))).
End decode.

(** ** Fragments *)

Definition NSTX_MAGIC : Z := 0xb4.
Definition NSTX_LF : Z := 1.
Definition NSTX_TIMEOUT : Z := 30.

(** [struct nstxhdr]: magic; sequence number and channel, four bits each; twelve
    bits of identifier and four of flags, least significant first. *)
Record nstxhdr := NstxHdr { magic : Z; hseq : Z; hchan : Z; hid : Z; hflags : Z }.
Definition put_hdr (h : nstxhdr) : list Z :=
  let w := Z.land (hid h) 4095 + 4096 * Z.land (hflags h) 15 in
  [u8 (magic h); Z.land (hseq h) 15 + 16 * Z.land (hchan h) 15; u8 w; u8 (Z.shiftr w 8)].
Definition get_hdr (p : list Z) : nstxhdr :=
  let w := nth 2 p 0 + 256 * nth 3 p 0 in
  NstxHdr (nth 0 p 0) (Z.land (nth 1 p 0) 15) (Z.shiftr (nth 1 p 0) 4) (Z.land w 4095) (Z.shiftr w 12).

(** [struct nstx_senditem] *)
Record senditem := SendItem { sdata : list Z; sid : Z; soffset : Z; sseq : Z }.

(** The server's queue: the items and the last identifier. *)
Definition queue_senditem (buf : list Z) (q : list senditem * Z) : list senditem * Z :=
  (q.1 ++ [SendItem buf (q.2 + 1) 0 0], q.2 + 1).

(** One fragment of at most [space] bytes with its header. *)
Definition dequeue_senditem (space : Z) (l : list senditem) : option (list Z * list senditem) :=
  match l with
  | [] => None
  | it :: l' =>
    let remain := Z.of_nat (length (sdata it)) - soffset it in
    let dlen := if remain <? space - 4 then remain else space - 4 in
    let off := soffset it + dlen in
    let last := off =? Z.of_nat (length (sdata it)) in
    let h := NstxHdr NSTX_MAGIC (sseq it) 0 (sid it) (if last then NSTX_LF else 0) in
    Some (put_hdr h ++ slice (sdata it) (soffset it) dlen,
          if last then l' else SendItem (sdata it) (sid it) off (sseq it + 1) :: l')
  end.

(** The client's loop: fragments of [l - 4] bytes; the last one is marked only
    when it leaves room.  The channel is never initialised. *)
Fixpoint nstxc_fragments (fuel : nat) (l chan : Z) (id sq : Z) (data : list Z) : option (list (list Z)) :=
  match fuel with
  | O => None
  | S fuel =>
    let n := Z.of_nat (length data) in
    let lf := n <? l - 4 in
    let k := if lf then n else l - 4 in
    let f := put_hdr (NstxHdr NSTX_MAGIC sq chan id (if lf then NSTX_LF else 0)) ++ slice data 0 k in
    let rest := drop (Z.to_nat k) data in
    if bool_decide (rest = []) then Some [f] else r ← nstxc_fragments fuel l chan id (sq + 1) rest; Some (f :: r)
  end.
Definition nstxc_send_packet (l chan id : Z) (data : list Z) : option (list (list Z)) :=
  nstxc_fragments (S (length data)) l chan id 0 data.

(** ** Reassembly *)

Record clist := CList { cseq : Z; cdata : list Z }.
Record nstx_item := NstxItem { iid : Z; timestamp : Z; frc : Z; chunks : list clist }.

Fixpoint get_item_by_id (l : list nstx_item) (id : Z) : option nstx_item :=
  match l with
  | [] => None
  | it :: l' => if iid it =? id then Some it else get_item_by_id l' id
  end.
Definition alloc_item (id : Z) : nstx_item := NstxItem id 0 0 [].

(** The item of [id] changed in place, and unlinked. *)
Fixpoint put_item (it : nstx_item) (l : list nstx_item) : list nstx_item :=
  match l with
  | [] => []
  | x :: l' => if iid x =? iid it then it :: l' else x :: put_item it l'
  end.
Fixpoint unlink (id : Z) (l : list nstx_item) : list nstx_item :=
  match l with
  | [] => []
  | x :: l' => if iid x =? id then l' else x :: unlink id l'
  end.

(** Sorted by sequence number; a second chunk with the same number is dropped. *)
Fixpoint add_data_chunk (c : clist) (l : list clist) : list clist :=
  match l with
  | [] => [c]
  | x :: l' =>
    if cseq x =? cseq c then l
    else if cseq c <? cseq x then c :: l
    else x :: add_data_chunk c l'
  end.

Fixpoint find_sequence (l : list clist) (i : Z) : Z :=
  match l with
  | [] => i
  | x :: l' => if negb (cseq x =? i) then i else find_sequence l' (i + 1)
  end.

Definition add_data (now : Z) (it : nstx_item) (h : nstxhdr) (payload : list Z) : nstx_item * bool :=
  let f := if negb (Z.land (hflags h) NSTX_LF =? 0) then hseq h + 1 else frc it in
  let cs := add_data_chunk (CList (hseq h) payload) (chunks it) in
  (NstxItem (iid it) (u32 now) f cs, negb (f =? 0) && (find_sequence cs 0 =? f)).

Definition dealloc_item (it : nstx_item) : list Z := concat (cdata <$> chunks it).

Definition check_timeouts (now : Z) (l : list nstx_item) : list nstx_item :=
  List.filter (λ it, negb (u32 (timestamp it + NSTX_TIMEOUT) <? u32 now)) l.

(** The pending items after a fragment, and the packet handed over if it is
    complete. *)
Definition nstx_handlepacket (now : Z) (p : list Z) (l : list nstx_item) : option (list Z) * list nstx_item :=
  if Z.of_nat (length p) <? 4 then (None, l) else
  let h := get_hdr p in
  if hid h =? 0 then (None, l) else
  let '(it, l) := match get_item_by_id l (hid h) with
                  | Some it => (it, l)
                  | None => (alloc_item (hid h), alloc_item (hid h) :: l)
                  end in
  let '(it, complete) := add_data now it h (drop 4 p) in
  if complete then (Some (dealloc_item it), check_timeouts now (unlink (hid h) l))
  else (None, check_timeouts now (put_item it l)).

(** ** The encoding is reversible *)

(** Facts on pairs of bytes, by enumeration. *)
Definition pair_ok (a b : Z) : bool :=
  let x1 := Z.lor (Z.shiftl (Z.land a 3) 4) (Z.shiftr (Z.land b 240) 4) in
  let x2 := Z.lor (Z.shiftl (Z.land a 15) 2) (Z.shiftr (Z.land b 192) 6) in
  (Z.lor (Z.shiftl (Z.shiftr (Z.land a 252) 2) 2) (Z.shiftr (Z.land x1 48) 4) =? a) &&
  (Z.land x1 15 =? Z.shiftr (Z.land b 240) 4) && (0 <=? x1) && (x1 <? 64) &&
  (Z.shiftr (Z.land x2 60) 2 =? Z.land a 15) && (0 <=? x2) && (x2 <? 64) &&
  (Z.lor (Z.shiftl (Z.shiftr (Z.land a 240) 4) 4) (Z.land a 15) =? a) &&
  (Z.lor (Z.shiftl (Z.land x2 3) 6) (Z.land b 63) =? b) &&
  (Z.shiftr (Z.land a 252) 2 <? 64) && (Z.land b 63 <? 64) && (0 <=? Z.shiftr (Z.land a 252) 2) && (0 <=? Z.land b 63).

Lemma forallb_seqZ (f : Z → bool) n x : forallb f (seqZ 0 n) = true → 0 ≤ x < n → f x = true.
Proof. intros H Hx. rewrite forallb_forall in H. apply H, list_elem_of_In, elem_of_seqZ. lia. Qed.

Lemma pair_holds a b : byteP a → byteP b → pair_ok a b = true.
Proof.
  assert (forallb (λ a, forallb (pair_ok a) (seqZ 0 256)) (seqZ 0 256) = true) as H by (vm_compute; reflexivity).
  intros Ha Hb. exact (forallb_seqZ _ _ b (forallb_seqZ _ _ a H Ha) Hb).
Qed.

Lemma sextets_octets a b c : byteP a → byteP b → byteP c →
  ∃ x0 x1 x2 x3, sextets a b c = [x0; x1; x2; x3] ∧ Forall (λ x, 0 ≤ x < 64) [x0; x1; x2; x3] ∧
    Z.lor (Z.shiftl x0 2) (Z.shiftr (Z.land x1 48) 4) = a ∧
    Z.lor (Z.shiftl (Z.land x1 15) 4) (Z.shiftr (Z.land x2 60) 2) = b ∧
    Z.lor (Z.shiftl (Z.land x2 3) 6) x3 = c.
Proof.
  intros Ha Hb Hc. pose proof (pair_holds a b Ha Hb) as Hab. pose proof (pair_holds b c Hb Hc) as Hbc.
  unfold pair_ok in Hab, Hbc. cbv zeta in Hab, Hbc.
  rewrite !andb_true_iff, !Z.eqb_eq, !Z.leb_le, !Z.ltb_lt in Hab, Hbc. destruct_and!.
  do 4 eexists. split; [reflexivity|]. split; [rewrite !Forall_cons; split_and!; done || constructor|]. split_and!; congruence.
Qed.

Definition letters_ok : bool :=
  forallb (λ x, match letter x with Some c => bool_decide (index_of c nstx_map 0 = Some x) | None => false end) (seqZ 0 64).

Lemma letter_revmap junk x : 0 ≤ x < 64 → ∃ c, letter x = Some c ∧ revmap junk c = x.
Proof.
  intros Hx. assert (letters_ok = true) as H by (vm_compute; reflexivity). apply (forallb_seqZ _ _ x) in H; [|done].
  cbv beta in H. destruct (letter x) as [c|]; [|done]. apply bool_decide_eq_true in H. exists c. split; [done|]. unfold revmap. by rewrite H.
Qed.

Lemma encode_decode_loop junk k : ∀ mem n, Forall byteP mem → n ≤ 3 * Z.of_nat k < n + 3 → (3 * k ≤ length mem)%nat →
  ∃ w, encode_loop mem n = Some w ∧ decode_loop junk w = take (3 * k) mem.
Proof.
  induction k as [|k IH]; intros mem n Hb Hn Hl.
  - exists []. split; [|done]. destruct mem as [|a mem]; cbn [encode_loop]; by destruct (Z.leb_spec n 0); [|lia].
  - destruct mem as [|a [|b [|c mem]]]; cbn [length] in Hl; try lia. rewrite !Forall_cons in Hb. destruct Hb as (Ha & Hb & Hc & Hm).
    destruct (IH mem (n - 3)) as (w & Ew & Dw); [done | lia | lia |].
    destruct (sextets_octets a b c Ha Hb Hc) as (x0 & x1 & x2 & x3 & Es & Hx & E0 & E1 & E2).
    rewrite !Forall_cons in Hx. destruct Hx as (H0 & H1 & H2 & H3 & _).
    destruct (letter_revmap junk x0 H0) as (c0 & L0 & R0). destruct (letter_revmap junk x1 H1) as (c1 & L1 & R1).
    destruct (letter_revmap junk x2 H2) as (c2 & L2 & R2). destruct (letter_revmap junk x3 H3) as (c3 & L3 & R3).
    exists ([c0; c1; c2; c3] ++ w). split.
    + cbn [encode_loop]. destruct (Z.leb_spec n 0); [lia|]. rewrite Es. cbn [mapM]. rewrite L0, L1, L2, L3. simpl. by rewrite Ew.
    + replace (3 * S k)%nat with (S (S (S (3 * k)))) by lia. cbn [app decode_loop take]. rewrite Dw. unfold octets.
      rewrite R0, R1, R2, R3, E0, E1, E2, !u8_small by done. done.
Qed.

Lemma nstx_encode_decode junk data after :
  Forall byteP (data ++ after) → (2 ≤ length after)%nat →
  ∃ w, nstx_encode (data ++ after) (Z.of_nat (length data)) = Some w ∧
    (nstx_decode junk w).2 = Z.of_nat (length data) ∧
    take (length data) (nstx_decode junk w).1 = data.
Proof.
  intros Hb Hl. set (n := length data). set (k := ((n + 2) / 3)%nat).
  assert (Z.of_nat n ≤ 3 * Z.of_nat k < Z.of_nat n + 3) as Hk.
  { unfold k. pose proof (Nat.div_mod_eq (n + 2) 3). pose proof (Nat.mod_upper_bound (n + 2) 3). lia. }
  destruct (encode_decode_loop junk k (data ++ after) (Z.of_nat n)) as (w & Ew & Dw); [done | done | rewrite length_app; fold n; lia |].
  set (ct := if negb (Z.rem (Z.of_nat n) 3 =? 0) then 3 - Z.rem (Z.of_nat n) 3 else 0).
  assert (ct = 3 * Z.of_nat k - Z.of_nat n) as Ec.
  { unfold ct. rewrite Z.rem_mod_nonneg by lia. destruct (Z.eqb_spec (Z.of_nat n mod 3) 0); cbn [negb]; dlia. }
  destruct (letter_revmap junk ct) as (h & Lh & Rh); [lia|].
  exists (h :: w). unfold nstx_encode, nstx_decode. fold ct. rewrite Lh. cbn [mbind option_bind]. rewrite Ew. split; [done|].
  cbn [tail head from_option id fst snd]. change (id h) with h. rewrite Dw, Rh. rewrite length_take, length_app. fold n. split; [lia|].
  rewrite take_take, take_app_le by lia. replace (n `min` (3 * k))%nat with n by lia. by rewrite take_ge by lia.
Qed.

(** decoding gives back the bytes that were encoded, with their number, for
    any length and whatever follows the bytes in memory. *)
Theorem nstx_encoding_roundtrip junk data after :
  Forall byteP (data ++ after) → (2 ≤ length after)%nat →
  ∃ w, nstx_encode (data ++ after) (Z.of_nat (length data)) = Some w ∧
    (nstx_decode junk w).2 = Z.of_nat (length data) ∧
    take (length data) (nstx_decode junk w).1 = data.
Proof. apply nstx_encode_decode. Qed.

(** ** Chunks *)

(** The chunks of [cs], numbered from [j], whose number satisfies [P]. *)
Fixpoint sel (j : Z) (cs : list (list Z)) (P : Z → bool) : list clist :=
  match cs with
  | [] => []
  | d :: cs' => if P j then CList j d :: sel (j + 1) cs' P else sel (j + 1) cs' P
  end.

Lemma sel_ext cs P P' : ∀ j, (∀ x, j ≤ x → P x = P' x) → sel j cs P = sel j cs P'.
Proof.
  induction cs as [|d cs IH]; intros j H; [done|]. cbn [sel]. rewrite (H j) by lia.
  rewrite (IH (j + 1)); [done|]. intros x Hx. apply H. lia.
Qed.

Lemma sel_above cs P : ∀ j, Forall (λ c, j ≤ cseq c) (sel j cs P).
Proof.
  induction cs as [|d cs IH]; intros j; cbn [sel]; [constructor|].
  assert (Forall (λ c, j ≤ cseq c) (sel (j + 1) cs P)) as H by (eapply Forall_impl; [apply IH|]; simpl; lia).
  case_match; [constructor; simpl; [lia | done] | done].
Qed.

Lemma add_sel cs P : ∀ j i d, cs !! i = Some d →
  add_data_chunk (CList (j + Z.of_nat i) d) (sel j cs P) = sel j cs (λ x, P x || (x =? j + Z.of_nat i)).
Proof.
  induction cs as [|e cs IH]; intros j i d Hi; [done|]. cbn [sel]. destruct i as [|i]; simpl in Hi.
  - injection Hi as ->. replace (j + Z.of_nat 0) with j by lia. rewrite Z.eqb_refl, orb_true_r.
    rewrite (sel_ext cs (λ x, P x || (x =? j)) P).
    2: { intros x Hx. destruct (Z.eqb_spec x j); [lia|]. by rewrite orb_false_r. }
    destruct (P j); cbn [add_data_chunk cseq]; [by rewrite Z.eqb_refl|].
    pose proof (sel_above cs P (j + 1)) as Ha. destruct (sel (j + 1) cs P) as [|c l]; [done|]. apply Forall_cons in Ha as [Hc _].
    cbn [add_data_chunk cseq]. destruct (Z.eqb_spec (cseq c) j); [lia|]. by destruct (Z.ltb_spec j (cseq c)); [|lia].
  - specialize (IH (j + 1) i d Hi). replace (j + 1 + Z.of_nat i) with (j + Z.of_nat (S i)) in IH by lia.
    destruct (Z.eqb_spec j (j + Z.of_nat (S i))); [lia|]. rewrite orb_false_r. destruct (P j); [|done].
    cbn [add_data_chunk cseq]. destruct (Z.eqb_spec j (j + Z.of_nat (S i))); [lia|].
    destruct (Z.ltb_spec (j + Z.of_nat (S i)) j); [lia|]. by rewrite IH.
Qed.

(** All the numbers from [j] to the end of [cs] satisfy [P]. *)
Definition all_seen (j : Z) (cs : list (list Z)) (P : Z → bool) : bool := forallb P (seqZ j (Z.of_nat (length cs))).

Lemma all_seen_cons j d cs P : all_seen j (d :: cs) P = P j && all_seen (j + 1) cs P.
Proof. unfold all_seen. cbn [length]. rewrite seqZ_cons by lia. cbn [forallb]. do 3 f_equal; lia. Qed.

Lemma find_sel cs P : ∀ j, (find_sequence (sel j cs P) j =? j + Z.of_nat (length cs)) = all_seen j cs P.
Proof.
  induction cs as [|d cs IH]; intros j; [cbn [sel find_sequence length]; by rewrite Z.add_0_r, Z.eqb_refl|].
  rewrite all_seen_cons. cbn [sel]. destruct (P j); cbn [andb].
  - cbn [find_sequence cseq]. rewrite Z.eqb_refl. cbn [negb]. rewrite <- IH. cbn [length]. f_equal. lia.
  - apply Z.eqb_neq. cbn [length]. pose proof (sel_above cs P (j + 1)) as Ha. destruct (sel (j + 1) cs P) as [|c l]; [simpl; lia|].
    apply Forall_cons in Ha as [Hc _]. cbn [find_sequence]. destruct (Z.eqb_spec (cseq c) j); cbn [negb]; lia.
Qed.

Lemma sel_all cs P : ∀ j, all_seen j cs P = true → cdata <$> sel j cs P = cs.
Proof.
  induction cs as [|d cs IH]; intros j H; [done|]. rewrite all_seen_cons in H. apply andb_prop in H as [Hj H].
  cbn [sel]. rewrite Hj. cbn. f_equal. by apply IH.
Qed.

(** ** The pending items *)

Lemma get_item_id l i it : get_item_by_id l i = Some it → iid it = i.
Proof.
  induction l as [|x l IH]; simpl; [done|]. destruct (Z.eqb_spec (iid x) i); [by intros [= <-] | done].
Qed.

Lemma get_put_same it l : is_Some (get_item_by_id l (iid it)) → get_item_by_id (put_item it l) (iid it) = Some it.
Proof.
  induction l as [|x l IH]; simpl; [by intros []|]. destruct (Z.eqb_spec (iid x) (iid it)) as [E|E]; simpl.
  - by rewrite Z.eqb_refl.
  - destruct (Z.eqb_spec (iid x) (iid it)); [done|]. done.
Qed.

Lemma get_put_other it l X : X ≠ iid it → get_item_by_id (put_item it l) X = get_item_by_id l X.
Proof.
  intros Hne. induction l as [|x l IH]; simpl; [done|]. destruct (Z.eqb_spec (iid x) (iid it)) as [E|E]; simpl; [|by rewrite IH].
  destruct (Z.eqb_spec (iid it) X), (Z.eqb_spec (iid x) X); congruence.
Qed.

Lemma get_unlink_other id l X : X ≠ id → get_item_by_id (unlink id l) X = get_item_by_id l X.
Proof.
  intros Hne. induction l as [|x l IH]; simpl; [done|]. destruct (Z.eqb_spec (iid x) id) as [E|E]; simpl; [|by rewrite IH].
  destruct (Z.eqb_spec (iid x) X); congruence.
Qed.

Lemma get_filter f l X : (∀ it, get_item_by_id l X = Some it → f it = true) →
  get_item_by_id (List.filter f l) X = get_item_by_id l X.
Proof.
  induction l as [|x l IH]; intros H; simpl in *; [done|]. destruct (Z.eqb_spec (iid x) X) as [E|E].
  - rewrite (H x eq_refl). simpl. by destruct (Z.eqb_spec (iid x) X).
  - destruct (f x); simpl; [destruct (Z.eqb_spec (iid x) X); [done|]|]; by apply IH.
Qed.

(** ** Fragments of a packet *)

(** [p] is the fragment number [k] of the packet [X] cut into [cs]. *)
Definition frag_of (X : Z) (cs : list (list Z)) (k : nat) (p : list Z) : Prop :=
  (4 ≤ length p)%nat ∧ hid (get_hdr p) = X ∧ hseq (get_hdr p) = Z.of_nat k ∧ cs !! k = Some (drop 4 p) ∧
  negb (Z.land (hflags (get_hdr p)) NSTX_LF =? 0) = bool_decide (S k = length cs).

(** [p] is ignored or is a fragment of another packet. *)
Definition foreign (X : Z) (p : list Z) : Prop := (length p < 4)%nat ∨ hid (get_hdr p) ≠ X.

(** Fragments with their time of arrival. *)
Definition stream : Type := list (Z * list Z).
Definition admissible (X T : Z) (cs : list (list Z)) (st : stream) : Prop :=
  Forall (λ f, T ≤ f.1 ≤ T + NSTX_TIMEOUT ∧ (foreign X f.2 ∨ ∃ k, frag_of X cs k f.2)) st.

Definition is_frag (X x : Z) (f : Z * list Z) : bool :=
  (4 <=? Z.of_nat (length f.2)) && (hid (get_hdr f.2) =? X) && (hseq (get_hdr f.2) =? x).
(** Fragment number [x] of packet [X] has arrived. *)
Definition seen (X : Z) (st : stream) (x : Z) : bool := existsb (is_frag X x) st.

(** The items that are pending after a stream of fragments. *)
Definition pending (st : stream) (l : list nstx_item) : list nstx_item :=
  foldl (λ l f, (nstx_handlepacket f.1 f.2 l).2) l st.

(** What is known of packet [X] after its fragments in [P]. *)
Definition tracks (X T : Z) (cs : list (list Z)) (P : Z → bool) (l : list nstx_item) : Prop :=
  if existsb P (seqZ 0 (Z.of_nat (length cs))) then
    ∃ t, T ≤ t ≤ T + NSTX_TIMEOUT ∧
      get_item_by_id l X = Some (NstxItem X t (if P (Z.of_nat (length cs) - 1) then Z.of_nat (length cs) else 0) (sel 0 cs P))
  else get_item_by_id l X = None.

Section reassembly.
Context (X T : Z) (cs : list (list Z)) (HX : X ≠ 0) (HT : 0 ≤ T) (HT' : T + 60 < 2 ^ 32).

Lemma tracks_alive P l now : tracks X T cs P l → T ≤ now ≤ T + NSTX_TIMEOUT →
  ∀ it, get_item_by_id l X = Some it → negb (u32 (timestamp it + NSTX_TIMEOUT) <? u32 now) = true.
Proof.
  unfold tracks, NSTX_TIMEOUT. intros Ht Hnow it Hit. case_match; [|congruence]. destruct Ht as (t & Hb & E).
  rewrite E in Hit. injection Hit as <-. cbn [timestamp]. unfold u32. rewrite !Z.mod_small by lia.
  by destruct (Z.ltb_spec (t + 30) now); [lia|].
Qed.

Lemma tracks_get P l l' : get_item_by_id l' X = get_item_by_id l X → tracks X T cs P l → tracks X T cs P l'.
Proof. unfold tracks. intros ->. done. Qed.

Lemma tracks_foreign P l now p : tracks X T cs P l → T ≤ now ≤ T + NSTX_TIMEOUT → foreign X p →
  tracks X T cs P (nstx_handlepacket now p l).2.
Proof.
  intros Ht Hnow Hf. unfold nstx_handlepacket. destruct (Z.ltb_spec (Z.of_nat (length p)) 4) as [|Hl]; [done|].
  destruct Hf as [Hf|Hf]; [lia|]. destruct (Z.eqb_spec (hid (get_hdr p)) 0) as [|H0]; [done|].
  assert (∀ l', get_item_by_id l' X = get_item_by_id l X → tracks X T cs P (check_timeouts now l')) as Hck.
  { intros l' E. eapply tracks_get; [|done]. unfold check_timeouts. rewrite get_filter; [done|]. rewrite E. by apply (tracks_alive P l now). }
  destruct (get_item_by_id l (hid (get_hdr p))) as [it|] eqn:Ei.
  - pose proof (get_item_id _ _ _ Ei) as Eid. unfold add_data. case_match; cbn [snd]; apply Hck; [by rewrite get_unlink_other | rewrite get_put_other; [done | simpl; congruence]].
  - unfold add_data. case_match; cbn [snd]; apply Hck.
    + rewrite get_unlink_other by congruence. cbn [get_item_by_id iid alloc_item]. by rewrite (proj2 (Z.eqb_neq _ _) Hf).
    + rewrite get_put_other by (cbn [iid alloc_item]; congruence). cbn [get_item_by_id iid alloc_item]. by rewrite (proj2 (Z.eqb_neq _ _) Hf).
Qed.

Lemma none_sel P n : existsb P (seqZ 0 n) = false → n = Z.of_nat (length cs) → sel 0 cs P = [].
Proof.
  intros H ->. revert H. generalize 0. clear HX HT HT'. induction cs as [|d l IH]; intros j H; [done|]. cbn [length] in H.
  rewrite seqZ_cons in H by lia. cbn [existsb] in H. apply orb_false_iff in H as [Hj H]. cbn [sel]. rewrite Hj.
  apply IH. rewrite <- H. do 2 f_equal; lia.
Qed.

Lemma none_last P : existsb P (seqZ 0 (Z.of_nat (length cs))) = false → (0 < length cs)%nat → P (Z.of_nat (length cs) - 1) = false.
Proof.
  intros H Hl. destruct (P (Z.of_nat (length cs) - 1)) eqn:E; [|done].
  assert (existsb P (seqZ 0 (Z.of_nat (length cs))) = true) as E'; [|congruence].
  apply existsb_exists. exists (Z.of_nat (length cs) - 1). split; [|done]. apply list_elem_of_In, elem_of_seqZ. lia.
Qed.

(** A fragment of [X]: complete exactly when nothing is missing any more. *)
Lemma tracks_own P l now p k : tracks X T cs P l → T ≤ now ≤ T + NSTX_TIMEOUT → frag_of X cs k p →
  let P' x := P x || (x =? Z.of_nat k) in
  (nstx_handlepacket now p l).1 = (if all_seen 0 cs P' then Some (concat cs) else None) ∧
  (all_seen 0 cs P' = false → tracks X T cs P' (nstx_handlepacket now p l).2).
Proof.
  intros Ht Hnow (Hl & Hid & Hseq & Hk & Hlf) P'. set (n := Z.of_nat (length cs)) in *.
  pose proof (lookup_lt_Some _ _ _ Hk) as Hkn.
  assert (∃ l' t, match get_item_by_id l (hid (get_hdr p)) with
                  | Some it => (it, l)
                  | None => (alloc_item (hid (get_hdr p)), alloc_item (hid (get_hdr p)) :: l)
                  end = (NstxItem X t (if P (n - 1) then n else 0) (sel 0 cs P), l') ∧ is_Some (get_item_by_id l' X))
    as (l' & t & Em & Hsome).
  { rewrite Hid. unfold tracks in Ht. fold n in Ht. destruct (existsb P (seqZ 0 n)) eqn:Ex.
    - destruct Ht as (t & _ & E). exists l, t. rewrite E. split; [done | by eexists].
    - rewrite Ht. exists (alloc_item X :: l), 0. pose proof (none_last P Ex ltac:(lia)) as En. fold n in En.
      rewrite (none_sel P n Ex eq_refl), En. split; [done|].
      simpl. by rewrite Z.eqb_refl. }
  unfold nstx_handlepacket. destruct (Z.ltb_spec (Z.of_nat (length p)) 4); [lia|].
  destruct (Z.eqb_spec (hid (get_hdr p)) 0) as [|_]; [congruence|]. cbv zeta. rewrite Em. unfold add_data. cbn [iid frc chunks].
  pose proof (add_sel cs P 0 k _ Hk) as Ea. rewrite Z.add_0_l in Ea. rewrite Hlf, Hseq, Ea. fold P'.
  assert ((if bool_decide (S k = length cs) then Z.of_nat k + 1 else if P (n - 1) then n else 0) =
    (if P' (n - 1) then n else 0)) as ->.
  { unfold P'. case_bool_decide as E; destruct (Z.eqb_spec (n - 1) (Z.of_nat k)); try lia; rewrite ?orb_true_r, ?orb_false_r; [lia | done]. }
  assert (negb ((if P' (n - 1) then n else 0) =? 0) && (find_sequence (sel 0 cs P') 0 =? (if P' (n - 1) then n else 0)) =
    all_seen 0 cs P') as ->.
  { pose proof (find_sel cs P' 0) as Ef. rewrite Z.add_0_l in Ef. fold n in Ef. destruct (P' (n - 1)) eqn:El.
    - rewrite Ef. by destruct (Z.eqb_spec n 0); [lia|].
    - destruct (all_seen 0 cs P') eqn:Ea'; [|done]. unfold all_seen in Ea'. apply (forallb_seqZ _ _ (n - 1)) in Ea'; [congruence | lia]. }
  destruct (all_seen 0 cs P') eqn:Eall; cbn [fst snd].
  - unfold dealloc_item. cbn [chunks]. split; [by rewrite sel_all | done].
  - split; [done|]. intros _. unfold tracks. fold n.
    assert (existsb P' (seqZ 0 n) = true) as ->.
    { apply existsb_exists. exists (Z.of_nat k). split; [apply list_elem_of_In, elem_of_seqZ; lia|]. unfold P'. by rewrite Z.eqb_refl, orb_true_r. }
    exists (u32 now). unfold NSTX_TIMEOUT in *. assert (u32 now = now) as -> by (unfold u32; rewrite Z.mod_small; lia). split; [lia|].
    set (it := NstxItem X now _ _). unfold check_timeouts. pose proof (get_put_same it l' Hsome) as Hg. cbn [iid it] in Hg.
    rewrite get_filter; [done|]. rewrite Hg. intros it' [= <-]. cbn [timestamp it]. unfold u32, NSTX_TIMEOUT.
    rewrite !Z.mod_small by lia. by destruct (Z.ltb_spec (now + 30) now); [lia|].
Qed.

Lemma seen_snoc st f x : seen X (st ++ [f]) x = seen X st x || is_frag X x f.
Proof. unfold seen. rewrite existsb_app. cbn. by rewrite orb_false_r. Qed.

Lemma is_frag_foreign f x : foreign X f.2 → is_frag X x f = false.
Proof.
  unfold is_frag. intros [Hl|Hne]; [by destruct (Z.leb_spec 4 (Z.of_nat (length f.2))); [lia|]|].
  rewrite (proj2 (Z.eqb_neq _ _) Hne). by rewrite andb_false_r.
Qed.

Lemma is_frag_own f k x : frag_of X cs k f.2 → is_frag X x f = (x =? Z.of_nat k).
Proof.
  intros (Hl & Hid & Hseq & _). unfold is_frag. rewrite Hid, Hseq, Z.eqb_refl, Z.eqb_sym.
  by destruct (Z.leb_spec 4 (Z.of_nat (length f.2))); [|lia].
Qed.

Lemma tracks_ext P P' l : (∀ x, P x = P' x) → tracks X T cs P l → tracks X T cs P' l.
Proof.
  intros E. unfold tracks. rewrite (sel_ext cs P P' 0) by (intros; apply E). rewrite E.
  replace (existsb P' (seqZ 0 (Z.of_nat (length cs)))) with (existsb P (seqZ 0 (Z.of_nat (length cs)))); [done|].
  generalize (seqZ 0 (Z.of_nat (length cs))). induction l0 as [|x l0 IH]; simpl; [done | by rewrite E, IH].
Qed.

Lemma all_seen_ext P P' : (∀ x, P x = P' x) → ∀ j, all_seen j cs P = all_seen j cs P'.
Proof. intros E j. unfold all_seen. generalize (seqZ j (Z.of_nat (length cs))). induction l as [|x l IH]; simpl; [done | by rewrite E, IH]. Qed.

Lemma all_seen_mono P P' : (∀ x, P x = true → P' x = true) → all_seen 0 cs P = true → all_seen 0 cs P' = true.
Proof. intros E. unfold all_seen. rewrite !forallb_forall. eauto. Qed.

(** As long as a fragment is missing, the pending items hold what has come. *)
Lemma pending_tracks st l : get_item_by_id l X = None → admissible X T cs st → all_seen 0 cs (seen X st) = false →
  tracks X T cs (seen X st) (pending st l).
Proof.
  intros Hl. induction st as [|f st IH] using rev_ind; intros Ha Hs.
  - unfold tracks. cbn [seen pending foldl]. destruct (existsb _ _) eqn:E; [|done]. apply existsb_exists in E as (x & _ & E). done.
  - apply Forall_app in Ha as [Ha [[Hnow Hf] _]%Forall_cons].
    assert (all_seen 0 cs (seen X st) = false) as Hs'.
    { destruct (all_seen 0 cs (seen X st)) eqn:E; [|done]. rewrite (all_seen_mono (seen X st) (seen X (st ++ [f]))) in Hs; [done| |done].
      intros x Hx. by rewrite seen_snoc, Hx. }
    specialize (IH Ha Hs'). unfold pending in *. rewrite foldl_app. cbn [foldl]. destruct Hf as [Hf|[k Hf]].
    + apply (tracks_ext (seen X st)); [intros x; by rewrite seen_snoc, is_frag_foreign, orb_false_r by done|]. by apply tracks_foreign.
    + assert (∀ x, seen X st x || (x =? Z.of_nat k) = seen X (st ++ [f]) x) as E by (intros x; by rewrite seen_snoc, (is_frag_own f k)).
      eapply tracks_ext; [exact E|]. apply (tracks_own (seen X st) _ f.1 f.2 k); [done | done | done |]. by rewrite (all_seen_ext _ _ E).
Qed.
End reassembly.

(** ** What the server sends *)

(** One fragment per answer, until the packet is sent. *)
Fixpoint send_all (spaces : list Z) (l : list senditem) : option (list (list Z)) :=
  match spaces with
  | [] => if bool_decide (length l = 0%nat) then Some [] else None
  | sp :: spaces' => '(f, l') ← dequeue_senditem sp l; r ← send_all spaces' l'; Some (f :: r)
  end.

Lemma get_put_hdr m q ch id fl d : 0 ≤ q < 16 → 0 ≤ ch < 16 → 0 ≤ id < 4096 → 0 ≤ fl < 16 →
  get_hdr (put_hdr (NstxHdr m q ch id fl) ++ d) = NstxHdr (u8 m) q ch id fl.
Proof.
  intros Hq Hc Hi Hf. unfold get_hdr, put_hdr. cbn [magic hseq hchan hid hflags app nth].
  assert (∀ x, 0 ≤ x → Z.land x 15 = x mod 16) as L15 by (intros x Hx; by change 15 with (Z.ones 4); rewrite Z.land_ones).
  assert (∀ x, 0 ≤ x → Z.land x 4095 = x mod 4096) as L4095 by (intros x Hx; by change 4095 with (Z.ones 12); rewrite Z.land_ones).
  rewrite (L15 q), (L15 ch), (L15 fl), (L4095 id), !Z.mod_small by lia. rewrite L15, L4095 by (unfold u8; dlia).
  rewrite !Z.shiftr_div_pow2 by lia. unfold u8. change (2 ^ 8) with 256. change (2 ^ 4) with 16. change (2 ^ 12) with 4096.
  f_equal; dlia.
Qed.

Lemma slice_all (l : list Z) o : 0 ≤ o → slice l o (Z.of_nat (length l) - o) = drop (Z.to_nat o) l.
Proof. intros Ho. unfold slice. apply take_ge. rewrite length_drop. lia. Qed.

(** The fragments carry the data in order, are numbered, and only the last one is
    marked. *)
Lemma send_all_fragments data id spaces : ∀ off sq frags,
  0 ≤ off ≤ Z.of_nat (length data) → Forall (λ sp, 4 < sp) spaces →
  send_all spaces [SendItem data id off sq] = Some frags →
  ∃ cs, concat cs = drop (Z.to_nat off) data ∧ length cs = length frags ∧ (0 < length cs)%nat ∧
    ∀ k c, cs !! k = Some c →
      frags !! k = Some (put_hdr (NstxHdr NSTX_MAGIC (sq + Z.of_nat k) 0 id (if bool_decide (S k = length cs) then NSTX_LF else 0)) ++ c).
Proof.
  induction spaces as [|sp spaces IH]; intros off sq frags Hoff Hsp E; [done|]. apply Forall_cons in Hsp as [Hs Hsp].
  cbn [send_all dequeue_senditem] in E. cbn [sdata soffset sid sseq] in E.
  set (remain := Z.of_nat (length data) - off) in *. set (dlen := if remain <? sp - 4 then remain else sp - 4) in *.
  assert (0 ≤ dlen ≤ remain) as Hd by (unfold dlen; destruct (Z.ltb_spec remain (sp - 4)); unfold remain in *; lia).
  cbn [mbind option_bind] in E. destruct (Z.eqb_spec (off + dlen) (Z.of_nat (length data))) as [El|El].
  - destruct spaces as [|sp' spaces]; [|done]. change (send_all [] []) with (Some ([] : list (list Z))) in E. cbn [mbind option_bind] in E.
    assert (slice data off dlen = drop (Z.to_nat off) data) as Es.
    { replace dlen with (Z.of_nat (length data) - off) by lia. apply slice_all. lia. }
    rewrite Es in E. assert (frags = [put_hdr (NstxHdr NSTX_MAGIC sq 0 id NSTX_LF) ++ drop (Z.to_nat off) data]) as -> by congruence.
    exists [drop (Z.to_nat off) data].
    split_and!; [by cbn; rewrite app_nil_r | done | cbn; lia |]. intros [|k] c Hc; [|done]. injection Hc as <-.
    case_bool_decide; [|done]. replace (sq + Z.of_nat 0) with sq by lia. done.
  - destruct (send_all spaces _) as [r|] eqn:Er; [|done]. injection E as <-.
    destruct (IH (off + dlen) (sq + 1) r) as (cs & Ec & Hl & Hpos & Hk); [unfold remain in *; lia | done | done |].
    exists (slice data off dlen :: cs). split_and!.
    + cbn [concat]. rewrite Ec. unfold slice. rewrite Z2Nat.inj_add, <- drop_drop by lia. apply take_drop.
    + by cbn; rewrite Hl.
    + cbn; lia.
    + intros [|k] c Hc.
      * injection Hc as <-. rewrite bool_decide_eq_false_2 by (cbn [length]; lia). by replace (sq + Z.of_nat 0) with sq by lia.
      * change (cs !! k = Some c) in Hc. transitivity (r !! k); [done|]. rewrite (Hk k c Hc).
        replace (sq + 1 + Z.of_nat k) with (sq + Z.of_nat (S k)) by lia.
        rewrite (bool_decide_ext (S (S k) = length (slice data off dlen :: cs)) (S k = length cs)) by (cbn [length]; lia). done.
Qed.

Lemma send_all_length spaces : ∀ l frags, send_all spaces l = Some frags → length frags = length spaces.
Proof.
  induction spaces as [|sp spaces IH]; intros l frags; cbn [send_all]; [case_bool_decide; [by intros [= <-] | done]|].
  destruct (dequeue_senditem sp l) as [[f l']|]; [|done]. cbn [mbind option_bind].
  destruct (send_all spaces l') as [r|] eqn:E; [|done]. intros [= <-]. cbn. by rewrite (IH l' r).
Qed.

(** The fragments of the server in the terms of the reassembly. *)
Lemma server_fragments data X spaces frags :
  0 < X < 4096 → Forall (λ sp, 4 < sp) spaces → (length spaces ≤ 16)%nat →
  send_all spaces [SendItem data X 0 0] = Some frags →
  ∃ cs, concat cs = data ∧ length cs = length frags ∧ ∀ k q, frags !! k = Some q → frag_of X cs k q.
Proof.
  intros HX Hsp Hn E. pose proof (send_all_length _ _ _ E) as Hl.
  destruct (send_all_fragments data X spaces 0 0 frags ltac:(lia) Hsp E) as (cs & Ec & Hlc & _ & Hk).
  exists cs. split_and!; [done | done |]. intros k q Hq. pose proof (lookup_lt_Some _ _ _ Hq) as Hlt.
  destruct (lookup_lt_is_Some_2 cs k) as [c Hc]; [lia|]. rewrite (Hk k c Hc) in Hq. apply (inj Some) in Hq. rewrite <- Hq. clear Hq.
  unfold frag_of. rewrite get_put_hdr by (lia || (unfold NSTX_LF; case_bool_decide; lia)). cbn [hid hseq hflags].
  split_and!; [cbn; lia | done | lia | done |]. by case_bool_decide.
Qed.

Lemma all_seen_iff X cs frags st :
  length cs = length frags → (∀ k q, frags !! k = Some q → frag_of X cs k q) →
  Forall (λ f, foreign X f.2 ∨ f.2 ∈ frags) st →
  all_seen 0 cs (seen X st) = true ↔ Forall (λ q, q ∈ st.*2) frags.
Proof.
  intros Hl Hf Hst. unfold all_seen. rewrite forallb_forall, Forall_lookup. split.
  - intros H k q Hq. pose proof (lookup_lt_Some _ _ _ Hq) as Hlt.
    specialize (H (Z.of_nat k)). rewrite <- list_elem_of_In, elem_of_seqZ in H. specialize (H ltac:(lia)).
    apply existsb_exists in H as (f & Hin & Hfr). rewrite <- list_elem_of_In in Hin. rewrite Forall_forall in Hst.
    destruct (Hst f Hin) as [Hfor|Hmem]; [by rewrite is_frag_foreign in Hfr|].
    apply list_elem_of_lookup in Hmem as [j Hj]. rewrite (is_frag_own X cs f j) in Hfr by (by apply Hf).
    apply Z.eqb_eq in Hfr. replace j with k in Hj by lia. rewrite Hq in Hj. injection Hj as ->. apply list_elem_of_fmap. eauto.
  - intros H x Hx. rewrite <- list_elem_of_In, elem_of_seqZ in Hx.
    destruct (lookup_lt_is_Some_2 frags (Z.to_nat x)) as [q Hq]; [lia|]. specialize (H _ _ Hq).
    apply list_elem_of_fmap in H as (f & -> & Hin). apply existsb_exists. exists f. split; [by apply list_elem_of_In|].
    rewrite (is_frag_own X cs f (Z.to_nat x)) by (by apply Hf). apply Z.eqb_eq. lia.
Qed.

(** The fragments of one packet, in any order, with repetitions and among the
    fragments of others: the one that completes the packet hands over its data. *)
Lemma frags_complete X cs frags T l st now p k :
  X ≠ 0 → length cs = length frags → (∀ k q, frags !! k = Some q → frag_of X cs k q) →
  0 ≤ T → T + 60 < 2 ^ 32 → get_item_by_id l X = None →
  Forall (λ f, T ≤ f.1 ≤ T + NSTX_TIMEOUT ∧ (foreign X f.2 ∨ f.2 ∈ frags)) (st ++ [(now, p)]) →
  frags !! k = Some p → (∃ q, q ∈ frags ∧ q ∉ st.*2) →
  (nstx_handlepacket now p (pending st l)).1 =
    if bool_decide (Forall (λ q, q ∈ (st ++ [(now, p)]).*2) frags) then Some (concat cs) else None.
Proof.
  intros HX Hlc Hf HT HT' Hl Hall Hk (q & Hq & Hmiss).
  assert (admissible X T cs (st ++ [(now, p)])) as Hadm.
  { eapply Forall_impl; [exact Hall|]. intros f [Hnow [Hfor|Hin]]; (split; [done|]); [by left | right].
    apply list_elem_of_lookup in Hin as [j Hj]. eauto. }
  assert (Forall (λ f, foreign X f.2 ∨ f.2 ∈ frags) (st ++ [(now, p)])) as Hst by (eapply Forall_impl; [exact Hall|]; simpl; tauto).
  pose proof Hst as [Hst' _]%Forall_app. pose proof Hadm as [Hadm' [[Hnow _] _]%Forall_cons]%Forall_app.
  assert (all_seen 0 cs (seen X st) = false) as Hns.
  { apply not_true_is_false. rewrite (all_seen_iff X cs frags st) by done. rewrite Forall_forall. by intros H; apply Hmiss, H. }
  pose proof (pending_tracks X T cs HX HT HT' st l Hl Hadm' Hns) as Ht.
  destruct (tracks_own X T cs HX HT HT' (seen X st) _ now p k Ht Hnow (Hf k p Hk)) as [-> _].
  rewrite (all_seen_ext cs _ (seen X (st ++ [(now, p)]))) by (intros x; by rewrite seen_snoc, (is_frag_own X cs _ k) by (by apply Hf)).
  destruct (all_seen 0 cs (seen X (st ++ [(now, p)]))) eqn:Ea; case_bool_decide as Hb; try done.
  - exfalso. apply Hb, (all_seen_iff X cs frags _ Hlc Hf Hst), Ea.
  - exfalso. apply (all_seen_iff X cs frags _ Hlc Hf Hst) in Hb. congruence.
Qed.

(** a packet that the server cuts into at most 16 fragments arrives: whatever
    the order of the fragments, the repetitions, and the fragments of other
    packets in between, as long as the fragments come within 30 seconds, nothing
    is handed over for a fragment that leaves another one missing, and the
    fragment that completes the packet hands over exactly its data. *)
Theorem fragments_reassembled data X spaces frags T l st now p k :
  0 < X < 4096 → Forall (λ sp, 4 < sp) spaces → (length spaces ≤ 16)%nat →
  send_all spaces [SendItem data X 0 0] = Some frags →
  0 ≤ T → T + 60 < 2 ^ 32 → get_item_by_id l X = None →
  Forall (λ f, T ≤ f.1 ≤ T + NSTX_TIMEOUT ∧ (foreign X f.2 ∨ f.2 ∈ frags)) (st ++ [(now, p)]) →
  frags !! k = Some p → (∃ q, q ∈ frags ∧ q ∉ st.*2) →
  (nstx_handlepacket now p (pending st l)).1 =
    if bool_decide (Forall (λ q, q ∈ (st ++ [(now, p)]).*2) frags) then Some data else None.
Proof.
  intros HX Hsp Hn E HT HT' Hl Hall Hk Hmiss.
  destruct (server_fragments data X spaces frags HX Hsp Hn E) as (cs & <- & Hlc & Hf).
  rewrite (frags_complete X cs frags T l st now p k) by (done || lia || eauto). done.
Qed.

(** The packets handed over for a stream of fragments. *)
Fixpoint handed (st : stream) (l : list nstx_item) : list (list Z) :=
  match st with
  | [] => []
  | f :: st' => let '(r, l') := nstx_handlepacket f.1 f.2 l in option_list r ++ handed st' l'
  end.

Lemma handed_snoc st f l : handed (st ++ [f]) l = handed st l ++ option_list (nstx_handlepacket f.1 f.2 (pending st l)).1.
Proof.
  revert l. induction st as [|g st IH]; intros l; cbn [app handed].
  - change (pending [] l) with l. destruct (nstx_handlepacket f.1 f.2 l). by rewrite app_nil_r.
  - change (pending (g :: st) l) with (pending st (nstx_handlepacket g.1 g.2 l).2).
    destruct (nstx_handlepacket g.1 g.2 l) as [r l']. cbn [snd]. rewrite IH. by rewrite app_assoc.
Qed.

(** The fragments of a packet in any order hand over the packet, once. *)
Lemma handed_permutation X cs frags T l st :
  X ≠ 0 → cs ≠ [] → length cs = length frags → (∀ k q, frags !! k = Some q → frag_of X cs k q) →
  0 ≤ T → T + 60 < 2 ^ 32 → get_item_by_id l X = None →
  st.*2 ≡ₚ frags → Forall (λ f, T ≤ f.1 ≤ T + NSTX_TIMEOUT) st →
  handed st l = [concat cs].
Proof.
  intros HX Hne Hlc Hf HT HT' Hl Hperm Htime.
  assert (NoDup frags) as Hnd.
  { apply NoDup_alt. intros i j q Hi Hj. destruct (Hf i q Hi) as (_ & _ & Ei & _). destruct (Hf j q Hj) as (_ & _ & Ej & _). lia. }
  assert (NoDup st.*2) as Hnds by (by rewrite Hperm).
  assert (∀ st1 f st2, st = st1 ++ f :: st2 → (nstx_handlepacket f.1 f.2 (pending st1 l)).1 = if bool_decide (st2 = []) then Some (concat cs) else None) as Hstep.
  { intros st1 f st2 ->. rewrite fmap_app, fmap_cons in *. destruct f as [now p]. cbn [fst snd] in *.
    assert (p ∈ frags) as Hp by (rewrite <- Hperm; set_solver). apply list_elem_of_lookup in Hp as [k Hk].
    pose proof Hnds as (_ & Hd & [Hp2 _]%NoDup_cons)%NoDup_app.
    rewrite (frags_complete X cs frags T l st1 now p k); [| done | done | done | done | done | done | | done |].
    - case_bool_decide as Ha; case_bool_decide as Hb; [done | | | done].
      + exfalso. destruct st2 as [|g st2]; [done|]. rewrite Forall_forall in Ha.
        assert (g.2 ∈ frags) as Hg by (rewrite <- Hperm; set_solver). specialize (Ha _ Hg). rewrite fmap_app in Ha.
        apply elem_of_app in Ha as [Ha|Ha]; [apply (Hd _ Ha); set_solver | set_solver].
      + exfalso. apply Ha. apply Forall_forall. intros q Hq. rewrite Hb in Hperm. rewrite fmap_app. cbn. by rewrite Hperm.
    - rewrite Forall_app in Htime. destruct Htime as [Ht1 [Ht2 _]%Forall_cons]. apply Forall_app. split;
        [|apply Forall_singleton; split; [done | right; by apply list_elem_of_lookup_2 in Hk]].
      rewrite Forall_forall in *. intros g Hg. split; [by apply Ht1|]. right. rewrite <- Hperm. apply elem_of_app. left. apply list_elem_of_fmap. eauto.
    - exists p. split; [rewrite <- Hperm; set_solver|]. intros Hin. apply (Hd _ Hin). set_solver. }
  assert (∀ st1 st2, st = st1 ++ st2 → st2 ≠ [] → handed st1 l = []) as Hpre.
  { induction st1 as [|f st1 IH] using rev_ind; intros st2 E H2; [done|]. rewrite <- app_assoc in E. cbn [app] in E.
    rewrite handed_snoc, (IH (f :: st2)), (Hstep st1 f st2) by done. by rewrite bool_decide_eq_false_2. }
  destruct st as [|f0 st0 _] using rev_ind.
  - exfalso. symmetry in Hperm. apply Permutation_nil_r in Hperm. subst frags. by destruct cs.
  - rewrite handed_snoc, (Hpre st0 [f0]), (Hstep st0 f0 []) by done. done.
Qed.

(** ** Packets that are lost *)

(** A packet of the client whose length is a multiple of the room in a query has
    no fragment marked as the last: it is never handed over. *)
Lemma client_exact_multiple_lost :
  ∃ frags, nstxc_send_packet 8 0 7 [1; 2; 3; 4; 5; 6; 7; 8] = Some frags ∧
    Forall (λ f, hflags (get_hdr f) = 0) frags ∧ length frags = 2%nat.
Proof. eexists. split; [vm_compute; reflexivity|]. split; [|done]. by repeat constructor. Qed.

(** The sequence number has four bits: the seventeenth fragment looks like the
    first one, and the packet is never complete. *)
Lemma seventeen_fragments_lost :
  (frags ← send_all (replicate 17 5) [SendItem (seqZ 1 17) 7 0 0];
   f ← last frags;
   Some (nstx_handlepacket 0 f [NstxItem 7 0 0 (sel 0 ((λ x, [x]) <$> seqZ 1 16) (λ _, true))]).1) = Some None.
Proof. vm_compute. reflexivity. Qed.

(** ** Witnesses *)

Lemma nstx_encoding_roundtrip_witness :
  ∃ w, nstx_encode ([180; 0; 7; 16; 255] ++ [1; 2]) 5 = Some w ∧ (nstx_decode (λ _, 0) w).2 = 5 ∧
    take 5 (nstx_decode (λ _, 0) w).1 = [180; 0; 7; 16; 255].
Proof.
  apply (nstx_encoding_roundtrip (λ _, 0) [180; 0; 7; 16; 255] [1; 2]); [|done].
  by repeat (constructor; [by split|]).
Defined.

Definition demo_frags : list (list Z) := default [] (send_all [7; 7; 9] [SendItem [1; 2; 3; 4; 5; 6; 7; 8] 7 0 0]).
Definition demo_frag (k : nat) : list Z := default [] (demo_frags !! k).

(** The last and the first fragment, a repetition, an unrelated fragment, and the
    one that was missing. *)
Lemma fragments_reassembled_witness :
  (nstx_handlepacket 105 (demo_frag 1)
    (pending [(100, demo_frag 2); (101, demo_frag 0); (102, demo_frag 2); (103, [180; 0; 9; 0; 33])] [])).1 =
  Some [1; 2; 3; 4; 5; 6; 7; 8].
Proof.
  refine (fragments_reassembled [1; 2; 3; 4; 5; 6; 7; 8] 7 [7; 7; 9] demo_frags 100 []
    [(100, demo_frag 2); (101, demo_frag 0); (102, demo_frag 2); (103, [180; 0; 9; 0; 33])] 105 (demo_frag 1) 1 _ _ _ _ _ _ _ _ _ _);
    [lia | by repeat constructor | cbn; lia | by vm_compute | lia | lia | done | | by vm_compute |].
  - repeat (apply Forall_cons; split; [split; [cbn; unfold NSTX_TIMEOUT; lia|]|]); [right|right|right|left|right|constructor].
    + vm_compute. by repeat constructor.
    + vm_compute. by repeat constructor.
    + vm_compute. by repeat constructor.
    + by right.
    + vm_compute. by repeat constructor.
  - exists (demo_frag 1). split; [vm_compute; by repeat constructor|]. apply (bool_decide_unpack _). by vm_compute.
Defined.
