(* ===== verification/Dns.v ===== *)
(** * Dns: the packets of the tunnel

    [dns.c] of [vde_over_ns]: names as labels, text records, the list of queries
    and answers of a packet, its construction and its extraction.  A C string is
    the list of its bytes without the NUL; a block of memory is a list of bytes.
    [None] is an access outside of the memory of an argument; where a function can
    return [NULL], the result is an option inside. *)
From Stdlib Require Import Lia.
From stdpp Require Import base numbers list.
From S2P Require Import Prelude OverNs.

Definition DNS_QUERY : Z := 1.
Definition DNS_RESPONSE : Z := 2.
Definition DNS_MAXPKT : Z := 512.
Definition NSTYPE_TXT : Z := 16.

(** A [char] as an [int]. *)
Definition schar (b : Z) : Z := if b <? 128 then b else b - 256.

(** [strlen] and [strcpy] of a block: the bytes before the first NUL. *)
Fixpoint cstr (mem : list Z) : option (list Z) :=
  match mem with
  | [] => None
  | b :: mem' => if b =? 0 then Some [] else r ← cstr mem'; Some (b :: r)
  end.

Fixpoint strchr (s : list Z) (c : Z) : option nat :=
  match s with
  | [] => None
  | b :: s' => if b =? c then Some O else S <$> strchr s' c
  end.

(** ** Names *)

Fixpoint str2lbl_loop (fuel : nat) (ptr buf : list Z) : option (option (list Z)) :=
  match fuel with
  | O => None
  | S fuel =>
    match strchr ptr 46 with
    | Some k =>
      let chunklen := Z.of_nat k in
      if (63 <? chunklen) || (chunklen <=? 0) then Some None
      else str2lbl_loop fuel (drop (S k) ptr) (buf ++ chunklen :: take k ptr)
    | None => Some (Some (buf ++ u8 (Z.of_nat (length ptr)) :: ptr ++ [0]))
    end
  end.
Definition str2lbl (data : list Z) : option (option (list Z)) := str2lbl_loop (S (length data)) data [].

(** The loop: [ptr] and [followed]; [chunklen] is an [unsigned int] read from a
    [char]. *)
Fixpoint decompress_loop (fuel : nat) (msg : list Z) (msglen ptr : Z) (buf : option (list Z)) (followed : Z) :
    option (option (list Z)) :=
  match fuel with
  | O => None
  | S fuel =>
    c ← zget msg ptr;
    let chunklen := u32 (schar c) in
    if chunklen =? 0 then Some ((λ b, b ++ [0]) <$> buf)
    else if 63 <? chunklen then
      if msglen - 1 <=? ptr then Some None
      else if 20 <? followed then Some None
      else
        d ← zget msg (ptr + 1);
        let offset := u32 (chunklen mod 64 * 256 + schar d) in
        if msglen <=? offset then Some None else decompress_loop fuel msg msglen offset buf (followed + 1)
    else if msglen <=? ptr + chunklen + 1 then Some None
    else decompress_loop fuel msg msglen (ptr + chunklen + 1)
           (Some (default [] buf ++ slice msg ptr (chunklen + 1))) followed
  end.
Definition decompress_fuel (msglen : Z) : nat := 23 * (Z.to_nat msglen + 2).
Definition decompress_label (msg : list Z) (msglen lbl : Z) : option (option (list Z)) :=
  decompress_loop (decompress_fuel msglen) msg msglen lbl None 0.

(** Chunks of at most [clen] bytes, and a NUL. *)
Fixpoint cstringify_loop (fuel : nat) (s : list Z) (clen : Z) : list Z :=
  match fuel with
  | O => [0]
  | S fuel =>
    let len := Z.of_nat (length s) in
    if len <=? 0 then [0]
    else
      let llen := if clen <? len then clen else len in
      u8 llen :: take (Z.to_nat llen) s ++ cstringify_loop fuel (drop (Z.to_nat llen) s) clen
  end.
Definition cstringify (data : list Z) (clen : Z) : list Z := cstringify_loop (S (length data)) data clen.
Definition data2lbl (data : list Z) : list Z := cstringify data 63.
Definition data2txt (data : list Z) : list Z := cstringify data 255.

(** The text of a record of [len] bytes; the block has as many. *)
Fixpoint txt2data_loop (fuel : nat) (data : list Z) (len s : Z) (d : list Z) : option (option (list Z)) :=
  match fuel with
  | O => None
  | S fuel =>
    llen ← zget data s;
    let s := s + 1 in
    if len - s <? llen then Some None
    else
      let d := d ++ slice data s llen in
      if llen =? 0 then Some (Some d) else txt2data_loop fuel data len (s + llen) d
  end.
Definition txt2data (data : list Z) (dlen : Z) : option (option (list Z)) :=
  txt2data_loop (S (length data)) data dlen 0 [].

Fixpoint lbl2data_loop (fuel : nat) (data : list Z) (len s : Z) (d : list Z) : option (list Z) :=
  match fuel with
  | O => None
  | S fuel =>
    llen ← zget data s;
    let s := s + 1 in
    if (63 <? llen) || (len - s <? llen) then Some d
    else
      let d := d ++ slice data s llen in
      if llen =? 0 then Some d else lbl2data_loop fuel data len (s + llen) d
  end.
Definition lbl2data (data : list Z) (len : Z) : option (list Z) := lbl2data_loop (S (length data)) data len 0 [].

(** The position after a name, and what is left of [*len]. *)
Fixpoint skip_loop (fuel : nat) (mem : list Z) (ptr len : Z) : option (option (Z * Z)) :=
  match fuel with
  | O => None
  | S fuel =>
    c ← zget mem ptr;
    if c =? 0 then Some (Some (ptr + 1, u16 (len - 1)))
    else if len <? 2 then Some None
    else if negb (Z.land c 192 =? 0) then Some (Some (ptr + 1 + 1, u16 (u16 (len - 1) - 1)))
    else
      let len := u16 (len - c) in
      if len <? 1 then Some None else skip_loop fuel mem (ptr + c + 1) len
  end.
Definition skip_lbl (mem : list Z) (ptr len : Z) : option (option (Z * Z)) := skip_loop (S (length mem)) mem ptr len.

(** ** Packets *)

Record rr := RR { rdata : option (list Z); rlen : Z; rlink : Z }.
Record dnspkt := DnsPkt { d_id : Z; d_type : Z; d_query : list rr; d_answer : list rr }.

(** The new item at the end of a list, with the fields its caller sets. *)
Definition new_listitem (l : list rr) (x : rr) : list rr := l ++ [x].
Definition get_listlen (l : list rr) : Z := Z.of_nat (length l).

(** The global [suffix] and [suffixlen]. *)
Definition dns_setsuffix (suf : list Z) : option (option (list Z) * Z) :=
  s ← str2lbl suf; Some (s, Z.of_nat (length suf) + 1).

Definition dns_alloc : dnspkt := DnsPkt 0 0 [] [].
Definition dns_setid (p : dnspkt) (id : Z) : dnspkt := DnsPkt (u16 id) (d_type p) (d_query p) (d_answer p).
Definition dns_settype (p : dnspkt) (type : Z) : dnspkt := DnsPkt (d_id p) type (d_query p) (d_answer p).

Definition dns_data2fqdn (suffix : option (list Z)) (data : list Z) : option (list Z) :=
  ptr ← cstr (data2lbl data); suf ← suffix; suf ← cstr suf; Some (ptr ++ suf).

(** [strstr]: the position of the first occurrence. *)
Fixpoint strstr (s needle : list Z) : option Z :=
  if bool_decide (take (length needle) s = needle) then Some 0
  else match s with
       | [] => None
       | _ :: s' => Z.succ <$> strstr s' needle
       end.
Definition dns_fqdn2data (suffix : option (list Z)) (fqdn : list Z) : option (option (list Z)) :=
  suf ← suffix; suf ← cstr suf;
  match strstr fqdn suf with
  | Some off =>
    if negb (off =? 0) then d ← lbl2data (fqdn ++ [0]) off; d ← cstr (d ++ [0]); Some (Some d) else Some None
  | None => Some None
  end.

Definition dns_addquery (p : dnspkt) (data : list Z) : dnspkt * Z :=
  let q := new_listitem (d_query p) (RR (Some (data ++ [0])) (Z.of_nat (length data) + 1) 0) in
  (DnsPkt (d_id p) (d_type p) q (d_answer p), get_listlen q - 1).
Definition dns_addanswer (p : dnspkt) (data : list Z) (link : Z) : dnspkt * Z :=
  let buf := data2txt data in
  let a := new_listitem (d_answer p) (RR (Some buf) (Z.of_nat (length buf)) link) in
  (DnsPkt (d_id p) (d_type p) (d_query p) a, get_listlen (d_query p) - 1).

Definition dns_getpktsize (p : dnspkt) : Z :=
  let size := foldl (λ size r, size + (rlen r + 4)) 12 (d_query p) in
  foldl (λ size r, size + (rlen r + 12)) size (d_answer p).

(** [memcpy] from a record. *)
Definition rr_bytes (r : rr) : option (list Z) :=
  let d := default [] (rdata r) in
  if Z.of_nat (length d) <? rlen r then None else Some (slice d 0 (rlen r)).

Fixpoint put_queries (l : list rr) (buf : list Z) (ptr : Z) (offsets : list Z) : option (list Z * Z * list Z) :=
  match l with
  | [] => Some (buf, ptr, offsets)
  | r :: l' =>
    d ← rr_bytes r;
    buf ← memcpy_at buf ptr d;
    let p := ptr + rlen r in
    buf ← zset buf (p + 1) 16; buf ← zset buf (p + 3) 1;
    put_queries l' buf (p + 4) (offsets ++ [ptr])
  end.
Fixpoint put_answers (l : list rr) (buf : list Z) (ptr : Z) (offsets : list Z) : option (list Z) :=
  match l with
  | [] => Some buf
  | r :: l' =>
    o ← zget offsets (rlink r);
    buf ← zset buf ptr (u8 (Z.lor 192 (Z.quot o 256)));
    buf ← zset buf (ptr + 1) (u8 (Z.rem o 256));
    buf ← zset buf (ptr + 3) 16; buf ← zset buf (ptr + 5) 1;
    buf ← zset buf (ptr + 10) (u8 (Z.quot (rlen r) 256));
    buf ← zset buf (ptr + 11) (u8 (Z.rem (rlen r) 256));
    d ← rr_bytes r;
    buf ← memcpy_at buf (ptr + 12) d;
    put_answers l' buf (ptr + 12 + rlen r) offsets
  end.
(** The packet; its length is [*l]. *)
Definition dns_constructpacket (p : dnspkt) : option (list Z) :=
  let buf := replicate (Z.to_nat (dns_getpktsize p)) 0 in
  buf ← zset buf 0 (u8 (d_id p / 256)); buf ← zset buf 1 (u8 (d_id p mod 256));
  buf ← (if d_type p =? DNS_RESPONSE then buf ← zset buf 2 132; zset buf 3 128 else zset buf 2 1);
  buf ← zset buf 5 (u8 (get_listlen (d_query p))); buf ← zset buf 7 (u8 (get_listlen (d_answer p)));
  '(buf, ptr, offsets) ← put_queries (d_query p) buf 12 [];
  put_answers (d_answer p) buf ptr offsets.

(** [ntohs] of a field of a packed header. *)
Definition ntohs_at (mem : list Z) (p : Z) : option Z :=
  hi ← zget mem p; lo ← zget mem (p + 1); Some (hi * 256 + lo).

Fixpoint extract_queries (n : nat) (buf : list Z) (len ptr remain : Z) (offsets : list Z) (q : list rr) :
    option (option (Z * Z * list Z * list rr)) :=
  match n with
  | O => Some (Some (ptr, remain, offsets, q))
  | S n =>
    data ← decompress_label buf len ptr;
    match data with
    | None => Some None
    | Some data =>
      name ← cstr data;
      let q := new_listitem q (RR (Some data) (Z.of_nat (length name) + 1) 0) in
      skip ← skip_lbl buf ptr remain;
      match skip with
      | None => Some None
      | Some (ptr', remain) => extract_queries n buf len (ptr' + 4) (u16 (remain - 4)) (offsets ++ [u16 ptr]) q
      end
    end
  end.

(** The first [j] with [offsets[j] == off], or [i]. *)
Fixpoint find_offset (offsets : list Z) (off j : Z) : Z :=
  match offsets with
  | [] => j
  | o :: l' => if o =? off then j else find_offset l' off (j + 1)
  end.

Fixpoint extract_answers (n : nat) (buf : list Z) (ptr remain : Z) (offsets : list Z) (a : list rr) : option (list rr) :=
  match n with
  | O => Some a
  | S n =>
    c ← zget buf ptr;
    link ← (if Z.land c 192 =? 192 then
              d ← zget buf (ptr + 1);
              let j := find_offset offsets (Z.land c 63 * 256 + d) 0 in
              Some (if j <? Z.of_nat (length offsets) then j else -1)
            else Some (-1));
    skip ← skip_lbl buf ptr remain;
    '(nsh, remain) ← skip;
    type ← ntohs_at buf nsh;
    datalen ← ntohs_at buf (nsh + 8);
    let ptr := nsh + 10 in
    let remain := u16 (remain - 10) in
    if negb (type =? NSTYPE_TXT) then
      extract_answers n buf (ptr + datalen) (u16 (remain - datalen)) offsets (new_listitem a (RR None 0 link))
    else if Z.of_nat (length buf) <? ptr + datalen then None
    else extract_answers n buf (ptr + datalen) (u16 (remain - datalen)) offsets
           (new_listitem a (RR (Some (slice buf ptr datalen)) datalen link))
  end.
Definition dns_extractpkt (buf : list Z) (len : Z) : option (option dnspkt) :=
  if len <? 17 then Some None
  else
    tid ← ntohs_at buf 0;
    questions ← ntohs_at buf 4;
    answers ← ntohs_at buf 6;
    r ← extract_queries (Z.to_nat questions) buf len 12 (u16 (len - 12)) [] [];
    match r with
    | None => Some None
    | Some (ptr, remain, offsets, q) =>
      a ← extract_answers (Z.to_nat answers) buf ptr remain offsets [];
      Some (Some (DnsPkt tid 0 q a))
    end.

(** The data of the first query or answer, which is taken out of the packet;
    [None] is [NULL]. *)
Definition dns_getquerydata (p : dnspkt) : option (list Z) * dnspkt :=
  match d_query p with
  | [] => (None, p)
  | q :: l => (rdata q, DnsPkt (d_id p) (d_type p) l (d_answer p))
  end.
Definition dns_getanswerdata (p : dnspkt) : option (list Z * Z) * dnspkt :=
  match d_answer p with
  | [] => (None, p)
  | q :: l => ((λ d, (d, rlen q)) <$> rdata q, DnsPkt (d_id p) (d_type p) (d_query p) l)
  end.

Definition dns_getfreespace (suffixlen : Z) (p : dnspkt) (type : Z) : Z :=
  let raw := DNS_MAXPKT - dns_getpktsize p in
  if raw <? 0 then -1
  else
    let ret :=
      if type =? DNS_RESPONSE then let ret := raw - 14 in if 253 <? ret then 253 else ret
      else if type =? DNS_QUERY then
        let ret := Z.quot (189 * (254 - suffixlen)) 256 - 6 in
        let maxq := 183 - Z.quot (189 * suffixlen) 256 in
        if maxq <? ret then maxq else ret
      else 0 in
    if 0 <? ret then ret else 0.

(** ** Positions in a block *)

Lemma zget_mid {A} (a : list A) x r p : p = Z.of_nat (length a) → zget (a ++ x :: r) p = Some x.
Proof. intros ->. apply zget_Some. split; [lia|]. rewrite Nat2Z.id. by apply list_lookup_middle. Qed.

Lemma zget_here {A} (a : list A) x r : zget (a ++ x :: r) (Z.of_nat (length a)) = Some x.
Proof. by apply zget_mid. Qed.

Lemma slice_mid a x r o n : o = Z.of_nat (length a) → n = Z.of_nat (length x) → slice (a ++ x ++ r) o n = x.
Proof.
  intros -> ->. unfold slice. rewrite !Nat2Z.id, drop_app_length, take_app_length. done.
Qed.

Lemma zset_app_r {A} (a z : list A) i x p : p = Z.of_nat (length a) + Z.of_nat i → (i < length z)%nat →
  zset (a ++ z) p x = Some (a ++ <[i := x]> z).
Proof.
  intros -> Hi. rewrite zset_is_Some by (rewrite length_app; lia). f_equal.
  replace (Z.to_nat _) with (length a + i)%nat by lia. by rewrite insert_app_r.
Qed.

Lemma memcpy_app a d (z : list Z) p : p = Z.of_nat (length a) → (length d ≤ length z)%nat →
  memcpy_at (a ++ z) p d = Some (a ++ d ++ drop (length d) z).
Proof.
  intros -> Hd. unfold memcpy_at. rewrite length_app.
  destruct (Z.leb_spec 0 (Z.of_nat (length a))); [|lia]. cbn [andb].
  destruct (Z.leb_spec (Z.of_nat (length a) + Z.of_nat (length d)) (Z.of_nat (length a + length z))); [|lia].
  rewrite Nat2Z.id, take_app_length, drop_app_add. done.
Qed.

Lemma u16_small z : 0 ≤ z < 65536 → u16 z = z.
Proof. intros. by apply Z.mod_small. Qed.
Lemma u32_small z : 0 ≤ z < 2 ^ 32 → u32 z = z.
Proof. intros. by apply Z.mod_small. Qed.

Lemma cstr_app s r : Forall (λ b, b ≠ 0) s → cstr (s ++ 0 :: r) = Some s.
Proof.
  induction s as [|b s IH]; [done|]. intros [Hb Hs]%Forall_cons. simpl. destruct (Z.eqb_spec b 0); [done|].
  by rewrite (IH Hs).
Qed.

(** ** Names on the wire *)

Definition nz (b : Z) : Prop := 0 < b < 256.
Definition label_ok (l : list Z) : Prop := (1 ≤ length l ≤ 63)%nat ∧ Forall nz l.
Definition enc_label (l : list Z) : list Z := Z.of_nat (length l) :: l.
Definition wire (ls : list (list Z)) : list Z := concat (enc_label <$> ls).

Lemma wire_cons l ls : wire (l :: ls) = Z.of_nat (length l) :: l ++ wire ls.
Proof. done. Qed.
Lemma wire_app ls ls' : wire (ls ++ ls') = wire ls ++ wire ls'.
Proof. unfold wire. by rewrite fmap_app, concat_app. Qed.

Lemma wire_nz ls : Forall label_ok ls → Forall nz (wire ls).
Proof.
  induction 1 as [|l ls [Hl Hn] _ IH]; [constructor|]. rewrite wire_cons. constructor; [unfold nz; lia|].
  by apply Forall_app.
Qed.
Lemma nz_ne s : Forall nz s → Forall (λ b, b ≠ 0) s.
Proof. intros H. eapply Forall_impl; [exact H|]. unfold nz. lia. Qed.
Lemma cstr_wire ls r : Forall label_ok ls → cstr (wire ls ++ 0 :: r) = Some (wire ls).
Proof. intros H. by apply cstr_app, nz_ne, wire_nz. Qed.

Lemma land_192_small c : 0 ≤ c < 64 → Z.land c 192 = 0.
Proof.
  intros Hc. assert (forallb (λ c, Z.land c 192 =? 0) (seqZ 0 64) = true) as H by done.
  apply (forallb_seqZ _ _ c) in H; [|done]. cbv beta in H. lia.
Qed.

Lemma pointer_bits x : 0 ≤ x < 64 →
  Z.lor 192 x = 192 + x ∧ Z.land (192 + x) 192 = 192 ∧ Z.land (192 + x) 63 = x.
Proof.
  intros Hc.
  assert (forallb (λ x, (Z.lor 192 x =? 192 + x) && (Z.land (192 + x) 192 =? 192) && (Z.land (192 + x) 63 =? x)) (seqZ 0 64) = true) as H by done.
  apply (forallb_seqZ _ _ x) in H; [|done]. cbv beta in H. lia.
Qed.

Lemma chunklen_small c : 0 ≤ c < 64 → u32 (schar c) = c.
Proof. intros. unfold schar. destruct (Z.ltb_spec c 128); [|lia]. apply u32_small. lia. Qed.

(** A name without pointers is copied, with its NUL. *)
Lemma decompress_plain ls : ∀ fuel pre post msglen buf f,
  Forall label_ok ls → (length ls < fuel)%nat → (ls ≠ [] ∨ buf ≠ None) →
  Z.of_nat (length pre + length (wire ls)) < msglen →
  decompress_loop fuel (pre ++ wire ls ++ 0 :: post) msglen (Z.of_nat (length pre)) buf f
    = Some (Some (default [] buf ++ wire ls ++ [0])).
Proof.
  induction ls as [|l ls IH]; intros [|fuel] pre post msglen buf f Hok Hf Hne Hlen; try (simpl in Hf; lia).
  - cbn [wire fmap list_fmap concat app decompress_loop]. rewrite zget_here. cbn [mbind option_bind].
    destruct buf as [b|]; [done | by destruct Hne].
  - apply Forall_cons in Hok as [[Hl Hn] Hok]. rewrite wire_cons in *. cbn [length app] in *. rewrite length_app in Hlen.
    cbn [decompress_loop]. rewrite zget_here. cbn [mbind option_bind]. rewrite chunklen_small by lia.
    destruct (Z.eqb_spec (Z.of_nat (length l)) 0); [lia|]. destruct (Z.ltb_spec 63 (Z.of_nat (length l))); [lia|].
    match goal with |- context [?a <=? ?b] => destruct (Z.leb_spec a b) end; [lia|].
    set (pre' := pre ++ Z.of_nat (length l) :: l).
    replace (pre ++ Z.of_nat (length l) :: (l ++ wire ls) ++ 0 :: post) with (pre' ++ wire ls ++ 0 :: post)
      by (unfold pre'; by rewrite <- !app_assoc).
    replace (Z.of_nat (length pre) + Z.of_nat (length l) + 1) with (Z.of_nat (length pre'))
      by (unfold pre'; rewrite length_app; cbn [length]; lia).
    rewrite IH; [| done | lia | by right | unfold pre'; rewrite length_app; cbn [length]; lia].
    cbn [from_option]. unfold id. do 2 f_equal. unfold pre'. rewrite <- (app_assoc pre), slice_mid by (cbn [length]; lia).
    rewrite <- !app_assoc. done.
Qed.

Lemma skip_plain ls : ∀ fuel pre post len n,
  Forall label_ok ls → (length ls < fuel)%nat → Z.of_nat (length (wire ls) + 1 + n) ≤ len < 65536 →
  ∃ len', skip_loop fuel (pre ++ wire ls ++ 0 :: post) (Z.of_nat (length pre)) len
      = Some (Some (Z.of_nat (length pre + length (wire ls) + 1), len')) ∧ Z.of_nat n ≤ len' < 65536.
Proof.
  induction ls as [|l ls IH]; intros [|fuel] pre post len n Hok Hf Hlen; try (simpl in Hf; lia).
  - cbn [wire fmap list_fmap concat app skip_loop length] in *. rewrite zget_here. cbn [mbind option_bind].
    rewrite Z.eqb_refl, u16_small by lia. exists (len - 1). split; [do 3 f_equal; lia | lia].
  - apply Forall_cons in Hok as [[Hl Hn] Hok]. rewrite wire_cons in *. cbn [length app] in *. rewrite length_app in Hlen.
    cbn [skip_loop]. rewrite zget_here. cbn [mbind option_bind].
    destruct (Z.eqb_spec (Z.of_nat (length l)) 0); [lia|]. destruct (Z.ltb_spec len 2); [lia|].
    rewrite land_192_small by lia. cbn [Z.eqb negb]. rewrite u16_small by lia.
    destruct (Z.ltb_spec (len - Z.of_nat (length l)) 1); [lia|].
    set (pre' := pre ++ Z.of_nat (length l) :: l).
    replace (pre ++ Z.of_nat (length l) :: (l ++ wire ls) ++ 0 :: post) with (pre' ++ wire ls ++ 0 :: post)
      by (unfold pre'; by rewrite <- !app_assoc).
    replace (Z.of_nat (length pre) + Z.of_nat (length l) + 1) with (Z.of_nat (length pre'))
      by (unfold pre'; rewrite length_app; cbn [length]; lia).
    destruct (IH fuel pre' post (len - Z.of_nat (length l)) n) as (len' & E & Hl'); [done | lia | lia |].
    exists len'. split; [|done]. rewrite E. do 3 f_equal. unfold pre'. rewrite !length_app. cbn [length]. lia.
Qed.

(** ** The layout of a packet *)

Definition query_rr (ls : list (list Z)) : rr := RR (Some (wire ls ++ [0])) (Z.of_nat (length (wire ls)) + 1) 0.
Definition answer_rr (a : list Z * Z) : rr := RR (Some a.1) (Z.of_nat (length a.1)) a.2.

Definition query_bytes (ls : list (list Z)) : list Z := wire ls ++ [0; 0; 16; 0; 1].
Definition answer_bytes (o : Z) (d : list Z) : list Z :=
  [192 + o / 256; o mod 256; 0; 16; 0; 1; 0; 0; 0; 0;
   Z.of_nat (length d) / 256; Z.of_nat (length d) mod 256] ++ d.

(** Where each name starts. *)
Fixpoint name_offsets (p : Z) (names : list (list (list Z))) : list Z :=
  match names with
  | [] => []
  | ls :: names' => p :: name_offsets (p + Z.of_nat (length (query_bytes ls))) names'
  end.
Definition answers_bytes (offs : list Z) (answers : list (list Z * Z)) : list Z :=
  concat ((λ a, answer_bytes (default 0 (zget offs a.2)) a.1) <$> answers).
Definition queries_bytes (names : list (list (list Z))) : list Z := concat (query_bytes <$> names).
Definition header_bytes (id type : Z) (nq na : nat) : list Z :=
  [id / 256; id mod 256; if type =? DNS_RESPONSE then 132 else 1; if type =? DNS_RESPONSE then 128 else 0;
   0; Z.of_nat nq; 0; Z.of_nat na; 0; 0; 0; 0].

Lemma queries_bytes_cons ls names : queries_bytes (ls :: names) = query_bytes ls ++ queries_bytes names.
Proof. done. Qed.
Lemma answers_bytes_cons offs a answers :
  answers_bytes offs (a :: answers) = answer_bytes (default 0 (zget offs a.2)) a.1 ++ answers_bytes offs answers.
Proof. done. Qed.

Lemma length_query_bytes ls : Z.of_nat (length (query_bytes ls)) = rlen (query_rr ls) + 4.
Proof. unfold query_bytes. rewrite length_app. simpl. lia. Qed.
Lemma length_answer_bytes o d : Z.of_nat (length (answer_bytes o d)) = Z.of_nat (length d) + 12.
Proof. unfold answer_bytes. rewrite length_app. cbn [length]. lia. Qed.

Lemma replicate_split n k : (n ≤ k)%nat → replicate k (0 : Z) = replicate n 0 ++ replicate (k - n) 0.
Proof. intros. rewrite <- replicate_add. f_equal. lia. Qed.

Lemma rr_bytes_query ls : rr_bytes (query_rr ls) = Some (wire ls ++ [0]).
Proof.
  unfold rr_bytes, query_rr, slice. cbn [rdata rlen from_option]. unfold id. rewrite length_app. cbn [length].
  destruct (Z.ltb_spec (Z.of_nat (length (wire ls) + 1)) (Z.of_nat (length (wire ls)) + 1)); [lia|].
  rewrite drop_0, take_ge; [done | rewrite length_app; cbn [length]; lia].
Qed.
Lemma rr_bytes_answer a : rr_bytes (answer_rr a) = Some a.1.
Proof.
  unfold rr_bytes, answer_rr, slice. cbn [rdata rlen from_option]. unfold id.
  rewrite Z.ltb_irrefl, drop_0, take_ge by lia. done.
Qed.

Lemma put_queries_layout names : ∀ buf k offs, (length (queries_bytes names) ≤ k)%nat →
  put_queries (query_rr <$> names) (buf ++ replicate k 0) (Z.of_nat (length buf)) offs
    = Some (buf ++ queries_bytes names ++ replicate (k - length (queries_bytes names)) 0,
            Z.of_nat (length buf + length (queries_bytes names)), offs ++ name_offsets (Z.of_nat (length buf)) names).
Proof.
  induction names as [|ls names IH]; intros buf k offs Hk.
  - cbn. rewrite Nat.sub_0_r, app_nil_r, Nat.add_0_r. done.
  - rewrite queries_bytes_cons in *. rewrite length_app in Hk. rewrite fmap_cons.
    cbn [put_queries]. rewrite rr_bytes_query. cbn [mbind option_bind].
    pose proof (length_query_bytes ls) as Hq. cbn [rlen query_rr] in Hq.
    assert (length (wire ls ++ [0%Z]) + 4 = length (query_bytes ls))%nat as Hw by (unfold query_bytes; rewrite !length_app; simpl; lia).
    rewrite memcpy_app by (done || rewrite length_replicate; lia). cbn [mbind option_bind].
    rewrite drop_replicate, (replicate_split 4) by lia.
    set (w := buf ++ wire ls ++ [0]). set (z := replicate (k - length (wire ls ++ [0]) - 4) 0).
    assert (Z.of_nat (length buf) + (Z.of_nat (length (wire ls)) + 1) = Z.of_nat (length w)) as Ew
      by (unfold w; rewrite !length_app; cbn [length]; lia).
    cbn [rlen query_rr]. rewrite Ew.
    replace (buf ++ (wire ls ++ [0]) ++ replicate 4 0 ++ z) with (w ++ [0; 0; 0; 0] ++ z) by (unfold w; by rewrite <- !app_assoc).
    rewrite (zset_app_r w _ 1) by (cbn; lia). cbn [mbind option_bind]. cbn [app insert list_insert].
    rewrite (zset_app_r w _ 3) by (cbn; lia). cbn [mbind option_bind]. cbn [app insert list_insert].
    set (w' := w ++ [0; 16; 0; 1]).
    replace (w ++ 0 :: 16 :: 0 :: 1 :: z) with (w' ++ z) by (unfold w'; by rewrite <- app_assoc).
    replace (Z.of_nat (length w) + 4) with (Z.of_nat (length w')) by (unfold w'; rewrite length_app; cbn [length]; lia).
    unfold z. rewrite IH by lia.
    assert (w' = buf ++ query_bytes ls) as -> by (unfold w', w, query_bytes; by rewrite <- !app_assoc).
    rewrite !length_app, <- !app_assoc. cbn [name_offsets app]. cbn [length].
    do 2 f_equal; [f_equal|]; [do 4 f_equal; lia | lia | do 3 f_equal; lia].
Qed.

Lemma length_answers_bytes offs answers :
  Z.of_nat (length (answers_bytes offs answers)) = foldr (λ a n, Z.of_nat (length a.1) + 12 + n) 0 answers.
Proof.
  induction answers as [|a answers IH]; [done|]. rewrite answers_bytes_cons, length_app, Nat2Z.inj_add, IH, length_answer_bytes.
  simpl. lia.
Qed.

Lemma put_answers_layout offs answers : ∀ buf k,
  Forall (λ a, ∃ o, zget offs a.2 = Some o ∧ 0 ≤ o < 16384 ∧ Z.of_nat (length a.1) < 65536) answers →
  (length (answers_bytes offs answers) ≤ k)%nat →
  put_answers (answer_rr <$> answers) (buf ++ replicate k 0) (Z.of_nat (length buf)) offs
    = Some (buf ++ answers_bytes offs answers ++ replicate (k - length (answers_bytes offs answers)) 0).
Proof.
  induction answers as [|[d j] answers IH]; intros buf k Hok Hk.
  - cbn. rewrite Nat.sub_0_r. done.
  - apply Forall_cons in Hok as [(o & Ho & Hr & Hd) Hok]. cbn [fst snd] in *.
    rewrite answers_bytes_cons in *. rewrite length_app in Hk. cbn [fst snd] in *. rewrite Ho in *. cbn [from_option] in *. unfold id in *.
    pose proof (length_answer_bytes o d) as Ha. rewrite fmap_cons. cbn [put_answers rlink rlen answer_rr fst snd]. rewrite Ho. cbn [mbind option_bind].
    rewrite (replicate_split 12) by lia. set (z := replicate (k - 12) 0).
    rewrite (Z.quot_div_nonneg o), (Z.rem_mod_nonneg o), (Z.quot_div_nonneg (Z.of_nat _)), (Z.rem_mod_nonneg (Z.of_nat _)) by lia.
    destruct (pointer_bits (o / 256)) as (-> & _ & _); [dlia|].
    rewrite !u8_small by dlia.
    replace (replicate 12 0 ++ z) with ([0;0;0;0;0;0;0;0;0;0;0;0] ++ z) by done.
    rewrite (zset_app_r buf _ 0) by (cbn; lia). cbn [mbind option_bind app insert list_insert].
    rewrite (zset_app_r buf _ 1) by (cbn; lia). cbn [mbind option_bind app insert list_insert].
    rewrite (zset_app_r buf _ 3) by (cbn; lia). cbn [mbind option_bind app insert list_insert].
    rewrite (zset_app_r buf _ 5) by (cbn; lia). cbn [mbind option_bind app insert list_insert].
    rewrite (zset_app_r buf _ 10) by (cbn; lia). cbn [mbind option_bind app insert list_insert].
    rewrite (zset_app_r buf _ 11) by (cbn; lia). cbn [mbind option_bind app insert list_insert].
    rewrite rr_bytes_answer. cbn [fst mbind option_bind].
    match goal with |- context [memcpy_at (buf ++ ?l) _ _] => set (h := take 12 l); change l with (h ++ z) end.
    cbn [take] in h. change (take 0 z) with (@nil Z) in h. rewrite app_assoc.
    assert (Z.of_nat (length buf) + 12 = Z.of_nat (length (buf ++ h))) as -> by (rewrite length_app; unfold h; cbn [length]; lia).
    rewrite memcpy_app by (done || unfold z; rewrite length_replicate; lia). cbn [mbind option_bind].
    rewrite app_assoc, <- Nat2Z.inj_add, <- length_app.
    unfold z. rewrite drop_replicate, IH by (done || lia).
    unfold answer_bytes. fold h. rewrite <- !app_assoc. do 5 f_equal. rewrite length_app. f_equal. change (length h) with 12%nat. rewrite length_app. change (length h) with 12%nat. lia.
Qed.

(** A packet of names and texts, and its bytes. *)
Definition text_pkt (id type : Z) (names : list (list (list Z))) (answers : list (list Z * Z)) : dnspkt :=
  DnsPkt id type (query_rr <$> names) (answer_rr <$> answers).
Definition packet_bytes (id type : Z) (names : list (list (list Z))) (answers : list (list Z * Z)) : list Z :=
  header_bytes id type (length names) (length answers) ++ queries_bytes names ++
    answers_bytes (name_offsets 12 names) answers.

Definition name_ok (ls : list (list Z)) : Prop := ls ≠ [] ∧ Forall label_ok ls.
Record pkt_ok (id type : Z) (names : list (list (list Z))) (answers : list (list Z * Z)) : Prop := {
  ok_id : 0 ≤ id < 65536;
  ok_some : names ≠ [];
  ok_names : Forall name_ok names;
  ok_nq : (length names < 256)%nat;
  ok_na : (length answers < 256)%nat;
  ok_links : Forall (λ a, 0 ≤ a.2 < Z.of_nat (length names)) answers;
  ok_size : Z.of_nat (length (packet_bytes id type names answers)) < 16384
}.

Lemma foldl_add {A} (f : A → Z) l : ∀ s, foldl (λ s r, s + f r) s l = s + foldr (λ r n, f r + n) 0 l.
Proof. induction l as [|a l IH]; intros s; simpl; [lia|]. rewrite IH. lia. Qed.

Lemma length_queries_bytes names :
  Z.of_nat (length (queries_bytes names)) = foldr (λ r n, (rlen r + 4) + n) 0 (query_rr <$> names).
Proof.
  induction names as [|ls names IH]; [done|]. rewrite queries_bytes_cons, length_app, Nat2Z.inj_add, IH, length_query_bytes. done.
Qed.

Lemma getpktsize_text id type names answers :
  dns_getpktsize (text_pkt id type names answers) = Z.of_nat (length (packet_bytes id type names answers)).
Proof.
  unfold dns_getpktsize, text_pkt, packet_bytes. cbn [d_query d_answer]. rewrite !foldl_add, !length_app, !Nat2Z.inj_add.
  rewrite <- length_queries_bytes, length_answers_bytes. change (Z.of_nat (length (header_bytes _ _ _ _))) with 12.
  replace (foldr (λ r n, rlen r + 12 + n) 0 (answer_rr <$> answers))
    with (foldr (λ a n, Z.of_nat (length a.1) + 12 + n) 0 answers); [lia|].
  clear. induction answers as [|a l IH]; [done|]. rewrite fmap_cons. cbn [foldr]. by rewrite IH.
Qed.

Lemma name_offsets_lookup names : ∀ p j o, name_offsets p names !! j = Some o →
  p ≤ o < p + Z.of_nat (length (queries_bytes names)).
Proof.
  induction names as [|ls names IH]; intros p j o; [done|]. rewrite queries_bytes_cons, length_app.
  assert (5 ≤ length (query_bytes ls))%nat by (unfold query_bytes; rewrite length_app; cbn [length]; lia).
  destruct j as [|j]; cbn [name_offsets]; [intros [= <-]; lia|]. intros Ho%IH. lia.
Qed.
Lemma name_offsets_length names : ∀ p, length (name_offsets p names) = length names.
Proof. induction names as [|ls names IH]; intros p; simpl; [done|]. by rewrite IH. Qed.

Lemma answers_have_offsets id type names answers : pkt_ok id type names answers →
  Forall (λ a, ∃ o, zget (name_offsets 12 names) a.2 = Some o ∧ 0 ≤ o < 16384 ∧ Z.of_nat (length a.1) < 65536) answers.
Proof.
  intros [_ _ _ _ _ Hl Hs]. unfold packet_bytes in Hs. rewrite !length_app in Hs. change (length (header_bytes _ _ _ _)) with 12%nat in Hs.
  apply Forall_forall. intros a Ha. rewrite Forall_forall in Hl. specialize (Hl a Ha).
  destruct (zget_is_Some (name_offsets 12 names) a.2) as [o Ho]; [by rewrite name_offsets_length|].
  exists o. split; [done|]. split.
  - apply zget_Some in Ho as [_ Ho%name_offsets_lookup]. lia.
  - pose proof (length_answers_bytes (name_offsets 12 names) answers) as H.
    enough (Z.of_nat (length a.1) ≤ foldr (λ a n, Z.of_nat (length a.1) + 12 + n) 0 answers) by lia.
    clear -Ha. induction Ha as [a l|a b l Ha IH]; cbn [foldr]; [|lia].
    enough (0 ≤ foldr (λ a n, Z.of_nat (length a.1) + 12 + n) 0 l) by lia.
    clear. induction l as [|b l IH]; cbn [foldr]; lia.
Qed.

Lemma construct_layout id type names answers : pkt_ok id type names answers →
  dns_constructpacket (text_pkt id type names answers) = Some (packet_bytes id type names answers).
Proof.
  intros Hok. pose proof (answers_have_offsets _ _ _ _ Hok) as Hoff. destruct Hok as [Hid _ _ Hq Ha _ Hs].
  unfold dns_constructpacket. rewrite getpktsize_text, Nat2Z.id. set (n := length (packet_bytes id type names answers)) in *.
  assert (n = 12 + (length (queries_bytes names) + length (answers_bytes (name_offsets 12 names) answers)))%nat as En
    by (unfold n, packet_bytes; rewrite !length_app; done).
  rewrite (replicate_split 12) by lia. set (z := replicate (n - 12) 0). unfold get_listlen, text_pkt. cbn [d_id d_type d_query d_answer].
  rewrite !length_fmap, !u8_small by dlia.
  assert (∀ (l : list Z) i x, length l = 12%nat → 0 ≤ i < 12 → zset (l ++ z) i x = Some (<[Z.to_nat i := x]> l ++ z)) as Hset.
  { intros l i x Hl Hi. rewrite zset_is_Some by (rewrite length_app; lia). by rewrite insert_app_l by lia. }
  assert (∃ h, h = header_bytes id type (length names) (length answers) ∧
    put_queries (query_rr <$> names) (h ++ z) 12 [] ≫= (λ '(buf, ptr, offsets), put_answers (answer_rr <$> answers) buf ptr offsets)
      = Some (packet_bytes id type names answers)) as (h & Eh & HE).
  { eexists. split; [done|]. unfold z. rewrite (put_queries_layout names (header_bytes id type (length names) (length answers))) by lia. cbn [mbind option_bind].
    rewrite app_assoc, <- length_app.
    change ([] ++ name_offsets _ names) with (name_offsets 12 names).
    rewrite put_answers_layout by (done || lia). rewrite <- app_assoc.
    replace (n - 12 - length (queries_bytes names) - _)%nat with 0%nat by lia. by rewrite app_nil_r. }
  rewrite !Hset by (done || rewrite !length_insert; done). cbn [mbind option_bind].
  rewrite !Hset by (done || rewrite !length_insert; done). cbn [mbind option_bind].
  rewrite <- HE, Eh. unfold header_bytes.
  destruct (type =? DNS_RESPONSE); rewrite !Hset by (done || rewrite !length_insert; done); cbn [mbind option_bind];
    repeat (rewrite !Hset by (done || rewrite !length_insert; done); cbn [mbind option_bind]); done.
Qed.

(** ** Extraction *)

Lemma wire_length ls : (length ls ≤ length (wire ls))%nat.
Proof. induction ls as [|l ls IH]; [done|]. rewrite wire_cons. cbn [length]. rewrite length_app. lia. Qed.

Lemma extract_queries_plain names : ∀ pre post len remain offs q n,
  Forall name_ok names → Z.of_nat (length pre + length (queries_bytes names)) ≤ len < 65536 →
  Z.of_nat (length (queries_bytes names) + n) ≤ remain < 65536 →
  ∃ remain', Z.of_nat n ≤ remain' < 65536 ∧
  extract_queries (length names) (pre ++ queries_bytes names ++ post) len (Z.of_nat (length pre)) remain offs q
    = Some (Some (Z.of_nat (length pre + length (queries_bytes names)), remain',
                  offs ++ name_offsets (Z.of_nat (length pre)) names, q ++ (query_rr <$> names))).
Proof.
  induction names as [|ls names IH]; intros pre post len remain offs q n Hok Hlen Hrem.
  - exists remain. split; [simpl in Hrem; lia|]. cbn. rewrite !app_nil_r, Nat.add_0_r. done.
  - apply Forall_cons in Hok as [[Hne Hls] Hok]. rewrite queries_bytes_cons in *. rewrite length_app in *.
    set (post' := [0; 16; 0; 1] ++ queries_bytes names ++ post).
    assert (pre ++ (query_bytes ls ++ queries_bytes names) ++ post = pre ++ wire ls ++ 0 :: post') as Em
      by (unfold post', query_bytes; by rewrite <- !app_assoc).
    assert (length (query_bytes ls) = length (wire ls) + 5)%nat as Eq by (unfold query_bytes; rewrite length_app; done).
    pose proof (wire_length ls) as Hw.
    cbn [length extract_queries]. unfold decompress_label. rewrite Em, decompress_plain; [| done | unfold decompress_fuel; lia | by left | lia].
    cbn [mbind option_bind from_option app]. rewrite (cstr_wire _ [] Hls). cbn [mbind option_bind].
    destruct (skip_plain ls (S (length (pre ++ wire ls ++ 0 :: post'))) pre post' remain (4 + length (queries_bytes names) + n)) as (r & Es & Hr);
      [done | rewrite !length_app; cbn [length]; lia | lia |].
    unfold skip_lbl. rewrite Es. cbn [mbind option_bind]. rewrite <- Em. rewrite !u16_small by lia.
    set (pre' := pre ++ query_bytes ls).
    replace (pre ++ (query_bytes ls ++ queries_bytes names) ++ post) with (pre' ++ queries_bytes names ++ post)
      by (unfold pre'; by rewrite <- !app_assoc).
    assert (length pre' = length pre + length (query_bytes ls))%nat as Epre by (unfold pre'; by rewrite length_app).
    replace (Z.of_nat (length pre + length (wire ls) + 1) + 4) with (Z.of_nat (length pre')) by lia.
    destruct (IH pre' post len (r - 4) (offs ++ [Z.of_nat (length pre)]) (new_listitem q (query_rr ls)) n) as (r' & Hr' & E);
      [done | lia | lia |].
    exists r'. split; [done|]. fold (query_rr ls). rewrite E. unfold new_listitem. rewrite <- !app_assoc. cbn [name_offsets app].
    rewrite Epre, Nat.add_assoc. repeat f_equal. lia.
Qed.

Lemma zget_shift {A} (a l : list A) p i : p = Z.of_nat (length a) + i → 0 ≤ i → zget (a ++ l) p = zget l i.
Proof.
  intros -> Hi. unfold zget. destruct (Z.ltb_spec (Z.of_nat (length a) + i) 0), (Z.ltb_spec i 0); try lia.
  rewrite lookup_app_r by lia. f_equal. lia.
Qed.

Lemma find_offset_at offs : ∀ j o i, NoDup offs → offs !! j = Some o → find_offset offs o i = i + Z.of_nat j.
Proof.
  induction offs as [|x offs IH]; intros j o i Hnd Hj; [done|]. apply NoDup_cons in Hnd as [Hx Hnd]. cbn [find_offset].
  destruct j as [|j]; simpl in Hj.
  - injection Hj as ->. rewrite Z.eqb_refl. lia.
  - destruct (Z.eqb_spec x o) as [->|]; [by apply list_elem_of_lookup_2 in Hj|]. rewrite (IH j) by done. lia.
Qed.

Lemma name_offsets_NoDup names : ∀ p, NoDup (name_offsets p names).
Proof.
  induction names as [|ls names IH]; intros p; cbn [name_offsets]; constructor; [|apply IH].
  intros [j Hj%name_offsets_lookup]%list_elem_of_lookup_1. pose proof (length_query_bytes ls). cbn [rlen query_rr] in *. lia.
Qed.

Lemma extract_answers_plain offs answers : ∀ pre post remain a, NoDup offs →
  Forall (λ a, ∃ o, zget offs a.2 = Some o ∧ 0 ≤ o < 16384 ∧ Z.of_nat (length a.1) < 65536) answers →
  Z.of_nat (length (answers_bytes offs answers)) ≤ remain < 65536 →
  extract_answers (length answers) (pre ++ answers_bytes offs answers ++ post) (Z.of_nat (length pre)) remain offs a
    = Some (a ++ (answer_rr <$> answers)).
Proof.
  induction answers as [|[d j] answers IH]; intros pre post remain acc Hnd Hok Hrem; [cbn; by rewrite app_nil_r|].
  apply Forall_cons in Hok as [(o & Ho & Hr & Hd) Hok]. cbn [fst snd] in *.
  rewrite answers_bytes_cons in *. rewrite length_app in *. cbn [fst snd] in *. rewrite Ho in *. cbn [from_option] in *. unfold id in *.
  pose proof (length_answer_bytes o d) as Ha.
  set (h := [192 + o / 256; o mod 256; 0; 16; 0; 1; 0; 0; 0; 0; Z.of_nat (length d) / 256; Z.of_nat (length d) mod 256]).
  set (rest := answers_bytes offs answers ++ post).
  assert (pre ++ (answer_bytes o d ++ answers_bytes offs answers) ++ post = pre ++ h ++ d ++ rest) as Em
    by (unfold rest, answer_bytes; fold h; by rewrite <- !app_assoc).
  rewrite Em. cbn [length extract_answers].
  assert (∀ p i x, p = Z.of_nat (length pre) + i → zget h i = Some x → zget (pre ++ h ++ d ++ rest) p = Some x) as Hget.
  { intros p i x -> Hx. pose proof (zget_lt _ _ _ Hx). rewrite (zget_shift _ _ _ i) by lia.
    apply zget_Some in Hx as [? Hx]. apply zget_Some. split; [done|]. by apply lookup_app_l_Some. }
  destruct (pointer_bits (o / 256)) as (_ & B1 & B2); [dlia|].
  rewrite (Hget (Z.of_nat (length pre)) 0 (192 + o / 256)) by (lia || done). cbn [mbind option_bind]. rewrite B1, B2.
  rewrite (Hget _ 1 _ eq_refl eq_refl). cbn [mbind option_bind Z.eqb Pos.eqb].
  replace (o / 256 * 256 + o mod 256) with o by dlia.
  pose proof (zget_lt _ _ _ Ho) as Hj. apply zget_Some in Ho as [Hj0 Ho].
  rewrite (find_offset_at offs (Z.to_nat j)) by done. replace (0 + Z.of_nat (Z.to_nat j)) with j by lia.
  destruct (Z.ltb_spec j (Z.of_nat (length offs))); [|lia].
  unfold skip_lbl. cbn [skip_loop]. rewrite (Hget (Z.of_nat (length pre)) 0 (192 + o / 256)) by (lia || done). cbn [mbind option_bind].
  destruct (Z.eqb_spec (192 + o / 256) 0); [dlia|]. destruct (Z.ltb_spec remain 2); [lia|]. rewrite B1. cbn [Z.eqb negb].
  cbn [mbind option_bind]. unfold ntohs_at. rewrite (Hget (Z.of_nat (length pre) + 1 + 1) 2 0) by (lia || done). rewrite (Hget (Z.of_nat (length pre) + 1 + 1 + 1) 3 16) by (lia || done). cbn [mbind option_bind].
  rewrite (Hget (Z.of_nat (length pre) + 1 + 1 + 8) 10 (Z.of_nat (length d) / 256)) by (lia || done).
  rewrite (Hget (Z.of_nat (length pre) + 1 + 1 + 8 + 1) 11 (Z.of_nat (length d) mod 256)) by (lia || done). cbn [mbind option_bind].
  change (negb (0 * 256 + 16 =? NSTYPE_TXT)) with false. cbv iota.
  replace (Z.of_nat (length d) / 256 * 256 + Z.of_nat (length d) mod 256) with (Z.of_nat (length d)) by dlia.
  set (pre' := pre ++ answer_bytes o d).
  assert (length pre' = length pre + (length d + 12))%nat as Ep by (unfold pre'; rewrite length_app; lia).
  assert (pre ++ h ++ d ++ rest = pre' ++ rest) as Em' by (unfold pre', answer_bytes; fold h; by rewrite <- !app_assoc).
  assert (length (pre ++ h ++ d ++ rest) = length pre' + length rest)%nat as El by (rewrite Em'; by rewrite length_app).
  match goal with |- context [?a <? ?b] => destruct (Z.ltb_spec a b) end; [lia|].
  replace (slice (pre ++ h ++ d ++ rest) (Z.of_nat (length pre) + 1 + 1 + 10) (Z.of_nat (length d))) with d.
  2: { rewrite app_assoc. symmetry. apply slice_mid; [rewrite length_app; unfold h; cbn [length]; lia | done]. }
  rewrite Em'. replace (Z.of_nat (length pre) + 1 + 1 + 10 + Z.of_nat (length d)) with (Z.of_nat (length pre')) by lia.
  rewrite (u16_small (remain - 1)), (u16_small (remain - 1 - 1)), (u16_small (remain - 1 - 1 - 10)), u16_small by lia.
  unfold rest. rewrite IH by (done || lia). unfold new_listitem. rewrite <- app_assoc. done.
Qed.

(** Extraction of the bytes of a packet, with anything behind them in memory. *)
Lemma extract_layout id type names answers junk : pkt_ok id type names answers →
  let bytes := packet_bytes id type names answers in
  dns_extractpkt (bytes ++ junk) (Z.of_nat (length bytes)) = Some (Some (text_pkt id 0 names answers)).
Proof.
  intros Hok bytes. pose proof (answers_have_offsets _ _ _ _ Hok) as Hoff. destruct Hok as [Hid Hne Hn Hq Ha _ Hs].
  fold bytes in Hs. set (h := header_bytes id type (length names) (length answers)).
  set (ab := answers_bytes (name_offsets 12 names) answers).
  assert (length bytes = 12 + (length (queries_bytes names) + length ab))%nat as El
    by (unfold bytes, packet_bytes; rewrite !length_app; done).
  assert (bytes ++ junk = h ++ queries_bytes names ++ ab ++ junk) as Eb by (unfold bytes, packet_bytes; by rewrite <- !app_assoc).
  assert (5 ≤ length (queries_bytes names))%nat as Hq5.
  { destruct names as [|ls names]; [done|]. rewrite queries_bytes_cons. unfold query_bytes. rewrite !length_app. cbn [length]. lia. }
  unfold dns_extractpkt. destruct (Z.ltb_spec (Z.of_nat (length bytes)) 17); [lia|].
  assert (∀ i x, zget h i = Some x → zget (bytes ++ junk) i = Some x) as Hget.
  { intros i x Hx. rewrite Eb. apply zget_Some in Hx as [? Hx]. apply zget_Some. split; [done|]. by apply lookup_app_l_Some. }
  unfold ntohs_at. rewrite (Hget 0 _ eq_refl), (Hget (0 + 1) _ eq_refl), (Hget 4 _ eq_refl), (Hget (4 + 1) _ eq_refl),
    (Hget 6 _ eq_refl), (Hget (6 + 1) _ eq_refl). cbn [mbind option_bind].
  rewrite !Z.mul_0_l, !Z.add_0_l, !Nat2Z.id, u16_small by lia.
  destruct (extract_queries_plain names h (ab ++ junk) (Z.of_nat (length bytes)) (Z.of_nat (length bytes) - 12) [] [] (length ab))
    as (r & Hr & E); [done | change (length h) with 12%nat; lia | lia |].
  change (Z.of_nat (length h)) with 12 in E. rewrite Eb, E. cbn [mbind option_bind app].
  rewrite app_assoc, <- length_app. change (Z.of_nat (length h)) with 12. unfold ab.
  rewrite extract_answers_plain; [| apply name_offsets_NoDup | done | done]. cbn [mbind option_bind app].
  unfold text_pkt. do 3 f_equal. dlia.
Qed.

(** a packet of names and texts survives: the bytes that [dns_constructpacket]
    makes have the length [dns_getpktsize] says, and [dns_extractpkt] gives back
    the identifier, every name in order, and every text with its link to a
    query, whatever follows the bytes in the receive buffer. *)
Theorem dns_packet_roundtrip id type names answers junk : pkt_ok id type names answers →
  ∃ bytes, dns_constructpacket (text_pkt id type names answers) = Some bytes ∧
    Z.of_nat (length bytes) = dns_getpktsize (text_pkt id type names answers) ∧
    dns_extractpkt (bytes ++ junk) (Z.of_nat (length bytes)) = Some (Some (text_pkt id 0 names answers)).
Proof.
  intros Hok. exists (packet_bytes id type names answers).
  split; [by apply construct_layout|]. split; [by rewrite getpktsize_text | by apply extract_layout].
Qed.

Lemma dns_packet_roundtrip_witness :
  pkt_ok 4660 DNS_RESPONSE [[[97; 98]; [99]]; [[100]]] [([2; 7; 8; 0], 1); ([0], 0)] ∧
  ∃ bytes, dns_constructpacket (text_pkt 4660 DNS_RESPONSE [[[97; 98]; [99]]; [[100]]] [([2; 7; 8; 0], 1); ([0], 0)]) = Some bytes ∧
    dns_extractpkt (bytes ++ [1; 2; 3]) (Z.of_nat (length bytes))
      = Some (Some (text_pkt 4660 0 [[[97; 98]; [99]]; [[100]]] [([2; 7; 8; 0], 1); ([0], 0)])).
Proof.
  assert (pkt_ok 4660 DNS_RESPONSE [[[97; 98]; [99]]; [[100]]] [([2; 7; 8; 0], 1); ([0], 0)]) as Hok.
  { split; try done; unfold name_ok, label_ok, nz; cbn.
    - repeat constructor; done.
    - lia.
    - lia.
    - repeat constructor; done. }
  split; [exact Hok|].
  destruct (dns_packet_roundtrip 4660 DNS_RESPONSE [[[97; 98]; [99]]; [[100]]] [([2; 7; 8; 0], 1); ([0], 0)] [1; 2; 3] Hok)
    as (bytes & E1 & _ & E2).
  exists bytes. split; [exact E1 | exact E2].
Defined.

(** ** Decompression of any message *)

Lemma schar_cases c : byteP c → u32 (schar c) = if c <? 128 then c else 2 ^ 32 - 256 + c.
Proof. intros Hc. unfold byteP, schar, u32 in *. destruct (Z.ltb_spec c 128); dlia. Qed.

Lemma decompress_ends msg msglen : Forall byteP msg → msglen ≤ Z.of_nat (length msg) → ∀ fuel ptr buf f,
  0 ≤ ptr < Z.of_nat (length msg) → 0 ≤ f ≤ 21 →
  (21 - f) * (Z.max 0 msglen + 1) + Z.max 0 (Z.max 0 msglen - ptr) < Z.of_nat fuel →
  is_Some (decompress_loop fuel msg msglen ptr buf f).
Proof.
  intros Hb Hm. induction fuel as [|fuel IH]; intros ptr buf f Hp Hf Hfuel; [nia|]. cbn [decompress_loop].
  destruct (zget_is_Some msg ptr) as [c Hc]; [lia|]. rewrite Hc. cbn [mbind option_bind].
  assert (byteP c) as Hbc.
  { apply zget_Some in Hc as [_ Hc]. rewrite Forall_lookup in Hb. eauto. }
  pose proof (schar_cases c Hbc) as Ec. unfold byteP in Hbc.
  destruct (Z.eqb_spec (u32 (schar c)) 0); [done|]. destruct (Z.ltb_spec 63 (u32 (schar c))).
  - destruct (Z.leb_spec (msglen - 1) ptr); [done|]. destruct (Z.ltb_spec 20 f); [done|].
    destruct (zget_is_Some msg (ptr + 1)) as [d Hd]; [lia|]. rewrite Hd. cbn [mbind option_bind].
    match goal with |- context [msglen <=? ?o] => set (off := o) end. assert (0 ≤ off) by (apply Z.mod_pos_bound; lia).
    destruct (Z.leb_spec msglen off); [done|]. apply IH; nia.
  - destruct (Z.leb_spec msglen (ptr + u32 (schar c) + 1)); [done|].
    assert (0 < u32 (schar c)) by (destruct (c <? 128); lia). apply IH; lia.
Qed.

(** [decompress_label] ends on every message, cyclic pointers included, and
    never reads outside of it. *)
Theorem decompress_label_total msg msglen lbl :
  Forall byteP msg → 0 ≤ msglen ≤ Z.of_nat (length msg) → 0 ≤ lbl < Z.of_nat (length msg) →
  is_Some (decompress_label msg msglen lbl).
Proof.
  intros Hb Hm Hl. unfold decompress_label. apply decompress_ends; [done | lia | lia | lia |].
  unfold decompress_fuel. lia.
Qed.

(** Witness: a pointer to itself; it is followed 21 times and given up. *)
Lemma decompress_label_total_witness :
  is_Some (decompress_label [192; 0; 0] 3 0) ∧ decompress_label [192; 0; 0] 3 0 = Some None.
Proof.
  split; [|vm_compute; reflexivity]. apply decompress_label_total; [|simpl; lia|simpl; lia].
  repeat constructor; unfold byteP; lia.
Defined.
