(* ===== verification/NsTunnel.v ===== *)
(** * NsTunnel: the two ends of the tunnel over DNS

    The queue of pending queries ([queue.c]) and the programs of both ends
    ([nstx_getpacket], [do_timeout], [nstxc_handle_reply] and
    [nstxc_send_packet] of [vde_over_ns.c]) on top of the packets of Dns.v and the
    fragments of OverNs.v.  The theorems: a fragment is carried unchanged in a
    query from the client to the server and in an answer back, within the sizes
    of DNS; a packet given to the server reaches the client. *)
From Stdlib Require Import Lia.
From stdpp Require Import base numbers sets list relations sorting.
From S2P Require Import Prelude OverNs Dns.

(** ** The queue of pending queries *)

Section queue.
(** The address of a peer. *)
Context {P : Type}.

Record nstxqueue := NstxQueue { q_id : Z; q_timeout : Z; q_name : list Z; q_peer : option P }.
(** [qhead] with its links, [qlen] and [qtimeout]. *)
Record nsqueue := NsQueue { qhead : list nstxqueue; qlen : Z; qtimeout : Z }.

Definition QUEUETIMEOUT : Z := 5.
Definition init_queue : nsqueue := NsQueue [] 0 QUEUETIMEOUT.

Definition finditem (id : Z) (q : nsqueue) : option nstxqueue := List.find (λ x, q_id x =? id) (qhead q).

(** [name[257]] *)
Definition NAMELEN : Z := 257.
Definition queueitem (now id : Z) (name : list Z) (peer : option P) (q : nsqueue) : option nsqueue :=
  match finditem id q with
  | Some _ => Some q
  | None =>
    if NAMELEN <=? Z.of_nat (length name) then None
    else Some (NsQueue (qhead q ++ [NstxQueue id (now + qtimeout q) name peer]) (qlen q + 1) (qtimeout q))
  end.
Definition queueid (now id : Z) (q : nsqueue) : option nsqueue := queueitem now id [] None q.

(** The first item with [id] behind the head. *)
Fixpoint take_out (id : Z) (l : list nstxqueue) : option nstxqueue * list nstxqueue :=
  match l with
  | [] => (None, [])
  | x :: l' => if q_id x =? id then (Some x, l') else let '(r, l') := take_out id l' in (r, x :: l')
  end.
Definition dequeueitem (id : Z) (q : nsqueue) : option nstxqueue * nsqueue :=
  match qhead q with
  | [] => (None, q)
  | x :: l =>
    if (id <? 0) || (q_id x =? id) then (Some x, NsQueue l (qlen q - 1) (qtimeout q))
    else match take_out id l with
         | (Some y, l') => (Some y, NsQueue (x :: l') (qlen q - 1) (qtimeout q))
         | (None, _) => (None, q)
         end
  end.

(** The items given to [timeoutfn], in order, and the ones that stay. *)
Fixpoint timed_out (now : Z) (l : list nstxqueue) : list nstxqueue * list nstxqueue :=
  match l with
  | [] => ([], [])
  | x :: l' => if q_timeout x <=? now then let '(a, b) := timed_out now l' in (x :: a, b) else ([], l)
  end.
Definition timeoutqueue (now : Z) (q : nsqueue) : list nstxqueue * nsqueue :=
  let '(a, b) := timed_out now (qhead q) in
  (a, NsQueue b (qlen q - Z.of_nat (length a)) (qtimeout q)).

Definition queuelen (q : nsqueue) : Z := qlen q.
Definition qsettimeout (t : Z) (q : nsqueue) : nsqueue := NsQueue (qhead q) (qlen q) t.

(** ** The ends *)

Inductive ns_out := ToVde (data : list Z) | ToNs (data : list Z) (peer : option P).
(** [struct nstxmsg]: the receive buffer and the length. *)
Inductive nsmsg := FromNs (data : list Z) (len : Z) (peer : P) | FromTun (data : list Z).

Context (junk : Z → Z) (suffix : option (list Z)) (suffixlen : Z).

(** [nstx_handlepacket] on [len] bytes of a block, with what it hands over. *)
Definition use_packet (now : Z) (buf : list Z) (len : Z) (l : list nstx_item) : option (list nstx_item * list ns_out) :=
  if len <? 4 then Some (l, [])
  else if Z.of_nat (length buf) <? len then None
  else
    let '(r, l) := nstx_handlepacket now (take (Z.to_nat len) buf) l in
    Some (l, match r with Some d => [ToVde d] | None => [] end).

(** *** The server *)

Record ns_server := NsServer { sv_send : list senditem; sv_sid : Z; sv_queue : nsqueue; sv_items : list nstx_item }.

Definition do_timeout (x : nstxqueue) : option ns_out :=
  let p := dns_settype (dns_setid dns_alloc (q_id x)) DNS_RESPONSE in
  let '(p, link) := dns_addquery p (q_name x) in
  let '(p, _) := dns_addanswer p [180; 0; 0; 0] link in
  buf ← dns_constructpacket p; Some (ToNs buf (q_peer x)).

(** A message from the name server: the query is queued and its data used. *)
Definition receive_query (now : Z) (data : list Z) (len : Z) (peer : P) (s : ns_server) : option (ns_server * list ns_out) :=
  pkt ← dns_extractpkt data len;
  match pkt with
  | None => Some (s, [])
  | Some pkt =>
    match (dns_getquerydata pkt).1 with
    | None => Some (s, [])
    | Some name =>
      name ← cstr name;
      q ← queueitem now (d_id pkt) name (Some peer) (sv_queue s);
      data ← dns_fqdn2data suffix name;
      match data with
      | None => Some (NsServer (sv_send s) (sv_sid s) q (sv_items s), [])
      | Some data =>
        let '(buf, len) := nstx_decode junk data in
        '(items, out) ← use_packet now buf len (sv_items s);
        Some (NsServer (sv_send s) (sv_sid s) q items, out)
      end
    end
  end.

(** The answer to a pending query, with a fragment of the first item. *)
Definition make_answer (x : nstxqueue) (l : list senditem) : option (list Z * list senditem) :=
  let p := dns_settype (dns_setid dns_alloc (q_id x)) DNS_RESPONSE in
  let '(p, link) := dns_addquery p (q_name x) in
  let len := dns_getfreespace suffixlen p DNS_RESPONSE in
  if len <? 4 then None
  else
    '(buf, l) ← dequeue_senditem len l;
    let '(p, _) := dns_addanswer p buf link in
    pkt ← dns_constructpacket p; Some (pkt, l).

Fixpoint answer_loop (fuel : nat) (q : nsqueue) (l : list senditem) (out : list ns_out) :
    option (nsqueue * list senditem * list ns_out) :=
  if queuelen q =? 0 then Some (q, l, out)
  else match l, fuel with
       | [], _ => Some (q, l, out)
       | _, O => None
       | _, S fuel =>
         let '(x, q) := dequeueitem (-1) q in
         x ← x;
         '(pkt, l) ← make_answer x l;
         answer_loop fuel q l (out ++ [ToNs pkt (q_peer x)])
       end.

Definition nstx_getpacket (now : Z) (msg : option nsmsg) (s : ns_server) : option (ns_server * list ns_out) :=
  '(s, out) ← match msg with
              | None => Some (s, [])
              | Some (FromNs data len peer) => receive_query now data len peer s
              | Some (FromTun data) =>
                let '(l, id) := queue_senditem data (sv_send s, sv_sid s) in
                Some (NsServer l id (sv_queue s) (sv_items s), [])
              end;
  '(q, l, out) ← answer_loop (length (qhead (sv_queue s))) (sv_queue s) (sv_send s) out;
  let '(late, q) := timeoutqueue now q in
  outs ← mapM do_timeout late;
  Some (NsServer l (sv_sid s) q (sv_items s), out ++ outs).

(** *** The client *)

Record ns_client := NsClient { cl_id : Z; cl_nsid : Z; cl_queue : nsqueue; cl_items : list nstx_item }.

Fixpoint reply_loop (fuel : nat) (now : Z) (p : dnspkt) (l : list nstx_item) (out : list ns_out) :
    option (list nstx_item * list ns_out) :=
  match fuel with
  | O => None
  | S fuel =>
    let '(r, p) := dns_getanswerdata p in
    match r with
    | None => Some (l, out)
    | Some (data, datalen) =>
      text ← txt2data data datalen;
      '(l, o) ← match text with
                | None => Some (l, [])
                | Some text => use_packet now text (Z.of_nat (length text)) l
                end;
      reply_loop fuel now p l (out ++ o)
    end
  end.
Definition nstxc_handle_reply (now : Z) (reply : list Z) (len : Z) (c : ns_client) : option (ns_client * list ns_out) :=
  pkt ← dns_extractpkt reply len;
  match pkt with
  | None => Some (c, [])
  | Some pkt =>
    '(l, out) ← reply_loop (S (length (d_answer pkt))) now pkt (cl_items c) [];
    Some (NsClient (cl_id c) (cl_nsid c) (dequeueitem (d_id pkt) (cl_queue c)).2 l, out)
  end.

(** The query for a fragment; [after] is the memory behind the block. *)
Definition make_query (nsid : Z) (frag after : list Z) : option (list Z) :=
  letters ← nstx_encode (frag ++ after) (Z.of_nat (length frag));
  fqdn ← dns_data2fqdn suffix letters;
  dns_constructpacket (dns_addquery (dns_setid (dns_settype dns_alloc DNS_QUERY) nsid) fqdn).1.

Fixpoint send_queries (now : Z) (after : list Z) (frags : list (list Z)) (nsid : Z) (q : nsqueue) :
    option (Z * nsqueue * list ns_out) :=
  match frags with
  | [] => Some (nsid, q, [])
  | f :: frags =>
    pkt ← make_query nsid f after;
    q ← queueid now (u16 nsid) q;
    '(nsid, q, out) ← send_queries now after frags (i32 (nsid + 1)) q;
    Some (nsid, q, ToNs pkt None :: out)
  end.
(** [chan] is the value of a field that is never set; the program exits when a query has
    no room, which is [None]. *)
Definition client_send (now chan : Z) (after data : list Z) (c : ns_client) : option (ns_client * list ns_out) :=
  let id := if cl_id c <? 0 then now else cl_id c in
  let l := dns_getfreespace suffixlen (dns_setid (dns_settype dns_alloc DNS_QUERY) (cl_nsid c)) DNS_QUERY in
  if l <? 4 then None
  else
    frags ← nstxc_send_packet l chan id data;
    '(nsid, q, out) ← send_queries now after frags (cl_nsid c) (cl_queue c);
    Some (NsClient (id + 1) nsid q (cl_items c), out).
End queue.
Arguments nstxqueue P : clear implicits.
Arguments nsqueue P : clear implicits.
Arguments ns_out P : clear implicits.
Arguments nsmsg P : clear implicits.
Arguments ns_server P : clear implicits.
Arguments ns_client P : clear implicits.

(** ** Cutting into labels *)

(** All but the last of [ls] have exactly [n] bytes. *)
Definition full_but_last (n : nat) (ls : list (list Z)) : Prop :=
  ∀ i l, ls !! i = Some l → (S i < length ls)%nat → length l = n.

Lemma cstringify_labels clen : 1 ≤ clen ≤ 255 → ∀ fuel s, (length s < fuel)%nat →
  ∃ ls, cstringify_loop fuel s clen = wire ls ++ [0] ∧ concat ls = s ∧
    Forall (λ l, (1 ≤ length l)%nat ∧ Z.of_nat (length l) ≤ clen) ls ∧ full_but_last (Z.to_nat clen) ls.
Proof.
  intros Hc. induction fuel as [|fuel IH]; intros s Hs; [lia|]. cbn [cstringify_loop].
  destruct (Z.leb_spec (Z.of_nat (length s)) 0) as [H0|H0].
  - destruct s; [|simpl in H0; lia]. exists []. split_and!; [done | done | constructor | by intros].
  - set (llen := if clen <? Z.of_nat (length s) then clen else Z.of_nat (length s)).
    assert (1 ≤ llen ≤ clen ∧ llen ≤ Z.of_nat (length s)) as [Hl Hl'] by (unfold llen; destruct (Z.ltb_spec clen (Z.of_nat (length s))); lia).
    assert (length (take (Z.to_nat llen) s) = Z.to_nat llen) as El by (rewrite length_take; lia).
    destruct (IH (drop (Z.to_nat llen) s)) as (ls & E & Hcat & Hall & Hfull); [rewrite length_drop; lia|].
    exists (take (Z.to_nat llen) s :: ls). split_and!.
    + rewrite E, wire_cons, El, u8_small, Z2Nat.id by lia. cbn [app]. by rewrite <- app_assoc.
    + cbn [concat]. by rewrite Hcat, take_drop.
    + constructor; [rewrite El; lia | done].
    + intros [|i] l Hi Hlt; cbn [length] in Hlt; [|apply (Hfull i); [done | lia]]. injection Hi as <-. rewrite El.
      unfold llen in *. destruct (Z.ltb_spec clen (Z.of_nat (length s))); [done|].
      exfalso. rewrite drop_ge in Hcat by lia. destruct ls as [|l ls]; [simpl in Hlt; lia|].
      apply Forall_cons in Hall as [Hl1 _]. destruct l; [simpl in Hl1; lia | done].
Qed.

Lemma data2lbl_labels s : Forall nz s →
  ∃ ls, data2lbl s = wire ls ++ [0] ∧ concat ls = s ∧ Forall label_ok ls ∧ full_but_last 63 ls.
Proof.
  intros Hs. destruct (cstringify_labels 63 ltac:(lia) (S (length s)) s) as (ls & E & Hc & Hall & Hf); [lia|].
  exists ls. split_and!; [done | done | | done]. rewrite <- Hc in Hs. rewrite Forall_concat in Hs.
  rewrite Forall_forall in *. intros l Hl. split; [specialize (Hall l Hl); lia | by apply Hs].
Qed.

(** The number of labels. *)
Lemma labels_count n ls : (0 < n)%nat → full_but_last n ls → Forall (λ l, (1 ≤ length l)%nat) ls →
  (length ls * n < length (concat ls) + n)%nat ∨ ls = [].
Proof.
  intros Hn Hf Hall. induction ls as [|l ls IH]; [by right|]. left. apply Forall_cons in Hall as [Hl Hall].
  destruct IH as [IH| ->]; [intros i x Hi Hlt; apply (Hf (S i)); [done | simpl; lia] | done | | cbn [concat length]; rewrite length_app; simpl; lia].
  cbn [concat length]. rewrite length_app.
  assert (length l = n ∨ ls = []) as [E| ->]; [|nia|simpl in *; lia].
  destruct ls as [|l' ls]; [by right|]. left. apply (Hf 0%nat); [done | simpl; lia].
Qed.

Lemma wire_size ls : length (wire ls) = (length ls + length (concat ls))%nat.
Proof. induction ls as [|l ls IH]; [done|]. rewrite wire_cons. cbn [length concat]. rewrite !length_app. lia. Qed.

(** ** Text records *)

Lemma txt2data_wire ls : ∀ fuel pre d,
  Forall (λ l, (1 ≤ length l)%nat ∧ Z.of_nat (length l) ≤ 255) ls → (length ls < fuel)%nat →
  txt2data_loop fuel (pre ++ wire ls ++ [0]) (Z.of_nat (length (pre ++ wire ls ++ [0]))) (Z.of_nat (length pre)) d
    = Some (Some (d ++ concat ls)).
Proof.
  induction ls as [|l ls IH]; intros [|fuel] pre d Hok Hf; try (simpl in Hf; lia).
  - cbn [wire fmap list_fmap concat app txt2data_loop]. rewrite zget_here. cbn [mbind option_bind].
    rewrite length_app. cbn [length]. match goal with |- context [?a <? 0] => destruct (Z.ltb_spec a 0) end; [lia|].
    unfold slice. rewrite Z.eqb_refl. cbn [Z.to_nat take]. done.
  - apply Forall_cons in Hok as [[Hl Hl'] Hok]. rewrite wire_cons in *. cbn [app txt2data_loop]. rewrite zget_here. cbn [mbind option_bind].
    set (pre' := pre ++ Z.of_nat (length l) :: l).
    assert (pre ++ Z.of_nat (length l) :: (l ++ wire ls) ++ [0] = pre' ++ wire ls ++ [0]) as Em
      by (unfold pre'; by rewrite <- !app_assoc).
    assert (length pre' = length pre + 1 + length l)%nat as El by (unfold pre'; rewrite length_app; cbn [length]; lia).
    rewrite Em, length_app, El. match goal with |- context [?a <? ?b] => destruct (Z.ltb_spec a b) end; [lia|].
    destruct (Z.eqb_spec (Z.of_nat (length l)) 0); [lia|].
    replace (slice (pre' ++ wire ls ++ [0]) (Z.of_nat (length pre) + 1) (Z.of_nat (length l))) with l.
    2: { rewrite <- Em. symmetry. change (pre ++ Z.of_nat (length l) :: (l ++ wire ls) ++ [0]) with (pre ++ [Z.of_nat (length l)] ++ (l ++ wire ls) ++ [0]).
         rewrite <- (app_assoc l), (app_assoc pre). apply slice_mid; [rewrite length_app; cbn [length]; lia | done]. }
    replace (Z.of_nat (length pre) + 1 + Z.of_nat (length l)) with (Z.of_nat (length pre')) by lia.
    rewrite <- El, <- length_app, IH by (done || (cbn in Hf; lia)). cbn [concat]. by rewrite app_assoc.
Qed.

Lemma txt_roundtrip d : txt2data (data2txt d) (Z.of_nat (length (data2txt d))) = Some (Some d).
Proof.
  destruct (cstringify_labels 255 ltac:(lia) (S (length d)) d) as (ls & E & Hc & Hall & _); [lia|].
  unfold txt2data, data2txt, cstringify. rewrite E.
  rewrite (txt2data_wire ls _ [] []); [by rewrite Hc | done |]. pose proof (wire_length ls). rewrite length_app. lia.
Qed.

(** ** Names with data *)

Lemma lbl2data_wire ls : ∀ fuel pre b r d, Forall label_ok ls → (length ls < fuel)%nat →
  0 < b →
  lbl2data_loop fuel (pre ++ wire ls ++ b :: r) (Z.of_nat (length (pre ++ wire ls))) (Z.of_nat (length pre)) d
    = Some (d ++ concat ls).
Proof.
  induction ls as [|l ls IH]; intros [|fuel] pre b r d Hok Hf Hb; try (simpl in Hf; lia).
  - cbn [wire fmap list_fmap concat app lbl2data_loop]. rewrite zget_here. cbn [mbind option_bind].
    rewrite app_nil_r. match goal with |- context [(63 <? b) || (?a <? b)] => destruct (Z.ltb_spec a b) end; [|lia].
    by rewrite orb_true_r, app_nil_r.
  - apply Forall_cons in Hok as [[Hl Hl'] Hok]. rewrite wire_cons in *. cbn [app lbl2data_loop]. rewrite zget_here. cbn [mbind option_bind].
    set (pre' := pre ++ Z.of_nat (length l) :: l).
    assert (pre ++ Z.of_nat (length l) :: (l ++ wire ls) ++ b :: r = pre' ++ wire ls ++ b :: r) as Em
      by (unfold pre'; by rewrite <- !app_assoc).
    assert (length pre' = length pre + 1 + length l)%nat as El by (unfold pre'; rewrite length_app; cbn [length]; lia).
    assert (pre ++ Z.of_nat (length l) :: l ++ wire ls = pre' ++ wire ls) as -> by (unfold pre'; by rewrite <- app_assoc).
    destruct (Z.ltb_spec 63 (Z.of_nat (length l))); [lia|]. cbn [orb].
    rewrite Em, length_app, El. match goal with |- context [?a <? ?b] => destruct (Z.ltb_spec a b) end; [lia|].
    destruct (Z.eqb_spec (Z.of_nat (length l)) 0); [lia|].
    replace (slice (pre' ++ wire ls ++ b :: r) (Z.of_nat (length pre) + 1) (Z.of_nat (length l))) with l.
    2: { rewrite <- Em. symmetry. change (pre ++ Z.of_nat (length l) :: (l ++ wire ls) ++ b :: r) with (pre ++ [Z.of_nat (length l)] ++ (l ++ wire ls) ++ b :: r).
         rewrite <- (app_assoc l), (app_assoc pre). apply slice_mid; [rewrite length_app; cbn [length]; lia | done]. }
    replace (Z.of_nat (length pre) + 1 + Z.of_nat (length l)) with (Z.of_nat (length pre')) by lia.
    rewrite <- El, <- length_app, IH by (done || (cbn in Hf; lia)). cbn [concat]. by rewrite app_assoc.
Qed.

(** The letters of the encoding are above the lengths of short labels. *)
Definition is_letter (c : Z) : Prop := 45 ≤ c < 123.

Lemma letter_range i c : letter i = Some c → is_letter c.
Proof.
  assert (forallb (λ c, (45 <=? c) && (c <? 123)) nstx_map = true) as H by (vm_compute; reflexivity).
  rewrite forallb_forall in H. intros [_ Hc]%zget_Some. specialize (H c (proj1 (list_elem_of_In _ _) (list_elem_of_lookup_2 _ _ _ Hc))).
  unfold is_letter. lia.
Qed.

Lemma encode_loop_letters k : ∀ mem n w, n ≤ 3 * Z.of_nat k < n + 3 → encode_loop mem n = Some w →
  Forall is_letter w ∧ length w = (4 * k)%nat.
Proof.
  induction k as [|k IH]; intros mem n w Hn E.
  - assert (n ≤ 0) by lia. destruct mem; simpl in E; (destruct (Z.leb_spec n 0); [|lia]); injection E as <-; by split; [constructor|].
  - destruct mem as [|a [|b [|c mem]]]; cbn [encode_loop] in E; destruct (Z.leb_spec n 0); try lia; try done.
    destruct (mapM letter (sextets a b c)) as [v|] eqn:Ev; [|done]. cbn [mbind option_bind] in E.
    destruct (encode_loop mem (n - 3)) as [r|] eqn:Er; [|done]. injection E as <-.
    destruct (IH mem (n - 3) r ltac:(lia) Er) as [H1 H2]. pose proof (Forall2_length _ _ _ (mapM_Some_1 _ _ _ Ev)) as Hl. cbn in Hl.
    split; [|rewrite length_app; lia]. apply Forall_app. split; [|done].
    apply mapM_Some_1 in Ev. apply Forall_forall. intros x [j Hj]%list_elem_of_lookup_1.
    destruct (Forall2_lookup_r _ _ _ _ _ Ev Hj) as (i & _ & Hi). by apply letter_range in Hi.
Qed.

Lemma nstx_encode_letters mem len w : 0 ≤ len → nstx_encode mem len = Some w →
  Forall is_letter w ∧ Z.of_nat (length w) = 1 + 4 * ((len + 2) / 3).
Proof.
  unfold nstx_encode. intros Hlen. destruct (letter _) as [h|] eqn:Eh; [|done]. cbn [mbind option_bind].
  destruct (encode_loop mem len) as [r|] eqn:Er; [|done]. intros [= <-].
  destruct (encode_loop_letters (Z.to_nat ((len + 2) / 3)) mem len r ltac:(dlia) Er) as [H1 H2].
  split; [constructor; [by apply letter_range in Eh | done]|]. cbn [length]. rewrite H2. dlia.
Qed.

Lemma strstr_skip l s b needle : Forall (λ c, c ≠ b) l → head needle = Some b →
  strstr (l ++ s) needle = Z.add (Z.of_nat (length l)) <$> strstr s needle.
Proof.
  intros Hl Hb. induction Hl as [|c l Hc _ IH]; cbn [app length].
  - by destruct (strstr s needle).
  - destruct needle as [|x needle]; [done|]. injection Hb as ->. cbn [strstr length take].
    rewrite bool_decide_eq_false_2 by congruence. rewrite IH. destruct (strstr s _); [|done]. cbn. f_equal. lia.
Qed.

Lemma strstr_here s needle : strstr (needle ++ s) needle = Some 0.
Proof. destruct (needle ++ s) eqn:E; cbn [strstr]; rewrite <- E, take_app_length; by rewrite bool_decide_eq_true_2. Qed.

(** The suffix is first found at the end of the data. *)
Lemma strstr_suffix n1 n2 ns ls :
  (length n1 < 45)%nat → length n1 ≠ length n2 →
  Forall label_ok ls → Forall (Forall is_letter) ls → full_but_last 63 ls →
  let suf := wire (n1 :: n2 :: ns) in strstr (wire ls ++ suf) suf = Some (Z.of_nat (length (wire ls))).
Proof.
  intros H1 H12 Hok Hlet Hf suf. induction ls as [|l ls IH]; [cbn [wire fmap list_fmap concat app]; rewrite <- (app_nil_r suf) at 1; apply strstr_here|].
  apply Forall_cons in Hok as [[Hl Hnz] Hok]. apply Forall_cons in Hlet as [Hlet Hlets].
  rewrite wire_cons. cbn [app].
  assert (head suf = Some (Z.of_nat (length n1))) as Hh by done.
  assert (∀ s, strstr (Z.of_nat (length l) :: s) suf =
    if bool_decide (take (length suf) (Z.of_nat (length l) :: s) = suf) then Some 0 else Z.succ <$> strstr s suf) as Es by done.
  rewrite Es, bool_decide_eq_false_2.
  - rewrite <- app_assoc, (strstr_skip l _ (Z.of_nat (length n1))); [| |done].
    + rewrite IH; [|done|done|intros i x Hi Hlt; apply (Hf (S i)); [done | simpl; lia]].
      cbn. rewrite !length_app. f_equal. lia.
    + eapply Forall_impl; [exact Hlet|]. unfold is_letter. intros c Hc. cbv beta in Hc. lia.
  - intros E. assert (length l = length n1) as El by (unfold suf in E; rewrite wire_cons in E; cbn [length take] in E; injection E; lia).
    destruct ls as [|l' ls]; [|specialize (Hf 0%nat l eq_refl); simpl in Hf; lia].
    change (wire []) with (@nil Z) in E. rewrite app_nil_r in E.
    assert (suf !! S (length n1) = Some (Z.of_nat (length n2))) as Ha.
    { unfold suf. rewrite !wire_cons. cbn [lookup list_lookup]. by apply list_lookup_middle. }
    rewrite <- E in Ha. rewrite lookup_take_lt in Ha.
    2: { unfold suf. rewrite !wire_cons. cbn [length]. rewrite length_app. cbn [length]. lia. }
    cbn [lookup list_lookup] in Ha. unfold suf in Ha. rewrite wire_cons, <- El in Ha.
    pose proof (list_lookup_middle l (n1 ++ wire (n2 :: ns)) (Z.of_nat (length l)) (length l) eq_refl) as Hb.
    assert (Some (Z.of_nat (length l)) = Some (Z.of_nat (length n2))) as [= Hc] by (rewrite <- Hb; exact Ha). lia.
Qed.

(** ** A suffix *)

(** The dots of a domain name. *)
Fixpoint dotted (ls : list (list Z)) : list Z :=
  match ls with
  | [] => []
  | [l] => l
  | l :: ls => l ++ 46 :: dotted ls
  end.
Definition suffix_label (l : list Z) : Prop := label_ok l ∧ 46 ∉ l.

Lemma strchr_app l r c : c ∉ l → strchr (l ++ c :: r) c = Some (length l).
Proof.
  induction l as [|b l IH]; cbn [app strchr length]; intros Hc; [by rewrite Z.eqb_refl|].
  apply not_elem_of_cons in Hc as [Hb Hc]. destruct (Z.eqb_spec b c); [congruence|]. by rewrite IH.
Qed.
Lemma strchr_none l c : c ∉ l → strchr l c = None.
Proof.
  induction l as [|b l IH]; cbn [strchr]; intros Hc; [done|].
  apply not_elem_of_cons in Hc as [Hb Hc]. destruct (Z.eqb_spec b c); [congruence|]. by rewrite IH.
Qed.

Lemma str2lbl_dotted ls : ∀ fuel buf, ls ≠ [] → Forall suffix_label ls → (length (dotted ls) < fuel)%nat →
  str2lbl_loop fuel (dotted ls) buf = Some (Some (buf ++ wire ls ++ [0])).
Proof.
  induction ls as [|l ls IH]; intros [|fuel] buf Hne Hok Hf; try done; [lia|].
  apply Forall_cons in Hok as [[[Hl _] Hdot] Hok]. cbn [str2lbl_loop]. destruct ls as [|l' ls].
  - cbn [dotted]. rewrite strchr_none by done. rewrite u8_small by lia. unfold wire. cbn. rewrite app_nil_r. done.
  - change (dotted (l :: l' :: ls)) with (l ++ 46 :: dotted (l' :: ls)) in *. rewrite length_app in Hf. cbn [length] in Hf.
    rewrite strchr_app by done. destruct (Z.ltb_spec 63 (Z.of_nat (length l))); [lia|].
    destruct (Z.leb_spec (Z.of_nat (length l)) 0); [lia|]. cbn [orb].
    replace (drop (S (length l)) (l ++ 46 :: dotted (l' :: ls))) with (dotted (l' :: ls)).
    2: { replace (S (length l)) with (length l + 1)%nat by lia. rewrite drop_app_add. done. }
    rewrite take_app_length, IH by (done || lia). rewrite (wire_cons l). rewrite <- !app_assoc. cbn [app]. by rewrite <- app_assoc.
Qed.

Lemma dotted_length ls : ls ≠ [] → S (length (dotted ls)) = length (wire ls).
Proof.
  induction ls as [|l ls IH]; [done|]. intros _. destruct ls as [|l' ls].
  - unfold wire. cbn. by rewrite app_nil_r.
  - change (dotted (l :: l' :: ls)) with (l ++ 46 :: dotted (l' :: ls)). rewrite wire_cons. cbn [length]. rewrite !length_app. cbn [length].
    rewrite IH by done. done.
Qed.

Lemma setsuffix_dotted ls : ls ≠ [] → Forall suffix_label ls →
  dns_setsuffix (dotted ls) = Some (Some (wire ls ++ [0]), Z.of_nat (length (wire ls))).
Proof.
  intros Hne Hok. unfold dns_setsuffix, str2lbl. rewrite str2lbl_dotted by (done || lia). cbn [mbind option_bind app].
  rewrite <- dotted_length by done. do 2 f_equal. lia.
Qed.

(** ** Sizes *)

Lemma query_room p s : 0 ≤ s → 0 < dns_getfreespace s p DNS_QUERY →
  dns_getfreespace s p DNS_QUERY ≤ 189 * (254 - s) / 256 - 6 ∧ s < 246.
Proof.
  intros Hs. unfold dns_getfreespace. change (DNS_QUERY =? DNS_RESPONSE) with false. change (DNS_QUERY =? DNS_QUERY) with true. cbv iota zeta.
  destruct (_ <? 0); [lia|]. set (a := Z.quot (189 * (254 - s)) 256 - 6). set (b := 183 - _).
  destruct (Z.ltb_spec b a); destruct (Z.ltb_spec 0 b), (Z.ltb_spec 0 a); intros; try lia.
  all: destruct (Z.lt_ge_cases 254 s); [assert (Z.quot (189 * (254 - s)) 256 ≤ 0) by (apply Z.quot_le_upper_bound || (replace (189 * (254 - s)) with (- (189 * (s - 254))) by lia; rewrite Z.quot_opp_l by lia; pose proof (Z.quot_pos (189 * (s - 254)) 256); lia); lia); lia|].
  all: unfold a in *; rewrite Z.quot_div_nonneg in * by lia; dlia.
Qed.

(** The name of a query with [len] bytes of data and a suffix of [s] bytes. *)
Lemma query_name_size len s w ls : 0 ≤ len ≤ 189 * (254 - s) / 256 - 6 → 0 ≤ s →
  Z.of_nat (length w) = 1 + 4 * ((len + 2) / 3) → concat ls = w → full_but_last 63 ls → Forall label_ok ls →
  Z.of_nat (length (wire ls)) + s ≤ 251.
Proof.
  intros Hl Hs Hw Hc Hf Hok. rewrite wire_size, Hc.
  assert (Forall (λ l, (1 ≤ length l)%nat) ls) as H1 by (eapply Forall_impl; [exact Hok|]; intros l [? _]; lia).
  destruct (labels_count 63 ls ltac:(lia) Hf H1) as [H| ->]; rewrite Hc in * || (subst w; simpl in *); dlia.
Qed.

Lemma use_packet_all {P} now frag rest l : (4 ≤ length frag)%nat →
  @use_packet P now (frag ++ rest) (Z.of_nat (length frag)) l
    = Some ((nstx_handlepacket now frag l).2, ToVde <$> option_list (nstx_handlepacket now frag l).1).
Proof.
  intros Hf. unfold use_packet. destruct (Z.ltb_spec (Z.of_nat (length frag)) 4); [lia|].
  destruct (Z.ltb_spec (Z.of_nat (length (frag ++ rest))) (Z.of_nat (length frag))); [rewrite length_app in *; lia|].
  rewrite Nat2Z.id, take_app_length. by destruct (nstx_handlepacket now frag l) as [[d|] l'].
Qed.

(** ** Upstream: a fragment in a query *)

Section tunnel.
Context (n1 n2 : list Z) (ns : list (list Z)) (junk : Z → Z).
Local Abbreviation sufs := (n1 :: n2 :: ns).
Local Abbreviation suffix := (Some (wire sufs ++ [0])).
Local Abbreviation suffixlen := (Z.of_nat (length (wire sufs))).
Context (Hsuf : Forall label_ok sufs) (H1 : (length n1 < 45)%nat) (H12 : length n1 ≠ length n2).

Lemma is_letter_nz s : Forall is_letter s → Forall nz s.
Proof. intros H. eapply Forall_impl; [exact H|]. unfold is_letter, nz. lia. Qed.

(** A fragment that fits becomes a query of at most 512 bytes, with a name of at
    most 255. *)
Lemma make_query_layout nsid frag after : Forall byteP (frag ++ after) → (2 ≤ length after)%nat →
  Z.of_nat (length frag) ≤ 189 * (254 - suffixlen) / 256 - 6 →
  ∃ w ls, nstx_encode (frag ++ after) (Z.of_nat (length frag)) = Some w ∧ concat ls = w ∧
    Forall label_ok ls ∧ Forall (Forall is_letter) ls ∧ full_but_last 63 ls ∧
    Z.of_nat (length (wire (ls ++ sufs))) ≤ 251 ∧
    pkt_ok (u16 nsid) DNS_QUERY [ls ++ sufs] [] ∧
    make_query suffix nsid frag after = Some (packet_bytes (u16 nsid) DNS_QUERY [ls ++ sufs] []).
Proof.
  intros Hb Ha Hlen.
  destruct (nstx_encode_decode junk frag after Hb Ha) as (w & Ew & _).
  destruct (nstx_encode_letters (frag ++ after) (Z.of_nat (length frag)) w ltac:(lia) Ew) as [Hlet Hw].
  destruct (data2lbl_labels w (is_letter_nz _ Hlet)) as (ls & El & Hc & Hok & Hf).
  assert (Forall (Forall is_letter) ls) as Hls by (rewrite <- Forall_concat; by rewrite Hc).
  pose proof (query_name_size (Z.of_nat (length frag)) suffixlen w ls ltac:(lia) ltac:(lia) Hw Hc Hf Hok) as Hsize.
  exists w, ls. split; [done|]. split; [done|]. split; [done|]. split; [done|]. split; [done|].
  assert (Z.of_nat (length (wire (ls ++ sufs))) ≤ 251) as Hn by (rewrite wire_app, length_app; lia).
  split; [done|].
  assert (pkt_ok (u16 nsid) DNS_QUERY [ls ++ sufs] []) as Hpkt.
  { split; try done; try (cbn; lia).
    - apply Z.mod_pos_bound. lia.
    - repeat constructor; [by destruct ls | by apply Forall_app].
    - unfold packet_bytes. rewrite queries_bytes_cons, !length_app. unfold query_bytes. rewrite length_app. cbn [length].
      change (length (queries_bytes [])) with 0%nat. change (length (answers_bytes _ [])) with 0%nat.
      change (length (header_bytes _ _ _ _)) with 12%nat. lia. }
  split; [done|]. unfold make_query. rewrite Ew. cbn [mbind option_bind]. unfold dns_data2fqdn. rewrite El.
  rewrite cstr_wire by done. cbn [mbind option_bind]. rewrite (cstr_wire sufs []) by done. cbn [mbind option_bind].
  rewrite <- construct_layout by done. by rewrite <- wire_app.
Qed.

Lemma fqdn2data_labels ls : Forall label_ok ls → ls ≠ [] → Forall (Forall is_letter) ls → full_but_last 63 ls →
  dns_fqdn2data suffix (wire (ls ++ sufs)) = Some (Some (concat ls)).
Proof.
  intros Hok Hne Hlet Hf. unfold dns_fqdn2data. cbn [mbind option_bind]. rewrite (cstr_wire sufs []) by done. cbn [mbind option_bind].
  rewrite wire_app, (strstr_suffix n1 n2 ns ls) by done.
  destruct (Z.eqb_spec (Z.of_nat (length (wire ls))) 0) as [E|E].
  { destruct ls as [|l ls]; [done|]. rewrite wire_cons in E. cbn [length] in E. lia. }
  cbn [negb]. unfold lbl2data. rewrite (wire_cons n1). rewrite <- app_assoc. cbn [app].
  pose proof (lbl2data_wire ls (S (length (wire ls ++ Z.of_nat (length n1) :: (n1 ++ wire (n2 :: ns)) ++ [0]))) [] (Z.of_nat (length n1))
    ((n1 ++ wire (n2 :: ns)) ++ [0]) [] Hok) as El. cbn [app length] in El.
  pose proof (wire_length ls). apply Forall_cons in Hsuf as [[Hn1 _] _].
  change (Z.of_nat 0) with 0 in El. rewrite El; [| rewrite length_app; lia | lia]. cbn [mbind option_bind].
  rewrite cstr_app; [done|]. apply nz_ne, is_letter_nz, Forall_concat, Hlet.
Qed.

(** The server hands exactly the fragment of a query to the reassembly, and
    queues the query. *)
Lemma receive_own_query {P} nsid frag after : Forall byteP (frag ++ after) → (2 ≤ length after)%nat →
  (4 ≤ length frag)%nat → Z.of_nat (length frag) ≤ 189 * (254 - suffixlen) / 256 - 6 →
  ∃ pkt name, make_query suffix nsid frag after = Some pkt ∧ (length pkt ≤ 512)%nat ∧ (length name < 256)%nat ∧
    ∀ now peer (s : ns_server P) rest, ∃ q,
      queueitem now (u16 nsid) name (Some peer) (sv_queue s) = Some q ∧
      receive_query junk suffix now (pkt ++ rest) (Z.of_nat (length pkt)) peer s
        = Some (NsServer (sv_send s) (sv_sid s) q (nstx_handlepacket now frag (sv_items s)).2,
                ToVde <$> option_list (nstx_handlepacket now frag (sv_items s)).1).
Proof.
  intros Hb Ha H4 Hlen.
  destruct (make_query_layout nsid frag after Hb Ha Hlen) as (w & ls & Ew & Hc & Hok & Hlet & Hf & Hn & Hpkt & Em).
  destruct (nstx_encode_decode junk frag after Hb Ha) as (w' & Ew' & Hr & Hd). rewrite Ew in Ew'. injection Ew' as <-.
  exists (packet_bytes (u16 nsid) DNS_QUERY [ls ++ sufs] []), (wire (ls ++ sufs)).
  split; [done|]. split.
  { unfold packet_bytes. rewrite queries_bytes_cons, !length_app. unfold query_bytes. rewrite length_app. cbn [length].
    change (length (queries_bytes [])) with 0%nat. change (length (answers_bytes _ [])) with 0%nat.
    change (length (header_bytes _ _ _ _)) with 12%nat. lia. }
  split; [lia|]. intros now peer s rest.
  assert (∃ q, queueitem now (u16 nsid) (wire (ls ++ sufs)) (Some peer) (sv_queue s) = Some q) as [q Eq].
  { unfold queueitem. destruct (finditem _ _); [eauto|]. unfold NAMELEN. destruct (Z.leb_spec 257 (Z.of_nat (length (wire (ls ++ sufs))))); [lia | eauto]. }
  exists q. split; [done|]. unfold receive_query. rewrite extract_layout by done. cbn [mbind option_bind].
  cbn [text_pkt dns_getquerydata d_query fmap list_fmap fst query_rr rdata d_id].
  rewrite cstr_wire by (by apply Forall_app). cbn [mbind option_bind]. rewrite Eq. cbn [mbind option_bind].
  rewrite fqdn2data_labels; [| done | | done | done].
  2: { intros ->. destruct (nstx_encode_letters _ _ _ (Zle_0_nat _) Ew) as [_ Hw]. subst w. cbn in Hw. dlia. }
  cbn [mbind option_bind]. rewrite Hc. destruct (nstx_decode junk w) as [buf len]. cbn [fst snd] in *. subst len.
  rewrite <- (take_drop (length frag) buf), Hd.
  rewrite use_packet_all by done. done.
Qed.
End tunnel.

(** ** The fragments of the client *)

Lemma put_hdr_id m q ch id fl : put_hdr (NstxHdr m q ch id fl) = put_hdr (NstxHdr m q ch (Z.land id 4095) fl).
Proof. unfold put_hdr. cbn [hid hflags hseq hchan magic]. by rewrite <- Z.land_assoc. Qed.

Lemma client_fragments l chan id : 4 < l → ∀ fuel sq data, (length data < fuel)%nat →
  data = [] ∨ Z.of_nat (length data) mod (l - 4) ≠ 0 →
  ∃ cs frags, nstxc_fragments fuel l chan id sq data = Some frags ∧ concat cs = data ∧ cs ≠ [] ∧ length cs = length frags ∧
    Z.of_nat (length cs) = Z.of_nat (length data) / (l - 4) + 1 ∧ Forall (λ c, Z.of_nat (length c) + 4 ≤ l) cs ∧
    ∀ k c, cs !! k = Some c →
      frags !! k = Some (put_hdr (NstxHdr NSTX_MAGIC (sq + Z.of_nat k) chan id (if bool_decide (S k = length cs) then NSTX_LF else 0)) ++ c).
Proof.
  intros Hl. induction fuel as [|fuel IH]; intros sq data Hfuel Hm; [lia|]. cbn [nstxc_fragments].
  destruct (Z.ltb_spec (Z.of_nat (length data)) (l - 4)) as [Hlt|Hge].
  - rewrite Nat2Z.id, drop_all, bool_decide_eq_true_2 by done.
    assert (slice data 0 (Z.of_nat (length data)) = data) as -> by (unfold slice; rewrite Nat2Z.id, drop_0, take_ge; done || lia).
    exists [data], [put_hdr (NstxHdr NSTX_MAGIC sq chan id NSTX_LF) ++ data].
    split_and!; [done | cbn; by rewrite app_nil_r | done | done | cbn [length]; rewrite Z.div_small by lia; lia | repeat constructor; lia |].
    intros [|k] c Hk; [|done]. injection Hk as <-. replace (sq + Z.of_nat 0) with sq by lia. done.
  - assert (length (drop (Z.to_nat (l - 4)) data) = (length data - Z.to_nat (l - 4))%nat) as Hd by apply length_drop.
    assert (Z.of_nat (length data) mod (l - 4) ≠ 0) as Hmod by (destruct Hm as [-> | Hm]; [simpl in Hge; lia | done]).
    assert (Z.of_nat (length data) = (Z.of_nat (length data) - (l - 4)) + 1 * (l - 4)) as Es by lia.
    assert (Z.of_nat (length data) ≠ l - 4) by (intros E; rewrite E, Z.mod_same in Hmod; lia).
    rewrite bool_decide_eq_false_2 by (intros E; rewrite E in Hd; simpl in Hd; lia).
    destruct (IH (sq + 1) (drop (Z.to_nat (l - 4)) data)) as (cs & frags & E & Hc & Hne & Hlen & Hn & Hsz & Hk); [lia | right |].
    { rewrite Hd, Nat2Z.inj_sub, Z2Nat.id by lia. rewrite Es, Z.mod_add in Hmod by lia. done. }
    rewrite E. cbn [mbind option_bind]. eexists (slice data 0 (l - 4) :: cs), _. split; [done|].
    assert (slice data 0 (l - 4) = take (Z.to_nat (l - 4)) data) as Et by (unfold slice; by rewrite drop_0). rewrite Et.
    split_and!; [cbn [concat]; by rewrite Hc, take_drop | done | by cbn [length]; rewrite Hlen | | constructor; [rewrite length_take; lia | done] |].
    + cbn [length]. rewrite Nat2Z.inj_succ, Hn, Hd, Nat2Z.inj_sub, Z2Nat.id by lia. rewrite Es at 2. rewrite Z.div_add by lia. lia.
    + intros [|k] c Hk'.
      * injection Hk' as <-. rewrite bool_decide_eq_false_2 by (destruct cs; cbn [length]; [done | lia]). by replace (sq + Z.of_nat 0) with sq by lia.
      * change (cs !! k = Some c) in Hk'. transitivity (frags !! k); [done|]. rewrite (Hk k c Hk').
        replace (sq + 1 + Z.of_nat k) with (sq + Z.of_nat (S k)) by lia.
        rewrite (bool_decide_ext (S (S k) = length (take (Z.to_nat (l - 4)) data :: cs)) (S k = length cs)) by (cbn [length]; lia). done.
Qed.

Lemma put_hdr_bytes h : Forall byteP (put_hdr h).
Proof.
  assert (∀ x, 0 ≤ Z.land x 15 < 16) as H.
  { intros x. change 15 with (Z.ones 4). rewrite Z.land_ones by lia. apply Z.mod_pos_bound. lia. }
  unfold put_hdr, byteP. pose proof (H (hseq h)). pose proof (H (hchan h)).
  repeat (constructor; [first [apply u8_range | lia]|]). constructor.
Qed.

(** The fragments of the client in the terms of the reassembly. *)
Lemma client_frag_of cs frags chan id : 0 ≤ chan < 16 → (length cs ≤ 16)%nat → length cs = length frags →
  (∀ k c, cs !! k = Some c →
      frags !! k = Some (put_hdr (NstxHdr NSTX_MAGIC (0 + Z.of_nat k) chan id (if bool_decide (S k = length cs) then NSTX_LF else 0)) ++ c)) →
  ∀ k q, frags !! k = Some q → frag_of (Z.land id 4095) cs k q.
Proof.
  intros Hch Hn Hl Hk k q Hq. pose proof (lookup_lt_Some _ _ _ Hq) as Hlt.
  destruct (lookup_lt_is_Some_2 cs k) as [c Hc]; [lia|]. rewrite (Hk k c Hc) in Hq. apply (inj Some) in Hq. rewrite <- Hq. clear Hq.
  assert (0 ≤ Z.land id 4095 < 4096) as Hid by (change 4095 with (Z.ones 12); rewrite Z.land_ones by lia; apply Z.mod_pos_bound; lia).
  unfold frag_of. rewrite put_hdr_id, get_put_hdr by (lia || (unfold NSTX_LF; case_bool_decide; lia)). cbn [hid hseq hflags].
  split_and!; [cbn; lia | done | lia | done |]. by case_bool_decide.
Qed.

(** ** Upstream delivery *)

(** A query that arrives: the time, the peer, the bytes, and the rest of the
    receive buffer. *)
Definition arrival (P : Type) : Type := Z * P * list Z * list Z.
Definition at_ {P} (a : arrival P) : Z := a.1.1.1.
Definition bytes_of {P} (a : arrival P) : list Z := a.1.2.

(** The server on a sequence of queries. *)
Fixpoint serve {P} (junk : Z → Z) (suffix : option (list Z)) (l : list (arrival P)) (s : ns_server P) : option (ns_server P * list (ns_out P)) :=
  match l with
  | [] => Some (s, [])
  | (now, peer, pkt, rest) :: l =>
    '(s, out) ← receive_query junk suffix now (pkt ++ rest) (Z.of_nat (length pkt)) peer s;
    '(s, out') ← serve junk suffix l s;
    Some (s, out ++ out')
  end.

(** [pkts] are queries whose fragments are [frags]: the server hands to the
    reassembly what they carry. *)
Definition carries (junk : Z → Z) (suffix : option (list Z)) {P} (pkt frag : list Z) : Prop :=
  ∀ now peer (s : ns_server P) rest, ∃ q,
    receive_query junk suffix now (pkt ++ rest) (Z.of_nat (length pkt)) peer s
      = Some (NsServer (sv_send s) (sv_sid s) q (nstx_handlepacket now frag (sv_items s)).2,
              ToVde <$> option_list (nstx_handlepacket now frag (sv_items s)).1).

Lemma serve_carries {P} junk suffix (arr : list (arrival P)) frags : ∀ s,
  Forall2 (λ a f, carries junk suffix (P := P) (bytes_of a) f) arr frags →
  ∃ s', serve junk suffix arr s = Some (s', ToVde <$> handed (zip (at_ <$> arr) frags) (sv_items s)).
Proof.
  intros s H. revert s. induction H as [|[[[now peer] pkt] rest] f arr frags Hc _ IH]; intros s; [by exists s|].
  destruct (Hc now peer s rest) as (q & E). cbn [serve]. unfold bytes_of in E. cbn [fst snd] in E. rewrite E. cbn [mbind option_bind].
  destruct (IH (NsServer (sv_send s) (sv_sid s) q (nstx_handlepacket now f (sv_items s)).2)) as [s' E']. rewrite E'. cbn [mbind option_bind].
  exists s'. cbn [fmap list_fmap zip zip_with handed at_ fst snd]. destruct (nstx_handlepacket now f (sv_items s)) as [r l]. cbn [snd fst].
  cbn [sv_items]. by rewrite fmap_app.
Qed.

Lemma send_queries_carry {P} junk suffix now after frags (R : list Z → list Z → Prop) : ∀ nsid (q : nsqueue P),
  Forall (λ f, ∀ nsid, ∃ pkt, make_query suffix nsid f after = Some pkt ∧ R pkt f ∧ carries junk suffix (P := P) pkt f) frags →
  ∃ nsid' q' pkts, send_queries suffix now after frags nsid q = Some (nsid', q', (λ p, ToNs p None) <$> pkts) ∧
    Forall2 (λ p f, R p f ∧ carries junk suffix (P := P) p f) pkts frags.
Proof.
  induction frags as [|f frags IH]; intros nsid q H; [by exists nsid, q, []|]. apply Forall_cons in H as [Hf H].
  destruct (Hf nsid) as (pkt & E & HR & Hc). cbn [send_queries]. rewrite E. cbn [mbind option_bind].
  assert (∃ q1, queueid now (u16 nsid) q = Some q1) as [q1 ->] by (unfold queueid, queueitem; destruct (finditem _ _); eauto).
  cbn [mbind option_bind]. destruct (IH (i32 (nsid + 1)) q1 H) as (nsid' & q' & pkts & E' & H2). rewrite E'. cbn [mbind option_bind].
  exists nsid', q', (pkt :: pkts). split; [done | by constructor].
Qed.

Lemma Forall2_permutation {A B} (R : A → B → Prop) l k l' : Forall2 R l k → l' ≡ₚ l → ∃ k', k' ≡ₚ k ∧ Forall2 R l' k'.
Proof.
  intros H Hp. revert k H. induction Hp as [|x l' l Hp IH|x y l|l1 l2 l3 Hp1 IH1 Hp2 IH2]; intros k H.
  - inversion H; subst. by exists [].
  - inversion H as [|? b ? k0 Hxb Hk]; subst. destruct (IH k0 Hk) as (k' & Hk' & H'). exists (b :: k'). split; [by rewrite Hk' | by constructor].
  - inversion H as [|? a ? k0 Ha Hk]; subst. inversion Hk as [|? b ? k1 Hb Hk1]; subst.
    exists (b :: a :: k1). split; [constructor | by repeat constructor].
  - destruct (IH2 k H) as (k2 & P2 & F2). destruct (IH1 k2 F2) as (k1 & P1 & F1). exists k1. split; [by rewrite P1 | done].
Qed.

(** A fragment with its header fits in a query and is carried by it. *)
Lemma fragment_query {P} n1 n2 ns junk h ch after :
  Forall label_ok (n1 :: n2 :: ns) → (length n1 < 45)%nat → length n1 ≠ length n2 →
  Forall byteP ch → Forall byteP after → (2 ≤ length after)%nat →
  Z.of_nat (length ch) + 4 ≤ 189 * (254 - Z.of_nat (length (wire (n1 :: n2 :: ns)))) / 256 - 6 →
  ∀ nsid, ∃ pkt, make_query (Some (wire (n1 :: n2 :: ns) ++ [0])) nsid (put_hdr h ++ ch) after = Some pkt ∧ (length pkt ≤ 512)%nat ∧
    carries junk (Some (wire (n1 :: n2 :: ns) ++ [0])) (P := P) pkt (put_hdr h ++ ch).
Proof.
  intros Hok H1 H12 Hbc Hba Ha Hlen nsid. pose proof (put_hdr_bytes h) as Hh.
  assert (length (put_hdr h ++ ch) = 4 + length ch)%nat as El by (by rewrite length_app).
  destruct (receive_own_query (P := P) n1 n2 ns junk Hok H1 H12 nsid (put_hdr h ++ ch) after) as (pkt & name & E & Hsize & _ & Hr);
    [by rewrite !Forall_app | done | lia | lia |].
  exists pkt. split; [exact E|]. split; [done|].
  intros now peer s rest. destruct (Hr now peer s rest) as (q & _ & E'). eauto.
Qed.

(** C5: Upstream delivery, where the tunnel works. The domain has two labels or more
    (each of 1 to 63 bytes without dots), the first two differ in length, the first
    is below 45 bytes, and a query has room for data. A packet of the client whose
    length is not a multiple of that room, which needs at most 16 fragments and
    whose identifier is not 0 modulo 4096, is sent as queries of at most 512 bytes;
    and a server that has no unfinished packet with that identifier and receives
    exactly these queries, in any order within 30 seconds, hands over exactly the
    packet, once. *)
Theorem upstream_delivery {P} n1 n2 ns junk now chan after data (c : ns_client P) :
  let sufs := n1 :: n2 :: ns in
  Forall suffix_label sufs → (length n1 < 45)%nat → length n1 ≠ length n2 →
  ∃ suffix suffixlen, dns_setsuffix (dotted sufs) = Some (suffix, suffixlen) ∧
  let room := dns_getfreespace suffixlen dns_alloc DNS_QUERY - 4 in
  let X := Z.land (if cl_id c <? 0 then now else cl_id c) 4095 in
  (0 < room → Forall byteP (data ++ after) → (2 ≤ length after)%nat → 0 ≤ chan < 16 → X ≠ 0 →
   data = [] ∨ Z.of_nat (length data) mod room ≠ 0 → Z.of_nat (length data) / room < 16 →
   ∃ c' pkts, client_send suffix suffixlen now chan after data c = Some (c', (λ p, ToNs p None) <$> pkts) ∧
     Forall (λ p, (length p ≤ 512)%nat) pkts ∧
     ∀ T (arr : list (arrival P)) s, 0 ≤ T → T + 60 < 2 ^ 32 → get_item_by_id (sv_items s) X = None →
       bytes_of <$> arr ≡ₚ pkts → Forall (λ a, T ≤ at_ a ≤ T + NSTX_TIMEOUT) arr →
       ∃ s', serve junk suffix arr s = Some (s', [ToVde data])).
Proof.
  cbv zeta. intros Hsuf H1 H12. exists (Some (wire (n1 :: n2 :: ns) ++ [0])), (Z.of_nat (length (wire (n1 :: n2 :: ns)))).
  split; [by apply setsuffix_dotted|]. set (room := _ - 4). set (X := Z.land _ 4095). intros Hroom Hb Ha Hch HX Hm Hn.
  assert (Forall label_ok (n1 :: n2 :: ns)) as Hok by (eapply Forall_impl; [exact Hsuf|]; by intros l [? _]).
  destruct (query_room dns_alloc (Z.of_nat (length (wire (n1 :: n2 :: ns)))) ltac:(lia)) as [Hq _]; [unfold room in Hroom; lia|].
  set (l := dns_getfreespace (Z.of_nat (length (wire (n1 :: n2 :: ns)))) dns_alloc DNS_QUERY) in *.
  set (id := if cl_id c <? 0 then now else cl_id c) in *.
  destruct (client_fragments l chan id ltac:(lia) (S (length data)) 0 data ltac:(lia) Hm) as (cs & frags & Ef & Hc & Hne & Hlen & Hcount & Hsz & Hk).
  assert (length cs ≤ 16)%nat as H16 by (unfold room in Hn; lia).
  pose proof (client_frag_of cs frags chan id Hch H16 Hlen Hk) as Hfrag.
  apply Forall_app in Hb as [Hbd Hba].
  assert (Forall (λ f, ∀ nsid, ∃ pkt, make_query (Some (wire (n1 :: n2 :: ns) ++ [0])) nsid f after = Some pkt ∧ (length pkt ≤ 512)%nat ∧
    carries junk (Some (wire (n1 :: n2 :: ns) ++ [0])) (P := P) pkt f) frags) as Hmk.
  { apply Forall_lookup. intros k f Hf nsid. pose proof (lookup_lt_Some _ _ _ Hf) as Hlt.
    destruct (lookup_lt_is_Some_2 cs k) as [ch Hck]; [lia|].
    assert (Forall byteP ch ∧ Z.of_nat (length ch) + 4 ≤ l) as [Hbc Hlc].
    { rewrite <- Hc, Forall_concat, Forall_lookup in Hbd. rewrite Forall_lookup in Hsz. eauto. }
    rewrite (Hk k ch Hck) in Hf. apply (inj Some) in Hf. subst f. apply fragment_query; done || lia. }
  destruct (send_queries_carry junk _ now after frags _ (cl_nsid c) (cl_queue c) Hmk) as (nsid' & q' & pkts & Es & H2).
  exists (NsClient (id + 1) nsid' q' (cl_items c)), pkts. split.
  { unfold client_send. fold id. change (dns_getfreespace _ _ DNS_QUERY) with l. destruct (Z.ltb_spec l 4); [unfold room in Hroom; lia|].
    unfold nstxc_send_packet. rewrite Ef. cbn [mbind option_bind]. by rewrite Es. }
  split. { clear -H2. induction H2 as [|p f pkts frags [? _] _ IH]; by constructor. }
  intros T arr s HT HT' Hnone Hperm Htime.
  destruct (Forall2_permutation _ pkts frags _ H2 Hperm) as (frags' & Hp' & H2').
  destruct (serve_carries junk (Some (wire (n1 :: n2 :: ns) ++ [0])) arr frags' s) as [s' E].
  { rewrite Forall2_fmap_l in H2'. eapply Forall2_impl; [exact H2'|]. by intros a f [_ ?]. }
  exists s'. rewrite E.
  assert (length (at_ <$> arr) = length frags') as El by (rewrite length_fmap, <- (length_fmap bytes_of arr); by apply Forall2_length in H2').
  rewrite (handed_permutation X cs frags T); [by rewrite Hc | done | done | done | done | done | done | done | |].
  - rewrite snd_zip by lia. done.
  - apply Forall_forall. intros f Hf. rewrite Forall_forall in Htime.
    assert (f.1 ∈ at_ <$> arr) as Hin by (rewrite <- (fst_zip (at_ <$> arr) frags') by lia; apply list_elem_of_fmap; eauto).
    apply list_elem_of_fmap in Hin as (a & -> & Ha'). by apply Htime.
Qed.

(** ** Downstream delivery *)

(** A pending query with a name a DNS packet can hold. *)
Definition query_ok {P} (x : nstxqueue P) : Prop :=
  0 ≤ q_id x < 65536 ∧ ∃ ls, name_ok ls ∧ q_name x = wire ls ∧ (length (wire ls) ≤ 255)%nat.

(** The client hands exactly [frag] to the reassembly. *)
Definition reply_carries {P} (pkt frag : list Z) : Prop :=
  ∀ now (c : ns_client P) rest, ∃ q,
    nstxc_handle_reply now (pkt ++ rest) (Z.of_nat (length pkt)) c
      = Some (NsClient (cl_id c) (cl_nsid c) q (nstx_handlepacket now frag (cl_items c)).2,
              ToVde <$> option_list (nstx_handlepacket now frag (cl_items c)).1).

Lemma data2txt_length d : (length d ≤ 255)%nat → (length (data2txt d) ≤ length d + 2)%nat.
Proof.
  intros Hd. destruct (cstringify_labels 255 ltac:(lia) (S (length d)) d) as (ls & E & Hc & Hall & Hf); [lia|].
  unfold data2txt, cstringify. rewrite E, length_app, wire_size, Hc. cbn [length].
  assert (Forall (λ l, (1 ≤ length l)%nat) ls) as H1 by (eapply Forall_impl; [exact Hall|]; intros l [? _]; lia).
  destruct (labels_count 255 ls ltac:(lia) Hf H1) as [H| ->]; [rewrite Hc in H; lia | simpl; lia].
Qed.

Lemma reply_carries_text {P} id ls frag : pkt_ok id DNS_RESPONSE [ls] [(data2txt frag, 0)] → (4 ≤ length frag)%nat →
  reply_carries (P := P) (packet_bytes id DNS_RESPONSE [ls] [(data2txt frag, 0)]) frag.
Proof.
  intros Hok H4 now c rest. eexists. unfold nstxc_handle_reply. rewrite extract_layout by done. cbn [mbind option_bind].
  cbn [text_pkt d_answer d_id fmap list_fmap length reply_loop dns_getanswerdata answer_rr rdata rlen option_fmap option_map fst snd].
  rewrite txt_roundtrip. cbn [mbind option_bind].
  pose proof (use_packet_all (P := P) now frag [] (cl_items c) H4) as E. rewrite app_nil_r in E. rewrite E. done.
Qed.

Lemma dequeue_bounds sp it l frag l' : 4 ≤ sp → dequeue_senditem sp (it :: l) = Some (frag, l') →
  (4 ≤ length frag)%nat ∧ Z.of_nat (length frag) ≤ sp.
Proof.
  intros Hs. cbn [dequeue_senditem]. set (remain := Z.of_nat (length (sdata it)) - soffset it).
  set (dlen := if remain <? sp - 4 then remain else sp - 4).
  assert (dlen ≤ sp - 4) as Hd by (unfold dlen; destruct (Z.ltb_spec remain (sp - 4)); lia).
  intros E. apply (inj Some), (f_equal fst) in E. cbn [fst] in E. rewrite <- E, length_app. change (length (put_hdr _)) with 4%nat. unfold slice. rewrite length_take. lia.
Qed.

Lemma make_answer_carries {P} slen (x : nstxqueue P) it l : query_ok x →
  ∃ sp frag pkt l', 226 ≤ sp ∧ dequeue_senditem sp (it :: l) = Some (frag, l') ∧ make_answer slen x (it :: l) = Some (pkt, l') ∧
    (length pkt ≤ 512)%nat ∧ reply_carries (P := P) pkt frag.
Proof.
  intros (Hid & ls & Hn & En & Hl). unfold make_answer. rewrite En.
  set (p := dns_addquery _ (wire ls)). assert (p.2 = 0) as Ep by done.
  assert (dns_getpktsize p.1 = Z.of_nat (length (wire ls)) + 17) as Esz.
  { unfold dns_getpktsize. cbn. lia. }
  assert (dns_getfreespace slen p.1 DNS_RESPONSE = Z.min 253 (481 - Z.of_nat (length (wire ls)))) as Efs.
  { unfold dns_getfreespace. rewrite Esz. unfold DNS_MAXPKT. change (DNS_RESPONSE =? DNS_RESPONSE) with true. cbv zeta iota.
    set (raw := 512 - _). destruct (Z.ltb_spec raw 0); [unfold raw in *; lia|].
    destruct (Z.ltb_spec 253 (raw - 14)); [|destruct (Z.ltb_spec 0 (raw - 14))]; unfold raw in *; cbn; lia. }
  set (sp := Z.min 253 (481 - Z.of_nat (length (wire ls)))) in *. assert (226 ≤ sp ≤ 253) as Hsp by (unfold sp; lia).
  destruct (dequeue_senditem sp (it :: l)) as [[frag l']|] eqn:Ed; [|done].
  destruct (dequeue_bounds sp it l frag l' ltac:(lia) Ed) as [H4 Hf].
  pose proof (data2txt_length frag ltac:(lia)) as Ht.
  assert (length (packet_bytes (q_id x) DNS_RESPONSE [ls] [(data2txt frag, 0%Z)]) ≤ 512)%nat as Hsize.
  { unfold packet_bytes. rewrite queries_bytes_cons, !length_app. change (length (header_bytes _ _ _ _)) with 12%nat.
    change (length (queries_bytes [])) with 0%nat. unfold query_bytes. rewrite length_app.
    pose proof (length_answers_bytes (name_offsets 12 [ls]) [(data2txt frag, 0)]) as Ha. cbn [foldr fst] in Ha.
    cbn [length]. unfold sp in *. lia. }
  assert (pkt_ok (q_id x) DNS_RESPONSE [ls] [(data2txt frag, 0)]) as Hok.
  { split; try done; [by apply Forall_singleton | cbn; lia | cbn; lia | apply Forall_singleton; done | lia]. }
  exists sp, frag, (packet_bytes (q_id x) DNS_RESPONSE [ls] [(data2txt frag, 0)]), l'.
  split; [lia|]. split; [done|]. split.
  - rewrite (surjective_pairing p), Efs, Ep. destruct (Z.ltb_spec sp 4); [lia|]. rewrite Ed. cbn [mbind option_bind].
    assert ((dns_addanswer p.1 frag 0).1 = text_pkt (q_id x) DNS_RESPONSE [ls] [(data2txt frag, 0)]) as Et.
    { unfold text_pkt. cbn. unfold query_rr, answer_rr, u16. rewrite Z.mod_small by done. done. }
    rewrite (surjective_pairing (dns_addanswer p.1 frag 0)), Et, construct_layout by done. done.
  - split; [done|]. by apply reply_carries_text.
Qed.

(** The answers to the first queries carry the fragments of the item. *)
Lemma answer_loop_carries {P} slen data id t : ∀ (its : list (nstxqueue P)) off sq out, Forall query_ok its → its ≠ [] →
  0 ≤ off ≤ Z.of_nat (length data) → Z.of_nat (length data) - off ≤ 222 * Z.of_nat (length its) →
  ∃ done rest spaces frags pkts, its = done ++ rest ∧
    answer_loop slen (length its) (NsQueue its (Z.of_nat (length its)) t) [SendItem data id off sq] out
      = Some (NsQueue rest (Z.of_nat (length rest)) t, [], out ++ zip_with ToNs pkts (q_peer <$> done)) ∧
    send_all spaces [SendItem data id off sq] = Some frags ∧ Forall (λ sp, 4 < sp) spaces ∧ length done = length pkts ∧
    (222 * (Z.of_nat (length spaces) - 1) < Z.of_nat (length data) - off ∨ length spaces = 1%nat) ∧
    Forall2 (λ p f, (length p ≤ 512)%nat ∧ reply_carries (P := P) p f) pkts frags.
Proof.
  induction its as [|x its IH]; intros off sq out Hok Hne Hoff Hroom; [done|]. apply Forall_cons in Hok as [Hx Hok].
  destruct (make_answer_carries slen x (SendItem data id off sq) [] Hx) as (sp & frag & pkt & l' & Hsp & Ed & Em & Hsz & Hc).
  cbn [length]. cbn [answer_loop]. unfold queuelen. cbn [qlen length]. destruct (Z.eqb_spec (Z.of_nat (S (length its))) 0); [lia|].
  cbn [dequeueitem qhead qlen qtimeout Z.ltb Z.compare orb mbind option_bind]. rewrite Em. cbn [mbind option_bind].
  pose proof Ed as Ed'. cbn [dequeue_senditem sdata soffset sid sseq] in Ed'.
  set (remain := Z.of_nat (length data) - off) in *. set (dlen := if remain <? sp - 4 then remain else sp - 4) in *.
  apply (inj Some), (f_equal snd) in Ed'. cbn [snd] in Ed'.
  replace (Z.of_nat (S (length its)) - 1) with (Z.of_nat (length its)) by lia.
  destruct (Z.eqb_spec (off + dlen) (Z.of_nat (length data))) as [El|El]; subst l'.
  - exists [x], its, [sp], [frag], [pkt]. split; [done|]. split.
    { destruct its; cbn [answer_loop]; unfold queuelen; cbn [qlen length]; [done|]. by destruct (Z.eqb_spec (Z.of_nat (S (length its))) 0); [lia|]. }
    split; [cbn [send_all]; by rewrite Ed|]. split; [constructor; [lia | done]|]. split; [done|]. split; [by right|]. constructor; [done | constructor].
  - assert (dlen = sp - 4 ∧ sp - 4 < remain) as [Hd Hlt] by (unfold dlen in *; destruct (Z.ltb_spec remain (sp - 4)); unfold remain in *; lia).
    assert (its ≠ []) as Hne' by (intros ->; cbn [length] in Hroom; lia).
    destruct (IH (off + dlen) (sq + 1) (out ++ [ToNs pkt (q_peer x)]) Hok Hne') as (done & rest & spaces & frags & pkts & E1 & E2 & E3 & H4 & H5 & H6 & H7);
      [unfold remain in *; lia | cbn [length] in Hroom; lia |].
    exists (x :: done), rest, (sp :: spaces), (frag :: frags), (pkt :: pkts). split; [by rewrite E1|]. split; [rewrite E2; by rewrite <- app_assoc|].
    split; [cbn [send_all]; rewrite Ed; cbn [mbind option_bind]; by rewrite E3|]. split; [constructor; [lia | done]|].
    split; [cbn [length]; by rewrite H5|]. split; [left; cbn [length]; unfold remain in *; lia|]. by constructor.
Qed.

(** The client on a sequence of replies. *)
Fixpoint client_receive {P} (l : list (arrival P)) (c : ns_client P) : option (ns_client P * list (ns_out P)) :=
  match l with
  | [] => Some (c, [])
  | (now, _, pkt, rest) :: l =>
    '(c, out) ← nstxc_handle_reply now (pkt ++ rest) (Z.of_nat (length pkt)) c;
    '(c, out') ← client_receive l c;
    Some (c, out ++ out')
  end.

Lemma client_receive_carries {P} (arr : list (arrival P)) frags : ∀ c,
  Forall2 (λ a f, reply_carries (P := P) (bytes_of a) f) arr frags →
  ∃ c', client_receive arr c = Some (c', ToVde <$> handed (zip (at_ <$> arr) frags) (cl_items c)).
Proof.
  intros c H. revert c. induction H as [|[[[now peer] pkt] rest] f arr frags Hc _ IH]; intros c; [by exists c|].
  destruct (Hc now c rest) as (q & E). cbn [client_receive]. unfold bytes_of in E. cbn [fst snd] in E. rewrite E. cbn [mbind option_bind].
  destruct (IH (NsClient (cl_id c) (cl_nsid c) q (nstx_handlepacket now f (cl_items c)).2)) as [c' E']. rewrite E'. cbn [mbind option_bind].
  exists c'. cbn [fmap list_fmap zip zip_with handed at_ fst snd]. destruct (nstx_handlepacket now f (cl_items c)) as [r l]. cbn [snd fst].
  cbn [cl_items]. by rewrite fmap_app.
Qed.

Lemma not_late {P} now (l : list (nstxqueue P)) : Forall (λ x, now < q_timeout x) l → timed_out now l = ([], l).
Proof. destruct 1 as [|x l Hx _]; [done|]. cbn [timed_out]. by destruct (Z.leb_spec (q_timeout x) now); [lia|]. Qed.

(** downstream delivery.  A packet of at most 3552 bytes that arrives at a
    server with enough pending queries is answered at once, to the peers of the
    oldest queries, in replies of at most 512 bytes; and a client that receives
    these replies in any order within 30 seconds hands over exactly the packet,
    once. *)
Theorem downstream_delivery {P} junk suffix slen now data (s : ns_server P) :
  let its := qhead (sv_queue s) in
  let X := Z.land (sv_sid s + 1) 4095 in
  sv_send s = [] → Forall query_ok its → its ≠ [] → qlen (sv_queue s) = Z.of_nat (length its) →
  Forall (λ x, now < q_timeout x) its →
  Z.of_nat (length data) ≤ 222 * Z.of_nat (length its) → (length data ≤ 3552)%nat → X ≠ 0 →
  ∃ s' pkts, nstx_getpacket junk suffix slen now (Some (FromTun data)) s
      = Some (s', zip_with ToNs pkts (take (length pkts) (q_peer <$> its))) ∧
    Forall (λ p, (length p ≤ 512)%nat) pkts ∧ sv_send s' = [] ∧ qhead (sv_queue s') = drop (length pkts) its ∧
    ∀ T (arr : list (arrival P)) c, 0 ≤ T → T + 60 < 2 ^ 32 → get_item_by_id (cl_items c) X = None →
      bytes_of <$> arr ≡ₚ pkts → Forall (λ a, T ≤ at_ a ≤ T + NSTX_TIMEOUT) arr →
      ∃ c', client_receive arr c = Some (c', [ToVde data]).
Proof.
  cbv zeta. set (its := qhead (sv_queue s)). set (X := Z.land _ 4095). intros Hsend Hok Hne Hql Hlate Hroom Hlen HX.
  destruct (answer_loop_carries slen data (sv_sid s + 1) (qtimeout (sv_queue s)) its 0 0 [] Hok Hne ltac:(lia) ltac:(lia))
    as (done & rest & spaces & frags & pkts & E1 & E2 & E3 & Hsp & Hl & Hbound & H2).
  pose proof (send_all_length _ _ _ E3) as Hfl. pose proof (Forall2_length _ _ _ H2) as Hpl.
  destruct (send_all_fragments data (sv_sid s + 1) spaces 0 0 frags ltac:(lia) Hsp E3) as (cs & Ec & Hcl & Hpos & Hk).
  change (Z.to_nat 0) with 0%nat in Ec. rewrite drop_0 in Ec.
  pose proof (client_frag_of cs frags 0 (sv_sid s + 1) ltac:(lia) ltac:(lia) Hcl Hk) as Hfrag.
  exists (NsServer [] (sv_sid s + 1) (NsQueue rest (Z.of_nat (length rest)) (qtimeout (sv_queue s))) (sv_items s)), pkts.
  split.
  { unfold nstx_getpacket, queue_senditem. rewrite Hsend. cbn [mbind option_bind app fst snd sv_queue sv_send sv_sid sv_items]. fold its.
    replace (sv_queue s) with (NsQueue its (Z.of_nat (length its)) (qtimeout (sv_queue s))) at 1 by (rewrite <- Hql; unfold its; by destruct (sv_queue s)).
    rewrite E2. cbn [mbind option_bind app]. unfold timeoutqueue. cbn [qhead qlen qtimeout].
    rewrite not_late by (rewrite E1 in Hlate; by apply Forall_app in Hlate as [_ ?]).
    change (mapM do_timeout (@nil (nstxqueue P))) with (Some (@nil (ns_out P))). cbn [mbind option_bind length]. rewrite app_nil_r. do 2 f_equal; [repeat f_equal; lia|].
    rewrite E1, fmap_app, take_app_le by (rewrite length_fmap; lia). rewrite take_ge by (rewrite length_fmap; lia). done. }
  split. { clear -H2. induction H2 as [|p f pkts frags [? _] _ IH]; by constructor. }
  split; [done|]. split. { cbn [sv_queue qhead]. rewrite E1, <- Hl. symmetry. apply drop_app_length. }
  intros T arr c HT HT' Hnone Hperm Htime.
  destruct (Forall2_permutation _ pkts frags _ H2 Hperm) as (frags' & Hp' & H2').
  destruct (client_receive_carries arr frags' c) as [c' E].
  { rewrite Forall2_fmap_l in H2'. eapply Forall2_impl; [exact H2'|]. by intros a f [_ ?]. }
  exists c'. rewrite E.
  assert (length (at_ <$> arr) = length frags') as El by (rewrite length_fmap, <- (length_fmap bytes_of arr); by apply Forall2_length in H2').
  assert (cs ≠ []) as Hcs by (intros ->; simpl in Hpos; lia).
  rewrite (handed_permutation X cs frags T); [by rewrite Ec | done | done | done | done | done | done | done | |].
  - rewrite snd_zip by lia. done.
  - apply Forall_forall. intros f Hf. rewrite Forall_forall in Htime.
    assert (f.1 ∈ at_ <$> arr) as Hin by (rewrite <- (fst_zip (at_ <$> arr) frags') by lia; apply list_elem_of_fmap; eauto).
    apply list_elem_of_fmap in Hin as (a & -> & Ha'). by apply Htime.
Qed.

(** ** The queue of pending queries *)

Section queue_facts.
Context {P : Type}.
Implicit Types q : nsqueue P.

(** The counter, distinct identifiers, and deadlines in order, none later than
    that of a query queued at time [t]. *)
Record queue_inv (t : Z) q : Prop := {
  qi_len : qlen q = Z.of_nat (length (qhead q));
  qi_ids : NoDup (q_id <$> qhead q);
  qi_sorted : StronglySorted Z.le (q_timeout <$> qhead q);
  qi_late : Forall (λ x, q_timeout x ≤ t + qtimeout q) (qhead q)
}.

(** The operations, at a time that does not decrease. *)
Inductive queue_step : Z * nsqueue P → Z * nsqueue P → Prop :=
  | step_queue t now id name peer q q' : t ≤ now → queueitem now id name peer q = Some q' → queue_step (t, q) (now, q')
  | step_dequeue t id q : queue_step (t, q) (t, (dequeueitem id q).2)
  | step_timeout t now q : t ≤ now → queue_step (t, q) (now, (timeoutqueue now q).2).

Lemma find_none_ids id q : finditem id q = None → id ∉ q_id <$> qhead q.
Proof.
  unfold finditem. intros H (x & -> & Hx)%list_elem_of_fmap. apply List.find_none with (x := x) in H; [lia | by apply list_elem_of_In].
Qed.

Lemma take_out_sublist id l : sublist (take_out id l).2 (l : list (nstxqueue P)) ∧
  ∀ y, (take_out id l).1 = Some y → length l = S (length (take_out id l).2).
Proof.
  induction l as [|x l [IH1 IH2]]; [done|]. cbn [take_out]. destruct (q_id x =? id).
  - split; [by apply sublist_cons | done].
  - destruct (take_out id l) as [r l']. cbn [fst snd] in *. split; [by apply sublist_skip|]. intros y Hy. cbn [length]. by rewrite (IH2 y).
Qed.


Lemma sublist_facts (l k : list (nstxqueue P)) : sublist l k →
  (NoDup (q_id <$> k) → NoDup (q_id <$> l)) ∧
  (StronglySorted Z.le (q_timeout <$> k) → StronglySorted Z.le (q_timeout <$> l)).
Proof.
  induction 1 as [|x l k Hs [IH1 IH2]|x l k Hs [IH1 IH2]]; [done| |].
  - split; rewrite !fmap_cons.
    + intros [Hx Hn]%NoDup_cons. constructor; [|by apply IH1]. intros (y & E & Hy)%list_elem_of_fmap. apply Hx. rewrite E.
      apply list_elem_of_fmap. exists y. split; [done | by eapply sublist_elem].
    + intros [Hx Hn]%StronglySorted_cons. constructor; [by apply IH2|]. rewrite Forall_fmap, Forall_forall in *. intros y Hy. by apply Hx, (sublist_elem l k).
  - split; rewrite !fmap_cons; [intros [_ ?]%NoDup_cons | intros [_ ?]%StronglySorted_cons]; auto.
Qed.

Lemma sublist_inv t q l n : queue_inv t q → sublist l (qhead q) → n = Z.of_nat (length l) → queue_inv t (NsQueue l n (qtimeout q)).
Proof.
  intros [Hl Hi Hs Ht] Hsub ->. destruct (sublist_facts _ _ Hsub) as [F1 F2]. split; [done | by apply F1 | by apply F2 |].
  cbn [qhead qtimeout]. rewrite Forall_forall in *. intros x Hx. by apply Ht, (sublist_elem l _).
Qed.

Lemma inv_later t now q : t ≤ now → queue_inv t q → queue_inv now q.
Proof. intros Hn [? ? ? Ht]. split; try done. eapply Forall_impl; [exact Ht|]. simpl. lia. Qed.

Lemma timed_out_split now (l : list (nstxqueue P)) : (timed_out now l).1 ++ (timed_out now l).2 = l.
Proof.
  induction l as [|x l IH]; [done|]. cbn [timed_out]. destruct (q_timeout x <=? now); [|done].
  destruct (timed_out now l). cbn in *. by rewrite IH.
Qed.

Lemma queue_step_inv a b : queue_step a b → queue_inv a.1 a.2 → queue_inv b.1 b.2.
Proof.
  destruct 1 as [t now id name peer q q' Hnow Hq|t id q|t now q Hnow]; intros Hinv; cbn [fst snd] in *.
  - apply (inv_later t now q Hnow) in Hinv. unfold queueitem in Hq. destruct (finditem id q) eqn:Ef; [congruence|]. apply find_none_ids in Ef.
    destruct (_ <=? _); [done|]. injection Hq as <-. destruct Hinv as [Hl Hi Hs Ht]. split; cbn [qhead qlen qtimeout]; rewrite ?fmap_app.
    + rewrite length_app. cbn. lia.
    + apply NoDup_app. split; [done|]. split; [set_solver | by apply NoDup_singleton].
    + apply StronglySorted_app_2; [|done|by repeat constructor]. intros u v Ha Hb. apply list_elem_of_fmap in Ha as (x & -> & Hx).
      rewrite Forall_forall in Ht. specialize (Ht x Hx). cbn in Hb. apply list_elem_of_singleton in Hb as ->. lia.
    + apply Forall_app. split; [done|]. apply Forall_singleton. cbn. lia.
  - unfold dequeueitem. destruct (qhead q) as [|x l] eqn:Eh; [done|].
    assert (∀ n k, sublist k (x :: l) → n = Z.of_nat (length k) → queue_inv t (NsQueue k n (qtimeout q))) as Hsub.
    { intros n k Hk Hn. apply sublist_inv; [done | by rewrite Eh | done]. }
    destruct Hinv as [Hl _ _ _]. rewrite Eh in Hl. cbn [length] in Hl.
    destruct (_ || _); cbn [snd]; [apply Hsub; [by apply sublist_cons | lia]|].
    destruct (take_out_sublist id l) as [H1 H2]. destruct (take_out id l) as [[y|] l']; cbn [snd fst] in *.
    + apply Hsub; [by apply sublist_skip|]. specialize (H2 y eq_refl). cbn [length]. lia.
    + destruct q as [h n t']. cbn in *. subst h. by apply Hsub.
  - apply (inv_later t now q Hnow) in Hinv. unfold timeoutqueue. pose proof (timed_out_split now (qhead q)) as E.
    destruct (timed_out now (qhead q)) as [u v]. cbn [fst snd] in *. pose proof (qi_len _ _ Hinv) as Hl.
    apply sublist_inv; [done | rewrite <- E; by apply sublist_inserts_l |]. rewrite Hl, <- E, length_app. lia.
Qed.

(** With deadlines in order, the queries that time out are exactly those whose
    deadline has passed. *)
Lemma timed_out_exact now (l : list (nstxqueue P)) : StronglySorted Z.le (q_timeout <$> l) →
  timed_out now l = (List.filter (λ x, q_timeout x <=? now) l, List.filter (λ x, negb (q_timeout x <=? now)) l).
Proof.
  induction l as [|x l IH]; intros Hs; [done|]. rewrite fmap_cons in Hs. apply StronglySorted_cons in Hs as [Hx Hs].
  cbn [timed_out List.filter]. destruct (Z.leb_spec (q_timeout x) now) as [Hlt|Hge].
  - by rewrite IH.
  - cbn [negb]. assert (∀ y, y ∈ l → (q_timeout y <=? now) = false) as Hall.
    { intros y Hy. rewrite Forall_fmap, Forall_forall in Hx. specialize (Hx y Hy). simpl in Hx. apply Z.leb_gt. lia. }
    clear IH Hs Hx. f_equal.
    + induction l as [|y l IH]; [done|]. cbn [List.filter]. rewrite Hall by set_solver. apply IH. intros z Hz. apply Hall. set_solver.
    + f_equal. induction l as [|y l IH]; [done|]. cbn [List.filter]. rewrite Hall by set_solver. cbn. f_equal. apply IH. intros z Hz. apply Hall. set_solver.
Qed.
End queue_facts.

(** in every state of the queue that its operations reach from the empty one
    with a clock that does not go back: the counter is the number of pending
    queries, their identifiers are distinct, and [timeoutqueue] gives up exactly
    the queries whose time has passed, in the order they came. *)
Theorem pending_queries_exact {P} t (q : nsqueue P) now :
  rtc queue_step (0, init_queue) (t, q) → t ≤ now →
  queuelen q = Z.of_nat (length (qhead q)) ∧ NoDup (q_id <$> qhead q) ∧
  (timeoutqueue now q).1 = List.filter (λ x, q_timeout x <=? now) (qhead q) ∧
  qhead (timeoutqueue now q).2 = List.filter (λ x, negb (q_timeout x <=? now)) (qhead q).
Proof.
  intros Hr Hnow. assert (queue_inv t q) as [Hl Hi Hs _].
  { change (queue_inv (t, q).1 (t, q).2). refine (rtc_ind_r (λ a, queue_inv a.1 a.2) _ _ _ _ Hr).
    - split; cbn; [done | constructor | constructor | constructor].
    - intros a b _ Hab. by apply queue_step_inv. }
  split; [done|]. split; [done|]. unfold timeoutqueue. by rewrite timed_out_exact.
Qed.

(** ** Witnesses *)

Lemma pending_queries_exact_witness :
  let q := NsQueue [NstxQueue 7 105 [1; 97] (Some 1); NstxQueue 8 109 [] None] 2 QUEUETIMEOUT : nsqueue Z in
  (timeoutqueue 106 q).1 = [NstxQueue 7 105 [1; 97] (Some 1)] ∧ queuelen q = 2.
Proof.
  set (q := NsQueue [NstxQueue 7 105 [1; 97] (Some 1); NstxQueue 8 109 [] None] 2 QUEUETIMEOUT : nsqueue Z).
  assert (rtc queue_step (0, init_queue) (104, q)) as Hr.
  { eapply rtc_l; [apply (step_queue 0 100 7 [1; 97] (Some 1)); [lia | reflexivity]|].
    eapply rtc_l; [apply (step_queue 100 104 8 [] None); [lia | reflexivity]|]. apply rtc_refl. }
  destruct (pending_queries_exact 104 q 106 Hr) as (H1 & _ & H3 & _); [lia|].
  split; [rewrite H3; reflexivity | rewrite H1; reflexivity].
Defined.

(** The domain [tun.network]. *)
Definition demo_n1 : list Z := [116; 117; 110].
Definition demo_n2 : list Z := [110; 101; 116; 119; 111; 114; 107].
Definition demo_client : ns_client Z := NsClient 7 1000 (NsQueue [] 0 10) [].
Definition demo_server : ns_server Z :=
  NsServer [] 6 (NsQueue [NstxQueue 300 999 (wire [[97]; demo_n2]) (Some 1); NstxQueue 301 999 (wire [[98]; demo_n2]) (Some 2)] 2 5) [].

Lemma demo_suffix_ok : Forall suffix_label [demo_n1; demo_n2].
Proof.
  repeat (apply Forall_cons; split; [split; [split; [cbn; lia | repeat (constructor; [unfold nz; lia|]); constructor]
    | apply (bool_decide_unpack _); vm_compute; reflexivity]|]). constructor.
Qed.

Lemma upstream_delivery_witness :
  ∃ suffix slen c' p s', dns_setsuffix (dotted [demo_n1; demo_n2]) = Some (suffix, slen) ∧
    client_send suffix slen 100 0 [0; 0] [1; 2; 3] demo_client = Some (c', [ToNs p None]) ∧
    serve (λ _, 0) suffix [(100, 5, p, [])] demo_server = Some (s', [ToVde [1; 2; 3]]).
Proof.
  destruct (upstream_delivery demo_n1 demo_n2 [] (λ _, 0) 100 0 [0; 0] [1; 2; 3] demo_client demo_suffix_ok) as (suffix & slen & Es & H);
    [cbn; lia | cbn; lia |].
  exists suffix, slen. vm_compute in Es. injection Es as <- <-.
  destruct H as (c' & pkts & Ec & _ & H).
  - vm_compute. reflexivity.
  - repeat (constructor; [unfold byteP; lia|]). constructor.
  - cbn. lia.
  - lia.
  - vm_compute. discriminate.
  - right. vm_compute. discriminate.
  - vm_compute. reflexivity.
  - destruct pkts as [|p [|p' pkts]]; [vm_compute in Ec; discriminate | | vm_compute in Ec; discriminate].
    destruct (H 100 [(100, 5, p, [])] demo_server) as [s' E];
      [lia | lia | reflexivity | reflexivity | apply Forall_singleton; cbn; unfold NSTX_TIMEOUT; lia |].
    exists c', p, s'. split; [reflexivity|]. split; [exact Ec | exact E].
Defined.

Lemma demo_queries_ok : Forall query_ok (qhead (sv_queue demo_server)).
Proof.
  repeat (apply Forall_cons; split; [split; [cbn; lia|]|]); [exists [[97]; demo_n2] | exists [[98]; demo_n2] | constructor];
    (split; [split; [done|] | split; [done | cbn; lia]]);
    repeat (apply Forall_cons; split; [split; [cbn; lia | repeat (constructor; [unfold nz; lia|]); constructor]|]); constructor.
Qed.

Lemma downstream_delivery_witness :
  ∃ s' p c', nstx_getpacket (λ _, 0) None 0 100 (Some (FromTun [1; 2; 3])) demo_server = Some (s', [ToNs p (Some 1)]) ∧
    client_receive [(100, 5, p, [])] demo_client = Some (c', [ToVde [1; 2; 3]]).
Proof.
  destruct (downstream_delivery (λ _, 0) None 0 100 [1; 2; 3] demo_server) as (s' & pkts & E & _ & _ & Eq & H).
  - reflexivity.
  - exact demo_queries_ok.
  - discriminate.
  - reflexivity.
  - repeat (apply Forall_cons; split; [cbn; lia|]). constructor.
  - cbn. lia.
  - cbn. lia.
  - vm_compute. discriminate.
  - destruct pkts as [|p [|p' pkts]]; [vm_compute in E; discriminate | | exfalso; vm_compute in E; congruence].
    destruct (H 100 [(100, 5, p, [])] demo_client) as [c' Ec];
      [lia | lia | reflexivity | reflexivity | apply Forall_singleton; cbn; unfold NSTX_TIMEOUT; lia |].
    exists s', p, c'. split; [exact E | exact Ec].
Defined.

(** ** What goes wrong *)

(** With a domain of one label, the suffix can be found inside the data: the
    query for the header of an empty packet and its data are cut short. *)
Lemma single_label_suffix_loses_data :
  dns_fqdn2data (Some (wire [[97; 98]] ++ [0])) (wire [[97; 98]; [97; 98]]) = Some None ∧
  dns_fqdn2data (Some (wire [[99]] ++ [0])) (wire [[97; 98]; [99]]) = Some (Some [97; 98]).
Proof. vm_compute. split; reflexivity. Qed.

(** A query with a name of five labels of 63 bytes is extracted, and queueing it
    writes behind the 257 bytes of [name]. *)
Definition overlong_query : list Z :=
  [18; 52; 1; 0; 0; 1; 0; 0; 0; 0; 0; 0] ++ wire (replicate 5 (replicate 63 97)) ++ [0; 0; 16; 0; 1].
Lemma overlong_name_overflows :
  dns_extractpkt (overlong_query ++ replicate 1600 0) (Z.of_nat (length overlong_query))
    = Some (Some (text_pkt 4660 0 [replicate 5 (replicate 63 97)] [])) ∧
  receive_query (P := Z) (λ _, 0) (Some [1; 97; 0]) 0 (overlong_query ++ replicate 1600 0) (Z.of_nat (length overlong_query)) 1 demo_server = None.
Proof. vm_compute. split; reflexivity. Qed.

(** An answer says how long its text is and nothing compares it with the packet:
    a reply of 30 bytes makes the client copy from behind its receive buffer of
    2000 bytes. *)
Definition lying_answer : list Z :=
  [18; 52; 132; 128; 0; 0; 0; 1; 0; 0; 0; 0] ++ [1; 97; 0] ++ [0; 16; 0; 1; 0; 0; 0; 0; 255; 255] ++ [1; 97; 0; 0; 0].
Lemma answer_length_unchecked :
  length lying_answer = 30%nat ∧ dns_extractpkt (lying_answer ++ replicate 1970 0) 30 = None.
Proof. vm_compute. split; reflexivity. Qed.

(** A pointer whose low byte is 128 or more is read as a negative number: a
    pointer to offset 396 leads to 140. *)
Lemma pointer_low_byte_signed :
  decompress_label (replicate 44 0 ++ [1; 97; 0] ++ replicate 253 0 ++ [1; 98; 0] ++ [193; 44; 0]) 306 303 = Some (Some [1; 98; 0]) ∧
  decompress_label (replicate 140 0 ++ [1; 97; 0] ++ replicate 253 0 ++ [1; 98; 0] ++ [193; 140; 0]) 402 399 = Some (Some [1; 97; 0]).
Proof. vm_compute. split; reflexivity. Qed.

(** A reply with a record of another type in front of the text is read only up to
    that record. *)
Definition other_record_first : list Z :=
  [18; 52; 132; 128; 0; 0; 0; 2; 0; 0; 0; 0] ++ [0; 0; 5; 0; 1; 0; 0; 0; 0; 0; 1; 9] ++
  [0; 0; 16; 0; 1; 0; 0; 0; 0; 0; 8; 6; 180; 0; 7; 16; 33; 34; 0].
Lemma other_record_hides_answers :
  (pkt ← dns_extractpkt other_record_first (Z.of_nat (length other_record_first));
   pkt ← pkt; Some (length (d_answer pkt), (dns_getanswerdata pkt).1)) = Some (2%nat, None) ∧
  (r ← nstxc_handle_reply 0 other_record_first (Z.of_nat (length other_record_first)) demo_client; Some r.2) = Some [].
Proof. vm_compute. split; reflexivity. Qed.
