(* ===== verification/Vxlan.v ===== *)
(** * Vxlan: the bridge between a switch and a VXLAN, [vde_vxlan]

    [vde_vxlan] connects a switch (the plug) with the other ends of a VXLAN (a
    multicast group over UDP).  It learns on which side a station is:
    [vxlan_hash.c] is a copy of the hash table of the switch whose ports are
    Internet addresses, 1 for the plug; its chains are those of Hash.v.  The
    theorems: each handler does what a learning bridge between two sides
    does, and a conversation through two bridges is carried unchanged, to one
    peer only. *)
From Stdlib Require Import Lia.
From stdpp Require Import base numbers list gmap.
From S2P Require Import Prelude Hash.

(** ** The table *)

Definition VX_GC_INTERVAL : Z := 2.
Definition INIT_HASH_SIZE : Z := 128.

(** [*out] *)
Definition vx_find_in_hash (st : hash_state) (d : list Z) (vlan : Z) : option Z :=
  oe ← find_entry st (extmac d vlan);
  Some (match oe with None => 0 | Some e => eport e end).
(** The caller passes a NULL [out]; the result is not used either. *)
Definition vx_find_in_hash_update (st : hash_state) (src : list Z) (vlan port now : Z) (malloc_ok : bool) : option hash_state :=
  '(st, _) ← find_in_hash_update st src vlan port now malloc_ok; Some st.

(** The table and the static [last_t]. *)
Record vxlan := Vxlan { vx_hash : hash_state; last_t : Z }.

Definition vx_hash_gc (now : Z) (s : vxlan) : option vxlan :=
  if VX_GC_INTERVAL <? now - last_t s then
    st ← for_all_hash (vx_hash s) (gc (gc_expire (vx_hash s)) now); Some (Vxlan st now)
  else Some s.
Definition vx_hash_init (hash_size : Z) : option vxlan :=
  bits ← po2round 32 hash_size;
  Some (Vxlan (HASH_INIT (HashState 0 0 [] MIN_PERSISTENCE_DFL GC_INTERVAL GC_EXPIRE 0) bits) 0).

(** ** Packets *)

(** [sizeof(struct eth_pkt)], the offset of [pkt] and [sizeof(struct vxlan_pkt)]. *)
Definition ETH_PKT : Z := 1518.
Definition VX_OFF : Z := 8.
Definition VXLAN_PKT : Z := 1526.

Definition ntoh24 (p : list Z) : Z := Z.lor (Z.lor (Z.shiftl (nth 0 p 0) 16) (Z.shiftl (nth 1 p 0) 8)) (nth 2 p 0).
Definition hton24 (v : Z) : list Z := [Z.land (Z.shiftr v 16) 255; Z.land (Z.shiftr v 8) 255; Z.land v 255].

Inductive vx_out := PlugSend (frame : list Z) | VxSend (addr : Z) (datagram : list Z).

(** What [recvfrom] leaves in a buffer that held [stack]: at most [size] bytes. *)
Definition recv_into (size : Z) (data stack : list Z) : list Z :=
  let d := take (Z.to_nat size) data in d ++ drop (length d) stack.

Definition bcast (mac : list Z) : bool := forallb (λ b, b =? 255) mac.

Section bridge.
(** [vxlan_id] and [vxlan_addr]. *)
Context (vxlan_id vxlan_addr : Z).

Definition plug_send (pkt : list Z) (len : Z) : option vx_out :=
  if Z.of_nat (length pkt) <? len then None else Some (PlugSend (take (Z.to_nat len) pkt)).

Definition vxlan_send (addr_s : Z) (pkt : list Z) (len : Z) : option vx_out :=
  let addr := if negb (addr_s =? 0) then addr_s else vxlan_addr in
  let pkt := [8; 0; 0; 0] ++ hton24 vxlan_id ++ [0] ++ drop (Z.to_nat VX_OFF) pkt in
  let n := u64 (len + VX_OFF) in
  if Z.of_nat (length pkt) <? n then None else Some (VxSend addr (take (Z.to_nat n) pkt)).

(** A datagram from [src_addr]; [None] is an error of [recvfrom], which goes on
    with the length -1 as a [size_t]. *)
Definition vxlan_process (now : Z) (malloc_ok : bool) (stack : list Z) (src_addr : Z) (r : option (list Z)) (s : vxlan) :
    option (vxlan * list vx_out) :=
  let pkt := recv_into VXLAN_PKT (default [] r) stack in
  let len := match r with Some d => Z.of_nat (length (take (Z.to_nat VXLAN_PKT) d)) | None => u64 (-1) end in
  if negb (nth 0 pkt 0 =? 8) then Some (s, [])
  else if negb (ntoh24 (slice pkt 4 3) =? vxlan_id) then Some (s, [])
  else
    st ← vx_find_in_hash_update (vx_hash s) (slice pkt 14 6) vxlan_id src_addr now malloc_ok;
    let s := Vxlan st (last_t s) in
    if bcast (slice pkt 8 6) then
      o ← plug_send (drop 8 pkt) (u64 (len - VX_OFF)); Some (s, [o])
    else
      dest_addr ← vx_find_in_hash st (slice pkt 8 6) vxlan_id;
      if (dest_addr =? 0) || (dest_addr =? 1) then
        o ← plug_send (drop 8 pkt) (u64 (len - VX_OFF)); Some (s, [o])
      else Some (s, []).

(** A frame from the plug; [vde_recv] may write [sizeof(pkt)] bytes at
    [pkt.pkt]. *)
Definition plug_process (now : Z) (malloc_ok : bool) (stack : list Z) (r : option (list Z)) (s : vxlan) :
    option (vxlan * list vx_out) :=
  let frame := take (Z.to_nat VXLAN_PKT) (default [] r) in
  if ETH_PKT <? Z.of_nat (length frame) then None
  else
    let pkt := take 8 stack ++ recv_into VXLAN_PKT frame (drop 8 stack) in
    let nx := match r with Some _ => Z.of_nat (length frame) | None => -1 end in
    st ← vx_find_in_hash_update (vx_hash s) (slice pkt 14 6) vxlan_id 1 now malloc_ok;
    let s := Vxlan st (last_t s) in
    if bcast (slice pkt 8 6) then o ← vxlan_send 0 pkt (u64 nx); Some (s, [o])
    else
      dest_addr ← vx_find_in_hash st (slice pkt 8 6) vxlan_id;
      if dest_addr =? 0 then o ← vxlan_send 0 pkt (u64 nx); Some (s, [o])
      else if 1 <? dest_addr then o ← vxlan_send dest_addr pkt (u64 nx); Some (s, [o])
      else Some (s, []).

(** What [poll] reports: the end of the connection, a frame, a datagram. *)
Record vx_events := VxEvents { ev_hup : bool; ev_plug : option (option (list Z)); ev_vxlan : option (Z * option (list Z)) }.

(** One turn of the loop; [None] inside is the return of [main]. *)
Definition vx_turn (now : Z) (malloc_ok : bool) (stack : list Z) (e : vx_events) (s : vxlan) :
    option (option (vxlan * list vx_out)) :=
  if ev_hup e then Some None
  else
    '(s, o1) ← match ev_plug e with
               | Some r => plug_process now malloc_ok stack r s
               | None => Some (s, [])
               end;
    '(s, o2) ← match ev_vxlan e with
               | Some (src, r) => vxlan_process now malloc_ok stack src r s
               | None => Some (s, [])
               end;
    s ← vx_hash_gc now s;
    Some (Some (s, o1 ++ o2)).

(** ** Frames on the wire *)

Definition vx_header : list Z := [8; 0; 0; 0] ++ hton24 vxlan_id ++ [0].
Definition frame_ok (f : list Z) : Prop := (14 ≤ length f)%nat ∧ Z.of_nat (length f) ≤ ETH_PKT ∧ Forall byteP f.
Definition dest_of (f : list Z) : list Z := take 6 f.
Definition src_of (f : list Z) : list Z := take 6 (drop 6 f).
Definition encaps (f : list Z) : list Z := vx_header ++ f.
Definition vx_key (mac : list Z) : Z := extmac mac vxlan_id.

(** ** The abstract bridge *)

Definition learn (mp now : Z) (key port : Z) (m : gmap Z (Z * Z)) : gmap Z (Z * Z) :=
  <[key := match m !! key with None => (port, now) | Some v => refresh_pair mp now port v end]> m.
(** 0 when the station is not known. *)
Definition side (key : Z) (m : gmap Z (Z * Z)) : Z := default 0 (fst <$> m !! key).

Definition from_vxlan (f : list Z) (m : gmap Z (Z * Z)) : list vx_out :=
  if bcast (dest_of f) || (side (vx_key (dest_of f)) m =? 0) || (side (vx_key (dest_of f)) m =? 1) then [PlugSend f] else [].
Definition from_plug (f : list Z) (m : gmap Z (Z * Z)) : list vx_out :=
  let d := side (vx_key (dest_of f)) m in
  if bcast (dest_of f) || (d =? 0) then [VxSend vxlan_addr (encaps f)]
  else if 1 <? d then [VxSend d (encaps f)]
  else [].
End bridge.

(** ** The handlers are the abstract bridge *)

Lemma lor_sum a b k : 0 ≤ k → 0 ≤ b < 2 ^ k → Z.lor (Z.shiftl a k) b = a * 2 ^ k + b.
Proof.
  intros Hk Hb. rewrite <- Z.shiftl_mul_pow2 by done. symmetry.
  rewrite <- Z.lxor_lor; [apply Z.add_nocarry_lxor|]; apply Z.bits_inj'; intros i Hi; rewrite Z.land_spec, Z.bits_0, Z.shiftl_spec by lia.
  all: destruct (Z.lt_ge_cases i k); [rewrite (Z.testbit_neg_r a) by lia; done|];
    rewrite (testbit_high b k i), andb_false_r by lia; done.
Qed.

Lemma hton24_ntoh24 v : 0 ≤ v < 2 ^ 24 → ntoh24 (hton24 v) = v.
Proof.
  intros Hv. unfold ntoh24, hton24. cbn [nth]. change 255 with (Z.ones 8). rewrite !Z.land_ones, !Z.shiftr_div_pow2 by lia.
  rewrite <- Z.lor_assoc, (lor_sum _ _ 8) by dlia. rewrite lor_sum by dlia. dlia.
Qed.
Lemma hton24_inj v w : 0 ≤ v < 2 ^ 24 → ntoh24 (hton24 v) = w → v = w.
Proof. intros Hv <-. by rewrite hton24_ntoh24. Qed.

(** The times that configure a table. *)
Definition same_times (st st' : hash_state) : Prop :=
  min_persistence st' = min_persistence st ∧ gc_expire st' = gc_expire st.

Section facts.
Context (id addr : Z) (Hid : 0 ≤ id < 2 ^ 24).

Lemma vx_update_spec st src port now : hash_wf st →
  ∃ st', vx_find_in_hash_update st src id port now true = Some st' ∧ hash_wf st' ∧ same_times st st' ∧
    hash_map st' = learn (min_persistence st) now (vx_key id src) port (hash_map st).
Proof.
  intros Hwf. destruct (find_in_hash_update_spec st src id port now true Hwf) as (st' & rv & E & Hwf' & Hmp & Hgc & Hm).
  exists st'. unfold vx_find_in_hash_update. rewrite E. split; [done|]. split; [done|]. split; [done|].
  unfold learn, vx_key. by destruct (hash_map st !! extmac src id); destruct Hm.
Qed.

Lemma vx_find_spec st d : hash_wf st → vx_find_in_hash st d id = Some (side (vx_key id d) (hash_map st)).
Proof.
  intros Hwf. unfold vx_find_in_hash, side, vx_key. destruct (find_entry_lookup st Hwf (extmac d id)) as (oe & -> & -> & _).
  cbn. by destruct oe.
Qed.

(** The fields of a datagram that carries [f]. *)
Lemma encaps_fields f stack : frame_ok f → Z.of_nat (length stack) = VXLAN_PKT →
  let pkt := recv_into VXLAN_PKT (encaps id f) stack in
  take (Z.to_nat VXLAN_PKT) (encaps id f) = encaps id f ∧ nth 0 pkt 0 = 8 ∧ ntoh24 (slice pkt 4 3) = id ∧
  slice pkt 8 6 = dest_of f ∧ slice pkt 14 6 = src_of f ∧
  Z.of_nat (length (drop 8 pkt)) = ETH_PKT ∧ take (length f) (drop 8 pkt) = f.
Proof.
  intros (H14 & Hmax & _) Hst pkt. unfold ETH_PKT, VXLAN_PKT in *.
  assert (length (encaps id f) = 8 + length f)%nat as El by done.
  assert (take (Z.to_nat 1526) (encaps id f) = encaps id f) as Et by (apply take_ge; lia).
  assert (pkt = encaps id f ++ drop (length (encaps id f)) stack) as Ep by (unfold pkt, recv_into; by rewrite Et).
  assert (drop 8 pkt = f ++ drop (length (encaps id f)) stack) as Ed by (by rewrite Ep).
  split; [done|]. split; [by rewrite Ep|]. split; [rewrite Ep; by apply hton24_ntoh24|].
  assert (∀ o, 8 ≤ o → o + 6 ≤ 22 → slice pkt o 6 = take 6 (drop (Z.to_nat (o - 8)) f)) as Hs.
  { intros o Ho Ho'. unfold slice. replace (Z.to_nat o) with (8 + Z.to_nat (o - 8))%nat by lia.
    rewrite <- drop_drop, Ed, drop_app_le, take_app_le by (rewrite ?length_drop; lia). done. }
  split; [by apply Hs|]. split; [by apply Hs|]. rewrite Ed. split.
  - rewrite length_app, length_drop. lia.
  - by rewrite take_app_length.
Qed.

Lemma process_frame now stack src f s : frame_ok f → Z.of_nat (length stack) = VXLAN_PKT → hash_wf (vx_hash s) →
  ∃ s', vxlan_process id now true stack src (Some (encaps id f)) s = Some (s', from_vxlan id f (hash_map (vx_hash s'))) ∧
    hash_wf (vx_hash s') ∧ last_t s' = last_t s ∧ same_times (vx_hash s) (vx_hash s') ∧
    hash_map (vx_hash s') = learn (min_persistence (vx_hash s)) now (vx_key id (src_of f)) src (hash_map (vx_hash s)).
Proof.
  intros Hf Hst Hwf. destruct (encaps_fields f stack Hf Hst) as (E1 & E2 & E3 & E4 & E5 & E6 & E7).
  destruct Hf as (H14 & Hmax & _). unfold vxlan_process. cbn [from_option]. unfold Datatypes.id.
  rewrite E2, E3, E4, E5, E1, !Z.eqb_refl. cbn [negb].
  destruct (vx_update_spec (vx_hash s) (src_of f) src now Hwf) as (st & Eu & Hwf' & Hmp & Hm). rewrite Eu. cbn [mbind option_bind].
  assert (plug_send (drop 8 (recv_into VXLAN_PKT (encaps id f) stack)) (u64 (Z.of_nat (length (encaps id f)) - VX_OFF)) = Some (PlugSend f)) as Ep.
  { change (length (encaps id f)) with (8 + length f)%nat. unfold VX_OFF. unfold ETH_PKT in *.
    replace (Z.of_nat (8 + length f) - 8) with (Z.of_nat (length f)) by lia. rewrite u64_small by lia.
    unfold plug_send. rewrite E6. destruct (Z.ltb_spec 1518 (Z.of_nat (length f))); [lia|]. by rewrite Nat2Z.id, E7. }
  exists (Vxlan st (last_t s)). cbn [vx_hash last_t]. split; [|done]. unfold from_vxlan.
  destruct (bcast (dest_of f)); cbn [orb]; [by rewrite Ep|].
  rewrite vx_find_spec by done. cbn [mbind option_bind]. destruct (_ || _); [by rewrite Ep | done].
Qed.

Lemma plug_frame now stack f s : frame_ok f → Z.of_nat (length stack) = VXLAN_PKT → hash_wf (vx_hash s) →
  ∃ s', plug_process id addr now true stack (Some f) s = Some (s', from_plug id addr f (hash_map (vx_hash s'))) ∧
    hash_wf (vx_hash s') ∧ last_t s' = last_t s ∧ same_times (vx_hash s) (vx_hash s') ∧
    hash_map (vx_hash s') = learn (min_persistence (vx_hash s)) now (vx_key id (src_of f)) 1 (hash_map (vx_hash s)).
Proof.
  intros (H14 & Hmax & Hb) Hst Hwf. unfold plug_process. cbn [from_option]. unfold Datatypes.id.
  unfold ETH_PKT, VXLAN_PKT in *. rewrite (take_ge f) by lia.
  destruct (Z.ltb_spec 1518 (Z.of_nat (length f))); [lia|].
  set (pkt := take 8 stack ++ recv_into 1526 f (drop 8 stack)).
  assert (drop 8 pkt = f ++ drop (8 + length f) stack) as Ed.
  { unfold pkt. rewrite drop_app_ge by (rewrite length_take; lia). rewrite length_take.
    replace (8 - 8 `min` length stack)%nat with 0%nat by lia. unfold recv_into. rewrite drop_0, take_ge by lia. by rewrite drop_drop. }
  assert (∀ o, 8 ≤ o → o + 6 ≤ 22 → slice pkt o 6 = take 6 (drop (Z.to_nat (o - 8)) f)) as Hs.
  { intros o Ho Ho'. unfold slice. replace (Z.to_nat o) with (8 + Z.to_nat (o - 8))%nat by lia.
    rewrite <- drop_drop, Ed, drop_app_le, take_app_le by (rewrite ?length_drop; lia). done. }
  rewrite (Hs 8), (Hs 14) by lia. change (take 6 (drop (Z.to_nat (8 - 8)) f)) with (dest_of f).
  change (take 6 (drop (Z.to_nat (14 - 8)) f)) with (src_of f).
  destruct (vx_update_spec (vx_hash s) (src_of f) 1 now Hwf) as (st & Eu & Hwf' & Hmp & Hm). rewrite Eu. cbn [mbind option_bind].
  assert (∀ a, vxlan_send id addr a pkt (u64 (Z.of_nat (length f))) = Some (VxSend (if negb (a =? 0) then a else addr) (encaps id f))) as Ev.
  { intros a. unfold vxlan_send, VX_OFF. change (Z.to_nat 8) with 8%nat. rewrite Ed, (u64_small (Z.of_nat (length f))), u64_small by lia.
    set (hd := [8; 0; 0; 0] ++ hton24 id ++ [0] ++ f ++ drop (8 + length f) stack).
    assert (hd = encaps id f ++ drop (8 + length f) stack) as -> by done.
    destruct (Z.ltb_spec (Z.of_nat (length (encaps id f ++ drop (8 + length f) stack))) (Z.of_nat (length f) + 8)) as [Hlt|_].
    { rewrite length_app in Hlt. change (length (encaps id f)) with (8 + length f)%nat in Hlt. lia. }
    replace (Z.to_nat (Z.of_nat (length f) + 8)) with (length (encaps id f)) by (change (length (encaps id f)) with (8 + length f)%nat; lia).
    by rewrite take_app_length. }
  exists (Vxlan st (last_t s)). cbn [vx_hash last_t]. split; [|done]. unfold from_plug.
  destruct (bcast (dest_of f)); cbn [orb]; [by rewrite Ev|].
  rewrite vx_find_spec by done. cbn [mbind option_bind]. set (d := side _ _).
  destruct (Z.eqb_spec d 0); [by rewrite Ev|]. destruct (Z.ltb_spec 1 d); [rewrite Ev | done].
  by destruct (Z.eqb_spec d 0).
Qed.

(** A datagram of another VXLAN or with other flags. *)
Definition foreign_datagram (d : list Z) : Prop :=
  (7 ≤ length d)%nat ∧ (nth 0 d 0 ≠ 8 ∨ ntoh24 (slice d 4 3) ≠ id).

Lemma process_foreign now ok stack src d s : foreign_datagram d →
  vxlan_process id now ok stack src (Some d) s = Some (s, []).
Proof.
  intros [Hl Hf]. unfold vxlan_process. cbn [from_option]. unfold Datatypes.id.
  assert (∃ a, recv_into VXLAN_PKT d stack = take 7 d ++ a) as [a Ea].
  { unfold recv_into. exists (drop 7 (take (Z.to_nat VXLAN_PKT) d) ++ drop (length (take (Z.to_nat VXLAN_PKT) d)) stack).
    rewrite app_assoc. f_equal. rewrite <- (take_drop 7 (take _ d)) at 1. f_equal. rewrite take_take. f_equal. }
  destruct d as [|d0 [|d1 [|d2 [|d3 [|d4 [|d5 [|d6 d]]]]]]]; cbn [length] in Hl; try lia.
  rewrite Ea. cbn [take app nth] in *. destruct (Z.eqb_spec d0 8) as [->|]; [|done]. cbn [negb].
  destruct Hf as [Hf|Hf]; [done|]. change (slice (8 :: d1 :: d2 :: d3 :: d4 :: d5 :: d6 :: take 0 d ++ a) 4 3) with [d4; d5; d6].
  change (slice (8 :: d1 :: d2 :: d3 :: d4 :: d5 :: d6 :: d) 4 3) with [d4; d5; d6] in Hf. by destruct (Z.eqb_spec (ntoh24 [d4; d5; d6]) id).
Qed.

(** *** The abstract machine *)

Inductive vx_in := InNothing | InFrame (f : list Z).
Inductive vx_net := NetNothing | NetFrame (src : Z) (f : list Z) | NetForeign (src : Z) (d : list Z).

(** The times are constants of the program. *)
Definition abs_plug (now : Z) (i : vx_in) (m : gmap Z (Z * Z)) : gmap Z (Z * Z) * list vx_out :=
  match i with
  | InNothing => (m, [])
  | InFrame f => let m' := learn MIN_PERSISTENCE_DFL now (vx_key id (src_of f)) 1 m in (m', from_plug id addr f m')
  end.
Definition abs_net (now : Z) (i : vx_net) (m : gmap Z (Z * Z)) : gmap Z (Z * Z) * list vx_out :=
  match i with
  | NetFrame src f => let m' := learn MIN_PERSISTENCE_DFL now (vx_key id (src_of f)) src m in (m', from_vxlan id f m')
  | _ => (m, [])
  end.
Definition abs_gc (now : Z) (a : gmap Z (Z * Z) * Z) : gmap Z (Z * Z) * Z :=
  if VX_GC_INTERVAL <? now - a.2 then (filter (λ kv, now ≤ kv.2.2 + GC_EXPIRE) a.1, now) else a.
Definition abs_turn (now : Z) (i : vx_in) (n : vx_net) (a : gmap Z (Z * Z) * Z) : (gmap Z (Z * Z) * Z) * list vx_out :=
  let '(m, o1) := abs_plug now i a.1 in
  let '(m, o2) := abs_net now n m in
  (abs_gc now (m, a.2), o1 ++ o2).

(** *** The simulation *)

Definition events_of (i : vx_in) (n : vx_net) : vx_events :=
  VxEvents false (match i with InNothing => None | InFrame f => Some (Some f) end)
    (match n with
     | NetNothing => None
     | NetFrame src f => Some (src, Some (encaps id f))
     | NetForeign src d => Some (src, Some d)
     end).
Definition inputs_ok (i : vx_in) (n : vx_net) : Prop :=
  (match i with InNothing => True | InFrame f => frame_ok f end) ∧
  (match n with NetNothing => True | NetFrame _ f => frame_ok f | NetForeign _ d => foreign_datagram d end).
Record vx_rel (s : vxlan) (a : gmap Z (Z * Z) * Z) : Prop := {
  rel_wf : hash_wf (vx_hash s);
  rel_map : hash_map (vx_hash s) = a.1;
  rel_last : last_t s = a.2;
  rel_minper : min_persistence (vx_hash s) = MIN_PERSISTENCE_DFL;
  rel_expire : gc_expire (vx_hash s) = GC_EXPIRE
}.

Lemma plug_rel now stack i s a :
  (match i with InNothing => True | InFrame f => frame_ok f end) → Z.of_nat (length stack) = VXLAN_PKT → vx_rel s a →
  ∃ s', match ev_plug (events_of i NetNothing) with Some r => plug_process id addr now true stack r s | None => Some (s, []) end
      = Some (s', (abs_plug now i a.1).2) ∧ vx_rel s' ((abs_plug now i a.1).1, a.2).
Proof.
  intros Hi Hst [Hwf Hm Hl Hmp Hgc]. destruct i as [|f]; cbn [events_of ev_plug abs_plug fst snd]; [exists s; by destruct a|].
  destruct (plug_frame now stack f s Hi Hst Hwf) as (s' & E & Hwf' & Hl' & [Hmp' Hgc'] & Hm').
  rewrite Hmp, Hm in Hm'. rewrite Hm' in E. exists s'. split; [exact E|]. by split; cbn [fst snd]; congruence || done.
Qed.

Lemma net_rel now stack n s a :
  (match n with NetNothing => True | NetFrame _ f => frame_ok f | NetForeign _ d => foreign_datagram d end) →
  Z.of_nat (length stack) = VXLAN_PKT → vx_rel s a →
  ∃ s', match ev_vxlan (events_of InNothing n) with Some (src, r) => vxlan_process id now true stack src r s | None => Some (s, []) end
      = Some (s', (abs_net now n a.1).2) ∧ vx_rel s' ((abs_net now n a.1).1, a.2).
Proof.
  intros Hn Hst Hr. pose proof Hr as [Hwf Hm Hl Hmp Hgc].
  destruct n as [|src f|src d]; cbn [events_of ev_vxlan abs_net fst snd]; [exists s; by destruct a | |
    exists s; rewrite process_foreign by done; by destruct a].
  destruct (process_frame now stack src f s Hn Hst Hwf) as (s' & E & Hwf' & Hl' & [Hmp' Hgc'] & Hm').
  rewrite Hmp, Hm in Hm'. rewrite Hm' in E. exists s'. split; [exact E|]. by split; cbn [fst snd]; congruence || done.
Qed.

Lemma gc_rel now s a : vx_rel s a → ∃ s', vx_hash_gc now s = Some s' ∧ vx_rel s' (abs_gc now a).
Proof.
  intros Hr. pose proof Hr as [Hwf Hm Hl Hmp Hgc]. unfold vx_hash_gc, abs_gc. rewrite Hl.
  destruct (VX_GC_INTERVAL <? now - a.2); [|by exists s].
  destruct (for_all_hash_spec (vx_hash s) (gc (gc_expire (vx_hash s)) now) Hwf) as (st & -> & Hwf' & Hmp' & Hgc' & _ & Hm').
  exists (Vxlan st now). split; [done|]. split; cbn [vx_hash last_t fst snd]; [done | | done | congruence | congruence].
  rewrite Hm', Hm. apply map_filter_ext. intros k [p t] _. unfold gc. cbn [last_seen fst snd]. rewrite Hgc. by rewrite Z.ltb_ge.
Qed.

Lemma turn_rel now stack i n s a : inputs_ok i n → Z.of_nat (length stack) = VXLAN_PKT → vx_rel s a →
  ∃ s', vx_turn id addr now true stack (events_of i n) s = Some (Some (s', (abs_turn now i n a).2)) ∧ vx_rel s' (abs_turn now i n a).1.
Proof.
  intros [Hi Hn] Hst Hr. destruct (plug_rel now stack i s a Hi Hst Hr) as (s1 & E1 & R1).
  destruct (net_rel now stack n s1 _ Hn Hst R1) as (s2 & E2 & R2). destruct (gc_rel now s2 _ R2) as (s3 & E3 & R3).
  unfold vx_turn, abs_turn. cbn [events_of ev_hup ev_plug ev_vxlan] in *.
  destruct (abs_plug now i a.1) as [m1 o1]. cbn [fst snd] in *. rewrite E1. cbn [mbind option_bind].
  destruct (abs_net now n m1) as [m2 o2]. cbn [fst snd] in *. rewrite E2. cbn [mbind option_bind]. rewrite E3. cbn [mbind option_bind].
  exists s3. done.
Qed.

(** A turn: the time, what the stack holds, the frame and the datagram. *)
Definition turn : Type := Z * list Z * vx_in * vx_net.
Definition turn_ok (t : turn) : Prop := let '(_, stack, i, n) := t in Z.of_nat (length stack) = VXLAN_PKT ∧ inputs_ok i n.

Fixpoint vx_run (l : list turn) (s : vxlan) : option (vxlan * list (list vx_out)) :=
  match l with
  | [] => Some (s, [])
  | (now, stack, i, n) :: l =>
    r ← vx_turn id addr now true stack (events_of i n) s;
    '(s, o) ← r;
    '(s, os) ← vx_run l s;
    Some (s, o :: os)
  end.
Fixpoint abs_run (l : list turn) (a : gmap Z (Z * Z) * Z) : list (list vx_out) :=
  match l with
  | [] => []
  | (now, _, i, n) :: l => let '(a, o) := abs_turn now i n a in o :: abs_run l a
  end.

Lemma run_rel l : ∀ s a, Forall turn_ok l → vx_rel s a → ∃ s', vx_run l s = Some (s', abs_run l a) ∧ hash_wf (vx_hash s').
Proof.
  induction l as [|[[[now stack] i] n] l IH]; intros s a Hl Hr; [exists s; split; [done | apply Hr]|].
  apply Forall_cons in Hl as [[Hst Hin] Hl]. cbn [vx_run abs_run].
  destruct (turn_rel now stack i n s a Hin Hst Hr) as (s1 & E1 & R1). rewrite E1. cbn [mbind option_bind].
  destruct (abs_turn now i n a) as [a1 o1]. cbn [fst snd] in *. destruct (IH s1 a1 Hl R1) as (s2 & E2 & Hwf).
  rewrite E2. exists s2. done.
Qed.

Lemma init_rel : ∃ s, vx_hash_init INIT_HASH_SIZE = Some s ∧ vx_rel s (∅, 0).
Proof.
  eexists. split; [reflexivity|]. split; cbn [vx_hash last_t fst snd]; [apply hash_wf_init; lia | apply hash_map_HASH_INIT | done..].
Qed.
End facts.

(** C8: From its start, and for any sequence of turns in which the switch sends
    frames of 14 to 1518 bytes and the network datagrams that are such a frame
    encapsulated for this VXLAN or at least 7 bytes that are not for it ([turn_ok]),
    the program does not fault and sends exactly what a learning bridge between two
    sides sends: the hash table behind it is the map of the stations, stations that
    were silent for more than 100 seconds are forgotten, and datagrams of other
    VXLANs are ignored. Shorter datagrams and longer frames are read and written out
    of bounds ([short_datagram_overreads], [long_frame_overflows]). *)
Theorem vxlan_refines_bridge id addr (l : list turn) : 0 ≤ id < 2 ^ 24 → Forall (turn_ok id) l →
  ∃ s0 s, vx_hash_init INIT_HASH_SIZE = Some s0 ∧ vx_run id addr l s0 = Some (s, abs_run id addr l (∅, 0)).
Proof.
  intros Hid Hl. destruct init_rel as (s0 & E0 & R0). destruct (run_rel id addr Hid l s0 _ Hl R0) as (s & E & _). eauto.
Qed.

(** ** A conversation *)

(** Only the low 16 bits of the VXLAN identifier enter the key. *)
Lemma extmac_low16 mac vlan : macP mac → 0 ≤ vlan < 2 ^ 24 → extmac mac vlan = extmac mac (vlan mod 2 ^ 16).
Proof.
  intros (a & b & c & d & e & f & -> & ?)%macP_inv Hv. destruct_and!. unfold byteP in *.
  unfold extmac, mac_byte. cbn [nth]. rewrite !Z.shiftl_mul_pow2 by lia.
  assert (0 ≤ vlan mod 2 ^ 16 < 2 ^ 16) by (apply Z.mod_pos_bound; lia).
  rewrite (u64_small vlan), (u64_small (vlan mod _)), (u64_small (vlan * _)), (u64_small (vlan mod _ * _)) by lia.
  rewrite (u64_small (_ + vlan * _)), (u64_small (_ + vlan mod _ * _)) by lia. do 2 f_equal. unfold u64.
  replace vlan with (vlan / 2 ^ 16 * 2 ^ 16 + vlan mod 2 ^ 16) at 1 by dlia.
  set (q := vlan / 2 ^ 16). set (r := vlan mod 2 ^ 16).
  replace ((e + f * 2 ^ 8 + (q * 2 ^ 16 + r) * 2 ^ 16) * 2 ^ 32) with ((e + f * 2 ^ 8 + r * 2 ^ 16) * 2 ^ 32 + q * 2 ^ 64) by lia.
  apply Z.mod_add. lia.
Qed.

Lemma vx_key_inj id x y : 0 ≤ id < 2 ^ 24 → macP x → macP y → vx_key id x = vx_key id y → x = y.
Proof.
  intros Hid Hx Hy. unfold vx_key. rewrite (extmac_low16 x), (extmac_low16 y) by done.
  assert (0 ≤ id mod 2 ^ 16 < 2 ^ 16) as Hm by (apply Z.mod_pos_bound; lia).
  destruct (extmac_unpack x _ Hx Hm) as (_ & Ex & _). destruct (extmac_unpack y _ Hy Hm) as (_ & Ey & _). congruence.
Qed.

Lemma src_of_mac f : frame_ok f → macP (src_of f) ∧ macP (dest_of f).
Proof.
  intros (H14 & _ & Hb). split; (split; [unfold src_of, dest_of; rewrite length_take, ?length_drop; lia|]).
  - by apply Forall_take, Forall_drop.
  - by apply Forall_take.
Qed.

Lemma side_learn_other mp now k k' p m : k ≠ k' → side k (learn mp now k' p m) = side k m.
Proof. intros H. unfold side, learn. by rewrite lookup_insert_ne. Qed.
Lemma side_learn_new mp now k p m : m !! k = None → side k (learn mp now k p m) = p.
Proof. intros H. unfold side, learn. by rewrite lookup_insert_eq, H. Qed.

Lemma lookup_gc now m t k v : m !! k = Some v → now ≤ v.2 + GC_EXPIRE → (abs_gc now (m, t)).1 !! k = Some v.
Proof.
  intros H Hv. unfold abs_gc. cbn [fst snd]. destruct (_ <? _); [|done]. cbn [fst]. by apply map_lookup_filter_Some_2.
Qed.

(** Turns in which nothing arrives. *)
Definition idle (stack : list Z) (t : Z) : turn := (t, stack, InNothing, NetNothing).

Lemma idle_run id addr stack ts l k v : ∀ m u, m !! k = Some v → Forall (λ t, t ≤ v.2 + GC_EXPIRE) ts →
  ∃ m' u', m' !! k = Some v ∧ abs_run id addr ((idle stack <$> ts) ++ l) (m, u) = replicate (length ts) [] ++ abs_run id addr l (m', u').
Proof.
  induction ts as [|t ts IH]; intros m u Hk Ht; [by exists m, u|]. apply Forall_cons in Ht as [Ht Hts].
  rewrite fmap_cons. change (idle stack t) with (t, stack, InNothing, NetNothing).
  cbn [app abs_run abs_turn abs_plug abs_net fst snd length replicate].
  pose proof (lookup_gc t m u k v Hk Ht) as Hgc. destruct (abs_gc t (m, u)) as [m1 u1]. cbn [fst] in Hgc.
  destruct (IH m1 u1 Hgc Hts) as (m' & u' & Hm' & E). exists m', u'. split; [done|]. by rewrite E.
Qed.

Section conversation.
Context (id addr a b : Z) (f g : list Z) (t t' : Z) (ts : list Z) (stack : list Z).
Context (Hid : 0 ≤ id < 2 ^ 24) (Ha : 1 < a) (Hf : frame_ok f) (Hg : frame_ok g).
Context (Hbc : bcast (dest_of f) = true) (Hd : dest_of g = src_of f) (Hne : src_of g ≠ src_of f) (Hnb : bcast (src_of f) = false).
Context (Hts : Forall (λ u, u ≤ t + GC_EXPIRE) ts).

Lemma keys_differ : vx_key id (src_of f) ≠ vx_key id (src_of g).
Proof.
  intros E. apply Hne. symmetry. exact (vx_key_inj id _ _ Hid (proj1 (src_of_mac f Hf)) (proj1 (src_of_mac g Hg)) E).
Qed.

(** The station that sent [f] is known on its side after the first turn. *)
Lemma known_first p : (abs_gc t (learn MIN_PERSISTENCE_DFL t (vx_key id (src_of f)) p ∅, 0)).1 !! vx_key id (src_of f) = Some (p, t).
Proof. apply lookup_gc; [|cbn; unfold GC_EXPIRE; lia]. unfold learn. by rewrite lookup_insert_eq, lookup_empty. Qed.

Lemma side_after m p q : m !! vx_key id (src_of f) = Some (p, t) →
  side (vx_key id (src_of f)) (learn MIN_PERSISTENCE_DFL t' (vx_key id (src_of g)) q m) = p.
Proof. intros Hm. rewrite side_learn_other by apply keys_differ. unfold side. by rewrite Hm. Qed.

Lemma bridge_A :
  abs_run id addr ((t, stack, InFrame f, NetNothing) :: (idle stack <$> ts) ++ [(t', stack, InNothing, NetFrame b g)]) (∅, 0)
    = [VxSend addr (encaps id f)] :: replicate (length ts) [] ++ [[PlugSend g]].
Proof.
  cbn [abs_run]. cbn [abs_turn abs_plug abs_net fst snd app]. unfold from_plug at 1. rewrite Hbc. cbn [orb app].
  pose proof (known_first 1) as Hk. destruct (abs_gc t _) as [m u]. cbn [fst] in Hk.
  destruct (idle_run id addr stack ts [(t', stack, InNothing, NetFrame b g)] _ _ m u Hk Hts) as (m' & u' & Hm' & E).
  f_equal. etransitivity; [exact E|]. f_equal. cbn [abs_run abs_turn abs_plug abs_net fst snd app]. unfold from_vxlan. by rewrite Hd, Hnb, (side_after m' 1).
Qed.

Lemma bridge_B :
  abs_run id addr ((t, stack, InNothing, NetFrame a f) :: (idle stack <$> ts) ++ [(t', stack, InFrame g, NetNothing)]) (∅, 0)
    = [PlugSend f] :: replicate (length ts) [] ++ [[VxSend a (encaps id g)]].
Proof.
  cbn [abs_run]. cbn [abs_turn abs_plug abs_net fst snd app]. unfold from_vxlan at 1. rewrite Hbc. cbn [orb app].
  pose proof (known_first a) as Hk. destruct (abs_gc t _) as [m u]. cbn [fst] in Hk.
  destruct (idle_run id addr stack ts [(t', stack, InFrame g, NetNothing)] _ _ m u Hk Hts) as (m' & u' & Hm' & E).
  f_equal. etransitivity; [exact E|]. f_equal. cbn [abs_run abs_turn abs_plug abs_net fst snd app]. unfold from_plug. rewrite Hd, Hnb, (side_after m' a) by done. cbn [orb].
  destruct (Z.eqb_spec a 0); [lia|]. destruct (Z.ltb_spec 1 a); [done | lia].
Qed.

Lemma idle_turns_ok first last_ : Z.of_nat (length stack) = VXLAN_PKT → turn_ok id first → turn_ok id last_ →
  Forall (turn_ok id) (first :: (idle stack <$> ts) ++ [last_]).
Proof.
  intros Hst H1 H2. constructor; [done|]. apply Forall_app. split; [|by apply Forall_singleton].
  apply Forall_fmap, Forall_true. intros x. by split.
Qed.
End conversation.

(** two bridges at the addresses [a] and [b] carry a conversation: the
    broadcast of a station behind [a] goes to the multicast group and comes
    unchanged out of the bridge at [b]; the answer of a station behind [b],
    within 100 seconds, goes to [a] alone and comes unchanged out of the bridge
    at [a]; while nothing arrives, nothing is sent. *)
Theorem vxlan_conversation id addr a b f g tA tA' tsA tB tB' tsB stack :
  0 ≤ id < 2 ^ 24 → 1 < a → Z.of_nat (length stack) = VXLAN_PKT → frame_ok f → frame_ok g →
  bcast (dest_of f) = true → dest_of g = src_of f → src_of g ≠ src_of f → bcast (src_of f) = false →
  Forall (λ u, u ≤ tA + GC_EXPIRE) tsA → Forall (λ u, u ≤ tB + GC_EXPIRE) tsB →
  ∃ s0 sA sB, vx_hash_init INIT_HASH_SIZE = Some s0 ∧
    vx_run id addr ((tA, stack, InFrame f, NetNothing) :: (idle stack <$> tsA) ++ [(tA', stack, InNothing, NetFrame b g)]) s0
      = Some (sA, [VxSend addr (encaps id f)] :: replicate (length tsA) [] ++ [[PlugSend g]]) ∧
    vx_run id addr ((tB, stack, InNothing, NetFrame a f) :: (idle stack <$> tsB) ++ [(tB', stack, InFrame g, NetNothing)]) s0
      = Some (sB, [PlugSend f] :: replicate (length tsB) [] ++ [[VxSend a (encaps id g)]]).
Proof.
  intros Hid Ha Hst Hf Hg Hbc Hd Hne Hnb HtA HtB.
  assert (turn_ok id (tA, stack, InFrame f, NetNothing) ∧ turn_ok id (tA', stack, InNothing, NetFrame b g) ∧
          turn_ok id (tB, stack, InNothing, NetFrame a f) ∧ turn_ok id (tB', stack, InFrame g, NetNothing)) as (T1 & T2 & T3 & T4) by done.
  destruct init_rel as (s0 & E0 & R0).
  destruct (run_rel id addr Hid _ s0 _ (idle_turns_ok id tsA stack _ _ Hst T1 T2) R0) as (sA & EA & _).
  destruct (run_rel id addr Hid _ s0 _ (idle_turns_ok id tsB stack _ _ Hst T3 T4) R0) as (sB & EB & _).
  exists s0, sA, sB. split; [done|]. rewrite bridge_A in EA by done. rewrite bridge_B in EB by done. by split.
Qed.

(** ** Witnesses *)

Definition demo_f : list Z := replicate 6 255 ++ [2; 0; 0; 0; 0; 1] ++ [8; 0] ++ [7; 7].
Definition demo_g : list Z := [2; 0; 0; 0; 0; 1] ++ [2; 0; 0; 0; 0; 2] ++ [8; 0] ++ [9].

Lemma demo_frames_ok : frame_ok demo_f ∧ frame_ok demo_g.
Proof. split; (split; [cbn; lia|]; split; [cbn; unfold ETH_PKT; lia|]; repeat (constructor; [unfold byteP; lia|]); constructor). Qed.

Lemma vxlan_conversation_witness :
  ∃ s0 sA, vx_hash_init INIT_HASH_SIZE = Some s0 ∧
    vx_run 70000 4009754625 ((100, replicate 1526 0, InFrame demo_f, NetNothing) :: (idle (replicate 1526 0) <$> [150; 190])
        ++ [(300, replicate 1526 0, InNothing, NetFrame 33 demo_g)]) s0
      = Some (sA, [[VxSend 4009754625 (encaps 70000 demo_f)]; []; []; [PlugSend demo_g]]).
Proof.
  destruct (vxlan_conversation 70000 4009754625 22 33 demo_f demo_g 100 300 [150; 190] 100 101 [] (replicate 1526 0))
    as (s0 & sA & sB & E0 & EA & _); try done; try lia; try apply demo_frames_ok.
  - repeat (apply Forall_cons; split; [unfold GC_EXPIRE; lia|]). constructor.
  - exists s0, sA. split; [exact E0 | exact EA].
Defined.

Lemma vxlan_refines_bridge_witness :
  ∃ s0 s, vx_hash_init INIT_HASH_SIZE = Some s0 ∧
    vx_run 5 9 [(1, replicate 1526 0, InFrame demo_f, NetForeign 7 [8; 0; 0; 0; 0; 0; 6; 0])] s0
      = Some (s, abs_run 5 9 [(1, replicate 1526 0, InFrame demo_f, NetForeign 7 [8; 0; 0; 0; 0; 0; 6; 0])] (∅, 0)).
Proof.
  apply (vxlan_refines_bridge 5 9 [(1, replicate 1526 0, InFrame demo_f, NetForeign 7 [8; 0; 0; 0; 0; 0; 6; 0])]); [lia|].
  apply Forall_singleton. split; [vm_compute; reflexivity|]. split; [apply demo_frames_ok|].
  split; [cbn; lia | right; vm_compute; discriminate].
Defined.

(** ** What goes wrong *)

(** A datagram shorter than the header is not refused: with the header of an
    earlier packet still on the stack, its length minus 8 is a huge [size_t] and
    the bytes behind the buffer are sent. *)
Lemma short_datagram_overreads :
  (s ← vx_hash_init INIT_HASH_SIZE;
   vxlan_process 5 1 true (recv_into VXLAN_PKT (encaps 5 demo_f) (replicate 1526 0)) 22 (Some [8; 0; 0]) s) = None.
Proof. vm_compute. reflexivity. Qed.

(** A frame of more than 1518 bytes is written behind the packet. *)
Lemma long_frame_overflows :
  (s ← vx_hash_init INIT_HASH_SIZE; plug_process 5 9 1 true (replicate 1526 0) (Some (replicate 1519 1)) s) = None.
Proof. vm_compute. reflexivity. Qed.

(** An error of [vde_recv] is reported and then handled like a frame: what the
    stack holds is learned and seven bytes of header are sent. *)
Lemma receive_error_sends :
  (s ← vx_hash_init INIT_HASH_SIZE; '(_, o) ← plug_process 5 9 1 true (recv_into VXLAN_PKT (encaps 5 demo_f) (replicate 1526 0)) None s; Some o)
    = Some [VxSend 9 [8; 0; 0; 0; 0; 0; 5]].
Proof. vm_compute. reflexivity. Qed.
