(* ===== verification/VArp.v ===== *)
(** * VArp: the neighbours of an interface of [vde_router]

    [vder_arp.c] keeps the neighbours of an interface in a red-black tree of
    [rbtree.c], ordered by address.  A node of the tree with its links to the
    parents is a focused subtree: the subtree and the path of frames from it to
    the root; the loop of [rb_insert_color] climbs that path.  The theorem: any
    sequence of insertions keeps the tree a search tree with the red-black
    balance, and the tree is the finite map from addresses to their last MAC
    address. *)
From Stdlib Require Import Lia.
From stdpp Require Import base numbers list gmap sorting.
From S2P Require Import Prelude.

(** ** Byte order *)

(** [ntohl] and [htonl] of a little-endian host. *)
Definition ntohl (x : Z) : Z :=
  u8 x * 2 ^ 24 + u8 (Z.shiftr x 8) * 2 ^ 16 + u8 (Z.shiftr x 16) * 2 ^ 8 + u8 (Z.shiftr x 24).
Definition ntohs (x : Z) : Z := u8 x * 2 ^ 8 + u8 (Z.shiftr x 8).

#[global] Arguments ntohl : simpl never.
#[global] Arguments ntohs : simpl never.

Lemma ntohl_bytes a b c d : byteP a → byteP b → byteP c → byteP d →
  ntohl (a + b * 2 ^ 8 + c * 2 ^ 16 + d * 2 ^ 24) = d + c * 2 ^ 8 + b * 2 ^ 16 + a * 2 ^ 24.
Proof.
  unfold byteP. intros Ha Hb Hc Hd. unfold ntohl. rewrite !Z.shiftr_div_pow2 by lia.
  set (x := a + b * 2 ^ 8 + c * 2 ^ 16 + d * 2 ^ 24).
  assert (x / 2 ^ 8 = b + c * 2 ^ 8 + d * 2 ^ 16) as -> by (unfold x; dlia).
  assert (x / 2 ^ 16 = c + d * 2 ^ 8) as -> by (unfold x; dlia).
  assert (x / 2 ^ 24 = d) as -> by (unfold x; dlia).
  assert (u8 x = a) as -> by (unfold x, u8; dlia).
  assert (u8 (b + c * 2 ^ 8 + d * 2 ^ 16) = b) as -> by (unfold u8; dlia).
  assert (u8 (c + d * 2 ^ 8) = c) as -> by (unfold u8; dlia).
  rewrite u8_small by lia. lia.
Qed.
Lemma split_bytes x : 0 ≤ x < 2 ^ 32 →
  ∃ a b c d, byteP a ∧ byteP b ∧ byteP c ∧ byteP d ∧ x = a + b * 2 ^ 8 + c * 2 ^ 16 + d * 2 ^ 24.
Proof.
  intros Hx. unfold byteP. exists (x mod 256), (x / 256 mod 256), (x / 65536 mod 256), (x / 16777216).
  assert (x / 65536 = x / 256 / 256) as E1 by (rewrite Z.div_div by lia; done).
  assert (x / 16777216 = x / 256 / 256 / 256) as E2 by (rewrite !Z.div_div by lia; done).
  rewrite E1, E2. set (y := x / 256). set (z := y / 256). assert (x = 256 * y + x mod 256) by (unfold y; dlia).
  assert (y = 256 * z + y mod 256) by (unfold z; dlia). assert (z = 256 * (z / 256) + z mod 256) by dlia.
  pose proof (Z.mod_pos_bound x 256). pose proof (Z.mod_pos_bound y 256). pose proof (Z.mod_pos_bound z 256). lia.
Qed.
Lemma ntohl_involutive x : 0 ≤ x < 2 ^ 32 → ntohl (ntohl x) = x.
Proof. intros (a & b & c & d & Ha & Hb & Hc & Hd & ->)%split_bytes. by rewrite !ntohl_bytes. Qed.
Lemma ntohl_range x : 0 ≤ ntohl x < 2 ^ 32.
Proof.
  unfold ntohl. pose proof (u8_range x). pose proof (u8_range (Z.shiftr x 8)). pose proof (u8_range (Z.shiftr x 16)).
  pose proof (u8_range (Z.shiftr x 24)). lia.
Qed.
Lemma ntohl_inj x y : 0 ≤ x < 2 ^ 32 → 0 ≤ y < 2 ^ 32 → ntohl x = ntohl y → x = y.
Proof. intros Hx Hy E. rewrite <- (ntohl_involutive x), <- (ntohl_involutive y) by done. by rewrite E. Qed.

(** ** Trees *)

Record vder_arp_entry := ArpEntry { ipaddr : Z; macaddr : list Z }.

Inductive rb_color := RB_RED | RB_BLACK.
Inductive rb_tree := Leaf | Node (c : rb_color) (l : rb_tree) (e : vder_arp_entry) (r : rb_tree).

(** The step from a node to its parent: on which side of it the node is, the
    parent and the other child. *)
Inductive side := LeftOf | RightOf.
Record frame := Frame { f_side : side; f_color : rb_color; f_entry : vder_arp_entry; f_other : rb_tree }.

(** The parent of [node]. *)
Definition join (f : frame) (node : rb_tree) : rb_tree :=
  match f_side f with
  | LeftOf => Node (f_color f) node (f_entry f) (f_other f)
  | RightOf => Node (f_color f) (f_other f) (f_entry f) node
  end.
(** The root. *)
Fixpoint plug (node : rb_tree) (path : list frame) : rb_tree :=
  match path with
  | [] => node
  | f :: path' => plug (join f node) path'
  end.

Definition rb_is_red (t : rb_tree) : bool := match t with Node RB_RED _ _ _ => true | _ => false end.
Definition rb_set_black (t : rb_tree) : rb_tree := match t with Node _ l e r => Node RB_BLACK l e r | Leaf => Leaf end.
Definition rb_set_red (t : rb_tree) : rb_tree := match t with Node _ l e r => Node RB_RED l e r | Leaf => Leaf end.

(** [None] is a NULL dereference. *)
Definition rb_rotate_left (t : rb_tree) : option rb_tree :=
  match t with Node c l e (Node c' rl e' rr) => Some (Node c' (Node c l e rl) e' rr) | _ => None end.
Definition rb_rotate_right (t : rb_tree) : option rb_tree :=
  match t with Node c (Node c' ll e' lr) e r => Some (Node c' ll e' (Node c lr e r)) | _ => None end.

Fixpoint insert_color_loop (node : rb_tree) (path : list frame) : option rb_tree :=
  match path with
  | [] => Some node
  | p :: path1 =>
    match f_color p with
    | RB_BLACK => Some (plug node path)
    | RB_RED =>
      match path1 with
      | [] => None
      | g :: path2 =>
        let parent := join p node in
        let uncle := f_other g in
        match f_side g with
        | LeftOf =>
          if rb_is_red uncle then
            insert_color_loop (Node RB_RED (rb_set_black parent) (f_entry g) (rb_set_black uncle)) path2
          else
            parent ← match f_side p with RightOf => rb_rotate_left parent | LeftOf => Some parent end;
            t ← rb_rotate_right (rb_set_red (Node (f_color g) (rb_set_black parent) (f_entry g) uncle));
            Some (plug t path2)
        | RightOf =>
          if rb_is_red uncle then
            insert_color_loop (Node RB_RED (rb_set_black uncle) (f_entry g) (rb_set_black parent)) path2
          else
            parent ← match f_side p with LeftOf => rb_rotate_right parent | RightOf => Some parent end;
            t ← rb_rotate_left (rb_set_red (Node (f_color g) uncle (f_entry g) (rb_set_black parent)));
            Some (plug t path2)
        end
      end
    end
  end.
Definition rb_insert_color (node : rb_tree) (path : list frame) : option rb_tree :=
  root ← insert_color_loop node path; Some (rb_set_black root).

(** ** The table *)

Definition RB_ROOT : rb_tree := Leaf.

(** The search of [vder_add_arp_entry]: the node with the address, or the place
    for it. *)
Fixpoint find_link (hostorder_ip : Z) (t : rb_tree) (path : list frame) : rb_tree * list frame :=
  match t with
  | Leaf => (Leaf, path)
  | Node c l e r =>
    if hostorder_ip <? ntohl (ipaddr e) then find_link hostorder_ip l (Frame LeftOf c e r :: path)
    else if ntohl (ipaddr e) <? hostorder_ip then find_link hostorder_ip r (Frame RightOf c e l :: path)
    else (t, path)
  end.
Definition vder_add_arp_entry (p : vder_arp_entry) (t : rb_tree) : option rb_tree :=
  match find_link (ntohl (ipaddr p)) t [] with
  | (Node c l e r, path) => Some (plug (Node c l (ArpEntry (ipaddr e) (macaddr p)) r) path)
  | (Leaf, path) => rb_insert_color (Node RB_RED Leaf p Leaf) path
  end.

Fixpoint get_arp_loop (hostorder_ip : Z) (t : rb_tree) : option vder_arp_entry :=
  match t with
  | Leaf => None
  | Node _ l e r =>
    if hostorder_ip <? ntohl (ipaddr e) then get_arp_loop hostorder_ip l
    else if ntohl (ipaddr e) <? hostorder_ip then get_arp_loop hostorder_ip r
    else Some e
  end.
Definition vder_get_arp_entry (t : rb_tree) (addr : Z) : option vder_arp_entry := get_arp_loop (ntohl addr) t.

(** Both walk down one spine of the tree, then the other. *)
Fixpoint left_spine (t : rb_tree) : list vder_arp_entry := match t with Leaf => [] | Node _ l e _ => e :: left_spine l end.
Fixpoint right_spine (t : rb_tree) : list vder_arp_entry := match t with Leaf => [] | Node _ _ e r => e :: right_spine r end.
Definition vder_arp_get_record_by_macaddr (t : rb_tree) (mac : list Z) : option vder_arp_entry :=
  let same e := memcmp (macaddr e) mac =? 0 in
  match List.find same (left_spine t) with
  | Some e => Some e
  | None => List.find same (right_spine t)
  end.
(** The addresses written to [neighbors]; their number is the result. *)
Definition vder_arp_get_neighbors (t : rb_tree) (vector_size : Z) : option (list Z) :=
  if vector_size <=? 0 then None
  else
    let right := match t with Leaf => [] | Node _ _ _ r => right_spine r end in
    Some (take (Z.to_nat vector_size) (ipaddr <$> left_spine t ++ right)).

(** ** Invariants *)

Fixpoint inorder (t : rb_tree) : list vder_arp_entry :=
  match t with Leaf => [] | Node _ l e r => inorder l ++ e :: inorder r end.
Definition key (e : vder_arp_entry) : Z := ntohl (ipaddr e).
Definition entry_ok (e : vder_arp_entry) : Prop := 0 ≤ ipaddr e < 2 ^ 32.
Definition search_tree (t : rb_tree) : Prop :=
  StronglySorted Z.lt (key <$> inorder t) ∧ Forall entry_ok (inorder t).

(** A tree of black height [n] in which no red node has a red child. *)
Inductive balanced : rb_color → nat → rb_tree → Prop :=
  | bal_leaf : balanced RB_BLACK 0 Leaf
  | bal_red n l e r : balanced RB_BLACK n l → balanced RB_BLACK n r → balanced RB_RED n (Node RB_RED l e r)
  | bal_black c c' n l e r : balanced c n l → balanced c' n r → balanced RB_BLACK (S n) (Node RB_BLACK l e r).

(** A path on which a subtree of colour [c] and black height [n] gives a
    balanced tree with a black root. *)
Inductive balanced_path : rb_color → nat → list frame → Prop :=
  | bp_root n : balanced_path RB_BLACK n []
  | bp_red n s e t path : balanced RB_BLACK n t → balanced_path RB_RED n path →
      balanced_path RB_BLACK n (Frame s RB_RED e t :: path)
  | bp_black c c' n s e t path : balanced c' n t → balanced_path RB_BLACK (S n) path →
      balanced_path c n (Frame s RB_BLACK e t :: path).
#[export] Hint Constructors balanced balanced_path : vde.

Definition arp_inv (t : rb_tree) : Prop := search_tree t ∧ ∃ n, balanced RB_BLACK n t.

(** The map the table stands for. *)
Definition arp_map (t : rb_tree) : gmap Z (list Z) := list_to_map ((λ e, (ipaddr e, macaddr e)) <$> inorder t).

Fixpoint height (t : rb_tree) : nat := match t with Leaf => 0 | Node _ l _ r => S (max (height l) (height r)) end.

(** ** Traversal *)

Fixpoint before (path : list frame) : list vder_arp_entry :=
  match path with
  | [] => []
  | f :: p => before p ++ match f_side f with LeftOf => [] | RightOf => inorder (f_other f) ++ [f_entry f] end
  end.
Fixpoint after (path : list frame) : list vder_arp_entry :=
  match path with
  | [] => []
  | f :: p => match f_side f with LeftOf => f_entry f :: inorder (f_other f) | RightOf => [] end ++ after p
  end.

Lemma inorder_plug path : ∀ t, inorder (plug t path) = before path ++ inorder t ++ after path.
Proof.
  induction path as [|[[] c e o] path IH]; intros t; cbn [plug before after f_side f_other f_entry]; [by rewrite app_nil_r| |].
  - rewrite IH. unfold join. cbn [f_side f_color f_entry f_other inorder]. rewrite app_nil_r, <- !app_assoc. done.
  - rewrite IH. unfold join. cbn [f_side f_color f_entry f_other inorder]. rewrite <- !app_assoc. done.
Qed.

Lemma inorder_black t : inorder (rb_set_black t) = inorder t.
Proof. by destruct t. Qed.
Lemma inorder_red t : inorder (rb_set_red t) = inorder t.
Proof. by destruct t. Qed.
Lemma inorder_rotate_left t t' : rb_rotate_left t = Some t' → inorder t' = inorder t.
Proof. destruct t as [|c l e [|c' rl e' rr]]; try done. intros [= <-]. cbn. by rewrite <- app_assoc. Qed.
Lemma inorder_rotate_right t t' : rb_rotate_right t = Some t' → inorder t' = inorder t.
Proof. destruct t as [|c [|c' ll e' lr] e r]; try done. intros [= <-]. cbn. by rewrite <- app_assoc. Qed.

(** Induction on a path two frames at a time. *)
Lemma path_ind2 (Q : list frame → Prop) : Q [] → (∀ p, Q [p]) → (∀ p g path, Q path → Q (p :: g :: path)) → ∀ path, Q path.
Proof.
  intros H0 H1 H2. assert (∀ path, Q path ∧ ∀ p, Q (p :: path)) as H; [|apply H].
  induction path as [|g path [IH1 IH2]]; split; auto.
Qed.

Lemma insert_color_inorder path : ∀ node t, insert_color_loop node path = Some t → inorder t = inorder (plug node path).
Proof.
  induction path as [|p|p g path IH] using path_ind2; intros node t; cbn [insert_color_loop].
  - by intros [= <-].
  - destruct (f_color p); [done | by intros [= <-]].
  - destruct (f_color p); [|by intros [= <-]]. cbn [plug].
    assert (∀ u, inorder u = inorder (join g (join p node)) → inorder (plug u path) = inorder (plug (join g (join p node)) path)) as Hplug
      by (intros u Hu; by rewrite !inorder_plug, Hu).
    destruct (f_side g) eqn:Eg; destruct (rb_is_red (f_other g)).
    + intros H%IH. rewrite H. apply Hplug. unfold join at 2. rewrite Eg. cbn [inorder]. by rewrite !inorder_black.
    + destruct (f_side p).
      * cbn [mbind option_bind]. destruct (rb_rotate_right _) as [v|] eqn:Ev; [|done]. intros [= <-]. apply Hplug.
        rewrite (inorder_rotate_right _ _ Ev), inorder_red. unfold join at 2. rewrite Eg. cbn [inorder]. by rewrite inorder_black.
      * destruct (rb_rotate_left (join p node)) as [q|] eqn:Eq; [|done]. cbn [mbind option_bind].
        destruct (rb_rotate_right _) as [v|] eqn:Ev; [|done]. intros [= <-]. apply Hplug.
        rewrite (inorder_rotate_right _ _ Ev), inorder_red. unfold join at 1. rewrite Eg. cbn [inorder].
        by rewrite inorder_black, (inorder_rotate_left _ _ Eq).
    + intros H%IH. rewrite H. apply Hplug. unfold join at 2. rewrite Eg. cbn [inorder]. by rewrite !inorder_black.
    + destruct (f_side p).
      * destruct (rb_rotate_right (join p node)) as [q|] eqn:Eq; [|done]. cbn [mbind option_bind].
        destruct (rb_rotate_left _) as [v|] eqn:Ev; [|done]. intros [= <-]. apply Hplug.
        rewrite (inorder_rotate_left _ _ Ev), inorder_red. unfold join at 1. rewrite Eg. cbn [inorder].
        by rewrite inorder_black, (inorder_rotate_right _ _ Eq).
      * cbn [mbind option_bind]. destruct (rb_rotate_left _) as [v|] eqn:Ev; [|done]. intros [= <-]. apply Hplug.
        rewrite (inorder_rotate_left _ _ Ev), inorder_red. unfold join at 2. rewrite Eg. cbn [inorder]. by rewrite inorder_black.
Qed.

(** ** Balance *)

Lemma plug_balanced c n path : balanced_path c n path → ∀ t, balanced c n t → ∃ m, balanced RB_BLACK m (plug t path).
Proof.
  induction 1 as [n|n s e o path Ho _ IH|c c' n s e o path Ho _ IH]; intros t Ht; cbn [plug]; [eauto| |].
  - apply IH. unfold join. destruct s; cbn [f_side f_color f_entry f_other]; auto with vde.
  - apply IH. unfold join. destruct s; cbn [f_side f_color f_entry f_other]; eauto with vde.
Qed.

Lemma set_black_balanced c n t : balanced c n t → ∃ m, balanced RB_BLACK m (rb_set_black t).
Proof. destruct 1; cbn; eauto with vde. Qed.
Lemma set_black_red n t : balanced RB_RED n t → balanced RB_BLACK (S n) (rb_set_black t).
Proof. inversion 1; subst. cbn. eauto with vde. Qed.
Lemma is_red_color c n t : balanced c n t → c = if rb_is_red t then RB_RED else RB_BLACK.
Proof. by destruct 1. Qed.

(** A red node on a path that is balanced but for its colour: the loop restores
    the balance, and the grandparent it needs is there. *)
Lemma insert_color_balanced path : ∀ node n, balanced RB_RED n node → balanced_path RB_BLACK n path →
  ∃ t c m, insert_color_loop node path = Some t ∧ balanced c m t.
Proof.
  induction path as [|p|p g path IH] using path_ind2; intros node n Hn Hp; cbn [insert_color_loop].
  - eauto.
  - inversion Hp as [|? s e o ? Ho Hp'|? c' ? s e o ? Ho Hp']; subst; cbn [f_color]; [by inversion Hp'|].
    destruct (plug_balanced RB_RED n [Frame s RB_BLACK e o]) with (t := node) as [m Hm]; eauto with vde.
  - inversion Hp as [|? s e o ? Ho Hp'|? c' ? s e o ? Ho Hp']; subst; cbn [f_color].
    2: { destruct (plug_balanced RB_RED n (Frame s RB_BLACK e o :: g :: path)) with (t := node) as [m Hm]; eauto with vde. }
    inversion Hp' as [| |? c' ? s2 e2 o2 ? Ho2 Hp2]; subst. cbn [f_side f_color f_entry f_other].
    pose proof (is_red_color _ _ _ Ho2) as Ec.
    assert (balanced RB_BLACK (S n) (rb_set_black (join (Frame s RB_RED e o) node))) as Hpar
      by (unfold join; destruct s; cbn; eauto with vde).
    assert (∀ t, balanced RB_BLACK (S n) t → ∃ m, balanced RB_BLACK m (plug t path)) as Hfin by (intros; by eapply plug_balanced).
    inversion Hn as [|? nl ne nr Hnl Hnr|]; subst.
    destruct s2, (rb_is_red o2) eqn:Er.
    1,3: apply (IH _ (S n)); [(constructor; [done | by apply set_black_red]) || (constructor; [by apply set_black_red | done]) | done].
    all: destruct s; cbn [join f_side f_color f_entry f_other rb_rotate_left rb_rotate_right mbind option_bind rb_set_black rb_set_red];
      (edestruct Hfin as [m Hm]; [|do 3 eexists; split; [reflexivity | exact Hm]]); eauto with vde.
Qed.

Lemma rb_insert_balanced path node n : balanced RB_RED n node → balanced_path RB_BLACK n path →
  ∃ t m, rb_insert_color node path = Some t ∧ balanced RB_BLACK m t ∧ inorder t = inorder (plug node path).
Proof.
  intros Hn Hp. destruct (insert_color_balanced path node n Hn Hp) as (t & c & m & E & Ht).
  destruct (set_black_balanced c m t Ht) as [m' Hm']. exists (rb_set_black t), m'. unfold rb_insert_color. rewrite E.
  split; [done|]. split; [done|]. by rewrite inorder_black, (insert_color_inorder _ _ _ E).
Qed.

(** ** Search *)

Lemma sorted_app_inv {A} (f : A → Z) l1 l2 : StronglySorted Z.lt (f <$> l1 ++ l2) ↔
  StronglySorted Z.lt (f <$> l1) ∧ StronglySorted Z.lt (f <$> l2) ∧ ∀ x y, x ∈ l1 → y ∈ l2 → f x < f y.
Proof.
  rewrite fmap_app, StronglySorted_app. split.
  - intros (H & H1 & H2). split_and!; [done..|]. intros x y Hx Hy. apply H; apply list_elem_of_fmap; eauto.
  - intros (H1 & H2 & H). split_and!; [|done..]. intros x y (a & -> & Ha)%list_elem_of_fmap (b & -> & Hb)%list_elem_of_fmap. auto.
Qed.

(** The search ends at the node with the address or at the place between the
    smaller and the larger ones. *)
Lemma find_link_spec k t : ∀ path,
  StronglySorted Z.lt (key <$> inorder (plug t path)) →
  (∀ e, e ∈ before path → key e < k) → (∀ e, e ∈ after path → k < key e) →
  let '(sub, path') := find_link k t path in
  plug sub path' = plug t path ∧ (∀ e, e ∈ before path' → key e < k) ∧ (∀ e, e ∈ after path' → k < key e) ∧
  match sub with Leaf => True | Node _ _ e _ => key e = k end.
Proof.
  induction t as [|c l IHl e r IHr]; intros path Hs Hb Ha; cbn [find_link]; [done|]. fold (key e).
  pose proof Hs as Hs'. rewrite inorder_plug in Hs'. cbn [inorder] in Hs'.
  apply sorted_app_inv in Hs' as (_ & Hs' & _). rewrite <- app_assoc in Hs'. cbn [app] in Hs'.
  apply sorted_app_inv in Hs' as (_ & Hr & Hlr). rewrite fmap_cons in Hr. apply StronglySorted_cons in Hr as [Hr _].
  rewrite Forall_fmap, Forall_forall in Hr.
  assert (∀ x, x ∈ inorder l → key x < key e) as Hl' by (intros x Hx; apply Hlr; set_solver).
  assert (∀ x, x ∈ inorder r → key e < key x) as Hr' by (intros x Hx; apply Hr; set_solver).
  destruct (Z.ltb_spec k (key e)); [|destruct (Z.ltb_spec (key e) k)].
  - apply IHl; [done | |]; cbn [before after f_side f_entry f_other]; [intros x; rewrite app_nil_r; apply Hb|].
    intros x. rewrite elem_of_app, elem_of_cons. intros [[-> | Hx] | Hx]; [done | specialize (Hr' x Hx); lia | by apply Ha].
  - apply IHr; [done | |]; cbn [before after f_side f_entry f_other]; [|apply Ha].
    intros x. rewrite !elem_of_app, list_elem_of_singleton. intros [Hx | [Hx | ->]]; [by apply Hb | specialize (Hl' x Hx); lia | lia].
  - split_and!; [done | done | done | lia].
Qed.

Lemma search_keys t e e' : search_tree t → e ∈ inorder t → e' ∈ inorder t → ipaddr e = ipaddr e' → e = e'.
Proof.
  intros [Hs _] He He' E. apply list_elem_of_lookup in He as [i Hi]. apply list_elem_of_lookup in He' as [j Hj].
  assert (∀ l i j (a b : vder_arp_entry), StronglySorted Z.lt (key <$> l) → l !! i = Some a → l !! j = Some b → (i < j)%nat → key a < key b) as Hlt.
  { clear. induction l as [|x l IH]; intros i j a b Hs Hi Hj Hij; [done|]. rewrite fmap_cons in Hs. apply StronglySorted_cons in Hs as [Hx Hs].
    destruct j as [|j]; [lia|]. destruct i as [|i]; cbn in Hi, Hj.
    - injection Hi as <-. rewrite Forall_fmap, Forall_forall in Hx. apply Hx. by apply list_elem_of_lookup_2 in Hj.
    - apply (IH i j); done || lia. }
  destruct (Nat.lt_trichotomy i j) as [Hij | [-> | Hij]]; [|congruence|].
  - pose proof (Hlt _ _ _ _ _ Hs Hi Hj Hij). unfold key in *. rewrite E in *. lia.
  - pose proof (Hlt _ _ _ _ _ Hs Hj Hi Hij). unfold key in *. rewrite E in *. lia.
Qed.

Lemma arp_map_lookup t a m : search_tree t → arp_map t !! a = Some m ↔ ∃ e, e ∈ inorder t ∧ ipaddr e = a ∧ macaddr e = m.
Proof.
  intros Ht. unfold arp_map. rewrite <- elem_of_list_to_map, list_elem_of_fmap.
  - split; [intros (e & [= -> ->] & He) | intros (e & He & <- & <-)]; eauto.
  - rewrite <- list_fmap_compose. destruct Ht as [Hs Hok]. clear -Hs Hok. revert Hs Hok. generalize (inorder t). intros l.
    induction l as [|x l IH]; intros Hs Hok; [constructor|]. rewrite fmap_cons in *. apply StronglySorted_cons in Hs as [Hx Hs].
    apply Forall_cons in Hok as [_ Hok]. constructor; [|by apply IH]. intros (y & E & Hy)%list_elem_of_fmap. cbn in E.
    rewrite Forall_fmap, Forall_forall in Hx. specialize (Hx y Hy). unfold key in Hx. cbn in Hx. rewrite E in Hx. lia.
Qed.

Lemma get_arp_map t a : search_tree t → 0 ≤ a < 2 ^ 32 → macaddr <$> vder_get_arp_entry t a = arp_map t !! a.
Proof.
  intros Ht Ha. unfold vder_get_arp_entry.
  assert (∀ u, StronglySorted Z.lt (key <$> inorder u) →
    (∀ e, get_arp_loop (ntohl a) u = Some e → e ∈ inorder u ∧ key e = ntohl a) ∧
    (∀ e, e ∈ inorder u → key e = ntohl a → get_arp_loop (ntohl a) u ≠ None)) as Hget.
  { induction u as [|c l IHl e r IHr]; intros Hs; [split; [done | intros e He; by apply elem_of_nil in He]|].
    cbn [inorder get_arp_loop] in *. fold (key e).
    apply sorted_app_inv in Hs as (Hsl & Hsr & Hlr). rewrite fmap_cons in Hsr. apply StronglySorted_cons in Hsr as [Her Hsr].
    rewrite Forall_fmap, Forall_forall in Her. destruct (IHl Hsl) as [L1 L2]. destruct (IHr Hsr) as [R1 R2].
    destruct (Z.ltb_spec (ntohl a) (key e)); [|destruct (Z.ltb_spec (key e) (ntohl a))].
    - split; [intros e' H'; destruct (L1 e' H'); set_solver|]. intros e'. rewrite elem_of_app, elem_of_cons.
      intros [He | [-> | He]] Hk; [by apply (L2 e') | lia | specialize (Her e' He); cbn in Her; lia].
    - split; [intros e' H'; destruct (R1 e' H'); set_solver|]. intros e'. rewrite elem_of_app, elem_of_cons.
      intros [He | [-> | He]] Hk; [specialize (Hlr e' e He ltac:(set_solver)); lia | lia | by apply (R2 e')].
    - split; [|done]. intros e' [= <-]. split; [set_solver | lia]. }
  destruct (Hget t (proj1 Ht)) as [G1 G2]. destruct (get_arp_loop (ntohl a) t) as [e|] eqn:E; cbn.
  - destruct (G1 e eq_refl) as [He Hk]. symmetry. apply arp_map_lookup; [done|]. exists e. split_and!; [done | | done].
    destruct Ht as [_ Hok]. rewrite Forall_forall in Hok. specialize (Hok e He). by apply ntohl_inj.
  - symmetry. apply eq_None_not_Some. intros [m (e & He & <- & _)%arp_map_lookup]; [|done]. by apply (G2 e He).
Qed.

(** ** Insertion *)

Lemma find_link_balanced k t : ∀ path c n, balanced c n t → balanced_path c n path →
  ∃ c' n', balanced c' n' (find_link k t path).1 ∧ balanced_path c' n' (find_link k t path).2.
Proof.
  induction t as [|c0 l IHl e r IHr]; intros path c n Ht Hp; cbn [find_link]; [eauto|].
  inversion Ht as [|? ? ? ? Hl Hr|c1 c2 ? ? ? ? Hl Hr]; subst;
    repeat case_match; [apply (IHl _ RB_BLACK n) | apply (IHr _ RB_BLACK n) | | apply (IHl _ c1 n0) | apply (IHr _ c2 n0) |]; eauto with vde.
Qed.

Lemma arp_map_put t t' p : search_tree t → search_tree t' →
  (∀ e, e ∈ inorder t' ↔ e = p ∨ (e ∈ inorder t ∧ ipaddr e ≠ ipaddr p)) → arp_map t' = <[ipaddr p := macaddr p]> (arp_map t).
Proof.
  intros Ht Ht' Hel. apply map_eq. intros a. apply option_eq. intros m. rewrite arp_map_lookup by done.
  destruct (decide (a = ipaddr p)) as [->|Hne].
  - rewrite lookup_insert_eq. split.
    + intros (e & [-> | [_ ?]]%Hel & Hip & <-); [done | congruence].
    + intros [= <-]. exists p. rewrite Hel. auto.
  - rewrite lookup_insert_ne, arp_map_lookup by done. split; intros (e & He & Hip & Hm); exists e; (split_and!; [|done..]).
    + apply Hel in He as [-> | [He _]]; [congruence | done].
    + apply Hel. right. split; [done | congruence].
Qed.

Lemma add_arp_entry_spec t p : arp_inv t → entry_ok p →
  ∃ t', vder_add_arp_entry p t = Some t' ∧ arp_inv t' ∧ arp_map t' = <[ipaddr p := macaddr p]> (arp_map t).
Proof.
  intros [Ht [n Hn]] Hp. unfold vder_add_arp_entry.
  pose proof (find_link_spec (ntohl (ipaddr p)) t [] (proj1 Ht)) as Hf. cbn [before after] in Hf.
  specialize (Hf ltac:(set_solver) ltac:(set_solver)).
  destruct (find_link_balanced (ntohl (ipaddr p)) t [] RB_BLACK n Hn) as (c' & n' & Hb & Hpath); [constructor|].
  destruct (find_link (ntohl (ipaddr p)) t []) as [sub path]. cbn [fst snd] in *. destruct Hf as (Hplug & Hbef & Haft & Hkey).
  assert (inorder t = before path ++ inorder sub ++ after path) as Et by (rewrite <- inorder_plug, Hplug; done).
  destruct Ht as [Hs Hok]. pose proof Hs as Hs'. pose proof Hok as Hok'. rewrite Et in Hs', Hok'.
  apply sorted_app_inv in Hs' as (S1 & S2 & S12). apply Forall_app in Hok' as [O1 O2].
  destruct sub as [|c l e r].
  - inversion Hb; subst. destruct (rb_insert_balanced path (Node RB_RED Leaf p Leaf) 0) as (t' & m & E & Hm & Ein); [eauto with vde | done |].
    rewrite inorder_plug in Ein. cbn [inorder app] in *.
    assert (search_tree t') as Ht'.
    { split; rewrite Ein.
      - apply sorted_app_inv. split_and!; [done | |].
        + rewrite fmap_cons. constructor; [done|]. rewrite Forall_fmap, Forall_forall. intros x Hx. by apply Haft.
        + intros x y Hx Hy. apply elem_of_cons in Hy as [-> | Hy]; [by apply Hbef | by apply S12].
      - apply Forall_app. split; [done | by constructor]. }
    exists t'. split; [done|]. split; [split; [done | eauto]|]. apply arp_map_put; [by split | done|].
    intros x. rewrite Ein, Et, !elem_of_app, elem_of_cons. split; [|set_solver].
    intros [Hx | [-> | Hx]]; [right | by left | right]; (split; [set_solver|]); intros E'.
    + specialize (Hbef x Hx). unfold key in Hbef. rewrite E' in Hbef. lia.
    + specialize (Haft x Hx). unfold key in Haft. rewrite E' in Haft. lia.
  - assert (e ∈ inorder t) as He by (rewrite Et; cbn; set_solver).
    assert (ipaddr e = ipaddr p) as Eip by (apply ntohl_inj; [|done | done]; rewrite Forall_forall in Hok; by apply (Hok e)).
    rewrite Eip. assert (ArpEntry (ipaddr p) (macaddr p) = p) as Ep by (by destruct p). rewrite Ep.
    set (t' := plug (Node c l p r) path). assert (inorder t' = before path ++ inorder (Node c l p r) ++ after path) as Ein by apply inorder_plug.
    assert (key <$> inorder t' = key <$> inorder t) as Ekeys.
    { rewrite Ein, Et. cbn [inorder]. rewrite !fmap_app, !fmap_cons. by replace (key p) with (key e) by (unfold key; by rewrite Eip). }
    assert (search_tree t') as Ht'.
    { split; [by rewrite Ekeys|]. rewrite Ein. apply Forall_app. split; [done|]. cbn [inorder] in *. rewrite !Forall_app, !Forall_cons in *. naive_solver. }
    exists t'. split; [done|]. split.
    { split; [done|]. apply (plug_balanced _ _ _ Hpath). inversion Hb; subst; eauto with vde. }
    apply arp_map_put; [by split | done|]. intros x. split.
    + intros Hx. destruct (decide (ipaddr x = ipaddr p)) as [E|E].
      * left. apply (search_keys t'); [done | done | rewrite Ein; cbn; set_solver | done].
      * right. split; [|done]. rewrite Ein in Hx. rewrite Et. cbn [inorder] in *. set_solver.
    + intros [-> | [Hx Hne]]; [rewrite Ein; cbn; set_solver|]. rewrite Et in Hx. rewrite Ein. cbn [inorder] in *. set_solver.
Qed.

(** ** Height *)

Lemma balanced_height c n t : balanced c n t → (height t ≤ 2 * n + match c with RB_RED => 1 | RB_BLACK => 0 end)%nat.
Proof.
  induction 1 as [|n l e r _ IHl _ IHr|c c' n l e r _ IHl _ IHr]; cbn [height]; [lia | lia |].
  destruct c, c'; lia.
Qed.
Lemma balanced_size c n t : balanced c n t → (2 ^ n ≤ S (length (inorder t)))%nat.
Proof.
  induction 1 as [|n l e r _ IHl _ IHr|c c' n l e r _ IHl _ IHr]; cbn [inorder]; [done| |];
    rewrite length_app; cbn [length]; [lia|]. rewrite Nat.pow_succ_r'. lia.
Qed.

(** ** The table refines a map *)

Definition learn_all (ps : list vder_arp_entry) (t : option rb_tree) : option rb_tree :=
  foldl (λ t p, t ← t; vder_add_arp_entry p t) t ps.
Definition learned (ps : list vder_arp_entry) (m : gmap Z (list Z)) : gmap Z (list Z) :=
  foldl (λ m p, <[ipaddr p := macaddr p]> m) m ps.

Lemma learn_all_spec ps : ∀ t, arp_inv t → Forall entry_ok ps →
  ∃ t', learn_all ps (Some t) = Some t' ∧ arp_inv t' ∧ arp_map t' = learned ps (arp_map t).
Proof.
  induction ps as [|p ps IH]; intros t Ht Hps; [by exists t|]. apply Forall_cons in Hps as [Hp Hps].
  destruct (add_arp_entry_spec t p Ht Hp) as (t1 & E & Hinv & Hm). unfold learn_all in *. cbn [foldl mbind option_bind]. rewrite E.
  destruct (IH t1 Hinv Hps) as (t' & E' & Hinv' & Hm'). exists t'. split; [done|]. split; [done|]. rewrite Hm', Hm. done.
Qed.

Lemma sorted_lt_NoDup l : StronglySorted Z.lt l → NoDup l.
Proof.
  induction 1 as [|x l _ IH Hx]; constructor; [|done]. intros Hin. rewrite Forall_forall in Hx. specialize (Hx x Hin). lia.
Qed.

Lemma arp_map_size t : search_tree t → size (arp_map t) = length (inorder t).
Proof.
  intros Ht. unfold arp_map. rewrite map_size_list_to_map; [by rewrite length_fmap|].
  apply NoDup_alt. intros i j a Hi Hj. rewrite <- list_fmap_compose, list_lookup_fmap_Some in Hi, Hj.
  destruct Hi as (e & Ea & Hi), Hj as (e' & Ea' & Hj). cbn in Ea, Ea'.
  assert (e = e') as <- by (apply (search_keys t); [done | by eapply list_elem_of_lookup_2 | by eapply list_elem_of_lookup_2 | congruence]).
  assert (NoDup (inorder t)) as Hnd; [|by eapply NoDup_lookup].
  apply (NoDup_fmap_1 key), sorted_lt_NoDup, Ht.
Qed.

(** C9: the neighbours of an interface.  After any sequence of entries the tree
    holds for every address the MAC address that came last, no insertion
    dereferences NULL, and the tree is balanced: with [n] addresses a search
    visits at most [2 log2 (n + 1)] nodes. *)
Theorem arp_table_refines_map ps : Forall entry_ok ps →
  ∃ t, learn_all ps (Some RB_ROOT) = Some t ∧
    (∀ a, 0 ≤ a < 2 ^ 32 → macaddr <$> vder_get_arp_entry t a = learned ps ∅ !! a) ∧
    (2 ^ height t ≤ (size (learned ps ∅) + 1) ^ 2)%nat.
Proof.
  intros Hps. assert (arp_inv RB_ROOT) as H0 by (split; [split; constructor | exists 0%nat; constructor]).
  destruct (learn_all_spec ps RB_ROOT H0 Hps) as (t & E & [Ht [n Hn]] & Hm). change (arp_map RB_ROOT) with (∅ : gmap Z (list Z)) in Hm.
  exists t. split; [done|]. split; [intros a Ha; by rewrite get_arp_map, Hm|].
  rewrite <- Hm, arp_map_size by done. assert (height t ≤ 2 * n + 0)%nat as Hh by exact (balanced_height _ _ _ Hn). pose proof (balanced_size _ _ _ Hn) as Hs.
  rewrite Nat.add_1_r. transitivity ((2 ^ n) ^ 2)%nat; [|by apply Nat.pow_le_mono_l].
  rewrite <- Nat.pow_mul_r. apply Nat.pow_le_mono_r; lia.
Qed.

(** Five addresses, in ascending order, and one of them again. *)
Definition demo_entries : list vder_arp_entry :=
  (λ i, ArpEntry (i * 2 ^ 24 + 10) [2; 0; 0; 0; 0; i]) <$> [1; 2; 3; 4; 5].
Lemma demo_entries_ok : Forall entry_ok (demo_entries ++ [ArpEntry (3 * 2 ^ 24 + 10) [9; 9; 9; 9; 9; 9]]).
Proof. repeat (apply Forall_cons; split; [by split|]). constructor. Qed.

Lemma arp_table_refines_map_witness :
  ∃ t, learn_all (demo_entries ++ [ArpEntry (3 * 2 ^ 24 + 10) [9; 9; 9; 9; 9; 9]]) (Some RB_ROOT) = Some t ∧
    macaddr <$> vder_get_arp_entry t (3 * 2 ^ 24 + 10) = Some [9; 9; 9; 9; 9; 9] ∧ (2 ^ height t ≤ 36)%nat.
Proof.
  destruct (arp_table_refines_map _ demo_entries_ok) as (t & E & Hget & Hh). exists t. split; [exact E|]. split.
  - rewrite Hget; [reflexivity | lia].
  - exact Hh.
Defined.

(** The searches that do not follow the order see the two spines of the tree
    only: with five neighbours one of them is not found. *)
Lemma spines_miss_neighbours :
  (t ← learn_all demo_entries (Some RB_ROOT);
   n ← vder_arp_get_neighbors t 256;
   Some (length (inorder t), length n, vder_arp_get_record_by_macaddr t [2; 0; 0; 0; 0; 3])) = Some (5%nat, 4%nat, None).
Proof. vm_compute. reflexivity. Qed.
