(* ===== verification/VRoute.v ===== *)
(** * VRoute: the configuration of [vde_router]

    Routes, addresses, interfaces and filters of [vder_datalink.c].  Addresses
    are in network byte order, as the code keeps them; an interface is known by
    its position in [Router.iflist], to which interfaces are only appended.
    The theorems: the routing table stays ordered, a lookup finds the most specific
    route, and every operation keeps the configuration well-formed. *)
From Stdlib Require Import Lia.
From stdpp Require Import base numbers sets list relations sorting.
From S2P Require Import Prelude VArp.

Definition VR_EINVAL : Z := 22.
Definition EHOSTUNREACH : Z := 113.
Definition EEXIST : Z := 17.
Definition EADDRINUSE : Z := 98.
Definition ENOENT : Z := 2.

Record vder_ip4address := Ip4Address { address : Z; netmask : Z }.
Record vder_route := VRoute { dest_addr : Z; r_netmask : Z; gateway : Z; metric : Z; r_iface : nat }.
Record vder_iface := Iface { interface_id : Z; address_list : list vder_ip4address; if_macaddr : list Z; arp_table : rb_tree }.

Inductive filter_action := filter_accept | filter_priority | filter_reject | filter_drop | filter_invalid.
Record vder_filter := VFilter {
  src_iface : option nat; f_proto : Z; f_saddr : vder_ip4address; f_daddr : vder_ip4address;
  f_sport : Z; f_dport : Z; f_tos : Z; f_action : filter_action; f_priority : Z; stats_packets : Z; stats_bytes : Z }.

Record vde_router := Router { iflist : list vder_iface; routing_table : list vder_route; filtering_table : list vder_filter }.

(** A result with [errno] when it is an error. *)
Record vresult := VResult { rv : Z; errno : option Z }.

(** ** Addresses *)

Definition vder_get_right_localip (vif : vder_iface) (dst : Z) : Z :=
  match List.find (λ c, Z.land (address c) (netmask c) =? Z.land dst (netmask c)) (address_list vif) with
  | Some c => address c
  | None => 0
  end.
Definition vder_get_netmask (vif : vder_iface) (localip : Z) : Z :=
  match List.find (λ c, address c =? localip) (address_list vif) with
  | Some c => netmask c
  | None => 0
  end.
Definition vder_get_network (localip mask : Z) : Z := Z.land localip mask.
Definition vder_get_broadcast (localip mask : Z) : Z := Z.lor localip (u32 (Z.lnot mask)).

Definition vder_ipaddress_is_local (addr : Z) (r : vde_router) : bool :=
  existsb (λ i, existsb (λ c, (address c =? addr) || (address c =? 0xFFFFFFFF)) (address_list i)) (iflist r).
Definition vder_ipaddress_is_broadcast (addr : Z) (r : vde_router) : bool :=
  (addr =? 0xFFFFFFFF) ||
  existsb (λ i, existsb (λ c, (Z.land (address c) (netmask c) =? Z.land addr (netmask c)) &&
                              (Z.lor (netmask c) addr =? 0xFFFFFFFF)) (address_list i)) (iflist r).

(** ** Routes *)

Definition vder_get_route (addr : Z) (t : list vder_route) : option vder_route :=
  List.find (λ c, Z.land (ntohl addr) (ntohl (r_netmask c)) =? ntohl (dest_addr c)) t.

(** The place of a new route: before the first one with a smaller netmask, or
    the same netmask and a smaller metric. *)
Fixpoint insert_route (ro : vder_route) (t : list vder_route) : list vder_route :=
  match t with
  | [] => [ro]
  | cur :: t' =>
    if (ntohl (r_netmask cur) <? ntohl (r_netmask ro)) || ((r_netmask cur =? r_netmask ro) && (metric cur <? metric ro))
    then ro :: t else cur :: insert_route ro t'
  end.
Definition same_route (ro cur : vder_route) : bool :=
  (dest_addr cur =? dest_addr ro) && (r_netmask cur =? r_netmask ro) && (metric cur =? metric ro).

(** The result of the insertion of the first route stays -1. *)
Definition vder_route_add (addr mask gw metric : Z) (dst : option nat) (t : list vder_route) : vresult * list vder_route :=
  let l_addr := Z.land (ntohl addr) (ntohl mask) in
  match (match dst with Some i => Some i | None => r_iface <$> vder_get_route gw t end) with
  | None => (VResult (-1) (Some EHOSTUNREACH), t)
  | Some i =>
    let ro := VRoute (ntohl l_addr) mask gw metric i in
    if existsb (same_route ro) t then (VResult (-1) (Some EEXIST), t)
    else match t with
         | [] => (VResult (-1) None, [ro])
         | _ => (VResult 0 None, insert_route ro t)
         end
  end.

Fixpoint delete_route (addr mask met : Z) (t : list vder_route) : option (list vder_route) :=
  match t with
  | [] => None
  | cur :: t' =>
    if (dest_addr cur =? addr) && (r_netmask cur =? mask) && (metric cur =? met) then Some t'
    else t'' ← delete_route addr mask met t'; Some (cur :: t'')
  end.
Definition vder_route_del (addr mask met : Z) (t : list vder_route) : vresult * list vder_route :=
  match delete_route addr mask met t with
  | Some t' => (VResult 0 None, t')
  | None => (VResult (-1) None, t)
  end.

Definition vder_default_route (gw metric : Z) (t : list vder_route) : vresult * list vder_route :=
  match vder_get_route gw t with
  | None => (VResult (- VR_EINVAL) None, t)
  | Some dst =>
    if (dest_addr dst =? 0) || negb (gateway dst =? 0) then (VResult (- VR_EINVAL) None, t)
    else vder_route_add 0 0 gw metric (Some (r_iface dst)) t
  end.

(** ** Interfaces *)

Definition set_routes (r : vde_router) (t : list vder_route) : vde_router := Router (iflist r) t (filtering_table r).

(** [pid] is [getpid()] as a [uint16_t]. *)
Definition new_macaddress (pid id : Z) : list Z := [0; 2; 5; Z.shiftr (Z.land pid 0xFF00) 8; Z.land pid 0xFF; id].
(** [opened] tells whether [vde_open] succeeded; the queues are in [VQueue]. *)
Definition vder_iface_new (opened : bool) (pid : Z) (mac : option (list Z)) (r : vde_router) : vde_router :=
  let id := u8 (Z.of_nat (length (iflist r))) in
  if negb opened then r else
  Router (iflist r ++ [Iface id [] (match mac with Some m => m | None => new_macaddress pid id end) RB_ROOT])
    (routing_table r) (filtering_table r).

Definition upd_iface (f : vder_iface → vder_iface) (i : nat) (r : vde_router) : vde_router :=
  Router (alter f i (iflist r)) (routing_table r) (filtering_table r).
Definition vder_iface_address_add (i : nat) (addr mask : Z) (r : vde_router) : option (vresult * vde_router) :=
  vif ← iflist r !! i;
  if existsb (λ c, address c =? addr) (address_list vif) then Some (VResult (-1) (Some EADDRINUSE), r)
  else
    let r := upd_iface (λ v, Iface (interface_id v) (Ip4Address addr mask :: address_list v) (if_macaddr v) (arp_table v)) i r in
    let r := if negb (addr =? 0xFFFFFFFF) then set_routes r (vder_route_add addr mask 0 1 (Some i) (routing_table r)).2 else r in
    Some (VResult 0 None, r).
(** An address that is found is freed and its [next] read after that: [None]. *)
Definition vder_iface_address_del (i : nat) (addr : Z) (r : vde_router) : option (vresult * vde_router) :=
  vif ← iflist r !! i;
  if existsb (λ c, address c =? addr) (address_list vif) then None
  else Some (VResult (-1) (Some ENOENT), r).

(** ** Filters *)

(** The field [priority] keeps what [malloc] left there. *)
Definition vder_filter_add (junk : Z) (src : option nat) (proto sa sm da dm tos sport dport : Z) (action : filter_action)
    (r : vde_router) : vresult * vde_router :=
  (VResult 0 None, Router (iflist r) (routing_table r)
    (VFilter src proto (Ip4Address sa sm) (Ip4Address da dm) sport dport tos action junk 0 0 :: filtering_table r)).

Fixpoint delete_filter (src : option nat) (sa sm da dm tos sport dport : Z) (l : list vder_filter) : option (list vder_filter) :=
  match l with
  | [] => None
  | f :: l' =>
    if bool_decide (src_iface f = src) && (address (f_saddr f) =? sa) && (netmask (f_saddr f) =? sm) && (address (f_daddr f) =? da) &&
       (netmask (f_daddr f) =? dm) && (f_sport f =? sport) && (f_dport f =? dport) && (f_tos f =? tos)
    then Some l' else l'' ← delete_filter src sa sm da dm tos sport dport l'; Some (f :: l'')
  end.
(** [proto] is an argument and is not compared. *)
Definition vder_filter_del (src : option nat) (proto sa sm da dm tos sport dport : Z) (r : vde_router) : vresult * vde_router :=
  match delete_filter src sa sm da dm tos sport dport (filtering_table r) with
  | Some l => (VResult 0 None, Router (iflist r) (routing_table r) l)
  | None => (VResult (-1) (Some ENOENT), r)
  end.

(** ** Order of the routing table *)

Definition u32P (z : Z) : Prop := 0 ≤ z < 2 ^ 32.
Definition u16P (z : Z) : Prop := 0 ≤ z < 2 ^ 16.

(** [r] comes before [r']: a larger netmask, or the same and a metric that is not
    smaller. *)
Definition precedes (r r' : vder_route) : Prop :=
  ntohl (r_netmask r') < ntohl (r_netmask r) ∨ (r_netmask r = r_netmask r' ∧ metric r' ≤ metric r).
Definition matches (addr : Z) (r : vder_route) : bool := Z.land (ntohl addr) (ntohl (r_netmask r)) =? ntohl (dest_addr r).

Definition route_ok (n : nat) (r : vder_route) : Prop :=
  u32P (dest_addr r) ∧ u32P (r_netmask r) ∧ u32P (gateway r) ∧ u16P (metric r) ∧ (r_iface r < n)%nat ∧
  Z.land (ntohl (dest_addr r)) (ntohl (r_netmask r)) = ntohl (dest_addr r).
Definition route_key (r : vder_route) : Z * Z * Z := (dest_addr r, r_netmask r, metric r).
Record table_ok (n : nat) (t : list vder_route) : Prop := {
  t_sorted : StronglySorted precedes t;
  t_keys : NoDup (route_key <$> t);
  t_routes : Forall (route_ok n) t
}.

Lemma precedes_trans a b c : precedes a b → precedes b c → precedes a c.
Proof. unfold precedes. intros [H1 | [E1 H1]] [H2 | [E2 H2]]; [left; lia | left; congruence | left; congruence | right; split; [congruence | lia]]. Qed.

Lemma insert_route_elem ro t x : x ∈ insert_route ro t ↔ x = ro ∨ x ∈ t.
Proof. induction t as [|c t IH]; cbn [insert_route]; [|case_match]; set_solver. Qed.

Lemma insert_route_sorted ro t : Forall (λ r, u32P (r_netmask r)) (ro :: t) → StronglySorted precedes t → StronglySorted precedes (insert_route ro t).
Proof.
  rewrite Forall_cons. intros [Hro Ht] Hs. induction Hs as [|c t Hs IH Hc]; cbn [insert_route]; [by repeat constructor|].
  apply Forall_cons in Ht as [Hcm Ht].
  destruct (Z.ltb_spec (ntohl (r_netmask c)) (ntohl (r_netmask ro))) as [Hlt|Hge]; cbn [orb].
  - assert (precedes ro c) as Hp by (by left). constructor; [by constructor|]. constructor; [done|].
    eapply Forall_impl; [exact Hc|]. intros x. by apply precedes_trans.
  - destruct (Z.eqb_spec (r_netmask c) (r_netmask ro)) as [E|E]; cbn [andb].
    + destruct (Z.ltb_spec (metric c) (metric ro)) as [Hlt|Hge'].
      * assert (precedes ro c) as Hp by (right; split; [done | lia]). constructor; [by constructor|]. constructor; [done|].
        eapply Forall_impl; [exact Hc|]. intros x. by apply precedes_trans.
      * constructor; [by apply IH|]. apply Forall_forall. intros x [-> | Hx]%insert_route_elem; [by right; split|].
        rewrite Forall_forall in Hc. by apply Hc.
    + constructor; [by apply IH|]. apply Forall_forall. intros x [-> | Hx]%insert_route_elem.
      * left. assert (ntohl (r_netmask c) ≠ ntohl (r_netmask ro)) by (intros En; apply E; by apply ntohl_inj). lia.
      * rewrite Forall_forall in Hc. by apply Hc.
Qed.

Lemma insert_route_keys ro t : route_key ro ∉ route_key <$> t → NoDup (route_key <$> t) → NoDup (route_key <$> insert_route ro t).
Proof.
  intros Hro. induction t as [|c t IH]; cbn [insert_route]; [intros _; apply NoDup_singleton|].
  rewrite fmap_cons in *. apply not_elem_of_cons in Hro as [Hc Hro]. intros Hnd. case_match; [rewrite !fmap_cons; constructor; [|done]; apply not_elem_of_cons; done|].
  apply NoDup_cons in Hnd as [Hct Hnd]. rewrite fmap_cons. constructor; [|by apply IH].
  intros (x & Ex & [-> | Hx]%insert_route_elem)%list_elem_of_fmap; [congruence|]. apply Hct. rewrite Ex. apply list_elem_of_fmap. eauto.
Qed.

Lemma same_route_key ro c : same_route ro c = true ↔ route_key c = route_key ro.
Proof. unfold same_route, route_key. rewrite !andb_true_iff, !Z.eqb_eq. split; [by intros [[-> ->] ->] | by intros [= -> -> ->]]. Qed.

Lemma masked_ok addr mask : Z.land (ntohl (ntohl (Z.land (ntohl addr) (ntohl mask)))) (ntohl mask) = ntohl (ntohl (Z.land (ntohl addr) (ntohl mask))) ∧
  ntohl (ntohl (Z.land (ntohl addr) (ntohl mask))) = Z.land (ntohl addr) (ntohl mask).
Proof.
  assert (0 ≤ Z.land (ntohl addr) (ntohl mask) < 2 ^ 32) as Hr.
  { pose proof (ntohl_range addr). pose proof (ntohl_range mask). split; [apply Z.land_nonneg; lia|].
    destruct (decide (Z.land (ntohl addr) (ntohl mask) = 0)) as [-> | Hne]; [lia|].
    assert (0 ≤ Z.land (ntohl addr) (ntohl mask)) by (apply Z.land_nonneg; lia).
    apply Z.log2_lt_pow2; [lia|]. eapply Z.le_lt_trans; [apply Z.log2_land; lia|].
    apply Z.min_lt_iff. left. destruct (decide (ntohl addr = 0)) as [E | Hn0]; [rewrite E in Hne; by rewrite Z.land_0_l in Hne|].
    apply Z.log2_lt_pow2; lia. }
  rewrite ntohl_involutive by done. split; [|done]. by rewrite <- Z.land_assoc, Z.land_diag.
Qed.

Lemma route_add_ok n t addr mask gw met dst : table_ok n t → u32P mask → u32P gw → u16P met →
  (match dst with Some i => (i < n)%nat | None => True end) → table_ok n (vder_route_add addr mask gw met dst t).2.
Proof.
  intros [Hs Hk Hr] Hm Hg Hmet Hdst. unfold vder_route_add.
  destruct (match dst with Some i => Some i | None => r_iface <$> vder_get_route gw t end) as [i|] eqn:Ei; [|done].
  assert (i < n)%nat as Hi.
  { destruct dst as [j|]; [congruence|]. destruct (vder_get_route gw t) as [r|] eqn:Er; [|done]. injection Ei as <-.
    apply List.find_some in Er as [Hin _]. rewrite Forall_forall in Hr. apply (Hr r). by apply list_elem_of_In. }
  set (ro := VRoute _ mask gw met i). destruct (masked_ok addr mask) as [M1 M2].
  assert (route_ok n ro) as Hro by (unfold route_ok; split_and!; cbn; [apply ntohl_range | done..]).
  destruct (existsb (same_route ro) t) eqn:Ex; [done|].
  assert (route_key ro ∉ route_key <$> t) as Hnew.
  { intros (c & E & Hc)%list_elem_of_fmap. apply not_true_iff_false in Ex. apply Ex, existsb_exists. exists c.
    split; [by apply list_elem_of_In|]. by apply same_route_key. }
  assert (table_ok n (insert_route ro t)) as Hins.
  { split; [apply insert_route_sorted; [|done] | by apply insert_route_keys |].
    - constructor; [apply Hro|]. eapply Forall_impl; [exact Hr|]. intros x Hx. apply Hx.
    - apply Forall_forall. intros x [-> | Hx]%insert_route_elem; [done|]. rewrite Forall_forall in Hr. by apply Hr. }
  by destruct t.
Qed.

Lemma delete_route_sublist addr mask met t t' : delete_route addr mask met t = Some t' → sublist t' t.
Proof.
  revert t'. induction t as [|c t IH]; intros t'; cbn [delete_route]; [done|]. case_match; [intros [= <-]; by apply sublist_cons|].
  destruct (delete_route addr mask met t) as [t1|]; [|done]. intros [= <-]. apply sublist_skip. by apply IH.
Qed.

Lemma sublist_table n t t' : sublist t' t → table_ok n t → table_ok n t'.
Proof.
  intros Hsub [Hs Hk Hr]. assert (∀ x, x ∈ t' → x ∈ t) as Hin by (clear -Hsub; induction Hsub; set_solver). split.
  - clear Hk Hr Hin. induction Hsub as [|x l k Hsub IH|x l k Hsub IH]; [done| |]; apply StronglySorted_cons in Hs as [Hx Hs]; [|by apply IH].
    constructor; [by apply IH|]. assert (∀ y, y ∈ l → y ∈ k) as Hin by (clear -Hsub; induction Hsub; set_solver).
    rewrite Forall_forall in *. auto.
  - eapply sublist_NoDup; [exact Hk | by apply fmap_sublist].
  - rewrite Forall_forall in *. auto.
Qed.

Lemma route_del_ok n t addr mask met : table_ok n t → table_ok n (vder_route_del addr mask met t).2.
Proof.
  intros Ht. unfold vder_route_del. destruct (delete_route addr mask met t) as [t'|] eqn:E; [|done].
  eapply sublist_table; [|exact Ht]. by eapply delete_route_sublist.
Qed.

(** The first route that matches is the most specific one. *)
Lemma get_route_first n t addr : table_ok n t →
  match vder_get_route addr t with
  | Some r => r ∈ t ∧ matches addr r = true ∧ ∀ r', r' ∈ t → matches addr r' = true → r' = r ∨ precedes r r'
  | None => ∀ r', r' ∈ t → matches addr r' = false
  end.
Proof.
  intros [Hs _ _]. unfold vder_get_route. change (λ c : vder_route, _) with (matches addr).
  induction Hs as [|c t Hs IH Hc]; cbn [List.find]; [intros r' Hr; by apply elem_of_nil in Hr|].
  destruct (matches addr c) eqn:Em.
  - split; [set_solver|]. split; [done|]. intros r' [-> | Hr']%elem_of_cons _; [by left|]. right. rewrite Forall_forall in Hc. by apply Hc.
  - destruct (List.find (matches addr) t) as [r|].
    + destruct IH as (Hin & Hm & Hall). split; [set_solver|]. split; [done|]. intros r' [-> | Hr']%elem_of_cons Hm'; [congruence | by apply Hall].
    + intros r' [-> | Hr']%elem_of_cons; [done | by apply IH].
Qed.

(** ** Configuration as a transition system *)

Inductive config_op :=
  | OpIface (opened : bool) (pid : Z) (mac : option (list Z))
  | OpAddress (i : nat) (addr mask : Z)
  | OpAddressDel (i : nat) (addr : Z)
  | OpRoute (addr mask gw met : Z) (dst : option nat)
  | OpRouteDel (addr mask met : Z)
  | OpDefault (gw met : Z)
  | OpFilter (junk : Z) (src : option nat) (proto sa sm da dm tos sport dport : Z) (action : filter_action)
  | OpFilterDel (src : option nat) (proto sa sm da dm tos sport dport : Z)
  | OpNeighbour (i : nat) (e : vder_arp_entry).

Definition exec_op (op : config_op) (r : vde_router) : option vde_router :=
  match op with
  | OpIface opened pid mac => Some (vder_iface_new opened pid mac r)
  | OpAddress i addr mask => snd <$> vder_iface_address_add i addr mask r
  | OpAddressDel i addr => snd <$> vder_iface_address_del i addr r
  | OpRoute addr mask gw met dst => Some (set_routes r (vder_route_add addr mask gw met dst (routing_table r)).2)
  | OpRouteDel addr mask met => Some (set_routes r (vder_route_del addr mask met (routing_table r)).2)
  | OpDefault gw met => Some (set_routes r (vder_default_route gw met (routing_table r)).2)
  | OpFilter junk src proto sa sm da dm tos sport dport action => Some (vder_filter_add junk src proto sa sm da dm tos sport dport action r).2
  | OpFilterDel src proto sa sm da dm tos sport dport => Some (vder_filter_del src proto sa sm da dm tos sport dport r).2
  | OpNeighbour i e =>
    vif ← iflist r !! i; t ← vder_add_arp_entry e (arp_table vif);
    Some (upd_iface (λ v, Iface (interface_id v) (address_list v) (if_macaddr v) t) i r)
  end.

Definition macP6 (m : list Z) : Prop := length m = 6%nat ∧ Forall byteP m.
Definition i32P (z : Z) : Prop := - 2 ^ 31 ≤ z < 2 ^ 31.

(** Arguments of the types of the C functions, with interfaces that exist. *)
Definition iface_arg (n : nat) (o : option nat) : Prop := match o with Some i => (i < n)%nat | None => True end.
Definition op_ok (n : nat) (op : config_op) : Prop :=
  match op with
  | OpIface _ pid mac => u16P pid ∧ match mac with Some m => macP6 m | None => True end
  | OpAddress i addr mask => (i < n)%nat ∧ u32P addr ∧ u32P mask
  | OpAddressDel i addr => (i < n)%nat ∧ u32P addr
  | OpRoute addr mask gw met dst => u32P addr ∧ u32P mask ∧ u32P gw ∧ u16P met ∧ iface_arg n dst
  | OpRouteDel addr mask met => u32P addr ∧ u32P mask
  | OpDefault gw met => u32P gw ∧ u16P met
  | OpFilter junk src proto sa sm da dm tos sport dport _ =>
    byteP junk ∧ iface_arg n src ∧ byteP proto ∧ u32P sa ∧ u32P sm ∧ u32P da ∧ u32P dm ∧ i32P tos ∧ u16P sport ∧ u16P dport
  | OpFilterDel src _ _ _ _ _ _ _ _ => iface_arg n src
  | OpNeighbour i e => (i < n)%nat ∧ entry_ok e
  end.

Definition ip4_ok (a : vder_ip4address) : Prop := u32P (address a) ∧ u32P (netmask a).
Record iface_ok (v : vder_iface) : Prop := {
  if_id : byteP (interface_id v);
  if_addrs : Forall ip4_ok (address_list v);
  if_unique : NoDup (address <$> address_list v);
  if_mac : macP6 (if_macaddr v);
  if_arp : arp_inv (arp_table v)
}.
Definition filter_ok (n : nat) (f : vder_filter) : Prop :=
  iface_arg n (src_iface f) ∧ byteP (f_proto f) ∧ ip4_ok (f_saddr f) ∧ ip4_ok (f_daddr f) ∧ u16P (f_sport f) ∧ u16P (f_dport f) ∧
  i32P (f_tos f) ∧ byteP (f_priority f).
Record router_wf (r : vde_router) : Prop := {
  wf_ifaces : Forall iface_ok (iflist r);
  wf_routes : table_ok (length (iflist r)) (routing_table r);
  wf_filters : Forall (filter_ok (length (iflist r))) (filtering_table r)
}.

Definition init_router : vde_router := Router [] [] [].
Definition config_step (r r' : vde_router) : Prop := ∃ op, op_ok (length (iflist r)) op ∧ exec_op op r = Some r'.

Lemma route_ok_more n m r : (n ≤ m)%nat → route_ok n r → route_ok m r.
Proof. unfold route_ok. intros Hn (? & ? & ? & ? & ? & ?). split_and!; done || lia. Qed.
Lemma table_ok_more n m t : (n ≤ m)%nat → table_ok n t → table_ok m t.
Proof. intros Hn [? ? Hr]. split; [done..|]. eapply Forall_impl; [exact Hr|]. intros r. by apply route_ok_more. Qed.
Lemma filter_ok_more n m f : (n ≤ m)%nat → filter_ok n f → filter_ok m f.
Proof. unfold filter_ok. intros Hn [Hi H]. split; [|done]. destruct (src_iface f); cbn in *; [lia | done]. Qed.

Lemma new_mac_ok pid id : u16P pid → byteP id → macP6 (new_macaddress pid id).
Proof.
  unfold u16P, byteP. intros Hp Hi. split; [done|]. unfold new_macaddress, byteP.
  assert (Z.shiftr (Z.land pid 0xFF00) 8 = pid / 2 ^ 8) as ->.
  { rewrite Z.shiftr_land. change (Z.shiftr 0xFF00 8) with (Z.ones 8). rewrite Z.land_ones, Z.shiftr_div_pow2 by lia. dlia. }
  change 0xFF with (Z.ones 8). rewrite Z.land_ones by lia. repeat (constructor; [dlia|]). constructor.
Qed.

Lemma alter_wf f i r : router_wf r → (∀ v, iflist r !! i = Some v → iface_ok (f v)) → router_wf (upd_iface f i r).
Proof.
  intros [Hi Hr Hf] Hv. unfold upd_iface. split; cbn [iflist routing_table filtering_table]; rewrite ?length_alter; [|done..].
  apply Forall_lookup. intros j v Hj. rewrite list_lookup_alter in Hj. rewrite Forall_lookup in Hi. case_decide; [|by eauto].
  subst j. destruct (iflist r !! i) as [w|] eqn:E; [|done]. injection Hj as <-. by apply Hv.
Qed.

Lemma set_routes_wf r t : router_wf r → table_ok (length (iflist r)) t → router_wf (set_routes r t).
Proof. intros [Hi _ Hf] Ht. by split. Qed.

Lemma address_add_wf r i addr mask : router_wf r → (i < length (iflist r))%nat → u32P addr → u32P mask →
  ∃ v r', vder_iface_address_add i addr mask r = Some (v, r') ∧ router_wf r'.
Proof.
  intros Hwf Hi Ha Hm. unfold vder_iface_address_add. destruct (lookup_lt_is_Some_2 _ _ Hi) as [vif Hv]. rewrite Hv. cbn [mbind option_bind].
  destruct (existsb _ (address_list vif)) eqn:Ex; [eauto|]. do 2 eexists. split; [done|].
  set (r1 := upd_iface _ i r). assert (router_wf r1) as Hwf1.
  { apply alter_wf; [done|]. intros v Hv'. rewrite Hv in Hv'. injection Hv' as <-.
    pose proof (wf_ifaces _ Hwf) as Hall. rewrite Forall_lookup in Hall. destruct (Hall i vif Hv) as [H1 H2 H3 H4 H5].
    split; cbn [interface_id address_list if_macaddr arp_table]; [done | by constructor | | done | done].
    rewrite fmap_cons. constructor; [|done]. intros (c & E & Hc)%list_elem_of_fmap. apply not_true_iff_false in Ex. apply Ex, existsb_exists.
    exists c. split; [by apply list_elem_of_In|]. cbn in E. lia. }
  destruct (negb _); [|done]. apply set_routes_wf; [done|].
  assert (length (iflist r1) = length (iflist r)) as El by (unfold r1; cbn; by rewrite length_alter).
  apply route_add_ok; [by apply Hwf1 | done | unfold u32P; lia | unfold u16P; lia | by rewrite El].
Qed.

Lemma delete_filter_elem src sa sm da dm tos sport dport l l' x :
  delete_filter src sa sm da dm tos sport dport l = Some l' → x ∈ l' → x ∈ l.
Proof.
  revert l'. induction l as [|f l IH]; intros l'; cbn [delete_filter]; [done|]. case_match; [intros [= <-]; set_solver|].
  destruct (delete_filter _ _ _ _ _ _ _ _ l) as [l1|]; [|done]. intros [= <-]. specialize (IH l1 eq_refl). set_solver.
Qed.

(** Every operation succeeds, except the removal of an address that exists. *)
Lemma exec_op_wf op r : router_wf r → op_ok (length (iflist r)) op →
  match op with OpAddressDel i addr => ∃ vif, iflist r !! i = Some vif ∧ addr ∉ address <$> address_list vif | _ => True end →
  ∃ r', exec_op op r = Some r' ∧ router_wf r'.
Proof.
  intros Hwf Hop Hdel. pose proof Hwf as [Hi Hr Hf].
  destruct op as [[] pid mac|i addr nm|i addr|addr nm gw met dst|addr nm met|gw met|junk src proto sa sm da dm tos sport dport act|src proto sa sm da dm tos sport dport|i e];
    cbn [exec_op op_ok] in *.
  - eexists. split; [done|]. unfold vder_iface_new. cbn [negb]. assert (byteP (u8 (Z.of_nat (length (iflist r))))) as Hid by apply u8_range.
    split; cbn [iflist routing_table filtering_table]; rewrite ?length_app.
    + apply Forall_app. split; [done|]. apply Forall_singleton. split; cbn; [done | constructor | constructor | |].
      * destruct mac; [apply Hop | apply new_mac_ok; [apply Hop | done]].
      * split; [split; constructor | exists 0%nat; constructor].
    + eapply table_ok_more; [|done]. lia.
    + eapply Forall_impl; [exact Hf|]. intros f. apply filter_ok_more. lia.
  - eexists. by split.
  - destruct (address_add_wf r i addr nm Hwf) as (v & r' & E & Hwf'); [apply Hop..|]. rewrite E. cbn. eauto.
  - destruct Hdel as (vif & Hv & Hni). unfold vder_iface_address_del. rewrite Hv. cbn [mbind option_bind].
    destruct (existsb _ (address_list vif)) eqn:Ex; [|cbn; eauto]. exfalso. apply existsb_exists in Ex as (c & Hc & E). apply Hni.
    apply list_elem_of_fmap. exists c. split; [lia | by apply list_elem_of_In].
  - eexists. split; [done|]. apply set_routes_wf; [done|]. by apply route_add_ok; try apply Hop.
  - eexists. split; [done|]. apply set_routes_wf; [done|]. by apply route_del_ok.
  - eexists. split; [done|]. apply set_routes_wf; [done|]. unfold vder_default_route. destruct (vder_get_route gw (routing_table r)) as [d|] eqn:Ed; [|done].
    destruct (_ || _); [done|]. apply route_add_ok; [done | unfold u32P; lia | apply Hop | apply Hop |].
    apply List.find_some in Ed as [Hin _]. pose proof (t_routes _ _ Hr) as Hall. rewrite Forall_forall in Hall. apply (Hall d). by apply list_elem_of_In.
  - eexists. split; [done|]. destruct Hop as (H1 & H2 & H3 & H4 & H5 & H6 & H7 & H8 & H9 & H10). split; [done | done|]. cbn. constructor; [|done]. unfold filter_ok, ip4_ok. cbn. done.
  - unfold vder_filter_del. destruct (delete_filter _ _ _ _ _ _ _ _ _) as [l|] eqn:El; cbn; [|eauto]. eexists. split; [done|].
    split; [done | done|]. cbn. rewrite Forall_forall in *. intros f Hin. apply Hf. by eapply delete_filter_elem.
  - destruct Hop as [Hlt He]. destruct (lookup_lt_is_Some_2 _ _ Hlt) as [vif Hv]. rewrite Hv. cbn [mbind option_bind].
    pose proof Hi as Hall. rewrite Forall_lookup in Hall. destruct (Hall i vif Hv) as [H1 H2 H3 H4 H5].
    destruct (add_arp_entry_spec _ e H5 He) as (t & -> & Ht & _). cbn [mbind option_bind]. eexists. split; [done|].
    apply alter_wf; [done|]. intros v Hv'. rewrite Hv in Hv'. injection Hv' as <-. by split.
Qed.

Lemma config_wf r : rtc config_step init_router r → router_wf r.
Proof.
  intros H. refine (rtc_ind_r router_wf _ _ _ _ H).
  - split; cbn; [constructor | | constructor]. split; constructor.
  - intros a b _ (op & Hop & E) Hwf. destruct (exec_op_wf op a Hwf Hop) as (r' & E' & Hwf'); [|congruence].
    destruct op; try done. cbn [exec_op] in E. unfold vder_iface_address_del in E.
    destruct (iflist a !! i) as [vif|] eqn:Ev; [|done]. exists vif. split; [done|]. cbn [mbind option_bind] in E.
    destruct (existsb _ (address_list vif)) eqn:Ex; [done|]. intros (c & -> & Hc)%list_elem_of_fmap. apply not_true_iff_false in Ex.
    apply Ex, existsb_exists. exists c. split; [by apply list_elem_of_In | apply Z.eqb_refl].
Qed.

(** ** Longest prefix match *)

(** [addr] belongs to the network of the route: they agree on the bits of the netmask. *)
Definition in_network (addr : Z) (ro : vder_route) : Prop :=
  ∀ i, Z.testbit (ntohl (r_netmask ro)) i = true → Z.testbit (ntohl addr) i = Z.testbit (ntohl (dest_addr ro)) i.

Lemma matches_network n addr ro : route_ok n ro → matches addr ro = true ↔ in_network addr ro.
Proof.
  intros (_ & _ & _ & _ & _ & Hd). unfold matches, in_network. rewrite Z.eqb_eq. split.
  - intros <- i Hi. by rewrite Z.land_spec, Hi, andb_true_r.
  - intros Hb. rewrite <- Hd. apply Z.bits_inj'. intros i _. rewrite !Z.land_spec.
    destruct (Z.testbit (ntohl (r_netmask ro)) i) eqn:E; [by rewrite (Hb i E)|by rewrite !andb_false_r].
Qed.

(** The lookup against its specification, on any well-formed table. *)
Lemma get_route_spec n t addr : table_ok n t →
  match vder_get_route addr t with
  | Some ro => ro ∈ t ∧ in_network addr ro ∧
      (∀ ro', ro' ∈ t → in_network addr ro' → ro' = ro ∨ precedes ro ro')
  | None => ∀ ro', ro' ∈ t → ¬ in_network addr ro'
  end.
Proof.
  intros Ht. pose proof (get_route_first n t addr Ht) as H. pose proof (t_routes _ _ Ht) as Hall. rewrite Forall_forall in Hall.
  destruct (vder_get_route addr t) as [ro|].
  - destruct H as (Hin & Hm & H). split; [done|]. split; [by apply (matches_network n); [apply Hall|]|].
    intros ro' Hin' Hn. apply H; [done|]. by apply (matches_network n); [apply Hall|].
  - intros ro' Hin Hn. specialize (H ro' Hin). apply (matches_network n) in Hn; [congruence | by apply Hall].
Qed.

(** A route that was asked for is in the table, or one with its key is. *)
Lemma route_add_present addr mask gw met i t :
  ∃ ro, ro ∈ (vder_route_add addr mask gw met (Some i) t).2 ∧ route_key ro = (ntohl (Z.land (ntohl addr) (ntohl mask)), mask, met).
Proof.
  unfold vder_route_add. set (ro := VRoute _ mask gw met i). destruct (existsb (same_route ro) t) eqn:Ex.
  - apply existsb_exists in Ex as (c & Hc & Hs). exists c. split; [by apply list_elem_of_In | by apply same_route_key in Hs].
  - exists ro. split; [|done]. destruct t as [|c t]; [set_solver|]. cbn [snd]. apply insert_route_elem. by left.
Qed.

(** C15: in every configuration that can be reached, the lookup of an address
    gives a route whose network contains it and than which no other route that
    contains it has a longer netmask; it gives none only when no route contains
    the address. *)
Theorem route_lookup_most_specific r addr : rtc config_step init_router r →
  match vder_get_route addr (routing_table r) with
  | Some ro => ro ∈ routing_table r ∧ in_network addr ro ∧
      (∀ ro', ro' ∈ routing_table r → in_network addr ro' → ntohl (r_netmask ro') ≤ ntohl (r_netmask ro)) ∧
      (r_iface ro < length (iflist r))%nat
  | None => ∀ ro', ro' ∈ routing_table r → ¬ in_network addr ro'
  end.
Proof.
  intros Hr%config_wf. pose proof (wf_routes _ Hr) as Ht. pose proof (get_route_spec _ _ addr Ht) as H.
  destruct (vder_get_route addr (routing_table r)) as [ro|]; [|done]. destruct H as (Hin & Hn & H). split_and!; [done..| |].
  - intros ro' Hin' Hn'. destruct (H ro' Hin' Hn') as [-> | [?|[-> _]]]; lia.
  - pose proof (t_routes _ _ Ht) as Hall. rewrite Forall_forall in Hall. apply (Hall ro Hin).
Qed.

(** Two interfaces, 10.0.0.1/8 and 10.1.0.1/16, and a default route. *)
Definition demo_ops : list config_op :=
  [OpIface true 0x1234 None; OpIface true 0x1234 None; OpAddress 0 0x0100000A 0x000000FF; OpAddress 1 0x0100010A 0x0000FFFF; OpDefault 0x0200000A 1].
Definition demo_router : vde_router :=
  default init_router (foldl (λ o op, o ≫= exec_op op) (Some init_router) demo_ops).

Lemma run_reachable ops r r' : rtc config_step init_router r → foldl (λ o op, o ≫= exec_op op) (Some r) ops = Some r' →
  (∀ i op x, ops !! i = Some op → foldl (λ o op, o ≫= exec_op op) (Some r) (take i ops) = Some x → op_ok (length (iflist x)) op) →
  rtc config_step init_router r'.
Proof.
  revert r. induction ops as [|op ops IH]; intros r Hr; cbn [foldl mbind option_bind]; [intros [= <-] _; done|].
  intros Hrun Hok. destruct (exec_op op r) as [r1|] eqn:E.
  - apply (IH r1); [|done|].
    + eapply rtc_r; [done|]. exists op. split; [|done]. by apply (Hok 0%nat op r).
    + intros i o x Ho Hx. apply (Hok (S i)); [done|]. cbn [take foldl mbind option_bind]. by rewrite E.
  - assert (foldl (λ o op, o ≫= exec_op op) None ops = None) as Hn by (clear; induction ops; done). cbn in Hrun. congruence.
Qed.

Lemma demo_config_reachable : rtc config_step init_router demo_router.
Proof.
  apply (run_reachable demo_ops init_router); [apply rtc_refl | vm_compute; reflexivity|].
  intros i op x Hi Hx. destruct i as [|[|[|[|[|i]]]]]; [..|by rewrite lookup_ge_None_2 in Hi by (cbn; lia)];
    injection Hi as <-; vm_compute in Hx; injection Hx as <-; unfold op_ok, u32P, u16P; cbn [iflist length]; intuition lia.
Qed.

Lemma route_lookup_most_specific_witness :
  vder_get_route 0x0509010A (routing_table demo_router) = Some (VRoute 0x0000010A 0x0000FFFF 0 1 1) ∧
  (∀ ro', ro' ∈ routing_table demo_router → in_network 0x0509010A ro' → ntohl (r_netmask ro') ≤ 0xFFFF0000).
Proof.
  pose proof (route_lookup_most_specific demo_router 0x0509010A demo_config_reachable) as H.
  assert (vder_get_route 0x0509010A (routing_table demo_router) = Some (VRoute 0x0000010A 0x0000FFFF 0 1 1)) as E by (vm_compute; reflexivity).
  rewrite E in H. split; [done|]. apply H.
Defined.

(** C39: every configuration that can be reached is well-formed: interfaces have
    distinct addresses of the right width and balanced, ordered neighbour tables,
    the routing table is ordered, has no duplicate key and names interfaces that
    exist, and so do the filters; every operation with arguments of its types has
    a result in such a configuration, except the removal of an address that an
    interface has. *)
Theorem configuration_well_formed r : rtc config_step init_router r →
  router_wf r ∧
  ∀ op, op_ok (length (iflist r)) op →
    (∀ i addr vif, op = OpAddressDel i addr → iflist r !! i = Some vif → addr ∉ address <$> address_list vif) →
    ∃ r', exec_op op r = Some r' ∧ router_wf r'.
Proof.
  intros Hr%config_wf. split; [done|]. intros op Hop Hdel. apply exec_op_wf; [done..|]. destruct op; try done.
  destruct Hop as [Hlt _]. destruct (lookup_lt_is_Some_2 _ _ Hlt) as [vif Hv]. exists vif. split; [done|]. by eapply Hdel.
Qed.

Lemma configuration_well_formed_witness :
  router_wf demo_router ∧ ∃ r', exec_op (OpRoute 0x0000A8C0 0x00FFFFFF 0x0300010A 4 None) demo_router = Some r' ∧ router_wf r'.
Proof.
  destruct (configuration_well_formed demo_router demo_config_reachable) as [H1 H2]. split; [done|]. apply H2; [|done].
  unfold op_ok, iface_arg, u32P, u16P. intuition lia.
Defined.

(** configuring an address makes its network reachable: afterwards every
    destination of the network has a route, through an interface that exists, whose
    netmask is at least as long, and a destination for which no longer netmask
    matches goes to the network itself. *)
Theorem address_makes_network_reachable r i addr mask v r' : rtc config_step init_router r →
  (i < length (iflist r))%nat → u32P addr → u32P mask → addr ≠ 0xFFFFFFFF →
  vder_iface_address_add i addr mask r = Some (VResult 0 v, r') →
  ∀ dst, Z.land (ntohl dst) (ntohl mask) = Z.land (ntohl addr) (ntohl mask) →
    ∃ ro, vder_get_route dst (routing_table r') = Some ro ∧ ntohl mask ≤ ntohl (r_netmask ro) ∧ (r_iface ro < length (iflist r'))%nat ∧
      ((∀ ro', ro' ∈ routing_table r' → in_network dst ro' → ntohl (r_netmask ro') ≤ ntohl mask) → r_netmask ro = mask).
Proof.
  intros Hr Hi Ha Hm Hne Hadd dst Hdst. pose proof (config_wf r Hr) as Hwf.
  destruct (address_add_wf r i addr mask Hwf Hi Ha Hm) as (v0 & r0 & E0 & Hwf'). rewrite E0 in Hadd. injection Hadd as -> ->.
  assert (∃ ro, ro ∈ routing_table r' ∧ route_key ro = (ntohl (Z.land (ntohl addr) (ntohl mask)), mask, 1)) as (ro & Hin & Ek).
  { unfold vder_iface_address_add in E0. destruct (iflist r !! i) as [vif|]; [|done]. cbn [mbind option_bind] in E0.
    destruct (existsb _ _); [done|]. destruct (Z.eqb_spec addr 0xFFFFFFFF) as [?|_]; [done|]. cbn [negb] in E0. injection E0 as _ <-.
    apply route_add_present. }
  pose proof (wf_routes _ Hwf') as Ht. pose proof (t_routes _ _ Ht) as Hall. rewrite Forall_forall in Hall.
  injection Ek as Ed Em _. assert (in_network dst ro) as Hn.
  { apply (matches_network (length (iflist r'))); [by apply Hall|]. unfold matches. rewrite Ed, Em, (proj2 (masked_ok addr mask)). by apply Z.eqb_eq. }
  pose proof (get_route_spec _ _ dst Ht) as Hg. destruct (vder_get_route dst (routing_table r')) as [ro1|]; [|by destruct (Hg ro Hin)].
  destruct Hg as (Hin1 & Hn1 & Hbest). exists ro1.
  assert (ntohl mask ≤ ntohl (r_netmask ro1)) as Hle by (destruct (Hbest ro Hin Hn) as [-> | [?|[-> _]]]; rewrite <- ?Em; lia).
  split_and!; [done | done | by apply Hall|]. intros Hmax. apply ntohl_inj; [by apply Hall | done|]. specialize (Hmax ro1 Hin1 Hn1). lia.
Qed.

Lemma address_makes_network_reachable_witness :
  ∃ r', vder_iface_address_add 1 0x0100A8C0 0x00FFFFFF demo_router = Some (VResult 0 None, r') ∧
    ∃ ro, vder_get_route 0x0700A8C0 (routing_table r') = Some ro ∧ ntohl 0x00FFFFFF ≤ ntohl (r_netmask ro) ∧ (r_iface ro < length (iflist r'))%nat.
Proof.
  eexists. split; [vm_compute; reflexivity|].
  edestruct (address_makes_network_reachable demo_router 1 0x0100A8C0 0x00FFFFFF None) as (ro & H1 & H2 & H3 & _);
    [exact demo_config_reachable | cbn; lia | unfold u32P; lia | unfold u32P; lia | lia | vm_compute; reflexivity | |].
  2: { exists ro. split; [exact H1|]. split; [exact H2 | exact H3]. }
  vm_compute. reflexivity.
Defined.

(** ** Where the code departs from its comments *)

(** The first route is inserted and reported as a failure. *)
Lemma first_route_reported_as_failure addr mask gw met i :
  ∃ ro, vder_route_add addr mask gw met (Some i) [] = (VResult (-1) None, [ro]).
Proof. eexists. reflexivity. Qed.

(** Among routes of one netmask the one with the larger metric is used. *)
Lemma larger_metric_wins ro c t : r_netmask c = r_netmask ro → dest_addr c = dest_addr ro → metric c < metric ro →
  matches (dest_addr ro) ro = true → vder_get_route (dest_addr ro) (insert_route ro (c :: t)) = Some ro.
Proof.
  intros En Ed Hm Hma. cbn [insert_route]. rewrite En, Z.eqb_refl. apply Z.ltb_lt in Hm as ->. rewrite orb_true_r.
  unfold vder_get_route. cbn [List.find]. unfold matches in Hma. by rewrite Hma.
Qed.

(** The removal of an address that the interface has reads memory it has freed. *)
Lemma address_del_uses_freed r i addr vif c : iflist r !! i = Some vif → c ∈ address_list vif → address c = addr →
  vder_iface_address_del i addr r = None.
Proof.
  intros Hv Hc <-. unfold vder_iface_address_del. rewrite Hv. cbn [mbind option_bind].
  assert (existsb (λ c0, address c0 =? address c) (address_list vif) = true) as ->; [|done].
  apply existsb_exists. exists c. split; [by apply list_elem_of_In | apply Z.eqb_refl].
Qed.

(** The filter of another protocol is removed. *)
Lemma filter_del_ignores_proto junk src p p' sa sm da dm tos sport dport act r :
  (vder_filter_del src p' sa sm da dm tos sport dport (vder_filter_add junk src p sa sm da dm tos sport dport act r).2).2 = r.
Proof.
  unfold vder_filter_del, vder_filter_add. cbn [snd filtering_table delete_filter]. cbn [src_iface f_saddr f_daddr f_sport f_dport f_tos address netmask].
  rewrite bool_decide_eq_true_2 by done. rewrite !Z.eqb_refl. by destruct r.
Qed.
