(* ===== verification/VQueue.v ===== *)
(** * VQueue: the queues of an interface of [vde_router]

    [vder_queue.c], the timer of [vder_datalink.c] and the threads of an
    interface: whoever sends puts a packet in one of the 32 priority queues, the
    queuer thread ([vder_core_queuer_loop]) moves it to [out_q] and the sender
    thread ([vder_core_send_loop]) to the network.  Critical sections are
    atomic steps and everything between them can interleave: the test of the policy
    and the [sem_post] come after the mutex is released, and [prio_dequeue] takes the
    locks of the queues one after the other.  A label of [qstep] names the
    thread that moves.  Memory that was never initialised is read as [QFault].

    The theorems: with packets of the 32 priorities and policies other than the
    token one, no packet is duplicated or reordered within its priority, the
    only packets lost are those [out_q] refuses, and the threads never sleep while there
    is work; and the token policy keeps its rate. *)
From Stdlib Require Import Lia QArith.
From stdpp Require Import base numbers sets list.
From S2P Require Import Prelude.
Open Scope Z_scope.

Definition PRIO_ARP : Z := 1.
Definition PRIO_BESTEFFORT : Z := 15.
Definition PRIO_NUM : nat := 32.
Definition IDEAL_PACKET_SIZE : Z := 1500.

Record vde_buff := Buff { b_len : Z; b_src : option nat; b_priority : Z; b_data : list Z }.

(** The policy, the function [may_enqueue] it selects and the member of the union
    it uses change together.  [P] and [drand48()] are rationals. *)
Inductive queue_policy :=
  | QPOLICY_UNLIMITED
  | QPOLICY_FIFO (limit stats_drop : Z)
  | QPOLICY_RED (min max : Z) (P : Q) (limit stats_drop stats_probability_drop : Z)
  | QPOLICY_TOKEN (limit stats_drop interval : Z).

(** The list from [head] to [tail], with the counters the code keeps beside it. *)
Record vder_queue := Queue { q_n : Z; q_size : Z; q_bufs : list vde_buff; q_policy : queue_policy }.

Definition is_token (p : queue_policy) : bool := match p with QPOLICY_TOKEN _ _ _ => true | _ => false end.
Definition set_policy (q : vder_queue) (p : queue_policy) : vder_queue := Queue (q_n q) (q_size q) (q_bufs q) p.

(** ** The policies *)

Definition qunlimited_may_enqueue (q : vder_queue) : bool * queue_policy := (true, q_policy q).

(** [stats_drop] counts what is refused. *)
Definition qfifo_may_enqueue (limit drop : Z) (q : vder_queue) : bool * queue_policy :=
  if q_size q <? limit then (true, q_policy q) else (false, QPOLICY_FIFO limit (u32 (drop + 1))).

(** The division binds tighter than the subtraction. *)
Definition red_probability (min max : Z) (P : Q) (size : Z) : Q :=
  P * (inject_Z size - inject_Z min / (inject_Z max - inject_Z min)).
Definition qred_may_enqueue (rnd : Q) (min max : Z) (P : Q) (limit drop pdrop : Z) (q : vder_queue) : bool * queue_policy :=
  let toss prob := if Qle_bool prob rnd then (true, q_policy q) else (false, QPOLICY_RED min max P limit drop (u32 (pdrop + 1))) in
  if q_size q <? min then (true, q_policy q)
  else if q_size q <? max then toss (red_probability min max P (q_size q))
  else if q_size q <? limit then toss P
  else (false, QPOLICY_RED min max P limit (u32 (drop + 1)) pdrop).

Definition qtoken_may_enqueue (limit drop interval : Z) (q : vder_queue) : bool * queue_policy :=
  if q_size q <? limit then (true, q_policy q) else (false, QPOLICY_TOKEN limit (u32 (drop + 1)) interval).

Definition may_enqueue (rnd : Q) (q : vder_queue) : bool * queue_policy :=
  match q_policy q with
  | QPOLICY_UNLIMITED => qunlimited_may_enqueue q
  | QPOLICY_FIFO limit drop => qfifo_may_enqueue limit drop q
  | QPOLICY_RED min max P limit drop pdrop => qred_may_enqueue rnd min max P limit drop pdrop q
  | QPOLICY_TOKEN limit drop interval => qtoken_may_enqueue limit drop interval q
  end.

(** ** Setting a policy *)

(** [Router.timed_dequeue]: a queue is known by a number. *)
Record vder_timed_dequeue := Timed { t_last_out : Z; t_interval : Z; t_q : nat }.
Record timers := Timers { timed_dequeue : list vder_timed_dequeue; smallest_interval : Z }.

Definition vder_timed_dequeue_add (q : nat) (interval now : Z) (t : timers) : timers :=
  Timers (Timed now interval q :: timed_dequeue t) (if interval <? smallest_interval t then interval else smallest_interval t).
Fixpoint timed_del (q : nat) (l : list vder_timed_dequeue) : list vder_timed_dequeue :=
  match l with
  | [] => []
  | cur :: l => if bool_decide (t_q cur = q) then l else cur :: timed_del q l
  end.
Definition vder_timed_dequeue_del (q : nat) (t : timers) : timers := Timers (timed_del q (timed_dequeue t)) (smallest_interval t).

Definition leave_token (id : nat) (q : vder_queue) (t : timers) : timers :=
  if is_token (q_policy q) then vder_timed_dequeue_del id t else t.
Definition qunlimited_setup (id : nat) (q : vder_queue) (t : timers) : vder_queue * timers :=
  (set_policy q QPOLICY_UNLIMITED, leave_token id q t).
Definition qfifo_setup (limit : Z) (id : nat) (q : vder_queue) (t : timers) : vder_queue * timers :=
  (set_policy q (QPOLICY_FIFO limit 0), leave_token id q t).
Definition qred_setup (min max : Z) (P : Q) (limit : Z) (id : nat) (q : vder_queue) (t : timers) : vder_queue * timers :=
  (set_policy q (QPOLICY_RED min max P limit 0 0), leave_token id q t).
(** [None] when the rate is below 8 bits per second: a division by zero. *)
Definition token_interval (bitrate : Z) : option Z :=
  let rate := Z.shiftr bitrate 3 in
  if rate =? 0 then None else Some (1000000 * IDEAL_PACKET_SIZE / rate).
Definition qtoken_setup (bitrate limit now : Z) (id : nat) (q : vder_queue) (t : timers) : option (vder_queue * timers) :=
  interval ← token_interval bitrate;
  Some (set_policy q (QPOLICY_TOKEN limit 0 interval), vder_timed_dequeue_add id (u32 interval) now (leave_token id q t)).

(** The loop of [vder_timer_loop] on one queue, with the number of posts, and one
    pass over all the queues; [None] when the bound on the turns is reached. *)
Fixpoint timer_while (fuel : nat) (now : Z) (d : vder_timed_dequeue) : option (nat * vder_timed_dequeue) :=
  match fuel with
  | O => None
  | S fuel =>
    if u64 (t_last_out d + t_interval d) <? now then
      let last := u64 (t_last_out d + t_interval d) in
      let last := if now <? last then now else last in
      '(n, d') ← timer_while fuel now (Timed last (t_interval d) (t_q d));
      Some (S n, d')
    else Some (O, d)
  end.
Definition timer_fuel (now : Z) (d : vder_timed_dequeue) : nat := S (S (Z.to_nat ((now - t_last_out d) / t_interval d))).
Fixpoint timer_pass (now : Z) (l : list vder_timed_dequeue) : option (list (nat * nat) * list vder_timed_dequeue) :=
  match l with
  | [] => Some ([], [])
  | d :: l =>
    '(n, d') ← timer_while (timer_fuel now d) now d;
    '(ps, l') ← timer_pass now l;
    Some ((t_q d, n) :: ps, d' :: l')
  end.

(** ** Critical sections *)

(** The one of [enqueue]: whether the packet was taken, and the queue. *)
Definition enqueue_locked (rnd : Q) (b : vde_buff) (q : vder_queue) : bool * vder_queue :=
  let (ok, p) := may_enqueue rnd q in
  if ok then (true, Queue (u32 (q_n q + 1)) (u32 (q_size q + b_len b)) (q_bufs q ++ [b]) p)
  else (false, set_policy q p).

(** The removal of the head, shared by both dequeuing functions; [None] when the head
    is a null pointer. *)
Definition take_head (q : vder_queue) : option (vde_buff * vder_queue) :=
  match q_bufs q with
  | [] => None
  | ret :: next =>
    let n := u32 (q_n q - 1) in
    Some (ret, Queue n (u32 (q_size q - b_len ret)) (if n =? 0 then [] else next) (q_policy q))
  end.

(** One turn of the loop of [prio_dequeue], and the one of [dequeue]: [Some None]
    when there is no packet. *)
Definition prio_dequeue_locked (q : vder_queue) : option (option (vde_buff * vder_queue)) :=
  if q_size q =? 0 then Some None
  else if q_n q =? 0 then Some None
  else r ← take_head q; Some (Some r).
Definition dequeue_locked (q : vder_queue) : option (option (vde_buff * vder_queue)) :=
  if q_n q =? 0 then Some None else r ← take_head q; Some (Some r).

(** ** The threads of an interface *)

(** Where the queuer and the sender are: waiting for the semaphore, past it,
    with a packet in hand, or about to post. *)
Inductive queuer_pc := QWait | QScan (i : nat) | QHold (b : vde_buff) | QPost.
Inductive sender_pc := SWait | SLock | SSend (b : vde_buff).

(** [posts] are the callers of [enqueue] past the mutex of a priority queue.
    The queues 32 to 255 are not in [prio_q]: [vder_iface_new] leaves them
    uninitialised. *)
Record ifq := IfQ {
  prio_q : list vder_queue; prio_sem : nat; posts : list nat; out_q : vder_queue; out_sem : nat;
  queuer : queuer_pc; sender : sender_pc }.

Definition queue_init : vder_queue := Queue 0 0 [] QPOLICY_UNLIMITED.
Definition ifq_init : ifq := IfQ (replicate PRIO_NUM queue_init) 0 [] queue_init 0 QWait SWait.

Inductive qlabel :=
  | LEnqueue (rnd : Q) (b : vde_buff)
  | LPost (k : nat)
  | LQueuer (rnd : Q)
  | LSender
  | LSetup (which : option nat) (p : queue_policy)
  | LTick (which : option nat).

Inductive qevent := Accepted (b : vde_buff) | Refused (b : vde_buff) | Moved (b : vde_buff) | Lost (b : vde_buff) | Sent (b : vde_buff).
Inductive qresult := QBlocked | QFault | QNext (s : ifq) (es : list qevent).

Definition with_prio (s : ifq) (l : list vder_queue) : ifq := IfQ l (prio_sem s) (posts s) (out_q s) (out_sem s) (queuer s) (sender s).
Definition with_queuer (s : ifq) (c : queuer_pc) : ifq := IfQ (prio_q s) (prio_sem s) (posts s) (out_q s) (out_sem s) c (sender s).

(** [enqueue] on a priority queue, up to the release of the mutex, and after it. *)
Definition step_enqueue (rnd : Q) (b : vde_buff) (s : ifq) : qresult :=
  let i := Z.to_nat (b_priority b) in
  match prio_q s !! i with
  | None => QFault
  | Some q =>
    let (ok, q') := enqueue_locked rnd b q in
    if ok then QNext (IfQ (<[i := q']> (prio_q s)) (prio_sem s) (posts s ++ [i]) (out_q s) (out_sem s) (queuer s) (sender s)) [Accepted b]
    else QNext (with_prio s (<[i := q']> (prio_q s))) [Refused b]
  end.
Definition step_post (k : nat) (s : ifq) : qresult :=
  match posts s !! k with
  | None => QBlocked
  | Some i =>
    match prio_q s !! i with
    | None => QFault
    | Some q =>
      QNext (IfQ (prio_q s) (if is_token (q_policy q) then prio_sem s else S (prio_sem s)) (delete k (posts s)) (out_q s) (out_sem s)
               (queuer s) (sender s)) []
    end
  end.

(** [vder_core_queuer_loop]: [prio_dequeue], then [enqueue] on [out_q]. *)
Definition step_queuer (rnd : Q) (s : ifq) : qresult :=
  match queuer s with
  | QWait =>
    match prio_sem s with
    | O => QBlocked
    | S n => QNext (IfQ (prio_q s) n (posts s) (out_q s) (out_sem s) (QScan 0) (sender s)) []
    end
  | QScan i =>
    if (PRIO_NUM <=? i)%nat then QNext (with_queuer s QWait) [] else
    match prio_q s !! i with
    | None => QFault
    | Some q =>
      match prio_dequeue_locked q with
      | None => QFault
      | Some None => QNext (with_queuer s (QScan (S i))) []
      | Some (Some (b, q')) => QNext (with_queuer (with_prio s (<[i := q']> (prio_q s))) (QHold b)) []
      end
    end
  | QHold b =>
    let (ok, q') := enqueue_locked rnd b (out_q s) in
    QNext (IfQ (prio_q s) (prio_sem s) (posts s) q' (out_sem s) (if ok then QPost else QWait) (sender s)) [if ok then Moved b else Lost b]
  | QPost =>
    QNext (IfQ (prio_q s) (prio_sem s) (posts s) (out_q s) (if is_token (q_policy (out_q s)) then out_sem s else S (out_sem s)) QWait (sender s)) []
  end.

(** [vder_core_send_loop]: [dequeue] on [out_q], then [vde_send]. *)
Definition step_sender (s : ifq) : qresult :=
  match sender s with
  | SWait =>
    match out_sem s with
    | O => QBlocked
    | S n => QNext (IfQ (prio_q s) (prio_sem s) (posts s) (out_q s) n (queuer s) SLock) []
    end
  | SLock =>
    match dequeue_locked (out_q s) with
    | None => QFault
    | Some None => QNext (IfQ (prio_q s) (prio_sem s) (posts s) (out_q s) (out_sem s) (queuer s) SWait) []
    | Some (Some (b, q')) => QNext (IfQ (prio_q s) (prio_sem s) (posts s) q' (out_sem s) (queuer s) (SSend b)) []
    end
  | SSend b => QNext (IfQ (prio_q s) (prio_sem s) (posts s) (out_q s) (out_sem s) (queuer s) SWait) [Sent b]
  end.

(** A policy is set from the console; the timer posts for a queue with tokens. *)
Definition step_setup (which : option nat) (p : queue_policy) (s : ifq) : qresult :=
  match which with
  | None => QNext (IfQ (prio_q s) (prio_sem s) (posts s) (set_policy (out_q s) p) (out_sem s) (queuer s) (sender s)) []
  | Some i => match prio_q s !! i with
              | None => QFault
              | Some q => QNext (with_prio s (<[i := set_policy q p]> (prio_q s))) []
              end
  end.
Definition step_tick (which : option nat) (s : ifq) : qresult :=
  match which with
  | None => QNext (IfQ (prio_q s) (prio_sem s) (posts s) (out_q s) (S (out_sem s)) (queuer s) (sender s)) []
  | Some _ => QNext (IfQ (prio_q s) (S (prio_sem s)) (posts s) (out_q s) (out_sem s) (queuer s) (sender s)) []
  end.

Definition qstep (l : qlabel) (s : ifq) : qresult :=
  match l with
  | LEnqueue rnd b => step_enqueue rnd b s
  | LPost k => step_post k s
  | LQueuer rnd => step_queuer rnd s
  | LSender => step_sender s
  | LSetup w p => step_setup w p s
  | LTick w => step_tick w s
  end.

(** ** Sums *)

Fixpoint qsum {A} (f : A → Z) (l : list A) : Z := match l with [] => 0 | x :: l => f x + qsum f l end.

Lemma qsum_app {A} (f : A → Z) l k : qsum f (l ++ k) = qsum f l + qsum f k.
Proof. induction l as [|x l IH]; cbn [qsum app]; lia. Qed.

Lemma qsum_insert {A} (f : A → Z) l i x y : l !! i = Some x → qsum f (<[i := y]> l) = qsum f l - f x + f y.
Proof.
  revert i. induction l as [|z l IH]; intros i Hi; [done|]. destruct i as [|i]; [injection Hi as ->; cbn; lia|].
  change (<[S i := y]> (z :: l)) with (z :: <[i := y]> l). cbn [qsum]. rewrite (IH i Hi). lia.
Qed.

Lemma qsum_nonneg {A} (f : A → Z) l : (∀ x, 0 ≤ f x) → 0 ≤ qsum f l.
Proof. intros H. induction l as [|x l IH]; cbn [qsum]; [lia|]. pose proof (H x). lia. Qed.

Lemma qsum_zero {A} (f : A → Z) l : (∀ x, 0 ≤ f x) → qsum f l = 0 → Forall (λ x, f x = 0) l.
Proof.
  intros H. induction l as [|x l IH]; cbn [qsum]; intros Hz; [constructor|]. pose proof (H x). pose proof (qsum_nonneg f l H).
  constructor; [lia | apply IH; lia].
Qed.

(** ** Well-formed queues *)

Definition bytes (l : list vde_buff) : Z := qsum b_len l.
Record queue_ok (q : vder_queue) : Prop := {
  qk_n : q_n q = Z.of_nat (length (q_bufs q));
  qk_size : q_size q = bytes (q_bufs q);
  qk_bound : bytes (q_bufs q) < 2 ^ 32;
  qk_lens : Forall (λ b, 0 < b_len b) (q_bufs q);
  qk_policy : is_token (q_policy q) = false
}.

Lemma bytes_length l : Forall (λ b, 0 < b_len b) l → Z.of_nat (length l) ≤ bytes l.
Proof. unfold bytes. induction 1 as [|b l Hb _ IH]; cbn [length qsum]; lia. Qed.

Lemma may_enqueue_policy rnd q : is_token (may_enqueue rnd q).2 = is_token (q_policy q).
Proof.
  destruct q as [n size bufs p]. unfold may_enqueue, qunlimited_may_enqueue, qfifo_may_enqueue, qred_may_enqueue, qtoken_may_enqueue.
  cbn [q_policy q_size]. destruct p; repeat case_match; done.
Qed.

Lemma enqueue_locked_ok rnd b q ok q' : queue_ok q → 0 < b_len b → bytes (q_bufs q) + b_len b < 2 ^ 32 →
  enqueue_locked rnd b q = (ok, q') → queue_ok q' ∧ q_bufs q' = if ok then q_bufs q ++ [b] else q_bufs q.
Proof.
  intros [Hn Hs Hb Hl Hp] Hlen Htot. unfold enqueue_locked. pose proof (may_enqueue_policy rnd q) as Hpol. rewrite Hp in Hpol.
  destruct (may_enqueue rnd q) as [[] p]; cbn in Hpol; intros [= <- <-]; [|by split].
  pose proof (bytes_length _ Hl). assert (bytes (q_bufs q ++ [b]) = bytes (q_bufs q) + b_len b) as Eb.
  { unfold bytes. rewrite qsum_app. cbn. lia. }
  split; [|done]. split; cbn [q_n q_size q_bufs q_policy]; rewrite ?length_app, ?Eb; cbn [length]; [..|apply Forall_app; split; [done|by apply Forall_singleton]|done].
  - unfold u32. rewrite Z.mod_small; lia.
  - unfold u32. rewrite Z.mod_small; lia.
  - lia.
Qed.

(** On a well-formed queue both removals agree and take the first packet. *)
Lemma dequeue_ok q : queue_ok q →
  match q_bufs q with
  | [] => prio_dequeue_locked q = Some None ∧ dequeue_locked q = Some None
  | b :: l => ∃ q', prio_dequeue_locked q = Some (Some (b, q')) ∧ dequeue_locked q = Some (Some (b, q')) ∧ queue_ok q' ∧ q_bufs q' = l
  end.
Proof.
  intros [Hn Hs Hb Hl Hp]. unfold prio_dequeue_locked, dequeue_locked, take_head. destruct (q_bufs q) as [|b l] eqn:E.
  - cbn in Hn, Hs. by rewrite Hs, Hn.
  - pose proof (bytes_length _ Hl) as Hbl. cbn [length] in *. apply Forall_cons in Hl as [Hb0 Hl].
    assert (bytes (b :: l) = b_len b + bytes l) as Eb by done. pose proof (bytes_length _ Hl) as Hbl'.
    destruct (Z.eqb_spec (q_size q) 0); [lia|]. destruct (Z.eqb_spec (q_n q) 0); [lia|]. cbn [mbind option_bind].
    assert (u32 (q_n q - 1) = Z.of_nat (length l)) as -> by (unfold u32; rewrite Z.mod_small; lia).
    assert (u32 (q_size q - b_len b) = bytes l) as -> by (unfold u32; rewrite Z.mod_small; lia).
    assert ((if Z.of_nat (length l) =? 0 then [] else l) = l) as ->.
    { destruct l as [|c l]; [done|]. destruct (Z.eqb_spec (Z.of_nat (length (c :: l))) 0); [cbn in *; lia | done]. }
    eexists. split_and!; [done..| |done]. split; cbn [q_n q_size q_bufs q_policy]; [done | done | lia | done | done].
Qed.

(** ** The invariant of the threads *)

Definition held (c : queuer_pc) : list vde_buff := match c with QHold b => [b] | _ => [] end.
Definition in_hand (c : sender_pc) : list vde_buff := match c with SSend b => [b] | _ => [] end.
Definition scanning (c : queuer_pc) : Z := match c with QScan _ => 1 | _ => 0 end.
Definition posting (c : queuer_pc) : Z := match c with QPost => 1 | _ => 0 end.
Definition locking (c : sender_pc) : Z := match c with SLock => 1 | _ => 0 end.

Definition qlen (q : vder_queue) : Z := Z.of_nat (length (q_bufs q)).
Definition waiting (s : ifq) : Z := qsum qlen (prio_q s).
Definition total_bytes (s : ifq) : Z := qsum (λ q, bytes (q_bufs q)) (prio_q s) + bytes (q_bufs (out_q s)) + bytes (held (queuer s)).

(** A packet has data and a priority below 32, policies are not the token one,
    and the packets of an interface take less than 4 GiB. *)
Definition label_ok (l : qlabel) (s : ifq) : Prop :=
  match l with
  | LEnqueue _ b => 0 < b_len b ∧ 0 ≤ b_priority b < Z.of_nat PRIO_NUM ∧ total_bytes s + b_len b < 2 ^ 32
  | LSetup w p => is_token p = false ∧ match w with Some i => (i < PRIO_NUM)%nat | None => True end
  | LTick _ => False
  | _ => True
  end.

(** Every packet that waits has its post: in the semaphore, about to be made, or
    consumed by the queuer that looks for a packet, and it will find one. *)
Record ifq_inv (s : ifq) : Prop := {
  v_len : length (prio_q s) = PRIO_NUM;
  v_prio : Forall queue_ok (prio_q s);
  v_out : queue_ok (out_q s);
  v_held : Forall (λ b, 0 < b_len b) (held (queuer s));
  v_bytes : total_bytes s < 2 ^ 32;
  v_posts : Forall (λ i, (i < PRIO_NUM)%nat) (posts s);
  v_sem : Z.of_nat (prio_sem s) + Z.of_nat (length (posts s)) + scanning (queuer s) = waiting s;
  v_scan : ∀ i, queuer s = QScan i → ∃ j q, (i ≤ j)%nat ∧ prio_q s !! j = Some q ∧ q_bufs q ≠ [];
  v_osem : Z.of_nat (out_sem s) + posting (queuer s) + locking (sender s) = qlen (out_q s)
}.

Inductive qreach : ifq → list qevent → Prop :=
  | qreach_init : qreach ifq_init []
  | qreach_step s es l s' es' : qreach s es → label_ok l s → qstep l s = QNext s' es' → qreach s' (es ++ es').

Lemma bytes_nonneg l : Forall (λ b, 0 < b_len b) l → 0 ≤ bytes l.
Proof. intros H%bytes_length. lia. Qed.

Lemma pushed_sizes b q q' (ok : bool) : q_bufs q' = (if ok then q_bufs q ++ [b] else q_bufs q) →
  bytes (q_bufs q') = bytes (q_bufs q) + (if ok then b_len b else 0) ∧ qlen q' = qlen q + (if ok then 1 else 0).
Proof.
  intros E. unfold qlen, bytes. rewrite E. destruct ok; [|lia]. rewrite qsum_app, length_app. cbn [qsum length]. lia.
Qed.

Lemma queued_nonneg (l : list vder_queue) : Forall queue_ok l → 0 ≤ qsum (λ q, bytes (q_bufs q)) l.
Proof. induction 1 as [|y k Hy _ IH]; cbn [qsum]; [lia|]. pose proof (bytes_nonneg _ (qk_lens _ Hy)). lia. Qed.

Lemma bytes_le (l : list vder_queue) i q : Forall queue_ok l → l !! i = Some q → bytes (q_bufs q) ≤ qsum (λ q, bytes (q_bufs q)) l.
Proof.
  intros Hall. revert i. induction Hall as [|x l Hx Hall IH]; intros i Hi; [done|].
  pose proof (queued_nonneg l Hall). cbn [qsum]. destruct i as [|i]; [injection Hi as ->; lia|].
  specialize (IH i Hi). pose proof (bytes_nonneg _ (qk_lens _ Hx)). lia.
Qed.

Lemma qlen_nonneg q : 0 ≤ qlen q.
Proof. unfold qlen. lia. Qed.

Lemma waiting_pos s : 0 < waiting s → ∃ j q, prio_q s !! j = Some q ∧ q_bufs q ≠ [].
Proof.
  unfold waiting. induction (prio_q s) as [|q l IH]; cbn [qsum]; intros H; [lia|]. destruct (q_bufs q) as [|b bs] eqn:E.
  - destruct IH as (j & x & Hj & Hx); [unfold qlen in H at 1; rewrite E in H; cbn in H; lia|]. by exists (S j), x.
  - exists 0%nat, q. by rewrite E.
Qed.

Lemma ifq_init_inv : ifq_inv ifq_init.
Proof.
  assert (queue_ok queue_init) by (split; cbn; [done | done | lia | constructor | done]).
  split; cbn [prio_q prio_sem posts out_q out_sem queuer sender ifq_init held]; [done | by apply Forall_replicate | done | constructor | by vm_compute |
    constructor | by vm_compute | done | by vm_compute].
Qed.

Section Steps.
Context (s : ifq) (Hs : ifq_inv s).

Local Lemma prio_lookup i : (i < PRIO_NUM)%nat → ∃ q, prio_q s !! i = Some q ∧ queue_ok q ∧ bytes (q_bufs q) ≤ qsum (λ q, bytes (q_bufs q)) (prio_q s).
Proof using Hs.
  intros Hi. destruct (lookup_lt_is_Some_2 (prio_q s) i) as [q Hq]; [rewrite (v_len _ Hs); done|].
  exists q. split_and!; [done | eapply Forall_lookup_1; [apply Hs | done] | eapply bytes_le; [apply Hs | done]].
Qed.

Lemma enqueue_step rnd b : 0 < b_len b → 0 ≤ b_priority b < Z.of_nat PRIO_NUM → total_bytes s + b_len b < 2 ^ 32 →
  ∃ s' es, step_enqueue rnd b s = QNext s' es ∧ ifq_inv s'.
Proof using Hs.
  intros Hlen Hp Htot. unfold step_enqueue. set (i := Z.to_nat (b_priority b)).
  destruct (prio_lookup i) as (q & Hq & Hqok & Hle); [lia|]. rewrite Hq.
  destruct (enqueue_locked rnd b q) as [ok q'] eqn:E.
  pose proof (bytes_nonneg _ (qk_lens _ (v_out _ Hs))) as Ho. pose proof (bytes_nonneg _ (v_held _ Hs)) as Hh.
  destruct (enqueue_locked_ok rnd b q ok q' Hqok Hlen) as [Hq' Eb]; [unfold total_bytes in Htot; lia | done|].
  destruct Hs as [H1 H2 H3 H4 H5 H6 H7 H8 H9].
  destruct (pushed_sizes b q q' ok Eb) as [Ebytes Eqlen].
  assert (∀ j x, prio_q s !! j = Some x → q_bufs x ≠ [] → ∃ y, <[i := q']> (prio_q s) !! j = Some y ∧ q_bufs y ≠ []) as Hkeep.
  { intros j x Hj Hx. destruct (decide (i = j)) as [<- | Hne]; [|exists x; by rewrite list_lookup_insert_ne].
    exists q'. rewrite list_lookup_insert_eq by (rewrite H1; lia). split; [done|]. rewrite Hq in Hj. injection Hj as <-.
    rewrite Eb. destruct ok; [by destruct (q_bufs q) | done]. }
  destruct ok; do 2 eexists; (split; [reflexivity|]); split;
    unfold total_bytes, waiting, with_prio in *; cbn [prio_q prio_sem posts out_q out_sem queuer sender];
    rewrite ?length_insert, ?length_app, ?(qsum_insert _ _ _ _ _ Hq); try done; try (by apply Forall_insert);
    try (intros j Hj; destruct (H8 j Hj) as (k & x & Hk & Hx & Hne); destruct (Hkeep k x Hx Hne) as (y & Hy & Hny); by exists k, y).
  - rewrite Ebytes. lia.
  - apply Forall_app. split; [done|]. apply Forall_singleton. lia.
  - rewrite Eqlen. cbn [length]. lia.
  - rewrite Ebytes. lia.
  - rewrite Eqlen. lia.
Qed.

Lemma post_step k : step_post k s = QBlocked ∨ ∃ s', step_post k s = QNext s' [] ∧ ifq_inv s'.
Proof using Hs.
  unfold step_post. destruct (posts s !! k) as [i|] eqn:Ek; [|by left]. right.
  destruct (prio_lookup i) as (q & Hq & Hqok & _); [exact (Forall_lookup_1 _ _ _ _ (v_posts _ Hs) Ek)|].
  rewrite Hq, (qk_policy _ Hqok). eexists. split; [reflexivity|]. destruct Hs as [H1 H2 H3 H4 H5 H6 H7 H8 H9].
  split; unfold waiting, total_bytes in *; cbn [prio_q prio_sem posts out_q out_sem queuer sender]; try done.
  - by apply Forall_delete.
  - pose proof (lookup_lt_Some _ _ _ Ek). rewrite length_delete by done. lia.
Qed.

Lemma queuer_step rnd : step_queuer rnd s = QBlocked ∨ ∃ s' es, step_queuer rnd s = QNext s' es ∧ ifq_inv s'.
Proof using Hs.
  unfold step_queuer. destruct Hs as [H1 H2 H3 H4 H5 H6 H7 H8 H9]. unfold total_bytes in H5.
  destruct (queuer s) as [|i|b|] eqn:Epc.
  - destruct (prio_sem s) as [|n] eqn:En; [by left|]. right. do 2 eexists. split; [reflexivity|].
    split; unfold waiting, total_bytes in *; cbn [prio_q prio_sem posts out_q out_sem queuer sender scanning held posting] in *; try done; [lia|].
    intros i [= <-]. assert (0 < waiting s) as Hw by (unfold waiting; lia). apply waiting_pos in Hw as (j & q & Hj & Hne). exists j, q. split; [lia | done].
  - right. destruct (H8 i eq_refl) as (j & q & Hij & Hj & Hne). pose proof (lookup_lt_Some _ _ _ Hj) as Hlt. rewrite H1 in Hlt.
    destruct (Nat.leb_spec PRIO_NUM i) as [?|Hi]; [lia|]. destruct (prio_lookup i Hi) as (q0 & Hq0 & Hok & _). rewrite Hq0.
    pose proof (dequeue_ok q0 Hok) as Hd. destruct (q_bufs q0) as [|b l] eqn:Eb.
    + destruct Hd as [-> _]. do 2 eexists. split; [reflexivity|].
      split; unfold waiting, total_bytes, with_queuer in *; cbn [prio_q prio_sem posts out_q out_sem queuer sender scanning held posting] in *; try done.
      intros k [= <-]. exists j, q. split_and!; [|done..]. destruct (decide (i = j)) as [<- | ?]; [|lia]. congruence.
    + destruct Hd as (q' & -> & _ & Hok' & Eb'). do 2 eexists. split; [reflexivity|].
      assert (0 < b_len b) as Hlen by (pose proof (qk_lens _ Hok) as Hf; rewrite Eb in Hf; by apply Forall_cons in Hf as [? _]).
      split; unfold waiting, total_bytes, with_queuer, with_prio in *; cbn [prio_q prio_sem posts out_q out_sem queuer sender scanning held posting] in *;
        rewrite ?length_insert, ?(qsum_insert _ _ _ _ _ Hq0); try done; [by apply Forall_insert | by apply Forall_singleton | |].
      * rewrite Eb, Eb'. unfold bytes in *. cbn [qsum] in *. lia.
      * unfold qlen in *. rewrite Eb, Eb'. cbn [length]. lia.
  - right. destruct (enqueue_locked rnd b (out_q s)) as [ok q'] eqn:E. apply Forall_cons in H4 as [H4 _].
    assert (0 ≤ qsum (λ q, bytes (q_bufs q)) (prio_q s)) as Hp by (by apply queued_nonneg).
    assert (bytes (held (QHold b)) = b_len b) as Ebh by (unfold bytes; cbn; lia). rewrite Ebh in H5.
    destruct (enqueue_locked_ok rnd b (out_q s) ok q' H3 H4) as [Hq' Eb]; [lia | done|]. destruct (pushed_sizes b _ q' ok Eb) as [Ebytes Eqlen].
    do 2 eexists. split; [reflexivity|]. cbn [scanning posting] in *.
    split; unfold waiting, total_bytes in *; cbn [prio_q prio_sem posts out_q out_sem queuer sender] in *; destruct ok; try done;
      rewrite ?Ebytes, ?Eqlen; cbn [held scanning posting bytes qsum] in *; try done; try lia.
  - right. rewrite (qk_policy _ H3). do 2 eexists. split; [reflexivity|].
    split; unfold waiting, total_bytes in *; cbn [prio_q prio_sem posts out_q out_sem queuer sender held scanning posting] in *; try done. lia.
Qed.

Lemma sender_step : step_sender s = QBlocked ∨ ∃ s' es, step_sender s = QNext s' es ∧ ifq_inv s'.
Proof using Hs.
  unfold step_sender. destruct Hs as [H1 H2 H3 H4 H5 H6 H7 H8 H9]. destruct (sender s) as [| |b] eqn:Epc; cbn [locking] in H9.
  - destruct (out_sem s) as [|n] eqn:En; [by left|]. right. do 2 eexists. split; [reflexivity|]. split; cbn [sender locking out_sem]; try done.
    cbn [out_q queuer sender locking]. lia.
  - right. pose proof (dequeue_ok _ H3) as Hd. destruct (q_bufs (out_q s)) as [|b l] eqn:Eb.
    + destruct Hd as [_ ->]. unfold qlen in H9. rewrite Eb in H9. cbn [length] in H9. destruct (queuer s); cbn [posting] in H9; lia.
    + destruct Hd as (q' & _ & -> & Hok & Eb'). do 2 eexists. split; [reflexivity|].
      split; unfold total_bytes in *; cbn [prio_q out_q queuer sender locking out_sem] in *; try done.
      * pose proof (qk_lens _ H3) as Hf. rewrite Eb in *. apply Forall_cons in Hf as [? _]. rewrite Eb'. unfold bytes in *. cbn [qsum] in *. lia.
      * unfold qlen in *. rewrite Eb in *. rewrite Eb'. cbn [length] in *. lia.
  - right. do 2 eexists. split; [reflexivity|]. split; cbn [sender locking]; done.
Qed.

Lemma setup_step w p : is_token p = false → match w with Some i => (i < PRIO_NUM)%nat | None => True end →
  ∃ s', step_setup w p s = QNext s' [] ∧ ifq_inv s'.
Proof using Hs.
  intros Hp Hw. assert (∀ q, queue_ok q → queue_ok (set_policy q p)) as Hset by (by intros q []; split).
  unfold step_setup. destruct w as [i|].
  - destruct (prio_lookup i Hw) as (q & Hq & Hqok & _). rewrite Hq. eexists. split; [reflexivity|]. destruct Hs as [H1 H2 H3 H4 H5 H6 H7 H8 H9].
    split; unfold waiting, total_bytes, with_prio in *; cbn [prio_q prio_sem posts out_q out_sem queuer sender];
      rewrite ?length_insert, ?(qsum_insert _ _ _ _ _ Hq); cbn [q_bufs set_policy]; try done; [by apply Forall_insert; [|apply Hset] | lia | unfold qlen in *; cbn [q_bufs set_policy]; lia |].
    intros j Hj. destruct (H8 j Hj) as (k & x & Hk & Hx & Hne). destruct (decide (i = k)) as [<- | Hik].
    + exists i, (set_policy q p). rewrite list_lookup_insert_eq by (rewrite H1; lia). rewrite Hq in Hx. injection Hx as <-. done.
    + exists k, x. by rewrite list_lookup_insert_ne.
  - eexists. split; [reflexivity|]. destruct Hs as [H1 H2 H3 H4 H5 H6 H7 H8 H9].
    split; unfold total_bytes in *; cbn [prio_q prio_sem posts out_q out_sem queuer sender]; try done. by apply Hset.
Qed.

(** No step the threads can take faults, and the invariant is kept. *)
Lemma qstep_inv l : label_ok l s → qstep l s = QBlocked ∨ ∃ s' es, qstep l s = QNext s' es ∧ ifq_inv s'.
Proof using Hs.
  destruct l as [rnd b|k|rnd| |w p|w]; cbn [qstep label_ok]; intros Hl; [| | by apply queuer_step | by apply sender_step | | done].
  - right. destruct Hl as (? & ? & ?). by apply enqueue_step.
  - destruct (post_step k) as [? | (s' & ? & ?)]; eauto.
  - right. destruct Hl as [? ?]. destruct (setup_step w p) as (s' & ? & ?); eauto.
Qed.
End Steps.

Lemma qreach_inv s es : qreach s es → ifq_inv s.
Proof.
  induction 1 as [|s es l s' es' _ IH Hl E]; [apply ifq_init_inv|].
  destruct (qstep_inv s IH l Hl) as [E' | (s1 & es1 & E' & Hinv)]; congruence.
Qed.

(** ** What becomes of the packets *)

Definition accepted (es : list qevent) : list vde_buff := omap (λ e, match e with Accepted b => Some b | _ => None end) es.
Definition passed (es : list qevent) : list vde_buff := omap (λ e, match e with Moved b | Lost b => Some b | _ => None end) es.
Definition moved (es : list qevent) : list vde_buff := omap (λ e, match e with Moved b => Some b | _ => None end) es.
Definition lost (es : list qevent) : list vde_buff := omap (λ e, match e with Lost b => Some b | _ => None end) es.
Definition sent (es : list qevent) : list vde_buff := omap (λ e, match e with Sent b => Some b | _ => None end) es.
Definition of_prio (p : nat) (l : list vde_buff) : list vde_buff := filter (λ b, Z.to_nat (b_priority b) = p) l.

(** Of each priority, what was accepted is what the queuer has passed on, what it
    holds and what waits, in this order; what it moved is what was sent, what the
    sender holds and what waits in [out_q]. *)
Record accounted (s : ifq) (es : list qevent) : Prop := {
  a_prio : ∀ p q, prio_q s !! p = Some q → of_prio p (accepted es) = of_prio p (passed es) ++ of_prio p (held (queuer s)) ++ q_bufs q;
  a_out : moved es = sent es ++ in_hand (sender s) ++ q_bufs (out_q s)
}.

Lemma of_prio_app p l k : of_prio p (l ++ k) = of_prio p l ++ of_prio p k.
Proof. apply filter_app. Qed.
Lemma of_prio_one p b : of_prio p [b] = if decide (Z.to_nat (b_priority b) = p) then [b] else [].
Proof. unfold of_prio. rewrite filter_cons. by case_decide. Qed.
Lemma accounted_pops p l k m b bs : of_prio p l = k ++ m ++ b :: bs → Z.to_nat (b_priority b) = p.
Proof.
  intros E. assert (b ∈ of_prio p l) as Hb by (rewrite E; set_solver). unfold of_prio in Hb. by apply list_elem_of_filter in Hb as [? _].
Qed.

Lemma accounted_init : accounted ifq_init [].
Proof. split; [|done]. intros p q Hq. apply lookup_replicate in Hq as [-> _]. done. Qed.

Lemma accepted_app es es' : accepted (es ++ es') = accepted es ++ accepted es'.
Proof. apply omap_app. Qed.
Lemma passed_app es es' : passed (es ++ es') = passed es ++ passed es'.
Proof. apply omap_app. Qed.
Lemma moved_app es es' : moved (es ++ es') = moved es ++ moved es'.
Proof. apply omap_app. Qed.
Lemma sent_app es es' : sent (es ++ es') = sent es ++ sent es'.
Proof. apply omap_app. Qed.
Create Rewrite HintDb log.
#[local] Hint Rewrite accepted_app passed_app moved_app sent_app of_prio_app (@app_nil_r vde_buff) : log.

Section Accounts.
Context (s : ifq) (es : list qevent) (Hs : ifq_inv s) (Ha : accounted s es).

(** A priority queue is replaced; what concerns the others is unchanged. *)
Local Lemma account_insert i q q' es' c : prio_q s !! i = Some q → accepted es' = [] ∨ (∃ b, accepted es' = [b] ∧ Z.to_nat (b_priority b) = i) →
  passed es' = [] → (∀ p, p ≠ i → of_prio p (held c) = of_prio p (held (queuer s))) →
  of_prio i (held (queuer s)) ++ q_bufs q ++ accepted es' = of_prio i (held c) ++ q_bufs q' →
  ∀ p x, <[i := q']> (prio_q s) !! p = Some x →
    of_prio p (accepted (es ++ es')) = of_prio p (passed (es ++ es')) ++ of_prio p (held c) ++ q_bufs x.
Proof using Ha.
  intros Hq Hacc Hpass Hheld Heq p x Hx. rewrite accepted_app, passed_app, Hpass, app_nil_r, of_prio_app. destruct (decide (i = p)) as [<- | Hne].
  - rewrite list_lookup_insert_eq in Hx by (by eapply lookup_lt_Some). injection Hx as <-.
    rewrite (a_prio _ _ Ha i q Hq), <- !app_assoc, <- Heq. do 3 f_equal. destruct Hacc as [-> | (b & -> & Hb)]; [done|].
    rewrite of_prio_one. by rewrite decide_True.
  - rewrite list_lookup_insert_ne in Hx by done. rewrite (a_prio _ _ Ha p x Hx), Hheld by done.
    destruct Hacc as [-> | (b & -> & Hb)]; [apply app_nil_r|]. rewrite of_prio_one, decide_False by congruence. apply app_nil_r.
Qed.

Lemma enqueue_accounted rnd b s' es' : 0 < b_len b → 0 ≤ b_priority b < Z.of_nat PRIO_NUM → total_bytes s + b_len b < 2 ^ 32 →
  step_enqueue rnd b s = QNext s' es' → accounted s' (es ++ es').
Proof using Hs Ha.
  intros Hlen Hpr Htot E. unfold step_enqueue in E. set (i := Z.to_nat (b_priority b)) in *.
  destruct (prio_lookup s Hs i) as (q & Eq & Hok & Hle); [lia|]. rewrite Eq in E. destruct (enqueue_locked rnd b q) as [ok q'] eqn:Ee.
  pose proof (bytes_nonneg _ (qk_lens _ (v_out _ Hs))). pose proof (bytes_nonneg _ (v_held _ Hs)).
  destruct (enqueue_locked_ok rnd b q ok q' Hok Hlen) as [_ Eb]; [unfold total_bytes in Htot; lia | done|].
  pose proof (a_out _ _ Ha) as Ho. destruct ok; injection E as <- <-; (split; [|by autorewrite with log; cbn; rewrite ?app_nil_r]);
    cbn [prio_q with_prio queuer]; apply (account_insert i q); try done.
  - right. by exists b.
  - by rewrite Eb.
  - by left.
  - by rewrite Eb, app_nil_r.
Qed.

Lemma queuer_accounted rnd s' es' : step_queuer rnd s = QNext s' es' → accounted s' (es ++ es').
Proof using Hs Ha.
  intros E. unfold step_queuer in E. destruct Ha as [Hp Ho]. destruct (queuer s) as [|i|b|] eqn:Epc.
  - destruct (prio_sem s); [done|]. injection E as <- <-. rewrite app_nil_r. by split.
  - destruct (PRIO_NUM <=? i)%nat; [injection E as <- <-; rewrite app_nil_r; by split|].
    destruct (prio_q s !! i) as [q|] eqn:Eq; [|done]. pose proof (dequeue_ok q (Forall_lookup_1 _ _ _ _ (v_prio _ Hs) Eq)) as Hd.
    destruct (q_bufs q) as [|b bs] eqn:Eb.
    + destruct Hd as [Hd _]. rewrite Hd in E. injection E as <- <-. rewrite app_nil_r. by split.
    + destruct Hd as (q' & Hd & _ & _ & Eb'). rewrite Hd in E. injection E as <- <-.
      pose proof (Hp i q Eq) as Hi. rewrite Eb in Hi. pose proof (accounted_pops _ _ _ _ _ _ Hi) as Hpb.
      split; [|by rewrite app_nil_r]. cbn [prio_q with_prio with_queuer queuer]. apply (account_insert i q); [done | by left | done | |].
      * intros p Hne. cbn [held]. rewrite Epc, of_prio_one. by rewrite decide_False by congruence.
      * rewrite Epc, Eb, Eb', app_nil_r. cbn [held]. by rewrite of_prio_one, decide_True.
  - destruct (enqueue_locked rnd b (out_q s)) as [ok q'] eqn:Ee. injection E as <- <-.
    pose proof (v_held _ Hs) as Hh. rewrite Epc in Hh. apply Forall_cons in Hh as [Hh _].
    pose proof (queued_nonneg _ (v_prio _ Hs)). pose proof (v_bytes _ Hs) as Htot. unfold total_bytes in Htot. rewrite Epc in Htot.
    assert (bytes (held (QHold b)) = b_len b) as Ebh by (unfold bytes; cbn; lia).
    destruct (enqueue_locked_ok rnd b (out_q s) ok q' (v_out _ Hs) Hh) as [_ Eb]; [lia | done|].
    split; cbn [prio_q out_q queuer sender].
    + intros p x Hx. rewrite accepted_app, passed_app, !of_prio_app, (Hp p x Hx). destruct ok; cbn [held]; by rewrite app_nil_r, <- !app_assoc.
    + rewrite moved_app, sent_app, Ho, Eb. destruct ok; cbn; by rewrite <- ?app_assoc, ?app_nil_r.
  - injection E as <- <-. rewrite app_nil_r. by split.
Qed.

Lemma sender_accounted s' es' : step_sender s = QNext s' es' → accounted s' (es ++ es').
Proof using Hs Ha.
  intros E. unfold step_sender in E. destruct Ha as [Hp Ho]. destruct (sender s) as [| |b] eqn:Epc.
  - destruct (out_sem s); [done|]. injection E as <- <-. rewrite app_nil_r. by split.
  - pose proof (dequeue_ok _ (v_out _ Hs)) as Hd. destruct (q_bufs (out_q s)) as [|b bs] eqn:Eb.
    + destruct Hd as [_ Hd]. rewrite Hd in E. injection E as <- <-. rewrite app_nil_r. split; [done|]. cbn. by rewrite Ho, Eb.
    + destruct Hd as (q' & _ & Hd & _ & Eb'). rewrite Hd in E. injection E as <- <-. rewrite app_nil_r. split; [done|]. cbn. by rewrite Ho, Eb'.
  - injection E as <- <-. split; autorewrite with log; cbn; rewrite ?app_nil_r; [done|]. rewrite Ho. by rewrite <- !app_assoc.
Qed.

Lemma setup_accounted w p s' es' : step_setup w p s = QNext s' es' → accounted s' (es ++ es').
Proof using Ha.
  unfold step_setup. destruct w as [i|]; [|by intros [= <- <-]; rewrite app_nil_r; destruct Ha; split].
  destruct (prio_q s !! i) as [q|] eqn:Eq; [|done]. intros [= <- <-]. split; [|rewrite app_nil_r; apply Ha].
  cbn [prio_q with_prio queuer]. apply (account_insert i q); [done | by left | done | done|]. by rewrite app_nil_r.
Qed.

Lemma qstep_accounted l s' es' : label_ok l s → qstep l s = QNext s' es' → accounted s' (es ++ es').
Proof using Hs Ha.
  destruct l as [rnd b|k|rnd| |w p|w]; cbn [qstep label_ok]; intros Hl E; [| | by eapply queuer_accounted | by apply sender_accounted | by eapply setup_accounted | done].
  - destruct Hl as (? & ? & ?). by eapply enqueue_accounted.
  - unfold step_post in E. destruct Ha. repeat case_match; try done; injection E as <- <-; rewrite app_nil_r; by split.
Qed.
End Accounts.

Lemma qreach_accounted s es : qreach s es → accounted s es.
Proof. induction 1 as [|s es l s' es' Hr IH Hl E]; [apply accounted_init|]. eapply qstep_accounted; [by eapply qreach_inv | done..]. Qed.

(** What was passed on was taken by [out_q] or lost. *)
Lemma passed_split es : passed es ≡ₚ moved es ++ lost es.
Proof.
  unfold passed, moved, lost. induction es as [|[] es IH]; cbn; try done; [by rewrite IH|].
  rewrite <- Permutation_middle. by rewrite IH.
Qed.
Lemma passed_all_moved es : lost es = [] → passed es = moved es.
Proof.
  unfold passed, moved, lost. induction es as [|[] es IH]; cbn; intros H; try done; try (by apply IH). by rewrite IH.
Qed.

(** Only the queuer loses packets, and only those that [out_q] refuses. *)
Lemma lost_refused l s s' es b : qstep l s = QNext s' es → Lost b ∈ es →
  ∃ rnd, l = LQueuer rnd ∧ queuer s = QHold b ∧ (may_enqueue rnd (out_q s)).1 = false.
Proof.
  intros E Hb. destruct l as [rnd c|k|rnd| |w p|w]; cbn [qstep] in E.
  - unfold step_enqueue in E. repeat case_match; simplify_eq; set_solver.
  - unfold step_post in E. repeat case_match; simplify_eq; set_solver.
  - unfold step_queuer in E. destruct (queuer s) as [|i|c|] eqn:Eq; [repeat case_match; simplify_eq; set_solver.. | |simplify_eq; set_solver].
    unfold enqueue_locked in E. destruct (may_enqueue rnd (out_q s)) as [[] p] eqn:Em; injection E as <- <-.
    + apply list_elem_of_singleton in Hb. discriminate.
    + apply list_elem_of_singleton in Hb as [= ->]. exists rnd. by rewrite Em.
  - unfold step_sender in E. repeat case_match; simplify_eq; set_solver.
  - unfold step_setup in E. repeat case_match; simplify_eq; set_solver.
  - unfold step_tick in E. repeat case_match; simplify_eq; set_solver.
Qed.

(** C6: The queues of an interface on which packets with data and of the priorities
    0 to 31 are sent, less than 4 GiB of them waiting, and whose policies are set to
    any but the token one, so that the timer does not post ([label_ok]). In every
    state its threads can reach, whatever their interleaving, no thread can run into
    a null or uninitialised pointer; of each priority the packets accepted are, in
    order, those the queuer passed on, the one it holds and those that wait; those
    passed on were taken by [out_q] or lost; those taken by it are, in order, those
    sent, the one the sender holds and those that wait in it; and a packet is lost
    only when the policy of [out_q] refuses it as the queuer hands it over. A
    priority of 32 or more faults ([high_priority_faults]), and leaving the token
    policy strands packets ([policy_change_strands_packet]). *)
Theorem queues_keep_packets s es : qreach s es →
  (∀ l, label_ok l s → qstep l s ≠ QFault) ∧
  (∀ p q, prio_q s !! p = Some q → of_prio p (accepted es) = of_prio p (passed es) ++ of_prio p (held (queuer s)) ++ q_bufs q) ∧
  moved es = sent es ++ in_hand (sender s) ++ q_bufs (out_q s) ∧
  passed es ≡ₚ moved es ++ lost es ∧
  (∀ l s' es' b, qstep l s = QNext s' es' → Lost b ∈ es' →
    ∃ rnd, l = LQueuer rnd ∧ queuer s = QHold b ∧ (may_enqueue rnd (out_q s)).1 = false).
Proof.
  intros Hr. pose proof (qreach_accounted _ _ Hr) as [Hp Ho]. split_and!; [|done|done|apply passed_split|intros l s' es' b; apply lost_refused].
  intros l Hl. destruct (qstep_inv s (qreach_inv _ _ Hr) l Hl) as [-> | (s' & es' & -> & _)]; done.
Qed.

(** ** The threads drain the queues *)

Definition internal (l : qlabel) : bool := match l with LPost _ | LQueuer _ | LSender => true | _ => false end.
Fixpoint qrun (ls : list qlabel) (s : ifq) : qresult :=
  match ls with
  | [] => QNext s []
  | l :: ls =>
    match qstep l s with
    | QNext s' es => match qrun ls s' with QNext s'' es' => QNext s'' (es ++ es') | r => r end
    | r => r
    end
  end.

(** What is left to do, in steps. *)
Definition queuer_work (c : queuer_pc) : Z := match c with QWait => 0 | QScan i => 33 - Z.of_nat i | QHold _ => 10 | QPost => 5 end.
Definition sender_work (c : sender_pc) : Z := match c with SWait => 0 | SLock => 3 | SSend _ => 2 end.
Definition work (s : ifq) : Z :=
  41 * Z.of_nat (length (posts s)) + 40 * Z.of_nat (prio_sem s) + queuer_work (queuer s) + 10 * waiting s + 4 * Z.of_nat (out_sem s) + sender_work (sender s).

Lemma work_nonneg s : ifq_inv s → 0 ≤ work s.
Proof.
  intros Hs. unfold work. assert (0 ≤ waiting s) by (apply qsum_nonneg, qlen_nonneg).
  assert (0 ≤ queuer_work (queuer s)).
  { destruct (queuer s) as [|i|b|] eqn:E; cbn; try lia. destruct (v_scan _ Hs i E) as (j & q & Hij & Hj & _).
    pose proof (lookup_lt_Some _ _ _ Hj) as Hlt. rewrite (v_len _ Hs) in Hlt. unfold PRIO_NUM in Hlt. lia. }
  destruct (sender s); cbn; lia.
Qed.

Lemma internal_work l s s' es : ifq_inv s → internal l → qstep l s = QNext s' es → work s' < work s.
Proof.
  intros Hs Hl E. destruct l as [rnd b|k|rnd| |w p|w]; try done; cbn [qstep] in E.
  - unfold step_post in E. destruct (posts s !! k) as [i|] eqn:Ek; [|done]. destruct (prio_q s !! i) as [q|]; [|done]. injection E as <- <-.
    unfold work, waiting. cbn [prio_q prio_sem posts out_sem queuer sender]. pose proof (lookup_lt_Some _ _ _ Ek). rewrite length_delete by done.
    destruct (is_token _); lia.
  - unfold step_queuer in E. destruct (queuer s) as [|i|b|] eqn:Epc.
    + destruct (prio_sem s) eqn:En; [done|]. injection E as <- <-. unfold work, waiting. cbn [prio_q prio_sem posts out_sem queuer sender]. rewrite Epc, En. cbn [queuer_work]. lia.
    + destruct (v_scan _ Hs i Epc) as (j & q & Hij & Hj & _). pose proof (lookup_lt_Some _ _ _ Hj) as Hlt. rewrite (v_len _ Hs) in Hlt.
      destruct (Nat.leb_spec PRIO_NUM i); [lia|]. unfold PRIO_NUM in *. destruct (prio_q s !! i) as [q0|] eqn:Eq; [|done].
      pose proof (dequeue_ok q0 (Forall_lookup_1 _ _ _ _ (v_prio _ Hs) Eq)) as Hd. destruct (q_bufs q0) as [|b bs] eqn:Eb.
      * destruct Hd as [Hd _]. rewrite Hd in E. injection E as <- <-. unfold work, waiting. cbn [prio_q prio_sem posts out_sem queuer sender with_queuer]. rewrite Epc. cbn [queuer_work]. lia.
      * destruct Hd as (q' & Hd & _ & _ & Eb'). rewrite Hd in E. injection E as <- <-. unfold work, waiting.
        cbn [prio_q prio_sem posts out_sem queuer sender with_queuer with_prio]. rewrite Epc, (qsum_insert _ _ _ _ _ Eq). unfold qlen. rewrite Eb, Eb'. cbn [queuer_work length]. lia.
    + destruct (enqueue_locked rnd b (out_q s)) as [ok q']. injection E as <- <-. unfold work, waiting. cbn [prio_q prio_sem posts out_sem queuer sender]. rewrite Epc. destruct ok; cbn [queuer_work]; lia.
    + injection E as <- <-. unfold work, waiting. cbn [prio_q prio_sem posts out_sem queuer sender]. rewrite Epc. cbn [queuer_work]. destruct (is_token _); lia.
  - unfold step_sender in E. destruct (sender s) as [| |b] eqn:Epc.
    + destruct (out_sem s) eqn:En; [done|]. injection E as <- <-. unfold work, waiting. cbn [prio_q prio_sem posts out_sem queuer sender]. rewrite Epc, En. cbn [sender_work]. lia.
    + destruct (dequeue_locked (out_q s)) as [[[b q']|]|]; [..|done]; injection E as <- <-; unfold work, waiting; cbn [prio_q prio_sem posts out_sem queuer sender]; rewrite Epc; cbn [sender_work]; lia.
    + injection E as <- <-. unfold work, waiting. cbn [prio_q prio_sem posts out_sem queuer sender]. rewrite Epc. cbn [sender_work]. lia.
Qed.

Lemma qrun_reach ls s es s' es' : qreach s es → Forall internal ls → qrun ls s = QNext s' es' →
  qreach s' (es ++ es') ∧ Z.of_nat (length ls) + work s' ≤ work s.
Proof.
  revert s es es'. induction ls as [|l ls IH]; intros s es es' Hr Hls; cbn [qrun length].
  - intros [= <- <-]. rewrite app_nil_r. split; [done | lia].
  - apply Forall_cons in Hls as [Hl Hls]. destruct (qstep l s) as [| |s1 es1] eqn:E; [done..|].
    destruct (qrun ls s1) as [| |s2 es2] eqn:E2; [done..|]. intros [= <- <-].
    assert (label_ok l s) as Hok by (by destruct l). pose proof (internal_work _ _ _ _ (qreach_inv _ _ Hr) Hl E).
    destruct (IH s1 (es ++ es1) es2) as [Hr2 Hw]; [by eapply qreach_step | done | done|].
    rewrite app_assoc. split; [done | lia].
Qed.

(** When every thread sleeps, nothing waits. *)
Lemma asleep_empty s : ifq_inv s → (∀ l, internal l → qstep l s = QBlocked) →
  (∀ p q, prio_q s !! p = Some q → q_bufs q = []) ∧ q_bufs (out_q s) = [] ∧ held (queuer s) = [] ∧ in_hand (sender s) = [].
Proof.
  intros Hs Hst. pose proof (Hst (LQueuer 0%Q) I) as Hq. pose proof (Hst LSender I) as Hse. pose proof (Hst (LPost 0) I) as Hpo.
  assert (posts s = []) as Ep.
  { cbn in Hpo. unfold step_post in Hpo. destruct (posts s) as [|i l] eqn:E; [done|]. cbn in Hpo. by destruct (prio_q s !! i). }
  assert (queuer s = QWait ∧ prio_sem s = O) as [Eq Esem].
  { cbn [qstep] in Hq. unfold step_queuer in Hq. destruct (queuer s); [by destruct (prio_sem s) | repeat case_match; done..]. }
  assert (sender s = SWait ∧ out_sem s = O) as [Es Eo].
  { cbn [qstep] in Hse. unfold step_sender in Hse. destruct (sender s); [by destruct (out_sem s) | repeat case_match; done..]. }
  pose proof (v_sem _ Hs) as Hsem. pose proof (v_osem _ Hs) as Hosem. rewrite Ep, Eq, Esem in Hsem. rewrite Eq, Es, Eo in Hosem. cbn in Hsem, Hosem.
  split_and!; [|unfold qlen in Hosem; by apply length_zero_iff_nil; lia|by rewrite Eq|by rewrite Es].
  intros p q Hp. unfold waiting in Hsem. symmetry in Hsem. pose proof (qsum_zero _ _ qlen_nonneg Hsem) as Hz.
  pose proof (Forall_lookup_1 _ _ _ _ Hz Hp) as H. unfold qlen in H. apply length_zero_iff_nil. lia.
Qed.

(** C7: In the same runs (priorities 0 to 31, policies other than the token one, no
    timer), when no more packets come the threads do at most [work s] steps before
    they all sleep, none of them a fault; and when they sleep, every packet that
    [out_q] took has been sent, of each priority the packets accepted are those sent
    and those [out_q] refused, and if it refused none they were sent in the order in
    which they were accepted: no packet waits for a wake-up that was lost. Under a
    change from the token policy one does: [policy_change_strands_packet]. *)
Theorem queues_drain s es ls s' es' : qreach s es → Forall internal ls → qrun ls s = QNext s' es' →
  Z.of_nat (length ls) ≤ work s ∧ (∀ l, internal l → qstep l s' ≠ QFault) ∧
  ((∀ l, internal l → qstep l s' = QBlocked) →
    let log := es ++ es' in
    sent log = moved log ∧ ∀ p, (p < PRIO_NUM)%nat →
      of_prio p (accepted log) ≡ₚ of_prio p (sent log) ++ of_prio p (lost log) ∧
      (lost log = [] → of_prio p (accepted log) = of_prio p (sent log))).
Proof.
  intros Hr Hls Hrun. destruct (qrun_reach ls s es s' es' Hr Hls Hrun) as [Hr' Hw]. pose proof (qreach_inv _ _ Hr') as Hs'.
  pose proof (work_nonneg _ Hs'). split; [lia|]. split.
  - intros l Hl. destruct (qstep_inv s' Hs' l) as [-> | (s1 & es1 & -> & _)]; [by destruct l|done..].
  - intros Hstuck log. destruct (asleep_empty s' Hs' Hstuck) as (Hq & Ho & Hh & Hi). destruct (qreach_accounted _ _ Hr') as [Ha Hb]. fold log in Ha, Hb.
    assert (sent log = moved log) as Es by (by rewrite Hb, Ho, Hi, app_nil_r).
    split; [done|]. intros p Hp. destruct (prio_lookup s' Hs' p Hp) as (q & Eq & _).
    rewrite (Ha p q Eq), Hh, (Hq p q Eq), app_nil_r, Es, <- of_prio_app. split; [|by intros ->%passed_all_moved].
    unfold of_prio. by rewrite passed_split.
Qed.

(** Two packets of different priority and one refused by a full queue. *)
Definition demo_buff (p : Z) : vde_buff := Buff 60 None p [].
Definition demo_load : list qlabel :=
  [LSetup (Some 15%nat) (QPOLICY_FIFO 60 0); LEnqueue 0 (demo_buff 15); LEnqueue 0 (demo_buff 1); LEnqueue 0 (demo_buff 15)].
Definition demo_state : ifq := match qrun demo_load ifq_init with QNext s _ => s | _ => ifq_init end.
Definition demo_log : list qevent := match qrun demo_load ifq_init with QNext _ es => es | _ => [] end.
Definition demo_drain : list qlabel :=
  [LPost 1; LQueuer 0; LPost 0; LQueuer 0; LQueuer 0; LQueuer 0; LQueuer 0; LSender; LSender; LSender; LQueuer 0] ++
  replicate 16 (LQueuer 0) ++ [LQueuer 0; LQueuer 0; LSender; LSender; LSender].

Lemma reach_run ls s es s' es' : qreach s es → qrun ls s = QNext s' es' →
  (∀ i l x e, ls !! i = Some l → qrun (take i ls) s = QNext x e → label_ok l x) → qreach s' (es ++ es').
Proof.
  revert s es es'. induction ls as [|l ls IH]; intros s es es' Hr; cbn [qrun]; [intros [= <- <-] _; by rewrite app_nil_r|].
  intros E Hok. destruct (qstep l s) as [| |s1 es1] eqn:E1; [done..|]. destruct (qrun ls s1) as [| |s2 es2] eqn:E2; [done..|].
  injection E as <- <-. rewrite app_assoc. apply (IH s1); [|done|].
  - eapply qreach_step; [done | by apply (Hok 0%nat l s []) | done].
  - intros i l' x e Hi Hx. apply (Hok (S i) l' x (es1 ++ e)); [done|]. cbn [take qrun]. by rewrite E1, Hx.
Qed.

Lemma demo_reach : qreach demo_state demo_log.
Proof.
  apply (reach_run demo_load ifq_init [] demo_state demo_log); [apply qreach_init | vm_compute; reflexivity|].
  intros i l x e Hi Hx. destruct i as [|[|[|[|i]]]]; [..|by rewrite lookup_ge_None_2 in Hi by (cbn; lia)];
    injection Hi as <-; vm_compute in Hx; injection Hx as <- <-; vm_compute; intuition (discriminate || lia).
Qed.

Lemma queues_keep_packets_witness :
  (∀ l, label_ok l demo_state → qstep l demo_state ≠ QFault) ∧ moved demo_log = sent demo_log ++ [] ++ [].
Proof. destruct (queues_keep_packets demo_state demo_log demo_reach) as (H1 & _ & H3 & _). split; [exact H1 | exact H3]. Defined.

Lemma queues_drain_witness :
  ∃ s' es', qrun demo_drain demo_state = QNext s' es' ∧ sent es' = [demo_buff 1; demo_buff 15] ∧ Z.of_nat (length demo_drain) ≤ work demo_state.
Proof.
  destruct (qrun demo_drain demo_state) as [| |s' es'] eqn:E; [vm_compute in E; discriminate..|]. exists s', es'. split; [done|].
  split; [vm_compute in E; injection E as <- <-; vm_compute; reflexivity|].
  eapply queues_drain; [exact demo_reach | by vm_compute; repeat constructor | exact E].
Defined.

(** ** The token policy *)

Lemma token_interval_bounds bitrate i : 0 ≤ bitrate < 2 ^ 32 → token_interval bitrate = Some i → 2 ≤ i ≤ 1500000000.
Proof.
  intros Hb. unfold token_interval. rewrite Z.shiftr_div_pow2 by lia. destruct (Z.eqb_spec (bitrate / 2 ^ 3) 0); [done|].
  intros [= <-]. unfold IDEAL_PACKET_SIZE. assert (1 ≤ bitrate / 2 ^ 3 < 536870912) by dlia.
  split; [apply Z.div_le_lower_bound; lia | apply Z.div_le_upper_bound; lia].
Qed.

(** The loop ends, and posts once for every interval that has passed. *)
Lemma timer_while_spec now d fuel : 2 ≤ t_interval d < 2 ^ 32 → 0 ≤ t_last_out d < 2 ^ 63 → 0 ≤ now < 2 ^ 63 →
  (Z.to_nat ((now - t_last_out d) / t_interval d) < fuel)%nat →
  ∃ n d', timer_while fuel now d = Some (n, d') ∧ t_interval d' = t_interval d ∧ t_q d' = t_q d ∧
    t_last_out d' = t_last_out d + Z.of_nat n * t_interval d ∧ now ≤ t_last_out d' + t_interval d ∧ (n = O ∨ t_last_out d' < now).
Proof.
  revert d. induction fuel as [|fuel IH]; intros d Hi Hl Hn Hf; [lia|]. cbn [timer_while].
  assert (u64 (t_last_out d + t_interval d) = t_last_out d + t_interval d) as -> by (apply u64_small; lia).
  destruct (Z.ltb_spec (t_last_out d + t_interval d) now) as [Hlt|Hge].
  - assert ((now <? t_last_out d + t_interval d) = false) as -> by (apply Z.ltb_ge; lia).
    destruct (IH (Timed (t_last_out d + t_interval d) (t_interval d) (t_q d))) as (n & d' & E & Ei & Eq & El & Hle & Hor); cbn [t_last_out t_interval t_q] in *; [lia..| |].
    { replace (now - (t_last_out d + t_interval d)) with (now - t_last_out d + (-1) * t_interval d) by lia. rewrite Z.div_add by lia.
      assert (1 ≤ (now - t_last_out d) / t_interval d) by (apply Z.div_le_lower_bound; lia). lia. }
    rewrite E. cbn [mbind option_bind]. exists (S n), d'. split_and!; [done | done | done | lia | done | right].
    destruct Hor as [-> | ?]; [|lia]. cbn in El. lia.
  - exists O, d. split_and!; [done | done | done | lia | lia | by left].
Qed.

(** The passes of the timer over one queue, at the given times. *)
Fixpoint timer_runs (nows : list Z) (d : vder_timed_dequeue) : option (nat * vder_timed_dequeue) :=
  match nows with
  | [] => Some (O, d)
  | now :: nows => '(n, d) ← timer_while (timer_fuel now d) now d; '(m, d) ← timer_runs nows d; Some ((n + m)%nat, d)
  end.

Lemma timer_runs_spec nows d : 2 ≤ t_interval d < 2 ^ 32 → 0 ≤ t_last_out d < 2 ^ 63 → Forall (λ t, 0 ≤ t < 2 ^ 63) nows →
  ∃ n d', timer_runs nows d = Some (n, d') ∧ t_interval d' = t_interval d ∧ t_last_out d' = t_last_out d + Z.of_nat n * t_interval d ∧
    (n = O ∨ ∃ t, t ∈ nows ∧ t_last_out d' < t) ∧ (∀ t, t ∈ nows → t ≤ t_last_out d' + t_interval d).
Proof.
  intros Hi Hl Hn. induction Hn as [|now nows Hnow Hn IH] in d, Hi, Hl |- *; cbn [timer_runs].
  - exists O, d. split_and!; [done | done | lia | by left | intros t Ht; by apply elem_of_nil in Ht].
  - destruct (timer_while_spec now d (timer_fuel now d)) as (n & d1 & E1 & Ei1 & _ & El1 & Hle1 & Hor1); [done..|unfold timer_fuel; lia|].
    rewrite E1. cbn [mbind option_bind]. assert (0 ≤ t_last_out d1 < 2 ^ 63) as Hl1 by (destruct Hor1 as [-> | ?]; lia).
    destruct (IH d1) as (m & d2 & E2 & Ei2 & El2 & Hor2 & Hall2); [by rewrite Ei1 | done|].
    rewrite E2. cbn [mbind option_bind]. rewrite Ei1 in *. exists (n + m)%nat, d2. split_and!; [done | done | lia | |].
    + destruct Hor2 as [-> | (t & Ht & Hlt)]; [|right; exists t; split; [by right | done]].
      destruct Hor1 as [-> | Hlt]; [by left | right; exists now; split; [by left | lia]].
    + intros t [-> | Ht]%elem_of_cons; [lia | by apply Hall2].
Qed.

(** Under the token policy only the timer posts, so what is sent was paid for. *)
Definition is_tick (l : qlabel) : Z := match l with LTick None => 1 | _ => 0 end.
Definition no_setup (l : qlabel) : bool := match l with LSetup None _ => false | _ => true end.
Definition out_credit (s : ifq) : Z := Z.of_nat (out_sem s) + locking (sender s) + Z.of_nat (length (in_hand (sender s))).

Lemma credit_step l s s' es : is_token (q_policy (out_q s)) = true → no_setup l → qstep l s = QNext s' es →
  is_token (q_policy (out_q s')) = true ∧ out_credit s' + Z.of_nat (length (sent es)) ≤ out_credit s + is_tick l.
Proof.
  intros Ht Hl E. unfold out_credit. destruct l as [rnd b|k|rnd| |[i|] p|[i|]]; cbn [qstep is_tick] in *; try done.
  - unfold step_enqueue in E. destruct (prio_q s !! _) as [q|]; [|done]. destruct (enqueue_locked rnd b q) as [[] q']; injection E as <- <-; cbn; (split; [done | lia]).
  - unfold step_post in E. repeat case_match; try done; injection E as <- <-; cbn; (split; [done | lia]).
  - unfold step_queuer in E. destruct (queuer s) as [|i|b|].
    + destruct (prio_sem s); [done|]. injection E as <- <-. cbn. split; [done | lia].
    + repeat case_match; try done; injection E as <- <-; cbn; (split; [done | lia]).
    + unfold enqueue_locked in E. pose proof (may_enqueue_policy rnd (out_q s)) as Hp. rewrite Ht in Hp.
      destruct (may_enqueue rnd (out_q s)) as [[] p]; cbn in Hp; injection E as <- <-; cbn; (split; [done | lia]).
    + rewrite Ht in E. injection E as <- <-. cbn. split; [done | lia].
  - unfold step_sender in E. destruct (sender s) as [| |b].
    + destruct (out_sem s); [done|]. injection E as <- <-. cbn. split; [done | lia].
    + unfold dequeue_locked, take_head in E. repeat case_match; simplify_eq/=; (split; [done | lia]).
    + injection E as <- <-. cbn. split; [done | lia].
  - unfold step_setup in E. case_match; [|done]. injection E as <- <-. cbn. split; [done | lia].
  - injection E as <- <-. cbn. split; [done | lia].
  - injection E as <- <-. cbn. split; [done | lia].
Qed.

Lemma credit_run ls s s' es : is_token (q_policy (out_q s)) = true → Forall no_setup ls → qrun ls s = QNext s' es →
  out_credit s' + Z.of_nat (length (sent es)) ≤ out_credit s + qsum is_tick ls.
Proof.
  intros Ht Hls. induction Hls as [|l ls Hl Hls IH] in s, es, Ht |- *; cbn [qrun qsum]; [intros [= <- <-]; cbn; lia|].
  destruct (qstep l s) as [| |s1 es1] eqn:E; [done..|]. destruct (credit_step _ _ _ _ Ht Hl E) as [Ht1 H1].
  destruct (qrun ls s1) as [| |s2 es2] eqn:E2; [done..|]. intros [= <- <-]. specialize (IH s1 es2 Ht1 E2). rewrite sent_app, length_app. lia.
Qed.

(** the token policy.  For every rate of at least 8 bits per second the
    interval is between 2 and 1500000000 microseconds; the loop of the timer ends
    whatever the times at which it runs, with one post per interval that has
    passed since the policy was set, up to the latest of these times; and in any run
    of the threads with these posts, with the semaphore and the sender idle at its
    start, no more packets are sent than were posted. *)
Theorem token_policy_keeps_rate bitrate limit t0 id q tm nows T ls s s' es : 8 ≤ bitrate < 2 ^ 32 → 0 ≤ t0 < 2 ^ 63 →
  Forall (λ t, t0 ≤ t ≤ T) nows → T ∈ nows → T < 2 ^ 63 →
  ∃ q' tm' d n d', qtoken_setup bitrate limit t0 id q tm = Some (q', tm') ∧ head (timed_dequeue tm') = Some d ∧
    2 ≤ t_interval d ≤ 1500000000 ∧
    timer_runs nows d = Some (n, d') ∧ Z.of_nat n * t_interval d ≤ T - t0 ≤ (Z.of_nat n + 1) * t_interval d ∧
    (q_policy (out_q s) = q_policy q' → out_sem s = O → sender s = SWait → Forall no_setup ls → qsum is_tick ls = Z.of_nat n →
      qrun ls s = QNext s' es → Z.of_nat (length (sent es)) * t_interval d ≤ T - t0).
Proof.
  intros Hb Ht0 Hnows HT HT63. destruct (token_interval bitrate) as [i|] eqn:Ei.
  2: { unfold token_interval in Ei. rewrite Z.shiftr_div_pow2 in Ei by lia. destruct (Z.eqb_spec (bitrate / 2 ^ 3) 0); [dlia | done]. }
  assert (2 ≤ i ≤ 1500000000) as Hi by (eapply token_interval_bounds; [|done]; lia). unfold qtoken_setup. rewrite Ei. cbn [mbind option_bind].
  assert (u32 i = i) as -> by (unfold u32; apply Z.mod_small; lia).
  destruct (timer_runs_spec nows (Timed t0 i id)) as (n & d' & E & _ & El & Hor & Hall); cbn [t_last_out t_interval] in *; [lia | lia | |].
  { eapply Forall_impl; [exact Hnows|]. intros t Ht. cbn in Ht. lia. }
  do 2 eexists. exists (Timed t0 i id), n, d'. split; [reflexivity|]. split; [done|]. cbn [t_interval]. split; [done|]. split; [done|].
  assert (Z.of_nat n * i ≤ T - t0 ≤ (Z.of_nat n + 1) * i) as Hn.
  { specialize (Hall T HT). split; [|lia]. rewrite Forall_forall in Hnows. pose proof (Hnows T HT).
    destruct Hor as [-> | (t & Ht & Hlt)]; [lia|]. specialize (Hnows t Ht). cbn in Hnows. lia. }
  split; [done|]. intros Hpol Hsem Hse Hls Hticks Hrun.
  pose proof (credit_run ls s s' es) as Hc. rewrite Hpol in Hc. specialize (Hc eq_refl Hls Hrun). unfold out_credit in Hc. rewrite Hsem, Hse in Hc. cbn in Hc.
  destruct (sender s'); cbn in Hc; nia.
Qed.

Lemma token_policy_keeps_rate_witness :
  ∃ q' tm', qtoken_setup 1000000 8000 0 0 queue_init (Timers [] 100000) = Some (q', tm') ∧
    ∃ n d', timer_runs [10000; 40000] (Timed 0 12000 0) = Some (n, d') ∧ Z.of_nat n * 12000 ≤ 40000.
Proof.
  destruct (token_policy_keeps_rate 1000000 8000 0 0 queue_init (Timers [] 100000) [10000; 40000] 40000 [] ifq_init ifq_init [])
    as (q' & tm' & d & n & d' & H1 & H2 & _ & H4 & H5 & _); [lia | lia | by repeat constructor | set_solver | lia|].
  exists q', tm'. split; [exact H1|]. exists n, d'. vm_compute in H1. injection H1 as <- <-. vm_compute in H2. injection H2 as <-.
  split; [exact H4|]. cbn in H5. lia.
Defined.

(** ** Where the code goes wrong *)

(** A packet that waits when the token policy is replaced is never posted. *)
Lemma policy_change_strands_packet :
  ∃ s es, qrun [LSetup (Some 15%nat) (QPOLICY_TOKEN 8000 0 12000); LEnqueue 0 (demo_buff 15); LPost 0; LSetup (Some 15%nat) (QPOLICY_FIFO 8000 0)] ifq_init = QNext s es ∧
    waiting s = 1 ∧ (∀ l, internal l → qstep l s = QBlocked).
Proof.
  do 2 eexists. split; [vm_compute; reflexivity|]. split; [vm_compute; reflexivity|]. intros l Hl. destruct l as [rnd b|k|rnd| |w p|w]; try done.
Qed.

(** A packet with a priority of 32 or more goes to a queue that was not
    initialised. *)
Lemma high_priority_faults rnd b s : length (prio_q s) = PRIO_NUM → Z.of_nat PRIO_NUM ≤ b_priority b → step_enqueue rnd b s = QFault.
Proof. intros Hl Hp. unfold step_enqueue. by rewrite lookup_ge_None_2 by (rewrite Hl; lia). Qed.

(** Between the two thresholds the early detection refuses every packet as soon
    as [P] times the bytes in excess of one reaches one. *)
Lemma red_refuses_all :
  ∀ rnd, (0 <= rnd)%Q → (rnd < 1)%Q → (qred_may_enqueue rnd 3000 30000 (1 # 10) 60000 0 0 (Queue 2 3028 [] QPOLICY_UNLIMITED)).1 = false.
Proof.
  intros rnd H0 H1. unfold qred_may_enqueue. cbn [q_size]. change (3028 <? 3000) with false. change (3028 <? 30000) with true. cbn [fst].
  destruct (Qle_bool _ rnd) eqn:E; [|done]. apply Qle_bool_iff in E. exfalso.
  apply (Qlt_irrefl rnd). eapply Qlt_le_trans; [exact H1|]. eapply Qle_trans; [|exact E]. apply Qle_bool_iff. vm_compute. reflexivity.
Qed.
