(* ===== verification/VPacket.v ===== *)
(** * VPacket: how [vde_router] handles packets

    [vder_packet.c], [vder_icmp.c], [vder_udp.c], the ARP side of [vder_arp.c] and
    the packet side of [vder_datalink.c].  A packet is a [vde_buff] of [VQueue]
    whose [b_data] is the memory behind the header; a read or a write outside of it
    is a fault.  Multi-byte fields are loaded and stored in the byte order of a
    little-endian host, as the code does.  What [vder_sendto] puts in the queues of
    the interfaces is appended to [sent_to]: [VQueue] says what becomes of it.
    Memory that is not initialised is a parameter: [junk n] is a fresh block
    of [n] bytes, [stack_priority] the priority of the buffer on the stack of
    [vder_packet_recv]. *)
From Stdlib Require Import Lia QArith.
From stdpp Require Import base numbers sets list gmap relations.
From S2P Require Import Prelude VArp VRoute VQueue.
Open Scope Z_scope.

Definition PTYPE_IP : Z := 0x0800.
Definition PTYPE_ARP : Z := 0x0806.
Definition PROTO_ICMP : Z := 1.
Definition PROTO_UDP : Z := 17.
Definition ARP_REQUEST : Z := 1.
Definition ARP_REPLY : Z := 2.
Definition HTYPE_ETH : Z := 1.
Definition ETH_BCAST : list Z := [255; 255; 255; 255; 255; 255].
Definition DEFAULT_TTL : Z := 64.
Definition ICMP_ECHOREPLY : Z := 0.
Definition ICMP_ECHO : Z := 8.
Definition ICMP_UNREACH : Z := 3.
Definition ICMP_TIME_EXCEEDED : Z := 11.

(** Offsets of the fields in the data: the Ethernet header, the IP header at 14,
    the ARP header at 14, the payload of IP at 34. *)
Definition E_DST : Z := 0.
Definition E_SRC : Z := 6.
Definition E_TYPE : Z := 12.
Definition IPH : Z := 14.
Definition IP_TOS : Z := 15.
Definition IP_TOT_LEN : Z := 16.
Definition IP_ID : Z := 18.
Definition IP_FRAG_OFF : Z := 20.
Definition IP_TTL : Z := 22.
Definition IP_PROTO : Z := 23.
Definition IP_CHECK : Z := 24.
Definition IP_SADDR : Z := 26.
Definition IP_DADDR : Z := 30.
Definition PAYLOAD : Z := 34.
Definition A_OPCODE : Z := 20.
Definition A_SMAC : Z := 22.
Definition A_SADDR : Z := 28.
Definition A_DMAC : Z := 32.
Definition A_DADDR : Z := 38.

(** A UDP socket; [s_id] stands for its address. *)
Record vder_udp_socket := UdpSocket { s_id : nat; s_port : Z; s_inq : vder_queue; s_sem : nat }.

Record vder := Vder { router : vde_router; socket_list : list vder_udp_socket; sent_to : list (nat * vde_buff) }.

(** ** Memory *)

Definition le16 (v : Z) : list Z := [u8 v; u8 (Z.shiftr v 8)].
Definition le32 (v : Z) : list Z := [u8 v; u8 (Z.shiftr v 8); u8 (Z.shiftr v 16); u8 (Z.shiftr v 24)].
Definition of_le (l : list Z) : Z := foldr (λ b v, b + 2 ^ 8 * v) 0 l.

Definition with_data (b : vde_buff) (m : list Z) : vde_buff := Buff (b_len b) (b_src b) (b_priority b) m.
Definition with_priority (b : vde_buff) (p : Z) : vde_buff := Buff (b_len b) (b_src b) p (b_data b).

Definition rd (b : vde_buff) (o n : Z) : M vder (list Z) :=
  if (0 <=? o) && (0 <=? n) && (o + n <=? Z.of_nat (length (b_data b))) then mret (slice (b_data b) o n) else fault.
Definition wr (b : vde_buff) (o : Z) (d : list Z) : M vder vde_buff := m ← deref (memcpy_at (b_data b) o d); mret (with_data b m).
Definition rd8 (b : vde_buff) (o : Z) : M vder Z := d ← rd b o 1; mret (of_le d).
Definition rd16 (b : vde_buff) (o : Z) : M vder Z := d ← rd b o 2; mret (of_le d).
Definition rd32 (b : vde_buff) (o : Z) : M vder Z := d ← rd b o 4; mret (of_le d).

Definition iface (i : nat) : M vder vder_iface := s ← get; deref (iflist (router s) !! i).
Definition set_router (r : vde_router) (s : vder) : vder := Vder r (socket_list s) (sent_to s).

(** ** Checksums *)

Fixpoint sum_bytes (l : list Z) (i sum : Z) : Z :=
  match l with
  | [] => sum
  | b :: l => sum_bytes l (i + 1) (u32 (sum + (if negb (Z.rem i 2 =? 0) then b else Z.shiftl b 8)))
  end.
Definition net_checksum (l : list Z) : Z :=
  let sum := sum_bytes l 0 0 in
  let carry := Z.shiftr (Z.land sum 0xFFFF0000) 16 in
  let sum := Z.land sum 0x0000FFFF in
  u16 (Z.lnot (sum + carry)).
Definition vder_ip_checksum (b : vde_buff) : M vder (vde_buff * Z) :=
  b ← wr b IP_CHECK (le16 0);
  h ← rd b IPH 20;
  mret (b, net_checksum h).
(** [iph->check = htons(vder_ip_checksum(iph))]. *)
Definition set_ip_checksum (b : vde_buff) : M vder vde_buff :=
  '(b, c) ← vder_ip_checksum b; wr b IP_CHECK (le16 (ntohs c)).
Definition set_icmp_checksum (b : vde_buff) : M vder vde_buff :=
  b ← wr b (PAYLOAD + 2) (le16 0);
  d ← rd b PAYLOAD (Z.max 0 (b_len b - 20 - 14));
  wr b (PAYLOAD + 2) (le16 (ntohs (net_checksum d))).

Section Packets.
Context (junk : Z → list Z) (stack_priority : Z).

(** ** Sending *)

(** A priority of 32 or more names a queue that was not initialised. *)
Definition vder_sendto (i : nat) (b : vde_buff) (dst : list Z) : M vder Z :=
  b ← wr b E_DST dst;
  v ← iface i;
  b ← wr b E_SRC (if_macaddr v);
  if Z.of_nat PRIO_NUM <=? b_priority b then fault else
  modify (λ s, Vder (router s) (socket_list s) (sent_to s ++ [(i, b)])) ;;
  mret 0.

Definition vder_arp_query (i : nat) (tgt : Z) : M vder Z :=
  v ← iface i;
  let b := Buff 60 None PRIO_ARP (junk 60) in
  b ← wr b E_TYPE (le16 (ntohs PTYPE_ARP));
  b ← wr b 14 (le16 (ntohs HTYPE_ETH));
  b ← wr b 16 (le16 (ntohs PTYPE_IP));
  b ← wr b 18 [6];
  b ← wr b 19 [4];
  b ← wr b A_OPCODE (le16 (ntohs ARP_REQUEST));
  b ← wr b A_SMAC (if_macaddr v);
  let s_addr := vder_get_right_localip v tgt in
  b ← wr b A_SADDR (le32 s_addr);
  let finish (b : vde_buff) : M vder Z :=
    b ← wr b A_DMAC (replicate 6 0);
    b ← wr b A_DADDR (le32 tgt);
    vder_sendto i b ETH_BCAST in
  if s_addr =? 0 then
    match address_list v with
    | a :: _ => b ← wr b A_SADDR (le32 (address a)); finish b
    | [] => mret (-1)
    end
  else finish b.

(** The header that [vder_packet_send] and [vder_packet_broadcast] write. *)
Definition ip_header (b : vde_buff) (dst_ip protocol : Z) : M vder vde_buff :=
  b ← wr b E_TYPE (le16 (ntohs PTYPE_IP));
  b ← wr b IPH [0x45];
  b ← wr b IP_TOS [0];
  b ← wr b IP_FRAG_OFF (le16 (ntohs 0x4000));
  b ← wr b IP_TOT_LEN (le16 (ntohs (u16 (b_len b - 14))));
  b ← wr b IP_ID (le16 0);
  b ← wr b IP_PROTO [protocol];
  b ← wr b IP_TTL [DEFAULT_TTL];
  wr b IP_DADDR (le32 dst_ip).

Definition vder_packet_send (b : vde_buff) (dst_ip protocol : Z) : M vder Z :=
  b ← ip_header b dst_ip protocol;
  s ← get;
  match vder_get_route dst_ip (routing_table (router s)) with
  | None => mret (-1)
  | Some ro =>
    let destination := if negb (gateway ro =? 0) then gateway ro else dst_ip in
    v ← iface (r_iface ro);
    b ← wr b IP_SADDR (le32 (vder_get_right_localip v destination));
    b ← set_ip_checksum b;
    match vder_get_arp_entry (arp_table v) destination with
    | None => _ ← vder_arp_query (r_iface ro) destination; mret (-1)
    | Some ae => vder_sendto (r_iface ro) b (macaddr ae)
    end
  end.

Definition vder_packet_broadcast (b : vde_buff) (i : nat) (dst_ip protocol : Z) : M vder Z :=
  b ← ip_header b dst_ip protocol;
  v ← iface i;
  b ← wr b IP_SADDR (le32 (if negb (dst_ip =? ntohl 0xFFFFFFFF) then vder_get_right_localip v dst_ip else 0));
  b ← set_ip_checksum b;
  vder_sendto i b ETH_BCAST.

(** ** ARP *)

(** The priority is set on [vdb], after the copy: the copy has what was on the
    stack. *)
Definition vder_arp_reply (i : nat) (vdb : vde_buff) : M vder Z :=
  v ← iface i;
  b ← wr vdb A_OPCODE (le16 (ntohs ARP_REPLY));
  smac ← rd b A_SMAC 6;
  b ← wr b A_DMAC smac;
  b ← wr b A_SMAC (if_macaddr v);
  ipaddr_tmp ← rd b A_SADDR 4;
  daddr ← rd b A_DADDR 4;
  b ← wr b A_SADDR daddr;
  b ← wr b A_DADDR ipaddr_tmp;
  d ← rd b 0 (b_len b);
  dmac ← rd b A_DMAC 6;
  vder_sendto i (with_data b d) dmac.

Definition vder_parse_arp (i : nat) (vdb : vde_buff) : M vder Z :=
  mac ← rd vdb A_SMAC 6;
  ip ← rd32 vdb A_SADDR;
  v ← iface i;
  t ← deref (vder_add_arp_entry (ArpEntry ip mac) (arp_table v));
  modify (λ s, set_router (upd_iface (λ v, Iface (interface_id v) (address_list v) (if_macaddr v) t) i (router s)) s) ;;
  op ← rd16 vdb A_OPCODE;
  (if ntohs op =? ARP_REQUEST then _ ← vder_arp_reply i vdb; mret () else mret ()) ;;
  mret 0.

(** ** ICMP *)

Definition vder_icmp_send (dest type code : Z) (foot : list Z) : M vder Z :=
  let b := Buff 70 None 31 (junk 70) in
  b ← wr b PAYLOAD [type];
  b ← wr b (PAYLOAD + 1) [code];
  b ← wr b (PAYLOAD + 4) (le16 0);
  b ← wr b (PAYLOAD + 6) (le16 (ntohs 1500));
  b ← wr b (PAYLOAD + 8) foot;
  b ← set_icmp_checksum b;
  _ ← vder_packet_send b dest PROTO_ICMP;
  mret 0.
Definition vder_icmp_service_unreachable (dst : Z) (foot : list Z) : M vder Z := vder_icmp_send dst ICMP_UNREACH 2 foot.
Definition vder_icmp_host_unreachable (dst : Z) (foot : list Z) : M vder Z := vder_icmp_send dst ICMP_UNREACH 1 foot.
Definition vder_icmp_ttl_expired (dst : Z) (foot : list Z) : M vder Z := vder_icmp_send dst ICMP_TIME_EXCEEDED 0 foot.
Definition vder_icmp_filter (dst : Z) (foot : list Z) : M vder Z := vder_icmp_send dst ICMP_UNREACH 13 foot.

(** A packet that is not an echo request is sent as well, to its own
    destination. *)
Definition vder_icmp_recv (b : vde_buff) : M vder Z :=
  ty ← rd8 b PAYLOAD;
  b ← (if ty =? ICMP_ECHO then
         tmp_ipaddr ← rd b IP_SADDR 4;
         daddr ← rd b IP_DADDR 4;
         b ← wr b IP_SADDR daddr;
         b ← wr b IP_DADDR tmp_ipaddr;
         b ← wr b PAYLOAD [ICMP_ECHOREPLY];
         b ← set_icmp_checksum b;
         set_ip_checksum b
       else mret b);
  d ← rd b 0 (b_len b);
  daddr ← rd32 b IP_DADDR;
  _ ← vder_packet_send (with_data b d) daddr PROTO_ICMP;
  mret 0.

(** ** UDP *)

(** [enqueue] on the queue of a socket, whose policy is never the token one. *)
Definition sock_enqueue (b : vde_buff) (so : vder_udp_socket) : bool * vder_udp_socket :=
  let (ok, q) := enqueue_locked 0 b (s_inq so) in
  (ok, UdpSocket (s_id so) (s_port so) q (if ok then S (s_sem so) else s_sem so)).
(** The first socket gets the packet and the others copies of it; a packet that
    the first one refused is freed, and a copy of it a fault. *)
Fixpoint udp_recv_loop (b : vde_buff) (port : Z) (found freed : bool) (l : list vder_udp_socket) : M vder (bool * list vder_udp_socket) :=
  match l with
  | [] => mret (found, [])
  | cur :: l =>
    if s_port cur =? port then
      if found && freed then fault else
      let (ok, cur) := sock_enqueue b cur in
      '(r, l) ← udp_recv_loop b port true (if found then freed else negb ok) l;
      mret (r, cur :: l)
    else '(r, l) ← udp_recv_loop b port found freed l; mret (r, cur :: l)
  end.
Definition vder_udp_recv (b : vde_buff) : M vder bool :=
  port ← rd16 b (PAYLOAD + 2);
  s ← get;
  '(found, l) ← udp_recv_loop b port false false (socket_list s);
  modify (λ s, Vder (router s) l (sent_to s)) ;;
  mret found.

Definition UDPSOCK_BUFFER_SIZE : Z := 1024 * 16.
Definition vder_udpsocket_open (id : nat) (port : Z) : M vder (option nat) :=
  if port =? 0 then mret None else
  modify (λ s, Vder (router s) (UdpSocket id port (Queue 0 0 [] (QPOLICY_FIFO UDPSOCK_BUFFER_SIZE 0)) 0 :: socket_list s) (sent_to s)) ;;
  mret (Some id).
Fixpoint close_loop (id : nat) (l : list vder_udp_socket) : list vder_udp_socket :=
  match l with
  | [] => []
  | cur :: l => if bool_decide (s_id cur = id) then l else cur :: close_loop id l
  end.
Definition vder_udp_close (id : nat) : M vder () :=
  modify (λ s, Vder (router s) (close_loop id (socket_list s)) (sent_to s)).

(** The datagram both sending functions build: [data] is the memory at the
    caller's pointer, from which 8 bytes more than [len] are copied. *)
Definition udp_datagram (port : Z) (data : list Z) (len dstport : Z) : M vder vde_buff :=
  let len := len + 8 in
  let b := Buff (14 + 20 + 8 + len) None PRIO_BESTEFFORT (junk (14 + 20 + 8 + len)) in
  if Z.of_nat (length data) <? len then fault else
  b ← wr b (PAYLOAD + 8) (take (Z.to_nat len) data);
  b ← wr b PAYLOAD (le16 port);
  b ← wr b (PAYLOAD + 2) (le16 dstport);
  b ← wr b (PAYLOAD + 4) (le16 (ntohs (u16 len)));
  wr b (PAYLOAD + 6) (le16 0).
Definition vder_udpsocket_sendto (port : Z) (data : list Z) (len dst dstport : Z) : M vder Z :=
  if len <=? 0 then mret (-1) else
  s ← get;
  match vder_get_route dst (routing_table (router s)) with
  | None => mret (-1)
  | Some _ =>
    b ← udp_datagram port data len dstport;
    _ ← vder_packet_send b dst PROTO_UDP;
    mret (len + 8)
  end.
Definition vder_udpsocket_sendto_broadcast (port : Z) (data : list Z) (len : Z) (i : nat) (dst dstport : Z) : M vder Z :=
  if len <=? 0 then mret (-1) else
  b ← udp_datagram port data len dstport;
  _ ← vder_packet_broadcast b i dst PROTO_UDP;
  mret (len + 8).

(** With no packet in the queue the time runs out.  The result is the data and the
    port of the sender. *)
Definition vder_udpsocket_recvfrom (id : nat) (len : Z) : M vder (Z * option (list Z * Z)) :=
  if len <=? 0 then mret (-1, None) else
  s ← get;
  '(k, so) ← deref (list_find (λ so, s_id so = id) (socket_list s));
  if q_n (s_inq so) =? 0 then mret (0, None) else
  r ← deref (dequeue_locked (s_inq so));
  match r with
  | None => fault
  | Some (b, q) =>
    modify (λ s, Vder (router s) (<[k := UdpSocket (s_id so) (s_port so) q (pred (s_sem so))]> (socket_list s)) (sent_to s)) ;;
    uh_len ← rd16 b (PAYLOAD + 4);
    let len := if ntohs uh_len <? len then u64 (ntohs uh_len - 8) else len in
    d ← rd b (PAYLOAD + 8) len;
    fromport ← rd16 b PAYLOAD;
    mret (len, Some (d, fromport))
  end.

(** ** The filter *)

(** The fields are all within the buffer on the stack. *)
Definition filter_matches (f : vder_filter) (b : vde_buff) : M vder bool :=
  proto ← rd8 b IP_PROTO;
  tos ← rd8 b IP_TOS;
  saddr ← rd32 b IP_SADDR;
  daddr ← rd32 b IP_DADDR;
  sport ← rd16 b PAYLOAD;
  dport ← rd16 b (PAYLOAD + 2);
  mret (bool_decide (src_iface f = None ∨ src_iface f = b_src b) &&
        ((f_proto f =? 0) || (f_proto f =? proto)) &&
        ((f_tos f <? 0) || (u8 (f_tos f) =? tos)) &&
        ((address (f_saddr f) =? 0) || (address (f_saddr f) =? Z.land (netmask (f_saddr f)) saddr)) &&
        ((address (f_daddr f) =? 0) || (address (f_daddr f) =? Z.land (netmask (f_daddr f)) daddr)) &&
        ((f_sport f =? 0) || (f_sport f =? sport)) &&
        ((f_dport f =? 0) || (f_dport f =? dport))).
Definition count_packet (len : Z) (f : vder_filter) : vder_filter :=
  VFilter (src_iface f) (f_proto f) (f_saddr f) (f_daddr f) (f_sport f) (f_dport f) (f_tos f) (f_action f) (f_priority f)
    (u32 (stats_packets f + 1)) (u32 (stats_bytes f + len)).
(** The first filter that matches, with the table in which it is counted. *)
Fixpoint select_filter (b : vde_buff) (l : list vder_filter) : M vder (option vder_filter * list vder_filter) :=
  match l with
  | [] => mret (None, [])
  | f :: l =>
    m ← filter_matches f b;
    if m : bool then mret (Some f, count_packet (b_len b) f :: l)
    else '(r, l') ← select_filter b l; mret (r, f :: l')
  end.
Definition vder_filter_packet (b : vde_buff) : M vder (bool * vde_buff) :=
  s ← get;
  '(r, l) ← select_filter b (filtering_table (router s));
  modify (λ s, set_router (Router (iflist (router s)) (routing_table (router s)) l) s) ;;
  match r with
  | None => mret (false, b)
  | Some f =>
    match f_action f with
    | filter_priority => mret (false, with_priority b (f_priority f))
    | filter_accept | filter_invalid => mret (false, b)
    | filter_reject =>
      foot ← rd b IPH 28;
      saddr ← rd32 b IP_SADDR;
      _ ← vder_icmp_filter saddr foot;
      mret (true, b)
    | filter_drop => mret (true, b)
    end
  end.

(** ** Receiving *)

Definition vder_ip_decrease_ttl (b : vde_buff) : M vder (vde_buff * bool) :=
  ttl ← rd8 b IP_TTL;
  b ← wr b IP_TTL [u8 (ttl - 1)];
  c ← rd16 b IP_CHECK;
  b ← wr b IP_CHECK (le16 (c + 1));
  mret (b, u8 (ttl - 1) <? 1).

Definition vder_ip_input (b : vde_buff) : M vder bool :=
  daddr ← rd32 b IP_DADDR;
  s ← get;
  let is_broadcast := vder_ipaddress_is_broadcast daddr (router s) in
  if negb (vder_ipaddress_is_local daddr (router s)) && negb is_broadcast then mret false else
  proto ← rd8 b IP_PROTO;
  recvd ← (if proto =? PROTO_ICMP then _ ← vder_icmp_recv b; mret true
           else if proto =? PROTO_UDP then vder_udp_recv b else mret false);
  (if negb recvd && negb is_broadcast then
     saddr ← rd32 b IP_SADDR; foot ← rd b IPH 28; _ ← vder_icmp_service_unreachable saddr foot; mret ()
   else mret ()) ;;
  mret true.

(** [foot] has the size of a pointer and 8 more bytes. *)
Definition SIZEOF_FOOT : Z := 8 + 8.
Definition vder_forward (b : vde_buff) : M vder () :=
  sender ← rd32 b IP_SADDR;
  f ← rd b IPH 28;
  foot ← deref (memcpy_at (replicate (Z.to_nat SIZEOF_FOOT) 0) 0 f);
  '(b, expired) ← vder_ip_decrease_ttl b;
  if expired : bool then _ ← vder_icmp_ttl_expired sender foot; mret ()
  else
    daddr ← rd32 b IP_DADDR;
    proto ← rd8 b IP_PROTO;
    r ← vder_packet_send b daddr proto;
    if r <? 0 then _ ← vder_icmp_host_unreachable sender foot; mret () else mret ().

(** [frame] is what [vde_recv] returned, at most 1979 bytes; what follows it in the
    buffer is left on the stack, as is the priority. *)
Definition RECV_SIZE : Z := 2000 - 21.
Definition vder_recv (i : nat) (frame : list Z) : vde_buff :=
  Buff (Z.of_nat (length frame)) (Some i) stack_priority (frame ++ junk (RECV_SIZE - Z.of_nat (length frame))).
Definition vder_packet_recv (i : nat) (frame : list Z) : M vder () :=
  v ← iface i;
  let vb := vder_recv i frame in
  dst ← rd vb E_DST 6;
  if negb (memcmp dst (if_macaddr v) =? 0) && negb (memcmp dst ETH_BCAST =? 0) then mret () else
  type ← rd16 vb E_TYPE;
  if ntohs type =? PTYPE_ARP then _ ← vder_parse_arp i vb; mret ()
  else if ntohs type =? PTYPE_IP then
    '(drop, vb) ← vder_filter_packet vb;
    if drop : bool then mret () else
    d ← rd vb 0 (b_len vb);
    let packet := with_priority (with_data vb d) PRIO_BESTEFFORT in
    mine ← vder_ip_input packet;
    if mine : bool then mret () else vder_forward packet
  else mret ().
End Packets.

(** ** Running on a frame whose header is known *)

Lemma wp_load b o n (Q : list Z → vder → Prop) s : 0 ≤ o → 0 ≤ n → o + n ≤ Z.of_nat (length (b_data b)) →
  Q (take (Z.to_nat n) (drop (Z.to_nat o) (b_data b))) s → wp (rd b o n) Q s.
Proof.
  intros Ho Hn Hl HQ. unfold rd. apply Z.leb_le in Ho, Hn, Hl. rewrite Ho, Hn, Hl. by apply wp_ret.
Qed.
Lemma wp_store b o d (Q : vde_buff → vder → Prop) s : 0 ≤ o → o + Z.of_nat (length d) ≤ Z.of_nat (length (b_data b)) →
  Q (with_data b (take (Z.to_nat o) (b_data b) ++ d ++ drop (Z.to_nat o + length d) (b_data b))) s → wp (wr b o d) Q s.
Proof.
  intros Ho Hl HQ. unfold wr, memcpy_at. apply Z.leb_le in Ho, Hl. rewrite Ho, Hl. cbn [andb deref]. done.
Qed.
Lemma wp_vif i v (Q : vder_iface → vder → Prop) s : iflist (router s) !! i = Some v → Q v s → wp (iface i) Q s.
Proof. intros Hv HQ. unfold iface. apply wp_bind, wp_get. by rewrite Hv. Qed.

(** Offsets are closed terms and the header is a list of variables: reads and
    writes compute. *)
Ltac mem_compute :=
  repeat match goal with |- context [Z.to_nat ?o] => let k := eval vm_compute in (Z.to_nat o) in
    let closed := eval vm_compute in (Nat.eqb k k) in
    lazymatch closed with true => change (Z.to_nat o) with k end end;
  cbn [with_data with_priority b_data b_len b_src b_priority take drop app length Nat.add le16 le32 replicate]; rewrite ?drop_0, ?take_0.
Ltac mem_side := unfold E_DST, E_SRC, E_TYPE, IPH, IP_TOS, IP_TOT_LEN, IP_ID, IP_FRAG_OFF, IP_TTL, IP_PROTO, IP_CHECK, IP_SADDR, IP_DADDR,
  PAYLOAD, A_OPCODE, A_SMAC, A_SADDR, A_DMAC, A_DADDR; cbn [with_data with_priority b_data b_len length app le16 le32 replicate]; rewrite ?length_app; cbn [length]; lia.
Ltac mem_step :=
  apply wp_bind; (apply wp_store; [mem_side | mem_side | mem_compute]) || (apply wp_load; [mem_side | mem_side | mem_side | mem_compute]).

Lemma six (l : list Z) : length l = 6%nat → ∃ a b c d e f, l = [a; b; c; d; e; f].
Proof. intros H. do 6 (destruct l as [|? l]; [done|]). destruct l; [|done]. eauto 10. Qed.
Lemma four (l : list Z) : length l = 4%nat → ∃ a b c d, l = [a; b; c; d].
Proof. intros H. do 4 (destruct l as [|? l]; [done|]). destruct l; [|done]. eauto 10. Qed.
Lemma two (l : list Z) : length l = 2%nat → ∃ a b, l = [a; b].
Proof. intros H. do 2 (destruct l as [|? l]; [done|]). destruct l; [|done]. eauto 10. Qed.

Lemma le32_of_le a b c d : byteP a → byteP b → byteP c → byteP d → le32 (of_le [a; b; c; d]) = [a; b; c; d].
Proof.
  unfold byteP. intros Ha Hb Hc Hd. unfold le32, of_le. cbn [foldr]. rewrite !Z.shiftr_div_pow2 by lia. unfold u8.
  set (x := a + 2 ^ 8 * (b + 2 ^ 8 * (c + 2 ^ 8 * (d + 2 ^ 8 * 0)))).
  assert (x / 2 ^ 8 = b + 2 ^ 8 * (c + 2 ^ 8 * d)) as -> by (unfold x; dlia).
  assert (x / 2 ^ 16 = c + 2 ^ 8 * d) as -> by (unfold x; dlia).
  assert (x / 2 ^ 24 = d) as -> by (unfold x; dlia).
  assert (x mod 2 ^ 8 = a) as -> by (unfold x; dlia).
  repeat f_equal; dlia.
Qed.
Lemma of_le_le32 x : 0 ≤ x < 2 ^ 32 → of_le (le32 x) = x.
Proof.
  intros (a & b & c & d & Ha & Hb & Hc & Hd & ->)%split_bytes.
  replace (a + b * 2 ^ 8 + c * 2 ^ 16 + d * 2 ^ 24) with (of_le [a; b; c; d]) by (unfold of_le; cbn [foldr]; lia). by rewrite le32_of_le.
Qed.

(** The packet [vder_packet_send] hands to an interface. *)
Definition ip_fields (len saddr daddr proto : Z) (chk : list Z) : list Z :=
  [0x45; 0] ++ le16 (ntohs (u16 (len - 14))) ++ le16 0 ++ le16 (ntohs 0x4000) ++ [DEFAULT_TTL; proto] ++ chk ++ le32 saddr ++ le32 daddr.
Definition ip_frame (dmac smac : list Z) (len saddr daddr proto : Z) (payload : list Z) : list Z :=
  dmac ++ smac ++ le16 (ntohs PTYPE_IP) ++
  ip_fields len saddr daddr proto (le16 (ntohs (net_checksum (ip_fields len saddr daddr proto (le16 0))))) ++ payload.

Ltac bytes34 l H := do 34 (destruct l as [|? l]; [done|]); destruct l; [clear H|done].

Lemma wp_sendto i b dst v s (Q : Z → vder → Prop) : (12 ≤ length (b_data b))%nat → length dst = 6%nat → length (if_macaddr v) = 6%nat →
  iflist (router s) !! i = Some v → b_priority b < Z.of_nat PRIO_NUM →
  Q 0 (Vder (router s) (socket_list s) (sent_to s ++ [(i, with_data b (dst ++ if_macaddr v ++ drop 12 (b_data b)))])) → wp (vder_sendto i b dst) Q s.
Proof.
  intros Hl Hd Hm Hv Hp HQ. unfold vder_sendto.
  destruct (six dst Hd) as (d0 & d1 & d2 & d3 & d4 & d5 & ->). destruct (six _ Hm) as (m0 & m1 & m2 & m3 & m4 & m5 & Em).
  destruct b as [ln src pr m]. cbn [b_data b_priority] in *. do 12 (destruct m as [|? m]; [cbn in Hl; lia|]).
  mem_step. apply wp_bind. apply (wp_vif _ v); [done|]. rewrite Em. mem_step.
  destruct (Z.leb_spec (Z.of_nat PRIO_NUM) pr); [lia|]. apply wp_bind, wp_modify, wp_ret. rewrite Em in HQ. exact HQ.
Qed.

Lemma wp_packet_send junk b h pl dst proto s ro v ae (Q : Z → vder → Prop) : b_data b = h ++ pl → length h = 34%nat →
  vder_get_route dst (routing_table (router s)) = Some ro → iflist (router s) !! r_iface ro = Some v →
  let hop := if negb (gateway ro =? 0) then gateway ro else dst in
  vder_get_arp_entry (arp_table v) hop = Some ae → length (macaddr ae) = 6%nat → length (if_macaddr v) = 6%nat → b_priority b < Z.of_nat PRIO_NUM →
  Q 0 (Vder (router s) (socket_list s) (sent_to s ++
    [(r_iface ro, with_data b (ip_frame (macaddr ae) (if_macaddr v) (b_len b) (vder_get_right_localip v hop) dst proto pl))])) →
  wp (vder_packet_send junk b dst proto) Q s.
Proof.
  intros Eb Hh Hro Hv hop Hae Hm1 Hm2 Hp HQ. unfold vder_packet_send, ip_header. bytes34 h Hh.
  apply wp_bind. apply wp_bind. apply wp_store; rewrite ?Eb; [mem_side | mem_side | mem_compute].
  do 7 mem_step. apply wp_store; [mem_side | mem_side | mem_compute].
  apply wp_bind, wp_get. rewrite Hro. fold hop. cbv zeta. apply wp_bind, (wp_vif _ v); [done|]. mem_step.
  apply wp_bind. unfold set_ip_checksum, vder_ip_checksum. apply wp_bind. do 2 mem_step. apply wp_ret.
  apply wp_store; [mem_side | mem_side | mem_compute]. rewrite Hae.
  apply (wp_sendto _ _ _ v); [mem_side | done | done | done | done|]. exact HQ.
Qed.

(** The answer to an echo request. *)
Definition echo_reply (code : Z) (rest : list Z) : list Z :=
  [ICMP_ECHOREPLY; code] ++ le16 (ntohs (net_checksum ([ICMP_ECHOREPLY; code] ++ le16 0 ++ rest))) ++ rest.

Lemma wp_icmp_echo junk b h sa da code ick rest s ro v ae (Q : Z → vder → Prop) :
  b_data b = h ++ sa ++ da ++ [ICMP_ECHO; code] ++ ick ++ rest → b_len b = Z.of_nat (length (b_data b)) →
  length h = 26%nat → length sa = 4%nat → length da = 4%nat → length ick = 2%nat →
  vder_get_route (of_le sa) (routing_table (router s)) = Some ro → iflist (router s) !! r_iface ro = Some v →
  let hop := if negb (gateway ro =? 0) then gateway ro else of_le sa in
  vder_get_arp_entry (arp_table v) hop = Some ae → length (macaddr ae) = 6%nat → length (if_macaddr v) = 6%nat → b_priority b < Z.of_nat PRIO_NUM →
  Q 0 (Vder (router s) (socket_list s) (sent_to s ++
    [(r_iface ro, with_data b (ip_frame (macaddr ae) (if_macaddr v) (b_len b) (vder_get_right_localip v hop) (of_le sa) PROTO_ICMP (echo_reply code rest)))])) →
  wp (vder_icmp_recv junk b) Q s.
Proof.
  intros Eb El Hh Hsa Hda Hck Hro Hv hop Hae Hm1 Hm2 Hp HQ. unfold vder_icmp_recv. rewrite Eb in El.
  destruct (four sa Hsa) as (s0 & s1 & s2 & s3 & ->). destruct (four da Hda) as (d0 & d1 & d2 & d3 & ->). destruct (two ick Hck) as (c0 & c1 & ->).
  do 26 (destruct h as [|? h]; [done|]). destruct h; [clear Hh|done]. cbn [length app] in El.
  unfold rd8. apply wp_bind, wp_bind, wp_load; rewrite ?Eb; [mem_side..|mem_compute]. apply wp_ret. change (of_le [ICMP_ECHO] =? ICMP_ECHO) with true. cbv iota.
  apply wp_bind. apply wp_bind, wp_load; rewrite ?Eb; [mem_side..|mem_compute]. apply wp_bind, wp_load; rewrite ?Eb; [mem_side..|mem_compute].
  apply wp_bind, wp_store; rewrite ?Eb; [mem_side..|mem_compute]. do 2 mem_step.
  unfold set_icmp_checksum. apply wp_bind. mem_step. 
  assert (Z.to_nat (Z.max 0 (b_len b - 20 - 14)) = S (S (S (S (length rest))))) as En by lia.
  apply wp_bind, wp_load; [mem_side | lia | mem_side | cbn [with_data b_len]; rewrite En; mem_compute]. rewrite firstn_all.
  apply wp_store; [mem_side | mem_side | mem_compute].
  unfold set_ip_checksum, vder_ip_checksum. apply wp_bind. do 2 mem_step. apply wp_ret. apply wp_store; [mem_side | mem_side | mem_compute].
  apply wp_bind, wp_load; [mem_side | mem_side | mem_side |]. cbn [with_data b_len b_data].
  rewrite El. match goal with |- context [take (Z.to_nat (Z.of_nat ?n)) _] => rewrite (Nat2Z.id n) end. mem_compute. rewrite firstn_all.
  unfold rd32. apply wp_bind, wp_bind, wp_load; [mem_side..|mem_compute]. apply wp_ret. apply wp_bind.
  match goal with |- wp (vder_packet_send _ ?b0 _ _) _ _ => set (b1 := b0) end.
  apply (wp_packet_send junk b1 (take 34 (b_data b1)) (drop 34 (b_data b1)) _ _ _ ro v ae);
    [by rewrite take_drop | reflexivity | done | done | done | done | done | done|]. apply wp_ret. exact HQ.
Qed.

(** The field [x] at its place in the data. *)
Lemma wp_field b o n a x r (Q : list Z → vder → Prop) s : b_data b = a ++ x ++ r → o = Z.of_nat (length a) → n = Z.of_nat (length x) → Q x s → wp (rd b o n) Q s.
Proof.
  intros E -> -> HQ. apply wp_load; [lia | lia | rewrite E, !length_app; lia|].
  by rewrite !Nat2Z.id, E, drop_app_length, take_app_length.
Qed.

Lemma no_filters s : filtering_table (router s) = [] → set_router (Router (iflist (router s)) (routing_table (router s)) []) s = s.
Proof. destruct s as [[ifs rt ft] so st]. cbn. by intros ->. Qed.

(** Without filters an IP packet for this interface goes to [vder_ip_input] as a
    copy of the frame. *)
Lemma wp_recv_ip junk sp i v dst src h pl s (Q : () → vder → Prop) : let frame := dst ++ src ++ [8; 0] ++ h ++ pl in
  length dst = 6%nat → length src = 6%nat → dst = if_macaddr v ∨ dst = ETH_BCAST → iflist (router s) !! i = Some v → filtering_table (router s) = [] →
  wp (mine ← vder_ip_input junk (Buff (Z.of_nat (length frame)) (Some i) PRIO_BESTEFFORT frame);
      if mine : bool then mret () else vder_forward junk (Buff (Z.of_nat (length frame)) (Some i) PRIO_BESTEFFORT frame)) Q s →
  wp (vder_packet_recv junk sp i frame) Q s.
Proof.
  intros frame Hd Hs Hdst Hv Hf HQ. unfold vder_packet_recv, vder_recv. set (vb := Buff _ _ _ _). apply wp_bind, (wp_vif _ v); [done|].
  destruct (six dst Hd) as (d0 & d1 & d2 & d3 & d4 & d5 & ->). destruct (six src Hs) as (s0 & s1 & s2 & s3 & s4 & s5 & ->).
  assert (b_data vb = [d0; d1; d2; d3; d4; d5; s0; s1; s2; s3; s4; s5; 8; 0] ++ h ++ pl ++ junk (RECV_SIZE - Z.of_nat (length frame))) as Ed.
  { unfold vb, frame. cbn [b_data]. by rewrite <- !app_assoc. }
  apply wp_bind, wp_load; rewrite ?Ed; [mem_side..|mem_compute].
  assert (negb (memcmp [d0; d1; d2; d3; d4; d5] (if_macaddr v) =? 0) && negb (memcmp [d0; d1; d2; d3; d4; d5] ETH_BCAST =? 0) = false) as ->.
  { destruct Hdst as [-> | ->]; rewrite memcmp_refl; [done | apply andb_false_r]. }
  unfold rd16. apply wp_bind, wp_bind, wp_load; rewrite ?Ed; [mem_side..|mem_compute]. apply wp_ret.
  change (ntohs (of_le [8; 0]) =? PTYPE_ARP) with false. change (ntohs (of_le [8; 0]) =? PTYPE_IP) with true. cbv iota.
  apply wp_bind. unfold vder_filter_packet. apply wp_bind, wp_get. rewrite Hf. apply wp_bind, wp_ret. apply wp_bind, wp_modify. cbn beta iota.
  rewrite no_filters by done. apply wp_ret. cbn beta iota.
  apply wp_bind, wp_load; rewrite ?Ed; [mem_side | unfold vb; cbn [b_len]; lia | unfold vb, frame; cbn [b_len]; rewrite !length_app; cbn [length]; lia|].
  assert (take (Z.to_nat (b_len vb)) (drop (Z.to_nat 0) ([d0; d1; d2; d3; d4; d5; s0; s1; s2; s3; s4; s5; 8; 0] ++ h ++ pl ++ junk (RECV_SIZE - Z.of_nat (length frame)))) = frame) as ->.
  { rewrite <- Ed. unfold vb. cbn [b_data b_len]. rewrite Nat2Z.id. change (Z.to_nat 0) with O. rewrite drop_0. apply take_app_length. }
  exact HQ.
Qed.

(** ** The Internet checksum

    RFC 1071: the data is cut in 16-bit words, the first byte of each the higher
    one, an odd last byte is followed by zero; the words are added with the carries
    brought back in, and the data with its checksum is valid when the sum is all
    ones. *)
Fixpoint be_words (l : list Z) : list Z :=
  match l with
  | [] => []
  | [a] => [a * 2 ^ 8]
  | a :: b :: l => a * 2 ^ 8 + b :: be_words l
  end.
Definition oc_add (a b : Z) : Z := (a + b) mod 2 ^ 16 + (a + b) / 2 ^ 16.
Definition oc_sum (l : list Z) : Z := foldl oc_add 0 (be_words l).
Definition rfc1071_valid (l : list Z) : Prop := oc_sum l = 0xFFFF.

(** The sum of the words, and that its carries are brought in by one addition. *)
Definition word_sum (l : list Z) : Z := foldr Z.add 0 (be_words l).
Definition one_fold (l : list Z) : Prop := word_sum l mod 2 ^ 16 + word_sum l / 2 ^ 16 < 2 ^ 16.

Lemma pair_ind (P : list Z → Prop) : P [] → (∀ a, P [a]) → (∀ a b l, P l → P (a :: b :: l)) → ∀ l, P l.
Proof. intros H0 H1 H2. fix IH 1. intros [|a [|b l]]; [done | by apply H1 | apply H2, IH]. Qed.

Lemma be_words_range l : Forall byteP l → Forall (λ w, 0 ≤ w < 2 ^ 16) (be_words l).
Proof.
  induction l as [|a|a b l IH] using pair_ind; intros H; [constructor|..]; apply Forall_cons in H as [Ha H]; unfold byteP in Ha.
  - repeat constructor; lia.
  - apply Forall_cons in H as [Hb H]. unfold byteP in Hb. constructor; [lia | by apply IH].
Qed.

Lemma word_sum_range l : Forall byteP l → 0 ≤ word_sum l ≤ 65535 * (Z.of_nat (length l) + 1) / 2.
Proof.
  unfold word_sum. induction l as [|a|a b l IH] using pair_ind; intros H; [done|..]; apply Forall_cons in H as [Ha H]; unfold byteP in Ha.
  - cbn [be_words foldr length]. change (65535 * (Z.of_nat 1 + 1) / 2) with 65535. lia.
  - apply Forall_cons in H as [Hb H]. unfold byteP in Hb. specialize (IH H). cbn [be_words foldr length].
    replace (65535 * (Z.of_nat (S (S (length l))) + 1)) with (65535 * (Z.of_nat (length l) + 1) + 65535 * 2) by lia.
    rewrite Z.div_add by lia. lia.
Qed.

(** The additions with the carry compute the sum modulo 65535, and only give 0 for 0. *)
Lemma oc_fold ws : ∀ acc, Forall (λ w, 0 ≤ w < 2 ^ 16) ws → 0 ≤ acc < 2 ^ 16 →
  ∃ k, foldl oc_add acc ws = acc + foldr Z.add 0 ws - 65535 * k ∧ 0 ≤ foldl oc_add acc ws < 2 ^ 16 ∧
    (0 < acc + foldr Z.add 0 ws → 0 < foldl oc_add acc ws).
Proof.
  induction ws as [|w ws IH]; intros acc Hw Ha; [exists 0; cbn; lia|]. apply Forall_cons in Hw as [Hw Hws].
  cbn [foldl foldr]. assert (0 ≤ oc_add acc w < 2 ^ 16 ∧ oc_add acc w = acc + w - 65535 * ((acc + w) / 2 ^ 16) ∧ (0 < acc + w → 0 < oc_add acc w)) as (H1 & H2 & H3)
    by (unfold oc_add; dlia).
  destruct (IH (oc_add acc w) Hws H1) as (k & E & Hr & Hp). exists (k + (acc + w) / 2 ^ 16). split; [lia|]. split; [done|].
  intros Hs. apply Hp. assert (0 ≤ foldr Z.add 0 ws) by (clear -Hws; induction Hws; cbn [foldr]; lia). lia.
Qed.

Lemma valid_multiple l : Forall byteP l → 0 < word_sum l → word_sum l mod 65535 = 0 → rfc1071_valid l.
Proof.
  intros Hl Hp Hm. destruct (oc_fold (be_words l) 0 (be_words_range l Hl) ltac:(lia)) as (k & E & Hr & Hpos). unfold rfc1071_valid, oc_sum, word_sum in *.
  apply Z.mod_divide in Hm as [q Hq]; [|lia]. lia.
Qed.

Lemma word_sum_app a l : Nat.even (length a) = true → word_sum (a ++ l) = word_sum a + word_sum l.
Proof.
  unfold word_sum. induction a as [|x|x y a IH] using pair_ind; intros He; [done | done|].
  cbn [app be_words foldr]. rewrite IH by done. lia.
Qed.

Lemma sum_bytes_words l : ∀ i sum, Z.rem i 2 = 0 → 0 ≤ i → Forall byteP l → 0 ≤ sum → sum + word_sum l < 2 ^ 32 → sum_bytes l i sum = sum + word_sum l.
Proof.
  induction l as [|a|a b l IH] using pair_ind; intros i sum Hi Hi0 Hl Hs Hlt; cbn [sum_bytes].
  - unfold word_sum. cbn. lia.
  - apply Forall_cons in Hl as [Ha _]. unfold byteP in Ha. unfold word_sum in *. cbn [be_words foldr] in *. rewrite Hi, Z.shiftl_mul_pow2 by lia. cbn [negb Z.eqb].
    unfold u32. rewrite Z.mod_small; lia.
  - apply Forall_cons in Hl as [Ha Hl]. apply Forall_cons in Hl as [Hb Hl]. unfold byteP in Ha, Hb.
    pose proof (word_sum_range l Hl) as [Hw _]. unfold word_sum in *. cbn [be_words foldr] in *.
    rewrite Hi, Z.shiftl_mul_pow2 by lia. change (negb (0 =? 0)) with false. cbv iota.
    assert (Z.rem (i + 1) 2 = 1) as -> by (rewrite Z.rem_mod_nonneg in * by lia; dlia). change (negb (1 =? 0)) with true. cbv iota.
    unfold u32. rewrite (Z.mod_small (sum + a * 2 ^ 8)), Z.mod_small by lia. rewrite (IH (i + 1 + 1)); [lia | | lia | done | lia | lia].
    rewrite Z.rem_mod_nonneg in * by lia. dlia.
Qed.

(** The code's checksum, where one addition of the carries is enough. *)
Lemma net_checksum_fold l : Forall byteP l → word_sum l < 2 ^ 32 → one_fold l →
  net_checksum l = 65535 - (word_sum l mod 2 ^ 16 + word_sum l / 2 ^ 16).
Proof.
  intros Hl Hlt Hf. pose proof (word_sum_range l Hl) as [H0 _]. unfold net_checksum. rewrite (sum_bytes_words l 0 0); [|done | lia | done | lia | lia].
  rewrite Z.add_0_l. set (S := word_sum l) in *.
  assert (Z.shiftr (Z.land S 0xFFFF0000) 16 = S / 2 ^ 16) as ->.
  { rewrite Z.shiftr_land. change (Z.shiftr 0xFFFF0000 16) with (Z.ones 16). rewrite Z.land_ones, Z.shiftr_div_pow2 by lia. apply Z.mod_small. dlia. }
  assert (Z.land S 0xFFFF = S mod 2 ^ 16) as -> by (exact (Z.land_ones S 16 ltac:(lia))). unfold one_fold in Hf. fold S in Hf.
  unfold u16, Z.lnot. replace (Z.pred (- (S mod 2 ^ 16 + S / 2 ^ 16))) with (65535 - (S mod 2 ^ 16 + S / 2 ^ 16) + (-1) * 2 ^ 16) by lia.
  rewrite Z.mod_add by lia. apply Z.mod_small. dlia.
Qed.

Lemma le16_ntohs c : 0 ≤ c < 2 ^ 16 → le16 (ntohs c) = [c / 2 ^ 8; c mod 2 ^ 8].
Proof.
  intros Hc. unfold ntohs, le16, u8. rewrite !Z.shiftr_div_pow2 by lia. f_equal; [|f_equal].
  - rewrite Z.add_comm, Z.mod_add by lia. dlia.
  - rewrite Z.div_add_l by lia. dlia.
Qed.

(** Data with the code's checksum in a field of its own is valid. *)
Lemma checksum_makes_valid a r : Nat.even (length a) = true → Forall byteP (a ++ r) → word_sum (a ++ le16 0 ++ r) < 2 ^ 32 → one_fold (a ++ le16 0 ++ r) →
  rfc1071_valid (a ++ le16 (ntohs (net_checksum (a ++ le16 0 ++ r))) ++ r).
Proof.
  intros He Hb Hlt Hf. set (l0 := a ++ le16 0 ++ r) in *. assert (Forall byteP l0) as Hl0.
  { unfold l0. rewrite Forall_app in *. destruct Hb. rewrite Forall_app. split; [done|]. split; [|done]. repeat constructor; done. }
  pose proof (net_checksum_fold l0 Hl0 Hlt Hf) as Ec. set (c := net_checksum l0) in *. unfold one_fold in Hf. pose proof (word_sum_range l0 Hl0) as [H0 _].
  assert (0 ≤ c < 2 ^ 16) as Hc by dlia. rewrite le16_ntohs by done.
  assert (word_sum (a ++ [c / 2 ^ 8; c mod 2 ^ 8] ++ r) = word_sum l0 + c) as Es.
  { unfold l0. rewrite !word_sum_app by done. change (word_sum (le16 0)) with 0.
    unfold word_sum at 2. cbn [be_words foldr]. dlia. }
  apply valid_multiple.
  - rewrite Forall_app in *. destruct Hb. rewrite Forall_app. split; [done|]. split; [|done]. unfold byteP. repeat constructor; dlia.
  - dlia.
  - rewrite Es, Ec. replace (word_sum l0 + _) with ((word_sum l0 / 2 ^ 16 + 1) * 65535) by dlia. apply Z.mod_mul. lia.
Qed.

(** The two parts of the reply. *)
Lemma ip_header_valid len saddr daddr proto : byteP proto → one_fold (ip_fields len saddr daddr proto (le16 0)) →
  rfc1071_valid (ip_fields len saddr daddr proto (le16 (ntohs (net_checksum (ip_fields len saddr daddr proto (le16 0)))))).
Proof.
  intros Hp Hf. set (a := [0x45; 0] ++ le16 (ntohs (u16 (len - 14))) ++ le16 0 ++ le16 (ntohs 0x4000) ++ [DEFAULT_TTL; proto]).
  assert (∀ chk, ip_fields len saddr daddr proto chk = a ++ chk ++ (le32 saddr ++ le32 daddr)) as E by (intros chk; unfold ip_fields, a; by rewrite <- !app_assoc).
  assert (∀ z, byteP (u8 z)) as Hu by (intros z; unfold byteP, u8; apply (Z.mod_pos_bound z 256); lia).
  assert (Forall byteP (a ++ le32 saddr ++ le32 daddr)) as Hb by (unfold a, le16, le32; cbn [app];
    repeat (apply Forall_cons_2; [first [apply Hu | exact Hp | done]|]); apply Forall_nil_2).
  rewrite E in Hf |- *. rewrite E. apply checksum_makes_valid; [done | done | | done].
  assert (Forall byteP (a ++ le16 0 ++ le32 saddr ++ le32 daddr)) as Hb0.
  { rewrite Forall_app in *. destruct Hb. split; [done|]. rewrite Forall_app. split; [|done]. repeat constructor; done. }
  pose proof (word_sum_range _ Hb0) as [_ Hw]. change (length (a ++ le16 0 ++ le32 saddr ++ le32 daddr)) with 20%nat in Hw. 
  assert (65535 * (Z.of_nat 20 + 1) / 2 < 2 ^ 32) by done. lia.
Qed.
Lemma echo_reply_valid code rest : Forall byteP (code :: rest) → Z.of_nat (length rest) ≤ 65535 →
  one_fold ([ICMP_ECHOREPLY; code] ++ le16 0 ++ rest) → rfc1071_valid (echo_reply code rest).
Proof.
  intros Hb Hlen Hf. apply Forall_cons in Hb as [Hc Hb]. unfold echo_reply. apply checksum_makes_valid; [done | by cbn [app]; do 2 (apply Forall_cons_2; [done|]) | | done].
  assert (Forall byteP ([ICMP_ECHOREPLY; code] ++ le16 0 ++ rest)) as Hb0 by (by cbn [app le16]; do 4 (apply Forall_cons_2; [done|])).
  pose proof (word_sum_range _ Hb0) as [_ Hw].
  assert (length ([ICMP_ECHOREPLY; code] ++ le16 0 ++ rest) = 4 + length rest)%nat as El by done. rewrite El in Hw. dlia.
Qed.

Lemma reply_parts dmac smac len saddr daddr proto payload : length dmac = 6%nat → length smac = 6%nat →
  let reply := ip_frame dmac smac len saddr daddr proto payload in
  take 20 (drop 14 reply) = ip_fields len saddr daddr proto (le16 (ntohs (net_checksum (ip_fields len saddr daddr proto (le16 0))))) ∧ drop 34 reply = payload.
Proof.
  intros H1 H2 reply. destruct (six dmac H1) as (d0 & d1 & d2 & d3 & d4 & d5 & ->). destruct (six smac H2) as (s0 & s1 & s2 & s3 & s4 & s5 & ->).
  split; reflexivity.
Qed.

(** Where the first addition of the carries has a carry of its own the code's
    checksum is wrong. *)
Lemma second_carry_lost : word_sum ([ICMP_ECHOREPLY; 0] ++ le16 0 ++ [255; 255; 255; 255; 0; 1]) = 0x1FFFF ∧
  ¬ rfc1071_valid (echo_reply 0 [255; 255; 255; 255; 0; 1]).
Proof. split; [vm_compute; reflexivity | vm_compute; discriminate]. Qed.

(** C10: Ping. An echo request that reaches an interface of a router without
    filters, for one of the router's addresses, is answered when the route back and
    the MAC address of its next hop are known: the one packet sent goes to the
    interface of the route, to the MAC address of the next hop, from the address of
    that interface towards the next hop (which need not be the address that was
    pinged) to the sender, with the identifier, sequence number and data of the
    request, and nothing else in the router changes. The IP header and the ICMP
    message of the reply have valid checksums in the sense of RFC 1071 (the one's
    complement sum of their words is all ones) whenever adding the carries of the
    sum of the words once leaves no further carry; where it does, the code's single
    addition gives a wrong checksum ([second_carry_lost]). *)
Theorem ping_answered junk sp s i vin dst src mid chk sa da code ick rest ro v ae :
  let frame := dst ++ src ++ [8; 0] ++ (mid ++ [PROTO_ICMP] ++ chk ++ sa ++ da) ++ [ICMP_ECHO; code] ++ ick ++ rest in
  let hop := if negb (gateway ro =? 0) then gateway ro else of_le sa in
  length dst = 6%nat → length src = 6%nat → length mid = 9%nat → length chk = 2%nat → length sa = 4%nat → length da = 4%nat → length ick = 2%nat →
  iflist (router s) !! i = Some vin → dst = if_macaddr vin ∨ dst = ETH_BCAST → filtering_table (router s) = [] →
  vder_ipaddress_is_local (of_le da) (router s) = true →
  vder_get_route (of_le sa) (routing_table (router s)) = Some ro → iflist (router s) !! r_iface ro = Some v →
  vder_get_arp_entry (arp_table v) hop = Some ae → length (macaddr ae) = 6%nat → length (if_macaddr v) = 6%nat →
  let len := Z.of_nat (length frame) in
  let reply := ip_frame (macaddr ae) (if_macaddr v) len (vder_get_right_localip v hop) (of_le sa) PROTO_ICMP (echo_reply code rest) in
  vder_packet_recv junk sp i frame s =
    Done () (Vder (router s) (socket_list s) (sent_to s ++ [(r_iface ro, Buff len (Some i) PRIO_BESTEFFORT reply)])) ∧
  length reply = length frame ∧
  (one_fold (ip_fields len (vder_get_right_localip v hop) (of_le sa) PROTO_ICMP (le16 0)) → rfc1071_valid (take 20 (drop 14 reply))) ∧
  (Forall byteP (code :: rest) → len ≤ 65535 → one_fold ([ICMP_ECHOREPLY; code] ++ le16 0 ++ rest) → rfc1071_valid (drop 34 reply)).
Proof.
  intros frame hop Hd Hs Hmid Hchk Hsa Hda Hick Hin Hdst Hf Hloc Hro Hv Hae Hm1 Hm2 len reply.
  destruct (reply_parts (macaddr ae) (if_macaddr v) len (vder_get_right_localip v hop) (of_le sa) PROTO_ICMP (echo_reply code rest) Hm1 Hm2) as [Hip Hicmp]. fold reply in Hip, Hicmp.
  split_and!; [|..|by rewrite Hip; apply ip_header_valid|rewrite Hicmp; intros Hb Hl; apply echo_reply_valid; [done|]; unfold len, frame in Hl; rewrite !length_app in Hl; lia].
  - apply wp_eq. apply (wp_recv_ip junk sp i vin); [done..|]. fold frame. fold len. unfold vder_ip_input. set (b := Buff len _ _ frame).
    assert (b_data b = (dst ++ src ++ [8; 0] ++ mid ++ [PROTO_ICMP] ++ chk) ++ sa ++ da ++ [ICMP_ECHO; code] ++ ick ++ rest) as Eb.
    { unfold b, frame. cbn [b_data]. by rewrite <- !app_assoc. }
    assert (length (dst ++ src ++ [8; 0] ++ mid ++ [PROTO_ICMP] ++ chk) = 26%nat) as Hh by (rewrite !length_app; cbn [length]; lia).
    apply wp_bind. unfold rd32. apply wp_bind, wp_bind.
    apply (wp_field _ _ _ (dst ++ src ++ [8; 0] ++ mid ++ [PROTO_ICMP] ++ chk ++ sa) da ([ICMP_ECHO; code] ++ ick ++ rest));
      [rewrite Eb; by rewrite <- !app_assoc | rewrite !length_app; unfold IP_DADDR; cbn [length]; lia | lia |].
    apply wp_ret, wp_bind, wp_get. rewrite Hloc. cbn [negb andb]. unfold rd8. apply wp_bind, wp_bind.
    apply (wp_field _ _ _ (dst ++ src ++ [8; 0] ++ mid) [PROTO_ICMP] (chk ++ sa ++ da ++ [ICMP_ECHO; code] ++ ick ++ rest));
      [rewrite Eb; by rewrite <- !app_assoc | rewrite !length_app; unfold IP_PROTO; cbn [length]; lia | done |].
    apply wp_ret. change (of_le [PROTO_ICMP] =? PROTO_ICMP) with true. cbv iota. apply wp_bind, wp_bind.
    apply (wp_icmp_echo junk b (dst ++ src ++ [8; 0] ++ mid ++ [PROTO_ICMP] ++ chk) sa da code ick rest s ro v ae); [exact Eb | done | done..|].
    apply wp_ret, wp_bind, wp_ret. cbn [negb andb]. apply wp_ret. done.
  - unfold reply, frame, ip_frame, ip_fields, echo_reply. rewrite !length_app. cbn [length le16 le32]. lia.
Qed.

(** ** Address resolution *)

Definition arp_frame (dmac smac : list Z) (op : Z) (m1 : list Z) (a1 : Z) (m2 : list Z) (a2 : Z) (tail : list Z) : list Z :=
  dmac ++ smac ++ le16 (ntohs PTYPE_ARP) ++ le16 (ntohs HTYPE_ETH) ++ le16 (ntohs PTYPE_IP) ++ [6; 4] ++ le16 (ntohs op) ++
  m1 ++ le32 a1 ++ m2 ++ le32 a2 ++ tail.

Lemma wp_vder_arp_query junk i tgt v s (Q : Z → vder → Prop) : length (junk 60) = 60%nat → iflist (router s) !! i = Some v → length (if_macaddr v) = 6%nat →
  vder_get_right_localip v tgt ≠ 0 →
  Q 0 (Vder (router s) (socket_list s) (sent_to s ++ [(i, Buff 60 None PRIO_ARP
    (arp_frame ETH_BCAST (if_macaddr v) ARP_REQUEST (if_macaddr v) (vder_get_right_localip v tgt) (replicate 6 0) tgt (drop 42 (junk 60))))])) →
  wp (vder_arp_query junk i tgt) Q s.
Proof.
  intros Hj Hv Hm Hip HQ. unfold vder_arp_query. apply wp_bind, (wp_vif _ v); [done|]. cbv zeta.
  destruct (junk 60) as [|j l] eqn:Ej; [done|]. do 41 (destruct l as [|? l]; [done|]).
  destruct (six _ Hm) as (m0 & m1 & m2 & m3 & m4 & m5 & Em). rewrite Em.
  do 8 mem_step. destruct (Z.eqb_spec (vder_get_right_localip v tgt) 0); [done|]. do 2 mem_step.
  apply (wp_sendto _ _ _ v); [mem_side | done | done | done | cbn; unfold PRIO_ARP, PRIO_NUM; lia|]. rewrite Em in *. exact HQ.
Qed.

Lemma learn_iface i v t s : iflist (router s) !! i = Some v →
  iflist (upd_iface (λ v, Iface (interface_id v) (address_list v) (if_macaddr v) t) i (router s)) !! i =
    Some (Iface (interface_id v) (address_list v) (if_macaddr v) t).
Proof. intros Hv. unfold upd_iface. cbn [iflist]. by rewrite list_lookup_alter, decide_True, Hv. Qed.

(** An ARP packet that reaches the interface: its sender is learned, a request is
    answered. *)
Lemma wp_recv_arp junk sp i v dmac smac op m1 a1 m2 a2 tail s (Q : () → vder → Prop) : let frame := arp_frame dmac smac op m1 a1 m2 a2 tail in
  length dmac = 6%nat → length smac = 6%nat → length m1 = 6%nat → length m2 = 6%nat → 0 ≤ a1 < 2 ^ 32 → 0 ≤ a2 < 2 ^ 32 → op = ARP_REQUEST ∨ op = ARP_REPLY →
  iflist (router s) !! i = Some v → length (if_macaddr v) = 6%nat → dmac = if_macaddr v ∨ dmac = ETH_BCAST → arp_inv (arp_table v) → (op = ARP_REQUEST → sp < Z.of_nat PRIO_NUM) →
  (∀ t s', arp_inv t → arp_map t = <[a1 := m1]> (arp_map (arp_table v)) →
    s' = Vder (upd_iface (λ v, Iface (interface_id v) (address_list v) (if_macaddr v) t) i (router s)) (socket_list s)
           (sent_to s ++ (if op =? ARP_REQUEST then
              [(i, Buff (Z.of_nat (length frame)) (Some i) sp (arp_frame m1 (if_macaddr v) ARP_REPLY (if_macaddr v) a2 m1 a1 tail))] else [])) → Q () s') →
  wp (vder_packet_recv junk sp i frame) Q s.
Proof.
  intros frame Hd Hs Hm1 Hm2 Ha1 Ha2 Hop Hv Hmv Hdst Hinv Hsp HQ. unfold vder_packet_recv, vder_recv. set (vb := Buff _ _ _ _).
  apply wp_bind, (wp_vif _ v); [done|]. set (stk := junk (RECV_SIZE - Z.of_nat (length frame))) in *.
  assert (memcmp dmac (if_macaddr v) = 0 ∨ memcmp dmac ETH_BCAST = 0) as Hcmp by (destruct Hdst as [-> | ->]; rewrite memcmp_refl; auto).
  destruct (six dmac Hd) as (d0 & d1 & d2 & d3 & d4 & d5 & ->). destruct (six smac Hs) as (e0 & e1 & e2 & e3 & e4 & e5 & ->).
  destruct (six m1 Hm1) as (p0 & p1 & p2 & p3 & p4 & p5 & ->). destruct (six m2 Hm2) as (q0 & q1 & q2 & q3 & q4 & q5 & ->).
  destruct (six _ Hmv) as (v0 & v1 & v2 & v3 & v4 & v5 & Ev).
  assert (b_data vb = frame ++ stk) as Ed by done. unfold frame, arp_frame in Ed. cbn [le16 le32 app] in Ed.
  apply wp_bind, wp_load; rewrite ?Ed; [mem_side..|mem_compute].
  replace (negb (memcmp [d0; d1; d2; d3; d4; d5] (if_macaddr v) =? 0) && negb (memcmp [d0; d1; d2; d3; d4; d5] ETH_BCAST =? 0)) with false
    by (destruct Hcmp as [-> | ->]; [done | by rewrite andb_false_r]).
  unfold rd16 at 1. apply wp_bind, wp_bind, wp_load; rewrite ?Ed; [mem_side..|mem_compute]. apply wp_ret.
  change (ntohs (of_le [u8 (ntohs PTYPE_ARP); u8 (Z.shiftr (ntohs PTYPE_ARP) 8)]) =? PTYPE_ARP) with true. cbv iota.
  apply wp_bind. unfold vder_parse_arp. apply wp_bind, wp_load; rewrite ?Ed; [mem_side..|mem_compute].
  unfold rd32. apply wp_bind, wp_bind, wp_load; rewrite ?Ed; [mem_side..|mem_compute]. apply wp_ret.
  change [u8 a1; u8 (Z.shiftr a1 8); u8 (Z.shiftr a1 16); u8 (Z.shiftr a1 24)] with (le32 a1). rewrite of_le_le32 by done.
  apply wp_bind, (wp_vif _ v); [done|].
  destruct (add_arp_entry_spec (arp_table v) (ArpEntry a1 [p0; p1; p2; p3; p4; p5]) Hinv Ha1) as (t & Et & Ht & Emap). cbn [ipaddr macaddr] in Emap.
  rewrite Et. apply wp_bind, (wp_deref _ t); [done|]. apply wp_bind, wp_modify. unfold rd16. apply wp_bind, wp_bind, wp_load; rewrite ?Ed; [mem_side..|mem_compute]. apply wp_ret.
  set (s1 := set_router _ s). destruct Hop as [-> | ->].
  2: { change (ntohs (of_le [u8 (ntohs ARP_REPLY); u8 (Z.shiftr (ntohs ARP_REPLY) 8)]) =? ARP_REQUEST) with false. cbv iota.
       apply wp_bind, wp_ret, wp_ret, wp_ret. apply (HQ t); [done | done|]. cbn [Z.eqb]. by rewrite app_nil_r. }
  change (ntohs (of_le [u8 (ntohs ARP_REQUEST); u8 (Z.shiftr (ntohs ARP_REQUEST) 8)]) =? ARP_REQUEST) with true. cbv iota.
  apply wp_bind, wp_bind. unfold vder_arp_reply. pose proof (learn_iface i v t s Hv) as Hv1. set (v1' := Iface _ _ _ t) in Hv1.
  apply wp_bind, (wp_vif _ v1'); [done|]. change (if_macaddr v1') with (if_macaddr v). rewrite Ev.
  apply wp_bind, wp_store; rewrite ?Ed; [mem_side..|mem_compute]. do 7 mem_step.
  assert (Z.to_nat (b_len vb) = (42 + length tail)%nat) as En by (unfold vb; cbn [b_len]; rewrite Nat2Z.id; unfold frame, arp_frame; cbn [le16 le32 app length]; lia).
  assert (0 ≤ b_len vb) as Hnn by (unfold vb; cbn [b_len]; lia).
  apply wp_bind, wp_load; [mem_side | exact Hnn | cbn [with_data b_data b_len app length]; rewrite length_app; lia |].
  cbn [with_data b_data b_len]. rewrite En. mem_compute. rewrite take_app_length. mem_step.
  apply (wp_sendto _ _ _ v1'); [mem_side | done | done | done | by apply Hsp|]. apply wp_ret, wp_ret, wp_ret. apply (HQ t); [done | done|].
  change (if_macaddr v1') with (if_macaddr v). rewrite Ev. reflexivity.
Qed.

(** C11: address resolution between two routers.  A query for an address, received
    by the router it is meant for, makes that router learn the sender and answer,
    and the answer makes the first router learn the MAC address it asked for;
    the other neighbours are kept.  The priority found on the stack of the
    answering router is assumed to be one of the 32 that exist. *)
Theorem arp_resolution jA jB spA spB sA sB i j vA vB tgt : let ip := vder_get_right_localip vA tgt in
  length (jA 60) = 60%nat → iflist (router sA) !! i = Some vA → iflist (router sB) !! j = Some vB →
  length (if_macaddr vA) = 6%nat → length (if_macaddr vB) = 6%nat → arp_inv (arp_table vA) → arp_inv (arp_table vB) →
  spB < Z.of_nat PRIO_NUM → 0 ≤ tgt < 2 ^ 32 → 0 < ip < 2 ^ 32 →
  ∃ sA1 f1 sB1 f2 sA2 vA2 vB1,
    vder_arp_query jA i tgt sA = Done 0 sA1 ∧ sent_to sA1 = sent_to sA ++ [(i, f1)] ∧
    vder_packet_recv jB spB j (b_data f1) sB = Done () sB1 ∧ sent_to sB1 = sent_to sB ++ [(j, f2)] ∧
    vder_packet_recv jA spA i (b_data f2) sA1 = Done () sA2 ∧ sent_to sA2 = sent_to sA1 ∧
    iflist (router sA2) !! i = Some vA2 ∧ arp_inv (arp_table vA2) ∧ arp_map (arp_table vA2) = <[tgt := if_macaddr vB]> (arp_map (arp_table vA)) ∧
    iflist (router sB1) !! j = Some vB1 ∧ arp_inv (arp_table vB1) ∧ arp_map (arp_table vB1) = <[ip := if_macaddr vA]> (arp_map (arp_table vB)) ∧
    macaddr <$> vder_get_arp_entry (arp_table vA2) tgt = Some (if_macaddr vB) ∧ macaddr <$> vder_get_arp_entry (arp_table vB1) ip = Some (if_macaddr vA).
Proof.
  intros ip Hj HvA HvB HmA HmB HiA HiB Hsp Htgt Hip.
  set (f1 := arp_frame ETH_BCAST (if_macaddr vA) ARP_REQUEST (if_macaddr vA) ip (replicate 6 0) tgt (drop 42 (jA 60))).
  set (f2 := arp_frame (if_macaddr vA) (if_macaddr vB) ARP_REPLY (if_macaddr vB) tgt (if_macaddr vA) ip (drop 42 (jA 60))).
  set (sA1 := Vder (router sA) (socket_list sA) (sent_to sA ++ [(i, Buff 60 None PRIO_ARP f1)])).
  assert (vder_arp_query jA i tgt sA = Done 0 sA1) as EA1 by (apply wp_eq, (wp_vder_arp_query jA i tgt vA); [done | done | done | fold ip; lia | done]).
  destruct (wp_done_intro (vder_packet_recv jB spB j f1) (λ _ s', ∃ t, arp_inv t ∧ arp_map t = <[ip := if_macaddr vA]> (arp_map (arp_table vB)) ∧
      s' = Vder (upd_iface (λ v, Iface (interface_id v) (address_list v) (if_macaddr v) t) j (router sB)) (socket_list sB)
             (sent_to sB ++ [(j, Buff (Z.of_nat (length f1)) (Some j) spB f2)])) sB) as ([] & sB1 & EB1 & tB & HtB & EtB & EsB).
  { apply (wp_recv_arp jB spB j vB); [done | done | done | done | lia | lia | by left | done | done | by right | done | done|]. intros t s' H1 H2 ->. by exists t. }
  destruct (wp_done_intro (vder_packet_recv jA spA i f2) (λ _ s', ∃ t, arp_inv t ∧ arp_map t = <[tgt := if_macaddr vB]> (arp_map (arp_table vA)) ∧
      s' = Vder (upd_iface (λ v, Iface (interface_id v) (address_list v) (if_macaddr v) t) i (router sA1)) (socket_list sA1) (sent_to sA1 ++ [])) sA1)
    as ([] & sA2 & EA2 & tA & HtA & EtA & EsA).
  { apply (wp_recv_arp jA spA i vA); [done | done | done | done | lia | lia | by right | done | done | by left | done | done|]. intros t s' H1 H2 ->. by exists t. }
  exists sA1, (Buff 60 None PRIO_ARP f1), sB1, (Buff (Z.of_nat (length f1)) (Some j) spB f2), sA2,
    (Iface (interface_id vA) (address_list vA) (if_macaddr vA) tA), (Iface (interface_id vB) (address_list vB) (if_macaddr vB) tB).
  cbn [b_data arp_table]. subst sB1 sA2.
  split_and!; [done | done | done | done | done | apply app_nil_r | by apply (learn_iface i vA tA sA1) | done | done | by apply (learn_iface j vB tB sB) | done | done | |].
  - rewrite get_arp_map by (apply HtA || done). rewrite EtA. apply lookup_insert_eq.
  - rewrite get_arp_map by (apply HtB || lia). rewrite EtB. apply lookup_insert_eq.
Qed.

(** ** Forwarding *)

(** Every packet to forward is copied over the end of [foot]. *)
Lemma forward_overflows junk b s : vder_forward junk b s = Fault.
Proof.
  assert (∀ f, length f = 28%nat → memcpy_at (replicate (Z.to_nat SIZEOF_FOOT) 0) 0 f = None) as Hf.
  { intros f Hl. unfold memcpy_at. by rewrite Hl, length_replicate. }
  unfold vder_forward, mbind, M_bind. destruct (rd32 b IP_SADDR s) as [a s1| |] eqn:E1; [|unfold rd32, rd, mbind, M_bind in E1; by destruct (_ && _ && _)|done].
  unfold rd. destruct (_ && _ && (_ <=? _)) eqn:E; [|done]. cbn [mret M_ret].
  apply andb_true_iff in E as [_ E%Z.leb_le]. rewrite Hf; [done|]. unfold slice, IPH in *. rewrite length_take, length_drop. lia.
Qed.

(** ** Filters *)

(** The fields of a packet that filters look at. *)
Definition field (b : vde_buff) (o n : Z) : Z := of_le (slice (b_data b) o n).
Definition filter_hits (b : vde_buff) (f : vder_filter) : bool :=
  bool_decide (src_iface f = None ∨ src_iface f = b_src b) &&
  ((f_proto f =? 0) || (f_proto f =? field b IP_PROTO 1)) &&
  ((f_tos f <? 0) || (u8 (f_tos f) =? field b IP_TOS 1)) &&
  ((address (f_saddr f) =? 0) || (address (f_saddr f) =? Z.land (netmask (f_saddr f)) (field b IP_SADDR 4))) &&
  ((address (f_daddr f) =? 0) || (address (f_daddr f) =? Z.land (netmask (f_daddr f)) (field b IP_DADDR 4))) &&
  ((f_sport f =? 0) || (f_sport f =? field b PAYLOAD 2)) &&
  ((f_dport f =? 0) || (f_dport f =? field b (PAYLOAD + 2) 2)).

Lemma filter_matches_hits f b s : (38 ≤ length (b_data b))%nat → filter_matches f b s = Done (filter_hits b f) s.
Proof.
  intros Hl. assert (∀ o n, 0 ≤ o → 0 ≤ n → o + n ≤ 38 → rd b o n s = Done (slice (b_data b) o n) s) as Hrd.
  { intros o n Ho Hn Hle. unfold rd. assert (o + n ≤ Z.of_nat (length (b_data b))) as Hb by lia. apply Z.leb_le in Ho, Hn, Hb. by rewrite Ho, Hn, Hb. }
  unfold filter_matches, rd8, rd16, rd32, IP_PROTO, IP_TOS, IP_SADDR, IP_DADDR, PAYLOAD, mbind, M_bind.
  repeat (rewrite Hrd by lia; cbv beta iota; unfold mret at 1, M_ret at 1). done.
Qed.

(** The first filter that hits decides, and it alone is counted. *)
Fixpoint count_first (b : vde_buff) (l : list vder_filter) : list vder_filter :=
  match l with
  | [] => []
  | f :: l => if filter_hits b f then count_packet (b_len b) f :: l else f :: count_first b l
  end.
Lemma select_filter_spec b l s : (38 ≤ length (b_data b))%nat → select_filter b l s = Done (List.find (filter_hits b) l, count_first b l) s.
Proof.
  intros Hl. induction l as [|f l IH]; [done|]. cbn [select_filter List.find count_first]. unfold mbind, M_bind in *. rewrite filter_matches_hits by done.
  destruct (filter_hits b f); [done|]. by rewrite IH.
Qed.

(** the first filter whose conditions a packet meets decides: the packet is
    dropped or goes on, with the priority of the filter if it has one, and only that
    filter's counters change; a packet that meets none goes on. *)
Theorem filter_first_match junk b s : (38 ≤ length (b_data b))%nat →
  (∀ f, List.find (filter_hits b) (filtering_table (router s)) = Some f → f_action f ≠ filter_reject) →
  vder_filter_packet junk b s =
    Done (match List.find (filter_hits b) (filtering_table (router s)) with
          | Some f => match f_action f with filter_drop => (true, b) | filter_priority => (false, with_priority b (f_priority f)) | _ => (false, b) end
          | None => (false, b)
          end)
         (Vder (Router (iflist (router s)) (routing_table (router s)) (count_first b (filtering_table (router s)))) (socket_list s) (sent_to s)).
Proof.
  intros Hl Hrej. unfold vder_filter_packet, get, modify, mbind, M_bind. rewrite select_filter_spec by done.
  destruct (List.find _ _) as [f|]; [|done]. specialize (Hrej f eq_refl). by destruct (f_action f).
Qed.

(** ** Datagrams *)

Lemma of_le_le16 x : 0 ≤ x < 2 ^ 16 → of_le (le16 x) = x.
Proof. intros Hx. unfold of_le, le16. cbn [foldr]. unfold u8. rewrite Z.shiftr_div_pow2 by lia. dlia. Qed.
Lemma ntohs_range x : 0 ≤ ntohs x < 2 ^ 16.
Proof. unfold ntohs. pose proof (u8_range x). pose proof (u8_range (Z.shiftr x 8)). lia. Qed.
Lemma ntohs_involutive x : 0 ≤ x < 2 ^ 16 → ntohs (ntohs x) = x.
Proof.
  intros Hx. assert (0 ≤ x / 2 ^ 8 < 256) as Hd by dlia. unfold ntohs. rewrite !Z.shiftr_div_pow2 by lia. unfold u8. rewrite (Z.mod_small (x / 2 ^ 8)) by lia.
  assert (((x mod 2 ^ 8 * 2 ^ 8 + x / 2 ^ 8) / 2 ^ 8) = x mod 2 ^ 8) as -> by dlia.
  assert ((x mod 2 ^ 8 * 2 ^ 8 + x / 2 ^ 8) mod 2 ^ 8 = x / 2 ^ 8) as -> by dlia. dlia.
Qed.

(** Only the socket of the port gets the packet. *)
Lemma udp_recv_one b port l1 so l2 s : s_port so = port → Forall (λ x, s_port x ≠ port) l1 → Forall (λ x, s_port x ≠ port) l2 →
  udp_recv_loop b port false false (l1 ++ so :: l2) s = Done (true, l1 ++ (sock_enqueue b so).2 :: l2) s.
Proof.
  intros Hp H1 H2. assert (∀ f g, udp_recv_loop b port f g l2 s = Done (f, l2) s) as Hl2.
  { intros f g. induction H2 as [|x l Hx _ IH]; [done|]. cbn [udp_recv_loop]. destruct (Z.eqb_spec (s_port x) port); [done|]. unfold mbind, M_bind. by rewrite IH. }
  induction H1 as [|x l Hx _ IH]; cbn [udp_recv_loop app].
  - rewrite Hp, Z.eqb_refl. cbn [andb]. destruct (sock_enqueue b so) as [ok so']. unfold mbind, M_bind. by rewrite Hl2.
  - destruct (Z.eqb_spec (s_port x) port); [done|]. unfold mbind, M_bind. by rewrite IH.
Qed.

(** a datagram for a port on which a socket waits is found by the next
    [vder_udpsocket_recvfrom] on it, with its data and the port of its sender, when the
    caller's buffer has the size of the data or is more than 8 bytes larger; the queue
    is then as before. *)
Theorem udp_delivery s b h sport dport crc d extra l1 so l2 limit drop len : let n := Z.of_nat (length d) in
  b_data b = h ++ le16 sport ++ le16 dport ++ le16 (ntohs (n + 8)) ++ crc ++ d ++ extra → length h = 34%nat → length crc = 2%nat →
  0 ≤ sport < 2 ^ 16 → 0 ≤ dport < 2 ^ 16 → 0 < n < 65528 → 0 < b_len b < 2 ^ 32 →
  socket_list s = l1 ++ so :: l2 → s_port so = dport → Forall (λ x, s_port x ≠ dport) l1 → Forall (λ x, s_port x ≠ dport) l2 →
  Forall (λ x, s_id x ≠ s_id so) l1 → s_inq so = Queue 0 0 [] (QPOLICY_FIFO limit drop) → 0 < limit → n + 8 < len ∨ len = n →
  ∃ s1, vder_udp_recv b s = Done true s1 ∧ vder_udpsocket_recvfrom (s_id so) len s1 = Done (n, Some (d, sport)) s.
Proof.
  intros n Eb Hh Hc Hsp Hdp Hn Hlen Hs Hport H1 H2 Hid Hq Hlim Hl.
  destruct so as [id port q sem]. cbn [s_port s_id s_inq] in *. subst port q.
  set (so1 := UdpSocket id dport (Queue 1 (b_len b) [b] (QPOLICY_FIFO limit drop)) (S sem)).
  exists (Vder (router s) (l1 ++ so1 :: l2) (sent_to s)). split.
  - apply wp_eq. unfold vder_udp_recv, rd16. apply wp_bind, wp_bind.
    apply (wp_field _ _ _ (h ++ le16 sport) (le16 dport) (le16 (ntohs (n + 8)) ++ crc ++ d ++ extra));
      [by rewrite Eb, <- app_assoc | rewrite length_app, Hh; done | done |]. apply wp_ret. rewrite of_le_le16 by done.
    apply wp_bind, wp_get, wp_bind. rewrite Hs. unfold wp at 1. rewrite udp_recv_one by done. apply wp_bind, wp_modify, wp_ret.
    unfold sock_enqueue, enqueue_locked, may_enqueue, qfifo_may_enqueue. cbn [s_inq q_policy q_size s_id s_port s_sem q_n q_bufs app].
    apply Z.ltb_lt in Hlim. rewrite Hlim. cbn [fst snd]. unfold so1. change (u32 (0 + 1)) with 1. unfold u32. by rewrite Z.mod_small, Z.add_0_l by lia.
  - apply wp_eq. unfold vder_udpsocket_recvfrom. destruct (Z.leb_spec len 0); [lia|]. apply wp_bind, wp_get. cbn [socket_list].
    assert (list_find (λ so, s_id so = id) (l1 ++ so1 :: l2) = Some (length l1, so1)) as Hfind.
    { apply list_find_Some. split_and!; [by rewrite list_lookup_middle | done|]. intros j y Hj Hlt. rewrite lookup_app_l in Hj by done.
      by eapply Forall_lookup_1 in Hid. }
    rewrite Hfind. apply wp_bind, (wp_deref _ (length l1, so1)); [done|]. cbn [s_inq so1 q_n]. change (1 =? 0) with false. cbv iota.
    assert (dequeue_locked (Queue 1 (b_len b) [b] (QPOLICY_FIFO limit drop)) = Some (Some (b, Queue 0 0 [] (QPOLICY_FIFO limit drop)))) as Hdq.
    { unfold dequeue_locked, take_head. cbn [q_n q_bufs q_size q_policy mbind option_bind]. change (1 =? 0) with false. cbv iota. change (u32 (1 - 1)) with 0. by rewrite Z.sub_diag. }
    rewrite Hdq. apply wp_bind, (wp_deref _ (Some (b, Queue 0 0 [] (QPOLICY_FIFO limit drop)))); [done|]. cbn [s_id s_port s_sem so1 pred].
    apply wp_bind, wp_modify. cbn [router socket_list sent_to]. rewrite insert_app_r_alt, Nat.sub_diag by done. change (<[0%nat := ?x]> (so1 :: l2)) with (x :: l2). rewrite <- Hs.
    unfold rd16. apply wp_bind, wp_bind.
    apply (wp_field _ _ _ (h ++ le16 sport ++ le16 dport) (le16 (ntohs (n + 8))) (crc ++ d ++ extra));
      [by rewrite Eb, <- !app_assoc | rewrite !length_app, Hh; done | done |]. apply wp_ret.
    rewrite of_le_le16 by apply ntohs_range. rewrite ntohs_involutive by lia.
    assert ((if n + 8 <? len then u64 (n + 8 - 8) else len) = n) as ->.
    { destruct (Z.ltb_spec (n + 8) len); [rewrite u64_small; lia | lia]. }
    apply wp_bind, (wp_field _ _ _ (h ++ le16 sport ++ le16 dport ++ le16 (ntohs (n + 8)) ++ crc) d extra);
      [by rewrite Eb, <- !app_assoc | rewrite !length_app, Hh, Hc; done | done |].
    apply wp_bind, wp_bind, (wp_field _ _ _ h (le16 sport) (le16 dport ++ le16 (ntohs (n + 8)) ++ crc ++ d ++ extra)); [done | rewrite Hh; done | done |].
    apply wp_ret, wp_ret. rewrite of_le_le16 by done. by destruct s.
Qed.

(** ** Witnesses *)

(** The router of [VRoute], which knows 10.0.0.2 on its first interface. *)
Definition zeros (n : Z) : list Z := replicate (Z.to_nat n) 0.
Definition demo_vder : vder :=
  Vder (default init_router (exec_op (OpNeighbour 0 (ArpEntry 0x0200000A [2; 2; 2; 2; 2; 2])) demo_router)) [] [].
Definition demo_mac : list Z := [0; 2; 5; 0x12; 0x34; 0].

Lemma ping_answered_witness : ∃ s',
  vder_packet_recv zeros 0 0 (demo_mac ++ [2; 2; 2; 2; 2; 2] ++ [8; 0] ++ ([0x45; 0; 0; 32; 0; 1; 0; 0; 64] ++ [PROTO_ICMP] ++ [0; 0] ++ [10; 0; 0; 2] ++ [10; 0; 0; 1]) ++
    [ICMP_ECHO; 0] ++ [0; 0] ++ [1; 2; 3; 4; 5; 6; 7; 8]) demo_vder = Done () s' ∧
  ∃ reply, sent_to s' = [(0%nat, reply)] ∧ rfc1071_valid (take 20 (drop 14 (b_data reply))) ∧ rfc1071_valid (drop 34 (b_data reply)).
Proof.
  destruct (ping_answered zeros 0 demo_vder 0 (Iface 0 [Ip4Address 0x0100000A 0xFF] demo_mac (Node RB_BLACK Leaf (ArpEntry 0x0200000A [2; 2; 2; 2; 2; 2]) Leaf))
    demo_mac [2; 2; 2; 2; 2; 2] [0x45; 0; 0; 32; 0; 1; 0; 0; 64] [0; 0] [10; 0; 0; 2] [10; 0; 0; 1] 0 [0; 0] [1; 2; 3; 4; 5; 6; 7; 8]
    (VRoute 0x0000000A 0x000000FF 0 1 0) (Iface 0 [Ip4Address 0x0100000A 0xFF] demo_mac (Node RB_BLACK Leaf (ArpEntry 0x0200000A [2; 2; 2; 2; 2; 2]) Leaf))
    (ArpEntry 0x0200000A [2; 2; 2; 2; 2; 2])) as (H & _ & Hip & Hicmp); [first [by left | vm_compute; reflexivity]..|].
  eexists. split; [exact H|]. eexists. split; [reflexivity|]. split; [apply Hip; vm_compute; reflexivity|].
  apply Hicmp; [apply (bool_decide_eq_true_1 _); vm_compute; reflexivity | vm_compute; discriminate | vm_compute; reflexivity].
Defined.

(** A second router, 10.0.0.9, with an empty table. *)
Definition demo_peer : vder := Vder (Router [Iface 0 [Ip4Address 0x0900000A 0xFF] [9; 9; 9; 9; 9; 9] Leaf] [] []) [] [].

Lemma arp_resolution_witness : ∃ sA1 f1 sB1, vder_arp_query zeros 0 0x0900000A demo_vder = Done 0 sA1 ∧
  vder_packet_recv zeros 5 0 (b_data f1) demo_peer = Done () sB1.
Proof.
  assert (arp_inv Leaf) as Hleaf by (split; [split; constructor | exists 0%nat; constructor]).
  assert (arp_inv (Node RB_BLACK Leaf (ArpEntry 0x0200000A [2; 2; 2; 2; 2; 2]) Leaf)) as Hone.
  { destruct (add_arp_entry_spec Leaf (ArpEntry 0x0200000A [2; 2; 2; 2; 2; 2]) Hleaf) as (t & E & Ht & _); [unfold entry_ok; cbn; lia|].
    vm_compute in E. injection E as <-. exact Ht. }
  destruct (arp_resolution zeros zeros 0 5 demo_vder demo_peer 0 0
    (Iface 0 [Ip4Address 0x0100000A 0xFF] demo_mac (Node RB_BLACK Leaf (ArpEntry 0x0200000A [2; 2; 2; 2; 2; 2]) Leaf))
    (Iface 0 [Ip4Address 0x0900000A 0xFF] [9; 9; 9; 9; 9; 9] Leaf) 0x0900000A) as (sA1 & f1 & sB1 & f2 & sA2 & vA2 & vB1 & H1 & _ & H3 & _);
    [vm_compute; reflexivity | vm_compute; reflexivity | vm_compute; reflexivity | reflexivity | reflexivity | exact Hone | exact Hleaf | unfold PRIO_NUM; lia | lia | vm_compute; split; reflexivity|].
  exists sA1, f1, sB1. split; [exact H1 | exact H3].
Defined.

(** A filter that drops UDP, before one that accepts everything. *)
Definition demo_filters : vder :=
  Vder (Router [] [] [VFilter None 17 (Ip4Address 0 0) (Ip4Address 0 0) 0 0 (-1) filter_drop 0 0 0;
                      VFilter None 0 (Ip4Address 0 0) (Ip4Address 0 0) 0 0 (-1) filter_accept 0 0 0]) [] [].
Lemma filter_first_match_witness : ∃ s',
  vder_filter_packet zeros (Buff 60 (Some 0%nat) 0 (replicate 23 0 ++ [17] ++ replicate 36 0)) demo_filters =
    Done (true, Buff 60 (Some 0%nat) 0 (replicate 23 0 ++ [17] ++ replicate 36 0)) s' ∧ stats_packets <$> filtering_table (router s') = [1; 0].
Proof.
  eexists. split; [rewrite filter_first_match; [vm_compute; reflexivity | cbn; lia | intros f Hf; vm_compute in Hf; injection Hf as <-; discriminate]|].
  vm_compute. reflexivity.
Defined.

Lemma udp_delivery_witness : ∃ s1,
  vder_udp_recv (Buff 46 None 15 (zeros 34 ++ le16 100 ++ le16 200 ++ le16 (ntohs (4 + 8)) ++ [0; 0] ++ [1; 2; 3; 4] ++ []))
    (Vder init_router [UdpSocket 7 200 (Queue 0 0 [] (QPOLICY_FIFO 16384 0)) 0] []) = Done true s1 ∧
  vder_udpsocket_recvfrom 7 64 s1 = Done (4, Some ([1; 2; 3; 4], 100)) (Vder init_router [UdpSocket 7 200 (Queue 0 0 [] (QPOLICY_FIFO 16384 0)) 0] []).
Proof.
  apply (udp_delivery (Vder init_router [UdpSocket 7 200 (Queue 0 0 [] (QPOLICY_FIFO 16384 0)) 0] [])
    (Buff 46 None 15 (zeros 34 ++ le16 100 ++ le16 200 ++ le16 (ntohs (4 + 8)) ++ [0; 0] ++ [1; 2; 3; 4] ++ []))
    (zeros 34) 100 200 [0; 0] [1; 2; 3; 4] [] [] (UdpSocket 7 200 (Queue 0 0 [] (QPOLICY_FIFO 16384 0)) 0) [] 16384 0 64);
    try reflexivity; try constructor; cbn; try lia.
Defined.

(** ** Where the code goes wrong *)

(** Every request is answered, whatever the address it asks for: here 9.9.9.9. *)
Lemma arp_answers_any_address :
  match vder_packet_recv zeros 0 0 (arp_frame ETH_BCAST [2; 2; 2; 2; 2; 2] ARP_REQUEST [2; 2; 2; 2; 2; 2] 0x0200000A [0; 0; 0; 0; 0; 0] 0x09090909 []) demo_vder with
  | Done _ s' => vder_ipaddress_is_local 0x09090909 (router s') = false ∧
      (b_data ∘ snd) <$> sent_to s' = [arp_frame [2; 2; 2; 2; 2; 2] demo_mac ARP_REPLY demo_mac 0x09090909 [2; 2; 2; 2; 2; 2] 0x0200000A []]
  | _ => False
  end.
Proof. vm_compute. split; reflexivity. Qed.

(** The copy of a datagram reads 8 bytes past the caller's data. *)
Lemma sendto_overreads junk port data dst dstport s ro : data ≠ [] → vder_get_route dst (routing_table (router s)) = Some ro →
  vder_udpsocket_sendto junk port data (Z.of_nat (length data)) dst dstport s = Fault.
Proof.
  intros Hd Hro. unfold vder_udpsocket_sendto. destruct (Z.leb_spec (Z.of_nat (length data)) 0); [destruct data; [done | cbn in *; lia]|].
  unfold get, mbind, M_bind. rewrite Hro. unfold udp_datagram. destruct (Z.ltb_spec (Z.of_nat (length data)) (Z.of_nat (length data) + 8)); [done | lia].
Qed.

(** A buffer up to 8 bytes larger than the data is filled with what follows it. *)
Lemma recvfrom_returns_too_much :
  let s := Vder init_router [UdpSocket 7 200 (Queue 1 62 [Buff 62 None 15 (zeros 34 ++ le16 100 ++ le16 200 ++ le16 (ntohs 12) ++ [0; 0] ++ [1; 2; 3; 4] ++ zeros 16)]
             (QPOLICY_FIFO 16384 0)) 1] [] in
  match vder_udpsocket_recvfrom 7 10 s with Done (n, Some (d, _)) _ => n = 10 ∧ d = [1; 2; 3; 4; 0; 0; 0; 0; 0; 0] | _ => False end.
Proof. vm_compute. split; reflexivity. Qed.

(** An echo reply that arrives is sent again, towards the router's own address,
    which it asks its neighbours for. *)
Lemma echo_reply_triggers_query :
  match vder_packet_recv zeros 0 0 (demo_mac ++ [2; 2; 2; 2; 2; 2] ++ [8; 0] ++ [0x45; 0; 0; 32; 0; 1; 0; 0; 64; PROTO_ICMP; 0; 0; 10; 0; 0; 2; 10; 0; 0; 1] ++
      [ICMP_ECHOREPLY; 0; 0; 0; 1; 2; 3; 4]) demo_vder with
  | Done _ s' => take 42 <$> (b_data ∘ snd <$> sent_to s') = [arp_frame ETH_BCAST demo_mac ARP_REQUEST demo_mac 0x0100000A [0; 0; 0; 0; 0; 0] 0x0100000A []]
  | _ => False
  end.
Proof. vm_compute. reflexivity. Qed.
