(* ===== verification/Crc32.v ===== *)
(** * Crc32: the checksum of [vde_cryptcab]

    [crc32.c] builds a table and runs it over a block.  The theorems: the table
    gives the checksum defined bit by bit, and the checksum tells apart two blocks
    that differ in at most four consecutive bytes. *)
From Stdlib Require Import Lia.
From stdpp Require Import base numbers list.
From S2P Require Import Prelude.

(** ** The code *)

Definition poly : Z := 0xEDB88320.

(** The body of the inner loop of [chksum_crc32gentab]. *)
Definition crc_bit (crc : Z) : Z := if Z.testbit crc 0 then Z.lxor (Z.shiftr crc 1) poly else Z.shiftr crc 1.
Definition crc_entry (i : Z) : Z := Nat.iter 8 crc_bit i.
Definition chksum_crc32gentab : list Z := crc_entry <$> seqZ 0 256.

(** The body of the loop of [chksum_crc32]; [None] outside of the table. *)
Definition crc_byte (tab : list Z) (crc b : Z) : option Z :=
  e ← zget tab (Z.land (Z.lxor crc b) 0xFF);
  Some (Z.lxor (Z.land (Z.shiftr crc 8) 0x00FFFFFF) e).
Fixpoint crc_loop (tab : list Z) (crc : Z) (block : list Z) : option Z :=
  match block with
  | [] => Some crc
  | b :: block => crc ← crc_byte tab crc b; crc_loop tab crc block
  end.
Definition chksum_crc32 (tab : list Z) (block : list Z) : option Z :=
  crc ← crc_loop tab 0xFFFFFFFF block; Some (Z.lxor crc 0xFFFFFFFF).
Definition crc32 (tab : list Z) (block : list Z) : option (list Z) :=
  crc ← chksum_crc32 tab block;
  Some [Z.land crc 0xFF; Z.shiftr (Z.land crc 0xFF00) 8; Z.shiftr (Z.land crc 0xFF0000) 16; Z.shiftr (Z.land crc 0xFF000000) 24].

(** ** The checksum bit by bit *)

Definition crc_ref_byte (crc b : Z) : Z := Nat.iter 8 crc_bit (Z.lxor crc b).
Definition crc_ref (block : list Z) : Z := Z.lxor (foldl crc_ref_byte 0xFFFFFFFF block) 0xFFFFFFFF.

Definition word (z : Z) : Prop := 0 ≤ z < 2 ^ 32.

(** *** Facts on bits *)

Lemma testbit_word z i : word z → 32 ≤ i → Z.testbit z i = false.
Proof. intros Hz Hi. by apply (testbit_high z 32); [|lia]. Qed.

Lemma word_bits z : 0 ≤ z → (∀ i, 32 ≤ i → Z.testbit z i = false) → word z.
Proof.
  intros Hz Hb. split; [done|]. destruct (decide (z = 0)) as [-> | Hne]; [lia|].
  apply Z.log2_lt_pow2; [lia|]. destruct (decide (Z.log2 z < 32)) as [|Hge]; [done|].
  specialize (Hb (Z.log2 z) ltac:(lia)). rewrite Z.bit_log2 in Hb by lia. done.
Qed.

Lemma lxor_word a b : word a → word b → word (Z.lxor a b).
Proof.
  intros Ha Hb. apply word_bits; [apply Z.lxor_nonneg; unfold word in *; lia|]. intros i Hi. rewrite Z.lxor_spec.
  by rewrite !testbit_word.
Qed.
Lemma shiftr_word a n : 0 ≤ n → word a → word (Z.shiftr a n).
Proof.
  intros Hn Ha. apply word_bits; [apply Z.shiftr_nonneg; unfold word in *; lia|]. intros i Hi. rewrite Z.shiftr_spec by lia. apply testbit_word; [done | lia].
Qed.
Lemma poly_word : word poly.
Proof. unfold word, poly. lia. Qed.
Lemma byte_word b : byteP b → word b.
Proof. unfold byteP, word. lia. Qed.
#[local] Hint Resolve lxor_word shiftr_word poly_word byte_word : vde.

(** *** One bit is linear and injective *)

Lemma crc_bit_word c : word c → word (crc_bit c).
Proof. intros Hc. unfold crc_bit. case_match; auto with vde lia. Qed.

Lemma crc_bit_lxor a b : crc_bit (Z.lxor a b) = Z.lxor (crc_bit a) (crc_bit b).
Proof.
  unfold crc_bit. rewrite Z.lxor_spec, Z.shiftr_lxor.
  destruct (Z.testbit a 0), (Z.testbit b 0); cbn [xorb]; apply Z.bits_inj'; intros i Hi; rewrite !Z.lxor_spec;
    destruct (Z.testbit (Z.shiftr a 1) i), (Z.testbit (Z.shiftr b 1) i), (Z.testbit poly i); done.
Qed.

Lemma crc_bit_0 c : word c → crc_bit c = 0 → c = 0.
Proof.
  intros Hc. unfold crc_bit. destruct (Z.testbit c 0) eqn:E0; intros H.
  - exfalso. assert (Z.testbit (Z.lxor (Z.shiftr c 1) poly) 31 = false) as H31 by (rewrite H; apply Z.bits_0).
    rewrite Z.lxor_spec, Z.shiftr_spec in H31 by lia. change (Z.testbit poly 31) with true in H31.
    rewrite testbit_word in H31 by (done || lia). done.
  - apply Z.bits_inj'. intros i Hi. rewrite Z.bits_0. destruct (decide (i = 0)) as [-> |]; [done|].
    assert (Z.testbit (Z.shiftr c 1) (i - 1) = false) as Hb by (rewrite H; apply Z.bits_0). rewrite Z.shiftr_spec in Hb by lia.
    by replace (i - 1 + 1) with i in Hb by lia.
Qed.

Lemma iter_word n c : word c → word (Nat.iter n crc_bit c).
Proof. intros Hc. induction n as [|n IH]; [done | by apply crc_bit_word]. Qed.
Lemma iter_lxor n a b : Nat.iter n crc_bit (Z.lxor a b) = Z.lxor (Nat.iter n crc_bit a) (Nat.iter n crc_bit b).
Proof. induction n as [|n IH]; cbn [Nat.iter nat_rect]; [done|]. unfold Nat.iter in IH. by rewrite IH, crc_bit_lxor. Qed.
Lemma iter_0 n c : word c → Nat.iter n crc_bit c = 0 → c = 0.
Proof.
  intros Hc. induction n as [|n IH]; [done|]. cbn [Nat.iter nat_rect]. intros H. apply IH. by apply crc_bit_0 in H; [|apply (iter_word n)].
Qed.

(** Steps on a number whose low bits are clear only shift. *)
Lemma iter_shift n c : 0 ≤ c → Nat.iter n crc_bit (Z.shiftl c (Z.of_nat n)) = c.
Proof.
  intros Hc. induction n as [|n IH]; [apply Z.shiftl_0_r|]. rewrite Nat.iter_succ_r. rewrite <- IH at 2. f_equal.
  unfold crc_bit. rewrite Nat2Z.inj_succ, <- Z.add_1_r, <- Z.shiftl_shiftl by lia.
  rewrite Z.shiftl_spec_low by lia. rewrite Z.shiftr_shiftl_r by lia. by rewrite Z.sub_diag, Z.shiftr_0_r.
Qed.

(** *** The table *)

Lemma low_high x : Z.lxor (Z.land x 0xFF) (Z.shiftl (Z.shiftr x 8) 8) = x.
Proof.
  apply Z.bits_inj'. intros i Hi. rewrite Z.lxor_spec, Z.land_spec. change 0xFF with (Z.ones 8). destruct (decide (i < 8)).
  - rewrite Z.ones_spec_low, Z.shiftl_spec_low by lia. by rewrite andb_true_r, xorb_false_r.
  - rewrite Z.ones_spec_high, Z.shiftl_spec, Z.shiftr_spec by lia. rewrite andb_false_r, xorb_false_l. f_equal. lia.
Qed.

Lemma gentab_lookup k : 0 ≤ k < 256 → zget chksum_crc32gentab k = Some (crc_entry k).
Proof.
  intros Hk. apply zget_Some. split; [lia|]. unfold chksum_crc32gentab. rewrite list_lookup_fmap, lookup_seqZ_lt by lia. cbn [fmap option_fmap option_map]. by rewrite Z2Nat.id by lia.
Qed.

Lemma byte_shiftr b : byteP b → Z.shiftr b 8 = 0.
Proof. unfold byteP. intros Hb. rewrite Z.shiftr_div_pow2 by lia. by apply Z.div_small. Qed.

Lemma crc_byte_ref crc b : word crc → byteP b → crc_byte chksum_crc32gentab crc b = Some (crc_ref_byte crc b).
Proof.
  intros Hc Hb. unfold crc_byte, crc_ref_byte. set (x := Z.lxor crc b).
  assert (0 ≤ Z.land x 0xFF < 256) as Hk by (change 0xFF with (Z.ones 8); rewrite Z.land_ones by lia; apply Z.mod_pos_bound; lia).
  rewrite gentab_lookup by done. cbn [mbind option_bind]. f_equal. rewrite <- (low_high x) at 2. rewrite iter_lxor.
  assert (0 ≤ Z.shiftr x 8) as Hx by (apply Z.shiftr_nonneg, Z.lxor_nonneg; unfold word, byteP in *; lia).
  pose proof (iter_shift 8 (Z.shiftr x 8) Hx) as E8. change (Z.of_nat 8) with 8 in E8. rewrite E8, Z.lxor_comm. f_equal.
  unfold x. rewrite Z.shiftr_lxor, (byte_shiftr b Hb), Z.lxor_0_r.
  change 0x00FFFFFF with (Z.ones 24). rewrite Z.land_ones, Z.mod_small; [done | | lia].
  rewrite Z.shiftr_div_pow2 by lia. unfold word in Hc. dlia.
Qed.

Lemma crc_ref_byte_word crc b : word crc → byteP b → word (crc_ref_byte crc b).
Proof. intros. apply iter_word. auto with vde. Qed.
Lemma foldl_word block : ∀ crc, word crc → Forall byteP block → word (foldl crc_ref_byte crc block).
Proof. induction block as [|b l IH]; intros crc Hc Hl; [done|]. apply Forall_cons in Hl as [Hb Hl]. apply IH; [by apply crc_ref_byte_word | done]. Qed.

Lemma crc_loop_ref block : ∀ crc, word crc → Forall byteP block → crc_loop chksum_crc32gentab crc block = Some (foldl crc_ref_byte crc block).
Proof.
  induction block as [|b l IH]; intros crc Hc Hl; [done|]. apply Forall_cons in Hl as [Hb Hl]. cbn [crc_loop foldl].
  rewrite crc_byte_ref by done. cbn [mbind option_bind]. apply IH; [by apply crc_ref_byte_word | done].
Qed.

Lemma all_ones_word : word 0xFFFFFFFF.
Proof. unfold word. lia. Qed.

Lemma chksum_ref block : Forall byteP block → chksum_crc32 chksum_crc32gentab block = Some (crc_ref block).
Proof. intros H. unfold chksum_crc32. by rewrite crc_loop_ref by (done || apply all_ones_word). Qed.
Lemma crc_ref_word block : Forall byteP block → word (crc_ref block).
Proof. intros H. apply lxor_word; [apply foldl_word; [apply all_ones_word | done] | apply all_ones_word]. Qed.

(** *** The bytes as one number *)

Fixpoint le_word (m : list Z) : Z := match m with [] => 0 | b :: m => Z.lxor b (Z.shiftl (le_word m) 8) end.

Lemma le_word_nonneg m : Forall byteP m → 0 ≤ le_word m.
Proof.
  induction 1 as [|b m Hb _ IH]; cbn [le_word]; [lia|]. apply Z.lxor_nonneg. unfold byteP in Hb.
  assert (0 ≤ Z.shiftl (le_word m) 8) by (by apply Z.shiftl_nonneg). lia.
Qed.
Lemma le_word_high m i : Forall byteP m → 8 * Z.of_nat (length m) ≤ i → Z.testbit (le_word m) i = false.
Proof.
  intros Hm. revert i. induction Hm as [|b m Hb Hm IH]; intros i Hi; cbn [le_word length] in *; [apply Z.bits_0|].
  rewrite Z.lxor_spec, (testbit_high b 8), Z.shiftl_spec by (unfold byteP in *; lia). rewrite IH by lia. done.
Qed.
Lemma le_word_tail b m : byteP b → Z.shiftr (le_word (b :: m)) 8 = le_word m ∧ Z.land (le_word (b :: m)) 0xFF = b.
Proof.
  intros Hb. cbn [le_word]. split.
  - rewrite Z.shiftr_lxor, (byte_shiftr b Hb), Z.lxor_0_l, Z.shiftr_shiftl_r by lia. by rewrite Z.sub_diag, Z.shiftr_0_r.
  - change 0xFF with (Z.ones 8). apply Z.bits_inj'. intros i Hi. rewrite Z.land_spec, Z.lxor_spec. destruct (decide (i < 8)).
    + rewrite Z.ones_spec_low, Z.shiftl_spec_low by lia. by rewrite andb_true_r, xorb_false_r.
    + rewrite Z.ones_spec_high by lia. rewrite andb_false_r. symmetry. apply (testbit_high b 8); unfold byteP in *; lia.
Qed.
Lemma le_word_inj m m' : Forall byteP m → Forall byteP m' → length m = length m' → le_word m = le_word m' → m = m'.
Proof.
  intros Hm. revert m'. induction Hm as [|b m Hb Hm IH]; intros m' Hm' Hl E; destruct m' as [|b' m']; try done.
  apply Forall_cons in Hm' as [Hb' Hm']. destruct (le_word_tail b m Hb) as [E1 E2]. destruct (le_word_tail b' m' Hb') as [E3 E4].
  rewrite E in E1, E2. f_equal; [congruence|]. apply IH; [done | by injection Hl | congruence].
Qed.

(** Running the checksum over bytes is running it bit by bit over the number. *)
Lemma foldl_iter m : ∀ c, Forall byteP m → foldl crc_ref_byte c m = Nat.iter (8 * length m) crc_bit (Z.lxor c (le_word m)).
Proof.
  induction m as [|b m IH]; intros c Hm; cbn [foldl le_word]; [by rewrite Z.lxor_0_r|]. apply Forall_cons in Hm as [Hb Hm].
  rewrite IH by done. unfold crc_ref_byte. pose proof (iter_shift 8 (le_word m) (le_word_nonneg m Hm)) as E.
  rewrite <- E at 1. change (Z.of_nat 8) with 8. rewrite <- iter_lxor, <- Z.lxor_assoc. cbn [length].
  replace (8 * S (length m))%nat with (8 * length m + 8)%nat by lia. by rewrite Nat.iter_add.
Qed.

Lemma iter_inj n a b : word (Z.lxor a b) → Nat.iter n crc_bit a = Nat.iter n crc_bit b → a = b.
Proof.
  intros Hw E. apply Z.lxor_eq. apply (iter_0 n); [done|]. rewrite iter_lxor, E. apply Z.lxor_nilpotent.
Qed.

Lemma lxor_cancel a b k : Z.lxor (Z.lxor a k) (Z.lxor b k) = Z.lxor a b.
Proof. apply Z.bits_inj'. intros i _. rewrite !Z.lxor_spec. by destruct (Z.testbit a i), (Z.testbit b i), (Z.testbit k i). Qed.
Lemma lxor_inj a b k : Z.lxor a k = Z.lxor b k → a = b.
Proof. intros E. apply Z.lxor_eq. rewrite <- (lxor_cancel a b k), E. apply Z.lxor_nilpotent. Qed.

Lemma burst_differs l x y r : Forall byteP l → Forall byteP x → Forall byteP y → Forall byteP r → length x = length y → (length x ≤ 4)%nat →
  crc_ref (l ++ x ++ r) = crc_ref (l ++ y ++ r) → x = y.
Proof.
  intros Hl Hx Hy Hr Hlen H4 E. unfold crc_ref in E. rewrite !foldl_app in E. apply lxor_inj in E. set (c := foldl crc_ref_byte 0xFFFFFFFF l) in *.
  assert (word c) as Hc by (apply foldl_word; [apply all_ones_word | done]).
  assert (foldl crc_ref_byte c x = foldl crc_ref_byte c y) as E2.
  { rewrite !(foldl_iter r) in E by done. apply iter_inj in E; [by apply lxor_inj in E|]. rewrite lxor_cancel. apply lxor_word; by apply foldl_word. }
  rewrite !foldl_iter in E2 by done. rewrite Hlen in E2. rewrite !(Z.lxor_comm c) in E2. apply iter_inj in E2.
  - apply lxor_inj in E2. by apply le_word_inj.
  - rewrite lxor_cancel. apply lxor_word; (apply word_bits; [by apply le_word_nonneg|]; intros i Hi; apply le_word_high; [done | lia]).
Qed.

(** The four bytes that are sent. *)
Lemma crc32_bytes block : Forall byteP block →
  ∃ d, crc32 chksum_crc32gentab block = Some d ∧ length d = 4%nat ∧ Forall byteP d ∧ le_word d = crc_ref block.
Proof.
  intros Hb. unfold crc32. rewrite chksum_ref by done. cbn [mbind option_bind]. pose proof (crc_ref_word block Hb) as Hw. set (c := crc_ref block) in *.
  rewrite !Z.shiftr_land. change (Z.shiftr 0xFF00 8) with 0xFF. change (Z.shiftr 0xFF0000 16) with 0xFF. change (Z.shiftr 0xFF000000 24) with 0xFF.
  eexists. split; [reflexivity|]. split; [done|]. split.
  - assert (∀ z, byteP (Z.land z 0xFF)) as Hland by (intros z; unfold byteP; change 0xFF with (Z.ones 8); rewrite Z.land_ones by lia; apply Z.mod_pos_bound; lia).
    repeat (constructor; [apply Hland|]). constructor.
  - cbn [le_word]. rewrite Z.shiftl_0_l.
    assert (Z.shiftr (Z.shiftr c 24) 8 = 0) as H0 by (rewrite Z.shiftr_shiftr, Z.shiftr_div_pow2 by lia; apply Z.div_small; exact Hw).
    pose proof (low_high (Z.shiftr c 24)) as E3. rewrite H0, Z.shiftl_0_l in E3. rewrite E3.
    pose proof (low_high (Z.shiftr c 16)) as E2. rewrite Z.shiftr_shiftr in E2 by lia. change (16 + 8) with 24 in E2. rewrite E2.
    pose proof (low_high (Z.shiftr c 8)) as E1. rewrite Z.shiftr_shiftr in E1 by lia. change (8 + 8) with 16 in E1. rewrite E1. apply low_high.
Qed.

(** ** Theorems *)

(** on every block of bytes the table-driven checksum, with the table that
    [chksum_crc32gentab] builds, is the one computed bit by bit with the generator
    polynomial; no access is outside of the table. *)
Theorem crc_table_equals_bitwise block : Forall byteP block →
  chksum_crc32 chksum_crc32gentab block = Some (crc_ref block) ∧ length chksum_crc32gentab = 256%nat ∧ 0 ≤ crc_ref block < 2 ^ 32.
Proof. intros H. split; [by apply chksum_ref|]. split; [done | by apply crc_ref_word]. Qed.

(** The usual check value, of the digits 1 to 9. *)
Lemma crc_table_equals_bitwise_witness : chksum_crc32 chksum_crc32gentab [49; 50; 51; 52; 53; 54; 55; 56; 57] = Some 0xCBF43926.
Proof.
  destruct (crc_table_equals_bitwise [49; 50; 51; 52; 53; 54; 55; 56; 57]) as [E _]; [unfold byteP; repeat (constructor; [lia|]); constructor|].
  rewrite E. vm_compute. reflexivity.
Defined.

(** two blocks that differ, and only within four consecutive bytes, have
    different checksums: every error of that kind is detected. *)
Theorem crc_detects_burst l x y r d : Forall byteP l → Forall byteP x → Forall byteP y → Forall byteP r →
  length x = length y → (length x ≤ 4)%nat → x ≠ y →
  crc32 chksum_crc32gentab (l ++ x ++ r) = Some d → crc32 chksum_crc32gentab (l ++ y ++ r) ≠ Some d.
Proof.
  intros Hl Hx Hy Hr Hlen H4 Hne E1 E2. apply Hne. apply (burst_differs l x y r); [done..|].
  destruct (crc32_bytes (l ++ x ++ r)) as (d1 & D1 & _ & _ & W1); [by repeat apply Forall_app_2|].
  destruct (crc32_bytes (l ++ y ++ r)) as (d2 & D2 & _ & _ & W2); [by repeat apply Forall_app_2|]. congruence.
Qed.

Lemma crc_detects_burst_witness :
  ∃ d, crc32 chksum_crc32gentab ([1; 2] ++ [3; 4; 5; 6] ++ [9]) = Some d ∧ crc32 chksum_crc32gentab ([1; 2] ++ [3; 4; 5; 7] ++ [9]) ≠ Some d.
Proof.
  eexists. split; [vm_compute; reflexivity|].
  apply (crc_detects_burst [1; 2] [3; 4; 5; 6] [3; 4; 5; 7] [9]);
    [unfold byteP; by repeat constructor.. | reflexivity | cbn; lia | congruence | vm_compute; reflexivity].
Defined.
