(* ===== verification/Cryptcab.v ===== *)
(** * Cryptcab: the encrypted cable

    [cryptcab.c], [vde_cryptcab_server.c] and [vde_cryptcab_client.c]: datagrams,
    the login by challenge and response, and the frames between the two switches.
    Blowfish is a parameter: [evp_encrypt] stands for the calls of OpenSSL that
    encrypt, with a key and an initialisation vector, and [evp_update] and
    [evp_final] for what [EVP_DecryptUpdate] and [EVP_DecryptFinal] write, [None]
    for an error they report.  The source writes the last part of a decryption behind the
    place where it belongs, and so does [data_decrypt].  Parameters are also the files
    with the keys ([keyfile]), the bytes of [/dev/urandom], the time and the contents
    of memory that is not initialised ([junk], at a time).  A peer is known by its address and port, and the server's
    list has at most one peer for each.

    The theorems: what a handshake does when both ends have the key; no one
    becomes authenticated, and no frame reaches the switch, without an answer to
    the challenge; and where the protocol falls short of its comments. *)
From Stdlib Require Import Lia Ascii String.
From stdpp Require Import base numbers sets list strings.
From S2P Require Import Prelude Scan Crc32.

Definition MAXPKT : Z := 2000.
Definition FILENAMESIZE : Z := 16.
Definition PKT_DATA : Z := 0x20.
Definition PKT_CTL : Z := 0x40.
Definition CMD_LOGIN : Z := 0x41.
Definition CMD_CHALLENGE : Z := 0x42.
Definition CMD_RESPONSE : Z := 0x44.
Definition CMD_AUTH_OK : Z := 0x48.
Definition CMD_DENY : Z := 0x4A.
Definition CMD_KEEPALIVE : Z := 0x4F.
Definition ST_CLOSED : Z := 0x100.
Definition ST_OPENING : Z := 0x200.
Definition ST_CHALLENGE : Z := 0x300.
Definition ST_AUTH : Z := 0x400.
Definition ST_WAIT_AUTH : Z := 0x600.
Definition SESSION_TIMEOUT : Z := 120.
Definition CHALLENGE_TIMEOUT : Z := 20.
Definition PRELOGIN_TIMEOUT : Z := 3.
Definition EXPIRE_NOW : Z := 0.
Definition KEEPALIVE_INTERVAL : Z := 30.

(** An address and a port, and a [struct timeval]. *)
Definition sockaddr : Type := Z * Z.
Definition timeval : Type := Z * Z.
Definition after (a b : timeval) : bool := if a.1 =? b.1 then b.2 <? a.2 else b.1 <? a.1.

Record peer := Peer {
  counter : Z; key : list Z; iv : list Z; id : list Z; challenge : list Z; in_a : sockaddr;
  expire : timeval; state : Z; plug : bool }.

Inductive cc_out := ToUdp (dst : sockaddr) (d : list Z) | ToPlug (p : sockaddr) (d : list Z).

(** What [read] of [/dev/urandom] gave, and the two reads of a key file: nothing,
    the key but not the vector, or both. *)
Inductive urandom := OpenFailed | ReadFailed | RandomBytes (l : list Z).
Inductive key_read := NoKey | KeyOnly (k : list Z) | KeyBoth (k v : list Z).

(** [read] of at most [n] bytes into a buffer: those that came, then the old ones. *)
Definition overlay (n : nat) (l old : list Z) : list Z := take n l ++ drop (length (take n l)) old.

Definition set_state (p : peer) (st : Z) : peer := Peer (counter p) (key p) (iv p) (id p) (challenge p) (in_a p) (expire p) st (plug p).
Definition set_expiry (p : peer) (e : timeval) : peer := Peer (counter p) (key p) (iv p) (id p) (challenge p) (in_a p) e (state p) (plug p).
Definition set_counter (p : peer) (c : Z) : peer := Peer c (key p) (iv p) (id p) (challenge p) (in_a p) (expire p) (state p) (plug p).
Definition set_keys (p : peer) (k v : list Z) : peer := Peer (counter p) k v (id p) (challenge p) (in_a p) (expire p) (state p) (plug p).
Definition set_id (p : peer) (n : list Z) : peer := Peer (counter p) (key p) (iv p) n (challenge p) (in_a p) (expire p) (state p) (plug p).
Definition set_challenge (p : peer) (c : list Z) : peer := Peer (counter p) (key p) (iv p) (id p) c (in_a p) (expire p) (state p) (plug p).
Definition set_plug (p : peer) (b : bool) : peer := Peer (counter p) (key p) (iv p) (id p) (challenge p) (in_a p) (expire p) (state p) b.

(** [strncmp] of two memories: equal up to [n] bytes or a common NUL. *)
Fixpoint strncmp_eq (n : nat) (a b : list Z) : option bool :=
  match n with
  | O => Some true
  | S n =>
    match a, b with
    | x :: a, y :: b => if x =? y then if x =? 0 then Some true else strncmp_eq n a b else Some false
    | _, _ => None
    end
  end.

(** The C string at the start of a memory; [None] when it has no end. *)
Fixpoint cstring (m : list Z) : option (list Z) :=
  match m with
  | [] => None
  | c :: m => if c =? 0 then Some [] else s ← cstring m; Some (c :: s)
  end.

(** ** Datagrams *)

Definition isvalid_crc32 (tab block : list Z) (len : Z) : option bool :=
  if (len - 4 <? 0) || (Z.of_nat (length block) <? len) then None else
  crc ← crc32 tab (slice block 0 (len - 4));
  Some (memcmp (slice block (len - 4) 4) crc =? 0).

(** The counter goes out in little-endian order. *)
Definition set_timestamp (mycounter : Z) : list Z * Z :=
  ((λ i, Z.land (u8 (Z.shiftr mycounter (i * 8))) 0xFF) <$> seqZ 0 8, u64 (mycounter + 1)).

Section Cable.
Context (evp_encrypt evp_update evp_final : list Z → list Z → list Z → option (list Z)).
Context (encryption_disabled : bool).

Definition data_encrypt (src : list Z) (p : peer) : option (list Z) :=
  if encryption_disabled then Some src else evp_encrypt (key p) (iv p) src.
(** The data after the first byte of a packet of [len] bytes, into a buffer that holds
    [dst]: the length of the result, [None] for an error, and the buffer.  The outer
    [None] is an access outside of the buffers: without encryption a negative
    length is a copy of all the memory.  With it only whole blocks are decrypted; the
    update writes all of them but the last, and the final call writes what the last one
    holds at [dst + ulen], which is a block behind the end of what the update wrote. *)
Definition data_decrypt (dst pkt : list Z) (len : Z) (p : peer) : option (option Z * list Z) :=
  let src := slice pkt 1 (len - 1) in
  if encryption_disabled then
    if len - 1 <? 0 then None else dst ← memcpy_at dst 0 src; Some (Some (Z.of_nat (length src)), dst)
  else
    let c := take (length src - length src `mod` 8) src in
    match evp_update (key p) (iv p) c with
    | None => Some (None, dst)
    | Some upd =>
      dst ← memcpy_at dst 0 upd;
      match evp_final (key p) (iv p) c with
      | None => Some (None, dst)
      | Some fin =>
        dst ← memcpy_at dst (Z.of_nat (length c)) fin;
        Some (Some (Z.of_nat (length upd) + Z.of_nat (length fin)), dst)
      end
    end.
(** What is handed to the switch: nothing after an error, whose length -1 the system
    refuses. *)
Definition decrypted_frame (r : option Z * list Z) : list (list Z) :=
  match r.1 with Some n => [take (Z.to_nat n) r.2] | None => [] end.

(** [send_udp]: the bytes on the wire.  A frame is followed by the counter and the
    checksum in the caller's buffer of [MAXPKT] bytes, and the result is written behind
    the flag in another one. *)
Definition send_udp (tab : list Z) (mycounter : Z) (data : list Z) (p : peer) (flags : Z) : option (list cc_out * Z) :=
  let data := if MAXPKT <? Z.of_nat (length data) + 8 - 1 then take (Z.to_nat (MAXPKT - 8 + 1)) data else data in
  if encryption_disabled || existsb (Z.eqb flags) [CMD_CHALLENGE; CMD_LOGIN; CMD_DENY; CMD_AUTH_OK; CMD_KEEPALIVE]
  then Some ([ToUdp (in_a p) (flags :: data)], mycounter)
  else
    '(data, mycounter) ←
      (if flags =? PKT_DATA then
         let (ts, mycounter) := set_timestamp mycounter in
         crc ← crc32 tab (data ++ ts);
         if MAXPKT <? Z.of_nat (length (data ++ ts ++ crc)) then None else Some (data ++ ts ++ crc, mycounter)
       else Some (data, mycounter));
    match data_encrypt data p with
    | None => Some ([ToUdp (in_a p) []], mycounter)
    | Some e => if MAXPKT <? Z.of_nat (length e) + 1 then None else Some ([ToUdp (in_a p) (flags :: e)], mycounter)
    end.

(** ** The server *)

Record server := Server { peers : list peer; srv_counter : Z }.
Context (tab : list Z) (pre_shared : option (list Z)) (keyfile : list Z → key_read) (junk : timeval → list Z).
(** A buffer of [MAXPKT] bytes that is not initialised. *)
Definition raw_buffer (now : timeval) : list Z := resize (Z.to_nat MAXPKT) 0 (junk now).

Definition getpeer (a : sockaddr) (l : list peer) : option peer := List.find (λ p, bool_decide (in_a p = a)) l.
Fixpoint putpeer (p : peer) (l : list peer) : list peer :=
  match l with
  | [] => []
  | q :: l => if bool_decide (in_a q = in_a p) then p :: l else q :: putpeer p l
  end.

Definition set_expire (now : timeval) (cmd : Z) (p : peer) : peer :=
  set_expiry p (now.1 + (if cmd =? EXPIRE_NOW then PRELOGIN_TIMEOUT else if cmd =? CMD_CHALLENGE then CHALLENGE_TIMEOUT
                         else if cmd =? CMD_LOGIN then PRELOGIN_TIMEOUT else SESSION_TIMEOUT), 0).

(** The expired peer that comes first is removed. *)
Fixpoint clean_peerlist (now : timeval) (l : list peer) : list peer :=
  match l with
  | [] => []
  | p :: nxt => if after now (expire p) then nxt else p :: clean_peerlist now nxt
  end.

Definition access_denied : list Z := (ascii_z <$> list_ascii_of_string "Access Denied.") ++ [0].
Definition deny_access (now : timeval) (n : Z) (p : peer) : option (peer * list cc_out * Z) :=
  '(o, n) ← send_udp tab n access_denied p CMD_DENY;
  Some (set_expire now EXPIRE_NOW (set_state p ST_CLOSED), o, n).

(** A challenge goes out unless the read fails; when the open fails it is the
    old one. *)
Definition send_challenge (rnd : urandom) (n : Z) (p : peer) : option (peer * list cc_out * Z) :=
  let p := match rnd with RandomBytes l => set_challenge p (overlay 128 l (challenge p)) | _ => p end in
  '(o, n) ← match rnd with
            | ReadFailed => Some ([], n)
            | _ => send_udp tab n (challenge p) p (Z.lor PKT_CTL CMD_CHALLENGE)
            end;
  Some (set_state p ST_CHALLENGE, o, n).

Definition send_auth_ok (now : timeval) (n : Z) (p : peer) : option (peer * list cc_out * Z) :=
  '(o, n) ← send_udp tab n [] p CMD_AUTH_OK;
  Some (set_expire now CMD_AUTH_OK (set_plug (set_state p ST_AUTH) true), o, n).

Definition key_name (name : list Z) : list Z :=
  take 126 ((ascii_z <$> list_ascii_of_string "/tmp/.") ++ name ++ (ascii_z <$> list_ascii_of_string ".key")).
Definition rcv_login (now : timeval) (rnd : urandom) (pkt : list Z) (n : Z) (p : peer) : option (peer * list cc_out * Z) :=
  filename ← match pre_shared with Some f => Some (take 126 f) | None => name ← cstring (drop 1 pkt); Some (key_name name) end;
  match keyfile filename with
  | NoKey => deny_access now n p
  | KeyOnly k => deny_access now n (set_keys p (overlay 16 k (key p)) (iv p))
  | KeyBoth k v =>
    let p := set_id (set_keys p (overlay 16 k (key p)) (overlay 8 v (iv p))) (slice pkt 1 FILENAMESIZE) in
    '(p, o, n) ← send_challenge rnd n p;
    Some (set_expire now CMD_CHALLENGE p, o, n)
  end.

(** The decrypted answer is compared in a buffer whose rest is not initialised. *)
Definition rcv_response (now : timeval) (pkt : list Z) (len n : Z) (p : peer) : option (peer * list cc_out * Z) :=
  '(rlen, response) ← data_decrypt (raw_buffer now) pkt len p;
  same ← (if 0 <? default (-1) rlen then strncmp_eq 128 response (challenge p) else Some false);
  if same : bool then send_auth_ok now n (set_state p ST_AUTH) else deny_access now n p.

(** A datagram for a peer: the [switch] of [cryptcab_server]. *)
Definition server_udp (now : timeval) (rnd : urandom) (pkt : list Z) (len : Z) (n : Z) (p : peer) : option (peer * list cc_out * Z) :=
  cmd ← head pkt;
  let c := state p + cmd in
  if c =? ST_AUTH + PKT_DATA then
    d ← data_decrypt (raw_buffer now) pkt len p;
    Some (set_expire now CMD_KEEPALIVE p, ToPlug (in_a p) <$> decrypted_frame d, n)
  else if c =? ST_AUTH + CMD_KEEPALIVE then Some (set_expire now CMD_KEEPALIVE p, [], n)
  else if (c =? ST_AUTH + CMD_LOGIN) || (c =? ST_CLOSED + CMD_LOGIN) then
    let p := if c =? ST_AUTH + CMD_LOGIN then set_expire now EXPIRE_NOW p else p in
    rcv_login now rnd pkt n (set_counter (set_state p ST_OPENING) 0)
  else if c =? ST_CHALLENGE + CMD_RESPONSE then rcv_response now pkt len n p
  else if negb (state p =? ST_AUTH) then deny_access now n p
  else send_auth_ok now n p.

(** [stale] is what the packets before left in the buffer. *)
Inductive srv_event :=
  | SrvUdp (now : timeval) (rnd : urandom) (stale : list Z) (src : sockaddr) (d : list Z)
  | SrvVde (a : sockaddr) (d : list Z)
  | SrvTimeout (now : timeval).

Definition into_buffer (d stale : list Z) : list Z := d ++ drop (length d) stale.
Definition new_peer (now : timeval) (a : sockaddr) : peer :=
  set_expire now CMD_LOGIN (Peer 0 (replicate 16 0) (replicate 8 0) (replicate 16 0) (replicate 128 0) a (0, 0) ST_CLOSED false).

(** One turn of the loop of [cryptcab_server]. *)
Definition server_step (ev : srv_event) (s : server) : option (server * list cc_out) :=
  match ev with
  | SrvTimeout now => Some (Server (clean_peerlist now (peers s)) (srv_counter s), [])
  | SrvVde a d =>
    let d := take (Z.to_nat MAXPKT) d in
    match getpeer a (peers s) with
    | Some p =>
      if plug p && negb (bool_decide (d = [])) && (state p =? ST_AUTH) then
        '(o, n) ← send_udp tab (srv_counter s) d p PKT_DATA; Some (Server (peers s) n, o)
      else Some (s, [])
    | None => Some (s, [])
    end
  | SrvUdp now rnd stale src d =>
    let d := take (Z.to_nat MAXPKT) d in
    let l := match getpeer src (peers s) with Some _ => peers s | None => new_peer now src :: peers s end in
    p ← getpeer src l;
    '(p, o, n) ← server_udp now rnd (into_buffer d stale) (Z.of_nat (length d)) (srv_counter s) p;
    Some (Server (putpeer p l) n, o)
  end.

(** ** The client *)

(** [last_login_time] is in seconds. *)
Record client := Client { cpeer : peer; cli_counter : Z; last_login : Z; last_out : timeval }.
Context (keepalives : bool).

Definition try_to_login (now : timeval) (c : client) : option (client * list cc_out) :=
  if (now.1 <? last_login c) || (now.1 - last_login c <? 5) then Some (c, []) else
  '(o, n) ← send_udp tab (cli_counter c) (id (cpeer c)) (cpeer c) CMD_LOGIN;
  Some (Client (cpeer c) n now.1 (last_out c), o).

(** [generate_and_xmit]: the key, the vector and the name of the new file, in a
    structure that is cleared; without them the program ends. *)
Definition fresh_peer (a : sockaddr) (k v name : list Z) : peer :=
  Peer 0 k v (name ++ replicate (16 - length name) 0) (replicate 128 0) a (0, 0) ST_OPENING false.

Inductive cli_event :=
  | CliUdp (now : timeval) (gen : list Z * list Z * list Z) (stale : list Z) (src : sockaddr) (d : list Z)
  | CliVde (now : timeval) (d : list Z)
  | CliTick (now : timeval).

Definition client_udp (now : timeval) (gen : list Z * list Z * list Z) (pkt : list Z) (len : Z) (c : client) : option (client * list cc_out) :=
  cmd ← head pkt;
  let p := cpeer c in
  let k := state p + cmd in
  if k =? ST_OPENING + CMD_CHALLENGE then
    if len <? 1 then None else
    '(o, n) ← send_udp tab (cli_counter c) (slice pkt 1 (len - 1)) p CMD_RESPONSE;
    Some (Client (set_state p ST_WAIT_AUTH) n (last_login c) (last_out c), o)
  else if k =? ST_WAIT_AUTH + CMD_AUTH_OK then Some (Client (set_state p ST_AUTH) (cli_counter c) (last_login c) (last_out c), [])
  else if k =? ST_AUTH + PKT_DATA then
    d ← data_decrypt (raw_buffer now) pkt len p;
    Some (c, ToPlug (in_a p) <$> decrypted_frame d)
  else if (k =? ST_OPENING + CMD_DENY) || (k =? ST_WAIT_AUTH + CMD_DENY) || (k =? ST_AUTH + CMD_DENY) then
    let '(ky, v, name) := gen in
    try_to_login now (Client (fresh_peer (in_a p) ky v name) (cli_counter c) (last_login c) (last_out c))
  else Some (c, []).

(** The keepalive of [recv_datagram], after every wait.  [after] is a macro whose
    conditional takes in what follows it: in the second in which the times agree
    the state is not looked at. *)
Definition keepalive (now : timeval) (c : client) : option (client * list cc_out) :=
  if (if now.1 - KEEPALIVE_INTERVAL =? (last_out c).1 then (last_out c).2 <? now.2
      else ((last_out c).1 <? now.1 - KEEPALIVE_INTERVAL) && (state (cpeer c) =? ST_AUTH)) && keepalives then
    '(o, n) ← send_udp tab (cli_counter c) [] (cpeer c) CMD_KEEPALIVE;
    Some (Client (cpeer c) n (last_login c) now, o)
  else Some (c, []).

Definition client_step (ev : cli_event) (c : client) : option (client * list cc_out) :=
  match ev with
  | CliTick now => keepalive now c
  | CliVde now d =>
    '(c, o1) ← keepalive now c;
    let d := take (Z.to_nat MAXPKT) d in
    if bool_decide (d = []) then Some (c, o1)
    else if state (cpeer c) =? ST_AUTH then
      '(o2, n) ← send_udp tab (cli_counter c) d (cpeer c) PKT_DATA;
      Some (Client (cpeer c) n (last_login c) now, o1 ++ o2)
    else '(c, o2) ← try_to_login now c; Some (c, o1 ++ o2)
  | CliUdp now gen stale src d =>
    '(c, o1) ← keepalive now c;
    let d := take (Z.to_nat MAXPKT) d in
    if negb (src.1 =? (in_a (cpeer c)).1) then Some (c, o1) else
    '(c, o2) ← client_udp now gen (into_buffer d stale) (Z.of_nat (length d)) c; Some (c, o1 ++ o2)
  end.
End Cable.

(** ** The server lets in only who answers the challenge *)

Section ServerSafety.
Context (evp_encrypt evp_update evp_final : list Z → list Z → list Z → option (list Z)) (encryption_disabled : bool).
Context (tab : list Z) (pre_shared : option (list Z)) (keyfile : list Z → key_read) (junk : timeval → list Z).

#[local] Abbreviation decrypted := (data_decrypt evp_update evp_final encryption_disabled).
#[local] Abbreviation step := (server_step evp_encrypt evp_update evp_final encryption_disabled tab pre_shared keyfile junk).
#[local] Abbreviation handle := (server_udp evp_encrypt evp_update evp_final encryption_disabled tab pre_shared keyfile junk).
#[local] Abbreviation send := (send_udp evp_encrypt encryption_disabled tab).

(** The answer in [m] agrees with the challenge [ch]: in all of its 128 bytes, or in
    those up to and including a zero byte. *)
Definition agrees (ch m : list Z) : Prop :=
  ∃ n, (n ≤ 128)%nat ∧ (n ≤ length ch)%nat ∧ take n m = take n ch ∧ (n = 128%nat ∨ ∃ k, n = S k ∧ ch !! k = Some 0).

Lemma strncmp_agrees n m ch : strncmp_eq n m ch = Some true →
  ∃ k, (k ≤ n)%nat ∧ (k ≤ length ch)%nat ∧ take k m = take k ch ∧ (k = n ∨ ∃ j, k = S j ∧ ch !! j = Some 0).
Proof.
  revert m ch. induction n as [|n IH]; intros m ch H; [exists O; split_and!; [lia | lia | done | by left]|].
  destruct m as [|x m], ch as [|y ch]; try done. cbn [strncmp_eq] in H. destruct (Z.eqb_spec x y) as [->|]; [|done].
  destruct (Z.eqb_spec y 0) as [->|Hy].
  - exists 1%nat. split_and!; [lia | cbn; lia | done | right; by exists O].
  - destruct (IH m ch H) as (k & H1 & H2 & H3 & H4). exists (S k). cbn [length take]. split_and!; [lia | lia | by rewrite H3 |].
    destruct H4 as [->|(j & -> & Hj)]; [by left | right; by exists (S j)].
Qed.

(** The packet, decrypted with the peer's key into memory that is not initialised, is
    an answer to its challenge. *)
Definition answers (now : timeval) (pkt : list Z) (len : Z) (p : peer) : Prop :=
  state p = ST_CHALLENGE ∧ head pkt = Some CMD_RESPONSE ∧
  ∃ rlen m, decrypted (raw_buffer junk now) pkt len p = Some (Some rlen, m) ∧ 0 < rlen ∧ agrees (challenge p) m.

Definition known_state (p : peer) : Prop := (state p = ST_CLOSED ∨ state p = ST_CHALLENGE ∨ state p = ST_AUTH) ∧ length (challenge p) = 128%nat.

(** What one packet can do to a peer [p]: [q] and [os] are the peer and the output. *)
Record handled (now : timeval) (pkt : list Z) (len : Z) (p q : peer) (os : list cc_out) : Prop := {
  h_addr : in_a q = in_a p;
  h_state : known_state q;
  h_auth : state q = ST_AUTH → (state p = ST_AUTH ∨ answers now pkt len p) ∧ key q = key p ∧ iv q = iv p;
  h_challenge : state q = ST_CHALLENGE → ToUdp (in_a q) (CMD_CHALLENGE :: challenge q) ∈ os;
  h_plug : ∀ a d, ToPlug a d ∈ os → a = in_a p ∧ state p = ST_AUTH;
  h_udp : ∀ a d, ToUdp a d ∈ os → a = in_a p ∧ head d ≠ Some PKT_DATA
}.

Lemma send_udp_out n d p flags os n' : flags ≠ PKT_DATA → send n d p flags = Some (os, n') →
  (∀ a m, ToPlug a m ∉ os) ∧ ∀ a m, ToUdp a m ∈ os → a = in_a p ∧ head m ≠ Some PKT_DATA.
Proof.
  intros Hf. unfold send_udp. destruct (encryption_disabled || _).
  - intros [= <- <-]. split; [set_solver|]. intros a m [= -> ->]%list_elem_of_singleton. split; [done|]. cbn. congruence.
  - destruct (Z.eqb_spec flags PKT_DATA); [done|]. cbn [mbind option_bind]. destruct (data_encrypt _ _ _ _) as [e|].
    + destruct (_ <? _); [done|]. intros [= <- <-]. split; [set_solver|]. intros a m [= -> ->]%list_elem_of_singleton. split; [done|]. cbn. congruence.
    + intros [= <- <-]. split; [set_solver|]. intros a m [= -> ->]%list_elem_of_singleton. by split.
Qed.

Lemma deny_access_handled now n p p0 q os n' pkt len : in_a p = in_a p0 → length (challenge p) = 128%nat →
  deny_access evp_encrypt encryption_disabled tab now n p = Some (q, os, n') → handled now pkt len p0 q os.
Proof.
  intros Ea Hl. unfold deny_access. destruct (send n access_denied p CMD_DENY) as [[o m]|] eqn:E; [|done]. cbn [mbind option_bind]. intros [= <- <- <-].
  apply send_udp_out in E as [Hp Hu]; [|done]. split; [done | by split; [left|] | done | done | set_solver|]. intros a d Hd. rewrite <- Ea. by apply Hu.
Qed.

Lemma send_auth_ok_spec now n p q os n' : send_auth_ok evp_encrypt encryption_disabled tab now n p = Some (q, os, n') →
  in_a q = in_a p ∧ state q = ST_AUTH ∧ key q = key p ∧ iv q = iv p ∧ challenge q = challenge p ∧ (∀ a m, ToPlug a m ∉ os) ∧ ∀ a m, ToUdp a m ∈ os → a = in_a p ∧ head m ≠ Some PKT_DATA.
Proof.
  unfold send_auth_ok. destruct (send n [] p CMD_AUTH_OK) as [[o m]|] eqn:E; [|done]. cbn [mbind option_bind]. intros [= <- <- <-].
  apply send_udp_out in E as [Hp Hu]; [|done]. done.
Qed.

(** A challenge goes out, in the clear. *)
Lemma send_challenge_sends rnd n p q os n' : rnd ≠ ReadFailed → length (challenge p) = 128%nat →
  send_challenge evp_encrypt encryption_disabled tab rnd n p = Some (q, os, n') →
  in_a q = in_a p ∧ state q = ST_CHALLENGE ∧ length (challenge q) = 128%nat ∧ os = [ToUdp (in_a q) (CMD_CHALLENGE :: challenge q)].
Proof.
  intros Hr Hl. unfold send_challenge. set (p2 := match rnd with RandomBytes _ => _ | _ => _ end).
  assert (in_a p2 = in_a p ∧ length (challenge p2) = 128%nat) as [Ea Hl2].
  { unfold p2. destruct rnd as [| |l]; [done..|]. cbn [in_a set_challenge challenge]. split; [done|].
    unfold overlay. rewrite length_app, length_drop, length_take. lia. }
  assert (send n (challenge p2) p2 (Z.lor PKT_CTL CMD_CHALLENGE) = Some ([ToUdp (in_a p2) (CMD_CHALLENGE :: challenge p2)], n)) as Es.
  { unfold send_udp. rewrite Hl2. change (MAXPKT <? Z.of_nat 128 + 8 - 1) with false. cbv iota.
    change (Z.lor PKT_CTL CMD_CHALLENGE) with CMD_CHALLENGE. change (existsb (Z.eqb CMD_CHALLENGE) _) with true. by rewrite orb_true_r. }
  destruct rnd; [..|done|]; rewrite ?Es; cbn [mbind option_bind]; intros [= <- <- <-]; done.
Qed.

Lemma rcv_login_handled now rnd pkt len n p p0 q os n' : rnd ≠ ReadFailed → in_a p = in_a p0 → length (challenge p) = 128%nat →
  rcv_login evp_encrypt encryption_disabled tab pre_shared keyfile now rnd pkt n p = Some (q, os, n') → handled now pkt len p0 q os.
Proof.
  intros Hr Ea Hl. unfold rcv_login. intros (fn & _ & E)%bind_Some. destruct (keyfile fn) as [|k|k v]; [by eapply deny_access_handled | eapply deny_access_handled; [| |exact E]; done |].
  apply bind_Some in E as ([[q1 o1] m1] & E & [= <- <- <-]). apply send_challenge_sends in E as (E1 & E2 & E3 & ->); [|done|done].
  split; cbn [in_a state challenge set_expire set_expiry].
  - rewrite E1. exact Ea.
  - split; [right; left; exact E2 | exact E3].
  - unfold set_expire. cbn [state set_expiry]. rewrite E2. done.
  - intros _. by left.
  - intros a d Hd. by apply list_elem_of_singleton in Hd.
  - intros a d [= -> ->]%list_elem_of_singleton. split; [rewrite E1; exact Ea | done].
Qed.

Lemma rcv_response_handled now pkt len n p q os n' : state p = ST_CHALLENGE → length (challenge p) = 128%nat → head pkt = Some CMD_RESPONSE →
  rcv_response evp_encrypt evp_update evp_final encryption_disabled tab junk now pkt len n p = Some (q, os, n') → handled now pkt len p q os.
Proof.
  intros Hst Hl Hh. unfold rcv_response. intros ([rlen m] & Er & E)%bind_Some.
  apply bind_Some in E as (same & Es & E). destruct same; [|by eapply deny_access_handled].
  destruct (Z.ltb_spec 0 (default (-1) rlen)) as [Hpos|]; [|done]. destruct rlen as [rlen|]; [|cbn in Hpos; lia].
  apply send_auth_ok_spec in E as (E1 & E2 & E3 & E4 & E5 & Hp & Hu). split; [done | | | by rewrite E2 | set_solver | done].
  - split; [by right; right|]. by rewrite E5.
  - intros _. split; [|done]. right. split; [done|]. split; [done|]. exists rlen, m. split; [done|]. split; [done | by apply strncmp_agrees].
Qed.

Lemma server_udp_handled now rnd pkt len n p q os n' : rnd ≠ ReadFailed → known_state p → Forall byteP pkt →
  handle now rnd pkt len n p = Some (q, os, n') → handled now pkt len p q os.
Proof.
  intros Hr [Hst Hl] Hb E. unfold server_udp in E. apply bind_Some in E as (cmd & Hc & E).
  assert (byteP cmd) as Hcb by (destruct pkt; [done|]; injection Hc as ->; by apply Forall_cons in Hb as [? _]).
  unfold byteP, ST_CLOSED, ST_CHALLENGE, ST_AUTH in *.
  assert (∀ x, state x = 0x400 → state x = ST_CHALLENGE → False) as Hac by (intros x H1 H2; rewrite H1 in H2; discriminate).
  destruct (Z.eqb_spec (state p + cmd) (0x400 + PKT_DATA)) as [E1|N1].
  { assert (state p = 0x400) as Hs by (unfold PKT_DATA in *; lia). apply bind_Some in E as (d & _ & [= <- <- <-]).
    split; [done | by split; [right; right|] | by split; [left|] | by intros ?%Hac | |].
    - intros a m (x & [= -> ->] & _)%list_elem_of_fmap. done.
    - intros a m (x & ? & _)%list_elem_of_fmap. done. }
  destruct (Z.eqb_spec (state p + cmd) (0x400 + CMD_KEEPALIVE)) as [E2|N2].
  { assert (state p = 0x400) as Hs by (unfold CMD_KEEPALIVE in *; lia). injection E as <- <- <-. split; [done | by split; [right; right|] | by split; [left|] | by intros ?%Hac | set_solver | set_solver]. }
  destruct ((state p + cmd =? 0x400 + CMD_LOGIN) || (state p + cmd =? 0x100 + CMD_LOGIN)).
  { eapply rcv_login_handled; [done | | |exact E]; by destruct (_ =? _). }
  destruct (Z.eqb_spec (state p + cmd) (0x300 + CMD_RESPONSE)) as [E3|N3].
  { eapply rcv_response_handled; [|done| |exact E]; unfold CMD_RESPONSE, ST_CHALLENGE in *; [lia|]. rewrite Hc. f_equal. lia. }
  destruct (Z.eqb_spec (state p) 0x400) as [E4|N4]; cbn [negb] in E; [|by eapply deny_access_handled].
  apply send_auth_ok_spec in E as (H1 & H2 & H3 & H4 & H5 & Hp & Hu). split; [done | | by split; [left|] | by intros ?%Hac | set_solver | done].
  split; [by right; right | by rewrite H5].
Qed.

(** *** The list of peers *)

Definition server_inv (s : server) : Prop := NoDup (in_a <$> peers s) ∧ Forall known_state (peers s).

Lemma getpeer_Some a l p : getpeer a l = Some p → p ∈ l ∧ in_a p = a.
Proof. intros [Hin Hd]%List.find_some. apply bool_decide_eq_true in Hd. split; [by apply list_elem_of_In | done]. Qed.
Lemma getpeer_None a l : getpeer a l = None → a ∉ in_a <$> l.
Proof.
  intros Hn (p & -> & Hp)%list_elem_of_fmap. apply list_elem_of_In in Hp. pose proof (List.find_none _ _ Hn p Hp) as H. by apply bool_decide_eq_false in H.
Qed.
Lemma putpeer_addrs p l : in_a <$> putpeer p l = in_a <$> l.
Proof.
  induction l as [|q l IH]; [done|]. cbn [putpeer]. destruct (bool_decide (in_a q = in_a p)) eqn:E; rewrite !fmap_cons; [|by rewrite IH].
  apply bool_decide_eq_true in E. by rewrite E.
Qed.
Lemma putpeer_elem p l q : NoDup (in_a <$> l) → q ∈ putpeer p l → q = p ∨ (q ∈ l ∧ in_a q ≠ in_a p).
Proof.
  induction l as [|x l IH]; [by intros _ ?%elem_of_nil|]. rewrite fmap_cons, NoDup_cons. intros [Hx Hnd]. cbn [putpeer].
  destruct (bool_decide (in_a x = in_a p)) eqn:E.
  - apply bool_decide_eq_true in E. intros [-> | Hq]%elem_of_cons; [by left|]. right. split; [by right|]. intros Ep. apply Hx. rewrite E, <- Ep. apply list_elem_of_fmap. eauto.
  - apply bool_decide_eq_false in E. intros [-> | Hq]%elem_of_cons; [right; split; [by left | done]|]. destruct (IH Hnd Hq) as [?|[? ?]]; [by left | right; split; [by right | done]].
Qed.
Lemma clean_sublist now l : sublist (clean_peerlist now l) l.
Proof. induction l as [|p l IH]; cbn [clean_peerlist]; [done|]. case_match; [by apply sublist_cons | by apply sublist_skip]. Qed.

(** Packets are bytes, and [read] of [/dev/urandom] does not fail. *)
Definition event_ok (ev : srv_event) : Prop := match ev with SrvUdp _ rnd stale _ d => rnd ≠ ReadFailed ∧ Forall byteP stale ∧ Forall byteP d | _ => True end.

Lemma into_buffer_bytes d stale : Forall byteP d → Forall byteP stale → Forall byteP (into_buffer d stale).
Proof. intros Hd Hs. apply Forall_app_2; [done|]. by apply Forall_drop. Qed.

(** The packet a peer sent in this turn. *)
Definition arrived (ev : srv_event) (a : sockaddr) (now : timeval) (pkt : list Z) (len : Z) : Prop :=
  ∃ rnd stale d, ev = SrvUdp now rnd stale a d ∧ pkt = into_buffer (take (Z.to_nat MAXPKT) d) stale ∧ len = Z.of_nat (length (take (Z.to_nat MAXPKT) d)).

(** One turn of the server. *)
Record turn_facts (ev : srv_event) (s s' : server) (os : list cc_out) : Prop := {
  t_inv : server_inv s';
  t_auth : ∀ q, q ∈ peers s' → state q = ST_AUTH → ∃ p, p ∈ peers s ∧ in_a p = in_a q ∧ key p = key q ∧ iv p = iv q ∧
     (state p = ST_AUTH ∨ ∃ now pkt len, arrived ev (in_a q) now pkt len ∧ answers now pkt len p);
  t_challenge : ∀ q, q ∈ peers s' → state q = ST_CHALLENGE → q ∈ peers s ∨ ToUdp (in_a q) (CMD_CHALLENGE :: challenge q) ∈ os;
  t_plug : ∀ a d, ToPlug a d ∈ os → ∃ p, p ∈ peers s ∧ in_a p = a ∧ state p = ST_AUTH;
  t_udp : ∀ a d, ToUdp a d ∈ os → head d = Some PKT_DATA → ∃ p, p ∈ peers s ∧ in_a p = a ∧ state p = ST_AUTH
}.

(** Turns in which no peer changes, and some may go. *)
Lemma turn_quiet ev s s' : server_inv s → sublist (peers s') (peers s) → turn_facts ev s s' [].
Proof.
  intros [Hnd Hks] Hsub. split; [| | |set_solver|set_solver].
  - split; [eapply sublist_NoDup; [exact Hnd | by apply fmap_sublist]|]. rewrite Forall_forall in *. intros x Hx. apply Hks. by eapply sublist_elem.
  - intros q Hq Hs. exists q. split; [by eapply sublist_elem|]. by split_and!; [..|left].
  - intros q Hq _. left. by eapply sublist_elem.
Qed.

(** A packet of the network. *)
Lemma turn_packet now rnd stale src d s s' os : server_inv s → event_ok (SrvUdp now rnd stale src d) →
  step (SrvUdp now rnd stale src d) s = Some (s', os) → turn_facts (SrvUdp now rnd stale src d) s s' os.
Proof.
  intros [Hnd Hks] (Hrnd & Hst & Hd) E. cbn [server_step] in E.
  set (d' := take (Z.to_nat MAXPKT) d) in *. set (l := match getpeer src (peers s) with Some _ => _ | None => _ end) in E.
  assert (NoDup (in_a <$> l) ∧ Forall known_state l ∧ ∀ p, p ∈ l → p ∈ peers s ∨ state p = ST_CLOSED) as (Hndl & Hkl & Hl).
  { unfold l. destruct (getpeer src (peers s)) as [p|] eqn:Eg; [auto|]. apply getpeer_None in Eg.
    split_and!; [by constructor | by constructor; [split; [left|]|] |]. intros p [-> | Hp]%elem_of_cons; [by right | by left]. }
  apply bind_Some in E as (p & Eg & E). apply getpeer_Some in Eg as [Hp Ea]. apply bind_Some in E as ([[q o] m] & E & [= <- <-]).
  assert (known_state p) as Hkp by (rewrite Forall_forall in Hkl; by apply Hkl).
  apply server_udp_handled in E as [Hqa Hqs Hauth Hch Hplug Hudp]; [|done|done|apply into_buffer_bytes; [by apply Forall_take | done]].
  assert (∀ x, x ∈ l → state x ≠ ST_CLOSED → x ∈ peers s) as Hold by (intros x Hx Hn; by destruct (Hl x Hx)).
  split; cbn [peers].
  - unfold server_inv. cbn [peers]. split; [by rewrite putpeer_addrs|]. apply Forall_forall. intros x [-> | [Hx _]]%putpeer_elem; [done | | done]. rewrite Forall_forall in Hkl. by apply Hkl.
  - intros x [-> | [Hx Hne]]%putpeer_elem Hs; [| |done].
    + destruct (Hauth Hs) as ([H1|H1] & H2 & H3); exists p.
      * split; [apply Hold; [done | by rewrite H1]|]. split_and!; [done..|by left].
      * split; [apply Hold; [done | rewrite (proj1 H1); done]|]. split_and!; [done..|]. right. do 3 eexists. split; [|exact H1].
        exists rnd, stale, d. split; [by rewrite Hqa, Ea|]. by split.
    + exists x. split; [apply Hold; [done | by rewrite Hs]|]. by split_and!; [..|left].
  - intros x [-> | [Hx Hne]]%putpeer_elem Hs; [right; by apply Hch | left; apply Hold; [done | by rewrite Hs] | done].
  - intros a x Hm. destruct (Hplug a x Hm) as [-> Hs]. exists p. split; [apply Hold; [done | by rewrite Hs] | done].
  - intros a x Hm Hh. by destruct (Hudp a x Hm) as [_ ?].
Qed.

Lemma server_step_auth ev s s' os : server_inv s → event_ok ev → step ev s = Some (s', os) → turn_facts ev s s' os.
Proof.
  intros Hinv Hev E. destruct ev as [now rnd stale src d|a d|now]; [by apply turn_packet | |]; cbn [server_step] in E.
  - destruct (getpeer a (peers s)) as [p|] eqn:Eg; [|injection E as <- <-; by apply turn_quiet].
    destruct (plug p && _ && (state p =? ST_AUTH)) eqn:Ec; [|injection E as <- <-; by apply turn_quiet].
    apply andb_true_iff in Ec as [_ Hs%Z.eqb_eq]. apply getpeer_Some in Eg as [Hp Ea]. apply bind_Some in E as ([o m] & E & [= <- <-]).
    destruct (turn_quiet (SrvVde a d) s (Server (peers s) m) Hinv) as [H1 H2 H3 _ _]; [done|].
    assert (∀ x, x ∈ o → ∃ y, x = ToUdp (in_a p) y) as Ho.
    { revert E. unfold send_udp. destruct (encryption_disabled || _); [intros [= <- <-] x ->%list_elem_of_singleton; eauto|]. intros ([dd mm] & _ & E)%bind_Some.
      destruct (data_encrypt _ _ _ _); [destruct (_ <? _); [done|]|]; injection E as <- <-; intros x ->%list_elem_of_singleton; eauto. }
    split; [done | done | intros q Hq _; by left | |]; intros b x Hx; destruct (Ho _ Hx) as [y Ey]; [done|]. injection Ey as -> _. intros _. by exists p.
  - injection E as <- <-. apply turn_quiet; [done | apply clean_sublist].
Qed.

Fixpoint server_run (evs : list srv_event) (s : server) : option (server * list cc_out) :=
  match evs with
  | [] => Some (s, [])
  | ev :: evs => '(s, o1) ← step ev s; '(s, o2) ← server_run evs s; Some (s, o1 ++ o2)
  end.

Lemma server_run_snoc evs ev s s' os : server_run (evs ++ [ev]) s = Some (s', os) →
  ∃ s1 o1 o2, server_run evs s = Some (s1, o1) ∧ step ev s1 = Some (s', o2) ∧ os = o1 ++ o2.
Proof.
  revert s os. induction evs as [|e evs IH]; intros s os; cbn [app server_run].
  - intros ([s1 o1] & E1 & [= <- <-])%bind_Some. exists s, [], o1. by rewrite app_nil_r.
  - intros ([s1 o1] & E1 & E)%bind_Some. apply bind_Some in E as ([s2 o2] & E2 & [= <- <-]).
    destruct (IH s1 o2 E2) as (s3 & o3 & o4 & E3 & E4 & ->). exists s3, (o1 ++ o3), o4. rewrite E1. cbn [mbind option_bind]. rewrite E3.
    split; [done|]. split; [done | apply app_assoc].
Qed.

(** After the events [evs] the server answers [ev] with the challenge [ch] to [a]. *)
Definition challenge_sent (evs : list srv_event) (ev : srv_event) (s0 : server) (a : sockaddr) (ch : list Z) : Prop :=
  ∃ s1 o1 s2 o2, server_run evs s0 = Some (s1, o1) ∧ step ev s1 = Some (s2, o2) ∧ ToUdp a (CMD_CHALLENGE :: ch) ∈ o2.

(** In the course of the events the server sent a challenge to [a], and a later packet
    from [a] answered this challenge under the key [k] and vector [v]. *)
Definition answered (evs : list srv_event) (s0 : server) (a : sockaddr) (k v : list Z) : Prop :=
  ∃ evs1 ev1 evs2 ev2 evs3 p now pkt len, evs = evs1 ++ ev1 :: evs2 ++ ev2 :: evs3 ∧
    in_a p = a ∧ key p = k ∧ iv p = v ∧
    challenge_sent evs1 ev1 s0 a (challenge p) ∧ arrived ev2 a now pkt len ∧ answers now pkt len p.

Lemma answered_snoc evs ev s0 a k v : answered evs s0 a k v → answered (evs ++ [ev]) s0 a k v.
Proof.
  intros (e1 & x1 & e2 & x2 & e3 & p & now & pkt & len & -> & H). exists e1, x1, e2, x2, (e3 ++ [ev]), p, now, pkt, len.
  split; [|done]. by rewrite <- app_assoc, <- !app_comm_cons, <- app_assoc.
Qed.

(** A peer that waits for an answer was sent its challenge. *)
Definition challenged (evs : list srv_event) (s0 : server) (p : peer) : Prop :=
  ∃ evs1 ev1 evs2, evs = evs1 ++ ev1 :: evs2 ∧ challenge_sent evs1 ev1 s0 (in_a p) (challenge p).

(** The history of a server that began with [s0]. *)
Record history_ok (evs : list srv_event) (s0 s : server) (os : list cc_out) : Prop := {
  hs_inv : server_inv s;
  hs_challenge : ∀ p, p ∈ peers s → state p = ST_CHALLENGE → challenged evs s0 p;
  hs_auth : ∀ q, q ∈ peers s → state q = ST_AUTH → answered evs s0 (in_a q) (key q) (iv q);
  hs_out : ∀ a d, ToPlug a d ∈ os ∨ ToUdp a (PKT_DATA :: d) ∈ os → ∃ k v, answered evs s0 a k v
}.

Lemma history_grows evs ev s0 s s' os os' : server_run evs s0 = Some (s, os) → history_ok evs s0 s os → event_ok ev →
  step ev s = Some (s', os') → history_ok (evs ++ [ev]) s0 s' (os ++ os').
Proof.
  intros Hrun [Hinv Hc Ha Ho] Hok E. destruct (server_step_auth ev s s' os' Hinv Hok E) as [Hinv' Hauth Hch Hplug Hudp].
  assert (∀ a, (∃ p, p ∈ peers s ∧ in_a p = a ∧ state p = ST_AUTH) → ∃ k v, answered (evs ++ [ev]) s0 a k v) as Hback.
  { intros a (p & Hp & <- & Hs). exists (key p), (iv p). apply answered_snoc. by apply Ha. }
  split; [done| | |].
  - intros q Hq Hs. destruct (Hch q Hq Hs) as [Hold|Hnew].
    + destruct (Hc q Hold Hs) as (e1 & x1 & e2 & -> & H). exists e1, x1, (e2 ++ [ev]). split; [by rewrite <- app_assoc | done].
    + exists evs, ev, []. split; [done|]. by exists s, os, s', os'.
  - intros q Hq Hs. destruct (Hauth q Hq Hs) as (p & Hp & Ea & Ek & Ei & [Hsp|(now & pkt & len & Harr & Hans)]).
    + apply answered_snoc. rewrite <- Ea, <- Ek, <- Ei. by apply Ha.
    + destruct (Hc p Hp (proj1 Hans)) as (e1 & x1 & e2 & -> & Hsent). rewrite Ea in Hsent.
      exists e1, x1, e2, ev, [], p, now, pkt, len. split_and!; [by rewrite <- app_assoc | done..].
  - intros a d [[Hd|Hd]%elem_of_app|[Hd|Hd]%elem_of_app].
    + destruct (Ho a d (or_introl Hd)) as (k & v & Hk). exists k, v. by apply answered_snoc.
    + apply Hback. by eapply Hplug.
    + destruct (Ho a d (or_intror Hd)) as (k & v & Hk). exists k, v. by apply answered_snoc.
    + apply Hback. by eapply (Hudp a (PKT_DATA :: d)).
Qed.

End ServerSafety.

(** ** The handshake *)

(** What the block cipher with padding promises: encrypted data is of whole blocks of
    eight bytes, at least one byte longer; decrypting it, the update gives all but
    the last block, and the final call what the last one holds. *)
Definition cipher_ok (evp_encrypt evp_update evp_final : list Z → list Z → list Z → option (list Z)) : Prop :=
  ∀ k v m, m ≠ [] → (length m ≤ 1900)%nat →
    ∃ e, evp_encrypt k v m = Some e ∧ (length e `mod` 8 = 0)%nat ∧ (length m < length e ≤ length m + 8)%nat ∧
      evp_update k v e = Some (take (length e - 8) m) ∧ evp_final k v e = Some (drop (length e - 8) m).

Lemma strncmp_refl n m junk : (n ≤ length m)%nat → strncmp_eq n (m ++ junk) m = Some true.
Proof.
  revert m. induction n as [|n IH]; intros m Hn; [done|]. destruct m as [|x m]; [cbn in Hn; lia|]. cbn [strncmp_eq app].
  rewrite Z.eqb_refl. destruct (x =? 0); [done|]. apply IH. cbn in Hn. lia.
Qed.
Lemma cstring_padded name r : 0 ∉ name → cstring (name ++ 0 :: r) = Some name.
Proof.
  induction name as [|c name IH]; intros Hn; [done|]. apply not_elem_of_cons in Hn as [Hc Hn]. cbn [cstring app].
  destruct (Z.eqb_spec c 0); [lia|]. by rewrite IH.
Qed.

Lemma getpeer_head p l a : in_a p = a → getpeer a (p :: l) = Some p.
Proof. intros Ha. unfold getpeer. cbn [List.find]. by rewrite bool_decide_eq_true_2. Qed.
Lemma putpeer_head p q l : in_a q = in_a p → putpeer p (q :: l) = p :: l.
Proof. intros Ha. cbn [putpeer]. by rewrite bool_decide_eq_true_2. Qed.
Lemma into_buffer_slice flag d stale : slice (into_buffer (flag :: d) stale) 1 (Z.of_nat (length d)) = d.
Proof. unfold slice, into_buffer. rewrite Nat2Z.id. change (Z.to_nat 1) with 1%nat. cbn [app drop]. by rewrite drop_0, take_app_length. Qed.

Section Handshake.
Context (evp_encrypt evp_update evp_final : list Z → list Z → list Z → option (list Z)) (Hcipher : cipher_ok evp_encrypt evp_update evp_final).
Context (keyfile : list Z → key_read) (junk : timeval → list Z) (keepalives : bool).
#[local] Abbreviation step := (server_step evp_encrypt evp_update evp_final false chksum_crc32gentab None keyfile junk).
#[local] Abbreviation cstep := (client_step evp_encrypt evp_update evp_final false chksum_crc32gentab junk keepalives).
#[local] Abbreviation send := (send_udp evp_encrypt false chksum_crc32gentab).

Lemma memcpy_at_eq mem o data : 0 ≤ o → o + Z.of_nat (length data) ≤ Z.of_nat (length mem) →
  memcpy_at mem o data = Some (take (Z.to_nat o) mem ++ data ++ drop (Z.to_nat o + length data) mem).
Proof. intros Ho Hl. unfold memcpy_at. by rewrite (proj2 (Z.leb_le _ _) Ho), (proj2 (Z.leb_le _ _) Hl). Qed.

Lemma raw_buffer_length now : length (raw_buffer junk now) = 2000%nat.
Proof. apply length_resize. Qed.

(** The payload of a packet of whole blocks is decrypted; of the result, what comes before the
    last block is where it belongs. *)
Lemma decrypt_payload flag e stale q d dst : (length e `mod` 8 = 0)%nat → (length d < length e ≤ length d + 8)%nat → (length d ≤ 1900)%nat → length dst = 2000%nat →
  evp_update (key q) (iv q) e = Some (take (length e - 8) d) → evp_final (key q) (iv q) e = Some (drop (length e - 8) d) →
  ∃ m, data_decrypt evp_update evp_final false dst (into_buffer (flag :: e) stale) (Z.of_nat (length (flag :: e))) q = Some (Some (Z.of_nat (length d)), m) ∧
    length m = 2000%nat ∧ take (length e - 8) m = take (length e - 8) d.
Proof.
  intros Hm He Hl Hdst Hu Hf. unfold data_decrypt, into_buffer, slice. cbn [app length]. change (Z.to_nat 1) with 1%nat. cbn [drop].
  replace (Z.to_nat (Z.of_nat (S (length e)) - 1)) with (length e) by lia. rewrite drop_0, take_app_length, Hm, Nat.sub_0_r, firstn_all, Hu, Hf.
  set (k := (length e - 8)%nat) in *. assert (length (take k d) = k) as Hk by (rewrite length_take; lia).
  rewrite memcpy_at_eq by lia. cbn [mbind option_bind]. change (Z.to_nat 0) with 0%nat. rewrite take_0. cbn [app Nat.add].
  set (m1 := take k d ++ drop (length (take k d)) dst). assert (length m1 = 2000%nat) as Hm1 by (unfold m1; rewrite length_app, length_drop; lia).
  rewrite memcpy_at_eq by (rewrite ?length_drop; lia). cbn [mbind option_bind]. eexists. split.
  { do 3 f_equal. rewrite Hk, length_drop. lia. }
  split; [rewrite !length_app, length_take, !length_drop; lia|].
  rewrite take_app_le by (rewrite length_take; lia). rewrite take_take, Nat.min_l by lia. unfold m1. rewrite take_app_le by lia. rewrite take_take. by rewrite Nat.min_id.
Qed.

(** A control packet goes out in the clear. *)
Lemma send_clear n d p flags : flags ∈ [CMD_CHALLENGE; CMD_LOGIN; CMD_DENY; CMD_AUTH_OK; CMD_KEEPALIVE] → (length d ≤ 1900)%nat →
  send n d p flags = Some ([ToUdp (in_a p) (flags :: d)], n).
Proof.
  intros Hf Hl. unfold send_udp. destruct (Z.ltb_spec MAXPKT (Z.of_nat (length d) + 8 - 1)); [unfold MAXPKT in *; lia|].
  assert (existsb (Z.eqb flags) [CMD_CHALLENGE; CMD_LOGIN; CMD_DENY; CMD_AUTH_OK; CMD_KEEPALIVE] = true) as ->; [|done].
  apply existsb_exists. exists flags. split; [by apply list_elem_of_In | apply Z.eqb_refl].
Qed.

(** An answer goes out encrypted; one of whole blocks is decrypted right with the same key. *)
Lemma send_response n d p q stale : d ≠ [] → (length d ≤ 1900)%nat → (length d `mod` 8 = 0)%nat → key q = key p → iv q = iv p →
  ∃ e, send n d p CMD_RESPONSE = Some ([ToUdp (in_a p) (CMD_RESPONSE :: e)], n) ∧ (length e ≤ 1908)%nat ∧
    ∀ now, ∃ m, data_decrypt evp_update evp_final false (raw_buffer junk now) (into_buffer (CMD_RESPONSE :: e) stale) (Z.of_nat (length (CMD_RESPONSE :: e))) q =
      Some (Some (Z.of_nat (length d)), m) ∧ take (length d) m = d.
Proof.
  intros Hd Hl H8 Hk Hv. destruct (Hcipher (key p) (iv p) d Hd Hl) as (e & Ee & Hm & He & Hu & Hf). exists e. unfold send_udp.
  destruct (Z.ltb_spec MAXPKT (Z.of_nat (length d) + 8 - 1)); [unfold MAXPKT in *; lia|]. 
  change (false || existsb (Z.eqb CMD_RESPONSE) [CMD_CHALLENGE; CMD_LOGIN; CMD_DENY; CMD_AUTH_OK; CMD_KEEPALIVE]) with false. cbv iota.
  change (CMD_RESPONSE =? PKT_DATA) with false. cbv iota. cbn [mbind option_bind]. unfold data_encrypt. rewrite Ee. destruct (Z.ltb_spec MAXPKT (Z.of_nat (length e) + 1)); [unfold MAXPKT in *; lia|].
  split; [done|]. split; [lia|]. intros now. rewrite <- Hk, <- Hv in Hu, Hf.
  destruct (decrypt_payload CMD_RESPONSE e stale q d (raw_buffer junk now) Hm He Hl (raw_buffer_length now) Hu Hf) as (m & E & _ & Et).
  exists m. split; [exact E|].
  assert (length e - 8 = length d)%nat as Hed.
  { pose proof (Nat.div_mod_eq (length e) 8). pose proof (Nat.div_mod_eq (length d) 8). lia. }
  rewrite Hed in Et. by rewrite Et, firstn_all.
Qed.

Lemma timestamp_bytes n : Forall byteP (set_timestamp n).1.
Proof.
  unfold set_timestamp. cbn [fst]. apply Forall_fmap, Forall_forall. intros i _. cbn. unfold byteP. change 0xFF with (Z.ones 8).
  rewrite Z.land_ones by lia. apply Z.mod_pos_bound. lia.
Qed.

(** A frame goes out with its counter and checksum, encrypted, and is decrypted to the frame
    and twelve bytes more. *)
Lemma send_frame n d p q stale : d ≠ [] → Forall byteP d → (length d ≤ 1800)%nat → key q = key p → iv q = iv p →
  ∃ e crc, send n d p PKT_DATA = Some ([ToUdp (in_a p) (PKT_DATA :: e)], u64 (n + 1)) ∧ (length e ≤ 1900)%nat ∧
    crc32 chksum_crc32gentab (d ++ (set_timestamp n).1) = Some crc ∧ evp_encrypt (key p) (iv p) (d ++ (set_timestamp n).1 ++ crc) = Some e ∧
    ∀ now, ∃ r t, data_decrypt evp_update evp_final false (raw_buffer junk now) (into_buffer (PKT_DATA :: e) stale) (Z.of_nat (length (PKT_DATA :: e))) q = Some r ∧
      decrypted_frame r = [d ++ t] ∧ length t = 12%nat.
Proof.
  intros Hd Hb Hl Hk Hv. set (ts := (set_timestamp n).1). assert (length ts = 8%nat) as Hts by (unfold ts, set_timestamp; cbn [fst]; by rewrite length_fmap, length_seqZ).
  destruct (crc32_bytes (d ++ ts)) as (crc & Ec & Hc4 & _ & _); [apply Forall_app_2; [done | apply timestamp_bytes]|].
  assert (length (d ++ ts ++ crc) = (length d + 12)%nat) as Hlen by (rewrite !length_app; lia).
  destruct (Hcipher (key p) (iv p) (d ++ ts ++ crc)) as (e & Ee & Hm & He & Hu & Hf); [by destruct d | lia|].
  exists e, crc. unfold send_udp. destruct (Z.ltb_spec MAXPKT (Z.of_nat (length d) + 8 - 1)); [unfold MAXPKT in *; lia|].
  change (false || existsb (Z.eqb PKT_DATA) [CMD_CHALLENGE; CMD_LOGIN; CMD_DENY; CMD_AUTH_OK; CMD_KEEPALIVE]) with false. cbv iota.
  change (PKT_DATA =? PKT_DATA) with true. cbv iota. rewrite (surjective_pairing (set_timestamp n)). fold ts. rewrite Ec. cbn [mbind option_bind].
  destruct (Z.ltb_spec MAXPKT (Z.of_nat (length (d ++ ts ++ crc)))); [unfold MAXPKT in *; lia|]. cbn [mbind option_bind]. unfold data_encrypt. rewrite Ee.
  destruct (Z.ltb_spec MAXPKT (Z.of_nat (length e) + 1)); [unfold MAXPKT in *; lia|].
  split; [done|]. split; [lia|]. split; [done|]. split; [done|]. intros now. rewrite <- Hk, <- Hv in Hu, Hf.
  destruct (decrypt_payload PKT_DATA e stale q (d ++ ts ++ crc) (raw_buffer junk now) Hm He ltac:(lia) (raw_buffer_length now) Hu Hf) as (m & E & Hml & Et).
  do 2 eexists. split; [exact E|]. unfold decrypted_frame. cbn [fst snd]. rewrite Nat2Z.id, Hlen. split.
  - rewrite Nat.add_comm, <- (take_drop (length d) (take (12 + length d) m)). rewrite take_take, Nat.min_l by lia. f_equal. f_equal.
    transitivity (take (length d) (take (length e - 8) m)); [by rewrite take_take, Nat.min_l by lia|].
    rewrite Et, take_take, Nat.min_l by lia. apply take_app_length.
  - rewrite length_drop, length_take. lia.
Qed.

Lemma keepalive_quiet now c : state (cpeer c) ≠ ST_AUTH → now.1 - KEEPALIVE_INTERVAL ≠ (last_out c).1 → keepalive evp_encrypt false chksum_crc32gentab keepalives now c = Some (c, []).
Proof. intros Hs Hn. unfold keepalive. apply Z.eqb_neq in Hs, Hn. rewrite Hn, Hs. by rewrite andb_false_r. Qed.

Lemma overlay_full n l old : length l = n → length old = n → overlay n l old = l.
Proof. intros Hl Ho. unfold overlay. rewrite firstn_all2, skipn_all2 by lia. apply app_nil_r. Qed.

Lemma short_packet (d : list Z) : (length d ≤ 2000)%nat → take (Z.to_nat MAXPKT) d = d.
Proof. intros H. apply take_ge. unfold MAXPKT. lia. Qed.

(** The server's two steps of the handshake, on the peer concerned. *)
Lemma login_step now rnd stale n name k v a ch : (length name < 16)%nat → 0 ∉ name → keyfile (key_name name) = KeyBoth k v → length k = 16%nat → length v = 8%nat →
  rnd = RandomBytes ch → length ch = 128%nat →
  let i := name ++ replicate (16 - length name) 0 in
  server_udp evp_encrypt evp_update evp_final false chksum_crc32gentab None keyfile junk now rnd (into_buffer (CMD_LOGIN :: i) stale)
    (Z.of_nat (length (CMD_LOGIN :: i))) n (new_peer now a) =
  Some (set_expire now CMD_CHALLENGE (set_state (set_challenge (set_id (set_keys (set_counter (set_state (new_peer now a) ST_OPENING) 0) k v) i) ch) ST_CHALLENGE),
        [ToUdp a (CMD_CHALLENGE :: ch)], n).
Proof.
  intros Hl Hn Hk Hk16 Hv8 -> Hch i. assert (length i = 16%nat) as Hi by (unfold i; rewrite length_app, length_replicate; lia).
  unfold server_udp. change (head (into_buffer (CMD_LOGIN :: i) stale)) with (Some CMD_LOGIN). cbn [mbind option_bind].
  change (state (new_peer now a)) with ST_CLOSED. change (ST_CLOSED + CMD_LOGIN =? ST_AUTH + PKT_DATA) with false. change (ST_CLOSED + CMD_LOGIN =? ST_AUTH + CMD_KEEPALIVE) with false.
  change (ST_CLOSED + CMD_LOGIN =? ST_AUTH + CMD_LOGIN) with false. change (ST_CLOSED + CMD_LOGIN =? ST_CLOSED + CMD_LOGIN) with true. cbn [orb]. unfold rcv_login.
  assert (cstring (drop 1 (into_buffer (CMD_LOGIN :: i) stale)) = Some name) as ->.
  { unfold into_buffer. cbn [app drop]. rewrite drop_0. unfold i. rewrite <- app_assoc. destruct (16 - length name)%nat eqn:E; [lia|]. cbn [replicate app]. by apply cstring_padded. }
  cbn [mbind option_bind]. rewrite Hk. cbn [key iv set_counter set_state]. rewrite (overlay_full 16), (overlay_full 8) by done. unfold FILENAMESIZE. change 16 with (Z.of_nat 16). rewrite <- Hi, into_buffer_slice.
  unfold send_challenge. rewrite overlay_full by done.
  change (Z.lor PKT_CTL CMD_CHALLENGE) with CMD_CHALLENGE. rewrite send_clear; [done | set_solver | cbn [challenge set_challenge]; lia].
Qed.
Lemma response_step now rnd stale n e ch p m : state p = ST_CHALLENGE → challenge p = ch → length ch = 128%nat →
  data_decrypt evp_update evp_final false (raw_buffer junk now) (into_buffer (CMD_RESPONSE :: e) stale) (Z.of_nat (length (CMD_RESPONSE :: e))) p =
    Some (Some (Z.of_nat (length ch)), m) → take (length ch) m = ch →
  server_udp evp_encrypt evp_update evp_final false chksum_crc32gentab None keyfile junk now rnd (into_buffer (CMD_RESPONSE :: e) stale)
    (Z.of_nat (length (CMD_RESPONSE :: e))) n p =
  Some (set_expire now CMD_AUTH_OK (set_plug (set_state (set_state p ST_AUTH) ST_AUTH) true), [ToUdp (in_a p) [CMD_AUTH_OK]], n).
Proof.
  intros Hs Hc Hch Hd Hm. unfold server_udp. change (head (into_buffer (CMD_RESPONSE :: e) stale)) with (Some CMD_RESPONSE). cbn [mbind option_bind]. rewrite Hs.
  change (ST_CHALLENGE + CMD_RESPONSE =? ST_AUTH + PKT_DATA) with false. change (ST_CHALLENGE + CMD_RESPONSE =? ST_AUTH + CMD_KEEPALIVE) with false.
  change (ST_CHALLENGE + CMD_RESPONSE =? ST_AUTH + CMD_LOGIN) with false. change (ST_CHALLENGE + CMD_RESPONSE =? ST_CLOSED + CMD_LOGIN) with false.
  change (ST_CHALLENGE + CMD_RESPONSE =? ST_CHALLENGE + CMD_RESPONSE) with true. cbn [orb]. unfold rcv_response. rewrite Hd. cbn [mbind option_bind].
  assert ((0 <? default (-1) (Some (Z.of_nat (length ch)))) = true) as -> by (by rewrite Hch). rewrite <- (take_drop (length ch) m), Hm, Hc, strncmp_refl by lia. cbn [mbind option_bind]. unfold send_auth_ok.
  rewrite send_clear; [done | set_solver | cbn; lia].
Qed.

(** C23: the handshake.  A client with a key the server finds under the client's
    name, and a server that does not know the client: the login, the challenge, its
    encrypted answer and the confirmation, each delivered, leave both ends
    authenticated with the same key. *)
Theorem handshake_completes c s name ch gen (now1 now2 now3 now4 now5 : timeval) stale a srv :
  in_a (cpeer c) = srv → state (cpeer c) = ST_OPENING → id (cpeer c) = name ++ replicate (16 - length name) 0 → (length name < 16)%nat → 0 ∉ name →
  5 ≤ now1.1 - last_login c → keyfile (key_name name) = KeyBoth (key (cpeer c)) (iv (cpeer c)) → length (key (cpeer c)) = 16%nat → length (iv (cpeer c)) = 8%nat →
  now3.1 - KEEPALIVE_INTERVAL ≠ (last_out c).1 → now5.1 - KEEPALIVE_INTERVAL ≠ (last_out c).1 → getpeer a (peers s) = None → length ch = 128%nat →
  ∃ c1 s1 e c2 s2 c3 p,
    try_to_login evp_encrypt false chksum_crc32gentab now1 c = Some (c1, [ToUdp srv (CMD_LOGIN :: id (cpeer c))]) ∧
    step (SrvUdp now2 (RandomBytes ch) stale a (CMD_LOGIN :: id (cpeer c))) s = Some (s1, [ToUdp a (CMD_CHALLENGE :: ch)]) ∧
    cstep (CliUdp now3 gen stale srv (CMD_CHALLENGE :: ch)) c1 = Some (c2, [ToUdp srv (CMD_RESPONSE :: e)]) ∧
    step (SrvUdp now4 OpenFailed stale a (CMD_RESPONSE :: e)) s1 = Some (s2, [ToUdp a [CMD_AUTH_OK]]) ∧
    cstep (CliUdp now5 gen stale srv [CMD_AUTH_OK]) c2 = Some (c3, []) ∧
    state (cpeer c3) = ST_AUTH ∧ in_a (cpeer c3) = srv ∧ getpeer a (peers s2) = Some p ∧ state p = ST_AUTH ∧ plug p = true ∧
    key p = key (cpeer c3) ∧ iv p = iv (cpeer c3).
Proof.
  intros Ha Hst Hid Hname Hnul Hlog Hkey Hk16 Hv8 Hka3 Hka5 Hnew Hch.
  assert (length (id (cpeer c)) = 16%nat) as Hid16 by (rewrite Hid, length_app, length_replicate; lia).
  set (c1 := Client (cpeer c) (cli_counter c) now1.1 (last_out c)).
  set (p0 := new_peer now2 a).
  set (p1 := set_expire now2 CMD_CHALLENGE (set_state (set_challenge (set_id (set_keys (set_counter (set_state p0 ST_OPENING) 0) (key (cpeer c)) (iv (cpeer c))) (id (cpeer c))) ch) ST_CHALLENGE)).
  destruct (send_response (cli_counter c) ch (cpeer c) p1 stale) as (e & Ee & Hel & Hdec); [by destruct ch | lia | by rewrite Hch | done | done|]. destruct (Hdec now4) as (m4 & Hdec4 & Hm4).
  set (c2 := Client (set_state (cpeer c) ST_WAIT_AUTH) (cli_counter c) now1.1 (last_out c)).
  set (p2 := set_expire now4 CMD_AUTH_OK (set_plug (set_state (set_state p1 ST_AUTH) ST_AUTH) true)).
  exists c1, (Server (p1 :: peers s) (srv_counter s)), e, c2, (Server (p2 :: peers s) (srv_counter s)),
    (Client (set_state (cpeer c2) ST_AUTH) (cli_counter c) now1.1 (last_out c)), p2.
  split_and!; try done.
  - unfold try_to_login. destruct (Z.ltb_spec now1.1 (last_login c)); [lia|]. destruct (Z.ltb_spec (now1.1 - last_login c) 5); [lia|]. cbn [orb].
    rewrite send_clear; [cbn; by rewrite Ha | set_solver | lia].
  - cbn [server_step]. rewrite (short_packet (_ :: _)) by (cbn [length]; lia). rewrite Hnew, (getpeer_head _ _ a) by done. cbn [mbind option_bind].
    pose proof (login_step now2 (RandomBytes ch) stale (srv_counter s) name _ _ a ch Hname Hnul Hkey Hk16 Hv8 eq_refl Hch) as Hl. cbv zeta in Hl. rewrite <- Hid in Hl.
    rewrite Hl. cbn [mbind option_bind]. by rewrite putpeer_head by done.
  - cbn [client_step]. rewrite keepalive_quiet by (done || (cbn [c1 cpeer]; by rewrite Hst)). cbn [mbind option_bind].
    rewrite (short_packet (_ :: _)) by (cbn [length]; lia). cbn [cpeer c1]. rewrite Ha, Z.eqb_refl. cbn [negb].
    unfold client_udp. cbn [cpeer c1]. rewrite Hst. change (head (into_buffer (CMD_CHALLENGE :: ch) stale)) with (Some CMD_CHALLENGE). cbn [mbind option_bind].
    change (ST_OPENING + CMD_CHALLENGE =? ST_OPENING + CMD_CHALLENGE) with true. cbv iota.
    destruct (Z.ltb_spec (Z.of_nat (length (CMD_CHALLENGE :: ch))) 1); [cbn [length] in *; lia|].
    replace (Z.of_nat (length (CMD_CHALLENGE :: ch)) - 1) with (Z.of_nat (length ch)) by (cbn [length]; lia). rewrite into_buffer_slice. cbn [cli_counter c1].
    rewrite Ee. cbn [mbind option_bind]. by rewrite Ha.
  - cbn [server_step]. rewrite (short_packet (_ :: _)) by (cbn [length]; lia). cbn [peers]. rewrite (getpeer_head _ _ a) by done. cbn [mbind option_bind].
    rewrite (getpeer_head _ _ a) by done. cbn [mbind option_bind srv_counter]. rewrite (response_step _ _ _ _ _ ch _ m4) by (done || lia). cbn [mbind option_bind]. by rewrite putpeer_head by done.
  - cbn [client_step]. rewrite keepalive_quiet by done. cbn [mbind option_bind]. cbn [cpeer c2 in_a set_state]. rewrite Ha, Z.eqb_refl. done.
  - by apply getpeer_head.
Qed.

Lemma keepalive_any now c : ∃ t os, keepalive evp_encrypt false chksum_crc32gentab keepalives now c = Some (Client (cpeer c) (cli_counter c) (last_login c) t, os) ∧
  ∀ o, o ∈ os → o = ToUdp (in_a (cpeer c)) [CMD_KEEPALIVE].
Proof.
  unfold keepalive. destruct (_ && keepalives).
  - rewrite send_clear; [|set_solver|cbn; lia]. cbn [mbind option_bind]. do 2 eexists. split; [done | set_solver].
  - exists (last_out c), []. split; [by destruct c | set_solver].
Qed.

(** C40: With encryption on, between a client and a server that are both
    authenticated with the same key, a frame of 1 to 1800 bytes of either switch is
    sent as the encryption of the frame, the sender's counter and the checksum of
    both, and delivered to the other switch: the bytes of the frame, followed by
    twelve more, since no one removes the counter and the checksum (of these the
    last ones are what the buffer held: the end of a decryption is misplaced,
    [last_block_misplaced]). Nothing is sent besides, but for a keepalive. *)
Theorem frames_cross c s a p d now now' rnd gen stale src :
  state (cpeer c) = ST_AUTH → getpeer a (peers s) = Some p → state p = ST_AUTH → plug p = true → key p = key (cpeer c) → iv p = iv (cpeer c) →
  src.1 = (in_a (cpeer c)).1 → d ≠ [] → Forall byteP d → (length d ≤ 1800)%nat →
  (∃ c' s' e crc t os, cstep (CliVde now d) c = Some (c', os ++ [ToUdp (in_a (cpeer c)) (PKT_DATA :: e)]) ∧
     crc32 chksum_crc32gentab (d ++ (set_timestamp (cli_counter c)).1) = Some crc ∧
     evp_encrypt (key p) (iv p) (d ++ (set_timestamp (cli_counter c)).1 ++ crc) = Some e ∧
     (∀ o, o ∈ os → o = ToUdp (in_a (cpeer c)) [CMD_KEEPALIVE]) ∧
     step (SrvUdp now' rnd stale a (PKT_DATA :: e)) s = Some (s', [ToPlug a (d ++ t)]) ∧ length t = 12%nat) ∧
  (∃ c' s' e crc t os, step (SrvVde a d) s = Some (s', [ToUdp a (PKT_DATA :: e)]) ∧
     crc32 chksum_crc32gentab (d ++ (set_timestamp (srv_counter s)).1) = Some crc ∧
     evp_encrypt (key p) (iv p) (d ++ (set_timestamp (srv_counter s)).1 ++ crc) = Some e ∧
     (∀ o, o ∈ os → o = ToUdp (in_a (cpeer c)) [CMD_KEEPALIVE]) ∧
     cstep (CliUdp now' gen stale src (PKT_DATA :: e)) c = Some (c', os ++ [ToPlug (in_a (cpeer c)) (d ++ t)]) ∧ length t = 12%nat).
Proof.
  intros Hc Hg Hs Hpl Hk Hv Hsrc Hd Hb Hl. destruct (getpeer_Some _ _ _ Hg) as [_ Ha].
  assert (short : take (Z.to_nat MAXPKT) d = d) by (apply short_packet; lia).
  split.
  - destruct (keepalive_any now c) as (t & os & Ek & Hos).
    destruct (send_frame (cli_counter c) d (cpeer c) p stale Hd Hb Hl Hk Hv) as (e & crc & Es & He & Hcrc & Hee & Hdec). destruct (Hdec now') as (r & x & Er & Ef & Hx).
    do 2 eexists. exists e, crc, x, os. split; [|split; [done|split; [congruence|split; [done|split; [|done]]]]].
    + cbn [client_step]. rewrite Ek. cbn [mbind option_bind]. rewrite short, bool_decide_eq_false_2 by done. cbn [cpeer cli_counter]. rewrite Hc, Z.eqb_refl, Es. done.
    + cbn [server_step]. rewrite (short_packet (_ :: _)) by (cbn [length]; lia). rewrite Hg, Hg. cbn [mbind option_bind]. unfold server_udp.
      change (head (into_buffer (PKT_DATA :: e) stale)) with (Some PKT_DATA). cbn [mbind option_bind]. rewrite Hs, Z.eqb_refl, Er. cbn [mbind option_bind]. by rewrite Ef, Ha.
  - destruct (keepalive_any now' c) as (t & os & Ek & Hos).
    destruct (send_frame (srv_counter s) d p (cpeer c) stale Hd Hb Hl) as (e & crc & Es & He & Hcrc & Hee & Hdec); [done..|]. destruct (Hdec now') as (r & x & Er & Ef & Hx).
    do 2 eexists. exists e, crc, x, os. split; [|split; [done|split; [congruence|split; [done|split; [|done]]]]].
    + cbn [server_step]. rewrite short, Hg, Hpl, bool_decide_eq_false_2, Hs by done. cbn [negb andb]. rewrite Z.eqb_refl, Es, Ha. done.
    + cbn [client_step]. rewrite Ek. cbn [mbind option_bind]. rewrite (short_packet (_ :: _)) by (cbn [length]; lia). cbn [cpeer]. rewrite Hsrc, Z.eqb_refl. cbn [negb].
      unfold client_udp. cbn [cpeer]. change (head (into_buffer (PKT_DATA :: e) stale)) with (Some PKT_DATA). cbn [mbind option_bind]. rewrite Hc.
      change (ST_AUTH + PKT_DATA =? ST_OPENING + CMD_CHALLENGE) with false. change (ST_AUTH + PKT_DATA =? ST_WAIT_AUTH + CMD_AUTH_OK) with false. cbv iota. rewrite Z.eqb_refl, Er. cbn [mbind option_bind]. by rewrite Ef.
Qed.
End Handshake.

(** ** Where the protocol falls short *)

(** The answer is compared as a C string: one that agrees with the challenge up to a
    zero byte is accepted, whatever follows. *)
Lemma strncmp_prefix n pre x y : (length pre < n)%nat → strncmp_eq n (pre ++ 0 :: x) (pre ++ 0 :: y) = Some true.
Proof.
  revert pre. induction n as [|n IH]; intros pre Hn; [lia|]. destruct pre as [|c pre]; [done|]. cbn [app strncmp_eq]. rewrite Z.eqb_refl.
  destruct (c =? 0); [done|]. apply IH. cbn in Hn. lia.
Qed.
Lemma answer_up_to_nul enc upd fin now junk pkt len n p pre x y rlen : (length pre < 128)%nat → challenge p = pre ++ 0 :: y → 0 < rlen →
  data_decrypt upd fin false (raw_buffer junk now) pkt len p = Some (Some rlen, pre ++ 0 :: x) →
  ∃ q os m, rcv_response enc upd fin false chksum_crc32gentab junk now pkt len n p = Some (q, os, m) ∧ state q = ST_AUTH.
Proof.
  intros Hl Hc Hr Hd. unfold rcv_response. rewrite Hd. cbn [mbind option_bind].
  assert ((0 <? default (-1) (Some rlen)) = true) as -> by (by apply Z.ltb_lt).
  rewrite Hc, strncmp_prefix by done. cbn [mbind option_bind]. unfold send_auth_ok. cbn. eauto.
Qed.

(** Without [/dev/urandom] the challenge of a new peer is 128 zeros, so any answer
    that decrypts to something beginning with a zero is accepted. *)
Lemma challenge_without_random enc tab now n a : send_challenge enc false tab OpenFailed n (new_peer now a) =
  Some (set_state (new_peer now a) ST_CHALLENGE, [ToUdp a (CMD_CHALLENGE :: replicate 128 0)], n).
Proof. done. Qed.

(** When the read fails nothing is sent at all, and the peer is expected to answer the
    zeros it was never told. *)
Lemma challenge_read_failed enc tab now n a : send_challenge enc false tab ReadFailed n (new_peer now a) =
  Some (set_state (new_peer now a) ST_CHALLENGE, [], n) ∧ challenge (new_peer now a) = replicate 128 0.
Proof. done. Qed.

(** Counter and checksum are not looked at: a datagram with a frame that is sent again
    is delivered again. *)
Lemma frame_replayed enc upd fin tab ps kf junk now rnd stale a d s s' out :
  (∃ p, getpeer a (peers s) = Some p ∧ state p = ST_AUTH) → d ≠ [] → head d = Some PKT_DATA →
  server_step enc upd fin false tab ps kf junk (SrvUdp now rnd stale a d) s = Some (s', out) →
  ∃ s'', server_step enc upd fin false tab ps kf junk (SrvUdp now rnd stale a d) s' = Some (s'', out).
Proof.
  intros (p & Hg & Hs) Hd Hh. destruct d as [|f d]; [done|]. injection Hh as ->. destruct (getpeer_Some _ _ _ Hg) as [_ Ha]. cbn [server_step]. rewrite Hg, Hg. cbn [mbind option_bind].
  set (d' := take (Z.to_nat MAXPKT) (PKT_DATA :: d)). assert (head (into_buffer d' stale) = Some PKT_DATA) as Hh by done.
  unfold server_udp. rewrite Hh. cbn [mbind option_bind]. rewrite Hs, Z.eqb_refl. intros ([[q o] m] & E & [= <- <-])%bind_Some.
  apply bind_Some in E as (r & Er & [= <- <- <-]). set (q := set_expire now CMD_KEEPALIVE p). cbn [peers srv_counter].
  assert (getpeer a (putpeer q (peers s)) = Some q) as Hq.
  { clear -Hg. induction (peers s) as [|x l IH]; [done|]. unfold getpeer in Hg. cbn [List.find] in Hg. cbn [putpeer]. change (in_a q) with (in_a p).
    case_bool_decide as E; [injection Hg as ->; rewrite bool_decide_eq_true_2 by done; by apply getpeer_head|].
    apply List.find_some in Hg as Hg'. destruct Hg' as [_ Ha%bool_decide_eq_true]. rewrite bool_decide_eq_false_2 by congruence.
    unfold getpeer. cbn [List.find]. rewrite bool_decide_eq_false_2 by done. by apply IH. }
  rewrite Hq, Hq. cbn [mbind option_bind]. change (state q) with (state p). rewrite Hs, Z.eqb_refl.
  assert (data_decrypt upd fin false (raw_buffer junk now) (into_buffer d' stale) (Z.of_nat (length d')) q = Some r) as ->; [|cbn [mbind option_bind]; eauto]. exact Er.
Qed.

(** A login request is not authenticated: sent in the name of a peer's address, it ends
    that peer's session. *)
Lemma login_ends_session enc upd fin ed tab ps kf junk now rnd pkt len n p q os m : state p = ST_AUTH → head pkt = Some CMD_LOGIN →
  server_udp enc upd fin ed tab ps kf junk now rnd pkt len n p = Some (q, os, m) → state q ≠ ST_AUTH.
Proof.
  intros Hs Hh. unfold server_udp. rewrite Hh. cbn [mbind option_bind]. rewrite Hs. change (ST_AUTH + CMD_LOGIN =? ST_AUTH + PKT_DATA) with false.
  change (ST_AUTH + CMD_LOGIN =? ST_AUTH + CMD_KEEPALIVE) with false. rewrite Z.eqb_refl. cbn [orb]. unfold rcv_login. intros (fn & _ & E)%bind_Some. destruct (kf fn).
  - apply bind_Some in E as ([o j] & _ & [= <- <- <-]). done.
  - apply bind_Some in E as ([o j] & _ & [= <- <- <-]). done.
  - apply bind_Some in E as ([[q' o] j] & E & [= <- <- <-]). apply bind_Some in E as ([o' j'] & _ & [= <- <- <-]). done.
Qed.

(** A frame of more than 1988 bytes does not fit with its counter and checksum into
    the buffer it was received in. *)
Lemma cable_frame_overflows enc n d p : Forall byteP d → (1988 < length d)%nat → send_udp enc false chksum_crc32gentab n d p PKT_DATA = None.
Proof.
  intros Hb Hl. unfold send_udp. set (d' := if _ <? _ then _ else d).
  assert ((1988 < length d')%nat ∧ Forall byteP d') as [Hl' Hb'].
  { unfold d'. destruct (Z.ltb_spec MAXPKT (Z.of_nat (length d) + 8 - 1)); [|done]. split; [rewrite length_take; unfold MAXPKT in *; lia | by apply Forall_take]. }
  change (false || existsb (Z.eqb PKT_DATA) [CMD_CHALLENGE; CMD_LOGIN; CMD_DENY; CMD_AUTH_OK; CMD_KEEPALIVE]) with false. cbv iota.
  change (PKT_DATA =? PKT_DATA) with true. cbv iota. rewrite (surjective_pairing (set_timestamp n)). set (ts := (set_timestamp n).1).
  destruct (crc32_bytes (d' ++ ts)) as (crc & Ec & Hc4 & _ & _); [apply Forall_app_2; [done | apply timestamp_bytes]|]. rewrite Ec. cbn [mbind option_bind].
  assert (length ts = 8%nat) as Hts by (unfold ts, set_timestamp; cbn [fst]; by rewrite length_fmap, length_seqZ).
  destruct (Z.ltb_spec MAXPKT (Z.of_nat (length (d' ++ ts ++ crc)))) as [|H]; [done|]. rewrite !length_app in H. unfold MAXPKT in H. lia.
Qed.

(** Only the first expired peer goes in a pass. *)
Lemma clean_one now p l : after now (expire p) = true → clean_peerlist now (p :: l) = l.
Proof. intros H. cbn [clean_peerlist]. by rewrite H. Qed.

(** A key file that is empty leaves the key of a new peer all zero, and the server
    goes on with it. *)
Lemma empty_key_file enc tab now ch pkt n a name : cstring (drop 1 pkt) = Some name →
  ∃ q os m, rcv_login enc false tab None (λ _, KeyBoth [] []) now (RandomBytes ch) pkt n (set_state (new_peer now a) ST_OPENING) = Some (q, os, m) ∧
    state q = ST_CHALLENGE ∧ key q = replicate 16 0 ∧ iv q = replicate 8 0.
Proof. intros H. unfold rcv_login. rewrite H. cbn [mbind option_bind]. unfold send_challenge, send_udp.
  change (existsb _ _) with true. rewrite orb_true_r. cbn [mbind option_bind]. by do 3 eexists. Qed.

(** In the second in which the times agree a client that is not authenticated sends a
    keepalive too, *)
Lemma keepalive_unauthenticated enc tab now c : now.1 - KEEPALIVE_INTERVAL = (last_out c).1 → (last_out c).2 < now.2 →
  keepalive enc false tab true now c = Some (Client (cpeer c) (cli_counter c) (last_login c) now, [ToUdp (in_a (cpeer c)) [CMD_KEEPALIVE]]).
Proof. intros H1 H2. unfold keepalive. rewrite H1, Z.eqb_refl. apply Z.ltb_lt in H2. by rewrite H2. Qed.
(** and the server denies it access. *)
Lemma keepalive_denied enc upd fin tab ps kf junk now rnd stale n p : state p = ST_CHALLENGE →
  ∃ q, server_udp enc upd fin false tab ps kf junk now rnd (into_buffer [CMD_KEEPALIVE] stale) 1 n p = Some (q, [ToUdp (in_a p) (CMD_DENY :: access_denied)], n) ∧ state q = ST_CLOSED.
Proof. intros H. unfold server_udp. cbn [into_buffer head app mbind option_bind]. rewrite H. cbn. eauto. Qed.

(** ** Witnesses *)

(** A cipher of exclusive or with the first byte of the key, in blocks of eight bytes
    with the number of the added bytes as padding. *)
Definition toy_encrypt (k v m : list Z) : option (list Z) :=
  let pad := (8 - length m `mod` 8)%nat in Some (Z.lxor (List.hd 0 k) <$> (m ++ replicate pad (Z.of_nat pad))).
(** All blocks but the last, and what the last one holds without its padding. *)
Definition toy_update (k v e : list Z) : option (list Z) := Some (Z.lxor (List.hd 0 k) <$> take (length e - 8) e).
Definition toy_final (k v e : list Z) : option (list Z) :=
  let m := Z.lxor (List.hd 0 k) <$> drop (length e - 8) e in
  pad ← last m; Some (take (length m - Z.to_nat pad) m).
Lemma xor_twice k (m : list Z) : Z.lxor k <$> (Z.lxor k <$> m) = m.
Proof. induction m as [|x m IH]; [done|]. rewrite !fmap_cons, IH, <- Z.lxor_assoc, Z.lxor_nilpotent, Z.lxor_0_l. done. Qed.
Lemma toy_cipher : cipher_ok toy_encrypt toy_update toy_final.
Proof.
  intros k v m Hm _. unfold toy_encrypt. set (pad := (8 - length m `mod` 8)%nat). pose proof (Nat.mod_upper_bound (length m) 8) as Hb.
  pose proof (Nat.div_mod_eq (length m) 8) as Hdm. eexists. split; [done|]. rewrite length_fmap, length_app, length_replicate.
  split; [replace (length m + pad)%nat with ((length m / 8 + 1) * 8)%nat by lia; apply Nat.Div0.mod_mul|]. split; [lia|].
  unfold toy_update, toy_final. rewrite length_fmap, length_app, length_replicate, <- fmap_take, <- fmap_drop, !xor_twice.
  rewrite take_app_le, drop_app_le by lia. split; [done|].
  assert (last (drop (length m + pad - 8) m ++ replicate pad (Z.of_nat pad)) = Some (Z.of_nat pad)) as ->.
  { generalize (Z.of_nat pad). intros x. generalize (drop (length m + pad - 8) m). intros l. destruct pad eqn:E; [lia|]. rewrite replicate_S_end, app_assoc. apply last_snoc. }
  cbn [mbind option_bind]. rewrite Nat2Z.id, length_app, length_replicate, Nat.add_sub. by rewrite take_app_length.
Qed.

Definition toy_key : list Z := 0x5A :: replicate 15 7.
Definition toy_iv : list Z := replicate 8 9.
Definition toy_name : list Z := ascii_z <$> list_ascii_of_string "vde_abcdef".
Definition toy_files (f : list Z) : key_read := if bool_decide (f = key_name toy_name) then KeyBoth toy_key toy_iv else NoKey.
Definition toy_challenge : list Z := seqZ 1 128.
Definition toy_client : client := Client (fresh_peer (0x0A000001, 7667) toy_key toy_iv toy_name) 1 0 (0, 0).
Definition toy_addr : sockaddr := (0x0A000002, 7667).
Definition toy_answer : list Z := CMD_RESPONSE :: default [] (toy_encrypt toy_key toy_iv toy_challenge).
Definition toy_frame : list Z := PKT_DATA :: default [] (toy_encrypt toy_key toy_iv (seqZ 0 60)).
Definition toy_session : list srv_event := [
  SrvUdp (100, 0) (RandomBytes toy_challenge) [] toy_addr (CMD_LOGIN :: id (cpeer toy_client));
  SrvUdp (101, 0) OpenFailed [] toy_addr toy_answer; SrvUdp (102, 0) OpenFailed [] toy_addr toy_frame].

Definition toy_junk (_ : timeval) : list Z := replicate 2000 0xEE.

Definition toy_auth : peer := Eval vm_compute in
  default (new_peer (0, 0) toy_addr)
    ('(s, _) ← server_run toy_encrypt toy_update toy_final false chksum_crc32gentab None toy_files toy_junk toy_session (Server [] 1); head (peers s)).

(** The last, incomplete block of a message is not where it is read from: the program
    takes what the buffer held there. *)
Lemma last_block_misplaced : ∃ m, data_decrypt toy_update toy_final false (raw_buffer toy_junk (0, 0)) toy_frame (Z.of_nat (length toy_frame)) toy_auth = Some (Some 60, m) ∧
  take 60 m = seqZ 0 56 ++ replicate 4 0xEE.
Proof. eexists. split; vm_compute; reflexivity. Qed.

Lemma handshake_completes_witness : ∃ s2 p, getpeer toy_addr (peers s2) = Some p ∧ state p = ST_AUTH ∧ plug p = true.
Proof.
  destruct (handshake_completes toy_encrypt toy_update toy_final toy_cipher toy_files toy_junk true toy_client (Server [] 1) toy_name toy_challenge ([], [], [])
    (50, 0) (51, 0) (52, 0) (53, 0) (54, 0) [] toy_addr (0x0A000001, 7667)) as (c1 & s1 & e & c2 & s2 & c3 & p & H); try (vm_compute; (reflexivity || discriminate)).
  - vm_compute. lia.
  - apply (bool_decide_eq_true_1 _). vm_compute. reflexivity.
  - exists s2, p. destruct H as (_ & _ & _ & _ & _ & _ & _ & H8 & H9 & H10 & _). by split_and!.
Defined.

Lemma frames_cross_witness : ∃ s' e t, server_step toy_encrypt toy_update toy_final false chksum_crc32gentab None toy_files toy_junk
    (SrvUdp (103, 0) OpenFailed [] toy_addr (PKT_DATA :: e)) (Server [toy_auth] 1) = Some (s', [ToPlug toy_addr (seqZ 0 60 ++ t)]) ∧ length t = 12%nat.
Proof.
  destruct (frames_cross toy_encrypt toy_update toy_final toy_cipher toy_files toy_junk true (Client (set_state (cpeer toy_client) ST_AUTH) 1 50 (90, 0)) (Server [toy_auth] 1)
    toy_addr toy_auth (seqZ 0 60) (103, 0) (103, 0) OpenFailed ([], [], []) [] (0x0A000001, 7667)) as [(c' & s' & e & crc & t & os & _ & _ & _ & _ & H & Ht) _];
    [vm_compute; (reflexivity || discriminate) .. | apply (bool_decide_eq_true_1 _); vm_compute; reflexivity | vm_compute; lia |].
  - exists s', e, t. split; [exact H | exact Ht].
Defined.
