(* ===== verification/VdeHist.v ===== *)
(** * VdeHist: the line editor of the management terminals

    [libvdehist.c], which [vdeterm] and the telnet server of [vdetelweb] put
    between a terminal and the management socket of a switch: a line buffer with
    a cursor, a history, completion of commands, the telnet options, and the
    filter that turns the switch's answers into what the terminal shows.  The C
    strings are lists of their bytes; [bufindex], which only moves between guards, is
    a [nat].  What the program writes is in [out], in order.  The callback for the
    login is a parameter, of which [telnet_logincmd] of [telnet.c] is the
    instance used by the telnet server.

    The theorems: the terminal shows the line and the cursor that the program
    has, under the keys and the output of the switch for which it works ([key_ok],
    [mgmt_ok]); the history gives back
    the commands; completion inserts the longest common extension; the answers of
    the switch are shown however they are cut; the login of the telnet server
    follows its dialogue, and no command reaches the switch before the password;
    and the keys for which it goes wrong. *)
From Stdlib Require Import Lia Ascii String.
From stdpp Require Import base numbers sets list strings.
From S2P Require Import Prelude Scan.

Definition str (s : string) : list Z := ascii_z <$> list_ascii_of_string s.

Definition BUFSIZE : Z := 1024.
Definition HISTORYSIZE : Z := 32.
Definition HIST_COMMAND : Z := 0.
Definition HIST_NOCMD : Z := 1.
Definition HIST_PASSWDFLAG : Z := 0x80.

Inductive hist_out := Term (d : list Z) | Mgmt (d : list Z).

(** [struct vdehiststat], the static [commandlist], the results of the reads of the
    management socket that [vdehist_readln] will make, and the output. *)
Record hist := Hist {
  status : Z; echo : bool; telnetprotocol : bool; edited : bool; vindata : bool; lastchar : Z;
  linebuf : list Z; bufindex : nat; vlinebuf : list Z; history : list (option (list Z)); histindex : Z; mgmtfd : Z;
  commandlist : option (list (list Z)); helpin : list (list Z); out : list hist_out }.

Definition set_status (v : Z) (s : hist) : hist :=
  Hist v (echo s) (telnetprotocol s) (edited s) (vindata s) (lastchar s) (linebuf s) (bufindex s) (vlinebuf s) (history s) (histindex s) (mgmtfd s) (commandlist s) (helpin s) (out s).
Definition set_telnet (t e : bool) (s : hist) : hist :=
  Hist (status s) e t (edited s) (vindata s) (lastchar s) (linebuf s) (bufindex s) (vlinebuf s) (history s) (histindex s) (mgmtfd s) (commandlist s) (helpin s) (out s).
Definition set_edited (v : bool) (s : hist) : hist :=
  Hist (status s) (echo s) (telnetprotocol s) v (vindata s) (lastchar s) (linebuf s) (bufindex s) (vlinebuf s) (history s) (histindex s) (mgmtfd s) (commandlist s) (helpin s) (out s).
Definition set_vde (d : bool) (v : list Z) (s : hist) : hist :=
  Hist (status s) (echo s) (telnetprotocol s) (edited s) d (lastchar s) (linebuf s) (bufindex s) v (history s) (histindex s) (mgmtfd s) (commandlist s) (helpin s) (out s).
Definition set_lastchar (v : Z) (s : hist) : hist :=
  Hist (status s) (echo s) (telnetprotocol s) (edited s) (vindata s) v (linebuf s) (bufindex s) (vlinebuf s) (history s) (histindex s) (mgmtfd s) (commandlist s) (helpin s) (out s).
Definition set_line (l : list Z) (i : nat) (s : hist) : hist :=
  Hist (status s) (echo s) (telnetprotocol s) (edited s) (vindata s) (lastchar s) l i (vlinebuf s) (history s) (histindex s) (mgmtfd s) (commandlist s) (helpin s) (out s).
Definition set_history (h : list (option (list Z))) (i : Z) (s : hist) : hist :=
  Hist (status s) (echo s) (telnetprotocol s) (edited s) (vindata s) (lastchar s) (linebuf s) (bufindex s) (vlinebuf s) h i (mgmtfd s) (commandlist s) (helpin s) (out s).
Definition set_mgmtfd (v : Z) (s : hist) : hist :=
  Hist (status s) (echo s) (telnetprotocol s) (edited s) (vindata s) (lastchar s) (linebuf s) (bufindex s) (vlinebuf s) (history s) (histindex s) v (commandlist s) (helpin s) (out s).
Definition set_commands (c : option (list (list Z))) (i : list (list Z)) (s : hist) : hist :=
  Hist (status s) (echo s) (telnetprotocol s) (edited s) (vindata s) (lastchar s) (linebuf s) (bufindex s) (vlinebuf s) (history s) (histindex s) (mgmtfd s) c i (out s).
Definition add_out (o : hist_out) (s : hist) : hist :=
  Hist (status s) (echo s) (telnetprotocol s) (edited s) (vindata s) (lastchar s) (linebuf s) (bufindex s) (vlinebuf s) (history s) (histindex s) (mgmtfd s) (commandlist s) (helpin s) (out s ++ [o]).

Definition termwrite (d : list Z) : M hist () := modify (add_out (Term d)).
Definition mgmtwrite (d : list Z) : M hist () := modify (add_out (Mgmt d)).

(** [strncmp(a,b,n)==0] on strings, and the string at the start of a buffer. *)
Definition strncmp0 (a b : list Z) (n : nat) : bool := bool_decide (take n a = take n b).
Fixpoint cstr (l : list Z) : list Z :=
  match l with
  | [] => []
  | c :: l => if c =? 0 then [] else c :: cstr l
  end.

(** ** Completion *)

(** [None]: both strings end before [maxlen], and the comparison goes on behind. *)
Fixpoint commonprefix (x y : list Z) (maxlen : nat) {struct maxlen} : option nat :=
  match maxlen with
  | O => Some O
  | S maxlen =>
    match x, y with
    | a :: x, b :: y => if a =? b then n ← commonprefix x y maxlen; Some (S n) else Some O
    | [], [] => None
    | _, _ => Some O
    end
  end.

Definition showexpand : M hist () :=
  s ← get;
  match commandlist s with
  | Some cmds =>
    let ms := List.filter (λ c, strncmp0 (linebuf s) c (bufindex s)) cmds in
    if (0 <? bufindex s)%nat && (1 <? length ms)%nat then termwrite (concat ((λ c, c ++ [32]) <$> ms) ++ [13; 10]) else mret ()
  | None => mret ()
  end.

(** The loop of [tabexpand]: number of matches, first match, length in common. *)
Fixpoint tab_scan (line : list Z) (n : nat) (cmds : list (list Z)) (acc : nat * list Z * nat) : option (nat * list Z * nat) :=
  match cmds with
  | [] => Some acc
  | c :: cmds =>
    let '(nmatches, mtch, len) := acc in
    if strncmp0 line c n then
      match nmatches with
      | O => tab_scan line n cmds (1%nat, c, length c)
      | _ => len ← commonprefix mtch c len; tab_scan line n cmds (S nmatches, mtch, len)
      end
    else tab_scan line n cmds acc
  end.
Definition tabexpand (cmds : option (list (list Z))) (line : list Z) (bufindex : nat) (maxlength : Z) : option (list Z * nat) :=
  match cmds with
  | None => Some (line, bufindex)
  | Some cmds =>
    if (bufindex =? 0)%nat then Some (line, bufindex) else
    '(nmatches, mtch, len) ← tab_scan line bufindex cmds (O, [], O);
    if (len =? 0)%nat then Some (line, bufindex) else
    already ← commonprefix line mtch len;
    if Z.of_nat ((len - already) + length line) <? maxlength then
      let line := take already line ++ take (len - already) (drop already mtch) ++ drop already line in
      if (nmatches =? 1)%nat && negb (bool_decide (line !! len = Some 32)) && (Z.of_nat (length line + 1) <? maxlength)
      then Some (take len line ++ 32 :: drop len line, S len)
      else Some (line, len)
    else Some (line, bufindex)
  end.

(** ** The list of commands *)

(** [vdehist_readln]: [rb] are the bytes of [readbuf] not yet used, [acc] the line so
    far; the result is [None] at the end of the input or at a prompt. *)
Fixpoint readln (fuel : nat) (inp : list (list Z)) (rb acc : list Z) (lastch : Z) : option (list Z) * list (list Z) * list Z :=
  match fuel with
  | O => (Some acc, inp, rb)
  | S fuel =>
    let '(inp, rb) := match rb with [] => (tail inp, default [] (head inp)) | _ => (inp, rb) end in
    match rb with
    | [] => (None, inp, rb)
    | c :: rb' =>
      if (c =? 32) && (lastch =? 36) && bool_decide (rb' = []) then (None, inp, rb)
      else if c =? 10 then (Some (acc ++ [c]), inp, rb')
      else readln fuel inp rb' (acc ++ [c]) c
    end
  end.
Definition vdehist_readln (inp : list (list Z)) (rb : list Z) : option (list Z) * list (list Z) * list Z :=
  readln (Z.to_nat (BUFSIZE - 1)) inp rb [] 32.

Inductive cc_status := CC_HEADER | CC_BODY | CC_TERM.

Fixpoint first_token (l : list Z) : list Z :=
  match l with
  | [] => []
  | c :: l => if c =? 32 then [] else c :: first_token l
  end.

(** A command that is the name of a menu is dropped. *)
Definition put_command (lastcommand : option (list Z)) (tok : list Z) (cmds : list (list Z)) : list (list Z) :=
  match lastcommand with
  | None => cmds
  | Some c => if strncmp0 c tok (length c) && bool_decide (tok !! length c = Some 47) then cmds else cmds ++ [c]
  end.

Fixpoint command_lines (fuel : nat) (st : cc_status) (inp : list (list Z)) (rb : list Z) (lastcommand : option (list Z)) (cmds : list (list Z))
  : option (list Z) * list (list Z) * list (list Z) :=
  match fuel with
  | O => (lastcommand, cmds, inp)
  | S fuel =>
    match st with
    | CC_TERM => (lastcommand, cmds, inp)
    | _ =>
      match vdehist_readln inp rb with
      | (None, inp, _) => (lastcommand, cmds, inp)
      | (Some line, inp, rb) =>
        let line := cstr line in
        match st with
        | CC_HEADER => command_lines fuel (if strncmp0 line (str "------------") 12 then CC_BODY else CC_HEADER) inp rb lastcommand cmds
        | _ =>
          if strncmp0 line [46; 10] 2 then command_lines fuel CC_TERM inp rb lastcommand cmds
          else let tok := first_token line in command_lines fuel CC_BODY inp rb (Some tok) (put_command lastcommand tok cmds)
        end
      end
    end
  end.

(** [qsort] with [strcmp]. *)
Fixpoint strcmp_le (a b : list Z) : bool :=
  match a, b with
  | [], _ => true
  | _ :: _, [] => false
  | x :: a, y :: b => (x <? y) || ((x =? y) && strcmp_le a b)
  end.
Fixpoint sort_insert (c : list Z) (l : list (list Z)) : list (list Z) :=
  match l with
  | [] => [c]
  | d :: l' => if strcmp_le c d then c :: l else d :: sort_insert c l'
  end.
Definition qsort (l : list (list Z)) : list (list Z) := foldr sort_insert [] l.

(** The list made of the answer to [help], and the input left.  Every line that is read
    takes at least one byte of the input. *)
Definition commands_of (inp : list (list Z)) : list (list Z) * list (list Z) :=
  let '(lastcommand, cmds, inp) := command_lines (S (length (concat inp))) CC_HEADER inp [] None [] in
  (qsort (match lastcommand with Some c => cmds ++ [c] | None => cmds end), inp).
Definition vdehist_create_commandlist : M hist () :=
  s ← get;
  if mgmtfd s <? 0 then mret () else
  mgmtwrite (str "help" ++ [10]) ;;
  modify (λ s, set_commands (Some (commands_of (helpin s)).1) (commands_of (helpin s)).2 s).

Section Terminal.
Context (prompt : list Z).
Context (logincmd : list Z → nat → M hist (option (list Z))).

(** ** Drawing *)

Definition backspaces (n : nat) : list Z := replicate n 8.
Definition erase_line (prompt_too : bool) : M hist () :=
  s ← get;
  let p := if prompt_too then length prompt else O in
  let size := (length (linebuf s) + p)%nat in
  termwrite (backspaces (bufindex s + p) ++ replicate size 32 ++ backspaces size).
Definition redraw_line (prompt_too : bool) : M hist () :=
  s ← get;
  termwrite ((if prompt_too then prompt else []) ++ linebuf s ++ backspaces (length (linebuf s) - bufindex s)).

(** ** From the switch to the terminal *)

Definition isdigitZ (c : Z) : bool := (48 <=? c) && (c <=? 57).
(** The rest of a line from its first four digits. *)
Fixpoint find_code (l : list Z) : list Z :=
  match l with
  | [] => []
  | a :: l' =>
    match l' with
    | b :: c :: d :: _ => if isdigitZ a && isdigitZ b && isdigitZ c && isdigitZ d then l else find_code l'
    | _ => find_code l'
    end
  end.

(** A complete line, which ends with CR LF. *)
Definition mgmt_line (line : list Z) : M hist () :=
  s ← get;
  if vindata s then
    if bool_decide (line !! 0%nat = Some 46) && bool_decide (line !! 1%nat = Some 13) then modify (set_vde false (vlinebuf s))
    else termwrite line
  else
    let message := find_code (cstr line) in
    if strncmp0 message (str "0000") 4 then modify (set_vde true (vlinebuf s))
    else if bool_decide (message !! 0%nat = Some 49) then termwrite (drop 5 message)
    else if bool_decide (message !! 0%nat = Some 51) then termwrite (str "** DBG MSG: ") ;; termwrite (drop 5 message)
    else mret ().

(** One byte: [vlinebuf] has [BUFSIZE+1] bytes and nothing looks at its end. *)
Definition mgmt_char (b : Z) : M hist () :=
  s ← get;
  let v := vlinebuf s in
  if b =? 10 then
    (if BUFSIZE <? Z.of_nat (length v) + 2 then fault else mgmt_line (v ++ [13; 10])) ;;
    modify (λ s, set_vde (vindata s) [] s)
  else if BUFSIZE <? Z.of_nat (length v) then fault
  else modify (set_vde (vindata s) (v ++ [b])).

(** [chunks] are the reads that give data, [last] the result of the one after them,
    which is stored with the index -1 when it is the first and fails. *)
Definition vdehist_mgmt_to_term (chunks : list (list Z)) (last : Z) : M hist () :=
  erase_line true ;;
  s ← get;
  (if mgmtfd s =? 0 then mret () else
   if bool_decide (chunks = []) && (last <? 0) then fault else
   forM chunks (λ c, forM c mgmt_char)) ;;
  s ← get;
  (if bool_decide (commandlist s = None) && (0 <=? mgmtfd s) then vdehist_create_commandlist else mret ()) ;;
  redraw_line true.

(** ** From the terminal to the switch *)

Fixpoint skip_blanks (l : list Z) : list Z :=
  match l with
  | c :: l' => if (c =? 32) || (c =? 9) then skip_blanks l' else l
  | [] => []
  end.

Definition send_line (cmd : list Z) : M hist Z :=
  let cmd := skip_blanks cmd in
  if strncmp0 cmd (str "logout") 6 then mret 1 else
  s ← get;
  (if bool_decide (cmd = []) then mret () else mgmtwrite (take (bufindex s) (linebuf s))) ;;
  if negb (bool_decide (cmd = [])) && strncmp0 cmd (str "shutdown") 8 then mret 2 else
  termwrite [13; 10] ;; termwrite prompt ;;
  s ← get;
  (if strncmp0 cmd (str "plugin/add") 10 || strncmp0 cmd (str "plugin/del") 10 then modify (set_commands None (helpin s)) else mret ()) ;;
  mret 0.
Definition hist_sendcmd : M hist Z :=
  s ← get;
  if status s =? HIST_COMMAND then send_line (linebuf s) else
  r ← logincmd (linebuf s) (bufindex s);
  s ← get;
  (if bool_decide (commandlist s = None) && (0 <=? mgmtfd s) then vdehist_create_commandlist else mret ()) ;;
  match r with
  | None => mret 0
  | Some cmd => send_line cmd
  end.

Definition put_history : M hist () :=
  s ← get;
  h ← deref (zset (history s) (histindex s) (Some (linebuf s)));
  modify (set_history h (histindex s)).
Definition get_history (change : Z) : M hist () :=
  s ← get;
  let i := histindex s + change in
  let i := if i <? 0 then 0 else i in
  let i := if HISTORYSIZE <=? i then HISTORYSIZE - 1 else i in
  h ← deref (zget (history s) i);
  let i := match h with None => i - 1 | Some _ => i end in
  h ← deref (zget (history s) i);
  l ← deref h;
  modify (λ s, set_line l (length l) (set_history (history s) i s)).
Definition shift_history : M hist () :=
  modify (λ s, set_history (None :: take (Z.to_nat (HISTORYSIZE - 1)) (history s)) (histindex s) s).

(** ** Telnet *)

Definition DO : Z := 253.
Definition DONT : Z := 254.
Definition WILL : Z := 251.
Definition WONT : Z := 252.
Definition TELOPT_ECHO : Z := 1.
Definition TELOPT_SGA : Z := 3.
Definition TELOPT_TTYPE : Z := 24.
Definition telnet_option_send3 (action object : Z) : M hist () := termwrite [0xff; action; object].
Definition telnet_options (act obj : Z) : M hist Z :=
  s ← get;
  (if telnetprotocol s then mret () else modify (set_telnet true false) ;; telnet_option_send3 WILL TELOPT_ECHO) ;;
  (if (act =? DO) && (obj =? TELOPT_ECHO) then modify (λ s, set_telnet (telnetprotocol s) true s)
   else if (act =? WILL) && (obj =? TELOPT_ECHO) then telnet_option_send3 DONT TELOPT_ECHO ;; telnet_option_send3 WILL TELOPT_ECHO
   else if (act =? DO) && (obj =? TELOPT_SGA) then telnet_option_send3 WILL TELOPT_SGA
   else if (act =? WILL) && (obj =? TELOPT_TTYPE) then telnet_option_send3 DONT TELOPT_TTYPE
   else if act =? WILL then telnet_option_send3 DONT obj
   else if act =? DO then telnet_option_send3 WONT obj
   else mret ()) ;;
  mret 2.

(** ** Keys *)

Definition echoing (s : hist) : bool := echo s && (Z.land (status s) HIST_PASSWDFLAG =? 0).

Definition arrow (c : Z) : M hist () :=
  modify (set_edited true) ;;
  s ← get;
  if c =? 65 then erase_line false ;; put_history ;; get_history 1 ;; redraw_line false ;; modify (λ s, set_line (linebuf s) (length (linebuf s)) s)
  else if c =? 66 then erase_line false ;; put_history ;; get_history (-1) ;; redraw_line false
  else if c =? 67 then
    if (bufindex s <? length (linebuf s))%nat then termwrite [27; 91; 67] ;; modify (set_line (linebuf s) (S (bufindex s))) else mret ()
  else if c =? 68 then
    if (0 <? bufindex s)%nat then termwrite [27; 91; 68] ;; modify (set_line (linebuf s) (Nat.pred (bufindex s))) else mret ()
  else mret ().

Definition tab_key : M hist () :=
  s ← get;
  if lastchar s =? 9 then erase_line true ;; showexpand ;; redraw_line true
  else
    erase_line false ;;
    '(l, i) ← deref (tabexpand (commandlist s) (linebuf s) (bufindex s) BUFSIZE);
    modify (set_line l i) ;; redraw_line false.
(** The end of the line falls through to the completion. *)
Definition ctrl_key (c : Z) : M hist () :=
  s ← get;
  if c =? 3 then erase_line false ;; modify (set_line [] O)
  else if c =? 12 then erase_line true ;; redraw_line true
  else if c =? 1 then erase_line false ;; modify (set_line (linebuf s) O) ;; redraw_line false
  else if c =? 5 then erase_line false ;; modify (set_line (linebuf s) (length (linebuf s))) ;; redraw_line false ;; tab_key
  else if c =? 9 then tab_key
  else mret ().

Definition delete_key : M hist () :=
  s ← get;
  match bufindex s with
  | O => mret ()
  | S i =>
    modify (set_line (take i (linebuf s) ++ drop (S i) (linebuf s)) i) ;;
    if echoing s then termwrite (if edited s then [8; 27; 91; 80] else [8; 32; 8]) else mret ()
  end.

(** A character is inserted when there is room for the string with its end. *)
Definition insert_char (c : Z) : M hist () :=
  s ← get;
  let i := bufindex s in
  if BUFSIZE <? Z.of_nat (length (linebuf s)) + 2 then fault
  else modify (set_line (take i (linebuf s) ++ c :: drop i (linebuf s)) (S i)).

Definition enter_key : M hist Z :=
  s ← get;
  (if status s =? HIST_COMMAND then
     modify (set_history (history s) 0) ;; put_history ;;
     (if (0 <? length (linebuf s))%nat then shift_history else mret ())
   else mret ()) ;;
  modify (λ s, set_line (linebuf s) (length (linebuf s)) s) ;;
  rv ← hist_sendcmd;
  (if rv =? 0 then modify (λ s, set_line [] O (set_edited false (set_history (history s) 0 s))) else mret ()) ;;
  mret rv.

Definition plain_key (c : Z) : M hist Z :=
  s ← get;
  (if echoing s then (if edited s && (32 <=? c) then termwrite [27; 91; 64] else mret ()) ;; termwrite [c] else mret ()) ;;
  if c =? 13 then mret 0 else if c =? 10 then enter_key else insert_char c ;; mret 0.

(** The body of the loop of [vdehist_term_to_mgmt] at index [i] of [mem], the buffer of
    the read and what was in it before: the value to return at once, or the index before
    the increment of the loop. *)
Definition term_char (mem : list Z) (i : Z) : M hist (Z + Z) :=
  b ← deref (zget mem i);
  i ← (if b =? 0xff then b1 ← deref (zget mem (i + 1)); mret (if b1 =? 0xff then i + 1 else i) else mret i);
  b ← deref (zget mem i);
  let b := if b =? 0 then 10 else b in
  opt ← (if b =? 0xff then b1 ← deref (zget mem (i + 1)); mret (negb (b1 =? 0xff)) else mret false);
  if opt : bool then
    act ← deref (zget mem (i + 1)); obj ← deref (zget mem (i + 2));
    skip ← telnet_options act obj;
    c ← deref (zget mem (i + skip)); modify (set_lastchar c) ;; mret (inr (i + skip))
  else if b =? 27 then
    b1 ← deref (zget mem (i + 1));
    s ← get;
    i ← (if (b1 =? 91) && (status s =? HIST_COMMAND) then b2 ← deref (zget mem (i + 2)); arrow b2 ;; mret (i + 3) else mret (i + 2));
    c ← deref (zget mem i); modify (set_lastchar c) ;; mret (inr i)
  else if (b <? 32) && negb ((b =? 10) || (b =? 13)) then
    if b =? 4 then mret (inl 1)
    else ctrl_key b ;; modify (set_lastchar b) ;; mret (inr i)
  else if b =? 127 then delete_key ;; modify (set_lastchar b) ;; mret (inr i)
  else
    rv ← plain_key b;
    if rv =? 0 then modify (set_lastchar b) ;; mret (inr i) else mret (inl rv).

Fixpoint term_loop (fuel : nat) (mem : list Z) (n i : Z) : M hist Z :=
  s ← get;
  if (i <? n) && (Z.of_nat (length (linebuf s)) <? BUFSIZE) then
    match fuel with
    | O => fault
    | S fuel =>
      r ← term_char mem i;
      match r with
      | inl rv => mret rv
      | inr i => term_loop fuel mem n (i + 1)
      end
    end
  else mret 0.

(** A read that gave [d], or the result [n <= 0]. *)
Definition vdehist_term_to_mgmt (d stale : list Z) (n : Z) : M hist Z :=
  if bool_decide (d = []) then mret (if n =? 0 then 1 else n)
  else term_loop (length d) (d ++ drop (length d) stale) (Z.of_nat (length d)) 0.
End Terminal.

Definition vdehist_new (mgmt : Z) (cmds : option (list (list Z))) (help : list (list Z)) : outcome hist () :=
  let s := Hist (if mgmt <? 0 then HIST_NOCMD else HIST_COMMAND) true false false false 0 [] O [] (replicate (Z.to_nat HISTORYSIZE) None) 0 mgmt cmds help [] in
  (match cmds with None => vdehist_create_commandlist | _ => mret () end) s.

(** ** The login of the telnet server *)

Fixpoint strip_nl (l : list Z) : list Z :=
  match l with
  | [] => []
  | c :: l => match strip_nl l with [] => if c =? 10 then [] else [c] | l' => c :: l' end
  end.

(** [while (cmd[len-1] == '\n') cmd[--len]=0]: before the first byte of the line
    comes [lastchar], and before it [vindata]. *)
Definition strip_cmd (cmd : list Z) : M hist (list Z) :=
  let l := strip_nl cmd in
  modify (λ s, set_line l (bufindex s) s) ;;
  s ← get;
  (if bool_decide (l = []) && (lastchar s =? 10) then modify (set_lastchar 0) else mret ()) ;;
  mret l.

(** [sha1passwdok] decides on a password and [extravdem] is what [openextravdem]
    returns; the lengths written are those of the code. *)
Definition telnet_logincmd (prompt : list Z) (sha1passwdok : list Z → bool) (extravdem : Z) (cmd : list Z) (len : nat) : M hist (option (list Z)) :=
  s ← get;
  if status s =? HIST_NOCMD then
    cmd ← strip_cmd cmd;
    (if bool_decide (cmd = str "admin") then termwrite (str "Password: " ++ [0]) ;; modify (set_status HIST_PASSWDFLAG)
     else termwrite (str "login incorrect" ++ [13; 10; 13; 10] ++ str "Login: ")) ;;
    mret None
  else if (status s =? HIST_PASSWDFLAG) || (status s =? HIST_PASSWDFLAG + 1) || (status s =? HIST_PASSWDFLAG + 2) then
    cmd ← strip_cmd cmd;
    if sha1passwdok cmd then
      modify (set_status HIST_COMMAND) ;;
      if 0 <=? extravdem then
        modify (set_mgmtfd extravdem) ;; termwrite [13; 10] ;; termwrite prompt ;; mret None
      else mret (Some (str "logout"))
    else
      modify (set_status (status s + 1)) ;;
      if status s + 1 <? HIST_PASSWDFLAG + 3 then
        termwrite (take 30 ([13; 10] ++ str "login incorrect" ++ [13; 10; 13; 10] ++ str "Password: ")) ;; mret None
      else mret (Some (str "logout"))
  else mret None.

(** ** A terminal

    The row of the cursor: the cells to its left, the nearest first, and the cells
    from it on. *)
Record screen := Screen { tleft : list Z; tright : list Z }.

Definition put (c : Z) (t : screen) : screen :=
  if c =? 8 then match tleft t with x :: l => Screen l (x :: tright t) | [] => t end
  else if c =? 13 then Screen [] (rev (tleft t) ++ tright t)
  else if c =? 10 then Screen (replicate (length (tleft t)) 32) []
  else if c <? 32 then t
  else Screen (c :: tleft t) (tail (tright t)).
Definition escape (f : Z) (t : screen) : screen :=
  if f =? 67 then Screen (default 32 (head (tright t)) :: tleft t) (tail (tright t))
  else if f =? 68 then match tleft t with x :: l => Screen l (x :: tright t) | [] => t end
  else if f =? 80 then Screen (tleft t) (tail (tright t))
  else if f =? 64 then Screen (tleft t) (32 :: tright t)
  else t.
Fixpoint show (d : list Z) (t : screen) : screen :=
  match d with
  | [] => t
  | c :: d =>
    if c =? 27 then match d with _ :: f :: d => show d (escape f t) | _ => t end
    else show d (put c t)
  end.
Definition show_out (o : hist_out) (t : screen) : screen := match o with Term d => show d t | Mgmt _ => t end.
Definition display (os : list hist_out) (t : screen) : screen := foldl (λ t o, show_out o t) t os.

Definition printable (c : Z) : Prop := 32 ≤ c < 256 ∧ c ≠ 127.
#[export] Instance printable_dec c : Decision (printable c).
Proof. unfold printable. apply _. Defined.

Lemma show_app a b t : 27 ∉ a → show (a ++ b) t = show b (show a t).
Proof.
  revert t. induction a as [|c a IH]; intros t Hn; [done|]. apply not_elem_of_cons in Hn as [Hc Hn]. cbn [app show].
  destruct (Z.eqb_spec c 27); [lia|]. by apply IH.
Qed.
Lemma show_back x L R : show (backspaces (length x)) (Screen (rev x ++ L) R) = Screen L (x ++ R).
Proof.
  revert R. induction x as [|c x IH] using rev_ind; intros R; [done|]. rewrite length_app, Nat.add_comm. cbn [length Nat.add backspaces replicate show].
  rewrite rev_app_distr. cbn. rewrite <- app_assoc. apply IH.
Qed.
Lemma show_text x L R : Forall printable x → show x (Screen L R) = Screen (rev x ++ L) (drop (length x) R).
Proof.
  revert L R. induction x as [|c x IH]; intros L R Hx; [by rewrite drop_0|]. apply Forall_cons in Hx as [[Hc Hc'] Hx]. cbn [show length].
  destruct (Z.eqb_spec c 27); [lia|]. unfold put. destruct (Z.eqb_spec c 8); [lia|]. destruct (Z.eqb_spec c 13); [lia|]. destruct (Z.eqb_spec c 10); [lia|].
  destruct (Z.ltb_spec c 32); [lia|]. cbn [tleft tright]. rewrite IH by done. cbn [rev]. rewrite <- app_assoc. cbn [app]. f_equal. destruct R; [cbn [tail]; by rewrite !drop_nil | done].
Qed.
Lemma printable_no_esc x : Forall printable x → 27 ∉ x.
Proof. intros H Hx. rewrite Forall_forall in H. destruct (H _ Hx). lia. Qed.
Lemma replicate_no_esc n c : c ≠ 27 → 27 ∉ replicate n c.
Proof. intros H [E _]%elem_of_replicate. lia. Qed.
Lemma spaces_printable n : Forall printable (replicate n 32).
Proof. apply Forall_replicate. unfold printable. lia. Qed.
Lemma display_snoc os o t : display (os ++ [o]) t = show_out o (display os t).
Proof. unfold display. by rewrite foldl_snoc. Qed.

(** ** Completion is the longest common extension *)

Lemma commonprefix_spec x y n : (n ≤ length y)%nat → ∃ k, commonprefix x y n = Some k ∧ (k ≤ n)%nat ∧ take k x = take k y ∧ (k ≤ length x)%nat ∧
  ∀ p, p `prefix_of` x → p `prefix_of` y → (length p ≤ n)%nat → (length p ≤ k)%nat.
Proof.
  revert x y. induction n as [|n IH]; intros x y Hn; [exists O; split; [done|]; split; [done|]; split; [by rewrite !take_0|]; split; [lia | intros; lia]|].
  destruct y as [|b y]; [cbn in Hn; lia|]. destruct x as [|a x]; cbn [commonprefix].
  - exists O. split; [done|]. split; [lia|]. split; [done|]. split; [done|]. intros p Hp%prefix_nil_inv _ _. by subst.
  - destruct (Z.eqb_spec a b) as [->|Hne].
    + destruct (IH x y) as (k & -> & Hk & Ht & Hl & Hmax); [cbn in Hn; lia|]. exists (S k). cbn [mbind option_bind take length]. split; [done|]. split; [lia|]. split; [by rewrite Ht|]. split; [lia|].
      intros p Hx Hy Hp. destruct p as [|c p]; [cbn; lia|]. apply prefix_cons_inv_2 in Hx, Hy. cbn [length] in *. apply le_n_S, Hmax; [done | done | lia].
    + exists O. split; [done|]. split; [lia|]. split; [done|]. split; [cbn; lia|]. intros p Hx Hy Hp. destruct p as [|c p]; [done|].
      apply prefix_cons_inv_1 in Hx, Hy. congruence.
Qed.

Lemma commonprefix_sym x y n : commonprefix x y n = commonprefix y x n.
Proof.
  revert x y. induction n as [|n IH]; intros [|a x] [|b y]; try done. cbn [commonprefix]. rewrite (Z.eqb_sym b a), (IH y x). done.
Qed.

(** The state of the loop after the commands [ms] have matched. *)
Definition scanned (acc : nat * list Z * nat) (ms : list (list Z)) : Prop :=
  let '(nm, m, len) := acc in
  nm = length ms ∧ (len ≤ length m)%nat ∧ (ms = [] → len = O) ∧ (∀ c, c ∈ ms → take len m `prefix_of` c) ∧ (∀ c, ms = [c] → m = c ∧ len = length c) ∧
  (ms ≠ [] → m ∈ ms) ∧ ∀ p, ms ≠ [] → (∀ c, c ∈ ms → p `prefix_of` c) → (length p ≤ len)%nat.

Lemma tab_scan_spec line n cmds : ∀ acc ms, scanned acc ms →
  ∃ acc', tab_scan line n cmds acc = Some acc' ∧ scanned acc' (ms ++ List.filter (λ c, strncmp0 line c n) cmds).
Proof.
  induction cmds as [|c cmds IH]; intros [[nm m] len] ms Hs; cbn [tab_scan List.filter]; [exists (nm, m, len); by rewrite app_nil_r|].
  destruct (strncmp0 line c n); [|by apply IH]. destruct Hs as (-> & Hlen & H0 & Hpre & H1 & Hin & Hmax).
  rewrite cons_middle, app_assoc. destruct ms as [|c0 ms].
  - apply IH. cbn [app length]. split; [done|]. split; [done|]. split; [done|]. split; [intros c' ->%list_elem_of_singleton; by rewrite firstn_all|].
    split; [by intros c' [= ->]|]. split; [intros _; by left|]. intros p _ Hp. apply prefix_length, Hp. by left.
  - cbn [length]. set (ms' := c0 :: ms) in *.
    destruct (commonprefix_spec c m len Hlen) as (k & Ek & Hk & Ht & Hkc & Hkm). rewrite commonprefix_sym, Ek.
    cbn [mbind option_bind]. apply IH. split; [by rewrite length_app, Nat.add_comm|]. split; [lia|]. split; [by destruct ms'|]. split.
    { intros c' [Hc'| ->%list_elem_of_singleton]%elem_of_app; [|rewrite <- Ht; apply prefix_take].
      etrans; [|apply Hpre; exact Hc']. replace (take k m) with (take k (take len m)) by (by rewrite take_take, Nat.min_l). apply prefix_take. }
    split; [intros c' E; by destruct ms|]. split; [intros _; apply elem_of_app; left; by apply Hin|].
    intros p _ Hp. apply Hkm; [apply Hp, elem_of_app; right; by left | apply Hp, elem_of_app; left; by apply Hin |]. apply Hmax; [done|]. intros c' Hc'. apply Hp, elem_of_app. by left.
Qed.

Definition line_inv (l : list Z) (i : nat) : Prop := (i ≤ length l)%nat ∧ (length l ≤ 1023)%nat ∧ Forall printable l.

(** The commands that begin with the line up to the cursor. *)
Definition matching (line : list Z) (n : nat) (cmds : list (list Z)) : list (list Z) := List.filter (λ c, strncmp0 line c n) cmds.
Lemma matching_prefix line n cmds c : (n ≤ length line)%nat → c ∈ matching line n cmds → take n line `prefix_of` c.
Proof.
  intros Hn Hc. apply list_elem_of_In, List.filter_In in Hc as [_ Hc]. apply bool_decide_eq_true in Hc. rewrite Hc. apply prefix_take.
Qed.

(** What [tabexpand] does when something matches: the text in common is inserted, and a
    blank behind a single match. *)
Lemma tabexpand_match cmds line i : (0 < i ≤ length line)%nat → matching line i cmds ≠ [] →
  ∃ m len already, m ∈ matching line i cmds ∧ scanned (length (matching line i cmds), m, len) (matching line i cmds) ∧
    (i ≤ already ≤ len)%nat ∧ (already ≤ length line)%nat ∧ take already line = take already m ∧
    tabexpand (Some cmds) line i BUFSIZE = Some (
      if Z.of_nat ((len - already) + length line) <? BUFSIZE then
        let l := take len m ++ drop already line in
        if (length (matching line i cmds) =? 1)%nat && negb (bool_decide (l !! len = Some 32)) && (Z.of_nat (length l + 1) <? BUFSIZE)
        then (take len l ++ 32 :: drop len l, S len) else (l, len)
      else (line, i)).
Proof.
  intros [H0 Hi] Hms. set (ms := matching line i cmds) in *. unfold tabexpand. destruct (Nat.eqb_spec i 0); [lia|].
  destruct (tab_scan_spec line i cmds (O, [], O) []) as ([[nm m] len] & -> & Hs); [split_and!; set_solver|]. cbn [app] in Hs. fold ms in Hs.
  pose proof Hs as (Hnm & Hlen & _ & Hpre & _ & Hin & Hmax). cbn [mbind option_bind]. subst nm.
  assert (length (take i line) ≤ len)%nat as Hge. { apply Hmax; [done|]. intros c Hc. apply matching_prefix with cmds; [lia | done]. }
  rewrite length_take in Hge. destruct (Nat.eqb_spec len 0); [lia|].
  destruct (commonprefix_spec line m len Hlen) as (already & -> & Ha & Ht & Hal & Hkm). cbn [mbind option_bind].
  exists m, len, already. split; [by apply Hin|]. split; [done|]. split.
  { split; [|done]. assert (length (take i line) ≤ already)%nat as H; [|rewrite length_take in H; lia].
    apply Hkm; [apply prefix_take | apply matching_prefix with cmds; [lia | by apply Hin] | rewrite length_take; lia]. }
  split; [done|]. split; [done|]. destruct (Z.ltb_spec (Z.of_nat ((len - already) + length line)) BUFSIZE); [|done].
  replace (take already line ++ take (len - already) (drop already m) ++ drop already line) with (take len m ++ drop already line).
  - cbv zeta. by destruct (_ && _).
  - rewrite app_assoc. f_equal. rewrite Ht, <- (take_drop already (take len m)) at 1. by rewrite take_take, Nat.min_l, firstn_skipn_comm, Nat.add_comm, Nat.sub_add by lia.
Qed.

Lemma tabexpand_ok cmds line i : line_inv line i → (∀ cs, cmds = Some cs → Forall (Forall printable) cs) →
  ∃ l' i', tabexpand cmds line i BUFSIZE = Some (l', i') ∧ line_inv l' i' ∧ (i = length line → i' = length l').
Proof.
  intros (Hi & Hl & Ht) Hcmds. destruct cmds as [cmds|]; [|by exists line, i].
  destruct (decide (i = O)) as [->|H0]; [by exists line, O|].
  destruct (decide (matching line i cmds = [])) as [E|Hms].
  { exists line, i. split; [|done]. unfold tabexpand. destruct (Nat.eqb_spec i 0); [done|].
    destruct (tab_scan_spec line i cmds (O, [], O) []) as ([[nm m] len] & -> & Hs); [split_and!; set_solver|]. cbn [app] in Hs. fold (matching line i cmds) in Hs. rewrite E in Hs.
    destruct Hs as (_ & _ & Hlen & _). rewrite Hlen by done. done. }
  destruct (tabexpand_match cmds line i) as (m & len & already & Hm & Hs & Ha & Hal & Htk & ->); [lia | done|]. destruct Hs as (_ & Hlen & _ & _ & _ & _ & _).
  assert (Forall printable m) as Hmp. { specialize (Hcmds _ eq_refl). rewrite Forall_forall in Hcmds. apply Hcmds. apply list_elem_of_In, List.filter_In in Hm as [Hm _]. by apply list_elem_of_In. }
  destruct (Z.ltb_spec (Z.of_nat ((len - already) + length line)) BUFSIZE) as [Hfit|]; [|by exists line, i]. unfold BUFSIZE in *. cbv zeta.
  set (l := take len m ++ drop already line). assert (length l = (len - already) + length line)%nat as Hll by (unfold l; rewrite length_app, length_take, length_drop; lia).
  assert (Forall printable l) as Hlp by (apply Forall_app_2; [by apply Forall_take | by apply Forall_drop]).
  assert (i = length line → len = length l) as Hend by lia.
  destruct (_ && (Z.of_nat (length l + 1) <? 1024)) eqn:Hc.
  - apply andb_true_iff in Hc as [_ Hc%Z.ltb_lt]. eexists _, _. split; [done|]. split; [split|].
    + rewrite length_app, length_take. cbn [length]. lia.
    + split; [rewrite length_app; cbn [length]; rewrite length_take, length_drop; lia|]. apply Forall_app_2; [by apply Forall_take|]. constructor; [unfold printable; lia | by apply Forall_drop].
    + intros E. rewrite length_app, length_take. cbn [length]. rewrite length_drop. specialize (Hend E). lia.
  - eexists _, _. split; [done|]. split; [|done]. split; [lia|]. split; [lia | done].
Qed.

Lemma matching_filter line cmds : matching line (length line) cmds = filter (λ c, line `prefix_of` c) cmds.
Proof.
  induction cmds as [|c cmds IH]; [done|]. unfold matching. cbn [List.filter]. rewrite filter_cons. fold (matching line (length line) cmds). rewrite IH.
  unfold strncmp0. rewrite firstn_all. destruct (decide (line `prefix_of` c)) as [[r ->]|Hn].
  - rewrite bool_decide_eq_true_2; [done|]. by rewrite take_app_length.
  - rewrite bool_decide_eq_false_2; [done|]. intros E. apply Hn. rewrite E. apply prefix_take.
Qed.

(** the tab key at the end of a line inserts what the commands that begin with it
    have in common, all of it and nothing else; when there is one such command,
    all of it and a blank; and when there is none it changes nothing. *)
Theorem completion_is_longest cmds line ms : line ≠ [] → Forall (λ c, (length c < 1023)%nat) cmds → ms = filter (λ c, line `prefix_of` c) cmds →
  ∃ l', tabexpand (Some cmds) line (length line) BUFSIZE = Some (l', length l') ∧
    (ms = [] → l' = line) ∧ (∀ c, ms = [c] → l' = c ++ [32]) ∧
    ((2 ≤ length ms)%nat → (∀ c, c ∈ ms → l' `prefix_of` c) ∧ ∀ p, (∀ c, c ∈ ms → p `prefix_of` c) → p `prefix_of` l').
Proof.
  intros Hne Hshort ->. rewrite <- matching_filter. set (ms := matching line (length line) cmds). assert (0 < length line)%nat as Hpos by (destruct line; [done | cbn; lia]).
  destruct (decide (ms = [])) as [E|Hms].
  { exists line. split; [|split_and!; [done | intros c Hc; congruence | rewrite E; cbn; lia]]. unfold tabexpand. destruct (Nat.eqb_spec (length line) 0); [lia|].
    destruct (tab_scan_spec line (length line) cmds (O, [], O) []) as ([[nm m] len] & -> & (_ & _ & Hlen & _)); [split_and!; set_solver|]. cbn [mbind option_bind app] in *. by rewrite Hlen. }
  destruct (tabexpand_match cmds line (length line)) as (m & len & already & Hm & Hs & Ha & Hal & Htk & ->); [lia | done|]. fold ms in Hm, Hs |- *.
  destruct Hs as (_ & Hlen & _ & Hpre & Hone & _ & Hmax). assert (already = length line) as -> by lia.
  assert (length m < 1023)%nat as Hml. { rewrite Forall_forall in Hshort. apply Hshort. apply list_elem_of_In, List.filter_In in Hm as [Hm _]. by apply list_elem_of_In. }
  unfold BUFSIZE. destruct (Z.ltb_spec (Z.of_nat (len - length line + length line)) 1024); [|lia]. rewrite drop_all, app_nil_r. cbv zeta.
  assert (length (take len m) = len) as Hl by (rewrite length_take; lia). rewrite (firstn_all2 (take len m)), (skipn_all2 (take len m)) by lia.
  rewrite (lookup_ge_None_2 (take len m)), Hl by lia. rewrite bool_decide_eq_false_2 by done. cbn [negb]. rewrite andb_true_r.
  destruct (Z.ltb_spec (Z.of_nat (len + 1)) 1024); [|lia]. rewrite andb_true_r. destruct (Nat.eqb_spec (length ms) 1) as [E1|N1].
  - exists (take len m ++ [32]). split; [by rewrite length_app, Hl, Nat.add_comm|]. split; [by intros ?|]. split; [|lia]. intros c Hc. destruct (Hone c Hc) as [-> ->]. by rewrite firstn_all.
  - exists (take len m). split; [by rewrite Hl|]. split; [by intros ?|]. split; [intros c Hc; by rewrite Hc in N1|]. intros _. split; [exact Hpre|]. intros p Hp.
    assert (p `prefix_of` m) as [r ->] by (by apply Hp). assert (length p ≤ len)%nat as Hpl by (by apply Hmax). rewrite take_app_ge by done. by apply prefix_app_r.
Qed.
Lemma completion_is_longest_witness : ∃ l', tabexpand (Some [str "port/print"; str "port/create"; str "vlan/add"]) (str "po") 2 BUFSIZE = Some (l', length l') ∧ l' = str "port/".
Proof.
  destruct (completion_is_longest [str "port/print"; str "port/create"; str "vlan/add"] (str "po") [str "port/print"; str "port/create"]) as (l' & E & _ & _ & H).
  - discriminate.
  - repeat constructor; apply (bool_decide_eq_true_1 _); vm_compute; reflexivity.
  - vm_compute. reflexivity.
  - exists l'. split; [exact E|]. vm_compute in E. injection E as <- _. reflexivity.
Defined.

(** ** The terminal shows the line *)

Lemma wp_step {S A B} (m : M S A) (k : A → M S B) Q s a s1 : m s = Done a s1 → wp (k a) Q s1 → wp (m ≫= k) Q s.
Proof. unfold wp, mbind, M_bind. by intros ->. Qed.

(** The next step of a computation that reads or changes the state. *)
Ltac wstep := lazymatch goal with
  | |- wp (get ≫= _) _ _ => apply wp_bind, wp_get
  | |- wp (modify _ ≫= _) _ _ => apply wp_bind, wp_modify
  | |- wp (termwrite _ ≫= _) _ _ => apply wp_bind, wp_modify
  | |- wp (mgmtwrite _ ≫= _) _ _ => apply wp_bind, wp_modify
  | |- wp (mret _ ≫= _) _ _ => apply wp_bind, wp_ret
  end; cbv beta iota.

Section Display.
Context (prompt : list Z) (Hprompt : Forall printable prompt) (logincmd : list Z → nat → M hist (option (list Z))) (t0 : screen).

(** What the terminal shows after all that was written since [t0]. *)
Definition shown (s : hist) : screen := display (out s) t0.
Definition shows (s : hist) : Prop :=
  ∃ k, shown s = Screen (rev (prompt ++ take (bufindex s) (linebuf s))) (drop (bufindex s) (linebuf s) ++ replicate k 32).
(** The line, or the row, is blank. *)
Definition blank (prompt_too : bool) (t : screen) : Prop := ∃ k, t = Screen (rev (if prompt_too then [] else prompt)) (replicate k 32).

Definition line_ok (s : hist) : Prop := line_inv (linebuf s) (bufindex s).

Lemma shown_out o s : shown (add_out o s) = show_out o (shown s).
Proof. apply display_snoc. Qed.

Lemma erase_blank p s : line_ok s → shows s → ∃ d, erase_line prompt p s = Done () (add_out (Term d) s) ∧ blank p (shown (add_out (Term d) s)).
Proof.
  intros (Hi & Hl & Ht) [k Hk].
  exists (let q := if p then length prompt else O in let size := (length (linebuf s) + q)%nat in backspaces (bufindex s + q) ++ replicate size 32 ++ backspaces size).
  split; [reflexivity|]. rewrite shown_out, Hk. cbv zeta. cbn [show_out]. set (i := bufindex s) in *. set (l := linebuf s) in *.
  set (pl := if p then length prompt else O). set (keep := if p then [] else prompt). set (gone := if p then prompt else []).
  assert (prompt = keep ++ gone) as Ep by (unfold keep, gone; destruct p; by rewrite ?app_nil_r).
  assert (length gone = pl) as Hpl by (unfold gone, pl; by destruct p).
  replace (i + pl)%nat with (length (gone ++ take i l)) by (rewrite length_app, length_take; lia).
  rewrite Ep, <- app_assoc, rev_app_distr, show_app by (by apply replicate_no_esc). rewrite show_back, <- app_assoc, (app_assoc (take i l)), take_drop.
  rewrite show_app by (by apply replicate_no_esc). rewrite show_text by apply spaces_printable. rewrite length_replicate.
  replace (length l + pl)%nat with (length (gone ++ l)) by (rewrite length_app; lia). rewrite (app_assoc gone l), drop_app_length.
  replace (backspaces (length (gone ++ l))) with (backspaces (length (replicate (length (gone ++ l)) 32))) by (by rewrite length_replicate).
  rewrite show_back, <- replicate_add. by eexists.
Qed.

Lemma redraw_shows p s : line_ok s → blank p (shown s) → ∃ d, redraw_line prompt p s = Done () (add_out (Term d) s) ∧ shows (add_out (Term d) s).
Proof.
  intros (Hi & Hl & Ht) [k Hk]. exists ((if p then prompt else []) ++ linebuf s ++ backspaces (length (linebuf s) - bufindex s)).
  split; [reflexivity|]. unfold shows. rewrite shown_out, Hk. cbn [show_out bufindex linebuf add_out]. set (i := bufindex s) in *. set (l := linebuf s) in *.
  set (pre := if p then prompt else []). set (keep := if p then [] else prompt).
  assert (prompt = keep ++ pre) as Ep by (unfold keep, pre; destruct p; by rewrite ?app_nil_r).
  assert (Forall printable pre) as Hpre by (unfold pre; destruct p; [done | constructor]).
  rewrite (app_assoc pre), show_app by (apply printable_no_esc, Forall_app_2; done). rewrite show_text by (by apply Forall_app_2).
  replace (length l - i)%nat with (length (drop i l)) by (by rewrite length_drop).
  exists (k - length (pre ++ l))%nat. rewrite drop_replicate, Ep, <- app_assoc. fold keep.
  replace (rev (pre ++ l) ++ rev keep) with (rev (drop i l) ++ rev (keep ++ pre ++ take i l)).
  - apply show_back.
  - rewrite <- !rev_app_distr, <- !app_assoc, take_drop. done.
Qed.

Definition text_ok (l : list Z) : Prop := (length l ≤ 1023)%nat ∧ Forall printable l.
Definition history_ok (h : list (option (list Z))) (i : Z) : Prop :=
  length h = 32%nat ∧ 0 ≤ i < 32 ∧ (∀ j l, h !! j = Some (Some l) → text_ok l) ∧ ∀ j : nat, Z.of_nat j < i → ∃ l, h !! j = Some (Some l).
Definition hist_inv (st : Z) (ec ed : bool) (l : list Z) (i : nat) (h : list (option (list Z))) (hi : Z) (cmds : option (list (list Z))) : Prop :=
  st = HIST_COMMAND ∧ ec = true ∧ line_inv l i ∧ (ed = true ∨ i = length l) ∧ history_ok h hi ∧ ∀ cs, cmds = Some cs → Forall (Forall printable) cs.
Definition hist_ok (s : hist) : Prop := hist_inv (status s) (echo s) (edited s) (linebuf s) (bufindex s) (history s) (histindex s) (commandlist s).
Definition good (s : hist) : Prop := hist_ok s ∧ shows s.

(** *** History *)

Lemma put_ok s : history_ok (history s) (histindex s) → text_ok (linebuf s) → ∃ h, put_history s = Done () (set_history h (histindex s) s) ∧
  history_ok h (histindex s) ∧ h = <[Z.to_nat (histindex s) := Some (linebuf s)]> (history s).
Proof.
  intros (Hlen & Hi & Ht & Hlow) Hl. set (h := <[Z.to_nat (histindex s) := Some (linebuf s)]> (history s)). exists h.
  assert (zset (history s) (histindex s) (Some (linebuf s)) = Some h) as E.
  { unfold zset. destruct (Z.ltb_spec (histindex s) 0); [lia|]. destruct (Z.leb_spec (Z.of_nat (length (history s))) (histindex s)); [lia | done]. }
  split; [|split; [|done]].
  - unfold put_history, mbind, M_bind, get. rewrite E. done.
  - unfold history_ok, h. rewrite length_insert. split; [done|]. split; [done|]. split.
    + intros j l Hj. destruct (decide (j = Z.to_nat (histindex s))) as [->|Hne]; [rewrite list_lookup_insert_eq in Hj by lia; by injection Hj as <- | rewrite list_lookup_insert_ne in Hj by done; eauto].
    + intros j Hj. rewrite list_lookup_insert_ne by lia. by apply Hlow.
Qed.

Definition clamp (i : Z) : Z := let i := if i <? 0 then 0 else i in if HISTORYSIZE <=? i then HISTORYSIZE - 1 else i.
Lemma get_to s change j l : clamp (histindex s + change) = Z.of_nat j → history s !! j = Some (Some l) →
  get_history change s = Done () (set_line l (length l) (set_history (history s) (Z.of_nat j) s)).
Proof.
  intros Hj Hl. unfold get_history, mbind, M_bind, get. change (if HISTORYSIZE <=? _ then _ else _) with (clamp (histindex s + change)).
  cbv zeta. rewrite Hj, zget_nat, Hl. cbn [deref]. unfold mret, M_ret. rewrite zget_nat, Hl. done.
Qed.
Lemma get_none s change j l : clamp (histindex s + change) = Z.of_nat (S j) → history s !! S j = Some None → history s !! j = Some (Some l) →
  get_history change s = Done () (set_line l (length l) (set_history (history s) (Z.of_nat j) s)).
Proof.
  intros Hj Hn Hl. unfold get_history, mbind, M_bind, get. change (if HISTORYSIZE <=? _ then _ else _) with (clamp (histindex s + change)).
  cbv zeta. rewrite Hj, zget_nat, Hn. cbn [deref]. unfold mret, M_ret. replace (Z.of_nat (S j) - 1) with (Z.of_nat j) by lia. rewrite zget_nat, Hl. done.
Qed.
Lemma clamp_in i : 0 ≤ i < 32 → clamp i = i.
Proof. intros H. unfold clamp. destruct (Z.ltb_spec i 0); [lia|]. unfold HISTORYSIZE. destruct (Z.leb_spec 32 i); lia. Qed.

(** The entry that an arrow goes to exists, when the current one was stored. *)
Lemma get_ok s change m l0 : change = 1 ∨ change = -1 → history_ok (history s) (histindex s) → histindex s = Z.of_nat m → history s !! m = Some (Some l0) →
  ∃ j l, get_history change s = Done () (set_line l (length l) (set_history (history s) (Z.of_nat j) s)) ∧ history_ok (history s) (Z.of_nat j) ∧
    history s !! j = Some (Some l) ∧ (change = 1 → ∀ l', history s !! S m = Some (Some l') → j = S m) ∧ (change = -1 → j = Nat.pred m).
Proof.
  intros Hc (Hlen & Hi & Ht & Hlow) Hm Hl0. rewrite Hm in Hlow, Hi.
  assert (∀ j : nat, (j < 32)%nat → (∀ k, (k < j)%nat → ∃ l, history s !! k = Some (Some l)) → history_ok (history s) (Z.of_nat j)) as Hnew.
  { intros j Hj Hk. split; [done|]. split; [lia|]. split; [done|]. intros k Hkj. apply Hk. lia. }
  assert (∀ k, (k < S m)%nat → ∃ l, history s !! k = Some (Some l)) as Hlow'.
  { intros k Hk. destruct (decide (k = m)) as [->|]; [eauto|]. apply Hlow. lia. }
  destruct Hc as [->| ->].
  - destruct (decide (m = 31%nat)) as [->|Hne].
    + exists 31%nat, l0. split; [apply get_to; [by rewrite Hm | done]|]. split; [apply Hnew; [lia|]; intros; apply Hlow'; lia|]. split; [done|]. split; [|done].
      intros _ l' Hl'. apply lookup_lt_Some in Hl'. lia.
    + destruct (history s !! S m) as [[l|]|] eqn:E; [| |apply lookup_ge_None in E; lia].
      * exists (S m), l. split; [apply get_to; [rewrite Hm, clamp_in; lia | done]|]. split; [apply Hnew; [lia | done]|]. done.
      * exists m, l0. split; [apply get_none; [rewrite Hm, clamp_in; lia | done | done]|]. split; [apply Hnew; [lia|]; intros; apply Hlow'; lia|]. by split_and!.
  - destruct m as [|m].
    + exists O, l0. split; [apply get_to; [by rewrite Hm | done]|]. split; [apply Hnew; [lia|]; intros; lia|]. by split_and!.
    + destruct (Hlow' m) as [l Hl]; [lia|]. exists m, l. split; [apply get_to; [rewrite Hm, clamp_in; lia | done]|]. split; [apply Hnew; [lia|]; intros; apply Hlow'; lia|]. by split_and!.
Qed.

(** *** Keys *)

Lemma good_line s : good s → line_ok s.
Proof. by intros [(_ & _ & H & _) _]. Qed.
Lemma good_text s : good s → text_ok (linebuf s).
Proof. intros [(_ & _ & (_ & H & H') & _) _]. by split. Qed.
Lemma shown_same s s' : out s' = out s → shown s' = shown s.
Proof. unfold shown. by intros ->. Qed.

Lemma wp_erase {A} p (k : M hist A) Q s : good s → (∀ d, hist_ok (add_out (Term d) s) → blank p (shown (add_out (Term d) s)) → wp k Q (add_out (Term d) s)) →
  wp (erase_line prompt p ;; k) Q s.
Proof.
  intros Hg Hk. destruct (erase_blank p s) as (d & Ed & Hb); [by apply good_line | apply Hg|].
  apply (wp_step _ _ _ _ _ _ Ed). apply Hk; [apply Hg | done].
Qed.
Lemma wp_redraw p Q s : hist_ok s → blank p (shown s) → (∀ d, good (add_out (Term d) s) → Q () (add_out (Term d) s)) → wp (redraw_line prompt p) Q s.
Proof.
  intros Hok Hb HQ. destruct (redraw_shows p s) as (d & E & Hs); [apply Hok | done|]. unfold wp. rewrite E. apply HQ. by split.
Qed.
Lemma hist_ok_line s l i : hist_ok s → line_inv l i → edited s = true ∨ i = length l → hist_ok (set_line l i s).
Proof. intros (H1 & H2 & _ & _ & H3 & H4) Hl He. done. Qed.

Lemma showexpand_ok s : hist_ok s → blank true (shown s) → wp showexpand (λ _ s', hist_ok s' ∧ blank true (shown s')) s.
Proof.
  intros Hok Hb. unfold showexpand. wstep. destruct (commandlist s) as [cmds|] eqn:Ec; [|done]. cbv zeta.
  set (ms := List.filter _ cmds). destruct (_ && _); [|done]. split; [done|]. change (blank true (shown (add_out (Term (concat ((λ c, c ++ [32]) <$> ms) ++ [13; 10])) s))).
  rewrite shown_out. cbn [show_out].
  assert (Forall printable (concat ((λ c, c ++ [32]) <$> ms))) as Hp.
  { apply Forall_concat, Forall_fmap, Forall_forall. intros c Hc. cbn. apply Forall_app_2; [|repeat constructor; unfold printable; lia].
    destruct Hok as (_ & _ & _ & _ & _ & Hcs). specialize (Hcs _ Ec). rewrite Forall_forall in Hcs. apply Hcs. apply list_elem_of_In, List.filter_In in Hc as [Hc _]. by apply list_elem_of_In. }
  rewrite show_app by (by apply printable_no_esc). destruct (show _ (shown s)) as [L R]. by exists O.
Qed.

Lemma tab_ok s : good s → wp (tab_key prompt) (λ _ s', good s') s.
Proof.
  intros Hg. unfold tab_key. wstep. destruct (lastchar s =? 9).
  - apply wp_erase; [done|]. intros d Hok Hb. apply wp_bind. eapply wp_mono; [by apply showexpand_ok|]. intros [] s' [Hok' Hb']. apply wp_redraw; [done | done|]. auto.
  - apply wp_erase; [done|]. intros d Hok Hb. pose proof Hg as [(_ & _ & Hl & He & _ & Hc) _].
    destruct (tabexpand_ok _ _ _ Hl Hc) as (l' & i' & -> & Hl' & Hend). cbn [deref]. wstep. wstep.
    apply wp_redraw; [|exact Hb|auto]. apply hist_ok_line; [done | done|]. cbn [edited add_out]. destruct He; [by left | right; auto].
Qed.

(** An arrow stores the line in the entry of the history it was in and goes to another. *)
Definition moved (change : Z) (m : nat) (s s' : hist) : Prop :=
  ∃ j l, history s' = <[m := Some (linebuf s)]> (history s) ∧ histindex s' = Z.of_nat j ∧ linebuf s' = l ∧ bufindex s' = length l ∧ history s' !! j = Some (Some l) ∧
    (change = 1 → ∀ l', history s' !! S m = Some (Some l') → j = S m) ∧ (change = -1 → j = Nat.pred m).
Lemma history_step change m s d : change = 1 ∨ change = -1 → good s → edited s = true → histindex s = Z.of_nat m → blank false (shown (add_out (Term d) s)) →
  wp (put_history ;; get_history change) (λ _ s', hist_ok s' ∧ blank false (shown s') ∧ moved change m s s') (add_out (Term d) s).
Proof.
  intros Hc Hg He Hm Hb. pose proof Hg as [(Hs & Hec & _ & _ & Hh & Hcs) _]. destruct (put_ok (add_out (Term d) s) Hh (good_text _ Hg)) as (h & Ep & Hh' & Eh).
  cbn [histindex add_out history linebuf] in Eh. rewrite Hm, Nat2Z.id in Eh.
  apply (wp_step _ _ _ _ _ _ Ep).
  destruct (get_ok (set_history h (histindex (add_out (Term d) s)) (add_out (Term d) s)) change m (linebuf s)) as (j & l & Eg & Hj & Hjl & Hup & Hdown); [done | done | done | |].
  { cbn [history set_history]. rewrite Eh. apply list_lookup_insert_eq. destruct Hh as (-> & Hr & _). lia. }
  unfold wp. rewrite Eg. destruct Hj as (Hj1 & Hj2 & Hj3 & Hj4). destruct (Hj3 _ _ Hjl) as [Hll Hlp].
  split; [split; [done|]; split; [done|]; split; [by split|]; split; [by left|]; by split|]. split; [exact Hb|]. exists j, l. by split_and!.
Qed.

Lemma good_end s : good s → bufindex s = length (linebuf s) → good (set_line (linebuf s) (length (linebuf s)) s).
Proof. intros Hg <-. by destruct s. Qed.
Lemma at_cursor (l : list Z) i x : l !! i = Some x → drop i l = x :: drop (S i) l ∧ take (S i) l = take i l ++ [x].
Proof. intros H. split; [by apply drop_S | by apply take_S_r]. Qed.
Lemma rev_snoc (a b : list Z) x : rev (a ++ b ++ [x]) = x :: rev (a ++ b).
Proof. by rewrite app_assoc, rev_app_distr. Qed.

(** The cursor moves by one cell. *)
Lemma right_shows s : line_ok s → shows s → (bufindex s < length (linebuf s))%nat → shows (set_line (linebuf s) (S (bufindex s)) (add_out (Term [27; 91; 67]) s)).
Proof.
  intros _ [k Hk] Hi. exists k. change (shown _) with (display (out s ++ [Term [27; 91; 67]]) t0). rewrite display_snoc. change (display (out s) t0) with (shown s).
  rewrite Hk. cbn [linebuf bufindex set_line]. destruct (lookup_lt_is_Some_2 (linebuf s) (bufindex s)) as [x Hx]; [done|]. destruct (at_cursor _ _ _ Hx) as [-> ->]. by rewrite rev_snoc.
Qed.
Lemma left_shows s i : line_ok s → shows s → bufindex s = S i → shows (set_line (linebuf s) i (add_out (Term [27; 91; 68]) s)).
Proof.
  intros (Hl & _ & _) [k Hk] Hi. exists k. change (shown _) with (display (out s ++ [Term [27; 91; 68]]) t0). rewrite display_snoc. change (display (out s) t0) with (shown s).
  rewrite Hk. cbn [linebuf bufindex set_line]. rewrite Hi in *. destruct (lookup_lt_is_Some_2 (linebuf s) i) as [x Hx]; [lia|]. destruct (at_cursor _ _ _ Hx) as [-> ->]. by rewrite rev_snoc.
Qed.

Lemma good_edited s : good s → good (set_edited true s).
Proof. intros [(H1 & H2 & H3 & _ & H5) Hs]. split; [|exact Hs]. split; [done|]. split; [done|]. split; [done|]. split; [by left | done]. Qed.

Lemma arrow_moves change m s : (change = 1 ∨ change = -1) → good s → histindex s = Z.of_nat m →
  wp (arrow prompt (if change =? 1 then 65 else 66)) (λ _ s', good s' ∧ moved change m s s') s.
Proof.
  intros Hc Hg Hm. unfold arrow. wstep. wstep. set (s1 := set_edited true s). assert (good s1) as Hg1 by (by apply good_edited).
  assert (∀ (k : M hist ()), (∀ s3, hist_ok s3 → blank false (shown s3) → moved change m s1 s3 → wp k (λ _ s', good s' ∧ moved change m s s') s3) →
    wp (erase_line prompt false ;; put_history ;; get_history change ;; k) (λ _ s', good s' ∧ moved change m s s') s1) as Hmove.
  { intros k Hk. apply wp_erase; [done|]. intros d Hok Hb. pose proof (history_step change m s1 d Hc Hg1 eq_refl Hm Hb) as H. apply wp_bind_inv in H.
    apply wp_bind. eapply wp_mono; [exact H|]. intros [] s2 H2. apply wp_bind. eapply wp_mono; [exact H2|]. intros [] s3 (Hok3 & Hb3 & Hend). by apply Hk. }
  destruct Hc as [-> | ->].
  - change (1 =? 1) with true. cbv iota. change (65 =? 65) with true. cbv iota. apply Hmove. intros s3 Hok3 Hb3 Hmv. apply wp_bind, wp_redraw; [done..|]. intros d Hg'. apply wp_modify.
    destruct Hmv as (j & l & H1 & H2 & H3 & H4 & H5). split; [apply good_end; [done | cbn; by rewrite H4, H3]|]. exists j, l. cbn. rewrite H3. by destruct H5 as (? & ? & ?).
  - change (-1 =? 1) with false. cbv iota. change (66 =? 65) with false. change (66 =? 66) with true. cbv iota. apply Hmove. intros s3 Hok3 Hb3 Hmv. apply wp_redraw; [done..|]. intros d Hg'. split; [done | exact Hmv].
Qed.

Lemma arrow_ok c s : good s → wp (arrow prompt c) (λ _ s', good s') s.
Proof.
  intros Hg. destruct (Z_of_nat_complete (histindex s)) as [m Hm]; [destruct Hg as [(_ & _ & _ & _ & (_ & Hr & _) & _) _]; lia|].
  destruct (Z.eqb_spec c 65) as [->|H65]; [eapply wp_mono; [apply (arrow_moves 1 m s); [by left | done..]|]; by intros [] s' [? _]|].
  destruct (Z.eqb_spec c 66) as [->|H66]; [eapply wp_mono; [apply (arrow_moves (-1) m s); [by right | done..]|]; by intros [] s' [? _]|].
  unfold arrow. wstep. wstep. set (s1 := set_edited true s). assert (good s1) as Hg1 by (by apply good_edited). apply Z.eqb_neq in H65, H66. rewrite H65, H66.
  destruct (c =? 67).
  { destruct (Nat.ltb_spec (bufindex s1) (length (linebuf s1))); [|by apply wp_ret]. wstep. apply wp_modify. pose proof Hg1 as [Hok1 Hs1]. split; [|apply right_shows; [apply Hok1 | done..]].
    pose proof Hok1 as (_ & _ & (Hi & Hl & Ht) & _). apply (hist_ok_line (add_out _ s1)); [exact Hok1 | split; [cbn in *; lia | done] | by left]. }
  destruct (c =? 68); [|by apply wp_ret]. destruct (Nat.ltb_spec 0 (bufindex s1)); [|by apply wp_ret]. wstep. apply wp_modify. pose proof Hg1 as [Hok1 Hs1].
  destruct (bufindex s1) as [|i] eqn:Ei; [lia|]. cbn [Nat.pred]. split; [|apply left_shows; [apply Hok1 | done..]].
  pose proof Hok1 as (_ & _ & (Hi & Hl & Ht) & _). apply (hist_ok_line (add_out _ s1)); [exact Hok1 | split; [lia | done] | by left].
Qed.

Lemma ctrl_ok c s : c ≠ 1 → good s → wp (ctrl_key prompt c) (λ _ s', good s') s.
Proof.
  intros Hc Hg. unfold ctrl_key. wstep. destruct (c =? 3).
  { unfold erase_line. destruct (erase_blank false s) as (d & Ed & k & Hb); [by apply good_line | apply Hg|]. apply (wp_step _ _ _ _ _ _ Ed). apply wp_modify.
    split; [apply hist_ok_line; [apply Hg | split; [cbn; lia | split; [cbn; lia | constructor]] | by right]|]. exists k. change (shown _) with (shown (add_out (Term d) s)). by rewrite Hb, app_nil_r. }
  destruct (c =? 12). { apply wp_erase; [done|]. intros d Hok Hb. apply wp_redraw; [done..|]. auto. }
  destruct (Z.eqb_spec c 1); [done|]. destruct (c =? 5); [|destruct (c =? 9); [by apply tab_ok | by apply wp_ret]].
  apply wp_erase; [done|]. intros d Hok Hb. wstep. apply wp_bind, wp_redraw; [|exact Hb|intros d' Hg'; by apply tab_ok].
  pose proof Hok as (_ & _ & (Hi & Hl & Ht) & _). apply hist_ok_line; [done | by split | by right].
Qed.

Lemma echoing_ok s : hist_ok s → echoing s = true.
Proof. intros (Hs & He & _). unfold echoing. by rewrite Hs, He. Qed.

Lemma delete_ok s : good s → wp delete_key (λ _ s', good s') s.
Proof.
  intros Hg. unfold delete_key. wstep. destruct (bufindex s) as [|i] eqn:Ei; [by apply wp_ret|]. wstep. rewrite (echoing_ok s) by apply Hg. apply wp_modify.
  pose proof Hg as [(H1 & H2 & (Hi & Hl & Ht) & He & H5) [k Hk]]. rewrite Ei in *. set (l := linebuf s) in *.
  destruct (lookup_lt_is_Some_2 l i) as [x Hx]; [lia|]. destruct (at_cursor _ _ _ Hx) as [Ed Et].
  assert (length (take i l) = i) as Hti by (rewrite length_take; lia). set (l' := take i l ++ drop (S i) l).
  assert (take i l' = take i l ∧ drop i l' = drop (S i) l) as [Ht' Hd'] by (split; [by apply take_app_length' | by apply drop_app_length']).
  split.
  - split; [done|]. split; [done|]. assert (length l' = Nat.pred (length l)) as Hll by (unfold l'; rewrite length_app, length_take, length_drop; lia).
    split; [split; [cbn [linebuf bufindex set_line add_out]; lia|]; split; [cbn [linebuf set_line add_out]; lia | apply Forall_app_2; [by apply Forall_take | by apply Forall_drop]]|].
    split; [|exact H5]. cbn [edited bufindex linebuf set_line add_out]. destruct He as [He|He]; [by left | right; lia].
  - set (d := if edited s then _ else _). exists (if edited s then k else S k). change (shown _) with (display (out s ++ [Term d]) t0). rewrite display_snoc. change (display (out s) t0) with (shown s).
    rewrite Hk, Et, rev_snoc. cbn [linebuf bufindex set_line add_out]. rewrite Ht', Hd'. unfold d. destruct (edited s) eqn:Eed; [done|]. destruct He as [?|He]; [done|].
    cbn. rewrite (skipn_all2 l) by lia. done.
Qed.

Lemma insert_ok c s : printable c → (length (linebuf s) < 1023)%nat → good s → wp (plain_key prompt logincmd c) (λ rv s', rv = 0 ∧ good s' ∧
  linebuf s' = take (bufindex s) (linebuf s) ++ c :: drop (bufindex s) (linebuf s) ∧ bufindex s' = S (bufindex s) ∧ history s' = history s ∧ histindex s' = histindex s) s.
Proof.
  intros [Hc Hc'] Hlen Hg. unfold plain_key. wstep. rewrite (echoing_ok s) by apply Hg. pose proof Hg as [(H1 & H2 & (Hi & Hl & Ht) & He & H5) [k Hk]].
  set (l := linebuf s) in *. set (i := bufindex s) in *.
  assert (length (take i l) = i) as Hti by (rewrite length_take; lia). set (l' := take i l ++ c :: drop i l).
  assert (take (S i) l' = take i l ++ [c] ∧ drop (S i) l' = drop i l) as [Ht' Hd'].
  { unfold l'. rewrite cons_middle, app_assoc. split; [apply take_app_length' | apply drop_app_length']; rewrite length_app; cbn; lia. }
  assert (line_inv l' (S i)) as Hl'.
  { unfold l'. split; [rewrite length_app; cbn [length]; rewrite length_drop; lia|]. split; [rewrite length_app; cbn [length]; rewrite length_drop; lia|].
    apply Forall_app_2; [by apply Forall_take|]. constructor; [by split | by apply Forall_drop]. }
  assert (∀ s1, (edited s = true ∧ s1 = add_out (Term [c]) (add_out (Term [27; 91; 64]) s)) ∨ (i = length l ∧ s1 = add_out (Term [c]) s) → shows (set_line l' (S i) s1)) as Hsh.
  { intros s1 Hs1. unfold shows. cbn [linebuf bufindex set_line]. rewrite Ht', Hd', rev_snoc. change (shown (set_line l' (S i) s1)) with (shown s1).
    assert (∀ t, show [c] t = Screen (c :: tleft t) (tail (tright t))) as Hput.
    { intros [L R]. rewrite (show_text [c]) by (repeat constructor; lia). by destruct R. }
    destruct Hs1 as [[_ ->]|[Hend ->]]; rewrite ?shown_out; cbn [show_out]; rewrite Hput, Hk; [by exists k|]. exists (Nat.pred k). rewrite (skipn_all2 l) by lia. by destruct k. }
  assert (∀ s1, status s1 = status s → echo s1 = echo s → edited s1 = edited s → linebuf s1 = l → bufindex s1 = i → history s1 = history s → histindex s1 = histindex s → commandlist s1 = commandlist s →
    shows (set_line l' (S i) s1) →
    wp (if c =? 13 then mret 0 else if c =? 10 then enter_key prompt logincmd else insert_char c ;; mret 0) (λ rv s', rv = 0 ∧ good s' ∧ linebuf s' = l' ∧ bufindex s' = S i ∧ history s' = history s ∧ histindex s' = histindex s) s1) as Hins.
  { intros s1 E1 E2 E3 E4 E5 E6 E7 E8 Hs1. destruct (Z.eqb_spec c 13); [lia|]. destruct (Z.eqb_spec c 10); [lia|]. unfold insert_char. apply wp_bind. wstep. rewrite E4, E5.
    unfold BUFSIZE. destruct (Z.ltb_spec 1024 (Z.of_nat (length l) + 2)); [lia|]. apply wp_modify, wp_ret. split; [done|]. split; [|done]. split; [|exact Hs1].
    unfold hist_ok. cbn [status echo edited linebuf bufindex history histindex commandlist set_line]. rewrite E1, E2, E3, E6, E7, E8. split; [done|]. split; [done|]. split; [done|]. split; [|done].
    destruct He as [He|He]; [by left | right]. unfold l'. rewrite length_app. cbn [length]. rewrite length_drop. lia. }
  apply wp_bind. destruct (edited s) eqn:Ee.
  - destruct (Z.leb_spec 32 c); [|lia]. cbn [andb]. wstep. apply wp_modify. apply Hins; [done..|]. apply Hsh. by left.
  - cbn [andb]. wstep. apply wp_modify. destruct He as [?|He]; [done|]. apply Hins; [done..|]. apply Hsh. by right.
Qed.

(** What [enter_key] leaves of the history. *)
Definition entered (l : list Z) (h : list (option (list Z))) : list (option (list Z)) :=
  let h := <[O := Some l]> h in if (0 <? length l)%nat then None :: take 31 h else h.
Lemma entered_ok l h i : history_ok h i → text_ok l → history_ok (entered l h) 0.
Proof.
  intros (Hlen & _ & Ht & _) Hl. assert (∀ j l', <[O := Some l]> h !! j = Some (Some l') → text_ok l') as Hin.
  { intros j l' Hj. destruct j as [|j]; [rewrite list_lookup_insert_eq in Hj by lia; by injection Hj as <- | rewrite list_lookup_insert_ne in Hj by done; eauto]. }
  unfold entered. destruct (0 <? length l)%nat; unfold history_ok.
  - cbn [length]. rewrite length_take, length_insert. split; [lia|]. split; [lia|]. split; [|intros; lia]. intros [|j] l' Hj; [done|]. cbn [lookup list_lookup] in Hj. apply lookup_take_Some in Hj as [Hj _]. eauto.
  - rewrite length_insert. split; [done|]. split; [lia|]. split; [exact Hin | intros; lia].
Qed.

(** The lines that end the session. *)
Definition leaves (l : list Z) : bool :=
  let cmd := skip_blanks l in strncmp0 cmd (str "logout") 6 || (negb (bool_decide (cmd = [])) && strncmp0 cmd (str "shutdown") 8).

(** A new row with the prompt comes after every line sent. *)
Lemma send_line_ok l s : wp (send_line prompt l) (λ rv s', (leaves l = false → rv = 0) ∧ (rv = 0 → shown s' = Screen (rev prompt) [] ∧
  status s' = status s ∧ echo s' = echo s ∧ history s' = history s ∧ (∀ cs, commandlist s' = Some cs → commandlist s = Some cs))) s.
Proof using Hprompt.
  unfold send_line, leaves. cbv zeta. destruct (strncmp0 (skip_blanks l) (str "logout") 6); [by apply wp_ret|]. cbn [orb]. wstep.
  set (Q := λ (rv : Z) (s' : hist), _). 
  assert (∀ s1, status s1 = status s → echo s1 = echo s → history s1 = history s → commandlist s1 = commandlist s →
    wp (termwrite [13; 10] ;; termwrite prompt ;; s ← get; (if strncmp0 (skip_blanks l) (str "plugin/add") 10 || strncmp0 (skip_blanks l) (str "plugin/del") 10 then modify (set_commands None (helpin s)) else mret ()) ;; mret 0)
      (λ rv s', rv = 0 ∧ shown s' = Screen (rev prompt) [] ∧ status s' = status s ∧ echo s' = echo s ∧ history s' = history s ∧ (∀ cs, commandlist s' = Some cs → commandlist s = Some cs)) s1) as Hend.
  { intros s1 E1 E2 E3 E4. wstep. wstep. wstep. set (s2 := add_out (Term prompt) (add_out (Term [13; 10]) s1)).
    assert (shown s2 = Screen (rev prompt) []) as Hs2.
    { unfold s2. rewrite !shown_out. cbn [show_out]. destruct (shown s1) as [L R]. cbn. rewrite show_text by done. by rewrite app_nil_r, drop_nil. }
    apply wp_bind. destruct (_ || _); [apply wp_modify, wp_ret | apply wp_ret, wp_ret]; (split; [done|]; split; [done|]; split; [done|]; split; [done|]; split; [done|]).
    - done.
    - cbn. by rewrite E4. }
  apply wp_bind. case_bool_decide as Hb.
  - apply wp_ret. cbn [negb andb]. eapply wp_mono; [by apply Hend|]. intros rv s' (-> & H). by split.
  - apply wp_modify. cbn [negb andb]. destruct (strncmp0 (skip_blanks l) (str "shutdown") 8); [by apply wp_ret|]. eapply wp_mono; [by apply Hend|]. intros rv s' (-> & H). by split.
Qed.

Lemma enter_ok s : good s → wp (plain_key prompt logincmd 10) (λ rv s', (leaves (linebuf s) = false → rv = 0) ∧ (rv = 0 → good s' ∧
  linebuf s' = [] ∧ bufindex s' = O ∧ edited s' = false ∧ history s' = entered (linebuf s) (history s) ∧ histindex s' = 0)) s.
Proof using Hprompt.
  intros Hg. unfold plain_key. wstep. rewrite (echoing_ok s) by apply Hg. change (32 <=? 10) with false. rewrite andb_false_r. apply wp_bind. wstep. apply wp_modify.
  change (10 =? 13) with false. change (10 =? 10) with true. cbv iota. set (s0 := add_out (Term [10]) s). unfold enter_key. wstep.
  pose proof Hg as [(H1 & H2 & (Hi & Hl & Ht) & He & H5 & H6) _]. change (status s0) with (status s). rewrite H1, Z.eqb_refl. apply wp_bind. wstep.
  set (s1 := set_history (history s0) 0 s0).
  destruct (put_ok s1) as (h & Ep & Hh & Eh); [destruct H5 as (Ha & _ & Hb & _); split; [done|]; split; [cbn; lia|]; split; [done | cbn; lia] | by split|].
  apply (wp_step _ _ _ _ _ _ Ep). set (s2 := set_history h (histindex s1) s1).
  assert (wp (if (0 <? length (linebuf s0))%nat then shift_history else mret ()) (λ _ s3, s3 = set_history (entered (linebuf s) (history s)) 0 s0) s2) as Hsh.
  { unfold entered. change (linebuf s0) with (linebuf s). destruct (0 <? length (linebuf s))%nat; [apply wp_modify | apply wp_ret]; unfold s2, s1; rewrite Eh; done. }
  eapply wp_mono; [exact Hsh|]. intros [] s3 ->. wstep. set (s4 := set_line _ _ _). apply wp_bind. unfold hist_sendcmd. wstep. change (status s4) with (status s). rewrite H1, Z.eqb_refl.
  eapply wp_mono; [apply send_line_ok|]. intros rv s5 [Hrv H]. change (linebuf s4) with (linebuf s) in Hrv. apply wp_bind. destruct (Z.eqb_spec rv 0) as [->|Hne].
  - destruct (H eq_refl) as (Hs5 & E1 & E2 & E3 & E4). apply wp_modify, wp_ret. split; [done|]. intros _. split; [|split_and!; [done..|by cbn; rewrite E3|done]]. split.
    + unfold hist_ok. cbn [status echo edited linebuf bufindex history histindex commandlist set_line set_history set_edited]. rewrite E1, E2, E3. split; [done|]. split; [done|].
      split; [split; [done | split; [cbn; lia | constructor]]|]. split; [by right|]. split; [by eapply entered_ok|]. intros cs Hcs. apply H6. by apply E4 in Hcs.
    + exists O. change (shown (set_line _ _ _)) with (shown s5). rewrite Hs5. cbn [linebuf bufindex set_line take drop app replicate]. by rewrite app_nil_r.
  - apply wp_ret, wp_ret. split; [exact Hrv | done].
Qed.

(** A key, the bytes it sends, and what is typed in one read. *)
Inductive key := Char (c : Z) | Delete | Enter | Arrow (c : Z) | Ctrl (c : Z).
Definition key_bytes (k : key) : list Z :=
  match k with Char c => [c] | Delete => [127] | Enter => [10] | Arrow c => [27; 91; c] | Ctrl c => [c] end.
(** The beginning of the line is left out: see [begin_of_line_shown_wrong]. *)
Definition key_ok (k : key) : Prop :=
  match k with Char c => printable c ∧ c ≠ 255 | Ctrl c => 1 < c < 32 ∧ c ≠ 10 ∧ c ≠ 13 ∧ c ≠ 27 | Arrow c => byteP c | _ => True end.
Definition type_key (k : key) (stale : list Z) : M hist Z := vdehist_term_to_mgmt prompt logincmd (key_bytes k) stale 0.

Lemma good_lastchar c s : good s → good (set_lastchar c s).
Proof. done. Qed.

(** One byte in a read of its own. *)
Definition byte_key (c : Z) : M hist (Z + Z) :=
  if (c <? 32) && negb ((c =? 10) || (c =? 13)) then
    if c =? 4 then mret (inl 1) else ctrl_key prompt c ;; modify (set_lastchar c) ;; mret (inr 0)
  else if c =? 127 then delete_key ;; modify (set_lastchar c) ;; mret (inr 0)
  else rv ← plain_key prompt logincmd c; if rv =? 0 then modify (set_lastchar c) ;; mret (inr 0) else mret (inl rv).
Lemma single_key c stale Q s : c ≠ 255 → c ≠ 0 → c ≠ 27 → (length (linebuf s) ≤ 1023)%nat →
  wp (byte_key c) (λ r s', match r with inl rv => Q rv s' | inr _ => Q 0 s' end) s → wp (vdehist_term_to_mgmt prompt logincmd [c] stale 0) Q s.
Proof.
  intros H1 H2 H3 Hl H. unfold vdehist_term_to_mgmt. rewrite bool_decide_eq_false_2 by done. cbn [length term_loop]. wstep. unfold BUFSIZE.
  destruct (Z.ltb_spec (Z.of_nat (length (linebuf s))) 1024); [|lia]. change (0 <? Z.of_nat 1) with true. cbn [andb]. apply wp_bind.
  assert (wp (term_char prompt logincmd ([c] ++ drop 1 stale) 0) (λ r s', match r with inl rv => Q rv s' | inr i => i = 0 ∧ Q 0 s' end) s) as Hc.
  { apply Z.eqb_neq in H1, H2, H3. unfold term_char. change (zget ([c] ++ drop 1 stale) 0) with (Some c). cbn [deref]. wstep. rewrite H1. wstep.
    change (zget ([c] ++ drop 1 stale) 0) with (Some c). cbn [deref]. wstep. cbv zeta. rewrite H2, H1. wstep. rewrite H3. revert H. unfold byte_key.
    destruct (_ && _); [destruct (c =? 4); [intros H; exact H|]|destruct (c =? 127)]; intros H; apply wp_bind; apply wp_bind_inv in H; (eapply wp_mono; [exact H|]); intros x s1 Hs1.
    - wstep. apply wp_ret. by split.
    - wstep. apply wp_ret. by split.
    - cbv beta in Hs1. destruct (x =? 0); [wstep; apply wp_ret; split; [done | exact Hs1] | exact Hs1]. }
  eapply wp_mono; [exact Hc|]. intros [rv|i] s' Hs'; [by apply wp_ret|]. destruct Hs' as [-> Hs']. wstep. apply wp_ret. exact Hs'.
Qed.

Lemma arrow_key c stale Q s : byteP c → length stale = 1024%nat → (length (linebuf s) ≤ 1023)%nat → status s = HIST_COMMAND →
  (∀ x, wp (arrow prompt c) (λ _ s', Q 0 (set_lastchar x s')) s) → wp (vdehist_term_to_mgmt prompt logincmd [27; 91; c] stale 0) Q s.
Proof.
  intros Hc Hst Hl Hs H. unfold vdehist_term_to_mgmt. rewrite bool_decide_eq_false_2 by done. cbn [length]. set (mem := [27; 91; c] ++ drop 3 stale).
  destruct (lookup_lt_is_Some_2 stale 3%nat) as [x Hx]; [lia|].
  assert (zget mem 3 = Some x) as E3. { unfold mem. rewrite (drop_S stale x 3) by done. done. }
  change (term_loop prompt logincmd 3 mem (Z.of_nat 3) 0) with (s ← get; if (0 <? Z.of_nat 3) && (Z.of_nat (length (linebuf s)) <? BUFSIZE) then
    r ← term_char prompt logincmd mem 0; match r with inl rv => mret rv | inr i => term_loop prompt logincmd 2 mem (Z.of_nat 3) (i + 1) end else mret 0). wstep. unfold BUFSIZE at 1.
  destruct (Z.ltb_spec (Z.of_nat (length (linebuf s))) 1024); [|lia]. change (0 <? Z.of_nat 3) with true. cbn [andb]. apply wp_bind.
  assert (wp (term_char prompt logincmd mem 0) (λ r s', r = inr 3 ∧ Q 0 s') s) as Hk.
  { unfold term_char. change (zget mem 0) with (Some 27). cbn [deref]. wstep. change (27 =? 255) with false. cbv iota. wstep. change (zget mem 0) with (Some 27). cbn [deref]. wstep. cbv zeta.
    change (27 =? 0) with false. cbv iota. change (27 =? 255) with false. cbv iota. wstep. change (27 =? 27) with true. cbv iota. change (zget mem (0 + 1)) with (Some 91). cbn [deref]. wstep. wstep.
    rewrite Hs. change ((91 =? 91) && (HIST_COMMAND =? HIST_COMMAND)) with true. cbv iota. change (zget mem (0 + 2)) with (Some c). cbn [deref]. apply wp_bind. wstep. apply wp_bind.
    eapply wp_mono; [apply (H x)|]. intros [] s1 Hs1. apply wp_ret. change (0 + 3) with 3. rewrite E3. cbn [deref]. wstep. wstep. apply wp_ret. by split. }
  eapply wp_mono; [exact Hk|]. intros r s' [-> Hs']. cbn [term_loop]. wstep. apply wp_ret. exact Hs'.
Qed.

(** *** Every key locks the display right *)
Lemma key_good k stale s : good s → key_ok k → length stale = 1024%nat → (length (linebuf s) < 1023)%nat → wp (type_key k stale) (λ rv s', rv = 0 → good s') s.
Proof using Hprompt.
  intros Hg Hk Hst Hl. unfold type_key. destruct k as [c| | |c|c]; cbn [key_bytes key_ok] in *.
  - destruct Hk as [Hp Hne]. apply single_key; [destruct Hp; lia..|]. unfold byte_key. destruct Hp as [Hc Hc']. destruct (Z.ltb_spec c 32); [lia|]. cbn [andb]. destruct (Z.eqb_spec c 127); [lia|].
    apply wp_bind. eapply wp_mono; [apply insert_ok; done|]. intros rv s' (-> & Hg' & _). change (0 =? 0) with true. cbv iota. wstep. apply wp_ret. intros _. exact Hg'.
  - apply single_key; [lia..|]. change (byte_key 127) with (delete_key ;; modify (set_lastchar 127) ;; mret (inr 0) : M hist (Z + Z)). apply wp_bind. eapply wp_mono; [by apply delete_ok|]. intros [] s' Hg'. wstep. apply wp_ret. intros _. exact Hg'.
  - apply single_key; [lia..|]. unfold byte_key. change ((10 <? 32) && negb ((10 =? 10) || (10 =? 13))) with false. change (10 =? 127) with false. cbv iota. apply wp_bind.
    eapply wp_mono; [by apply enter_ok|]. intros rv s' [_ H]. destruct (Z.eqb_spec rv 0); [wstep; apply wp_ret; intros _; by apply H | by apply wp_ret].
  - apply arrow_key; [done | done | lia | apply Hg|]. intros x. eapply wp_mono; [by apply arrow_ok|]. intros [] s' Hg' _. exact Hg'.
  - destruct Hk as (Hc & H10 & H13 & H27). apply single_key; [lia..|]. unfold byte_key. destruct (Z.ltb_spec c 32); [|lia]. destruct (Z.eqb_spec c 10); [done|]. destruct (Z.eqb_spec c 13); [done|]. cbn [negb orb andb].
    destruct (c =? 4); [by apply wp_ret|]. apply wp_bind. eapply wp_mono; [apply ctrl_ok; [lia | done]|]. intros [] s' Hg'. wstep. apply wp_ret. intros _. exact Hg'.
Qed.

(** *** Output of the switch *)

(** The lines in [bs], after the bytes [v] that wait for their end, fit into [vlinebuf]
    and none ends with the digits of its code: see [bare_debug_shown_wrong]. *)
Fixpoint fits (v bs : list Z) : Prop :=
  match bs with
  | [] => True
  | b :: bs =>
    if b =? 10 then (length v ≤ 1022)%nat ∧ drop 5 (find_code (v ++ [13; 10])) ≠ [10] ∧ fits [] bs
    else (length v ≤ 1024)%nat ∧ fits (v ++ [b]) bs
  end.
Definition line_byte (b : Z) : Prop := b = 10 ∨ printable b.

(** The state while the answers of the switch are written: the row is blank. *)
Definition writing (s0 s : hist) : Prop :=
  hist_ok s ∧ blank true (shown s) ∧ Forall printable (vlinebuf s) ∧ linebuf s = linebuf s0 ∧ bufindex s = bufindex s0 ∧ commandlist s = commandlist s0 ∧
  helpin s = helpin s0 ∧ mgmtfd s = mgmtfd s0.

(** A write that ends a row leaves the next one blank. *)
Lemma row_blank d t : Forall printable d → blank true (show (d ++ [13; 10]) t).
Proof. intros Hd. rewrite show_app by (by apply printable_no_esc). destruct (show d t) as [L R]. by exists O. Qed.

Lemma cstr_printable v : Forall printable v → cstr (v ++ [13; 10]) = v ++ [13; 10].
Proof.
  induction v as [|c v IH]; intros Hv; [done|]. apply Forall_cons in Hv as [[Hc _] Hv]. cbn [app cstr]. destruct (Z.eqb_spec c 0); [lia|]. by rewrite IH.
Qed.
Lemma find_code_suffix l : ∃ p, l = p ++ find_code l.
Proof.
  induction l as [|a l [p Hp]]; [by exists []|]. cbn [find_code]. destruct l as [|b [|c [|d l]]]; try (exists (a :: p); cbn [app]; by rewrite <- Hp).
  destruct (_ && isdigitZ d); [by exists []|]. exists (a :: p). cbn [app]. by rewrite <- Hp.
Qed.
(** What is found begins with four digits. *)
Lemma find_code_digits l x m : find_code l = x :: m → ∃ b c d r, m = b :: c :: d :: r ∧ isdigitZ x ∧ isdigitZ b ∧ isdigitZ c ∧ isdigitZ d.
Proof.
  induction l as [|a l IH]; [done|]. cbn [find_code]. destruct l as [|b [|c [|d l]]]; try exact IH.
  destruct (isdigitZ a && isdigitZ b && isdigitZ c && isdigitZ d) eqn:E; [|exact IH]. apply andb_true_iff in E as [[[E1 E2]%andb_true_iff E3]%andb_true_iff E4].
  intros [= <- <-]. exists b, c, d, l. split; [done|]. rewrite E1, E2, E3, E4. done.
Qed.
(** The text of a message is whole: it ends the row. *)
Lemma message_text v x : Forall printable v → find_code (v ++ [13; 10]) !! 0%nat = Some x → drop 5 (find_code (v ++ [13; 10])) ≠ [10] →
  ∃ e, Forall printable e ∧ drop 5 (find_code (v ++ [13; 10])) = e ++ [13; 10].
Proof.
  intros Hv Hx Hne. destruct (find_code_suffix (v ++ [13; 10])) as [p Hp]. destruct (find_code (v ++ [13; 10])) as [|y m] eqn:E; [done|].
  destruct (find_code_digits _ _ _ E) as (b & c & d & r & -> & _ & Hb & Hc & Hd). cbn [drop] in *.
  replace (p ++ y :: b :: c :: d :: r) with ((p ++ [y; b; c; d]) ++ r) in Hp by (by rewrite <- app_assoc).
  apply app_eq_inv in Hp as [(k & -> & ->)|(k & Hk & Hr)].
  - destruct k as [|z k]; [done|]. exists k. cbn [app drop]. rewrite drop_0. split; [|done]. apply Forall_app in Hv as [_ Hv]. by apply Forall_cons in Hv as [_ Hv].
  - exfalso. assert (last k = None ∨ last k = Some d) as Hl.
    { destruct k as [|z k] using rev_ind; [by left|]. right. rewrite app_assoc in Hk. change [y; b; c; d] with ([y; b; c] ++ [d]) in Hk. rewrite app_assoc in Hk.
      apply (f_equal last) in Hk. rewrite !last_snoc in Hk. rewrite last_snoc. done. }
    assert (d ≠ 13 ∧ d ≠ 10) as [H13 H10]. { unfold isdigitZ in Hd. apply Is_true_true, andb_true_iff in Hd as [Hd1%Z.leb_le Hd2%Z.leb_le]. lia. }
    destruct k as [|k1 [|k2 k]]; cbn [app] in Hr.
    + subst r. done.
    + injection Hr as <- <-. destruct Hl as [?|[= ?]]; [done | lia].
    + injection Hr as <- <- Hr. symmetry in Hr. apply app_eq_nil in Hr as [-> ->]. destruct Hl as [?|[= ?]]; [done | lia].
Qed.

Lemma mgmt_line_ok s0 v s : writing s0 s → Forall printable v → drop 5 (find_code (v ++ [13; 10])) ≠ [10] → wp (mgmt_line (v ++ [13; 10])) (λ _ s', writing s0 s') s.
Proof.
  intros Hw Hv Hne. pose proof Hw as (Hok & Hb & Hvl & Hsame). unfold mgmt_line. wstep.
  assert (∀ d, Forall printable d → writing s0 (add_out (Term (d ++ [13; 10])) s)) as Hrow.
  { intros d Hd. split; [exact Hok|]. split; [|done]. rewrite shown_out. by apply row_blank. }
  destruct (vindata s).
  - destruct (_ && _); apply wp_modify; [done | by apply Hrow].
  - cbv zeta. rewrite cstr_printable by done. destruct (strncmp0 _ _ _); [by apply wp_modify|]. case_bool_decide as H1.
    + destruct (message_text v _ Hv H1 Hne) as (e & He & ->). apply wp_modify. by apply Hrow.
    + case_bool_decide as H3; [|by apply wp_ret]. destruct (message_text v _ Hv H3 Hne) as (e & He & ->). wstep. apply wp_modify.
      split; [exact Hok|]. split; [|done]. rewrite shown_out. by apply row_blank.
Qed.

Lemma mgmt_bytes_ok s0 bs : ∀ s, writing s0 s → Forall line_byte bs → fits (vlinebuf s) bs → wp (forM bs mgmt_char) (λ _ s', writing s0 s') s.
Proof.
  induction bs as [|b bs IH]; intros s Hw Hbs Hf; [by apply wp_ret|]. apply Forall_cons in Hbs as [Hb Hbs]. cbn [forM fits] in *. apply wp_bind. unfold mgmt_char. wstep. unfold BUFSIZE.
  destruct (Z.eqb_spec b 10) as [->|Hn].
  - destruct Hf as (Hl & Hne & Hf). apply wp_bind. destruct (Z.ltb_spec 1024 (Z.of_nat (length (vlinebuf s)) + 2)); [lia|].
    eapply wp_mono; [apply mgmt_line_ok; [exact Hw | apply Hw | done]|]. intros [] s1 Hw1. apply wp_modify. apply IH; [|done | done].
    destruct Hw1 as (H1 & H2 & _ & H3). split; [exact H1|]. split; [exact H2|]. split; [constructor | exact H3].
  - destruct Hf as (Hl & Hf). destruct (Z.ltb_spec 1024 (Z.of_nat (length (vlinebuf s)))); [lia|]. apply wp_modify. apply IH; [|done | done].
    destruct Hw as (H1 & H2 & H2' & H3). split; [exact H1|]. split; [exact H2|]. split; [|exact H3]. apply Forall_app_2; [done|]. destruct Hb as [?|Hb]; [done | by constructor].
Qed.

Lemma forM_concat {S A} (f : A → M S ()) cs Q s : wp (forM (concat cs) f) Q s → wp (forM cs (λ c, forM c f)) Q s.
Proof.
  revert s. induction cs as [|c cs IH]; intros s H; [done|]. cbn [forM concat] in *. apply wp_bind. unfold wp in H. rewrite forM_app in H. apply wp_bind_inv in H. eapply wp_mono; [exact H|]. intros [] s' Hs'. by apply IH.
Qed.

(** The output that the display can take: text in lines that fit. *)
Definition mgmt_ok (s : hist) (chunks : list (list Z)) : Prop :=
  Forall printable (vlinebuf s) ∧ Forall line_byte (concat chunks) ∧ fits (vlinebuf s) (concat chunks) ∧
  (commandlist s = None → Forall (Forall printable) (commands_of (helpin s)).1).

Lemma mgmt_good chunks last s : good s → mgmt_ok s chunks → chunks ≠ [] ∨ 0 ≤ last →
  wp (vdehist_mgmt_to_term prompt chunks last) (λ _ s', good s' ∧ linebuf s' = linebuf s ∧ bufindex s' = bufindex s) s.
Proof using Hprompt.
  intros Hg (Hv & Hbytes & Hf & Hcmds) Hlast. unfold vdehist_mgmt_to_term. apply wp_erase; [done|]. intros d Hok Hb. wstep. set (s1 := add_out (Term d) s).
  assert (writing s s1) as Hw1 by done.
  assert (wp (if mgmtfd s1 =? 0 then mret () else if bool_decide (chunks = []) && (last <? 0) then fault else forM chunks (λ c, forM c mgmt_char)) (λ _ s', writing s s') s1) as Hread.
  { destruct (mgmtfd s1 =? 0); [by apply wp_ret|]. assert (bool_decide (chunks = []) && (last <? 0) = false) as ->.
    { destruct Hlast as [Hne|Hl]; [by rewrite bool_decide_eq_false_2|]. destruct (Z.ltb_spec last 0); [lia|]. apply andb_false_r. }
    apply forM_concat, mgmt_bytes_ok; done. }
  apply wp_bind. eapply wp_mono; [exact Hread|]. intros [] s2 (Hok2 & Hb2 & _ & El & Ei & Ec & Eh & Em). wstep. apply wp_bind.
  assert (wp (if bool_decide (commandlist s2 = None) && (0 <=? mgmtfd s2) then vdehist_create_commandlist else mret ())
    (λ _ s3, hist_ok s3 ∧ blank true (shown s3) ∧ linebuf s3 = linebuf s ∧ bufindex s3 = bufindex s) s2) as Hcreate.
  { destruct (bool_decide (commandlist s2 = None)) eqn:En; [|by apply wp_ret]. destruct (Z.leb_spec 0 (mgmtfd s2)); [|by apply wp_ret]. cbn [andb]. apply bool_decide_eq_true in En.
    unfold vdehist_create_commandlist. wstep. destruct (Z.ltb_spec (mgmtfd s2) 0); [lia|]. wstep. apply wp_modify. split; [|split; [|done]].
    - destruct Hok2 as (H1 & H2 & H3 & H4 & H5 & _). split; [done|]. split; [done|]. split; [done|]. split; [done|]. split; [done|]. cbn [commandlist set_commands].
      intros cs [= <-]. change (helpin (add_out (Mgmt (str "help" ++ [10])) s2)) with (helpin s2). rewrite Eh. apply Hcmds. by rewrite <- Ec.
    - change (blank true (shown (add_out (Mgmt (str "help" ++ [10])) s2))). by rewrite shown_out. }
  eapply wp_mono; [exact Hcreate|]. intros [] s3 (Hok3 & Hb3 & El3 & Ei3). apply wp_redraw; [done..|]. intros d3 Hg3. by split.
Qed.
End Display.

(** ** Theorems on the terminal *)

(** A session of [vdeterm]: it begins with the prompt on the terminal; every key comes in
    a read of its own, and the line has room for it. *)
Inductive session (prompt : list Z) (logincmd : list Z → nat → M hist (option (list Z))) : hist → Prop :=
  | ses_new mgmt cmds help s : 0 ≤ mgmt → vdehist_new mgmt cmds help = Done () s →
      (∀ cs, commandlist s = Some cs → Forall (Forall printable) cs) → session prompt logincmd s
  | ses_key s k stale s' : session prompt logincmd s → key_ok k → length stale = 1024%nat → (length (linebuf s) < 1023)%nat →
      type_key prompt logincmd k stale s = Done 0 s' → session prompt logincmd s'
  | ses_mgmt s chunks last s' : session prompt logincmd s → mgmt_ok s chunks → chunks ≠ [] ∨ 0 ≤ last →
      vdehist_mgmt_to_term prompt chunks last s = Done () s' → session prompt logincmd s'.

Lemma session_good prompt logincmd s : Forall printable prompt → session prompt logincmd s → good prompt (Screen (rev prompt) []) s.
Proof.
  intros Hp. induction 1 as [mgmt cmds help s Hm Hnew Hcs|s k stale s' _ IH Hk Hst Hl E|s chunks last s' _ IH Hok Hlast E].
  - unfold vdehist_new in Hnew. destruct (Z.ltb_spec mgmt 0) as [|_]; [lia|]. cbv zeta in Hnew. set (s0 := Hist _ _ _ _ _ _ _ _ _ _ _ _ _ _ _) in Hnew.
    assert (∃ cs hi os, s = set_commands cs hi s0 ∨ s = set_commands cs hi (add_out (Mgmt os) s0)) as (cs & hi & os & Hs).
    { destruct cmds as [cs|]; [injection Hnew as <-; exists (Some cs), help, []; by left|]. unfold vdehist_create_commandlist, mbind, M_bind, get in Hnew.
      destruct (mgmtfd s0 <? 0); [injection Hnew as <-; exists None, help, []; by left|]. injection Hnew as <-. do 3 eexists. by right. }
    split.
    + assert (hist_inv HIST_COMMAND true false [] O (replicate 32 None) 0 (commandlist s)) as Hinv.
      { split; [done|]. split; [done|]. split; [split; [done | split; [cbn; lia | constructor]]|]. split; [by right|]. split; [|exact Hcs].
        split; [done|]. split; [lia|]. split; [intros j l Hj; apply lookup_replicate in Hj as [? _]; done | intros; lia]. }
      destruct Hs as [-> | ->]; exact Hinv.
    + exists O. destruct Hs as [-> | ->]; cbn; by rewrite app_nil_r.
  - pose proof (key_good prompt Hp logincmd (Screen (rev prompt) []) k stale s IH Hk Hst Hl) as H. unfold wp in H. rewrite E in H. by apply H.
  - pose proof (mgmt_good prompt Hp (Screen (rev prompt) []) chunks last s IH Hok Hlast) as H. unfold wp in H. rewrite E in H. apply H.
Qed.

(** C26: In a session of [vdeterm] whose prompt and commands are printable, where
    each key arrives in a read of its own (printable characters but the byte 255,
    delete, enter, arrows and the control keys but control-A, [key_ok]), the line
    has room for it, the lines the switch sends are printable and fit their buffer
    ([mgmt_ok]) and its first read does not fail: the terminal always shows the
    prompt and the line that the program would send, with the cursor where the next
    character would be inserted; and neither such a key nor such an answer makes the
    program fault. What is left out goes wrong: [begin_of_line_shown_wrong]
    (control-A), [arrow_eats_next] (keys that share a read), [line_overflows],
    [answer_overflows] and [failed_read_faults]. *)
Theorem display_follows_line prompt logincmd s : Forall printable prompt → session prompt logincmd s →
  (∃ k, display (out s) (Screen (rev prompt) []) =
     Screen (rev (prompt ++ take (bufindex s) (linebuf s))) (drop (bufindex s) (linebuf s) ++ replicate k 32)) ∧
  (∀ k stale, key_ok k → length stale = 1024%nat → (length (linebuf s) < 1023)%nat → ∃ rv s', type_key prompt logincmd k stale s = Done rv s') ∧
  (∀ chunks last, mgmt_ok s chunks → chunks ≠ [] ∨ 0 ≤ last →
     ∃ s', vdehist_mgmt_to_term prompt chunks last s = Done () s' ∧ linebuf s' = linebuf s ∧ bufindex s' = bufindex s).
Proof.
  intros Hp Hs. pose proof (session_good _ _ _ Hp Hs) as Hg. split; [apply Hg|]. split.
  - intros k stale Hk Hst Hl. pose proof (key_good prompt Hp logincmd _ k stale s Hg Hk Hst Hl) as H. unfold wp in H. destruct (type_key _ _ _ _ s) as [rv s'| |]; [eauto | done..].
  - intros chunks last Hok Hlast. pose proof (mgmt_good prompt Hp _ chunks last s Hg Hok Hlast) as H. unfold wp in H. destruct (vdehist_mgmt_to_term _ _ _ s) as [[] s'| |]; [|done..]. exists s'. by destruct H as (_ & ? & ?).
Qed.

(** ** The history gives the commands back *)

Fixpoint run_keys (prompt : list Z) (logincmd : list Z → nat → M hist (option (list Z))) (stale : list Z) (ks : list key) : M hist Z :=
  match ks with
  | [] => mret 0
  | k :: ks => rv ← type_key prompt logincmd k stale; if rv =? 0 then run_keys prompt logincmd stale ks else mret rv
  end.
(** A command typed and entered, and the arrows up and down. *)
Definition command_keys (c : list Z) : list key := (Char <$> c) ++ [Enter].
Definition Up : key := Arrow 65.
Definition Down : key := Arrow 66.
Definition command_ok (c : list Z) : Prop := c ≠ [] ∧ (length c ≤ 1022)%nat ∧ Forall (λ b, printable b ∧ b ≠ 255) c ∧ leaves c = false.
(** The [n]th line back: the one being typed is empty. *)
Definition recall (cs : list (list Z)) (n : nat) : list Z := match n with O => [] | S m => default [] (rev cs !! m) end.

(** The last commands entered are in the history. *)
Definition holds (cs : list (list Z)) (h : list (option (list Z))) : Prop := ∀ m, (m < length cs)%nat → h !! S m = Some (Some (recall cs (S m))).
Lemma entered_holds c cs h : length h = 32%nat → (length cs < 31)%nat → c ≠ [] → holds cs h → holds (cs ++ [c]) (entered c h).
Proof.
  intros Hlen Hcs Hc Hh m Hm. unfold entered. assert ((0 <? length c)%nat = true) as -> by (destruct c; [done | reflexivity]). cbv iota zeta. rewrite length_app in Hm. cbn in Hm.
  change ((None :: take 31 (<[O := Some c]> h)) !! S m) with (take 31 (<[O := Some c]> h) !! m).
  rewrite lookup_take_lt by lia. unfold recall. rewrite rev_app_distr. destruct m as [|m]; [by rewrite list_lookup_insert_eq by lia|]. rewrite list_lookup_insert_ne by lia. apply Hh. lia.
Qed.

Lemma holds_stored cs n h : holds cs h → (n ≤ length cs)%nat → (length h = 32)%nat → (length cs ≤ 31)%nat → holds cs (<[n := Some (recall cs n)]> h) ∧ (<[n := Some (recall cs n)]> h) !! n = Some (Some (recall cs n)).
Proof.
  intros Hh Hn Hl Hcs. split; [|apply list_lookup_insert_eq; lia]. intros m Hm. destruct (decide (n = S m)) as [->|]; [apply list_lookup_insert_eq; lia|]. rewrite list_lookup_insert_ne by done. by apply Hh.
Qed.

Section Recall.
Context (prompt : list Z) (Hprompt : Forall printable prompt) (logincmd : list Z → nat → M hist (option (list Z))) (t0 : screen) (stale : list Z) (Hstale : length stale = 1024%nat).
#[local] Abbreviation run := (run_keys prompt logincmd stale).
#[local] Abbreviation ok := (good prompt t0).

Lemma run_app a b Q s : wp (run a) (λ rv s', rv = 0 ∧ wp (run b) Q s') s → wp (run (a ++ b)) Q s.
Proof using.
  revert s. induction a as [|k a IH]; intros s H; [by destruct H|]. cbn [run_keys app] in *. apply wp_bind. apply wp_bind_inv in H. eapply wp_mono; [exact H|]. intros rv s' H'. cbv beta in H'.
  destruct (Z.eqb_spec rv 0); [by apply IH|]. by destruct H' as [? _].
Qed.
Lemma run_cons k ks Q s : wp (type_key prompt logincmd k stale) (λ rv s', rv = 0 ∧ wp (run ks) Q s') s → wp (run (k :: ks)) Q s.
Proof using. intros H. cbn [run_keys]. apply wp_bind. eapply wp_mono; [exact H|]. intros rv s' [-> H']. done. Qed.

Lemma run_chars c : ∀ s, ok s → bufindex s = length (linebuf s) → Forall (λ b, printable b ∧ b ≠ 255) c → (length (linebuf s) + length c ≤ 1023)%nat →
  wp (run (Char <$> c)) (λ rv s', rv = 0 ∧ ok s' ∧ linebuf s' = linebuf s ++ c ∧ bufindex s' = length (linebuf s') ∧ history s' = history s ∧ histindex s' = histindex s) s.
Proof using Hprompt Hstale.
  induction c as [|b c IH]; intros s Hg Hi Hc Hl; [apply wp_ret; by rewrite app_nil_r|]. apply Forall_cons in Hc as [[Hb Hb'] Hc]. cbn [length] in Hl. apply run_cons.
  unfold type_key. cbn [key_bytes]. apply single_key; [destruct Hb; lia..|]. unfold byte_key. destruct Hb as [Hb1 Hb2]. destruct (Z.ltb_spec b 32); [lia|]. cbn [andb]. destruct (Z.eqb_spec b 127); [lia|].
  apply wp_bind. eapply wp_mono; [apply (insert_ok prompt logincmd t0); [by split | lia | done]|]. intros rv s' (-> & Hg' & Hl' & Hi' & Hh & Hhi). change (0 =? 0) with true. cbv iota. wstep. apply wp_ret. split; [done|].
  rewrite Hi, firstn_all, drop_all in Hl'. assert (length (linebuf s') = S (length (linebuf s))) as Hll by (rewrite Hl', length_app; cbn; lia).
  eapply wp_mono; [apply IH; [exact Hg' | cbn [bufindex linebuf set_lastchar]; lia | done | cbn [linebuf set_lastchar]; lia]|].
  intros rv s2 (-> & Hg2 & Hl2 & Hi2 & Hh2 & Hhi2). cbn [linebuf history histindex set_lastchar] in *. split; [done|]. split; [done|]. rewrite Hl2, Hl', <- app_assoc, Hh2, Hhi2. split; [done|]. by rewrite Hi2, Hl2, Hl', <- app_assoc.
Qed.

Lemma run_command c cs s : ok s → linebuf s = [] → bufindex s = O → command_ok c → (length cs < 31)%nat → holds cs (history s) →
  wp (run (command_keys c)) (λ rv s', rv = 0 ∧ ok s' ∧ linebuf s' = [] ∧ bufindex s' = O ∧ histindex s' = 0 ∧ holds (cs ++ [c]) (history s')) s.
Proof using Hprompt Hstale.
  intros Hg Hl Hi (Hne & Hlen & Hc & Hlv) Hcs Hh. unfold command_keys. apply run_app. eapply wp_mono; [apply run_chars; [done | by rewrite Hl | done | rewrite Hl; cbn; lia]|].
  intros rv s1 (-> & Hg1 & Hl1 & Hi1 & Hh1 & _). rewrite Hl in Hl1. cbn [app] in Hl1. split; [done|]. apply run_cons. unfold type_key. cbn [key_bytes]. apply single_key; [lia..|rewrite Hl1; lia|].
  unfold byte_key. change ((10 <? 32) && negb ((10 =? 10) || (10 =? 13))) with false. change (10 =? 127) with false. cbv iota. apply wp_bind.
  eapply wp_mono; [apply (enter_ok prompt Hprompt logincmd t0 s1); done|]. intros rv s2 [Hrv H]. rewrite Hl1 in *. rewrite (Hrv Hlv) in *. destruct (H eq_refl) as (Hg2 & Hl2 & Hi2 & _ & Hh2 & Hhi2).
  change (0 =? 0) with true. cbv iota. wstep. apply wp_ret. split; [done|]. apply wp_ret. split; [done|]. split; [exact Hg2|]. split; [done|]. split; [done|]. split; [done|].
  cbn [history set_lastchar]. rewrite Hh2, Hh1. apply entered_holds; [|done..]. destruct Hg as [(_ & _ & _ & _ & (Hlen' & _) & _) _]. done.
Qed.
Lemma run_commands cs' : ∀ cs s, ok s → linebuf s = [] → bufindex s = O → histindex s = 0 → Forall command_ok cs' → (length cs + length cs' ≤ 31)%nat → holds cs (history s) →
  wp (run (concat (command_keys <$> cs'))) (λ rv s', rv = 0 ∧ ok s' ∧ linebuf s' = [] ∧ bufindex s' = O ∧ histindex s' = 0 ∧ holds (cs ++ cs') (history s')) s.
Proof using Hprompt Hstale.
  induction cs' as [|c cs' IH]; intros cs s Hg Hl Hi Hhi Hc Hlen Hh; [apply wp_ret; by rewrite app_nil_r|]. apply Forall_cons in Hc as [Hc Hcs']. cbn [length] in Hlen. rewrite fmap_cons. cbn [concat]. apply run_app.
  eapply wp_mono; [apply (run_command c cs); [done..|lia|done]|]. intros rv s1 (-> & Hg1 & Hl1 & Hi1 & Hhi1 & Hh1). split; [done|].
  rewrite cons_middle, app_assoc. apply IH; [done..|rewrite length_app; cbn; lia|done].
Qed.

(** [n] lines back in the history. *)
Definition back (cs : list (list Z)) (n : nat) (s : hist) : Prop :=
  ok s ∧ histindex s = Z.of_nat n ∧ linebuf s = recall cs n ∧ bufindex s = length (linebuf s) ∧ holds cs (history s) ∧ ((0 < n)%nat → history s !! O = Some (Some [])).
Lemma run_arrow change n n' cs s : change = 1 ∧ n' = S n ∧ (n < length cs)%nat ∨ change = -1 ∧ n = S n' → (n ≤ length cs ≤ 31)%nat → back cs n s →
  wp (type_key prompt logincmd (Arrow (if change =? 1 then 65 else 66)) stale) (λ rv s', rv = 0 ∧ back cs n' s') s.
Proof using Hprompt Hstale.
  intros Hch Hn (Hg & Hhi & Hl & Hi & Hh & H0). pose proof Hg as [(Hst & _ & (_ & Hll & _) & _ & (Hlen & _) & _) _]. unfold type_key. cbn [key_bytes].
  destruct (holds_stored cs n (history s) Hh) as [Hh' Hat]; [lia..|].
  apply arrow_key; [destruct (change =? 1); unfold byteP; lia | done | done | done|]. intros x. eapply wp_mono; [apply (arrow_moves prompt Hprompt t0 change n s); [destruct Hch as [[-> _]|[-> _]]; auto | done..]|].
  intros [] s' (Hg' & j & l & E1 & E2 & E3 & E4 & E5 & Hup & Hdown). rewrite Hl in E1. split; [done|].
  assert (∀ m, (m ≤ length cs)%nat → ((0 < m)%nat ∨ (0 < n)%nat) → history s' !! m = Some (Some (recall cs m))) as Hlook.
  { intros [|m] Hm Hor; rewrite E1; [|apply Hh'; lia]. destruct Hor as [?|Hn0]; [lia|]. rewrite list_lookup_insert_ne by lia. by apply H0. }
  assert (j = n') as ->. { destruct Hch as [(-> & -> & Hlt)|(-> & ->)]; [by apply (Hup eq_refl (recall cs (S n))), Hlook; [|left; lia] | by rewrite (Hdown eq_refl)]. }
  assert (l = recall cs n') as ->. { rewrite Hlook in E5; [by injection E5 | destruct Hch as [(_ & -> & ?)|(_ & ->)]; lia | destruct Hch as [(_ & -> & ?)|(_ & ->)]; lia]. }
  split; [exact Hg'|]. cbn [histindex linebuf bufindex history set_lastchar]. split; [done|]. split; [done|]. split; [by rewrite E4, E3|]. split; [by rewrite E1|]. intros Hn'. rewrite E1.
  destruct n as [|n]; [rewrite list_lookup_insert_eq by lia; done | rewrite list_lookup_insert_ne by lia; apply H0; lia].
Qed.
Lemma run_arrows change k : ∀ n n' cs s, change = 1 ∧ n' = (n + k)%nat ∧ (n' ≤ length cs)%nat ∨ change = -1 ∧ n = (n' + k)%nat → (n ≤ length cs ≤ 31)%nat → back cs n s →
  wp (run (replicate k (Arrow (if change =? 1 then 65 else 66)))) (λ rv s', rv = 0 ∧ back cs n' s') s.
Proof using Hprompt Hstale.
  induction k as [|k IH]; intros n n' cs s Hch Hn Hb; [apply wp_ret; split; [done|]; by replace n' with n by lia|]. cbn [replicate]. apply run_cons.
  destruct Hch as [(-> & -> & Hle)|(-> & ->)].
  - eapply wp_mono; [apply (run_arrow 1 n (S n) cs); [left; lia | lia | done]|]. intros rv s' [-> Hb']. split; [done|]. apply (IH (S n) (n + S k)%nat cs); [left; lia | lia | done].
  - eapply wp_mono; [apply (run_arrow (-1) (n' + S k) (n' + k) cs); [right; lia | lia | done]|]. intros rv s' [-> Hb']. split; [done|]. apply (IH (n' + k)%nat n' cs); [right; lia | lia | done].
Qed.
End Recall.

(** commands that were entered come back: after up to 31 of them, [k] times the arrow
    up and then [j] times the arrow down leave on the line the command entered
    [k - j] commands ago, with the cursor at its end, or the empty line that was
    being typed; and the terminal shows it. *)
Theorem history_recall prompt logincmd s cs k j stale : Forall printable prompt → session prompt logincmd s → linebuf s = [] → histindex s = 0 →
  Forall command_ok cs → (j ≤ k ≤ length cs)%nat → (length cs ≤ 31)%nat → length stale = 1024%nat →
  ∃ s', run_keys prompt logincmd stale (concat (command_keys <$> cs) ++ replicate k Up ++ replicate j Down) s = Done 0 s' ∧
    linebuf s' = recall cs (k - j) ∧ bufindex s' = length (linebuf s') ∧ shows prompt (Screen (rev prompt) []) s'.
Proof.
  intros Hp Hs Hl Hhi Hcs Hjk Hlen Hst. pose proof (session_good _ _ _ Hp Hs) as Hg. set (t0 := Screen (rev prompt) []) in *.
  assert (bufindex s = O) as Hi. { destruct Hg as [(_ & _ & (Hi & _) & _) _]. rewrite Hl in Hi. cbn in Hi. lia. }
  assert (wp (run_keys prompt logincmd stale (concat (command_keys <$> cs) ++ replicate k Up ++ replicate j Down)) (λ rv s', rv = 0 ∧ back prompt t0 cs (k - j) s') s) as H.
  { apply run_app. eapply wp_mono; [apply (run_commands prompt Hp logincmd t0 stale Hst cs []); [done..|by intros m Hm; cbn in Hm; lia]|]. cbn [app]. intros rv s1 (-> & Hg1 & Hl1 & Hi1 & Hhi1 & Hh1). split; [done|].
    apply run_app. eapply wp_mono; [apply (run_arrows prompt Hp logincmd t0 stale Hst 1 k O k cs s1); [left; lia | lia |]|]; [split_and!; [done | by rewrite Hhi1 | done | by rewrite Hl1, Hi1 | done | lia]|].
    intros rv s2 [-> Hb]. split; [done|]. apply (run_arrows prompt Hp logincmd t0 stale Hst (-1) j k (k - j)); [right; lia | lia | done]. }
  unfold wp in H. destruct (run_keys _ _ _ _ s) as [rv s'| |]; [|done..]. destruct H as [-> (Hg' & _ & Hl' & Hi' & _)]. exists s'. split; [done|]. split; [done|]. split; [done | apply Hg'].
Qed.

(** ** The answers of the switch *)

Definition no_digits (l : list Z) : Prop := Forall (λ c, isdigitZ c = false) l.
Definition crlf (l : list Z) : list Z := l ++ [13; 10].

Lemma find_code_skip pr l : no_digits pr → find_code (pr ++ l) = find_code l.
Proof.
  induction pr as [|a pr IH]; intros Hd; [done|]. apply Forall_cons in Hd as [Ha Hd]. rewrite <- IH by done. cbn [app find_code]. rewrite Ha. by destruct (pr ++ l) as [|? [|? [|? ?]]].
Qed.
Lemma find_code_here a b c d r : isdigitZ a && isdigitZ b && isdigitZ c && isdigitZ d = true → find_code (a :: b :: c :: d :: r) = a :: b :: c :: d :: r.
Proof. intros E. cbn [find_code]. by rewrite E. Qed.
Lemma forM_snoc_Done {S A} (f : A → M S ()) a b s s1 o : forM a f s = Done () s1 → forM b f s1 = o → forM (a ++ b) f s = o.
Proof. intros Ha Hb. rewrite forM_app. unfold mbind, M_bind. by rewrite Ha. Qed.

(** The bytes of a line are collected and its end hands it on. *)
Lemma mgmt_text l : ∀ s, Forall printable l → (length (vlinebuf s) + length l ≤ 1022)%nat → forM l mgmt_char s = Done () (set_vde (vindata s) (vlinebuf s ++ l) s).
Proof.
  induction l as [|b l IH]; intros s Hl Hlen; [rewrite app_nil_r; by destruct s|]. apply Forall_cons in Hl as [Hb Hl]. cbn [length] in Hlen. cbn [forM].
  assert (mgmt_char b s = Done () (set_vde (vindata s) (vlinebuf s ++ [b]) s)) as E.
  { unfold mgmt_char, mbind, M_bind, get. destruct (Z.eqb_spec b 10) as [->|_]; [destruct Hb; lia|]. unfold BUFSIZE. by destruct (Z.ltb_spec 1024 (Z.of_nat (length (vlinebuf s)))); [lia|]. }
  unfold mbind at 1, M_bind at 1. rewrite E, IH; [|done|cbn [vlinebuf set_vde]; rewrite length_app; cbn; lia]. cbn [vindata vlinebuf set_vde]. by rewrite <- app_assoc.
Qed.
Lemma mgmt_row l s s1 : Forall printable l → (length (vlinebuf s) + length l ≤ 1022)%nat →
  mgmt_line (crlf (vlinebuf s ++ l)) (set_vde (vindata s) (vlinebuf s ++ l) s) = Done () s1 → forM (l ++ [10]) mgmt_char s = Done () (set_vde (vindata s1) [] s1).
Proof.
  intros Hl Hlen E. eapply forM_snoc_Done; [by apply mgmt_text|]. cbn [forM]. unfold mbind, M_bind. unfold mgmt_char at 1, mbind, M_bind, get. change (10 =? 10) with true. cbv iota. unfold BUFSIZE.
  cbn [vlinebuf set_vde]. destruct (Z.ltb_spec 1024 (Z.of_nat (length (vlinebuf s ++ l)) + 2)); [rewrite length_app in *; lia|]. unfold crlf in E. by rewrite E.
Qed.

(** A line of data, and the line that ends the data. *)
Lemma mgmt_data_row l s : vindata s = true → vlinebuf s = [] → Forall printable l → l ≠ [46] → (length l ≤ 1022)%nat → forM (l ++ [10]) mgmt_char s = Done () (add_out (Term (crlf l)) s).
Proof.
  intros Hv Hb Hl Hne Hlen. erewrite mgmt_row; [| |rewrite Hb; cbn; lia|]; [|done|].
  2: { unfold mgmt_line, mbind, M_bind, get. cbn [vindata set_vde]. rewrite Hv, Hb. cbn [app].
    assert (bool_decide (crlf l !! 0%nat = Some 46) && bool_decide (crlf l !! 1%nat = Some 13) = false) as ->; [|reflexivity].
    destruct l as [|x [|y l]]; [done| |].
    - cbn. case_bool_decide as H; [|done]. injection H as ->. done.
    - apply andb_false_intro2. cbn. apply Forall_cons in Hl as [_ Hl]. apply Forall_cons in Hl as [[Hy _] _]. case_bool_decide as H; [injection H as ->; lia | done]. }
  destruct s. cbn in *. by rewrite Hv, Hb.
Qed.
Lemma mgmt_data ls : ∀ s, vindata s = true → vlinebuf s = [] → Forall (λ l, Forall printable l ∧ l ≠ [46] ∧ (length l ≤ 1022)%nat) ls →
  ∃ s', forM (concat ((λ l, l ++ [10]) <$> ls)) mgmt_char s = Done () s' ∧ out s' = out s ++ (Term ∘ crlf <$> ls) ∧ vindata s' = true ∧ vlinebuf s' = [] ∧ linebuf s' = linebuf s ∧ bufindex s' = bufindex s ∧ commandlist s' = commandlist s.
Proof.
  induction ls as [|l ls IH]; intros s Hv Hb Hls; [exists s; by rewrite app_nil_r|]. apply Forall_cons in Hls as [(Hl & Hne & Hlen) Hls]. rewrite !fmap_cons. cbn [concat].
  destruct (IH (add_out (Term (crlf l)) s)) as (s' & E & Ho & H); [done..|]. exists s'. split; [eapply forM_snoc_Done; [by apply mgmt_data_row | exact E]|]. split; [rewrite Ho; cbn; by rewrite <- app_assoc | done].
Qed.

(** The text [vde_switch] sends for a command: the data in lines, closed by a dot, and the
    result with its code. *)
Definition data_header : list Z := str "0000 DATA END WITH '.'".
Definition answer (ls : list (list Z)) (code msg : list Z) : list Z := data_header ++ [10] ++ concat ((λ l, l ++ [10]) <$> ls) ++ [46; 10] ++ code ++ [32] ++ msg ++ [10].

Lemma mgmt_header s : vindata s = false → Forall printable (vlinebuf s) → no_digits (vlinebuf s) → (length (vlinebuf s) ≤ 900)%nat →
  forM (data_header ++ [10]) mgmt_char s = Done () (set_vde true [] s).
Proof.
  intros Hv Hp Hd Hl. assert (Forall printable data_header) as Hh by (apply (bool_decide_eq_true_1 _); vm_compute; reflexivity).
  rewrite (mgmt_row data_header s (set_vde true (vlinebuf s ++ data_header) s)); [done | done | cbn; lia|].
  unfold mgmt_line, mbind, M_bind, get. cbn [vindata set_vde]. rewrite Hv. unfold crlf. rewrite cstr_printable by (by apply Forall_app_2). rewrite <- app_assoc, find_code_skip by done. reflexivity.
Qed.
Lemma mgmt_dot s : vindata s = true → vlinebuf s = [] → forM [46; 10] mgmt_char s = Done () (set_vde false [] s).
Proof. intros Hv Hb. destruct s. cbn in Hv, Hb. subst. reflexivity. Qed.
Lemma mgmt_result c2 c3 c4 msg s : vindata s = false → vlinebuf s = [] → isdigitZ c2 && isdigitZ c3 && isdigitZ c4 = true → Forall printable msg → (length msg ≤ 1000)%nat →
  forM (([49; c2; c3; c4] ++ [32] ++ msg) ++ [10]) mgmt_char s = Done () (add_out (Term (crlf msg)) s).
Proof.
  intros Hv Hb Hc Hm Hl. assert (Forall printable ([49; c2; c3; c4] ++ [32] ++ msg)) as Hp.
  { unfold isdigitZ in Hc. apply andb_true_iff in Hc as [[H2 H3]%andb_true_iff H4]. apply andb_true_iff in H2 as [?%Z.leb_le ?%Z.leb_le], H3 as [?%Z.leb_le ?%Z.leb_le], H4 as [?%Z.leb_le ?%Z.leb_le].
    unfold printable. repeat (constructor; [lia|]). exact Hm. }
  rewrite (mgmt_row _ s (add_out (Term (crlf msg)) (set_vde false ([49; c2; c3; c4] ++ [32] ++ msg) s))); [|done|rewrite Hb; cbn; lia|].
  - destruct s. cbn in *. by subst.
  - unfold mgmt_line, mbind, M_bind, get. cbn [vindata set_vde]. rewrite Hv, Hb. unfold crlf. rewrite cstr_printable by done. cbn [app]. rewrite find_code_here by exact Hc.
    reflexivity.
Qed.

(** an answer of the switch is shown as it is, however the reads cut it: the lines of
    its data and the text of its result, each in a row of its own, and neither the
    prompt before it, the codes, nor the dot. *)
Theorem answer_shown prompt s pr ls c2 c3 c4 msg chunks last : vindata s = false → vlinebuf s = pr → Forall printable pr → no_digits pr → (length pr ≤ 900)%nat →
  Forall (λ l, Forall printable l ∧ l ≠ [46] ∧ (length l ≤ 1022)%nat) ls → isdigitZ c2 && isdigitZ c3 && isdigitZ c4 = true → Forall printable msg → (length msg ≤ 1000)%nat →
  mgmtfd s > 0 → commandlist s ≠ None → concat chunks = answer ls [49; c2; c3; c4] msg →
  ∃ s' e r, vdehist_mgmt_to_term prompt chunks last s = Done () s' ∧ out s' = out s ++ Term e :: (Term ∘ crlf <$> ls ++ [msg]) ++ [Term r] ∧
    vindata s' = false ∧ vlinebuf s' = [] ∧ linebuf s' = linebuf s ∧ bufindex s' = bufindex s.
Proof.
  intros Hv Hb Hpr Hnd Hprl Hls Hcode Hmsg Hmsgl Hfd Hcmds Hch.
  set (e := let q := length prompt in let size := (length (linebuf s) + q)%nat in backspaces (bufindex s + q) ++ replicate size 32 ++ backspaces size).
  set (s1 := add_out (Term e) s). set (r := prompt ++ linebuf s ++ backspaces (length (linebuf s) - bufindex s)).
  assert (∃ s2, forM (concat chunks) mgmt_char s1 = Done () s2 ∧ out s2 = out s1 ++ (Term ∘ crlf <$> ls ++ [msg]) ∧ vindata s2 = false ∧ vlinebuf s2 = [] ∧ linebuf s2 = linebuf s ∧ bufindex s2 = bufindex s ∧
    commandlist s2 = commandlist s) as (s2 & E & Ho & Hv2 & Hb2 & Hl2 & Hi2 & Hc2).
  { destruct (mgmt_data ls (set_vde true [] s1)) as (sd & Ed & Hod & Hvd & Hbd & Hld & Hid & Hcd); [done..|].
    exists (add_out (Term (crlf msg)) (set_vde false [] sd)). split.
    - rewrite Hch. unfold answer. rewrite app_assoc. eapply forM_snoc_Done; [apply mgmt_header; cbn; by rewrite ?Hb|]. eapply forM_snoc_Done; [exact Ed|].
      eapply forM_snoc_Done; [by apply mgmt_dot|]. rewrite !app_assoc, <- (app_assoc [49; c2; c3; c4]). by apply mgmt_result.
    - cbn [out add_out set_vde]. rewrite Hod, fmap_app. cbn. rewrite <- app_assoc. done. }
  exists (add_out (Term r) s2), e, r. split; [|split; [cbn [out add_out]; rewrite Ho; cbn; by rewrite <- !app_assoc | done]].
  assert (wp (vdehist_mgmt_to_term prompt chunks last) (λ _ s', s' = add_out (Term r) s2) s) as H; [|unfold wp in H; destruct (vdehist_mgmt_to_term _ _ _ s) as [[] s'| |]; [by subst | done..]].
  unfold vdehist_mgmt_to_term. apply (wp_step _ _ _ _ () s1); [done|]. wstep. change (mgmtfd s1) with (mgmtfd s). destruct (Z.eqb_spec (mgmtfd s) 0); [lia|].
  rewrite bool_decide_eq_false_2 by (intros ->; done). cbn [andb]. apply wp_bind, forM_concat. unfold wp at 1. rewrite E. wstep. rewrite Hc2, bool_decide_eq_false_2 by done. cbn [andb]. wstep.
  unfold wp, redraw_line, mbind, M_bind, get. rewrite Hl2, Hi2. done.
Qed.

(** ** The password of the telnet server *)

(** The state of a connection that has not been let in. *)
Definition locked (s : hist) : Prop := 0 < status s ∧ mgmtfd s = -1 ∧ ∀ d, Mgmt d ∉ out s.
(** [m] stays in such states, and what it returns satisfies [R]. *)
Definition locks {A} (m : M hist A) (R : A → Prop) : Prop := ∀ s a s', locked s → m s = Done a s' → locked s' ∧ R a.
#[local] Abbreviation any := (λ _, True).

Lemma locks_ret {A} (a : A) (R : A → Prop) : R a → locks (mret a) R.
Proof. by intros HR s a' s' Hs [= <- <-]. Qed.
Lemma locks_bind {A B} (m : M hist A) (k : A → M hist B) R R' : locks m R → (∀ a, R a → locks (k a) R') → locks (m ≫= k) R'.
Proof. intros Hm Hk s b s' Hs. unfold mbind, M_bind. destruct (m s) as [a s1| |] eqn:E; [|done..]. destruct (Hm s a s1 Hs E). by apply Hk. Qed.
Lemma locks_seq {A B} (m : M hist A) (k : A → M hist B) R' : locks m any → (∀ a, locks (k a) R') → locks (m ≫= k) R'.
Proof. intros Hm Hk. eapply locks_bind; [exact Hm | by intros a _]. Qed.
Lemma locks_get {B} (k : hist → M hist B) R : (∀ s0, locked s0 → locks (k s0) R) → locks (get ≫= k) R.
Proof. intros Hk s b s' Hs E. by eapply (Hk s Hs s). Qed.
Lemma locks_modify f (R : () → Prop) : (∀ s, locked s → locked (f s)) → R () → locks (modify f) R.
Proof. intros Hf HR s [] s' Hs [= <-]. split; [by apply Hf | done]. Qed.
Lemma locks_write d : locks (termwrite d) any.
Proof. apply locks_modify; [|done]. intros s (H1 & H2 & H3). split; [done|]. split; [done|]. cbn [out add_out]. set_solver. Qed.
Lemma locks_deref {A} (o : option A) : locks (deref o) any.
Proof. destruct o; [by apply locks_ret | by intros s a s' _]. Qed.
Lemma locks_fault {A} R : locks (fault : M hist A) R.
Proof. by intros s a s' _. Qed.

(** Steps that do not touch what [locked] is about. *)
Ltac keep := repeat (lazymatch goal with
  | |- locks (mret _) _ => apply locks_ret; exact I
  | |- locks (termwrite _) _ => apply locks_write
  | |- locks (deref _) _ => apply locks_deref
  | |- locks fault _ => apply locks_fault
  | |- locks (get ≫= _) _ => apply locks_get; intros ? ?
  | |- locks (_ ≫= _) _ => apply locks_seq; [|intros ?]
  | |- locks (modify _) _ => apply locks_modify; [intros ? Hl; exact Hl | exact I]
  | |- locks (let _ := _ in _) _ => cbv zeta
  | |- locks (if ?b then _ else _) _ => destruct b
  | |- locks (match ?o with Some _ => _ | None => _ end) _ => destruct o
  | |- locks (match ?n with O => _ | S _ => _ end) _ => destruct n
  | |- locks (match ?p with (_, _) => _ end) _ => destruct p
  end; cbv beta).

Section Login.
Context (prompt : list Z) (sha1passwdok : list Z → bool) (Hrefused : ∀ l, sha1passwdok l = false) (extravdem : Z).
#[local] Abbreviation login := (telnet_logincmd prompt sha1passwdok extravdem).

(** A login that is refused says nothing to the switch, and asks at most to leave. *)
Lemma login_locks cmd len : locks (login cmd len) (λ r, r = None ∨ r = Some (str "logout")).
Proof using Hrefused.
  unfold telnet_logincmd. apply locks_get. intros s0 Hs0. assert (∀ l, locks (strip_cmd l) any) as Hstrip by (intros l; unfold strip_cmd; keep).
  destruct (status s0 =? HIST_NOCMD).
  - apply locks_seq; [apply Hstrip|]. intros l. apply locks_seq; [|intros; apply locks_ret; by left]. destruct (bool_decide _); [|keep]. apply locks_seq; [keep|]. intros _.
    apply locks_modify; [|done]. by intros s1 (H1 & H2 & H3).
  - destruct (_ || _); [|apply locks_ret; by left]. apply locks_seq; [apply Hstrip|]. intros l. rewrite Hrefused. apply locks_seq.
    + apply locks_modify; [|done]. intros s1 (H1 & H2 & H3). destruct Hs0 as (H0 & _). split; [cbn; lia | done].
    + intros _. destruct (_ <? _); [apply locks_seq; [keep|]; intros _; apply locks_ret; by left | apply locks_ret; by right].
Qed.

Lemma sendcmd_locks : locks (hist_sendcmd prompt login) any.
Proof using Hrefused.
  unfold hist_sendcmd. apply locks_get. intros s0 (H0 & _). destruct (Z.eqb_spec (status s0) HIST_COMMAND) as [E|_]; [unfold HIST_COMMAND in E; lia|].
  eapply locks_bind; [apply login_locks|]. intros r Hr. apply locks_get. intros s1 (_ & Hfd & _). rewrite Hfd. change (0 <=? -1) with false. rewrite andb_false_r.
  apply locks_seq; [keep|]. intros _. destruct Hr as [-> | ->]; [keep|]. change (send_line prompt (str "logout")) with (mret 1 : M hist Z). keep.
Qed.

Lemma showexpand_locks : locks showexpand any.
Proof using. unfold showexpand. keep. Qed.
Lemma tab_locks : locks (tab_key prompt) any.
Proof using. unfold tab_key, erase_line, redraw_line. apply locks_get. intros s0 _. destruct (lastchar s0 =? 9); [|keep]. apply locks_seq; [keep|]. intros _. apply locks_seq; [apply showexpand_locks|]. intros _. keep. Qed.
Lemma ctrl_locks c : locks (ctrl_key prompt c) any.
Proof using. unfold ctrl_key, erase_line, redraw_line. keep; apply tab_locks. Qed.
Lemma telnet_locks act obj : locks (telnet_options act obj) any.
Proof using. unfold telnet_options, telnet_option_send3. keep. Qed.
Lemma plain_locks c : locks (plain_key prompt login c) any.
Proof using Hrefused.
  unfold plain_key. apply locks_get. intros s0 _. apply locks_seq; [keep|]. intros _. destruct (c =? 13); [keep|]. destruct (c =? 10); [|unfold insert_char; keep].
  unfold enter_key, put_history, shift_history. apply locks_get. intros s1 _. apply locks_seq; [keep|]. intros _. apply locks_seq; [keep|]. intros _. apply locks_seq; [apply sendcmd_locks|]. intros rv. keep.
Qed.
Lemma char_locks mem i : locks (term_char prompt login mem i) any.
Proof using Hrefused.
  unfold term_char. apply locks_seq; [keep|]. intros b. apply locks_seq; [keep|]. intros j. apply locks_seq; [keep|]. intros b'. cbv zeta. apply locks_seq; [keep|]. intros opt. destruct opt.
  { keep. apply telnet_locks. }
  destruct (_ =? 27).
  { apply locks_seq; [keep|]. intros b1. apply locks_get. intros s1 (H0 & _). destruct (Z.eqb_spec (status s1) HIST_COMMAND) as [E|_]; [unfold HIST_COMMAND in E; lia|]. rewrite andb_false_r. keep. }
  destruct (_ && _); [destruct (_ =? 4); [keep|]; apply locks_seq; [apply ctrl_locks|]; intros; keep|].
  destruct (_ =? 127); [unfold delete_key; keep|]. apply locks_seq; [apply plain_locks|]. intros rv. keep.
Qed.
Lemma loop_locks fuel : ∀ mem n i, locks (term_loop prompt login fuel mem n i) any.
Proof using Hrefused.
  induction fuel as [|fuel IH]; intros mem n i; cbn [term_loop]; [keep|]. apply locks_get. intros s0 _. destruct (_ && _); [|keep]. apply locks_seq; [apply char_locks|]. intros [rv|j]; [keep | apply IH].
Qed.
End Login.

(** The reads of a telnet connection, until one ends it. *)
Fixpoint telnet_run (prompt : list Z) (sha1passwdok : list Z → bool) (extravdem : Z) (reads : list (list Z * list Z)) : M hist Z :=
  match reads with
  | [] => mret 0
  | (d, stale) :: reads =>
    rv ← vdehist_term_to_mgmt prompt (telnet_logincmd prompt sha1passwdok extravdem) d stale 0;
    if rv =? 0 then telnet_run prompt sha1passwdok extravdem reads else mret rv
  end.

(** Whatever bytes arrive on a telnet connection whose server accepts no
    password, nothing is sent to the switch, no connection to it is opened and the
    session does not reach the state in which commands are accepted. *)
Lemma no_password_no_access prompt sha1passwdok extravdem reads cmds help s0 rv s : (∀ l, sha1passwdok l = false) → vdehist_new (-1) cmds help = Done () s0 →
  telnet_run prompt sha1passwdok extravdem reads s0 = Done rv s → (∀ d, Mgmt d ∉ out s) ∧ mgmtfd s = -1 ∧ status s ≠ HIST_COMMAND.
Proof.
  intros Hrefused Hnew Hrun. assert (locked s0) as H0.
  { assert (status s0 = HIST_NOCMD ∧ mgmtfd s0 = -1 ∧ out s0 = []) as (H1 & H2 & H3) by (destruct cmds; injection Hnew as <-; done). unfold locked. rewrite H1, H2, H3. split; [done|]. split; [done | set_solver]. }
  assert (locks (telnet_run prompt sha1passwdok extravdem reads) (λ _, True)) as Hk.
  { clear -Hrefused. induction reads as [|[d stale] reads IH]; cbn [telnet_run]; [by apply locks_ret|]. apply locks_seq; [|intros rv; destruct (rv =? 0); [done | by apply locks_ret]].
    unfold vdehist_term_to_mgmt. destruct (bool_decide _); [by apply locks_ret | by apply loop_locks]. }
  destruct (Hk s0 rv s H0 Hrun) as [(H1 & H2 & H3) _]. split; [done|]. split; [done|]. unfold HIST_COMMAND. lia.
Qed.

(** The dialogue of the login, on the bytes typed: carriage returns are skipped, a
    newline or a NUL ends the line; the name is asked again until it is [admin], and
    then three lines are tried as passwords. *)
Inductive dialogue := AtLogin | AtPassword (refused : nat) | LetIn | Dismissed.
Definition submit (accepted : list Z → bool) (d : dialogue) (line : list Z) : dialogue :=
  match d with
  | AtLogin => if bool_decide (line = str "admin") then AtPassword 0 else AtLogin
  | AtPassword k => if accepted line then LetIn else if (k <? 2)%nat then AtPassword (S k) else Dismissed
  | _ => d
  end.
Definition type_byte (accepted : list Z → bool) (t : dialogue * list Z) (b : Z) : dialogue * list Z :=
  if b =? 13 then t else if (b =? 10) || (b =? 0) then (submit accepted t.1 t.2, []) else (t.1, t.2 ++ [b]).
Definition typed (accepted : list Z → bool) (bytes : list Z) : dialogue * list Z := foldl (type_byte accepted) (AtLogin, []) bytes.

(** Bytes that are not keys of the line editor or of the telnet protocol. *)
Definition plain_byte (b : Z) : Prop := b = 0 ∨ b = 10 ∨ b = 13 ∨ 32 ≤ b < 127 ∨ 127 < b < 255.
#[export] Instance plain_byte_dec b : Decision (plain_byte b).
Proof. unfold plain_byte. apply _. Defined.

(** The session agrees with the dialogue. *)
Definition dialogue_state (d : dialogue) (s : hist) : Prop :=
  match d with
  | AtLogin => locked s ∧ status s = HIST_NOCMD
  | AtPassword k => locked s ∧ status s = HIST_PASSWDFLAG + Z.of_nat k ∧ (k < 3)%nat
  | LetIn => status s = HIST_COMMAND ∧ 0 ≤ mgmtfd s ∧ ∀ d, Mgmt d ∈ out s → d = str "help" ++ [10]
  | Dismissed => mgmtfd s = -1 ∧ status s ≠ HIST_COMMAND ∧ ∀ d, Mgmt d ∉ out s
  end.
Definition asking (d : dialogue) : Prop := match d with AtLogin | AtPassword _ => True | _ => False end.
Definition at_line (t : dialogue * list Z) (s : hist) : Prop :=
  dialogue_state t.1 s ∧ linebuf s = t.2 ∧ bufindex s = length t.2.

Lemma strip_nl_plain l : Forall (λ b, b ≠ 10) l → strip_nl l = l.
Proof.
  induction 1 as [|b l Hb _ IH]; [done|]. simpl. rewrite IH. destruct l; [|done]. by rewrite (proj2 (Z.eqb_neq b 10)).
Qed.

Lemma wp_strip line (Q : list Z → hist → Prop) s :
  Forall (λ b, b ≠ 10) line →
  (∀ s', status s' = status s → mgmtfd s' = mgmtfd s → out s' = out s → Q line s') → wp (strip_cmd line) Q s.
Proof.
  intros Hl HQ. unfold strip_cmd. rewrite strip_nl_plain by done. cbv zeta. wstep. wstep.
  destruct (bool_decide _ && _); wstep; apply wp_ret; by apply HQ.
Qed.

Lemma dialogue_write d c s : dialogue_state d s → dialogue_state d (add_out (Term c) s).
Proof. destruct d; unfold dialogue_state, locked; simpl; set_solver. Qed.

(** The echo of a key. *)
Lemma wp_echo (c : Z) d s (Q : () → hist → Prop) :
  (∀ s', (dialogue_state d s → dialogue_state d s') → linebuf s' = linebuf s → bufindex s' = bufindex s → Q () s') →
  wp (if echoing s then (if edited s && (32 <=? c) then termwrite [27; 91; 64] else mret ()) ;; termwrite [c] else mret ()) Q s.
Proof.
  intros HQ. destruct (echoing s); [|by apply wp_ret, HQ]. apply wp_bind.
  destruct (_ && _); [apply wp_modify | apply wp_ret]; apply wp_modify; apply HQ; try done; intros; by repeat apply dialogue_write.
Qed.

Section Dialogue.
Context (prompt : list Z) (sha1passwdok : list Z → bool) (extravdem : Z) (Hextra : 0 ≤ extravdem).
#[local] Abbreviation login := (telnet_logincmd prompt sha1passwdok extravdem).
#[local] Abbreviation submitted := (submit sha1passwdok).
#[local] Abbreviation answer d := (match d with Dismissed => 1 | _ => 0 end).

(** The login answers a line as the dialogue says. *)
Lemma wp_login d line s : asking d → dialogue_state d s → Forall (λ b, b ≠ 10) line →
  wp (login line (length line)) (λ r s', dialogue_state (submitted d line) s' ∧
    r = match submitted d line with Dismissed => Some (str "logout") | _ => None end) s.
Proof using Hextra.
  intros Ha Hd Hl. unfold telnet_logincmd. wstep. destruct d as [|k| |]; try done; simpl in Hd.
  - destruct Hd as ((H1 & H2 & H3) & Hst). rewrite Hst, Z.eqb_refl. apply wp_bind, wp_strip; [done|].
    intros s1 E1 E2 E3. simpl. case_bool_decide.
    + apply wp_bind. wstep. apply wp_modify, wp_ret. split; [|done]. simpl. split; [|lia].
      split; [simpl; unfold HIST_PASSWDFLAG; lia|]. simpl. rewrite E2, E3. split; [done | set_solver].
    + apply wp_bind, wp_modify, wp_ret. split; [|done]. simpl. unfold locked. simpl. rewrite E1, E2, E3.
      split; [|done]. split; [lia|]. split; [done | set_solver].
  - destruct Hd as ((H1 & H2 & H3) & E & Hk). rewrite (proj2 (Z.eqb_neq _ HIST_NOCMD)) by (unfold HIST_PASSWDFLAG, HIST_NOCMD in *; lia).
    replace ((status s =? HIST_PASSWDFLAG) || (status s =? HIST_PASSWDFLAG + 1) || (status s =? HIST_PASSWDFLAG + 2)) with true
      by (symmetry; rewrite !orb_true_iff, !Z.eqb_eq; lia).
    apply wp_bind, wp_strip; [done|]. intros s1 E1 E2 E3. simpl. destruct (sha1passwdok line).
    + wstep. rewrite (proj2 (Z.leb_le _ _) Hextra). do 3 wstep. apply wp_ret. split; [|done]. simpl.
      split; [done|]. split; [done|]. rewrite E3. set_solver.
    + wstep. replace (status s + 1 <? HIST_PASSWDFLAG + 3) with (k <? 2)%nat
        by (apply eq_true_iff_eq; rewrite Nat.ltb_lt, Z.ltb_lt; lia).
      destruct (Nat.ltb_spec k 2).
      * wstep. apply wp_ret. split; [|done]. simpl. unfold locked. simpl. rewrite E2, E3.
        split; [|lia]. split; [lia|]. split; [done | set_solver].
      * apply wp_ret. split; [|done]. simpl. rewrite E2, E3. split; [done|]. split; [|done].
        unfold HIST_PASSWDFLAG, HIST_COMMAND in *. lia.
Qed.

Lemma wp_sendcmd d s : asking d → at_line (d, linebuf s) s → Forall (λ b, b ≠ 10) (linebuf s) →
  wp (hist_sendcmd prompt login) (λ rv s', dialogue_state (submitted d (linebuf s)) s' ∧
    rv = answer (submitted d (linebuf s))) s.
Proof using Hextra.
  intros Ha (Hd & _ & Hb) Hl. unfold hist_sendcmd. wstep.
  assert (status s ≠ HIST_COMMAND) as Hs by (destruct d; simpl in *; try done; destruct Hd as ((? & _) & _); unfold HIST_COMMAND; lia).
  rewrite (proj2 (Z.eqb_neq _ _) Hs). apply wp_bind. simpl in Hb. rewrite Hb.
  eapply wp_mono; [exact (wp_login d (linebuf s) s Ha Hd Hl)|].
  intros r s1 [H1 ->]. wstep. destruct (submitted d (linebuf s)) as [|k| |] eqn:E; simpl in H1.
  - rewrite (proj1 (proj2 (proj1 H1))). rewrite andb_false_r. wstep. by apply wp_ret.
  - rewrite (proj1 (proj2 (proj1 H1))). rewrite andb_false_r. wstep. by apply wp_ret.
  - destruct H1 as (H1 & H2 & H3). rewrite (proj2 (Z.leb_le _ _) H2), andb_true_r. case_bool_decide.
    + apply wp_bind. unfold vdehist_create_commandlist. wstep. rewrite (proj2 (Z.ltb_ge _ _) H2). wstep. apply wp_modify. simpl.
      apply wp_ret. split; [|done]. simpl. split; [done|]. split; [done|]. set_solver.
    + wstep. by apply wp_ret.
  - rewrite (proj1 H1). rewrite andb_false_r. wstep.
    change (send_line prompt (str "logout")) with (mret 1 : M hist Z). by apply wp_ret.
Qed.

(** A line that is sent. *)
Lemma wp_enter d line s : asking d → at_line (d, line) s → Forall (λ b, b ≠ 10) line →
  wp (enter_key prompt login) (λ rv s', rv = answer (submitted d line) ∧
    if rv =? 0 then at_line (submitted d line, []) s' else dialogue_state (submitted d line) s') s.
Proof using Hextra.
  intros Ha (Hd & Hl & Hb) Hn. simpl in Hd, Hl, Hb. unfold enter_key. wstep.
  assert (status s ≠ HIST_COMMAND) as Hs by (destruct d; simpl in *; try done; destruct Hd as ((? & _) & _); unfold HIST_COMMAND; lia).
  rewrite (proj2 (Z.eqb_neq _ _) Hs). wstep. wstep. apply wp_bind. subst line.
  eapply wp_mono; [apply (wp_sendcmd d (set_line (linebuf s) (length (linebuf s)) s)); [done| |done]|].
  { split; [destruct d; exact Hd | done]. }
  simpl. intros rv s' [H1 ->]. destruct (submitted d (linebuf s)); simpl.
  4: { wstep. apply wp_ret. by split. }
  all: wstep; apply wp_ret; split; [done|]; split; [exact H1 | done].
Qed.

Lemma wp_plain_byte b t s mem i :
  plain_byte b → zget mem i = Some b → asking t.1 → at_line t s → Forall (λ b, b ≠ 10) t.2 →
  (length (type_byte sha1passwdok t b).2 ≤ 1022)%nat →
  wp (term_char prompt login mem i) (λ r s', let t' := type_byte sha1passwdok t b in
    match t'.1 with
    | Dismissed => r = inl 1 ∧ dialogue_state Dismissed s'
    | _ => r = inr i ∧ at_line t' s'
    end) s.
Proof using Hextra.
  intros Hp Hz Ha (Hd & Hl & Hb) Hn Hlen. destruct t as [d line]. cbn [fst snd] in *.
  assert (status s ≠ HIST_COMMAND) as Hs by (destruct d; simpl in *; try done; destruct Hd as ((? & _) & _); unfold HIST_COMMAND; lia).
  unfold term_char. rewrite Hz. cbn [deref]. wstep. rewrite (proj2 (Z.eqb_neq b 0xff)) by (unfold plain_byte in Hp; lia).
  wstep. rewrite Hz. cbn [deref]. wstep. cbv zeta.
  set (b' := if b =? 0 then 10 else b). assert (b' = 10 ∨ b' = 13 ∨ 32 ≤ b' < 127 ∨ 127 < b' < 255) as Hb'.
  { unfold b'. destruct (Z.eqb_spec b 0); unfold plain_byte in Hp; lia. }
  rewrite (proj2 (Z.eqb_neq b' 0xff)) by lia. wstep. rewrite (proj2 (Z.eqb_neq b' 27)) by lia.
  replace ((b' <? 32) && negb ((b' =? 10) || (b' =? 13))) with false
    by (symmetry; rewrite andb_false_iff, negb_false_iff, orb_true_iff, Z.ltb_ge, !Z.eqb_eq; lia).
  rewrite (proj2 (Z.eqb_neq b' 127)) by lia. unfold plain_key.
  apply wp_bind. wstep. apply wp_bind, (wp_echo b' d s). intros s1 Hd1 El1 Eb1. specialize (Hd1 Hd).
  unfold type_byte in *. destruct (Z.eqb_spec b' 13) as [E|Hne].
  { assert (b = 13) as -> by (unfold b' in E; destruct (b =? 0); lia). simpl. apply wp_ret. rewrite Z.eqb_refl. wstep. apply wp_ret.
    destruct d; try done; (split; [done|]; split; [exact Hd1|]; simpl; by rewrite El1, Eb1). }
  rewrite (proj2 (Z.eqb_neq b 13)) by (unfold b' in Hne; destruct (Z.eqb_spec b 0); lia).
  destruct (Z.eqb_spec b' 10) as [E|Hne'].
  - assert ((b =? 10) || (b =? 0) = true) as -> by (unfold b' in E; destruct (b =? 0); [by rewrite orb_true_r | by rewrite (proj2 (Z.eqb_eq b 10))]).
    eapply wp_mono; [apply (wp_enter d line s1 Ha); [split; [exact Hd1 | simpl; by rewrite El1, Eb1] | done]|].
    cbn [fst snd]. intros rv s2 [-> H2]. destruct (submitted d line); simpl in *; [..|by apply wp_ret]; wstep; apply wp_ret; by split.
  - assert ((b =? 10) = false ∧ (b =? 0) = false ∧ b' = b) as (E10 & E0 & ->) by (unfold b' in *; destruct (Z.eqb_spec b 0); [lia|]; split_and!; try done; by apply Z.eqb_neq).
    rewrite E10, E0 in *. cbn [orb fst snd] in *. apply wp_bind. unfold insert_char. wstep. cbv zeta.
    rewrite (proj2 (Z.eqb_neq b 13)) in Hlen by done. simpl in Hlen. rewrite length_app in Hlen. simpl in Hlen. rewrite El1, Hl, (proj2 (Z.ltb_ge _ _)) by (unfold BUFSIZE; lia).
    apply wp_modify, wp_ret. rewrite Z.eqb_refl. wstep. apply wp_ret.
    assert (at_line (d, line ++ [b]) (set_lastchar b (set_line (take (bufindex s1) line ++ b :: drop (bufindex s1) line) (S (bufindex s1)) s1))) as H2.
    { split; [exact Hd1|]. simpl. rewrite Eb1, Hb, take_ge, drop_ge, length_app by done. simpl. split; [done | lia]. }
    by destruct d.
Qed.

#[local] Abbreviation after := (foldl (type_byte sha1passwdok)).
(** No line is longer than the buffer, and nobody is admitted before the last byte. *)
Definition steady (t : dialogue * list Z) (bytes : list Z) : Prop :=
  ∀ k, (length (after t (take k bytes)).2 ≤ 1022)%nat ∧ ((k < length bytes)%nat → (after t (take k bytes)).1 ≠ LetIn).
Definition reached (t : dialogue * list Z) (rv : Z) (s : hist) : Prop :=
  match t.1 with Dismissed => rv = 1 ∧ dialogue_state Dismissed s | _ => rv = 0 ∧ at_line t s end.

Lemma steady_app t l1 l2 : steady t (l1 ++ l2) → steady t l1 ∧ steady (after t l1) l2.
Proof using.
  intros H. split; intros k.
  - destruct (decide (k ≤ length l1)%nat).
    + destruct (H k) as [H1 H2]. rewrite take_app_le in H1, H2 by done. split; [done|].
      intros Hk. apply H2. rewrite length_app. lia.
    + destruct (H (length l1)) as [H1 _]. rewrite take_app_le, take_ge in H1 by lia. rewrite take_ge by lia. split; [done | lia].
  - destruct (H (length l1 + k)%nat) as [H1 H2]. rewrite take_app_add, foldl_app in H1, H2. split; [done|].
    intros Hk. apply H2. rewrite length_app. lia.
Qed.

Lemma after_dismissed l : ∀ line, (after (Dismissed, line) l).1 = Dismissed.
Proof using. induction l as [|b l IH]; intros line; [done|]. simpl. unfold type_byte at 2. simpl. repeat case_match; apply IH. Qed.

Lemma typed_no_newline t l : Forall (λ b, b ≠ 10) t.2 → Forall (λ b, b ≠ 10) (after t l).2.
Proof using.
  revert t. induction l as [|b l IH]; intros t Ht; [done|]. simpl. apply IH. unfold type_byte.
  destruct (b =? 13); [done|]. destruct (Z.eqb_spec b 10); [constructor|]. destruct (b =? 0); [constructor|]. simpl.
  apply Forall_app. split; [done|]. by repeat constructor.
Qed.

(** One read. *)
Lemma wp_loop bytes : ∀ fuel mem n i t s, Forall plain_byte bytes →
  (∀ j b, bytes !! j = Some b → zget mem (i + Z.of_nat j) = Some b) → n = i + Z.of_nat (length bytes) → (length bytes ≤ fuel)%nat →
  asking t.1 → at_line t s → Forall (λ b, b ≠ 10) t.2 → steady t bytes →
  wp (term_loop prompt login fuel mem n i) (reached (after t bytes)) s.
Proof using Hextra.
  induction bytes as [|b bytes IH]; intros fuel mem n i t s Hp Hm -> Hf Ha Hs Hn Hst.
  - destruct fuel; cbn [term_loop length]; wstep; rewrite (proj2 (Z.ltb_ge _ _)) by lia; apply wp_ret; unfold reached; simpl;
      destruct t as [d l]; by destruct d.
  - destruct fuel as [|fuel]; simpl in Hf; [lia|]. cbn [term_loop length]. wstep. apply Forall_cons in Hp as [Hb Hp].
    destruct (steady_app t [b] bytes Hst) as [H1 H2]. pose proof (proj1 (H1 0%nat)) as Hlen0. pose proof (proj1 (H1 1%nat)) as Hlen1. simpl in Hlen0, Hlen1.
    rewrite (proj1 (proj2 Hs)), (proj2 (Z.ltb_lt i _)), (proj2 (Z.ltb_lt _ BUFSIZE)) by (unfold BUFSIZE; lia). cbn [andb].
    apply wp_bind. eapply wp_mono; [apply (wp_plain_byte b t s mem i); try done|].
    { rewrite <- (Hm 0%nat b) by done. f_equal. lia. }
    intros r s' Hr. cbv zeta in Hr. change (after t (b :: bytes)) with (after (type_byte sha1passwdok t b) bytes). simpl in H2.
    set (t' := type_byte sha1passwdok t b) in *. assert (∀ d, t'.1 = d → asking d → r = inr i ∧ at_line t' s' →
      wp (match r with inl rv => mret rv | inr i0 => term_loop prompt login fuel mem (i + Z.of_nat (S (length bytes))) (i0 + 1) end) (reached (after t' bytes)) s') as Hgo.
    { intros d E Hd [-> Hr']. apply IH; try done; try lia.
      - intros j c Hj. rewrite <- (Hm (S j) c) by done. f_equal. lia.
      - by rewrite E.
      - by apply (typed_no_newline t [b]). }
    destruct t'.1 eqn:E; [by apply (Hgo AtLogin) | by apply (Hgo (AtPassword refused)) | |].
    + destruct bytes as [|c bytes]; [|exfalso; apply (proj2 (H2 0%nat)); [simpl; lia | done]].
      destruct Hr as [-> Hr]. destruct fuel; cbn [term_loop length]; wstep; rewrite (proj2 (Z.ltb_ge _ _)) by lia; apply wp_ret; unfold reached; simpl; by rewrite E.
    + destruct Hr as [-> Hr]. apply wp_ret. unfold reached. destruct t' as [d' l']. simpl in E. subst d'. by rewrite after_dismissed.
Qed.

Lemma wp_telnet_run reads : ∀ t s, Forall (λ r, r.1 ≠ [] ∧ Forall plain_byte r.1) reads →
  asking t.1 → at_line t s → Forall (λ b, b ≠ 10) t.2 → steady t (concat (fst <$> reads)) →
  wp (telnet_run prompt sha1passwdok extravdem reads) (reached (after t (concat (fst <$> reads)))) s.
Proof using Hextra.
  induction reads as [|[d stale] reads IH]; intros t s Hr Ha Hs Hn Hst.
  { simpl. apply wp_ret. unfold reached. simpl. destruct t as [[] l]; done. }
  apply Forall_cons in Hr as [[Hne Hd] Hr]. simpl in Hne, Hd. cbn [telnet_run]. apply wp_bind.
  destruct (steady_app t d _ Hst) as [H1 H2]. unfold vdehist_term_to_mgmt. rewrite bool_decide_eq_false_2 by done.
  eapply wp_mono; [apply (wp_loop d _ _ _ 0 t s); try done|].
  { intros j b Hj. rewrite Z.add_0_l. rewrite zget_nat. by apply lookup_app_l_Some. }
  intros rv s' Hrv. simpl. rewrite foldl_app. set (t' := after t d) in *.
  unfold reached in Hrv. destruct t'.1 eqn:E.
  4: { destruct Hrv as [-> Hrv]. simpl. apply wp_ret. unfold reached. destruct t' as [d' l']. simpl in E. subst d'. by rewrite after_dismissed. }
  3: { destruct Hrv as [-> Hrv]. destruct reads as [|[d2 st2] reads].
       - simpl. apply wp_ret. unfold reached. simpl. by rewrite E.
       - exfalso. apply Forall_cons in Hr as [[Hne2 _] _]. simpl in Hne2. apply (proj2 (H2 0%nat)); [|done].
         simpl. rewrite length_app. destruct d2; [done | simpl; lia]. }
  all: destruct Hrv as [-> Hrv]; simpl; apply IH; try done; [by rewrite E | by apply typed_no_newline].
Qed.
End Dialogue.

(** [steady] can be evaluated. *)
Lemma steady_check accepted t bytes :
  forallb (λ k, (length (foldl (type_byte accepted) t (take k bytes)).2 <=? 1022)%nat
    && match (foldl (type_byte accepted) t (take k bytes)).1 with LetIn => (length bytes <=? k)%nat | _ => true end) (seq 0 (S (length bytes))) = true →
  steady accepted t bytes.
Proof.
  intros H k. rewrite forallb_forall in H.
  assert (take k bytes = take (k `min` length bytes)%nat bytes) as ->.
  { destruct (Nat.le_ge_cases k (length bytes)); [by rewrite Nat.min_l | by rewrite Nat.min_r, !take_ge]. }
  specialize (H (k `min` length bytes)%nat). rewrite in_seq, andb_true_iff, Nat.leb_le in H. destruct H as [H1 H2]; [lia|].
  split; [done|]. intros Hk E. rewrite E in H2. apply Nat.leb_le in H2. lia.
Qed.

(** C27: The login of the telnet server, exactly.  Bytes arrive on a new connection, in
    reads cut anywhere: any bytes but the keys of the line editor and the telnet
    escapes, in lines that fit the buffer (a longer one overflows it,
    [line_overflows]), and a connection to the switch can be opened.  Up to and including the
    byte that admits the user, the session follows the dialogue: the name is asked until it
    is [admin], then each line typed is submitted to [sha1passwdok]; while no line typed as
    a password has been accepted, no connection to the switch is open, nothing is sent
    to it and commands are not accepted; the third refusal ends the session; and the
    first accepted line opens the connection (on which only [help] has then been sent)
    and lets commands through. *)
Theorem telnet_needs_password prompt sha1passwdok extravdem reads cmds help s0 :
  0 ≤ extravdem → vdehist_new (-1) cmds help = Done () s0 →
  Forall (λ r, r.1 ≠ [] ∧ Forall plain_byte r.1) reads →
  steady sha1passwdok (AtLogin, []) (concat (fst <$> reads)) →
  ∃ rv s, telnet_run prompt sha1passwdok extravdem reads s0 = Done rv s ∧
    let '(d, line) := typed sha1passwdok (concat (fst <$> reads)) in
    match d with
    | AtLogin | AtPassword _ => rv = 0 ∧ dialogue_state d s ∧ linebuf s = line
    | LetIn => rv = 0 ∧ dialogue_state d s
    | Dismissed => rv = 1 ∧ dialogue_state d s
    end.
Proof.
  intros He Hnew Hr Hst.
  assert (at_line (AtLogin, []) s0) as H0.
  { assert (status s0 = HIST_NOCMD ∧ mgmtfd s0 = -1 ∧ out s0 = [] ∧ linebuf s0 = [] ∧ bufindex s0 = O) as (H1 & H2 & H3 & H4 & H5)
      by (destruct cmds; injection Hnew as <-; done).
    split; [|done]. simpl. unfold locked. rewrite H1, H2, H3. split; [|done]. split; [done|]. split; [done | set_solver]. }
  destruct (wp_done_intro _ _ _ (wp_telnet_run prompt sha1passwdok extravdem He reads (AtLogin, []) s0 Hr I H0 (Forall_nil_2 _) Hst)) as (rv & s & E & H).
  exists rv, s. split; [exact E|]. unfold typed. destruct (foldl _ _ _) as [d line]. unfold reached, at_line in H. simpl in H.
  destruct d; naive_solver.
Qed.

(** ** Where it goes wrong *)

Definition demo_prompt : list Z := str "vde[a]: ".
Definition demo_commands : list (list Z) := [str "port/print"; str "vlan/add"].
Definition demo_start : hist := Hist HIST_COMMAND true false false false 0 [] O [] (replicate 32 None) 0 5 (Some demo_commands) [] [].
Definition demo_stale : list Z := replicate 1024 0.
Definition demo_login : list Z → nat → M hist (option (list Z)) := λ _ _, mret None.
Definition demo_keys (ks : list key) : outcome hist Z := run_keys demo_prompt demo_login demo_stale ks demo_start.
Definition demo_row (s : hist) : list Z := let t := display (out s) (Screen (rev demo_prompt) []) in rev (tleft t) ++ tright t.

(** A character inserted after control-A is drawn over the one under the cursor: the
    line is xab and the terminal shows xb. *)
Lemma begin_of_line_shown_wrong : ∃ s, demo_keys [Char 97; Char 98; Ctrl 1; Char 120] = Done 0 s ∧ linebuf s = str "xab" ∧ demo_row s = demo_prompt ++ str "xb".
Proof. eexists. split; [vm_compute; reflexivity|]. vm_compute. done. Qed.
(** Control-E also completes the command. *)
Lemma end_of_line_completes : ∃ s, demo_keys [Char 112; Char 111; Ctrl 5] = Done 0 s ∧ linebuf s = str "port/print ".
Proof. eexists. split; [vm_compute; reflexivity|]. vm_compute. done. Qed.
(** The byte that follows an arrow in the same read is lost. *)
Lemma arrow_eats_next : ∃ s, vdehist_term_to_mgmt demo_prompt demo_login [97; 27; 91; 68; 120; 121] demo_stale 0 demo_start = Done 0 s ∧ linebuf s = str "ya".
Proof. eexists. split; [vm_compute; reflexivity|]. vm_compute. done. Qed.
(** The byte 255, which telnet sends twice, is taken for an option all the same. *)
Lemma escaped_byte_is_option : ∃ s, vdehist_term_to_mgmt demo_prompt demo_login [255; 255; 97; 98] demo_stale 0 demo_start = Done 0 s ∧ linebuf s = [] ∧ telnetprotocol s = true.
Proof. eexists. split; [vm_compute; reflexivity|]. vm_compute. done. Qed.
(** A debug message without text leaves the line of input behind its label. *)
Lemma bare_debug_shown_wrong : ∃ s, vdehist_mgmt_to_term demo_prompt [str "3001" ++ [10]] 0 demo_start = Done () s ∧ demo_row s = replicate 12 32 ++ demo_prompt.
Proof. eexists. split; [vm_compute; reflexivity|]. vm_compute. done. Qed.
(** Control-L draws a password that is being typed. *)
Lemma password_shown prompt s : ∃ s', ctrl_key prompt 12 s = Done () s' ∧ last (out s') = Some (Term (prompt ++ linebuf s ++ backspaces (length (linebuf s) - bufindex s))).
Proof. eexists. split; [reflexivity|]. cbn [out add_out]. by rewrite last_snoc. Qed.
(** The character that would make the line as long as its buffer is written behind it. *)
Lemma line_overflows c s : length (linebuf s) = 1023%nat → insert_char c s = Fault.
Proof. intros Hl. unfold insert_char, mbind, M_bind, get. unfold BUFSIZE. rewrite Hl. reflexivity. Qed.
(** So is a line of the switch that is longer than its buffer, and the end of the
    buffer is not looked at. *)
Lemma answer_overflows b s : length (vlinebuf s) = 1025%nat → mgmt_char b s = Fault.
Proof. intros Hl. unfold mgmt_char, mbind, M_bind, get, BUFSIZE. rewrite Hl. by destruct (b =? 10). Qed.
(** When the first read of an answer fails a zero is written before the buffer. *)
Lemma failed_read_faults prompt s : mgmtfd s ≠ 0 → vdehist_mgmt_to_term prompt [] (-1) s = Fault.
Proof. intros H. apply Z.eqb_neq in H. unfold vdehist_mgmt_to_term, erase_line, termwrite, modify, mbind, M_bind, get. cbn [mgmtfd add_out]. rewrite H. reflexivity. Qed.

(** The last answer to [help] that has no end is complete all the same: the lines are
    read until the input ends. *)
Lemma readln_shorter fuel : ∀ inp rb acc lastch line inp' rb', readln fuel inp rb acc lastch = (Some line, inp', rb') → (0 < fuel)%nat →
  (length (concat inp') + length rb' < length (concat inp) + length rb)%nat.
Proof.
  induction fuel as [|fuel IH]; intros inp rb acc lastch line inp' rb' E Hf; [lia|]. cbn [readln] in E.
  assert (∃ inp1 rb1, match rb with [] => (tail inp, default [] (head inp)) | _ => (inp, rb) end = (inp1, rb1) ∧ (length (concat inp1) + length rb1 = length (concat inp) + length rb)%nat) as (inp1 & rb1 & E1 & Hlen).
  { destruct rb as [|x rb]; [|eexists _, _; by split]. destruct inp as [|c inp]; eexists _, _; (split; [reflexivity|]); cbn; rewrite ?length_app; lia. }
  rewrite E1 in E. destruct rb1 as [|c rb1]; [done|]. destruct (_ && _ && _); [done|]. cbn [length] in Hlen. destruct (c =? 10); [injection E as _ <- <-; lia|].
  destruct fuel as [|fuel]; [cbn in E; injection E as _ <- <-; lia|]. apply IH in E; lia.
Qed.
(** The fuel of [command_lines] is enough: more of it changes nothing. *)
Lemma command_lines_fuel fuel : ∀ fuel' st inp rb lc cmds, (length (concat inp) + length rb < fuel)%nat → (fuel ≤ fuel')%nat →
  command_lines fuel' st inp rb lc cmds = command_lines fuel st inp rb lc cmds.
Proof.
  induction fuel as [|fuel IH]; intros fuel' st inp rb lc cmds Hl Hf; [lia|]. destruct fuel' as [|fuel']; [lia|]. cbn [command_lines]. destruct st; [| |done];
    destruct (vdehist_readln inp rb) as [[[line|] inp'] rb'] eqn:E; try done; apply readln_shorter in E; try (unfold BUFSIZE; lia).
  - apply IH; lia.
  - destruct (strncmp0 _ _ _); apply IH; lia.
Qed.

(** ** Witnesses *)

(** The state after some keys, each with room on the line. *)
Fixpoint keys_to (ks : list key) (s : hist) : option hist :=
  match ks with
  | [] => Some s
  | k :: ks =>
    if (length (linebuf s) <? 1023)%nat then
      match type_key demo_prompt demo_login k demo_stale s with
      | Done rv s' => if rv =? 0 then keys_to ks s' else None
      | _ => None
      end
    else None
  end.
Lemma session_keys ks : ∀ s s', session demo_prompt demo_login s → Forall key_ok ks → keys_to ks s = Some s' → session demo_prompt demo_login s'.
Proof.
  induction ks as [|k ks IH]; intros s s' Hs Hk E; [by injection E as <-|]. apply Forall_cons in Hk as [Hk Hks]. cbn [keys_to] in E. destruct (Nat.ltb_spec (length (linebuf s)) 1023); [|done].
  destruct (type_key _ _ _ _ s) as [rv s1| |] eqn:Ek; [|done..]. destruct (Z.eqb_spec rv 0) as [->|]; [|done]. eapply IH; [|done|exact E]. by apply (ses_key _ _ s k demo_stale).
Qed.
Lemma demo_prompt_ok : Forall printable demo_prompt.
Proof. apply (bool_decide_eq_true_1 _). vm_compute. reflexivity. Qed.
Lemma demo_session : session demo_prompt demo_login demo_start.
Proof.
  apply (ses_new _ _ 5 (Some demo_commands) []); [lia | reflexivity|]. intros cs [= <-]. apply (bool_decide_eq_true_1 _). vm_compute. reflexivity.
Qed.

Lemma display_follows_line_witness : ∃ s k, keys_to [Char 112; Char 111; Ctrl 9; Arrow 68; Char 120] demo_start = Some s ∧ linebuf s = str "port/printx " ∧
  display (out s) (Screen (rev demo_prompt) []) = Screen (rev (demo_prompt ++ str "port/printx")) ([32] ++ replicate k 32).
Proof.
  eexists. destruct (display_follows_line demo_prompt demo_login (default demo_start (keys_to [Char 112; Char 111; Ctrl 9; Arrow 68; Char 120] demo_start))) as [[k Hk] _].
  - exact demo_prompt_ok.
  - eapply (session_keys [Char 112; Char 111; Ctrl 9; Arrow 68; Char 120] demo_start); [exact demo_session | repeat constructor; (lia || unfold printable; lia) | vm_compute; reflexivity].
  - exists k. split; [vm_compute; reflexivity|]. split; [vm_compute; reflexivity|]. exact Hk.
Defined.
Lemma history_recall_witness : ∃ s, run_keys demo_prompt demo_login demo_stale (concat (command_keys <$> [str "a"; str "bc"; str "d"]) ++ replicate 3 Up ++ replicate 1 Down) demo_start = Done 0 s ∧ linebuf s = str "bc".
Proof.
  destruct (history_recall demo_prompt demo_login demo_start [str "a"; str "bc"; str "d"] 3 1 demo_stale) as (s & E & Hl & _).
  - exact demo_prompt_ok.
  - exact demo_session.
  - reflexivity.
  - reflexivity.
  - repeat constructor; try discriminate; try (cbn; lia); apply (bool_decide_eq_true_1 _); vm_compute; reflexivity.
  - cbn. lia.
  - cbn. lia.
  - reflexivity.
  - exists s. split; [exact E | exact Hl].
Defined.
Definition demo_answer : list Z := answer [str "0: port"; []] [49; 48; 48; 48] (str "Success").
Lemma answer_shown_witness : ∃ s' e r, vdehist_mgmt_to_term demo_prompt [take 7 demo_answer; drop 7 demo_answer] 0 (set_vde false (str "vde$ ") demo_start) = Done () s' ∧
  out s' = [Term e; Term (str "0: port" ++ [13; 10]); Term [13; 10]; Term (str "Success" ++ [13; 10]); Term r].
Proof.
  destruct (answer_shown demo_prompt (set_vde false (str "vde$ ") demo_start) (str "vde$ ") [str "0: port"; []] 48 48 48 (str "Success") [take 7 demo_answer; drop 7 demo_answer] 0) as (s' & e & r & E & Ho & _).
  - reflexivity.
  - reflexivity.
  - apply (bool_decide_eq_true_1 _). vm_compute. reflexivity.
  - repeat constructor.
  - cbn. lia.
  - repeat constructor; try discriminate; try (cbn; lia); apply (bool_decide_eq_true_1 _); vm_compute; reflexivity.
  - reflexivity.
  - apply (bool_decide_eq_true_1 _). vm_compute. reflexivity.
  - cbn. lia.
  - cbn. lia.
  - discriminate.
  - vm_compute. reflexivity.
  - exists s', e, r. split; [exact E | exact Ho].
Defined.
(** A connection on which the password is accepted is let in, and one on which it is not
    is not. *)
Definition demo_telnet : hist := Hist HIST_NOCMD true false false false 0 [] O [] (replicate 32 None) 0 (-1) (Some []) [] [].
Definition demo_reads (pw : string) : list (list Z * list Z) := [(str "admin" ++ [10], demo_stale); (str pw ++ [10], demo_stale)].
Lemma telnet_lets_in : ∃ s, telnet_run demo_prompt (λ l, bool_decide (l = str "secret")) 7 (demo_reads "secret") demo_telnet = Done 0 s ∧ status s = HIST_COMMAND ∧ mgmtfd s = 7.
Proof. eexists. split; [vm_compute; reflexivity|]. vm_compute. done. Qed.
(** A login typed in reads cut within the words, with CR LF and CR NUL at the ends of the
    lines and one wrong password: locked before the last line, admitted after it. *)
Definition demo_dialogue : list (list Z * list Z) :=
  [(str "ad", demo_stale); (str "min" ++ [13; 10] ++ str "gue", demo_stale); (str "ss" ++ [13; 0] ++ str "secret", demo_stale)].
Lemma telnet_needs_password_witness :
  let ok := λ l, bool_decide (l = str "secret") in
  (∃ s, telnet_run demo_prompt ok 7 demo_dialogue demo_telnet = Done 0 s ∧ dialogue_state (AtPassword 1) s ∧ linebuf s = str "secret") ∧
  ∃ s, telnet_run demo_prompt ok 7 (demo_dialogue ++ [([10], demo_stale)]) demo_telnet = Done 0 s ∧ dialogue_state LetIn s.
Proof.
  intros ok. split.
  - destruct (telnet_needs_password demo_prompt ok 7 demo_dialogue (Some []) [] demo_telnet) as (rv & s & E & -> & Hd & Hl).
    + lia.
    + reflexivity.
    + apply (bool_decide_eq_true_1 _). vm_compute. reflexivity.
    + apply steady_check. vm_compute. reflexivity.
    + exists s. split; [exact E|]. split; [exact Hd | exact Hl].
  - destruct (telnet_needs_password demo_prompt ok 7 (demo_dialogue ++ [([10], demo_stale)]) (Some []) [] demo_telnet) as (rv & s & E & -> & Hd).
    + lia.
    + reflexivity.
    + apply (bool_decide_eq_true_1 _). vm_compute. reflexivity.
    + apply steady_check. vm_compute. reflexivity.
    + exists s. split; [exact E | exact Hd].
Defined.
