(* ===== verification/VDhcp.v ===== *)
(** * VDhcp: the DHCP server and client of [vde_router]

    [vder_dhcp.c].  A datagram is the contents of the buffer of 2000 bytes it was
    received into and its length; pointers into the buffer are offsets, and an
    access outside of it is a fault.  What the functions ask [vder_udp.c] to send
    is listed in the state; [VPacket] says what becomes of it.  The field [arp]
    of a negotiation is used for its address only, which never changes once the
    entry exists, so a negotiation keeps the address.

    The theorems: the options [is_options_valid] accepts are read to their end
    and no further; the server never offers an address to two clients; and a
    client that meets the server gets an address of the pool, with the server's
    netmask, router and lease time. *)
From Stdlib Require Import Lia.
From stdpp Require Import base numbers sets list gmap relations.
From S2P Require Import Prelude VArp VRoute VQueue VPacket.

Definition DHCPD_PORT : Z := ntohs 67.
Definition DHCP_CLIENT_PORT : Z := ntohs 68.
Definition DHCP_OP_REQUEST : Z := 1.
Definition DHCP_OP_REPLY : Z := 2.
Definition HTYPE_ETHER : Z := 1.
Definition HLEN_ETHER : Z := 6.
Definition DHCPD_MAGIC_COOKIE : Z := ntohl 0x63825363.
Definition DHCPOPT_PAD : Z := 0x00.
Definition DHCPOPT_NETMASK : Z := 0x01.
Definition DHCPOPT_TIME : Z := 0x02.
Definition DHCPOPT_ROUTER : Z := 0x03.
Definition DHCPOPT_DNS : Z := 0x06.
Definition DHCPOPT_HOSTNAME : Z := 0x0c.
Definition DHCPOPT_BCAST : Z := 0x1c.
Definition DHCPOPT_REQIP : Z := 0x32.
Definition DHCPOPT_LEASETIME : Z := 0x33.
Definition DHCPOPT_MSGTYPE : Z := 0x35.
Definition DHCPOPT_SERVERID : Z := 0x36.
Definition DHCPOPT_PARMLIST : Z := 0x37.
Definition DHCPOPT_END : Z := 0xFF.
Definition DHCP_MSG_DISCOVER : Z := 1.
Definition DHCP_MSG_OFFER : Z := 2.
Definition DHCP_MSG_REQUEST : Z := 3.
Definition DHCP_MSG_ACK : Z := 5.
Definition DHCP_DATAGRAM_SIZE : Z := 300.
Definition OPENDNS : Z := ntohl 0xd043dede.

(** Offsets in [struct dhcphdr], which is packed. *)
Definition DH_OP : Z := 0.
Definition DH_HTYPE : Z := 1.
Definition DH_HLEN : Z := 2.
Definition DH_XID : Z := 4.
Definition DH_SECS : Z := 8.
Definition DH_YIADDR : Z := 16.
Definition DH_SIADDR : Z := 20.
Definition DH_HWADDR : Z := 28.
Definition DH_MAGIC : Z := 236.
Definition DH_OPTIONS : Z := 240.

Inductive dhcp_negotiation_state := DHCPSTATE_DISCOVER | DHCPSTATE_OFFER | DHCPSTATE_REQUEST | DHCPSTATE_ACK.
Record vder_dhcp_negotiation := Negotiation { dn_xid : Z; dn_hwaddr : list Z; dn_state : dhcp_negotiation_state; dn_ipaddr : Z }.

(** [Settings], [Negotiation_list] and what was passed to
    [vder_udpsocket_sendto]: the destination and the data. *)
Record vder_dhcpd_settings := Settings { set_iface : vder_iface; pool_start : Z; pool_next : Z; pool_end : Z; lease_time : Z }.
Record dhcpd := Dhcpd { settings : vder_dhcpd_settings; Negotiation_list : list vder_dhcp_negotiation; d_sent : list (Z * list Z) }.

(** ** Memory *)

Definition load {S} (m : list Z) (o n : Z) : M S (list Z) :=
  if (0 <=? o) && (0 <=? n) && (o + n <=? Z.of_nat (length m)) then mret (slice m o n) else fault.
Fixpoint store {S} (m : list Z) (ws : list (Z * list Z)) : M S (list Z) :=
  match ws with
  | [] => mret m
  | (o, d) :: ws => m ← deref (memcpy_at m o d); store m ws
  end.

(** ** Options *)

(** The type, [data], [*len] and [*nextopt].  The assignment to [len] after an
    option without data is to the pointer: [*len] stays. *)
Definition dhcp_get_next_option {S} (buf : list Z) (p : Z) (data : list Z) (len : Z) : M S (Z * list Z * Z * Z) :=
  type ← deref (zget buf p);
  let p := p + 1 in
  if (type =? DHCPOPT_END) || (type =? DHCPOPT_PAD) then
    data ← deref (memcpy_at data 0 (replicate (Z.to_nat len) 0));
    mret (type, data, len, p)
  else
    opt_len ← deref (zget buf p);
    let p := p + 1 in
    let len := if opt_len <? len then opt_len else len in
    d ← load buf p len;
    data ← deref (memcpy_at data 0 d);
    mret (type, data, len, p + opt_len).

(** [len] decreases in every turn: with [fuel] at least [len] the loop ends. *)
Fixpoint options_valid_loop (fuel : nat) (buf : list Z) (p len : Z) : option bool :=
  match fuel with
  | O => Some false
  | S fuel =>
    if len <=? 0 then Some false else
    c ← zget buf p;
    if c =? DHCPOPT_END then Some true
    else if c =? DHCPOPT_PAD then options_valid_loop fuel buf (p + 1) (len - 1)
    else
      opt_len ← zget buf (p + 1);
      options_valid_loop fuel buf (p + 1 + (opt_len + 1)) (len - 1 - opt_len)
  end.
Definition is_options_valid (buf : list Z) (p len : Z) : option bool := options_valid_loop (Z.to_nat len) buf p len.

(** The loop over the options, common to the server and the client: [body] gets
    the type, the data and the length, and tells whether the function returns.  The offset
    increases in every turn: the length of the buffer is enough fuel. *)
Fixpoint options_loop {S A} (body : Z → list Z → Z → A → M S (A * bool)) (fuel : nat) (buf : list Z) (p : Z) (opt_data : list Z) (a : A) : M S A :=
  match fuel with
  | O => fault
  | S fuel =>
    '(opt_type, opt_data, opt_len, nextopt) ← dhcp_get_next_option buf p opt_data 20;
    if opt_type =? DHCPOPT_END then mret a else
    '(a, ret) ← body opt_type opt_data opt_len a;
    if (ret : bool) then mret a else options_loop body fuel buf nextopt opt_data a
  end.

(** ** The server *)

Definition get_negotiation_by_xid (xid : Z) (l : list vder_dhcp_negotiation) : option (nat * vder_dhcp_negotiation) :=
  list_find (λ cur, dn_xid cur = xid) l.

Definition dhcpd_make_reply (dn : vder_dhcp_negotiation) (reply_type : Z) : M dhcpd () :=
  s ← get;
  let st := settings s in
  let server_address := vder_get_right_localip (set_iface st) (pool_next st) in
  let netmask := vder_get_netmask (set_iface st) server_address in
  let bcast := vder_get_broadcast server_address netmask in
  buf_out ← store (replicate (Z.to_nat DHCP_DATAGRAM_SIZE) 0)
    [(DH_HWADDR, dn_hwaddr dn); (DH_OP, [DHCP_OP_REPLY]); (DH_HTYPE, [HTYPE_ETHER]); (DH_HLEN, [HLEN_ETHER]);
     (DH_XID, le32 (dn_xid dn)); (DH_YIADDR, le32 (dn_ipaddr dn)); (DH_SIADDR, le32 server_address); (DH_MAGIC, le32 DHCPD_MAGIC_COOKIE);
     (DH_OPTIONS + 0, [DHCPOPT_MSGTYPE; 1; reply_type]);
     (DH_OPTIONS + 3, [DHCPOPT_SERVERID; 4]); (DH_OPTIONS + 5, le32 server_address);
     (DH_OPTIONS + 9, [DHCPOPT_LEASETIME; 4]); (DH_OPTIONS + 11, le32 (lease_time st));
     (DH_OPTIONS + 15, [DHCPOPT_NETMASK; 4]); (DH_OPTIONS + 17, le32 netmask);
     (DH_OPTIONS + 21, [DHCPOPT_ROUTER; 4]); (DH_OPTIONS + 23, le32 server_address);
     (DH_OPTIONS + 27, [DHCPOPT_BCAST; 4]); (DH_OPTIONS + 29, le32 bcast);
     (DH_OPTIONS + 33, [DHCPOPT_DNS; 4]); (DH_OPTIONS + 35, le32 OPENDNS);
     (DH_OPTIONS + 40, [DHCPOPT_END])];
  yiaddr ← load buf_out DH_YIADDR 4;
  modify (λ s, Dhcpd (settings s) (Negotiation_list s) (d_sent s ++ [(of_le yiaddr, buf_out)])).

Definition ip_inrange (x : Z) (st : vder_dhcpd_settings) : bool :=
  (ntohl (pool_start st) <=? ntohl x) && (ntohl x <=? ntohl (pool_end st)).

(** The negotiation of a new transaction: the address of the client's MAC in the
    ARP table, or the next one of the pool, which is entered there. *)
Definition new_negotiation (xid : Z) (hwaddr : list Z) : M dhcpd vder_dhcp_negotiation :=
  s ← get;
  let st := settings s in
  let i := set_iface st in
  match vder_arp_get_record_by_macaddr (arp_table i) hwaddr with
  | Some arp =>
    let dn := Negotiation xid hwaddr DHCPSTATE_DISCOVER (ipaddr arp) in
    modify (λ s, Dhcpd (settings s) (dn :: Negotiation_list s) (d_sent s)) ;; mret dn
  | None =>
    let dn := Negotiation xid hwaddr DHCPSTATE_DISCOVER (pool_next st) in
    t ← deref (vder_add_arp_entry (ArpEntry (pool_next st) hwaddr) (arp_table i));
    modify (λ s, Dhcpd (Settings (Iface (interface_id i) (address_list i) (if_macaddr i) t) (pool_start st)
                          (ntohl (u32 (ntohl (pool_next st) + 1))) (pool_end st) (lease_time st))
                   (dn :: Negotiation_list s) (d_sent s)) ;; mret dn
  end.

Definition set_dn_state (k : nat) (v : dhcp_negotiation_state) (s : dhcpd) : dhcpd :=
  Dhcpd (settings s) (alter (λ dn, Negotiation (dn_xid dn) (dn_hwaddr dn) v (dn_ipaddr dn)) k (Negotiation_list s)) (d_sent s).

(** The state machine of the server. *)
Definition server_option (k : nat) (dn : vder_dhcp_negotiation) (opt_type : Z) (opt_data : list Z) (opt_len : Z) (_ : ()) : M dhcpd (() * bool) :=
  if opt_type =? DHCPOPT_MSGTYPE then
    msg_type ← deref (zget opt_data 0);
    if msg_type =? DHCP_MSG_DISCOVER then
      dhcpd_make_reply dn DHCP_MSG_OFFER ;;
      modify (set_dn_state k DHCPSTATE_OFFER) ;;
      mret ((), true)
    else if msg_type =? DHCP_MSG_REQUEST then
      dhcpd_make_reply dn DHCP_MSG_ACK ;;
      mret ((), true)
    else mret ((), false)
  else mret ((), false).

(** [opt_data] is what the array of 20 bytes holds before. *)
Definition dhcp_recv (opt_data : list Z) (buffer : list Z) (len : Z) : M dhcpd () :=
  xid ← load buffer DH_XID 4;
  s ← get;
  let dn := get_negotiation_by_xid (of_le xid) (Negotiation_list s) in
  valid ← deref (is_options_valid buffer DH_OPTIONS (len - DH_OPTIONS));
  if negb valid then mret () else
  '(k, dn) ← match dn with
             | Some (k, dn) => mret (k, dn)
             | None =>
               hwaddr ← load buffer DH_HWADDR HLEN_ETHER;
               dn ← new_negotiation (of_le xid) hwaddr;
               mret (0%nat, dn)
             end;
  s ← get;
  if negb (ip_inrange (dn_ipaddr dn) (settings s)) then mret () else
  options_loop (server_option k dn) (length buffer) buffer DH_OPTIONS opt_data ().

(** The start of [dhcp_server_loop]: the settings are global, and what an earlier
    server left in the list of negotiations stays there. *)
Definition dhcp_server_start (i : vder_iface) (first last lease : Z) (s : dhcpd) : dhcpd :=
  Dhcpd (Settings i first first last lease) (Negotiation_list s) (d_sent s).
(** A turn of the loop on the result of [vder_udpsocket_recvfrom], which leaves
    [from_ip] as it is; [false] when the function returns. *)
Definition dhcp_server_turn (opt_data : list Z) (from_ip from_port : Z) (buffer : list Z) (len : Z) : M dhcpd bool :=
  if len <? 0 then mret false else
  whenM ((from_ip =? 0) && (from_port =? DHCP_CLIENT_PORT)) (dhcp_recv opt_data buffer len) ;;
  mret true.

(** ** The client *)

Record dhcp_client_cookie := Cookie {
  cli_xid : Z; cli_address : Z; cli_netmask : Z; cli_gateway : Z; cli_server_id : Z; cli_lease_time : Z;
  cli_iface : nat; start_sec : Z; start_usec : Z; attempt : Z; cli_state : dhcp_negotiation_state }.
(** With the router and what was passed to [vder_udpsocket_sendto_broadcast]. *)
Record dhcp_client := Client { cookie : dhcp_client_cookie; cli_router : vde_router; cli_sent : list (list Z) }.

Definition on_cookie (f : dhcp_client_cookie → dhcp_client_cookie) (c : dhcp_client) : dhcp_client :=
  Client (f (cookie c)) (cli_router c) (cli_sent c).
Definition set_xid (v : Z) (c : dhcp_client_cookie) : dhcp_client_cookie :=
  Cookie v (cli_address c) (cli_netmask c) (cli_gateway c) (cli_server_id c) (cli_lease_time c) (cli_iface c) (start_sec c) (start_usec c) (attempt c) (cli_state c).
Definition set_address (v : Z) (c : dhcp_client_cookie) : dhcp_client_cookie :=
  Cookie (cli_xid c) v (cli_netmask c) (cli_gateway c) (cli_server_id c) (cli_lease_time c) (cli_iface c) (start_sec c) (start_usec c) (attempt c) (cli_state c).
Definition set_netmask (v : Z) (c : dhcp_client_cookie) : dhcp_client_cookie :=
  Cookie (cli_xid c) (cli_address c) v (cli_gateway c) (cli_server_id c) (cli_lease_time c) (cli_iface c) (start_sec c) (start_usec c) (attempt c) (cli_state c).
Definition set_gateway (v : Z) (c : dhcp_client_cookie) : dhcp_client_cookie :=
  Cookie (cli_xid c) (cli_address c) (cli_netmask c) v (cli_server_id c) (cli_lease_time c) (cli_iface c) (start_sec c) (start_usec c) (attempt c) (cli_state c).
Definition set_server_id (v : Z) (c : dhcp_client_cookie) : dhcp_client_cookie :=
  Cookie (cli_xid c) (cli_address c) (cli_netmask c) (cli_gateway c) v (cli_lease_time c) (cli_iface c) (start_sec c) (start_usec c) (attempt c) (cli_state c).
Definition set_lease_time (v : Z) (c : dhcp_client_cookie) : dhcp_client_cookie :=
  Cookie (cli_xid c) (cli_address c) (cli_netmask c) (cli_gateway c) (cli_server_id c) v (cli_iface c) (start_sec c) (start_usec c) (attempt c) (cli_state c).
Definition set_attempt (v : Z) (c : dhcp_client_cookie) : dhcp_client_cookie :=
  Cookie (cli_xid c) (cli_address c) (cli_netmask c) (cli_gateway c) (cli_server_id c) (cli_lease_time c) (cli_iface c) (start_sec c) (start_usec c) v (cli_state c).
Definition set_start (v : Z * Z) (c : dhcp_client_cookie) : dhcp_client_cookie :=
  Cookie (cli_xid c) (cli_address c) (cli_netmask c) (cli_gateway c) (cli_server_id c) (cli_lease_time c) (cli_iface c) v.1 v.2 (attempt c) (cli_state c).
Definition set_state (v : dhcp_negotiation_state) (c : dhcp_client_cookie) : dhcp_client_cookie :=
  Cookie (cli_xid c) (cli_address c) (cli_netmask c) (cli_gateway c) (cli_server_id c) (cli_lease_time c) (cli_iface c) (start_sec c) (start_usec c) (attempt c) v.

(** [memcpy] of 4 bytes of the option into a field. *)
Definition take_field (set : Z → dhcp_client_cookie → dhcp_client_cookie) (b : bool) (opt_data : list Z) : M dhcp_client () :=
  whenM b (d ← load opt_data 0 4; modify (on_cookie (set (of_le d)))).
Definition offer_option (opt_type : Z) (opt_data : list Z) (opt_len : Z) (msg_type : Z) : M dhcp_client (Z * bool) :=
  msg_type ← (if opt_type =? DHCPOPT_MSGTYPE then deref (zget opt_data 0) else mret msg_type);
  take_field set_lease_time ((opt_type =? DHCPOPT_LEASETIME) && (opt_len =? 4)) opt_data ;;
  take_field set_gateway ((opt_type =? DHCPOPT_ROUTER) && (opt_len =? 4)) opt_data ;;
  take_field set_netmask ((opt_type =? DHCPOPT_NETMASK) && (opt_len =? 4)) opt_data ;;
  take_field set_server_id ((opt_type =? DHCPOPT_SERVERID) && (opt_len =? 4)) opt_data ;;
  mret (msg_type, false).
Definition dhclient_recv_offer (opt_data data : list Z) (len : Z) : M dhcp_client bool :=
  xid ← load data DH_XID 4;
  c ← gets cookie;
  if negb (of_le xid =? cli_xid c) then mret false else
  valid ← deref (is_options_valid data DH_OPTIONS (len - DH_OPTIONS));
  if negb valid then mret false else
  yiaddr ← load data DH_YIADDR 4;
  modify (on_cookie (set_address (of_le yiaddr))) ;;
  msg_type ← options_loop offer_option (length data) data DH_OPTIONS opt_data 0xFF;
  c ← gets cookie;
  mret (negb (negb (msg_type =? DHCP_MSG_OFFER) || (cli_lease_time c =? 0) || (cli_netmask c =? 0) || (cli_server_id c =? 0))).

Definition ack_option (opt_type : Z) (opt_data : list Z) (opt_len : Z) (msg_type : Z) : M dhcp_client (Z * bool) :=
  msg_type ← (if opt_type =? DHCPOPT_MSGTYPE then deref (zget opt_data 0) else mret msg_type);
  mret (msg_type, false).
Definition dhclient_recv_ack (opt_data data : list Z) (len : Z) : M dhcp_client bool :=
  xid ← load data DH_XID 4;
  c ← gets cookie;
  if negb (of_le xid =? cli_xid c) then mret false else
  valid ← deref (is_options_valid data DH_OPTIONS (len - DH_OPTIONS));
  if negb valid then mret false else
  msg_type ← options_loop ack_option (length data) data DH_OPTIONS opt_data 0xFF;
  mret (msg_type =? DHCP_MSG_ACK).

(** The bytes of an address, one by one. *)
Definition addr_bytes (a : Z) : list Z :=
  [Z.shiftr (Z.land (ntohl a) 0xFF000000) 24; Z.shiftr (Z.land (ntohl a) 0xFF0000) 16;
   Z.shiftr (Z.land (ntohl a) 0xFF00) 8; Z.land (ntohl a) 0xFF].
(** [tv_sec] is the time in seconds. *)
Definition dhclient_send (tv_sec : Z) (msg_type : Z) : M dhcp_client () :=
  s ← get;
  let c := cookie s in
  i ← deref (iflist (cli_router s) !! cli_iface c);
  buf_out ← store (replicate (Z.to_nat DHCP_DATAGRAM_SIZE) 0)
    [(DH_HWADDR, take 6 (if_macaddr i)); (DH_OP, [DHCP_OP_REQUEST]); (DH_HTYPE, [HTYPE_ETHER]); (DH_HLEN, [HLEN_ETHER]);
     (DH_XID, le32 (cli_xid c));
     (DH_SECS, le16 (if msg_type =? DHCP_MSG_REQUEST then 0 else ntohs (u16 (tv_sec - start_sec c))));
     (DH_MAGIC, le32 DHCPD_MAGIC_COOKIE);
     (DH_OPTIONS,
       [DHCPOPT_MSGTYPE; 1; msg_type] ++
       (if msg_type =? DHCP_MSG_REQUEST then
          [DHCPOPT_REQIP; 4] ++ addr_bytes (cli_address c) ++ [DHCPOPT_SERVERID; 4] ++ addr_bytes (cli_server_id c)
        else []) ++
       [DHCPOPT_PARMLIST; 5; DHCPOPT_NETMASK; DHCPOPT_BCAST; DHCPOPT_TIME; DHCPOPT_ROUTER; DHCPOPT_HOSTNAME; DHCPOPT_END])];
  modify (λ s, Client (cookie s) (cli_router s) (cli_sent s ++ [buf_out])).

Definition MAX_RETRY : Z := 5.
Definition dhcp_retry (now : Z * Z) : M dhcp_client () :=
  modify (on_cookie (λ c,
    let c := set_attempt (attempt c + 1) c in
    if MAX_RETRY <? attempt c then
      let c := set_attempt 0 (set_start now c) in
      set_xid (u32 (Z.lxor (cli_xid c) (Z.lxor (start_usec c) (start_sec c)))) c
    else c)).

(** The start of [dhcp_client_loop]. *)
Definition dhcp_client_start (i : nat) (now : Z * Z) : dhcp_client_cookie :=
  Cookie (u32 (Z.lxor now.2 now.1)) 0 0 0 0 0 i now.1 now.2 0 DHCPSTATE_DISCOVER.

(** The result of [vder_udpsocket_recvfrom]: an error, nothing in time, or the
    buffer with the datagram. *)
Inductive received := RecvError | RecvTimeout | Received (buffer : list Z) (len : Z).

(** A turn of the loop up to the call of [vder_udpsocket_recvfrom], and what
    follows it; [false] when the function returns. *)
Definition client_ask (now : Z * Z) : M dhcp_client () :=
  c ← gets cookie;
  match cli_state c with
  | DHCPSTATE_DISCOVER => dhcp_retry now ;; dhclient_send now.1 DHCP_MSG_DISCOVER
  | DHCPSTATE_REQUEST => dhclient_send now.1 DHCP_MSG_REQUEST
  | _ => mret ()
  end.
Definition forget_address (c : dhcp_client_cookie) : dhcp_client_cookie := set_gateway 0 (set_netmask 0 (set_address 0 c)).
Definition change_router (f : vde_router → option (vresult * vde_router)) : M dhcp_client () :=
  s ← get;
  '(_, r) ← deref (f (cli_router s));
  modify (λ s, Client (cookie s) r (cli_sent s)).
Definition client_answer (opt_data : list Z) (r : received) : M dhcp_client bool :=
  c ← gets cookie;
  match cli_state c with
  | DHCPSTATE_DISCOVER =>
    match r with
    | RecvError => mret false
    | RecvTimeout => mret true
    | Received buffer len =>
      ok ← dhclient_recv_offer opt_data buffer len;
      whenM ok (modify (on_cookie (set_state DHCPSTATE_REQUEST))) ;; mret true
    end
  | DHCPSTATE_REQUEST =>
    match r with
    | RecvError => mret false
    | RecvTimeout => mret true
    | Received buffer len =>
      ok ← dhclient_recv_ack opt_data buffer len;
      (if (ok : bool) then modify (on_cookie (set_state DHCPSTATE_ACK))
       else
         whenM (negb (cli_address c =? 0)) (change_router (vder_iface_address_del (cli_iface c) (cli_address c))) ;;
         modify (on_cookie (λ c, forget_address (set_state DHCPSTATE_DISCOVER c)))) ;;
      mret true
    end
  | DHCPSTATE_ACK =>
    change_router (vder_iface_address_del (cli_iface c) 0xFFFFFFFF) ;;
    change_router (vder_iface_address_add (cli_iface c) (cli_address c) (cli_netmask c)) ;;
    whenM (negb (cli_gateway c =? 0) && (Z.land (cli_gateway c) (cli_netmask c) =? Z.land (cli_address c) (cli_netmask c)))
      (change_router (λ r, let '(v, t) := vder_route_add 0 0 (cli_gateway c) 1 (Some (cli_iface c)) (routing_table r) in Some (v, set_routes r t))) ;;
    modify (on_cookie (set_state DHCPSTATE_REQUEST)) ;;
    mret true
  | DHCPSTATE_OFFER =>
    modify (on_cookie (λ c, set_state DHCPSTATE_DISCOVER (forget_address c))) ;; mret true
  end.
Definition dhcp_client_turn (now : Z * Z) (opt_data : list Z) (r : received) : M dhcp_client bool :=
  client_ask now ;; client_answer opt_data r.

(** The first bind of the goal. *)
Ltac bind1 := unfold mbind at 1, M_bind at 1.

(** ** Options, abstractly *)

Inductive dhcp_opt := OptPad | Opt (type : Z) (value : list Z).
Definition encode_opt (o : dhcp_opt) : list Z :=
  match o with OptPad => [DHCPOPT_PAD] | Opt t v => t :: Z.of_nat (length v) :: v end.
Definition encode_opts (os : list dhcp_opt) : list Z := os ≫= encode_opt.
Definition opt_ok (o : dhcp_opt) : Prop :=
  match o with OptPad => True | Opt t v => t ≠ DHCPOPT_PAD ∧ t ≠ DHCPOPT_END ∧ (length v < 256)%nat end.
(** What [is_options_valid] takes off the length for an option: the byte with the
    length is not counted. *)
Definition opt_cost (o : dhcp_opt) : Z := match o with OptPad => 1 | Opt _ v => 1 + Z.of_nat (length v) end.
Definition opts_cost (os : list dhcp_opt) : Z := foldr (λ o n, opt_cost o + n) 0 os.

(** [body] applied to the options in order. *)
Fixpoint each_option {S A} (body : Z → list Z → Z → A → M S (A * bool)) (os : list dhcp_opt) (opt_data : list Z) (a : A) : M S A :=
  match os with
  | [] => mret a
  | o :: os =>
    let '(type, opt_data, len) :=
      match o with
      | OptPad => (DHCPOPT_PAD, replicate 20 0, 20)
      | Opt t v => (t, take 20 v ++ drop (length v) opt_data, Z.of_nat (min (length v) 20))
      end in
    '(a, ret) ← body type opt_data len a;
    if (ret : bool) then mret a else each_option body os opt_data a
  end.

(** A buffer from [p] on. *)
Definition at_off (buf : list Z) (p : Z) (l : list Z) : Prop := 0 ≤ p ∧ drop (Z.to_nat p) buf = l.

Lemma at_off_cons buf p x l : at_off buf p (x :: l) → zget buf p = Some x ∧ at_off buf (p + 1) l.
Proof.
  intros [Hp E]. split.
  - unfold zget. destruct (Z.ltb_spec p 0); [lia|]. rewrite <- (Nat.add_0_r (Z.to_nat p)), <- lookup_drop, E. done.
  - split; [lia|]. replace (Z.to_nat (p + 1)) with (Z.to_nat p + 1)%nat by lia. by rewrite <- drop_drop, E.
Qed.
Lemma at_off_app buf p d l : at_off buf p (d ++ l) → at_off buf (p + Z.of_nat (length d)) l.
Proof.
  intros [Hp E]. split; [lia|]. replace (Z.to_nat (p + Z.of_nat (length d))) with (Z.to_nat p + length d)%nat by lia.
  by rewrite <- drop_drop, E, drop_app_length.
Qed.
Lemma at_off_length buf p x l : at_off buf p (x :: l) → Z.of_nat (length buf) = p + Z.of_nat (length (x :: l)).
Proof. intros [Hp E]. pose proof (f_equal length E) as El. rewrite length_drop in El. cbn [length] in *. lia. Qed.
Lemma at_off_lookup buf p x : zget buf p = Some x → ∃ l, at_off buf p (x :: l).
Proof.
  intros Hx. pose proof (zget_lt _ _ _ Hx). unfold zget in Hx. destruct (Z.ltb_spec p 0); [lia|].
  exists (drop (S (Z.to_nat p)) buf). split; [lia|]. by apply drop_S.
Qed.
Lemma load_at {S} buf p d x l n (s : S) : at_off buf p (d ++ x :: l) → 0 ≤ n ≤ Z.of_nat (length d) →
  load buf p n s = Done (take (Z.to_nat n) d) s.
Proof.
  intros [Hp E] Hn. unfold load. pose proof (f_equal length E) as El. rewrite length_drop, length_app in El. cbn [length] in El.
  destruct (Z.leb_spec 0 p); [|lia]. destruct (Z.leb_spec 0 n); [|lia]. destruct (Z.leb_spec (p + n) (Z.of_nat (length buf))); [|lia].
  cbn [andb]. unfold slice, mret, M_ret. rewrite E, take_app_le by lia. done.
Qed.

Lemma encode_cons o os : encode_opts (o :: os) = encode_opt o ++ encode_opts os.
Proof. done. Qed.

(** An option read by the code. *)
Lemma next_option_at {S} o os rest buf p data (s : S) : opt_ok o → length data = 20%nat →
  at_off buf p (encode_opts (o :: os) ++ DHCPOPT_END :: rest) →
  ∃ type data' len next, dhcp_get_next_option buf p data 20 s = Done (type, data', len, next) s ∧
    type ≠ DHCPOPT_END ∧ length data' = 20%nat ∧ at_off buf next (encode_opts os ++ DHCPOPT_END :: rest) ∧
    (type, data', len) = match o with
      | OptPad => (DHCPOPT_PAD, replicate 20 0, 20)
      | Opt t v => (t, take 20 v ++ drop (length v) data, Z.of_nat (min (length v) 20))
      end.
Proof.
  intros Ho Hd Hat. rewrite encode_cons, <- app_assoc in Hat. unfold dhcp_get_next_option. destruct o as [|t v]; cbn [encode_opt app] in Hat.
  - apply at_off_cons in Hat as [Hp Hat]. exists DHCPOPT_PAD, (replicate 20 0), 20, (p + 1).
    split_and!; [|done | done | done | done]. rewrite Hp. unfold mbind, M_bind, deref, mret, M_ret, memcpy_at. rewrite Hd, length_replicate.
    rewrite (drop_ge data (Z.to_nat 0 + Z.to_nat 20)) by lia. done.
  - apply at_off_cons in Hat as [Hp Hat]. apply at_off_cons in Hat as [Hl Hat]. destruct Ho as (H0 & H1 & Hv).
    assert (∃ x l, encode_opts os ++ DHCPOPT_END :: rest = x :: l) as (x & l & Ex) by (destruct (encode_opts os); cbn; eauto).
    exists t, (take 20 v ++ drop (length v) data), (Z.of_nat (min (length v) 20)), (p + 1 + 1 + Z.of_nat (length v)).
    split_and!; [|done | rewrite length_app, length_take, length_drop; lia | by apply at_off_app | done].
    rewrite Hp. unfold mbind, M_bind, deref, mret, M_ret. rewrite (proj2 (Z.eqb_neq _ _) H1), (proj2 (Z.eqb_neq _ _) H0). cbn [orb].
    rewrite Hl. rewrite Ex in Hat.
    replace (if Z.of_nat (length v) <? 20 then Z.of_nat (length v) else 20) with (Z.of_nat (min (length v) 20))
      by (destruct (Z.ltb_spec (Z.of_nat (length v)) 20); lia).
    rewrite (load_at _ _ _ _ _ _ _ Hat) by lia. rewrite Nat2Z.id.
    assert (take (min (length v) 20) v = take 20 v) as -> by (destruct (Nat.min_spec (length v) 20) as [[? ->] | [? ->]]; [rewrite !take_ge by lia|]; done).
    unfold memcpy_at. rewrite Hd, length_take. destruct (Z.leb_spec (0 + Z.of_nat (20 `min` length v)) (Z.of_nat 20)); [|lia].
    cbn [Z.leb andb Z.to_nat]. rewrite take_0. cbn [app]. do 5 f_equal.
    destruct (Nat.min_spec 20 (length v)) as [[? ->] | [? ->]]; [rewrite !drop_ge by lia|]; done.
Qed.

Lemma options_loop_each {S A} (body : Z → list Z → Z → A → M S (A * bool)) os rest buf fuel : Forall opt_ok os → (length os < fuel)%nat →
  ∀ p data a s, length data = 20%nat → at_off buf p (encode_opts os ++ DHCPOPT_END :: rest) →
  options_loop body fuel buf p data a s = each_option body os data a s.
Proof.
  revert fuel. induction os as [|o os IH]; intros fuel Hos Hf p data a s Hd Hat; (destruct fuel as [|fuel]; cbn [length] in Hf; [lia|]); cbn [options_loop each_option].
  - cbn in Hat. apply at_off_cons in Hat as [Hp _]. unfold dhcp_get_next_option. rewrite Hp.
    unfold mbind, M_bind, deref, mret, M_ret, memcpy_at. rewrite Hd. done.
  - apply Forall_cons in Hos as [Ho Hos]. destruct (next_option_at o os rest buf p data s Ho Hd Hat) as (t & data' & len & next & E & Ht & Hd' & Hn & Eo).
    bind1. rewrite E. rewrite (proj2 (Z.eqb_neq _ _) Ht). rewrite <- Eo.
    unfold mbind, M_bind. destruct (body t data' len a s) as [[a' []] s'| |]; [done| |done..]. apply IH; [done | lia | done | done].
Qed.

Lemma opts_cost_nonneg os : 0 ≤ opts_cost os.
Proof. induction os as [|o os IH]; [done|]. change (0 ≤ opt_cost o + opts_cost os). destruct o; cbn [opt_cost]; lia. Qed.

Lemma valid_encode os rest buf : Forall opt_ok os → ∀ fuel p len, (Z.to_nat len ≤ fuel)%nat →
  at_off buf p (encode_opts os ++ DHCPOPT_END :: rest) → options_valid_loop fuel buf p len = Some (opts_cost os <? len).
Proof.
  induction os as [|o os IH]; intros Hos fuel p len Hf Hat.
  - cbn in Hat. apply at_off_cons in Hat as [Hp _]. cbn [opts_cost foldr]. destruct fuel as [|fuel]; cbn [options_valid_loop].
    + destruct (Z.ltb_spec 0 len); [lia | done].
    + destruct (Z.leb_spec len 0), (Z.ltb_spec 0 len); [lia | done | | lia]. by rewrite Hp.
  - apply Forall_cons in Hos as [Ho Hos]. pose proof (opts_cost_nonneg os) as Hc. cbn [opts_cost foldr]. fold (opts_cost os).
    assert (0 < opt_cost o) as Hco by (destruct o; cbn; lia).
    destruct fuel as [|fuel]; cbn [options_valid_loop]; [destruct (Z.ltb_spec (opt_cost o + opts_cost os) len); [lia | done]|].
    destruct (Z.leb_spec len 0); [destruct (Z.ltb_spec (opt_cost o + opts_cost os) len); [lia | done]|].
    assert (∀ c, (opt_cost o + opts_cost os <? len) = (opts_cost os <? len - c) ∨ c ≠ opt_cost o) as Hlt.
    { intros c. destruct (decide (c = opt_cost o)) as [->|]; [left | by right].
      destruct (Z.ltb_spec (opt_cost o + opts_cost os) len), (Z.ltb_spec (opts_cost os) (len - opt_cost o)); lia || done. }
    rewrite encode_cons, <- app_assoc in Hat. destruct o as [|t v]; cbn [encode_opt app opt_cost] in *; apply at_off_cons in Hat as [Hp Hat]; rewrite Hp; cbn [mbind option_bind].
    + cbn [Z.eqb]. rewrite (IH Hos fuel) by (done || lia). by destruct (Hlt 1) as [-> | ?].
    + destruct Ho as (H0 & H1 & _). rewrite (proj2 (Z.eqb_neq _ _) H1), (proj2 (Z.eqb_neq _ _) H0).
      apply at_off_cons in Hat as [Hl Hat]. rewrite Hl. cbn [mbind option_bind]. apply at_off_app in Hat.
      replace (p + 1 + (Z.of_nat (length v) + 1)) with (p + 1 + 1 + Z.of_nat (length v)) by lia. rewrite (IH Hos fuel) by (done || lia).
      replace (len - 1 - Z.of_nat (length v)) with (len - (1 + Z.of_nat (length v))) by lia. by destruct (Hlt (1 + Z.of_nat (length v))) as [-> | ?].
Qed.

Lemma byte_at buf p x : Forall byteP buf → zget buf p = Some x → byteP x.
Proof. intros Hb [Hp Hx]%zget_Some. by eapply Forall_lookup_1. Qed.

Lemma valid_decode buf : Forall byteP buf → ∀ fuel p len, options_valid_loop fuel buf p len = Some true →
  ∃ os rest, Forall opt_ok os ∧ at_off buf p (encode_opts os ++ DHCPOPT_END :: rest).
Proof.
  intros Hb. induction fuel as [|fuel IH]; intros p len; cbn [options_valid_loop]; [done|]. destruct (Z.leb_spec len 0); [done|].
  intros (c & Hc & E)%bind_Some. destruct (at_off_lookup _ _ _ Hc) as [l Hl].
  destruct (Z.eqb_spec c DHCPOPT_END) as [->|H1]; [exists [], l; split; [constructor | done]|].
  destruct (at_off_cons _ _ _ _ Hl) as [_ Hl1].
  destruct (Z.eqb_spec c DHCPOPT_PAD) as [->|H0].
  - destruct (IH _ _ E) as (os & rest & Hos & Hat). exists (OptPad :: os), rest. split; [by constructor|].
    rewrite encode_cons, <- app_assoc. cbn [encode_opt app]. destruct Hl1 as [_ E1], Hat as [_ E2]. rewrite <- E2, E1. done.
  - apply bind_Some in E as (n & Hn & E). pose proof (byte_at _ _ _ Hb Hn) as Hnb. unfold byteP in Hnb.
    destruct (at_off_lookup _ _ _ Hn) as [l2 Hl2]. destruct (IH _ _ E) as (os & rest & Hos & Hat).
    assert (∃ y k, encode_opts os ++ DHCPOPT_END :: rest = y :: k) as (y & k & Ey) by (destruct (encode_opts os); cbn; eauto).
    pose proof Hat as Hat'. rewrite Ey in Hat'. pose proof (at_off_length _ _ _ _ Hat') as HL. pose proof (at_off_length _ _ _ _ Hl2) as HL2. cbn [length] in *.
    assert (length (take (Z.to_nat n) l2) = Z.to_nat n) as Ht by (rewrite length_take; lia).
    exists (Opt c (take (Z.to_nat n) l2) :: os), rest. split; [constructor; [split_and!; [done | done | lia] | done]|].
    rewrite encode_cons, <- app_assoc. cbn [encode_opt app]. rewrite Ht, Z2Nat.id by lia.
    destruct (at_off_cons _ _ _ _ Hl2) as [_ Hl3].
    assert (at_off buf (p + 1 + 1) (take (Z.to_nat n) l2 ++ drop (Z.to_nat n) l2)) as Hl4 by (by rewrite take_drop).
    apply at_off_app in Hl4. rewrite Ht, Z2Nat.id in Hl4 by lia. destruct Hl4 as [_ E4], Hat as [_ E5].
    replace (p + 1 + 1 + n) with (p + 1 + (n + 1)) in E4 by lia. rewrite <- E5, E4, take_drop.
    destruct Hl1 as [_ E1], Hl2 as [_ E2]. rewrite <- E2, E1. done.
Qed.

(** The byte with the length of an option is not counted, so the loop may run past
    the end of the datagram, but to no more than twice its length. *)
Lemma valid_in_bounds buf : Forall byteP buf → ∀ fuel p len, 0 ≤ p → p + 2 * len ≤ Z.of_nat (length buf) → options_valid_loop fuel buf p len ≠ None.
Proof.
  intros Hb. induction fuel as [|fuel IH]; intros p len Hp Hlen; cbn [options_valid_loop]; [done|]. destruct (Z.leb_spec len 0); [done|].
  destruct (zget_is_Some buf p) as [c Hc]; [lia|]. rewrite Hc. cbn [mbind option_bind].
  destruct (c =? DHCPOPT_END); [done|]. destruct (c =? DHCPOPT_PAD); [apply IH; lia|].
  destruct (zget_is_Some buf (p + 1)) as [n Hn]; [lia|]. rewrite Hn. cbn [mbind option_bind].
  pose proof (byte_at _ _ _ Hb Hn) as Hnb. unfold byteP in Hnb. apply IH; lia.
Qed.

Lemma encode_length os : (length os ≤ length (encode_opts os))%nat.
Proof. induction os as [|o os IH]; [done|]. rewrite encode_cons, length_app. destruct o; cbn [encode_opt length]; lia. Qed.

Lemma options_loop_end {S A} (body : Z → list Z → Z → A → M S (A * bool)) os rest buf p opt_data a s : Forall opt_ok os → length opt_data = 20%nat →
  at_off buf p (encode_opts os ++ DHCPOPT_END :: rest) → options_loop body (length buf) buf p opt_data a s = each_option body os opt_data a s.
Proof.
  intros Hos Hd Hat. apply (options_loop_each body os rest); [done | | done | done].
  pose proof (encode_length os). destruct Hat as [Hp E]. apply (f_equal length) in E. rewrite length_drop, length_app in E. cbn [length] in E. lia.
Qed.

(** C14: options that [is_options_valid] accepts.  They are a sequence of options
    up to an end mark inside the buffer, of a length the datagram covers but for the
    length bytes, and every loop over them ends there: it treats each of them once and in
    order, with its data, and reads nothing outside of the buffer. *)
Theorem accepted_options_read buf p len : Forall byteP buf → is_options_valid buf p len = Some true →
  ∃ os rest, Forall opt_ok os ∧ at_off buf p (encode_opts os ++ DHCPOPT_END :: rest) ∧ opts_cost os < len ∧
    ∀ S A (body : Z → list Z → Z → A → M S (A * bool)) opt_data a s, length opt_data = 20%nat →
      options_loop body (length buf) buf p opt_data a s = each_option body os opt_data a s.
Proof.
  intros Hb Hv. destruct (valid_decode buf Hb _ _ _ Hv) as (os & rest & Hos & Hat). exists os, rest. split_and!; [done | done | |].
  - unfold is_options_valid in Hv. rewrite (valid_encode os rest buf Hos _ _ _ (Nat.le_refl _) Hat) in Hv. injection Hv. apply Z.ltb_lt.
  - intros S A body opt_data a s Hd. by apply (options_loop_end body os rest).
Qed.

(** ** Replies *)

Definition bootp_header (op : Z) (xid secs yiaddr siaddr hwaddr : list Z) : list Z :=
  [op; HTYPE_ETHER; HLEN_ETHER; 0] ++ xid ++ secs ++ replicate 6 0 ++ yiaddr ++ siaddr ++ replicate 4 0 ++
  hwaddr ++ replicate 202 0 ++ le32 DHCPD_MAGIC_COOKIE.
Definition reply_options (type server_address lease netmask bcast : Z) : list dhcp_opt :=
  [Opt DHCPOPT_MSGTYPE [type]; Opt DHCPOPT_SERVERID (le32 server_address); Opt DHCPOPT_LEASETIME (le32 lease);
   Opt DHCPOPT_NETMASK (le32 netmask); Opt DHCPOPT_ROUTER (le32 server_address); Opt DHCPOPT_BCAST (le32 bcast);
   Opt DHCPOPT_DNS (le32 OPENDNS); OptPad].
(** The reply the settings give. *)
Definition reply_datagram (st : vder_dhcpd_settings) (dn : vder_dhcp_negotiation) (type : Z) : list Z :=
  let server_address := vder_get_right_localip (set_iface st) (pool_next st) in
  let netmask := vder_get_netmask (set_iface st) server_address in
  bootp_header DHCP_OP_REPLY (le32 (dn_xid dn)) [0; 0] (le32 (dn_ipaddr dn)) (le32 server_address) (dn_hwaddr dn) ++
  encode_opts (reply_options type server_address (lease_time st) netmask (vder_get_broadcast server_address netmask)) ++
  DHCPOPT_END :: replicate 19 0.

Lemma le32_four x : ∃ a b c d, le32 x = [a; b; c; d].
Proof. unfold le32. eauto. Qed.

Lemma make_reply_done dn type s : length (dn_hwaddr dn) = 6%nat → u32P (dn_ipaddr dn) →
  dhcpd_make_reply dn type s = Done () (Dhcpd (settings s) (Negotiation_list s) (d_sent s ++ [(dn_ipaddr dn, reply_datagram (settings s) dn type)])).
Proof.
  intros Hh Hip. unfold dhcpd_make_reply, reply_datagram. unfold mbind at 1, M_bind at 1, get. cbv zeta.
  set (sa := vder_get_right_localip _ _). set (nm := vder_get_netmask _ _). set (bc := vder_get_broadcast _ _). unfold bootp_header, reply_options.
  pose proof (of_le_le32 _ Hip) as Eip.
  destruct (six _ Hh) as (h1 & h2 & h3 & h4 & h5 & h6 & ->).
  destruct (le32_four (dn_xid dn)) as (x1 & x2 & x3 & x4 & ->). destruct (le32_four (dn_ipaddr dn)) as (i1 & i2 & i3 & i4 & Ei).
  rewrite Ei in *. rewrite <- Eip.
  destruct (le32_four sa) as (s1 & s2 & s3 & s4 & ->). destruct (le32_four nm) as (n1 & n2 & n3 & n4 & ->).
  destruct (le32_four bc) as (b1 & b2 & b3 & b4 & ->). destruct (le32_four (lease_time (settings s))) as (l1 & l2 & l3 & l4 & ->).
  destruct s as [st l sent]. cbn [settings Negotiation_list d_sent]. vm_compute. reflexivity.
Qed.

(** ** The addresses the server gives *)

(** The part of a negotiation that does not change. *)
Definition lease (dn : vder_dhcp_negotiation) : Z * list Z * Z := (dn_xid dn, dn_hwaddr dn, dn_ipaddr dn).

Lemma opt_data_length (v data : list Z) : length data = 20%nat → length (take 20 v ++ drop (length v) data) = 20%nat.
Proof. intros H. rewrite length_app, length_take, length_drop. lia. Qed.

(** At most one reply, and nothing else that lasts. *)
Definition replied (dn : vder_dhcp_negotiation) (s s' : dhcpd) : Prop :=
  settings s' = settings s ∧ lease <$> Negotiation_list s' = lease <$> Negotiation_list s ∧
  (d_sent s' = d_sent s ∨ ∃ type, d_sent s' = d_sent s ++ [(dn_ipaddr dn, reply_datagram (settings s) dn type)]).

Lemma replied_refl dn s : replied dn s s.
Proof. unfold replied. auto. Qed.

Lemma set_dn_state_lease k v s : lease <$> Negotiation_list (set_dn_state k v s) = lease <$> Negotiation_list s.
Proof.
  cbn [set_dn_state Negotiation_list]. apply list_eq. intros i. rewrite !list_lookup_fmap.
  destruct (decide (i = k)) as [->|Hne]; [rewrite list_lookup_alter_eq; by destruct (Negotiation_list s !! k) | by rewrite list_lookup_alter_ne].
Qed.

Lemma server_option_done k dn type data len s : length (dn_hwaddr dn) = 6%nat → u32P (dn_ipaddr dn) → length data = 20%nat →
  ∃ s' ret, server_option k dn type data len () s = Done ((), ret) s' ∧ replied dn s s' ∧ (ret = false → s' = s).
Proof.
  intros Hh Hip Hd. unfold server_option. destruct (type =? DHCPOPT_MSGTYPE); [|exists s, false; split_and!; [done | apply replied_refl | done]].
  destruct (zget_is_Some data 0) as [msg Hmsg]; [lia|]. rewrite Hmsg. cbn [deref]. unfold mbind, M_bind, mret, M_ret.
  destruct (msg =? DHCP_MSG_DISCOVER); [|destruct (msg =? DHCP_MSG_REQUEST); [|exists s, false; split_and!; [done | apply replied_refl | done]]]; cbv beta; rewrite make_reply_done by done.
  - eexists _, true. split; [done|]. split; [|done]. split_and!; [done | by rewrite set_dn_state_lease | right; eexists; done].
  - eexists _, true. split; [done|]. split; [|done]. split_and!; [done | done | right; eexists; done].
Qed.

Lemma server_options_done k dn os : length (dn_hwaddr dn) = 6%nat → u32P (dn_ipaddr dn) →
  ∀ data s, length data = 20%nat → ∃ s', each_option (server_option k dn) os data () s = Done () s' ∧ replied dn s s'.
Proof.
  intros Hh Hip. induction os as [|o os IH]; intros data s Hd; cbn [each_option]; [exists s; split; [done | apply replied_refl]|].
  assert (∀ t d n, length d = 20%nat → ∃ s', (server_option k dn t d n () ≫= λ '(a, ret), if (ret : bool) then mret a else each_option (server_option k dn) os d a) s = Done () s' ∧ replied dn s s') as Hstep.
  { intros t d n Hdl. destruct (server_option_done k dn t d n s Hh Hip Hdl) as (s' & ret & E & Hr & Hs).
    unfold mbind, M_bind. rewrite E. destruct ret; [by exists s' | rewrite (Hs eq_refl); by apply IH]. }
  destruct o as [|t v]; apply Hstep; [done | by apply opt_data_length].
Qed.

Lemma spine_elem t e : e ∈ left_spine t ∨ e ∈ right_spine t → e ∈ inorder t.
Proof. induction t as [|c l IHl x r IHr]; cbn [left_spine right_spine inorder]; [set_solver|]. rewrite !elem_of_cons, elem_of_app, elem_of_cons. naive_solver. Qed.
Lemma record_by_mac t mac e : search_tree t → vder_arp_get_record_by_macaddr t mac = Some e →
  arp_map t !! ipaddr e = Some (macaddr e) ∧ u32P (ipaddr e) ∧ memcmp (macaddr e) mac = 0.
Proof.
  intros Ht H. assert (e ∈ inorder t ∧ memcmp (macaddr e) mac = 0) as [He Hm].
  { unfold vder_arp_get_record_by_macaddr in H. destruct (List.find _ (left_spine t)) eqn:E.
    - injection H as ->. apply find_some in E as [E1 E2]. apply Z.eqb_eq in E2. split; [|done]. apply spine_elem. left. by apply list_elem_of_In.
    - apply find_some in H as [E1 E2]. apply Z.eqb_eq in E2. split; [|done]. apply spine_elem. right. by apply list_elem_of_In. }
  split_and!; [apply arp_map_lookup; eauto | | done]. destruct Ht as [_ Hok]. rewrite Forall_forall in Hok. by apply Hok.
Qed.

Definition leases (s : dhcpd) : gmap Z (list Z) := arp_map (arp_table (set_iface (settings s))).
Definition in_pool (first last a : Z) : Prop := ntohl first ≤ ntohl a ≤ ntohl last.

Record lease_inv (first last : Z) (s : dhcpd) : Prop := {
  li_range : pool_start (settings s) = first ∧ pool_end (settings s) = last;
  li_arp : arp_inv (arp_table (set_iface (settings s)));
  li_next : u32P (pool_next (settings s));
  li_macs : ∀ a m, leases s !! a = Some m → length m = 6%nat;
  li_free : ∀ a m, leases s !! a = Some m → in_pool first last a → ntohl a < ntohl (pool_next (settings s));
  li_dn : ∀ x h a, (x, h, a) ∈ lease <$> Negotiation_list s → length h = 6%nat ∧ u32P a ∧ (in_pool first last a → leases s !! a = Some h);
  li_sent : ∀ d b, (d, b) ∈ d_sent s → in_pool first last d ∧ leases s !! d = Some (slice b DH_HWADDR HLEN_ETHER) ∧ slice b DH_YIADDR 4 = le32 d
}.

Lemma ip_inrange_spec a st : ip_inrange a st = true ↔ in_pool (pool_start st) (pool_end st) a.
Proof. unfold ip_inrange, in_pool. rewrite andb_true_iff, !Z.leb_le. done. Qed.

Lemma reply_fields st dn type : length (dn_hwaddr dn) = 6%nat →
  slice (reply_datagram st dn type) DH_HWADDR HLEN_ETHER = dn_hwaddr dn ∧ slice (reply_datagram st dn type) DH_YIADDR 4 = le32 (dn_ipaddr dn) ∧
  slice (reply_datagram st dn type) DH_XID 4 = le32 (dn_xid dn).
Proof.
  intros Hh. unfold reply_datagram, bootp_header. cbv zeta. destruct (six _ Hh) as (h1 & h2 & h3 & h4 & h5 & h6 & ->).
  destruct (le32_four (dn_xid dn)) as (x1 & x2 & x3 & x4 & ->). destruct (le32_four (dn_ipaddr dn)) as (i1 & i2 & i3 & i4 & ->).
  destruct (le32_four (vder_get_right_localip (set_iface st) (pool_next st))) as (s1 & s2 & s3 & s4 & ->). done.
Qed.

Lemma next_address n : u32P n → ntohl n + 1 < 2 ^ 32 → u32P (ntohl (u32 (ntohl n + 1))) ∧ ntohl (ntohl (u32 (ntohl n + 1))) = ntohl n + 1.
Proof.
  intros Hn Hlt. pose proof (ntohl_range n). assert (u32 (ntohl n + 1) = ntohl n + 1) as -> by (unfold u32; by rewrite Z.mod_small by lia).
  split; [apply ntohl_range | by rewrite ntohl_involutive by lia].
Qed.

Lemma inv_dn first last s dn : lease_inv first last s → dn ∈ Negotiation_list s →
  length (dn_hwaddr dn) = 6%nat ∧ u32P (dn_ipaddr dn) ∧ (in_pool first last (dn_ipaddr dn) → leases s !! dn_ipaddr dn = Some (dn_hwaddr dn)).
Proof. intros H Hdn. apply (li_dn _ _ _ H (dn_xid dn)), list_elem_of_fmap. by exists dn. Qed.

Lemma replied_inv first last s s' dn : lease_inv first last s → dn ∈ Negotiation_list s → in_pool first last (dn_ipaddr dn) →
  replied dn s s' → lease_inv first last s'.
Proof.
  intros H Hdn Hp (Es & El & Esent). destruct (inv_dn _ _ _ _ H Hdn) as (Hh & Hip & Hm). specialize (Hm Hp).
  destruct H as [H1 H2 H3 H4 H5 H6 H7]. split; unfold leases in *; rewrite ?Es, ?El; [done..|].
  intros d b Hin. destruct Esent as [E | [type E]]; rewrite E in Hin; [by apply H7|].
  apply elem_of_app in Hin as [Hin | [= -> ->]%list_elem_of_singleton]; [by apply H7|].
  destruct (reply_fields (settings s) dn type Hh) as (-> & -> & _). done.
Qed.

Lemma new_negotiation_inv first last s xid hw : lease_inv first last s → length hw = 6%nat → ntohl (pool_next (settings s)) + 1 < 2 ^ 32 →
  ∃ dn s', new_negotiation xid hw s = Done dn s' ∧ lease_inv first last s' ∧ ntohl (pool_next (settings s')) ≤ ntohl (pool_next (settings s)) + 1 ∧
    Negotiation_list s' = dn :: Negotiation_list s ∧ dn_xid dn = xid ∧ dn_hwaddr dn = hw.
Proof.
  intros H Hhw Hlt. unfold new_negotiation. unfold mbind at 1, M_bind at 1, get.
  destruct (vder_arp_get_record_by_macaddr _ hw) as [e|] eqn:Ea.
  - destruct (record_by_mac _ _ _ (proj1 (li_arp _ _ _ H)) Ea) as (Hm & Hip & Hcmp).
    assert (macaddr e = hw) as Emac by (apply memcmp_eq; [rewrite Hhw; by apply (li_macs _ _ _ H (ipaddr e)) | done]).
    do 2 eexists. split; [done|]. split; [|split_and!; [cbn; lia | done | done | done]].
    destruct H as [H1 H2 H3 H4 H5 H6 H7]. split; [done..| |done]. intros x h a. cbn [Negotiation_list]. rewrite fmap_cons.
    intros [[= -> -> ->] | Hin]%elem_of_cons; [|by apply (H6 x)]. split_and!; [done | done|]. intros _. unfold leases. cbn [settings]. by rewrite Hm, Emac.
  - set (st := settings s). destruct (next_address (pool_next st) (li_next _ _ _ H) Hlt) as [Hn' En'].
    destruct (add_arp_entry_spec (arp_table (set_iface st)) (ArpEntry (pool_next st) hw) (li_arp _ _ _ H) (li_next _ _ _ H)) as (t & Et & Hinv & Hmap).
    cbn [ipaddr macaddr] in Hmap. rewrite Et. do 2 eexists. split; [done|]. cbn [settings pool_next Negotiation_list]. rewrite En'.
    split; [|split_and!; [lia | done | done | done]]. fold st in Hlt. destruct H as [H1 H2 H3 H4 H5 H6 H7].
    assert (∀ a m, in_pool first last a → leases s !! a = Some m → arp_map t !! a = Some m) as Hkeep.
    { intros a m Ha Hm. rewrite Hmap, lookup_insert_ne; [done|]. intros <-. specialize (H5 _ _ Hm Ha). fold st in H5. lia. }
    split; unfold leases; cbn [settings pool_start pool_end pool_next set_iface arp_table Negotiation_list d_sent].
    + done.
    + done.
    + done.
    + intros a m. rewrite Hmap. destruct (decide (a = pool_next st)) as [->|Hne]; [rewrite lookup_insert_eq; by intros [= <-]|].
      rewrite lookup_insert_ne by done. apply H4.
    + intros a m. rewrite Hmap, En'. destruct (decide (a = pool_next st)) as [->|Hne]; [lia|]. rewrite lookup_insert_ne by done.
      intros Hm Ha. specialize (H5 a m Hm Ha). fold st in H5. lia.
    + intros x h a. rewrite fmap_cons. intros [[= -> -> ->] | Hin]%elem_of_cons.
      * split_and!; [done | done|]. intros _. by rewrite Hmap, lookup_insert_eq.
      * destruct (H6 x h a Hin) as (Hl & Hu & Hm). split_and!; [done | done|]. intros Ha. apply Hkeep; auto.
    + intros d b Hin. destruct (H7 d b Hin) as (Hd & Hm & Hs). split_and!; auto.
Qed.

(** What a call of [dhcp_recv] is given: the array on the stack, the buffer, and a
    datagram of a length that keeps [is_options_valid] inside the buffer. *)
Definition RECV_BUFFER : nat := 2000.
Definition SAFE_LENGTH : Z := 1120.
Definition datagram_ok (opt_data buffer : list Z) (len : Z) : Prop :=
  length opt_data = 20%nat ∧ length buffer = RECV_BUFFER ∧ Forall byteP buffer ∧ len ≤ SAFE_LENGTH.

Lemma load_done {S} m o n (s : S) : 0 ≤ o → 0 ≤ n → o + n ≤ Z.of_nat (length m) → load m o n s = Done (slice m o n) s.
Proof.
  intros Ho Hn Hl. unfold load. rewrite (proj2 (Z.leb_le _ _) Ho), (proj2 (Z.leb_le _ _) Hn), (proj2 (Z.leb_le _ _) Hl). done.
Qed.
Lemma length_slice m o n : 0 ≤ o → 0 ≤ n → o + n ≤ Z.of_nat (length m) → length (slice m o n) = Z.to_nat n.
Proof. intros. unfold slice. rewrite length_take, length_drop. lia. Qed.

Lemma recv_negotiation_inv first last s xid buffer : lease_inv first last s → length buffer = RECV_BUFFER → ntohl (pool_next (settings s)) + 1 < 2 ^ 32 →
  ∃ k dn s', (match get_negotiation_by_xid xid (Negotiation_list s) with
               | Some (k, dn) => mret (k, dn)
               | None => hwaddr ← load buffer DH_HWADDR HLEN_ETHER; dn ← new_negotiation xid hwaddr; mret (0%nat, dn)
               end) s = Done (k, dn) s' ∧
    lease_inv first last s' ∧ ntohl (pool_next (settings s')) ≤ ntohl (pool_next (settings s)) + 1 ∧ dn ∈ Negotiation_list s'.
Proof.
  intros H Hb Hlt. destruct (get_negotiation_by_xid xid (Negotiation_list s)) as [[k dn]|] eqn:E.
  - exists k, dn, s. unfold get_negotiation_by_xid in E. apply list_find_Some in E as (Hk & _ & _).
    split_and!; [done | done | lia | by eapply list_elem_of_lookup_2].
  - bind1. rewrite load_done by (unfold DH_HWADDR, HLEN_ETHER, RECV_BUFFER in *; lia).
    destruct (new_negotiation_inv first last s xid (slice buffer DH_HWADDR HLEN_ETHER) H) as (dn & s' & E' & Hinv & Hn & El & _ & _); [|done|].
    { rewrite length_slice; [done|..]; unfold DH_HWADDR, HLEN_ETHER, RECV_BUFFER in *; lia. }
    exists 0%nat, dn, s'. unfold mbind, M_bind. rewrite E'. split_and!; [done | done | done | rewrite El; set_solver].
Qed.

Lemma dhcp_recv_inv first last opt_data buffer len s : datagram_ok opt_data buffer len → lease_inv first last s →
  ntohl (pool_next (settings s)) + 1 < 2 ^ 32 →
  ∃ s', dhcp_recv opt_data buffer len s = Done () s' ∧ lease_inv first last s' ∧ ntohl (pool_next (settings s')) ≤ ntohl (pool_next (settings s)) + 1.
Proof.
  intros (Hd & Hb & Hbytes & Hlen) H Hlt. unfold dhcp_recv. bind1.
  rewrite load_done by (unfold DH_XID, RECV_BUFFER in *; lia). unfold mbind at 1, M_bind at 1, get. cbv zeta.
  destruct (is_options_valid buffer DH_OPTIONS (len - DH_OPTIONS)) as [valid|] eqn:Ev.
  2: { exfalso. revert Ev. apply valid_in_bounds; [done|..]; unfold DH_OPTIONS, SAFE_LENGTH, RECV_BUFFER in *; lia. }
  bind1. cbn [deref mret M_ret]. destruct valid; cbn [negb]; [|exists s; split_and!; [done | done | lia]].
  destruct (valid_decode buffer Hbytes _ _ _ Ev) as (os & rest & Hos & Hat).
  destruct (recv_negotiation_inv first last s (of_le (slice buffer DH_XID 4)) buffer H Hb Hlt) as (k & dn & s' & E & Hinv & Hn & Hdn).
  bind1. rewrite E. bind1.
  destruct (ip_inrange (dn_ipaddr dn) (settings s')) eqn:Er; cbn [negb]; [|exists s'; split_and!; [done | done | lia]].
  destruct (inv_dn _ _ _ _ Hinv Hdn) as (Hh & Hip & _). rewrite (options_loop_end _ os rest) by done.
  destruct (server_options_done k dn os Hh Hip opt_data s' Hd) as (s2 & -> & Hr). exists s2. split; [done|]. split.
  - apply (replied_inv _ _ s' s2 dn); [done | done | | done]. destruct (li_range _ _ _ Hinv) as [<- <-]. by apply ip_inrange_spec.
  - destruct Hr as (-> & _). done.
Qed.

(** What happens to the server: a datagram, or a neighbour learned from its ARP
    packets.  The ARP packets are assumed to be [honest]: a neighbour that uses an
    address of the pool has it from the server.  The source does not check it, and
    [arp_claim_offers_twice] shows what happens otherwise. *)
Definition set_table (t : rb_tree) (s : dhcpd) : dhcpd :=
  let st := settings s in let i := set_iface st in
  Dhcpd (Settings (Iface (interface_id i) (address_list i) (if_macaddr i) t) (pool_start st) (pool_next st) (pool_end st) (lease_time st))
    (Negotiation_list s) (d_sent s).
Definition honest (s : dhcpd) (e : vder_arp_entry) : Prop :=
  entry_ok e ∧ length (macaddr e) = 6%nat ∧
  (in_pool (pool_start (settings s)) (pool_end (settings s)) (ipaddr e) → leases s !! ipaddr e = Some (macaddr e)).
Inductive dhcpd_step (s : dhcpd) : dhcpd → Prop :=
  | step_datagram opt_data from_ip from_port buffer len b s' : datagram_ok opt_data buffer len →
      dhcp_server_turn opt_data from_ip from_port buffer len s = Done b s' → dhcpd_step s s'
  | step_learn e t : honest s e → vder_add_arp_entry e (arp_table (set_iface (settings s))) = Some t → dhcpd_step s (set_table t s).

Lemma server_turn_inv first last opt_data from_ip from_port buffer len s : datagram_ok opt_data buffer len → lease_inv first last s →
  ntohl (pool_next (settings s)) + 1 < 2 ^ 32 →
  ∃ b s', dhcp_server_turn opt_data from_ip from_port buffer len s = Done b s' ∧ lease_inv first last s' ∧
    ntohl (pool_next (settings s')) ≤ ntohl (pool_next (settings s)) + 1.
Proof.
  intros Hd H Hlt. unfold dhcp_server_turn. destruct (len <? 0); [exists false, s; split_and!; [done | done | lia]|].
  destruct (dhcp_recv_inv first last opt_data buffer len s Hd H Hlt) as (s' & E & Hinv & Hn). unfold whenM.
  destruct ((from_ip =? 0) && (from_port =? DHCP_CLIENT_PORT)); [|exists true, s; split_and!; [done | done | lia]].
  exists true, s'. unfold mbind, M_bind. rewrite E. done.
Qed.

Lemma learn_inv first last s e t : lease_inv first last s → honest s e → vder_add_arp_entry e (arp_table (set_iface (settings s))) = Some t →
  lease_inv first last (set_table t s).
Proof.
  intros H (He & Hl & Hp) Et. destruct (add_arp_entry_spec _ e (li_arp _ _ _ H) He) as (t' & Et' & Hinv & Hmap).
  rewrite Et in Et'. injection Et' as <-. destruct H as [[<- <-] H2 H3 H4 H5 H6 H7].
  assert (∀ a m, in_pool (pool_start (settings s)) (pool_end (settings s)) a → leases s !! a = Some m → arp_map t !! a = Some m) as Hkeep.
  { intros a m Ha Hm. rewrite Hmap. destruct (decide (a = ipaddr e)) as [->|Hne]; [|by rewrite lookup_insert_ne].
    rewrite lookup_insert_eq. rewrite <- Hm. symmetry. by apply Hp. }
  split; unfold leases, set_table; cbv zeta; cbn [settings pool_start pool_end pool_next set_iface arp_table Negotiation_list d_sent]; [done..| | | |].
  - intros a m. rewrite Hmap. destruct (decide (a = ipaddr e)) as [->|Hne]; [rewrite lookup_insert_eq; by intros [= <-]|].
    rewrite lookup_insert_ne by done. apply H4.
  - intros a m. rewrite Hmap. destruct (decide (a = ipaddr e)) as [->|Hne]; [|rewrite lookup_insert_ne by done; apply H5].
    intros _ Ha. apply (H5 _ (macaddr e)); auto.
  - intros x h a Hin. destruct (H6 x h a Hin) as (Hl' & Hu & Hm). auto.
  - intros d b Hin. destruct (H7 d b Hin) as (Hd & Hm & Hs). auto.
Qed.

(** The server of a fresh router on an interface where nobody has an address of
    the pool. *)
Lemma start_inv i first last lt s : arp_inv (arp_table i) → u32P first → (∀ a m, arp_map (arp_table i) !! a = Some m → length m = 6%nat) →
  (∀ a m, arp_map (arp_table i) !! a = Some m → ¬ in_pool first last a) → Negotiation_list s = [] → d_sent s = [] →
  lease_inv first last (dhcp_server_start i first last lt s).
Proof.
  intros Hi Hf Hm Hp En Es. unfold dhcp_server_start. rewrite En, Es. split; unfold leases; cbn [settings pool_start pool_end pool_next set_iface Negotiation_list d_sent]; [done..| | |].
  - intros a m Ha Ha'. by destruct (Hp a m).
  - intros x h a Hin. by apply elem_of_nil in Hin.
  - intros d b Hin. by apply elem_of_nil in Hin.
Qed.

Lemma steps_inv first last n s s' : nsteps dhcpd_step n s s' → lease_inv first last s → ntohl (pool_next (settings s)) + Z.of_nat n < 2 ^ 32 →
  lease_inv first last s' ∧ ntohl (pool_next (settings s')) ≤ ntohl (pool_next (settings s)) + Z.of_nat n.
Proof.
  induction 1 as [s | n s1 s2 s3 Hst _ IH]; intros H Hlt; [split; [done | lia]|].
  assert (lease_inv first last s2 ∧ ntohl (pool_next (settings s2)) ≤ ntohl (pool_next (settings s1)) + 1) as [H2 Hn2].
  { destruct Hst as [opt_data from_ip from_port buffer len b s' Hd E | e t He Et].
    - destruct (server_turn_inv first last opt_data from_ip from_port buffer len s1 Hd H) as (b' & s'' & E' & Hinv & Hn); [lia|].
      rewrite E in E'. injection E' as <- <-. done.
    - split; [by apply (learn_inv _ _ _ e) | cbn; lia]. }
  destruct (IH H2) as [H3 Hn3]; [lia|]. split; [done | lia].
Qed.

(** C12: No address is offered twice, on a network whose hosts use only the
    addresses they were given. The server starts on an interface where nobody uses
    an address of the pool, and receives datagrams of up to 1120 bytes, also
    malformed ones, in any order with the ARP packets of its neighbours, where a
    neighbour that claims an address of the pool is the one it was leased to
    ([honest]; fewer of these steps than there are addresses from the start of the
    pool to the end of the address space). It never accesses memory outside of the
    buffer, every reply gives an address of the pool, and replies that give the same
    address are to the same MAC address. The code does not check the ARP packets:
    with one false claim the last part fails ([arp_claim_offers_twice]). *)
Theorem no_address_offered_twice i first last lt s0 n s :
  arp_inv (arp_table i) → u32P first → (∀ a m, arp_map (arp_table i) !! a = Some m → length m = 6%nat ∧ ¬ in_pool first last a) →
  Negotiation_list s0 = [] → d_sent s0 = [] → ntohl first + Z.of_nat n + 1 < 2 ^ 32 →
  nsteps dhcpd_step n (dhcp_server_start i first last lt s0) s →
  (∀ opt_data from_ip from_port buffer len, datagram_ok opt_data buffer len → ∃ b s', dhcp_server_turn opt_data from_ip from_port buffer len s = Done b s') ∧
  (∀ d b, (d, b) ∈ d_sent s → in_pool first last d ∧ slice b DH_YIADDR 4 = le32 d) ∧
  (∀ d b b', (d, b) ∈ d_sent s → (d, b') ∈ d_sent s → slice b DH_HWADDR HLEN_ETHER = slice b' DH_HWADDR HLEN_ETHER).
Proof.
  intros Hi Hf Hm En Es Hlt Hst.
  assert (lease_inv first last (dhcp_server_start i first last lt s0)) as H0 by (apply start_inv; [done | done | apply Hm | apply Hm | done | done]).
  destruct (steps_inv first last n _ s Hst H0) as [H Hn]; [cbn; lia|]. cbn [dhcp_server_start settings pool_next] in Hn. split_and!.
  - intros opt_data from_ip from_port buffer len Hd. destruct (server_turn_inv first last opt_data from_ip from_port buffer len s Hd H) as (b & s' & E & _); [lia|]. eauto.
  - intros d b Hin. destruct (li_sent _ _ _ H d b Hin) as (? & _ & ?). done.
  - intros d b b' Hin Hin'. destruct (li_sent _ _ _ H d b Hin) as (_ & E & _), (li_sent _ _ _ H d b' Hin') as (_ & E' & _). congruence.
Qed.

(** ** The exchange *)

Definition request_options (c : dhcp_client_cookie) (type : Z) : list dhcp_opt :=
  [Opt DHCPOPT_MSGTYPE [type]] ++
  (if type =? DHCP_MSG_REQUEST then [Opt DHCPOPT_REQIP (addr_bytes (cli_address c)); Opt DHCPOPT_SERVERID (addr_bytes (cli_server_id c))] else []) ++
  [Opt DHCPOPT_PARMLIST [DHCPOPT_NETMASK; DHCPOPT_BCAST; DHCPOPT_TIME; DHCPOPT_ROUTER; DHCPOPT_HOSTNAME]].
Definition request_datagram (c : dhcp_client_cookie) (mac : list Z) (secs : list Z) (type : Z) : list Z :=
  bootp_header DHCP_OP_REQUEST (le32 (cli_xid c)) secs (replicate 4 0) (replicate 4 0) mac ++
  encode_opts (request_options c type) ++ DHCPOPT_END :: replicate (if type =? DHCP_MSG_REQUEST then 37 else 49) 0.

Lemma dhclient_send_done tv_sec type c v : type = DHCP_MSG_DISCOVER ∨ type = DHCP_MSG_REQUEST →
  iflist (cli_router c) !! cli_iface (cookie c) = Some v → length (if_macaddr v) = 6%nat →
  ∃ secs, length secs = 2%nat ∧
    dhclient_send tv_sec type c = Done () (Client (cookie c) (cli_router c) (cli_sent c ++ [request_datagram (cookie c) (if_macaddr v) secs type])).
Proof.
  intros Ht Hv Hm. unfold dhclient_send. unfold mbind at 1, M_bind at 1, get. cbv zeta. rewrite Hv. bind1. cbn [deref mret M_ret].
  exists (le16 (if type =? DHCP_MSG_REQUEST then 0 else ntohs (u16 (tv_sec - start_sec (cookie c))))). split; [done|].
  unfold request_datagram, bootp_header, request_options, le16. set (y := if type =? DHCP_MSG_REQUEST then 0 else _).
  generalize (u8 (Z.shiftr y 8)) as y1. generalize (u8 y) as y0. clear y. intros y0 y1.
  destruct (six _ Hm) as (h1 & h2 & h3 & h4 & h5 & h6 & ->). destruct (le32_four (cli_xid (cookie c))) as (x1 & x2 & x3 & x4 & ->).
  assert (∀ a, ∃ b1 b2 b3 b4, addr_bytes a = [b1; b2; b3; b4]) as Hab by (unfold addr_bytes; eauto).
  destruct (Hab (cli_address (cookie c))) as (a1 & a2 & a3 & a4 & ->), (Hab (cli_server_id (cookie c))) as (s1 & s2 & s3 & s4 & ->).
  clear Hab. destruct c as [ck r sent]. cbn [cookie cli_router cli_sent]. destruct Ht as [-> | ->]; vm_compute; reflexivity.
Qed.

(** A message in a buffer: its fields and its options. *)
Definition in_buffer (buf : list Z) (xid hwaddr yiaddr : list Z) (os : list dhcp_opt) : Prop :=
  slice buf DH_XID 4 = xid ∧ slice buf DH_HWADDR HLEN_ETHER = hwaddr ∧ slice buf DH_YIADDR 4 = yiaddr ∧
  (∃ rest, at_off buf DH_OPTIONS (encode_opts os ++ DHCPOPT_END :: rest)) ∧ (DH_OPTIONS ≤ Z.of_nat (length buf)).

Lemma header_in_buffer op xid secs yiaddr siaddr hwaddr os rest : length xid = 4%nat → length secs = 2%nat → length yiaddr = 4%nat → length siaddr = 4%nat →
  length hwaddr = 6%nat → in_buffer (bootp_header op xid secs yiaddr siaddr hwaddr ++ encode_opts os ++ DHCPOPT_END :: rest) xid hwaddr yiaddr os.
Proof.
  intros Hx Hs Hy Hsi Hh. destruct (four _ Hx) as (x1 & x2 & x3 & x4 & ->), (two _ Hs) as (t1 & t2 & ->), (four _ Hy) as (y1 & y2 & y3 & y4 & ->),
    (four _ Hsi) as (i1 & i2 & i3 & i4 & ->), (six _ Hh) as (h1 & h2 & h3 & h4 & h5 & h6 & ->).
  split_and!; [done | done | done | exists rest; split; [done|] | ].
  - apply drop_app_length'. done.
  - rewrite length_app. unfold DH_OPTIONS. match goal with |- context [length (bootp_header ?a ?b ?c ?d ?e ?f)] => assert (length (bootp_header a b c d e f) = 240%nat) as -> by done end. lia.
Qed.

(** The buffer after a datagram was copied to its start. *)
Definition into (buf d : list Z) : list Z := d ++ drop (length d) buf.
Lemma into_length buf d : (length d ≤ length buf)%nat → length (into buf d) = length buf.
Proof. intros H. unfold into. rewrite length_app, length_drop. lia. Qed.

Lemma request_in_buffer buf c mac secs type : length mac = 6%nat → length secs = 2%nat →
  in_buffer (into buf (request_datagram c mac secs type)) (le32 (cli_xid c)) mac (replicate 4 0) (request_options c type).
Proof. intros Hm Hs. unfold into, request_datagram. rewrite <- !app_assoc. cbn [app]. by apply header_in_buffer. Qed.
Lemma reply_in_buffer buf st dn type : length (dn_hwaddr dn) = 6%nat → let sa := vder_get_right_localip (set_iface st) (pool_next st) in
  let nm := vder_get_netmask (set_iface st) sa in
  in_buffer (into buf (reply_datagram st dn type)) (le32 (dn_xid dn)) (dn_hwaddr dn) (le32 (dn_ipaddr dn))
    (reply_options type sa (lease_time st) nm (vder_get_broadcast sa nm)).
Proof. intros Hm sa nm. unfold into, reply_datagram. cbv zeta. rewrite <- !app_assoc. cbn [app]. by apply header_in_buffer. Qed.

Section message.
Context {buf xid hwaddr yiaddr : list Z} {os : list dhcp_opt}.
Hypothesis Hbuf : in_buffer buf xid hwaddr yiaddr os.

Lemma buffer_load {S} o n (s : S) : 0 ≤ o → 0 ≤ n → o + n ≤ DH_OPTIONS → load buf o n s = Done (slice buf o n) s.
Proof using Hbuf. intros. destruct Hbuf as (_ & _ & _ & _ & Hl). apply load_done; lia. Qed.
Lemma buffer_valid len : Forall opt_ok os → opts_cost os < len → is_options_valid buf DH_OPTIONS len = Some true.
Proof using Hbuf.
  intros Hos Hc. destruct Hbuf as (_ & _ & _ & [rest Hat] & _). unfold is_options_valid. rewrite (valid_encode os rest) by done. by rewrite (proj2 (Z.ltb_lt _ _) Hc).
Qed.
Lemma buffer_loop {S A} (body : Z → list Z → Z → A → M S (A * bool)) opt_data a s : Forall opt_ok os → length opt_data = 20%nat →
  options_loop body (length buf) buf DH_OPTIONS opt_data a s = each_option body os opt_data a s.
Proof using Hbuf. intros Hos Hd. destruct Hbuf as (_ & _ & _ & [rest Hat] & _). by apply (options_loop_end body os rest). Qed.
End message.

Lemma reply_options_ok type sa lt nm bc : Forall opt_ok (reply_options type sa lt nm bc).
Proof. repeat constructor; done. Qed.
Lemma request_options_ok c type : Forall opt_ok (request_options c type).
Proof. unfold request_options. destruct (type =? DHCP_MSG_REQUEST); repeat constructor; done. Qed.
Lemma request_options_cost c type : opts_cost (request_options c type) ≤ 18.
Proof. unfold request_options. destruct (type =? DHCP_MSG_REQUEST); vm_compute; done. Qed.

(** The answer of the state machine to the first option. *)
Lemma server_answers k dn type os opt_data s : length (dn_hwaddr dn) = 6%nat → u32P (dn_ipaddr dn) → type = DHCP_MSG_DISCOVER ∨ type = DHCP_MSG_REQUEST →
  let reply t := Dhcpd (settings s) (Negotiation_list s) (d_sent s ++ [(dn_ipaddr dn, reply_datagram (settings s) dn t)]) in
  each_option (server_option k dn) (Opt DHCPOPT_MSGTYPE [type] :: os) opt_data () s =
  Done () (if type =? DHCP_MSG_DISCOVER then set_dn_state k DHCPSTATE_OFFER (reply DHCP_MSG_OFFER) else reply DHCP_MSG_ACK).
Proof.
  intros Hh Hip Ht reply. cbn [each_option]. unfold server_option. cbn [Z.eqb Pos.eqb DHCPOPT_MSGTYPE].
  assert (zget (take 20 [type] ++ drop (length [type]) opt_data) 0 = Some type) as -> by done.
  destruct Ht as [-> | ->]; unfold mbind, M_bind, deref, mret, M_ret; cbv beta iota; cbn [Z.eqb Pos.eqb DHCP_MSG_DISCOVER DHCP_MSG_REQUEST];
    cbv beta iota; rewrite make_reply_done by done; done.
Qed.

Lemma server_discover c mac secs buf opt_data s : length mac = 6%nat → length secs = 2%nat → length opt_data = 20%nat → u32P (cli_xid c) →
  arp_inv (arp_table (set_iface (settings s))) → u32P (pool_next (settings s)) → ntohl (pool_next (settings s)) + 1 < 2 ^ 32 →
  in_pool (pool_start (settings s)) (pool_end (settings s)) (pool_next (settings s)) →
  get_negotiation_by_xid (cli_xid c) (Negotiation_list s) = None → vder_arp_get_record_by_macaddr (arp_table (set_iface (settings s))) mac = None →
  let dn := Negotiation (cli_xid c) mac DHCPSTATE_DISCOVER (pool_next (settings s)) in
  ∃ st s', dhcp_recv opt_data (into buf (request_datagram c mac secs DHCP_MSG_DISCOVER)) 300 s = Done () s' ∧ settings s' = st ∧
    address_list (set_iface st) = address_list (set_iface (settings s)) ∧ pool_next st = ntohl (u32 (ntohl (pool_next (settings s)) + 1)) ∧
    pool_start st = pool_start (settings s) ∧ pool_end st = pool_end (settings s) ∧ lease_time st = lease_time (settings s) ∧
    leases s' = <[pool_next (settings s) := mac]> (leases s) ∧
    Negotiation_list s' = Negotiation (cli_xid c) mac DHCPSTATE_OFFER (pool_next (settings s)) :: Negotiation_list s ∧
    d_sent s' = d_sent s ++ [(pool_next (settings s), reply_datagram st dn DHCP_MSG_OFFER)].
Proof.
  intros Hm Hs Hd Hx Harp Hn Hlt Hp Hnew Hmac dn.
  pose proof (request_in_buffer buf c mac secs DHCP_MSG_DISCOVER Hm Hs) as Hb. set (b := into buf _) in *.
  pose proof Hb as (Ex & Eh & _).
  unfold dhcp_recv. bind1. rewrite (buffer_load Hb) by done. rewrite Ex, of_le_le32 by done.
  unfold mbind at 1, M_bind at 1, get. cbv zeta. bind1.
  rewrite (buffer_valid Hb) by (apply request_options_ok || done). cbn [deref mret M_ret negb].
  rewrite Hnew. bind1. bind1. rewrite (buffer_load Hb) by done. rewrite Eh.
  bind1. unfold new_negotiation. unfold mbind at 1, M_bind at 1, get. rewrite Hmac.
  destruct (add_arp_entry_spec (arp_table (set_iface (settings s))) (ArpEntry (pool_next (settings s)) mac) Harp Hn) as (t & Et & Hinv & Hmap).
  rewrite Et. bind1. cbn [deref mret M_ret]. unfold mbind at 1 2, M_bind at 1 2, modify. cbv beta iota. cbn [mret M_ret].
  fold dn. cbn [dn_ipaddr dn settings].
  match goal with |- context [ip_inrange ?a ?st] => assert (ip_inrange a st = true) as -> by (by apply ip_inrange_spec) end. cbn [negb].
  rewrite (buffer_loop Hb) by (apply request_options_ok || done).
  eexists _, _. split; [apply server_answers; [done | done | by left]|]. cbn [Z.eqb Pos.eqb DHCP_MSG_DISCOVER].
  split_and!; done.
Qed.

Lemma server_request c dn rest mac secs buf opt_data s : length mac = 6%nat → length secs = 2%nat → length opt_data = 20%nat → u32P (cli_xid c) →
  Negotiation_list s = dn :: rest → dn_xid dn = cli_xid c → length (dn_hwaddr dn) = 6%nat → u32P (dn_ipaddr dn) →
  in_pool (pool_start (settings s)) (pool_end (settings s)) (dn_ipaddr dn) →
  dhcp_recv opt_data (into buf (request_datagram c mac secs DHCP_MSG_REQUEST)) 300 s =
  Done () (Dhcpd (settings s) (Negotiation_list s) (d_sent s ++ [(dn_ipaddr dn, reply_datagram (settings s) dn DHCP_MSG_ACK)])).
Proof.
  intros Hm Hs Hd Hx El Exid Hh Hip Hp.
  pose proof (request_in_buffer buf c mac secs DHCP_MSG_REQUEST Hm Hs) as Hb. set (b := into buf _) in *. pose proof Hb as (Ex & Eh & _).
  unfold dhcp_recv. bind1. rewrite (buffer_load Hb) by done. rewrite Ex, of_le_le32 by done.
  unfold mbind at 1, M_bind at 1, get. cbv zeta. bind1.
  rewrite (buffer_valid Hb) by (apply request_options_ok || done). cbn [deref mret M_ret negb].
  assert (get_negotiation_by_xid (cli_xid c) (Negotiation_list s) = Some (0%nat, dn)) as ->.
  { unfold get_negotiation_by_xid. rewrite El. cbn [list_find]. by rewrite decide_True. }
  bind1. cbn [mret M_ret]. bind1. rewrite (proj2 (ip_inrange_spec _ _) Hp). cbn [negb].
  rewrite (buffer_loop Hb) by (apply request_options_ok || done). apply server_answers; [done | done | by right].
Qed.

Lemma twenty (l : list Z) : length l = 20%nat → ∃ a b c d e f g h i j k m n o p q r s t u, l = [a; b; c; d; e; f; g; h; i; j; k; m; n; o; p; q; r; s; t; u].
Proof. intros H. do 20 (destruct l as [|? l]; [done|]). destruct l; [|done]. do 20 eexists. done. Qed.

Definition take_offer (sa lt nm : Z) (c : dhcp_client_cookie) : dhcp_client_cookie := set_gateway sa (set_netmask nm (set_lease_time lt (set_server_id sa c))).

(** The client reads the options of a reply. *)
Lemma offer_options type sa lt nm bc opt_data m c : length opt_data = 20%nat →
  each_option offer_option (reply_options type sa lt nm bc) opt_data m c =
  Done type (on_cookie (take_offer (of_le (le32 sa)) (of_le (le32 lt)) (of_le (le32 nm))) c).
Proof.
  intros Hd. unfold reply_options. destruct (le32_four sa) as (s1 & s2 & s3 & s4 & ->). destruct (le32_four lt) as (l1 & l2 & l3 & l4 & ->).
  destruct (le32_four nm) as (n1 & n2 & n3 & n4 & ->). destruct (le32_four bc) as (b1 & b2 & b3 & b4 & ->).
  destruct (twenty _ Hd) as (d1 & d2 & d3 & d4 & d5 & d6 & d7 & d8 & d9 & d10 & d11 & d12 & d13 & d14 & d15 & d16 & d17 & d18 & d19 & d20 & ->).
  destruct c as [ck r sent]. vm_compute. reflexivity.
Qed.
Lemma ack_options type sa lt nm bc opt_data m c : each_option ack_option (reply_options type sa lt nm bc) opt_data m c = Done type c.
Proof. reflexivity. Qed.
Lemma reply_options_cost type sa lt nm bc : opts_cost (reply_options type sa lt nm bc) = 33.
Proof. reflexivity. Qed.

(** The settings give a client what it needs. *)
Record gives (st : vder_dhcpd_settings) (sa nm lt : Z) : Prop := {
  g_address : vder_get_right_localip (set_iface st) (pool_next st) = sa;
  g_netmask : vder_get_netmask (set_iface st) sa = nm;
  g_lease : lease_time st = lt;
  g_u32 : u32P sa ∧ u32P nm ∧ u32P lt;
  g_nonzero : sa ≠ 0 ∧ nm ≠ 0 ∧ lt ≠ 0
}.

Lemma client_offer st dn sa nm lt buf opt_data c : gives st sa nm lt → length (dn_hwaddr dn) = 6%nat → u32P (dn_ipaddr dn) → u32P (dn_xid dn) →
  cli_state (cookie c) = DHCPSTATE_DISCOVER → cli_xid (cookie c) = dn_xid dn → length opt_data = 20%nat →
  client_answer opt_data (Received (into buf (reply_datagram st dn DHCP_MSG_OFFER)) 300) c =
  Done true (on_cookie (λ ck, set_state DHCPSTATE_REQUEST (take_offer sa lt nm (set_address (dn_ipaddr dn) ck))) c).
Proof.
  intros [Ea En El (Hsa & Hnm & Hlt) (Nsa & Nnm & Nlt)] Hh Hip Hx Est Exid Hd.
  pose proof (reply_in_buffer buf st dn DHCP_MSG_OFFER Hh) as Hb. cbv zeta in Hb. set (b := into buf _) in *. pose proof Hb as (Ex & _ & Ey & _).
  unfold client_answer. unfold mbind at 1, M_bind at 1, gets. rewrite Est. bind1.
  unfold dhclient_recv_offer. bind1. rewrite (buffer_load Hb) by done. rewrite Ex, of_le_le32 by done.
  unfold mbind at 1, M_bind at 1, gets. rewrite Exid, Z.eqb_refl. cbn [negb]. bind1.
  rewrite (buffer_valid Hb) by (apply reply_options_ok || done). cbn [deref mret M_ret negb].
  bind1. rewrite (buffer_load Hb) by done. rewrite Ey, of_le_le32 by done.
  unfold mbind at 1, M_bind at 1, modify. bind1. rewrite (buffer_loop Hb) by (apply reply_options_ok || done).
  rewrite offer_options by done. rewrite Ea, En, El, !of_le_le32 by done. unfold mbind at 1, M_bind at 1, gets.
  cbn [on_cookie cookie take_offer set_gateway set_netmask set_lease_time set_server_id set_address cli_lease_time cli_netmask cli_server_id].
  rewrite (proj2 (Z.eqb_neq _ _) Nsa), (proj2 (Z.eqb_neq _ _) Nnm), (proj2 (Z.eqb_neq _ _) Nlt). done.
Qed.
Lemma client_ack st dn buf opt_data c : length (dn_hwaddr dn) = 6%nat → u32P (dn_xid dn) →
  cli_state (cookie c) = DHCPSTATE_REQUEST → cli_xid (cookie c) = dn_xid dn → length opt_data = 20%nat →
  client_answer opt_data (Received (into buf (reply_datagram st dn DHCP_MSG_ACK)) 300) c = Done true (on_cookie (set_state DHCPSTATE_ACK) c).
Proof.
  intros Hh Hx Est Exid Hd.
  pose proof (reply_in_buffer buf st dn DHCP_MSG_ACK Hh) as Hb. cbv zeta in Hb. set (b := into buf _) in *. pose proof Hb as (Ex & _ & _).
  unfold client_answer. unfold mbind at 1, M_bind at 1, gets. rewrite Est. bind1.
  unfold dhclient_recv_ack. bind1. rewrite (buffer_load Hb) by done. rewrite Ex, of_le_le32 by done.
  unfold mbind at 1, M_bind at 1, gets. rewrite Exid, Z.eqb_refl. cbn [negb]. bind1.
  rewrite (buffer_valid Hb) by (apply reply_options_ok || done). cbn [deref mret M_ret negb].
  bind1. rewrite (buffer_loop Hb) by (apply reply_options_ok || done). rewrite ack_options. done.
Qed.

(** A turn of the client with a turn of the server in between: what the one sends
    is received by the other, in the buffers [cb] and [sb].  The messages are
    broadcast, and [from_ip] is 0. *)
Definition dhcp_round (now : Z * Z) (od : list Z) (x : dhcp_client * dhcpd * list Z * list Z) : option (dhcp_client * dhcpd * list Z * list Z) :=
  let '(c, s, cb, sb) := x in
  c1 ← run_state (client_ask now) c;
  m ← last (cli_sent c1);
  let sb := into sb m in
  s1 ← run_state (dhcp_server_turn od 0 DHCP_CLIENT_PORT sb (Z.of_nat (length m))) s;
  '(_, r) ← last (d_sent s1);
  let cb := into cb r in
  c2 ← run_state (client_answer od (Received cb (Z.of_nat (length r)))) c1;
  Some (c2, s1, cb, sb).

Lemma request_length c mac secs type : length mac = 6%nat → length secs = 2%nat → type = DHCP_MSG_DISCOVER ∨ type = DHCP_MSG_REQUEST →
  length (request_datagram c mac secs type) = 300%nat.
Proof.
  intros Hm Hs Ht. destruct (six _ Hm) as (h1 & h2 & h3 & h4 & h5 & h6 & ->), (two _ Hs) as (t1 & t2 & ->). destruct Ht as [-> | ->]; reflexivity.
Qed.
Lemma reply_length st dn type : length (dn_hwaddr dn) = 6%nat → length (reply_datagram st dn type) = 300%nat.
Proof.
  intros Hm. unfold reply_datagram, bootp_header. destruct (six _ Hm) as (h1 & h2 & h3 & h4 & h5 & h6 & ->). reflexivity.
Qed.

Lemma server_turn_run od buf s s' : dhcp_recv od buf 300 s = Done () s' → run_state (dhcp_server_turn od 0 DHCP_CLIENT_PORT buf 300) s = Some s'.
Proof. intros E. unfold run_state, dhcp_server_turn. cbn [Z.ltb Z.compare]. bind1. unfold whenM. rewrite !Z.eqb_refl. cbn [andb]. by rewrite E. Qed.

Lemma discover_round now od c s cb sb v sa nm : cli_state (cookie c) = DHCPSTATE_DISCOVER → attempt (cookie c) < MAX_RETRY → u32P (cli_xid (cookie c)) →
  iflist (cli_router c) !! cli_iface (cookie c) = Some v → length (if_macaddr v) = 6%nat → length od = 20%nat →
  arp_inv (arp_table (set_iface (settings s))) → u32P (pool_next (settings s)) → ntohl (pool_next (settings s)) + 1 < 2 ^ 32 →
  in_pool (pool_start (settings s)) (pool_end (settings s)) (pool_next (settings s)) →
  get_negotiation_by_xid (cli_xid (cookie c)) (Negotiation_list s) = None →
  vder_arp_get_record_by_macaddr (arp_table (set_iface (settings s))) (if_macaddr v) = None →
  let st := settings s in
  gives (Settings (set_iface st) (pool_start st) (ntohl (u32 (ntohl (pool_next st) + 1))) (pool_end st) (lease_time st)) sa nm (lease_time st) →
  ∃ sent r s' cb' sb', dhcp_round now od (c, s, cb, sb) =
      Some (Client (set_state DHCPSTATE_REQUEST (take_offer sa (lease_time st) nm (set_address (pool_next st) (set_attempt (attempt (cookie c) + 1) (cookie c)))))
              (cli_router c) sent, s', cb', sb') ∧
    pool_start (settings s') = pool_start st ∧ pool_end (settings s') = pool_end st ∧
    leases s' = <[pool_next st := if_macaddr v]> (leases s) ∧
    Negotiation_list s' = Negotiation (cli_xid (cookie c)) (if_macaddr v) DHCPSTATE_OFFER (pool_next st) :: Negotiation_list s ∧
    d_sent s' = d_sent s ++ [(pool_next st, r)].
Proof.
  intros Est Hatt Hx Hv Hm Hd Harp Hn Hlt Hp Hnew Hmac st Hg. unfold dhcp_round.
  set (c0 := on_cookie (set_attempt (attempt (cookie c) + 1)) c).
  destruct (dhclient_send_done now.1 DHCP_MSG_DISCOVER c0 v (or_introl eq_refl) Hv Hm) as (secs & Hs & Esend).
  assert (run_state (client_ask now) c = Some (Client (cookie c0) (cli_router c0) (cli_sent c0 ++ [request_datagram (cookie c0) (if_macaddr v) secs DHCP_MSG_DISCOVER]))) as Eask.
  { unfold run_state, client_ask. unfold mbind at 1, M_bind at 1, gets. rewrite Est. unfold mbind at 1, M_bind at 1, dhcp_retry, modify.
    replace (on_cookie _ c) with c0; [by rewrite Esend|]. unfold c0, on_cookie. f_equal. cbn [set_attempt attempt]. destruct (Z.ltb_spec MAX_RETRY (attempt (cookie c) + 1)); [lia | done]. }
  rewrite Eask. cbn [mbind option_bind cli_sent]. rewrite last_snoc. cbn [mbind option_bind].
  rewrite request_length by (auto; by left).
  destruct (server_discover (cookie c0) (if_macaddr v) secs sb od s) as (st' & s' & Er & Est' & Eal & Epn & Eps & Epe & Elt & Ele & Enl & Esent); try done.
  change (Z.of_nat 300) with 300. rewrite (server_turn_run _ _ _ _ Er). cbn [mbind option_bind]. rewrite Esent, last_snoc. cbn [mbind option_bind].
  rewrite reply_length by done. change (Z.of_nat 300) with 300.
  assert (gives st' sa nm (lease_time st)) as Hg'.
  { destruct Hg as [G1 G2 G3 G4 G5]. split; [| | by rewrite Elt | done | done]; unfold vder_get_right_localip, vder_get_netmask in *; cbn [set_iface pool_next] in *; by rewrite Eal, ?Epn. }
  unfold run_state. rewrite (client_offer st' _ sa nm (lease_time st)) by done. cbn [mbind option_bind].
  do 5 eexists. split; [done|]. split_and!; try done; by rewrite Est'.
Qed.

Lemma request_round now od c s cb sb v dn rest : cli_state (cookie c) = DHCPSTATE_REQUEST → u32P (cli_xid (cookie c)) →
  iflist (cli_router c) !! cli_iface (cookie c) = Some v → length (if_macaddr v) = 6%nat → length od = 20%nat →
  Negotiation_list s = dn :: rest → dn_xid dn = cli_xid (cookie c) → length (dn_hwaddr dn) = 6%nat → u32P (dn_ipaddr dn) →
  in_pool (pool_start (settings s)) (pool_end (settings s)) (dn_ipaddr dn) →
  ∃ sent r cb' sb', dhcp_round now od (c, s, cb, sb) =
    Some (Client (set_state DHCPSTATE_ACK (cookie c)) (cli_router c) sent, Dhcpd (settings s) (Negotiation_list s) (d_sent s ++ [(dn_ipaddr dn, r)]), cb', sb').
Proof.
  intros Est Hx Hv Hm Hd El Exid Hh Hip Hp. unfold dhcp_round.
  destruct (dhclient_send_done now.1 DHCP_MSG_REQUEST c v (or_intror eq_refl) Hv Hm) as (secs & Hs & Esend).
  assert (run_state (client_ask now) c = Some (Client (cookie c) (cli_router c) (cli_sent c ++ [request_datagram (cookie c) (if_macaddr v) secs DHCP_MSG_REQUEST]))) as Eask.
  { unfold run_state, client_ask. unfold mbind at 1, M_bind at 1, gets. rewrite Est. by rewrite Esend. }
  rewrite Eask. cbn [mbind option_bind cli_sent]. rewrite last_snoc. cbn [mbind option_bind]. rewrite request_length by (auto; by right).
  change (Z.of_nat 300) with 300.
  erewrite server_turn_run by (by apply (server_request (cookie c) dn rest)). cbn [mbind option_bind d_sent]. rewrite last_snoc. cbn [mbind option_bind].
  rewrite reply_length by done. change (Z.of_nat 300) with 300. unfold run_state. rewrite client_ack by (done || congruence).
  do 4 eexists. done.
Qed.

(** C13: a client that meets the server gets an address.  When the server has not met
    the transaction or the MAC address before and the next address of the pool is free,
    two turns of the client with the answers of the server take the client from
    DISCOVER to ACK; it has then that address and the server's netmask, router and
    lease time, and the ARP table of the server has the address with its MAC. *)
Theorem client_gets_address now1 now2 od1 od2 c s cb sb v sa nm : let st := settings s in
  cli_state (cookie c) = DHCPSTATE_DISCOVER → attempt (cookie c) < MAX_RETRY → u32P (cli_xid (cookie c)) →
  iflist (cli_router c) !! cli_iface (cookie c) = Some v → length (if_macaddr v) = 6%nat → length od1 = 20%nat → length od2 = 20%nat →
  arp_inv (arp_table (set_iface st)) → u32P (pool_next st) → ntohl (pool_next st) + 1 < 2 ^ 32 →
  in_pool (pool_start st) (pool_end st) (pool_next st) →
  get_negotiation_by_xid (cli_xid (cookie c)) (Negotiation_list s) = None →
  vder_arp_get_record_by_macaddr (arp_table (set_iface st)) (if_macaddr v) = None →
  gives (Settings (set_iface st) (pool_start st) (ntohl (u32 (ntohl (pool_next st) + 1))) (pool_end st) (lease_time st)) sa nm (lease_time st) →
  ∃ c' s' cb' sb' r1 r2, (dhcp_round now1 od1 (c, s, cb, sb) ≫= dhcp_round now2 od2) = Some (c', s', cb', sb') ∧
    cli_state (cookie c') = DHCPSTATE_ACK ∧ cli_address (cookie c') = pool_next st ∧ cli_netmask (cookie c') = nm ∧
    cli_gateway (cookie c') = sa ∧ cli_server_id (cookie c') = sa ∧ cli_lease_time (cookie c') = lease_time st ∧
    leases s' = <[pool_next st := if_macaddr v]> (leases s) ∧ d_sent s' = d_sent s ++ [(pool_next st, r1); (pool_next st, r2)].
Proof.
  intros st Est Hatt Hx Hv Hm Hd1 Hd2 Harp Hn Hlt Hp Hnew Hmac Hg.
  destruct (discover_round now1 od1 c s cb sb v sa nm) as (sent & r1 & s1 & cb1 & sb1 & -> & Eps & Epe & Ele & Enl & Esent); try done.
  cbn [mbind option_bind]. set (c1 := Client _ _ sent).
  destruct (request_round now2 od2 c1 s1 cb1 sb1 v (Negotiation (cli_xid (cookie c)) (if_macaddr v) DHCPSTATE_OFFER (pool_next st)) (Negotiation_list s))
    as (sent' & r2 & cb' & sb' & E); try done; [cbn [dn_ipaddr]; by rewrite Eps, Epe|].
  do 6 eexists. split; [exact E|]. cbn [cookie d_sent dn_ipaddr]. rewrite Esent, <- app_assoc. split_and!; done.
Qed.

(** ** A network *)

Definition ip10 (n : Z) : Z := 10 + n * 2 ^ 24.
Definition demo_iface (t : rb_tree) : vder_iface := Iface 0 [Ip4Address (ip10 1) 0xFFFFFF] [0; 2; 5; 1; 2; 0] t.
Definition demo_server (t : rb_tree) (first last : Z) : dhcpd :=
  dhcp_server_start (demo_iface t) first last (ntohl 0xa8c0) (Dhcpd (Settings (demo_iface t) 0 0 0 0) [] []).
Definition demo_mac (n : Z) : list Z := [2; 0; 0; 0; 0; n].
Definition demo_client (n : Z) : dhcp_client :=
  Client (dhcp_client_start 0 (1000, n)) (Router [Iface 0 [] (demo_mac n) RB_ROOT] [] []) [].
Definition zeros : list Z := replicate RECV_BUFFER 0.
Definition od0 : list Z := replicate 20 0.
(** A message of client [n] as the server gets it. *)
Definition demo_message (n type : Z) : list Z := into zeros (request_datagram (cookie (demo_client n)) (demo_mac n) [0; 0] type).
Definition after_message (n type : Z) (s : dhcpd) : dhcpd :=
  match dhcp_server_turn od0 0 DHCP_CLIENT_PORT (demo_message n type) 300 s with Done _ s => s | _ => s end.

Lemma demo_message_ok n : Forall byteP (demo_message n DHCP_MSG_DISCOVER) → datagram_ok od0 (demo_message n DHCP_MSG_DISCOVER) 300.
Proof. intros H. split_and!; [done | | done | done]. unfold demo_message. rewrite into_length; [done|]. rewrite request_length; [cbn; lia | done | done | by left]. Qed.

Lemma accepted_options_read_witness : is_options_valid (demo_message 7 DHCP_MSG_DISCOVER) DH_OPTIONS 60 = Some true ∧
  ∃ os rest, Forall opt_ok os ∧ at_off (demo_message 7 DHCP_MSG_DISCOVER) DH_OPTIONS (encode_opts os ++ DHCPOPT_END :: rest).
Proof.
  split; [vm_compute; reflexivity|].
  destruct (accepted_options_read (demo_message 7 DHCP_MSG_DISCOVER) DH_OPTIONS 60) as (os & rest & H1 & H2 & _).
  - apply (bool_decide_eq_true_1 _). vm_compute. reflexivity.
  - vm_compute. reflexivity.
  - exists os, rest. split; [exact H1 | exact H2].
Defined.

Definition demo_two : dhcpd := after_message 9 DHCP_MSG_DISCOVER (after_message 8 DHCP_MSG_DISCOVER (demo_server RB_ROOT (ip10 101) (ip10 120))).
Lemma demo_step n s : Forall byteP (demo_message n DHCP_MSG_DISCOVER) →
  (∃ b s', dhcp_server_turn od0 0 DHCP_CLIENT_PORT (demo_message n DHCP_MSG_DISCOVER) 300 s = Done b s') → dhcpd_step s (after_message n DHCP_MSG_DISCOVER s).
Proof.
  intros Hb (b & s' & E). unfold after_message. rewrite E.
  apply (step_datagram s od0 0 DHCP_CLIENT_PORT (demo_message n DHCP_MSG_DISCOVER) 300 b); [by apply demo_message_ok | done].
Qed.

Lemma no_address_offered_twice_witness : (fst <$> d_sent demo_two) = [ip10 101; ip10 102] ∧
  ∀ d b b', (d, b) ∈ d_sent demo_two → (d, b') ∈ d_sent demo_two → slice b DH_HWADDR HLEN_ETHER = slice b' DH_HWADDR HLEN_ETHER.
Proof.
  split; [vm_compute; reflexivity|].
  apply (no_address_offered_twice (demo_iface RB_ROOT) (ip10 101) (ip10 120) (ntohl 0xa8c0) (Dhcpd (Settings (demo_iface RB_ROOT) 0 0 0 0) [] []) 2 demo_two).
  - split; [split; constructor | exists 0%nat; constructor].
  - unfold u32P, ip10. lia.
  - intros a m H. discriminate H.
  - reflexivity.
  - reflexivity.
  - vm_compute. reflexivity.
  - eapply nsteps_l; [|eapply nsteps_l; [|apply nsteps_O]].
    + apply (demo_step 8); [apply (bool_decide_eq_true_1 _); vm_compute; reflexivity | eexists _, _; vm_compute; reflexivity].
    + apply (demo_step 9); [apply (bool_decide_eq_true_1 _); vm_compute; reflexivity | eexists _, _; vm_compute; reflexivity].
Defined.

(** Without [honest] it is: after client 8 was offered an address, one ARP packet in
    which client 9 claims it makes the server offer it to client 9 as well. *)
Lemma arp_claim_offers_twice :
  let s := after_message 8 DHCP_MSG_DISCOVER (demo_server RB_ROOT (ip10 101) (ip10 120)) in
  ∃ t, vder_add_arp_entry (ArpEntry (ip10 101) (demo_mac 9)) (arp_table (set_iface (settings s))) = Some t ∧
    ¬ honest s (ArpEntry (ip10 101) (demo_mac 9)) ∧
    ((λ '(d, b), (d, slice b DH_HWADDR HLEN_ETHER)) <$> d_sent (after_message 9 DHCP_MSG_DISCOVER (set_table t s))) =
      [(ip10 101, demo_mac 8); (ip10 101, demo_mac 9)].
Proof.
  eexists. split; [vm_compute; reflexivity|]. split; [|vm_compute; reflexivity].
  intros (_ & _ & H). assert (leases (after_message 8 DHCP_MSG_DISCOVER (demo_server RB_ROOT (ip10 101) (ip10 120))) !! ip10 101 = Some (demo_mac 8)) as E
    by (vm_compute; reflexivity).
  cbn [ipaddr macaddr] in H. rewrite E in H. specialize (H ltac:(vm_compute; split; discriminate)). discriminate H.
Qed.

Lemma client_gets_address_witness :
  ∃ c' s' cb' sb', (dhcp_round (1000, 7) od0 (demo_client 7, demo_server RB_ROOT (ip10 101) (ip10 120), zeros, zeros) ≫= dhcp_round (1001, 0) od0) = Some (c', s', cb', sb') ∧
    cli_state (cookie c') = DHCPSTATE_ACK ∧ cli_address (cookie c') = ip10 101 ∧ cli_gateway (cookie c') = ip10 1 ∧ leases s' !! ip10 101 = Some (demo_mac 7).
Proof.
  destruct (client_gets_address (1000, 7) (1001, 0) od0 od0 (demo_client 7) (demo_server RB_ROOT (ip10 101) (ip10 120)) zeros zeros
    (Iface 0 [] (demo_mac 7) RB_ROOT) (ip10 1) 0xFFFFFF) as (c' & s' & cb' & sb' & r1 & r2 & E & Hst & Ha & Hn & Hg & Hs & Hl & Hm & _).
  - reflexivity.
  - reflexivity.
  - vm_compute. split; [discriminate | reflexivity].
  - reflexivity.
  - reflexivity.
  - reflexivity.
  - reflexivity.
  - split; [split; constructor | exists 0%nat; constructor].
  - vm_compute. split; [discriminate | reflexivity].
  - reflexivity.
  - vm_compute. split; discriminate.
  - reflexivity.
  - reflexivity.
  - split; [reflexivity | reflexivity | reflexivity | unfold u32P, ip10; vm_compute; intuition discriminate | vm_compute; intuition discriminate].
  - exists c', s', cb', sb'. split; [exact E|]. split; [exact Hst|]. split; [rewrite Ha; reflexivity|]. split; [exact Hg|].
    rewrite Hm. vm_compute. reflexivity.
Defined.

(** ** Where the code goes wrong *)

(** [is_options_valid] does not count the bytes with the lengths: on a datagram of
    1472 bytes full of empty options it reads past the buffer. *)
Definition empty_options : list Z := replicate 240 0 ++ mjoin (replicate 616 [DHCPOPT_NETMASK; 0]) ++ replicate 528 0.
Lemma long_options_overrun s : length empty_options = RECV_BUFFER ∧ dhcp_recv od0 empty_options 1472 s = Fault.
Proof. split; [reflexivity|]. vm_compute. reflexivity. Qed.

(** A message type without data: the type is what the stack holds. *)
Lemma empty_type_reads_stack k dn s : length (dn_hwaddr dn) = 6%nat → u32P (dn_ipaddr dn) →
  each_option (server_option k dn) [Opt DHCPOPT_MSGTYPE []] (replicate 20 0) () s = Done () s ∧
  ∃ r, d_sent <$> run_state (each_option (server_option k dn) [Opt DHCPOPT_MSGTYPE []] (replicate 20 DHCP_MSG_REQUEST) ()) s =
    Some (d_sent s ++ [(dn_ipaddr dn, r)]).
Proof.
  intros Hh Hip. split; [reflexivity|]. exists (reply_datagram (settings s) dn DHCP_MSG_ACK). unfold run_state. cbn [each_option]. unfold server_option.
  assert (zget (take 20 [] ++ drop (length (@nil Z)) (replicate 20 DHCP_MSG_REQUEST)) 0 = Some DHCP_MSG_REQUEST) as -> by done.
  unfold mbind, M_bind, deref, mret, M_ret. cbv beta iota. cbn [Z.eqb Pos.eqb DHCPOPT_MSGTYPE DHCP_MSG_REQUEST DHCP_MSG_DISCOVER]. cbv beta iota.
  rewrite make_reply_done by done. done.
Qed.

(** A client that is known by an address outside of the pool is never answered. *)
Definition known_outside : rb_tree := Node RB_BLACK Leaf (ArpEntry (ip10 7) (demo_mac 8)) Leaf.
Lemma known_client_not_answered : d_sent (after_message 8 DHCP_MSG_DISCOVER (demo_server known_outside (ip10 101) (ip10 120))) = [].
Proof. vm_compute. reflexivity. Qed.

(** An address of the pool that a neighbour uses is given away, and the neighbour's
    entry in the ARP table is overwritten. *)
Definition used_address : rb_tree := Node RB_BLACK Leaf (ArpEntry (ip10 101) (demo_mac 50)) Leaf.
Lemma used_address_offered : let s := after_message 8 DHCP_MSG_DISCOVER (demo_server used_address (ip10 101) (ip10 120)) in
  (fst <$> d_sent s) = [ip10 101] ∧ leases s !! ip10 101 = Some (demo_mac 8).
Proof. vm_compute. done. Qed.

(** When the pool is exhausted nothing is offered, but the ARP entries behind its
    end are overwritten all the same. *)
Definition behind_pool : rb_tree := Node RB_BLACK Leaf (ArpEntry (ip10 102) (demo_mac 50)) Leaf.
Lemma pool_end_overrun : let s := after_message 9 DHCP_MSG_DISCOVER (after_message 8 DHCP_MSG_DISCOVER (demo_server behind_pool (ip10 101) (ip10 101))) in
  (fst <$> d_sent s) = [ip10 101] ∧ leases s !! ip10 102 = Some (demo_mac 9).
Proof. vm_compute. done. Qed.

(** The search by MAC address misses entries inside of the tree: with five leases a
    client that begins a new transaction gets a second address. *)
Definition demo_five : dhcpd :=
  foldl (λ s n, after_message n DHCP_MSG_DISCOVER s) (demo_server RB_ROOT (ip10 101) (ip10 120)) [1; 2; 3; 4; 5].
Lemma lease_not_found : leases demo_five !! ip10 103 = Some (demo_mac 3) ∧
  (dn_ipaddr <$> match new_negotiation 77 (demo_mac 3) demo_five with Done dn _ => Some dn | _ => None end) = Some (ip10 106).
Proof. vm_compute. done. Qed.

(** [vder_udpsocket_recvfrom] does not set [from_ip]: what the variable holds decides
    whether datagrams are served at all. *)
Lemma from_ip_decides od from_ip from_port buffer len s : from_ip ≠ 0 → 0 ≤ len → dhcp_server_turn od from_ip from_port buffer len s = Done true s.
Proof.
  intros Hf Hl. unfold dhcp_server_turn. destruct (Z.ltb_spec len 0); [lia|]. by rewrite (proj2 (Z.eqb_neq _ _) Hf).
Qed.

(** An interface that waits for DHCP has the address 255.255.255.255: its removal,
    when the client has its lease, uses memory that was freed. *)
Lemma ack_uses_freed od r c v : cli_state (cookie c) = DHCPSTATE_ACK → iflist (cli_router c) !! cli_iface (cookie c) = Some v →
  existsb (λ a, address a =? 0xFFFFFFFF) (address_list v) = true → client_answer od r c = Fault.
Proof.
  intros Est Hv Hex. unfold client_answer. unfold mbind at 1, M_bind at 1, gets. rewrite Est. bind1. unfold change_router, vder_iface_address_del.
  unfold mbind, M_bind, get. cbv beta iota. rewrite Hv. cbn [option_bind]. rewrite Hex. done.
Qed.
