(* ===== verification/IpnHash.v ===== *)
(** * IpnHash: the address table of the kernel switch

    [src/ipn/kvde_switch/ipn_hash.c].  An element is in the chain of its hash
    value and in the list [lrulist], in the order in which the addresses were last
    seen; both lists hold the names of the elements, which [elems] maps to their
    contents.  The time is that of [jiffies].  Allocation succeeds, and the lock
    makes each function one step.

    The theorem: the table is the finite map from addresses to their last port and
    the time they expire; and an address that has expired is removed by the
    first run of the timer after that, which is due no later. *)
From Stdlib Require Import Lia.
From stdpp Require Import base numbers list gmap sorting fin_maps.
From S2P Require Import Prelude.

(** ** Data *)

Definition hkey : Type := Z * Z * Z * Z.
Record ipn_hash_elem := HElem { h_key : hkey; h_port : Z; expiretime : Z }.
(** [hashtimer] is the time at which the timer runs, when it is pending. *)
Record ipn_hash := IpnHash {
  hashtable : list (list nat); lrulist : list nat; mask : Z; timeout : Z; hashtimer : option Z;
  elems : gmap nat ipn_hash_elem; next_elem : nat }.

Definition s64 (z : Z) : Z := (z + 2 ^ 63) mod 2 ^ 64 - 2 ^ 63.
#[global] Arguments s64 : simpl never.

(** ** Operations *)

Fixpoint po2_loop (fuel : nat) (x rv : Z) : Z :=
  match fuel with
  | O => rv
  | S fuel => if x =? 0 then rv else po2_loop fuel (Z.shiftr x 1) (i32 (Z.shiftl rv 1))
  end.
(** 32 turns shift every positive [int] to 0. *)
Definition po2round (vx : Z) : Z := po2_loop 32 (vx - 1) 1.

Definition hashfun (key : Z * Z * Z) (vlan mask : Z) : Z :=
  let '(k0, k1, k2) := key in
  let x := i32 (k0 * 0x03050000 + k1 * 0x0709 + k2 * 0x0b0d0000 + vlan * 0x1113) in
  Z.land (Z.lxor (Z.lxor (Z.lxor x (Z.shiftr x 12)) (Z.shiftr x 8)) (Z.shiftr x 4)) mask.

(** [None] is [-EINVAL]; [hz] is the kernel's [HZ]. *)
Definition ipn_hash_new (hz size timeout : Z) : option ipn_hash :=
  if (size <=? 0) || (timeout <=? 0) then None
  else Some (IpnHash (replicate (Z.to_nat size) []) [] (po2round size - 1) (timeout * hz) None ∅ 0).

Definition upd_timer (t : option Z) (h : ipn_hash) : ipn_hash :=
  IpnHash (hashtable h) (lrulist h) (mask h) (timeout h) t (elems h) (next_elem h).
(** [list_del] and [hlist_del]. *)
Definition unlink (i : nat) (h : ipn_hash) : ipn_hash :=
  IpnHash (filter (λ j, j ≠ i) <$> hashtable h) (filter (λ j, j ≠ i) (lrulist h)) (mask h) (timeout h) (hashtimer h) (elems h) (next_elem h).
Definition free_elem (i : nat) (h : ipn_hash) : ipn_hash :=
  let h := unlink i h in
  IpnHash (hashtable h) (lrulist h) (mask h) (timeout h) (hashtimer h) (delete i (elems h)) (next_elem h).
Definition elem_at (i : nat) : M ipn_hash ipn_hash_elem := h ← get; deref (elems h !! i).

(** The loops over [lrulist] that delete what [test] selects. *)
Definition flush_loop (test : ipn_hash_elem → bool) : M ipn_hash () :=
  h ← get;
  forM (lrulist h) (λ i, e ← elem_at i; whenM (test e) (modify (free_elem i))).
Definition ipn_hash_flush : M ipn_hash () := flush_loop (λ _, true).
(** [None] is a NULL pointer. *)
Definition ipn_hash_flush_key (key : option (Z * Z * Z)) (vlan : option Z) : M ipn_hash () :=
  flush_loop (λ e, let '(k0, k1, k2, k3) := h_key e in
    (match key with None => true | Some (a, b, c) => (k0 =? a) && (k1 =? b) && (k2 =? c) end) ||
    (match vlan with None => true | Some v => k3 =? v end)).
Definition ipn_hash_flush_port (port : Z) : M ipn_hash () := flush_loop (λ e, h_port e =? port).

Fixpoint expire_loop (jiffies : Z) (l : list nat) : M ipn_hash () :=
  match l with
  | [] => mret ()
  | i :: l =>
    e ← elem_at i;
    let next := s64 (expiretime e - jiffies) in
    if next <? 0 then modify (free_elem i) ;; expire_loop jiffies l
    else modify (upd_timer (Some (u64 (jiffies + next))))
  end.
(** A timer that runs is no longer pending. *)
Definition ipn_hash_timer_expired (jiffies : Z) : M ipn_hash () :=
  modify (upd_timer None) ;;
  h ← get;
  expire_loop jiffies (lrulist h).

(** The search in a chain. *)
Fixpoint chain_find (key : hkey) (l : list nat) : M ipn_hash (option nat) :=
  match l with
  | [] => mret None
  | i :: l =>
    e ← elem_at i;
    if bool_decide (h_key e = key) then mret (Some i) else chain_find key l
  end.

(** [list_add_tail] and [hlist_add_head], with the contents of the element. *)
Definition link (hashvalue : Z) (i : nat) (e : ipn_hash_elem) (h : ipn_hash) : ipn_hash :=
  IpnHash (alter (cons i) (Z.to_nat hashvalue) (hashtable h)) (lrulist h ++ [i]) (mask h) (timeout h) (hashtimer h)
    (<[i := e]> (elems h)) (next_elem h).
Definition alloc_elem (h : ipn_hash) : ipn_hash :=
  IpnHash (hashtable h) (lrulist h) (mask h) (timeout h) (hashtimer h) (elems h) (S (next_elem h)).
Definition ipn_hash_add (jiffies : Z) (key : Z * Z * Z) (vlan port : Z) : M ipn_hash () :=
  h ← get;
  let hashvalue := hashfun key vlan (mask h) in
  chain ← deref (zget (hashtable h) hashvalue);
  found ← chain_find (key, vlan) chain;
  elem ← match found with
         | Some i => modify (unlink i) ;; mret (Some i)
         | None => if 0 <? timeout h then modify alloc_elem ;; mret (Some (next_elem h)) else mret None
         end;
  match elem with
  | None => mret ()
  | Some i =>
    modify (link hashvalue i (HElem (key, vlan) port (u64 (jiffies + timeout h)))) ;;
    h ← get;
    whenM (match hashtimer h with None => true | Some _ => false end) (modify (upd_timer (Some (u64 (jiffies + timeout h)))))
  end.

Definition ipn_hash_find (key : Z * Z * Z) (vlan : Z) : M ipn_hash Z :=
  h ← get;
  let hashvalue := hashfun key vlan (mask h) in
  chain ← deref (zget (hashtable h) hashvalue);
  found ← chain_find (key, vlan) chain;
  match found with
  | Some i => e ← elem_at i; mret (h_port e)
  | None => mret (-1)
  end.

(** ** The invariant *)

Definition bucket (m : Z) (k : hkey) : Z := hashfun k.1 k.2 m.
Definition expiry (es : gmap nat ipn_hash_elem) (i : nat) : Z := default 0 (expiretime <$> es !! i).

(** [t] is the time of the last operation. *)
Record hash_wf (t : Z) (h : ipn_hash) : Prop := {
  hi_size : ∃ b, 0 ≤ b ≤ 30 ∧ mask h = 2 ^ b - 1 ∧ Z.of_nat (length (hashtable h)) = 2 ^ b;
  hi_nodup : NoDup (lrulist h);
  hi_lru : ∀ i, i ∈ lrulist h ↔ is_Some (elems h !! i);
  hi_chain : ∀ v l, hashtable h !! v = Some l → ∀ i, i ∈ l ↔ ∃ e, elems h !! i = Some e ∧ bucket (mask h) (h_key e) = Z.of_nat v;
  hi_keys : ∀ i j e e', elems h !! i = Some e → elems h !! j = Some e' → h_key e = h_key e' → i = j;
  hi_next : ∀ i, is_Some (elems h !! i) → (i < next_elem h)%nat;
  hi_sorted : StronglySorted Z.le (expiry (elems h) <$> lrulist h);
  hi_time : ∀ i e, elems h !! i = Some e → 0 ≤ expiretime e ≤ t + timeout h;
  hi_due : ∀ d, hashtimer h = Some d → d ≤ t + timeout h
}.
(** The timer runs before anything expires. *)
Definition timer_ok (h : ipn_hash) : Prop := ∀ i e, elems h !! i = Some e → ∃ d, hashtimer h = Some d ∧ d ≤ expiretime e.

(** The map the table stands for. *)
Definition entry (e : ipn_hash_elem) : hkey * (Z * Z) := (h_key e, (h_port e, expiretime e)).
Definition htable (h : ipn_hash) : gmap hkey (Z * Z) := list_to_map ((λ ie, entry ie.2) <$> map_to_list (elems h)).

Lemma htable_lookup t h k v : hash_wf t h → htable h !! k = Some v ↔ ∃ i e, elems h !! i = Some e ∧ entry e = (k, v).
Proof.
  intros H. unfold htable. rewrite <- elem_of_list_to_map.
  - rewrite list_elem_of_fmap. split.
    + intros ([i e] & E & Hin%elem_of_map_to_list). eauto.
    + intros (i & e & Hi & E). exists (i, e). split; [done | by apply elem_of_map_to_list].
  - rewrite <- list_fmap_compose. apply NoDup_fmap_2_strong; [|apply NoDup_map_to_list].
    intros [i e] [j e'] Hi%elem_of_map_to_list Hj%elem_of_map_to_list E. cbn in E.
    assert (i = j) as <- by (by eapply (hi_keys _ _ H)). rewrite Hi in Hj. by injection Hj as <-.
Qed.

(** The table is determined by the elements. *)
Lemma htable_filter t t' h h' (P : ipn_hash_elem → Prop) (Q : hkey * (Z * Z) → Prop) `{!∀ x, Decision (Q x)} :
  hash_wf t h → hash_wf t' h' → (∀ i e, elems h' !! i = Some e ↔ elems h !! i = Some e ∧ P e) → (∀ e, P e ↔ Q (entry e)) →
  htable h' = filter Q (htable h).
Proof.
  intros Hh Hh' Hel HPQ. apply map_eq. intros k. apply option_eq. intros v. rewrite map_lookup_filter_Some, !(htable_lookup _ _ _ _ Hh), (htable_lookup _ _ _ _ Hh').
  split.
  - intros (i & e & [Hi Hp]%Hel & E). split; [eauto|]. rewrite <- E. by apply HPQ.
  - intros ((i & e & Hi & E) & Hq). exists i, e. split; [|done]. apply Hel. split; [done|]. apply HPQ. by rewrite E.
Qed.

Lemma land_ones_range x b : 0 ≤ b → 0 ≤ Z.land x (2 ^ b - 1) < 2 ^ b.
Proof.
  intros Hb. replace (2 ^ b - 1) with (Z.ones b) by (rewrite Z.ones_equiv; lia). rewrite Z.land_ones by done.
  apply Z.mod_pos_bound. lia.
Qed.
Lemma hash_chain t h key vlan : hash_wf t h → ∃ l, zget (hashtable h) (hashfun key vlan (mask h)) = Some l ∧
  hashtable h !! Z.to_nat (hashfun key vlan (mask h)) = Some l ∧ 0 ≤ hashfun key vlan (mask h).
Proof.
  intros H. destruct (hi_size _ _ H) as (b & Hb & Em & El). assert (0 ≤ hashfun key vlan (mask h) < 2 ^ b) as Hr.
  { unfold hashfun. destruct key as [[k0 k1] k2]. rewrite Em. apply land_ones_range. lia. }
  destruct (zget_is_Some (hashtable h) (hashfun key vlan (mask h))) as [l Hl]; [lia|]. exists l. split_and!; [done | | lia].
  by apply zget_Some in Hl as [_ ?].
Qed.

(** The search gives the element with the address. *)
Lemma chain_find_spec k h l : (∀ i, i ∈ l → is_Some (elems h !! i)) →
  ∃ r, chain_find k l h = Done r h ∧
    match r with
    | Some i => i ∈ l ∧ ∃ e, elems h !! i = Some e ∧ h_key e = k
    | None => ∀ i e, i ∈ l → elems h !! i = Some e → h_key e ≠ k
    end.
Proof.
  induction l as [|i l IH]; intros Hl; cbn [chain_find]; [exists None; split; [done | set_solver]|].
  destruct (Hl i) as [e He]; [set_solver|]. unfold mbind, M_bind, elem_at. unfold mbind, M_bind, get. rewrite He. cbn [deref mret M_ret].
  case_bool_decide as Hk; [exists (Some i); split; [done|]; split; [set_solver | eauto]|].
  destruct IH as (r & E & Hr); [set_solver|]. exists r. split; [done|]. destruct r as [j|].
  - destruct Hr as [Hj ?]. split; [set_solver | done].
  - intros j e' [-> | Hj]%elem_of_cons Hje; [rewrite He in Hje; by injection Hje as <- | by eapply Hr].
Qed.

Lemma find_spec t h key vlan : hash_wf t h →
  ∃ l r, zget (hashtable h) (hashfun key vlan (mask h)) = Some l ∧ chain_find (key, vlan) l h = Done r h ∧
    match r with
    | Some i => ∃ e, elems h !! i = Some e ∧ h_key e = (key, vlan)
    | None => ∀ i e, elems h !! i = Some e → h_key e ≠ (key, vlan)
    end.
Proof.
  intros H. destruct (hash_chain t h key vlan H) as (l & Ez & El & Hr). pose proof (hi_chain _ _ H _ _ El) as Hc. rewrite Z2Nat.id in Hc by done.
  destruct (chain_find_spec (key, vlan) h l) as (r & E & Hs); [intros i (e & He & _)%Hc; eauto|].
  exists l, r. split_and!; [done | done|]. destruct r as [i|]; [by destruct Hs as [_ ?]|].
  intros i e He Hk. apply (Hs i e); [|done | done]. apply Hc. exists e. split; [done|]. unfold bucket. by rewrite Hk.
Qed.

Lemma ipn_hash_find_spec t h key vlan : hash_wf t h →
  ipn_hash_find key vlan h = Done (match htable h !! (key, vlan) with Some (p, _) => p | None => -1 end) h.
Proof.
  intros H. destruct (find_spec t h key vlan H) as (l & r & Ez & Ef & Hr). unfold ipn_hash_find. unfold mbind at 1, M_bind at 1, get. cbv zeta.
  rewrite Ez. unfold mbind at 1, M_bind at 1. cbn [deref mret M_ret]. unfold mbind at 1, M_bind at 1. rewrite Ef. destruct r as [i|].
  - destruct Hr as (e & He & Hk). unfold mbind, M_bind, elem_at. unfold mbind, M_bind, get. rewrite He. cbn [deref mret M_ret].
    assert (htable h !! (key, vlan) = Some (h_port e, expiretime e)) as ->; [|done].
    apply (htable_lookup t); [done|]. exists i, e. unfold entry. by rewrite Hk.
  - assert (htable h !! (key, vlan) = None) as ->; [|done]. apply eq_None_not_Some. intros [v (i & e & He & E)%(htable_lookup t)]; [|done].
    injection E as Ek _. by eapply Hr.
Qed.

(** ** Deletion *)

Lemma sorted_filter {A} (f : A → Z) (P : A → Prop) `{!∀ x, Decision (P x)} l : StronglySorted Z.le (f <$> l) → StronglySorted Z.le (f <$> filter P l).
Proof.
  induction l as [|x l IH]; [done|]. rewrite fmap_cons. intros [Hx Hl]%StronglySorted_cons. rewrite filter_cons. case_decide; [|by apply IH].
  rewrite fmap_cons. constructor; [by apply IH|]. rewrite Forall_fmap, Forall_forall in *. intros y [_ Hy]%list_elem_of_filter. by apply Hx.
Qed.
Lemma expiry_ext (es es' : gmap nat ipn_hash_elem) (l : list nat) : (∀ i, i ∈ l → es !! i = es' !! i) → expiry es <$> l = expiry es' <$> l.
Proof. intros H. apply list_fmap_ext. intros k i Hi. unfold expiry. rewrite H; [done|]. by eapply list_elem_of_lookup_2. Qed.

Lemma free_wf t h i : hash_wf t h → hash_wf t (free_elem i h).
Proof.
  intros H. destruct H as [Hsz Hnd Hlru Hch Hk Hn Hs Ht Hd].
  assert (∀ j e, delete i (elems h) !! j = Some e ↔ j ≠ i ∧ elems h !! j = Some e) as Hel by (intros j e; rewrite lookup_delete_Some; naive_solver).
  split; cbn [free_elem unlink hashtable lrulist mask timeout hashtimer elems next_elem].
  - destruct Hsz as (b & Hb & Em & El). exists b. rewrite length_fmap. done.
  - by apply NoDup_filter.
  - intros j. rewrite list_elem_of_filter, Hlru. unfold is_Some. setoid_rewrite Hel. naive_solver.
  - intros v l Hl j. rewrite list_lookup_fmap in Hl. destruct (hashtable h !! v) as [l'|] eqn:E; [|done]. injection Hl as <-.
    rewrite list_elem_of_filter, (Hch v l' E). setoid_rewrite Hel. naive_solver.
  - intros j j' e e' [_ Hj]%Hel [_ Hj']%Hel. by apply Hk.
  - intros j [e [_ Hj]%Hel]. eauto.
  - rewrite (expiry_ext _ (elems h)); [by apply sorted_filter|]. intros j [Hj _]%list_elem_of_filter. by rewrite lookup_delete_ne.
  - intros j e [_ Hj]%Hel. eauto.
  - done.
Qed.

Lemma filter_other (l : list nat) i : i ∉ l → filter (λ j, j ≠ i) l = l.
Proof.
  induction l as [|j l IH]; [done|]. intros [Hj Hl]%not_elem_of_cons. rewrite filter_cons, decide_True by done. by rewrite IH.
Qed.

(** A state in which only elements are gone. *)
Record less (h h' : ipn_hash) : Prop := {
  l_mask : mask h' = mask h;
  l_timeout : timeout h' = timeout h;
  l_timer : hashtimer h' = hashtimer h
}.

Lemma flush_loop_spec test t h : hash_wf t h →
  ∃ h', flush_loop test h = Done () h' ∧ hash_wf t h' ∧ less h h' ∧ ∀ i e, elems h' !! i = Some e ↔ elems h !! i = Some e ∧ test e = false.
Proof.
  intros H. unfold flush_loop. unfold mbind at 1, M_bind at 1, get.
  assert (∀ l h1, hash_wf t h1 → NoDup l → (∀ i, i ∈ l → is_Some (elems h1 !! i)) →
    ∃ h', forM l (λ i, e ← elem_at i; whenM (test e) (modify (free_elem i))) h1 = Done () h' ∧ hash_wf t h' ∧ less h1 h' ∧
      ∀ i e, elems h' !! i = Some e ↔ elems h1 !! i = Some e ∧ (i ∈ l → test e = false)) as Hloop.
  { induction l as [|i l IH]; intros h1 H1 Hnd Hl; [exists h1; split_and!; [done | done | done | set_solver]|].
    apply NoDup_cons in Hnd as [Hi Hnd]. destruct (Hl i) as [e He]; [set_solver|]. cbn [forM]. unfold mbind at 1, M_bind at 1. unfold elem_at.
    unfold mbind at 1 2, M_bind at 1 2, get. rewrite He. cbn [deref mret M_ret]. unfold whenM.
    destruct (test e) eqn:Et.
    - unfold modify. destruct (IH (free_elem i h1)) as (h' & E & Hw & [L1 L2 L3] & Hel); [by apply free_wf | done | |].
      { intros j Hj. cbn. rewrite lookup_delete_ne by set_solver. apply Hl. set_solver. }
      exists h'. split_and!; [done | done | done|]. intros j e'. rewrite Hel. cbn [free_elem unlink elems]. rewrite lookup_delete_Some, elem_of_cons.
      split; [naive_solver|]. intros [Hj Ht]. split; [|naive_solver]. split; [|done]. intros <-. rewrite He in Hj. injection Hj as <-. rewrite Ht in Et; naive_solver.
    - destruct (IH h1) as (h' & E & Hw & L & Hel); [done | done | set_solver |]. exists h'. split_and!; [done | done | done|].
      intros j e'. rewrite Hel, elem_of_cons. split; [|naive_solver]. intros [Hj Ht]. split; [done|]. intros [-> | Hj']; [congruence | auto]. }
  destruct (Hloop (lrulist h) h H (hi_nodup _ _ H)) as (h' & E & Hw & L & Hel); [intros i Hi; by apply (hi_lru _ _ H)|].
  exists h'. split_and!; [done | done | done|]. intros i e. rewrite Hel. split; [|naive_solver].
  intros [Hi Ht]. split; [done|]. apply Ht. apply (hi_lru _ _ H). eauto.
Qed.

Lemma wf_mono t t' h : t ≤ t' → hash_wf t h → hash_wf t' h.
Proof.
  intros Ht [H1 H2 H3 H4 H5 H6 H7 H8 H9]. split; [done..| |]; [intros i e Hi; specialize (H8 i e Hi); lia | intros d Hd; specialize (H9 d Hd); lia].
Qed.
Lemma upd_timer_wf t h d : hash_wf t h → (∀ x, d = Some x → x ≤ t + timeout h) → hash_wf t (upd_timer d h).
Proof. intros [H1 H2 H3 H4 H5 H6 H7 H8 H9] Hd. split; done. Qed.

Lemma s64_small z : - 2 ^ 63 ≤ z < 2 ^ 63 → s64 z = z.
Proof. intros Hz. unfold s64. rewrite Z.mod_small; lia. Qed.

(** The loop of the timer removes what has expired and nothing else. *)
Lemma expire_loop_spec t now l : t ≤ now → 0 ≤ now < 2 ^ 63 → ∀ h, hash_wf t h → lrulist h = l → hashtimer h = None → t + timeout h < 2 ^ 63 →
  ∃ h', expire_loop now l h = Done () h' ∧ hash_wf now h' ∧ timer_ok h' ∧ mask h' = mask h ∧ timeout h' = timeout h ∧
    ∀ i e, elems h' !! i = Some e ↔ elems h !! i = Some e ∧ now ≤ expiretime e.
Proof.
  intros Htn Hnow. induction l as [|i l IH]; intros h H El Etm Hb; cbn [expire_loop].
  - assert (∀ i e, elems h !! i ≠ Some e) as Hno.
    { intros i e Hi. assert (i ∈ lrulist h) as Hin by (apply (hi_lru _ _ H); eauto). rewrite El in Hin. by apply elem_of_nil in Hin. }
    exists h. split_and!; [done | by apply (wf_mono t) | intros i e Hi; by destruct (Hno i e) | done | done|].
    intros i e. split; [intros Hi; by destruct (Hno i e) | by intros [? _]].
  - destruct (proj1 (hi_lru _ _ H i)) as [e He]; [rewrite El; set_solver|]. pose proof (hi_time _ _ H i e He) as Hte.
    unfold mbind at 1, M_bind at 1, elem_at. unfold mbind at 1, M_bind at 1, get. rewrite He. cbn [deref mret M_ret]. cbv zeta.
    rewrite s64_small by lia. pose proof (hi_nodup _ _ H) as Hnd. rewrite El in Hnd. apply NoDup_cons in Hnd as [Hil Hnd].
    destruct (Z.ltb_spec (expiretime e - now) 0) as [Hlt|Hge].
    + unfold mbind at 1, M_bind at 1, modify. destruct (IH (free_elem i h)) as (h' & E & Hw & Hok & Em & Eto & Hel); [by apply free_wf | | done | done |].
      { cbn [free_elem unlink lrulist]. rewrite El, filter_cons, decide_False by naive_solver.
        by apply filter_other. }
      exists h'. split_and!; [done..|]. intros j e'. rewrite Hel. cbn [free_elem unlink elems]. rewrite lookup_delete_Some. split; [naive_solver|].
      intros [Hj Hle]. split_and!; [|done | done]. intros <-. rewrite He in Hj. injection Hj as <-. lia.
    + unfold modify. replace (now + (expiretime e - now)) with (expiretime e) by lia. rewrite u64_small by lia.
      pose proof (hi_sorted _ _ H) as Hs. rewrite El, fmap_cons in Hs. apply StronglySorted_cons in Hs as [Hs _]. rewrite Forall_fmap, Forall_forall in Hs.
      assert (∀ j e', elems h !! j = Some e' → expiretime e ≤ expiretime e') as Hmin.
      { intros j e' Hj. assert (j ∈ lrulist h) as Hin by (apply (hi_lru _ _ H); eauto). rewrite El in Hin. apply elem_of_cons in Hin as [-> | Hin].
        - rewrite He in Hj. by injection Hj as <-.
        - specialize (Hs j Hin). cbn in Hs. unfold expiry in Hs. rewrite He, Hj in Hs. done. }
      exists (upd_timer (Some (expiretime e)) h). split_and!; [done | | | done | done|].
      * apply (wf_mono t); [done|]. apply upd_timer_wf; [done|]. intros x [= <-]. lia.
      * intros j e' Hj. exists (expiretime e). split; [done|]. by apply (Hmin j).
      * intros j e'. cbn [upd_timer elems]. split; [|naive_solver]. intros Hj. split; [done|]. specialize (Hmin j e' Hj). lia.
Qed.

(** ** Learning *)

Lemma link_wf t h i e : hash_wf t h → elems h !! i = None → (i < next_elem h)%nat → (∀ j e', elems h !! j = Some e' → h_key e' ≠ h_key e) →
  expiretime e = t + timeout h → 0 ≤ expiretime e → 0 ≤ bucket (mask h) (h_key e) → hash_wf t (link (bucket (mask h) (h_key e)) i e h).
Proof.
  intros H Hi Hlt Hnew Ex H0 Hbk. destruct H as [Hsz Hnd Hlru Hch Hk Hn Hs Ht Hd].
  assert (i ∉ lrulist h) as Hil by (rewrite Hlru, Hi; by intros [? ?]).
  assert (∀ j e', <[i := e]> (elems h) !! j = Some e' ↔ (j = i ∧ e' = e) ∨ (j ≠ i ∧ elems h !! j = Some e')) as Hel
    by (intros j e'; rewrite lookup_insert_Some; naive_solver).
  split; cbn [link hashtable lrulist mask timeout hashtimer elems next_elem].
  - by rewrite length_alter.
  - apply NoDup_app. split_and!; [done | set_solver | apply NoDup_singleton].
  - intros j. rewrite elem_of_app, list_elem_of_singleton, Hlru. unfold is_Some. setoid_rewrite Hel. destruct (decide (j = i)) as [->|]; naive_solver.
  - intros v l Hl j. setoid_rewrite Hel. destruct (decide (v = Z.to_nat (bucket (mask h) (h_key e)))) as [->|Hv].
    + rewrite list_lookup_alter_eq in Hl. destruct (hashtable h !! _) as [l'|] eqn:E; [|done]. injection Hl as <-.
      rewrite elem_of_cons, (Hch _ l' E). rewrite Z2Nat.id by done. split; [|naive_solver].
      intros [-> | (e' & Hj & Hb)]; [naive_solver|]. exists e'. split; [|done]. right. split; [|done]. intros ->. congruence.
    + rewrite list_lookup_alter_ne in Hl by done. rewrite (Hch _ l Hl). split; [|].
      * intros (e' & Hj & Hb). exists e'. split; [|done]. right. split; [|done]. intros ->. congruence.
      * intros (e' & [[-> ->] | [_ Hj]] & Hb); [|eauto]. destruct Hv. rewrite Hb. by rewrite Nat2Z.id.
  - intros j j' e1 e2 [[-> ->] | [Hj1 Hj]]%Hel [[-> ->] | [Hj2 Hj']]%Hel Ek; [done | by destruct (Hnew _ _ Hj') | by destruct (Hnew _ _ Hj) | by eapply Hk].
  - intros j [e' [[-> ->] | [_ Hj]]%Hel]; [done | eauto].
  - rewrite fmap_app. cbn [fmap list_fmap]. apply StronglySorted_app. rewrite (expiry_ext _ (elems h)) by (intros j Hj; rewrite lookup_insert_ne; [done | by intros ->]).
    split_and!; [|done | repeat constructor]. intros x y Hx Hy. apply list_elem_of_singleton in Hy as ->. apply list_elem_of_fmap in Hx as (j & -> & Hj).
    unfold expiry. rewrite lookup_insert_eq. cbn. apply Hlru in Hj as [e' Hj]. rewrite Hj. cbn. specialize (Ht j e' Hj). lia.
  - intros j e' [[-> ->] | [_ Hj]]%Hel; [lia | eauto].
  - done.
Qed.

(** A new element in a table [h1] that lacks the address only. *)
Lemma learn_elem t h h1 now i key vlan port : hash_wf t h → timer_ok h → hash_wf now h1 → less h h1 → elems h1 !! i = None → (i < next_elem h1)%nat →
  (∀ j e, elems h1 !! j = Some e ↔ elems h !! j = Some e ∧ h_key e ≠ (key, vlan)) →
  t ≤ now → 0 ≤ now → 0 ≤ timeout h → now + timeout h < 2 ^ 63 → let d := u64 (now + timeout h) in
  let h2 := link (hashfun key vlan (mask h)) i (HElem (key, vlan) port d) h1 in
  let h3 := match hashtimer h2 with None => upd_timer (Some d) h2 | Some _ => h2 end in
  hash_wf now h3 ∧ timer_ok h3 ∧ mask h3 = mask h ∧ timeout h3 = timeout h ∧ htable h3 = <[(key, vlan) := (port, now + timeout h)]> (htable h).
Proof.
  intros H Hok H1 [Em Eto Etm] Hi Hlt Hel Ht Hn Hto Hb d. assert (d = now + timeout h) as Ed by (unfold d; rewrite u64_small; lia). clearbody d. subst d.
  set (e := HElem (key, vlan) port (now + timeout h)). intros h2 h3.
  assert (hash_wf now h2) as H2.
  { unfold h2. rewrite <- Em. apply (link_wf now h1 i e); [done | done | done | | cbn; lia | cbn; lia |].
    - intros j e' [_ Hne]%Hel. done.
    - destruct (hash_chain now h1 key vlan H1) as (_ & _ & _ & ?). done. }
  assert (∀ j e', elems h2 !! j = Some e' ↔ (j = i ∧ e' = e) ∨ (elems h !! j = Some e' ∧ h_key e' ≠ (key, vlan))) as Hel2.
  { intros j e'. cbn [h2 link elems]. rewrite lookup_insert_Some, Hel. split; [naive_solver|]. intros [[-> ->] | Hj]; [by left|].
    right. split; [|done]. intros <-. apply Hel in Hj. congruence. }
  assert (hashtimer h2 = hashtimer h) as Etm2 by done.
  assert (hash_wf now h3 ∧ timer_ok h3 ∧ elems h3 = elems h2 ∧ mask h3 = mask h ∧ timeout h3 = timeout h) as (H3 & Hok3 & Eel & ? & ?).
  { unfold h3. rewrite Etm2. destruct (hashtimer h) as [x|] eqn:Ex.
    - split_and!; [done | | done | done | done]. intros j e' [[-> ->] | [Hj _]]%Hel2.
      + exists x. split; [by rewrite Etm2|]. cbn. pose proof (hi_due _ _ H x Ex). lia.
      + destruct (Hok j e' Hj) as (y & Ey & Hy). exists y. split; [|done]. by rewrite Etm2, <- Ex.
    - split_and!; [| | done | done | done]; [apply upd_timer_wf; [done|]; intros y [= <-]; cbn [h2 link timeout]; lia|].
      intros j e' [[-> ->] | [Hj _]]%Hel2; [by exists (now + timeout h)|]. destruct (Hok j e' Hj) as (y & Ey & _). congruence. }
  split_and!; [done..|]. apply map_eq. intros k. apply option_eq. intros v. rewrite (htable_lookup _ _ _ _ H3), Eel. setoid_rewrite Hel2.
  rewrite lookup_insert_Some, (htable_lookup _ _ _ _ H). split.
  - intros (j & e' & [[-> ->] | [Hj Hk]] & E); [left; by injection E as <- <-|]. right. split; [injection E as <- _; naive_solver | eauto].
  - intros [[<- <-] | [Hk (j & e' & Hj & E)]]; [exists i, e; split; [by left | done]|]. exists j, e'. split; [|done]. right. split; [done|].
    injection E as <- _. naive_solver.
Qed.

Lemma ipn_hash_add_spec t h now key vlan port : hash_wf t h → timer_ok h → t ≤ now → 0 ≤ now → 0 < timeout h → now + timeout h < 2 ^ 63 →
  ∃ h', ipn_hash_add now key vlan port h = Done () h' ∧ hash_wf now h' ∧ timer_ok h' ∧ mask h' = mask h ∧ timeout h' = timeout h ∧
    htable h' = <[(key, vlan) := (port, now + timeout h)]> (htable h).
Proof.
  intros H Hok Ht Hn Hto Hb. destruct (find_spec t h key vlan H) as (l & r & Ez & Ef & Hr). pose proof (wf_mono _ _ _ Ht H) as Hnow.
  unfold ipn_hash_add. unfold mbind at 1, M_bind at 1, get. cbv zeta. rewrite Ez. unfold mbind at 1, M_bind at 1. cbn [deref mret M_ret].
  unfold mbind at 1, M_bind at 1. rewrite Ef.
  set (hv := hashfun key vlan (mask h)). set (d := u64 (now + timeout h)).
  assert (∀ i h1, ∃ h', (modify (link hv i (HElem (key, vlan) port d)) ;;
      h ← get; whenM (match hashtimer h with None => true | Some _ => false end) (modify (upd_timer (Some (u64 (now + timeout h)))))) h1 = Done () h' ∧
      h' = let h2 := link hv i (HElem (key, vlan) port d) h1 in match hashtimer h2 with None => upd_timer (Some (u64 (now + timeout h1))) h2 | Some _ => h2 end) as Htail.
  { intros i h1. eexists. split; [|done]. unfold mbind, M_bind, modify, get, whenM. cbn [link hashtimer timeout]. by destruct (hashtimer h1). }
  destruct r as [i|].
  - destruct Hr as (e & He & Hk). unfold mbind at 1, M_bind at 1. unfold mbind at 1, M_bind at 1, modify at 1. cbn [mret M_ret].
    destruct (Htail i (unlink i h)) as (h' & E & Eh'). exists h'. split; [exact E|].
    assert (∀ x, link hv i x (unlink i h) = link hv i x (free_elem i h)) as Elink by (intros x; unfold link, free_elem; cbn [unlink elems hashtable lrulist mask timeout hashtimer next_elem]; by rewrite insert_delete_eq).
    rewrite Eh'. rewrite Elink. apply (learn_elem t h (free_elem i h)); [done | done | by apply free_wf | done | by apply lookup_delete_eq | apply (hi_next _ _ H); eauto | | done | lia | lia | lia].
    intros j e'. cbn [free_elem unlink elems]. rewrite lookup_delete_Some. split.
    + intros [Hj He']. split; [done|]. intros Hk'. destruct Hj. eapply (hi_keys _ _ H); [done | done | congruence].
    + intros [He' Hk']. split; [|done]. intros <-. congruence.
  - rewrite (proj2 (Z.ltb_lt _ _) Hto). unfold mbind at 1, M_bind at 1. unfold mbind at 1, M_bind at 1, modify at 1. cbn [mret M_ret].
    destruct (Htail (next_elem h) (alloc_elem h)) as (h' & E & Eh'). exists h'. split; [exact E|]. rewrite Eh'.
    assert (elems h !! next_elem h = None) as Hfree by (apply eq_None_not_Some; intros Hs%(hi_next _ _ H); lia).
    apply (learn_elem t h (alloc_elem h)); [done | done | | done | done | cbn; lia | | done | lia | lia | lia].
    + destruct Hnow as [W1 W2 W3 W4 W5 W6 W7 W8 W9]. split; try done. intros j Hj. specialize (W6 j Hj). cbn. lia.
    + intros j e'. cbn [alloc_elem elems]. split; [|naive_solver]. intros Hj. split; [done|]. by eapply Hr.
Qed.

(** ** The table refines a map *)

Inductive hash_op := OpAdd (key : Z * Z * Z) (vlan port : Z) | OpFlush | OpFlushKey (key : option (Z * Z * Z)) (vlan : option Z) | OpFlushPort (port : Z) | OpTimer.
Definition run_op (now : Z) (op : hash_op) : M ipn_hash () :=
  match op with
  | OpAdd key vlan port => ipn_hash_add now key vlan port
  | OpFlush => ipn_hash_flush
  | OpFlushKey key vlan => ipn_hash_flush_key key vlan
  | OpFlushPort port => ipn_hash_flush_port port
  | OpTimer => ipn_hash_timer_expired now
  end.
(** Does the flush of a key keep the address? *)
Definition kept (key : option (Z * Z * Z)) (vlan : option Z) (k : hkey) : bool :=
  negb ((match key with None => true | Some x => bool_decide (k.1 = x) end) || (match vlan with None => true | Some v => k.2 =? v end)).
Definition spec_op (timeout now : Z) (op : hash_op) (m : gmap hkey (Z * Z)) : gmap hkey (Z * Z) :=
  match op with
  | OpAdd key vlan port => <[(key, vlan) := (port, now + timeout)]> m
  | OpFlush => ∅
  | OpFlushKey key vlan => filter (λ kv, kept key vlan kv.1 = true) m
  | OpFlushPort port => filter (λ kv, kv.2.1 ≠ port) m
  | OpTimer => filter (λ kv, now ≤ kv.2.2) m
  end.

Lemma less_timer h h' : less h h' → timer_ok h → (∀ i e, elems h' !! i = Some e → elems h !! i = Some e) → timer_ok h'.
Proof. intros [_ _ E] Hok Hel i e Hi. rewrite E. by apply (Hok i), Hel. Qed.

Lemma flush_spec test (Q : hkey * (Z * Z) → Prop) `{!∀ x, Decision (Q x)} t now h : hash_wf t h → timer_ok h → t ≤ now → (∀ e, test e = false ↔ Q (entry e)) →
  ∃ h', flush_loop test h = Done () h' ∧ hash_wf now h' ∧ timer_ok h' ∧ mask h' = mask h ∧ timeout h' = timeout h ∧ htable h' = filter Q (htable h).
Proof.
  intros Hw Hok Ht HQ. destruct (flush_loop_spec test t h Hw) as (h' & E & Hw' & L & Hel). exists h'. pose proof L as [Em Eto _].
  split_and!; [done | by apply (wf_mono t) | | done | done | by apply (htable_filter t t h h' (λ e, test e = false))].
  apply (less_timer h); [done | done|]. intros i e Hi. by apply Hel in Hi as [? _].
Qed.

Lemma flush_key_test key vlan e :
  (let '(k0, k1, k2, k3) := h_key e in
    (match key with None => true | Some (a, b, c) => (k0 =? a) && (k1 =? b) && (k2 =? c) end) || (match vlan with None => true | Some v => k3 =? v end)) = false
  ↔ kept key vlan (entry e).1 = true.
Proof.
  unfold kept, entry. cbn [fst snd]. destruct (h_key e) as [[[k0 k1] k2] k3]. cbn [fst snd]. rewrite negb_true_iff.
  assert ((match key with None => true | Some (a, b, c) => (k0 =? a) && (k1 =? b) && (k2 =? c) end) =
          (match key with None => true | Some x => bool_decide ((k0, k1, k2) = x) end)) as ->; [|done].
  destruct key as [[[a b] c]|]; [|done]. apply eq_true_iff_eq. rewrite !andb_true_iff, !Z.eqb_eq, bool_decide_eq_true. split; [intros [[-> ->] ->] | intros [= -> -> ->]]; done.
Qed.

Lemma run_op_spec t h now op : hash_wf t h → timer_ok h → t ≤ now → 0 ≤ now → 0 < timeout h → now + timeout h < 2 ^ 63 →
  ∃ h', run_op now op h = Done () h' ∧ hash_wf now h' ∧ timer_ok h' ∧ mask h' = mask h ∧ timeout h' = timeout h ∧
    htable h' = spec_op (timeout h) now op (htable h).
Proof.
  intros Hw Hok Ht Hn Hto Hb. destruct op as [key vlan port | | key vlan | port |]; cbn [run_op spec_op].
  - by apply (ipn_hash_add_spec t).
  - destruct (flush_spec (λ _, true) (λ _, False) t now h) as (h' & E & H1 & H2 & H3 & H4 & Hm); [done..|]. exists h'. split_and!; [done..|].
    rewrite Hm. apply map_eq. intros k. rewrite lookup_empty. apply map_lookup_filter_None_2. right. intros v _ [].
  - apply (flush_spec _ _ t); [done..|]. apply flush_key_test.
  - apply (flush_spec _ _ t); [done..|]. intros e. cbn. apply Z.eqb_neq.
  - unfold ipn_hash_timer_expired. unfold mbind at 1, M_bind at 1, modify at 1. unfold mbind at 1, M_bind at 1, get.
    destruct (expire_loop_spec t now (lrulist h)) with (h := upd_timer None h) as (h' & E & H1 & H2 & H3 & H4 & Hel); [done | lia | by apply upd_timer_wf | done | done | cbn; lia |].
    exists h'. split_and!; [done..|]. apply (htable_filter t now h h' (λ e, now ≤ expiretime e)); done.
Qed.

Fixpoint run_ops (ops : list (Z * hash_op)) : M ipn_hash () :=
  match ops with [] => mret () | (now, op) :: ops => run_op now op ;; run_ops ops end.
Definition spec_ops (timeout : Z) (ops : list (Z * hash_op)) (m : gmap hkey (Z * Z)) : gmap hkey (Z * Z) :=
  foldl (λ m o, spec_op timeout o.1 o.2 m) m ops.

Lemma run_ops_spec ops : ∀ t h, hash_wf t h → timer_ok h → 0 ≤ t → 0 < timeout h → StronglySorted Z.le (t :: ops.*1) → Forall (λ o, o.1 + timeout h < 2 ^ 63) ops →
  ∃ t' h', run_ops ops h = Done () h' ∧ hash_wf t' h' ∧ timer_ok h' ∧ htable h' = spec_ops (timeout h) ops (htable h).
Proof.
  induction ops as [|[now op] ops IH]; intros t h Hw Hok Ht Hto Hs Hb; cbn [run_ops]; [by exists t, h|].
  rewrite fmap_cons in Hs. apply StronglySorted_cons in Hs as [Htn Hs]. apply Forall_cons in Htn as [Htn _]. apply Forall_cons in Hb as [Hb1 Hb]. cbn [fst] in *.
  destruct (run_op_spec t h now op) as (h1 & E & Hw1 & Hok1 & _ & Eto & Em); [done | done | done | lia | done | done |].
  unfold mbind, M_bind. rewrite E. destruct (IH now h1) as (t' & h' & E' & Hw' & Hok' & Em'); [done | done | lia | lia | done | by rewrite Eto |].
  exists t', h'. split_and!; [done..|]. rewrite Em', Em, Eto. done.
Qed.

Lemma po2round_power b : 0 ≤ b ≤ 30 → po2round (2 ^ b) = 2 ^ b.
Proof.
  intros Hb. assert (Forall (λ b, po2round (2 ^ b) = 2 ^ b) (seqZ 0 31)) as H by (apply (bool_decide_eq_true_1 _); vm_compute; reflexivity).
  rewrite Forall_forall in H. apply H. apply elem_of_seqZ. lia.
Qed.

Lemma hash_new_wf hz b seconds : 0 ≤ b ≤ 30 → 0 < seconds → ∃ h, ipn_hash_new hz (2 ^ b) seconds = Some h ∧ hash_wf 0 h ∧ timer_ok h ∧ timeout h = seconds * hz ∧ htable h = ∅.
Proof.
  intros Hb Hs. assert (0 < 2 ^ b) as Hp by lia. unfold ipn_hash_new. destruct (Z.leb_spec (2 ^ b) 0); [lia|]. destruct (Z.leb_spec seconds 0); [lia|]. cbn [orb].
  eexists. split; [done|]. split_and!; [|intros i e Hi; discriminate | done | done].
  split; cbn [hashtable lrulist mask timeout hashtimer elems next_elem]; try (by intros * Hi; discriminate).
  - exists b. rewrite po2round_power by done. rewrite length_replicate, Z2Nat.id by lia. done.
  - constructor.
  - intros i. rewrite lookup_empty. split; [intros Hi; by apply elem_of_nil in Hi | by intros [? ?]].
  - intros v l [-> _]%lookup_replicate i. split; [intros Hi; by apply elem_of_nil in Hi | by intros (e & He & _)].
  - intros i [e He]. discriminate.
  - constructor.
Qed.

(** C18: the address table of the kernel switch.  After any sequence of frames,
    flushes and runs of the timer, a search gives the port the address was last seen
    on, unless it was flushed or has expired when the timer ran; no operation faults; and
    the timer is due no later than the first address expires. *)
Theorem address_table_refines_map hz b seconds ops : 0 ≤ b ≤ 30 → 0 < hz → 0 < seconds → StronglySorted Z.le (0 :: ops.*1) →
  Forall (λ o, o.1 + seconds * hz < 2 ^ 63) ops → let m := spec_ops (seconds * hz) ops ∅ in
  ∃ h0 h, ipn_hash_new hz (2 ^ b) seconds = Some h0 ∧ run_ops ops h0 = Done () h ∧
    (∀ key vlan, ipn_hash_find key vlan h = Done (match m !! (key, vlan) with Some (p, _) => p | None => -1 end) h) ∧
    (∀ k p x, m !! k = Some (p, x) → ∃ d, hashtimer h = Some d ∧ d ≤ x).
Proof.
  intros Hb Hz Hs Hsort Hbound m. destruct (hash_new_wf hz b seconds Hb Hs) as (h0 & E0 & Hw0 & Hok0 & Eto & Em0).
  destruct (run_ops_spec ops 0 h0) as (t & h & E & Hw & Hok & Em); [done | done | lia | nia | done | by rewrite Eto |].
  rewrite Eto, Em0 in Em. exists h0, h. split_and!; [done | done | |].
  - intros key vlan. rewrite (ipn_hash_find_spec t) by done. by rewrite Em.
  - intros k p x Hk. unfold m in Hk. rewrite <- Em in Hk. apply (htable_lookup t) in Hk as (i & e & Hi & E1); [|done].
    destruct (Hok i e Hi) as (d & Ed & Hd). exists d. split; [done|]. injection E1 as _ _ <-. done.
Qed.

Definition demo_ops : list (Z * hash_op) :=
  [(10, OpAdd (2, 0, 1) 0 3); (20, OpAdd (2, 0, 2) 0 5); (2000, OpAdd (2, 0, 1) 0 4); (3025, OpTimer)].
Lemma address_table_refines_map_witness : ∃ h0 h, ipn_hash_new 100 (2 ^ 8) 30 = Some h0 ∧ run_ops demo_ops h0 = Done () h ∧
  ipn_hash_find (2, 0, 1) 0 h = Done 4 h ∧ ipn_hash_find (2, 0, 2) 0 h = Done (-1) h.
Proof.
  destruct (address_table_refines_map 100 8 30 demo_ops) as (h0 & h & E0 & E & Hf & _); [lia | lia | lia | | |].
  - repeat constructor; discriminate.
  - repeat constructor.
  - exists h0, h. split; [exact E0|]. split; [exact E|]. rewrite !Hf. split; reflexivity.
Defined.

(** ** Where the code goes wrong *)

(** The two conditions of [ipn_hash_flush_key] are joined by [or]: without a
    VLAN every address is flushed, not the one named. *)
Lemma flush_key_flushes_all key t h : hash_wf t h → timer_ok h → ∃ h', ipn_hash_flush_key (Some key) None h = Done () h' ∧ htable h' = ∅.
Proof.
  intros Hw Hok. destruct (flush_spec _ (λ kv, kept (Some key) None kv.1 = true) t t h Hw Hok (Z.le_refl t) (flush_key_test (Some key) None)) as (h' & E & _ & _ & _ & _ & Hm).
  exists h'. split; [exact E|]. rewrite Hm. apply map_eq. intros k. rewrite lookup_empty. apply map_lookup_filter_None_2. right.
  intros v _. unfold kept. cbn [fst snd]. by rewrite orb_true_r.
Qed.

(** The table has the number of chains asked for, the mask is that of the next power
    of two: with 200 chains a search reads behind the table. *)
Lemma odd_size_overruns : ∃ h, ipn_hash_new 100 200 30 = Some h ∧ ipn_hash_find (0, 2, 0) 0 h = Fault.
Proof. eexists. split; [reflexivity|]. vm_compute. reflexivity. Qed.
