(* ===== verification/Ipn.v ===== *)
(** * Ipn: networks of the kernel module

    The core of [src/ipn/af_ipn.c]: a network with its nodes, the pool of messages
    that are shared by the queues of their receivers, sending, receiving, and the
    protocols that decide who receives what; and the two protocols, the hub of
    [af_ipn.c] and the switch of [src/ipn/kvde_switch/kvde_switch_main.c].  Nodes
    and messages have names; [None] in [connport] is a NULL pointer.  Memory is
    always available, a signal interrupts at most the wait of
    [ipn_proto_injectmsg] for the mutex, no character device is attached and no node is persistent.  What is sent to a
    network device is listed.

    A process holds a reference to a message while it sends or receives it.  The
    steps of different processes interleave between the critical sections: the
    allocation, the dispatching (under [ipnn_mutex], unless another one is under
    way: [recinject]), the release, and the removal from a
    queue (under [msglock]).

    The lemmas at the end are about the pool: the count of a message is the number
    of references to it, whatever is sent, received or dropped.  [IpnNet] and [IpnLife] build on
    them. *)
From Stdlib Require Import Lia.
From stdpp Require Import base numbers list gmap relations fin_maps.
From S2P Require Import Prelude IpnHash.

(** ** Data *)

Definition RCV_SHUTDOWN : Z := 1.
Definition SEND_SHUTDOWN : Z := 2.
Definition RCV_SHUTDOWN_NO_OOB : Z := 4.
Definition SHUTDOWN_XMASK : Z := 7.
Definition XRCV_SHUTDOWN : Z := 5.
Definition IPN_PORTNO_ANY : Z := -1.
Definition IPN_ANY : Z := 0.
Definition IPN_OOB_NUMNODE_TAG : Z := 0.

Record msgpool_item := MsgItem { m_count : Z; m_len : Z; m_data : list Z }.
(** [bound] and [oob_numnodes] are flags; [netdev] tells whether it is a device;
    [in_net] whether [ipn] is set. *)
Record ipn_node := IpnNode {
  bound : bool; oob_numnodes : bool; shutdown : Z; portno : Z; totmsgcount : Z; oobmsgcount : Z;
  msgqueue : list nat; oobmsgqueue : list nat; netdev : bool; in_net : bool }.
Record ipn_network (P : Type) := Net {
  nodes : gmap nat ipn_node; unconnectqueue : list nat; connectqueue : list nat; refcnt : Z;
  numreaders : Z; numwriters : Z; lossless : bool; msgpool_nelem : Z; maxports : Z; msgpool_size : Z; mtu : Z;
  connport : list (option nat); proto_private : P; jiffies : Z;
  msgs : gmap nat msgpool_item; next_msg : nat; netdev_out : list (nat * list Z) }.
Arguments Net {P}.
Arguments nodes {P}.
Arguments unconnectqueue {P}.
Arguments connectqueue {P}.
Arguments refcnt {P}.
Arguments numreaders {P}.
Arguments numwriters {P}.
Arguments lossless {P}.
Arguments msgpool_nelem {P}.
Arguments maxports {P}.
Arguments msgpool_size {P}.
Arguments mtu {P}.
Arguments connport {P}.
Arguments proto_private {P}.
Arguments jiffies {P}.
Arguments msgs {P}.
Arguments next_msg {P}.
Arguments netdev_out {P}.

Section network.
Context {P : Type}.

Definition upd_nodes (f : gmap nat ipn_node → gmap nat ipn_node) (s : ipn_network P) : ipn_network P :=
  Net (f (nodes s)) (unconnectqueue s) (connectqueue s) (refcnt s) (numreaders s) (numwriters s) (lossless s) (msgpool_nelem s) (maxports s)
    (msgpool_size s) (mtu s) (connport s) (proto_private s) (jiffies s) (msgs s) (next_msg s) (netdev_out s).
Definition upd_queues (u c : list nat) (r : Z) (s : ipn_network P) : ipn_network P :=
  Net (nodes s) u c r (numreaders s) (numwriters s) (lossless s) (msgpool_nelem s) (maxports s)
    (msgpool_size s) (mtu s) (connport s) (proto_private s) (jiffies s) (msgs s) (next_msg s) (netdev_out s).
Definition upd_counters (r w : Z) (s : ipn_network P) : ipn_network P :=
  Net (nodes s) (unconnectqueue s) (connectqueue s) (refcnt s) r w (lossless s) (msgpool_nelem s) (maxports s)
    (msgpool_size s) (mtu s) (connport s) (proto_private s) (jiffies s) (msgs s) (next_msg s) (netdev_out s).
Definition upd_ports (n : Z) (c : list (option nat)) (s : ipn_network P) : ipn_network P :=
  Net (nodes s) (unconnectqueue s) (connectqueue s) (refcnt s) (numreaders s) (numwriters s) (lossless s) (msgpool_nelem s) n
    (msgpool_size s) (mtu s) c (proto_private s) (jiffies s) (msgs s) (next_msg s) (netdev_out s).
Definition upd_private (p : P) (s : ipn_network P) : ipn_network P :=
  Net (nodes s) (unconnectqueue s) (connectqueue s) (refcnt s) (numreaders s) (numwriters s) (lossless s) (msgpool_nelem s) (maxports s)
    (msgpool_size s) (mtu s) (connport s) p (jiffies s) (msgs s) (next_msg s) (netdev_out s).
Definition upd_jiffies (t : Z) (s : ipn_network P) : ipn_network P :=
  Net (nodes s) (unconnectqueue s) (connectqueue s) (refcnt s) (numreaders s) (numwriters s) (lossless s) (msgpool_nelem s) (maxports s)
    (msgpool_size s) (mtu s) (connport s) (proto_private s) t (msgs s) (next_msg s) (netdev_out s).
Definition upd_pool (n : Z) (m : gmap nat msgpool_item) (k : nat) (s : ipn_network P) : ipn_network P :=
  Net (nodes s) (unconnectqueue s) (connectqueue s) (refcnt s) (numreaders s) (numwriters s) (lossless s) n (maxports s)
    (msgpool_size s) (mtu s) (connport s) (proto_private s) (jiffies s) m k (netdev_out s).
Definition upd_out (o : list (nat * list Z)) (s : ipn_network P) : ipn_network P :=
  Net (nodes s) (unconnectqueue s) (connectqueue s) (refcnt s) (numreaders s) (numwriters s) (lossless s) (msgpool_nelem s) (maxports s)
    (msgpool_size s) (mtu s) (connport s) (proto_private s) (jiffies s) (msgs s) (next_msg s) o.

Definition node_at (n : nat) : M (ipn_network P) ipn_node := s ← get; deref (nodes s !! n).
Definition put_node (n : nat) (x : ipn_node) : M (ipn_network P) () := modify (upd_nodes (<[n := x]>)).
Definition msg_at (m : nat) : M (ipn_network P) msgpool_item := s ← get; deref (msgs s !! m).

Definition upd_recv (q o : list nat) (t c : Z) (x : ipn_node) : ipn_node :=
  IpnNode (bound x) (oob_numnodes x) (shutdown x) (portno x) t c q o (netdev x) (in_net x).
Definition upd_shutdown (v : Z) (x : ipn_node) : ipn_node :=
  IpnNode (bound x) (oob_numnodes x) v (portno x) (totmsgcount x) (oobmsgcount x) (msgqueue x) (oobmsgqueue x) (netdev x) (in_net x).
Definition upd_place (b i : bool) (p : Z) (x : ipn_node) : ipn_node :=
  IpnNode b (oob_numnodes x) (shutdown x) p (totmsgcount x) (oobmsgcount x) (msgqueue x) (oobmsgqueue x) (netdev x) i.
Definition upd_oob_flag (b : bool) (x : ipn_node) : ipn_node :=
  IpnNode (bound x) b (shutdown x) (portno x) (totmsgcount x) (oobmsgcount x) (msgqueue x) (oobmsgqueue x) (netdev x) (in_net x).

(** [ipn_node_create], with what the caller sets. *)
Definition ipn_node_create (n : nat) (dev : bool) : M (ipn_network P) () :=
  put_node n (IpnNode false false RCV_SHUTDOWN_NO_OOB IPN_PORTNO_ANY 0 0 [] [] dev false).

(** ** Messages *)

(** [_ipn_msgpool_alloc], and the data the caller copies. *)
Definition msgpool_new (data : list Z) : M (ipn_network P) nat :=
  s ← get;
  let m := next_msg s in
  modify (λ s, upd_pool (msgpool_nelem s + 1) (<[m := MsgItem 1 (Z.of_nat (length data)) data]> (msgs s)) (S m) s) ;;
  mret m.
(** [None] is NULL. *)
Definition ipn_msgpool_alloc (leaky : bool) (data : list Z) : M (ipn_network P) (option nat) :=
  s ← get;
  if leaky && lossless s && (msgpool_nelem s <? msgpool_size s) then mret None
  else m ← msgpool_new data; mret (Some m).
Definition ipn_msgpool_hold (m : nat) : M (ipn_network P) () :=
  it ← msg_at m;
  modify (λ s, upd_pool (msgpool_nelem s) (<[m := MsgItem (m_count it + 1) (m_len it) (m_data it)]> (msgs s)) (next_msg s) s).
Definition ipn_msgpool_put (m : nat) : M (ipn_network P) () :=
  it ← msg_at m;
  if m_count it - 1 =? 0 then modify (λ s, upd_pool (msgpool_nelem s - 1) (delete m (msgs s)) (next_msg s) s)
  else modify (λ s, upd_pool (msgpool_nelem s) (<[m := MsgItem (m_count it - 1) (m_len it) (m_data it)]> (msgs s)) (next_msg s) s).

Definition ipn_proto_sendmsg (to : option nat) (m : nat) : M (ipn_network P) () :=
  match to with
  | None => mret ()
  | Some to =>
    x ← node_at to;
    if netdev x then it ← msg_at m; modify (λ s, upd_out (netdev_out s ++ [(to, m_data it)]) s)
    else
      s ← get;
      whenM ((Z.land (shutdown x) RCV_SHUTDOWN =? 0) && (lossless s || (totmsgcount x <? msgpool_size s)))
        (put_node to (upd_recv (msgqueue x ++ [m]) (oobmsgqueue x) (u16 (totmsgcount x + 1)) (oobmsgcount x) x) ;;
         ipn_msgpool_hold m)
  end.
Definition ipn_proto_oobsendmsg (to : nat) (m : nat) : M (ipn_network P) () :=
  x ← node_at to;
  if netdev x then mret ()
  else
    s ← get;
    whenM ((Z.land (shutdown x) RCV_SHUTDOWN_NO_OOB =? 0) && (lossless s || (oobmsgcount x <? msgpool_size s)))
      (put_node to (upd_recv (msgqueue x) (oobmsgqueue x ++ [m]) (u16 (totmsgcount x + 1)) (u16 (oobmsgcount x + 1)) x) ;;
       ipn_msgpool_hold m).

Definition int_bytes (v : Z) : list Z := [u8 v; u8 (Z.shiftr v 8); u8 (Z.shiftr v 16); u8 (Z.shiftr v 24)].
Definition SIZEOF_NUMNODE_OOB : Z := 16.
Definition ipn_net_update_counters (chg_readers chg_writers : Z) : M (ipn_network P) () :=
  modify (λ s, upd_counters (numreaders s + chg_readers) (numwriters s + chg_writers) s) ;;
  s ← get;
  whenM (SIZEOF_NUMNODE_OOB <=? mtu s)
    (m ← msgpool_new (int_bytes IPN_ANY ++ int_bytes IPN_OOB_NUMNODE_TAG ++ int_bytes (numreaders s) ++ int_bytes (numwriters s));
     forM (connectqueue s) (λ n, x ← node_at n; whenM (oob_numnodes x) (ipn_proto_oobsendmsg n m)) ;;
     ipn_msgpool_put m).

(** The loops that empty a queue: each turn removes the first entry. *)
Fixpoint flush_recv_loop (n : nat) (q : list nat) : M (ipn_network P) () :=
  match q with
  | [] => mret ()
  | m :: q =>
    x ← node_at n;
    put_node n (upd_recv q (oobmsgqueue x) (u16 (totmsgcount x - 1)) (oobmsgcount x) x) ;;
    ipn_msgpool_put m ;;
    flush_recv_loop n q
  end.
Definition ipn_flush_recvqueue (n : nat) : M (ipn_network P) () := x ← node_at n; flush_recv_loop n (msgqueue x).
Fixpoint flush_oob_loop (n : nat) (q : list nat) : M (ipn_network P) () :=
  match q with
  | [] => mret ()
  | m :: q =>
    x ← node_at n;
    put_node n (upd_recv (msgqueue x) q (u16 (totmsgcount x - 1)) (u16 (oobmsgcount x - 1)) x) ;;
    ipn_msgpool_put m ;;
    flush_oob_loop n q
  end.
Definition ipn_flush_oobrecvqueue (n : nat) : M (ipn_network P) () := x ← node_at n; flush_oob_loop n (oobmsgqueue x).
End network.

(** ** Protocols *)

(** [struct ipn_protocol]; [ipn_p_timer] is the timer a protocol may have. *)
Class IpnProtocol (P : Type) := {
  ipn_p_newport : nat → M (ipn_network P) Z;
  ipn_p_handlemsg : nat → nat → M (ipn_network P) ();
  ipn_p_delport : nat → M (ipn_network P) ();
  ipn_p_timer : M (ipn_network P) ()
}.

Section nodes.
Context {P : Type} `{IpnProtocol P}.

Definition EISCONN : Z := 106.
Definition EADDRNOTAVAIL : Z := 99.
Definition EADDRINUSE : Z := 98.
Definition ECONNRESET : Z := 104.
Definition EPIPE : Z := 32.
Definition EOVERFLOW : Z := 75.
Definition EWOULDBLOCK : Z := 11.

Definition connected (n : nat) (s : ipn_network P) : bool := bool_decide (n ∈ connectqueue s).

Definition ipn_node_bind (n : nat) : M (ipn_network P) Z :=
  x ← node_at n;
  if in_net x then mret (- EISCONN) else
  modify (λ s, upd_queues (unconnectqueue s ++ [n]) (connectqueue s) (refcnt s + 1) s) ;;
  put_node n (upd_place true true (portno x) x) ;;
  mret 0.

(** The change of the counters for a node. *)
Definition chg (v mask d : Z) : Z := if negb (Z.land v mask =? 0) then 0 else d.

(** [ipn_connect] once the network is found. *)
Definition ipn_connect (n : nat) : M (ipn_network P) Z :=
  x ← node_at n;
  s ← get;
  if connected n s then mret EISCONN else
  p ← ipn_p_newport n;
  s ← get;
  if (0 <=? p) && (p <? maxports s) then
    put_node n (upd_place (bound x) true p x) ;;
    c ← deref (zset (connport s) p (Some n));
    modify (upd_ports (maxports s) c) ;;
    (if bound x then modify (λ s, upd_queues (filter (λ k, k ≠ n) (unconnectqueue s)) (connectqueue s ++ [n]) (refcnt s) s)
     else modify (λ s, upd_queues (unconnectqueue s) (connectqueue s ++ [n]) (refcnt s + 1) s)) ;;
    ipn_net_update_counters (chg (shutdown x) RCV_SHUTDOWN 1) (chg (shutdown x) SEND_SHUTDOWN 1) ;;
    mret 0
  else mret (- EADDRNOTAVAIL).

(** The network is freed by the last node; its state then no longer matters. *)
Definition ipn_terminate_node (n : nat) : M (ipn_network P) Z :=
  x ← node_at n;
  if negb (in_net x) then mret 0 else
  s ← get;
  whenM (0 <=? portno x) (c ← deref (zset (connport s) (portno x) None); modify (upd_ports (maxports s) c)) ;;
  modify (λ s, upd_queues (filter (λ k, k ≠ n) (unconnectqueue s)) (filter (λ k, k ≠ n) (connectqueue s)) (refcnt s) s) ;;
  ipn_flush_recvqueue n ;;
  ipn_flush_oobrecvqueue n ;;
  whenM (0 <=? portno x) (ipn_p_delport n) ;;
  y ← node_at n;
  put_node n (upd_place (bound y) false (portno y) y) ;;
  ipn_net_update_counters (chg (shutdown x) RCV_SHUTDOWN (-1)) (chg (shutdown x) SEND_SHUTDOWN (-1)) ;;
  y ← node_at n;
  put_node n (upd_shutdown SHUTDOWN_XMASK y) ;;
  modify (λ s, upd_queues (unconnectqueue s) (connectqueue s) (refcnt s - 1) s) ;;
  mret 0.
Definition ipn_node_release (n : nat) : M (ipn_network P) Z :=
  rv ← ipn_terminate_node n;
  modify (upd_nodes (delete n)) ;;
  mret rv.

Definition ipn_shutdown (n : nat) (mode : Z) : M (ipn_network P) Z :=
  x ← node_at n;
  let new := Z.lor (shutdown x) (Z.land (mode + 1) (Z.lor RCV_SHUTDOWN SEND_SHUTDOWN)) in
  put_node n (upd_shutdown new x) ;;
  whenM (in_net x)
    (s ← get;
     whenM (connected n s && negb (new - shutdown x =? 0))
       (ipn_net_update_counters (chg new RCV_SHUTDOWN (-1)) (chg new SEND_SHUTDOWN (-1))) ;;
     whenM (negb (Z.land new RCV_SHUTDOWN =? 0)) (ipn_flush_recvqueue n)) ;;
  mret 0.

(** The options of [ipn_setsockopt] that change a node or the number of ports. *)
Definition setsockopt_guard (n : nat) (body : ipn_node → M (ipn_network P) Z) : M (ipn_network P) Z :=
  x ← node_at n;
  if shutdown x =? SHUTDOWN_XMASK then mret (- ECONNRESET) else body x.
Definition so_port (n : nat) (val : Z) : M (ipn_network P) Z :=
  setsockopt_guard n (λ x,
    s ← get;
    if connected n s then mret (- EISCONN) else put_node n (upd_place (bound x) (in_net x) val x) ;; mret 0).
Definition so_want_oob_numnodes (n : nat) (val : Z) : M (ipn_network P) Z :=
  setsockopt_guard n (λ x, put_node n (upd_oob_flag (negb (val =? 0)) x) ;; mret 0).
Definition so_handle_oob (n : nat) (val : Z) : M (ipn_network P) Z :=
  setsockopt_guard n (λ x,
    put_node n (upd_shutdown (if negb (val =? 0) then Z.ldiff (shutdown x) RCV_SHUTDOWN_NO_OOB else Z.lor (shutdown x) RCV_SHUTDOWN_NO_OOB) x) ;;
    mret 0).
(** Both protocols accept every size; [maxports] is an [unsigned short]. *)
Definition ipn_netresize (newsize : Z) : M (ipn_network P) Z :=
  s ← get;
  let oldsize := maxports s in
  if newsize =? oldsize then mret 0
  else if (newsize <? oldsize) && existsb (λ o : option nat, match o with Some _ => true | None => false end) (take (Z.to_nat (oldsize - newsize)) (drop (Z.to_nat newsize) (connport s)))
  then mret (- EADDRINUSE)
  else
    let min := if newsize <? oldsize then newsize else oldsize in
    modify (upd_ports (u16 newsize) (take (Z.to_nat min) (connport s) ++ replicate (Z.to_nat (newsize - min)) None)) ;;
    mret 0.

Definition EINVAL : Z := 22.
(** [IPN_SO_CHANGE_NUMNODES]; the error of an unbound node is assigned to [val] and lost. *)
Definition so_change_numnodes (n : nat) (val : Z) : M (ipn_network P) Z :=
  setsockopt_guard n (λ x, if bound x then if val <=? 0 then mret (- EINVAL) else ipn_netresize val else mret 0).

(** ** Sending and receiving *)

Definition ERESTARTSYS : Z := 512.
(** [recinject] is whether another injection is under way (in any network: it is a
    static variable), and the message is then handled without [ipnn_mutex];
    [interrupted] is whether a signal ends the wait for the mutex.  The handler
    is one step of the model: that is what the mutex gives it, and what an injection with
    [recinject] set does not have. *)
Definition ipn_proto_injectmsg (recinject interrupted : bool) (from m : nat) : M (ipn_network P) Z :=
  if recinject then ipn_p_handlemsg from m ;; mret 0
  else if interrupted then mret (- ERESTARTSYS)
  else ipn_p_handlemsg from m ;; mret 0.

(** The tests of [ipn_node_write]: an error. *)
Definition write_refused (len : Z) (x : ipn_node) (s : ipn_network P) : option Z :=
  if negb (Z.land (shutdown x) SEND_SHUTDOWN =? 0) then
    if shutdown x =? SHUTDOWN_XMASK then Some (- ECONNRESET) else Some (- EPIPE)
  else if mtu s <? len then Some (- EOVERFLOW) else None.
(** [ipn_msgpool_alloc_locking] waits while this is false. *)
Definition may_alloc (s : ipn_network P) : bool := negb (lossless s) || (msgpool_nelem s <? msgpool_size s).
(** The result of the injection is not looked at. *)
Definition ipn_node_write (recinject interrupted : bool) (n : nat) (data : list Z) : M (ipn_network P) Z :=
  x ← node_at n;
  s ← get;
  match write_refused (Z.of_nat (length data)) x s with
  | Some e => mret e
  | None =>
    m ← msgpool_new data;
    _ ← ipn_proto_injectmsg recinject interrupted n m;
    ipn_msgpool_put m ;;
    mret (Z.of_nat (length data))
  end.

(** The part of [ipn_node_read] under [msglock]: an error, or the message and whether it
    is out of band.  With no message it does not wait. *)
Definition read_take (n : nat) : M (ipn_network P) (Z + nat * bool) :=
  x ← node_at n;
  if Z.land (shutdown x) XRCV_SHUTDOWN =? XRCV_SHUTDOWN then
    mret (inl (if shutdown x =? SHUTDOWN_XMASK then 0 else - EPIPE))
  else if totmsgcount x =? 0 then mret (inl (- EWOULDBLOCK))
  else
    match oobmsgqueue x with
    | [] =>
      '(m, q) ← deref (match msgqueue x with [] => None | m :: q => Some (m, q) end);
      put_node n (upd_recv q [] (u16 (totmsgcount x - 1)) (oobmsgcount x) x) ;;
      mret (inr (m, false))
    | m :: o =>
      put_node n (upd_recv (msgqueue x) o (u16 (totmsgcount x - 1)) (u16 (oobmsgcount x - 1)) x) ;;
      mret (inr (m, true))
    end.
(** The length, the data and the flag [MSG_OOB]. *)
Definition ipn_node_read (n : nat) (len : Z) : M (ipn_network P) (Z * list Z * bool) :=
  r ← read_take n;
  match r with
  | inl e => mret (e, [], false)
  | inr (m, oob) =>
    it ← msg_at m;
    let len := if m_len it <? len then m_len it else len in
    ipn_msgpool_put m ;;
    mret (len, take (Z.to_nat len) (m_data it), oob)
  end.

Definition POLLIN : Z := 0x1.
Definition POLLPRI : Z := 0x2.
Definition POLLOUT : Z := 0x4.
Definition POLLRDNORM : Z := 0x40.
Definition POLLWRNORM : Z := 0x100.
Definition ipn_node_poll (n : nat) : M (ipn_network P) Z :=
  x ← node_at n;
  s ← get;
  if negb (in_net x) then mret 0 else
  let mask := if 0 <? totmsgcount x then POLLIN else 0 in
  let mask := match msgqueue x with [] => mask | _ => Z.lor mask POLLRDNORM end in
  let mask := match oobmsgqueue x with [] => mask | _ => Z.lor mask POLLPRI end in
  mret (if may_alloc s then Z.lor mask (Z.lor POLLOUT POLLWRNORM) else mask).
End nodes.

(** ** The hub *)

Section hub.
Context {P : Type}.

Fixpoint free_port (i : Z) (l : list (option nat)) : Z :=
  match l with
  | [] => -1
  | None :: _ => i
  | Some _ :: l => free_port (i + 1) l
  end.
Definition ipn_bcast_newport (n : nat) : M (ipn_network P) Z := s ← get; mret (free_port 0 (take (Z.to_nat (maxports s)) (connport s))).
Definition ipn_bcast_handlemsg (from m : nat) : M (ipn_network P) () :=
  s ← get;
  forM (connectqueue s) (λ n, whenM (negb (bool_decide (n = from))) (ipn_proto_sendmsg (Some n) m)).
End hub.
(** The hub has no state of its own. *)
#[export] Instance ipn_bcast : IpnProtocol () := {
  ipn_p_newport := ipn_bcast_newport;
  ipn_p_handlemsg := ipn_bcast_handlemsg;
  ipn_p_delport := λ _, mret ();
  ipn_p_timer := mret ()
}.

(** ** The switch *)

Definition ETH_HLEN : Z := 14.
Definition on_hash {A} (m : M ipn_hash A) : M (ipn_network ipn_hash) A := λ s,
  match m (proto_private s) with
  | Done a h => Done a (upd_private h s)
  | Exited c => Exited c
  | Fault => Fault
  end.
(** [(u16 * )] of the address at offset [o]. *)
Definition addr16 (data : list Z) (o : Z) : option (Z * Z * Z) :=
  match slice data o 6 with
  | [a; b; c; d; e; f] => Some (a + 2 ^ 8 * b, c + 2 ^ 8 * d, e + 2 ^ 8 * f)
  | _ => None
  end.
Definition IS_BROADCAST (data : list Z) (o : Z) : bool :=
  match zget data o with Some b => Z.land b 1 =? 1 | None => false end.

Definition ipn_kvde_switch_newport (n : nat) : M (ipn_network ipn_hash) Z := s ← get; mret (free_port 0 (take (Z.to_nat (maxports s)) (connport s))).
Definition ipn_kvde_switch_handlemsg (from m : nat) : M (ipn_network ipn_hash) () :=
  x ← node_at from;
  it ← msg_at m;
  if m_len it <? ETH_HLEN then mret () else
  s ← get;
  whenM (negb (IS_BROADCAST (m_data it) 6))
    (src ← deref (addr16 (m_data it) 6); on_hash (ipn_hash_add (jiffies s) src 0 (portno x))) ;;
  port ← (if IS_BROADCAST (m_data it) 0 then mret (-1)
          else dst ← deref (addr16 (m_data it) 0); on_hash (ipn_hash_find dst 0));
  if port <? 0 then ipn_bcast_handlemsg from m
  else to ← deref (zget (connport s) port); ipn_proto_sendmsg to m.
Definition ipn_kvde_switch_delport (n : nat) : M (ipn_network ipn_hash) () :=
  x ← node_at n; on_hash (ipn_hash_flush_port (portno x)).
#[export] Instance vde_switch_proto : IpnProtocol ipn_hash := {
  ipn_p_newport := ipn_kvde_switch_newport;
  ipn_p_handlemsg := ipn_kvde_switch_handlemsg;
  ipn_p_delport := ipn_kvde_switch_delport;
  ipn_p_timer := s ← get; on_hash (ipn_hash_timer_expired (jiffies s))
}.
(** [ipn_kvde_switch_newnet]: the table of a new network. *)
Definition ipn_kvde_switch_newnet (hz : Z) : option ipn_hash := ipn_hash_new hz 256 30.

(** ** New networks *)

Record pre_bind_parms := Parms { pb_maxports : Z; pb_flags : Z; pb_msgpoolsize : Z; pb_mtu : Z; pb_mode : Z }.
(** [BITS_PER_LONG] is 64, and the mode is 0777 in octal. *)
Definition STD_BIND_PARMS : pre_bind_parms := Parms 64 0 8 1514 511.
Definition IPN_FLAG_LOSSLESS : Z := 1.
Inductive prebind_opt := IPN_SO_MTU | IPN_SO_NUMNODES | IPN_SO_MSGPOOLSIZE | IPN_SO_FLAGS | IPN_SO_MODE.
(** The options that are set before [bind]; the fields are [unsigned short]. *)
Definition so_prebind (opt : prebind_opt) (val : Z) (p : pre_bind_parms) : Z * pre_bind_parms :=
  let '(Parms n f k m o) := p in
  match opt with
  | IPN_SO_MTU => if val <=? 0 then (- EINVAL, p) else (0, Parms n f k (u16 val) o)
  | IPN_SO_NUMNODES => if val <=? 0 then (- EINVAL, p) else (0, Parms (u16 val) f k m o)
  | IPN_SO_MSGPOOLSIZE => if val <=? 0 then (- EINVAL, p) else (0, Parms n f (u16 val) m o)
  | IPN_SO_FLAGS => (0, Parms n (u16 val) k m o)
  | IPN_SO_MODE => (0, Parms n f k m (u16 val))
  end.
(** The network [ipn_bind] creates, at the time [t], with the protocol's state [private]. *)
Definition ipn_network_new {P} (parms : pre_bind_parms) (private : P) (t : Z) : ipn_network P :=
  Net ∅ [] [] 0 0 0 (negb (Z.land (pb_flags parms) IPN_FLAG_LOSSLESS =? 0)) 0 (pb_maxports parms) (pb_msgpoolsize parms) (pb_mtu parms)
    (replicate (Z.to_nat (pb_maxports parms)) None) private t ∅ 0 [].

(** ** References *)

Definition occ (m : nat) (l : list nat) : Z := Z.of_nat (length (filter (λ k, k = m) l)).
Definition node_refs (m : nat) (x : ipn_node) : Z := occ m (msgqueue x) + occ m (oobmsgqueue x).
Definition refs (m : nat) (ns : gmap nat ipn_node) : Z := map_fold (λ _ x n, node_refs m x + n) 0 ns.

Lemma occ_app m l l' : occ m (l ++ l') = occ m l + occ m l'.
Proof. unfold occ. rewrite filter_app, length_app. lia. Qed.
Lemma occ_cons m k l : occ m (k :: l) = (if decide (k = m) then 1 else 0) + occ m l.
Proof. unfold occ. rewrite filter_cons. case_decide; cbn [length]; lia. Qed.
Lemma occ_nil m : occ m [] = 0.
Proof. done. Qed.
Lemma occ_nonneg m l : 0 ≤ occ m l.
Proof. unfold occ. lia. Qed.
Lemma occ_pos m l : m ∈ l → 0 < occ m l.
Proof.
  induction l as [|k l IH]; [intros Hm; by apply elem_of_nil in Hm|]. rewrite occ_cons. intros [-> | Hm]%elem_of_cons.
  - rewrite decide_True by done. pose proof (occ_nonneg k l). lia.
  - specialize (IH Hm). case_decide; lia.
Qed.
Lemma occ_elem m l : 0 < occ m l → m ∈ l.
Proof. induction l as [|k l IH]; [done|]. rewrite occ_cons. case_decide; [set_solver|]. intros. apply elem_of_cons. right. apply IH. lia. Qed.
Lemma node_refs_nonneg m x : 0 ≤ node_refs m x.
Proof. unfold node_refs. pose proof (occ_nonneg m (msgqueue x)). pose proof (occ_nonneg m (oobmsgqueue x)). lia. Qed.

Lemma msg_refs_delete m ns n x : ns !! n = Some x → refs m ns = node_refs m x + refs m (delete n ns).
Proof. intros Hn. unfold refs. rewrite (map_fold_delete_L _ _ n x ns) at 1; [done | intros; lia | done]. Qed.
Lemma msg_refs_insert_new m ns n x : ns !! n = None → refs m (<[n := x]> ns) = node_refs m x + refs m ns.
Proof. intros Hn. unfold refs. rewrite map_fold_insert_L; [done | intros; lia | done]. Qed.
Lemma msg_refs_insert m ns n x x' : ns !! n = Some x → refs m (<[n := x']> ns) = refs m ns - node_refs m x + node_refs m x'.
Proof.
  intros Hn. rewrite (msg_refs_delete m ns n x Hn), <- insert_delete_eq, msg_refs_insert_new by apply lookup_delete_eq. lia.
Qed.
Lemma refs_nonneg m ns : 0 ≤ refs m ns.
Proof.
  unfold refs. apply (map_fold_weak_ind (λ r _, 0 ≤ r)); [done|]. intros n x ns' r _ Hr. pose proof (node_refs_nonneg m x). lia.
Qed.
Lemma refs_node m ns n x : ns !! n = Some x → node_refs m x ≤ refs m ns.
Proof. intros Hn. rewrite (msg_refs_delete m ns n x Hn). pose proof (refs_nonneg m (delete n ns)). lia. Qed.

(** ** The pool *)

Section pool.
Context {P : Type}.

(** [held]: the references of the processes that are sending or receiving. *)
Record pool_inv (held : list nat) (s : ipn_network P) : Prop := {
  pi_count : ∀ m it, msgs s !! m = Some it → m_count it = refs m (nodes s) + occ m held ∧ 0 < m_count it;
  pi_live : ∀ m, 0 < refs m (nodes s) + occ m held → is_Some (msgs s !! m);
  pi_nelem : msgpool_nelem s = Z.of_nat (size (msgs s));
  pi_next : ∀ m, is_Some (msgs s !! m) → (m < next_msg s)%nat;
  pi_tot : ∀ n x, nodes s !! n = Some x → totmsgcount x = u16 (Z.of_nat (length (msgqueue x) + length (oobmsgqueue x))) ∧
    oobmsgcount x = u16 (Z.of_nat (length (oobmsgqueue x)));
  pi_len : ∀ m it, msgs s !! m = Some it → m_len it = Z.of_nat (length (m_data it))
}.

(** What the queues and the pool leave as it is. *)
Definition static (x : ipn_node) : bool * bool * Z * Z * bool * bool := (bound x, oob_numnodes x, shutdown x, portno x, netdev x, in_net x).
Definition shape (s : ipn_network P) :=
  (static <$> nodes s, unconnectqueue s, connectqueue s, refcnt s, lossless s, maxports s, msgpool_size s, mtu s, connport s, proto_private s, jiffies s).

Lemma occ_held_new m held s : pool_inv held s → (next_msg s ≤ m)%nat → refs m (nodes s) + occ m held = 0.
Proof.
  intros H Hm. pose proof (refs_nonneg m (nodes s)). pose proof (occ_nonneg m held).
  destruct (decide (0 < refs m (nodes s) + occ m held)) as [Hp|]; [|lia]. apply (pi_live _ _ H), (pi_next _ _ H) in Hp. lia.
Qed.

Lemma pool_new data held s : pool_inv held s → ∃ m s', msgpool_new data s = Done m s' ∧ pool_inv (m :: held) s' ∧ shape s' = shape s ∧
  nodes s' = nodes s ∧ msgs s' = <[m := MsgItem 1 (Z.of_nat (length data)) data]> (msgs s) ∧ msgs s !! m = None ∧
  numreaders s' = numreaders s ∧ numwriters s' = numwriters s.
Proof.
  intros H. unfold msgpool_new. do 2 eexists. split; [done|]. assert (msgs s !! next_msg s = None) as Hnew by (apply eq_None_not_Some; intros Hs%(pi_next _ _ H); lia).
  split_and!; [|done | done | done | done | done | done].
  pose proof (occ_held_new (next_msg s) held s H (Nat.le_refl _)) as Hz. destruct H as [H1 H2 H3 H4 H5 H6].
  split; cbn [upd_pool msgs nodes msgpool_nelem next_msg].
  - intros m it. rewrite occ_cons. destruct (decide (next_msg s = m)) as [<-|Hne]; [rewrite lookup_insert_eq; intros [= <-]; cbn; lia|].
    rewrite lookup_insert_ne by done. intros Hm. destruct (H1 m it Hm). lia.
  - intros m. rewrite occ_cons. case_decide as E; [rewrite E, lookup_insert_eq; eauto|]. rewrite lookup_insert_ne by done. intros Hm. apply H2. lia.
  - rewrite map_size_insert_None by done. lia.
  - intros m. destruct (decide (m = next_msg s)) as [->|]; [lia|]. rewrite lookup_insert_ne by done. intros Hm%H4. lia.
  - done.
  - intros m it. rewrite lookup_insert_Some. intros [[_ <-] | [_ Hm]]; [done | eauto].
Qed.

Lemma pool_put m held s : pool_inv (m :: held) s → ∃ s', ipn_msgpool_put m s = Done () s' ∧ pool_inv held s' ∧ shape s' = shape s ∧ nodes s' = nodes s ∧
  (∀ k it, msgs s' !! k = Some it → ∃ it', msgs s !! k = Some it' ∧ m_data it' = m_data it ∧ m_len it' = m_len it) ∧
  numreaders s' = numreaders s ∧ numwriters s' = numwriters s.
Proof.
  intros H. destruct H as [H1 H2 H3 H4 H5 H6]. destruct (H2 m) as [it Hit].
  { rewrite occ_cons, decide_True by done. pose proof (refs_nonneg m (nodes s)). pose proof (occ_nonneg m held). lia. }
  destruct (H1 m it Hit) as [Hc Hp]. rewrite occ_cons, decide_True in Hc by done.
  unfold ipn_msgpool_put, msg_at. unfold mbind, M_bind, get. rewrite Hit. cbn [deref mret M_ret]. destruct (Z.eqb_spec (m_count it - 1) 0) as [E|E].
  - eexists. split; [done|]. split_and!; [|done | done | | done | done]; [split; cbn [upd_pool msgs nodes msgpool_nelem next_msg]|].
    + intros k ik. rewrite lookup_delete_Some. intros [Hne Hk]. destruct (H1 k ik Hk) as [Hck Hpk]. rewrite occ_cons, decide_False in Hck by done. lia.
    + intros k Hk. destruct (decide (k = m)) as [->|Hne]; [lia|]. rewrite lookup_delete_ne by done. apply H2. rewrite occ_cons. case_decide; lia.
    + rewrite map_size_delete, Hit. cbn. assert (size (msgs s) ≠ 0%nat) as Hs by (intros Hs%map_size_empty_iff; rewrite Hs in Hit; discriminate). lia.
    + intros k [ik Hk]. rewrite lookup_delete_Some in Hk. destruct Hk. eauto.
    + done.
    + intros k ik [_ Hk]%lookup_delete_Some. eauto.
    + intros k ik. cbn [upd_pool msgs]. rewrite lookup_delete_Some. intros [_ Hk]. eauto.
  - eexists. split; [done|]. split_and!; [|done | done | | done | done]; [split; cbn [upd_pool msgs nodes msgpool_nelem next_msg]|].
    + intros k ik. destruct (decide (k = m)) as [->|Hne].
      * rewrite lookup_insert_eq. intros [= <-]. cbn. lia.
      * rewrite lookup_insert_ne by done. intros Hk. destruct (H1 k ik Hk) as [Hck Hpk]. rewrite occ_cons, decide_False in Hck by done. lia.
    + intros k Hk. destruct (decide (k = m)) as [->|Hne]; [rewrite lookup_insert_eq; eauto|]. rewrite lookup_insert_ne by done. apply H2. rewrite occ_cons. case_decide; lia.
    + rewrite map_size_insert_Some; [done | by eexists].
    + intros k Hk. destruct (decide (k = m)) as [->|Hne]; [eauto|]. rewrite lookup_insert_ne in Hk by done. eauto.
    + done.
    + intros k ik. rewrite lookup_insert_Some. intros [[_ <-] | [_ Hk]]; [exact (H6 m it Hit) | eauto].
    + intros k ik. cbn [upd_pool msgs]. destruct (decide (k = m)) as [->|Hne]; [rewrite lookup_insert_eq; intros [= <-]; eauto|]. rewrite lookup_insert_ne by done. eauto.
Qed.

Lemma u16_add a b : u16 (u16 a + b) = u16 (a + b).
Proof. unfold u16. by rewrite Zplus_mod_idemp_l. Qed.

(** A queue as its node sees it: the counters go with the queues. *)
Definition counted (x : ipn_node) : Prop :=
  totmsgcount x = u16 (Z.of_nat (length (msgqueue x) + length (oobmsgqueue x))) ∧ oobmsgcount x = u16 (Z.of_nat (length (oobmsgqueue x))).
Definition same_data (s s' : ipn_network P) : Prop := ∀ m, m_data <$> msgs s' !! m = m_data <$> msgs s !! m.
Definition same_counters (s s' : ipn_network P) : Prop := numreaders s' = numreaders s ∧ numwriters s' = numwriters s.

Lemma shape_nodes (s : ipn_network P) n x x' : nodes s !! n = Some x → static x' = static x → static <$> <[n := x']> (nodes s) = static <$> nodes s.
Proof.
  intros Hn E. apply map_eq. intros k. rewrite !lookup_fmap. destruct (decide (k = n)) as [->|]; [rewrite lookup_insert_eq, Hn; cbn; by rewrite E | by rewrite lookup_insert_ne].
Qed.

(** A node gets one more reference to a live message. *)
Lemma pool_hold to x x' m held s : pool_inv held s → m ∈ held → nodes s !! to = Some x → counted x' → static x' = static x →
  (∀ k, node_refs k x' = node_refs k x + if decide (m = k) then 1 else 0) →
  ∃ s', (put_node to x' ;; ipn_msgpool_hold m) s = Done () s' ∧ pool_inv held s' ∧ shape s' = shape s ∧ nodes s' = <[to := x']> (nodes s) ∧ same_data s s' ∧ same_counters s s'.
Proof.
  intros H Hm Hto Hc Est Hr. destruct H as [H1 H2 H3 H4 H5 H6]. destruct (H2 m) as [it Hit].
  { pose proof (occ_pos m held Hm). pose proof (refs_nonneg m (nodes s)). lia. }
  unfold put_node, ipn_msgpool_hold, msg_at. unfold mbind, M_bind, get, modify. cbn [upd_nodes msgs]. rewrite Hit. cbn [deref mret M_ret].
  eexists. split; [done|]. split_and!; [split; cbn [upd_pool upd_nodes msgs nodes msgpool_nelem next_msg] | | done | | done].
  - intros k ik. rewrite (msg_refs_insert _ _ _ _ _ Hto), Hr. destruct (decide (m = k)) as [<-|Hne].
    + rewrite lookup_insert_eq. intros [= <-]. cbn. destruct (H1 m it Hit). lia.
    + rewrite lookup_insert_ne by done. intros Hk. destruct (H1 k ik Hk). lia.
  - intros k. rewrite (msg_refs_insert _ _ _ _ _ Hto), Hr. destruct (decide (m = k)) as [<-|Hne]; [rewrite lookup_insert_eq; eauto|].
    rewrite lookup_insert_ne by done. intros Hk. apply H2. lia.
  - rewrite map_size_insert_Some; [done | by eexists].
  - intros k Hk. destruct (decide (k = m)) as [->|]; [eauto|]. rewrite lookup_insert_ne in Hk by done. eauto.
  - intros n y. destruct (decide (n = to)) as [->|]; [rewrite lookup_insert_eq; intros [= <-]; apply Hc | rewrite lookup_insert_ne by done; apply H5].
  - intros k ik. rewrite lookup_insert_Some. intros [[_ <-] | [_ Hk]]; [exact (H6 m it Hit) | eauto].
  - unfold shape. cbn [upd_pool upd_nodes nodes unconnectqueue connectqueue refcnt lossless maxports msgpool_size mtu connport proto_private jiffies].
    by rewrite (shape_nodes s to x x').
  - intros k. cbn [upd_pool upd_nodes msgs]. destruct (decide (k = m)) as [->|]; [by rewrite lookup_insert_eq, Hit | by rewrite lookup_insert_ne].
Qed.

(** A node that takes a message, and the node with it. *)
Definition accepts (s : ipn_network P) (x : ipn_node) : bool :=
  negb (netdev x) && ((Z.land (shutdown x) RCV_SHUTDOWN =? 0) && (lossless s || (totmsgcount x <? msgpool_size s))).
Definition enqueued (m : nat) (x : ipn_node) : ipn_node := upd_recv (msgqueue x ++ [m]) (oobmsgqueue x) (u16 (totmsgcount x + 1)) (oobmsgcount x) x.

Lemma sendmsg_spec to m held s x : pool_inv held s → m ∈ held → nodes s !! to = Some x →
  ∃ s', ipn_proto_sendmsg (Some to) m s = Done () s' ∧ pool_inv held s' ∧ shape s' = shape s ∧ same_data s s' ∧ same_counters s s' ∧
    nodes s' = if accepts s x then <[to := enqueued m x]> (nodes s) else nodes s.
Proof.
  intros H Hm Hto. unfold ipn_proto_sendmsg, accepts. unfold mbind at 1, M_bind at 1, node_at. unfold mbind at 1, M_bind at 1, get. rewrite Hto. cbn [deref mret M_ret].
  destruct (netdev x); cbn [negb andb].
  - destruct (pi_live _ _ H m) as [it Hit]. { pose proof (occ_pos m held Hm). pose proof (refs_nonneg m (nodes s)). lia. }
    unfold mbind, M_bind, msg_at. unfold mbind, M_bind, get. rewrite Hit. cbn [deref mret M_ret]. eexists. split; [done|].
    split_and!; [destruct H; by split | done | done | done | done].
  - unfold mbind at 1, M_bind at 1, get. destruct (_ && _); cbn [whenM]; [|by exists s].
    destruct (pool_hold to x (enqueued m x) m held s) as (s' & E & H' & Esh & En & Ed & Ec); try done.
    + destruct (pi_tot _ _ H to x Hto) as [Et Eo]. split; cbn [enqueued upd_recv totmsgcount msgqueue oobmsgqueue oobmsgcount]; [|done].
      rewrite Et, u16_add, length_app. cbn [length]. f_equal. lia.
    + intros k. unfold node_refs. cbn [enqueued upd_recv msgqueue oobmsgqueue]. rewrite occ_app, occ_cons, occ_nil. lia.
    + exists s'. done.
Qed.

Lemma oobsend_spec to m held s x : pool_inv held s → m ∈ held → nodes s !! to = Some x →
  ∃ s', ipn_proto_oobsendmsg to m s = Done () s' ∧ pool_inv held s' ∧ shape s' = shape s ∧ same_data s s' ∧ same_counters s s' ∧
    (∀ n y, nodes s' !! n = Some y → ∃ y0, nodes s !! n = Some y0 ∧ msgqueue y = msgqueue y0) ∧ (∀ n, n ≠ to → nodes s' !! n = nodes s !! n).
Proof.
  intros H Hm Hto. unfold ipn_proto_oobsendmsg. unfold mbind at 1, M_bind at 1, node_at. unfold mbind at 1, M_bind at 1, get. rewrite Hto. cbn [deref mret M_ret].
  destruct (netdev x); [exists s; split_and!; eauto; done|]. unfold mbind at 1, M_bind at 1, get. destruct (_ && _); cbn [whenM]; [|exists s; split_and!; eauto; done].
  destruct (pool_hold to x (upd_recv (msgqueue x) (oobmsgqueue x ++ [m]) (u16 (totmsgcount x + 1)) (u16 (oobmsgcount x + 1)) x) m held s) as (s' & E & H' & Esh & En & Ed & Ec); try done.
  - destruct (pi_tot _ _ H to x Hto) as [Et Eo]. split; cbn [upd_recv totmsgcount msgqueue oobmsgqueue oobmsgcount]; rewrite ?Et, ?Eo, u16_add, length_app; cbn [length]; f_equal; lia.
  - intros k. unfold node_refs. cbn [upd_recv msgqueue oobmsgqueue]. rewrite occ_app, occ_cons, occ_nil. lia.
  - exists s'. split_and!; [done..| |]; intros n; rewrite En; [|intros Hne; by rewrite lookup_insert_ne].
    intros y. destruct (decide (n = to)) as [->|]; [rewrite lookup_insert_eq; intros [= <-]; by exists x | rewrite lookup_insert_ne by done; eauto].
Qed.

Lemma shape_is_Some s s' n : shape s' = shape s → is_Some (nodes s !! n) → is_Some (nodes s' !! n).
Proof.
  intros E [x Hx]. assert (static <$> nodes s' = static <$> nodes s) as En by (unfold shape in E; congruence).
  apply (f_equal (.!! n)) in En. rewrite !lookup_fmap, Hx in En. destruct (nodes s' !! n); [eauto | discriminate].
Qed.

(** A node gives a reference to a process. *)
Lemma pool_pop n x x' m held s : pool_inv held s → nodes s !! n = Some x → counted x' →
  (∀ k, node_refs k x = node_refs k x' + if decide (m = k) then 1 else 0) → pool_inv (m :: held) (upd_nodes (<[n := x']>) s).
Proof.
  intros [H1 H2 H3 H4 H5 H6] Hn Hc Hr. split; cbn [upd_nodes msgs nodes msgpool_nelem next_msg]; [| | done | done | | done].
  - intros k ik Hk. rewrite (msg_refs_insert _ _ _ _ _ Hn), occ_cons. destruct (H1 k ik Hk). specialize (Hr k). case_decide; lia.
  - intros k. rewrite (msg_refs_insert _ _ _ _ _ Hn), occ_cons. specialize (Hr k). intros Hk. apply H2. case_decide; lia.
  - intros k y. destruct (decide (k = n)) as [->|]; [rewrite lookup_insert_eq; intros [= <-]; apply Hc | rewrite lookup_insert_ne by done; apply H5].
Qed.
Lemma upd_nodes_shape (s : ipn_network P) n x x' : nodes s !! n = Some x → static x' = static x → shape (upd_nodes (<[n := x']>) s) = shape s.
Proof. intros Hn E. unfold shape. cbn [upd_nodes nodes unconnectqueue connectqueue refcnt lossless maxports msgpool_size mtu connport proto_private jiffies]. by rewrite (shape_nodes s n x x'). Qed.

Lemma u16_pred a n : u16 (u16 (Z.of_nat (S a + n)) - 1) = u16 (Z.of_nat (a + n)).
Proof. unfold Z.sub. rewrite u16_add. f_equal. lia. Qed.

Lemma flush_recv_spec n held q : ∀ s x, pool_inv held s → nodes s !! n = Some x → msgqueue x = q →
  ∃ s' x', flush_recv_loop n q s = Done () s' ∧ pool_inv held s' ∧ shape s' = shape s ∧ same_counters s s' ∧
    nodes s' = <[n := x']> (nodes s) ∧ msgqueue x' = [] ∧ oobmsgqueue x' = oobmsgqueue x ∧ static x' = static x.
Proof.
  induction q as [|m q IH]; intros s x H Hn Hq; cbn [flush_recv_loop]; [exists s, x; split_and!; try done; by rewrite insert_id|].
  unfold mbind at 1, M_bind at 1, node_at. unfold mbind at 1, M_bind at 1, get. rewrite Hn. cbn [deref mret M_ret].
  set (x1 := upd_recv q (oobmsgqueue x) (u16 (totmsgcount x - 1)) (oobmsgcount x) x).
  unfold mbind at 1, M_bind at 1, put_node, modify. set (s1 := upd_nodes (<[n := x1]>) s).
  assert (pool_inv (m :: held) s1) as H1.
  { apply (pool_pop n x); [done | done | |].
    - destruct (pi_tot _ _ H n x Hn) as [Et Eo]. split; [|done]. cbn [x1 upd_recv totmsgcount msgqueue oobmsgqueue]. rewrite Et, Hq. cbn [length]. apply u16_pred.
    - intros k. unfold node_refs. cbn [x1 upd_recv msgqueue oobmsgqueue]. rewrite Hq, occ_cons. case_decide; lia. }
  destruct (pool_put m held s1 H1) as (s2 & E2 & H2 & Esh2 & En2 & _ & Ec2). unfold mbind at 1, M_bind at 1. rewrite E2.
  assert (nodes s2 !! n = Some x1) as Hn2 by (rewrite En2; apply lookup_insert_eq).
  destruct (IH s2 x1 H2 Hn2 eq_refl) as (s' & x' & E & H' & Esh & Ec & En & Hq' & Ho & Est). exists s', x'.
  split_and!; [done | done | | split; [by rewrite (proj1 Ec), (proj1 Ec2) | by rewrite (proj2 Ec), (proj2 Ec2)] | | done | done | done].
  - rewrite Esh, Esh2. by apply (upd_nodes_shape s n x).
  - rewrite En, En2. cbn [s1 upd_nodes nodes]. apply insert_insert_eq.
Qed.

Lemma flush_oob_spec n held q : ∀ s x, pool_inv held s → nodes s !! n = Some x → oobmsgqueue x = q →
  ∃ s' x', flush_oob_loop n q s = Done () s' ∧ pool_inv held s' ∧ shape s' = shape s ∧ same_counters s s' ∧
    nodes s' = <[n := x']> (nodes s) ∧ oobmsgqueue x' = [] ∧ msgqueue x' = msgqueue x ∧ static x' = static x.
Proof.
  induction q as [|m q IH]; intros s x H Hn Hq; cbn [flush_oob_loop]; [exists s, x; split_and!; try done; by rewrite insert_id|].
  unfold mbind at 1, M_bind at 1, node_at. unfold mbind at 1, M_bind at 1, get. rewrite Hn. cbn [deref mret M_ret].
  set (x1 := upd_recv (msgqueue x) q (u16 (totmsgcount x - 1)) (u16 (oobmsgcount x - 1)) x).
  unfold mbind at 1, M_bind at 1, put_node, modify. set (s1 := upd_nodes (<[n := x1]>) s).
  assert (pool_inv (m :: held) s1) as H1.
  { apply (pool_pop n x); [done | done | |].
    - destruct (pi_tot _ _ H n x Hn) as [Et Eo]. split; cbn [x1 upd_recv totmsgcount oobmsgcount msgqueue oobmsgqueue]; rewrite ?Et, ?Eo, Hq; cbn [length].
      + rewrite Nat.add_comm, (Nat.add_comm (length (msgqueue x))). apply u16_pred.
      + replace (S (length q)) with (S (length q) + 0)%nat by lia. rewrite u16_pred. by rewrite Nat.add_0_r.
    - intros k. unfold node_refs. cbn [x1 upd_recv msgqueue oobmsgqueue]. rewrite Hq, occ_cons. case_decide; lia. }
  destruct (pool_put m held s1 H1) as (s2 & E2 & H2 & Esh2 & En2 & _ & Ec2). unfold mbind at 1, M_bind at 1. rewrite E2.
  assert (nodes s2 !! n = Some x1) as Hn2 by (rewrite En2; apply lookup_insert_eq).
  destruct (IH s2 x1 H2 Hn2 eq_refl) as (s' & x' & E & H' & Esh & Ec & En & Hq' & Ho & Est). exists s', x'.
  split_and!; [done | done | | split; [by rewrite (proj1 Ec), (proj1 Ec2) | by rewrite (proj2 Ec), (proj2 Ec2)] | | done | done | done].
  - rewrite Esh, Esh2. by apply (upd_nodes_shape s n x).
  - rewrite En, En2. cbn [s1 upd_nodes nodes]. apply insert_insert_eq.
Qed.

(** The queues of data messages are the same. *)
Definition same_queues (s s' : ipn_network P) : Prop := ∀ n y, nodes s' !! n = Some y → ∃ y0, nodes s !! n = Some y0 ∧ msgqueue y = msgqueue y0.

Lemma update_counters_spec dr dw held s : pool_inv held s → (∀ n, n ∈ connectqueue s → is_Some (nodes s !! n)) →
  ∃ s', ipn_net_update_counters dr dw s = Done () s' ∧ pool_inv held s' ∧ shape s' = shape s ∧ same_queues s s' ∧
    numreaders s' = numreaders s + dr ∧ numwriters s' = numwriters s + dw ∧ (∀ n, n ∉ connectqueue s → nodes s' !! n = nodes s !! n).
Proof.
  intros H Hconn. unfold ipn_net_update_counters. unfold mbind at 1, M_bind at 1, modify. set (s1 := upd_counters _ _ s).
  assert (pool_inv held s1) as H1 by (destruct H; by split). unfold mbind at 1, M_bind at 1, get.
  destruct (SIZEOF_NUMNODE_OOB <=? mtu s1); cbn [whenM]; [|exists s1; split_and!; try done; intros n y Hy; by exists y].
  set (d := int_bytes IPN_ANY ++ _). destruct (pool_new d held s1 H1) as (m & s2 & E2 & H2 & Esh2 & En2 & _ & _ & Er2 & Ew2).
  unfold mbind at 1, M_bind at 1. rewrite E2.
  assert (∀ l s3, pool_inv (m :: held) s3 → shape s3 = shape s1 → (∀ n, n ∈ l → is_Some (nodes s3 !! n)) →
    ∃ s', forM l (λ n, x ← node_at n; whenM (oob_numnodes x) (ipn_proto_oobsendmsg n m)) s3 = Done () s' ∧ pool_inv (m :: held) s' ∧ shape s' = shape s1 ∧
      same_queues s3 s' ∧ same_counters s3 s' ∧ (∀ n, n ∉ l → nodes s' !! n = nodes s3 !! n)) as Hloop.
  { induction l as [|n l IH]; intros s3 H3 Esh3 Hl; cbn [forM]; [exists s3; split_and!; try done; intros k y Hy; by exists y|].
    destruct (Hl n) as [x Hx]; [set_solver|]. unfold mbind at 1, M_bind at 1. unfold mbind at 1, M_bind at 1, node_at. unfold mbind at 1, M_bind at 1, get. rewrite Hx. cbn [deref mret M_ret].
    destruct (oob_numnodes x); cbn [whenM].
    - destruct (oobsend_spec n m (m :: held) s3 x H3) as (s4 & E4 & H4 & Esh4 & _ & Ec4 & Hq4 & Hk4); [set_solver | done|]. rewrite E4.
      destruct (IH s4) as (s' & E & H' & Esh & Hq & Ec & Hk); [done | congruence | intros k Hk; apply (shape_is_Some s3); [done | apply Hl; set_solver] |].
      exists s'. split_and!; [done | done | done | | destruct Ec, Ec4; split; congruence | intros k [Hkn Hkl]%not_elem_of_cons; by rewrite Hk, Hk4]. intros k y (y1 & Hy1 & E1)%Hq. destruct (Hq4 k y1 Hy1) as (y0 & Hy0 & E0). exists y0. split; [done | congruence].
    - cbn [mret M_ret]. destruct (IH s3) as (s' & E & H' & Esh & Hq & Ec & Hk); [done | done | set_solver |]. exists s'. split_and!; [done..|]. set_solver. }
  unfold mbind at 1, M_bind at 1.
  destruct (Hloop (connectqueue s1) s2 H2 Esh2) as (s3 & E3 & H3 & Esh3 & Hq3 & [Er3 Ew3] & Hk3).
  { intros n Hn. rewrite En2. by apply Hconn. }
  rewrite E3. destruct (pool_put m held s3 H3) as (s' & E' & H' & Esh' & En' & _ & Er' & Ew'). exists s'.
  split_and!; [done | done | by rewrite Esh', Esh3 | | by rewrite Er', Er3, Er2 | by rewrite Ew', Ew3, Ew2 | intros n Hn; by rewrite En', Hk3, En2].
  intros n y Hy. rewrite En' in Hy. destruct (Hq3 n y Hy) as (y0 & Hy0 & E0). exists y0. by rewrite En2 in Hy0.
Qed.
End pool.
