(* ===== verification/IpnNet.v ===== *)
(** * IpnNet: the life of a network of the kernel module

    What [Ipn] defines, as a transition system: nodes come and go, processes send
    and receive, time passes.  The class [ProtocolLaws] states what a protocol
    promises to the network: it gives free ports only, it sends the message it is
    given to connected nodes and does nothing else but change its own state, and its
    invariant survives what the network does.  The hub and the switch are
    instances. *)
From Stdlib Require Import Lia.
From stdpp Require Import base numbers list gmap relations fin_maps.
From S2P Require Import Prelude IpnHash Ipn.

(** ** Nodes and ports *)

Record net_inv {P} (s : ipn_network P) : Prop := {
  ni_len : Z.of_nat (length (connport s)) = maxports s;
  ni_conn : ∀ p n, connport s !! p = Some (Some n) ↔ n ∈ connectqueue s ∧ ∃ x, nodes s !! n = Some x ∧ portno x = Z.of_nat p;
  ni_port : ∀ n x, n ∈ connectqueue s → nodes s !! n = Some x → ∃ p, portno x = Z.of_nat p;
  ni_nodup : NoDup (unconnectqueue s ++ connectqueue s);
  ni_in : ∀ n, n ∈ unconnectqueue s ++ connectqueue s ↔ ∃ x, nodes s !! n = Some x ∧ in_net x = true;
  ni_free : ∀ n x, nodes s !! n = Some x → n ∉ connectqueue s → portno x < 0 ∧ bound x = in_net x;
  ni_ref : refcnt s = Z.of_nat (length (unconnectqueue s) + length (connectqueue s))
}.

Lemma static_lookup {P} (s s' : ipn_network P) n x' : static <$> nodes s' = static <$> nodes s → nodes s' !! n = Some x' →
  ∃ x, nodes s !! n = Some x ∧ static x = static x'.
Proof.
  intros E Hx. apply (f_equal (.!! n)) in E. rewrite !lookup_fmap, Hx in E. destruct (nodes s !! n) as [x|]; [|discriminate].
  exists x. split; [done|]. by apply (inj Some) in E.
Qed.

(** The invariant is about the shape. *)
Lemma net_inv_shape {P} (s s' : ipn_network P) : shape s' = shape s → net_inv s → net_inv s'.
Proof.
  intros E [H1 H2 H3 H4 H5 H6 H7]. unfold shape in E. injection E as En Eu Ec Er El Em Es Et Ep _ _.
  assert (∀ n x', nodes s' !! n = Some x' → ∃ x, nodes s !! n = Some x ∧ static x = static x') as Hb by (intros; by eapply static_lookup).
  assert (∀ n x, nodes s !! n = Some x → ∃ x', nodes s' !! n = Some x' ∧ static x' = static x) as Hf by (intros; by eapply static_lookup).
  split; rewrite ?Eu, ?Ec, ?Er, ?Em, ?Ep; [done | | | done | | | done].
  - intros p n. rewrite H2. split; intros (Hn & x & Hx & Hp); (split; [done|]); [destruct (Hf n x Hx) as (y & Hy & Ey) | destruct (Hb n x Hx) as (y & Hy & Ey)];
      exists y; (split; [done|]); injection Ey; congruence.
  - intros n x' Hn Hx'. destruct (Hb n x' Hx') as (x & Hx & Ex). destruct (H3 n x Hn Hx) as [p Hp]. exists p. injection Ex. congruence.
  - intros n. rewrite H5. split; intros (x & Hx & Hp); [destruct (Hf n x Hx) as (y & Hy & Ey) | destruct (Hb n x Hx) as (y & Hy & Ey)];
      exists y; (split; [done|]); injection Ey; congruence.
  - intros n x' Hx' Hn. destruct (Hb n x' Hx') as (x & Hx & Ex). destruct (H6 n x Hx Hn). injection Ex. intros. split; congruence.
Qed.

Lemma conn_nodes {P} (s : ipn_network P) n : net_inv s → n ∈ connectqueue s → is_Some (nodes s !! n).
Proof. intros H Hn. destruct (proj1 (ni_in _ H n)) as (x & Hx & _); [set_solver|]. eauto. Qed.
Lemma conn_port {P} (s : ipn_network P) n x : net_inv s → n ∈ connectqueue s → nodes s !! n = Some x →
  ∃ p, portno x = Z.of_nat p ∧ connport s !! p = Some (Some n).
Proof. intros H Hn Hx. destruct (ni_port _ H n x Hn Hx) as [p Hp]. exists p. split; [done|]. apply (ni_conn _ H). eauto. Qed.

(** ** The laws of a protocol *)

(** Far from the end of time, so that timeouts do not wrap around. *)
Definition time_ok (t : Z) : Prop := 0 ≤ t < 2 ^ 62.

Class ProtocolLaws (P : Type) `{IpnProtocol P} := {
  p_inv : P → Z → list (option nat) → Prop;
  p_newport_law : ∀ n s, net_inv s → ∃ r, ipn_p_newport n s = Done r s ∧ (r = -1 ∨ ∃ p, r = Z.of_nat p ∧ connport s !! p = Some None);
  p_handle_law : ∀ from m s x it, net_inv s → p_inv (proto_private s) (jiffies s) (connport s) → time_ok (jiffies s) →
    from ∈ connectqueue s → nodes s !! from = Some x → msgs s !! m = Some it → m_len it = Z.of_nat (length (m_data it)) →
    ∃ p ds, ipn_p_handlemsg from m s = forM ds (λ n, ipn_proto_sendmsg (Some n) m) (upd_private p s) ∧
      (∀ d, d ∈ ds → d ∈ connectqueue s) ∧ p_inv p (jiffies s) (connport s);
  p_delport_law : ∀ n s x i, p_inv (proto_private s) (jiffies s) (<[i := Some n]> (connport s)) → nodes s !! n = Some x →
    portno x = Z.of_nat i → connport s !! i = Some None → ∃ p, ipn_p_delport n s = Done () (upd_private p s) ∧ p_inv p (jiffies s) (connport s);
  p_timer_law : ∀ s, p_inv (proto_private s) (jiffies s) (connport s) → time_ok (jiffies s) →
    ∃ p, ipn_p_timer s = Done () (upd_private p s) ∧ p_inv p (jiffies s) (connport s);
  p_mono : ∀ p t t' c c', p_inv p t c → t ≤ t' → (∀ i n, c !! i = Some (Some n) → c' !! i = Some (Some n)) → p_inv p t' c'
}.

Section life.
Context {P : Type} `{ProtocolLaws P}.

Record inv (held : list nat) (s : ipn_network P) : Prop := {
  i_pool : pool_inv held s;
  i_net : net_inv s;
  i_proto : p_inv (proto_private s) (jiffies s) (connport s);
  i_time : time_ok (jiffies s);
  i_empty : ∀ n x, nodes s !! n = Some x → n ∉ connectqueue s → msgqueue x = [] ∧ oobmsgqueue x = []
}.

(** Nodes that are not connected get no messages. *)
Definition quiet_outside (s s' : ipn_network P) : Prop := ∀ n x', nodes s' !! n = Some x' → n ∉ connectqueue s →
  ∃ x, nodes s !! n = Some x ∧ (msgqueue x = [] → msgqueue x' = []) ∧ (oobmsgqueue x = [] → oobmsgqueue x' = []).
Lemma quiet_same (s s' : ipn_network P) : (∀ n, n ∉ connectqueue s → nodes s' !! n = nodes s !! n) → quiet_outside s s'.
Proof. intros E n x' Hx' Hn. rewrite E in Hx' by done. eauto. Qed.

Lemma inv_shape held held' s s' : inv held s → pool_inv held' s' → shape s' = shape s → quiet_outside s s' → inv held' s'.
Proof.
  intros [H1 H2 H3 H4 H5] Hp E Hq. 
  assert (proto_private s' = proto_private s ∧ jiffies s' = jiffies s ∧ connport s' = connport s) as (E1 & E2 & E3) by (unfold shape in E; split_and!; congruence).
  assert (connectqueue s' = connectqueue s) as E4 by (unfold shape in E; congruence).
  split; [done | by apply (net_inv_shape s) | by rewrite E1, E2, E3 | by rewrite E2|]. intros n x' Hx'. rewrite E4. intros Hn.
  destruct (Hq n x' Hx' Hn) as (x & Hx & Hq1 & Hq2). destruct (H5 n x Hx Hn). auto.
Qed.

(** ** Messages *)

Lemma alloc_inv held s data : inv held s → ∃ m s', msgpool_new data s = Done m s' ∧ inv (m :: held) s'.
Proof.
  intros Hi. destruct (pool_new data held s (i_pool _ _ Hi)) as (m & s' & E & Hp & Esh & En & _). exists m, s'. split; [done|].
  apply (inv_shape held _ s); [done..|]. apply quiet_same. by rewrite En.
Qed.

Lemma put_inv held s m : inv (m :: held) s → ∃ s', ipn_msgpool_put m s = Done () s' ∧ inv held s'.
Proof.
  intros Hi. destruct (pool_put m held s (i_pool _ _ Hi)) as (s' & E & Hp & Esh & En & _). exists s'. split; [done|].
  apply (inv_shape (m :: held) _ s); [done..|]. apply quiet_same. by rewrite En.
Qed.

Lemma inv_perm held held' s : (∀ m, occ m held = occ m held') → inv held s → inv held' s.
Proof.
  intros E [[H1 H2 H3 H4 H5 H6] Hn Hp Ht He]. split; [|done..]. split; [| |done..].
  - intros m it Hm. rewrite <- E. auto.
  - intros m. rewrite <- E. auto.
Qed.

Lemma sends_inv held s m ds : inv held s → m ∈ held → (∀ d, d ∈ ds → d ∈ connectqueue s) →
  ∃ s', forM ds (λ n, ipn_proto_sendmsg (Some n) m) s = Done () s' ∧ inv held s' ∧ shape s' = shape s ∧ same_data s s'.
Proof.
  revert s. induction ds as [|d ds IH]; intros s Hi Hm Hd; cbn [forM]; [by exists s|].
  destruct (conn_nodes s d (i_net _ _ Hi)) as [x Hx]; [apply Hd; set_solver|].
  destruct (sendmsg_spec d m held s x (i_pool _ _ Hi) Hm Hx) as (s1 & E1 & Hp1 & Esh1 & Ed1 & _ & En1). unfold mbind, M_bind. rewrite E1.
  destruct (IH s1) as (s' & E & Hi' & Esh & Ed); [| done | |].
  - apply (inv_shape held _ s); [done..|]. apply quiet_same. intros n Hn. rewrite En1. case_match; [|done].
    rewrite lookup_insert_ne; [done|]. intros <-. apply Hn, Hd. set_solver.
  - intros k Hk. assert (connectqueue s1 = connectqueue s) as -> by (unfold shape in Esh1; congruence). apply Hd. set_solver.
  - exists s'. split_and!; [done | done | congruence|]. intros k. by rewrite Ed.
Qed.

Lemma private_inv held s p : inv held s → p_inv p (jiffies s) (connport s) → inv held (upd_private p s).
Proof. intros [[H1 H2 H3 H4 H5 H6] [N1 N2 N3 N4 N5 N6 N7] Hp Ht He] Hp'. split; [by split | by split | done | done | done]. Qed.

Lemma handle_inv held s from m : inv held s → m ∈ held → from ∈ connectqueue s → ∃ s', ipn_p_handlemsg from m s = Done () s' ∧ inv held s'.
Proof.
  intros Hi Hm Hf. destruct (conn_nodes s from (i_net _ _ Hi) Hf) as [x Hx]. destruct (pi_live _ _ (i_pool _ _ Hi) m) as [it Hit].
  { pose proof (occ_pos m held Hm). pose proof (refs_nonneg m (nodes s)). lia. }
  destruct (p_handle_law from m s x it) as (p & ds & E & Hds & Hp); [apply Hi | apply Hi | apply Hi | done | done | done | by apply (pi_len _ _ (i_pool _ _ Hi) m)|].
  rewrite E. destruct (sends_inv held (upd_private p s) m ds) as (s' & E' & Hi' & _); [by apply private_inv | done | done|]. eauto.
Qed.
Lemma inject_inv rec intr held s from m : inv held s → m ∈ held → from ∈ connectqueue s → ∃ r s', ipn_proto_injectmsg rec intr from m s = Done r s' ∧ inv held s'.
Proof.
  intros Hi Hm Hf. destruct (handle_inv held s from m Hi Hm Hf) as (s' & E & Hi'). unfold ipn_proto_injectmsg.
  destruct rec, intr; cbv iota; unfold mbind, M_bind; rewrite ?E; unfold mret, M_ret; eauto.
Qed.

Lemma quiet_pop (s : ipn_network P) n x x' : nodes s !! n = Some x → (msgqueue x = [] → msgqueue x' = []) → (oobmsgqueue x = [] → oobmsgqueue x' = []) →
  quiet_outside s (upd_nodes (<[n := x']>) s).
Proof. intros Hx Hq Ho k y. cbn [upd_nodes nodes]. intros [[<- <-] | [_ Hk]]%lookup_insert_Some _; eauto. Qed.

Lemma take_inv held s n x : inv held s → nodes s !! n = Some x → ∃ r s', read_take n s = Done r s' ∧
  match r with inl _ => s' = s | inr (m, _) => inv (m :: held) s' end.
Proof.
  intros Hi Hx. unfold read_take, node_at. unfold mbind at 1, M_bind at 1. unfold mbind at 1, M_bind at 1, get. rewrite Hx. cbn [deref mret M_ret].
  destruct (Z.land (shutdown x) XRCV_SHUTDOWN =? XRCV_SHUTDOWN); [by do 2 eexists|].
  destruct (pi_tot _ _ (i_pool _ _ Hi) n x Hx) as [Et Eo].
  destruct (Z.eqb_spec (totmsgcount x) 0) as [E0|E0]; [by do 2 eexists|]. destruct (oobmsgqueue x) as [|m o] eqn:Eoq.
  - destruct (msgqueue x) as [|m q] eqn:Eq; [by rewrite Et in E0|]. do 2 eexists. split; [done|]. cbn.
    apply (inv_shape held _ s); [done | | by apply (upd_nodes_shape s n x) | eapply quiet_pop; [exact Hx | cbn; rewrite ?Eq; by intros | cbn; rewrite ?Eoq; by intros]]. apply (pool_pop n x); [by apply Hi | done | |].
    + split; cbn [upd_recv totmsgcount oobmsgcount msgqueue oobmsgqueue]; [rewrite Et; apply u16_pred | done].
    + intros k. unfold node_refs. cbn [upd_recv msgqueue oobmsgqueue]. rewrite Eq, Eoq, occ_cons. case_decide; lia.
  - do 2 eexists. split; [done|]. cbn. apply (inv_shape held _ s); [done | | by apply (upd_nodes_shape s n x) | eapply quiet_pop; [exact Hx | cbn; rewrite ?Eq; by intros | cbn; rewrite ?Eoq; by intros]]. apply (pool_pop n x); [by apply Hi | done | |].
    + split; cbn [upd_recv totmsgcount oobmsgcount msgqueue oobmsgqueue]; rewrite ?Et, ?Eo; cbn [length].
      * rewrite Nat.add_comm, (Nat.add_comm (length (msgqueue x))). apply u16_pred.
      * replace (S (length o)) with (S (length o) + 0)%nat by lia. rewrite u16_pred. by rewrite Nat.add_0_r.
    + intros k. unfold node_refs. cbn [upd_recv msgqueue oobmsgqueue]. rewrite Eoq, occ_cons. case_decide; lia.
Qed.

(** ** Nodes *)

(** A node whose queues stay. *)
Lemma pool_static held (s : ipn_network P) n x x' : pool_inv held s → nodes s !! n = Some x → msgqueue x' = msgqueue x → oobmsgqueue x' = oobmsgqueue x →
  totmsgcount x' = totmsgcount x → oobmsgcount x' = oobmsgcount x → pool_inv held (upd_nodes (<[n := x']>) s).
Proof.
  intros [H1 H2 H3 H4 H5 H6] Hn Eq Eo Et Ec. assert (∀ m, refs m (<[n := x']> (nodes s)) = refs m (nodes s)) as Hr.
  { intros m. rewrite (msg_refs_insert m _ n x x' Hn). unfold node_refs. rewrite Eq, Eo. lia. }
  split; cbn [upd_nodes nodes msgs msgpool_nelem next_msg]; [intros m it; rewrite Hr; apply H1 | intros m; rewrite Hr; apply H2 | done | done | | done].
  intros k y. destruct (decide (k = n)) as [->|]; [rewrite lookup_insert_eq; intros [= <-]; rewrite Eq, Eo, Et, Ec; by apply (H5 n) | rewrite lookup_insert_ne by done; apply H5].
Qed.
Lemma pool_frame held (s s' : ipn_network P) : nodes s' = nodes s → msgs s' = msgs s → msgpool_nelem s' = msgpool_nelem s → next_msg s' = next_msg s →
  pool_inv held s → pool_inv held s'.
Proof. intros En Em Ee Ex [H1 H2 H3 H4 H5 H6]. split; rewrite ?En, ?Em, ?Ee, ?Ex; done. Qed.

(** A change of one node that keeps its place in the network. *)
Lemma node_change_inv held s n x x' : inv held s → nodes s !! n = Some x → msgqueue x' = msgqueue x → oobmsgqueue x' = oobmsgqueue x →
  totmsgcount x' = totmsgcount x → oobmsgcount x' = oobmsgcount x → portno x' = portno x → bound x' = bound x → in_net x' = in_net x →
  inv held (upd_nodes (<[n := x']>) s).
Proof.
  intros [Hp [N1 N2 N3 N4 N5 N6 N7] Hpr Ht He] Hn Eq Eo Et Ec Ep Eb Ei. split; [by apply (pool_static held s n x) | | done | done |].
  2: { cbn [upd_nodes upd_queues nodes connectqueue]. intros k y [[<- <-] | [_ Hk]]%lookup_insert_Some Hc; [rewrite Eq, Eo; by apply (He n) | by apply (He k)]. }
  assert (∀ k y', <[n := x']> (nodes s) !! k = Some y' → ∃ y, nodes s !! k = Some y ∧ portno y' = portno y ∧ bound y' = bound y ∧ in_net y' = in_net y) as Hb.
  { intros k y' [[<- <-] | [_ Hk]]%lookup_insert_Some; eauto. }
  assert (∀ k y, nodes s !! k = Some y → ∃ y', <[n := x']> (nodes s) !! k = Some y' ∧ portno y' = portno y ∧ bound y' = bound y ∧ in_net y' = in_net y) as Hf.
  { intros k y Hk. destruct (decide (n = k)) as [<-|]; [exists x'; rewrite lookup_insert_eq, Hn in *; by injection Hk as <- | exists y; by rewrite lookup_insert_ne]. }
  split; cbn [upd_nodes nodes connport connectqueue unconnectqueue maxports refcnt]; [done | | | done | | | done].
  - intros p k. rewrite N2. split; intros (Hk & y & Hy & Hpy); (split; [done|]); [destruct (Hf k y Hy) as (z & Hz & ? & _) | destruct (Hb k y Hy) as (z & Hz & ? & _)]; exists z; (split; [done | congruence]).
  - intros k y' Hk Hy'. destruct (Hb k y' Hy') as (y & Hy & E & _). rewrite E. by apply (N3 k).
  - intros k. rewrite N5. split; intros (y & Hy & Hiy); [destruct (Hf k y Hy) as (z & Hz & _ & _ & ?) | destruct (Hb k y Hy) as (z & Hz & _ & _ & ?)]; exists z; (split; [done | congruence]).
  - intros k y' Hy' Hk. destruct (Hb k y' Hy') as (y & Hy & E1 & E2 & E3). rewrite E1, E2, E3. by apply (N6 k).
Qed.

Lemma create_inv held s n dev : inv held s → nodes s !! n = None → ∃ s', ipn_node_create n dev s = Done () s' ∧ inv held s'.
Proof.
  intros [[H1 H2 H3 H4 H5 H6] [N1 N2 N3 N4 N5 N6 N7] Hpr Ht He] Hn. eexists. split; [done|]. set (x := IpnNode _ _ _ _ _ _ _ _ _ _).
  assert (∀ m, refs m (<[n := x]> (nodes s)) = refs m (nodes s)) as Hr by (intros m; rewrite msg_refs_insert_new by done; done).
  assert (∀ k, k ∈ unconnectqueue s ++ connectqueue s → k ≠ n) as Hne by (intros k (y & Hy & _)%N5 ->; congruence).
  split; [split| split | done | done |]; cbn [upd_nodes nodes msgs msgpool_nelem next_msg connport connectqueue unconnectqueue maxports refcnt]; try done.
  - intros m it. rewrite Hr. apply H1.
  - intros m. rewrite Hr. apply H2.
  - intros k y [[_ <-] | [_ Hk]]%lookup_insert_Some; [done | by apply (H5 k)].
  - intros p k. rewrite N2. split; intros (Hk & y & Hy & Hp); (split; [done|]); exists y; (split; [|done]); rewrite lookup_insert_ne in *; done || (apply not_eq_sym, Hne; set_solver).
  - intros k y Hk. rewrite lookup_insert_ne by (apply not_eq_sym, Hne; set_solver). by apply N3.
  - intros k. rewrite N5. split; intros (y & Hy & Hi).
    + exists y. split; [|done]. rewrite lookup_insert_ne; [done | intros <-; congruence].
    + apply lookup_insert_Some in Hy as [[_ <-] | [_ Hy]]; [done | eauto].
  - intros k y [[_ <-] | [_ Hk]]%lookup_insert_Some Hc; [done | by apply (N6 k)].
  - intros k y [[_ <-] | [_ Hk]]%lookup_insert_Some Hc; [done | by apply (He k)].
Qed.

Lemma node_bind_inv held s n x : inv held s → nodes s !! n = Some x → ∃ r s', ipn_node_bind n s = Done r s' ∧ inv held s'.
Proof.
  intros Hi Hn. unfold ipn_node_bind, node_at. unfold mbind at 1, M_bind at 1. unfold mbind at 1, M_bind at 1, get. rewrite Hn. cbn [deref mret M_ret].
  destruct (in_net x) eqn:Ein; [do 2 eexists; done|]. do 2 eexists. split; [done|].
  destruct Hi as [Hp [N1 N2 N3 N4 N5 N6 N7] Hpr Ht He].
  assert (n ∉ unconnectqueue s ++ connectqueue s) as Hout by (intros (y & Hy & Ey)%N5; congruence).
  set (x' := upd_place true true (portno x) x). assert (n ∉ connectqueue s) as Hnc by set_solver. destruct (N6 n x Hn Hnc) as [Hneg _].
  split; [| | done | done |].
  { apply (pool_static held (upd_queues _ _ _ s) n x); try done. by apply (pool_frame held s). }
  2: { cbn [upd_nodes upd_queues nodes connectqueue]. intros k y [[<- <-] | [_ Hk]]%lookup_insert_Some Hc; [by apply (He n x Hn) | by apply (He k)]. }
  split; cbn [upd_nodes upd_queues nodes connport connectqueue unconnectqueue maxports refcnt].
  - done.
  - intros p k. rewrite N2. split; intros (Hk & y & Hy & Hpy); (split; [done|]); exists y; (split; [|done]); rewrite lookup_insert_ne in *; done || (intros <-; done).
  - intros k y Hk. rewrite lookup_insert_ne by (intros <-; done). by apply N3.
  - rewrite <- app_assoc. cbn [app]. rewrite <- (Permutation_middle (unconnectqueue s) (connectqueue s) n). by constructor.
  - intros k. rewrite !elem_of_app, list_elem_of_singleton. destruct (decide (k = n)) as [->|Hne].
    + rewrite lookup_insert_eq. split; [eauto | auto].
    + rewrite lookup_insert_ne by done. rewrite <- N5, elem_of_app. naive_solver.
  - intros k y [[<- <-] | [_ Hk]]%lookup_insert_Some Hc; [done | by apply (N6 k)].
  - rewrite length_app. cbn [length]. lia.
Qed.

(** The state in which a node has been given a port. *)
Definition placed (n : nat) (x : ipn_node) (p : nat) (s : ipn_network P) : ipn_network P :=
  upd_queues (if bound x then filter (λ k, k ≠ n) (unconnectqueue s) else unconnectqueue s) (connectqueue s ++ [n])
    (if bound x then refcnt s else refcnt s + 1)
    (upd_ports (maxports s) (<[p := Some n]> (connport s)) (upd_nodes (<[n := upd_place (bound x) true (Z.of_nat p) x]>) s)).

Lemma length_filter_ne (l : list nat) n : NoDup l → n ∈ l → length l = S (length (filter (λ k, k ≠ n) l)).
Proof.
  intros Hnd Hin. apply list_elem_of_split in Hin as (l1 & l2 & ->). apply NoDup_app in Hnd as (_ & Hd & [Hn _]%NoDup_cons).
  assert (n ∉ l1) as Hl1 by (intros Hl; apply (Hd n Hl); set_solver).
  rewrite filter_app, filter_cons, decide_False by naive_solver. rewrite !filter_other by done. rewrite !length_app. cbn [length]. lia.
Qed.

Lemma placed_net n x p s : net_inv s → nodes s !! n = Some x → n ∉ connectqueue s → connport s !! p = Some None → net_inv (placed n x p s).
Proof.
  intros [N1 N2 N3 N4 N5 N6 N7] Hn Hnc Hp. destruct (N6 n x Hn Hnc) as [Hneg Hb]. apply NoDup_app in N4 as (Nu & Nd & Nc).
  set (x' := upd_place (bound x) true (Z.of_nat p) x). assert (p < length (connport s))%nat as Hlen by (by eapply lookup_lt_Some).
  assert (bound x = false → n ∉ unconnectqueue s) as Hnu.
  { intros Hbf Hin. destruct (proj1 (N5 n)) as (y & Hy & Ey); [set_solver|]. rewrite Hn in Hy. injection Hy as <-. congruence. }
  assert (bound x = true → n ∈ unconnectqueue s) as Hyu.
  { intros Hbt. assert (n ∈ unconnectqueue s ++ connectqueue s) as Hin by (apply N5; exists x; split; [done | congruence]). set_solver. }
  assert (∀ k, k ∈ (if bound x then filter (λ j, j ≠ n) (unconnectqueue s) else unconnectqueue s) ↔ k ∈ unconnectqueue s ∧ k ≠ n) as Hu.
  { intros k. destruct (bound x); [rewrite list_elem_of_filter; naive_solver|]. split; [|naive_solver]. intros Hk. split; [done|]. intros ->. by apply Hnu. }
  split; cbn [placed upd_queues upd_ports upd_nodes nodes connport connectqueue unconnectqueue maxports refcnt].
  - by rewrite length_insert.
  - intros q k. rewrite elem_of_app, list_elem_of_singleton, list_lookup_insert_Some, N2. split.
    + intros [(<- & [= <-] & _) | (Hq & Hk & y & Hy & Hpy)]; [split; [by right | exists x'; by rewrite lookup_insert_eq]|].
      split; [by left|]. exists y. rewrite lookup_insert_ne; [done | intros <-; done].
    + intros ([Hk | ->] & y & Hy & Hpy).
      * rewrite lookup_insert_ne in Hy by (intros <-; done). right. split; [|eauto]. intros <-.
        assert (connport s !! p = Some (Some k)) as E by (apply N2; eauto). congruence.
      * rewrite lookup_insert_eq in Hy. injection Hy as <-. cbn in Hpy. left. split_and!; [lia | done | lia].
  - intros k y Hk. destruct (decide (k = n)) as [->|Hne]; [rewrite lookup_insert_eq; intros [= <-]; by exists p|]. rewrite lookup_insert_ne by done. apply N3. set_solver.
  - apply NoDup_app. split_and!; [destruct (bound x); [by apply NoDup_filter | done] | intros k [Hk Hkn]%Hu; specialize (Nd k Hk); set_solver |].
    apply NoDup_app. split_and!; [done | set_solver | apply NoDup_singleton].
  - intros k. rewrite !elem_of_app, list_elem_of_singleton, Hu. destruct (decide (k = n)) as [->|Hne].
    + rewrite lookup_insert_eq. split; [eauto | auto].
    + rewrite lookup_insert_ne by done. rewrite <- N5, elem_of_app. naive_solver.
  - intros k y [[<- <-] | [_ Hk]]%lookup_insert_Some Hc; [set_solver|]. apply (N6 k); [done | set_solver].
  - rewrite length_app. cbn [length]. destruct (bound x) eqn:Eb; [|lia]. rewrite (length_filter_ne (unconnectqueue s) n) in N7; [lia | done | by apply Hyu].
Qed.

Lemma connect_inv held s n x : inv held s → nodes s !! n = Some x → ∃ r s', ipn_connect n s = Done r s' ∧ inv held s'.
Proof.
  intros Hi Hn. unfold ipn_connect, node_at. unfold mbind at 1, M_bind at 1. unfold mbind at 1, M_bind at 1, get. rewrite Hn. cbn [deref mret M_ret].
  unfold mbind at 1, M_bind at 1, get. unfold connected. case_bool_decide as Hc; [do 2 eexists; done|].
  destruct (p_newport_law n s (i_net _ _ Hi)) as (r & Er & Hr). unfold mbind at 1, M_bind at 1. rewrite Er. unfold mbind at 1, M_bind at 1.
  destruct Hr as [-> | (p & -> & Hp)]; [do 2 eexists; done|]. pose proof (lookup_lt_Some _ _ _ Hp) as Hlt. pose proof (ni_len _ (i_net _ _ Hi)) as Hlen.
  destruct (Z.leb_spec 0 (Z.of_nat p)); [|lia]. destruct (Z.ltb_spec (Z.of_nat p) (maxports s)); [|lia]. cbn [andb].
  assert (zset (connport s) (Z.of_nat p) (Some n) = Some (<[p := Some n]> (connport s))) as Ez.
  { unfold zset. destruct (Z.ltb_spec (Z.of_nat p) 0); [lia|]. destruct (Z.leb_spec (Z.of_nat (length (connport s))) (Z.of_nat p)); [lia|]. cbn [orb]. by rewrite Nat2Z.id. }
  unfold mbind at 1, M_bind at 1, put_node, modify at 1. unfold mbind at 1, M_bind at 1. rewrite Ez. cbn [deref mret M_ret].
  unfold mbind at 1, M_bind at 1, modify at 1. unfold mbind at 1, M_bind at 1.
  assert (inv held (placed n x p s)) as Hi'.
  { split; [| by apply placed_net; [apply Hi|..] | | apply Hi |].
    - apply (pool_frame held (upd_nodes (<[n := upd_place (bound x) true (Z.of_nat p) x]>) s)); try done. apply (pool_static held s n x); try done. apply Hi.
    - apply (p_mono _ (jiffies s) _ (connport s)); [apply Hi | done|]. intros i k Hk. cbn. rewrite list_lookup_insert_ne; [done | intros <-; congruence].
    - cbn [placed upd_queues upd_ports upd_nodes nodes connectqueue]. intros k y [[<- <-] | [_ Hk]]%lookup_insert_Some Hk'; [set_solver|]. apply (i_empty _ _ Hi k); [done | set_solver]. }
  destruct (update_counters_spec (chg (shutdown x) RCV_SHUTDOWN 1) (chg (shutdown x) SEND_SHUTDOWN 1) held (placed n x p s)) as (s' & E' & Hp' & Esh & _ & _ & _ & Hout).
  { apply Hi'. } { intros k Hk. by apply conn_nodes; [apply Hi'|]. }
  exists 0, s'. split; [|by apply (inv_shape held _ (placed n x p s)); [..|apply quiet_same]].
  unfold placed in E'. destruct (bound x); unfold modify; unfold mbind, M_bind; cbn [upd_ports upd_nodes unconnectqueue connectqueue refcnt] in *; rewrite E'; done.
Qed.

(** The state without a node. *)
Definition without (n : nat) (q : P) (c : list (option nat)) (s : ipn_network P) : ipn_network P :=
  upd_queues (filter (λ k, k ≠ n) (unconnectqueue s)) (filter (λ k, k ≠ n) (connectqueue s)) (refcnt s - 1)
    (upd_private q (upd_ports (maxports s) c (upd_nodes (delete n) s))).
(** The ports when it leaves. *)
Definition left_ports (x : ipn_node) (c : list (option nat)) : list (option nat) := if 0 <=? portno x then <[Z.to_nat (portno x) := None]> c else c.

Lemma without_net n x q s : net_inv s → nodes s !! n = Some x → in_net x = true → net_inv (without n q (left_ports x (connport s)) s).
Proof.
  intros [N1 N2 N3 N4 N5 N6 N7] Hn Hin. assert (n ∈ unconnectqueue s ++ connectqueue s) as Hmem by (apply N5; eauto).
  assert (∀ p k, left_ports x (connport s) !! p = Some (Some k) ↔ connport s !! p = Some (Some k) ∧ k ≠ n) as Hports.
  { intros p k. unfold left_ports. destruct (Z.leb_spec 0 (portno x)) as [Hp|Hp].
    - assert (n ∈ connectqueue s) as Hc by (destruct (decide (n ∈ connectqueue s)) as [|Hc]; [done | destruct (N6 n x Hn Hc); lia]).
      destruct (decide (p = Z.to_nat (portno x))) as [->|Hne].
      + split; [rewrite list_lookup_insert_Some; naive_solver|]. intros [Hk Hkn]. exfalso. apply Hkn.
        assert (connport s !! Z.to_nat (portno x) = Some (Some n)) as E by (apply N2; split; [done|]; exists x; split; [done | lia]). congruence.
      + rewrite list_lookup_insert_ne by done. split; [|naive_solver]. intros Hk. split; [done|]. intros ->.
        apply N2 in Hk as (_ & y & Hy & Ep). rewrite Hn in Hy. injection Hy as <-. lia.
    - split; [|naive_solver]. intros Hk. split; [done|]. intros ->. apply N2 in Hk as (_ & y & Hy & Ep). rewrite Hn in Hy. injection Hy as <-. lia. }
  assert (length (left_ports x (connport s)) = length (connport s)) as Hlen by (unfold left_ports; case_match; [apply length_insert | done]).
  pose proof N4 as (Nu & Nd & Nc)%NoDup_app.
  split; cbn [without upd_queues upd_private upd_ports upd_nodes nodes connport connectqueue unconnectqueue maxports refcnt].
  - congruence.
  - intros p k. rewrite Hports, N2, list_elem_of_filter. split; [intros [(Hk & y & Hy & E) Hne] | intros [[Hne Hk] (y & [Hky Hy]%lookup_delete_Some & E)]].
    + split; [done|]. exists y. by rewrite lookup_delete_ne.
    + split; [|done]. split; [done|]. eauto.
  - intros k y [Hne Hk]%list_elem_of_filter [_ Hy]%lookup_delete_Some. by apply (N3 k).
  - rewrite <- filter_app. by apply NoDup_filter.
  - intros k. rewrite <- filter_app, list_elem_of_filter, N5. setoid_rewrite lookup_delete_Some. naive_solver.
  - intros k y [Hne Hy]%lookup_delete_Some Hc. apply (N6 k); [done|]. intros Hk. apply Hc, list_elem_of_filter. done.
  - rewrite elem_of_app in Hmem. destruct Hmem as [Hm|Hm].
    + rewrite (filter_other (connectqueue s)) by (by apply Nd). rewrite (length_filter_ne (unconnectqueue s) n) in N7 by done. lia.
    + rewrite (filter_other (unconnectqueue s)) by (intros Hu; by apply (Nd n)). rewrite (length_filter_ne (connectqueue s) n) in N7 by done. lia.
Qed.

Lemma pool_delete held (s : ipn_network P) n x : pool_inv held s → nodes s !! n = Some x → msgqueue x = [] → oobmsgqueue x = [] → pool_inv held (upd_nodes (delete n) s).
Proof.
  intros [H1 H2 H3 H4 H5 H6] Hn Eq Eo. assert (∀ m, refs m (delete n (nodes s)) = refs m (nodes s)) as Hr.
  { intros m. rewrite (msg_refs_delete m (nodes s) n x Hn). unfold node_refs. rewrite Eq, Eo, occ_nil. lia. }
  split; cbn [upd_nodes nodes msgs msgpool_nelem next_msg]; [intros m it; rewrite Hr; apply H1 | intros m; rewrite Hr; apply H2 | done | done | | done].
  intros k y [_ Hy]%lookup_delete_Some. by apply (H5 k).
Qed.

(** The protocol is told that the port is free. *)
Lemma delport_spec n x y s s3 : net_inv s → p_inv (proto_private s) (jiffies s) (connport s) → nodes s !! n = Some x → in_net x = true →
  nodes s3 !! n = Some y → portno y = portno x → connport s3 = left_ports x (connport s) → proto_private s3 = proto_private s → jiffies s3 = jiffies s →
  ∃ q, whenM (0 <=? portno x) (ipn_p_delport n) s3 = Done () (upd_private q s3) ∧ p_inv q (jiffies s3) (connport s3).
Proof.
  intros Hnet Hpr Hn Hin Hy Ep Ec Eq Ej. unfold left_ports in Ec. destruct (Z.leb_spec 0 (portno x)) as [Hp|Hp]; cbn [whenM].
  - assert (n ∈ connectqueue s) as Hc by (destruct (decide (n ∈ connectqueue s)) as [|Hc]; [done | destruct (ni_free _ Hnet n x Hn Hc); lia]).
    destruct (conn_port s n x Hnet Hc Hn) as (p & Epx & Hport). pose proof (lookup_lt_Some _ _ _ Hport) as Hlt.
    assert (Z.to_nat (portno x) = p) as Etn by lia. rewrite Etn in Ec.
    apply (p_delport_law n s3 y p); [|done | lia | rewrite Ec; by apply list_lookup_insert_eq].
    rewrite Ec, Eq, Ej, list_insert_insert_eq. rewrite list_insert_id by done. done.
  - exists (proto_private s3). split; [by destruct s3|]. by rewrite Eq, Ej, Ec.
Qed.

(** A node outside of the network is just freed. *)
Lemma outside_inv held s n x : inv held s → nodes s !! n = Some x → in_net x = false → inv held (upd_nodes (delete n) s).
Proof.
  intros Hi Hn Hin. assert (n ∉ unconnectqueue s ++ connectqueue s) as Hout.
  { intros (y & Hy & Ey)%(ni_in _ (i_net _ _ Hi)). congruence. }
  destruct (i_empty _ _ Hi n x Hn) as [Eq Eo]; [set_solver|]. destruct Hi as [Hp [N1 N2 N3 N4 N5 N6 N7] Hpr Ht He].
  split; [by apply (pool_delete held s n x) | | done | done | cbn [upd_nodes nodes connectqueue]; intros k y [_ Hy]%lookup_delete_Some; by apply He].
  split; cbn [upd_nodes nodes connport connectqueue unconnectqueue maxports refcnt]; [done | | | done | | | done].
  - intros p k. rewrite N2. split; intros (Hk & y & Hy & E); (split; [done|]); exists y; (split; [|done]).
    + rewrite lookup_delete_ne; [done | intros <-; set_solver].
    + by apply lookup_delete_Some in Hy as [_ ?].
  - intros k y Hk [_ Hy]%lookup_delete_Some. by apply (N3 k).
  - intros k. rewrite N5. setoid_rewrite lookup_delete_Some. split; [|naive_solver]. intros (y & Hy & E). exists y. split; [|done]. split; [|done]. intros <-. congruence.
  - intros k y [_ Hy]%lookup_delete_Some. by apply N6.
Qed.

(** Its port is cleared. *)
Lemma clear_port (s : ipn_network P) n x : net_inv s → nodes s !! n = Some x →
  whenM (0 <=? portno x) (c ← deref (zset (connport s) (portno x) None); modify (upd_ports (maxports s) c)) s = Done () (upd_ports (maxports s) (left_ports x (connport s)) s).
Proof.
  intros Hnet Hn. unfold left_ports. destruct (Z.leb_spec 0 (portno x)) as [Hp|Hp]; cbn [whenM]; [|by destruct s].
  assert (n ∈ connectqueue s) as Hc by (destruct (decide (n ∈ connectqueue s)) as [|Hc]; [done | destruct (ni_free _ Hnet n x Hn Hc); lia]).
  destruct (conn_port s n x Hnet Hc Hn) as (p & Epx & Hport). pose proof (lookup_lt_Some _ _ _ Hport) as Hlt.
  unfold zset. destruct (Z.ltb_spec (portno x) 0); [lia|]. destruct (Z.leb_spec (Z.of_nat (length (connport s))) (portno x)); [lia|]. done.
Qed.

(** Both queues are emptied. *)
Lemma flush_both {A} (k : M (ipn_network P) A) held s n x : pool_inv held s → nodes s !! n = Some x →
  ∃ s' x', (ipn_flush_recvqueue n ;; ipn_flush_oobrecvqueue n ;; k) s = k s' ∧ pool_inv held s' ∧ shape s' = shape s ∧
    nodes s' = <[n := x']> (nodes s) ∧ msgqueue x' = [] ∧ oobmsgqueue x' = [] ∧ static x' = static x.
Proof.
  intros Hp Hn. unfold mbind at 1, M_bind at 1, ipn_flush_recvqueue, node_at. unfold mbind at 1 2, M_bind at 1 2, get. rewrite Hn. cbn [deref mret M_ret].
  destruct (flush_recv_spec n held (msgqueue x) s x Hp Hn eq_refl) as (s2 & x2 & E2 & Hp2 & Esh2 & _ & En2 & Eq2 & Eo2 & Est2). rewrite E2.
  assert (nodes s2 !! n = Some x2) as Hn2 by (rewrite En2; apply lookup_insert_eq).
  unfold mbind at 1, M_bind at 1, ipn_flush_oobrecvqueue, node_at. unfold mbind at 1 2, M_bind at 1 2, get. rewrite Hn2. cbn [deref mret M_ret].
  destruct (flush_oob_spec n held (oobmsgqueue x2) s2 x2 Hp2 Hn2 eq_refl) as (s3 & x3 & E3 & Hp3 & Esh3 & _ & En3 & Eo3 & Eq3 & Est3). rewrite E3.
  exists s3, x3. split_and!; [done | done | congruence | | congruence | done | congruence]. by rewrite En3, En2, insert_insert_eq.
Qed.

(** The rest of [ipn_node_release], once the queues are empty: [s3] is the state then. *)
Lemma leave_inv held s s3 n x x3 q : inv held s → nodes s !! n = Some x → in_net x = true → pool_inv held s3 →
  shape s3 = shape (upd_queues (filter (λ k, k ≠ n) (unconnectqueue s)) (filter (λ k, k ≠ n) (connectqueue s)) (refcnt s) (upd_ports (maxports s) (left_ports x (connport s)) s)) →
  nodes s3 = <[n := x3]> (nodes s) → msgqueue x3 = [] → oobmsgqueue x3 = [] → p_inv q (jiffies s3) (connport s3) →
  let x5 := upd_place (bound x3) false (portno x3) x3 in
  ∃ s6, ipn_net_update_counters (chg (shutdown x) RCV_SHUTDOWN (-1)) (chg (shutdown x) SEND_SHUTDOWN (-1)) (upd_nodes (<[n := x5]>) (upd_private q s3)) = Done () s6 ∧
    nodes s6 !! n = Some x5 ∧
    inv held (upd_nodes (delete n) (upd_queues (unconnectqueue s6) (connectqueue s6) (refcnt s6 - 1) (upd_nodes (<[n := upd_shutdown SHUTDOWN_XMASK x5]>) s6))).
Proof.
  intros Hi Hn Hin Hp3 Esh3 En3 Eq3 Eo3 Hq x5. set (s5 := upd_nodes (<[n := x5]>) (upd_private q s3)).
  assert (nodes s3 !! n = Some x3) as Hn3 by (rewrite En3; apply lookup_insert_eq).
  assert (pool_inv held s5) as Hp5 by (apply (pool_static held (upd_private q s3) n x3); try done; by apply (pool_frame held s3)).
  assert (connectqueue s5 = filter (λ k, k ≠ n) (connectqueue s)) as Ecq5 by (unfold shape in Esh3; cbn [s5 upd_nodes upd_private upd_queues upd_ports connectqueue] in *; congruence).
  assert (∀ k, k ∈ connectqueue s5 → is_Some (nodes s5 !! k)) as Hex.
  { intros k. rewrite Ecq5. intros [Hne Hk]%list_elem_of_filter. cbn [s5 upd_nodes upd_private nodes]. rewrite lookup_insert_ne, En3, lookup_insert_ne by done.
    apply (conn_nodes s); [apply Hi | done]. }
  destruct (update_counters_spec (chg (shutdown x) RCV_SHUTDOWN (-1)) (chg (shutdown x) SEND_SHUTDOWN (-1)) held s5 Hp5 Hex) as (s6 & E6 & Hp6 & Esh6 & _ & _ & _ & Hk6).
  assert (nodes s6 !! n = Some x5) as Hn6 by (rewrite Hk6; [apply lookup_insert_eq | rewrite Ecq5; intros [? _]%list_elem_of_filter; done]).
  exists s6. split; [done|]. split; [done|]. set (s9 := upd_nodes (delete n) _).
  assert (shape s9 = shape (without n q (left_ports x (connport s)) s) ∧ connport s9 = connport s3 ∧ jiffies s9 = jiffies s3 ∧ proto_private s9 = q ∧
    connectqueue s9 = filter (λ k, k ≠ n) (connectqueue s)) as (Esh9 & E9a & E9b & E9c & E9d).
  { assert (static <$> nodes s6 = static <$> nodes s5) as Est6 by (unfold shape in Esh6; congruence).
    assert (static <$> nodes s9 = static <$> delete n (nodes s)) as En9.
    { cbn [s9 upd_nodes upd_queues nodes]. rewrite delete_insert_eq, fmap_delete, Est6. cbn [s5 upd_nodes upd_private nodes].
      by rewrite <- fmap_delete, delete_insert_eq, En3, delete_insert_eq. }
    unfold shape in *. rewrite En9.
    cbn [s9 s5 without upd_nodes upd_queues upd_private upd_ports nodes unconnectqueue connectqueue refcnt lossless maxports msgpool_size mtu connport proto_private jiffies] in *.
    split_and!; congruence. }
  split; [| | by rewrite E9a, E9b, E9c | rewrite E9b; unfold shape in Esh3; cbn [upd_queues upd_ports jiffies] in Esh3; replace (jiffies s3) with (jiffies s) by congruence; apply Hi |].
  - eapply (pool_delete held _ n (upd_shutdown SHUTDOWN_XMASK x5)); [| apply lookup_insert_eq | exact Eq3 | exact Eo3].
    apply (pool_frame held (upd_nodes (<[n := upd_shutdown SHUTDOWN_XMASK x5]>) s6)); try done. by apply (pool_static held s6 n x5).
  - apply (net_inv_shape (without n q (left_ports x (connport s)) s)); [done|]. apply without_net; [apply Hi | done | done].
  - intros k y Hy. rewrite E9d. intros Hk. cbn [s9 upd_nodes upd_queues nodes] in Hy. apply lookup_delete_Some in Hy as [Hne Hy]. rewrite lookup_insert_ne in Hy by done.
    assert (k ∉ connectqueue s) as Hkc by (intros Hc; apply Hk, list_elem_of_filter; done).
    rewrite Hk6 in Hy by (rewrite Ecq5; intros [_ ?]%list_elem_of_filter; done). cbn [s5 upd_nodes upd_private nodes] in Hy.
    rewrite lookup_insert_ne, En3, lookup_insert_ne in Hy by done. by apply (i_empty _ _ Hi k).
Qed.

Lemma release_inv held s n x : inv held s → nodes s !! n = Some x → ∃ r s', ipn_node_release n s = Done r s' ∧ inv held s'.
Proof.
  intros Hi Hn. unfold ipn_node_release, ipn_terminate_node. unfold mbind at 1, M_bind at 1. unfold mbind at 1, M_bind at 1, node_at. unfold mbind at 1, M_bind at 1, get. rewrite Hn. cbn [deref mret M_ret].
  destruct (in_net x) eqn:Hin; cbn [negb]; [|do 2 eexists; split; [done | by apply (outside_inv held s n x)]].
  unfold mbind at 1, M_bind at 1. unfold mbind at 1, M_bind at 1. rewrite (clear_port s n x) by (done || apply Hi).
  unfold mbind at 1, M_bind at 1, modify at 1. set (s1 := upd_queues _ _ _ _).
  match goal with |- context [(ipn_flush_recvqueue n ;; ipn_flush_oobrecvqueue n ;; ?rest) s1] =>
    destruct (flush_both rest held s1 n x) as (s3 & x3 & E3 & Hp3 & Esh3 & En3 & Eq3 & Eo3 & Est3); [apply (pool_frame held s); [done..| apply Hi] | done|]; rewrite E3 end.
  assert (nodes s3 !! n = Some x3) as Hn3 by (rewrite En3; apply lookup_insert_eq).
  destruct (delport_spec n x x3 s s3) as (q & Edel & Hq); [apply Hi | apply Hi | done | done | done | unfold static in Est3; congruence
    | unfold shape in Esh3; cbn [s1 upd_queues upd_ports connport proto_private jiffies] in Esh3; congruence..|].
  unfold mbind at 1, M_bind at 1. rewrite Edel. unfold mbind at 1, M_bind at 1, node_at. unfold mbind at 1, M_bind at 1, get. cbn [upd_private nodes]. rewrite Hn3. cbn [deref mret M_ret].
  destruct (leave_inv held s s3 n x x3 q) as (s6 & E6 & Hn6 & Hi'); [done..|].
  unfold mbind at 1, M_bind at 1, put_node, modify at 1. unfold mbind at 1, M_bind at 1. rewrite E6.
  unfold mbind at 1, M_bind at 1. unfold mbind at 1, M_bind at 1. rewrite Hn6. cbn [deref mret M_ret]. do 2 eexists. split; [done | exact Hi'].
Qed.
End life.
