(* ===== verification/IpnLife.v ===== *)
(** * IpnLife: what holds in every network of the kernel module

    The steps of a network are those of [IpnNet], in any order and interleaved: nodes are
    created, bound, connected and released, processes allocate messages, have
    them dispatched, drop them and take them from a queue, options change, the number of ports
    changes, time passes and the protocol's timer runs.  The first theorem is about
    every protocol that keeps the laws of [ProtocolLaws]; the hub and the switch are
    instances; the second theorem says where the switch sends a frame. *)
From Stdlib Require Import Lia.
From stdpp Require Import base numbers list gmap relations fin_maps.
From S2P Require Import Prelude IpnHash Ipn IpnNet.

Section steps.
Context {P : Type} `{ProtocolLaws P}.

(** ** The other operations keep the invariant *)

Lemma shutdown_inv held s n x mode : inv held s → nodes s !! n = Some x → ∃ r s', ipn_shutdown n mode s = Done r s' ∧ inv held s'.
Proof.
  intros Hi Hn. unfold ipn_shutdown, node_at. unfold mbind at 1, M_bind at 1. unfold mbind at 1, M_bind at 1, get. rewrite Hn. cbn [deref mret M_ret]. cbv zeta.
  set (new := Z.lor _ _). unfold mbind at 1, M_bind at 1, put_node, modify at 1. set (s1 := upd_nodes _ s).
  assert (inv held s1) as Hi1 by (by apply (node_change_inv held s n x)). unfold mbind at 1, M_bind at 1.
  destruct (in_net x); cbn [whenM]; [|by do 2 eexists]. unfold mbind at 1, M_bind at 1. unfold mbind at 1, M_bind at 1.
  assert (∃ s2, whenM (connected n s1 && negb (new - shutdown x =? 0)) (ipn_net_update_counters (chg new RCV_SHUTDOWN (-1)) (chg new SEND_SHUTDOWN (-1))) s1 = Done () s2 ∧ inv held s2 ∧ is_Some (nodes s2 !! n)) as (s2 & -> & Hi2 & y & Hy).
  { destruct (_ && _); cbn [whenM]; [|exists s1; split_and!; [done | done | exists (upd_shutdown new x); apply lookup_insert_eq]].
    destruct (update_counters_spec (chg new RCV_SHUTDOWN (-1)) (chg new SEND_SHUTDOWN (-1)) held s1) as (s2 & E2 & Hp2 & Esh2 & _ & _ & _ & Hout); [apply Hi1 | intros k Hk; by apply conn_nodes; [apply Hi1|]|].
    exists s2. split_and!; [done | by apply (inv_shape held _ s1); [..|apply quiet_same] | apply (shape_is_Some s1); [done | eexists; apply lookup_insert_eq]]. }
  destruct (Z.land new RCV_SHUTDOWN =? 0); cbn [negb whenM]; [by do 2 eexists|].
  unfold ipn_flush_recvqueue, node_at. unfold mbind at 1, M_bind at 1. unfold mbind at 1, M_bind at 1, get. rewrite Hy. cbn [deref mret M_ret].
  destruct (flush_recv_spec n held (msgqueue y) s2 y (i_pool _ _ Hi2) Hy eq_refl) as (s3 & z & E3 & Hp3 & Esh3 & _ & En3 & Eq3 & Eo3 & Est3). rewrite E3.
  do 2 eexists. split; [done|]. apply (inv_shape held _ s2); [done..|]. intros k w. rewrite En3. intros [[<- <-] | [_ Hk]]%lookup_insert_Some _; [|eauto].
  exists y. rewrite Eo3. done.
Qed.

Lemma guard_inv held s n x body : inv held s → nodes s !! n = Some x → (∃ r s', body x s = Done r s' ∧ inv held s') →
  ∃ r s', setsockopt_guard n body s = Done r s' ∧ inv held s'.
Proof.
  intros Hi Hn Hb. unfold setsockopt_guard, node_at. unfold mbind at 1, M_bind at 1. unfold mbind at 1, M_bind at 1, get. rewrite Hn. cbn [deref mret M_ret].
  destruct (shutdown x =? SHUTDOWN_XMASK); [by do 2 eexists | done].
Qed.
Lemma want_oob_inv held s n x v : inv held s → nodes s !! n = Some x → ∃ r s', so_want_oob_numnodes n v s = Done r s' ∧ inv held s'.
Proof. intros Hi Hn. apply (guard_inv held s n x); [done | done|]. do 2 eexists. split; [done|]. by apply (node_change_inv held s n x). Qed.
Lemma handle_oob_inv held s n x v : inv held s → nodes s !! n = Some x → ∃ r s', so_handle_oob n v s = Done r s' ∧ inv held s'.
Proof. intros Hi Hn. apply (guard_inv held s n x); [done | done|]. do 2 eexists. split; [done|]. by apply (node_change_inv held s n x). Qed.

Lemma ports_inv held s n c : inv held s → Z.of_nat (length c) = n → (∀ i k, c !! i = Some (Some k) ↔ connport s !! i = Some (Some k)) → inv held (upd_ports n c s).
Proof.
  intros [Hp [N1 N2 N3 N4 N5 N6 N7] Hpr Ht He] Hn Hc. split; [by apply (pool_frame held s) | | | done | done].
  - split; try done. intros p k. rewrite <- N2. apply Hc.
  - apply (p_mono _ (jiffies s) _ (connport s)); [done | done|]. intros i k. apply Hc.
Qed.

Lemma resize_inv held s newsize : inv held s → 0 < newsize < 2 ^ 16 → ∃ r s', ipn_netresize newsize s = Done r s' ∧ inv held s'.
Proof.
  intros Hi Hpos. unfold ipn_netresize. unfold mbind at 1, M_bind at 1, get. cbv zeta. destruct (Z.eqb_spec newsize (maxports s)) as [->|Hne]; [by do 2 eexists|].
  pose proof (ni_len _ (i_net _ _ Hi)) as Hlen.
  rewrite take_ge by (rewrite length_drop; lia). destruct (_ && _) eqn:Eused; [by do 2 eexists|]. do 2 eexists. split; [done|].
  assert (u16 newsize = newsize) as -> by (apply Z.mod_small; lia). apply ports_inv; [done | |].
  - rewrite length_app, length_take, length_replicate. destruct (Z.ltb_spec newsize (maxports s)); lia.
  - intros i k. destruct (Z.ltb_spec newsize (maxports s)) as [Hlt|Hge].
    + replace (Z.to_nat (newsize - newsize)) with 0%nat by lia. rewrite app_nil_r. destruct (decide (i < Z.to_nat newsize)%nat) as [Hi'|Hi'].
      { by rewrite lookup_take_lt. }
      rewrite lookup_take_ge by lia. split; [done|]. intros Hk. exfalso. cbn [andb] in Eused. apply not_true_iff_false in Eused. apply Eused.
      apply existsb_exists. exists (Some k). split; [|done]. apply list_elem_of_In. apply (list_elem_of_lookup_2 _ (i - Z.to_nat newsize)). rewrite lookup_drop. rewrite <- Hk. f_equal. lia.
    + rewrite take_ge by lia. rewrite lookup_app. destruct (connport s !! i) as [o|] eqn:Ei; [done|]. split; [|done].
      intros [Hk _]%lookup_replicate. done.
Qed.

Lemma tick_inv held s t : inv held s → jiffies s ≤ t → time_ok t → inv held (upd_jiffies t s).
Proof.
  intros [Hp [N1 N2 N3 N4 N5 N6 N7] Hpr Ht He] Hle Hok. split; [by apply (pool_frame held s) | by split | | done | done].
  by apply (p_mono _ (jiffies s) _ (connport s)).
Qed.
Lemma timer_inv held s : inv held s → ∃ s', ipn_p_timer s = Done () s' ∧ inv held s'.
Proof. intros Hi. destruct (p_timer_law s) as (p & E & Hp); [apply Hi | apply Hi|]. eexists. split; [done | by apply private_inv]. Qed.

(** ** The steps *)

Inductive node_op := DoBind | DoConnect | DoRelease | DoShutdown (mode : Z) | DoWantOob (v : Z) | DoHandleOob (v : Z) | DoResize (v : Z).
Definition run_node_op (n : nat) (op : node_op) : M (ipn_network P) Z :=
  match op with
  | DoBind => ipn_node_bind n
  | DoConnect => ipn_connect n
  | DoRelease => ipn_node_release n
  | DoShutdown mode => ipn_shutdown n mode
  | DoWantOob v => so_want_oob_numnodes n v
  | DoHandleOob v => so_handle_oob n v
  | DoResize v => so_change_numnodes n v
  end.

(** The size of a network is an [unsigned short]. *)
Definition fits (op : node_op) : Prop := match op with DoResize v => v < 2 ^ 16 | _ => True end.
#[export] Instance fits_dec op : Decision (fits op).
Proof. destruct op; apply _. Defined.

(** The network and the references the processes hold. *)
Inductive net_step : ipn_network P * list nat → ipn_network P * list nat → Prop :=
| step_create n dev s s' held : nodes s !! n = None → ipn_node_create n dev s = Done () s' → net_step (s, held) (s', held)
| step_node n op r s s' held : is_Some (nodes s !! n) → fits op → run_node_op n op s = Done r s' → net_step (s, held) (s', held)
| step_alloc n x data m s s' held : n ∈ connectqueue s → nodes s !! n = Some x → write_refused (Z.of_nat (length data)) x s = None → may_alloc s = true →
    msgpool_new data s = Done m s' → net_step (s, held) (s', m :: held)
| step_inject rec intr n m r s s' held : n ∈ connectqueue s → m ∈ held → ipn_proto_injectmsg rec intr n m s = Done r s' → net_step (s, held) (s', held)
| step_put m s s' held held' : held ≡ₚ m :: held' → ipn_msgpool_put m s = Done () s' → net_step (s, held) (s', held')
| step_take n m oob s s' held : is_Some (nodes s !! n) → read_take n s = Done (inr (m, oob)) s' → net_step (s, held) (s', m :: held)
| step_tick t s held : jiffies s ≤ t → time_ok t → net_step (s, held) (upd_jiffies t s, held)
| step_timer s s' held : ipn_p_timer s = Done () s' → net_step (s, held) (s', held).

Lemma node_op_inv held s n op : inv held s → is_Some (nodes s !! n) → fits op → ∃ r s', run_node_op n op s = Done r s' ∧ inv held s'.
Proof.
  intros Hi [x Hn] Hfit. destruct op; cbn [run_node_op fits] in *.
  - by apply (node_bind_inv held s n x).
  - by apply (connect_inv held s n x).
  - by apply (release_inv held s n x).
  - by apply (shutdown_inv held s n x).
  - by apply (want_oob_inv held s n x).
  - by apply (handle_oob_inv held s n x).
  - apply (guard_inv held s n x); [done | done|]. destruct (bound x); [|by do 2 eexists]. destruct (Z.leb_spec v 0); [by do 2 eexists | by apply resize_inv].
Qed.

Lemma occ_perm m l l' : l ≡ₚ l' → occ m l = occ m l'.
Proof. intros E. unfold occ. by rewrite E. Qed.

Lemma step_inv a b : net_step a b → inv a.2 a.1 → inv b.2 b.1.
Proof.
  intros Hst Hi. destruct Hst as [n dev s s' held Hn E | n op r s s' held Hn Hfit E | n x data m s s' held _ _ _ _ E | rec intr n m r s s' held Hn Hm E
    | m s s' held held' Hp E | n m oob s s' held [x Hn] E | t s held Hle Ht | s s' held E]; cbn [fst snd] in *.
  - destruct (create_inv held s n dev Hi Hn) as (s1 & E1 & Hi'). congruence.
  - destruct (node_op_inv held s n op Hi Hn Hfit) as (r1 & s1 & E1 & Hi'). congruence.
  - destruct (alloc_inv held s data Hi) as (m1 & s1 & E1 & Hi'). congruence.
  - destruct (inject_inv rec intr held s n m Hi Hm Hn) as (r1 & s1 & E1 & Hi'). congruence.
  - destruct (put_inv held' s m) as (s1 & E1 & Hi'); [|congruence]. apply (inv_perm held); [|done]. intros k. by apply occ_perm.
  - destruct (take_inv held s n x Hi Hn) as (r1 & s1 & E1 & Hi'). rewrite E in E1. by injection E1 as <- <-.
  - by apply tick_inv.
  - destruct (timer_inv held s Hi) as (s1 & E1 & Hi'). congruence.
Qed.

Lemma new_inv parms p t : 0 ≤ pb_maxports parms → time_ok t → p_inv p t (replicate (Z.to_nat (pb_maxports parms)) None) → inv [] (ipn_network_new parms p t).
Proof.
  intros Hmax Ht Hp. split; [| | done | done | by intros n x Hn].
  - split; cbn [ipn_network_new msgs nodes msgpool_nelem next_msg]; try (by intros * Hn; discriminate).
    + done.
    + intros m [it Hit]. discriminate.
  - split; cbn [ipn_network_new connport maxports connectqueue unconnectqueue nodes refcnt app]; try (by intros * Hn; discriminate).
    + rewrite length_replicate. lia.
    + intros i n. split; [intros [? _]%lookup_replicate; done | intros [Hn _]; by apply elem_of_nil in Hn].
    + constructor.
    + intros n. split; [intros Hn; by apply elem_of_nil in Hn | by intros (x & Hx & _)].
    + done.
Qed.

Lemma reach_inv parms p t s held : 0 ≤ pb_maxports parms → time_ok t → p_inv p t (replicate (Z.to_nat (pb_maxports parms)) None) →
  rtc net_step (ipn_network_new parms p t, []) (s, held) → inv held s.
Proof.
  intros Hmax Ht Hp Hr. change (inv (s, held).2 (s, held).1). refine (rtc_ind_r (λ a, inv a.2 a.1) _ _ _ _ Hr); [by apply new_inv|].
  intros a b _ Hst IH. by apply (step_inv a).
Qed.

(** ** Who refers to a message *)

Definition queued (m : nat) (s : ipn_network P) : Prop := ∃ n x, nodes s !! n = Some x ∧ (m ∈ msgqueue x ∨ m ∈ oobmsgqueue x).
Lemma refs_queued m s : 0 < refs m (nodes s) ↔ queued m s.
Proof.
  split.
  - unfold queued, refs. generalize (nodes s). intros ns. induction ns as [|n x ns Hn Hf IH] using map_first_key_ind.
    + by rewrite map_fold_empty.
    + rewrite map_fold_insert_L; [|intros; lia | done]. intros Hpos. destruct (decide (0 < node_refs m x)) as [Hx|Hx].
      * exists n, x. rewrite lookup_insert_eq. split; [done|]. unfold node_refs in Hx. pose proof (occ_nonneg m (msgqueue x)).
        destruct (decide (0 < occ m (msgqueue x))); [left | right]; apply occ_elem; lia.
      * pose proof (node_refs_nonneg m x). destruct IH as (k & y & Hk & Hy); [lia|]. exists k, y. split; [|done]. rewrite lookup_insert_ne; [done | congruence].
  - intros (n & x & Hn & Hx). pose proof (refs_node m (nodes s) n x Hn). unfold node_refs in *.
    pose proof (occ_nonneg m (msgqueue x)). pose proof (occ_nonneg m (oobmsgqueue x)). destruct Hx as [Hx|Hx]; apply occ_pos in Hx; lia.
Qed.

Lemma live_iff held s m : inv held s → is_Some (msgs s !! m) ↔ m ∈ held ∨ queued m s.
Proof.
  intros [[H1 H2 H3 H4 H5 H6] _ _ _ _]. rewrite <- refs_queued. pose proof (refs_nonneg m (nodes s)). pose proof (occ_nonneg m held). split.
  - intros [it Hit]. destruct (H1 m it Hit). destruct (decide (0 < occ m held)) as [Ho|]; [left; by apply occ_elem | right; lia].
  - intros Hm. apply H2. destruct Hm as [Hm%occ_pos | Hm]; lia.
Qed.

(** ** Whole system calls *)

Lemma write_inv rec intr held s n data : inv held s → n ∈ connectqueue s → ∃ r s', ipn_node_write rec intr n data s = Done r s' ∧ inv held s'.
Proof.
  intros Hi Hn. destruct (conn_nodes s n (i_net _ _ Hi) Hn) as [x Hx]. unfold ipn_node_write, node_at. unfold mbind at 1, M_bind at 1.
  unfold mbind at 1, M_bind at 1, get. rewrite Hx. cbn [deref mret M_ret]. unfold mbind at 1, M_bind at 1. destruct (write_refused _ x s); [by do 2 eexists|].
  destruct (pool_new data held s (i_pool _ _ Hi)) as (m & s1 & E1 & Hp1 & Esh1 & En1 & _). unfold mbind at 1, M_bind at 1. rewrite E1.
  assert (inv (m :: held) s1) as Hi1 by (apply (inv_shape held _ s); [done..|]; apply quiet_same; by rewrite En1).
  destruct (inject_inv rec intr (m :: held) s1 n m) as (r2 & s2 & E2 & Hi2); [done | set_solver | unfold shape in Esh1; replace (connectqueue s1) with (connectqueue s) by congruence; done|].
  unfold mbind at 1, M_bind at 1. rewrite E2. destruct (put_inv held s2 m Hi2) as (s3 & E3 & Hi3). unfold mbind, M_bind. rewrite E3. by do 2 eexists.
Qed.

Lemma read_inv held s n len : inv held s → is_Some (nodes s !! n) → ∃ r s', ipn_node_read n len s = Done r s' ∧ inv held s'.
Proof.
  intros Hi [x Hx]. destruct (take_inv held s n x Hi Hx) as (r & s1 & E1 & Hr). unfold ipn_node_read. unfold mbind at 1, M_bind at 1. rewrite E1.
  destruct r as [e|[m oob]]; [subst s1; by do 2 eexists|]. assert (is_Some (msgs s1 !! m)) as [it Hit] by (apply (live_iff (m :: held)); [done | left; set_solver]).
  unfold mbind at 1, M_bind at 1, msg_at. unfold mbind at 1, M_bind at 1, get. rewrite Hit. cbn [deref mret M_ret]. cbv zeta.
  destruct (put_inv held s1 m Hr) as (s2 & E2 & Hi2). unfold mbind, M_bind. rewrite E2. by do 2 eexists.
Qed.

(** C16: Messages of a kernel network, with every protocol that keeps the laws of
    [ProtocolLaws]. The states are those reached by opening, binding, connecting,
    shutting down and closing nodes, by the options but [IPN_SO_PORT], by changes of
    the number of ports to less than 65536 ([fits]), and by allocating, injecting,
    reading and releasing messages and the timer, each a step of its own. In all of
    them a message is in memory exactly when a process or a queue refers to it, the
    number of messages is counted right, a port leads to a node exactly when this
    node is connected there, and none of these operations, whole writes and reads
    included, faults. What is left out breaks it: a port number set on a bound node
    ([so_port_out_of_bounds], [so_port_clears_other_port]) and larger sizes
    ([resize_loses_ports]); and the steps are atomic, as [ipnn_mutex] makes them,
    except that an injection while another is under way does not take it
    ([recinject]). *)
Theorem messages_live_while_referenced parms p t s held : 0 ≤ pb_maxports parms → time_ok t → p_inv p t (replicate (Z.to_nat (pb_maxports parms)) None) →
  rtc net_step (ipn_network_new parms p t, []) (s, held) →
  (∀ m, is_Some (msgs s !! m) ↔ m ∈ held ∨ queued m s) ∧ msgpool_nelem s = Z.of_nat (size (msgs s)) ∧
  (∀ i n, connport s !! i = Some (Some n) ↔ n ∈ connectqueue s ∧ ∃ x, nodes s !! n = Some x ∧ portno x = Z.of_nat i) ∧
  (∀ n op, is_Some (nodes s !! n) → fits op → ∃ r s', run_node_op n op s = Done r s') ∧
  (∀ rec intr n data, n ∈ connectqueue s → ∃ r s', ipn_node_write rec intr n data s = Done r s') ∧
  (∀ n len, is_Some (nodes s !! n) → ∃ r s', ipn_node_read n len s = Done r s') ∧
  (∀ rec intr n m, n ∈ connectqueue s → m ∈ held → ∃ r s', ipn_proto_injectmsg rec intr n m s = Done r s') ∧
  (∃ s', ipn_p_timer s = Done () s').
Proof.
  intros Hmax Ht Hp Hr. pose proof (reach_inv parms p t s held Hmax Ht Hp Hr) as Hi. split_and!.
  - intros m. by apply live_iff.
  - apply (pi_nelem _ _ (i_pool _ _ Hi)).
  - apply (ni_conn _ (i_net _ _ Hi)).
  - intros n op Hn Hfit. destruct (node_op_inv held s n op Hi Hn Hfit) as (r & s' & E & _). eauto.
  - intros rec intr n data Hn. destruct (write_inv rec intr held s n data Hi Hn) as (r & s' & E & _). eauto.
  - intros n len Hn. destruct (read_inv held s n len Hi Hn) as (r & s' & E & _). eauto.
  - intros rec intr n m Hn Hm. destruct (inject_inv rec intr held s n m Hi Hm Hn) as (r & s' & E & _). eauto.
  - destruct (timer_inv held s Hi) as (s' & E & _). eauto.
Qed.
End steps.

(** ** The hub and the switch keep the laws *)

Lemma free_port_spec l i : free_port i l = -1 ∨ ∃ p, free_port i l = i + Z.of_nat p ∧ l !! p = Some None.
Proof.
  revert i. induction l as [|[n|] l IH]; intros i; cbn [free_port]; [by left | | right; exists 0%nat; split; [lia | done]].
  destruct (IH (i + 1)) as [E | (p & E & Hp)]; [by left | right; exists (S p); split; [lia | done]].
Qed.
Lemma free_port_law {P} (s : ipn_network P) : net_inv s → let r := free_port 0 (take (Z.to_nat (maxports s)) (connport s)) in
  r = -1 ∨ ∃ p, r = Z.of_nat p ∧ connport s !! p = Some None.
Proof.
  intros Hnet. cbv zeta. rewrite take_ge by (pose proof (ni_len _ Hnet); lia). destruct (free_port_spec (connport s) 0) as [E | (p & E & Hp)]; [by left | right; exists p; split; [lia | done]].
Qed.

Lemma bcast_filter {P} from m (s : ipn_network P) :
  ipn_bcast_handlemsg from m s = forM (filter (λ n, n ≠ from) (connectqueue s)) (λ n, ipn_proto_sendmsg (Some n) m) s.
Proof.
  unfold ipn_bcast_handlemsg. unfold mbind at 1, M_bind at 1, get. generalize (connectqueue s). intros l. revert s.
  induction l as [|n l IH]; intros s; [done|]. cbn [forM]. rewrite filter_cons. destruct (decide (n = from)) as [->|Hne].
  - rewrite bool_decide_eq_true_2, decide_False by naive_solver. cbn [negb whenM]. unfold mbind at 1, M_bind at 1. cbn [mret M_ret]. apply IH.
  - rewrite bool_decide_eq_false_2, decide_True by done. cbn [negb whenM forM]. unfold mbind at 1 2, M_bind at 1 2. destruct (ipn_proto_sendmsg (Some n) m s); [apply IH | done | done].
Qed.

Lemma same_private (s : ipn_network ()) q : upd_private q s = s.
Proof. by destruct q, s as [? ? ? ? ? ? ? ? ? ? ? ? []]. Qed.
Lemma hub_newport n (s : ipn_network ()) : net_inv s → ∃ r, ipn_p_newport n s = Done r s ∧ (r = -1 ∨ ∃ p, r = Z.of_nat p ∧ connport s !! p = Some None).
Proof. intros Hnet. exists (free_port 0 (take (Z.to_nat (maxports s)) (connport s))). split; [done | by apply free_port_law]. Qed.
Lemma hub_handle from m (s : ipn_network ()) : ∃ p ds, ipn_p_handlemsg from m s = forM ds (λ n, ipn_proto_sendmsg (Some n) m) (upd_private p s) ∧ (∀ d, d ∈ ds → d ∈ connectqueue s) ∧ True.
Proof.
  exists (), (filter (λ n, n ≠ from) (connectqueue s)). rewrite same_private. split_and!; [apply bcast_filter | by intros d [_ ?]%list_elem_of_filter | done].
Qed.
#[export] Instance ipn_bcast_laws : ProtocolLaws () := {|
  p_inv _ _ _ := True;
  p_newport_law := hub_newport;
  p_handle_law from m s _ _ _ _ _ _ _ _ _ := hub_handle from m s;
  p_delport_law _ s _ _ _ _ _ _ := ex_intro _ () (conj (f_equal (Done ()) (eq_sym (same_private s ()))) I);
  p_timer_law s _ _ := ex_intro _ () (conj (f_equal (Done ()) (eq_sym (same_private s ()))) I);
  p_mono _ _ _ _ _ _ _ _ := I
|}.

(** The table after a frame with the bytes [data] came in from [port]. *)
Definition learned (t timeout : Z) (data : list Z) (port : Z) (tbl : gmap hkey (Z * Z)) : gmap hkey (Z * Z) :=
  if IS_BROADCAST data 6 then tbl
  else match addr16 data 6 with Some a => <[(a, 0) := (port, t + timeout)]> tbl | None => tbl end.
(** The port a frame goes to, when it is known. *)
Definition known (data : list Z) (tbl : gmap hkey (Z * Z)) : option Z :=
  if IS_BROADCAST data 0 then None else match addr16 data 0 with Some a => fst <$> tbl !! (a, 0) | None => None end.
Definition destinations {P} (s : ipn_network P) (from : nat) (data : list Z) (tbl : gmap hkey (Z * Z)) : list nat :=
  match known data tbl with
  | Some p => match connport s !! Z.to_nat p with Some (Some n) => [n] | _ => [] end
  | None => filter (λ n, n ≠ from) (connectqueue s)
  end.

Record switch_inv (h : ipn_hash) (t : Z) (c : list (option nat)) : Prop := {
  si_wf : hash_wf t h;
  si_timer : timer_ok h;
  si_timeout : 0 < timeout h < 2 ^ 62;
  si_ports : ∀ k p x, htable h !! k = Some (p, x) → 0 ≤ p ∧ ∃ n, c !! Z.to_nat p = Some (Some n)
}.

Lemma addr16_some data o : 0 ≤ o → o + 6 ≤ Z.of_nat (length data) → ∃ a, addr16 data o = Some a.
Proof.
  intros Ho Hlen. unfold addr16. assert (length (slice data o 6) = 6%nat) as E.
  { unfold slice. rewrite length_take, length_drop. lia. }
  destruct (slice data o 6) as [|? [|? [|? [|? [|? [|? [|? ?]]]]]]]; try discriminate E. eauto.
Qed.

Lemma send_one {P} n m (s : ipn_network P) : forM [n] (λ n, ipn_proto_sendmsg (Some n) m) s = ipn_proto_sendmsg (Some n) m s.
Proof. cbn [forM]. unfold mbind at 1, M_bind at 1. by destruct (ipn_proto_sendmsg (Some n) m s) as [[] ?| |]. Qed.

Lemma learn_spec s x it h t : switch_inv h t (connport s) → proto_private s = h → jiffies s = t → time_ok t → 14 ≤ Z.of_nat (length (m_data it)) →
  (∃ n, 0 ≤ portno x ∧ connport s !! Z.to_nat (portno x) = Some (Some n)) →
  ∃ h', whenM (negb (IS_BROADCAST (m_data it) 6)) (src ← deref (addr16 (m_data it) 6); on_hash (ipn_hash_add t src 0 (portno x))) s = Done () (upd_private h' s) ∧
    switch_inv h' t (connport s) ∧ htable h' = learned t (timeout h) (m_data it) (portno x) (htable h) ∧ timeout h' = timeout h.
Proof.
  intros [Hw Hok Hto Hports] Eh Et Ht Hlen (n & Hp & Hport). unfold learned. destruct (addr16_some (m_data it) 6) as [a Ha]; [lia | lia|]. rewrite Ha.
  destruct (IS_BROADCAST (m_data it) 6); cbn [negb whenM].
  - exists h. split_and!; [|by split | done | done]. subst h. by destruct s.
  - unfold mbind, M_bind. cbn [deref mret M_ret]. unfold on_hash. rewrite Eh.
    destruct (ipn_hash_add_spec t h t a 0 (portno x)) as (h' & E & Hw' & Hok' & Em & Eto & Etab); [done | done | lia | apply Ht | lia | unfold time_ok in Ht; lia|].
    rewrite E. exists h'. split_and!; [done | | done | done]. split; [done | done | lia|]. intros k p y. rewrite Etab, lookup_insert_Some.
    intros [[_ [= <- _]] | [_ Hk]]; [eauto | eauto].
Qed.

Lemma switch_short from m (s : ipn_network ipn_hash) x it : nodes s !! from = Some x → msgs s !! m = Some it → m_len it < ETH_HLEN →
  ipn_kvde_switch_handlemsg from m s = Done () s.
Proof.
  intros Hx Hm Hlt. unfold ipn_kvde_switch_handlemsg, node_at, msg_at. unfold mbind at 1, M_bind at 1. unfold mbind at 1, M_bind at 1, get. rewrite Hx. cbn [deref mret M_ret].
  unfold mbind at 1, M_bind at 1. unfold mbind at 1, M_bind at 1. rewrite Hm. cbn [deref mret M_ret]. by rewrite (proj2 (Z.ltb_lt _ _) Hlt).
Qed.

(** The search for the destination. *)
Lemma lookup_dst s h data : proto_private s = h → hash_wf (jiffies s) h → 14 ≤ Z.of_nat (length data) →
  (if IS_BROADCAST data 0 then mret (-1) else dst ← deref (addr16 data 0); on_hash (ipn_hash_find dst 0)) s = Done (default (-1) (known data (htable h))) s.
Proof.
  intros Eh Hw Hlen. unfold known. destruct (addr16_some data 0) as [a Ha]; [lia | lia|]. rewrite Ha. destruct (IS_BROADCAST data 0); [done|].
  unfold mbind, M_bind. cbn [deref mret M_ret]. unfold on_hash. rewrite Eh, (ipn_hash_find_spec (jiffies s)) by done.
  assert (upd_private h s = s) as -> by (subst h; by destruct s). by destruct (htable h !! (a, 0)) as [[p y]|].
Qed.

Lemma switch_frame from m (s : ipn_network ipn_hash) x it : net_inv s → switch_inv (proto_private s) (jiffies s) (connport s) → time_ok (jiffies s) →
  from ∈ connectqueue s → nodes s !! from = Some x → msgs s !! m = Some it → m_len it = Z.of_nat (length (m_data it)) → ETH_HLEN ≤ m_len it →
  ∃ h', switch_inv h' (jiffies s) (connport s) ∧
    htable h' = learned (jiffies s) (timeout (proto_private s)) (m_data it) (portno x) (htable (proto_private s)) ∧
    ipn_kvde_switch_handlemsg from m s = forM (destinations s from (m_data it) (htable h')) (λ n, ipn_proto_sendmsg (Some n) m) (upd_private h' s).
Proof.
  intros Hnet Hsw Ht Hf Hx Hm Elen Hge. unfold ETH_HLEN in Hge. destruct (conn_port s from x Hnet Hf Hx) as (p & Ep & Hport).
  destruct (learn_spec s x it (proto_private s) (jiffies s)) as (h' & E1 & Hsw' & Etab & Eto); [done | done | done | done | lia | exists from; rewrite Ep, Nat2Z.id; split; [lia | done]|].
  exists h'. split; [done|]. split; [done|]. unfold ipn_kvde_switch_handlemsg, node_at, msg_at.
  unfold mbind at 1, M_bind at 1. unfold mbind at 1, M_bind at 1, get. rewrite Hx. cbn [deref mret M_ret].
  unfold mbind at 1, M_bind at 1. unfold mbind at 1, M_bind at 1. rewrite Hm. cbn [deref mret M_ret]. unfold ETH_HLEN. destruct (Z.ltb_spec (m_len it) 14); [lia|].
  unfold mbind at 1, M_bind at 1. unfold mbind at 1, M_bind at 1. rewrite E1. unfold mbind at 1, M_bind at 1.
  rewrite (lookup_dst (upd_private h' s) h' (m_data it)); [|done | apply Hsw' | lia]. unfold destinations.
  destruct (known (m_data it) (htable h')) as [q|] eqn:Ek; cbn [default id]; [|change (-1 <? 0) with true; cbv iota; by rewrite bcast_filter].
  assert (0 ≤ q ∧ ∃ n, connport s !! Z.to_nat q = Some (Some n)) as (Hq & n & Hn).
  { unfold known in Ek. destruct (IS_BROADCAST (m_data it) 0); [discriminate|]. destruct (addr16 (m_data it) 0) as [a|]; [|discriminate].
    destruct (htable h' !! (a, 0)) as [[q' y]|] eqn:Eq; [|discriminate]. injection Ek as <-. by apply (si_ports _ _ _ Hsw' (a, 0) q' y). }
  rewrite Hn. cbn [id]. destruct (Z.ltb_spec q 0); [lia|]. assert (zget (connport s) q = Some (Some n)) as -> by (apply zget_Some; done).
  unfold mbind at 1, M_bind at 1. cbn [deref mret M_ret]. by rewrite send_one.
Qed.

Lemma dest_connected {P} (s : ipn_network P) from data tbl : net_inv s → ∀ d, d ∈ destinations s from data tbl → d ∈ connectqueue s.
Proof.
  intros Hnet d. unfold destinations. destruct (known data tbl) as [p|]; [|by intros [_ ?]%list_elem_of_filter].
  destruct (connport s !! Z.to_nat p) as [[n|]|] eqn:E; [|by intros ?%elem_of_nil..]. intros ->%list_elem_of_singleton. by apply (ni_conn _ Hnet) in E as [? _].
Qed.

Lemma switch_newport n (s : ipn_network ipn_hash) : net_inv s → ∃ r, ipn_p_newport n s = Done r s ∧ (r = -1 ∨ ∃ p, r = Z.of_nat p ∧ connport s !! p = Some None).
Proof. intros Hnet. exists (free_port 0 (take (Z.to_nat (maxports s)) (connport s))). split; [done | by apply free_port_law]. Qed.
Lemma switch_handle from m (s : ipn_network ipn_hash) x it : net_inv s → switch_inv (proto_private s) (jiffies s) (connport s) → time_ok (jiffies s) →
  from ∈ connectqueue s → nodes s !! from = Some x → msgs s !! m = Some it → m_len it = Z.of_nat (length (m_data it)) →
  ∃ p ds, ipn_p_handlemsg from m s = forM ds (λ n, ipn_proto_sendmsg (Some n) m) (upd_private p s) ∧ (∀ d, d ∈ ds → d ∈ connectqueue s) ∧ switch_inv p (jiffies s) (connport s).
Proof.
  intros Hnet Hsw Ht Hf Hx Hm Elen. destruct (Z.lt_ge_cases (m_len it) ETH_HLEN) as [Hlt|Hge].
  - exists (proto_private s), []. split_and!; [|by intros d ?%elem_of_nil | done]. cbn [ipn_p_handlemsg vde_switch_proto forM]. rewrite (switch_short from m s x it) by done. by destruct s.
  - destruct (switch_frame from m s x it) as (h' & Hsw' & _ & E); [done..|]. do 2 eexists. split_and!; [exact E | by apply dest_connected | done].
Qed.
Lemma switch_delport n (s : ipn_network ipn_hash) x i : switch_inv (proto_private s) (jiffies s) (<[i := Some n]> (connport s)) → nodes s !! n = Some x →
  portno x = Z.of_nat i → connport s !! i = Some None → ∃ p, ipn_p_delport n s = Done () (upd_private p s) ∧ switch_inv p (jiffies s) (connport s).
Proof.
  intros [Hw Hok Hto Hports] Hn Hp Hfree. cbn [ipn_p_delport vde_switch_proto]. unfold ipn_kvde_switch_delport, node_at. unfold mbind at 1, M_bind at 1.
  unfold mbind at 1, M_bind at 1, get. rewrite Hn. cbn [deref mret M_ret]. unfold on_hash, ipn_hash_flush_port.
  destruct (flush_spec (λ e, h_port e =? portno x) (λ kv, kv.2.1 ≠ portno x) (jiffies s) (jiffies s) (proto_private s)) as (h' & E & Hw' & Hok' & _ & Eto & Etab);
    [done | done | lia | intros e; apply Z.eqb_neq |].
  rewrite E. exists h'. split; [done|]. split; [done | done | lia|]. intros k p y. rewrite Etab. intros [Hk Hne]%map_lookup_filter_Some. cbn in Hne.
  destruct (Hports k p y Hk) as (H0 & n' & Hn'). split; [done|]. exists n'. rewrite list_lookup_insert_ne in Hn'; [done|]. intros ->. lia.
Qed.
Lemma switch_timer (s : ipn_network ipn_hash) : switch_inv (proto_private s) (jiffies s) (connport s) → time_ok (jiffies s) →
  ∃ p, ipn_p_timer s = Done () (upd_private p s) ∧ switch_inv p (jiffies s) (connport s).
Proof.
  intros [Hw Hok Hto Hports] [Ht0 Ht]. cbn [ipn_p_timer vde_switch_proto]. unfold mbind, M_bind, get, on_hash.
  destruct (run_op_spec (jiffies s) (proto_private s) (jiffies s) OpTimer) as (h' & E & Hw' & Hok' & _ & Eto & Etab); [done | done | lia | lia | lia | lia|].
  cbn [run_op] in E. rewrite E. exists h'. split; [done|]. split; [done | done | lia|]. intros k p y. rewrite Etab. intros [Hk _]%map_lookup_filter_Some. by apply (Hports k p y).
Qed.
Lemma switch_mono h t t' c c' : switch_inv h t c → t ≤ t' → (∀ i n, c !! i = Some (Some n) → c' !! i = Some (Some n)) → switch_inv h t' c'.
Proof.
  intros [Hw Hok Hto Hports] Hle Hc. split; [by apply (wf_mono t) | done | done|]. intros k p y Hk. destruct (Hports k p y Hk) as (H0 & n & Hn). eauto.
Qed.
#[export] Instance vde_switch_laws : ProtocolLaws ipn_hash := {|
  p_inv := switch_inv;
  p_newport_law := switch_newport;
  p_handle_law := switch_handle;
  p_delport_law := switch_delport;
  p_timer_law := switch_timer;
  p_mono := switch_mono
|}.

(** ** Where the switch sends a frame *)

(** The messages in a queue. *)
Definition contents {P} (s : ipn_network P) (q : list nat) : list (option (list Z)) := (λ m, m_data <$> msgs s !! m) <$> q.

Section forward.
Context {P : Type} `{ProtocolLaws P}.

(** The nodes after a message was sent to each of [ds]. *)
Lemma sends_nodes held s m ds : inv held s → m ∈ held → NoDup ds → (∀ d, d ∈ ds → d ∈ connectqueue s) →
  ∃ s', forM ds (λ n, ipn_proto_sendmsg (Some n) m) s = Done () s' ∧ inv held s' ∧ shape s' = shape s ∧ same_data s s' ∧
    ∀ k y, nodes s !! k = Some y → nodes s' !! k = Some (if bool_decide (k ∈ ds) && accepts s y then enqueued m y else y).
Proof.
  revert s. induction ds as [|d ds IH]; intros s Hi Hm Hnd Hd; cbn [forM]; [by exists s|]. apply NoDup_cons in Hnd as [Hnin Hnd].
  destruct (conn_nodes s d (i_net _ _ Hi)) as [x Hx]; [apply Hd; set_solver|].
  destruct (sends_inv held s m [d]) as (s1 & E1 & Hi1 & Esh1 & Ed1); [done | done | set_solver|]. rewrite send_one in E1.
  destruct (sendmsg_spec d m held s x (i_pool _ _ Hi) Hm Hx) as (s1' & E1' & _ & _ & _ & _ & En1). rewrite E1 in E1'. injection E1' as <-. unfold mbind, M_bind. rewrite E1.
  assert (lossless s1 = lossless s ∧ msgpool_size s1 = msgpool_size s ∧ connectqueue s1 = connectqueue s) as (El & Es & Ec) by (unfold shape in Esh1; split_and!; congruence).
  destruct (IH s1) as (s' & E & Hi' & Esh & Ed & Hn); [done | done | done | intros k Hk; rewrite Ec; apply Hd; set_solver|].
  exists s'. split_and!; [done | done | congruence | intros k; by rewrite Ed|]. intros k y Hy. destruct (decide (k = d)) as [->|Hne].
  - rewrite Hx in Hy. injection Hy as <-. rewrite (bool_decide_eq_true_2 (d ∈ d :: ds)) by set_solver. cbn [andb].
    rewrite (Hn d (if accepts s x then enqueued m x else x)); [by rewrite bool_decide_eq_false_2|]. rewrite En1. destruct (accepts s x); [by rewrite lookup_insert_eq | done].
  - rewrite (Hn k y); [|rewrite En1; case_match; [by rewrite lookup_insert_ne | done]]. unfold accepts. rewrite El, Es.
    assert (bool_decide (k ∈ d :: ds) = bool_decide (k ∈ ds)) as -> by (apply bool_decide_ext; set_solver). done.
Qed.

Lemma contents_app (s : ipn_network P) q q' : contents s (q ++ q') = contents s q ++ contents s q'.
Proof. apply fmap_app. Qed.
Lemma contents_same (s s' : ipn_network P) q : (∀ m, m ∈ q → m_data <$> msgs s' !! m = m_data <$> msgs s !! m) → contents s' q = contents s q.
Proof. intros E. apply list_fmap_ext. intros i m Hi. apply E. by eapply list_elem_of_lookup_2. Qed.
End forward.

(** What is left of a message that was dispatched: every queue has what it had, and the new message. *)
Lemma put_contents {P} `{ProtocolLaws P} held (s s' : ipn_network P) q : inv held s' → (∀ k, k ∈ q → queued k s') →
  (∀ k it, msgs s' !! k = Some it → ∃ it', msgs s !! k = Some it' ∧ m_data it' = m_data it ∧ m_len it' = m_len it) → contents s' q = contents s q.
Proof.
  intros Hi Hq Hd. apply contents_same. intros k Hk. destruct (proj2 (live_iff held s' k Hi)) as [it Hit]; [right; by apply Hq|].
  destruct (Hd k it Hit) as (it' & Hit' & E & _). rewrite Hit, Hit'. cbn. by rewrite E.
Qed.

Lemma dest_nodup {P} (s : ipn_network P) from data tbl : net_inv s → NoDup (destinations s from data tbl).
Proof.
  intros Hnet. unfold destinations. pose proof (ni_nodup _ Hnet) as (_ & _ & Hc)%NoDup_app.
  destruct (known data tbl) as [p|]; [destruct (connport s !! Z.to_nat p) as [[n|]|]; [apply NoDup_singleton | constructor..] | by apply NoDup_filter].
Qed.

Lemma switch_write rec held (s : ipn_network ipn_hash) n x data : inv held s → n ∈ connectqueue s → nodes s !! n = Some x →
  write_refused (Z.of_nat (length data)) x s = None → ETH_HLEN ≤ Z.of_nat (length data) →
  let tbl := learned (jiffies s) (timeout (proto_private s)) data (portno x) (htable (proto_private s)) in
  ∃ s', ipn_node_write rec false n data s = Done (Z.of_nat (length data)) s' ∧ htable (proto_private s') = tbl ∧ connport s' = connport s ∧
    ∀ k y, nodes s !! k = Some y → ∃ y', nodes s' !! k = Some y' ∧ contents s' (oobmsgqueue y') = contents s (oobmsgqueue y) ∧
      contents s' (msgqueue y') = contents s (msgqueue y) ++ (if bool_decide (k ∈ destinations s n data tbl) && accepts s y then [Some data] else []).
Proof.
  intros Hi Hn Hx Hw Hge tbl. unfold ipn_node_write, node_at. unfold mbind at 1, M_bind at 1.
  unfold mbind at 1, M_bind at 1, get. rewrite Hx. cbn [deref mret M_ret]. unfold mbind at 1, M_bind at 1. rewrite Hw.
  destruct (pool_new data held s (i_pool _ _ Hi)) as (m & s1 & E1 & Hp1 & Esh1 & En1 & Em1 & Hnew & _). unfold mbind at 1, M_bind at 1. rewrite E1.
  assert (inv (m :: held) s1) as Hi1 by (apply (inv_shape held _ s); [done..|]; apply quiet_same; by rewrite En1).
  assert (connectqueue s1 = connectqueue s ∧ connport s1 = connport s ∧ proto_private s1 = proto_private s ∧ jiffies s1 = jiffies s) as (Ec & Epo & Epr & Ej) by (unfold shape in Esh1; split_and!; congruence).
  assert (lossless s1 = lossless s ∧ msgpool_size s1 = msgpool_size s) as (El & Es) by (unfold shape in Esh1; split_and!; congruence).
  destruct (switch_frame n m s1 x (MsgItem 1 (Z.of_nat (length data)) data)) as (h' & Hsw & Etab & E2); [apply Hi1 | apply (i_proto _ _ Hi1) | apply Hi1 | by rewrite Ec | by rewrite En1 | rewrite Em1; apply lookup_insert_eq | done | done |].
  cbn [m_data] in *. rewrite Epr, Ej in Etab. change (htable h' = tbl) in Etab. rewrite Etab in E2.
  destruct (sends_nodes (m :: held) (upd_private h' s1) m (destinations s1 n data tbl)) as (s2 & E3 & Hi2 & Esh2 & Ed2 & Hn2); [by apply private_inv | set_solver | apply dest_nodup, Hi1 | exact (dest_connected s1 n data tbl (i_net _ _ Hi1))|].
  rewrite E3 in E2. assert (ipn_proto_injectmsg rec false n m s1 = Done 0 s2) as Einj by (unfold ipn_proto_injectmsg; destruct rec; unfold mbind, M_bind; cbn [ipn_p_handlemsg vde_switch_proto]; by rewrite E2).
  unfold mbind at 1, M_bind at 1. rewrite Einj.
  destruct (put_inv held s2 m Hi2) as (s3 & E4 & Hi3). destruct (pool_put m held s2 (i_pool _ _ Hi2)) as (s3' & E4' & _ & Esh3 & En3 & Ed3 & _). rewrite E4 in E4'. injection E4' as <-.
  unfold mbind at 1, M_bind at 1. rewrite E4. exists s3. split; [done|].
  assert (proto_private s3 = h' ∧ connport s3 = connport s1) as [Eh3 Ep3] by (unfold shape in Esh2, Esh3; cbn [upd_private proto_private connport] in Esh2; split; congruence).
  split; [by rewrite Eh3|]. split; [congruence|]. intros k y Hy.
  set (b := bool_decide (k ∈ destinations s n data tbl) && accepts s y). assert (nodes s3 !! k = Some (if b then enqueued m y else y)) as Hy3.
  { rewrite En3. rewrite (Hn2 k y); [|cbn; by rewrite En1]. unfold b, accepts, destinations. cbn [upd_private lossless msgpool_size]. by rewrite Epo, Ec, El, Es. }
  assert (∀ q, (∀ j, j ∈ q → j ∈ msgqueue y ∨ j ∈ oobmsgqueue y) → contents s3 q = contents s q) as Hold.
  { intros q Hq. rewrite (put_contents held s2); [| done | | done].
    - apply contents_same. intros j Hj. rewrite Ed2. cbn [upd_private msgs]. rewrite Em1, lookup_insert_ne; [done|]. intros <-.
      destruct (proj2 (live_iff held s m Hi)) as [it Hit]; [|congruence]. right. exists k, y. split; [done | by apply Hq].
    - intros j Hj. exists k, (if b then enqueued m y else y). split; [done|]. destruct (Hq j Hj); destruct b; cbn [enqueued upd_recv msgqueue oobmsgqueue]; set_solver. }
  exists (if b then enqueued m y else y). split; [done|]. destruct b; cbn [enqueued upd_recv msgqueue oobmsgqueue]; rewrite ?contents_app, ?app_nil_r; [|split; apply Hold; auto].
  split; [apply Hold; auto|]. rewrite (Hold (msgqueue y)) by auto. f_equal. rewrite (put_contents held s2); [| done | | done].
  - cbn. rewrite Ed2. cbn [upd_private msgs]. by rewrite Em1, lookup_insert_eq.
  - intros j ->%list_elem_of_singleton. exists k, (enqueued m y). split; [done|]. left. cbn. set_solver.
Qed.

Lemma switch_new_inv hz h t c : ipn_kvde_switch_newnet hz = Some h → 0 < hz → 30 * hz < 2 ^ 62 → 0 ≤ t → switch_inv h t c.
Proof.
  intros E Hz Hb Ht. destruct (hash_new_wf hz 8 30) as (h' & E' & Hw & Hok & Eto & Etab); [lia | lia|]. unfold ipn_kvde_switch_newnet in E. change (2 ^ 8) with 256 in E'. rewrite E in E'. injection E' as <-.
  split; [by apply (wf_mono 0) | done | lia|]. intros k p y. rewrite Etab, lookup_empty. done.
Qed.

(** C17: The kernel switch. In every state a network can reach, a frame written by a
    connected node, whose write no signal interrupts, is queued once, after what was
    there, at the node connected at the port the table has for its destination, or,
    when there is none or the destination is a group, at all connected nodes but the
    sender, unless the receiver is a device, has shut down or has a full queue; all
    other queues keep what they have; and the table has then learned the port of the
    frame's source address. *)
Theorem kernel_switch_forwards rec hz parms h t s held n x data : ipn_kvde_switch_newnet hz = Some h → 0 < hz → 30 * hz < 2 ^ 62 →
  0 ≤ pb_maxports parms → time_ok t → rtc net_step (ipn_network_new parms h t, []) (s, held) →
  n ∈ connectqueue s → nodes s !! n = Some x → write_refused (Z.of_nat (length data)) x s = None → ETH_HLEN ≤ Z.of_nat (length data) →
  let tbl := learned (jiffies s) (timeout (proto_private s)) data (portno x) (htable (proto_private s)) in
  ∃ s', ipn_node_write rec false n data s = Done (Z.of_nat (length data)) s' ∧ htable (proto_private s') = tbl ∧ connport s' = connport s ∧
    ∀ k y, nodes s !! k = Some y → ∃ y', nodes s' !! k = Some y' ∧ contents s' (oobmsgqueue y') = contents s (oobmsgqueue y) ∧
      contents s' (msgqueue y') = contents s (msgqueue y) ++ (if bool_decide (k ∈ destinations s n data tbl) && accepts s y then [Some data] else []).
Proof.
  intros Enew Hz Hb Hmax Ht Hr Hn Hx Hw Hlen. apply (switch_write rec held); [|done..]. apply (reach_inv parms h t s held); [done | done | | done].
  apply (switch_new_inv hz); [done | done | done | apply Ht].
Qed.

(** ** A network at work *)

(** The steps, executable. *)
Inductive cmd := CmdCreate (n : nat) (dev : bool) | CmdNode (n : nat) (op : node_op) | CmdAlloc (n : nat) (data : list Z) | CmdInject (n m : nat)
  | CmdPut (m : nat) | CmdTake (n : nat) | CmdTick (t : Z) | CmdTimer.
Definition run_cmd {P} `{IpnProtocol P} (c : cmd) (a : ipn_network P * list nat) : option (ipn_network P * list nat) :=
  let '(s, held) := a in
  match c with
  | CmdCreate n dev => match nodes s !! n, ipn_node_create n dev s with None, Done _ s' => Some (s', held) | _, _ => None end
  | CmdNode n op => match nodes s !! n, run_node_op n op s with Some _, Done _ s' => if decide (fits op) then Some (s', held) else None | _, _ => None end
  | CmdAlloc n data =>
    match nodes s !! n with
    | Some x =>
      match write_refused (Z.of_nat (length data)) x s, msgpool_new data s with
      | None, Done m s' => if connected n s && may_alloc s then Some (s', m :: held) else None
      | _, _ => None
      end
    | None => None
    end
  | CmdInject n m => match ipn_proto_injectmsg false false n m s with Done _ s' => if connected n s && bool_decide (m ∈ held) then Some (s', held) else None | _ => None end
  | CmdPut m => match held, ipn_msgpool_put m s with k :: held', Done _ s' => if bool_decide (k = m) then Some (s', held') else None | _, _ => None end
  | CmdTake n => match nodes s !! n, read_take n s with Some _, Done (inr (m, _)) s' => Some (s', m :: held) | _, _ => None end
  | CmdTick t => if (jiffies s <=? t) && (0 <=? t) && (t <? 2 ^ 62) then Some (upd_jiffies t s, held) else None
  | CmdTimer => match ipn_p_timer s with Done _ s' => Some (s', held) | _ => None end
  end.
Fixpoint run_cmds {P} `{IpnProtocol P} (l : list cmd) (a : ipn_network P * list nat) : option (ipn_network P * list nat) :=
  match l with [] => Some a | c :: l => match run_cmd c a with Some a' => run_cmds l a' | None => None end end.

Lemma run_cmd_step {P} `{IpnProtocol P} c (a b : ipn_network P * list nat) : run_cmd c a = Some b → net_step a b.
Proof.
  destruct a as [s held]. destruct c as [n dev | n op | n data | n m | m | n | t |]; cbn [run_cmd].
  - destruct (nodes s !! n) eqn:En; [done|]. destruct (ipn_node_create n dev s) as [[] s'| |] eqn:E; [|done..]. intros [= <-]. by apply (step_create n dev).
  - destruct (nodes s !! n) eqn:En; [|done]. destruct (run_node_op n op s) as [r s'| |] eqn:E; [|done..]. case_decide; [|done]. intros [= <-]. apply (step_node n op r); [by eexists | done | done].
  - destruct (nodes s !! n) as [x|] eqn:En; [|done]. destruct (write_refused _ x s) eqn:Ew; [done|]. destruct (msgpool_new data s) as [m s'| |] eqn:E; [|done..].
    destruct (connected n s && may_alloc s) eqn:Ec; [|done]. intros [= <-]. apply andb_prop in Ec as [Ec Ea]. unfold connected in Ec. apply bool_decide_eq_true in Ec. by apply (step_alloc n x data m).
  - destruct (ipn_proto_injectmsg false false n m s) as [r s'| |] eqn:E; [|done..]. destruct (_ && _) eqn:Ec; [|done]. intros [= <-]. apply andb_prop in Ec as [Ec Em].
    unfold connected in Ec. apply bool_decide_eq_true in Ec. apply bool_decide_eq_true in Em. by apply (step_inject false false n m r).
  - destruct held as [|k held]; [done|]. destruct (ipn_msgpool_put m s) as [[] s'| |] eqn:E; [|done..]. case_bool_decide as Ek; [|done]. intros [= <-]. subst k. by apply (step_put m).
  - destruct (nodes s !! n) eqn:En; [|done]. destruct (read_take n s) as [[|[m oob]] s'| |] eqn:E; [done | | done..]. intros [= <-]. apply (step_take n m oob); [by eexists | done].
  - destruct (_ && _) eqn:E; [|done]. intros [= <-]. apply andb_prop in E as [E E3]. apply andb_prop in E as [E1 E2]. apply step_tick; [lia | unfold time_ok; lia].
  - destruct (ipn_p_timer s) as [[] s'| |] eqn:E; [|done..]. intros [= <-]. by apply step_timer.
Qed.
Lemma run_cmds_steps {P} `{IpnProtocol P} l (a b : ipn_network P * list nat) : run_cmds l a = Some b → rtc net_step a b.
Proof.
  revert a. induction l as [|c l IH]; intros a; cbn [run_cmds]; [by intros [= ->]|]. destruct (run_cmd c a) as [a'|] eqn:E; [|done].
  intros Hr. eapply rtc_l; [by eapply run_cmd_step | by apply IH].
Qed.

(** Three nodes join; node 1 sends to everybody, node 2 reads half of the way. *)
Definition demo_frame (dst src : Z) : list Z := [2; 0; 0; 0; 0; dst; 2; 0; 0; 0; 0; src; 8; 0; 42].
Definition demo_script : list cmd :=
  [CmdCreate 0 false; CmdCreate 1 false; CmdCreate 2 false; CmdNode 0 DoBind; CmdNode 0 DoConnect; CmdNode 1 DoConnect; CmdNode 2 DoConnect;
   CmdTick 5; CmdAlloc 1 (demo_frame 9 1); CmdInject 1 3; CmdPut 3; CmdTake 2].
Definition demo_switch : ipn_hash := default (IpnHash [] [] 0 0 None ∅ 0) (ipn_kvde_switch_newnet 100).
Definition demo_net : ipn_network ipn_hash := ipn_network_new STD_BIND_PARMS demo_switch 0.
Definition demo_state : ipn_network ipn_hash * list nat := default (demo_net, []) (run_cmds demo_script (demo_net, [])).

Lemma messages_live_while_referenced_witness : is_Some (msgs demo_state.1 !! 3%nat) ∧ ¬ is_Some (msgs demo_state.1 !! 2%nat) ∧ msgpool_nelem demo_state.1 = 1 ∧
  ∃ r s', ipn_node_read 0 100 demo_state.1 = Done r s'.
Proof.
  destruct (messages_live_while_referenced STD_BIND_PARMS demo_switch 0 demo_state.1 demo_state.2) as (Hl & Hn & _ & _ & _ & Hr & _).
  - vm_compute. discriminate.
  - split; vm_compute; [discriminate | reflexivity].
  - apply (switch_new_inv 100); [reflexivity | lia | lia | lia].
  - apply (run_cmds_steps demo_script). vm_compute. reflexivity.
  - split_and!.
    + apply Hl. left. apply (bool_decide_eq_true_1 (3%nat ∈ demo_state.2)). vm_compute. reflexivity.
    + vm_compute. intros [x Hx]. discriminate.
    + rewrite Hn. vm_compute. reflexivity.
    + apply Hr. vm_compute. eexists. reflexivity.
Defined.

(** Node 2 answers node 1, whose port is known, and node 0 gets nothing. *)
Lemma kernel_switch_forwards_witness : ∃ s', ipn_node_write false false 2 (demo_frame 1 2) demo_state.1 = Done 15 s' ∧
  (∃ y, nodes s' !! 1%nat = Some y ∧ contents s' (msgqueue y) = [Some (demo_frame 1 2)]) ∧
  (∃ y, nodes s' !! 0%nat = Some y ∧ contents s' (msgqueue y) = [Some (demo_frame 9 1)]).
Proof.
  destruct (kernel_switch_forwards false 100 STD_BIND_PARMS demo_switch 0 demo_state.1 demo_state.2 2
    (IpnNode false false 4 2 0 0 [] [] false true) (demo_frame 1 2)) as (s' & E & _ & _ & Hq).
  - reflexivity.
  - lia.
  - lia.
  - vm_compute. discriminate.
  - split; vm_compute; [discriminate | reflexivity].
  - apply (run_cmds_steps demo_script). vm_compute. reflexivity.
  - apply (bool_decide_eq_true_1 (2%nat ∈ connectqueue demo_state.1)). vm_compute. reflexivity.
  - vm_compute. reflexivity.
  - vm_compute. reflexivity.
  - vm_compute. discriminate.
  - exists s'. split; [exact E|]. split.
    + destruct (Hq 1%nat (IpnNode false false 4 1 0 0 [] [] false true)) as (y' & Hy' & _ & Ec); [vm_compute; reflexivity|]. exists y'. split; [exact Hy'|]. rewrite Ec. vm_compute. reflexivity.
    + destruct (Hq 0%nat (IpnNode true false 4 0 1 0 [3%nat] [] false true)) as (y' & Hy' & _ & Ec); [vm_compute; reflexivity|]. exists y'. split; [exact Hy'|]. rewrite Ec. vm_compute. reflexivity.
Defined.

(** ** Where the code goes wrong *)

(** Node 0 is connected, node 1 is only bound. *)
Definition two_nodes : M (ipn_network ipn_hash) () :=
  ipn_node_create 0 false ;; ipn_node_create 1 false ;; ipn_connect 0 ;; ipn_node_bind 1 ;; mret ().

(** A port number set on a bound node is taken as its port when it is closed: the
    port of another node is cleared, or memory behind the table. *)
Lemma so_port_clears_other_port :
  match (two_nodes ;; so_port 1 0 ;; ipn_node_release 1) demo_net with Done _ s => connectqueue s = [0%nat] ∧ connport s !! 0%nat = Some None | _ => False end.
Proof. vm_compute. split; reflexivity. Qed.
Lemma so_port_out_of_bounds : (two_nodes ;; so_port 1 64 ;; ipn_node_release 1) demo_net = Fault.
Proof. vm_compute. reflexivity. Qed.

(** A node that was never counted as a reader lowers the number of readers when
    it is closed: one is connected, and there are none. *)
Lemma bound_node_uncounted :
  match (two_nodes ;; ipn_node_release 1) demo_net with Done _ s => connectqueue s = [0%nat] ∧ numreaders s = 0 | _ => False end.
Proof. vm_compute. split; reflexivity. Qed.

(** A node that stops reading is no longer counted as a writer, and stays a reader. *)
Lemma shutdown_counts_inverted :
  match (two_nodes ;; ipn_shutdown 0 0) demo_net with Done _ s => numreaders s = 1 ∧ numwriters s = 0 | _ => False end.
Proof. vm_compute. split; reflexivity. Qed.

(** A write that a signal interrupts while it waits for the network is reported as done, and
    nobody gets the frame. *)
Lemma interrupted_write_lost :
  match ipn_node_write false true 2 (demo_frame 1 2) demo_state.1 with
  | Done r s => r = 15 ∧ nodes s = nodes demo_state.1
  | _ => False
  end.
Proof. vm_compute. split; reflexivity. Qed.

(** [ipn_msgpool_alloc] refuses a leaky message while there is room, and grants it when there is none. *)
Lemma alloc_condition_inverted {P} (s : ipn_network P) data : lossless s = true →
  (∃ m s', ipn_msgpool_alloc true data s = Done (Some m) s') ↔ msgpool_size s ≤ msgpool_nelem s.
Proof.
  intros El. unfold ipn_msgpool_alloc. unfold mbind at 1, M_bind at 1, get. rewrite El. cbn [andb]. destruct (Z.ltb_spec (msgpool_nelem s) (msgpool_size s)) as [Hlt|Hge].
  - split; [intros (m & s' & E); discriminate | lia].
  - split; [done|]. intros _. do 2 eexists. reflexivity.
Qed.

(** A frame whose destination is known on the port it came from goes back there. *)
Lemma frame_returns_to_sender :
  match ipn_node_write false false 1 (demo_frame 1 7) demo_state.1 with
  | Done r s => r = 15 ∧ (λ y, contents s (msgqueue y)) <$> nodes s !! 1%nat = Some [Some (demo_frame 1 7)]
  | _ => False
  end.
Proof. vm_compute. split; reflexivity. Qed.

(** A positive number of ports is accepted, and the network has none. *)
Lemma numnodes_truncated : (so_prebind IPN_SO_NUMNODES 65536 STD_BIND_PARMS).1 = 0 ∧ pb_maxports (so_prebind IPN_SO_NUMNODES 65536 STD_BIND_PARMS).2 = 0.
Proof. split; reflexivity. Qed.

(** The number of ports is not changed by an unbound node, which is told that it was. *)
Lemma change_numnodes_lost n x v (s : ipn_network ipn_hash) : nodes s !! n = Some x → bound x = false → shutdown x ≠ SHUTDOWN_XMASK → so_change_numnodes n v s = Done 0 s.
Proof.
  intros Hn Hb Hs. unfold so_change_numnodes, setsockopt_guard, node_at. unfold mbind at 1, M_bind at 1. unfold mbind at 1, M_bind at 1, get. rewrite Hn. cbn [deref mret M_ret].
  destruct (Z.eqb_spec (shutdown x) SHUTDOWN_XMASK); [done | by rewrite Hb].
Qed.

(** A size above 65535 is truncated in [maxports] only: the next change copies nothing,
    and the connected node 0 loses its port. *)
Lemma resize_loses_ports :
  match (two_nodes ;; so_change_numnodes 1 65536 ;; so_change_numnodes 1 64) demo_net with
  | Done _ s => connectqueue s = [0%nat] ∧ connport s !! 0%nat = Some None
  | _ => False
  end.
Proof. vm_compute. split; reflexivity. Qed.
