(* ===== verification/Utm.v ===== *)
(** * Utm: the machines that talk to a management socket

    [src/vde-2/src/common/cmdparse.c]: a script is a list of numbered states, each
    with a command, a string and a number; [utm_alloc] reads it from a file and
    [utm_run] interprets it, reading from the socket what the switch answers and writing
    commands.  A text is the list of its characters.  A state is pointed to by the
    rest of the list that begins with it, and NULL is the end of the list.  The input
    is what each [read] will find; no more input is a timeout, and an empty
    piece is the end of the file.  What is written is in [sent].

    The theorem: a script that is printed is read back.  [Mgmt] is about the scripts
    of the library. *)
From Stdlib Require Import Lia Ascii String.
From stdpp Require Import base numbers sets list strings sorting.
From S2P Require Import Prelude Scan.

#[global] Open Scope Z_scope.

Notation text := (list ascii).
Definition txt (s : string) : text := list_ascii_of_string s.
Definition str_of (l : text) : string := string_of_list_ascii l.
Definition NL : ascii := ascii_of_nat 10.
Definition NUL : ascii := ascii_of_nat 0.
Definition QUOTE : ascii := ascii_of_nat 39.
Definition BACKSLASH : ascii := ascii_of_nat 92.
Definition DOLLAR : ascii := ascii_of_nat 36.

Definition BUFSIZE : Z := 256.
Definition TIMEOUT : Z := 10000.

(** ** Scripts *)

Inductive command := C_ERR | C_IN | C_THROW | C_SEND | C_SHIFT | C_IF | C_GOTO | C_COPY | C_EXIT | C_EXITRV | C_SKIP | C_IFARG | C_RVATOI | C_OUTSHIFT | C_OUTTAG.
#[export] Instance command_eq_dec : EqDecision command.
Proof. solve_decision. Defined.
Definition commandname : list (string * command) :=
  [("", C_ERR); ("IN", C_IN); ("THROW", C_THROW); ("SEND", C_SEND); ("SHIFT", C_SHIFT); ("IF", C_IF); ("GOTO", C_GOTO); ("COPY", C_COPY);
   ("EXIT", C_EXIT); ("EXITRV", C_EXITRV); ("SKIP", C_SKIP); ("IFARG", C_IFARG); ("RVATOI", C_RVATOI); ("OUTSHIFT", C_OUTSHIFT); ("OUTTAG", C_OUTTAG)]%string.

Record utmstate := State { num : Z; cmd : command; pattern : text; nextnum : Z }.
Record utm := Utm { head : list utmstate; timeout : Z }.

Fixpoint utmsadd (head : list utmstate) (this : utmstate) : list utmstate :=
  match head with
  | [] => [this]
  | h :: next => if num this <? num h then this :: head else h :: utmsadd next this
  end.

Fixpoint search_names (names : list (string * command)) (name : text) : command :=
  match names with
  | [] => C_ERR
  | (n, c) :: names => if bool_decide (txt n = name) then c else search_names names name
  end.
Definition searchcommand (name : text) : command := search_names commandname name.

Definition is_blank (c : ascii) : bool := (ascii_z c =? 32) || (ascii_z c =? 9).
Fixpoint blankskip (s : text) : text :=
  match s with
  | c :: s' => if is_blank c then blankskip s' else s
  | [] => []
  end.
Definition is_sep (c : ascii) : bool := is_blank c || (ascii_z c =? 10).
(** The field and what is behind it. *)
Fixpoint fieldskip (s : text) : text * text :=
  match s with
  | c :: s' => if is_sep c then ([], s) else let '(f, r) := fieldskip s' in (c :: f, r)
  | [] => ([], [])
  end.

Definition escape (c : ascii) : ascii :=
  if ascii_z c =? 110 then NL else if ascii_z c =? 116 then ascii_of_nat 9 else if ascii_z c =? 102 then ascii_of_nat 12 else c.
(** The loop over a quoted string, from behind the opening quote: the string and
    the text from the closing quote on. *)
Fixpoint quoted (s : text) : text * text :=
  match s with
  | [] => ([], [])
  | c :: s' =>
    if ascii_z c =? 39 then ([], s)
    else
      match s' with
      | d :: s'' =>
        if ascii_z c =? 92 then let '(f, r) := quoted s'' in (escape d :: f, r) else let '(f, r) := quoted s' in (c :: f, r)
      | [] => ([c], [])
      end
  end.

Definition atoi_t (s : text) : Z := atoi (str_of s).
(** A line of the file; [None] when it reads what an earlier line left in the buffer. *)
Definition utm_line (u : utm) (buf : text) : option utm :=
  let s := blankskip buf in
  let num := atoi_t s in
  if 0 <? num then
    let s := blankskip (fieldskip s).2 in
    let '(name, s) := fieldskip s in
    let c := searchcommand name in
    if bool_decide (c = C_ERR) then Some u
    else
      let s := blankskip s in
      let '(str, s) := match s with
                       | q :: s' => if ascii_z q =? 39 then let '(f, r) := quoted s' in (f, blankskip (tail r)) else ([], s)
                       | [] => ([], [])
                       end in
      Some (Utm (utmsadd (head u) (State num c str (atoi_t s))) (timeout u))
  else if bool_decide (take 7 s = txt "TIMEOUT") then
    if (length s <? 8)%nat then None else Some (Utm (head u) (atoi_t (drop 8 s)))
  else Some u.

(** [fgets]: at most 255 characters, up to a newline. *)
Fixpoint fgets_t (n : nat) (s : text) : text * text :=
  match n, s with
  | S n, c :: s => if ascii_z c =? 10 then ([c], s) else let '(l, r) := fgets_t n s in (c :: l, r)
  | _, _ => ([], s)
  end.
(** Every [fgets] takes a character: the length of the file is enough fuel. *)
Fixpoint utm_lines (fuel : nat) (u : utm) (f : text) : option utm :=
  match fuel, f with
  | S fuel, _ :: _ => let '(l, r) := fgets_t 255 f in u ← utm_line u l; utm_lines fuel u r
  | _, _ => Some u
  end.
Definition utm_alloc (f : text) : option utm := utm_lines (length f) (Utm [] TIMEOUT) f.

(** ** Running *)

Record utm_out := Out { o_buf : text; o_tag : Z }.
(** [inbuf] is the unread part of [struct utm_buf], from [pos] on, which is [inpos]; [outs] are the finished output
    buffers and [out] the current one. *)
Record run := Run {
  status : list utmstate; curr : Z; linebuf : option text; rv : Z; argc : Z; argv : list text; argoff : Z;
  inbuf : text; inpos : Z; input : list text; sent : list text; outs : list utm_out; out : utm_out }.
Definition set_st (x : list utmstate) (s : run) : run :=
  Run x (curr s) (linebuf s) (rv s) (argc s) (argv s) (argoff s) (inbuf s) (inpos s) (input s) (sent s) (outs s) (out s).
Definition set_line (l : option text) (c : Z) (s : run) : run :=
  Run (status s) c l (rv s) (argc s) (argv s) (argoff s) (inbuf s) (inpos s) (input s) (sent s) (outs s) (out s).
Definition set_rv (v : Z) (s : run) : run :=
  Run (status s) (curr s) (linebuf s) v (argc s) (argv s) (argoff s) (inbuf s) (inpos s) (input s) (sent s) (outs s) (out s).
Definition set_args (c o : Z) (s : run) : run :=
  Run (status s) (curr s) (linebuf s) (rv s) c (argv s) o (inbuf s) (inpos s) (input s) (sent s) (outs s) (out s).
Definition set_in (b : text) (p : Z) (i : list text) (s : run) : run :=
  Run (status s) (curr s) (linebuf s) (rv s) (argc s) (argv s) (argoff s) b p i (sent s) (outs s) (out s).
Definition add_sent (w : text) (s : run) : run :=
  Run (status s) (curr s) (linebuf s) (rv s) (argc s) (argv s) (argoff s) (inbuf s) (inpos s) (input s) (sent s ++ [w]) (outs s) (out s).
Definition set_outs (l : list utm_out) (o : utm_out) (s : run) : run :=
  Run (status s) (curr s) (linebuf s) (rv s) (argc s) (argv s) (argoff s) (inbuf s) (inpos s) (input s) (sent s) l o.

(** [None] is [-1]: a timeout or the end of the input. *)
Definition readchar : M run (option ascii) :=
  s ← get;
  match inbuf s with
  | c :: b => modify (set_in b (inpos s + 1) (input s)) ;; mret (Some c)
  | [] =>
    match input s with
    | [] => mret None
    | piece :: rest =>
      match take (Z.to_nat BUFSIZE) piece with
      | [] => mret None
      | c :: b =>
        let left := drop (Z.to_nat BUFSIZE) piece in
        modify (set_in b 1 (match left with [] => rest | _ => left :: rest end)) ;; mret (Some c)
      end
    end
  end.

Definition prefixb (p l : text) : bool := bool_decide (take (length p) l = p).
Definition suffixb (p l : text) : bool := bool_decide (drop (length l - length p) l = p).
(** The loop of [IN]; it tells whether it ended by a timeout. *)
Fixpoint in_loop (fuel : nat) (pat line : text) : M run (text * bool) :=
  match fuel with
  | O => λ _, Fault
  | S fuel =>
    c ← readchar;
    match c with
    | None => mret (line, true)
    | Some c =>
      let line := line ++ [c] in
      if (length line <? length pat)%nat || negb (suffixb pat line) then in_loop fuel pat line else mret (line, false)
    end
  end.
(** Every turn but the last takes a character. *)
Definition in_fuel (s : run) : nat := S (length (inbuf s) + length (concat (input s))).

Fixpoint sgoto (head : list utmstate) (n : Z) : list utmstate :=
  match head with
  | [] => []
  | h :: next => if n =? num h then head else sgoto next n
  end.

(** The text of [SEND]; [prev] is the character before.  Behind a number one more
    character is skipped, and at the end of the string the loop runs on: [None]. *)
Definition arg_at (s : run) (i : Z) : option text := zget (argv s) (argoff s + i).
Fixpoint all_args (n : nat) (i : Z) (s : run) : option text :=
  match n with
  | O => Some []
  | S n => a ← arg_at s i; r ← all_args n (i + 1) s; Some ((if i =? 0 then [] else txt " ") ++ a ++ r)
  end.
Fixpoint digits_skip (t : text) : text :=
  match t with
  | c :: t' => if isdigit c then digits_skip t' else t
  | [] => []
  end.
Fixpoint expand (fuel : nat) (prev : ascii) (t : text) (s : run) : option text :=
  match fuel, t with
  | S fuel, c :: t =>
    if (ascii_z c =? 36) && negb (ascii_z prev =? 92) then
      match t with
      | d :: t' =>
        if (ascii_z d =? 42) || (ascii_z d =? 48) then
          a ← all_args (Z.to_nat (argc s)) 0 s; r ← expand fuel d t' s; Some (a ++ r)
        else
          let n := atoi_t t in
          a ← (if n <? argc s then arg_at s n else Some []);
          match digits_skip t with
          | [] => None
          | e :: t' => r ← expand fuel e t' s; Some (a ++ r)
          end
      | [] => None
      end
    else r ← expand fuel c t s; Some (c :: r)
  | _, _ => Some []
  end.

(** A C string ends before its first NUL. *)
Fixpoint cstring (l : text) : text :=
  match l with
  | c :: l => if ascii_z c =? 0 then [] else c :: cstring l
  | [] => []
  end.
(** [linebuf+curr] *)
Definition at_curr (l : text) (c : Z) : M run text :=
  if (c <? 0) || (Z.of_nat (length l) <? c) then λ _, Fault else mret (drop (Z.to_nat c) l).
Fixpoint strstr (l p : text) : bool :=
  prefixb p l || match l with _ :: l' => strstr l' p | [] => false end.

Definition digit36 (base : Z) (c : ascii) : option Z :=
  let z := ascii_z c in
  let d := if (48 <=? z) && (z <=? 57) then z - 48 else if (97 <=? z) && (z <=? 122) then z - 87 else if (65 <=? z) && (z <=? 90) then z - 55 else 99 in
  if d <? base then Some d else None.
Fixpoint digits36 (base : Z) (s : string) (acc : Z) : Z :=
  match s with
  | String c s => match digit36 base c with Some d => digits36 base s (acc * base + d) | None => acc end
  | EmptyString => acc
  end.
(** [strtol] with a base from 2 to 36, stored in an [int]. *)
Definition strtol (base : Z) (t : text) : Z :=
  let '(sg, s) := scan_sign (skip_spaces (str_of t)) in
  let s := if base =? 16 then match scan_base s with (16, s') => s' | _ => s end else s in
  i32 (clamp_long (sg * digits36 base s 0)).

Definition next_st : M run (option Z) := modify (λ s, set_st (tail (status s)) s) ;; mret None.
(** One turn of the loop of [utm_run]; a value is returned. *)
Definition utm_step (u : utm) : M run (option Z) :=
  s ← get;
  st ← deref (match status s with st :: _ => Some st | [] => None end);
  let jump := modify (set_st (sgoto (head u) (nextnum st))) ;; mret None in
  match cmd st with
  | C_ERR => mret (Some (-1))
  | C_IN =>
    r ← in_loop (in_fuel s) (pattern st) (default [] (linebuf s));
    modify (λ s, set_line (Some r.1) (curr s) s) ;;
    if (r.2 : bool) then jump else next_st
  | C_THROW => modify (λ s, set_line (match linebuf s with Some _ => Some [] | None => None end) 0 s) ;; next_st
  | C_SEND => w ← deref (expand (length (pattern st)) NUL (pattern st) s); modify (add_sent w) ;; next_st
  | C_SHIFT => modify (λ s, set_args (argc s - 1) (argoff s + 1) s) ;; next_st
  | C_IF =>
    match linebuf s with
    | None => next_st
    | Some l => t ← at_curr l (curr s); if prefixb (pattern st) t then jump else next_st
    end
  | C_GOTO => jump
  | C_COPY =>
    match linebuf s with
    | None => next_st
    | Some l => t ← at_curr l (curr s); modify (λ s, set_outs (outs s) (Out (o_buf (out s) ++ cstring t ++ [NUL]) (o_tag (out s))) s) ;; next_st
    end
  | C_EXIT => mret (Some (nextnum st))
  | C_EXITRV => mret (Some (rv s))
  | C_SKIP =>
    match linebuf s with
    | None => next_st
    | Some l =>
      (** the difference of pointers into two strings *)
      if negb (bool_decide (pattern st = [])) && strstr (cstring l) (pattern st) then λ _, Fault
      else modify (set_line (Some l) (Z.min (curr s + nextnum st) (Z.of_nat (length l)))) ;; next_st
    end
  | C_IFARG => if 0 <=? argc s then jump else next_st
  | C_RVATOI =>
    match linebuf s with
    | None => modify (set_rv (-1)) ;; next_st
    | Some l =>
      if (nextnum st <=? 0) || ((2 <=? nextnum st) && (nextnum st <=? 36)) then
        t ← at_curr l (curr s); modify (set_rv (strtol (if nextnum st <=? 0 then 10 else nextnum st) t)) ;; next_st
      else modify (set_rv (-1)) ;; next_st
    end
  | C_OUTSHIFT => modify (λ s, set_outs (outs s ++ [out s]) (Out [] 0) s) ;; next_st
  | C_OUTTAG => modify (λ s, set_outs (outs s) (Out (o_buf (out s)) (nextnum st)) s) ;; next_st
  end.
(** The machine may run for ever: [fuel] bounds the number of turns. *)
Fixpoint utm_loop (fuel : nat) (u : utm) : M run Z :=
  match fuel with
  | O => λ _, Fault
  | S fuel => r ← utm_step u; match r with Some v => mret v | None => utm_loop fuel u end
  end.
(** The state in which [utm_run] begins. *)
Definition start (u : utm) (argv : list text) (inbuf : text) (pos : Z) (input : list text) : run :=
  Run (head u) 0 None (-1) (Z.of_nat (length argv)) argv 0 inbuf pos input [] [] (Out [] 0).
Definition utm_run (fuel : nat) (u : utm) (argv : list text) (inbuf : text) (pos : Z) (input : list text) : outcome run Z :=
  utm_loop fuel u (start u argv inbuf pos input).

(** ** Printing *)

(** [%d] *)
Definition shown (z : Z) (acc : string) : string := if z <? 0 then String "-" (show_dec 10 (- z) acc) else show_dec 10 z acc.
Definition shown_t (z : Z) : text := txt (shown z "").
Definition name_of (c : command) : text :=
  txt (match c with
       | C_ERR => "" | C_IN => "IN" | C_THROW => "THROW" | C_SEND => "SEND" | C_SHIFT => "SHIFT" | C_IF => "IF" | C_GOTO => "GOTO" | C_COPY => "COPY"
       | C_EXIT => "EXIT" | C_EXITRV => "EXITRV" | C_SKIP => "SKIP" | C_IFARG => "IFARG" | C_RVATOI => "RVATOI" | C_OUTSHIFT => "OUTSHIFT" | C_OUTTAG => "OUTTAG"
       end).
Definition print_char (c : ascii) : text :=
  let z := ascii_z c in
  if (z =? 39) || (z =? 92) then [BACKSLASH; c] else if z =? 10 then txt "\n" else if z =? 9 then txt "\t" else if z =? 12 then txt "\f" else [c].
Definition print_state (st : utmstate) : text :=
  shown_t (num st) ++ txt " " ++ name_of (cmd st) ++ txt " '" ++ concat (print_char <$> pattern st) ++ txt "' " ++ shown_t (nextnum st).
Definition print_script (t : Z) (l : list utmstate) : text :=
  txt "TIMEOUT " ++ shown_t t ++ [NL] ++ concat ((λ st, print_state st ++ [NL]) <$> l).

Definition int_ok (z : Z) : Prop := - 2 ^ 31 ≤ z < 2 ^ 31.
Record state_ok (st : utmstate) : Prop := {
  so_num : 0 < num st < 2 ^ 31;
  so_cmd : cmd st ≠ C_ERR;
  so_text : NUL ∉ pattern st;
  so_next : int_ok (nextnum st);
  so_len : (length (print_state st) < 255)%nat
}.

Lemma txt_str (l : text) : txt (str_of l) = l.
Proof. apply list_ascii_of_string_of_list_ascii. Qed.
Lemma txt_app a b : txt (String.append a b) = txt a ++ txt b.
Proof. unfold txt. induction a as [|c a IH]; [done|]. exact (f_equal (cons c) IH). Qed.
Lemma str_app a b : str_of (a ++ b) = String.append (str_of a) (str_of b).
Proof. unfold str_of. induction a as [|c a IH]; [done|]. exact (f_equal (String c) IH). Qed.
Lemma str_txt s : str_of (txt s) = s.
Proof. apply string_of_list_ascii_of_string. Qed.
Lemma show_dec_app f : ∀ z acc, show_dec f z acc = String.append (show_dec f z "") acc.
Proof.
  induction f as [|f IH]; intros z acc; cbn [show_dec]; [done|]. destruct (z / 10 =? 0); [done|]. rewrite IH, (IH _ (String _ "")).
  generalize (show_dec f (z / 10) ""). intros s. induction s as [|c s IHs]; [done|]. exact (f_equal (String c) IHs).
Qed.
Lemma shown_app z acc : shown z acc = String.append (shown z "") acc.
Proof. unfold shown. destruct (z <? 0); [exact (f_equal (String "-") (show_dec_app 10 (- z) acc)) | apply show_dec_app]. Qed.

Lemma digit_plain d s : 0 ≤ d < 10 → skip_spaces (String (digit_char d) s) = String (digit_char d) s ∧ scan_sign (String (digit_char d) s) = (1, String (digit_char d) s).
Proof.
  intros Hd. unfold skip_spaces, scan_sign, isspace. rewrite !ascii_z_digit by lia.
  rewrite (proj2 (Z.eqb_neq (48 + d) 32)), (proj2 (Z.leb_gt (48 + d) 13)) by lia.
  rewrite (proj2 (Z.eqb_neq (48 + d) 45)), (proj2 (Z.eqb_neq (48 + d) 43)) by lia. by rewrite andb_false_r.
Qed.
Lemma show_dec_digit f : ∀ z acc, (0 < f)%nat → 0 ≤ z → ∃ d s, show_dec f z acc = String (digit_char d) s ∧ 0 ≤ d < 10.
Proof.
  induction f as [|f IH]; intros z acc Hf Hz; [lia|]. cbn [show_dec]. assert (0 ≤ z mod 10 < 10) as Hm by (apply Z.mod_pos_bound; lia).
  destruct (z / 10 =? 0); [eauto|]. destruct f; [eauto|]. apply IH; [lia | apply Z.div_pos; lia].
Qed.
Lemma int_value z : int_ok z → i32 (clamp_long z) = z.
Proof. unfold int_ok, clamp_long, i32. intros Hz. rewrite Z.min_r, Z.max_r by lia. rewrite Z.mod_small; lia. Qed.

Lemma atoi_shown z c acc : int_ok z → digit_val 10 c = None → atoi (shown z (String c acc)) = z.
Proof.
  intros Hz Hc. assert (∀ a, 0 ≤ a < 2 ^ 31 + 1 → ∃ b r, scan_digits 10 (show_dec 10 a (String c acc)) 0 false = (a, b, r)) as Hscan.
  { intros a Ha. destruct (scan_show_dec 10 a (String c acc) 0 false) as (k & Hk & ->); [lia | lia | lia|]. cbn [scan_digits]. rewrite Hc. rewrite Z.mul_0_l, Z.add_0_l. eauto. }
  unfold atoi, shown. destruct (Z.ltb_spec z 0) as [Hn|Hn].
  - cbn [skip_spaces]. change (isspace "-") with false. cbv iota. cbn [scan_sign]. change (ascii_z "-" =? 45) with true. cbv iota.
    destruct (Hscan (- z)) as (b & r & ->); [unfold int_ok in Hz; lia|]. replace (-1 * - z) with z by lia. by apply int_value.
  - destruct (show_dec_digit 10 z (String c acc)) as (d & s & Es & Hd); [lia | lia|]. destruct (digit_plain d s Hd) as [E1 E2].
    destruct (Hscan z) as (b & r & E); [unfold int_ok in Hz; lia|]. rewrite Es in *. rewrite E1, E2, E, Z.mul_1_l. by apply int_value.
Qed.
Lemma atoi_text z c r : int_ok z → digit_val 10 c = None → atoi_t (shown_t z ++ c :: r) = z.
Proof. intros Hz Hc. unfold atoi_t, shown_t. rewrite str_app, str_txt. cbn. rewrite <- shown_app. by apply atoi_shown. Qed.

(** ** Reading what was printed *)

Lemma ascii_eq c n : ascii_z c = Z.of_nat n → c = ascii_of_nat n.
Proof.
  intros E. unfold ascii_z in E. assert (N_of_ascii c = N.of_nat n) as En by lia. rewrite <- (ascii_N_embedding c), En. done.
Qed.
Lemma quoted_escape d t : quoted (BACKSLASH :: d :: t) = (escape d :: (quoted t).1, (quoted t).2).
Proof. change (quoted (BACKSLASH :: d :: t)) with (let '(f, r) := quoted t in (escape d :: f, r)). by destruct (quoted t). Qed.
Lemma quoted_plain c d t : ascii_z c ≠ 39 → ascii_z c ≠ 92 → quoted (c :: d :: t) = (c :: (quoted (d :: t)).1, (quoted (d :: t)).2).
Proof.
  intros H1 H2. change (quoted (c :: d :: t)) with (if ascii_z c =? 39 then ([], c :: d :: t) else if ascii_z c =? 92 then let '(f, r) := quoted t in (escape d :: f, r) else let '(f, r) := quoted (d :: t) in (c :: f, r)).
  rewrite (proj2 (Z.eqb_neq _ _) H1), (proj2 (Z.eqb_neq _ _) H2). by destruct (quoted (d :: t)).
Qed.
Lemma print_char_spec c : (∃ d, print_char c = [BACKSLASH; d] ∧ escape d = c) ∨ (print_char c = [c] ∧ ascii_z c ≠ 39 ∧ ascii_z c ≠ 92 ∧ ascii_z c ≠ 10).
Proof.
  unfold print_char. destruct (Z.eqb_spec (ascii_z c) 39) as [E|E39]; [apply (ascii_eq c 39) in E; subst c; left; by eexists|].
  destruct (Z.eqb_spec (ascii_z c) 92) as [E|E92]; [apply (ascii_eq c 92) in E; subst c; left; by eexists|]. cbn [orb].
  destruct (Z.eqb_spec (ascii_z c) 10) as [E|E10]; [apply (ascii_eq c 10) in E; subst c; left; by eexists|].
  destruct (Z.eqb_spec (ascii_z c) 9) as [E|E9]; [apply (ascii_eq c 9) in E; subst c; left; by eexists|].
  destruct (Z.eqb_spec (ascii_z c) 12) as [E|E12]; [apply (ascii_eq c 12) in E; subst c; left; by eexists | by right].
Qed.
Lemma quoted_print p r : quoted (concat (print_char <$> p) ++ QUOTE :: r) = (p, QUOTE :: r).
Proof.
  induction p as [|c p IH]; [done|]. rewrite fmap_cons. cbn [concat]. rewrite <- app_assoc.
  destruct (print_char_spec c) as [(d & -> & Ed) | (-> & H39 & H92 & _)]; cbn [app].
  - by rewrite quoted_escape, IH, Ed.
  - destruct (concat (print_char <$> p) ++ QUOTE :: r) as [|d t] eqn:Et; [by destruct (concat (print_char <$> p))|]. by rewrite quoted_plain, IH.
Qed.

(** No newline inside of a line, and no blank inside of a number. *)
Definition graph (c : ascii) : Prop := is_sep c = false.
Lemma digit_graph d : 0 ≤ d < 10 → graph (digit_char d).
Proof. intros Hd. unfold graph, is_sep, is_blank. rewrite ascii_z_digit by done. repeat (rewrite (proj2 (Z.eqb_neq _ _)) by lia). done. Qed.
Lemma show_dec_graph f : ∀ z s, 0 ≤ z → Forall graph (txt s) → Forall graph (txt (show_dec f z s)).
Proof.
  induction f as [|f IH]; intros z s Hz Hs; cbn [show_dec]; [done|]. assert (0 ≤ z mod 10 < 10) as Hm by (apply Z.mod_pos_bound; lia).
  assert (Forall graph (txt (String (digit_char (z mod 10)) s))) as Hd by (constructor; [by apply digit_graph | done]).
  destruct (z / 10 =? 0); [done|]. apply IH; [apply Z.div_pos; lia | done].
Qed.
Lemma shown_graph z : Forall graph (shown_t z).
Proof. unfold shown_t, shown. destruct (Z.ltb_spec z 0); [constructor; [done|]|]; apply show_dec_graph; try lia; constructor. Qed.
Lemma shown_cons z : ∃ c l, shown_t z = c :: l ∧ is_blank c = false.
Proof.
  pose proof (shown_graph z) as H. destruct (shown_t z) as [|c l] eqn:E.
  - exfalso. unfold shown_t, shown in E. destruct (Z.ltb_spec z 0); [discriminate|]. destruct (show_dec_digit 10 z "") as (d & s & Es & _); [lia | lia|]. rewrite Es in E. discriminate.
  - exists c, l. split; [done|]. apply Forall_cons in H as [H _]. unfold graph, is_sep in H. by apply orb_false_iff in H as [? _].
Qed.
Lemma blankskip_shown z r : blankskip (shown_t z ++ r) = shown_t z ++ r.
Proof. destruct (shown_cons z) as (c & l & -> & Hc). cbn. by rewrite Hc. Qed.
Lemma fieldskip_app f c r : Forall graph f → is_sep c = true → fieldskip (f ++ c :: r) = (f, c :: r).
Proof. induction f as [|x f IH]; intros Hf Hc; cbn [app fieldskip]; [by rewrite Hc|]. apply Forall_cons in Hf as [Hx Hf]. rewrite Hx. by rewrite IH. Qed.

Lemma name_spec c : c ≠ C_ERR → searchcommand (name_of c) = c ∧ Forall graph (name_of c) ∧ ∃ x l, name_of c = x :: l ∧ is_blank x = false.
Proof. destruct c; intros Hc; try done; (split; [vm_compute; reflexivity|]); (split; [repeat constructor | by do 2 eexists]). Qed.

Lemma utm_line_print u st : state_ok st → utm_line u (print_state st ++ [NL]) = Some (Utm (utmsadd (head u) st) (timeout u)).
Proof.
  intros [Hn Hc _ Hx _]. destruct (name_spec (cmd st) Hc) as (Es & Hg & x & l & El & Hb). unfold print_state. rewrite <- !app_assoc.
  unfold utm_line. cbv zeta. rewrite blankskip_shown. change (txt " " ++ ?r) with (" "%char :: r).
  rewrite atoi_text by (done || unfold int_ok; lia). rewrite (proj2 (Z.ltb_lt _ _)) by lia.
  rewrite fieldskip_app by (apply shown_graph || done). cbn [snd blankskip]. change (is_blank " ") with true. cbv iota.
  assert (∀ r, blankskip (name_of (cmd st) ++ r) = name_of (cmd st) ++ r) as -> by (intros r; rewrite El; cbn; by rewrite Hb).
  change (txt " '" ++ ?r) with (" "%char :: QUOTE :: r). rewrite fieldskip_app by done. rewrite Es, bool_decide_eq_false_2 by done.
  cbn [blankskip]. change (is_blank " ") with true. change (is_blank QUOTE) with false. cbv iota. change (ascii_z QUOTE =? 39) with true. cbv iota.
  change (txt "' " ++ ?r) with (QUOTE :: " "%char :: r). rewrite quoted_print. cbn [tail blankskip]. change (is_blank " ") with true. cbv iota.
  rewrite blankskip_shown, atoi_text by done. by destruct st.
Qed.

Lemma fgets_line n l r : Forall (λ c, ascii_z c ≠ 10) l → (length l < n)%nat → fgets_t n (l ++ NL :: r) = (l ++ [NL], r).
Proof.
  revert n. induction l as [|c l IH]; intros n Hl Hn; (destruct n as [|n]; [cbn in Hn; lia|]); cbn [app fgets_t]; [done|].
  apply Forall_cons in Hl as [Hc Hl]. rewrite (proj2 (Z.eqb_neq _ _) Hc). rewrite IH; [done | done | cbn in Hn; lia].
Qed.
Lemma utmsadd_last l st : Forall (λ h, num h ≤ num st) l → utmsadd l st = l ++ [st].
Proof. induction l as [|h l IH]; intros Hl; cbn [utmsadd]; [done|]. apply Forall_cons in Hl as [Hh Hl]. destruct (Z.ltb_spec (num st) (num h)); [lia|]. by rewrite IH. Qed.

Lemma graph_no_nl l : Forall graph l → Forall (λ c, ascii_z c ≠ 10) l.
Proof. intros H. eapply Forall_impl; [exact H|]. intros c Hc E. unfold graph, is_sep in Hc. rewrite E in Hc. by rewrite orb_true_r in Hc. Qed.
Lemma print_no_nl st : state_ok st → Forall (λ c, ascii_z c ≠ 10) (print_state st).
Proof.
  intros Hst. destruct (name_spec (cmd st) (so_cmd _ Hst)) as (_ & Hg & _). unfold print_state.
  repeat (apply Forall_app; split); try (by apply graph_no_nl, shown_graph); try (by apply graph_no_nl); try (by repeat constructor).
  induction (pattern st) as [|c p IH]; [constructor|]. rewrite fmap_cons. cbn [concat]. apply Forall_app. split; [|done].
  destruct (print_char_spec c) as [(d & Ep & Ed) | (Ep & _ & _ & H10)]; [|rewrite Ep; by constructor].
  rewrite Ep. constructor; [done|]. constructor; [|done]. intros E. unfold print_char in Ep. apply (ascii_eq d 10) in E. subst d.
  revert Ep. repeat case_match; try discriminate; intros [= E]; subst c; discriminate.
Qed.

Lemma utm_lines_print l : ∀ fuel u, Forall state_ok l → StronglySorted (λ a b, num a ≤ num b) (head u ++ l) → (length (concat ((λ st, print_state st ++ [NL]) <$> l)) ≤ fuel)%nat →
  utm_lines fuel u (concat ((λ st, print_state st ++ [NL]) <$> l)) = Some (Utm (head u ++ l) (timeout u)).
Proof.
  induction l as [|st l IH]; intros fuel u Hok Hs Hf; [rewrite app_nil_r; destruct u, fuel; done|].
  apply Forall_cons in Hok as [Hst Hok]. rewrite fmap_cons in *. cbn [concat] in *. rewrite length_app, length_app in Hf.
  cbn [length] in Hf. destruct fuel as [|fuel]; [lia|]. set (rest := concat _) in *.
  assert ((print_state st ++ [NL]) ++ rest = print_state st ++ NL :: rest) as -> by (by rewrite <- app_assoc).
  assert (∃ c t, print_state st ++ NL :: rest = c :: t) as (c & t & Ect) by (destruct (print_state st); cbn; eauto).
  cbn [utm_lines]. rewrite Ect. rewrite <- Ect.
  rewrite fgets_line by (apply print_no_nl || apply so_len; done). rewrite utm_line_print by done. cbn [mbind option_bind].
  rewrite utmsadd_last.
  - unfold rest. rewrite IH; cbn [head timeout]; [by rewrite <- app_assoc | done | by rewrite <- app_assoc | lia].
  - apply Forall_forall. intros h Hh. apply StronglySorted_app in Hs as (Hs & _ & _). apply Hs; [done | set_solver].
Qed.

Lemma show_dec_length f : ∀ z s, (String.length (show_dec f z s) ≤ f + String.length s)%nat.
Proof.
  induction f as [|f IH]; intros z s; cbn [show_dec]; [lia|]. destruct (z / 10 =? 0); [cbn [String.length]; lia|]. rewrite IH. cbn [String.length]. lia.
Qed.
Lemma length_txt s : length (txt s) = String.length s.
Proof. unfold txt. induction s as [|c s IH]; [done|]. exact (f_equal S IH). Qed.
Lemma shown_length z : (length (shown_t z) ≤ 11)%nat.
Proof. unfold shown_t. rewrite length_txt. unfold shown. pose proof (show_dec_length 10 (- z) ""). pose proof (show_dec_length 10 z ""). cbn [String.length] in *. destruct (z <? 0); cbn [String.length]; lia. Qed.

(** C25: scripts are read as they are written. A script printed with any time limit
    and any states in the order of their numbers, with any characters in their
    strings, each on a line of less than 255 characters ([fgets] cuts longer ones),
    is read by [utm_alloc] as that time limit and these states. *)
Theorem script_roundtrip t l : int_ok t → Forall state_ok l → StronglySorted (λ a b, num a ≤ num b) l → utm_alloc (print_script t l) = Some (Utm l t).
Proof.
  intros Ht Hok Hs. unfold utm_alloc, print_script. set (rest := concat _). set (f := txt "TIMEOUT " ++ shown_t t ++ [NL] ++ rest).
  assert (f = (txt "TIMEOUT " ++ shown_t t) ++ NL :: rest) as Ef by (unfold f; by rewrite <- app_assoc).
  assert (Forall (λ c, ascii_z c ≠ 10) (txt "TIMEOUT " ++ shown_t t)) as Hnl by (apply Forall_app; split; [by repeat constructor | apply graph_no_nl, shown_graph]).
  assert (length (txt "TIMEOUT " ++ shown_t t) < 255)%nat as Hl by (rewrite length_app; pose proof (shown_length t); change (length (txt "TIMEOUT ")) with 8%nat; lia).
  assert (length f = S (length (txt "TIMEOUT " ++ shown_t t) + length rest))%nat as Elen by (rewrite Ef, length_app; cbn [length]; lia).
  rewrite Elen, Ef. change ((txt "TIMEOUT " ++ shown_t t) ++ NL :: rest) with ("T"%char :: (txt "IMEOUT " ++ shown_t t) ++ NL :: rest). cbn [utm_lines].
  change ("T"%char :: (txt "IMEOUT " ++ shown_t t) ++ NL :: rest) with ((txt "TIMEOUT " ++ shown_t t) ++ NL :: rest). rewrite fgets_line by done.
  assert (utm_line (Utm [] TIMEOUT) ((txt "TIMEOUT " ++ shown_t t) ++ [NL]) = Some (Utm [] t)) as ->.
  { unfold utm_line. cbv zeta. rewrite <- app_assoc. change (blankskip (txt "TIMEOUT " ++ shown_t t ++ [NL])) with (txt "TIMEOUT " ++ shown_t t ++ [NL]).
    change (atoi_t (txt "TIMEOUT " ++ shown_t t ++ [NL])) with 0. change (0 <? 0) with false. cbv iota.
    change (take 7 (txt "TIMEOUT " ++ shown_t t ++ [NL])) with (txt "TIMEOUT"). rewrite bool_decide_eq_true_2 by done.
    change (drop 8 (txt "TIMEOUT " ++ shown_t t ++ [NL])) with (shown_t t ++ [NL]). rewrite atoi_text by done. done. }
  cbn [mbind option_bind]. unfold rest. rewrite utm_lines_print; [done | done | done | cbn [head]; fold rest; lia].
Qed.

Definition demo_script : list utmstate :=
  [State 1 C_SEND (txt "it's $1" ++ [NL]) 0; State 7 C_IN [NL] (-1); State 7 C_IF [] 1; State 2147483647 C_EXITRV [] (-2147483648)].
Lemma script_roundtrip_witness : utm_alloc (print_script 1000 demo_script) = Some (Utm demo_script 1000).
Proof.
  apply script_roundtrip.
  - unfold int_ok. lia.
  - repeat constructor; cbn; try lia; try discriminate; try (unfold int_ok; lia); apply (bool_decide_eq_true_1 _); vm_compute; reflexivity.
  - repeat constructor; cbn; lia.
Defined.

(** ** Reading up to a pattern *)

(** All that is still to be read, and the pieces of it. *)
Definition flat (b : text) (i : list text) : text := b ++ concat i.
Definition pieces (i : list text) : Prop := Forall (λ p, p ≠ []) i.
(** What a machine does not touch when it reads. *)
Definition same_but_input (s s' : run) : Prop := ∃ b p i, s' = set_in b p i s.

Lemma readchar_spec s c r : pieces (input s) → flat (inbuf s) (input s) = c :: r →
  ∃ s', readchar s = Done (Some c) s' ∧ same_but_input s s' ∧ pieces (input s') ∧ flat (inbuf s') (input s') = r.
Proof.
  intros Hp E. unfold readchar. unfold mbind at 1, M_bind at 1, get. unfold flat in *. destruct (inbuf s) as [|x b].
  - destruct (input s) as [|piece rest]; [discriminate|]. apply Forall_cons in Hp as [Hne Hp]. change (Z.to_nat BUFSIZE) with 256%nat. destruct piece as [|x piece]; [done|].
    cbn [take drop app concat] in *. injection E as -> <-. unfold mbind, M_bind, modify. eexists. split; [done|]. split; [by do 3 eexists|]. cbn [set_in inbuf input].
    pose proof (take_drop 255 piece) as Etd. destruct (drop 255 piece) as [|y l] eqn:Ed.
    + split; [done|]. by rewrite <- Etd at 2; rewrite app_nil_r.
    + split; [by constructor|]. cbn [concat]. rewrite app_assoc. by rewrite Etd.
  - cbn [app] in E. injection E as -> <-. unfold mbind, M_bind, modify. eexists. split; [done|]. split; [by do 3 eexists | done].
Qed.

Lemma suffixb_spec p l : (length l <? length p)%nat || negb (suffixb p l) = false ↔ p `suffix_of` l.
Proof.
  unfold suffixb. rewrite orb_false_iff, negb_false_iff, Nat.ltb_ge, bool_decide_eq_true. split.
  - intros [_ E]. exists (take (length l - length p) l). rewrite <- E at 2. by rewrite take_drop.
  - intros [k ->]. rewrite length_app. split; [lia|]. replace (length k + length p - length p)%nat with (length k) by lia. by rewrite drop_app_length.
Qed.
(** The text ends with the pattern, and for the first time. *)
Definition ends_first (p l : text) : Prop := p `suffix_of` l ∧ ∀ k, (0 < k < length l)%nat → ¬ p `suffix_of` take k l.

Lemma in_loop_spec p u : ∀ fuel line s r, u ≠ [] → (length u ≤ fuel)%nat → pieces (input s) → flat (inbuf s) (input s) = u ++ r →
  p `suffix_of` line ++ u → (∀ k, (0 < k < length u)%nat → ¬ p `suffix_of` line ++ take k u) →
  ∃ s', in_loop fuel p line s = Done (line ++ u, false) s' ∧ same_but_input s s' ∧ pieces (input s') ∧ flat (inbuf s') (input s') = r.
Proof.
  induction u as [|c u IH]; intros fuel line s r Hne Hf Hp Hflat Hend Hfirst; [done|]. destruct fuel as [|fuel]; [cbn in Hf; lia|]. cbn [app] in Hflat.
  destruct (readchar_spec s c (u ++ r) Hp Hflat) as (s1 & E1 & (b1 & p1 & i1 & Es1) & Hp1 & Hflat1). cbn [in_loop]. unfold mbind, M_bind. rewrite E1. cbv zeta.
  assert (line ++ c :: u = (line ++ [c]) ++ u) as Eapp by (by rewrite <- app_assoc). destruct (_ || _) eqn:Est.
  - destruct u as [|c' u]; [exfalso; apply not_false_iff_true in Est; apply Est; by apply suffixb_spec|].
    destruct (IH fuel (line ++ [c]) s1 r) as (s' & E & (b' & p' & i' & Es') & Hp' & Hr); [done | cbn in *; lia | done | done | by rewrite <- Eapp | |].
    + intros k Hk. specialize (Hfirst (S k)). cbn [take] in Hfirst. rewrite <- app_assoc. apply Hfirst. cbn in *. lia.
    + exists s'. rewrite Eapp. split; [done|]. split; [|done]. subst s' s1. by do 3 eexists.
  - apply suffixb_spec in Est. destruct u as [|c' u]; [exists s1; split; [done|]; split; [by do 3 eexists | done]|].
    exfalso. apply (Hfirst 1%nat); [cbn; lia | done].
Qed.

(** ** Steps *)

(** The machine gets from one state to another. *)
Definition reaches (u : utm) (s s' : run) : Prop := ∃ k, ∀ f, utm_loop (k + f) u s = utm_loop f u s'.
Lemma reaches_refl u s : reaches u s s.
Proof. by exists 0%nat. Qed.
Lemma reaches_trans u s1 s2 s3 : reaches u s1 s2 → reaches u s2 s3 → reaches u s1 s3.
Proof. intros [k Hk] [k' Hk']. exists (k + k')%nat. intros f. by rewrite <- Nat.add_assoc, Hk, Hk'. Qed.
Lemma reaches_step u s1 s2 s3 : utm_step u s1 = Done None s2 → reaches u s2 s3 → reaches u s1 s3.
Proof. intros E [k Hk]. exists (S k). intros f. cbn [Nat.add utm_loop]. unfold mbind, M_bind. by rewrite E, Hk. Qed.
Lemma reaches_end u s1 s2 v s3 : reaches u s1 s2 → utm_step u s2 = Done (Some v) s3 → ∃ n, ∀ f, (n ≤ f)%nat → utm_loop f u s1 = Done v s3.
Proof.
  intros [k Hk] E. exists (S k). intros f Hf. replace f with (k + S (f - S k))%nat by lia. rewrite Hk. cbn [utm_loop]. unfold mbind, M_bind. by rewrite E.
Qed.

Lemma step_in u s st rest line w r : status s = st :: rest → cmd st = C_IN → default [] (linebuf s) = line → pieces (input s) → flat (inbuf s) (input s) = w ++ r →
  w ≠ [] → pattern st `suffix_of` line ++ w → (∀ k, (0 < k < length w)%nat → ¬ pattern st `suffix_of` line ++ take k w) →
  ∃ s', utm_step u s = Done None (set_st rest (set_line (Some (line ++ w)) (curr s) s')) ∧ same_but_input s s' ∧ pieces (input s') ∧ flat (inbuf s') (input s') = r.
Proof.
  intros Est Ec El Hp Hflat Hne Hend Hfirst. destruct (in_loop_spec (pattern st) w (in_fuel s) line s r) as (s' & E & (b & p & i & Es') & Hp' & Hr); try done.
  { unfold in_fuel. unfold flat in Hflat. pose proof (f_equal length Hflat) as Hl. rewrite !length_app in Hl. lia. }
  exists s'. split; [|split; [by do 3 eexists | done]]. unfold utm_step. unfold mbind at 1, M_bind at 1, get. rewrite Est. unfold mbind at 1, M_bind at 1. cbn [deref mret M_ret]. cbv zeta. rewrite Ec, El.
  unfold mbind at 1, M_bind at 1. rewrite E. subst s'. unfold next_st. unfold mbind, M_bind, modify. cbn [fst snd set_line set_in set_st status curr tail]. by rewrite Est.
Qed.
