(* ===== verification/Mgmt.v ===== *)
(** * Mgmt: the management library

    [src/vde-2/src/lib/libvdemgmt.c] on the machines of [Utm], with the scripts it
    is installed with (src/vde-2/doc/libvdemgmt): opening a connection, sending a command and
    waiting for its answer, and events that the switch sends at any time.  The
    socket is the list of what its reads will find, and what is written to it.  A callback
    is a call in [calls].

    The theorem: a command is sent, and the number and the data of the switch's
    answer are what [vdemgmt_sendcmd] returns, whatever the data, whatever events are
    in between, and however the answer is cut into reads. *)
From Stdlib Require Import Lia Ascii String.
From stdpp Require Import base numbers sets list strings.
From S2P Require Import Prelude Scan Utm.

(** ** The scripts *)

Definition lines (l : list string) : text := concat ((λ s, txt s ++ [NL]) <$> l).
Definition openmachine_rc : text := lines ["TIMEOUT 1000"; "1 IN '$ ' 100"; "2 COPY"; "3 EXIT 0"; ""; "100 EXIT -1"]%string.
Definition closemachine_rc : text := lines ["1 SEND 'logout\n'"; "2 EXIT 0"]%string.
Definition asyncrecv_rc : text :=
  lines ["TIMEOUT 1000"; "1 IN '\n' 100"; "2 IF '30' 10"; "3 GOTO 100"; ""; "10 COPY"; "11 SKIP 2"; "12 RVATOI 8"; "13 EXITRV"; ""; "100 EXIT -1"; ""]%string.
Definition sendcmd_rc : text :=
  lines ["TIMEOUT 1000"; "1 SEND '$*\n'"; "2 THROW"; "3 IN '\n' 100"; "4 IF '30' 10"; "5 IF '10' 20"; "6 IF '0000 DATA END WITH \'.\'' 30"; "7 GOTO 2"; "";
         "10 SKIP 5"; "11 COPY"; "13 OUTTAG 3"; "14 OUTSHIFT"; "15 GOTO 2"; "";
         "20 SKIP 2"; "21 RVATOI"; "22 THROW"; "23 IN '$ ' 100"; "24 IF '30' 40"; "25 EXITRV"; "";
         "30 THROW"; "31 IN '\n' 100"; "32 IF '.\n' 35"; "33 COPY"; "34 GOTO 30"; "35 OUTTAG 1"; "36 OUTSHIFT"; "37 GOTO 2"; "";
         "40 SKIP 5"; "41 COPY"; "42 OUTTAG 3"; "43 OUTSHIFT"; "44 SKIP '\n'"; "45 GOTO 24"; ""; "100 EXIT -1"; ""]%string.
Definition machine (rc : text) : utm := default (Utm [] 0) (utm_alloc rc).
Definition open_utm : utm := Eval vm_compute in machine openmachine_rc.
Definition close_utm : utm := Eval vm_compute in machine closemachine_rc.
Definition asyncrecv_utm : utm := Eval vm_compute in machine asyncrecv_rc.
Definition sendcmd_utm : utm := Eval vm_compute in machine sendcmd_rc.
(** The scripts are read without error. *)
Lemma scripts_read : utm_alloc openmachine_rc = Some open_utm ∧ utm_alloc closemachine_rc = Some close_utm ∧
  utm_alloc asyncrecv_rc = Some asyncrecv_utm ∧ utm_alloc sendcmd_rc = Some sendcmd_utm.
Proof. vm_compute. split_and!; reflexivity. Qed.

(** ** The library *)

Definition DATATAG : Z := 1.
Definition ASYNTAG : Z := 3.
Definition SKIPHEAD : Z := 5.

(** [atab] holds the events that have a callback; a call is the event, its tag and its data. *)
Record mgmt := Mgmt {
  atab : list text; pbuf : text; ppos : Z; sock_in : list text; sock_out : list text; calls : list (text * Z * text);
  banner : text; prompt : text; version : text }.
Definition set_sock (b : text) (p : Z) (i o : list text) (m : mgmt) : mgmt := Mgmt (atab m) b p i o (calls m) (banner m) (prompt m) (version m).
Definition set_atab (a : list text) (m : mgmt) : mgmt := Mgmt a (pbuf m) (ppos m) (sock_in m) (sock_out m) (calls m) (banner m) (prompt m) (version m).
Definition add_call (c : text * Z * text) (m : mgmt) : mgmt :=
  Mgmt (atab m) (pbuf m) (ppos m) (sock_in m) (sock_out m) (calls m ++ [c]) (banner m) (prompt m) (version m).
Definition set_welcome (b p v : text) (m : mgmt) : mgmt := Mgmt (atab m) (pbuf m) (ppos m) (sock_in m) (sock_out m) (calls m) b p v.

(** [buf+o] as a C string; the buffer holds its NUL. *)
Definition cstr_at (buf : text) (o : Z) : M mgmt text :=
  if (o <? 0) || (Z.of_nat (length buf) <=? o) then λ _, Fault else mret (cstring (drop (Z.to_nat o) buf)).

Fixpoint atab_find (atab : list text) (event : text) : option text :=
  match atab with
  | [] => None
  | e :: atab => if prefixb e event then Some e else atab_find atab event
  end.
Definition atab_add (atab : list text) (new : text) : list text := atab ++ [new].
Fixpoint atab_del (atab : list text) (event : text) : list text :=
  match atab with
  | [] => []
  | e :: atab => if prefixb e event then atab else e :: atab_del atab event
  end.
(** The search in a buffer; an empty table is not compared with it. *)
Definition find_at (buf : text) (o : Z) : M mgmt (option text) :=
  m ← get;
  match atab m with
  | [] => mret None
  | a => t ← cstr_at buf o; mret (atab_find a t)
  end.

(** [utm_run] on the connection: the value and the list of output buffers. *)
Definition run_machine (fuel : nat) (u : utm) (argv : list text) : M mgmt (Z * list utm_out) := λ m,
  match utm_run fuel u argv (pbuf m) (ppos m) (sock_in m) with
  | Done v s => Done (v, outs s ++ [out s]) (set_sock (inbuf s) (inpos s) (input s) (sock_out m ++ sent s) m)
  | Exited c => Exited c
  | Fault => Fault
  end.

(** [strtok(cmd, " ")]: the words. *)
Fixpoint words_acc (s w : text) : list text :=
  match s with
  | [] => match w with [] => [] | _ => [w] end
  | c :: s => if ascii_z c =? 32 then match w with [] => words_acc s [] | _ => w :: words_acc s [] end else words_acc s (w ++ [c])
  end.
Definition words (s : text) : list text := words_acc s [].

Fixpoint scan_outs (rv : Z) (ps : list utm_out) (data : option text) : M mgmt (option text) :=
  match ps with
  | [] => mret data
  | p :: ps =>
    let data := if o_tag p =? DATATAG then Some (o_buf p) else data in
    (if o_tag p =? ASYNTAG then
       t ← find_at (o_buf p) SKIPHEAD;
       match t with
       | Some e => d ← cstr_at (o_buf p) (Z.of_nat (length e) + SKIPHEAD + 1); modify (add_call (e, rv, d))
       | None => mret ()
       end
     else mret ()) ;;
    scan_outs rv ps data
  end.
Definition vdemgmt_sendcmd (fuel : nat) (cmd : text) : M mgmt (Z * option text) :=
  r ← run_machine fuel sendcmd_utm (words cmd);
  d ← scan_outs r.1 r.2 None;
  mret (r.1, d).

Definition DEBUGADD : text := txt "debug/add ".
Definition DEBUGDEL : text := txt "debug/del ".
Definition vdemgmt_asyncreg (fuel : nat) (event : text) : M mgmt Z :=
  m ← get;
  match atab_find (atab m) event with
  | Some _ => mret (-1)
  | None =>
    r ← vdemgmt_sendcmd fuel (DEBUGADD ++ event);
    if r.1 =? 0 then modify (λ m, set_atab (atab_add (atab m) event) m) ;; mret 0 else mret r.1
  end.
Definition vdemgmt_asyncunreg (fuel : nat) (event : text) : M mgmt () :=
  _ ← vdemgmt_sendcmd fuel (DEBUGDEL ++ event);
  modify (λ m, set_atab (atab_del (atab m) event) m).

(** The loop of [vdemgmt_asyncrecv]; each turn reads something, so that the input bounds the turns. *)
Fixpoint async_loop (turns fuel : nat) (prevpos : Z) : M mgmt () :=
  match turns with
  | O => λ _, Fault
  | S turns =>
    r ← run_machine fuel asyncrecv_utm [];
    if r.1 =? -1 then mret () else
    let buf := concat (o_buf <$> r.2) in
    t ← find_at buf SKIPHEAD;
    match t with
    | Some e => d ← cstr_at buf (Z.of_nat (length e) + SKIPHEAD + 1 + prevpos); modify (add_call (e, r.1, d))
    | None => mret ()
    end ;;
    m ← get;
    match pbuf m with [] => mret () | _ => async_loop turns fuel (ppos m) end
  end.
Definition vdemgmt_asyncrecv (fuel : nat) : M mgmt () :=
  m ← get; async_loop (S (length (pbuf m) + length (concat (sock_in m)))) fuel 0.

(** [sep]: the last newline, found backwards from the end; before the buffer is a fault. *)
Fixpoint last_nl (l : text) (i : Z) : option Z :=
  match l with
  | [] => None
  | c :: l => match last_nl l (i + 1) with Some j => Some j | None => if ascii_z c =? 10 then Some i else None end
  end.
Fixpoint after_v (l : text) : option text :=
  match l with
  | [] => None
  | c :: l' => if prefixb (txt "V.") l then Some (drop 2 l) else after_v l'
  end.
Fixpoint up_to_nl (l : text) : option text :=
  match l with
  | [] => None
  | c :: l => if ascii_z c =? 10 then Some [] else cons c <$> up_to_nl l
  end.
(** [vdemgmt_open] on a connected socket; [false] is NULL. *)
Definition vdemgmt_open (fuel : nat) : M mgmt bool :=
  r ← run_machine fuel open_utm [];
  if r.1 =? -1 then mret false else
  let buf := cstring (concat (o_buf <$> r.2)) in
  sep ← deref (last_nl buf 0);
  let b := if sep =? 0 then buf else take (Z.to_nat (sep - 1)) buf in
  v ← deref (after_v b);
  v ← deref (up_to_nl v);
  modify (set_welcome b (drop (Z.to_nat (sep + 1)) buf) v) ;;
  mret true.
(** [vdemgmt_close]: the events are unregistered, each by its own name. *)
Definition vdemgmt_close (fuel : nat) : M mgmt () :=
  m ← get;
  forM (atab m) (λ e, vdemgmt_asyncunreg fuel e) ;;
  _ ← run_machine fuel close_utm []; mret ().

(** ** What the switch sends *)

Inductive item := IEvent (l : text) | IData (ls : list text).
(** A line without a newline, and one that does not end the data. *)
Definition plain (l : text) : Prop := Forall (λ c, ascii_z c ≠ 10 ∧ ascii_z c ≠ 0) l.
Definition data_line (l : text) : Prop := plain l ∧ l ≠ txt ".".
Definition item_ok (it : item) : Prop :=
  match it with IEvent l => plain l | IData ls => Forall data_line ls end.
Definition DATA_HEAD : text := txt "0000 DATA END WITH '.'".
(** An event of the switch begins with 30, and data is between two marks. *)
Definition item_text (it : item) : text :=
  match it with
  | IEvent l => txt "30" ++ l ++ [NL]
  | IData ls => DATA_HEAD ++ [NL] ++ concat ((λ l, l ++ [NL]) <$> ls) ++ txt "." ++ [NL]
  end.
Definition item_out (it : item) : utm_out :=
  match it with
  | IEvent l => Out (drop 3 (l ++ [NL]) ++ [NUL]) ASYNTAG
  | IData ls => Out (concat ((λ l, l ++ [NL; NUL]) <$> ls)) DATATAG
  end.
(** The line with the result: [printoutc(f,"1%03d %s",rv,strerror(rv))]. *)
Definition result_line (code : Z) (msg : text) : text := txt "1" ++ txt (fmt_0 3 code) ++ txt " " ++ msg ++ [NL].
(** What comes before the command is read: it ends with the first ["$ "], and is no event. *)
Definition prompt_ok (p : text) : Prop := ends_first (txt "$ ") p ∧ take 2 p ≠ txt "30".

(** The command is sent with one blank between its words. *)
Definition join (ws : list text) : text :=
  match ws with [] => [] | w :: r => w ++ concat ((λ x, txt " " ++ x) <$> r) end.
Lemma all_args_tail n : ∀ ws k s, argv s = ws → argoff s = 0 → (0 < k)%nat → (k + n = length ws)%nat →
  all_args n (Z.of_nat k) s = Some (concat ((λ x, txt " " ++ x) <$> drop k ws)).
Proof.
  induction n as [|n IH]; intros ws k s Ea Eo Hk Hn; cbn [all_args]; [rewrite drop_ge by lia; done|].
  destruct (lookup_lt_is_Some_2 ws k) as [a Ha]; [lia|]. unfold arg_at. rewrite Ea, Eo, Z.add_0_l, zget_nat, Ha. cbn [mbind option_bind].
  replace (Z.of_nat k + 1) with (Z.of_nat (S k)) by lia. rewrite (IH ws) by (done || lia). rewrite (drop_S ws a k) by done. rewrite fmap_cons.
  destruct (Z.eqb_spec (Z.of_nat k) 0); [lia|]. cbn [mbind option_bind concat]. by rewrite <- app_assoc.
Qed.
Lemma all_args_join ws s : argv s = ws → argoff s = 0 → all_args (length ws) 0 s = Some (join ws).
Proof.
  intros Ea Eo. destruct ws as [|w r]; [done|]. cbn [length all_args]. unfold arg_at at 1. rewrite Ea, Eo, Z.add_0_l. change (zget (w :: r) 0) with (Some w). cbn [mbind option_bind].
  change (0 + 1) with (Z.of_nat 1). rewrite (all_args_tail (length r) (w :: r) 1) by (done || cbn; lia). done.
Qed.

(** A step that computes. *)
Ltac step_to s := apply (reaches_step _ _ s); [reflexivity|].

Section sendcmd.
Context (ws : list text).

Definition at_ (n : Z) : list utmstate := sgoto (head sendcmd_utm) n.
(** A state of the machine. *)
Definition R (st : list utmstate) (c : Z) (l : option text) (v : Z) (b : text) (p : Z) (i : list text) (w : list text) (os : list utm_out) (o : utm_out) : run :=
  Run st c l v (Z.of_nat (length ws)) ws 0 b p i w os o.

Lemma step_if st rest c l v b p i w os o : 0 ≤ c ≤ Z.of_nat (length l) → cmd st = C_IF →
  utm_step sendcmd_utm (R (st :: rest) c (Some l) v b p i w os o) = Done None (R (if prefixb (pattern st) (drop (Z.to_nat c) l) then at_ (nextnum st) else rest) c (Some l) v b p i w os o).
Proof.
  intros Hc Ec. unfold R, utm_step. unfold mbind at 1, M_bind at 1, get. cbn [status]. unfold mbind at 1, M_bind at 1. cbn [deref mret M_ret]. cbv zeta. rewrite Ec. cbn [linebuf curr].
  unfold at_curr. destruct (Z.ltb_spec c 0); [lia|]. destruct (Z.ltb_spec (Z.of_nat (length l)) c); [lia|]. cbn [orb]. unfold mbind at 1, M_bind at 1. cbn [mret M_ret].
  by destruct (prefixb (pattern st) (drop (Z.to_nat c) l)).
Qed.
Lemma step_copy st rest c l v b p i w os o : 0 ≤ c ≤ Z.of_nat (length l) → cmd st = C_COPY →
  utm_step sendcmd_utm (R (st :: rest) c (Some l) v b p i w os o) =
  Done None (R rest c (Some l) v b p i w os (Out (o_buf o ++ cstring (drop (Z.to_nat c) l) ++ [NUL]) (o_tag o))).
Proof.
  intros Hc Ec. unfold R, utm_step. unfold mbind at 1, M_bind at 1, get. cbn [status]. unfold mbind at 1, M_bind at 1. cbn [deref mret M_ret]. cbv zeta. rewrite Ec. cbn [linebuf curr].
  unfold at_curr. destruct (Z.ltb_spec c 0); [lia|]. destruct (Z.ltb_spec (Z.of_nat (length l)) c); [lia|]. done.
Qed.
(** [IN] at an empty line. *)
Lemma step_read st rest c l v b p i w os o x r : cmd st = C_IN → default [] l = [] → pieces i → flat b i = x ++ r → x ≠ [] → ends_first (pattern st) x →
  ∃ b' p' i', utm_step sendcmd_utm (R (st :: rest) c l v b p i w os o) = Done None (R rest c (Some x) v b' p' i' w os o) ∧ pieces i' ∧ flat b' i' = r.
Proof.
  intros Ec El Hp Hflat Hne [Hend Hfirst].
  destruct (step_in sendcmd_utm (R (st :: rest) c l v b p i w os o) st rest [] x r) as (s' & E & (b' & p' & i' & ->) & Hp' & Hr); try done. by exists b', p', i'.
Qed.
Lemma line_first l : Forall (λ c, ascii_z c ≠ 10) l → ends_first [NL] (l ++ [NL]).
Proof.
  intros Hl. split; [by exists l|]. intros k Hk [k' E]. rewrite length_app in Hk. cbn in Hk. rewrite take_app_le in E by lia.
  assert (NL ∈ take k l) as Hin by (rewrite E; set_solver). rewrite Forall_forall in Hl. apply (Hl NL); [|done]. apply elem_of_take in Hin as (j & Hj & _). by eapply list_elem_of_lookup_2.
Qed.
Lemma plain_nl l : plain l → Forall (λ c, ascii_z c ≠ 10) l.
Proof. intros H. eapply Forall_impl; [exact H|]. by intros c [? _]. Qed.
Lemma plain_cstring l : plain l → cstring (l ++ [NL]) = l ++ [NL].
Proof. induction l as [|c l IH]; intros Hl; [done|]. apply Forall_cons in Hl as [[_ H0] Hl]. cbn. rewrite (proj2 (Z.eqb_neq _ _) H0). by rewrite IH. Qed.

Lemma plain_drop n l : plain l → cstring (drop n (l ++ [NL])) = drop n (l ++ [NL]).
Proof.
  intros Hl. destruct (decide (n ≤ length l)%nat) as [Hn|Hn].
  - rewrite drop_app_le by done. apply plain_cstring. by apply Forall_drop.
  - rewrite drop_ge by (rewrite length_app; cbn; lia). done.
Qed.
Lemma prefixb_app p l : prefixb p (p ++ l) = true.
Proof. unfold prefixb. rewrite take_app_length. by apply bool_decide_eq_true_2. Qed.
Lemma read_line st rest c l v b p i w os o x r : cmd st = C_IN → pattern st = [NL] → default [] l = [] → plain x → pieces i → flat b i = x ++ NL :: r →
  ∃ b' p' i', utm_step sendcmd_utm (R (st :: rest) c l v b p i w os o) = Done None (R rest c (Some (x ++ [NL])) v b' p' i' w os o) ∧ pieces i' ∧ flat b' i' = r.
Proof.
  intros Ec Ep El Hx Hp Hflat. apply step_read; [done | done | done | by rewrite <- app_assoc | by destruct x|]. rewrite Ep. by apply line_first, plain_nl.
Qed.

(** The data, line by line, up to the mark. *)
Lemma data_lines ls : ∀ c l v b p i w os o r, Forall data_line ls → pieces i → flat b i = concat ((λ l, l ++ [NL]) <$> ls) ++ txt "." ++ NL :: r →
  ∃ c' l' b' p' i', reaches sendcmd_utm (R (at_ 30) c l v b p i w os o) (R (at_ 35) c' l' v b' p' i' w os (Out (o_buf o ++ concat ((λ l, l ++ [NL; NUL]) <$> ls)) (o_tag o))) ∧
    pieces i' ∧ flat b' i' = r.
Proof.
  induction ls as [|x ls IH]; intros c l v b p i w os o r Hls Hp Hflat.
  - cbn [fmap list_fmap concat app] in *. destruct (read_line (State 31 C_IN [NL] 100) (at_ 32) 0 (match l with Some _ => Some [] | None => None end) v b p i w os o (txt ".") r) as (b' & p' & i' & E & Hp' & Hr); try done.
    { by destruct l. } { repeat constructor; vm_compute; discriminate. }
    exists 0, (Some (txt "." ++ [NL])), b', p', i'. split; [|done]. rewrite app_nil_r.
    apply (reaches_step _ _ (R (at_ 31) 0 (match l with Some _ => Some [] | None => None end) v b p i w os o)); [by destruct l|].
    apply (reaches_step _ _ (R (at_ 32) 0 (Some (txt "." ++ [NL])) v b' p' i' w os o)); [exact E|].
    apply (reaches_step _ _ (R (at_ 35) 0 (Some (txt "." ++ [NL])) v b' p' i' w os o)); [reflexivity|]. destruct o. apply reaches_refl.
  - apply Forall_cons in Hls as [[Hx Hdot] Hls]. rewrite fmap_cons in *. cbn [concat] in *. rewrite <- !app_assoc in Hflat. cbn [app] in Hflat.
    destruct (read_line (State 31 C_IN [NL] 100) (at_ 32) 0 (match l with Some _ => Some [] | None => None end) v b p i w os o x (concat ((λ l, l ++ [NL]) <$> ls) ++ txt "." ++ NL :: r)) as (b1 & p1 & i1 & E1 & Hp1 & Hr1); try done.
    { by destruct l. }
    destruct (IH 0 (Some (x ++ [NL])) v b1 p1 i1 w os (Out (o_buf o ++ (x ++ [NL]) ++ [NUL]) (o_tag o)) r) as (c' & l' & b' & p' & i' & Hre & Hp' & Hr'); [done..|].
    exists c', l', b', p', i'. split; [|done].
    apply (reaches_step _ _ (R (at_ 31) 0 (match l with Some _ => Some [] | None => None end) v b p i w os o)); [by destruct l|].
    apply (reaches_step _ _ (R (at_ 32) 0 (Some (x ++ [NL])) v b1 p1 i1 w os o)); [exact E1|].
    apply (reaches_step _ _ (R (at_ 33) 0 (Some (x ++ [NL])) v b1 p1 i1 w os o)).
    { change (at_ 32) with (State 32 C_IF (txt "." ++ [NL]) 35 :: at_ 33). rewrite step_if by (done || lia). cbn [pattern]. change (Z.to_nat 0) with 0%nat. rewrite drop_0.
      assert (prefixb (txt "." ++ [NL]) (x ++ [NL]) = false) as ->; [|done]. apply bool_decide_eq_false_2. intros E. apply Hdot.
      destruct x as [|a [|a' x]]; [discriminate E | cbn in E; injection E as ->; done|]. exfalso. cbn in E. injection E as -> ->. apply Forall_cons in Hx as [_ Hx]. apply Forall_cons in Hx as [[Hx _] _]. done. }
    apply (reaches_step _ _ (R (at_ 34) 0 (Some (x ++ [NL])) v b1 p1 i1 w os (Out (o_buf o ++ (x ++ [NL]) ++ [NUL]) (o_tag o)))).
    { change (at_ 33) with (State 33 C_COPY [] 0 :: at_ 34). rewrite step_copy by (done || lia). change (Z.to_nat 0) with 0%nat. rewrite drop_0, plain_cstring by done. done. }
    apply (reaches_step _ _ (R (at_ 30) 0 (Some (x ++ [NL])) v b1 p1 i1 w os (Out (o_buf o ++ (x ++ [NL]) ++ [NUL]) (o_tag o)))); [reflexivity|].
    cbn [o_buf o_tag] in Hre. rewrite <- !app_assoc in Hre. cbn [app] in Hre. rewrite <- !app_assoc. exact Hre.
Qed.

(** The line is read and is none of the other kinds. *)
Lemma head_line c l v b p i w os o x r : plain x → pieces i → flat b i = x ++ NL :: r →
  ∃ b' p' i', reaches sendcmd_utm (R (at_ 2) c l v b p i w os o) (R (at_ 4) 0 (Some (x ++ [NL])) v b' p' i' w os o) ∧ pieces i' ∧ flat b' i' = r.
Proof.
  intros Hx Hp Hflat. set (l0 := match l with Some _ => Some [] | None => None end : option text).
  destruct (read_line (State 3 C_IN [NL] 100) (at_ 4) 0 l0 v b p i w os o x r) as (b' & p' & i' & E & Hp' & Hr); try done; [by destruct l|].
  exists b', p', i'. split; [|done]. apply (reaches_step _ _ (R (at_ 3) 0 l0 v b p i w os o)); [by destruct l|].
  apply (reaches_step _ _ (R (at_ 4) 0 (Some (x ++ [NL])) v b' p' i' w os o)); [exact E | apply reaches_refl].
Qed.

Lemma run_event l c l0 v b p i w os r : plain l → pieces i → flat b i = txt "30" ++ l ++ NL :: r →
  ∃ c' l' b' p' i', reaches sendcmd_utm (R (at_ 2) c l0 v b p i w os (Out [] 0)) (R (at_ 2) c' l' v b' p' i' w (os ++ [item_out (IEvent l)]) (Out [] 0)) ∧ pieces i' ∧ flat b' i' = r.
Proof.
  intros Hl Hp Hflat. destruct (head_line c l0 v b p i w os (Out [] 0) (txt "30" ++ l) r) as (b' & p' & i' & Hre & Hp' & Hr); [|done | by rewrite <- app_assoc|].
  { repeat (constructor; [by vm_compute|]). done. }
  set (x := (txt "30" ++ l) ++ [NL]) in *. assert (x = txt "30" ++ l ++ [NL]) as Ex by (unfold x; by rewrite <- app_assoc).
  set (c' := Z.min (0 + 5) (Z.of_nat (length x))). exists c', (Some x), b', p', i'. split; [|done]. eapply reaches_trans; [exact Hre|].
  apply (reaches_step _ _ (R (at_ 10) 0 (Some x) v b' p' i' w os (Out [] 0))).
  { change (at_ 4) with (State 4 C_IF (txt "30") 10 :: at_ 5). rewrite step_if by (done || lia). cbn [pattern nextnum]. change (Z.to_nat 0) with 0%nat. rewrite drop_0, Ex, prefixb_app. done. }
  apply (reaches_step _ _ (R (at_ 11) c' (Some x) v b' p' i' w os (Out [] 0))); [reflexivity|].
  assert (drop (Z.to_nat c') x = drop 3 (l ++ [NL])) as Edrop.
  { change (drop 3 (l ++ [NL])) with (drop 5 (txt "30" ++ l ++ [NL])). rewrite <- Ex. unfold c'. destruct (decide (5 ≤ length x)%nat); [f_equal; lia|]. rewrite !drop_ge; [done | lia | lia]. }
  apply (reaches_step _ _ (R (at_ 13) c' (Some x) v b' p' i' w os (Out (drop 3 (l ++ [NL]) ++ [NUL]) 0))).
  { change (at_ 11) with (State 11 C_COPY [] 0 :: at_ 13). rewrite step_copy by (done || lia). rewrite Edrop, plain_drop by done. done. }
  step_to (R (at_ 14) c' (Some x) v b' p' i' w os (Out (drop 3 (l ++ [NL]) ++ [NUL]) 3)).
  step_to (R (at_ 15) c' (Some x) v b' p' i' w (os ++ [item_out (IEvent l)]) (Out [] 0)). step_to (R (at_ 2) c' (Some x) v b' p' i' w (os ++ [item_out (IEvent l)]) (Out [] 0)).
  apply reaches_refl.
Qed.

Lemma run_data ls c l0 v b p i w os r : Forall data_line ls → pieces i → flat b i = DATA_HEAD ++ NL :: concat ((λ l, l ++ [NL]) <$> ls) ++ txt "." ++ NL :: r →
  ∃ c' l' b' p' i', reaches sendcmd_utm (R (at_ 2) c l0 v b p i w os (Out [] 0)) (R (at_ 2) c' l' v b' p' i' w (os ++ [item_out (IData ls)]) (Out [] 0)) ∧ pieces i' ∧ flat b' i' = r.
Proof.
  intros Hls Hp Hflat. destruct (head_line c l0 v b p i w os (Out [] 0) DATA_HEAD (concat ((λ l, l ++ [NL]) <$> ls) ++ txt "." ++ NL :: r)) as (b1 & p1 & i1 & Hre1 & Hp1 & Hr1); [|done | done|].
  { repeat (constructor; [by vm_compute|]). done. }
  destruct (data_lines ls 0 (Some (DATA_HEAD ++ [NL])) v b1 p1 i1 w os (Out [] 0) r) as (c' & l' & b' & p' & i' & Hre & Hp' & Hr'); [done..|].
  exists c', l', b', p', i'. split; [|done]. eapply reaches_trans; [exact Hre1|].
  step_to (R (at_ 5) 0 (Some (DATA_HEAD ++ [NL])) v b1 p1 i1 w os (Out [] 0)). step_to (R (at_ 6) 0 (Some (DATA_HEAD ++ [NL])) v b1 p1 i1 w os (Out [] 0)).
  step_to (R (at_ 30) 0 (Some (DATA_HEAD ++ [NL])) v b1 p1 i1 w os (Out [] 0)). eapply reaches_trans; [exact Hre|]. cbn [o_buf o_tag app].
  step_to (R (at_ 36) c' l' v b' p' i' w os (item_out (IData ls))). step_to (R (at_ 37) c' l' v b' p' i' w (os ++ [item_out (IData ls)]) (Out [] 0)).
  step_to (R (at_ 2) c' l' v b' p' i' w (os ++ [item_out (IData ls)]) (Out [] 0)). apply reaches_refl.
Qed.

Lemma run_items its : ∀ c l0 v b p i w os r, Forall item_ok its → pieces i → flat b i = concat (item_text <$> its) ++ r →
  ∃ c' l' b' p' i', reaches sendcmd_utm (R (at_ 2) c l0 v b p i w os (Out [] 0)) (R (at_ 2) c' l' v b' p' i' w (os ++ (item_out <$> its)) (Out [] 0)) ∧ pieces i' ∧ flat b' i' = r.
Proof.
  induction its as [|it its IH]; intros c l0 v b p i w os r Hok Hp Hflat; [exists c, l0, b, p, i; rewrite app_nil_r; split; [apply reaches_refl | done]|].
  apply Forall_cons in Hok as [Hit Hok]. rewrite fmap_cons in Hflat. rewrite fmap_cons. cbn [concat] in Hflat. rewrite <- app_assoc in Hflat. set (r1 := concat (item_text <$> its) ++ r) in *.
  assert (∃ c' l' b' p' i', reaches sendcmd_utm (R (at_ 2) c l0 v b p i w os (Out [] 0)) (R (at_ 2) c' l' v b' p' i' w (os ++ [item_out it]) (Out [] 0)) ∧ pieces i' ∧ flat b' i' = r1) as (c1 & l1 & b1 & p1 & i1 & Hre1 & Hp1 & Hr1).
  { destruct it as [l|ls]; [apply run_event | apply run_data]; try done; rewrite Hflat; cbn [item_text]; rewrite <- ?app_assoc; cbn [app]; by rewrite <- ?app_assoc. }
  destruct (IH c1 l1 v b1 p1 i1 w (os ++ [item_out it]) r) as (c' & l' & b' & p' & i' & Hre & Hp' & Hr'); [done..|].
  exists c', l', b', p', i'. split; [|done]. eapply reaches_trans; [exact Hre1|]. by rewrite <- app_assoc in Hre.
Qed.

Lemma run_send b p i : reaches sendcmd_utm (R (at_ 1) 0 None (-1) b p i [] [] (Out [] 0)) (R (at_ 2) 0 None (-1) b p i [join ws ++ [NL]] [] (Out [] 0)).
Proof.
  apply (reaches_step _ _ (R (at_ 2) 0 None (-1) b p i [join ws ++ [NL]] [] (Out [] 0))); [|apply reaches_refl].
  change (at_ 1) with (State 1 C_SEND (txt "$*" ++ [NL]) 0 :: at_ 2). unfold R at 1, utm_step. unfold mbind at 1, M_bind at 1, get. cbn [status]. unfold mbind at 1, M_bind at 1. cbn [deref mret M_ret]. cbv zeta. cbn [cmd pattern].
  set (s := Run _ _ _ _ _ _ _ _ _ _ _ _ _). assert (expand (length (txt "$*" ++ [NL])) NUL (txt "$*" ++ [NL]) s = Some (join ws ++ [NL])) as ->; [|done].
  change (expand (length (txt "$*" ++ [NL])) NUL (txt "$*" ++ [NL]) s) with (a ← all_args (Z.to_nat (Z.of_nat (length ws))) 0 s; Some (a ++ [NL])). rewrite Nat2Z.id, (all_args_join ws) by done. done.
Qed.

(** The number of the result. *)
Lemma code_digits code : 0 ≤ code < 100 → txt (fmt_0 3 code) = ["0"%char; digit_char (code / 10); digit_char (code mod 10)].
Proof.
  intros Hc. assert (Forall (λ c, txt (fmt_0 3 c) = ["0"%char; digit_char (c / 10); digit_char (c mod 10)]) (seqZ 0 100)) as H by (apply (bool_decide_eq_true_1 _); vm_compute; reflexivity).
  rewrite Forall_forall in H. apply H, elem_of_seqZ. lia.
Qed.
Lemma digit36_digit d : 0 ≤ d < 10 → digit36 10 (digit_char d) = Some d.
Proof.
  intros Hd. unfold digit36. rewrite ascii_z_digit by done. rewrite (proj2 (Z.leb_le 48 (48 + d))), (proj2 (Z.leb_le (48 + d) 57)) by lia. cbn [andb].
  replace (48 + d - 48) with d by lia. by rewrite (proj2 (Z.ltb_lt d 10)) by lia.
Qed.
Lemma strtol_code code r : 0 ≤ code < 100 → strtol 10 (digit_char (code / 10) :: digit_char (code mod 10) :: " "%char :: r) = code.
Proof.
  intros Hc. assert (0 ≤ code / 10 < 10) as H1 by (split; [apply Z.div_pos; lia | apply Z.div_lt_upper_bound; lia]). assert (0 ≤ code mod 10 < 10) as H2 by (apply Z.mod_pos_bound; lia).
  unfold strtol, str_of. cbn [string_of_list_ascii]. destruct (digit_plain (code / 10) (String (digit_char (code mod 10)) (String " " (string_of_list_ascii r))) H1) as [-> ->].
  change (10 =? 16) with false. cbv iota. cbn [digits36]. rewrite !digit36_digit by done. change (digit36 10 " ") with (@None Z). cbv iota.
  rewrite int_value; [|unfold int_ok]; pose proof (Z.div_mod code 10); lia.
Qed.

Lemma step_rvatoi rest n c l v b p i w os o : 0 ≤ c ≤ Z.of_nat (length l) →
  utm_step sendcmd_utm (R (State n C_RVATOI [] 0 :: rest) c (Some l) v b p i w os o) = Done None (R rest c (Some l) (strtol 10 (drop (Z.to_nat c) l)) b p i w os o).
Proof.
  intros Hc. unfold R, utm_step. unfold mbind at 1, M_bind at 1, get. cbn [status]. unfold mbind at 1, M_bind at 1. cbn [deref mret M_ret]. cbv zeta. cbn [cmd linebuf curr nextnum].
  unfold at_curr. destruct (Z.ltb_spec c 0); [lia|]. destruct (Z.ltb_spec (Z.of_nat (length l)) c); [lia|]. done.
Qed.

Lemma run_result code msg q c l v b p i w os r : 0 ≤ code < 100 → plain msg → prompt_ok q → pieces i → flat b i = result_line code msg ++ q ++ r →
  ∃ c' l' b' p' i', reaches sendcmd_utm (R (at_ 2) c l v b p i w os (Out [] 0)) (R (at_ 25) c' l' code b' p' i' w os (Out [] 0)) ∧ pieces i' ∧ flat b' i' = r.
Proof.
  intros Hcode Hmsg [Hq H30] Hp Hflat. set (y := digit_char (code / 10) :: digit_char (code mod 10) :: " "%char :: msg).
  assert (0 ≤ code / 10 < 10) as Hd1 by (split; [apply Z.div_pos; lia | apply Z.div_lt_upper_bound; lia]). assert (0 ≤ code mod 10 < 10) as Hd2 by (apply Z.mod_pos_bound; lia).
  unfold result_line in Hflat. rewrite code_digits in Hflat by done. rewrite <- !app_assoc in Hflat. cbn [app] in Hflat.
  destruct (head_line c l v b p i w os (Out [] 0) (txt "10" ++ y) (q ++ r)) as (b1 & p1 & i1 & Hre1 & Hp1 & Hr1); [|done | exact Hflat|].
  { repeat (constructor; [by rewrite ?ascii_z_digit by done; split; (discriminate || lia)|]). done. }
  set (x := (txt "10" ++ y) ++ [NL]) in *.
  destruct (step_read (State 23 C_IN (txt "$ ") 100) (at_ 24) 0 (Some []) code b1 p1 i1 w os (Out [] 0) q r) as (b' & p' & i' & E & Hp' & Hr'); try done.
  { intros ->. destruct Hq as [[k Ek] _]. by destruct k. }
  exists 0, (Some q), b', p', i'. split; [|done]. eapply reaches_trans; [exact Hre1|].
  step_to (R (at_ 5) 0 (Some x) v b1 p1 i1 w os (Out [] 0)). step_to (R (at_ 20) 0 (Some x) v b1 p1 i1 w os (Out [] 0)).
  step_to (R (at_ 21) (Z.min (0 + 2) (Z.of_nat (length x))) (Some x) v b1 p1 i1 w os (Out [] 0)). assert (Z.min (0 + 2) (Z.of_nat (length x)) = 2) as -> by (unfold x; cbn [app length txt list_ascii_of_string]; lia).
  apply (reaches_step _ _ (R (at_ 22) 2 (Some x) code b1 p1 i1 w os (Out [] 0))).
  { change (at_ 21) with (State 21 C_RVATOI [] 0 :: at_ 22). rewrite step_rvatoi by (unfold x; cbn [app length txt list_ascii_of_string]; lia).
    change (drop (Z.to_nat 2) x) with (digit_char (code / 10) :: digit_char (code mod 10) :: " "%char :: msg ++ [NL]). by rewrite strtol_code. }
  step_to (R (at_ 23) 0 (Some []) code b1 p1 i1 w os (Out [] 0)). eapply reaches_step; [exact E|].
  apply (reaches_step _ _ (R (at_ 25) 0 (Some q) code b' p' i' w os (Out [] 0))); [|apply reaches_refl].
  change (at_ 24) with (State 24 C_IF (txt "30") 40 :: at_ 25). rewrite step_if by (done || lia). cbn [pattern]. change (Z.to_nat 0) with 0%nat. rewrite drop_0.
  assert (prefixb (txt "30") q = false) as ->; [|done]. by apply bool_decide_eq_false_2.
Qed.

Lemma machine_answers its code msg q b p i r : Forall item_ok its → 0 ≤ code < 100 → plain msg → prompt_ok q → pieces i →
  flat b i = concat (item_text <$> its) ++ result_line code msg ++ q ++ r →
  ∃ n, ∀ f, (n ≤ f)%nat → ∃ s, utm_run f sendcmd_utm ws b p i = Done code s ∧ sent s = [join ws ++ [NL]] ∧ outs s ++ [out s] = (item_out <$> its) ++ [Out [] 0] ∧
    pieces (input s) ∧ flat (inbuf s) (input s) = r.
Proof.
  intros Hits Hcode Hmsg Hq Hp Hflat. destruct (run_items its 0 None (-1) b p i [join ws ++ [NL]] [] (result_line code msg ++ q ++ r)) as (c1 & l1 & b1 & p1 & i1 & Hre1 & Hp1 & Hr1); [done..|].
  destruct (run_result code msg q c1 l1 (-1) b1 p1 i1 [join ws ++ [NL]] (item_out <$> its) r) as (c' & l' & b' & p' & i' & Hre & Hp' & Hr'); [done..|].
  destruct (reaches_end sendcmd_utm (start sendcmd_utm ws b p i) (R (at_ 25) c' l' code b' p' i' [join ws ++ [NL]] (item_out <$> its) (Out [] 0)) code
    (R (at_ 25) c' l' code b' p' i' [join ws ++ [NL]] (item_out <$> its) (Out [] 0))) as [n Hn].
  - eapply reaches_trans; [apply run_send|]. eapply reaches_trans; [exact Hre1 | exact Hre].
  - reflexivity.
  - exists n. intros f Hf. eexists. split; [unfold utm_run; by apply Hn | done].
Qed.
End sendcmd.

(** ** Commands and their answers *)

(** The data of an answer: the last one, with each line ended by a newline and a NUL. *)
Definition answer_data (its : list item) (d : option text) : option text :=
  foldl (λ d it, match it with IData ls => Some (concat ((λ l, l ++ [NL; NUL]) <$> ls)) | IEvent _ => d end) d its.
Definition is_data (it : item) : Prop := match it with IData _ => True | IEvent _ => False end.

Lemma scan_outs_spec v its : ∀ d m, atab m = [] ∨ Forall is_data its → scan_outs v ((item_out <$> its) ++ [Out [] 0]) d m = Done (answer_data its d) m.
Proof.
  induction its as [|it its IH]; intros d m Hev; [done|]. rewrite fmap_cons. cbn [app scan_outs]. unfold mbind at 1, M_bind at 1.
  assert (atab m = [] ∨ Forall is_data its) as Hev' by (destruct Hev as [|Hev]; [by left | right; by apply Forall_cons in Hev as [_ ?]]).
  destruct it as [l|ls]; cbn [item_out o_tag o_buf]; [|change (DATATAG =? ASYNTAG) with false; change (DATATAG =? DATATAG) with true; cbv iota; cbn [mret M_ret]; by apply IH].
  destruct Hev as [Ha | [[] _]%Forall_cons]. change (ASYNTAG =? ASYNTAG) with true. change (ASYNTAG =? DATATAG) with false. cbv iota.
  unfold find_at. unfold mbind at 1, M_bind at 1. unfold mbind at 1, M_bind at 1, get. rewrite Ha. cbn [mret M_ret]. by apply IH.
Qed.

(** C24: Commands over the management socket. The words of a command are sent with
    one blank between them. When the switch answers with blocks of data and lines of
    events, then the line of a result below 100 and then, with no event in between,
    its prompt, and either no callback is registered for events or the answer has no
    events, [vdemgmt_sendcmd] ends, returns the number of the result and the data of
    the (last) block, however the answer is cut into reads, and leaves what comes
    behind the prompt to be read; events are dropped. Outside these conditions it
    goes wrong: [event_before_prompt_faults] (an event between the result and the
    prompt), [short_event_overruns] and [event_in_answer_lost] (events with
    callbacks registered). *)
Theorem command_answered cmd its code msg q r m : Forall item_ok its → atab m = [] ∨ Forall is_data its → 0 ≤ code < 100 → plain msg → prompt_ok q →
  pieces (sock_in m) → flat (pbuf m) (sock_in m) = concat (item_text <$> its) ++ result_line code msg ++ q ++ r →
  ∃ n, ∀ fuel, (n ≤ fuel)%nat → ∃ m', vdemgmt_sendcmd fuel cmd m = Done (code, answer_data its None) m' ∧
    sock_out m' = sock_out m ++ [join (words cmd) ++ [NL]] ∧ flat (pbuf m') (sock_in m') = r ∧ calls m' = calls m ∧ atab m' = atab m.
Proof.
  intros Hits Hev Hcode Hmsg Hq Hp Hflat. destruct (machine_answers (words cmd) its code msg q (pbuf m) (ppos m) (sock_in m) r) as [n Hn]; [done..|].
  exists n. intros fuel Hf. destruct (Hn fuel Hf) as (s & E & Es & Eo & Hp' & Hr). set (m' := set_sock (inbuf s) (inpos s) (input s) (sock_out m ++ sent s) m).
  exists m'. split; [|by subst m'; cbn; rewrite Es]. unfold vdemgmt_sendcmd. unfold mbind at 1, M_bind at 1, run_machine. rewrite E, Eo. cbn [fst snd].
  unfold mbind, M_bind. by rewrite scan_outs_spec.
Qed.

Definition demo_mgmt (a : list text) (i : list text) : mgmt := Mgmt a [] 0 i [] [] [] [] [].
Definition demo_prompt : text := [NL] ++ txt "vde$ ".
Definition demo_items : list item := [IData [txt "Port 0001"; []; txt "..x"]; IEvent (txt "11 port/+ Port 02")].
Definition demo_answer : text := concat (item_text <$> demo_items) ++ result_line 22 (txt "Invalid argument") ++ demo_prompt ++ txt "30".
Lemma command_answered_witness : ∃ n, ∀ fuel, (n ≤ fuel)%nat → ∃ m', vdemgmt_sendcmd fuel (txt " port/print   1 ") (demo_mgmt [] [take 40 demo_answer; drop 40 demo_answer]) =
  Done (22, Some (txt "Port 0001" ++ [NL; NUL; NL; NUL] ++ txt "..x" ++ [NL; NUL])) m' ∧ sock_out m' = [txt "port/print 1" ++ [NL]] ∧ flat (pbuf m') (sock_in m') = txt "30".
Proof.
  destruct (command_answered (txt " port/print   1 ") demo_items 22 (txt "Invalid argument") demo_prompt (txt "30") (demo_mgmt [] [take 40 demo_answer; drop 40 demo_answer])) as [n Hn].
  - repeat (constructor; [|]); try done; cbn; repeat (constructor; [split; vm_compute; discriminate|]); constructor.
  - left. reflexivity.
  - lia.
  - repeat (constructor; [split; vm_compute; discriminate|]). constructor.
  - split; [|vm_compute; discriminate]. split; [by exists ([NL] ++ txt "vde")|]. intros k Hk. change (length demo_prompt) with 6%nat in Hk.
    destruct k as [|[|[|[|[|[|k]]]]]]; try lia; intros [t Ht]; destruct t as [|? [|? [|? [|? [|? [|? ?]]]]]]; discriminate Ht.
  - repeat constructor; discriminate.
  - vm_compute. reflexivity.
  - exists n. intros fuel Hf. destruct (Hn fuel Hf) as (m' & E & Eo & Er & _). exists m'. split; [exact E|]. split; [exact Eo | exact Er].
Defined.

(** ** Opening, and events *)

Definition demo_welcome : text := txt "VDE switch V.2.3.2" ++ [NL] ++ txt "(C) Virtual Square Team" ++ [NL] ++ demo_prompt.
Definition demo_event : text := txt "3011 port/+ Port 02" ++ [NL].
(** The banner, the prompt and the version of a switch. *)
Lemma open_reads_welcome :
  match vdemgmt_open 10 (demo_mgmt [] [take 9 demo_welcome; drop 9 demo_welcome]) with
  | Done b m => b = true ∧ banner m = txt "VDE switch V.2.3.2" ++ [NL] ++ txt "(C) Virtual Square Team" ∧ prompt m = txt "vde$ " ∧ version m = txt "2.3.2"
  | _ => False
  end.
Proof. vm_compute. split_and!; reflexivity. Qed.
(** An event that arrives alone: its callback gets the tag, written in octal, and the data. *)
Lemma event_alone_delivered :
  match vdemgmt_asyncrecv 10 (demo_mgmt [txt "port/+"] [demo_event]) with Done _ m => calls m = [(txt "port/+", 9, txt "Port 02" ++ [NL])] | _ => False end.
Proof. vm_compute. reflexivity. Qed.

(** ** Where the code goes wrong *)

(** [prevpos] is added to the place of the data although the buffer begins anew: the second
    of two events in one read is looked for behind its buffer. *)
Lemma second_event_overruns : vdemgmt_asyncrecv 10 (demo_mgmt [txt "port/+"] [demo_event ++ demo_event]) = Fault.
Proof. vm_compute. reflexivity. Qed.

(** [sendcmd.rc] skips the header of an event and the library skips it again: an event that
    comes with an answer does not reach its callback. *)
Lemma event_in_answer_lost :
  match vdemgmt_sendcmd 20 (txt "showinfo") (demo_mgmt [txt "port/+"] [demo_event ++ result_line 0 (txt "Success") ++ demo_prompt]) with
  | Done r m => r = (0, None) ∧ calls m = []
  | _ => False
  end.
Proof. vm_compute. split; reflexivity. Qed.
(** A short event is read behind its buffer. *)
Lemma short_event_overruns : vdemgmt_sendcmd 20 (txt "showinfo") (demo_mgmt [txt "port/+"] [txt "3011 x" ++ [NL] ++ result_line 0 (txt "Success") ++ demo_prompt]) = Fault.
Proof. vm_compute. reflexivity. Qed.

(** [SKIP] with a string subtracts pointers into two different strings; [sendcmd.rc] gets there
    when an event comes between the result and the prompt. *)
Lemma event_before_prompt_faults : vdemgmt_sendcmd 30 (txt "showinfo") (demo_mgmt [] [result_line 0 (txt "Success") ++ demo_event ++ demo_prompt]) = Fault.
Proof. vm_compute. reflexivity. Qed.

(** A result of 100 or more does not begin with 10: the library waits for another and gives up. *)
Lemma large_result_lost :
  match vdemgmt_sendcmd 30 (txt "port/create 3") (demo_mgmt [] [result_line 110 (txt "Connection timed out") ++ demo_prompt]) with
  | Done r m => r = (-1, None) ∧ flat (pbuf m) (sock_in m) = []
  | _ => False
  end.
Proof. vm_compute. split; reflexivity. Qed.

(** The example script doc/vdecmd ends with the command [EXITATOI], which no longer exists: the state
    is dropped, and every command of [unixcmd] fails. *)
Definition vdecmd_rc : text :=
  lines ["TIMEOUT 1000"; "1 IN '$ ' 100"; "3 SEND '$*\n'"; "5 THROW"; "6 IN '\n' 100"; "7 IF '0000 DATA END WITH \'.\'' 10"; "8 IF '10' 20"; "9 GOTO 100";
         "10 THROW "; "11 IN '\n' 100"; "12 IF '.\n' 5"; "13 COPY"; "14 GOTO 10"; "20 SKIP 2"; "21 SEND 'logout\n'"; "22 EXITATOI"; "100 EXIT -1"]%string.
Lemma vdecmd_always_fails :
  match utm_run 30 (machine vdecmd_rc) [txt "showinfo"] [] 0 [demo_welcome; result_line 0 (txt "Success") ++ demo_prompt] with
  | Done v s => v = -1 ∧ sent s = [txt "showinfo" ++ [NL]; txt "logout" ++ [NL]]
  | _ => False
  end.
Proof. vm_compute. split; reflexivity. Qed.

(** The character behind a numbered argument is not sent, and an argument at the end of
    the string lets the loop run over its end. *)
Lemma char_after_argument_lost : ∀ s a, argv s = [a] → argoff s = 0 → argc s = 1 →
  expand 5 NUL (txt "$1;x" ++ [NL]) s = Some (txt "x" ++ [NL]) ∧ expand 2 NUL (txt "$1") s = None.
Proof. intros s a Ea Eo Ec. cbn. rewrite Ec. done. Qed.

(** [IFARG] jumps when no argument is left. *)
Lemma ifarg_without_arguments :
  match utm_run 5 (Utm [State 1 C_IFARG [] 3; State 2 C_EXIT [] 0; State 3 C_EXIT [] 7] 0) [] [] 0 [] with Done v _ => v = 7 | _ => False end.
Proof. reflexivity. Qed.

(** A script that runs past its last state follows a NULL pointer. *)
Lemma script_without_exit : utm_run 5 (Utm [State 1 C_THROW [] 0] 0) [] [] 0 [] = Fault.
Proof. reflexivity. Qed.
